(* ===== verification/_CoqProject ===== *)
-Q . S2P
Prelude.v
GoStrings.v
GoSha256.v
GoNetip.v
GoDuration.v
GoFloat.v
GoRegexp.v
ComputeTypes.v
ComputeCapacity.v
ComputeZones.v
ComputeFill.v
ComputeDesired.v
ComputeAllocation.v
NodePoolPlan.v
NodePoolSimulation.v
NodePoolSafety.v
NodePoolQuota.v
AgentPools.v
SkuCache.v
NodePoolController.v
NsgEvaluator.v
NsgRanges.v
NsgSafety.v
ValidationResult.v
NsgValidation.v
RolloutTypes.v
VersionRules.v
RolloutStatus.v
RolloutSelection.v
RolloutProgressive.v
RolloutAssign.v
RolloutSafety.v
RolloutInvariant.v
RolloutControl.v
RolloutLifecycle.v
RolloutLiveness.v
Admission.v
FieldValidation.v
NodePoolAdmission.v
NodePoolGuards.v
ClusterAdmission.v
ClusterChecks.v
ClusterGuards.v
VersionValidation.v
NodePoolValidation.v
ClusterValidation.v
ClusterIdentities.v
ClusterFeatures.v
ClusterValidated.v
StatusConditions.v
StatusAggregators.v
ExternalAuthStatus.v
OperationState.v
OperationStore.v
OperationUpdate.v
OperationRequests.v
OperationSafety.v
ServiceStatus.v
OperationControllers.v
NodePoolOperations.v
NodePoolUpdates.v
ClusterOperations.v
ClusterDeletion.v
DeletionSafety.v
Dispatch.v
ClusterDispatch.v
ControlPlaneSize.v
NodePoolDispatch.v
CACertificates.v
ExternalAuthValidation.v
ExternalAuthDispatch.v
ExternalAuthUpdates.v
ClusterUpdates.v
Scheduling.v
Placement.v
PlacementSafety.v
