(* ===== verification/Prelude.v ===== *)
(** * Verification of the core logic of ARO-HCP

    ARO-HCP runs hosted OpenShift control planes on management clusters in
    Azure.  This library models, function by function, the parts of it that decide
    something, all of them written in Go, and proves what they promise:

    - the _fleet_ service ([fleet/pkg]): which AKS node pools a management cluster
      should have (allocation), and the controller that plans, one operation at a
      time, how to get there without losing capacity (planning, simulation);
    - the _connectivity validation_ of the resource provider's backend
      ([backend/pkg/utils/validationutils]): whether customer network security
      groups let worker nodes reach the hosted control plane;
    - the _placement_ of clusters on management clusters
      ([backend/pkg/controllers/cluster/placement]), and the reports of capacity it
      relies on ([fleet/pkg/controllers/capacityreporting]);
    - the _version rollout_ of hosted control planes
      ([backend/pkg/controllers/cluster/version/rollout]): nine controllers that
      share the documents of a channel and of its clusters;
    - the _gate of the API_: the static validation ([internal/validation]) and the
      admission ([internal/admission]) that a request passes before it is stored;
    - _operations_ ([backend/pkg/utils/operationutils], [frontend/pkg/frontend]): the
      asynchronous operation a request starts, and the controllers that follow it to
      its end ([backend/pkg/controllers/*/operations]);
    - the _update dispatch_ ([internal/ocm], [backend/pkg/controllers/*/update]): the
      controllers that send what was stored to Cluster Service;
    - the _status_ ([backend/pkg/utils/statusutils], [backend/pkg/controllers/*/status]):
      how the conditions of many controllers become one.

    The parts meet in the documents: a request that validation and admission accept
    becomes the cluster, node pool and external auth documents and an operation that
    owns them; the placement reserves room on a management cluster for a new cluster;
    the dispatch sends them to Cluster Service; the operation controllers
    compare what was asked for with what Cluster Service and the mirrored Hypershift
    resources have, and end the operation; the rollout reads the requested and
    pinned versions and writes the desired version; the aggregators report what is
    wrong; and the backend validates the network of an accepted node pool.

    ** Files and what they model

    Shared: [Prelude] (this file: the error monad [result], machine integers with
    wrap-around, sums, sorting, searches, tactics, the hint database [aro]);
    [GoStrings] (packages [strings] and [strconv]); [GoSha256] ([crypto/sha256],
    [encoding/hex]); [GoNetip] ([net/netip]); [GoDuration] ([time.ParseDuration]);
    [GoFloat] (doubles, their decimal text, [Duration.Minutes] and [Seconds]);
    [GoRegexp] (regular expressions by derivatives).

    Allocation ([fleet/pkg/compute]):
    - [ComputeTypes]: [types.go], [tiers.go], [budget.go]: pools, tiers, the four
      profiles, [ValidateProfile].
    - [ComputeCapacity]: [capacity.go]: capacity per role and zone, the floor of a
      transition.
    - [ComputeZones]: [zones.go]: the zones of a region.
    - [ComputeFill]: the combinatorial core of [desired.go] ([canFill],
      [maxNodesPerZone], [mostFillableNodes], [bestZones], the fill loops).
    - [ComputeDesired]: the rest of [desired.go] and [resolve.go].
    - [ComputeAllocation]: theorems about the allocator.

    Planning ([fleet/pkg/controllers/nodepool], [fleet/pkg/azure]):
    - [NodePoolPlan]: [action.go], [plan.go], [capacity.go]: the next operation.
    - [NodePoolSimulation]: [simulation.go]: the projection of a whole transition.
    - [NodePoolSafety], [NodePoolQuota]: theorems about planner and simulator.
    - [AgentPools]: [current.go], [agentpools], [agentpoolspec], [quota]: live pools.
    - [SkuCache]: [skucache]: SKU metadata and its cache.
    - [NodePoolController]: [controller.go]: one reconcile, end to end.

    Connectivity ([backend/pkg/utils/validationutils]):
    - [NsgEvaluator]: [nsg_evaluator.go].
    - [NsgRanges], [NsgSafety]: theorems about it.
    - [ValidationResult]: [validation_result.go].
    - [NsgValidation]: [subnet_helpers.go] and the validation itself.

    Rollout ([backend/pkg/controllers/cluster/version/rollout]):
    - [RolloutTypes]: documents, the interface [Semver] and its instance [Release].
    - [VersionRules]: version skew and upgrade paths ([internal/validation],
      [internal/admission/utils.go]).
    - [RolloutStatus]: the status collector and the references of a rollout.
    - [RolloutSelection]: which release of an update graph is best.
    - [RolloutProgressive]: the progressive z-stream controller.
    - [RolloutAssign]: the forced, initial and minor upgrade controllers, best
      version, the two seeding controllers and retirement.
    - [RolloutSafety], [RolloutInvariant], [RolloutLiveness]: theorems about one
      progressive sync, about any interleaving, and about fair runs.
    - [RolloutControl], [RolloutLifecycle]: theorems about the other controllers.

    The gate of the API ([internal/admission], [internal/validation]):
    - [Admission]: operations, options, field errors, tags, deadlines.
    - [NodePoolAdmission], [NodePoolGuards]: [admit_nodepool.go] and its theorems.
    - [ClusterAdmission]: [MutateCluster]; [ClusterChecks]: [AdmitCluster];
      [ClusterGuards], [ClusterFeatures]: their theorems.
    - [FieldValidation]: [validators.go], [validate_common.go], package [net].
    - [VersionValidation]: version profiles; static and dynamic checks together.
    - [NodePoolValidation]: [validate_nodepools.go] and its theorems.
    - [ClusterValidation]: [validate_cluster.go]; [ClusterIdentities],
      [ClusterValidated]: its theorems.
    - [CACertificates]: the bundles of certificates of [validators.go].
    - [ExternalAuthValidation]: [validate_externalauth.go] and its theorems.

    Status ([backend/pkg/utils/statusutils], [backend/pkg/controllers/*/status]):
    - [StatusConditions]: the union of conditions, inertia, the collector and its cache.
    - [StatusAggregators]: the six aggregators and theorems about them.
    - [ExternalAuthStatus]: the clients of an external auth, up to what the user sees.

    Operations ([backend/pkg/utils/operationutils], [frontend/pkg/frontend],
    [internal/database/cosmosstorage]):
    - [OperationState]: [operation_state.go]: the verdict of several checks.
    - [OperationStore]: documents, transactions, the interface [OperationDB].
    - [OperationUpdate]: the updates of [utils.go]; [ServiceStatus]: what the states of
      Cluster Service mean.
    - [OperationRequests]: the transactions of the frontend.
    - [OperationSafety]: the invariant of the store, its theorems, a database in memory.

    Operation controllers ([backend/pkg/controllers/*/operations]):
    - [OperationControllers]: what they share: whose operation it is, the verdict, the
      deadline, the update.
    - [NodePoolOperations] (creation, deletion), [NodePoolUpdates]: node pools.
    - [ClusterOperations] (creation), [ClusterDeletion]: clusters, and the creation and
      deletion of external auths; [DeletionSafety]: theorems about deletions.
    - [ExternalAuthUpdates]: updates of external auths; [ClusterUpdates]: of clusters.

    Placement ([backend/pkg/controllers/cluster/placement],
    [fleet/pkg/controllers/capacityreporting]):
    - [Scheduling]: the document of a management cluster's capacity, its two reporters.
    - [Placement]: evaluation, selection, reservation, cleanup, placement sync.
    - [PlacementSafety]: the step relation of all who write the document, theorems.

    Update dispatch ([internal/ocm], [backend/pkg/controllers/*/update]):
    - [Dispatch]: [cooldown.go] and the pass the three controllers share.
    - [ClusterDispatch], [NodePoolDispatch], [ExternalAuthDispatch]: the two projections
      of a configuration, the update, the controller, and what settles.
    - [ControlPlaneSize]: a size from the request of an administrator ([admin/server]) to
      Cluster Service and back.

    ** How code becomes definitions

    A Go function is a Gallina function of the same name; a method takes its
    receiver first.  Loops are folds or [Fixpoint]s over the list they range over;
    a loop body with early exits is a definition of its own.  [(T, error)] is
    [result E T] with one constructor of [E] per error site; a function that only
    returns an error gives [option E]; a [field.ErrorList] is the list of its
    errors, whose texts are symbolic.  [int32] and [int64] values are [Z]; where
    a sum, difference or product can leave the range the operation wraps
    ([+!], [-!], [*!]), and the theorems state the bounds under which it does not.
    An integer division by zero and a nil dereference are explicit errors.  Maps
    are [gmap]; where the code iterates over a map the result is proved
    independent of the order.  A pointer is an [option].  Slices that the code
    updates in place are passed and returned.  The [SyncOnce] of a rollout controller
    takes the documents its listers answer with and gives the writes it attempts.
    Log output is left out; what the node pool [SyncOnce] logs as its report is its
    result.

    Calls that leave the repository are arguments: Azure's answers, the port range
    parser and the jitter of apimachinery, the quantity parser of Kubernetes,
    the resource ID and URL parsers, the update service, the clock, [rand.Perm], new
    UUIDs, [SetStatusCondition].  Interfaces with more than one function are classes:
    [Semver] and [VersionFields] (package [semver]), [FieldValidators] and
    [SliceValidators] (package [validate] of Kubernetes), [LRU] (its cache),
    [ConditionOps] (the conditions of apimachinery), [PEM] (PEM and X.509), [QuantityOps] (quantities of Kubernetes), [OperationDB]
    (the database), [ClusterMerge], [NodePoolMerge] and [ExternalAuthMerge] (what Cluster
    Service makes of an update), each with a class of documented laws and an instance
    that satisfies them; [HypershiftNames], [HostedClusterNames] and [OpenshiftNames] are
    names of other projects' APIs.  No other assumption is made about them except where a
    theorem names one.

    ** What is proved

    - Allocation: [canFill], a Hall condition over all groups of zones, holds
      exactly when an assignment of nodes exists; [maxNodesPerZone] and
      [bestZones] are optimal; the greedy fill of [allocatePerZoneTier] always
      completes that optimum, gives every zone the same count and stays within
      every family's budget; all tiers together leave room for one surge node per
      family; results are deterministic, pool names valid, failures consistent.
    - Floor and capacity: the effective floor is the least the transition has to
      keep; capacities are order independent.
    - Planner and simulator: the planner never panics; every action it proposes is
      applicable, keeps the capacity floor of its role and zone, and never
      overcommits a family's quota; a projection always ends within its step limit
      with a reported outcome, and "converged" means that the planner has nothing
      left to do; deletions only hit superfluous pools.
    - Adapters: what is written to Azure is read back as the same pool; the cache
      serves what it fetched; a reconcile never fails in the simulator.
    - Connectivity: the packet semantics of Azure (first matching rule in priority
      order decides) is the specification; for IPv4 prefixes, and where the Allow rules
      apply to whole worker prefixes and every source port, no reported violation means
      every packet of every required path is permitted, and a passed validation implies
      connectivity in both directions (an example shows what happens elsewhere); a
      reported violation names an address that is not permitted; range merging and
      prefix coverage are exact; reading rules and errors fail closed.
    - Rollout: under every interleaving of the controllers the clusters in flight
      stay within the canary or rolling allowance and the failure budget; fair runs
      complete; what a progressive sync writes concerns a cluster of its channel; forced
      versions settle, have one owner and mean what they say; minor upgrades respect the
      skew of the requested and of the lowest and highest active version of every node
      pool, across major versions too; a retired channel is named by no
      document; the chosen release is the newest of its line.
    - The gate: an accepted version change respects channel groups, upgrade paths and
      skew at both layers (the channel where channels are recorded, the group is neither
      nightly nor candidate); a cluster keeps a node pool and workers; resources are not
      shared between clusters; operator identities are exactly those the version
      needs and the identities assigned to the resource are exactly those used;
      networks are disjoint; counts, sizes and disk types of node pools are in range; what is fixed at creation
      stays fixed; the encryption key is complete and the same for life, so that its
      admission check has a result; experimental features need their registration; a
      certificate bundle is accepted exactly when its blocks are a chain of valid
      authorities with nothing but white space after them; an
      accepted external auth is complete; which updates of one panic.
    - Status: a condition is degraded exactly when something has been bad for longer than
      the inertia; a silent controller is noticed as long as the cache of first observations holds all
      keys; on a version that reports on clients a broken one reaches the user.
    - Operations: an operation and the resource it owns change together; an operation a
      resource names as active is not over, through any requests about clusters, node
      pools and external auths; notifications are not lost; the worst state
      of several checks wins.
    - Operation controllers: creations and updates become [Succeeded] exactly when the
      checks of the code hold of what is there, [Failed] exactly for the reasons the code
      has, and nothing is written exactly when something the pass needs cannot be read;
      deletions succeed only when the document is gone.
    - Placement: the best management cluster is chosen, whatever the order of the list;
      under every interleaving of its writers and with stale caches no reservation is
      lost and none is made without room, which then lasts until a report shows fewer
      interfaces than are reserved; the cleanup keeps what is needed; an
      interrupted placement can wait for its own reservation for ever.
    - Update dispatch: the cooldown is kept; after an update that Cluster Service accepts
      the next pass finds nothing to do, exactly for the configurations that survive the
      way there and back; those that do not are named, and a size an administrator asks
      for is one of them: it is sent again in every later pass.

    ** Bounds and termination

    No definition takes artificial fuel.  The simulation recurses on
    [maxCycles - len(Steps)], the loop bound of the code itself;
    [maxNodesLoop], [mostFillableLoop] and [squeezeCeiling] recurse on the
    distance the Go loop counts down or up; the IPv6 group loop on the eight
    groups of an address.  Size hypotheses ([planInv], [desiredOk],
    [allocationInputs], [reconcileInputs]) bound counts and resources so that
    64-bit sums are exact; each has a concrete witness taken from a test of the
    repository where there is one.

    ** Not modelled

    The text tables of [formatTrace], the Azure client factories and paging
    calls, the locking of the SKU cache (one caller at a time is modelled), the
    managed cluster profile variants of the agent pool helpers; the watch handlers
    that enqueue keys for the controllers; the rewriting of field paths in validation
    errors; the validation of management clusters, stamps and subscriptions; the HTTP
    request of a notification and the ARM form of a status; the controller of the
    validity of OIDC certificates; the halves of the builders of
    [internal/ocm/convert.go] that create resources.  Strings are byte strings and case folding is ASCII, and so are the letters of resource group
    names.  Connectivity theorems are for IPv4; IPv6 is executable but has no
    theorem.  The reservation theorems take the cache of clusters as fixed while they
    count.  Of the rest of the repository the HTTP layer, the clients and informers,
    the generated code and the tooling decide little; the other controllers of the
    backend and of the fleet service and the kube applier are not modelled. *)
From stdpp Require Export base list gmap strings sorting.
From Stdlib Require Export ZArith Lia.


(** ** Notation scope of the development

    [go_scope] holds the notation for Go expressions: the error monad and the
    fixed-width arithmetic.  It is opened locally by the files that use it. *)
Declare Scope go_scope.
Delimit Scope go_scope with go.

(** ** Results

    A Go function returning [(T, error)] is modelled by [result E T]; [E] is the
    component's own type of errors, with one constructor per error site. *)
Inductive result (E A : Type) : Type :=
  | Ok (a : A)
  | Err (e : E).
Arguments Ok {E A} a.
Arguments Err {E A} e.

Definition result_bind {E A B} (m : result E A) (k : A → result E B) : result E B :=
  match m with Ok a => k a | Err e => Err e end.

Definition is_ok {E A} (m : result E A) : bool :=
  match m with Ok _ => true | Err _ => false end.

Notation "'let*' x ':=' m 'in' k" := (result_bind m (λ x, k))
  (at level 10, x pattern, m at level 100, k at level 200) : go_scope.

Lemma result_bind_ok {E A B} (m : result E A) (k : A → result E B) b :
  result_bind m k = Ok b ↔ ∃ a, m = Ok a ∧ k a = Ok b.
Proof.
  destruct m; simpl; split.
  - eauto.
  - by intros (? & [= ->] & ?).
  - done.
  - by intros (? & ? & ?).
Qed.

(** ** Fixed-width integers

    An [int64] (or [int32]) is the [Z] it denotes; every operation that can leave
    the width is followed by [wrap64] (or [wrap32]), Go's wrap-around. *)
Definition wrap (w : Z) (z : Z) : Z := (z + 2 ^ (w - 1)) `mod` 2 ^ w - 2 ^ (w - 1).
Definition wrap64 : Z → Z := wrap 64.
Definition wrap32 : Z → Z := wrap 32.
Arguments wrap64 _ : simpl never.
Arguments wrap32 _ : simpl never.

Definition in64 (z : Z) : Prop := (-2 ^ 63 <= z < 2 ^ 63)%Z.
Definition in32 (z : Z) : Prop := (-2 ^ 31 <= z < 2 ^ 31)%Z.

Definition in64b (z : Z) : bool := ((-2 ^ 63 <=? z) && (z <? 2 ^ 63))%Z.

Definition maxInt32 : Z := 2147483647.
Definition maxInt64 : Z := 9223372036854775807.

Notation "a +! b" := (wrap64 (a + b)) (at level 50, left associativity) : go_scope.
Notation "a -! b" := (wrap64 (a - b)) (at level 50, left associativity) : go_scope.
Notation "a *! b" := (wrap64 (a * b)) (at level 40, left associativity) : go_scope.

Section integers.
Local Open Scope Z_scope.

Lemma wrap64_unfold z :
  wrap64 z = (z + 9223372036854775808) mod 18446744073709551616 - 9223372036854775808.
Proof. reflexivity. Qed.

Lemma wrap32_unfold z :
  wrap32 z = (z + 2147483648) mod 4294967296 - 2147483648.
Proof. reflexivity. Qed.

Lemma in64_unfold z :
  in64 z ↔ -9223372036854775808 <= z < 9223372036854775808.
Proof. reflexivity. Qed.

Lemma in32_unfold z : in32 z ↔ -2147483648 <= z < 2147483648.
Proof. reflexivity. Qed.

Lemma in64b_spec z : in64b z = true ↔ in64 z.
Proof. unfold in64b, in64. rewrite andb_true_iff, Z.leb_le, Z.ltb_lt. done. Qed.

Lemma wrap64_id z : in64 z → wrap64 z = z.
Proof.
  rewrite in64_unfold, wrap64_unfold. intros.
  rewrite Z.mod_small; lia.
Qed.

Lemma wrap32_id z : in32 z → wrap32 z = z.
Proof.
  rewrite in32_unfold, wrap32_unfold. intros.
  rewrite Z.mod_small; lia.
Qed.

Lemma wrap64_in64 z : in64 (wrap64 z).
Proof.
  rewrite in64_unfold, wrap64_unfold.
  pose proof (Z.mod_pos_bound (z + 9223372036854775808) 18446744073709551616).
  lia.
Qed.

Lemma wrap32_in32 z : in32 (wrap32 z).
Proof.
  rewrite in32_unfold, wrap32_unfold.
  pose proof (Z.mod_pos_bound (z + 2147483648) 4294967296). lia.
Qed.

(** [wrap64] depends only on the residue, so it commutes with the ring
    operations: nested wrap-arounds collapse into one. *)
Lemma wrap64_congr a b :
  a mod 18446744073709551616 = b mod 18446744073709551616 → wrap64 a = wrap64 b.
Proof.
  intros H. rewrite !wrap64_unfold.
  rewrite <- (Z.add_mod_idemp_l a), <- (Z.add_mod_idemp_l b) by lia. by rewrite H.
Qed.

Lemma wrap64_mod z :
  wrap64 z mod 18446744073709551616 = z mod 18446744073709551616.
Proof.
  rewrite wrap64_unfold.
  rewrite Zminus_mod_idemp_l. f_equal. lia.
Qed.

Lemma wrap64_add_l a b : wrap64 (wrap64 a + b) = wrap64 (a + b).
Proof.
  apply wrap64_congr. rewrite <- Z.add_mod_idemp_l, wrap64_mod by lia.
  by rewrite Z.add_mod_idemp_l by lia.
Qed.

Lemma wrap64_add_r a b : wrap64 (a + wrap64 b) = wrap64 (a + b).
Proof. by rewrite Z.add_comm, wrap64_add_l, Z.add_comm. Qed.

Lemma wrap64_sub_l a b : wrap64 (wrap64 a - b) = wrap64 (a - b).
Proof. by rewrite <- !Z.add_opp_r, wrap64_add_l. Qed.

Lemma wrap64_sub_r a b : wrap64 (a - wrap64 b) = wrap64 (a - b).
Proof.
  apply wrap64_congr. rewrite <- Zminus_mod_idemp_r, wrap64_mod.
  by rewrite Zminus_mod_idemp_r.
Qed.

Lemma wrap64_idemp a : wrap64 (wrap64 a) = wrap64 a.
Proof. apply wrap64_id, wrap64_in64. Qed.
End integers.

Create Rewrite HintDb wrap.
#[export] Hint Rewrite wrap64_add_l wrap64_add_r wrap64_sub_l wrap64_sub_r
  wrap64_idemp : wrap.

(** Closes a goal about in-range integers after removing the wrap-arounds that
    the hypotheses rule out. *)
Ltac int_range :=
  rewrite ?in64_unfold, ?in32_unfold in *;
  repeat match goal with
    | H : context [in64 _] |- _ => rewrite in64_unfold in H
    | H : context [in32 _] |- _ => rewrite in32_unfold in H
    end;
  unfold maxInt32, maxInt64 in *; lia.

(** ** Sums *)
Definition Zsum (l : list Z) : Z := foldr Z.add 0%Z l.

Lemma Zsum_nil : Zsum [] = 0%Z.
Proof. done. Qed.

Lemma Zsum_cons x l : Zsum (x :: l) = (x + Zsum l)%Z.
Proof. done. Qed.

(** Accumulation in an [int64] variable, as a Go [for] loop with [+=] does. *)
Definition sum64 (l : list Z) : Z := fold_left (λ a x, wrap64 (a + x)) l 0%Z.

Section sums.
Local Open Scope Z_scope.
Context {A : Type}.
Implicit Types (f g : A → Z) (l : list A).

Lemma Zsum_app (l1 l2 : list Z) : Zsum (l1 ++ l2) = Zsum l1 + Zsum l2.
Proof. induction l1; simpl; lia. Qed.

Lemma Zsum_nonneg (l : list Z) : Forall (Z.le 0) l → 0 <= Zsum l.
Proof. induction 1; simpl; lia. Qed.

Lemma Zsum_map_nonneg f l : (∀ x, x ∈ l → 0 <= f x) → 0 <= Zsum (f <$> l).
Proof.
  intros H. apply Zsum_nonneg, Forall_forall. intros ? [x [-> Hx]]%list_elem_of_fmap.
  by apply H.
Qed.

Lemma Zsum_map_le f g l :
  (∀ x, x ∈ l → f x <= g x) → Zsum (f <$> l) <= Zsum (g <$> l).
Proof.
  induction l as [|x l IH]; intros H; csimpl; [lia|].
  pose proof (H x ltac:(left)).
  assert (Zsum (f <$> l) <= Zsum (g <$> l)); [|lia].
  apply IH. intros y Hy. apply H. by right.
Qed.

Lemma Zsum_map_ext f g l :
  (∀ x, x ∈ l → f x = g x) → Zsum (f <$> l) = Zsum (g <$> l).
Proof.
  intros H. apply Z.le_antisymm; apply Zsum_map_le; intros x Hx; rewrite (H x Hx); lia.
Qed.

Lemma Zsum_map_add f g l :
  Zsum ((λ x, f x + g x) <$> l) = Zsum (f <$> l) + Zsum (g <$> l).
Proof. induction l as [|x l IH]; csimpl; [done|]. rewrite IH. lia. Qed.

Lemma Zsum_map_zero l : Zsum ((λ _ : A, 0) <$> l) = 0.
Proof. induction l; csimpl; lia. Qed.

Lemma Zsum_map_opp f l : Zsum ((λ x, - f x) <$> l) = - Zsum (f <$> l).
Proof. induction l as [|x l IH]; csimpl; [done|]. rewrite IH. lia. Qed.

Lemma Zsum_map_mul_r f (c : Z) l : Zsum ((λ x, f x * c) <$> l) = Zsum (f <$> l) * c.
Proof. induction l as [|x l IH]; csimpl; [lia|]. rewrite IH. lia. Qed.

Lemma Zsum_elem_le f l x :
  (∀ y, y ∈ l → 0 <= f y) → x ∈ l → f x <= Zsum (f <$> l).
Proof.
  intros Hnn Hx. induction Hx as [x l|x y l Hx IH]; csimpl.
  - assert (0 <= Zsum (f <$> l)); [|lia].
    apply Zsum_map_nonneg. intros y Hy. apply Hnn. by right.
  - pose proof (Hnn y ltac:(left)).
    assert (f x <= Zsum (f <$> l)); [|lia].
    apply IH. intros z Hz. apply Hnn. by right.
Qed.

Lemma Zsum_perm (l1 l2 : list Z) : l1 ≡ₚ l2 → Zsum l1 = Zsum l2.
Proof. induction 1; simpl; lia. Qed.

Lemma Zsum_swap {B} (h : A → B → Z) l (m : list B) :
  Zsum ((λ x, Zsum ((λ y, h x y) <$> m)) <$> l) =
  Zsum ((λ y, Zsum ((λ x, h x y) <$> l)) <$> m).
Proof.
  induction l as [|x l IH]; csimpl.
  - induction m; csimpl; lia.
  - rewrite IH. clear IH. induction m as [|y m IHm]; csimpl; lia.
Qed.

Lemma Zsum_filter (P : A → Prop) `{∀ x, Decision (P x)} f l :
  Zsum (f <$> base.filter P l) = Zsum ((λ x, if decide (P x) then f x else 0) <$> l).
Proof.
  induction l as [|x l IH]; [done|]. rewrite filter_cons. csimpl.
  destruct (decide (P x)); csimpl; rewrite ?Zsum_cons; lia.
Qed.

Lemma Zsum_filter_le (P : A → Prop) `{∀ x, Decision (P x)} f l :
  (∀ x, x ∈ l → 0 <= f x) → Zsum (f <$> base.filter P l) <= Zsum (f <$> l).
Proof.
  intros Hnn. rewrite Zsum_filter. apply Zsum_map_le. intros x Hx.
  destruct (decide (P x)); [lia|]. by apply Hnn.
Qed.

Lemma Zsum_sublist_le f l1 l2 :
  l1 `sublist_of` l2 → (∀ x, x ∈ l2 → 0 <= f x) → Zsum (f <$> l1) <= Zsum (f <$> l2).
Proof.
  induction 1 as [|x l1 l2 Hs IH|x l1 l2 Hs IH]; intros Hnn; csimpl; [lia| |].
  - assert (Zsum (f <$> l1) <= Zsum (f <$> l2)); [|rewrite ?Zsum_cons; lia].
    apply IH. intros y Hy. apply Hnn. by right.
  - pose proof (Hnn x ltac:(left)).
    assert (Zsum (f <$> l1) <= Zsum (f <$> l2)); [|rewrite ?Zsum_cons; lia].
    apply IH. intros y Hy. apply Hnn. by right.
Qed.

(** Changing one element changes the sum by the difference. *)
Lemma Zsum_alter f (g : A → A) i l x :
  l !! i = Some x →
  Zsum (f <$> alter g i l) = Zsum (f <$> l) - f x + f (g x).
Proof.
  revert i. induction l as [|y l IH]; intros [|i] Hi; simplify_eq/=.
  - csimpl. rewrite ?Zsum_cons. lia.
  - change (alter g (S i) (y :: l)) with (y :: alter g i l). csimpl.
    rewrite ?Zsum_cons, (IH i) by done. lia.
Qed.

(** Changing a function at one element of a duplicate-free list. *)
Lemma Zsum_update f g (x : A) l (d : Z) :
  NoDup l → x ∈ l → g x = f x + d → (∀ y, y ∈ l → y ≠ x → g y = f y) →
  Zsum (g <$> l) = Zsum (f <$> l) + d.
Proof.
  intros Hnd Hx Hgx Hgy. induction Hnd as [|y l Hy Hnd IH]; [by apply elem_of_nil in Hx|].
  csimpl. rewrite ?Zsum_cons. apply elem_of_cons in Hx as [<-|Hx].
  - rewrite (Zsum_map_ext g f l); [lia|]. intros z Hz. apply Hgy; [by right|]. by intros ->.
  - rewrite IH; [|done|].
    + rewrite (Hgy y); [lia|left|]. by intros ->.
    + intros z Hz. apply Hgy. by right.
Qed.

(** [int64] accumulation is the exact sum modulo 2^64. *)
Lemma sum64_from (a : Z) (l : list Z) :
  fold_left (λ a x, wrap64 (a + x)) l (wrap64 a) = wrap64 (a + Zsum l).
Proof.
  revert a. induction l as [|x l IH]; intros a; simpl.
  - f_equal. lia.
  - rewrite wrap64_add_l, IH. f_equal. lia.
Qed.

Lemma sum64_wrap (l : list Z) : sum64 l = wrap64 (Zsum l).
Proof. apply (sum64_from 0). Qed.

Lemma Zsum_perm_map f l1 l2 : l1 ≡ₚ l2 → Zsum (f <$> l1) = Zsum (f <$> l2).
Proof. intros H. apply Zsum_perm. by rewrite H. Qed.

Lemma sum64_exact (l : list Z) : in64 (Zsum l) → sum64 l = Zsum l.
Proof. intros. by rewrite sum64_wrap, wrap64_id. Qed.
End sums.

(** ** Sorting

    [sort_by less] inserts the elements one after another, each behind the
    elements it is not [less] than: Go's insertion sort, which is what
    [sort.Slice] and [slices.SortFunc] run on up to twelve elements and what
    [sort.SliceStable] computes on any number of them. *)
Section sorting.
Context {A : Type} (less : A → A → bool).

Fixpoint insert_by (x : A) (l : list A) : list A :=
  match l with
  | [] => [x]
  | y :: l => if less x y then x :: y :: l else y :: insert_by x l
  end.

Definition sort_by (l : list A) : list A :=
  fold_left (λ acc x, insert_by x acc) l [].

(** [a] may stand before [b]. *)
Definition ordered (a b : A) : Prop := less b a = false.

Lemma insert_by_perm x l : insert_by x l ≡ₚ x :: l.
Proof.
  induction l as [|y l IH]; simpl; [done|].
  destruct (less x y); [done|]. rewrite IH. apply Permutation_swap.
Qed.

Lemma sort_by_from_perm l acc :
  fold_left (λ acc x, insert_by x acc) l acc ≡ₚ l ++ acc.
Proof.
  revert acc. induction l as [|x l IH]; intros acc; simpl; [done|].
  rewrite IH, insert_by_perm. symmetry. apply Permutation_middle.
Qed.

Lemma sort_by_perm l : sort_by l ≡ₚ l.
Proof. unfold sort_by. by rewrite sort_by_from_perm, app_nil_r. Qed.

Lemma elem_of_sort_by x l : x ∈ sort_by l ↔ x ∈ l.
Proof. by rewrite sort_by_perm. Qed.

Lemma length_sort_by l : length (sort_by l) = length l.
Proof. by rewrite sort_by_perm. Qed.

Lemma NoDup_sort_by l : NoDup (sort_by l) ↔ NoDup l.
Proof. by rewrite sort_by_perm. Qed.

(** Sortedness needs [less] to be a strict weak order. *)
Context (less_asym : ∀ a b, less a b = true → less b a = false).
Context (ordered_trans : ∀ a b c, ordered a b → ordered b c → ordered a c).

Lemma insert_by_sorted x l :
  StronglySorted ordered l → StronglySorted ordered (insert_by x l).
Proof.
  induction 1 as [|y l Hl IH Hy]; simpl; [repeat constructor|].
  destruct (less x y) eqn:E.
  - assert (ordered x y) by (by apply less_asym).
    repeat constructor; try done.
    eapply Forall_impl; [exact Hy|]. eauto.
  - constructor; [done|].
    assert (ordered y x) by done.
    apply Forall_forall. intros z Hz. rewrite insert_by_perm in Hz.
    rewrite Forall_forall in Hy. apply elem_of_cons in Hz as [->|Hz]; auto.
Qed.

Lemma sort_by_sorted l : StronglySorted ordered (sort_by l).
Proof.
  unfold sort_by. assert (StronglySorted ordered []) as Hacc by constructor.
  revert Hacc. generalize (@nil A).
  induction l as [|x l IH]; intros acc Hacc; simpl; [done|].
  apply IH, insert_by_sorted, Hacc.
Qed.
End sorting.

Lemma StronglySorted_weaken {A} (R R' : A → A → Prop) l :
  (∀ x y, R x y → R' x y) → StronglySorted R l → StronglySorted R' l.
Proof.
  intros H. induction 1 as [|x l _ IH Hx]; constructor; [done|].
  eapply Forall_impl; [exact Hx|]. auto.
Qed.

Lemma insert_by_ext {A} (less less' : A → A → bool) x l :
  (∀ y, y ∈ l → less x y = less' x y) → insert_by less x l = insert_by less' x l.
Proof.
  induction l as [|y l IH]; simpl; intros H; [done|].
  rewrite (H y) by left. rewrite IH by (intros z Hz; apply H; by right). done.
Qed.

(** Sorting only compares the elements of the list. *)
Lemma sort_by_ext {A} (less less' : A → A → bool) l :
  (∀ x y, x ∈ l → y ∈ l → less x y = less' x y) → sort_by less l = sort_by less' l.
Proof.
  intros H. unfold sort_by.
  assert (∀ x, x ∈ @nil A → x ∈ l) as Hacc by (intros x Hx; inversion Hx).
  assert (∀ x, x ∈ l → x ∈ l) as Hl by done.
  revert Hacc Hl. generalize (@nil A). generalize l at 2 4 5.
  intros l'. induction l' as [|x l' IH]; intros acc Hacc Hl; simpl; [done|].
  rewrite (insert_by_ext less less').
  - apply IH; [|intros y Hy; apply Hl; by right].
    intros y Hy. rewrite insert_by_perm in Hy.
    apply elem_of_cons in Hy as [->|Hy]; [apply Hl; left|auto].
  - intros y Hy. apply H; [apply Hl; left|auto].
Qed.

(** ** Lists and options *)
Section lists.
Context {A : Type}.

(** First element satisfying a boolean test, as the [for]/[if]/[return] loops
    of the source select it. *)
Fixpoint find_first (p : A → bool) (l : list A) : option A :=
  match l with
  | [] => None
  | x :: l => if p x then Some x else find_first p l
  end.

Lemma find_first_Some p l x :
  find_first p l = Some x →
  ∃ l1 l2, l = l1 ++ x :: l2 ∧ p x = true ∧ Forall (λ y, p y = false) l1.
Proof.
  induction l as [|y l IH]; simpl; [done|].
  destruct (p y) eqn:E.
  - intros [= ->]. exists [], l. eauto.
  - intros (l1 & l2 & -> & ? & ?)%IH. exists (y :: l1), l2. eauto.
Qed.

Lemma find_first_None p l :
  find_first p l = None ↔ Forall (λ y, p y = false) l.
Proof.
  induction l as [|y l IH]; simpl; [by rewrite Forall_nil|].
  rewrite Forall_cons, <- IH. destruct (p y); naive_solver.
Qed.

(** First [Some] produced along a list: the shape of the planner's scans. *)
Fixpoint find_map {B} (f : A → option B) (l : list A) : option B :=
  match l with
  | [] => None
  | x :: l => match f x with Some b => Some b | None => find_map f l end
  end.

Lemma find_map_Some {B} (f : A → option B) l b :
  find_map f l = Some b → ∃ x, x ∈ l ∧ f x = Some b.
Proof.
  induction l as [|x l IH]; simpl; [done|].
  destruct (f x) eqn:E.
  - intros [= ->]. exists x. split; [left|done].
  - intros (y & ? & ?)%IH. exists y. split; [by right|done].
Qed.

Lemma find_map_None {B} (f : A → option B) l :
  find_map f l = None ↔ (∀ x, x ∈ l → f x = None).
Proof.
  induction l as [|x l IH]; simpl; [set_solver|].
  destruct (f x) eqn:E.
  - split; [done|]. intros H. specialize (H x ltac:(left)). congruence.
  - rewrite IH. split; [|set_solver].
    intros H y [->|Hy]%elem_of_cons; auto.
Qed.
End lists.

Lemma existsb_elem {A} (p : A → bool) l :
  existsb p l = true ↔ ∃ x, x ∈ l ∧ p x = true.
Proof. rewrite existsb_exists. by setoid_rewrite list_elem_of_In. Qed.

Lemma forallb_elem {A} (p : A → bool) l :
  forallb p l = true ↔ ∀ x, x ∈ l → p x = true.
Proof. rewrite forallb_forall. by setoid_rewrite list_elem_of_In. Qed.

Lemma existsb_false {A} (p : A → bool) l :
  existsb p l = false ↔ ∀ x, x ∈ l → p x = false.
Proof.
  rewrite <- not_true_iff_false, existsb_elem.
  split; intros H.
  - intros x Hx. apply not_true_iff_false. eauto.
  - intros (x & Hx & Hp). rewrite H in Hp; done.
Qed.

(** ** Automation *)

(** Reflects the boolean tests in the hypotheses and in the goal. *)
Ltac bool_reflect :=
  repeat match goal with
    | H : _ && _ = true |- _ => apply andb_true_iff in H as [? ?]
    | H : _ || _ = false |- _ => apply orb_false_iff in H as [? ?]
    | H : negb _ = true |- _ => apply negb_true_iff in H
    | H : negb _ = false |- _ => apply negb_false_iff in H
    | H : bool_decide _ = true |- _ => apply bool_decide_eq_true in H
    | H : bool_decide _ = false |- _ => apply bool_decide_eq_false in H
    | H : (_ <? _)%Z = true |- _ => apply Z.ltb_lt in H
    | H : (_ <? _)%Z = false |- _ => apply Z.ltb_ge in H
    | H : (_ <=? _)%Z = true |- _ => apply Z.leb_le in H
    | H : (_ <=? _)%Z = false |- _ => apply Z.leb_gt in H
    | H : (_ =? _)%Z = true |- _ => apply Z.eqb_eq in H
    | H : (_ =? _)%Z = false |- _ => apply Z.eqb_neq in H
    end.

(** Case analysis on the scrutinee of the first [if] or [match] of a hypothesis. *)
Ltac destruct_if_in H :=
  match type of H with
  | context [if ?b then _ else _] => destruct b eqn:?
  end.

Create HintDb aro.
#[export] Hint Resolve wrap64_in64 wrap32_in32 wrap64_id wrap32_id : aro.
#[export] Hint Resolve Zsum_map_nonneg : aro.

(** ** Lists of errors *)

Lemma fmap_nil_inv' {A B} (f : A → B) l : f <$> l = [] ↔ l = [].
Proof. by destruct l. Qed.

Lemma filter_nil {A} (p : A → bool) (l : list A) : List.filter p l = [] ↔ ∀ a, a ∈ l → p a = false.
Proof.
  split.
  - intros Hn a Hin. destruct (p a) eqn:E; [|done].
    assert (Hf : a ∈ List.filter p l) by (by rewrite list_elem_of_In, filter_In, <- list_elem_of_In).
    rewrite Hn in Hf. set_solver.
  - intros Hall. destruct (List.filter p l) as [|a f] eqn:E; [done|].
    assert (Hin : a ∈ List.filter p l) by (rewrite E; left).
    rewrite list_elem_of_In, filter_In, <- list_elem_of_In in Hin. destruct Hin as [Hin Hp].
    by rewrite (Hall a Hin) in Hp.
Qed.

Lemma app_nil_iff {A} (l k : list A) : (l ++ k)%list = [] ↔ l = [] ∧ k = [].
Proof. split; [apply app_eq_nil|by intros [-> ->]]. Qed.

Lemma Ok_inj {E A} (a b : A) : Ok (E := E) a = Ok b → a = b.
Proof. by intros [= ->]. Qed.

Lemma flat_map_nil_iff {A B} (f : A → list B) l : flat_map f l = [] ↔ ∀ a, a ∈ l → f a = [].
Proof.
  induction l as [|a l IH]; simpl; [set_solver|]. rewrite app_nil_iff, IH. set_solver.
Qed.

(** Splits a hypothesis that a concatenation of error lists is empty. *)
Ltac split_errors H :=
  lazymatch type of H with
  | (_ ++ _)%list = [] => let H' := fresh H in apply app_nil_iff in H as [H' H]; split_errors H'; split_errors H
  | _ => idtac
  end.
