(* ===== verification/GoStrings.v ===== *)
(** * Go's string functions

    The functions of the packages [strings] and [strconv] that the modelled
    code calls, on byte strings.  Case folding and white space are those of
    ASCII: the strings the code folds or trims are Azure identifiers, tags, port
    and CIDR texts, all ASCII. *)
From S2P Require Import Prelude.
From Stdlib Require Export Ascii.
From Stdlib Require Import DecimalString DecimalZ.

Local Open Scope Z_scope.

Definition ascii_Z (c : ascii) : Z := Z.of_N (N_of_ascii c).

Definition lower_ascii (c : ascii) : ascii :=
  let n := N_of_ascii c in
  if ((65 <=? n) && (n <=? 90))%N then ascii_of_N (n + 32) else c.

Definition upper_ascii (c : ascii) : ascii :=
  let n := N_of_ascii c in
  if ((97 <=? n) && (n <=? 122))%N then ascii_of_N (n - 32) else c.

Fixpoint map_string (f : ascii → ascii) (s : string) : string :=
  match s with
  | EmptyString => EmptyString
  | String c s => String (f c) (map_string f s)
  end.

(** [strings.ToLower], [strings.ToUpper], [strings.EqualFold] *)
Definition ToLower : string → string := map_string lower_ascii.
Definition ToUpper : string → string := map_string upper_ascii.
Definition EqualFold (a b : string) : bool := String.eqb (ToLower a) (ToLower b).

Definition is_space (c : ascii) : bool :=
  let n := N_of_ascii c in
  ((9 <=? n) && (n <=? 13) || (n =? 32))%N.

Fixpoint drop_spaces (l : list ascii) : list ascii :=
  match l with
  | [] => []
  | c :: l' => if is_space c then drop_spaces l' else l
  end.

(** [strings.TrimSpace] *)
Definition TrimSpace (s : string) : string :=
  String.string_of_list_ascii
    (rev (drop_spaces (rev (drop_spaces (String.list_ascii_of_string s))))).

(** [strings.Split(s, sep)] for a one-character separator: always at least one
    piece, the empty string giving one empty piece. *)
Fixpoint Split (sep : ascii) (s : string) : list string :=
  match s with
  | EmptyString => [EmptyString]
  | String c s =>
      if Ascii.eqb c sep then EmptyString :: Split sep s
      else match Split sep s with
           | [] => [String c EmptyString]
           | p :: ps => String c p :: ps
           end
  end.

(** [strings.Cut] at a one-byte separator: the text before and after the first
    separator, and whether there is one. *)
Fixpoint Cut (sep : ascii) (s : string) : string * string * bool :=
  match s with
  | EmptyString => (EmptyString, EmptyString, false)
  | String c s' =>
      if Ascii.eqb c sep then (EmptyString, s', true)
      else let '(before, after, found) := Cut sep s' in (String c before, after, found)
  end.

(** [strings.Join] *)
Fixpoint Join (sep : string) (l : list string) : string :=
  match l with
  | [] => ""
  | [x] => x
  | x :: l => (x +:+ sep +:+ Join sep l)%string
  end.

(** [strings.HasPrefix(s, prefix)] *)
Definition HasPrefix (s p : string) : bool := String.prefix p s.

(** [strings.Contains] *)
Fixpoint strings_Contains (s sub : string) : bool :=
  HasPrefix s sub || match s with EmptyString => false | String _ rest => strings_Contains rest sub end.

(** [strings.Contains(s, c)] for a one-character argument *)
Fixpoint ContainsByte (s : string) (c : ascii) : bool :=
  match s with
  | EmptyString => false
  | String d s => Ascii.eqb d c || ContainsByte s c
  end.

(** Go's [<] on strings: bytewise lexicographic. *)
Definition string_less (a b : string) : bool := String.ltb a b.

(** [strings.Compare] *)
Definition Compare (a b : string) : Z :=
  match String.compare a b with Lt => -1 | Eq => 0 | Gt => 1 end.

(** [strconv.Itoa] and [fmt]'s [%d] *)
Definition Itoa (z : Z) : string := NilZero.string_of_int (Z.to_int z).

(** [fmt]'s [%t] *)
Definition fmt_bool (b : bool) : string := if b then "true" else "false".

Definition minus_sign : ascii := "-"%char.
Definition plus_sign : ascii := "+"%char.

(** An optional sign, then at least one digit and only digits. *)
Definition parse_decimal (s : string) : option Z :=
  let digits (t : string) : option Z :=
    Z.of_uint <$> NilZero.uint_of_string t in
  match s with
  | String c t =>
      if Ascii.eqb c minus_sign then Z.opp <$> digits t
      else if Ascii.eqb c plus_sign then digits t
      else digits s
  | EmptyString => None
  end.

(** [strconv.Atoi] on a 64-bit platform: out-of-range values are an error. *)
Definition Atoi (s : string) : option Z :=
  z ← parse_decimal s; guard (in64b z = true);; Some z.

(** [strconv.Quote] and [fmt]'s [%q] on ASCII text. *)
Definition quote_char : ascii := ascii_of_N 34.
Definition backslash : ascii := ascii_of_N 92.
Definition hex_nibble (n : N) : ascii := ascii_of_N (if (n <? 10)%N then 48 + n else 87 + n)%N.

Definition quote_escape (c : ascii) : string :=
  let n := N_of_ascii c in
  let short (d : ascii) := String backslash (String d EmptyString) in
  if Ascii.eqb c quote_char then short quote_char
  else if Ascii.eqb c backslash then short backslash
  else if (n =? 7)%N then short "a"%char
  else if (n =? 8)%N then short "b"%char
  else if (n =? 12)%N then short "f"%char
  else if (n =? 10)%N then short "n"%char
  else if (n =? 13)%N then short "r"%char
  else if (n =? 9)%N then short "t"%char
  else if (n =? 11)%N then short "v"%char
  else if ((n <? 32) || (n =? 127))%N then
    String backslash (String "x"%char (String (hex_nibble (n / 16)%N)
      (String (hex_nibble (n mod 16)%N) EmptyString)))
  else String c EmptyString.

Fixpoint quote_body (s : string) : string :=
  match s with
  | EmptyString => EmptyString
  | String c s => (quote_escape c +:+ quote_body s)%string
  end.

Definition Quote (s : string) : string :=
  (String quote_char (quote_body s) +:+ String quote_char EmptyString)%string.

(** ** Laws *)
Lemma string_app_assoc (s t u : string) : ((s +:+ t) +:+ u = s +:+ (t +:+ u))%string.
Proof. induction s as [|c s IH]; [done|]. exact (f_equal (String c) IH). Qed.

Lemma map_string_app f s t :
  map_string f (s +:+ t) = (map_string f s +:+ map_string f t).
Proof. induction s as [|c s IH]; simpl; [done|]. by rewrite IH. Qed.

Lemma lower_ascii_idemp c : lower_ascii (lower_ascii c) = lower_ascii c.
Proof. by destruct c as [[] [] [] [] [] [] [] []]. Qed.

Lemma ToLower_idemp s : ToLower (ToLower s) = ToLower s.
Proof.
  unfold ToLower. induction s as [|c s IH]; simpl; [done|].
  by rewrite lower_ascii_idemp, IH.
Qed.

Lemma EqualFold_spec a b : EqualFold a b = true ↔ ToLower a = ToLower b.
Proof. apply String.eqb_eq. Qed.

Lemma string_compare_le a b : String.le a b ↔ String.leb a b = true.
Proof. unfold String.le. by rewrite Is_true_true. Qed.

Lemma string_less_spec a b : string_less a b = true ↔ String.le a b ∧ a ≠ b.
Proof.
  rewrite string_compare_le. unfold string_less, String.ltb, String.leb.
  split.
  - destruct (String.compare a b) eqn:E; try done.
    intros _. split; [done|]. intros ->.
    pose proof (String.compare_antisym b b) as H. rewrite E in H. done.
  - intros [H1 H2]. destruct (String.compare a b) eqn:E; try done.
    exfalso. apply H2. by apply String.compare_eq_iff.
Qed.

Lemma string_less_irrefl a : string_less a a = false.
Proof. apply not_true_iff_false. rewrite string_less_spec. naive_solver. Qed.

Lemma string_less_total a b :
  a ≠ b → string_less a b = true ∨ string_less b a = true.
Proof.
  intros. rewrite !string_less_spec.
  destruct (total String.le a b); [left|right]; auto.
Qed.

Lemma string_less_asym a b : string_less a b = true → string_less b a = false.
Proof.
  rewrite string_less_spec. intros [H1 H2]. apply not_true_iff_false.
  rewrite string_less_spec. intros [H3 _]. apply H2. by apply (anti_symm String.le).
Qed.

Lemma string_less_trans a b c :
  string_less a b = true → string_less b c = true → string_less a c = true.
Proof.
  rewrite !string_less_spec. intros [H1 H2] [H3 H4]. split.
  - by trans b.
  - intros ->. apply H4. by apply (anti_symm String.le).
Qed.

Lemma string_less_false a b : string_less a b = false ↔ String.le b a.
Proof.
  rewrite <- not_true_iff_false, string_less_spec. split.
  - intros H. destruct (total String.le a b) as [Hab|]; [|done].
    destruct (decide (a = b)) as [->|]; [done|]. naive_solver.
  - intros Hba [Hab Hne]. apply Hne. by apply (anti_symm String.le).
Qed.

Lemma string_ordered_trans a b c :
  ordered string_less a b → ordered string_less b c → ordered string_less a c.
Proof. unfold ordered. rewrite !string_less_false. intros. by trans b. Qed.

#[export] Hint Resolve string_less_irrefl string_less_asym string_less_trans
  string_ordered_trans : aro.

(** A string list has exactly one sorted arrangement: two sorted permutations
    of each other are equal. *)
Lemma sort_strings_unique l1 l2 :
  l1 ≡ₚ l2 → sort_by string_less l1 = sort_by string_less l2.
Proof.
  intros H. eapply StronglySorted_unique_strong with (R := ordered string_less).
  - intros x y _ _. unfold ordered. rewrite !string_less_false.
    intros. by apply (anti_symm String.le).
  - apply sort_by_sorted; eauto with aro.
  - apply sort_by_sorted; eauto with aro.
  - by rewrite !sort_by_perm.
Qed.

Lemma parse_decimal_Itoa z : parse_decimal (Itoa z) = Some z.
Proof.
  unfold Itoa, parse_decimal.
  assert (Hd : ∀ n : Z, 0 <= n →
    Z.of_uint <$> NilZero.uint_of_string (NilZero.string_of_uint (match Z.to_int n with Decimal.Pos d => d | Decimal.Neg d => d end)) = Some n).
  { intros n Hn. destruct n as [|p|p]; [done| |lia]. simpl.
    rewrite NilZero.usu by apply DecimalPos.Unsigned.to_uint_nonnil.
    simpl. f_equal. exact (DecimalZ.of_to (Z.pos p)). }
  destruct z as [|p|p]; [done| |].
  - specialize (Hd (Z.pos p) ltac:(lia)). simpl in Hd |- *.
    destruct (Pos.to_uint p) eqn:E; simpl in *; done.
  - specialize (Hd (Z.pos p) ltac:(lia)). simpl in Hd |- *. by rewrite Hd.
Qed.

Lemma Atoi_Itoa z : in64 z → Atoi (Itoa z) = Some z.
Proof.
  intros Hz. unfold Atoi. rewrite parse_decimal_Itoa. simpl.
  apply in64b_spec in Hz. by rewrite option_guard_True.
Qed.

#[export] Instance Itoa_inj : Inj (=) (=) Itoa.
Proof.
  intros x y H. apply (f_equal parse_decimal) in H.
  rewrite !parse_decimal_Itoa in H. by injection H.
Qed.

Lemma length_Split sep s : (1 ≤ length (Split sep s))%nat.
Proof.
  induction s as [|c s IH]; simpl; [lia|].
  destruct (Ascii.eqb c sep); simpl; [lia|].
  destruct (Split sep s); simpl in *; lia.
Qed.

(** ** Splitting what was joined *)

Fixpoint string_forall (p : ascii → bool) (s : string) : bool :=
  match s with
  | EmptyString => true
  | String c s => p c && string_forall p s
  end.

Lemma string_forall_app p s t :
  string_forall p (s +:+ t) = string_forall p s && string_forall p t.
Proof. induction s as [|c s IH]; simpl; [done|]. by rewrite IH, andb_assoc. Qed.

Lemma string_forall_impl (p q : ascii → bool) s :
  (∀ c, p c = true → q c = true) → string_forall p s = true → string_forall q s = true.
Proof.
  intros H. induction s as [|c s IH]; simpl; [done|].
  rewrite !andb_true_iff. naive_solver.
Qed.

Lemma Split_no_sep sep s :
  string_forall (λ c, negb (Ascii.eqb c sep)) s = true → Split sep s = [s].
Proof.
  induction s as [|c s IH]; simpl; [done|].
  rewrite andb_true_iff, negb_true_iff. intros [-> H]. by rewrite IH.
Qed.

Lemma Split_app_sep sep s t :
  string_forall (λ c, negb (Ascii.eqb c sep)) s = true →
  Split sep (s +:+ String sep t) = s :: Split sep t.
Proof.
  induction s as [|c s IH]; simpl.
  - by rewrite Ascii.eqb_refl.
  - rewrite andb_true_iff, negb_true_iff. intros [-> H]. by rewrite IH.
Qed.

Lemma Split_Join sep l :
  l ≠ [] → Forall (λ s, string_forall (λ c, negb (Ascii.eqb c sep)) s = true) l →
  Split sep (Join (String sep EmptyString) l) = l.
Proof.
  intros Hne Hl. induction Hl as [|s l Hs Hl IH]; [done|].
  destruct l as [|s' l]; [by apply Split_no_sep|].
  change (Split sep (s +:+ String sep (Join (String sep EmptyString) (s' :: l))) = s :: s' :: l).
  rewrite Split_app_sep by done. by rewrite IH.
Qed.

Lemma Join_Split sep s : Join (String sep EmptyString) (Split sep s) = s.
Proof.
  induction s as [|c s IH]; [done|]. simpl. destruct (Ascii.eqb c sep) eqn:E.
  - apply Ascii.eqb_eq in E as ->. pose proof (length_Split sep s) as Hl.
    destruct (Split sep s) as [|p ps]; [simpl in Hl; lia|].
    change (String sep (Join (String sep EmptyString) (p :: ps)) = String sep s). by rewrite IH.
  - destruct (Split sep s) as [|p ps]; [by rewrite <- IH|]. rewrite <- IH. by destruct ps.
Qed.

Definition is_digit_char (c : ascii) : bool :=
  let n := N_of_ascii c in ((48 <=? n) && (n <=? 57))%N.

Lemma string_of_uint_digits d : string_forall is_digit_char (NilEmpty.string_of_uint d) = true.
Proof. induction d; simpl; done. Qed.

Lemma Itoa_digits z : 0 <= z → string_forall is_digit_char (Itoa z) = true.
Proof.
  intros Hz. unfold Itoa. destruct z as [|p|p]; [done| |lia]. simpl.
  destruct (Pos.to_uint p) as [|u|u|u|u|u|u|u|u|u|u] eqn:E; simpl; try apply string_of_uint_digits.
  done.
Qed.

Lemma Itoa_nonempty z : Itoa z ≠ EmptyString.
Proof. intros H. pose proof (parse_decimal_Itoa z) as H'. by rewrite H in H'. Qed.

Lemma digit_not_space c : is_digit_char c = true → is_space c = false.
Proof. by destruct c as [[] [] [] [] [] [] [] []]. Qed.

Lemma drop_spaces_none l : (∀ c, c ∈ l → is_space c = false) → drop_spaces l = l.
Proof. intros H. destruct l as [|c l]; simpl; [done|]. by rewrite H by left. Qed.

Lemma string_forall_list p s :
  string_forall p s = true ↔ ∀ c, c ∈ String.list_ascii_of_string s → p c = true.
Proof.
  induction s as [|c s IH]; simpl; [set_solver|].
  rewrite andb_true_iff, IH. setoid_rewrite elem_of_cons. naive_solver.
Qed.

Lemma TrimSpace_no_space s :
  string_forall (λ c, negb (is_space c)) s = true → TrimSpace s = s.
Proof.
  intros H. unfold TrimSpace.
  assert (Hl : ∀ c, c ∈ String.list_ascii_of_string s → is_space c = false).
  { intros c Hc. apply negb_true_iff.
    exact (proj1 (string_forall_list (λ c, negb (is_space c)) s) H c Hc). }
  rewrite (drop_spaces_none (String.list_ascii_of_string s)) by done.
  rewrite drop_spaces_none by (intros c; rewrite list_elem_of_In, <- in_rev, <- list_elem_of_In; apply Hl).
  rewrite rev_involutive. apply String.string_of_list_ascii_of_string.
Qed.

(** ** Canonical numbers *)

(** A decimal number without leading zeros: [0|[1-9][0-9]*]. *)
Definition canonicalNumber (s : string) : bool :=
  match s with
  | EmptyString => false
  | String c s' =>
      if Ascii.eqb c "0"%char then String.eqb s' EmptyString
      else is_digit_char c && string_forall is_digit_char s'
  end.

Lemma canonical_Itoa z : 0 <= z → canonicalNumber (Itoa z) = true.
Proof.
  intros Hz. pose proof (Itoa_digits z Hz) as Hd. pose proof (Itoa_nonempty z) as Hne.
  unfold canonicalNumber. destruct (Itoa z) as [|c s] eqn:E; [done|].
  simpl in Hd. destruct (Ascii.eqb c "0"%char) eqn:Ec; [|done].
  apply Ascii.eqb_eq in Ec as ->. apply String.eqb_eq.
  destruct z as [|p|p]; [by injection E| |lia].
  assert (Hn : Decimal.unorm (Pos.to_uint p) = Pos.to_uint p).
  { rewrite <- DecimalPos.Unsigned.to_of. by rewrite DecimalPos.Unsigned.of_to. }
  unfold Itoa in E. simpl in E.
  destruct (Pos.to_uint p) as [|u|u|u|u|u|u|u|u|u|u] eqn:Ep; simpl in E; try discriminate E.
  { pose proof (DecimalPos.Unsigned.to_uint_nonnil p). done. }
  exfalso. rewrite DecimalFacts.unorm_D0 in Hn.
  pose proof (DecimalFacts.unorm_nonnil u).
  pose proof (DecimalPos.Unsigned.to_uint_nonzero p).
  unfold Decimal.unorm in Hn. destruct (Decimal.nzhead u) eqn:En; try discriminate Hn.
  - congruence.
  - by apply DecimalFacts.nzhead_nonzero in En.
Qed.

Lemma canonicalNumber_digits s : canonicalNumber s = true → string_forall is_digit_char s = true.
Proof.
  unfold canonicalNumber. destruct s as [|c s]; [done|].
  destruct (Ascii.eqb c "0"%char) eqn:E; simpl; [|done].
  apply Ascii.eqb_eq in E as ->. by intros ->%String.eqb_eq.
Qed.

(** A canonical number is the text of its value. *)
Lemma canonicalNumber_Itoa s z : canonicalNumber s = true → parse_decimal s = Some z → Itoa z = s.
Proof.
  intros Hc Hp. pose proof (canonicalNumber_digits s Hc) as Hd.
  assert (Hu : ∃ d, NilZero.uint_of_string s = Some d ∧ z = Z.of_uint d).
  { unfold parse_decimal in Hp. destruct s as [|c s]; [done|]. simpl in Hd.
    apply andb_true_iff in Hd as [Hd _].
    destruct (Ascii.eqb c minus_sign) eqn:E1; [by apply Ascii.eqb_eq in E1 as ->|].
    destruct (Ascii.eqb c plus_sign) eqn:E2; [by apply Ascii.eqb_eq in E2 as ->|].
    destruct (NilZero.uint_of_string _) as [d|]; [|done]. injection Hp as <-. eauto. }
  destruct Hu as (d & Hd' & ->). pose proof (NilZero.sus _ _ Hd') as Hs. unfold Itoa.
  change (Z.of_uint d) with (Z.of_int (Decimal.Pos d)). rewrite DecimalZ.to_of. simpl.
  assert (Decimal.unorm d = d) as ->; [|exact Hs].
  destruct d as [|d|d|d|d|d|d|d|d|d|d]; try reflexivity.
  - exfalso. simpl in Hs. by destruct (NilZero.usu_gen Decimal.Nil); rewrite <- Hs in Hd'.
  - simpl in Hs. rewrite <- Hs in Hc. simpl in Hc. apply String.eqb_eq in Hc.
    destruct d; [reflexivity|discriminate Hc..].
Qed.
