(* ===== verification/GoSha256.v ===== *)
(** * SHA-256 ([crypto/sha256]) and hex encoding ([encoding/hex])

    Pool names carry a prefix of the SHA-256 digest of the pool's identity
    fields.  The digest is computed here as FIPS 180-4 specifies it, on words
    kept as [Z] reduced modulo 2^32, so that names evaluate. *)
From S2P Require Import Prelude GoStrings.

Local Open Scope Z_scope.

Definition w32 (z : Z) : Z := Z.land z 0xffffffff.
Definition rotr (n x : Z) : Z := Z.lor (Z.shiftr x n) (w32 (Z.shiftl x (32 - n))).
Definition Ch (x y z : Z) : Z := Z.lxor (Z.land x y) (Z.land (Z.lxor x 0xffffffff) z).
Definition Maj (x y z : Z) : Z :=
  Z.lxor (Z.lxor (Z.land x y) (Z.land x z)) (Z.land y z).
Definition Sigma0 (x : Z) : Z := Z.lxor (Z.lxor (rotr 2 x) (rotr 13 x)) (rotr 22 x).
Definition Sigma1 (x : Z) : Z := Z.lxor (Z.lxor (rotr 6 x) (rotr 11 x)) (rotr 25 x).
Definition sigma0 (x : Z) : Z := Z.lxor (Z.lxor (rotr 7 x) (rotr 18 x)) (Z.shiftr x 3).
Definition sigma1 (x : Z) : Z := Z.lxor (Z.lxor (rotr 17 x) (rotr 19 x)) (Z.shiftr x 10).

(** The constants of FIPS 180-4: the first 32 bits of the fractional parts of the
    cube roots of the first 64 primes, and of the square roots of the first 8. *)
Fixpoint primesFrom (n : nat) (z : Z) (found : list Z) : list Z :=
  match n with
  | O => rev found
  | S n => primesFrom n (z + 1)
             (if forallb (λ p, negb (z `mod` p =? 0)) found then z :: found else found)
  end.

Definition primes : list Z := primesFrom 310 2 [].

(** The integer cube root below [2 ^ k * (root + 1)], bit by bit. *)
Fixpoint cubeRoot (k : nat) (root x : Z) : Z :=
  match k with
  | O => root
  | S k =>
      let next := root + 2 ^ Z.of_nat k in
      cubeRoot k (if next * next * next <=? x then next else root) x
  end.

Definition cubeRootFraction (p : Z) : Z := w32 (cubeRoot 36 0 (p * 2 ^ 96)).
Definition squareRootFraction (p : Z) : Z := w32 (Z.sqrt (p * 2 ^ 64)).

Definition sha_K : list Z := Eval vm_compute in cubeRootFraction <$> primes.

Record sha_state := ShaState { sa : Z; sb : Z; sc : Z; sd : Z; se : Z; sf : Z; sg : Z; sh : Z }.

Definition sha_init : sha_state :=
  Eval vm_compute in
  match squareRootFraction <$> take 8 primes with
  | [a; b; c; d; e; f; g; h] => ShaState a b c d e f g h
  | _ => ShaState 0 0 0 0 0 0 0 0
  end.

(** The message schedule, most recent word first. *)
Fixpoint sha_extend (n : nat) (ws : list Z) : list Z :=
  match n with
  | O => ws
  | S n =>
      let w i := nth i ws 0 in
      let next := w32 (sigma1 (w 1%nat) + w 6%nat + sigma0 (w 14%nat) + w 15%nat) in
      sha_extend n (next :: ws)
  end.

Definition sha_round (s : sha_state) (kw : Z * Z) : sha_state :=
  let t1 := sh s + Sigma1 (se s) + Ch (se s) (sf s) (sg s) + kw.1 + kw.2 in
  let t2 := Sigma0 (sa s) + Maj (sa s) (sb s) (sc s) in
  ShaState (w32 (t1 + t2)) (sa s) (sb s) (sc s) (w32 (sd s + t1)) (se s) (sf s) (sg s).

Definition sha_block (s : sha_state) (words : list Z) : sha_state :=
  let ws := rev (sha_extend 48 (rev words)) in
  let r := fold_left sha_round (zip sha_K ws) s in
  ShaState (w32 (sa s + sa r)) (w32 (sb s + sb r)) (w32 (sc s + sc r)) (w32 (sd s + sd r))
           (w32 (se s + se r)) (w32 (sf s + sf r)) (w32 (sg s + sg r)) (w32 (sh s + sh r)).

(** Big-endian bytes of a [k]-byte word. *)
Fixpoint be_bytes (k : nat) (z : Z) : list Z :=
  match k with
  | O => []
  | S k => Z.land (Z.shiftr z (8 * Z.of_nat k)) 0xff :: be_bytes k z
  end.

Definition sha_pad (msg : list Z) : list Z :=
  let len := Z.of_nat (length msg) in
  let zeros := (55 - len) mod 64 in
  msg ++ [0x80] ++ replicate (Z.to_nat zeros) 0 ++ be_bytes 8 (8 * len).

Fixpoint to_words (bytes : list Z) : list Z :=
  match bytes with
  | a :: b :: c :: d :: rest =>
      Z.lor (Z.shiftl a 24) (Z.lor (Z.shiftl b 16) (Z.lor (Z.shiftl c 8) d)) :: to_words rest
  | _ => []
  end.

Fixpoint sha_blocks (n : nat) (s : sha_state) (words : list Z) : sha_state :=
  match n with
  | O => s
  | S n => sha_blocks n (sha_block s (take 16 words)) (drop 16 words)
  end.

Definition bytes_of_string (s : string) : list Z :=
  ascii_Z <$> String.list_ascii_of_string s.

(** [sha256.Sum256]: the 32 bytes of the digest. *)
Definition Sum256 (msg : list Z) : list Z :=
  let padded := sha_pad msg in
  let s := sha_blocks (length padded / 64) sha_init (to_words padded) in
  mjoin (be_bytes 4 <$> [sa s; sb s; sc s; sd s; se s; sf s; sg s; sh s]).

Definition hex_digit (z : Z) : ascii :=
  ascii_of_N (Z.to_N (if z <? 10 then 48 + z else 87 + z)).

(** [hex.EncodeToString] *)
Definition EncodeToString (bytes : list Z) : string :=
  String.string_of_list_ascii
    (mjoin ((λ b, [hex_digit (Z.shiftr b 4); hex_digit (Z.land b 15)]) <$> bytes)).

Lemma length_be_bytes k z : length (be_bytes k z) = k.
Proof. induction k as [|k IH]; simpl; [done|]. by rewrite IH. Qed.

Lemma length_Sum256 msg : length (Sum256 msg) = 32%nat.
Proof. reflexivity. Qed.

Lemma string_length_of_list l :
  String.length (String.string_of_list_ascii l) = length l.
Proof. induction l as [|c l IH]; simpl; [done|]. by rewrite IH. Qed.

Lemma length_EncodeToString bytes :
  String.length (EncodeToString bytes) = (2 * length bytes)%nat.
Proof.
  unfold EncodeToString. rewrite string_length_of_list.
  induction bytes as [|b bytes IH]; [done|]. csimpl. rewrite IH. lia.
Qed.

(** The digest of "abc" given in FIPS 180-4. *)
Example sha256_abc :
  EncodeToString (Sum256 (bytes_of_string "abc")) =
  "ba7816bf8f01cfea414140de5dae2223b00361a396177a9cb410ff61f20015ad".
Proof. vm_compute. reflexivity. Qed.

(** A message of more than one block. *)
Example sha256_two_blocks :
  EncodeToString (Sum256 (bytes_of_string
    "abcdbcdecdefdefgefghfghighijhijkijkljklmklmnlmnomnopnopq")) =
  "248d6a61d20638b8e5c026930c3e6039a33ce45964ff2167f6ecedd419db06c1".
Proof. vm_compute. reflexivity. Qed.
