(* ===== verification/GoNetip.v ===== *)
(** * Go's [net/netip]

    The values and functions of the standard library package [net/netip] that
    the network validation calls: addresses and prefixes of both families, their
    text forms, and the set operations on prefixes.  The laws at the end relate
    them to sets of addresses; the text round trip is proved for IPv4. *)
From S2P Require Import Prelude GoStrings.

Local Open Scope Z_scope.

(** An address: the zero [Addr], or a value of 32 or 128 bits; only an IPv6
    address can carry a zone. *)
Inductive Addr : Type :=
  | AddrZero
  | Addr4 (n : Z)
  | Addr6 (n : Z) (zone : string).

#[export] Instance Addr_eq_dec : EqDecision Addr.
Proof. solve_decision. Defined.

Definition Addr_Is4 (a : Addr) : bool := match a with Addr4 _ => true | _ => false end.
Definition Addr_Is6 (a : Addr) : bool := match a with Addr6 _ _ => true | _ => false end.
Definition Addr_IsValid (a : Addr) : bool := match a with AddrZero => false | _ => true end.
Definition BitLen (a : Addr) : Z :=
  match a with AddrZero => 0 | Addr4 _ => 32 | Addr6 _ _ => 128 end.
Definition addrValue (a : Addr) : Z :=
  match a with AddrZero => 0 | Addr4 n => n | Addr6 n _ => n end.
Definition addrZone (a : Addr) : string :=
  match a with Addr6 _ z => z | _ => "" end.

Definition Is4In6 (a : Addr) : bool :=
  match a with Addr6 n _ => Z.shiftr n 32 =? 65535 | _ => false end.

Definition withoutZone (a : Addr) : Addr :=
  match a with Addr6 n _ => Addr6 n "" | _ => a end.

(** [Addr.Compare]: the family first, then the value, then the zone. *)
Definition compareZ (a b : Z) : Z := if a <? b then -1 else if b <? a then 1 else 0.

Definition Addr_Compare (a b : Addr) : Z :=
  let f := compareZ (BitLen a) (BitLen b) in
  if f =? 0 then
    let v := compareZ (addrValue a) (addrValue b) in
    if v =? 0 then Compare (addrZone a) (addrZone b) else v
  else f.

(** [Addr.Next]: the zero [Addr] behind the last address. *)
Definition Addr_Next (a : Addr) : Addr :=
  match a with
  | AddrZero => AddrZero
  | Addr4 n => if n + 1 =? 2 ^ 32 then AddrZero else Addr4 (n + 1)
  | Addr6 n z => if n + 1 =? 2 ^ 128 then AddrZero else Addr6 (n + 1) z
  end.

(** A prefix: an address and its length plus one, zero for an invalid prefix. *)
Record Prefix := { prefix_ip : Addr; prefix_bitsPlusOne : Z }.

#[export] Instance Prefix_eq_dec : EqDecision Prefix.
Proof. solve_decision. Defined.

Definition PrefixZero : Prefix := {| prefix_ip := AddrZero; prefix_bitsPlusOne := 0 |}.

Definition Prefix_IsValid (p : Prefix) : bool := 0 <? prefix_bitsPlusOne p.
Definition Bits (p : Prefix) : Z := prefix_bitsPlusOne p - 1.

Definition PrefixFrom (ip : Addr) (bits : Z) : Prefix := {|
  prefix_ip := withoutZone ip;
  prefix_bitsPlusOne :=
    if Addr_IsValid ip && (0 <=? bits) && (bits <=? BitLen ip) then bits + 1 else 0;
|}.

(** The address with all but its first [b] bits cleared ([Addr.Prefix]). *)
Definition maskedValue (w n b : Z) : Z := Z.shiftl (Z.shiftr n (w - b)) (w - b).

Definition Addr_Prefix (a : Addr) (b : Z) : option Prefix :=
  if (b <? 0) || negb (Addr_IsValid a) || (BitLen a <? b) then None
  else Some (PrefixFrom (match a with
                         | Addr4 n => Addr4 (maskedValue 32 n b)
                         | Addr6 n _ => Addr6 (maskedValue 128 n b) ""
                         | AddrZero => AddrZero
                         end) b).

Definition Masked (p : Prefix) : Prefix := default PrefixZero (Addr_Prefix (prefix_ip p) (Bits p)).

Definition Overlaps (p o : Prefix) : bool :=
  if negb (Prefix_IsValid p) || negb (Prefix_IsValid o) then false
  else if bool_decide (p = o) then true
  else if negb (Bool.eqb (Addr_Is4 (prefix_ip p)) (Addr_Is4 (prefix_ip o))) then false
  else
    let minBits := Z.min (Bits p) (Bits o) in
    if minBits =? 0 then true
    else match Addr_Prefix (prefix_ip p) minBits, Addr_Prefix (prefix_ip o) minBits with
         | Some p', Some o' => bool_decide (prefix_ip p' = prefix_ip o')
         | _, _ => false
         end.

Definition Contains (p : Prefix) (ip : Addr) : bool :=
  if negb (Prefix_IsValid p) || negb (String.eqb (addrZone ip) "") then false
  else
    let f1 := BitLen (prefix_ip p) in
    let f2 := BitLen ip in
    if (f1 =? 0) || (f2 =? 0) || negb (f1 =? f2) then false
    else Z.shiftr (Z.lxor (addrValue ip) (addrValue (prefix_ip p))) (f1 - Bits p) =? 0.

(** ** Text forms *)
Definition dot : ascii := "."%char.
Definition colon : ascii := ":"%char.
Definition slash : ascii := "/"%char.
Definition percent : ascii := "%"%char.

Definition digit_value (c : ascii) : option Z :=
  let n := ascii_Z c in if (48 <=? n) && (n <=? 57) then Some (n - 48) else None.

Definition hex_value (c : ascii) : option Z :=
  let n := ascii_Z c in
  if (48 <=? n) && (n <=? 57) then Some (n - 48)
  else if (97 <=? n) && (n <=? 102) then Some (n - 87)
  else if (65 <=? n) && (n <=? 70) then Some (n - 55)
  else None.

(** [parseIPv4Fields]: [atDot] says that the previous byte is a dot or that
    there is none. *)
Fixpoint v4Fields (s : list ascii) (atDot : bool) (val digLen : Z) (fields : list Z) :
    option (list Z) :=
  match s with
  | [] => if (length fields <? 3)%nat then None else Some (fields ++ [val])
  | c :: s' =>
      match digit_value c with
      | Some d =>
          if (digLen =? 1) && (val =? 0) then None
          else
            let val' := val * 10 + d in
            if 255 <? val' then None else v4Fields s' false val' (digLen + 1) fields
      | None =>
          if Ascii.eqb c dot then
            if atDot || bool_decide (s' = []) then None
            else if (length fields =? 3)%nat then None
            else v4Fields s' true 0 0 (fields ++ [val])
          else None
      end
  end.

Definition parseIPv4Fields (s : list ascii) : option (list Z) := v4Fields s true 0 0 [].

Definition v4Value (fields : list Z) : Z := fold_left (λ acc b, acc * 256 + b) fields 0.

Definition parseIPv4 (s : list ascii) : option Addr := Addr4 ∘ v4Value <$> parseIPv4Fields s.

(** The hexadecimal digits of one group: their number, value and what follows. *)
Fixpoint hexGroup (s : list ascii) (off acc : Z) : option (Z * Z * list ascii) :=
  match s with
  | [] => Some (off, acc, [])
  | c :: s' =>
      match hex_value c with
      | None => Some (off, acc, s)
      | Some d =>
          let acc' := acc * 16 + d in
          if (3 <? off) || (65535 <? acc') then None else hexGroup s' (off + 1) acc'
      end
  end.

(** The group loop of [parseIPv6]: at most eight groups of 16 bits. *)
Fixpoint v6Groups (n : nat) (s : list ascii) (groups : list Z) (ellipsis : option nat) :
    option (list ascii * list Z * option nat) :=
  match n with
  | O => Some (s, groups, ellipsis)
  | S n =>
      match hexGroup s 0 0 with
      | None => None
      | Some (off, acc, rest) =>
          if off =? 0 then None
          else
            let groups' := groups ++ [acc] in
            match rest with
            | [] => Some ([], groups', ellipsis)
            | c :: rest' =>
                if Ascii.eqb c dot then
                  if (bool_decide (ellipsis = None) && negb (length groups =? 6)%nat)
                     || (8 <? length groups + 2)%nat then None
                  else match parseIPv4Fields s with
                       | Some [a; b; c; d] =>
                           Some ([], groups ++ [a * 256 + b; c * 256 + d], ellipsis)
                       | _ => None
                       end
                else if negb (Ascii.eqb c colon) then None
                else match rest' with
                     | [] => None
                     | c' :: rest'' =>
                         if Ascii.eqb c' colon then
                           if bool_decide (ellipsis = None) then
                             if bool_decide (rest'' = []) then
                               Some ([], groups', Some (length groups'))
                             else v6Groups n rest'' groups' (Some (length groups'))
                           else None
                         else v6Groups n rest' groups' ellipsis
                     end
            end
      end
  end.

Definition v6Value (groups : list Z) : Z := fold_left (λ acc g, acc * 65536 + g) groups 0.

(** Splits at the first occurrence of a byte. *)
Fixpoint cut (sep : ascii) (s : list ascii) : list ascii * option (list ascii) :=
  match s with
  | [] => ([], None)
  | c :: s' =>
      if Ascii.eqb c sep then ([], Some s')
      else let '(a, b) := cut sep s' in (c :: a, b)
  end.

Definition expandEllipsis (groups : list Z) (ellipsis : option nat) : option (list Z) :=
  if (length groups <? 8)%nat then
    match ellipsis with
    | None => None
    | Some e => Some (take e groups ++ replicate (8 - length groups) 0 ++ drop e groups)
    end
  else match ellipsis with Some _ => None | None => Some groups end.

Definition parseIPv6 (input : list ascii) : option Addr :=
  let '(s, rest) := cut percent input in
  if bool_decide (rest = Some []) then None
  else
    let zone := String.string_of_list_ascii (default [] rest) in
    let groups (s : list ascii) (ellipsis : option nat) : option Addr :=
      match v6Groups 8 s [] ellipsis with
      | Some ([], groups, ellipsis) =>
          gs ← expandEllipsis groups ellipsis; Some (Addr6 (v6Value gs) zone)
      | _ => None
      end in
    match s with
    | c1 :: c2 :: s' =>
        if Ascii.eqb c1 colon && Ascii.eqb c2 colon then
          if bool_decide (s' = []) then Some (Addr6 0 zone) else groups s' (Some 0%nat)
        else groups s None
    | _ => groups s None
    end.

(** [netip.ParseAddr]: the first dot, colon or percent sign decides. *)
Definition ParseAddr (s : string) : option Addr :=
  let l := String.list_ascii_of_string s in
  match find_first (λ c, Ascii.eqb c dot || Ascii.eqb c colon || Ascii.eqb c percent) l with
  | Some c =>
      if Ascii.eqb c dot then parseIPv4 l
      else if Ascii.eqb c colon then parseIPv6 l
      else None
  | None => None
  end.

(** The text before and behind the last occurrence of a byte. *)
Definition cutLast (sep : ascii) (s : list ascii) : option (list ascii * list ascii) :=
  let '(after, before) := cut sep (rev s) in
  match before with Some b => Some (rev b, rev after) | None => None end.

(** [netip.ParsePrefix] *)
Definition ParsePrefix (s : string) : option Prefix :=
  match cutLast slash (String.list_ascii_of_string s) with
  | None => None
  | Some (addrText, bitsText) =>
      match ParseAddr (String.string_of_list_ascii addrText) with
      | None => None
      | Some ip =>
          if Addr_Is6 ip && negb (String.eqb (addrZone ip) "") then None
          else if match bitsText with
                  | c :: _ :: _ => (ascii_Z c <? 49) || (57 <? ascii_Z c)
                  | _ => false
                  end then None
          else match Atoi (String.string_of_list_ascii bitsText) with
               | None => None
               | Some bits =>
                   if (bits <? 0) || (BitLen ip <? bits) then None
                   else Some (PrefixFrom ip bits)
               end
      end
  end.

Definition digit_char (d : Z) : ascii := ascii_of_N (Z.to_N (48 + d)).

(** [appendDecimal] of one octet. *)
Definition octetText (x : Z) : list ascii :=
  (if 100 <=? x then [digit_char (x / 100)] else []) ++
  (if 10 <=? x then [digit_char ((x / 10) `mod` 10)] else []) ++ [digit_char (x `mod` 10)].

Definition octet (n i : Z) : Z := Z.shiftr n (8 * i) `mod` 256.

Definition v4Text (n : Z) : list ascii :=
  octetText (octet n 3) ++ dot :: octetText (octet n 2) ++
  dot :: octetText (octet n 1) ++ dot :: octetText (octet n 0).

Definition hexChar (d : Z) : ascii := hex_nibble (Z.to_N d).

(** [appendHex]: no leading zeros. *)
Definition hexText (x : Z) : list ascii :=
  (if 4096 <=? x then [hexChar (Z.shiftr x 12)] else []) ++
  (if 256 <=? x then [hexChar (Z.shiftr x 8 `mod` 16)] else []) ++
  (if 16 <=? x then [hexChar (Z.shiftr x 4 `mod` 16)] else []) ++ [hexChar (x `mod` 16)].

Definition v6Group (n : Z) (i : nat) : Z := Z.shiftr n (112 - 16 * Z.of_nat i) `mod` 65536.

(** The number of zero groups from group [i] on. *)
Fixpoint zeroRun (groups : list Z) : nat :=
  match groups with
  | g :: gs => if g =? 0 then S (zeroRun gs) else O
  | [] => O
  end.

(** The first longest run of at least two zero groups: its start and length. *)
Definition longestZeroRun (groups : list Z) : option (nat * nat) :=
  fold_left (λ best i,
    let l := zeroRun (drop i groups) in
    let bestLen := match best with Some (_, b) => b | None => O end in
    if (2 <=? l)%nat && (bestLen <? l)%nat then Some (i, l) else best)
    (seq 0 (length groups)) None.

Definition groupsText (groups : list Z) : list ascii :=
  String.list_ascii_of_string (Join ":" ((String.string_of_list_ascii ∘ hexText) <$> groups)).

Definition v6Text (n : Z) : list ascii :=
  let groups := v6Group n <$> seq 0 8 in
  match longestZeroRun groups with
  | Some (start, len) =>
      groupsText (take start groups) ++ [colon; colon] ++ groupsText (drop (start + len) groups)
  | None => groupsText groups
  end.

Definition zoneText (zone : string) : list ascii :=
  if String.eqb zone "" then [] else percent :: String.list_ascii_of_string zone.

Definition Addr_text (a : Addr) : list ascii :=
  match a with
  | AddrZero => String.list_ascii_of_string "invalid IP"
  | Addr4 n => v4Text n
  | Addr6 n zone =>
      (if Is4In6 a then String.list_ascii_of_string "::ffff:" ++ v4Text (n `mod` 2 ^ 32)
       else v6Text n) ++ zoneText zone
  end.

Definition Addr_String (a : Addr) : string := String.string_of_list_ascii (Addr_text a).

Definition Prefix_String (p : Prefix) : string :=
  if Prefix_IsValid p then
    String.string_of_list_ascii
      (Addr_text (prefix_ip p) ++ slash :: String.list_ascii_of_string (Itoa (Bits p)))
  else "invalid Prefix".

Module NetipExamples.
Example parse_v6 :
Addr_String <$> ParseAddr "2001:DB8:0:0:1:0:0:1" = Some "2001:db8::1:0:0:1".
Proof. vm_compute. reflexivity. Qed.
Example parse_v6_ellipsis :
Prefix_String <$> ParsePrefix "fd00::/8" = Some "fd00::/8".
Proof. vm_compute. reflexivity. Qed.
Example parse_v6_mapped :
Addr_String <$> ParseAddr "::ffff:10.0.0.1%eth0" = Some "::ffff:10.0.0.1%eth0".
Proof. vm_compute. reflexivity. Qed.
Example parse_rejects :
ParseAddr "10.0.00.1" = None ∧ ParseAddr "10.0.0.256" = None ∧ ParseAddr "1.2.3" = None ∧
ParseAddr "1:2:3:4:5:6:7:8:9" = None ∧ ParseAddr "1::2::3" = None ∧
ParsePrefix "10.0.0.0/33" = None ∧ ParsePrefix "10.0.0.0/024" = None ∧
ParsePrefix "10.0.0.0/+4" = None.
Proof. vm_compute. repeat split. Qed.
Example parse_prefix :
Prefix_String <$> ParsePrefix "10.0.3.7/24" = Some "10.0.3.7/24" ∧
(Prefix_String ∘ Masked <$> ParsePrefix "10.0.3.7/24") = Some "10.0.3.0/24".
Proof. vm_compute. repeat split. Qed.
End NetipExamples.

(** ** IPv4 prefixes as sets of addresses *)

(** A valid IPv4 prefix: a 32-bit address and a length of at most 32. *)
Definition mk4 (n b : Z) : Prefix :=
  {| prefix_ip := Addr4 n; prefix_bitsPlusOne := b + 1 |}.

Definition prefix4 (p : Prefix) : Prop := ∃ n b, p = mk4 n b ∧ 0 <= n < 2 ^ 32 ∧ 0 <= b <= 32.

(** The IPv4 addresses of a prefix. *)
Definition has4 (p : Prefix) (x : Z) : Prop := Contains p (Addr4 x) = true.

#[export] Instance has4_dec p x : Decision (has4 p x).
Proof. unfold has4. apply _. Defined.

Lemma ip_mk4 n b : prefix_ip (mk4 n b) = Addr4 n.
Proof. done. Qed.

Lemma Bits_mk4 n b : Bits (mk4 n b) = b.
Proof. unfold Bits, mk4; simpl. lia. Qed.

Lemma valid_mk4 n b : 0 <= b → Prefix_IsValid (mk4 n b) = true.
Proof. unfold Prefix_IsValid, mk4; simpl. intros. apply Z.ltb_lt. lia. Qed.

Lemma PrefixFrom_mk4 n b : 0 <= b <= 32 → PrefixFrom (Addr4 n) b = mk4 n b.
Proof.
  intros [H1 H2]. unfold PrefixFrom, mk4. simpl.
  apply Z.leb_le in H1. apply Z.leb_le in H2. by rewrite H1, H2.
Qed.

Lemma shiftr_lxor_0 a b h :
  Z.shiftr (Z.lxor a b) h = 0 ↔ Z.shiftr a h = Z.shiftr b h.
Proof. by rewrite Z.shiftr_lxor, Z.lxor_eq_0_iff. Qed.

Lemma has4_iff n b x :
  0 <= b <= 32 → has4 (mk4 n b) x ↔ x / 2 ^ (32 - b) = n / 2 ^ (32 - b).
Proof.
  intros Hb. unfold has4, Contains. rewrite valid_mk4, Bits_mk4 by lia. simpl.
  change (Z.pos_sub 32 32 =? 0) with true. simpl.
  rewrite Z.eqb_eq, shiftr_lxor_0, !Z.shiftr_div_pow2 by lia. done.
Qed.

Lemma has4_self n b : 0 <= b <= 32 → has4 (mk4 n b) n.
Proof. intros. by rewrite has4_iff. Qed.

(** Dividing further keeps agreement on the leading bits. *)
Lemma div_pow2_le a b h k :
  0 <= h <= k → a / 2 ^ h = b / 2 ^ h → a / 2 ^ k = b / 2 ^ k.
Proof.
  intros Hk E. replace k with (h + (k - h)) by lia.
  rewrite Z.pow_add_r by lia. rewrite <- !Z.div_div by lia. by rewrite E.
Qed.

Lemma has4_weaken n b b' x :
  0 <= b' <= b → b <= 32 → has4 (mk4 n b) x → has4 (mk4 n b') x.
Proof. intros ?? H. rewrite has4_iff in H |- * by lia. apply (div_pow2_le _ _ (32 - b)); [lia|done]. Qed.

Lemma maskedValue_div n b :
  0 <= b <= 32 → maskedValue 32 n b = n / 2 ^ (32 - b) * 2 ^ (32 - b).
Proof. intros. unfold maskedValue. rewrite Z.shiftr_div_pow2, Z.shiftl_mul_pow2 by lia. done. Qed.

Lemma Addr_Prefix_4 n b :
  0 <= b <= 32 → Addr_Prefix (Addr4 n) b = Some (mk4 (maskedValue 32 n b) b).
Proof.
  intros. unfold Addr_Prefix. simpl.
  replace (b <? 0) with false by (symmetry; apply Z.ltb_ge; lia).
  replace (32 <? b) with false by (symmetry; apply Z.ltb_ge; lia). simpl.
  by rewrite PrefixFrom_mk4.
Qed.

(** Two prefixes overlap exactly when they share an address. *)
Lemma Overlaps4_iff p q :
  prefix4 p → prefix4 q → Overlaps p q = true ↔ ∃ x, has4 p x ∧ has4 q x.
Proof.
  intros (n & b & -> & Hn & Hb) (m & c & -> & Hm & Hc).
  assert (Overlaps (mk4 n b) (mk4 m c) = true ↔
          n / 2 ^ (32 - Z.min b c) = m / 2 ^ (32 - Z.min b c)) as ->.
  { unfold Overlaps. rewrite !valid_mk4, !Bits_mk4 by lia. simpl.
    case_bool_decide as E; [injection E as -> Eb; by replace c with b by lia|].
    destruct (Z.min b c =? 0) eqn:E0.
    - apply Z.eqb_eq in E0. rewrite E0. rewrite !Z.div_small by lia. done.
    - rewrite !Addr_Prefix_4 by lia. simpl. rewrite bool_decide_eq_true.
      rewrite !maskedValue_div by lia. split.
      + intros [= H]. apply Z.mul_reg_r in H; [done|lia].
      + by intros ->. }
  split.
  - intros E. destruct (Z.le_ge_cases b c).
    + exists m. rewrite !has4_iff by lia. rewrite Z.min_l in E by lia. done.
    + exists n. rewrite !has4_iff by lia. rewrite Z.min_r in E by lia. done.
  - intros (x & H1 & H2). rewrite has4_iff in H1, H2 by lia.
    trans (x / 2 ^ (32 - Z.min b c)).
    + symmetry. eapply div_pow2_le; [|exact H1]. lia.
    + eapply div_pow2_le; [|exact H2]. lia.
Qed.

Lemma Overlaps_family p q : Overlaps p q = true → Addr_Is4 (prefix_ip p) = Addr_Is4 (prefix_ip q).
Proof.
  unfold Overlaps. destruct (_ || _); [done|].
  case_bool_decide; [by subst|].
  destruct (Bool.eqb _ _) eqn:E; [|done]. by apply Bool.eqb_prop in E.
Qed.

(** A prefix contains another exactly when it contains its address and is not
    longer. *)
Lemma Contains4_covers p d :
  prefix4 p → prefix4 d →
  Contains p (prefix_ip d) && (Bits p <=? Bits d) = true ↔ (∀ x, has4 d x → has4 p x).
Proof.
  intros (n & b & -> & Hn & Hb) (m & c & -> & Hm & Hc). rewrite !Bits_mk4. simpl.
  rewrite andb_true_iff, Z.leb_le. fold (has4 (mk4 n b) m). split.
  - intros [H1 H2] x Hx. apply (has4_weaken _ _ b) in Hx; [|lia..].
    rewrite has4_iff in H1, Hx |- * by lia. congruence.
  - intros H. split; [apply H, has4_self; lia|].
    destruct (Z.le_gt_cases b c) as [|Hgt]; [done|exfalso].
    (* flip the first address bit that only [p] fixes *)
    remember (32 - c) as h eqn:Eh. remember (m / 2 ^ h * 2 ^ h) as lo eqn:Elo.
    assert (0 < 2 ^ h) as Hp by (apply Z.pow_pos_nonneg; lia).
    assert (2 ^ h = 2 ^ (h - 1) * 2) as E2.
    { replace h with (Z.succ (h - 1)) at 1 by lia.
      rewrite Z.pow_succ_r by lia. lia. }
    assert (∀ k, 0 <= k < 2 ^ h → has4 (mk4 m c) (lo + k)) as Hin.
    { intros k Hk. rewrite has4_iff by lia. rewrite <- Eh. subst lo.
      rewrite Z.div_add_l, (Z.div_small k) by lia. lia. }
    assert (0 < 2 ^ (h - 1)) by (apply Z.pow_pos_nonneg; lia).
    pose proof (H _ (Hin 0 ltac:(lia))) as H1. pose proof (H _ (Hin (2 ^ (h - 1)) ltac:(lia))) as H2.
    rewrite has4_iff in H1, H2 by lia.
    assert ((lo + 0) / 2 ^ (h - 1) = (lo + 2 ^ (h - 1)) / 2 ^ (h - 1)) as E.
    { apply (div_pow2_le _ _ (32 - b)); [lia|congruence]. }
    rewrite Z.add_0_r in E.
    replace (lo + 2 ^ (h - 1)) with (lo + 1 * 2 ^ (h - 1)) in E by lia.
    rewrite Z.div_add in E by lia. lia.
Qed.

(** ** IPv4 text *)
Definition isOctet (x : Z) : Prop := 0 <= x <= 255.

Lemma digit_value_range c d : digit_value c = Some d → 0 <= d <= 9.
Proof. unfold digit_value. case_match eqn:E; [|done]. bool_reflect. intros [= <-]. lia. Qed.

Lemma v4Fields_octets s : ∀ atDot val digLen fields out,
  isOctet val → Forall isOctet fields → (length fields <= 3)%nat →
  v4Fields s atDot val digLen fields = Some out → length out = 4%nat ∧ Forall isOctet out.
Proof.
  unfold isOctet. induction s as [|c s IH]; simpl; intros atDot val digLen fields out Hv Hf Hl.
  - destruct (length fields <? 3)%nat eqn:E; [done|]. apply Nat.ltb_ge in E.
    intros [= <-]. rewrite length_app; simpl. split; [lia|]. apply Forall_app; auto.
  - destruct (digit_value c) as [d|] eqn:Ed.
    + apply digit_value_range in Ed. case_match; [done|]. case_match eqn:E; [done|].
      apply Z.ltb_ge in E. apply IH; auto. lia.
    + repeat case_match; try done. apply IH; [lia|apply Forall_app; auto|].
      rewrite length_app; simpl. apply Nat.eqb_neq in H1. lia.
Qed.

Lemma parseIPv4_range s a : parseIPv4 s = Some a → ∃ n, a = Addr4 n ∧ 0 <= n < 2 ^ 32.
Proof.
  unfold parseIPv4, parseIPv4Fields. intros (out & Ho & ->)%fmap_Some.
  apply v4Fields_octets in Ho as [Hl Ho]; [|unfold isOctet; lia|constructor|simpl; lia].
  destruct out as [|a [|b [|c [|d [|]]]]]; try done.
  rewrite !Forall_cons in Ho. unfold isOctet in Ho.
  eexists. split; [reflexivity|]. unfold v4Value; simpl. lia.
Qed.

Lemma ParseAddr_4 s a : ParseAddr s = Some a → Addr_Is4 a = true → ∃ n, a = Addr4 n ∧ 0 <= n < 2 ^ 32.
Proof.
  unfold ParseAddr. intros H Ha. destruct (find_first _ _); [|done].
  destruct (Ascii.eqb a0 dot); [by eapply parseIPv4_range|].
  destruct (Ascii.eqb a0 colon); [|done].
  unfold parseIPv6 in H. repeat (case_match; try done); simplify_option_eq; done.
Qed.

Lemma ParsePrefix_4 s p : ParsePrefix s = Some p → Addr_Is4 (prefix_ip p) = true → prefix4 p.
Proof.
  unfold ParsePrefix. intros H Hp.
  destruct (cutLast _ _) as [[t1 t2]|]; [|done].
  destruct (ParseAddr _) as [ip|] eqn:Ei; [|done].
  destruct (Addr_Is6 ip && _); [done|]. case_match; [done|].
  destruct (Atoi _) as [bits|]; [|done]. case_match eqn:Eb; [done|].
  injection H as <-. simpl in Hp.
  destruct (ParseAddr_4 _ _ Ei) as (n & -> & Hn); [by destruct ip|].
  bool_reflect. simpl in *. exists n, bits. rewrite PrefixFrom_mk4 by lia. split_and!; auto; lia.
Qed.

(** *** Printing *)
Lemma digit_char_value d : 0 <= d <= 9 → digit_value (digit_char d) = Some d.
Proof.
  intros H. assert (d ∈ seqZ 0 10) as Hin by (apply elem_of_seqZ; lia). clear H.
  assert (Forall (λ d, digit_value (digit_char d) = Some d) (seqZ 0 10)) as HF
    by (vm_compute; repeat constructor).
  rewrite Forall_forall in HF. auto.
Qed.

Definition isDigitChar (c : ascii) : Prop := is_Some (digit_value c).

Lemma octetText_digits x : isOctet x → Forall isDigitChar (octetText x).
Proof.
  unfold isOctet. intros Hx. pose proof (Z.mod_pos_bound x 10 ltac:(lia)).
  pose proof (Z.mod_pos_bound (x / 10) 10 ltac:(lia)).
  unfold octetText, isDigitChar. rewrite !Forall_app. split_and!.
  - case_match; [|constructor]. bool_reflect. repeat constructor.
    rewrite digit_char_value; [done|]. split; [apply Z.div_pos; lia|].
    apply Z.div_le_upper_bound; lia.
  - case_match; repeat constructor. rewrite digit_char_value; [done|lia].
  - repeat constructor. rewrite digit_char_value; [done|lia].
Qed.

Lemma octetText_last x : ∃ l c, octetText x = l ++ [c].
Proof. unfold octetText. rewrite app_assoc. eauto. Qed.

Lemma v4Fields_digit d s atDot val digLen fields :
  0 <= d <= 9 → (digLen =? 1) && (val =? 0) = false → val * 10 + d <= 255 →
  v4Fields (digit_char d :: s) atDot val digLen fields =
  v4Fields s false (val * 10 + d) (digLen + 1) fields.
Proof.
  intros Hd H1 H2. simpl. rewrite digit_char_value, H1 by done.
  by replace (255 <? val * 10 + d) with false by (symmetry; apply Z.ltb_ge; lia).
Qed.

Lemma v4Fields_octetText x rest atDot fields :
  isOctet x → ∃ digLen,
  v4Fields (octetText x ++ rest) atDot 0 0 fields = v4Fields rest false x digLen fields.
Proof.
  unfold isOctet. intros Hx.
  pose proof (Z.div_mod x 10 ltac:(lia)). pose proof (Z.mod_pos_bound x 10 ltac:(lia)).
  pose proof (Z.div_mod (x / 10) 10 ltac:(lia)). pose proof (Z.mod_pos_bound (x / 10) 10 ltac:(lia)).
  assert (x / 10 / 10 = x / 100) as E100 by (rewrite Z.div_div by lia; done).
  assert (0 <= x / 100 <= 9) by (split; [apply Z.div_pos|apply Z.div_le_upper_bound]; lia).
  unfold octetText. destruct (100 <=? x) eqn:E1; bool_reflect.
  - replace (10 <=? x) with true by (symmetry; apply Z.leb_le; lia). simpl app.
    assert (1 <= x / 100) by (apply Z.div_le_lower_bound; lia).
    eexists. rewrite !v4Fields_digit; try lia;
      try (apply andb_false_iff; rewrite !Z.eqb_neq; lia).
    f_equal; lia.
  - destruct (10 <=? x) eqn:E2; bool_reflect; simpl app.
    + assert (x / 100 = 0) as E0 by (apply Z.div_small; lia).
      assert (1 <= x / 10) by (apply Z.div_le_lower_bound; lia).
      eexists. rewrite !v4Fields_digit; try lia;
        try (apply andb_false_iff; rewrite !Z.eqb_neq; lia).
      f_equal; lia.
    + eexists. rewrite v4Fields_digit by (done || lia).
      f_equal. rewrite Z.mod_small by lia. lia.
Qed.

Lemma v4Fields_dot s atDot val digLen fields :
  atDot = false → s ≠ [] → (length fields < 3)%nat →
  v4Fields (dot :: s) atDot val digLen fields = v4Fields s true 0 0 (fields ++ [val]).
Proof.
  intros -> Hs Hl. simpl. rewrite bool_decide_false by done.
  by replace (length fields =? 3)%nat with false by (symmetry; apply Nat.eqb_neq; lia).
Qed.

Lemma octetText_nonempty x rest : octetText x ++ rest ≠ [].
Proof. destruct (octetText_last x) as (l & c & ->). by destruct l. Qed.

Lemma octet_isOctet n i : isOctet (octet n i).
Proof. unfold octet, isOctet. pose proof (Z.mod_pos_bound (Z.shiftr n (8 * i)) 256). lia. Qed.

Lemma v4Value_octets n :
  0 <= n < 2 ^ 32 → v4Value [octet n 3; octet n 2; octet n 1; octet n 0] = n.
Proof.
  intros Hn. unfold v4Value, octet; simpl fold_left. rewrite !Z.shiftr_div_pow2 by lia.
  change (2 ^ (8 * 3)) with (256 * 256 * 256). change (2 ^ (8 * 2)) with (256 * 256).
  change (2 ^ (8 * 1)) with 256. change (2 ^ (8 * 0)) with 1.
  rewrite Z.div_1_r, <- !Z.div_div by lia.
  pose proof (Z.div_mod n 256 ltac:(lia)). pose proof (Z.div_mod (n / 256) 256 ltac:(lia)).
  pose proof (Z.div_mod (n / 256 / 256) 256 ltac:(lia)).
  assert (0 <= n / 256 / 256 / 256 < 256) as Hq.
  { rewrite !Z.div_div by lia. split; [apply Z.div_pos; lia|apply Z.div_lt_upper_bound; lia]. }
  rewrite (Z.mod_small (n / 256 / 256 / 256)) by lia. lia.
Qed.

Lemma parseIPv4_text n : 0 <= n < 2 ^ 32 → parseIPv4 (v4Text n) = Some (Addr4 n).
Proof.
  intros Hn. unfold parseIPv4, parseIPv4Fields, v4Text.
  destruct (v4Fields_octetText (octet n 3) (dot :: octetText (octet n 2) ++
    dot :: octetText (octet n 1) ++ dot :: octetText (octet n 0)) true [] (octet_isOctet _ _))
    as [d3 ->].
  rewrite v4Fields_dot by (auto using octetText_nonempty; simpl; lia); cbn [app].
  destruct (v4Fields_octetText (octet n 2) (dot :: octetText (octet n 1) ++
    dot :: octetText (octet n 0)) true [octet n 3] (octet_isOctet _ _)) as [d2 ->].
  rewrite v4Fields_dot by (auto using octetText_nonempty; simpl; lia); cbn [app].
  destruct (v4Fields_octetText (octet n 1) (dot :: octetText (octet n 0)) true
    [octet n 3; octet n 2] (octet_isOctet _ _)) as [d1 ->].
  rewrite <- (app_nil_r (octetText (octet n 0))).
  rewrite v4Fields_dot by (auto using octetText_nonempty; simpl; lia); cbn [app].
  destruct (v4Fields_octetText (octet n 0) [] true
    [octet n 3; octet n 2; octet n 1] (octet_isOctet _ _)) as [d0 E].
  simpl app in *. rewrite E. simpl. by rewrite v4Value_octets.
Qed.

Lemma find_first_skip {A} (p : A → bool) l1 l2 :
  Forall (λ x, p x = false) l1 → find_first p (l1 ++ l2) = find_first p l2.
Proof. induction 1 as [|x l1 Hx _ IH]; simpl; [done|]. by rewrite Hx. Qed.

Lemma digitChar_not c d : isDigitChar c → digit_value d = None → Ascii.eqb c d = false.
Proof.
  intros [v Hv] Hd. destruct (Ascii.eqb c d) eqn:E; [|done].
  apply Ascii.eqb_eq in E. congruence.
Qed.

Lemma ParseAddr_text n :
  0 <= n < 2 ^ 32 → ParseAddr (String.string_of_list_ascii (v4Text n)) = Some (Addr4 n).
Proof.
  intros Hn. unfold ParseAddr. rewrite String.list_ascii_of_string_of_list_ascii.
  unfold v4Text at 1. rewrite find_first_skip; [simpl; by apply parseIPv4_text|].
  eapply Forall_impl; [apply octetText_digits, octet_isOctet|].
  intros c Hc. by rewrite !(digitChar_not c) by done.
Qed.

(** The length as text: digits only, read back by [Atoi] and accepted by the
    leading digit check. *)
Definition bitsText_ok (b : Z) : bool :=
  let t := String.list_ascii_of_string (Itoa b) in
  bool_decide (Atoi (Itoa b) = Some b) &&
  forallb (λ c, match digit_value c with Some _ => true | None => false end) t &&
  match t with c :: _ :: _ => negb ((ascii_Z c <? 49) || (57 <? ascii_Z c)) | _ => true end.

Lemma bitsText_all b : 0 <= b <= 32 → bitsText_ok b = true.
Proof.
  intros H. assert (b ∈ seqZ 0 33) as Hin by (apply elem_of_seqZ; lia).
  assert (forallb bitsText_ok (seqZ 0 33) = true) as HF by (vm_compute; reflexivity).
  rewrite forallb_forall in HF. apply HF. by apply list_elem_of_In.
Qed.

Lemma cut_app sep a b :
  Forall (λ c, Ascii.eqb c sep = false) a → cut sep (a ++ sep :: b) = (a, Some b).
Proof.
  induction 1 as [|c a Hc _ IH]; simpl; [by rewrite Ascii.eqb_refl|]. by rewrite Hc, IH.
Qed.

Lemma cutLast_app sep a b :
  Forall (λ c, Ascii.eqb c sep = false) b → cutLast sep (a ++ sep :: b) = Some (a, b).
Proof.
  intros Hb. unfold cutLast. rewrite rev_app_distr. simpl. rewrite <- app_assoc. simpl.
  rewrite cut_app by (by apply Forall_rev). by rewrite !rev_involutive.
Qed.

Lemma ParsePrefix_text n b :
  0 <= n < 2 ^ 32 → 0 <= b <= 32 → ParsePrefix (Prefix_String (mk4 n b)) = Some (mk4 n b).
Proof.
  intros Hn Hb. unfold Prefix_String. rewrite valid_mk4, Bits_mk4 by lia. simpl Addr_text.
  unfold ParsePrefix. rewrite String.list_ascii_of_string_of_list_ascii.
  pose proof (bitsText_all b Hb) as Ht. unfold bitsText_ok in Ht.
  rewrite !andb_true_iff, bool_decide_eq_true, forallb_forall in Ht.
  destruct Ht as [[H1 H2] H3]. rewrite cutLast_app.
  - rewrite ParseAddr_text by done. simpl. rewrite String.string_of_list_ascii_of_string.
    assert (match String.list_ascii_of_string (Itoa b) with
            | c :: _ :: _ => (ascii_Z c <? 49) || (57 <? ascii_Z c)
            | _ => false
            end = false) as ->.
    { destruct (String.list_ascii_of_string (Itoa b)) as [|c [|]]; try done.
      by apply negb_true_iff. }
    rewrite H1. replace ((b <? 0) || (32 <? b)) with false by (symmetry; bool_reflect; lia).
    by rewrite PrefixFrom_mk4.
  - apply Forall_forall. intros c Hc. apply list_elem_of_In in Hc.
    specialize (H2 c Hc). apply digitChar_not; [|done]. unfold isDigitChar.
    by destruct (digit_value c).
Qed.
