(* ===== verification/GoDuration.v ===== *)
(** * Durations of package time

    [time.ParseDuration] on byte strings: a sign, then numbers with an optional
    fraction and a unit.  Integers are [uint64] with the checks of the library;
    a fraction is scaled in [float64] arithmetic (53 bits of precision). *)
From Stdlib Require Import SpecFloat.
From S2P Require Import Prelude GoStrings.

Local Open Scope string_scope.
Local Open Scope Z_scope.

(** ** Units *)

Definition Nanosecond : Z := 1.
Definition Microsecond : Z := 1000 * Nanosecond.
Definition Millisecond : Z := 1000 * Microsecond.

(** The micro sign and the Greek letter mu, in UTF-8. *)
Definition micro_sign : string := String (ascii_of_N 194) (String (ascii_of_N 181) EmptyString).
Definition greek_mu : string := String (ascii_of_N 206) (String (ascii_of_N 188) EmptyString).

Definition unitMap : list (string * Z) :=
  [("ns", Nanosecond); ("us", Microsecond); (micro_sign +:+ "s", Microsecond); (greek_mu +:+ "s", Microsecond);
   ("ms", Millisecond); ("s", 1000 * Millisecond); ("m", 60 * 1000 * Millisecond);
   ("h", 60 * 60 * 1000 * Millisecond)].

Definition unitOf (u : string) : option Z :=
  snd <$> List.find (λ e, String.eqb (fst e) u) unitMap.

(** ** Numbers *)

Definition digit (c : ascii) : option Z :=
  if is_digit_char c then Some (Z.of_N (N_of_ascii c) - 48) else None.

(** [leadingInt]: [None] is an overflow. *)
Fixpoint leadingInt (s : string) (x : Z) : option (Z * string) :=
  match s with
  | EmptyString => Some (x, EmptyString)
  | String c rest =>
      match digit c with
      | None => Some (x, s)
      | Some d =>
          if 2 ^ 63 / 10 <? x then None
          else if 2 ^ 63 <? x * 10 + d then None
          else leadingInt rest (x * 10 + d)
      end
  end.

(** [leadingFraction]: the digits read until an overflow, the power of ten they
    are scaled by (exact in [float64]: at most nineteen digits), and the rest. *)
Fixpoint leadingFraction (s : string) (x scale : Z) (overflow : bool) : Z * Z * string :=
  match s with
  | EmptyString => (x, scale, EmptyString)
  | String c rest =>
      match digit c with
      | None => (x, scale, s)
      | Some d =>
          if overflow then leadingFraction rest x scale true
          else if (2 ^ 63 - 1) / 10 <? x then leadingFraction rest x scale true
          else if 2 ^ 63 <? x * 10 + d then leadingFraction rest x scale true
          else leadingFraction rest (x * 10 + d) (scale * 10) false
      end
  end.

(** [uint64(float64(f) * (float64(unit) / scale))] *)
Definition float64 (z : Z) : spec_float := binary_normalize 53 1024 z 0 false.

Definition truncate (f : spec_float) : Z :=
  match f with
  | S754_finite false m e => if 0 <=? e then Z.pos m * 2 ^ e else Z.pos m / 2 ^ (- e)
  | _ => 0
  end.

Definition scaleFraction (f unit scale : Z) : Z :=
  truncate (SFmul 53 1024 (float64 f) (SFdiv 53 1024 (float64 unit) (float64 scale))).

(** The unit is everything up to the next digit or dot. *)
Fixpoint cutUnit (s : string) : string * string :=
  match s with
  | EmptyString => (EmptyString, EmptyString)
  | String c rest =>
      if Ascii.eqb c "." || is_digit_char c then (EmptyString, s)
      else let '(u, r) := cutUnit rest in (String c u, r)
  end.

(** ** The parser *)

(** The number and unit at the front of [s]; [None] is an error. *)
Definition parseTerm (s : string) : option (Z * string) :=
  match s with
  | EmptyString => None
  | String c _ =>
      if negb (Ascii.eqb c "." || is_digit_char c) then None
      else
        '(v, afterInt) ← leadingInt s 0;
        let pre := negb (String.length s =? String.length afterInt)%nat in
        let '(f, scale, rest, post) :=
          match afterInt with
          | String d afterDot =>
              if Ascii.eqb d "." then
                let '(f, scale, rest) := leadingFraction afterDot 0 1 false in
                (f, scale, rest, negb (String.length afterDot =? String.length rest)%nat)
              else (0, 1, afterInt, false)
          | EmptyString => (0, 1, afterInt, false)
          end in
        if negb pre && negb post then None
        else
          let '(u, rest) := cutUnit rest in
          if String.eqb u EmptyString then None
          else
            unit ← unitOf u;
            if 2 ^ 63 / unit <? v then None
            else
              let v := v * unit in
              if 0 <? f then
                let v := v + scaleFraction f unit scale in
                if 2 ^ 63 <? v then None else Some (v, rest)
              else Some (v, rest)
  end.

(** The loop; a term is never empty, so the length of the string is enough fuel.
    The sum is an [uint64] that wraps around. *)
Fixpoint parseTerms (fuel : nat) (s : string) (d : Z) : option Z :=
  match s with
  | EmptyString => Some d
  | String _ _ =>
      match fuel with
      | O => None
      | S fuel =>
          '(v, rest) ← parseTerm s;
          let d := (d + v) mod 2 ^ 64 in
          if 2 ^ 63 <? d then None else parseTerms fuel rest d
      end
  end.

Definition ParseDuration (s : string) : option Z :=
  let '(neg, s) :=
    match s with
    | String c rest =>
        if Ascii.eqb c "-" then (true, rest) else if Ascii.eqb c "+" then (false, rest) else (false, s)
    | EmptyString => (false, s)
    end in
  if String.eqb s "0" then Some 0
  else if String.eqb s EmptyString then None
  else
    d ← parseTerms (String.length s) s 0;
    if neg then Some (- d) else if 2 ^ 63 - 1 <? d then None else Some d.

Example ParseDuration_examples :
  ParseDuration "30m" = Some (30 * 60 * 1000000000) ∧
  ParseDuration "1h15m30.918s" = Some 4530918000000 ∧
  ParseDuration "-1.5h" = Some (- 5400000000000) ∧ ParseDuration ".5h" = Some 1800000000000 ∧
  ParseDuration "1.0000000000000000001ns" = Some 1 ∧
  ParseDuration "" = None ∧ ParseDuration "3" = None ∧ ParseDuration "." = None ∧
  ParseDuration "9223372036854775807ns" = Some (2 ^ 63 - 1) ∧ ParseDuration "9223372036854775808ns" = None.
Proof. vm_compute. tauto. Qed.

(** ** Bounds *)

Lemma parseTerms_bounds fuel s d t : 0 <= d <= 2 ^ 63 → parseTerms fuel s d = Some t → 0 <= t <= 2 ^ 63.
Proof.
  revert s d. induction fuel as [|fuel IH]; intros s d Hd; destruct s as [|c s]; cbn [parseTerms];
    try done; try (by intros [= <-]).
  destruct (parseTerm _) as [[v rest]|]; [|done]. cbn [mbind option_bind].
  pose proof (Z.mod_pos_bound (d + v) (2 ^ 64)). destruct (Z.ltb_spec (2 ^ 63) ((d + v) mod 2 ^ 64)); [done|].
  apply IH. lia.
Qed.

(** A parsed duration is an [int64]. *)
Lemma ParseDuration_in64 s d : ParseDuration s = Some d → in64 d.
Proof.
  unfold ParseDuration. rewrite in64_unfold.
  destruct (match s with EmptyString => _ | String _ _ => _ end) as [neg s'].
  destruct (String.eqb s' "0"); [intros [= <-]; lia|]. destruct (String.eqb s' _); [done|].
  destruct (parseTerms _ _ _) as [t|] eqn:Et; [|done]. apply parseTerms_bounds in Et; [|lia].
  cbn [mbind option_bind]. destruct neg; [intros [= <-]; lia|].
  destruct (Z.ltb_spec (2 ^ 63 - 1) t); [done|]. intros [= <-]. lia.
Qed.

(** ** Printing *)

(** [fmtFrac]: the last [prec] digits of [v] as a fraction without its trailing zeros, in
    front of [acc], and the digits before them. *)
Fixpoint fmtFrac (prec : nat) (v : Z) (print : bool) (acc : string) : string * Z :=
  match prec with
  | O => (if print then "." +:+ acc else acc, v)
  | S prec =>
      let digit := v mod 10 in
      let print := print || negb (digit =? 0) in
      fmtFrac prec (v / 10) print (if print then Itoa digit +:+ acc else acc)
  end.

(** The micro sign in UTF-8. *)
Definition microSeconds : string := String (ascii_of_N 194) (String (ascii_of_N 181) "s").

(** [Duration.String]. *)
Definition DurationString (d : Z) : string :=
  let u := Z.abs d in
  let printed :=
    if u =? 0 then "0s"
    else if u <? 1000000000 then
      let '(prec, unit) := if u <? 1000 then (0%nat, "ns") else if u <? 1000000 then (3%nat, microSeconds) else (6%nat, "ms") in
      let '(fraction, v) := fmtFrac prec u false unit in Itoa v +:+ fraction
    else
      let '(fraction, secs) := fmtFrac 9 u false "s" in
      let seconds := Itoa (secs mod 60) +:+ fraction in
      let mins := secs / 60 in
      if 0 <? mins then
        let minutes := Itoa (mins mod 60) +:+ "m" +:+ seconds in
        let hours := mins / 60 in
        if 0 <? hours then Itoa hours +:+ "h" +:+ minutes else minutes
      else seconds in
  if d <? 0 then "-" +:+ printed else printed.

Example DurationString_examples :
  DurationString 0 = "0s" ∧ DurationString 1 = "1ns" ∧ DurationString 1500000 = "1.5ms" ∧
  DurationString 4530918000000 = "1h15m30.918s" ∧ DurationString (- 60000000000) = "-1m0s" ∧
  DurationString 3600000000000 = "1h0m0s" ∧ DurationString (- 2 ^ 63) = "-2562047h47m16.854775808s".
Proof. by vm_compute. Qed.
