(* ===== verification/GoFloat.v ===== *)
(** * Floating point numbers of Go

    What the code does with [float64]: a duration in minutes or seconds, the conversion
    to an integer, and the text that [fmt] prints, the shortest decimal that reads back as
    the same number.  Numbers are the binary64 numbers of [SpecFloat]. *)
From Stdlib Require Import SpecFloat.
From S2P Require Import Prelude GoStrings GoDuration.

Local Open Scope string_scope.
Local Open Scope Z_scope.

Definition fadd : spec_float → spec_float → spec_float := SFadd 53 1024.
Definition fdiv : spec_float → spec_float → spec_float := SFdiv 53 1024.

(** ** Durations *)

Definition inUnits (unit d : Z) : spec_float :=
  fadd (float64 (Z.quot d unit)) (fdiv (float64 (Z.rem d unit)) (float64 unit)).

(** [Duration.Minutes] and [Duration.Seconds]. *)
Definition Minutes : Z → spec_float := inUnits (60 * 1000000000).
Definition Seconds : Z → spec_float := inUnits 1000000000.

(** The conversion to an integer drops the fraction. *)
Definition toInt (f : spec_float) : Z :=
  match f with
  | S754_finite true m e => - truncate (S754_finite false m e)
  | _ => truncate f
  end.

(** ** The shortest decimal *)

(** A positive number as a fraction, and the bounds of what reads back as it: half way to
    the next numbers, themselves included when the mantissa is even. *)
Record interval := { iv_lower : Z; iv_value : Z; iv_upper : Z; iv_denominator : Z; iv_inclusive : bool }.

Definition scaleBy (k : Z) (n : Z) : Z := if 0 <=? k then n * 2 ^ k else n.

Definition roundingInterval (m : positive) (e : Z) : interval :=
  let k := e - 2 in
  let below := if (Z.pos m =? 2 ^ 52) && (-1074 <? e) then 4 * Z.pos m - 1 else 4 * Z.pos m - 2 in
  {| iv_lower := scaleBy k below; iv_value := scaleBy k (4 * Z.pos m); iv_upper := scaleBy k (4 * Z.pos m + 2);
     iv_denominator := if 0 <=? k then 1 else 2 ^ (- k); iv_inclusive := Z.even (Z.pos m) |}.

(** The number of digits before the point, from a lower estimate: the least [k] with
    [value < 10^k]. *)
Fixpoint decimalPoint (fuel : nat) (value denominator k : Z) : Z :=
  match fuel with
  | O => k
  | S fuel =>
      let below := if 0 <=? k then value <? 10 ^ k * denominator else value * 10 ^ (- k) <? denominator in
      if below then k else decimalPoint fuel value denominator (k + 1)
  end.

(** The digits, as a number, and the number of them before the point. *)
Definition decimal : Type := Z * Z.

(** With [n] digits: rounded down, up, or to the nearest, whichever reads back; the first
    [n] that does is taken. *)
Fixpoint shortestDigits (fuel : nat) (iv : interval) (point n : Z) : decimal :=
  let s := point - n in
  let up10 z := if 0 <=? s then z else z * 10 ^ (- s) in
  let unit := if 0 <=? s then 10 ^ s * iv_denominator iv else iv_denominator iv in
  let down := up10 (iv_value iv) / unit in
  let okDown := (up10 (iv_lower iv) <? down * unit) || iv_inclusive iv && (down * unit =? up10 (iv_lower iv)) in
  let okUp := ((down + 1) * unit <? up10 (iv_upper iv)) || iv_inclusive iv && ((down + 1) * unit =? up10 (iv_upper iv)) in
  let rest := 2 * (up10 (iv_value iv) - down * unit) in
  let carried d := if d =? 10 ^ n then (10 ^ (n - 1), point + 1) else (d, point) in
  match okDown, okUp with
  | true, true => carried (if (unit <? rest) || (rest =? unit) && Z.odd down then down + 1 else down)
  | true, false => (down, point)
  | false, true => carried (down + 1)
  | false, false => match fuel with O => (down, point) | S fuel => shortestDigits fuel iv point (n + 1) end
  end.

(** Seventeen digits are always enough. *)
Definition shortest (m : positive) (e : Z) : decimal :=
  let iv := roundingInterval m e in
  let estimate := (Z.log2 (Z.pos m) + e) * 30103 / 100000 - 1 in
  let point := decimalPoint 5 (iv_value iv) (iv_denominator iv) estimate in
  shortestDigits 17 iv point 1.

(** ** Text *)

Fixpoint zeros (n : nat) : string := match n with O => EmptyString | S n => String "0" (zeros n) end.

(** [fmtF] and [fmtE] with all the digits. *)
Definition plainNotation (d : decimal) : string :=
  let '(digits, point) := d in
  let text := Itoa digits in
  let n := Z.of_nat (String.length text) in
  if point <=? 0 then "0." +:+ zeros (Z.to_nat (- point)) +:+ text
  else if n <=? point then text +:+ zeros (Z.to_nat (point - n))
  else String.substring 0 (Z.to_nat point) text +:+ "." +:+ String.substring (Z.to_nat point) (Z.to_nat (n - point)) text.

Definition exponentNotation (d : decimal) : string :=
  let '(digits, point) := d in
  let text := Itoa digits in
  let exp := point - 1 in
  let fraction := String.substring 1 (String.length text - 1) text in
  String.substring 0 1 text
  +:+ (if String.eqb fraction EmptyString then EmptyString else "." +:+ fraction)
  +:+ "e" +:+ (if exp <? 0 then "-" else "+") +:+ (if Z.abs exp <? 10 then "0" else EmptyString) +:+ Itoa (Z.abs exp).

(** What [fmt] prints with [%v]: the format [g] with the shortest precision; large and
    small numbers have an exponent. *)
Definition FormatFloat (f : spec_float) : string :=
  match f with
  | S754_zero false => "0"
  | S754_zero true => "-0"
  | S754_infinity false => "+Inf"
  | S754_infinity true => "-Inf"
  | S754_nan => "NaN"
  | S754_finite sign m e =>
      let d := shortest m e in
      let exp := d.2 - 1 in
      (if sign then "-" else EmptyString)
      +:+ (if (exp <? -4) || (6 <=? exp) then exponentNotation d else plainNotation d)
  end.

Example FormatFloat_examples :
  FormatFloat (Minutes 900000000000) = "15" ∧ FormatFloat (Minutes 100000000000) = "1.6666666666666665" ∧
  FormatFloat (Minutes 1000000000) = "0.016666666666666666" ∧ FormatFloat (Seconds 1500000000) = "1.5" ∧
  FormatFloat (fdiv (float64 1) (float64 3)) = "0.3333333333333333" ∧
  FormatFloat (fdiv (float64 1) (float64 1000000)) = "1e-06" ∧
  FormatFloat (float64 1048576) = "1.048576e+06" ∧ FormatFloat (float64 100000) = "100000".
Proof. by vm_compute. Qed.
