(* ===== verification/GoRegexp.v ===== *)
(** * Package [regexp], as far as anchored patterns need it

    [MatchString] on a pattern of the form [^e$] is membership of the whole string in
    the language of [e]; it is computed with derivatives.  A string is its bytes, so
    classes of letters and digits are the ASCII ones. *)
From S2P Require Import Prelude.
From Stdlib Require Import Ascii.

Local Open Scope Z_scope.

Inductive regexp : Type :=
  | Nothing
  | Blank_
  | OneOf (class : ascii → bool)
  | Then (first second : regexp)
  | Or (left right : regexp)
  | Many (body : regexp).

(** The language of an expression. *)
Inductive matches : regexp → list ascii → Prop :=
  | matches_blank : matches Blank_ []
  | matches_one class c : class c = true → matches (OneOf class) [c]
  | matches_then e f s t : matches e s → matches f t → matches (Then e f) (s ++ t)
  | matches_left e f s : matches e s → matches (Or e f) s
  | matches_right e f s : matches f s → matches (Or e f) s
  | matches_none e : matches (Many e) []
  | matches_more e s t : matches e s → matches (Many e) t → matches (Many e) (s ++ t).

Fixpoint acceptsEmpty (e : regexp) : bool :=
  match e with
  | Nothing | OneOf _ => false
  | Blank_ | Many _ => true
  | Then e f => acceptsEmpty e && acceptsEmpty f
  | Or e f => acceptsEmpty e || acceptsEmpty f
  end.

(** Constructors that keep derivatives small. *)
Definition thenSmall (e f : regexp) : regexp :=
  match e, f with
  | Nothing, _ | _, Nothing => Nothing
  | Blank_, _ => f
  | _, _ => Then e f
  end.

Definition orSmall (e f : regexp) : regexp :=
  match e, f with
  | Nothing, _ => f
  | _, Nothing => e
  | _, _ => Or e f
  end.

(** What may follow the byte [c]. *)
Fixpoint after (c : ascii) (e : regexp) : regexp :=
  match e with
  | Nothing | Blank_ => Nothing
  | OneOf class => if class c then Blank_ else Nothing
  | Then e f =>
      let rest := thenSmall (after c e) f in
      if acceptsEmpty e then orSmall rest (after c f) else rest
  | Or e f => orSmall (after c e) (after c f)
  | Many e => thenSmall (after c e) (Many e)
  end.

Fixpoint accepts (e : regexp) (s : list ascii) : bool :=
  match s with
  | [] => acceptsEmpty e
  | c :: s => accepts (after c e) s
  end.

Definition MatchString (e : regexp) (s : string) : bool := accepts e (String.list_ascii_of_string s).

(** ** Abbreviations of the pattern syntax *)

Definition maybe (e : regexp) : regexp := Or Blank_ e.
Definition some (e : regexp) : regexp := Then e (Many e).

(** [class{0,n}] *)
Fixpoint upTo (n : nat) (e : regexp) : regexp :=
  match n with O => Blank_ | S n => maybe (Then e (upTo n e)) end.

(** [class{n}] *)
Fixpoint times (n : nat) (e : regexp) : regexp :=
  match n with O => Blank_ | S n => Then e (times n e) end.

Definition inRange (lo hi : ascii) (c : ascii) : bool :=
  (nat_of_ascii lo <=? nat_of_ascii c)%nat && (nat_of_ascii c <=? nat_of_ascii hi)%nat.
Definition isLower : ascii → bool := inRange "a"%char "z"%char.
Definition isUpper : ascii → bool := inRange "A"%char "Z"%char.
Definition isNumeral : ascii → bool := inRange "0"%char "9"%char.
Definition isLetter (c : ascii) : bool := isLower c || isUpper c.
Definition isAlphanumeric (c : ascii) : bool := isLetter c || isNumeral c.
Definition isByte (b c : ascii) : bool := Ascii.eqb c b.
Definition literal (b : ascii) : regexp := OneOf (isByte b).

(** ** The matcher decides the language *)

Section language.

Lemma matches_Nothing s : ¬ matches Nothing s.
Proof. inversion 1. Qed.

Lemma matches_Blank s : matches Blank_ s ↔ s = [].
Proof. split; [by inversion 1|intros ->; constructor]. Qed.

Lemma matches_OneOf class s : matches (OneOf class) s ↔ ∃ c, s = [c] ∧ class c = true.
Proof. split; [inversion 1; eauto|intros (c & -> & Hc); by constructor]. Qed.

Lemma matches_Then e f u : matches (Then e f) u ↔ ∃ s t, u = s ++ t ∧ matches e s ∧ matches f t.
Proof. split; [inversion 1; eauto 6|intros (s & t & -> & Hs & Ht); by constructor]. Qed.

Lemma matches_Or e f s : matches (Or e f) s ↔ matches e s ∨ matches f s.
Proof. split; [inversion 1; eauto|intros [|]; eauto using matches]. Qed.

Lemma acceptsEmpty_spec e : acceptsEmpty e = true ↔ matches e [].
Proof.
  induction e as [| |class|e IHe f IHf|e IHe f IHf|e IHe]; simpl.
  - split; [done|by intros ?%matches_Nothing].
  - by rewrite matches_Blank.
  - rewrite matches_OneOf. naive_solver.
  - rewrite andb_true_iff, IHe, IHf, matches_Then. split.
    + intros [He Hf]. by exists [], [].
    + intros (s & t & Hn & Hs & Ht). symmetry in Hn. apply app_eq_nil in Hn as [-> ->]. done.
  - by rewrite orb_true_iff, IHe, IHf, matches_Or.
  - split; [constructor|done].
Qed.

Lemma thenSmall_spec e f s : matches (thenSmall e f) s ↔ matches (Then e f) s.
Proof.
  assert (Hl : ∀ g, matches (Then Nothing g) s ↔ False).
  { intros g. rewrite matches_Then. split; [|done]. by intros (u & t & _ & ?%matches_Nothing & _). }
  assert (Hr : ∀ g, matches (Then g Nothing) s ↔ False).
  { intros g. rewrite matches_Then. split; [|done]. by intros (u & t & _ & _ & ?%matches_Nothing). }
  assert (Hb : ∀ g, matches (Then Blank_ g) s ↔ matches g s).
  { intros g. rewrite matches_Then. setoid_rewrite matches_Blank. split; [by intros (u & t & -> & -> & Ht)|].
    intros Hg. by exists [], s. }
  destruct e, f; simpl; rewrite ?Hl, ?Hr, ?Hb; try done; split; try done; by intros ?%matches_Nothing.
Qed.

Lemma orSmall_spec e f s : matches (orSmall e f) s ↔ matches e s ∨ matches f s.
Proof.
  assert (Hn : matches Nothing s ↔ False) by (split; [apply matches_Nothing|done]).
  destruct e, f; simpl; rewrite ?matches_Or, ?Hn; tauto.
Qed.

Lemma matches_Many_cons e c s :
  matches (Many e) (c :: s) ↔ ∃ u t, s = u ++ t ∧ matches e (c :: u) ∧ matches (Many e) t.
Proof.
  split; [|intros (u & t & -> & He & Ht); by apply (matches_more e (c :: u) t)].
  remember (Many e) as m eqn:Em. remember (c :: s) as w eqn:Ew. intros Hm. revert s Ew.
  induction Hm as [| | | | |e' | e' u t Hu _ Ht IH]; try done; intros s Ew. injection Em as ->.
  destruct u as [|d u]; simpl in Ew; [by apply IH|]. injection Ew as -> <-. eauto.
Qed.

Lemma after_spec e c s : matches (after c e) s ↔ matches e (c :: s).
Proof.
  revert s. induction e as [| |class|e IHe f IHf|e IHe f IHf|e IHe]; intros s; simpl.
  - split; by intros ?%matches_Nothing.
  - rewrite matches_Blank. split; [by intros ?%matches_Nothing|done].
  - rewrite matches_OneOf. destruct (class c) eqn:E.
    + rewrite matches_Blank. split; [intros ->; eauto|by intros (d & [= <- ->] & _)].
    + split; [by intros ?%matches_Nothing|]. intros (d & [= <- ->] & Hd). congruence.
  - assert (Hrest : matches (thenSmall (after c e) f) s ↔ ∃ u t, s = u ++ t ∧ matches e (c :: u) ∧ matches f t).
    { rewrite thenSmall_spec, matches_Then. by setoid_rewrite IHe. }
    rewrite matches_Then. destruct (acceptsEmpty e) eqn:E; [rewrite orSmall_spec, IHf|]; rewrite Hrest; split.
    + intros [(u & t & -> & Hu & Ht)|Hf]; [by exists (c :: u), t|].
      apply acceptsEmpty_spec in E. by exists [], (c :: s).
    + intros ([|d u] & t & Heq & Hu & Ht); simpl in Heq; [subst t; by right|].
      injection Heq as <- ->. left. eauto.
    + intros (u & t & -> & Hu & Ht). by exists (c :: u), t.
    + intros ([|d u] & t & Heq & Hu & Ht); [by apply acceptsEmpty_spec in Hu; congruence|].
      injection Heq as <- ->. eauto.
  - by rewrite orSmall_spec, matches_Or, IHe, IHf.
  - rewrite thenSmall_spec, matches_Then, matches_Many_cons. by setoid_rewrite IHe.
Qed.

Lemma accepts_spec e s : accepts e s = true ↔ matches e s.
Proof.
  revert e. induction s as [|c s IH]; intros e; simpl; [apply acceptsEmpty_spec|].
  by rewrite IH, after_spec.
Qed.

Lemma matches_upTo n class s :
  matches (upTo n (OneOf class)) s ↔ (length s <= n)%nat ∧ Forall (λ c, class c = true) s.
Proof.
  revert s. induction n as [|n IH]; intros s; simpl.
  - rewrite matches_Blank. destruct s; simpl; split; [by auto|done|done|intros [? _]; lia].
  - unfold maybe. rewrite matches_Or, matches_Blank, matches_Then. split.
    + intros [->|(u & t & -> & (c & -> & Hc)%matches_OneOf & [Hl Hf]%IH)]; [split; [simpl; lia|constructor]|].
      split; [simpl; lia|]. by constructor.
    + intros [Hl Hf]. destruct s as [|c s]; [by left|]. right. apply Forall_cons in Hf as [Hc Hf]. exists [c], s.
      split_and!; [done|by constructor|]. apply IH. split; [simpl in Hl; lia|done].
Qed.

End language.

(** ** Names: a letter, then up to [n] bytes and a closing one *)

Definition nameOf (lead middle tail : ascii → bool) (n : nat) : regexp :=
  Then (OneOf lead) (maybe (Then (upTo n (OneOf middle)) (OneOf tail))).

Lemma nameOf_spec lead middle tail n (s : string) :
  (∀ c, tail c = true → middle c = true) →
  MatchString (nameOf lead middle tail n) s = true ↔
  ∃ c rest, String.list_ascii_of_string s = c :: rest ∧ lead c = true ∧ (length rest <= S n)%nat ∧
    Forall (λ d, middle d = true) rest ∧ (∀ d, last rest = Some d → tail d = true).
Proof.
  intros Hsub. unfold MatchString, nameOf. rewrite accepts_spec, matches_Then. unfold maybe.
  setoid_rewrite matches_Or. setoid_rewrite matches_Blank. setoid_rewrite matches_Then. setoid_rewrite matches_OneOf.
  setoid_rewrite matches_upTo. split.
  - intros (u & t & Hs & (c & -> & Hc) & [->|(m & v & -> & [Hl Hm] & (d & -> & Hd))]).
    + exists c, []. split_and!; [done|done|simpl; lia|constructor|done].
    + exists c, (m ++ [d]). split_and!; [done|done|rewrite length_app; simpl; lia| |].
      * apply Forall_app. split; [done|]. constructor; [by apply Hsub|constructor].
      * intros e. rewrite last_snoc. by intros [= <-].
  - intros (c & rest & Hs & Hc & Hl & Hm & Hlast). exists [c], rest. split_and!; [done|by eauto|].
    destruct rest as [|d m _] using rev_ind; [by left|]. right. exists m, [d]. rewrite length_app in Hl. simpl in Hl.
    apply Forall_app in Hm as [Hm _]. split_and!; [done|lia|done|]. exists d. split; [done|]. apply Hlast, last_snoc.
Qed.
