(* ===== verification/ComputeTypes.v ===== *)
(** * Node pool data model and tier configuration

    [fleet/pkg/compute]: [types.go], [tiers.go], [budget.go] and the SKU record
    of [fleet/pkg/azure/skucache].  [int32] and [int64] fields are [Z] values in
    their width; Go maps with string keys are [gmap string]. *)
From S2P Require Import Prelude GoStrings.

Local Open Scope Z_scope.

(** ** types.go *)

Abbreviation PoolRole := string (only parsing).
Abbreviation VMFamily := string (only parsing).
Abbreviation AgentPoolMode := string (only parsing).

Definition PoolRoleSystem : PoolRole := "system".
Definition PoolRoleInfra : PoolRole := "infra".
Definition PoolRoleWorker : PoolRole := "worker".

Definition RoleLabel : string := "aro-hcp.azure.com/role".
Definition TaintCriticalAddonsOnly : string := "CriticalAddonsOnly=true:NoSchedule".
Definition TaintInfra : string := "infra=true:NoSchedule".

(** The values of the Azure SDK's [AgentPoolMode] constants, as the golden files
    under [fleet/pkg/compute/testdata] print them. *)
Definition AgentPoolModeSystem : AgentPoolMode := "System".
Definition AgentPoolModeUser : AgentPoolMode := "User".

(** [PoolMode] is a Go string type; values other than the two constants reach
    the [default] branches. *)
Inductive PoolMode : Type :=
  | PoolModePerZone
  | PoolModeRegional
  | PoolModeOther (s : string).

#[export] Instance PoolMode_eq_dec : EqDecision PoolMode.
Proof. solve_decision. Defined.

(** [skucache.SKUMetadata] *)
Record SKUMetadata := {
  sku_Name : string;
  sku_Family : string;
  sku_VCPUs : Z;
  sku_MemoryBytes : Z;
  sku_SecondaryNICs : Z;
  sku_EphemeralOSDiskSupported : bool;
  sku_EphemeralDiskSizeGB : Z;
  sku_Zones : list string;
  sku_ConstrainedVCPUs : bool;
  sku_LocationRestricted : bool;
}.

Record VMSpec := {
  spec_Size : string;
  spec_Family : VMFamily;
  spec_VCPUs : Z;
  spec_MemoryBytes : Z;
  spec_SecondaryNICs : Z;
}.

#[export] Instance VMSpec_eq_dec : EqDecision VMSpec.
Proof. solve_decision. Defined.

Definition NewVMSpecFromSKU (meta : SKUMetadata) : VMSpec := {|
  spec_Size := sku_Name meta;
  spec_Family := sku_Family meta;
  spec_VCPUs := sku_VCPUs meta;
  spec_MemoryBytes := sku_MemoryBytes meta;
  spec_SecondaryNICs := sku_SecondaryNICs meta;
|}.

Record NetworkConfig := {
  VnetSubnetID : string;
  PodSubnetID : string;
}.

Record Pool := {
  Pool_Role : PoolRole;
  Pool_AgentPoolMode : AgentPoolMode;
  Pool_Name : string;
  Pool_Spec : VMSpec;
  Pool_AvailabilityZones : list string;
  Pool_MaxCount : Z;
  Pool_MinCount : Z;
  Pool_OSDiskSizeGB : Z;
  Pool_MaxPods : Z;
  Pool_Labels : gmap string string;
  Pool_Taints : list string;
  Pool_EnableSwift : bool;
  Pool_SecondaryNICs : Z;
}.

#[export] Instance Pool_eq_dec : EqDecision Pool.
Proof. solve_decision. Defined.

(** [Pool.ZoneString] *)
Definition ZoneString (p : Pool) : string := Join "," (Pool_AvailabilityZones p).

(** ** tiers.go *)

Definition minCoresPerTier : Z := 4.

Definition is_lower_alpha (c : ascii) : bool :=
  let n := N_of_ascii c in ((97 <=? n) && (n <=? 122))%N.
Definition is_digit (c : ascii) : bool :=
  let n := N_of_ascii c in ((48 <=? n) && (n <=? 57))%N.

(** [tierNameRegex.MatchString]: [^[a-z][a-z0-9]{0,4}$] *)
Definition tierNameRegex (name : string) : bool :=
  match String.list_ascii_of_string name with
  | [] => false
  | c :: rest =>
      is_lower_alpha c && forallb (λ d, is_lower_alpha d || is_digit d) rest
        && (Nat.leb (length rest) 4)
  end.

Definition dFamilyPriority : list VMFamily :=
  ["StandardDdsv7Family"; "StandardDdsv6Family"; "standardDDSv5Family";
   "standardDDSv4Family"; "standardDSv3Family"].
Definition eFamilyPriority : list VMFamily :=
  ["StandardEdsv7Family"; "StandardEdsv6Family"; "standardEDSv5Family";
   "standardEDSv4Family"; "standardESv3Family"].

Record PoolClass := {
  Class_Role : PoolRole;
  Class_AgentPoolMode : AgentPoolMode;
  Class_EnableSwift : bool;
  Class_AttachSecondaryNICs : bool;
  Class_Labels : gmap string string;
  Class_Taints : list string;
}.

Definition SystemPools : PoolClass := {|
  Class_Role := PoolRoleSystem;
  Class_AgentPoolMode := AgentPoolModeSystem;
  Class_EnableSwift := true;
  Class_AttachSecondaryNICs := false;
  Class_Labels := ∅;
  Class_Taints := [TaintCriticalAddonsOnly];
|}.

Definition InfraPools : PoolClass := {|
  Class_Role := PoolRoleInfra;
  Class_AgentPoolMode := AgentPoolModeUser;
  Class_EnableSwift := false;
  Class_AttachSecondaryNICs := false;
  Class_Labels := ∅;
  Class_Taints := [TaintInfra];
|}.

Definition WorkerPools : PoolClass := {|
  Class_Role := PoolRoleWorker;
  Class_AgentPoolMode := AgentPoolModeUser;
  Class_EnableSwift := true;
  Class_AttachSecondaryNICs := true;
  Class_Labels := ∅;
  Class_Taints := [];
|}.

Record TierConfig := {
  Tier_Name : string;
  Tier_Class : PoolClass;
  Tier_PoolMode : PoolMode;
  Tier_Cores : Z;
  Tier_MinOSDiskSizeGB : Z;
  Tier_MaxNodes : Z;
  Tier_InitialMinNodes : Z;
  Tier_FamilyPriority : list VMFamily;
  Tier_MaxPods : Z;
  Tier_Required : bool;
  Tier_PoolCount : Z;
}.

(** ** budget.go *)

Record QuotaUsage := { quota_Limit : Z; quota_CurrentValue : Z }.

(** [FetchQuotaUsageFunc]: the Azure usage query, an argument of the model; an
    [Err] carries the client's error text. *)
Abbreviation FetchQuotaUsageFunc :=
  (gset VMFamily → result string (gmap VMFamily QuotaUsage)) (only parsing).

Definition UnlimitedVCPUs : Z := 1000000.

Definition SubscriptionQuotaBudget (families : gset VMFamily)
    (fetchQuotaUsage : FetchQuotaUsageFunc) : result string (gmap VMFamily QuotaUsage) :=
  fetchQuotaUsage families.

Definition UnlimitedBudget (families : gset VMFamily) (_ : FetchQuotaUsageFunc) :
    result string (gmap VMFamily QuotaUsage) :=
  Ok (set_fold (λ family budgets,
        <[family := {| quota_Limit := UnlimitedVCPUs; quota_CurrentValue := 0 |}]> budgets)
      ∅ families).

(** [BudgetStrategy] *)
Abbreviation BudgetStrategy :=
  (gset VMFamily → FetchQuotaUsageFunc → result string (gmap VMFamily QuotaUsage))
  (only parsing).

Record Profile := {
  Profile_Tiers : list TierConfig;
  Profile_BudgetStrategy : BudgetStrategy;
}.

Definition ProfileCI : string := "ci".
Definition ProfileDevelopment : string := "development".
Definition ProfileIntegration : string := "integration".
Definition ProfileProduction : string := "production".

(** One literal of the [profiles] table: the columns in the order the table
    writes them, [InitialMinNodes] being 0 where the literal omits it. *)
Definition tier (name : string) (class : PoolClass) (families : list VMFamily)
    (cores : Z) (mode : PoolMode) (poolCount maxNodes initialMin minDisk maxPods : Z)
    (required : bool) : TierConfig := {|
  Tier_Name := name;
  Tier_Class := class;
  Tier_PoolMode := mode;
  Tier_Cores := cores;
  Tier_MinOSDiskSizeGB := minDisk;
  Tier_MaxNodes := maxNodes;
  Tier_InitialMinNodes := initialMin;
  Tier_FamilyPriority := families;
  Tier_MaxPods := maxPods;
  Tier_Required := required;
  Tier_PoolCount := poolCount;
|}.

Definition profileDevelopment : Profile := {|
  Profile_Tiers :=
    [tier "sys" SystemPools dFamilyPriority 4 PoolModeRegional 1 3 0 32 100 true;
     tier "inf" InfraPools dFamilyPriority 4 PoolModePerZone 2 2 0 64 225 true;
     tier "wrk" WorkerPools dFamilyPriority 4 PoolModePerZone 3 6 0 100 225 false];
  Profile_BudgetStrategy := UnlimitedBudget;
|}.

Definition profileCI : Profile := {|
  Profile_Tiers :=
    [tier "sys" SystemPools dFamilyPriority 4 PoolModeRegional 1 3 0 32 100 true;
     tier "inf" InfraPools dFamilyPriority 4 PoolModePerZone 2 3 0 64 225 true;
     tier "wrk" WorkerPools dFamilyPriority 16 PoolModePerZone 3 6 5 256 225 false];
  Profile_BudgetStrategy := UnlimitedBudget;
|}.

Definition profileIntegration : Profile := {|
  Profile_Tiers :=
    [tier "sys" SystemPools eFamilyPriority 4 PoolModeRegional 1 2 0 128 100 true;
     tier "inf" InfraPools dFamilyPriority 4 PoolModePerZone 2 3 0 128 225 true;
     tier "wrk" WorkerPools eFamilyPriority 16 PoolModePerZone 3 14 5 512 225 false];
  Profile_BudgetStrategy := SubscriptionQuotaBudget;
|}.

Definition profileProduction : Profile := {|
  Profile_Tiers :=
    [tier "sys" SystemPools eFamilyPriority 4 PoolModeRegional 1 2 0 128 100 true;
     tier "inf" InfraPools eFamilyPriority 4 PoolModePerZone 2 2 0 128 225 true;
     tier "wrk16" WorkerPools eFamilyPriority 16 PoolModePerZone 3 20 5 400 225 false;
     tier "wrk32" WorkerPools eFamilyPriority 32 PoolModePerZone 3 3 1 512 225 false];
  Profile_BudgetStrategy := SubscriptionQuotaBudget;
|}.

(** The [profiles] map, keys in the order the source writes them. *)
Definition profiles : list (string * Profile) :=
  [(ProfileDevelopment, profileDevelopment); (ProfileCI, profileCI);
   (ProfileIntegration, profileIntegration); (ProfileProduction, profileProduction)].

(** The errors of [ValidateProfile], by the tier index and the offending value. *)
Inductive profile_error : Type :=
  | ErrTierName (i : nat) (name : string)
  | ErrTierNameDuplicate (i : nat) (name : string)
  | ErrTierRoleEmpty (i : nat)
  | ErrTierAgentPoolMode (i : nat) (mode : string)
  | ErrTierNICsWithoutSwift (i : nat)
  | ErrTierCores (i : nat) (cores : Z)
  | ErrTierInitialMin (i : nat) (initialMin maxNodes : Z)
  | ErrTierRoleLabel (i : nat)
  | ErrTierPerZonePoolCount (i : nat) (poolCount : Z)
  | ErrTierRegionalPoolCount (i : nat) (poolCount : Z)
  | ErrTierPoolMode (i : nat) (mode : string)
  | ErrTierFamilyDuplicate (i : nat) (family : VMFamily).

(** The inner loop over [FamilyPriority]: the first family already seen. *)
Fixpoint first_duplicate (seen : gset string) (l : list string) : option string :=
  match l with
  | [] => None
  | f :: l => if bool_decide (f ∈ seen) then Some f else first_duplicate ({[f]} ∪ seen) l
  end.

(** One iteration of [ValidateProfile]'s loop; [None] is success. *)
Definition validateTier (i : nat) (t : TierConfig) (seenNames : gset string) :
    option profile_error :=
  let c := Tier_Class t in
  if negb (tierNameRegex (Tier_Name t)) then Some (ErrTierName i (Tier_Name t))
  else if bool_decide (Tier_Name t ∈ seenNames) then
    Some (ErrTierNameDuplicate i (Tier_Name t))
  else if String.eqb (Class_Role c) "" then Some (ErrTierRoleEmpty i)
  else if negb (String.eqb (Class_AgentPoolMode c) AgentPoolModeUser
             || String.eqb (Class_AgentPoolMode c) AgentPoolModeSystem) then
    Some (ErrTierAgentPoolMode i (Class_AgentPoolMode c))
  else if Class_AttachSecondaryNICs c && negb (Class_EnableSwift c) then
    Some (ErrTierNICsWithoutSwift i)
  else if Tier_Cores t <? minCoresPerTier then Some (ErrTierCores i (Tier_Cores t))
  else if Tier_MaxNodes t <? Tier_InitialMinNodes t then
    Some (ErrTierInitialMin i (Tier_InitialMinNodes t) (Tier_MaxNodes t))
  else if bool_decide (is_Some (Class_Labels c !! RoleLabel)) then
    Some (ErrTierRoleLabel i)
  else
    let modeError :=
      match Tier_PoolMode t with
      | PoolModePerZone =>
          if Tier_PoolCount t <? 1 then Some (ErrTierPerZonePoolCount i (Tier_PoolCount t))
          else None
      | PoolModeRegional =>
          if negb (Tier_PoolCount t =? 1) then
            Some (ErrTierRegionalPoolCount i (Tier_PoolCount t))
          else None
      | PoolModeOther s => Some (ErrTierPoolMode i s)
      end in
    match modeError with
    | Some e => Some e
    | None => ErrTierFamilyDuplicate i <$> first_duplicate ∅ (Tier_FamilyPriority t)
    end.

Fixpoint validateTiers (i : nat) (seenNames : gset string) (tiers : list TierConfig) :
    option profile_error :=
  match tiers with
  | [] => None
  | t :: rest =>
      match validateTier i t seenNames with
      | Some e => Some e
      | None => validateTiers (S i) ({[Tier_Name t]} ∪ seenNames) rest
      end
  end.

Definition ValidateProfile (profile : Profile) : option profile_error :=
  validateTiers 0 ∅ (Profile_Tiers profile).

Definition TierFamilies (tiers : list TierConfig) : gset VMFamily :=
  fold_left (λ families t, families ∪ list_to_set (Tier_FamilyPriority t)) tiers ∅.

Definition LookupProfile (name : string) : option Profile :=
  snd <$> find_first (λ kv, String.eqb kv.1 name) profiles.

Definition ValidProfileNames : list string := sort_by string_less (fst <$> profiles).

(** ** Properties of tier validation *)

(** What [ValidateProfile] guarantees of every tier of an accepted profile. *)
Record tier_ok (t : TierConfig) : Prop := {
  tier_name_ok : tierNameRegex (Tier_Name t) = true;
  tier_role_ok : Class_Role (Tier_Class t) ≠ "";
  tier_mode_ok : Class_AgentPoolMode (Tier_Class t) = AgentPoolModeUser ∨
                 Class_AgentPoolMode (Tier_Class t) = AgentPoolModeSystem;
  tier_swift_ok : Class_AttachSecondaryNICs (Tier_Class t) = true →
                  Class_EnableSwift (Tier_Class t) = true;
  tier_cores_ok : 4 <= Tier_Cores t;
  tier_min_ok : Tier_InitialMinNodes t <= Tier_MaxNodes t;
  tier_label_ok : Class_Labels (Tier_Class t) !! RoleLabel = None;
  tier_count_ok : match Tier_PoolMode t with
                  | PoolModePerZone => 1 <= Tier_PoolCount t
                  | PoolModeRegional => Tier_PoolCount t = 1
                  | PoolModeOther _ => False
                  end;
  tier_families_ok : NoDup (Tier_FamilyPriority t);
}.

Lemma first_duplicate_None seen l :
  first_duplicate seen l = None ↔ NoDup l ∧ (∀ x, x ∈ l → x ∉ seen).
Proof.
  revert seen. induction l as [|f l IH]; intros seen; simpl.
  - split; [|done]. intros _. split; [constructor|set_solver].
  - case_bool_decide as Hf.
    + split; [done|]. intros [_ H]. exfalso. apply (H f); [left|done].
    + rewrite IH, NoDup_cons. set_solver.
Qed.

Lemma validateTier_None i t seen :
  validateTier i t seen = None ↔ tier_ok t ∧ Tier_Name t ∉ seen.
Proof.
  unfold validateTier. split.
  - intros H.
    repeat match type of H with
    | (if ?b then Some _ else _) = None => destruct b eqn:?; [done|]
    | (match ?m with Some _ => _ | None => _ end) = None => destruct m eqn:?; [done|]
    end.
    apply fmap_None, first_duplicate_None in H as [Hnd _].
    bool_reflect. split; [|done]. split; try done.
    + by apply String.eqb_neq.
    + apply orb_true_iff in Heqb2 as [?|?]; [left|right]; by apply String.eqb_eq.
    + intros Hs. rewrite Hs in Heqb3. simpl in Heqb3. by apply negb_false_iff.
    + by apply eq_None_not_Some.
    + destruct (Tier_PoolMode t); try done.
      * destruct (Tier_PoolCount t <? 1) eqn:E; bool_reflect; [done|lia].
      * by destruct (Tier_PoolCount t =? 1) eqn:E; bool_reflect.
  - intros [[H1 H2 H3 H4 H5 H6 H7 H8 H9] Hseen].
    rewrite H1. simpl. rewrite bool_decide_eq_false_2 by done.
    apply String.eqb_neq in H2. rewrite H2.
    assert ((String.eqb (Class_AgentPoolMode (Tier_Class t)) AgentPoolModeUser
      || String.eqb (Class_AgentPoolMode (Tier_Class t)) AgentPoolModeSystem) = true) as ->.
    { apply orb_true_iff. rewrite !String.eqb_eq. done. }
    assert (Class_AttachSecondaryNICs (Tier_Class t) &&
            negb (Class_EnableSwift (Tier_Class t)) = false) as ->.
    { apply not_true_iff_false. rewrite andb_true_iff, negb_true_iff.
      intros [Ha Hb]. rewrite H4 in Hb; done. }
    simpl. rewrite (proj2 (Z.ltb_ge _ _)) by (unfold minCoresPerTier; lia).
    rewrite (proj2 (Z.ltb_ge _ _)) by lia.
    rewrite bool_decide_eq_false_2 by (by apply eq_None_not_Some).
    assert (first_duplicate ∅ (Tier_FamilyPriority t) = None) as ->.
    { apply first_duplicate_None. split; [done|set_solver]. }
    destruct (Tier_PoolMode t); simpl.
    + by rewrite (proj2 (Z.ltb_ge _ _)) by lia.
    + by rewrite H8.
    + done.
Qed.

Lemma validateTiers_None i seen tiers :
  validateTiers i seen tiers = None ↔
  Forall tier_ok tiers ∧ NoDup (Tier_Name <$> tiers) ∧
  (∀ t, t ∈ tiers → Tier_Name t ∉ seen).
Proof.
  revert i seen. induction tiers as [|t tiers IH]; intros i seen; simpl.
  - split; [|done]. intros _. split; [constructor|]. split; [constructor|set_solver].
  - rewrite Forall_cons, NoDup_cons.
    destruct (validateTier i t seen) eqn:E.
    + split; [done|]. intros ([Ht _] & _ & Hseen).
      assert (validateTier i t seen = None) as E' by
        (apply validateTier_None; split; [done|apply Hseen; left]).
      congruence.
    + apply validateTier_None in E as [Ht Hs]. rewrite IH. split.
      * intros (H1 & H2 & H3). split; [done|]. split; [split; [|done]|].
        { intros (t' & Heq & Hin)%list_elem_of_fmap. apply (H3 t' Hin). set_solver. }
        { intros t' [->|Hin]%elem_of_cons; [done|]. specialize (H3 t' Hin). set_solver. }
      * intros ([_ H1] & [Hnin H2] & H3). split; [done|]. split; [done|].
        intros t' Hin. rewrite not_elem_of_union, not_elem_of_singleton. split.
        { intros Heq. apply Hnin. rewrite <- Heq. by apply list_elem_of_fmap_2. }
        { apply H3. by right. }
Qed.

(** [ValidateProfile] accepts a profile exactly when every tier satisfies
    the documented constraints (name syntax, nonempty role, known AKS mode,
    secondary NICs only with Swift, at least four cores, [InitialMinNodes] at
    most [MaxNodes], no explicit role label, the pool count of its mode, no
    repeated family) and no two tiers share a name. *)
Theorem ValidateProfile_accepts_iff (profile : Profile) :
  ValidateProfile profile = None ↔
  Forall tier_ok (Profile_Tiers profile) ∧ NoDup (Tier_Name <$> Profile_Tiers profile).
Proof.
  unfold ValidateProfile. rewrite validateTiers_None. set_solver.
Qed.

(** Every profile the program ships passes its own validation. *)
Lemma profiles_valid : Forall (λ kv, ValidateProfile kv.2 = None) profiles.
Proof. repeat constructor; vm_compute; reflexivity. Qed.
