(* ===== verification/ComputeCapacity.v ===== *)
(** * Capacity accounting

    [fleet/pkg/compute/capacity.go]: the capacity of node pools at their
    ceilings, summed per role and per role and zone, and the floor that a pool
    transition has to preserve.  Arithmetic is [int64] with wrap-around. *)
From S2P Require Import Prelude GoStrings ComputeTypes.

Local Open Scope Z_scope.
Local Open Scope go_scope.

Record RoleCapacity := {
  cap_VCPUs : Z;
  cap_MemoryBytes : Z;
  cap_SwiftNICs : Z;
}.

#[export] Instance RoleCapacity_eq_dec : EqDecision RoleCapacity.
Proof. solve_decision. Defined.

(** The zero value a Go map returns for an absent key. *)
Definition zeroCapacity : RoleCapacity :=
  {| cap_VCPUs := 0; cap_MemoryBytes := 0; cap_SwiftNICs := 0 |}.

Abbreviation CapacityByRole := (gmap PoolRole RoleCapacity) (only parsing).

Definition Add (c other : RoleCapacity) : RoleCapacity := {|
  cap_VCPUs := cap_VCPUs c +! cap_VCPUs other;
  cap_MemoryBytes := cap_MemoryBytes c +! cap_MemoryBytes other;
  cap_SwiftNICs := cap_SwiftNICs c +! cap_SwiftNICs other;
|}.

Definition Sub (c other : RoleCapacity) : RoleCapacity := {|
  cap_VCPUs := cap_VCPUs c -! cap_VCPUs other;
  cap_MemoryBytes := cap_MemoryBytes c -! cap_MemoryBytes other;
  cap_SwiftNICs := cap_SwiftNICs c -! cap_SwiftNICs other;
|}.

Definition Min (c other : RoleCapacity) : RoleCapacity := {|
  cap_VCPUs := Z.min (cap_VCPUs c) (cap_VCPUs other);
  cap_MemoryBytes := Z.min (cap_MemoryBytes c) (cap_MemoryBytes other);
  cap_SwiftNICs := Z.min (cap_SwiftNICs c) (cap_SwiftNICs other);
|}.

Definition Covers (c floor : RoleCapacity) : bool :=
  (cap_VCPUs floor <=? cap_VCPUs c) && (cap_MemoryBytes floor <=? cap_MemoryBytes c)
  && (cap_SwiftNICs floor <=? cap_SwiftNICs c).

(** [Pool.CapacityAtCount] *)
Definition CapacityAtCount (p : Pool) (count : Z) : RoleCapacity := {|
  cap_VCPUs := count *! spec_VCPUs (Pool_Spec p);
  cap_MemoryBytes := count *! spec_MemoryBytes (Pool_Spec p);
  cap_SwiftNICs := count *! Pool_SecondaryNICs p;
|}.

Inductive capacity_error : Type :=
  | ErrUnknownCapacity (pool : string)
  | ErrInvalidSwiftNICs (pool : string).

Definition validatePoolCapacity (pool : Pool) : option capacity_error :=
  if (spec_VCPUs (Pool_Spec pool) <=? 0) || (spec_MemoryBytes (Pool_Spec pool) <=? 0)
     || (Pool_MaxCount pool <? 0) then Some (ErrUnknownCapacity (Pool_Name pool))
  else if (Pool_SecondaryNICs pool <? 0)
     || ((0 <? Pool_SecondaryNICs pool) && negb (Pool_EnableSwift pool)) then
    Some (ErrInvalidSwiftNICs (Pool_Name pool))
  else None.

Record RoleZone := { rz_Role : PoolRole; rz_Zone : string }.

#[export] Instance RoleZone_eq_dec : EqDecision RoleZone.
Proof. solve_decision. Defined.
#[export] Instance RoleZone_countable : Countable RoleZone.
Proof.
  apply (inj_countable' (λ k, (rz_Role k, rz_Zone k)) (λ p, {| rz_Role := p.1; rz_Zone := p.2 |})).
  by intros [].
Defined.

(** [Pool.RoleZoneKey] *)
Definition RoleZoneKey (p : Pool) : RoleZone := {|
  rz_Role := Pool_Role p;
  rz_Zone := match Pool_AvailabilityZones p with [zone] => zone | _ => "" end;
|}.

Abbreviation CapacityByRoleZone := (gmap RoleZone RoleCapacity) (only parsing).

(** The accumulation loop both sums share: the key of the pool selects the
    bucket, absent buckets start from the zero capacity. *)
Fixpoint accumulate {K} `{Countable K} (key : Pool → K) (acc : gmap K RoleCapacity)
    (pools : list Pool) : result capacity_error (gmap K RoleCapacity) :=
  match pools with
  | [] => Ok acc
  | pool :: pools =>
      match validatePoolCapacity pool with
      | Some e => Err e
      | None =>
          let previous := default zeroCapacity (acc !! key pool) in
          accumulate key
            (<[key pool := Add previous (CapacityAtCount pool (Pool_MaxCount pool))]> acc) pools
      end
  end.

Definition PoolCapacities (pools : list Pool) : result capacity_error CapacityByRole :=
  accumulate Pool_Role ∅ pools.

Definition PoolZoneCapacities (pools : list Pool) :
    result capacity_error CapacityByRoleZone :=
  accumulate RoleZoneKey ∅ pools.

Definition roleZone_less (a b : RoleZone) : bool :=
  if String.eqb (rz_Role a) (rz_Role b) then string_less (rz_Zone a) (rz_Zone b)
  else string_less (rz_Role a) (rz_Role b).

(** [CapacityByRoleZone.Keys] *)
Definition Keys (capacity : CapacityByRoleZone) : list RoleZone :=
  sort_by roleZone_less (fst <$> map_to_list capacity).

Inductive floor_error : Type :=
  | ErrMissingCapacity (key : RoleZone)
  | ErrBelowBaseline (key : RoleZone) (got baseline : RoleCapacity)
  | ErrDesiredMissing (key : RoleZone).

(** One iteration of [EnsureMeetsBaseline]. *)
Definition meetsBaselineAt (capacity baseline : CapacityByRoleZone) (key : RoleZone) :
    option floor_error :=
  let floor := default zeroCapacity (baseline !! key) in
  match capacity !! key with
  | None => Some (ErrMissingCapacity key)
  | Some got => if Covers got floor then None else Some (ErrBelowBaseline key got floor)
  end.

(** [None] is a nil error. *)
Definition EnsureMeetsBaseline (capacity baseline : CapacityByRoleZone) :
    option floor_error :=
  find_map (meetsBaselineAt capacity baseline) (Keys baseline).

(** The loop of [ResolveEffectiveFloor], which fills in [floor]. *)
Fixpoint resolveFloorLoop (desired baseline : CapacityByRoleZone) (fullyAllocated : bool)
    (keys : list RoleZone) (floor : CapacityByRoleZone) :
    result floor_error CapacityByRoleZone :=
  match keys with
  | [] => Ok floor
  | key :: keys =>
      match desired !! key with
      | None => Err (ErrDesiredMissing key)
      | Some target =>
          let floor :=
            if fullyAllocated then
              <[key := Min (default zeroCapacity (baseline !! key)) target]> floor
            else floor in
          resolveFloorLoop desired baseline fullyAllocated keys floor
      end
  end.

Definition ResolveEffectiveFloor (desired baseline : CapacityByRoleZone)
    (fullyAllocated : bool) : result floor_error CapacityByRoleZone :=
  let* floor := resolveFloorLoop desired baseline fullyAllocated (Keys baseline) baseline in
  match EnsureMeetsBaseline desired floor with
  | Some e => Err e
  | None => Ok floor
  end.

(** ** Laws of capacities *)

Lemma Covers_spec c floor :
  Covers c floor = true ↔
  cap_VCPUs floor <= cap_VCPUs c ∧ cap_MemoryBytes floor <= cap_MemoryBytes c ∧
  cap_SwiftNICs floor <= cap_SwiftNICs c.
Proof. unfold Covers. rewrite !andb_true_iff, !Z.leb_le. tauto. Qed.

Lemma Covers_refl c : Covers c c = true.
Proof. rewrite Covers_spec. lia. Qed.

Lemma Covers_trans a b c : Covers a b = true → Covers b c = true → Covers a c = true.
Proof. rewrite !Covers_spec. lia. Qed.

Lemma Covers_Min_l c d : Covers c (Min c d) = true.
Proof. rewrite Covers_spec. simpl. lia. Qed.

Lemma Covers_Min_r c d : Covers d (Min c d) = true.
Proof. rewrite Covers_spec. simpl. lia. Qed.

#[export] Hint Resolve Covers_refl Covers_Min_l Covers_Min_r : aro.

Lemma elem_of_Keys m key : key ∈ Keys m ↔ is_Some (m !! key).
Proof.
  unfold Keys. rewrite elem_of_sort_by, list_elem_of_fmap. split.
  - intros ([k v] & -> & Hin%elem_of_map_to_list). eauto.
  - intros [v Hv]. exists (key, v). split; [done|]. by apply elem_of_map_to_list.
Qed.

(** Every bucket of the baseline is present and covers it. *)
Definition meets (capacity baseline : CapacityByRoleZone) : Prop :=
  map_Forall (λ key floor, ∃ got, capacity !! key = Some got ∧ Covers got floor = true)
    baseline.

Lemma EnsureMeetsBaseline_meets capacity baseline :
  EnsureMeetsBaseline capacity baseline = None ↔ meets capacity baseline.
Proof.
  unfold EnsureMeetsBaseline, meets. rewrite find_map_None. split.
  - intros H key floor Hkey. specialize (H key).
    unfold meetsBaselineAt in H. rewrite Hkey in H. simpl in H.
    destruct (capacity !! key) as [got|] eqn:E.
    + exists got. split; [done|]. destruct (Covers got floor) eqn:C; [done|].
      discriminate H. apply elem_of_Keys. eauto.
    + discriminate H. apply elem_of_Keys. eauto.
  - intros H key [floor Hkey]%elem_of_Keys.
    destruct (H key floor Hkey) as (got & Hgot & Hcov).
    unfold meetsBaselineAt. by rewrite Hkey, Hgot; simpl; rewrite Hcov.
Qed.

(** [EnsureMeetsBaseline] returns no error exactly when every bucket of the
    baseline is present and covers it in all three dimensions. *)
Theorem EnsureMeetsBaseline_ok_iff (capacity baseline : CapacityByRoleZone) :
  EnsureMeetsBaseline capacity baseline = None ↔
  map_Forall (λ key floor, ∃ got, capacity !! key = Some got ∧ Covers got floor = true)
    baseline.
Proof. apply EnsureMeetsBaseline_meets. Qed.

(** ** What the sums compute *)

(** The exact sum of the pools' capacities at their ceilings, brought into the
    [int64] range once. *)
Definition totalCapacity (pools : list Pool) : RoleCapacity := {|
  cap_VCPUs := wrap64 (Zsum ((λ p, Pool_MaxCount p * spec_VCPUs (Pool_Spec p)) <$> pools));
  cap_MemoryBytes :=
    wrap64 (Zsum ((λ p, Pool_MaxCount p * spec_MemoryBytes (Pool_Spec p)) <$> pools));
  cap_SwiftNICs := wrap64 (Zsum ((λ p, Pool_MaxCount p * Pool_SecondaryNICs p) <$> pools));
|}.

Definition capacity_known (p : Pool) : Prop := validatePoolCapacity p = None.

#[export] Instance capacity_known_dec p : Decision (capacity_known p).
Proof. unfold capacity_known. destruct (validatePoolCapacity p); [right|left]; done. Defined.

Lemma RoleCapacity_ext a b :
  cap_VCPUs a = cap_VCPUs b → cap_MemoryBytes a = cap_MemoryBytes b →
  cap_SwiftNICs a = cap_SwiftNICs b → a = b.
Proof. destruct a, b; simpl; congruence. Qed.

Lemma Add_CapacityAtCount_total prev p ps :
  Add (Add prev (CapacityAtCount p (Pool_MaxCount p))) (totalCapacity ps) =
  Add prev (totalCapacity (p :: ps)).
Proof.
  apply RoleCapacity_ext; unfold Add, totalCapacity, CapacityAtCount; csimpl;
    rewrite ?Zsum_cons, ?Zsum_nil; autorewrite with wrap; f_equal; lia.
Qed.

Lemma Add_total_nil prev p :
  Add prev (CapacityAtCount p (Pool_MaxCount p)) = Add prev (totalCapacity [p]).
Proof.
  apply RoleCapacity_ext; unfold Add, totalCapacity, CapacityAtCount; csimpl;
    rewrite ?Zsum_cons, ?Zsum_nil; autorewrite with wrap; f_equal; lia.
Qed.

Lemma Add_zero_total ps : Add zeroCapacity (totalCapacity ps) = totalCapacity ps.
Proof.
  apply RoleCapacity_ext; unfold Add, totalCapacity; simpl; by autorewrite with wrap.
Qed.

Section accumulate.
Context {K : Type} `{Countable K} (key : Pool → K).

Definition pools_at (k : K) (pools : list Pool) : list Pool :=
  filter (λ p, key p = k) pools.

Lemma pools_at_cons k p pools :
  pools_at k (p :: pools) = if decide (key p = k) then p :: pools_at k pools
                            else pools_at k pools.
Proof. unfold pools_at. by rewrite filter_cons. Qed.

Lemma accumulate_lookup acc pools m k :
  accumulate key acc pools = Ok m →
  m !! k = match pools_at k pools with
           | [] => acc !! k
           | ps => Some (Add (default zeroCapacity (acc !! k)) (totalCapacity ps))
           end.
Proof.
  revert acc. induction pools as [|p pools IH]; intros acc; simpl.
  - by intros [= ->].
  - destruct (validatePoolCapacity p); [done|]. intros Hm. rewrite (IH _ Hm).
    rewrite pools_at_cons. destruct (decide (key p = k)) as [<-|Hne].
    + rewrite lookup_insert_eq. simpl. destruct (pools_at (key p) pools) as [|q qs].
      * by rewrite Add_total_nil.
      * by rewrite Add_CapacityAtCount_total.
    + by rewrite lookup_insert_ne.
Qed.

Lemma accumulate_is_ok acc pools :
  is_ok (accumulate key acc pools) = true ↔ Forall capacity_known pools.
Proof.
  revert acc. induction pools as [|p pools IH]; intros acc; simpl.
  - by split; [constructor|].
  - rewrite Forall_cons. unfold capacity_known at 1.
    destruct (validatePoolCapacity p); [naive_solver|]. rewrite IH. tauto.
Qed.

Lemma accumulate_ok pools :
  Forall capacity_known pools → ∃ m, accumulate key ∅ pools = Ok m.
Proof.
  intros Hk. apply (accumulate_is_ok ∅) in Hk.
  destruct (accumulate key ∅ pools); [eauto|done].
Qed.

Lemma accumulate_lookup_empty pools m k :
  accumulate key ∅ pools = Ok m →
  m !! k = match pools_at k pools with [] => None | ps => Some (totalCapacity ps) end.
Proof.
  intros Hm. rewrite (accumulate_lookup _ _ _ k Hm), lookup_empty. simpl.
  destruct (pools_at k pools); [done|]. by rewrite Add_zero_total.
Qed.

(** The zero value a missing bucket reads as is the total of no pools. *)
Lemma accumulate_default pools m k :
  accumulate key ∅ pools = Ok m →
  default zeroCapacity (m !! k) = totalCapacity (pools_at k pools).
Proof.
  intros Hm. rewrite (accumulate_lookup_empty _ _ k Hm).
  by destruct (pools_at k pools).
Qed.
End accumulate.

(** [PoolZoneCapacities] succeeds exactly when every pool's capacity is
    known, and then a bucket is present exactly when some pool belongs to it and
    holds the total over the pools of that role and zone: the result does not
    depend on the order of the pools. *)
Theorem PoolZoneCapacities_spec (pools : list Pool) :
  match PoolZoneCapacities pools with
  | Err _ => ¬ Forall capacity_known pools
  | Ok m =>
      Forall capacity_known pools ∧
      ∀ key, m !! key = match pools_at RoleZoneKey key pools with
                        | [] => None
                        | ps => Some (totalCapacity ps)
                        end
  end.
Proof.
  unfold PoolZoneCapacities.
  pose proof (accumulate_is_ok RoleZoneKey ∅ pools) as Hok.
  destruct (accumulate RoleZoneKey ∅ pools) as [m|e] eqn:E; simpl in Hok.
  - split; [by apply Hok|]. intros key. by apply accumulate_lookup_empty.
  - by intros Hall%Hok.
Qed.

(** ** The effective floor *)

Lemma resolveFloorLoop_ok desired baseline fa keys floor floor' :
  resolveFloorLoop desired baseline fa keys floor = Ok floor' ↔
  (∀ key, key ∈ keys → is_Some (desired !! key)) ∧
  floor' = fold_left (λ f key,
             if fa then <[key := Min (default zeroCapacity (baseline !! key))
                                     (default zeroCapacity (desired !! key))]> f else f)
             keys floor.
Proof.
  revert floor. induction keys as [|key keys IH]; intros floor; simpl.
  - split; [intros [= ->]|intros [_ ->]]; [|done]. split; [set_solver|done].
  - destruct (desired !! key) as [target|] eqn:E.
    + rewrite IH. simpl. split; intros [H1 H2]; (split; [|done]).
      * intros k [->|Hk]%elem_of_cons; [rewrite E; eauto|auto].
      * intros k Hk. apply H1. by right.
    + split; [done|]. intros [H _]. destruct (H key ltac:(left)) as [x Hx]. congruence.
Qed.

Lemma fold_insert_lookup (f : RoleZone → RoleCapacity) (keys : list RoleZone)
    (m : CapacityByRoleZone) k :
  fold_left (λ m key, <[key := f key]> m) keys m !! k =
  if decide (k ∈ keys) then Some (f k) else m !! k.
Proof.
  revert m. induction keys as [|key keys IH]; intros m; simpl; [done|].
  rewrite IH. destruct (decide (k ∈ keys)) as [Hk|Hk].
  - rewrite decide_True by (by right). done.
  - destruct (decide (k = key)) as [->|Hne].
    + rewrite lookup_insert_eq, decide_True by left. done.
    + rewrite lookup_insert_ne by done. rewrite decide_False; [done|].
      by intros [?|?]%elem_of_cons.
Qed.

Lemma fold_left_const {A B} (l : list A) (b : B) : fold_left (λ b _, b) l b = b.
Proof. by induction l. Qed.

Lemma resolveFloorLoop_lookup desired baseline fa floor key :
  resolveFloorLoop desired baseline fa (Keys baseline) baseline = Ok floor →
  floor !! key =
    if fa then (λ b, Min b (default zeroCapacity (desired !! key))) <$> baseline !! key
    else baseline !! key.
Proof.
  intros [_ ->]%resolveFloorLoop_ok. destruct fa; [|by rewrite fold_left_const].
  rewrite (fold_insert_lookup (λ k, Min (default zeroCapacity (baseline !! k))
                                        (default zeroCapacity (desired !! k)))).
  destruct (baseline !! key) as [b|] eqn:E.
  - rewrite decide_True; [done|]. apply elem_of_Keys. rewrite E. eauto.
  - rewrite decide_False; [done|]. rewrite elem_of_Keys, E. by intros [? ?].
Qed.

(** The floor never asks for more than the baseline has. *)
Lemma ResolveEffectiveFloor_meets desired baseline fa :
  match ResolveEffectiveFloor desired baseline fa with
  | Ok floor => meets baseline floor
  | Err _ => True
  end.
Proof.
  unfold ResolveEffectiveFloor.
  destruct (resolveFloorLoop desired baseline fa (Keys baseline) baseline) as [floor|e] eqn:E;
    simpl; [|done].
  destruct (EnsureMeetsBaseline desired floor); [done|].
  intros key f Hf. rewrite (resolveFloorLoop_lookup _ _ _ _ key E) in Hf.
  destruct fa; [|eauto with aro].
  destruct (baseline !! key) as [b|]; simplify_eq/=. eauto with aro.
Qed.

(** [ResolveEffectiveFloor] accepts a plan exactly when it keeps capacity in
    every bucket that has some today and, for a partial plan, covers all of the
    current capacity.  The floor it returns has exactly the baseline's buckets,
    never exceeds the baseline, is met by the desired capacity, and is the
    baseline itself for a partial plan and the per-resource minimum of baseline
    and desired for a full one. *)
Theorem ResolveEffectiveFloor_spec (desired baseline : CapacityByRoleZone)
    (fullyAllocated : bool) :
  match ResolveEffectiveFloor desired baseline fullyAllocated with
  | Ok floor =>
      dom floor = dom baseline ∧ meets baseline floor ∧ meets desired floor ∧
      (∀ key b d, baseline !! key = Some b → desired !! key = Some d →
         floor !! key = Some (if fullyAllocated then Min b d else b))
  | Err _ =>
      ¬ (∀ key b, baseline !! key = Some b →
           ∃ d, desired !! key = Some d ∧
                (fullyAllocated = false → Covers d b = true))
  end.
Proof.
  unfold ResolveEffectiveFloor.
  destruct (resolveFloorLoop desired baseline fullyAllocated (Keys baseline) baseline)
    as [floor|e] eqn:E; simpl.
  - assert (Hdes : ∀ key, is_Some (baseline !! key) → is_Some (desired !! key)).
    { apply resolveFloorLoop_ok in E as [H _]. intros key Hk. by apply H, elem_of_Keys. }
    pose proof (λ key, resolveFloorLoop_lookup _ _ _ _ key E) as Hfl. clear E.
    destruct (EnsureMeetsBaseline desired floor) as [e|] eqn:M.
    + intros Hall.
      assert (EnsureMeetsBaseline desired floor = None) as M'; [|congruence].
      apply EnsureMeetsBaseline_meets. intros key f Hf.
      rewrite Hfl in Hf. destruct fullyAllocated.
      * destruct (baseline !! key) as [b|] eqn:Hb; simplify_eq/=.
        destruct (Hdes key) as [d Hd]; [rewrite Hb; eauto|].
        exists d. rewrite Hd. simpl. auto with aro.
      * destruct (Hall key f Hf) as (d & Hd & Hc). eauto.
    + apply EnsureMeetsBaseline_meets in M. split_and!.
      * apply set_eq. intros key. rewrite !elem_of_dom, Hfl.
        destruct fullyAllocated; [|done]. by rewrite fmap_is_Some.
      * intros key f Hf. rewrite Hfl in Hf. destruct fullyAllocated; [|eauto with aro].
        destruct (baseline !! key) as [b|]; simplify_eq/=. eauto with aro.
      * done.
      * intros key b d Hb Hd. rewrite Hfl, Hb, Hd. by destruct fullyAllocated.
  - intros Hall.
    assert (∃ f, resolveFloorLoop desired baseline fullyAllocated (Keys baseline) baseline = Ok f)
      as [f Hf]; [|congruence].
    eexists. apply resolveFloorLoop_ok. split; [|done].
    intros key [b Hb]%elem_of_Keys. destruct (Hall key b Hb) as (d & Hd & _). eauto.
Qed.
