(* ===== verification/ComputeZones.v ===== *)
(** * Availability zone resolution

    [fleet/pkg/compute/zones.go]: which zones of a region node pools span. *)
From S2P Require Import Prelude GoStrings.

Local Open Scope Z_scope.
Local Open Scope go_scope.

Definition RequiredAvailabilityZones : Z := 3.

Inductive zone_error : Type :=
  | ErrTooFewZones (regionZones : Z)
  | ErrEmptyZone (zoneList : string)
  | ErrZoneNotInteger (entry : string)
  | ErrZoneOutOfRange (zone : Z) (regionZones : Z)
  | ErrZoneDuplicate (zoneList : string) (zone : Z)
  | ErrZoneCount (zoneList : string) (count : Z).

(** Zones 1..count. *)
Definition firstZones (count : Z) : list string := Itoa <$> seqZ 1 count.

(** The loop of [parseZoneList] over the entries of the split list. *)
Fixpoint parseZoneEntries (explicitZones : string) (regionAvailabilityZones : Z)
    (entries : list string) (seen : gset Z) (zones : list string) :
    result zone_error (list string) :=
  match entries with
  | [] => Ok zones
  | entry :: entries =>
      let entry := TrimSpace entry in
      if String.eqb entry "" then Err (ErrEmptyZone explicitZones)
      else match Atoi entry with
           | None => Err (ErrZoneNotInteger entry)
           | Some zone =>
               if (zone <? 1) || (regionAvailabilityZones <? zone) then
                 Err (ErrZoneOutOfRange zone regionAvailabilityZones)
               else if bool_decide (zone ∈ seen) then Err (ErrZoneDuplicate explicitZones zone)
               else parseZoneEntries explicitZones regionAvailabilityZones entries
                      ({[zone]} ∪ seen) (zones ++ [Itoa zone])
           end
  end.

Definition comma : ascii := ","%char.

Definition parseZoneList (explicitZones : string) (regionAvailabilityZones : Z) :
    result zone_error (list string) :=
  parseZoneEntries explicitZones regionAvailabilityZones (Split comma explicitZones) ∅ [].

Definition ResolveZones (explicitZones : string) (regionAvailabilityZones : Z) :
    result zone_error (list string) :=
  if regionAvailabilityZones <? RequiredAvailabilityZones then
    Err (ErrTooFewZones regionAvailabilityZones)
  else if String.eqb (TrimSpace explicitZones) "" then
    Ok (firstZones RequiredAvailabilityZones)
  else
    let* zones := parseZoneList explicitZones regionAvailabilityZones in
    if negb (Z.of_nat (length zones) =? RequiredAvailabilityZones) then
      Err (ErrZoneCount explicitZones (Z.of_nat (length zones)))
    else Ok zones.

Definition ResolvePlanningZones (regionAvailabilityZones : Z) :
    result zone_error (list string) :=
  if regionAvailabilityZones <? RequiredAvailabilityZones then
    Err (ErrTooFewZones regionAvailabilityZones)
  else Ok (firstZones regionAvailabilityZones).

(** ** Properties *)

(** Distinct zone numbers of the region, printed. *)
Definition region_zones (regionAvailabilityZones : Z) (zones : list string) : Prop :=
  ∃ ns : list Z, zones = Itoa <$> ns ∧ NoDup ns ∧
    Forall (λ n, 1 <= n <= regionAvailabilityZones) ns.

Lemma region_zones_NoDup n zones : region_zones n zones → NoDup zones.
Proof. intros (ns & -> & Hnd & _). by apply NoDup_fmap_2; [apply _|]. Qed.

Lemma firstZones_region count : 0 <= count → region_zones count (firstZones count).
Proof.
  intros. exists (seqZ 1 count). split; [done|]. split; [apply NoDup_seqZ|].
  apply Forall_forall. intros z Hz%elem_of_seqZ. lia.
Qed.

Lemma parseZoneEntries_region text n entries seen (acc : list Z) zones :
  parseZoneEntries text n entries seen (Itoa <$> acc) = Ok zones →
  NoDup acc → Forall (λ z, 1 <= z <= n) acc → (∀ z, z ∈ acc → z ∈ seen) →
  region_zones n zones.
Proof.
  revert seen acc. induction entries as [|entry entries IH]; intros seen acc; simpl.
  - intros [= <-] Hnd Hall _. exists acc. eauto.
  - destruct (String.eqb _ _); [done|]. destruct (Atoi _) as [z|]; [|done].
    destruct (_ || _) eqn:R; [done|]. case_bool_decide as Hseen; [done|].
    bool_reflect. intros Hp Hnd Hall Hsub.
    apply (IH ({[z]} ∪ seen) (acc ++ [z])).
    + by rewrite fmap_app.
    + apply NoDup_app. split; [done|]. split; [|apply NoDup_singleton]. set_solver.
    + apply Forall_app. split; [done|]. repeat constructor; lia.
    + set_solver.
Qed.

(** (C40) A successful [ResolveZones] names exactly three distinct zones of the
    region: each is the decimal text of a number between 1 and the region's zone
    count, whatever the operator's override says. *)
Theorem ResolveZones_sound (explicitZones : string) (n : Z) (zones : list string)
    (H : ResolveZones explicitZones n = Ok zones) :
  Z.of_nat (length zones) = RequiredAvailabilityZones ∧ NoDup zones ∧ region_zones n zones.
Proof.
  unfold ResolveZones in H. destruct (n <? _) eqn:E; [done|].
  unfold RequiredAvailabilityZones in *. bool_reflect.
  destruct (String.eqb _ _).
  - simplify_eq. split; [done|]. split; [vm_compute; repeat constructor; set_solver|].
    destruct (firstZones_region 3) as (ns & ? & ? & Hall); [lia|].
    exists ns. split_and!; try done. eapply Forall_impl; [exact Hall|]. simpl. lia.
  - apply result_bind_ok in H as (zs & Hp & H).
    destruct (negb _) eqn:L; [done|]. bool_reflect. simplify_eq.
    assert (region_zones n zones) as Hr.
    { eapply (parseZoneEntries_region _ _ _ _ []); [exact Hp|constructor|constructor|set_solver]. }
    eauto using region_zones_NoDup.
Qed.

Lemma ResolveZones_sound_witness :
  ResolveZones " 4, 2,01" 4 = Ok ["4"; "2"; "1"] ∧
  region_zones 4 ["4"; "2"; "1"].
Proof.
  split; [vm_compute; reflexivity|].
  apply (ResolveZones_sound " 4, 2,01" 4 ["4"; "2"; "1"]). vm_compute. reflexivity.
Defined.

Lemma Itoa_no_space z : 0 <= z → string_forall (λ c, negb (is_space c)) (Itoa z) = true.
Proof.
  intros. eapply string_forall_impl; [|by apply Itoa_digits].
  intros c Hc. by rewrite digit_not_space.
Qed.

Lemma Itoa_no_comma z : 0 <= z → string_forall (λ c, negb (Ascii.eqb c comma)) (Itoa z) = true.
Proof.
  intros. eapply string_forall_impl; [|by apply Itoa_digits].
  intros c Hc. by destruct c as [[] [] [] [] [] [] [] []].
Qed.

Lemma parseZoneEntries_Itoa text n ns seen acc :
  n <= maxInt64 → Forall (λ z, 1 <= z <= n) ns → NoDup ns → (∀ z, z ∈ ns → z ∉ seen) →
  parseZoneEntries text n (Itoa <$> ns) seen acc = Ok (acc ++ (Itoa <$> ns)).
Proof.
  intros Hn. revert seen acc. induction ns as [|z ns IH]; intros seen acc Hall Hnd Hseen; csimpl.
  - by rewrite app_nil_r.
  - apply Forall_cons in Hall as [Hz Hall]. apply NoDup_cons in Hnd as [Hnin Hnd].
    rewrite TrimSpace_no_space by (apply Itoa_no_space; lia).
    rewrite (proj2 (String.eqb_neq _ _)) by apply Itoa_nonempty.
    rewrite Atoi_Itoa by int_range.
    rewrite (proj2 (Z.ltb_ge z 1)), (proj2 (Z.ltb_ge n z)) by lia. simpl.
    rewrite bool_decide_eq_false_2 by (apply Hseen; left).
    rewrite IH; [by rewrite <- app_assoc|done|done|set_solver].
Qed.

Lemma TrimSpace_Join_Itoa z ns :
  0 <= z → TrimSpace (Join "," (Itoa <$> z :: ns)) ≠ "".
Proof.
  intros Hz. csimpl. unfold TrimSpace.
  destruct (Itoa z) as [|c s] eqn:E; [by apply Itoa_nonempty in E|].
  pose proof (Itoa_no_space z Hz) as Hns. rewrite E in Hns. simpl in Hns.
  apply andb_true_iff in Hns as [Hc%negb_true_iff _].
  assert (Hcons : ∃ l, String.list_ascii_of_string
            (match Itoa <$> ns with [] => String c s
             | _ :: _ => (String c s +:+ "," +:+ Join "," (Itoa <$> ns))%string end) = c :: l).
  { destruct (Itoa <$> ns); simpl; eauto. }
  destruct Hcons as [l Hl]. rewrite Hl. simpl. rewrite Hc. simpl.
  intros Hnil. apply (f_equal String.list_ascii_of_string) in Hnil.
  rewrite String.list_ascii_of_string_of_list_ascii in Hnil. simpl in Hnil.
  assert (Hne : drop_spaces (rev l ++ [c]) ≠ []).
  { clear -Hc. induction (rev l) as [|d r IH]; simpl; [by rewrite Hc|].
    destruct (is_space d); done. }
  apply Hne. by apply (f_equal (@rev ascii)) in Hnil; rewrite rev_involutive in Hnil.
Qed.

(** Round trip: printing three distinct zone numbers of the region as a
    comma-separated override and resolving it gives those zones back, in the
    order the operator chose. *)
Theorem ResolveZones_roundtrip (n a b c : Z)
    (Hn : RequiredAvailabilityZones <= n <= maxInt64)
    (Hrange : Forall (λ z, 1 <= z <= n) [a; b; c]) (Hnd : NoDup [a; b; c]) :
  ResolveZones (Join "," (Itoa <$> [a; b; c])) n = Ok (Itoa <$> [a; b; c]).
Proof.
  unfold ResolveZones. rewrite (proj2 (Z.ltb_ge n _)) by lia.
  rewrite (proj2 (String.eqb_neq _ _)).
  - unfold parseZoneList. rewrite Split_Join.
    + by rewrite parseZoneEntries_Itoa by (done || lia || set_solver).
    + done.
    + apply Forall_fmap. eapply Forall_impl; [exact Hrange|].
      intros z Hz. apply Itoa_no_comma. simpl in Hz. lia.
  - apply TrimSpace_Join_Itoa. apply Forall_cons in Hrange as [? _]. lia.
Qed.

Lemma ResolveZones_roundtrip_witness :
  ResolveZones (Join "," (Itoa <$> [3; 1; 2])) 3 = Ok ["3"; "1"; "2"].
Proof.
  apply (ResolveZones_roundtrip 3 3 1 2).
  - unfold RequiredAvailabilityZones, maxInt64. lia.
  - repeat constructor; lia.
  - apply (bool_decide_unpack (NoDup [3; 1; 2])). vm_compute. exact I.
Defined.
