(* ===== verification/ComputeFill.v ===== *)
(** * Distributing families' quota over zones

    The combinatorial core of [fleet/pkg/compute/desired.go]: whether every zone
    of a tier can get the nodes it needs when each VM family only serves the
    zones its SKU is offered in ([canFill]), the searches built on it
    ([maxNodesPerZone], [mostFillableNodes], [bestZones]), and the proof that the
    greedy filling order never strands a zone.

    Families are addressed by their position in the list, as the code addresses
    them through pointers into [familiesWithQuota]. *)
From S2P Require Import Prelude GoStrings ComputeTypes.

Local Open Scope Z_scope.

(** ** Definitions *)

Definition zoneOffered (meta : SKUMetadata) (zone : string) : bool :=
  bool_decide (zone ∈ sku_Zones meta).

(** [intersectZones]: the given zones in which the SKU is available, in order. *)
Definition intersectZones (zones : list string) (meta : SKUMetadata) : list string :=
  base.filter (λ z, zoneOffered meta z = true) zones.

Record familyQuota := { fq_meta : SKUMetadata; fq_quotaNodes : Z }.

(** [combinations]: every choice of [k] of the zones, each in the zones' order,
    starting with the earliest zones.  The loop runs while at least [k] zones
    remain. *)
Fixpoint combinations (zones : list string) (k : nat) {struct k} : list (list string) :=
  match k with
  | O => [[]]
  | S k' =>
      (fix loop (zs : list string) : list (list string) :=
         match zs with
         | [] => []
         | z :: rest =>
             if Nat.leb (S k') (length zs)
             then (cons z <$> combinations rest k') ++ loop rest
             else []
         end) zones
  end.

Definition needAt (zoneNodesNeeded : gmap string Z) (zone : string) : Z :=
  default 0 (zoneNodesNeeded !! zone).

(** The body of [canFill]'s inner loop: the families offered in at least one zone
    of the group cover the nodes the whole group needs. *)
Definition groupCovered (familiesWithQuota : list familyQuota)
    (zoneNodesNeeded : gmap string Z) (group : list string) : bool :=
  let groupNodesNeeded := sum64 (needAt zoneNodesNeeded <$> group) in
  let groupQuotaNodes :=
    sum64 (fq_quotaNodes <$> base.filter (λ f, intersectZones group (fq_meta f) ≠ [])
                               familiesWithQuota) in
  negb (groupQuotaNodes <? groupNodesNeeded).

Definition sortedZones (zoneNodesNeeded : gmap string Z) : list string :=
  sort_by string_less (fst <$> map_to_list zoneNodesNeeded).

Definition canFill (familiesWithQuota : list familyQuota)
    (zoneNodesNeeded : gmap string Z) : bool :=
  let zones := sortedZones zoneNodesNeeded in
  forallb (λ groupSize,
      forallb (groupCovered familiesWithQuota zoneNodesNeeded)
        (combinations zones groupSize))
    (seq 1 (length zones)).

(** A map giving every zone the same number of nodes. *)
Definition sameNeed (zones : list string) (nodesPerZone : Z) : gmap string Z :=
  fold_left (λ m zone, <[zone := nodesPerZone]> m) zones ∅.

(** [maxNodesPerZone]: the loop counts [nodesPerZone] down from [maxNodes]. *)
Fixpoint maxNodesLoop (familiesWithQuota : list familyQuota) (zones : list string)
    (nodesPerZone : nat) : Z :=
  match nodesPerZone with
  | O => 0
  | S n =>
      if canFill familiesWithQuota (sameNeed zones (Z.of_nat nodesPerZone))
      then Z.of_nat nodesPerZone
      else maxNodesLoop familiesWithQuota zones n
  end.

Definition maxNodesPerZone (familiesWithQuota : list familyQuota) (zones : list string)
    (maxNodes : Z) : Z :=
  maxNodesLoop familiesWithQuota zones (Z.to_nat maxNodes).

(** [family.quotaNodes -= poolNodes; zoneNodesNeeded[zone] -= poolNodes].  Every
    caller passes at most what the family has and the zone needs, so neither
    subtraction can leave [int64]. *)
Definition takeQuota (poolNodes : Z) (f : familyQuota) : familyQuota :=
  {| fq_meta := fq_meta f; fq_quotaNodes := fq_quotaNodes f - poolNodes |}.
Definition takeFamily (i : nat) (poolNodes : Z) (fs : list familyQuota) : list familyQuota :=
  alter (takeQuota poolNodes) i fs.
Definition takeZone (zone : string) (poolNodes : Z) (need : gmap string Z) : gmap string Z :=
  <[zone := needAt need zone - poolNodes]> need.

(** [mostFillableNodes]: counts [poolNodes] down until the rest can be filled. *)
Fixpoint mostFillableLoop (familiesWithQuota : list familyQuota)
    (zoneNodesNeeded : gmap string Z) (i : nat) (zone : string) (poolNodes : nat) : Z :=
  match poolNodes with
  | O => 0
  | S n =>
      let p := Z.of_nat poolNodes in
      if canFill (takeFamily i p familiesWithQuota) (takeZone zone p zoneNodesNeeded)
      then p
      else mostFillableLoop familiesWithQuota zoneNodesNeeded i zone n
  end.

Definition mostFillableNodes (familiesWithQuota : list familyQuota)
    (zoneNodesNeeded : gmap string Z) (i : nat) (zone : string) : Z :=
  let quota := default 0 (fq_quotaNodes <$> familiesWithQuota !! i) in
  mostFillableLoop familiesWithQuota zoneNodesNeeded i zone
    (Z.to_nat (Z.min (needAt zoneNodesNeeded zone) quota)).

(** [zoneIndex]: the zone's position, or the number of zones when absent. *)
Fixpoint zoneIndex (zones : list string) (zone : string) : nat :=
  match zones with
  | [] => O
  | z :: zs => if String.eqb z zone then O else S (zoneIndex zs zone)
  end.

Definition zoneBefore (zones : list string) (a b : string) : bool :=
  Nat.ltb (zoneIndex zones a) (zoneIndex zones b).

(** One candidate of [bestZones]: the required zones and a choice of others, in
    the given zone order. *)
Definition candidateZones (zones requiredZones extraZones : list string) : list string :=
  sort_by (zoneBefore zones) (requiredZones ++ extraZones).

(** [bestZones]: the first candidate with the most nodes per zone. *)
Definition bestZones (familiesWithQuota : list familyQuota)
    (zones requiredZones : list string) (zoneCount : Z) (maxNodes : Z) :
    list string * Z :=
  let optionalZones := base.filter (λ z, z ∉ requiredZones) zones in
  let k := Z.to_nat (Z.max (zoneCount - Z.of_nat (length requiredZones)) 0) in
  fold_left (λ best extraZones,
      let candidate := candidateZones zones requiredZones extraZones in
      let nodesPerZone := maxNodesPerZone familiesWithQuota candidate maxNodes in
      if best.2 <? nodesPerZone then (candidate, nodesPerZone) else best)
    (combinations optionalZones k) ([], -1).

(** ** [combinations] enumerates the sublists of a given length *)

Lemma combinations_S zones k :
  combinations zones (S k) =
  match zones with
  | [] => []
  | z :: rest => if Nat.leb (S k) (length zones)
                 then (cons z <$> combinations rest k) ++ combinations rest (S k)
                 else []
  end.
Proof. by destruct zones. Qed.

Lemma elem_of_combinations (zones group : list string) (k : nat) :
  group ∈ combinations zones k ↔ group `sublist_of` zones ∧ length group = k.
Proof.
  revert zones group. induction k as [|k IHk]; intros zones group.
  - simpl. rewrite list_elem_of_singleton. split.
    + intros ->. split; [apply sublist_nil_l|done].
    + intros [_ H]. by apply nil_length_inv.
  - induction zones as [|z rest IHz]; rewrite combinations_S.
    + split; [by intros ?%elem_of_nil|]. by intros [->%sublist_nil_r H].
    + destruct (Nat.leb (S k) (length (z :: rest))) eqn:E.
      * rewrite elem_of_app, list_elem_of_fmap, IHz. split.
        { intros [(g & -> & Hg%IHk)|[H1 H2]].
          - destruct Hg as [Hg <-]. split; [by apply sublist_skip|done].
          - split; [by apply sublist_cons|done]. }
        { intros [[Hs|(g & -> & Hs)]%sublist_cons_r Hl]; [by right|].
          left. exists g. split; [done|]. apply IHk. auto. }
      * split; [by intros ?%elem_of_nil|]. intros [Hs Hl].
        apply Nat.leb_gt in E. apply sublist_length in Hs. lia.
Qed.

(** [combinations zones k] lists exactly the choices of [k] zones that keep
    the zones' order. *)
Theorem combinations_spec (zones group : list string) (k : nat) :
  group ∈ combinations zones k ↔ group `sublist_of` zones ∧ length group = k.
Proof. apply elem_of_combinations. Qed.

(** ** Hall's condition

    [needOf] and [quotaOf] sum over a group of zones given as a test: the nodes
    the group needs, and the quota of the families offered in some zone of it. *)
Definition offers (f : familyQuota) (z : string) : bool := zoneOffered (fq_meta f) z.

Definition reaches (zs : list string) (P : string → bool) (f : familyQuota) : bool :=
  existsb (λ z, P z && offers f z) zs.

Definition needOf (zs : list string) (need : string → Z) (P : string → bool) : Z :=
  Zsum ((λ z, if P z then need z else 0) <$> zs).

Definition quotaOf (fs : list familyQuota) (zs : list string) (P : string → bool) : Z :=
  Zsum ((λ f, if reaches zs P f then fq_quotaNodes f else 0) <$> fs).

Definition Hall (fs : list familyQuota) (zs : list string) (need : string → Z) : Prop :=
  ∀ P, needOf zs need P <= quotaOf fs zs P.

Definition quotaNonneg (fs : list familyQuota) : Prop := ∀ f, f ∈ fs → 0 <= fq_quotaNodes f.

(** The need after [p] nodes of zone [z] are served. *)
Definition dec (need : string → Z) (z : string) (p : Z) : string → Z :=
  λ y, if String.eqb y z then need y - p else need y.

Section hall.
Context (zs : list string) (Hnd : NoDup zs).
Implicit Types (fs : list familyQuota) (need : string → Z) (P Q : string → bool).

Lemma reaches_spec P f :
  reaches zs P f = true ↔ ∃ z, z ∈ zs ∧ P z = true ∧ offers f z = true.
Proof.
  unfold reaches. rewrite existsb_elem. by setoid_rewrite andb_true_iff.
Qed.

Lemma reaches_or P Q f :
  reaches zs (λ z, P z || Q z) f = reaches zs P f || reaches zs Q f.
Proof.
  apply eq_true_iff_eq. rewrite orb_true_iff, !reaches_spec.
  setoid_rewrite orb_true_iff. naive_solver.
Qed.

Lemma reaches_and P Q f :
  reaches zs (λ z, P z && Q z) f = true → reaches zs P f = true ∧ reaches zs Q f = true.
Proof.
  rewrite !reaches_spec. setoid_rewrite andb_true_iff. naive_solver.
Qed.

(** Needs are modular, quotas submodular. *)
Lemma needOf_modular need P Q :
  needOf zs need (λ z, P z || Q z) + needOf zs need (λ z, P z && Q z) =
  needOf zs need P + needOf zs need Q.
Proof.
  unfold needOf. rewrite <- !Zsum_map_add. apply Zsum_map_ext. intros z _.
  destruct (P z), (Q z); simpl; lia.
Qed.

Lemma quotaOf_submodular fs P Q :
  quotaNonneg fs →
  quotaOf fs zs (λ z, P z || Q z) + quotaOf fs zs (λ z, P z && Q z) <=
  quotaOf fs zs P + quotaOf fs zs Q.
Proof.
  intros Hq. unfold quotaOf. rewrite <- !Zsum_map_add. apply Zsum_map_le. intros f Hf.
  specialize (Hq f Hf). rewrite reaches_or. pose proof (reaches_and P Q f) as Ha.
  destruct (reaches zs (λ z, P z && Q z) f).
  - destruct (Ha eq_refl) as [-> ->]. simpl. lia.
  - destruct (reaches zs P f), (reaches zs Q f); simpl; lia.
Qed.

Lemma needOf_dec need z p P :
  z ∈ zs → needOf zs (dec need z p) P = needOf zs need P - (if P z then p else 0).
Proof.
  intros Hz. unfold needOf, dec.
  rewrite (Zsum_update (λ y, if P y then need y else 0) _ z zs (- (if P z then p else 0)));
    [lia|done|done| |].
  - rewrite String.eqb_refl. destruct (P z); lia.
  - intros y _ Hne. by rewrite (proj2 (String.eqb_neq y z)).
Qed.

Lemma reaches_take P p f : reaches zs P (takeQuota p f) = reaches zs P f.
Proof. done. Qed.

Lemma quotaOf_take fs i f p P :
  fs !! i = Some f →
  quotaOf (takeFamily i p fs) zs P = quotaOf fs zs P - (if reaches zs P f then p else 0).
Proof.
  intros Hi. unfold quotaOf, takeFamily. rewrite (Zsum_alter _ _ _ _ f) by done.
  rewrite reaches_take. simpl. destruct (reaches zs P f); lia.
Qed.

Lemma reaches_at P f z : z ∈ zs → P z = true → offers f z = true → reaches zs P f = true.
Proof. intros. apply reaches_spec. eauto. Qed.

Lemma Hall_ext fs need need' :
  (∀ z, z ∈ zs → need z = need' z) → Hall fs zs need → Hall fs zs need'.
Proof.
  intros He Hh P. specialize (Hh P). unfold needOf in *.
  rewrite (Zsum_map_ext _ (λ z, if P z then need z else 0)); [done|].
  intros z Hz. by rewrite He.
Qed.

(** Giving back to a family what it spent on a zone it serves keeps Hall's
    condition. *)
Lemma Hall_restore fs need i f z p :
  fs !! i = Some f → offers f z = true → z ∈ zs → 0 <= p →
  Hall (takeFamily i p fs) zs (dec need z p) → Hall fs zs need.
Proof.
  intros Hi Ho Hz Hp Hh P. specialize (Hh P).
  rewrite needOf_dec, (quotaOf_take _ _ f) in Hh by done.
  pose proof (reaches_at P f z Hz) as Hr.
  destruct (P z); [rewrite Hr in Hh by done; lia|].
  destruct (reaches zs P f); lia.
Qed.

(** ** Deciding Hall's condition over the groups *)
Definition hallb fs need : bool :=
  forallb (λ k, forallb (λ g,
      Zsum (need <$> g) <=?
      Zsum (fq_quotaNodes <$> base.filter (λ f, intersectZones g (fq_meta f) ≠ []) fs))
    (combinations zs k)) (seq 1 (length zs)).

Lemma intersect_reaches P f :
  intersectZones (base.filter (λ z, P z = true) zs) (fq_meta f) ≠ [] ↔
  reaches zs P f = true.
Proof.
  unfold intersectZones. rewrite reaches_spec. split.
  - intros H. destruct (base.filter _ (base.filter _ zs)) as [|z l] eqn:E; [done|].
    assert (z ∈ base.filter (λ z, zoneOffered (fq_meta f) z = true)
                (base.filter (λ z, P z = true) zs)) as Hin by (rewrite E; left).
    rewrite !list_elem_of_filter in Hin. exists z. tauto.
  - intros (z & Hz & HP & Ho) E.
    assert (z ∈ base.filter (λ z, zoneOffered (fq_meta f) z = true)
                (base.filter (λ z, P z = true) zs)) as Hin
      by (rewrite !list_elem_of_filter; auto).
    rewrite E in Hin. by apply elem_of_nil in Hin.
Qed.

Lemma group_quota fs P :
  Zsum (fq_quotaNodes <$> base.filter
     (λ f, intersectZones (base.filter (λ z, P z = true) zs) (fq_meta f) ≠ []) fs) =
  quotaOf fs zs P.
Proof.
  rewrite Zsum_filter. apply Zsum_map_ext. intros f _.
  destruct (decide _) as [H|H].
  - apply intersect_reaches in H. by rewrite H.
  - rewrite intersect_reaches in H. apply not_true_iff_false in H. by rewrite H.
Qed.

Lemma group_need need P :
  Zsum (need <$> base.filter (λ z, P z = true) zs) = needOf zs need P.
Proof.
  rewrite Zsum_filter. apply Zsum_map_ext. intros z _.
  destruct (decide (P z = true)) as [->|H]; [done|].
  apply not_true_iff_false in H. by rewrite H.
Qed.
End hall.

Lemma sublist_filter_elem (g zs : list string) :
  NoDup zs → g `sublist_of` zs →
  base.filter (λ z, bool_decide (z ∈ g) = true) zs = g.
Proof.
  intros Hnd Hs. induction Hs as [|x g zs Hs IH|x g zs Hs IH].
  - done.
  - apply NoDup_cons in Hnd as [Hx Hnd].
    rewrite filter_cons_True by (apply bool_decide_eq_true; left).
    f_equal. transitivity (base.filter (λ z, bool_decide (z ∈ g) = true) zs); [|by apply IH].
    assert (∀ l, l ⊆ zs → base.filter (λ z, bool_decide (z ∈ x :: g) = true) l =
                          base.filter (λ z, bool_decide (z ∈ g) = true) l) as Hext;
      [|by apply Hext].
    intros l Hl. induction l as [|y l IHl]; [done|].
    assert (y ≠ x) by (intros ->; apply Hx, Hl; left).
    rewrite !filter_cons, IHl by set_solver.
    destruct (decide (bool_decide (y ∈ x :: g) = true)) as [H1|H1];
      destruct (decide (bool_decide (y ∈ g) = true)) as [H2|H2]; try done;
      rewrite bool_decide_eq_true in H1, H2; set_solver.
  - apply NoDup_cons in Hnd as [Hx Hnd].
    rewrite filter_cons_False; [by apply IH|].
    rewrite bool_decide_eq_true. intros Hin. apply Hx.
    by apply (sublist_subseteq _ _ Hs).
Qed.

Section hall_dec.
Context (zs : list string) (Hnd : NoDup zs).
Implicit Types (fs : list familyQuota) (need : string → Z) (P Q : string → bool).

Lemma quotaOf_nonneg fs P : quotaNonneg fs → 0 <= quotaOf fs zs P.
Proof.
  intros Hq. apply Zsum_map_nonneg. intros f Hf. specialize (Hq f Hf).
  destruct (reaches zs P f); lia.
Qed.

Lemma hallb_spec fs need :
  quotaNonneg fs → hallb zs fs need = true ↔ Hall fs zs need.
Proof.
  intros Hq. unfold hallb. rewrite forallb_elem. split.
  - intros H P. destruct (base.filter (λ z, P z = true) zs) as [|z l] eqn:E.
    + rewrite <- (group_need zs need P), E. by apply quotaOf_nonneg.
    + set (g := base.filter (λ z, P z = true) zs) in *.
      assert (Hs : g `sublist_of` zs) by apply sublist_filter.
      assert (length g ∈ seq 1 (length zs)) as Hk.
      { apply elem_of_seq. pose proof (sublist_length _ _ Hs). rewrite E in *. simpl in *. lia. }
      specialize (H _ Hk). rewrite forallb_elem in H.
      specialize (H g (proj2 (elem_of_combinations zs g (length g)) (conj Hs eq_refl))).
      apply Z.leb_le in H. unfold g in H. by rewrite group_need, group_quota in H.
  - intros Hh k Hk. apply forallb_elem. intros g [Hs Hl]%elem_of_combinations.
    apply Z.leb_le. specialize (Hh (λ z, bool_decide (z ∈ g))).
    rewrite <- group_need, <- group_quota in Hh.
    by rewrite (sublist_filter_elem g zs) in Hh.
Qed.

Lemma Hall_decide fs need :
  quotaNonneg fs → Hall fs zs need ∨ ∃ P, quotaOf fs zs P < needOf zs need P.
Proof.
  intros Hq. destruct (hallb zs fs need) eqn:E; [left; by apply hallb_spec|right].
  unfold hallb in E. apply not_true_iff_false in E.
  destruct (existsb (λ k, existsb (λ g,
      Zsum (fq_quotaNodes <$> base.filter (λ f, intersectZones g (fq_meta f) ≠ []) fs) <?
      Zsum (need <$> g)) (combinations zs k)) (seq 1 (length zs))) eqn:E'.
  - apply existsb_elem in E' as (k & _ & (g & [Hs _]%elem_of_combinations & Hlt)%existsb_elem).
    bool_reflect. exists (λ z, bool_decide (z ∈ g)).
    rewrite <- group_need, <- group_quota. by rewrite sublist_filter_elem.
  - exfalso. apply E. apply forallb_elem. intros k Hk. apply forallb_elem. intros g Hg.
    rewrite existsb_false in E'. specialize (E' k Hk). rewrite existsb_false in E'.
    specialize (E' g Hg). bool_reflect. by apply Z.leb_le.
Qed.

(** A group is tight when it needs all the quota that reaches it.  Tight groups
    are closed under union. *)
Definition tight fs need P : Prop := needOf zs need P = quotaOf fs zs P.

Lemma tight_or fs need P Q :
  quotaNonneg fs → Hall fs zs need → tight fs need P → tight fs need Q →
  tight fs need (λ z, P z || Q z).
Proof.
  unfold tight. intros Hq Hh HP HQ.
  pose proof (needOf_modular zs need P Q). pose proof (quotaOf_submodular zs fs P Q Hq).
  pose proof (Hh (λ z, P z || Q z)). pose proof (Hh (λ z, P z && Q z)). lia.
Qed.

(** Either some family among the first [n] can serve one node of [z], or a
    tight group outside [z] blocks all of them. *)
Lemma Hall_blocked fs need z n :
  quotaNonneg fs → Hall fs zs need → z ∈ zs →
  (∃ i f, fs !! i = Some f ∧ offers f z = true ∧ 1 <= fq_quotaNodes f ∧
          Hall (takeFamily i 1 fs) zs (dec need z 1)) ∨
  (∃ T, T z = false ∧ tight fs need T ∧
        ∀ i f, (i < n)%nat → fs !! i = Some f → offers f z = true →
               1 <= fq_quotaNodes f → reaches zs T f = true).
Proof.
  intros Hq Hh Hz. induction n as [|n [IH|(T & HTz & HT & Hb)]].
  - right. exists (λ _, false). split_and!; [done| |lia].
    unfold tight, needOf, quotaOf.
    rewrite (Zsum_map_ext (λ f, if reaches zs (λ _, false) f then fq_quotaNodes f else 0)
               (λ _, 0)).
    + by rewrite !Zsum_map_zero.
    + intros f _. destruct (reaches zs (λ _, false) f) eqn:E; [|done].
      apply reaches_spec in E as (? & _ & ? & _). done.
  - by left.
  - assert (Hsame : (∀ f, fs !! n = Some f → offers f z = true → 1 <= fq_quotaNodes f →
                          reaches zs T f = true) →
      ∀ i f, (i < S n)%nat → fs !! i = Some f → offers f z = true →
             1 <= fq_quotaNodes f → reaches zs T f = true).
    { intros Hn i f Hi Hf. destruct (decide (i = n)) as [->|]; [by apply Hn|].
      apply (Hb i); [lia|done]. }
    destruct (fs !! n) as [f|] eqn:En; [|right; exists T; split_and!; auto; apply Hsame; done].
    destruct (offers f z) eqn:Eo;
      [|right; exists T; split_and!; auto; apply Hsame; intros; simplify_eq; congruence].
    destruct (decide (1 <= fq_quotaNodes f));
      [|right; exists T; split_and!; auto; apply Hsame; intros; simplify_eq; lia].
    destruct (Hall_decide (takeFamily n 1 fs) (dec need z 1)) as [Hg|[P HP]].
    { intros g [j Hj]%list_elem_of_lookup. unfold takeFamily in Hj.
      destruct (decide (j = n)) as [->|].
      - rewrite list_lookup_alter_eq, En in Hj. simplify_eq/=. lia.
      - rewrite list_lookup_alter_ne in Hj by done.
        apply Hq. by eapply list_elem_of_lookup_2. }
    { left. exists n, f. auto. }
    rewrite needOf_dec, (quotaOf_take _ _ _ f) in HP by done. pose proof (Hh P).
    pose proof (reaches_at zs P f z Hz) as Hr.
    destruct (P z) eqn:EP; [rewrite Hr in HP by done; lia|].
    destruct (reaches zs P f) eqn:ER; [|lia].
    right. exists (λ y, T y || P y). split_and!.
    + by rewrite HTz, EP.
    + apply tight_or; try done. unfold tight. lia.
    + intros i g Hi Hg Ho Hq1. rewrite reaches_or. apply orb_true_iff.
      destruct (decide (i = n)) as [->|]; [right; congruence|].
      left. apply (Hb i); [lia|done..].
Qed.

(** The augmenting step of Hall's theorem: while a zone needs nodes, some
    family can serve one of them and leave the rest servable. *)
Lemma Hall_step fs need z :
  quotaNonneg fs → Hall fs zs need → z ∈ zs → 1 <= need z →
  ∃ i f, fs !! i = Some f ∧ offers f z = true ∧ 1 <= fq_quotaNodes f ∧
         Hall (takeFamily i 1 fs) zs (dec need z 1).
Proof.
  intros Hq Hh Hz Hn.
  destruct (Hall_blocked fs need z (length fs) Hq Hh Hz) as [?|(T & HTz & HT & Hb)]; [done|].
  exfalso. pose proof (Hh (λ y, T y || String.eqb y z)) as HU.
  assert (needOf zs need (λ y, T y || String.eqb y z) = needOf zs need T + need z) as E1.
  { unfold needOf. apply (Zsum_update _ _ z); [done..| |].
    - rewrite HTz, String.eqb_refl. simpl. lia.
    - intros y _ Hne. rewrite (proj2 (String.eqb_neq y z)) by done. by rewrite orb_false_r. }
  assert (quotaOf fs zs (λ y, T y || String.eqb y z) <= quotaOf fs zs T) as E2.
  { unfold quotaOf. apply Zsum_map_le. intros f Hf. rewrite reaches_or.
    destruct (reaches zs T f) eqn:ET; simpl; [lia|].
    destruct (reaches zs (λ y, String.eqb y z) f) eqn:EZ; [|lia].
    apply reaches_spec in EZ as (y & _ & ->%String.eqb_eq & Ho).
    destruct (decide (1 <= fq_quotaNodes f)); [|lia].
    apply list_elem_of_lookup in Hf as [i Hi].
    rewrite (Hb i f) in ET; [done| |done..]. by eapply lookup_lt_Some. }
  unfold tight in HT. lia.
Qed.
End hall_dec.

(** ** [canFill] decides Hall's condition *)

Lemma elem_of_sortedZones (need : gmap string Z) z :
  z ∈ sortedZones need ↔ is_Some (need !! z).
Proof.
  unfold sortedZones. rewrite elem_of_sort_by, list_elem_of_fmap. split.
  - intros ([k v] & -> & Hin%elem_of_map_to_list). eauto.
  - intros [v Hv]. exists (z, v). split; [done|]. by apply elem_of_map_to_list.
Qed.

Lemma sortedZones_NoDup (need : gmap string Z) : NoDup (sortedZones need).
Proof. unfold sortedZones. apply NoDup_sort_by, NoDup_fst_map_to_list. Qed.

Lemma sortedZones_dom (need need' : gmap string Z) :
  dom need = dom need' → sortedZones need = sortedZones need'.
Proof.
  intros Hd. unfold sortedZones. apply sort_strings_unique.
  apply NoDup_Permutation; [apply NoDup_fst_map_to_list..|].
  intros z. rewrite <- (elem_of_sort_by string_less _ (_ <$> map_to_list need)),
    <- (elem_of_sort_by string_less _ (_ <$> map_to_list need')).
  change (z ∈ sortedZones need ↔ z ∈ sortedZones need').
  by rewrite !elem_of_sortedZones, <- !elem_of_dom, Hd.
Qed.

(** The sums of the fill problem stay within [int64]. *)
Record fillBounds (fs : list familyQuota) (need : gmap string Z) : Prop := {
  fb_quota : quotaNonneg fs;
  fb_need : ∀ z, 0 <= needAt need z;
  fb_quota_sum : Zsum (fq_quotaNodes <$> fs) <= maxInt64;
  fb_need_sum : Zsum (needAt need <$> sortedZones need) <= maxInt64;
}.

Lemma groupCovered_exact fs need g :
  fillBounds fs need → g `sublist_of` sortedZones need →
  groupCovered fs need g =
  (Zsum (needAt need <$> g) <=?
   Zsum (fq_quotaNodes <$> base.filter (λ f, intersectZones g (fq_meta f) ≠ []) fs)).
Proof.
  intros [Hq Hn Hqs Hns] Hs. unfold groupCovered.
  assert (Zsum (needAt need <$> g) <= maxInt64).
  { etransitivity; [|exact Hns]. by apply Zsum_sublist_le. }
  assert (0 <= Zsum (needAt need <$> g)) by (apply Zsum_map_nonneg; auto).
  set (fl := base.filter (λ f, intersectZones g (fq_meta f) ≠ []) fs).
  assert (Zsum (fq_quotaNodes <$> fl) <= maxInt64).
  { etransitivity; [|exact Hqs]. by apply Zsum_filter_le. }
  assert (0 <= Zsum (fq_quotaNodes <$> fl)).
  { apply Zsum_map_nonneg. intros f Hf. apply Hq. unfold fl in Hf.
    apply list_elem_of_filter in Hf. tauto. }
  rewrite !sum64_exact by int_range.
  rewrite Z.ltb_antisym. apply negb_involutive.
Qed.

Lemma canFill_Hall fs need :
  fillBounds fs need → canFill fs need = true ↔ Hall fs (sortedZones need) (needAt need).
Proof.
  intros Hb. rewrite <- hallb_spec by (apply sortedZones_NoDup || apply Hb).
  unfold canFill, hallb. rewrite !forallb_elem.
  apply forall_proper. intros k. apply forall_proper. intros _.
  rewrite !forallb_elem. split; intros H g Hg;
    pose proof Hg as [Hs _]%elem_of_combinations; specialize (H g Hg);
    rewrite groupCovered_exact in *; done.
Qed.

(** ** Assignments of families' nodes to zones *)

(** [x i z] nodes of family [i] go to zone [z]. *)
Record assignment (fs : list familyQuota) (zs : list string) (need : string → Z)
    (x : nat → string → Z) : Prop := {
  as_nonneg : ∀ i z, 0 <= x i z;
  as_offered : ∀ i f z, fs !! i = Some f → offers f z = false → x i z = 0;
  as_need : ∀ z, z ∈ zs → Zsum ((λ i, x i z) <$> seq 0 (length fs)) = need z;
  as_quota : ∀ i f, fs !! i = Some f → Zsum (x i <$> zs) <= fq_quotaNodes f;
}.

Lemma Zsum_seq_le {A} (l : list A) (F : nat → Z) (G : A → Z) k :
  (∀ i a, l !! i = Some a → F (k + i)%nat <= G a) →
  Zsum (F <$> seq k (length l)) <= Zsum (G <$> l).
Proof.
  revert k. induction l as [|a l IH]; intros k H; csimpl; [lia|].
  rewrite ?Zsum_cons. pose proof (H O a eq_refl) as H0. rewrite Nat.add_0_r in H0.
  assert (Zsum (F <$> seq (S k) (length l)) <= Zsum (G <$> l)); [|lia].
  apply IH. intros i b Hi. rewrite Nat.add_succ_comm. apply (H (S i)). done.
Qed.

Lemma assignment_Hall fs zs need x :
  quotaNonneg fs → assignment fs zs need x → Hall fs zs need.
Proof.
  intros Hq [Hnn Ho Hneed Hquota] P. unfold needOf, quotaOf.
  rewrite (Zsum_map_ext _ (λ z, Zsum ((λ i, if P z then x i z else 0) <$> seq 0 (length fs)))).
  - rewrite Zsum_swap. apply Zsum_seq_le. intros i f Hi. simpl.
    destruct (reaches zs P f) eqn:E.
    + etransitivity; [|by apply (Hquota i)]. apply Zsum_map_le. intros z _.
      specialize (Hnn i z). destruct (P z); lia.
    + rewrite (Zsum_map_ext _ (λ _, 0)), Zsum_map_zero; [lia|].
      intros z Hz. destruct (P z) eqn:EP; [|done].
      destruct (offers f z) eqn:EO; [|by apply (Ho i f)].
      rewrite (reaches_at zs P f z) in E; done.
  - intros z Hz. destruct (P z).
    + by rewrite <- Hneed.
    + by rewrite Zsum_map_zero.
Qed.

(** One more node of family [i] for zone [z]. *)
Definition bump (x : nat → string → Z) (i : nat) (z : string) : nat → string → Z :=
  λ j y, x j y + (if bool_decide (j = i) && String.eqb y z then 1 else 0).

Lemma assignment_bump fs zs need x i f z :
  NoDup zs → z ∈ zs → fs !! i = Some f → offers f z = true →
  assignment (takeFamily i 1 fs) zs (dec need z 1) x →
  assignment fs zs need (bump x i z).
Proof.
  intros Hnd Hz Hi Hof [Hnn Ho Hneed Hquota].
  assert (Hlen : length (takeFamily i 1 fs) = length fs) by apply length_alter.
  assert (Hget : ∀ j g, fs !! j = Some g →
    takeFamily i 1 fs !! j = Some (if bool_decide (j = i) then takeQuota 1 g else g)).
  { intros j g Hj. unfold takeFamily. case_bool_decide as Hji.
    - subst. by rewrite list_lookup_alter_eq, Hj.
    - by rewrite list_lookup_alter_ne. }
  split.
  - intros j y. unfold bump. specialize (Hnn j y). destruct (_ && _); lia.
  - intros j g y Hj Hg. unfold bump. rewrite (Ho j _ y (Hget j g Hj)).
    + destruct (bool_decide (j = i) && String.eqb y z) eqn:E; [|lia].
      bool_reflect. apply String.eqb_eq in H0. simplify_eq. congruence.
    + by destruct (bool_decide (j = i)).
  - intros y Hy. specialize (Hneed y Hy). rewrite Hlen in Hneed. unfold bump, dec in *.
    destruct (String.eqb y z) eqn:E.
    + rewrite (Zsum_update (λ j, x j y) _ i _ 1); [lia|apply NoDup_seq| | |].
      * apply elem_of_seq. apply lookup_lt_Some in Hi. lia.
      * by rewrite bool_decide_eq_true_2.
      * intros j _ Hne. rewrite bool_decide_eq_false_2 by done. simpl. lia.
    + rewrite <- Hneed. apply Zsum_map_ext. intros j _. rewrite andb_false_r. lia.
  - intros j g Hj. specialize (Hquota j _ (Hget j g Hj)). unfold bump.
    case_bool_decide as Hji; simpl in *.
    + rewrite (Zsum_update (x j) _ z _ 1); [lia|done|done| |].
      * by rewrite String.eqb_refl.
      * intros y _ Hne. rewrite (proj2 (String.eqb_neq y z)) by done. lia.
    + rewrite (Zsum_map_ext _ (x j)); [done|]. intros y _. lia.
Qed.

Lemma takeFamily_nonneg fs i f p :
  quotaNonneg fs → fs !! i = Some f → p <= fq_quotaNodes f →
  quotaNonneg (takeFamily i p fs).
Proof.
  intros Hq Hi Hp g [j Hj]%list_elem_of_lookup. unfold takeFamily in Hj.
  destruct (decide (j = i)) as [->|].
  - rewrite list_lookup_alter_eq, Hi in Hj. simplify_eq/=. lia.
  - rewrite list_lookup_alter_ne in Hj by done. apply Hq. by eapply list_elem_of_lookup_2.
Qed.

Lemma Zsum_pos_elem (zs : list string) (need : string → Z) :
  0 < Zsum (need <$> zs) → (∀ z, z ∈ zs → 0 <= need z) → ∃ z, z ∈ zs ∧ 1 <= need z.
Proof.
  induction zs as [|z zs IH]; csimpl; rewrite ?Zsum_nil, ?Zsum_cons; [lia|].
  intros Hpos Hnn. destruct (decide (1 <= need z)) as [|Hz].
  - exists z. split; [left|done].
  - destruct IH as (y & Hy & ?).
    + pose proof (Hnn z ltac:(left)). lia.
    + intros y Hy. apply Hnn. by right.
    + exists y. split; [by right|done].
Qed.

Lemma Hall_assignment zs fs need :
  NoDup zs → quotaNonneg fs → (∀ z, z ∈ zs → 0 <= need z) → Hall fs zs need →
  ∃ x, assignment fs zs need x.
Proof.
  intros Hnd. remember (Z.to_nat (Zsum (need <$> zs))) as n eqn:En.
  revert fs need En. induction n as [|n IH]; intros fs need En Hq Hnn Hh.
  - exists (λ _ _, 0). assert (Hz0 : ∀ z, z ∈ zs → need z = 0).
    { intros z Hz. pose proof (Zsum_elem_le need zs z Hnn Hz). specialize (Hnn z Hz). lia. }
    split; try done.
    + intros z Hz. rewrite Zsum_map_zero. symmetry. auto.
    + intros i f Hf. rewrite (Zsum_map_zero zs). apply Hq. by eapply list_elem_of_lookup_2.
  - destruct (Zsum_pos_elem zs need) as (z & Hz & Hnz); [lia|done|].
    destruct (Hall_step zs Hnd fs need z Hq Hh Hz Hnz) as (i & f & Hi & Hof & Hqf & Hh').
    destruct (IH (takeFamily i 1 fs) (dec need z 1)) as [x Hx]; [| | |done|].
    + rewrite (Zsum_update need (dec need z 1) z _ (-1)); [lia|done|done| |].
      * unfold dec. rewrite String.eqb_refl. lia.
      * intros y _ Hne. unfold dec. by rewrite (proj2 (String.eqb_neq y z)).
    + by eapply takeFamily_nonneg.
    + intros y Hy. unfold dec. destruct (String.eqb_spec y z) as [->|]; [lia|by apply Hnn].
    + exists (bump x i z). by eapply assignment_bump.
Qed.

Lemma canFill_assignment fs need :
  fillBounds fs need →
  canFill fs need = true ↔ ∃ x, assignment fs (sortedZones need) (needAt need) x.
Proof.
  intros Hb. rewrite canFill_Hall by done. split.
  - intros Hh. apply Hall_assignment; [apply sortedZones_NoDup|apply Hb| |done].
    intros z _. apply Hb.
  - intros [x Hx]. eapply assignment_Hall; [apply Hb|done].
Qed.

(** (C3) [canFill] is exact: it holds if and only if the families' nodes can be
    distributed so that every zone gets the nodes it needs, each family serving
    only zones its SKU is offered in and within its quota (Hall's theorem for
    the transport problem), provided the sums fit [int64]. *)
Theorem canFill_iff_assignment (fs : list familyQuota) (need : gmap string Z)
    (Hb : fillBounds fs need) :
  canFill fs need = true ↔ ∃ x, assignment fs (sortedZones need) (needAt need) x.
Proof. by apply canFill_assignment. Qed.

Lemma canFill_iff_assignment_witness :
  let sku zones := {| sku_Name := ""; sku_Family := ""; sku_VCPUs := 4; sku_MemoryBytes := 1;
    sku_SecondaryNICs := 0; sku_EphemeralOSDiskSupported := true;
    sku_EphemeralDiskSizeGB := 1; sku_Zones := zones; sku_ConstrainedVCPUs := false;
    sku_LocationRestricted := false |} in
  let fs := [{| fq_meta := sku ["1"; "2"]; fq_quotaNodes := 3 |};
             {| fq_meta := sku ["2"]; fq_quotaNodes := 2 |}] in
  let need : gmap string Z := list_to_map [("1", 3); ("2", 2)] in
  ∃ x, assignment fs (sortedZones need) (needAt need) x.
Proof.
  intros sku fs need. apply (canFill_iff_assignment fs need); [|vm_compute; reflexivity].
  split.
  - intros f Hf. unfold fs in Hf. rewrite !elem_of_cons, elem_of_nil in Hf.
    destruct Hf as [->|[->|[]]]; vm_compute; discriminate.
  - intros z. unfold needAt, need. destruct (decide (z = "1")) as [->|?]; [by vm_compute|].
    destruct (decide (z = "2")) as [->|?]; [by vm_compute|]. simpl.
    by rewrite !lookup_insert_ne by done.
  - vm_compute. discriminate.
  - vm_compute. discriminate.
Defined.

(** ** The greedy filling order *)

(** One pool: [g_nodes] nodes of family [g_family] in zone [g_zone]. *)
Record grant := { g_family : nat; g_zone : string; g_nodes : Z }.

(** The inner loop of [allocatePerZoneTier] over the families, for one zone. *)
Fixpoint fillZoneLoop (idxs : list nat) (zone : string) (fs : list familyQuota)
    (need : gmap string Z) : list familyQuota * gmap string Z * list grant :=
  match idxs with
  | [] => (fs, need, [])
  | i :: idxs =>
      if negb (default false ((λ f, zoneOffered (fq_meta f) zone) <$> fs !! i)) then
        fillZoneLoop idxs zone fs need
      else
        let poolNodes := mostFillableNodes fs need i zone in
        if poolNodes =? 0 then fillZoneLoop idxs zone fs need
        else
          let '(fs', need', gs) :=
            fillZoneLoop idxs zone (takeFamily i poolNodes fs) (takeZone zone poolNodes need) in
          (fs', need', {| g_family := i; g_zone := zone; g_nodes := poolNodes |} :: gs)
  end.

(** The outer loop over the tier zones. *)
Fixpoint fillZonesLoop (tierZones : list string) (fs : list familyQuota)
    (need : gmap string Z) : list familyQuota * gmap string Z * list grant :=
  match tierZones with
  | [] => (fs, need, [])
  | zone :: tierZones =>
      let '(fs1, need1, gs1) := fillZoneLoop (seq 0 (length fs)) zone fs need in
      let '(fs2, need2, gs2) := fillZonesLoop tierZones fs1 need1 in
      (fs2, need2, gs1 ++ gs2)
  end.

(** Nodes granted from a family, and to a zone. *)
Definition fromFamily (gs : list grant) (i : nat) : Z :=
  Zsum (g_nodes <$> base.filter (λ g, g_family g = i) gs).
Definition toZone (gs : list grant) (z : string) : Z :=
  Zsum (g_nodes <$> base.filter (λ g, g_zone g = z) gs).

(** What a run of the loops does to the state: each grant is a positive number
    of nodes of a family offered in the zone, and the quotas and needs shrink by
    exactly the grants. *)
Record granted (fs : list familyQuota) (need : gmap string Z) (gs : list grant)
    (fs' : list familyQuota) (need' : gmap string Z) : Prop := {
  gr_fams : ∀ i, fs' !! i = takeQuota (fromFamily gs i) <$> fs !! i;
  gr_need : ∀ z, needAt need' z = needAt need z - toZone gs z;
  gr_dom : dom need' = dom need;
  gr_each : ∀ g, g ∈ gs → 1 <= g_nodes g ∧
              ∃ f, fs !! g_family g = Some f ∧ offers f (g_zone g) = true;
}.

Lemma takeQuota_0 f : takeQuota 0 f = f.
Proof. destruct f. unfold takeQuota. simpl. f_equal. lia. Qed.

Lemma takeQuota_add p q f : takeQuota p (takeQuota q f) = takeQuota (q + p) f.
Proof. unfold takeQuota. simpl. f_equal. lia. Qed.

Lemma fromFamily_app gs1 gs2 i : fromFamily (gs1 ++ gs2) i = fromFamily gs1 i + fromFamily gs2 i.
Proof. unfold fromFamily. by rewrite filter_app, fmap_app, Zsum_app. Qed.

Lemma toZone_app gs1 gs2 z : toZone (gs1 ++ gs2) z = toZone gs1 z + toZone gs2 z.
Proof. unfold toZone. by rewrite filter_app, fmap_app, Zsum_app. Qed.

Lemma granted_nil fs need : granted fs need [] fs need.
Proof.
  split.
  - intros i. destruct (fs !! i); simpl; [|done]. by rewrite takeQuota_0.
  - intros z. unfold toZone. simpl. lia.
  - done.
  - intros g Hg. by apply elem_of_nil in Hg.
Qed.

Lemma granted_trans fs need gs1 fs1 need1 gs2 fs2 need2 :
  granted fs need gs1 fs1 need1 → granted fs1 need1 gs2 fs2 need2 →
  granted fs need (gs1 ++ gs2) fs2 need2.
Proof.
  intros [F1 N1 D1 E1] [F2 N2 D2 E2]. split.
  - intros i. rewrite F2, F1, fromFamily_app. destruct (fs !! i); simpl; [|done].
    by rewrite takeQuota_add.
  - intros z. rewrite N2, N1, toZone_app. lia.
  - by rewrite D2, D1.
  - intros g [Hg|Hg]%elem_of_app; [by apply E1|].
    destruct (E2 g Hg) as (Hp & f & Hf & Ho). split; [done|].
    rewrite F1 in Hf. destruct (fs !! g_family g) as [f0|]; simplify_eq/=. eauto.
Qed.

Lemma needAt_takeZone need z p y : needAt (takeZone z p need) y = dec (needAt need) z p y.
Proof.
  unfold needAt, takeZone, dec. destruct (String.eqb_spec y z) as [->|Hne].
  - by rewrite lookup_insert_eq.
  - by rewrite lookup_insert_ne.
Qed.

Lemma granted_one fs need i f z p :
  fs !! i = Some f → offers f z = true → 1 <= p → z ∈ dom need →
  granted fs need [{| g_family := i; g_zone := z; g_nodes := p |}]
    (takeFamily i p fs) (takeZone z p need).
Proof.
  intros Hi Ho Hp Hz. split.
  - intros j. unfold takeFamily, fromFamily. rewrite filter_cons. simpl.
    destruct (decide (i = j)) as [<-|Hne]; csimpl.
    + rewrite list_lookup_alter_eq, Hi. simpl. by rewrite Z.add_0_r.
    + rewrite list_lookup_alter_ne by done. destruct (fs !! j); simpl; [|done].
      by rewrite takeQuota_0.
  - intros y. rewrite needAt_takeZone. unfold dec, toZone. rewrite filter_cons. simpl.
    destruct (decide (z = y)) as [<-|Hne]; csimpl.
    + rewrite String.eqb_refl. lia.
    + rewrite (proj2 (String.eqb_neq y z)) by done. lia.
  - unfold takeZone. rewrite dom_insert_L. set_solver.
  - intros g ->%list_elem_of_singleton. simpl. eauto.
Qed.

(** Granting keeps the sums within their bounds. *)
Lemma granted_bounds fs need i f z p :
  fillBounds fs need → fs !! i = Some f → z ∈ dom need →
  0 <= p → p <= fq_quotaNodes f → p <= needAt need z →
  fillBounds (takeFamily i p fs) (takeZone z p need).
Proof.
  intros [Hq Hn Hqs Hns] Hi Hz Hp Hpq Hpn.
  assert (Hs : sortedZones (takeZone z p need) = sortedZones need).
  { apply sortedZones_dom. unfold takeZone. rewrite dom_insert_L. set_solver. }
  split.
  - by eapply takeFamily_nonneg.
  - intros y. rewrite needAt_takeZone. unfold dec.
    destruct (String.eqb_spec y z) as [->|]; [lia|apply Hn].
  - unfold takeFamily. rewrite (Zsum_alter _ _ _ _ f) by done. simpl. lia.
  - rewrite Hs. etransitivity; [|exact Hns]. apply Zsum_map_le. intros y _.
    rewrite needAt_takeZone. unfold dec. destruct (String.eqb y z); lia.
Qed.

Lemma mostFillableLoop_spec fs need i z n :
  let p := mostFillableLoop fs need i z n in
  0 <= p <= Z.of_nat n ∧
  (p = 0 ∨ canFill (takeFamily i p fs) (takeZone z p need) = true) ∧
  (∀ p', p < p' <= Z.of_nat n →
     canFill (takeFamily i p' fs) (takeZone z p' need) = false).
Proof.
  induction n as [|n IH]; cbv zeta in *.
  - simpl. split_and!; [lia|lia|by left|]. intros. lia.
  - cbn [mostFillableLoop].
    destruct (canFill (takeFamily i (Z.of_nat (S n)) fs)
                (takeZone z (Z.of_nat (S n)) need)) eqn:E.
    + split_and!; [lia|lia|by right|]. intros. lia.
    + destruct IH as (H1 & H2 & H3). split_and!; [lia|lia|done|].
      intros p' Hp'. destruct (decide (p' = Z.of_nat (S n))) as [->|]; [done|].
      apply H3. lia.
Qed.

(** The largest number of nodes of family [i] that zone [z] can take: nothing
    more would leave the rest fillable. *)
Lemma mostFillable_max fs need i f z :
  fs !! i = Some f → 0 <= fq_quotaNodes f → 0 <= needAt need z →
  let p := mostFillableNodes fs need i z in
  0 <= p ∧ p <= fq_quotaNodes f ∧ p <= needAt need z ∧
  (p = 0 ∨ canFill (takeFamily i p fs) (takeZone z p need) = true) ∧
  (∀ p', p < p' → p' <= fq_quotaNodes f → p' <= needAt need z →
     canFill (takeFamily i p' fs) (takeZone z p' need) = false).
Proof.
  intros Hi Hq Hn. cbv zeta.
  assert (mostFillableNodes fs need i z = mostFillableLoop fs need i z
            (Z.to_nat (Z.min (needAt need z) (fq_quotaNodes f)))) as ->
    by (unfold mostFillableNodes; by rewrite Hi).
  pose proof (mostFillableLoop_spec fs need i z
                (Z.to_nat (Z.min (needAt need z) (fq_quotaNodes f)))) as (H1 & H2 & H3).
  split_and!; try lia; try done.
  intros p' ???. apply H3. lia.
Qed.

Lemma takeFamily_comm i j p q fs :
  i ≠ j → takeFamily i p (takeFamily j q fs) = takeFamily j q (takeFamily i p fs).
Proof. intros. unfold takeFamily. by apply list_alter_alter_ne. Qed.

Lemma takeFamily_add i p q fs :
  takeFamily i (p + q) fs = takeFamily i q (takeFamily i p fs).
Proof.
  apply list_eq. intros j. unfold takeFamily. destruct (decide (i = j)) as [<-|].
  - rewrite !list_lookup_alter_eq. destruct (fs !! i); simpl; [|done].
    by rewrite takeQuota_add.
  - by rewrite !list_lookup_alter_ne.
Qed.

Section fill_zone.
Context (zs : list string) (Hnd : NoDup zs) (z : string) (Hz : z ∈ zs).

(** Adding back what a loop run granted to [z], behind a pending change of
    family [i] that the run does not touch. *)
Lemma Hall_restore_behind fs (nd : string → Z) i j f p q :
  i ≠ j → fs !! j = Some f → offers f z = true → 0 <= q →
  Hall (takeFamily i p (takeFamily j q fs)) zs (dec (dec nd z q) z p) →
  Hall (takeFamily i p fs) zs (dec nd z p).
Proof.
  intros Hij Hj Ho Hq Hh.
  apply (Hall_restore zs Hnd (takeFamily i p fs) (dec nd z p) j f z q); try done.
  - unfold takeFamily. by rewrite list_lookup_alter_ne.
  - rewrite takeFamily_comm by done.
    eapply Hall_ext; [|exact Hh]. intros y _. unfold dec. destruct (String.eqb y z); lia.
Qed.

Lemma Hall_merge fs (nd : string → Z) i p q :
  Hall (takeFamily i q (takeFamily i p fs)) zs (dec (dec nd z p) z q) →
  Hall (takeFamily i (p + q) fs) zs (dec nd z (p + q)).
Proof.
  intros Hh. rewrite takeFamily_add.
  eapply Hall_ext; [|exact Hh]. intros y _. unfold dec. destruct (String.eqb y z); lia.
Qed.
End fill_zone.

Lemma mostFillable_nonneg fs need i z : 0 <= mostFillableNodes fs need i z.
Proof. apply mostFillableLoop_spec. Qed.

(** The families loop, one step at a time. *)
Lemma fillZoneLoop_cons i idxs z fs need :
  fillZoneLoop (i :: idxs) z fs need =
  match fs !! i with
  | Some f =>
      if offers f z && negb (mostFillableNodes fs need i z =? 0) then
        let p := mostFillableNodes fs need i z in
        let '(fs', need', gs) :=
          fillZoneLoop idxs z (takeFamily i p fs) (takeZone z p need) in
        (fs', need', {| g_family := i; g_zone := z; g_nodes := p |} :: gs)
      else fillZoneLoop idxs z fs need
  | None => fillZoneLoop idxs z fs need
  end.
Proof.
  simpl. unfold offers. destruct (fs !! i) as [f|]; simpl; [|done].
  destruct (zoneOffered (fq_meta f) z); simpl; [|done].
  by destruct (mostFillableNodes fs need i z =? 0).
Qed.

Lemma sortedZones_takeZone z p need :
  z ∈ dom need → sortedZones (takeZone z p need) = sortedZones need.
Proof.
  intros Hz. apply sortedZones_dom. unfold takeZone. rewrite dom_insert_L. set_solver.
Qed.

Lemma fillZoneLoop_granted idxs z fs need fs' need' gs :
  fillBounds fs need → z ∈ dom need → canFill fs need = true →
  fillZoneLoop idxs z fs need = (fs', need', gs) →
  granted fs need gs fs' need' ∧ fillBounds fs' need' ∧ canFill fs' need' = true ∧
  Forall (λ g, g_zone g = z) gs.
Proof.
  revert fs need gs. induction idxs as [|i idxs IH]; intros fs need gs Hb Hz Hc.
  - intros [= <- <- <-]. split_and!; auto using granted_nil.
  - rewrite fillZoneLoop_cons. destruct (fs !! i) as [f|] eqn:Hi; [|by apply IH].
    destruct (offers f z) eqn:Ho; simpl; [|by apply IH].
    destruct (mostFillableNodes fs need i z =? 0) eqn:E0; simpl; [by apply IH|].
    destruct (mostFillable_max fs need i f z) as (P1 & P2 & P3 & P4 & _);
      [done|apply Hb; by eapply list_elem_of_lookup_2|apply Hb|].
    set (p := mostFillableNodes fs need i z) in *. bool_reflect.
    destruct (fillZoneLoop idxs z (takeFamily i p fs) (takeZone z p need))
      as [[fs1 need1] gs1] eqn:E. intros [= <- <- <-].
    destruct (IH (takeFamily i p fs) (takeZone z p need) gs1) as (G & B & C & F); try done.
    + by eapply granted_bounds.
    + unfold takeZone. set_solver.
    + naive_solver.
    + split_and!; try done; [|by constructor].
      eapply (granted_trans _ _ [_]); [|exact G].
      eapply granted_one; [done|done|lia|done].
Qed.

Lemma fillZoneLoop_restore zs idxs i z fs need fs' need' gs :
  NoDup zs → z ∈ zs → i ∉ idxs →
  fillZoneLoop idxs z fs need = (fs', need', gs) →
  Hall (takeFamily i 1 fs') zs (dec (needAt need') z 1) →
  Hall (takeFamily i 1 fs) zs (dec (needAt need) z 1).
Proof.
  intros Hnd Hz. revert fs need gs. induction idxs as [|j idxs IH]; intros fs need gs Hni.
  - by intros [= <- <- <-].
  - apply not_elem_of_cons in Hni as [Hij Hni].
    rewrite fillZoneLoop_cons. destruct (fs !! j) as [f|] eqn:Hj; [|by apply IH].
    destruct (offers f z) eqn:Ho; simpl; [|by apply IH].
    destruct (_ =? 0) eqn:E0; simpl; [by apply IH|].
    set (p := mostFillableNodes fs need j z) in *.
    destruct (fillZoneLoop idxs z (takeFamily j p fs) (takeZone z p need))
      as [[fs1 need1] gs1] eqn:E. intros [= <- <- <-] Hh.
    apply (IH _ _ _ Hni E) in Hh.
    eapply (Hall_restore_behind zs Hnd z Hz fs (needAt need) i j f 1 p); try done.
    + apply mostFillable_nonneg.
    + eapply Hall_ext; [|exact Hh]. intros y _. unfold dec.
      rewrite needAt_takeZone. done.
Qed.

Lemma takeFamily_0 i fs : takeFamily i 0 fs = fs.
Proof. unfold takeFamily. apply list_alter_id. apply takeQuota_0. Qed.

Lemma takeZone_0 z need : z ∈ dom need → takeZone z 0 need = need.
Proof.
  intros [v Hv]%elem_of_dom. unfold takeZone, needAt. rewrite Hv. simpl.
  rewrite Z.sub_0_r. by apply insert_id.
Qed.

(** The nodes the loop body takes for family [i], 0 when it skips the family. *)
Definition stepNodes (fs : list familyQuota) (need : gmap string Z) (i : nat) (z : string) : Z :=
  match fs !! i with
  | Some f => if offers f z then mostFillableNodes fs need i z else 0
  | None => 0
  end.

Lemma fillZoneLoop_step i idxs z fs need fs' need' gs :
  z ∈ dom need → fillZoneLoop (i :: idxs) z fs need = (fs', need', gs) →
  let p := stepNodes fs need i z in
  ∃ gs1, fillZoneLoop idxs z (takeFamily i p fs) (takeZone z p need) = (fs', need', gs1).
Proof.
  intros Hz E p. rewrite fillZoneLoop_cons in E. unfold stepNodes in p.
  destruct (fs !! i) as [f|] eqn:Hi; [destruct (offers f z) eqn:Ho|]; simpl in E;
    [|unfold p; rewrite takeFamily_0, takeZone_0 by done; eauto..].
  fold p in E. destruct (p =? 0) eqn:E0; simpl in E; bool_reflect.
  - rewrite E0, takeFamily_0, takeZone_0 by done. eauto.
  - destruct (fillZoneLoop idxs z (takeFamily i p fs) (takeZone z p need)) as [[??] gs1].
    simplify_eq. eauto.
Qed.

Lemma stepNodes_ok fs need i f z :
  fillBounds fs need → canFill fs need = true → z ∈ dom need → fs !! i = Some f →
  let p := stepNodes fs need i z in
  0 <= p ∧ fillBounds (takeFamily i p fs) (takeZone z p need) ∧
  canFill (takeFamily i p fs) (takeZone z p need) = true ∧
  (offers f z = true → ∀ p', p < p' → p' <= fq_quotaNodes f → p' <= needAt need z →
     canFill (takeFamily i p' fs) (takeZone z p' need) = false).
Proof.
  intros Hb Hc Hz Hi. unfold stepNodes. rewrite Hi. cbv zeta.
  destruct (offers f z) eqn:Ho.
  - destruct (mostFillable_max fs need i f z) as (P1 & P2 & P3 & P4 & P5);
      [done|apply Hb; by eapply list_elem_of_lookup_2|apply Hb|].
    split_and!; auto; [by eapply granted_bounds|].
    destruct P4 as [->|]; [|done]. by rewrite takeFamily_0, takeZone_0.
  - rewrite takeFamily_0, takeZone_0 by done. split_and!; done.
Qed.

Lemma granted_toZone_nonneg fs need gs fs' need' z :
  granted fs need gs fs' need' → 0 <= toZone gs z.
Proof.
  intros G. apply Zsum_map_nonneg. intros g [_ Hg]%list_elem_of_filter.
  destruct (gr_each _ _ _ _ _ G g Hg). lia.
Qed.

Lemma granted_fromFamily_nonneg fs need gs fs' need' i :
  granted fs need gs fs' need' → 0 <= fromFamily gs i.
Proof.
  intros G. apply Zsum_map_nonneg. intros g [_ Hg]%list_elem_of_filter.
  destruct (gr_each _ _ _ _ _ G g Hg). lia.
Qed.

(** After the loop no family it visited could have given the zone one more
    node. *)
Lemma fillZoneLoop_maximal idxs i z fs need fs' need' gs f' :
  fillBounds fs need → z ∈ dom need → canFill fs need = true → NoDup idxs →
  fillZoneLoop idxs z fs need = (fs', need', gs) →
  i ∈ idxs → fs' !! i = Some f' → offers f' z = true →
  1 <= fq_quotaNodes f' → 1 <= needAt need' z →
  ¬ Hall (takeFamily i 1 fs') (sortedZones need) (dec (needAt need') z 1).
Proof.
  revert fs need gs. induction idxs as [|j idxs IH]; intros fs need gs Hb Hz Hc Hnd E Hin.
  { by apply elem_of_nil in Hin. }
  apply NoDup_cons in Hnd as [Hj Hnd]. intros Hf' Ho' Hq' Hn' Hh.
  pose proof (fillZoneLoop_step j idxs z fs need fs' need' gs Hz E) as [gs1 E1].
  set (p := stepNodes fs need j z) in *.
  assert (Hz1 : z ∈ dom (takeZone z p need)) by (unfold takeZone; set_solver).
  destruct (fs !! j) as [f|] eqn:Hfj.
  2: { assert (p = 0) as Hp0 by (unfold p, stepNodes; by rewrite Hfj).
       rewrite Hp0, takeFamily_0, takeZone_0 in E1 by done.
       apply elem_of_cons in Hin as [->|Hin]; [|by eapply IH].
       pose proof (gr_fams _ _ _ _ _ (proj1 (fillZoneLoop_granted _ _ _ _ _ _ _ Hb Hz Hc E)) j)
         as Hg. rewrite Hfj, Hf' in Hg. done. }
  destruct (stepNodes_ok fs need j f z Hb Hc Hz Hfj) as (P1 & Pb & Pc & Pmax). fold p in P1, Pb, Pc, Pmax.
  apply elem_of_cons in Hin as [->|Hin].
  - pose proof (fillZoneLoop_granted _ _ _ _ _ _ _ Pb Hz1 Pc E1) as (G & _).
    pose proof (gr_fams _ _ _ _ _ G j) as Hg. unfold takeFamily in Hg at 1.
    rewrite list_lookup_alter_eq, Hfj, Hf' in Hg. simpl in Hg. injection Hg as Hg.
    pose proof (granted_fromFamily_nonneg _ _ _ _ _ j G).
    pose proof (granted_toZone_nonneg _ _ _ _ _ z G).
    pose proof (gr_need _ _ _ _ _ G z) as Hgn. rewrite needAt_takeZone in Hgn.
    unfold dec in Hgn. rewrite String.eqb_refl in Hgn.
    assert (fq_quotaNodes f' = fq_quotaNodes f - p - fromFamily gs1 j) as Hqf by (by rewrite Hg).
    assert (offers f z = true) as Ho by (by rewrite Hg in Ho').
    assert (canFill (takeFamily j (p + 1) fs) (takeZone z (p + 1) need) = false) as Hf
      by (apply Pmax; [done|lia..]).
    apply not_true_iff_false in Hf. apply Hf. apply canFill_Hall.
    + eapply granted_bounds; try done; lia.
    + rewrite sortedZones_takeZone by done.
      apply (fillZoneLoop_restore (sortedZones need) idxs j z _ _ _ _ _
               (sortedZones_NoDup need)) with (2 := Hj) (3 := E1) in Hh;
        [|by apply elem_of_sortedZones, elem_of_dom].
      eapply (Hall_ext _ _ (dec (needAt need) z (p + 1)));
        [intros y _; by rewrite needAt_takeZone|].
      apply Hall_merge. eapply Hall_ext; [|exact Hh].
      intros y _. unfold dec. by rewrite needAt_takeZone.
  - rewrite <- (sortedZones_takeZone z p need Hz) in Hh.
    by eapply (IH _ _ _ Pb Hz1 Pc Hnd E1).
Qed.

(** Filling one zone serves all of its need. *)
Lemma fillZoneLoop_complete z fs need fs' need' gs :
  fillBounds fs need → z ∈ dom need → canFill fs need = true →
  fillZoneLoop (seq 0 (length fs)) z fs need = (fs', need', gs) →
  needAt need' z = 0.
Proof.
  intros Hb Hz Hc E.
  destruct (fillZoneLoop_granted _ _ _ _ _ _ _ Hb Hz Hc E) as (G & B & C & _).
  pose proof (fb_need _ _ B z) as Hnn.
  destruct (decide (1 <= needAt need' z)) as [Hn|]; [|lia]. exfalso.
  assert (Hs : sortedZones need' = sortedZones need) by (apply sortedZones_dom, G).
  apply canFill_Hall in C; [|done]. rewrite Hs in C.
  destruct (Hall_step (sortedZones need) (sortedZones_NoDup need) fs' (needAt need') z)
    as (i & f & Hi & Ho & Hq & Hh); [apply B|done| |done|].
  { by apply elem_of_sortedZones, elem_of_dom. }
  revert Hh. eapply fillZoneLoop_maximal; try done; [apply NoDup_seq|].
  apply elem_of_seq. pose proof (gr_fams _ _ _ _ _ G i) as Hf. rewrite Hi in Hf.
  destruct (fs !! i) eqn:E'; [|done]. apply lookup_lt_Some in E'. lia.
Qed.

(** Filling the zones one after another serves every zone's need, and keeps the
    others' untouched until their turn. *)
Lemma fillZonesLoop_spec tierZones fs need fs' need' gs :
  fillBounds fs need → (∀ z, z ∈ tierZones → z ∈ dom need) → canFill fs need = true →
  fillZonesLoop tierZones fs need = (fs', need', gs) →
  granted fs need gs fs' need' ∧ fillBounds fs' need' ∧
  (∀ z, z ∈ tierZones → needAt need' z = 0) ∧ Forall (λ g, g_zone g ∈ tierZones) gs.
Proof.
  revert fs need gs. induction tierZones as [|z tierZones IH]; intros fs need gs Hb Hz Hc; simpl.
  - intros [= <- <- <-]. split_and!; auto using granted_nil. set_solver.
  - destruct (fillZoneLoop (seq 0 (length fs)) z fs need) as [[fs1 need1] gs1] eqn:E1.
    destruct (fillZonesLoop tierZones fs1 need1) as [[fs2 need2] gs2] eqn:E2.
    intros [= <- <- <-].
    assert (Hz0 : z ∈ dom need) by (apply Hz; left).
    destruct (fillZoneLoop_granted _ _ _ _ _ _ _ Hb Hz0 Hc E1) as (G1 & B1 & C1 & F1).
    pose proof (fillZoneLoop_complete _ _ _ _ _ _ Hb Hz0 Hc E1) as N1.
    destruct (IH fs1 need1 gs2 B1) as (G2 & B2 & N2 & F2); [|done|done|].
    { intros y Hy. rewrite (gr_dom _ _ _ _ _ G1). apply Hz. by right. }
    split_and!; [by eapply granted_trans|done| |].
    + intros y [->|Hy]%elem_of_cons; [|by apply N2].
      pose proof (granted_toZone_nonneg _ _ _ _ _ z G2). pose proof (gr_need _ _ _ _ _ G2 z).
      pose proof (fb_need _ _ B2 z). lia.
    + apply Forall_app. split.
      * eapply Forall_impl; [exact F1|]. simpl. intros g ->. left.
      * eapply Forall_impl; [exact F2|]. simpl. intros g ?. by right.
Qed.

(** ** The searches *)

Lemma sameNeed_from_lookup zones n m z :
  fold_left (λ m zone, <[zone := n]> m) zones m !! z =
  if decide (z ∈ zones) then Some n else (m : gmap string Z) !! z.
Proof.
  revert m. induction zones as [|y zones IH]; intros m; simpl; [done|].
  rewrite IH. destruct (decide (z ∈ zones)) as [Hz|Hz].
  - by rewrite decide_True by (by right).
  - destruct (decide (z = y)) as [->|Hne].
    + by rewrite lookup_insert_eq, decide_True by left.
    + rewrite lookup_insert_ne by done. rewrite decide_False; [done|].
      by intros [?|?]%elem_of_cons.
Qed.

Lemma sameNeed_lookup zones n z :
  sameNeed zones n !! z = if decide (z ∈ zones) then Some n else None.
Proof. unfold sameNeed. by rewrite sameNeed_from_lookup, lookup_empty. Qed.

Lemma needAt_sameNeed zones n z : z ∈ zones → needAt (sameNeed zones n) z = n.
Proof. intros. unfold needAt. by rewrite sameNeed_lookup, decide_True. Qed.

Lemma elem_of_dom_sameNeed zones n z : z ∈ dom (sameNeed zones n) ↔ z ∈ zones.
Proof.
  rewrite elem_of_dom, sameNeed_lookup. by destruct (decide (z ∈ zones)).
Qed.

Lemma sortedZones_sameNeed zones n :
  NoDup zones → sortedZones (sameNeed zones n) ≡ₚ zones.
Proof.
  intros Hnd. apply NoDup_Permutation; [apply sortedZones_NoDup|done|].
  intros z. by rewrite elem_of_sortedZones, <- elem_of_dom, elem_of_dom_sameNeed.
Qed.

Lemma Zsum_const {A} (l : list A) (n : Z) :
  Zsum ((λ _, n) <$> l) = Z.of_nat (length l) * n.
Proof. induction l; csimpl; rewrite ?Zsum_cons, ?Zsum_nil; lia. Qed.

Lemma sameNeed_sum zones n :
  NoDup zones →
  Zsum (needAt (sameNeed zones n) <$> sortedZones (sameNeed zones n)) =
  Z.of_nat (length zones) * n.
Proof.
  intros Hnd. rewrite (Zsum_perm_map _ _ zones) by (by apply sortedZones_sameNeed).
  rewrite (Zsum_map_ext _ (λ _, n)); [apply Zsum_const|].
  intros z Hz. by apply needAt_sameNeed.
Qed.

Lemma sameNeed_bounds fs zones n :
  quotaNonneg fs → Zsum (fq_quotaNodes <$> fs) <= maxInt64 → NoDup zones →
  0 <= n → Z.of_nat (length zones) * n <= maxInt64 → fillBounds fs (sameNeed zones n).
Proof.
  intros Hq Hqs Hnd Hn Hl. split; try done.
  - intros z. unfold needAt. rewrite sameNeed_lookup. by destruct (decide _).
  - by rewrite sameNeed_sum.
Qed.

Lemma maxNodesLoop_spec fs zones n :
  let r := maxNodesLoop fs zones n in
  0 <= r <= Z.of_nat n ∧ (r = 0 ∨ canFill fs (sameNeed zones r) = true) ∧
  (∀ m, r < m <= Z.of_nat n → canFill fs (sameNeed zones m) = false).
Proof.
  induction n as [|n IH]; cbv zeta in *.
  - simpl. split_and!; [lia|lia|by left|]. intros. lia.
  - cbn [maxNodesLoop].
    destruct (canFill fs (sameNeed zones (Z.of_nat (S n)))) eqn:E.
    + split_and!; [lia|lia|by right|]. intros. lia.
    + destruct IH as (H1 & H2 & H3). split_and!; [lia|lia|done|].
      intros m Hm. destruct (decide (m = Z.of_nat (S n))) as [->|]; [done|].
      apply H3. lia.
Qed.

Lemma maxNodesPerZone_nonneg fs zones maxNodes : 0 <= maxNodesPerZone fs zones maxNodes.
Proof. apply maxNodesLoop_spec. Qed.

(** No zone needing anything is always fillable. *)
Lemma canFill_zero fs zones :
  quotaNonneg fs → Zsum (fq_quotaNodes <$> fs) <= maxInt64 → NoDup zones →
  canFill fs (sameNeed zones 0) = true.
Proof.
  intros Hq Hqs Hnd. assert (fillBounds fs (sameNeed zones 0)).
  { apply sameNeed_bounds; try done; unfold maxInt64; lia. }
  apply canFill_Hall; [done|]. intros P. unfold needOf.
  rewrite (Zsum_map_ext _ (λ _, 0)), Zsum_map_zero; [by apply quotaOf_nonneg|].
  intros z Hz. unfold needAt. rewrite sameNeed_lookup.
  destruct (P z), (decide (z ∈ zones)); done.
Qed.

Lemma canFill_maxNodesPerZone fs zones maxNodes :
  quotaNonneg fs → Zsum (fq_quotaNodes <$> fs) <= maxInt64 → NoDup zones →
  canFill fs (sameNeed zones (maxNodesPerZone fs zones maxNodes)) = true.
Proof.
  intros Hq Hqs Hnd.
  destruct (maxNodesLoop_spec fs zones (Z.to_nat maxNodes)) as (_ & [H|H] & _); [|done].
  unfold maxNodesPerZone. rewrite H. by apply canFill_zero.
Qed.

(** [maxNodesPerZone] is the largest node count, up to [maxNodes], that every
    given zone can get at once: that count has an assignment of families' nodes
    to zones within quota, and no larger one does. *)
Theorem maxNodesPerZone_largest (fs : list familyQuota) (zones : list string) (maxNodes : Z)
    (Hq : quotaNonneg fs) (Hqs : Zsum (fq_quotaNodes <$> fs) <= maxInt64)
    (Hnd : NoDup zones) (Hmax : 0 <= maxNodes)
    (Hfit : Z.of_nat (length zones) * maxNodes <= maxInt64) :
  let n := maxNodesPerZone fs zones maxNodes in
  let fillable m :=
    ∃ x, assignment fs (sortedZones (sameNeed zones m)) (needAt (sameNeed zones m)) x in
  0 <= n <= maxNodes ∧ fillable n ∧ ∀ m, n < m <= maxNodes → ¬ fillable m.
Proof.
  cbv zeta. set (n := maxNodesPerZone fs zones maxNodes).
  destruct (maxNodesLoop_spec fs zones (Z.to_nat maxNodes)) as (H1 & _ & H3).
  change (maxNodesLoop fs zones (Z.to_nat maxNodes)) with n in *.
  assert (Hb : ∀ m, 0 <= m <= maxNodes → fillBounds fs (sameNeed zones m)).
  { intros m Hm. apply sameNeed_bounds; try done; [lia|]. nia. }
  split_and!; [lia|lia| |].
  - rewrite <- canFill_assignment by (apply Hb; lia).
    by apply canFill_maxNodesPerZone.
  - intros m Hm. rewrite <- canFill_assignment by (apply Hb; lia).
    rewrite H3 by lia. done.
Qed.

Lemma maxNodesPerZone_largest_witness :
  let sku zones := {| sku_Name := ""; sku_Family := ""; sku_VCPUs := 4; sku_MemoryBytes := 1;
    sku_SecondaryNICs := 0; sku_EphemeralOSDiskSupported := true;
    sku_EphemeralDiskSizeGB := 1; sku_Zones := zones; sku_ConstrainedVCPUs := false;
    sku_LocationRestricted := false |} in
  let fs := [{| fq_meta := sku ["1"; "2"]; fq_quotaNodes := 5 |};
             {| fq_meta := sku ["2"; "3"]; fq_quotaNodes := 4 |}] in
  maxNodesPerZone fs ["1"; "2"; "3"] 10 = 3 ∧
  ∃ x, assignment fs (sortedZones (sameNeed ["1"; "2"; "3"] 3))
         (needAt (sameNeed ["1"; "2"; "3"] 3)) x.
Proof.
  intros sku fs. split; [vm_compute; reflexivity|].
  assert (Hq : quotaNonneg fs).
  { intros f Hf. unfold fs in Hf. rewrite !elem_of_cons, elem_of_nil in Hf.
    destruct Hf as [->|[->|[]]]; vm_compute; discriminate. }
  pose proof (maxNodesPerZone_largest fs ["1"; "2"; "3"] 10 Hq ltac:(vm_compute; discriminate)
    ltac:(apply (bool_decide_unpack _); vm_compute; exact I) ltac:(lia)
    ltac:(vm_compute; discriminate)) as (_ & H & _).
  assert (maxNodesPerZone fs ["1"; "2"; "3"] 10 = 3) as E by (vm_compute; reflexivity).
  rewrite E in H. exact H.
Defined.

Lemma fold_best {A B} (f : A → B * Z) (l : list A) (b : B * Z) :
  let r := fold_left (λ best e, if best.2 <? (f e).2 then f e else best) l b in
  (r = b ∨ ∃ e, e ∈ l ∧ r = f e) ∧ b.2 <= r.2 ∧ ∀ e, e ∈ l → (f e).2 <= r.2.
Proof.
  revert b. induction l as [|x l IH]; intros b; cbv zeta in *; simpl.
  - split_and!; [by left|lia|set_solver].
  - destruct (IH (if b.2 <? (f x).2 then f x else b)) as (H1 & H2 & H3).
    assert (Hb : b.2 <= (if b.2 <? (f x).2 then f x else b).2 ∧
                 (f x).2 <= (if b.2 <? (f x).2 then f x else b).2).
    { destruct (b.2 <? (f x).2) eqn:E; bool_reflect; lia. }
    split_and!; [|lia|].
    + destruct H1 as [H1|(e & He & H1)]; [|right; exists e; split; [by right|done]].
      rewrite H1. destruct (b.2 <? (f x).2); [right; exists x; split; [left|done]|by left].
    + intros e [->|He]%elem_of_cons; [lia|by apply H3].
Qed.

Lemma optional_length (zones required : list string) :
  NoDup zones → NoDup required →
  (length zones ≤ length required + length (base.filter (λ z, z ∉ required) zones))%nat.
Proof.
  intros Hz Hr.
  assert (Hsplit : base.filter (λ z, z ∈ required) zones ++
                   base.filter (λ z, z ∉ required) zones ≡ₚ zones) by apply filter_app_complement.
  apply Permutation_length in Hsplit. rewrite length_app in Hsplit.
  assert (length (base.filter (λ z, z ∈ required) zones) ≤ length required)%nat; [|lia].
  apply submseteq_length, NoDup_submseteq; [by apply NoDup_filter|].
  intros z. rewrite list_elem_of_filter. tauto.
Qed.

(** The number of zones [bestZones] adds to the required ones. *)
Definition extraCount (requiredZones : list string) (zoneCount : Z) : nat :=
  Z.to_nat (Z.max (zoneCount - Z.of_nat (length requiredZones)) 0).

Lemma bestZones_choice fs zones required zoneCount maxNodes :
  NoDup zones → NoDup required → zoneCount <= Z.of_nat (length zones) →
  let optional := base.filter (λ z, z ∉ required) zones in
  let choice e := e `sublist_of` optional ∧ length e = extraCount required zoneCount in
  ∃ extra, choice extra ∧
    bestZones fs zones required zoneCount maxNodes =
      (candidateZones zones required extra,
       maxNodesPerZone fs (candidateZones zones required extra) maxNodes) ∧
    ∀ e, choice e →
      maxNodesPerZone fs (candidateZones zones required e) maxNodes <=
      (bestZones fs zones required zoneCount maxNodes).2.
Proof.
  intros Hz Hr Hc optional choice. unfold bestZones. fold optional.
  fold (extraCount required zoneCount).
  set (f := λ e, (candidateZones zones required e,
                  maxNodesPerZone fs (candidateZones zones required e) maxNodes)).
  destruct (fold_best f (combinations optional (extraCount required zoneCount)) ([], -1))
    as (H1 & H2 & H3).
  assert (Hall : ∀ e, choice e → e ∈ combinations optional (extraCount required zoneCount))
    by (intros e; apply elem_of_combinations).
  destruct H1 as [H1|(e & He & H1)].
  - exfalso. pose proof (optional_length zones required Hz Hr) as Hlen. fold optional in Hlen.
    assert (choice (take (extraCount required zoneCount) optional)) as Hch.
    { split; [apply sublist_take|]. rewrite length_take. unfold extraCount. lia. }
    specialize (H3 _ (Hall _ Hch)). rewrite H1 in H3. simpl in H3.
    pose proof (maxNodesPerZone_nonneg fs
      (candidateZones zones required (take (extraCount required zoneCount) optional)) maxNodes).
    lia.
  - exists e. split; [by apply elem_of_combinations in He|]. split; [exact H1|].
    intros e' He'. apply (H3 _ (Hall e' He')).
Qed.

Lemma candidateZones_NoDup zones required extra :
  NoDup zones → NoDup required →
  extra `sublist_of` base.filter (λ z, z ∉ required) zones →
  NoDup (candidateZones zones required extra).
Proof.
  intros Hz Hr Hs. unfold candidateZones. apply NoDup_sort_by, NoDup_app. split_and!; [done| |].
  - intros z Hin Hex. apply (sublist_subseteq _ _ Hs), list_elem_of_filter in Hex. tauto.
  - eapply sublist_NoDup; [|exact Hs]. by apply NoDup_filter.
Qed.

(** The parts of the result its callers use. *)
Lemma bestZones_facts fs zones required zoneCount maxNodes :
  NoDup zones → NoDup required → 0 <= zoneCount <= Z.of_nat (length zones) →
  let '(tierZones, nodes) := bestZones fs zones required zoneCount maxNodes in
  NoDup tierZones ∧
  Z.of_nat (length tierZones) = Z.max zoneCount (Z.of_nat (length required)) ∧
  nodes = maxNodesPerZone fs tierZones maxNodes.
Proof.
  intros Hz Hr Hc.
  destruct (bestZones_choice fs zones required zoneCount maxNodes) as (e & [Hs Hl] & E & _);
    [done|done|lia|].
  rewrite E. split_and!; [by apply candidateZones_NoDup| |done].
  unfold candidateZones. rewrite length_sort_by, length_app, Hl. unfold extraCount. lia.
Qed.

(** [bestZones] keeps every required zone, spans exactly
    [max zoneCount (len requiredZones)] distinct zones, and no other choice of
    additional zones would allow more nodes per zone. *)
Theorem bestZones_best (fs : list familyQuota) (zones required : list string)
    (zoneCount maxNodes : Z)
    (Hz : NoDup zones) (Hr : NoDup required) (Hc : 0 <= zoneCount <= Z.of_nat (length zones)) :
  let '(tierZones, nodes) := bestZones fs zones required zoneCount maxNodes in
  (∀ z, z ∈ required → z ∈ tierZones) ∧ (∀ z, z ∈ tierZones → z ∈ required ∨ z ∈ zones) ∧
  NoDup tierZones ∧
  Z.of_nat (length tierZones) = Z.max zoneCount (Z.of_nat (length required)) ∧
  nodes = maxNodesPerZone fs tierZones maxNodes ∧
  ∀ extra, extra `sublist_of` base.filter (λ z, z ∉ required) zones →
    length extra = extraCount required zoneCount →
    maxNodesPerZone fs (candidateZones zones required extra) maxNodes <= nodes.
Proof.
  destruct (bestZones_choice fs zones required zoneCount maxNodes) as (e & [Hs Hl] & E & Hmax);
    [done|done|lia|].
  destruct (bestZones fs zones required zoneCount maxNodes) as [tierZones nodes].
  simplify_eq. split_and!.
  - intros z Hin. unfold candidateZones. rewrite elem_of_sort_by. apply elem_of_app. by left.
  - intros z. unfold candidateZones. rewrite elem_of_sort_by, elem_of_app.
    intros [?|He]; [by left|right].
    apply (sublist_subseteq _ _ Hs), list_elem_of_filter in He. tauto.
  - by apply candidateZones_NoDup.
  - unfold candidateZones. rewrite length_sort_by, length_app, Hl. unfold extraCount. lia.
  - done.
  - intros extra He1 He2. by apply Hmax.
Qed.

Lemma bestZones_best_witness :
  bestZones [] ["1"; "2"; "3"] ["3"] 2 4 = (["1"; "3"], 0) ∧
  NoDup (bestZones [] ["1"; "2"; "3"] ["3"] 2 4).1.
Proof.
  split; [vm_compute; reflexivity|].
  pose proof (bestZones_best [] ["1"; "2"; "3"] ["3"] 2 4
    ltac:(apply (bool_decide_unpack _); vm_compute; exact I)
    ltac:(apply (bool_decide_unpack _); vm_compute; exact I)
    ltac:(simpl; lia)) as H.
  destruct (bestZones [] ["1"; "2"; "3"] ["3"] 2 4). apply H.
Defined.
