(* ===== verification/ComputeDesired.v ===== *)
(** * Desired node pools

    [fleet/pkg/compute/desired.go] and [resolve.go]: from tier configuration,
    per-family vCPU limits and the SKU catalogue to the desired pools of a
    management cluster.  Logging is left out; the Azure clients are arguments. *)
From S2P Require Import Prelude GoStrings GoSha256 ComputeTypes ComputeFill.

Local Open Scope Z_scope.
Local Open Scope go_scope.

(** ** The eligible SKU index *)

Record AllocationFailure := {
  af_TierIndex : Z;
  af_Cores : Z;
  af_Reason : string;
  af_Message : string;
  af_Required : bool;
}.

Record eligibleSKU := { es_VMSize : string; es_Meta : SKUMetadata }.

Abbreviation EligibleSKUIndex := (gmap VMFamily (gmap Z eligibleSKU)) (only parsing).

(** The guards of [BuildEligibleSKUIndex] that skip a SKU. *)
Definition skuEligible (meta : SKUMetadata) : bool :=
  negb (sku_LocationRestricted meta)
  && negb (negb (sku_EphemeralOSDiskSupported meta) || (sku_EphemeralDiskSizeGB meta <=? 0))
  && negb (maxInt32 <? sku_EphemeralDiskSizeGB meta)
  && negb (sku_ConstrainedVCPUs meta)
  && negb (sku_VCPUs meta =? 0).

Definition indexLookup (index : EligibleSKUIndex) (family : VMFamily) (vcpus : Z) :
    option eligibleSKU :=
  default ∅ (index !! family) !! vcpus.

(** One iteration of the loop over the SKU map. *)
Definition indexSKU (index : EligibleSKUIndex) (entry : string * SKUMetadata) :
    EligibleSKUIndex :=
  let '(vmSize, meta) := entry in
  if negb (skuEligible meta) then index
  else
    let family := sku_Family meta in
    let vcpus := sku_VCPUs meta in
    let skip := match indexLookup index family vcpus with
                | Some existing => string_less (es_VMSize existing) vmSize
                | None => false
                end in
    if skip then index
    else <[family := <[vcpus := {| es_VMSize := vmSize; es_Meta := meta |}]>
                       (default ∅ (index !! family))]> index.

(** The loop run over the entries in a given order; Go iterates over a map in an
    unspecified one. *)
Definition buildIndexFrom (entries : list (string * SKUMetadata)) : EligibleSKUIndex :=
  fold_left indexSKU entries ∅.

Definition BuildEligibleSKUIndex (skuMetadata : gmap string SKUMetadata) : EligibleSKUIndex :=
  buildIndexFrom (map_to_list skuMetadata).

(** [EligibleSKUIndex.Lookup] *)
Definition Lookup (idx : EligibleSKUIndex) (family : VMFamily) (desiredCores : Z) :
    option (string * SKUMetadata) :=
  (λ sku, (es_VMSize sku, es_Meta sku)) <$> indexLookup idx family desiredCores.

(** ** Tier helpers *)

Definition tierLabels (tier : TierConfig) : gmap string string :=
  Class_Labels (Tier_Class tier) ∪ {[RoleLabel := Class_Role (Tier_Class tier)]}.

(** The rank of a family for a regional tier: the number of zones its SKU is
    offered in, or one more than all zones when it is offered in none. *)
Definition familyRank (tier : TierConfig) (zones : list string) (skuIndex : EligibleSKUIndex)
    (family : VMFamily) : Z :=
  let unschedulable := Z.of_nat (length zones) + 1 in
  let coverage := match Lookup skuIndex family (Tier_Cores tier) with
                  | Some (_, meta) => Z.of_nat (length (intersectZones zones meta))
                  | None => 0
                  end in
  if coverage =? 0 then unschedulable else coverage.

Definition familyAllocationOrder (tier : TierConfig) (zones : list string)
    (skuIndex : EligibleSKUIndex) : list VMFamily :=
  if negb (bool_decide (Tier_PoolMode tier = PoolModeRegional)) then Tier_FamilyPriority tier
  else sort_by (λ a b, familyRank tier zones skuIndex a - familyRank tier zones skuIndex b <? 0)
         (Tier_FamilyPriority tier).

Definition tierSKU (tier : TierConfig) (family : VMFamily) (skuIndex : EligibleSKUIndex) :
    option SKUMetadata :=
  match Lookup skuIndex family (Tier_Cores tier) with
  | None => None
  | Some (_, meta) =>
      if sku_EphemeralDiskSizeGB meta <? Tier_MinOSDiskSizeGB tier then None
      else if Class_AttachSecondaryNICs (Tier_Class tier) && (sku_SecondaryNICs meta <=? 0)
      then None
      else Some meta
  end.

Definition maxCoresPerFamily (tiers : list TierConfig) : gmap VMFamily Z :=
  fold_left (λ result tier,
      fold_left (λ result family,
          if default 0 (result !! family) <? Tier_Cores tier
          then <[family := Tier_Cores tier]> result else result)
        (Tier_FamilyPriority tier) result)
    tiers ∅.

Definition seedMinCount (initialMinNodes maxCount : Z) : Z :=
  let initialMinNodes := if initialMinNodes <? 1 then 1 else initialMinNodes in
  let initialMinNodes := if maxCount <? initialMinNodes then maxCount else initialMinNodes in
  wrap32 initialMinNodes.

Definition minNonNegative (a b : Z) : Z := Z.max (Z.min a b) 0.

(** [TierConfig.poolName] *)
Definition poolName (tier : TierConfig) (vmSize zone : string) (osDiskSizeGB : Z) : string :=
  let c := Tier_Class tier in
  let input := Join "|"
    [Class_Role c; vmSize; Itoa osDiskSizeGB; Itoa (Tier_MaxPods tier);
     fmt_bool (Class_EnableSwift c); Class_AgentPoolMode c;
     fmt_bool (Class_AttachSecondaryNICs c)] in
  let sum := Sum256 (bytes_of_string input) in
  (Tier_Name tier +:+ zone +:+ String.substring 0 6 (EncodeToString sum))%string.

(** The [Pool] literal of both allocation modes; [zone] is the name's zone digit
    and [zones] the availability zones set on the pool. *)
Definition newPool (tier : TierConfig) (meta : SKUMetadata) (zone : string)
    (zones : list string) (maxCount : Z) : Pool := {|
  Pool_Role := Class_Role (Tier_Class tier);
  Pool_AgentPoolMode := Class_AgentPoolMode (Tier_Class tier);
  Pool_Name := poolName tier (sku_Name meta) zone (wrap32 (sku_EphemeralDiskSizeGB meta));
  Pool_Spec := NewVMSpecFromSKU meta;
  Pool_AvailabilityZones := zones;
  Pool_MaxCount := wrap32 maxCount;
  Pool_MinCount := seedMinCount (Tier_InitialMinNodes tier) maxCount;
  Pool_OSDiskSizeGB := wrap32 (sku_EphemeralDiskSizeGB meta);
  Pool_MaxPods := Tier_MaxPods tier;
  Pool_Labels := tierLabels tier;
  Pool_Taints := Class_Taints (Tier_Class tier);
  Pool_EnableSwift := Class_EnableSwift (Tier_Class tier);
  Pool_SecondaryNICs :=
    if Class_AttachSecondaryNICs (Tier_Class tier) then sku_SecondaryNICs meta else 0;
|}.

Definition budgetOf (budgets : gmap VMFamily Z) (family : VMFamily) : Z :=
  default 0 (budgets !! family).

(** ** Regional tiers *)

(** The loop of [allocateRegionalTier] over the families still to try. *)
Fixpoint regionalLoop (tier : TierConfig) (budgets : gmap VMFamily Z)
    (skuIndex : EligibleSKUIndex) (families : list VMFamily)
    (pools : list Pool) (allocatedNodes : Z) : list Pool * Z :=
  match families with
  | [] => (pools, allocatedNodes)
  | family :: families =>
      match tierSKU tier family skuIndex with
      | None => regionalLoop tier budgets skuIndex families pools allocatedNodes
      | Some meta =>
          let maxCount := minNonNegative (Z.quot (budgetOf budgets family) (sku_VCPUs meta))
                            (Tier_MaxNodes tier -! allocatedNodes) in
          if maxCount <? 1 then regionalLoop tier budgets skuIndex families pools allocatedNodes
          else
            let pools := pools ++ [newPool tier meta "0" [] maxCount] in
            let allocatedNodes := allocatedNodes +! maxCount in
            if Tier_MaxNodes tier <=? allocatedNodes then (pools, allocatedNodes)
            else regionalLoop tier budgets skuIndex families pools allocatedNodes
      end
  end.

Definition allocateRegionalTier (tier : TierConfig) (zones : list string)
    (budgets : gmap VMFamily Z) (skuIndex : EligibleSKUIndex) : list Pool * bool :=
  let '(pools, allocatedNodes) :=
    regionalLoop tier budgets skuIndex (familyAllocationOrder tier zones skuIndex) [] 0 in
  (pools, negb (bool_decide (pools = [])) && (allocatedNodes =? Tier_MaxNodes tier)).

(** ** Per-zone tiers *)

(** The families with an eligible SKU and quota for at least one node. *)
Definition familiesWithQuota (tier : TierConfig) (budgets : gmap VMFamily Z)
    (skuIndex : EligibleSKUIndex) (families : list VMFamily) : list familyQuota :=
  omap (λ family,
      match tierSKU tier family skuIndex with
      | None => None
      | Some meta =>
          let quotaNodes := Z.quot (budgetOf budgets family) (sku_VCPUs meta) in
          if quotaNodes <? 1 then None
          else Some {| fq_meta := meta; fq_quotaNodes := quotaNodes |}
      end) families.

(** The pool of a grant: the family's SKU in the zone. *)
Definition grantPool (tier : TierConfig) (fs : list familyQuota) (g : grant) : option Pool :=
  (λ f, newPool tier (fq_meta f) (g_zone g) [g_zone g] (g_nodes g)) <$> fs !! g_family g.

Definition allocatePerZoneTier (tier : TierConfig) (zones requiredZones : list string)
    (budgets : gmap VMFamily Z) (skuIndex : EligibleSKUIndex) : list Pool * bool :=
  let zoneCount := Z.min (Tier_PoolCount tier) (Z.of_nat (length zones)) in
  if (zoneCount =? 0) && bool_decide (requiredZones = []) then ([], false)
  else
    let fs := familiesWithQuota tier budgets skuIndex
                (familyAllocationOrder tier zones skuIndex) in
    let '(tierZones, nodesPerZone) :=
      bestZones fs zones requiredZones zoneCount (Tier_MaxNodes tier) in
    let '(_, _, grants) := fillZonesLoop tierZones fs (sameNeed tierZones nodesPerZone) in
    let pools := omap (grantPool tier fs) grants in
    (pools, negb (bool_decide (pools = [])) && (nodesPerZone =? Tier_MaxNodes tier)
            && (zoneCount <=? Z.of_nat (length tierZones))).

Definition allocateTier (tier : TierConfig) (zones requiredZones : list string)
    (budgets : gmap VMFamily Z) (skuIndex : EligibleSKUIndex) : list Pool * bool :=
  match Tier_PoolMode tier with
  | PoolModeRegional => allocateRegionalTier tier zones budgets skuIndex
  | PoolModePerZone => allocatePerZoneTier tier zones requiredZones budgets skuIndex
  | PoolModeOther _ => ([], false)
  end.

(** ** Failures *)

Definition tierPrefix (tierIndex : Z) (tier : TierConfig) : string :=
  ("tier " +:+ Itoa tierIndex +:+ " (" +:+ Itoa (Tier_Cores tier) +:+ " cores): ")%string.

(** The zones some eligible family of the tier is offered in, and whether there
    is an eligible family at all. *)
Definition offeredZonesLoop (tier : TierConfig) (zones : list string)
    (skuIndex : EligibleSKUIndex) : bool * gset string :=
  fold_left (λ acc family,
      match Lookup skuIndex family (Tier_Cores tier) with
      | None => acc
      | Some (_, meta) =>
          if (sku_EphemeralDiskSizeGB meta <? Tier_MinOSDiskSizeGB tier)
             || (Class_AttachSecondaryNICs (Tier_Class tier) && (sku_SecondaryNICs meta <=? 0))
          then acc
          else (true, acc.2 ∪ list_to_set (intersectZones zones meta))
      end)
    (Tier_FamilyPriority tier) (false, ∅).

Definition tierExhaustedFailure (tierIndex : Z) (tier : TierConfig)
    (zones requiredZones : list string) (skuIndex : EligibleSKUIndex) : AllocationFailure :=
  let pre := tierPrefix tierIndex tier in
  let fail (reason message : string) := {|
    af_TierIndex := tierIndex;
    af_Cores := Tier_Cores tier;
    af_Reason := reason;
    af_Message := (pre +:+ message)%string;
    af_Required := Tier_Required tier |} in
  let perZone := bool_decide (Tier_PoolMode tier = PoolModePerZone) in
  let insufficient :=
    fail "InsufficientQuota"
      (if bool_decide (Tier_PoolMode tier = PoolModeRegional)
       then "the families' quota does not cover at least one node"
       else "the families' quota does not cover at least one node per zone") in
  if bool_decide (Tier_FamilyPriority tier = []) then
    fail "NoEligibleFamily" "family priority list is empty"
  else
    let zonesNeeded := Z.max (Z.min (Tier_PoolCount tier) (Z.of_nat (length zones)))
                             (Z.of_nat (length requiredZones)) in
    let '(hasEligible, offeredZones) := offeredZonesLoop tier zones skuIndex in
    let uncovered := base.filter (λ z, z ∉ offeredZones) requiredZones in
    let hasZoneCoverage := negb perZone || (zonesNeeded <=? Z.of_nat (size offeredZones)) in
    if negb hasEligible then
      fail "NoEligibleSKU"
        ("no family has an eligible SKU with exactly " +:+ Itoa (Tier_Cores tier) +:+
         " vCPUs (unrestricted in region, unconstrained vCPUs, ephemeral OS disk of at least "
         +:+ Itoa (Tier_MinOSDiskSizeGB tier) +:+ " GB)" +:+
         (if Class_AttachSecondaryNICs (Tier_Class tier)
          then "; a positive secondary NIC capacity is also required" else ""))%string
    else if perZone && negb (bool_decide (uncovered = [])) then
      fail "NoZoneCoverage"
        ("the eligible families' SKUs are not offered in existing zones " +:+
         Join "," uncovered +:+ " for role " +:+ Quote (Class_Role (Tier_Class tier)))%string
    else if negb hasZoneCoverage then
      fail "NoZoneCoverage" "the eligible families' SKUs are not offered in enough zones"
    else insufficient.

Definition RequiredTierFailed (failures : list AllocationFailure) : bool :=
  existsb af_Required failures.

Definition FailureSummary (failures : list AllocationFailure) : string :=
  Join "; " (af_Message <$> failures).

(** ** All tiers *)

(** The role's existing zones a per-zone tier must keep: nonempty, each once. *)
Definition requiredZonesOf (tier : TierConfig) (existingZones : gmap PoolRole (list string)) :
    list string :=
  if bool_decide (Tier_PoolMode tier = PoolModePerZone) then
    fold_left (λ req zone,
        if negb (String.eqb zone "") && negb (bool_decide (zone ∈ req))
        then req ++ [zone] else req)
      (default [] (existingZones !! Class_Role (Tier_Class tier))) []
  else [].

(** What a tier may spend: the limits less earlier consumption and the surge
    reservation of the tiers up to this one. *)
Definition availableBudgets (familyLimits consumed surge : gmap VMFamily Z) : gmap VMFamily Z :=
  map_imap (λ family budget,
      Some ((budget -! default 0 (consumed !! family)) -! default 0 (surge !! family)))
    familyLimits.

Definition consume (consumed : gmap VMFamily Z) (pool : Pool) : gmap VMFamily Z :=
  let family := spec_Family (Pool_Spec pool) in
  <[family := default 0 (consumed !! family) +!
              (Pool_MaxCount pool *! spec_VCPUs (Pool_Spec pool))]> consumed.

Record allocState := {
  st_consumed : gmap VMFamily Z;
  st_pools : list Pool;
  st_failures : list AllocationFailure;
  st_full : bool;
}.

(** One iteration of [ComputeDesiredPools]; [before] holds the earlier tiers. *)
Definition allocStep (zones : list string) (existingZones : gmap PoolRole (list string))
    (familyLimits : gmap VMFamily Z) (skuIndex : EligibleSKUIndex)
    (before : list TierConfig) (tier : TierConfig) (st : allocState) : allocState :=
  let surge := maxCoresPerFamily (before ++ [tier]) in
  let available := availableBudgets familyLimits (st_consumed st) surge in
  let requiredZones := requiredZonesOf tier existingZones in
  let '(tierPools, tierFull) := allocateTier tier zones requiredZones available skuIndex in
  let full := st_full st && tierFull in
  if bool_decide (tierPools = []) then
    {| st_consumed := st_consumed st; st_pools := st_pools st;
       st_failures := st_failures st ++
         [tierExhaustedFailure (Z.of_nat (length before)) tier zones requiredZones skuIndex];
       st_full := full |}
  else
    {| st_consumed := fold_left consume tierPools (st_consumed st);
       st_pools := st_pools st ++ tierPools;
       st_failures := st_failures st;
       st_full := full |}.

Fixpoint allocLoop (zones : list string) (existingZones : gmap PoolRole (list string))
    (familyLimits : gmap VMFamily Z) (skuIndex : EligibleSKUIndex)
    (before rest : list TierConfig) (st : allocState) : allocState :=
  match rest with
  | [] => st
  | tier :: rest =>
      allocLoop zones existingZones familyLimits skuIndex (before ++ [tier]) rest
        (allocStep zones existingZones familyLimits skuIndex before tier st)
  end.

Definition noTiersConfigured : AllocationFailure := {|
  af_TierIndex := 0; af_Cores := 0; af_Reason := "NoTiersConfigured";
  af_Message := "no pool tiers are configured"; af_Required := false |}.

Definition ComputeDesiredPools (tiers : list TierConfig) (zones : list string)
    (existingZones : gmap PoolRole (list string)) (familyLimits : gmap VMFamily Z)
    (skuIndex : EligibleSKUIndex) : list Pool * list AllocationFailure * bool :=
  let st := allocLoop zones existingZones familyLimits skuIndex [] tiers
    {| st_consumed := ∅; st_pools := []; st_failures := [];
       st_full := negb (bool_decide (tiers = [])) |} in
  let failures :=
    if bool_decide (st_pools st = []) && bool_decide (length (st_failures st) = O)
    then st_failures st ++ [noTiersConfigured] else st_failures st in
  (st_pools st, failures, st_full st).

(** ** resolve.go *)

Record DesiredPoolsResult := {
  dr_Pools : list Pool;
  dr_Failures : list AllocationFailure;
  dr_FullyAllocated : bool;
  dr_SKUMetadata : gmap string SKUMetadata;
  dr_AvailableVCPUs : gmap VMFamily Z;
}.

Inductive resolve_error : Type :=
  | ErrFetchingSKUs (e : string)
  | ErrComputingBudgets (e : string).

(** The SKU cache and the quota query are arguments. *)
Definition ResolveDesiredPools
    (SKUMetadataByVMSize : result string (gmap string SKUMetadata))
    (profile : Profile) (zones : list string) (existingZones : gmap PoolRole (list string))
    (fetchQuotaUsage : FetchQuotaUsageFunc) : result resolve_error DesiredPoolsResult :=
  match SKUMetadataByVMSize with
  | Err e => Err (ErrFetchingSKUs e)
  | Ok skuMetadata =>
      let families := TierFamilies (Profile_Tiers profile) in
      match Profile_BudgetStrategy profile families fetchQuotaUsage with
      | Err e => Err (ErrComputingBudgets e)
      | Ok quotaUsages =>
          let familyLimits := quota_Limit <$> quotaUsages in
          let availableVCPUs :=
            (λ usage, Z.max (quota_Limit usage -! quota_CurrentValue usage) 0) <$> quotaUsages in
          let skuIndex := BuildEligibleSKUIndex skuMetadata in
          let '(pools, failures, fullyAllocated) :=
            ComputeDesiredPools (Profile_Tiers profile) zones existingZones familyLimits skuIndex in
          Ok {| dr_Pools := pools; dr_Failures := failures;
                dr_FullyAllocated := fullyAllocated; dr_SKUMetadata := skuMetadata;
                dr_AvailableVCPUs := availableVCPUs |}
      end
  end.
