(* ===== verification/ComputeAllocation.v ===== *)
(** * Correctness of the node pool allocation

    Theorems about [ComputeDesired]: the SKU index does not depend on the map
    iteration order, a per-zone tier serves every tier zone equally within each
    family's quota, and the pools of all tiers together leave room for one surge
    node in every family they use. *)
From S2P Require Import Prelude GoStrings GoSha256 ComputeTypes ComputeFill ComputeDesired.

Local Open Scope Z_scope.
Local Open Scope go_scope.

(** ** A test case of the repository

    [TestComputeDesiredPools/multi_role_production_like]: the pool names (and so
    the hashed identity), node counts and the completeness flag of the recorded
    result are what the definitions compute. *)
Module ProductionLike.
Definition family : VMFamily := "StandardEdsv6Family".

Definition sku (name : string) (vcpus gib nics disk : Z) : SKUMetadata := {|
  sku_Name := name; sku_Family := family; sku_VCPUs := vcpus;
  sku_MemoryBytes := gib * 1073741824; sku_SecondaryNICs := nics;
  sku_EphemeralOSDiskSupported := true; sku_EphemeralDiskSizeGB := disk;
  sku_Zones := ["1"; "2"; "3"]; sku_ConstrainedVCPUs := false;
  sku_LocationRestricted := false |}.

Definition skus : gmap string SKUMetadata := list_to_map
  [("Standard_E16ds_v6", sku "Standard_E16ds_v6" 16 128 7 896);
   ("Standard_E32ds_v6", sku "Standard_E32ds_v6" 32 256 7 1792);
   ("Standard_E8ds_v6", sku "Standard_E8ds_v6" 8 64 3 448)].

Definition tierOf (name : string) (class : PoolClass) (mode : PoolMode)
    (count cores maxNodes disk pods : Z) : TierConfig := {|
  Tier_Name := name; Tier_Class := class; Tier_PoolMode := mode; Tier_PoolCount := count;
  Tier_Cores := cores; Tier_MaxNodes := maxNodes; Tier_InitialMinNodes := 0;
  Tier_MinOSDiskSizeGB := disk; Tier_MaxPods := pods; Tier_Required := false;
  Tier_FamilyPriority := [family] |}.

Definition system : PoolClass := {|
  Class_Role := "system"; Class_AgentPoolMode := AgentPoolModeSystem;
  Class_EnableSwift := false; Class_AttachSecondaryNICs := false; Class_Labels := ∅;
  Class_Taints := ["CriticalAddonsOnly=true:NoSchedule"] |}.

Definition tiers : list TierConfig :=
  [tierOf "sys" system PoolModeRegional 1 8 3 128 100;
   tierOf "inf" InfraPools PoolModePerZone 3 32 1 128 225;
   tierOf "wrk16" WorkerPools PoolModePerZone 3 16 2 256 225;
   tierOf "wrk32" WorkerPools PoolModePerZone 3 32 8 512 225].

Definition result : list Pool * list AllocationFailure * bool :=
  ComputeDesiredPools tiers ["1"; "2"; "3"] ∅ {[family := 1000]}
    (BuildEligibleSKUIndex skus).

Example production_like_recorded :
  ((λ p, (Pool_Name p, Pool_AvailabilityZones p, Pool_MinCount p, Pool_MaxCount p))
     <$> result.1.1, result.1.2, result.2) =
  ([("sys0b4b886", [], 1, 3); ("inf1051ca6", ["1"], 1, 1); ("inf2051ca6", ["2"], 1, 1);
    ("inf3051ca6", ["3"], 1, 1); ("wrk161d51d84", ["1"], 1, 2); ("wrk162d51d84", ["2"], 1, 2);
    ("wrk163d51d84", ["3"], 1, 2); ("wrk3216d4a8b", ["1"], 1, 7);
    ("wrk3226d4a8b", ["2"], 1, 7); ("wrk3236d4a8b", ["3"], 1, 7)]%string,
   [], false).
Proof. vm_compute. reflexivity. Qed.
End ProductionLike.

(** ** The SKU index *)

(** The SKU the documentation promises for a family and vCPU count: eligible,
    with that family and count, and of the smallest name among those. *)
Record best_sku (entries : list (string * SKUMetadata)) (family : VMFamily) (vcpus : Z)
    (sku : eligibleSKU) : Prop := {
  bs_in : (es_VMSize sku, es_Meta sku) ∈ entries;
  bs_eligible : skuEligible (es_Meta sku) = true;
  bs_family : sku_Family (es_Meta sku) = family;
  bs_vcpus : sku_VCPUs (es_Meta sku) = vcpus;
  bs_least : ∀ name meta, (name, meta) ∈ entries → skuEligible meta = true →
    sku_Family meta = family → sku_VCPUs meta = vcpus → string_less name (es_VMSize sku) = false;
}.

Definition no_sku (entries : list (string * SKUMetadata)) (family : VMFamily) (vcpus : Z) : Prop :=
  ∀ name meta, (name, meta) ∈ entries → skuEligible meta = true →
    sku_Family meta = family → sku_VCPUs meta ≠ vcpus.

Lemma indexLookup_insert index f v sku f' v' :
  indexLookup (<[f := <[v := sku]> (default ∅ (index !! f))]> index) f' v' =
  if decide (f' = f ∧ v' = v) then Some sku else indexLookup index f' v'.
Proof.
  unfold indexLookup. destruct (decide (f' = f)) as [->|].
  - rewrite lookup_insert_eq. simpl. destruct (decide (v' = v)) as [->|].
    + by rewrite lookup_insert_eq, decide_True by done.
    + by rewrite lookup_insert_ne, decide_False by naive_solver.
  - by rewrite lookup_insert_ne, decide_False by naive_solver.
Qed.

(** The loop invariant: each slot holds the best SKU of the entries seen. *)
Definition index_inv (entries : list (string * SKUMetadata)) (index : EligibleSKUIndex) : Prop :=
  ∀ f v, match indexLookup index f v with
         | Some sku => best_sku entries f v sku
         | None => no_sku entries f v
         end.

Lemma best_sku_snoc entries f v sku name meta :
  best_sku entries f v sku →
  (skuEligible meta = true → sku_Family meta = f → sku_VCPUs meta = v →
   string_less name (es_VMSize sku) = false) →
  best_sku (entries ++ [(name, meta)]) f v sku.
Proof.
  intros [H1 H2 H3 H4 H5] Hnew. split; try done; [set_solver|].
  intros n m [Hin|Hin]%elem_of_app; [exact (H5 n m Hin)|].
  apply list_elem_of_singleton in Hin. by simplify_eq.
Qed.

Lemma no_sku_snoc entries f v name meta :
  no_sku entries f v →
  (skuEligible meta = true → sku_Family meta = f → sku_VCPUs meta ≠ v) →
  no_sku (entries ++ [(name, meta)]) f v.
Proof.
  intros H Hnew n m [Hin|Hin]%elem_of_app; [exact (H n m Hin)|].
  apply list_elem_of_singleton in Hin. by simplify_eq.
Qed.

(** An entry that the loop does not store keeps the invariant. *)
Lemma index_inv_skip entries index name meta :
  index_inv entries index →
  (skuEligible meta = true → ∃ sku,
     indexLookup index (sku_Family meta) (sku_VCPUs meta) = Some sku ∧
     string_less name (es_VMSize sku) = false) →
  index_inv (entries ++ [(name, meta)]) index.
Proof.
  intros Hinv Hskip f v. specialize (Hinv f v). destruct (indexLookup index f v) eqn:E.
  - apply best_sku_snoc; [done|]. intros He <- <-.
    destruct (Hskip He) as (sku & Hsku & ?). by simplify_eq.
  - apply no_sku_snoc; [done|]. intros He <- Hv.
    destruct (Hskip He) as (sku & Hsku & ?). subst v. congruence.
Qed.

(** Storing an eligible entry no smaller name precedes keeps it as well. *)
Lemma index_inv_store entries index name meta :
  index_inv entries index → skuEligible meta = true →
  (∀ sku, indexLookup index (sku_Family meta) (sku_VCPUs meta) = Some sku →
          string_less (es_VMSize sku) name = false) →
  index_inv (entries ++ [(name, meta)])
    (<[sku_Family meta := <[sku_VCPUs meta := {| es_VMSize := name; es_Meta := meta |}]>
         (default ∅ (index !! sku_Family meta))]> index).
Proof.
  intros Hinv He Hless f v. rewrite indexLookup_insert.
  destruct (decide _) as [[-> ->]|Hne].
  - split; simpl; try done; [set_solver|].
    intros n m [Hin|Hin]%elem_of_app Hem Hf Hv.
    + specialize (Hinv (sku_Family meta) (sku_VCPUs meta)).
      destruct (indexLookup index _ _) as [sku|] eqn:E; [|by destruct (Hinv n m Hin Hem Hf)].
      pose proof (bs_least _ _ _ _ Hinv n m Hin Hem Hf Hv) as Hle.
      specialize (Hless sku eq_refl). rewrite string_less_false in *. by trans (es_VMSize sku).
    + apply list_elem_of_singleton in Hin. simplify_eq. apply string_less_irrefl.
  - specialize (Hinv f v). destruct (indexLookup index f v) eqn:E.
    + apply best_sku_snoc; [done|]. intros _ <- <-. naive_solver.
    + apply no_sku_snoc; [done|]. intros _ <- <-. naive_solver.
Qed.

Lemma indexSKU_inv entries index entry :
  index_inv entries index → index_inv (entries ++ [entry]) (indexSKU index entry).
Proof.
  intros Hinv. destruct entry as [name meta]. unfold indexSKU.
  destruct (skuEligible meta) eqn:He; simpl; [|apply index_inv_skip; [done|congruence]].
  destruct (indexLookup index (sku_Family meta) (sku_VCPUs meta)) as [sku|] eqn:E.
  - destruct (string_less (es_VMSize sku) name) eqn:Hl.
    + apply index_inv_skip; [done|]. intros _. exists sku. eauto using string_less_asym.
    + apply index_inv_store; [done..|]. intros sku' Hs. by rewrite E in Hs; simplify_eq.
  - apply index_inv_store; [done..|]. intros sku' Hs. congruence.
Qed.

Lemma buildIndexFrom_inv entries : index_inv entries (buildIndexFrom entries).
Proof.
  unfold buildIndexFrom. induction entries as [|entry entries IH] using rev_ind.
  - intros f v. change (no_sku [] f v).
    intros n m Hin. by apply elem_of_nil in Hin.
  - rewrite fold_left_app. by apply indexSKU_inv.
Qed.

Lemma buildIndexFrom_lookup entries f v sku :
  NoDup entries.*1 →
  indexLookup (buildIndexFrom entries) f v = Some sku ↔ best_sku entries f v sku.
Proof.
  intros Hnd. pose proof (buildIndexFrom_inv entries f v) as Hinv. split.
  - intros E. by rewrite E in Hinv.
  - intros Hb. destruct (indexLookup _ f v) as [sku'|].
    + destruct sku as [n m], sku' as [n' m']. f_equal.
      assert (n' = n) as ->.
      { destruct (decide (n' = n)) as [|Hne]; [done|].
        destruct Hinv as [I1 I2 I3 I4 I5], Hb as [B1 B2 B3 B4 B5]. simpl in *.
        specialize (I5 _ _ B1 B2 B3 B4). specialize (B5 _ _ I1 I2 I3 I4).
        destruct (string_less_total _ _ Hne); congruence. }
      destruct Hinv as [I1 _ _ _ _], Hb as [B1 _ _ _ _]. simpl in *.
      f_equal.
      apply (elem_of_list_to_map_1 (M := gmap string)) in I1, B1; [|done..]. congruence.
    + destruct Hb as [H1 H2 H3 H4 _]. by destruct (Hinv _ _ H1 H2 H3).
Qed.

(** The SKU index does not depend on the order in which Go iterates over the
    SKU map: for every order of the entries, a lookup finds a SKU exactly when
    it is the eligible SKU of that family and vCPU count with the smallest
    name. *)
Theorem BuildEligibleSKUIndex_deterministic (skuMetadata : gmap string SKUMetadata)
    (entries : list (string * SKUMetadata)) (family : VMFamily) (vcpus : Z)
    (Hentries : entries ≡ₚ map_to_list skuMetadata) :
  indexLookup (buildIndexFrom entries) family vcpus =
    indexLookup (BuildEligibleSKUIndex skuMetadata) family vcpus ∧
  ∀ sku, indexLookup (BuildEligibleSKUIndex skuMetadata) family vcpus = Some sku ↔
    skuMetadata !! es_VMSize sku = Some (es_Meta sku) ∧
    skuEligible (es_Meta sku) = true ∧
    sku_Family (es_Meta sku) = family ∧ sku_VCPUs (es_Meta sku) = vcpus ∧
    ∀ name meta, skuMetadata !! name = Some meta → skuEligible meta = true →
      sku_Family meta = family → sku_VCPUs meta = vcpus →
      string_less name (es_VMSize sku) = false.
Proof.
  assert (Hnd : NoDup (map_to_list skuMetadata).*1) by apply NoDup_fst_map_to_list.
  assert (Hb : ∀ sku, best_sku entries family vcpus sku ↔
                      best_sku (map_to_list skuMetadata) family vcpus sku).
  { intros sku. split; intros [H1 H2 H3 H4 H5]; split; try done.
    - by rewrite <- Hentries.
    - intros n m. rewrite <- Hentries. apply H5.
    - by rewrite Hentries.
    - intros n m. rewrite Hentries. apply H5. }
  split.
  - apply option_eq. intros sku. unfold BuildEligibleSKUIndex.
    rewrite !buildIndexFrom_lookup by (by rewrite ?Hentries). apply Hb.
  - intros sku. unfold BuildEligibleSKUIndex. rewrite buildIndexFrom_lookup by done.
    split.
    + intros [H1 H2 H3 H4 H5]. rewrite elem_of_map_to_list in H1. split_and!; try done.
      intros n m. rewrite <- elem_of_map_to_list. apply H5.
    + intros (H1 & H2 & H3 & H4 & H5). split; try done; [by apply elem_of_map_to_list|].
      intros n m. rewrite elem_of_map_to_list. apply H5.
Qed.

Lemma BuildEligibleSKUIndex_deterministic_witness :
  indexLookup (buildIndexFrom (reverse (map_to_list ProductionLike.skus)))
    ProductionLike.family 16 =
  Some {| es_VMSize := "Standard_E16ds_v6";
          es_Meta := ProductionLike.sku "Standard_E16ds_v6" 16 128 7 896 |}.
Proof.
  rewrite (proj1 (BuildEligibleSKUIndex_deterministic ProductionLike.skus
    (reverse (map_to_list ProductionLike.skus)) ProductionLike.family 16
    (reverse_Permutation _))).
  vm_compute. reflexivity.
Defined.

(** ** What a tier spends *)

(** What the allocation relies on of the index; [BuildEligibleSKUIndex] gives it. *)
Definition index_ok (skuIndex : EligibleSKUIndex) : Prop :=
  ∀ family vcpus sku, indexLookup skuIndex family vcpus = Some sku →
    sku_Family (es_Meta sku) = family ∧ sku_VCPUs (es_Meta sku) = vcpus ∧
    skuEligible (es_Meta sku) = true.

Lemma BuildEligibleSKUIndex_ok skus : index_ok (BuildEligibleSKUIndex skus).
Proof.
  intros f v sku [_ H1 H2 H3 _]%buildIndexFrom_lookup; [done|].
  apply NoDup_fst_map_to_list.
Qed.

Definition poolFamily (p : Pool) : VMFamily := spec_Family (Pool_Spec p).
Definition poolVCPUs (p : Pool) : Z := spec_VCPUs (Pool_Spec p).

(** The vCPUs the pools take from a family when grown to their maximum. *)
Definition spent (pools : list Pool) (family : VMFamily) : Z :=
  Zsum ((λ p, Pool_MaxCount p * poolVCPUs p) <$>
    base.filter (λ p, poolFamily p = family) pools).

(** The nodes the pools bring to a zone. *)
Definition nodesIn (pools : list Pool) (zone : string) : Z :=
  Zsum (Pool_MaxCount <$> base.filter (λ p, Pool_AvailabilityZones p = [zone]) pools).

Lemma spent_nil f : spent [] f = 0.
Proof. done. Qed.

Lemma spent_app l1 l2 f : spent (l1 ++ l2) f = spent l1 f + spent l2 f.
Proof. unfold spent. by rewrite filter_app, fmap_app, Zsum_app. Qed.

Lemma spent_cons p l f :
  spent (p :: l) f =
  (if decide (poolFamily p = f) then Pool_MaxCount p * poolVCPUs p else 0) + spent l f.
Proof. unfold spent. rewrite filter_cons. by destruct (decide _). Qed.

Lemma spent_absent l f : (∀ p, p ∈ l → poolFamily p ≠ f) → spent l f = 0.
Proof.
  intros H. induction l as [|p l IH]; [done|]. rewrite spent_cons, IH.
  - rewrite decide_False; [done|]. apply H. left.
  - intros q Hq. apply H. by right.
Qed.

Lemma quot_pos b c : 0 < c → 1 <= Z.quot b c → 0 < b ∧ Z.quot b c * c <= b.
Proof.
  intros Hc Hq. destruct (Z.lt_ge_cases 0 b) as [Hb|Hb].
  - split; [done|]. rewrite Z.mul_comm. apply Z.mul_quot_le; lia.
  - pose proof (Z.quot_le_mono b 0 c Hc Hb). rewrite Z.quot_0_l in H by lia. lia.
Qed.

Lemma seedMinCount_bounds i m : 1 <= m <= maxInt32 → 1 <= seedMinCount i m <= m.
Proof.
  intros Hm. unfold seedMinCount.
  set (k := if i <? 1 then 1 else i). set (r := if m <? k then m else k).
  assert (1 <= k) by (unfold k; destruct (i <? 1) eqn:?; bool_reflect; lia).
  assert (1 <= r <= m) by (unfold r; destruct (m <? k) eqn:?; bool_reflect; lia).
  rewrite wrap32_id; int_range.
Qed.

Section tier.
Context (tier : TierConfig) (skuIndex : EligibleSKUIndex) (budgets : gmap VMFamily Z).
Context (Hindex : index_ok skuIndex) (Hcores : 0 < Tier_Cores tier)
  (Hnodes : 0 <= Tier_MaxNodes tier <= maxInt32)
  (Hfams : NoDup (Tier_FamilyPriority tier)).

Lemma tierSKU_spec family meta :
  tierSKU tier family skuIndex = Some meta →
  sku_Family meta = family ∧ sku_VCPUs meta = Tier_Cores tier ∧
  skuEligible meta = true ∧ Tier_MinOSDiskSizeGB tier <= sku_EphemeralDiskSizeGB meta ∧
  (Class_AttachSecondaryNICs (Tier_Class tier) = true → 0 < sku_SecondaryNICs meta).
Proof.
  unfold tierSKU, Lookup. destruct (indexLookup _ _ _) as [[n m]|] eqn:E; simpl; [|done].
  destruct (_ <? _) eqn:E1; [done|]. destruct (_ && _) eqn:E2; [done|]. intros [= ->].
  apply Hindex in E as (? & ? & ?). bool_reflect. split_and!; try done.
  intros Hn. rewrite Hn in E2. simpl in E2. lia.
Qed.

(** A pool made for the tier: one of its families' SKUs, in a number of nodes
    between one and [MaxNodes], with the minimum between one and the maximum. *)
Definition madeFor (p : Pool) : Prop :=
  ∃ meta zone zones n,
    p = newPool tier meta zone zones n ∧ 1 <= n <= Tier_MaxNodes tier ∧
    tierSKU tier (sku_Family meta) skuIndex = Some meta ∧
    sku_Family meta ∈ Tier_FamilyPriority tier.

Lemma newPool_MaxCount meta zone zones n :
  0 <= n <= Tier_MaxNodes tier → Pool_MaxCount (newPool tier meta zone zones n) = n.
Proof. intros. simpl. apply wrap32_id. int_range. Qed.

Lemma madeFor_spec p :
  madeFor p →
  poolFamily p ∈ Tier_FamilyPriority tier ∧ poolVCPUs p = Tier_Cores tier ∧
  1 <= Pool_MaxCount p <= Tier_MaxNodes tier ∧ 1 <= Pool_MinCount p <= Pool_MaxCount p.
Proof.
  intros (meta & zone & zones & n & -> & Hn & Hs & Hf). split_and!; try done.
  - apply tierSKU_spec in Hs. apply Hs.
  - rewrite newPool_MaxCount; lia.
  - rewrite newPool_MaxCount; lia.
  - apply seedMinCount_bounds. int_range.
  - rewrite newPool_MaxCount by lia. apply seedMinCount_bounds. int_range.
Qed.

(** The nodes a family's budget pays for in the tier's SKU. *)
Definition quotaNodesOf (family : VMFamily) : Z :=
  match tierSKU tier family skuIndex with
  | None => 0
  | Some meta => Z.max 0 (Z.quot (budgetOf budgets family) (sku_VCPUs meta))
  end.

Lemma quotaNodesOf_sum families : 0 <= Zsum (quotaNodesOf <$> families).
Proof. apply Zsum_map_nonneg. intros f _. unfold quotaNodesOf. destruct (tierSKU _ _ _); lia. Qed.

(** The regional loop appends pools of the families it visits, at most one
    each, never beyond a family's budget, and reaches [MaxNodes] nodes or uses
    up all that the families' quota pays for. *)
Record regionalPools (families : list VMFamily) (allocated : Z) (new : list Pool) : Prop := {
  rp_total : allocated + Zsum (Pool_MaxCount <$> new) =
             Z.min (Tier_MaxNodes tier) (allocated + Zsum (quotaNodesOf <$> families));
  rp_made : Forall madeFor new;
  rp_families : (poolFamily <$> new) `sublist_of` families;
  rp_zoneless : Forall (λ p, Pool_AvailabilityZones p = []) new;
  rp_spent : ∀ f, spent new f <= Z.max 0 (budgetOf budgets f);
}.

Lemma regionalPools_nil families allocated :
  allocated = Z.min (Tier_MaxNodes tier) (allocated + Zsum (quotaNodesOf <$> families)) →
  regionalPools families allocated [].
Proof.
  intros. split; try done; [simpl; lia|apply sublist_nil_l|].
  intros f. rewrite spent_nil. lia.
Qed.

Lemma regionalPools_skip family families allocated new :
  quotaNodesOf family = 0 ∨ Tier_MaxNodes tier <= allocated →
  regionalPools families allocated new → regionalPools (family :: families) allocated new.
Proof.
  intros Hq [Ht Hm ? ? ?]. split; try done; [|by apply sublist_cons].
  rewrite fmap_cons, Zsum_cons, Ht. pose proof (quotaNodesOf_sum (family :: families)) as Hs.
  pose proof (quotaNodesOf_sum families).
  rewrite fmap_cons, Zsum_cons in Hs. destruct Hq as [->|?]; lia.
Qed.

Lemma regionalPools_cons meta n families allocated new :
  tierSKU tier (sku_Family meta) skuIndex = Some meta →
  sku_Family meta ∈ Tier_FamilyPriority tier → sku_Family meta ∉ families →
  1 <= n <= Tier_MaxNodes tier →
  n = Z.min (quotaNodesOf (sku_Family meta)) (Tier_MaxNodes tier - allocated) →
  n * sku_VCPUs meta <= budgetOf budgets (sku_Family meta) →
  regionalPools families (allocated + n) new →
  regionalPools (sku_Family meta :: families) allocated (newPool tier meta "0" [] n :: new).
Proof.
  intros Hs Hin Hnin Hn Hmin Hb [H1 H2 H3 H4 H5].
  assert (Hmax := newPool_MaxCount meta "0" [] n ltac:(lia)). split.
  - rewrite !fmap_cons, !Zsum_cons, Hmax. pose proof (quotaNodesOf_sum families). lia.
  - constructor; [|done]. by exists meta, "0", [], n.
  - rewrite fmap_cons. by apply sublist_skip.
  - by constructor.
  - intros f. rewrite spent_cons, Hmax. unfold poolFamily at 1, poolVCPUs. simpl.
    destruct (decide (sku_Family meta = f)) as [<-|]; [|apply H5].
    rewrite spent_absent; [lia|]. intros p Hp Heq. apply Hnin. rewrite <- Heq.
    eapply sublist_subseteq; [exact H3|]. by apply list_elem_of_fmap_2.
Qed.

Lemma regionalLoop_spec families pools allocated :
  families ⊆ Tier_FamilyPriority tier → NoDup families →
  0 <= allocated <= Tier_MaxNodes tier →
  ∃ new, regionalPools families allocated new ∧
    regionalLoop tier budgets skuIndex families pools allocated =
      (pools ++ new, allocated + Zsum (Pool_MaxCount <$> new)).
Proof.
  revert pools allocated. induction families as [|family families IH];
    intros pools allocated Hsub Hnd Ha; cbn [regionalLoop].
  { exists []. rewrite app_nil_r, Z.add_0_r. split; [apply regionalPools_nil; simpl; lia|done]. }
  apply NoDup_cons in Hnd as [Hnin Hnd].
  assert (Hfin : family ∈ Tier_FamilyPriority tier) by (apply Hsub; left).
  assert (Hsub' : families ⊆ Tier_FamilyPriority tier) by set_solver.
  destruct (tierSKU tier family skuIndex) as [meta|] eqn:Hs; last first.
  { destruct (IH pools allocated) as (new & ? & ->); [done..|].
    exists new. split; [|done]. apply regionalPools_skip; [left|done].
    unfold quotaNodesOf. by rewrite Hs. }
  pose proof (tierSKU_spec _ _ Hs) as (<- & Hv & _).
  assert (Hquota : quotaNodesOf (sku_Family meta) =
    Z.max 0 (Z.quot (budgetOf budgets (sku_Family meta)) (sku_VCPUs meta)))
    by (unfold quotaNodesOf; by rewrite Hs).
  unfold minNonNegative. rewrite (wrap64_id (_ - _)) by int_range.
  set (n := Z.max _ 0). destruct (n <? 1) eqn:Hn.
  { destruct (IH pools allocated) as (new & ? & ->); [done..|]. bool_reflect.
    exists new. split; [|done]. apply regionalPools_skip; [|done].
    rewrite Hquota. lia. }
  bool_reflect.
  assert (Hq : n <= Z.quot (budgetOf budgets (sku_Family meta)) (sku_VCPUs meta)) by lia.
  destruct (quot_pos (budgetOf budgets (sku_Family meta)) (sku_VCPUs meta)) as [_ Hle];
    [lia|lia|].
  assert (Hnm : n <= Tier_MaxNodes tier - allocated) by lia.
  assert (Hspend : n * sku_VCPUs meta <= budgetOf budgets (sku_Family meta)) by nia.
  rewrite (wrap64_id (allocated + n)) by int_range.
  destruct (Tier_MaxNodes tier <=? allocated + n) eqn:Hfull.
  - exists [newPool tier meta "0" [] n]. split.
    + apply regionalPools_cons; try done; [lia|lia|]. apply regionalPools_nil.
      pose proof (quotaNodesOf_sum families). bool_reflect. lia.
    + rewrite fmap_cons, Zsum_cons, newPool_MaxCount by lia. simpl. f_equal. lia.
  - bool_reflect. destruct (IH (pools ++ [newPool tier meta "0" [] n]) (allocated + n))
      as (new & Hnew & ->); [done|done|lia|].
    exists (newPool tier meta "0" [] n :: new). split.
    + apply regionalPools_cons; try done; lia.
    + rewrite <- app_assoc. rewrite fmap_cons, Zsum_cons, newPool_MaxCount by lia.
      f_equal. lia.
Qed.

(** *** Per-zone tiers *)

Lemma elem_of_familiesWithQuota families f :
  f ∈ familiesWithQuota tier budgets skuIndex families →
  sku_Family (fq_meta f) ∈ families ∧
  tierSKU tier (sku_Family (fq_meta f)) skuIndex = Some (fq_meta f) ∧
  1 <= fq_quotaNodes f ∧
  fq_quotaNodes f * Tier_Cores tier <= budgetOf budgets (sku_Family (fq_meta f)).
Proof.
  unfold familiesWithQuota. rewrite list_elem_of_omap. intros (family & Hin & H).
  destruct (tierSKU tier family skuIndex) as [meta|] eqn:Hs; [|done].
  pose proof (tierSKU_spec _ _ Hs) as (<- & Hv & _). rewrite Hv in H.
  destruct (_ <? 1) eqn:E; [done|]. simplify_eq. bool_reflect. simpl.
  split_and!; try done. by apply quot_pos.
Qed.

Lemma familiesWithQuota_sublist families :
  ((λ f, sku_Family (fq_meta f)) <$> familiesWithQuota tier budgets skuIndex families)
    `sublist_of` families.
Proof.
  unfold familiesWithQuota. induction families as [|family families IH]; csimpl; [done|].
  destruct (tierSKU tier family skuIndex) as [meta|] eqn:Hs; [|by apply sublist_cons].
  destruct (_ <? 1); [by apply sublist_cons|]. csimpl.
  apply tierSKU_spec in Hs as (-> & _). by apply sublist_skip.
Qed.

(** Grants turned into pools: what they take from a family and bring to a zone. *)
Section grants.
Context (fs : list familyQuota).
Context (Hfs : ∀ f, f ∈ fs → sku_Family (fq_meta f) ∈ Tier_FamilyPriority tier ∧
                 tierSKU tier (sku_Family (fq_meta f)) skuIndex = Some (fq_meta f))
  (Hone : NoDup ((λ f, sku_Family (fq_meta f)) <$> fs)).

Definition grantOk (g : grant) : Prop :=
  1 <= g_nodes g <= Tier_MaxNodes tier ∧
  ∃ f, fs !! g_family g = Some f ∧ offers f (g_zone g) = true.

Lemma grantPool_some g f :
  fs !! g_family g = Some f →
  grantPool tier fs g = Some (newPool tier (fq_meta f) (g_zone g) [g_zone g] (g_nodes g)).
Proof. intros E. unfold grantPool. by rewrite E. Qed.

Lemma grants_nodesIn gs z :
  Forall grantOk gs → nodesIn (omap (grantPool tier fs) gs) z = toZone gs z.
Proof.
  unfold nodesIn, toZone.
  induction 1 as [|g gs [Hn (f & Hf & _)] _ IH]; [done|]. csimpl.
  rewrite (grantPool_some _ _ Hf), !filter_cons. simpl.
  destruct (decide (g_zone g = z)) as [->|Hne].
  - rewrite decide_True by done. rewrite !fmap_cons, !Zsum_cons, IH.
    by rewrite newPool_MaxCount by lia.
  - rewrite decide_False; [done|]. congruence.
Qed.

Lemma grants_spent gs i fi :
  Forall grantOk gs → fs !! i = Some fi →
  spent (omap (grantPool tier fs) gs) (sku_Family (fq_meta fi)) =
  fromFamily gs i * Tier_Cores tier.
Proof.
  intros Hok Hi. unfold fromFamily.
  induction Hok as [|g gs [Hn (f & Hf & _)] _ IH]; [done|]. csimpl.
  rewrite (grantPool_some _ _ Hf), spent_cons, filter_cons, IH.
  unfold poolFamily, poolVCPUs. rewrite newPool_MaxCount by lia. simpl.
  destruct (Hfs f) as [_ (_ & -> & _)%tierSKU_spec]; [by eapply list_elem_of_lookup_2|].
  destruct (decide (sku_Family (fq_meta f) = sku_Family (fq_meta fi))) as [He|He].
  - rewrite decide_True; [rewrite fmap_cons, Zsum_cons; lia|].
    eapply (NoDup_lookup _ _ _ (sku_Family (fq_meta fi)) Hone);
      rewrite list_lookup_fmap; [rewrite Hf|rewrite Hi]; simpl; congruence.
  - rewrite decide_False; [lia|]. intros Heq. rewrite Heq in Hf. congruence.
Qed.

Lemma grants_madeFor gs : Forall grantOk gs → Forall madeFor (omap (grantPool tier fs) gs).
Proof.
  intros Hok. apply Forall_forall. intros p (g & Hg & Hp)%list_elem_of_omap.
  rewrite Forall_forall in Hok. destruct (Hok g Hg) as [Hn (f & Hf & _)].
  rewrite (grantPool_some _ _ Hf) in Hp. simplify_eq.
  destruct (Hfs f) as [? ?]; [by eapply list_elem_of_lookup_2|].
  by exists (fq_meta f), (g_zone g), [g_zone g], (g_nodes g).
Qed.
End grants.

(** The sizes below which the sums of the allocation fit [int64]. *)
Context (Hbudgets : ∀ f, budgetOf budgets f <= maxInt32)
  (Hflen : Z.of_nat (length (Tier_FamilyPriority tier)) <= maxInt32).

Lemma familiesWithQuota_bounds families :
  families = Tier_FamilyPriority tier →
  let fs := familiesWithQuota tier budgets skuIndex families in
  quotaNonneg fs ∧ Zsum (fq_quotaNodes <$> fs) <= maxInt64.
Proof.
  intros -> fs.
  assert (Hq : ∀ f, f ∈ fs → 0 <= fq_quotaNodes f <= maxInt32).
  { intros f (_ & _ & H1 & H2)%elem_of_familiesWithQuota.
    specialize (Hbudgets (sku_Family (fq_meta f))). nia. }
  split; [intros f Hf; apply Hq; done|].
  etransitivity; [apply (Zsum_map_le _ (λ _, maxInt32)); intros f Hf; by apply Hq|].
  rewrite Zsum_const.
  assert (Z.of_nat (length fs) <= Z.of_nat (length (Tier_FamilyPriority tier))).
  { apply inj_le. rewrite <- (length_fmap (λ f, sku_Family (fq_meta f)) fs).
    apply sublist_length, familiesWithQuota_sublist. }
  unfold maxInt32, maxInt64 in *. nia.
Qed.

(** What a per-zone tier allocates, in terms of the chosen zones and count. *)
Record perZonePools (tierZones : list string) (n : Z) (pools : list Pool) : Prop := {
  pz_nodes : ∀ z, z ∈ tierZones → nodesIn pools z = n;
  pz_zone : ∀ p, p ∈ pools → ∃ z meta, Pool_AvailabilityZones p = [z] ∧ z ∈ tierZones ∧
    tierSKU tier (poolFamily p) skuIndex = Some meta ∧ zoneOffered meta z = true;
  pz_made : Forall madeFor pools;
  pz_spent : ∀ f, spent pools f <= Z.max 0 (budgetOf budgets f);
}.

Lemma granted_le fs need gs fs' need' g :
  granted fs need gs fs' need' → fillBounds fs' need' → g ∈ gs →
  g_nodes g <= needAt need (g_zone g).
Proof.
  intros G B Hg. pose proof (gr_need _ _ _ _ _ G (g_zone g)) as Hn.
  pose proof (fb_need _ _ B (g_zone g)).
  assert (g_nodes g <= toZone gs (g_zone g)); [|lia]. unfold toZone.
  apply (Zsum_elem_le g_nodes); [|by apply list_elem_of_filter].
  intros y [_ Hy]%list_elem_of_filter. apply (gr_each _ _ _ _ _ G) in Hy as [? _]. lia.
Qed.

Lemma fillZonesLoop_pools tierZones n :
  let fs := familiesWithQuota tier budgets skuIndex (Tier_FamilyPriority tier) in
  NoDup tierZones → 0 <= n <= Tier_MaxNodes tier →
  Z.of_nat (length tierZones) <= maxInt32 → canFill fs (sameNeed tierZones n) = true →
  let gs := (fillZonesLoop tierZones fs (sameNeed tierZones n)).2 in
  perZonePools tierZones n (omap (grantPool tier fs) gs).
Proof.
  intros fs Hnd Hn Hlen Hc gs.
  destruct (fillZonesLoop tierZones fs (sameNeed tierZones n)) as [[fs' need'] gs'] eqn:E.
  simpl in gs. subst gs.
  destruct (familiesWithQuota_bounds _ eq_refl) as [Hq Hqs]. fold fs in Hq, Hqs.
  assert (Hb : fillBounds fs (sameNeed tierZones n)).
  { apply sameNeed_bounds; try done; [lia|]. unfold maxInt32, maxInt64 in *. nia. }
  destruct (fillZonesLoop_spec tierZones fs _ fs' need' gs' Hb) as (G & B & Hz & Hg);
    [intros z; by rewrite elem_of_dom_sameNeed|done|done|].
  rewrite Forall_forall in Hg.
  assert (Hfs : ∀ f, f ∈ fs → sku_Family (fq_meta f) ∈ Tier_FamilyPriority tier ∧
            tierSKU tier (sku_Family (fq_meta f)) skuIndex = Some (fq_meta f)).
  { intros f (? & ? & _)%elem_of_familiesWithQuota. done. }
  assert (Hok : Forall (grantOk fs) gs').
  { apply Forall_forall. intros g Hin. pose proof (granted_le _ _ _ _ _ _ G B Hin) as Hle.
    rewrite needAt_sameNeed in Hle by (by apply Hg).
    destruct (gr_each _ _ _ _ _ G g Hin) as [? ?]. split; [lia|done]. }
  split.
  - intros z Hin. rewrite grants_nodesIn by done.
    pose proof (gr_need _ _ _ _ _ G z) as Hn'. rewrite Hz, needAt_sameNeed in Hn' by done. lia.
  - intros p (g & Hin & Hp)%list_elem_of_omap.
    destruct (gr_each _ _ _ _ _ G g Hin) as [_ (f & Hf & Hoff)].
    rewrite (grantPool_some _ _ _ Hf) in Hp. simplify_eq. exists (g_zone g), (fq_meta f).
    split_and!; try done; [by apply Hg|]. apply Hfs. by eapply list_elem_of_lookup_2.
  - by apply grants_madeFor.
  - intros f. destruct (decide (f ∈ (λ f, sku_Family (fq_meta f)) <$> fs)) as [Hf|Hf].
    + apply list_elem_of_fmap in Hf as (fi & -> & Hfi).
      pose proof Hfi as (_ & _ & _ & Hle)%elem_of_familiesWithQuota.
      apply list_elem_of_lookup in Hfi as [i Hi].
      rewrite (grants_spent _ Hfs) with (i := i); [|..|done]; [|..|done].
      * pose proof (gr_fams _ _ _ _ _ G i) as Hi'. rewrite Hi in Hi'. simpl in Hi'.
        pose proof (fb_quota _ _ B _ (list_elem_of_lookup_2 _ _ _ Hi')) as Hnn.
        simpl in Hnn. nia.
      * eapply sublist_NoDup; [exact Hfams|]. apply familiesWithQuota_sublist.
    + rewrite spent_absent; [lia|]. intros p (g & Hin & Hp)%list_elem_of_omap Heq.
      destruct (gr_each _ _ _ _ _ G g Hin) as [_ (f' & Hf' & _)].
      rewrite (grantPool_some _ _ _ Hf') in Hp. simplify_eq. apply Hf.
      apply (list_elem_of_fmap_2 (λ f, sku_Family (fq_meta f))).
      by eapply list_elem_of_lookup_2.
Qed.
End tier.

(** The facts about a tier and its budgets that the allocation theorems use: an
    index as [BuildEligibleSKUIndex] makes it, a validated tier, and sizes for
    which the 64-bit sums are exact. *)
Record tierInputs (tier : TierConfig) (budgets : gmap VMFamily Z)
    (skuIndex : EligibleSKUIndex) : Prop := {
  ti_index : index_ok skuIndex;
  ti_tier : tier_ok tier;
  ti_nodes : 0 <= Tier_MaxNodes tier <= maxInt32;
  ti_budgets : ∀ f, budgetOf budgets f <= maxInt32;
  ti_flen : Z.of_nat (length (Tier_FamilyPriority tier)) <= maxInt32;
}.

Lemma tierInputs_cores tier budgets skuIndex :
  tierInputs tier budgets skuIndex → 0 < Tier_Cores tier.
Proof. intros [_ Ht _ _ _]. pose proof (tier_cores_ok _ Ht). lia. Qed.

Lemma allocatePerZoneTier_pools tier zones required budgets skuIndex :
  tierInputs tier budgets skuIndex → Tier_PoolMode tier = PoolModePerZone →
  NoDup zones → NoDup required →
  Z.of_nat (length zones) <= maxInt32 → Z.of_nat (length required) <= maxInt32 →
  let '(tierZones, n) :=
    bestZones (familiesWithQuota tier budgets skuIndex (Tier_FamilyPriority tier))
      zones required (Z.min (Tier_PoolCount tier) (Z.of_nat (length zones)))
      (Tier_MaxNodes tier) in
  let '(pools, full) := allocatePerZoneTier tier zones required budgets skuIndex in
  0 <= n <= Tier_MaxNodes tier ∧
  perZonePools tier skuIndex budgets tierZones n pools ∧
  (full = true ↔ pools ≠ [] ∧ n = Tier_MaxNodes tier).
Proof.
  intros Hin Hmode Hz Hr Hzl Hrl. pose proof (tierInputs_cores _ _ _ Hin) as Hcores.
  destruct Hin as [Hix Ht Hn Hb Hfl]. unfold allocatePerZoneTier.
  assert (familyAllocationOrder tier zones skuIndex = Tier_FamilyPriority tier) as ->.
  { unfold familyAllocationOrder. by rewrite Hmode. }
  set (fs := familiesWithQuota tier budgets skuIndex (Tier_FamilyPriority tier)).
  set (zc := Z.min _ _).
  assert (Hzc : 0 <= zc <= Z.of_nat (length zones)).
  { pose proof (tier_count_ok _ Ht) as Hc. rewrite Hmode in Hc. lia. }
  pose proof (bestZones_facts fs zones required zc (Tier_MaxNodes tier) Hz Hr Hzc) as Hbest.
  destruct (bestZones _ _ _ _ _) as [tierZones n]. destruct Hbest as (Hnd & Hlen & ->).
  set (n := maxNodesPerZone _ _ _).
  assert (Hn' : 0 <= n <= Tier_MaxNodes tier).
  { destruct (maxNodesLoop_spec fs tierZones (Z.to_nat (Tier_MaxNodes tier))) as (? & _).
    unfold n, maxNodesPerZone. lia. }
  destruct (familiesWithQuota_bounds tier skuIndex budgets Hix Hcores Hb Hfl _ eq_refl)
    as [Hq Hqs]. fold fs in Hq, Hqs.
  pose proof (fillZonesLoop_pools tier skuIndex budgets Hix Hcores Hn (tier_families_ok _ Ht)
    Hb Hfl tierZones n Hnd Hn' ltac:(lia) (canFill_maxNodesPerZone _ _ _ Hq Hqs Hnd)) as Hp.
  fold fs in Hp.
  destruct ((zc =? 0) && bool_decide (required = [])) eqn:E.
  - apply andb_true_iff in E as [E1 ->%bool_decide_eq_true]. bool_reflect.
    destruct tierZones; [|simpl in Hlen; lia]. split; [done|]. split; [done|]. naive_solver.
  - destruct (fillZonesLoop _ _ _) as [[fs' need'] gs]. split; [done|]. split; [done|].
    rewrite !andb_true_iff, negb_true_iff, bool_decide_eq_false, Z.eqb_eq, Z.leb_le.
    split; [tauto|]. intros [? ?]. split; [done|]. lia.
Qed.

(** That every zone of a choice can have [n] nodes at once: an assignment of the
    families' nodes to the zones, within every family's quota. *)
Definition servesAll (fs : list familyQuota) (zs : list string) (n : Z) : Prop :=
  ∃ x, assignment fs (sortedZones (sameNeed zs n)) (needAt (sameNeed zs n)) x.

(** A choice of zones that a tier may take: all required zones and as many others as it
    takes to span [zoneCount] of them. *)
Record zoneChoice (zones required : list string) (zoneCount : Z) (zs : list string) : Prop := {
  zc_required : ∀ z, z ∈ required → z ∈ zs;
  zc_from : ∀ z, z ∈ zs → z ∈ required ∨ z ∈ zones;
  zc_NoDup : NoDup zs;
  zc_length : Z.of_nat (length zs) = Z.max zoneCount (Z.of_nat (length required));
}.

Lemma sameNeed_perm zs zs' n : zs ≡ₚ zs' → sameNeed zs n = sameNeed zs' n.
Proof.
  intros Hp. apply map_eq. intros z. rewrite !sameNeed_lookup.
  apply decide_ext. by rewrite Hp.
Qed.

(** Every choice is, up to the order of its zones, one that [bestZones] tries. *)
Lemma zoneChoice_candidate zones required zoneCount zs :
  NoDup zones → NoDup required → zoneChoice zones required zoneCount zs →
  ∃ extra, extra `sublist_of` base.filter (λ z, z ∉ required) zones ∧
    length extra = extraCount required zoneCount ∧ candidateZones zones required extra ≡ₚ zs.
Proof.
  intros Hz Hr [Hreq Hfrom Hnd Hlen].
  set (extra := base.filter (λ z, z ∈ zs) (base.filter (λ z, z ∉ required) zones)).
  assert (Hs : extra `sublist_of` base.filter (λ z, z ∉ required) zones)
    by (unfold extra; apply sublist_filter).
  assert (Hp : candidateZones zones required extra ≡ₚ zs).
  { apply NoDup_Permutation; [by apply candidateZones_NoDup|done|]. intros z.
    unfold candidateZones. rewrite elem_of_sort_by, elem_of_app. unfold extra.
    rewrite !list_elem_of_filter. destruct (decide (z ∈ required)); naive_solver. }
  exists extra. split_and!; [done| |done]. pose proof (Permutation_length Hp) as Hl.
  unfold candidateZones in Hl. rewrite length_sort_by, length_app in Hl. unfold extraCount. lia.
Qed.

Lemma zoneChoice_all zones zs : zoneChoice zones [] (Z.of_nat (length zones)) zs → zs ≡ₚ zones.
Proof.
  intros [_ Hfrom Hnd Hlen]. apply submseteq_length_Permutation.
  - apply NoDup_submseteq; [done|]. intros z Hz. by destruct (Hfrom z Hz) as [?%elem_of_nil|].
  - simpl in Hlen. lia.
Qed.

(** What [bestZones] chooses, without [bestZones]: no choice of zones serves more nodes in
    each of them. *)
Lemma bestZones_optimal fs zones required zoneCount maxNodes :
  quotaNonneg fs → Zsum (fq_quotaNodes <$> fs) <= maxInt64 → 0 <= maxNodes <= maxInt32 →
  NoDup zones → NoDup required → 0 <= zoneCount <= Z.of_nat (length zones) →
  Z.of_nat (length zones) <= maxInt32 → Z.of_nat (length required) <= maxInt32 →
  let '(tierZones, n) := bestZones fs zones required zoneCount maxNodes in
  zoneChoice zones required zoneCount tierZones ∧ servesAll fs tierZones n ∧
  ∀ zs m, zoneChoice zones required zoneCount zs → 0 <= m <= maxNodes → servesAll fs zs m → m <= n.
Proof.
  intros Hq Hqs Hmax Hz Hr Hc Hzl Hrl.
  pose proof (bestZones_best fs zones required zoneCount maxNodes Hz Hr Hc) as H.
  destruct (bestZones _ _ _ _ _) as [tierZones n]. destruct H as (H1 & H2 & H3 & H4 & -> & H6).
  assert (Hfit : ∀ zs : list string, Z.of_nat (length zs) = Z.max zoneCount (Z.of_nat (length required)) →
    Z.of_nat (length zs) * maxNodes <= maxInt64).
  { intros zs E. rewrite E. unfold maxInt32, maxInt64 in *. nia. }
  split; [by split|]. split.
  - apply (maxNodesPerZone_largest fs tierZones maxNodes); [done..|lia|by apply Hfit].
  - intros zs m Hzs Hm Hserves.
    destruct (zoneChoice_candidate _ _ _ _ Hz Hr Hzs) as (extra & Hs & Hl & Hp).
    etrans; [|by apply (H6 extra)].
    set (cz := candidateZones zones required extra) in *.
    destruct (maxNodesPerZone_largest fs cz maxNodes) as (_ & _ & Hlargest); try done.
    { by apply candidateZones_NoDup. }
    { lia. }
    { apply Hfit. rewrite (Permutation_length Hp). apply Hzs. }
    destruct (decide (m <= maxNodesPerZone fs cz maxNodes)); [done|]. destruct (Hlargest m); [lia|].
    by rewrite (sameNeed_perm _ _ m Hp).
Qed.

(** (C4) A per-zone tier takes a choice of zones (all required ones, and others up to its
    pool count) and gives each zone exactly the same number of nodes, the largest number
    that any choice of zones can be served with: a choice that serves more than that, up
    to [MaxNodes], does not exist.  Every pool is placed in a zone of the choice that its
    SKU is offered in; no family is spent beyond its budget; and the tier counts as fully
    allocated exactly when it has pools and every zone got [MaxNodes]. *)
Theorem allocatePerZoneTier_balanced (tier : TierConfig) (zones required : list string)
    (budgets : gmap VMFamily Z) (skuIndex : EligibleSKUIndex)
    (Hin : tierInputs tier budgets skuIndex) (Hmode : Tier_PoolMode tier = PoolModePerZone)
    (Hz : NoDup zones) (Hr : NoDup required)
    (Hzl : Z.of_nat (length zones) <= maxInt32) (Hrl : Z.of_nat (length required) <= maxInt32) :
  let fs := familiesWithQuota tier budgets skuIndex (Tier_FamilyPriority tier) in
  let choice := zoneChoice zones required (Z.min (Tier_PoolCount tier) (Z.of_nat (length zones))) in
  let '(pools, full) := allocatePerZoneTier tier zones required budgets skuIndex in
  ∃ tierZones n,
  choice tierZones ∧ 0 <= n <= Tier_MaxNodes tier ∧ servesAll fs tierZones n ∧
  (∀ zs m, choice zs → 0 <= m <= Tier_MaxNodes tier → servesAll fs zs m → m <= n) ∧
  (∀ z, z ∈ tierZones → nodesIn pools z = n) ∧
  (∀ p, p ∈ pools → ∃ z meta, Pool_AvailabilityZones p = [z] ∧ z ∈ tierZones ∧
     tierSKU tier (poolFamily p) skuIndex = Some meta ∧ zoneOffered meta z = true) ∧
  (∀ f, spent pools f <= Z.max 0 (budgetOf budgets f)) ∧
  (full = true ↔ pools ≠ [] ∧ n = Tier_MaxNodes tier).
Proof.
  intros fs choice.
  pose proof (allocatePerZoneTier_pools tier zones required budgets skuIndex
    Hin Hmode Hz Hr Hzl Hrl) as H.
  pose proof (tierInputs_cores _ _ _ Hin) as Hcores. destruct Hin as [Hix Ht Hn Hb Hfl].
  destruct (familiesWithQuota_bounds tier skuIndex budgets Hix Hcores Hb Hfl _ eq_refl) as [Hq Hqs].
  assert (Hzc : 0 <= Z.min (Tier_PoolCount tier) (Z.of_nat (length zones)) <= Z.of_nat (length zones)).
  { pose proof (tier_count_ok _ Ht) as Hc. rewrite Hmode in Hc. lia. }
  pose proof (bestZones_optimal _ zones required _ (Tier_MaxNodes tier) Hq Hqs Hn Hz Hr Hzc Hzl Hrl) as Ho.
  destruct (bestZones _ _ _ _ _) as [tierZones n].
  destruct (allocatePerZoneTier _ _ _ _ _) as [pools full].
  destruct H as (H1 & [] & H3), Ho as (Ho1 & Ho2 & Ho3). by exists tierZones, n.
Qed.

Lemma ProductionLike_inputs tier :
  tier ∈ ProductionLike.tiers →
  tierInputs tier {[ProductionLike.family := 400]} (BuildEligibleSKUIndex ProductionLike.skus).
Proof.
  intros Ht. assert (Hok : Forall tier_ok ProductionLike.tiers).
  { apply (validateTiers_None 0 ∅). vm_compute. reflexivity. }
  rewrite Forall_forall in Hok. split.
  - apply BuildEligibleSKUIndex_ok.
  - by apply Hok.
  - repeat (apply elem_of_cons in Ht as [->|Ht]; [by vm_compute|]). by apply elem_of_nil in Ht.
  - intros f. unfold budgetOf. destruct (decide (f = ProductionLike.family)) as [->|].
    + rewrite lookup_singleton_eq. by vm_compute.
    + rewrite lookup_singleton_ne by done. by vm_compute.
  - repeat (apply elem_of_cons in Ht as [->|Ht]; [by vm_compute|]). by apply elem_of_nil in Ht.
Qed.

(** Quota for 400 cores is twelve nodes of 32 cores: three zones of four nodes each, and no
    choice of three zones gets more. *)
Lemma allocatePerZoneTier_balanced_witness :
  let tier := ProductionLike.tierOf "wrk32" WorkerPools PoolModePerZone 3 32 8 512 225 in
  let budgets := {[ProductionLike.family := 400]} in
  let index := BuildEligibleSKUIndex ProductionLike.skus in
  let pools := (allocatePerZoneTier tier ["1"; "2"; "3"] [] budgets index).1 in
  length pools = 3%nat ∧ nodesIn pools "2" = 4 ∧
  ∀ zs m, zoneChoice ["1"; "2"; "3"] [] 3 zs → 0 <= m <= 8 →
    servesAll (familiesWithQuota tier budgets index [ProductionLike.family]) zs m → m <= 4.
Proof.
  intros tier budgets index pools. split; [vm_compute; reflexivity|].
  assert (E : nodesIn pools "2" = 4) by (vm_compute; reflexivity). split; [exact E|].
  pose proof (allocatePerZoneTier_balanced tier ["1"; "2"; "3"] []
    {[ProductionLike.family := 400]} (BuildEligibleSKUIndex ProductionLike.skus)
    ltac:(apply ProductionLike_inputs; do 3 right; left) eq_refl
    ltac:(apply (bool_decide_unpack _); vm_compute; exact I) ltac:(constructor)
    ltac:(vm_compute; discriminate) ltac:(vm_compute; discriminate)) as H.
  cbv zeta in H. fold budgets index in H.
  subst pools. destruct (allocatePerZoneTier _ _ _ _ _) as [pools full]. simpl in E.
  destruct H as (tierZones & n & Hc & _ & _ & Hbest & Hnodes & _).
  assert (Hz : "2" ∈ tierZones).
  { rewrite (zoneChoice_all _ _ Hc). right. left. }
  rewrite (Hnodes _ Hz) in E. subst n. exact Hbest.
Defined.

(** ** Regional tiers *)

Lemma familyAllocationOrder_perm tier zones skuIndex :
  familyAllocationOrder tier zones skuIndex ≡ₚ Tier_FamilyPriority tier.
Proof. unfold familyAllocationOrder. destruct (negb _); [done|]. apply sort_by_perm. Qed.

Lemma allocateRegionalTier_pools tier zones budgets skuIndex :
  tierInputs tier budgets skuIndex →
  let '(pools, full) := allocateRegionalTier tier zones budgets skuIndex in
  regionalPools tier skuIndex budgets (familyAllocationOrder tier zones skuIndex) 0 pools ∧
  (full = true ↔ pools ≠ [] ∧ Zsum (Pool_MaxCount <$> pools) = Tier_MaxNodes tier).
Proof.
  intros Hin. pose proof (tierInputs_cores _ _ _ Hin) as Hcores.
  destruct Hin as [Hix Ht Hn Hb Hfl]. unfold allocateRegionalTier.
  pose proof (familyAllocationOrder_perm tier zones skuIndex) as Hperm.
  destruct (regionalLoop_spec tier skuIndex budgets Hix Hcores Hn (tier_families_ok _ Ht)
    (familyAllocationOrder tier zones skuIndex) [] 0) as (new & Hnew & ->).
  - intros f. by rewrite Hperm.
  - rewrite Hperm. apply Ht.
  - lia.
  - split; [done|]. rewrite andb_true_iff, negb_true_iff, bool_decide_eq_false, Z.eqb_eq. done.
Qed.

(** A regional tier allocates as many nodes as it can: the smaller of
    [MaxNodes] and what the budgets of all its families pay for, in at most one
    zoneless pool per family, within each budget, and it counts as fully
    allocated exactly when it has pools with [MaxNodes] nodes in all. *)
Theorem allocateRegionalTier_exact (tier : TierConfig) (zones : list string)
    (budgets : gmap VMFamily Z) (skuIndex : EligibleSKUIndex)
    (Hin : tierInputs tier budgets skuIndex) :
  let '(pools, full) := allocateRegionalTier tier zones budgets skuIndex in
  let total := Zsum (Pool_MaxCount <$> pools) in
  total = Z.min (Tier_MaxNodes tier)
            (Zsum (quotaNodesOf tier skuIndex budgets <$> Tier_FamilyPriority tier)) ∧
  NoDup (poolFamily <$> pools) ∧
  (∀ p, p ∈ pools → Pool_AvailabilityZones p = []) ∧
  (∀ f, spent pools f <= Z.max 0 (budgetOf budgets f)) ∧
  (full = true ↔ pools ≠ [] ∧ total = Tier_MaxNodes tier).
Proof.
  pose proof (allocateRegionalTier_pools tier zones budgets skuIndex Hin) as H.
  pose proof (familyAllocationOrder_perm tier zones skuIndex) as Hperm.
  destruct (allocateRegionalTier _ _ _ _) as [pools full].
  destruct H as ([H1 H2 H3 H4 H5] & H6). rewrite Forall_forall in H4. split_and!; try done.
  - rewrite <- (Zsum_perm_map _ _ _ Hperm). lia.
  - eapply sublist_NoDup; [|exact H3]. rewrite Hperm. apply Hin.
Qed.

Lemma allocateRegionalTier_exact_witness :
  let tier := ProductionLike.tierOf "sys" ProductionLike.system PoolModeRegional 1 8 3 128 100 in
  let pools := (allocateRegionalTier tier ["1"; "2"; "3"] {[ProductionLike.family := 400]}
                  (BuildEligibleSKUIndex ProductionLike.skus)).1 in
  Zsum (Pool_MaxCount <$> pools) = 3.
Proof.
  intros tier pools.
  pose proof (allocateRegionalTier_exact tier ["1"; "2"; "3"] {[ProductionLike.family := 400]}
    (BuildEligibleSKUIndex ProductionLike.skus)
    ltac:(apply ProductionLike_inputs; left)) as H.
  subst pools. destruct (allocateRegionalTier _ _ _ _) as [pools full]. destruct H as [H _].
  simpl. rewrite H. vm_compute. reflexivity.
Defined.

(** ** All tiers together *)

Lemma requiredZonesOf_ok tier existingZones :
  NoDup (requiredZonesOf tier existingZones) ∧
  (length (requiredZonesOf tier existingZones) ≤
   length (default [] (existingZones !! Class_Role (Tier_Class tier))))%nat.
Proof.
  unfold requiredZonesOf. destruct (bool_decide _); [|split; [constructor|simpl; lia]].
  set (l := default [] _). clearbody l.
  assert (Hgen : ∀ acc, NoDup acc →
    let r := fold_left (λ req zone,
        if negb (String.eqb zone "") && negb (bool_decide (zone ∈ req))
        then req ++ [zone] else req) l acc in
    NoDup r ∧ (length r ≤ length acc + length l)%nat); [|apply (Hgen [] (NoDup_nil_2))].
  induction l as [|z l IH]; intros acc Hacc; cbn [fold_left].
  { split; [done|simpl; lia]. }
  destruct (_ && _) eqn:E.
  - bool_reflect. destruct (IH (acc ++ [z])) as [? Hlen].
    { apply NoDup_app. split_and!; [done| |apply NoDup_singleton].
      intros x Hx ->%list_elem_of_singleton. done. }
    split; [done|]. rewrite length_app in Hlen. simpl in *. lia.
  - destruct (IH acc Hacc) as [? Hlen]. split; [done|]. simpl. lia.
Qed.

Lemma allocateTier_pools tier zones required budgets skuIndex :
  tierInputs tier budgets skuIndex → NoDup zones → NoDup required →
  Z.of_nat (length zones) <= maxInt32 → Z.of_nat (length required) <= maxInt32 →
  let pools := (allocateTier tier zones required budgets skuIndex).1 in
  Forall (madeFor tier skuIndex) pools ∧
  ∀ f, spent pools f <= Z.max 0 (budgetOf budgets f).
Proof.
  intros Hin Hz Hr Hzl Hrl. unfold allocateTier. destruct (Tier_PoolMode tier) eqn:Hmode.
  - pose proof (allocatePerZoneTier_pools _ zones required _ _ Hin Hmode Hz Hr Hzl Hrl) as H.
    destruct (bestZones _ _ _ _ _), (allocatePerZoneTier _ _ _ _ _). by destruct H as (_ & [] & _).
  - pose proof (allocateRegionalTier_pools _ zones _ _ Hin) as H.
    destruct (allocateRegionalTier _ _ _ _). by destruct H as ([] & _).
  - split; [by constructor|]. intros f. rewrite spent_nil. lia.
Qed.

(** The surge reservation: the largest core count of the tiers using a family. *)
Definition surgeOf (tiers : list TierConfig) (family : VMFamily) : Z :=
  default 0 (maxCoresPerFamily tiers !! family).

Lemma surge_families cores families (m : gmap VMFamily Z) f :
  default 0 (fold_left (λ result family,
      if default 0 (result !! family) <? cores then <[family := cores]> result else result)
    families m !! f) =
  if decide (f ∈ families) then Z.max (default 0 (m !! f)) cores else default 0 (m !! f).
Proof.
  revert m. induction families as [|g families IH]; intros m; cbn [fold_left].
  { by rewrite decide_False by apply not_elem_of_nil. }
  rewrite IH. clear IH. destruct (decide (g = f)) as [->|Hne].
  - rewrite (decide_True (P := f ∈ f :: families)) by left.
    destruct (_ <? cores) eqn:E; bool_reflect; rewrite ?lookup_insert_eq; simpl;
      destruct (decide (f ∈ families)); lia.
  - assert (∀ x, <[g := cores]> m !! f = x ↔ m !! f = x) as Hins
      by (intros x; by rewrite lookup_insert_ne by done).
    assert ((if default 0 (m !! g) <? cores then <[g:=cores]> m else m) !! f = m !! f) as ->.
    { destruct (_ <? cores); [by apply Hins|done]. }
    destruct (decide (f ∈ families)); [rewrite decide_True by (by right)|
      rewrite decide_False by set_solver]; done.
Qed.

Lemma surgeOf_snoc before tier f :
  surgeOf (before ++ [tier]) f =
  if decide (f ∈ Tier_FamilyPriority tier) then Z.max (surgeOf before f) (Tier_Cores tier)
  else surgeOf before f.
Proof.
  unfold surgeOf, maxCoresPerFamily. rewrite fold_left_app. cbn [fold_left].
  apply surge_families.
Qed.

Lemma surgeOf_bounds before f :
  Forall (λ t, Tier_Cores t <= maxInt64) before → 0 <= surgeOf before f <= maxInt64.
Proof.
  induction before as [|tier before IH] using rev_ind.
  - intros _. vm_compute. done.
  - rewrite Forall_app, Forall_singleton, surgeOf_snoc. intros [H1 H2].
    specialize (IH H1). destruct (decide _); lia.
Qed.

Lemma fold_consume pools c f :
  in64 (default 0 (c !! f)) →
  default 0 (fold_left consume pools c !! f) = wrap64 (default 0 (c !! f) + spent pools f).
Proof.
  revert c. induction pools as [|p pools IH]; intros c Hc; cbn [fold_left].
  { rewrite spent_nil, Z.add_0_r. by rewrite wrap64_id. }
  unfold consume at 2. rewrite spent_cons. unfold poolFamily, poolVCPUs.
  destruct (decide (spec_Family (Pool_Spec p) = f)) as [->|Hne].
  - rewrite IH; rewrite lookup_insert_eq; simpl; [|apply wrap64_in64].
    autorewrite with wrap. f_equal. lia.
  - rewrite IH; rewrite lookup_insert_ne by done; done.
Qed.

Lemma budgetOf_available limits consumed surge f :
  budgetOf (availableBudgets limits consumed surge) f =
  match limits !! f with
  | Some l => (l -! default 0 (consumed !! f)) -! default 0 (surge !! f)
  | None => 0
  end.
Proof. unfold budgetOf, availableBudgets. rewrite map_lookup_imap. by destruct (limits !! f). Qed.

(** What [ComputeDesiredPools] is given: a SKU index, validated tiers, distinct
    zones, and non-negative limits of a size whose sums fit [int64]. *)
Record allocationInputs (tiers : list TierConfig) (zones : list string)
    (existingZones : gmap PoolRole (list string)) (limits : gmap VMFamily Z)
    (skuIndex : EligibleSKUIndex) : Prop := {
  ai_index : index_ok skuIndex;
  ai_tiers : Forall (λ t, tier_ok t ∧ 0 <= Tier_MaxNodes t <= maxInt32 ∧
      Tier_Cores t <= maxInt64 ∧
      Z.of_nat (length (Tier_FamilyPriority t)) <= maxInt32) tiers;
  ai_zones : NoDup zones ∧ Z.of_nat (length zones) <= maxInt32;
  ai_existing : ∀ role l, existingZones !! role = Some l → Z.of_nat (length l) <= maxInt32;
  ai_limits : ∀ f l, limits !! f = Some l → 0 <= l <= maxInt32;
}.

Definition limitOf (limits : gmap VMFamily Z) (f : VMFamily) : Z := default 0 (limits !! f).

(** The loop invariant after the tiers [before]. *)
Record allocInv (limits : gmap VMFamily Z) (skuIndex : EligibleSKUIndex)
    (before : list TierConfig) (st : allocState) : Prop := {
  inv_made : ∀ p, p ∈ st_pools st → ∃ t, t ∈ before ∧ madeFor t skuIndex p;
  inv_consumed : ∀ f, default 0 (st_consumed st !! f) = spent (st_pools st) f;
  inv_surge : ∀ p, p ∈ st_pools st → poolVCPUs p <= surgeOf before (poolFamily p);
  inv_room : ∀ p, p ∈ st_pools st →
    spent (st_pools st) (poolFamily p) + poolVCPUs p <= limitOf limits (poolFamily p);
}.

Lemma spent_bounds tier skuIndex pools f :
  index_ok skuIndex → tier_ok tier → 0 <= Tier_MaxNodes tier <= maxInt32 →
  Forall (madeFor tier skuIndex) pools →
  0 <= spent pools f ∧ ∀ p, p ∈ pools → poolFamily p = f → 0 < spent pools f.
Proof.
  intros Hix Ht Hn Hm. pose proof (tier_cores_ok _ Ht) as Hc.
  assert (Hpos : ∀ p, p ∈ pools → 0 < Pool_MaxCount p * poolVCPUs p).
  { intros p Hp. rewrite Forall_forall in Hm.
    destruct (madeFor_spec tier skuIndex Hix Hn p (Hm p Hp)) as (_ & -> & ? & _). nia. }
  assert (Hnn : ∀ p, p ∈ base.filter (λ p, poolFamily p = f) pools →
      0 <= Pool_MaxCount p * poolVCPUs p).
  { intros p [_ Hp]%list_elem_of_filter. specialize (Hpos p Hp). lia. }
  split; [by apply Zsum_map_nonneg|]. intros p Hp Hf. specialize (Hpos p Hp).
  pose proof (Zsum_elem_le (λ p, Pool_MaxCount p * poolVCPUs p) _ p Hnn) as H.
  unfold spent. specialize (H ltac:(by apply list_elem_of_filter)). simpl in H. lia.
Qed.

Section step.
Context (tiers : list TierConfig) (zones : list string)
  (existingZones : gmap PoolRole (list string)) (limits : gmap VMFamily Z)
  (skuIndex : EligibleSKUIndex).
Context (Hin : allocationInputs tiers zones existingZones limits skuIndex).

Lemma limitOf_bounds f : 0 <= limitOf limits f <= maxInt32.
Proof.
  unfold limitOf. destruct (limits !! f) eqn:E; simpl; [by eapply ai_limits|by vm_compute].
Qed.

Lemma tiers_ok t : t ∈ tiers →
  tier_ok t ∧ 0 <= Tier_MaxNodes t <= maxInt32 ∧ Tier_Cores t <= maxInt64 ∧
  Z.of_nat (length (Tier_FamilyPriority t)) <= maxInt32.
Proof. pose proof (ai_tiers _ _ _ _ _ Hin) as H. rewrite Forall_forall in H. apply H. Qed.

Lemma made_facts t p : t ∈ tiers → madeFor t skuIndex p →
  4 <= poolVCPUs p ∧ 1 <= Pool_MinCount p <= Pool_MaxCount p ∧
  Pool_MaxCount p <= Tier_MaxNodes t.
Proof.
  intros (Hok & Hn & _)%tiers_ok Hm. pose proof (tier_cores_ok _ Hok) as Hc.
  destruct (madeFor_spec t skuIndex (ai_index _ _ _ _ _ Hin) Hn p Hm) as (_ & -> & ? & ?). lia.
Qed.

(** Without pools of a family nothing is spent on it. *)
Lemma allocInv_spent before st f :
  allocInv limits skuIndex before st → before ⊆ tiers →
  0 <= spent (st_pools st) f <= limitOf limits f.
Proof.
  intros Hinv Hsub. pose proof (limitOf_bounds f).
  assert (Hfact : ∀ p, p ∈ st_pools st → 4 <= poolVCPUs p ∧ 1 <= Pool_MaxCount p).
  { intros p Hp. destruct (inv_made _ _ _ _ Hinv p Hp) as (t & Ht & Hm).
    apply made_facts in Hm; [|by apply Hsub]. lia. }
  destruct (decide (f ∈ poolFamily <$> st_pools st)) as [Hf|Hf].
  - apply list_elem_of_fmap in Hf as (p & -> & Hp).
    pose proof (inv_room _ _ _ _ Hinv p Hp). pose proof (Hfact p Hp).
    split; [|lia]. apply Zsum_map_nonneg. intros q [_ Hq]%list_elem_of_filter.
    specialize (Hfact q Hq). nia.
  - rewrite spent_absent; [lia|]. intros p Hp Heq. apply Hf. rewrite <- Heq.
    by apply list_elem_of_fmap_2.
Qed.

(** The budget of a family in a step is exact: the limit less what earlier
    tiers took and the surge reservation. *)
Lemma available_exact before tier st f :
  allocInv limits skuIndex before st → before ++ [tier] ⊆ tiers →
  let available := availableBudgets limits (st_consumed st)
                     (maxCoresPerFamily (before ++ [tier])) in
  budgetOf available f <= maxInt32 ∧
  (0 < budgetOf available f →
   budgetOf available f =
     limitOf limits f - spent (st_pools st) f - surgeOf (before ++ [tier]) f).
Proof.
  intros Hinv Hsub available. unfold available. rewrite budgetOf_available.
  pose proof (allocInv_spent before st f Hinv ltac:(set_solver)) as Hs.
  pose proof (limitOf_bounds f) as Hl.
  pose proof (surgeOf_bounds (before ++ [tier]) f) as Hsurge.
  assert (0 <= surgeOf (before ++ [tier]) f <= maxInt64).
  { apply Hsurge, Forall_forall. intros t Ht. by apply tiers_ok, Hsub. }
  fold (surgeOf (before ++ [tier]) f). rewrite (inv_consumed _ _ _ _ Hinv).
  unfold limitOf in *. destruct (limits !! f) as [l|]; simpl in *; [|int_range].
  rewrite (wrap64_id (l - _)) by int_range. rewrite wrap64_id by int_range. int_range.
Qed.

Lemma step_inputs before tier st :
  allocInv limits skuIndex before st → before ++ [tier] ⊆ tiers →
  tierInputs tier (availableBudgets limits (st_consumed st)
                     (maxCoresPerFamily (before ++ [tier]))) skuIndex.
Proof.
  intros Hinv Hsub. destruct (tiers_ok tier ltac:(set_solver)) as (Hok & Hn & _ & Hfl).
  split; try done; [apply Hin|]. intros f. by apply available_exact.
Qed.

(** Adding a tier's pools that respect the available budgets keeps the
    invariant. *)
Lemma allocInv_pools before tier st pools failures full :
  allocInv limits skuIndex before st → before ++ [tier] ⊆ tiers →
  Forall (madeFor tier skuIndex) pools →
  (∀ f, spent pools f <= Z.max 0 (budgetOf (availableBudgets limits (st_consumed st)
                     (maxCoresPerFamily (before ++ [tier]))) f)) →
  allocInv limits skuIndex (before ++ [tier])
    {| st_consumed := fold_left consume pools (st_consumed st);
       st_pools := st_pools st ++ pools; st_failures := failures; st_full := full |}.
Proof.
  intros Hinv Hsub Hmade Hspent.
  destruct (tiers_ok tier ltac:(set_solver)) as (Hok & Hn & _).
  assert (Hsp : ∀ f, _) by exact (λ f, spent_bounds tier skuIndex pools f
    (ai_index _ _ _ _ _ Hin) Hok Hn Hmade).
  assert (Hav : ∀ f, _) by exact (λ f, available_exact before tier st f Hinv Hsub).
  assert (Hold : ∀ f, _) by exact (λ f, allocInv_spent before st f Hinv ltac:(set_solver)).
  rewrite Forall_forall in Hmade.
  assert (Hsurge : ∀ p, p ∈ st_pools st ++ pools →
      poolVCPUs p <= surgeOf (before ++ [tier]) (poolFamily p)).
  { intros p Hp. rewrite surgeOf_snoc. apply elem_of_app in Hp as [Hp|Hp].
    - pose proof (inv_surge _ _ _ _ Hinv p Hp). destruct (decide _); lia.
    - destruct (madeFor_spec tier skuIndex (ai_index _ _ _ _ _ Hin) Hn p (Hmade p Hp))
        as (Hf & -> & _). rewrite decide_True by done. lia. }
  split; cbn [st_pools st_consumed].
  - intros p [Hp|Hp]%elem_of_app.
    + destruct (inv_made _ _ _ _ Hinv p Hp) as (t & ? & ?). exists t. set_solver.
    + exists tier. split; [set_solver|by apply Hmade].
  - intros f. specialize (Hsp f). specialize (Hav f). specialize (Hold f).
    specialize (Hspent f). pose proof (limitOf_bounds f) as Hl.
    rewrite fold_consume; rewrite (inv_consumed _ _ _ _ Hinv); [|int_range].
    rewrite spent_app. apply wrap64_id. int_range.
  - done.
  - intros p Hp. specialize (Hsurge p Hp). rewrite spent_app. set (f := poolFamily p) in *.
    specialize (Hsp f) as [Hnn Hpos]. specialize (Hav f) as [_ Hav]. specialize (Hspent f).
    destruct (decide (spent pools f = 0)) as [Hz|Hz]; [|lia].
    apply elem_of_app in Hp as [Hp|Hp]; [|specialize (Hpos p Hp eq_refl); lia].
    pose proof (inv_room _ _ _ _ Hinv p Hp) as Hroom. fold f in Hroom. lia.
Qed.

Lemma allocStep_inv before tier st :
  allocInv limits skuIndex before st → before ++ [tier] ⊆ tiers →
  allocInv limits skuIndex (before ++ [tier])
    (allocStep zones existingZones limits skuIndex before tier st).
Proof.
  intros Hinv Hsub. unfold allocStep.
  set (available := availableBudgets _ _ _).
  destruct (requiredZonesOf_ok tier existingZones) as [Hr Hrl].
  assert (Hrl' : Z.of_nat (length (requiredZonesOf tier existingZones)) <= maxInt32).
  { destruct (existingZones !! Class_Role (Tier_Class tier)) eqn:E; simpl in Hrl;
      [apply (ai_existing _ _ _ _ _ Hin) in E; lia|unfold maxInt32; lia]. }
  destruct (ai_zones _ _ _ _ _ Hin) as [Hz Hzl].
  pose proof (allocateTier_pools tier zones _ available skuIndex
    (step_inputs before tier st Hinv Hsub) Hz Hr Hzl Hrl') as [Hm Hs].
  destruct (allocateTier _ _ _ _ _) as [pools full]. cbn [fst] in Hm, Hs.
  destruct (bool_decide_reflect (pools = [])) as [->|_].
  - pose proof (allocInv_pools before tier st [] (st_failures st) full Hinv Hsub) as H.
    rewrite app_nil_r in H. destruct H as [H1 H2 H3 H4]; [by constructor| |by split].
    intros f. rewrite spent_nil. lia.
  - by apply allocInv_pools.
Qed.

Lemma allocLoop_inv before rest st :
  allocInv limits skuIndex before st → before ++ rest ⊆ tiers →
  allocInv limits skuIndex (before ++ rest)
    (allocLoop zones existingZones limits skuIndex before rest st).
Proof.
  revert before st. induction rest as [|tier rest IH]; intros before st Hinv Hsub;
    cbn [allocLoop].
  - by rewrite app_nil_r.
  - rewrite (cons_middle tier before rest), app_assoc in Hsub |- *.
    apply IH; [|done]. apply allocStep_inv; [done|]. set_solver.
Qed.
End step.

Lemma ComputeDesiredPools_inv tiers zones existingZones limits skuIndex :
  allocationInputs tiers zones existingZones limits skuIndex →
  ∃ st, allocInv limits skuIndex tiers st ∧
    (ComputeDesiredPools tiers zones existingZones limits skuIndex).1.1 = st_pools st.
Proof.
  intros Hin. unfold ComputeDesiredPools. set (st := allocLoop _ _ _ _ _ _ _).
  exists st. split; [|done].
  apply (allocLoop_inv tiers zones existingZones limits skuIndex Hin [] tiers); [|done].
  split; cbn [st_pools st_consumed].
  1, 3, 4: intros p Hp; by apply elem_of_nil in Hp.
  intros f. by rewrite lookup_empty.
Qed.

(** (C1) The desired pools never ask for more quota than a family has: grown to
    their maximum, all pools of a family together, plus one upgrade surge node
    of any of those pools, stay within the family's vCPU limit. *)
Theorem ComputeDesiredPools_within_quota (tiers : list TierConfig) (zones : list string)
    (existingZones : gmap PoolRole (list string)) (limits : gmap VMFamily Z)
    (skuIndex : EligibleSKUIndex)
    (Hin : allocationInputs tiers zones existingZones limits skuIndex) :
  let '(pools, _, _) := ComputeDesiredPools tiers zones existingZones limits skuIndex in
  ∀ p, p ∈ pools →
    spent pools (poolFamily p) + poolVCPUs p <= limitOf limits (poolFamily p).
Proof.
  destruct (ComputeDesiredPools_inv _ _ _ _ _ Hin) as (st & Hinv & Heq).
  destruct (ComputeDesiredPools _ _ _ _ _) as [[pools failures] full]. simpl in Heq.
  subst pools. apply (inv_room _ _ _ _ Hinv).
Qed.

(** Every desired pool comes from a tier: one of the tier's families in its
    core count, with an ephemeral disk no smaller than the tier's minimum and,
    where the tier attaches them, a positive number of secondary NICs; and its
    autoscaler bounds satisfy [1 <= MinCount <= MaxCount <= MaxNodes]. *)
Theorem ComputeDesiredPools_from_tier (tiers : list TierConfig) (zones : list string)
    (existingZones : gmap PoolRole (list string)) (limits : gmap VMFamily Z)
    (skuIndex : EligibleSKUIndex)
    (Hin : allocationInputs tiers zones existingZones limits skuIndex) :
  let '(pools, _, _) := ComputeDesiredPools tiers zones existingZones limits skuIndex in
  ∀ p, p ∈ pools → ∃ t, t ∈ tiers ∧
    Pool_Role p = Class_Role (Tier_Class t) ∧
    poolFamily p ∈ Tier_FamilyPriority t ∧ poolVCPUs p = Tier_Cores t ∧
    Tier_MinOSDiskSizeGB t <= Pool_OSDiskSizeGB p ∧
    (Class_AttachSecondaryNICs (Tier_Class t) = true → 0 < Pool_SecondaryNICs p) ∧
    1 <= Pool_MinCount p <= Pool_MaxCount p ∧ Pool_MaxCount p <= Tier_MaxNodes t.
Proof.
  destruct (ComputeDesiredPools_inv _ _ _ _ _ Hin) as (st & Hinv & Heq).
  destruct (ComputeDesiredPools _ _ _ _ _) as [[pools failures] full]. simpl in Heq.
  subst pools. intros p Hp. destruct (inv_made _ _ _ _ Hinv p Hp) as (t & Ht & Hm).
  exists t. pose proof (made_facts _ _ _ _ _ Hin t p Ht Hm) as (_ & Hmm & Hmax).
  destruct Hm as (meta & zone & zs & n & -> & Hn & Hs & Hf).
  apply tierSKU_spec in Hs as (_ & Hv & He & Hd & Hnic); [|apply Hin].
  unfold skuEligible in He. bool_reflect.
  repeat (split; [done|]). split; [|split; [|done]]; simpl.
  - rewrite wrap32_id; [done|]. destruct (sku_EphemeralOSDiskSupported meta); simpl in *;
      bool_reflect; int_range.
  - intros Ha. rewrite Ha. auto.
Qed.

Lemma ProductionLike_allocation :
  allocationInputs ProductionLike.tiers ["1"; "2"; "3"] ∅ {[ProductionLike.family := 1000]}
    (BuildEligibleSKUIndex ProductionLike.skus).
Proof.
  split.
  - apply BuildEligibleSKUIndex_ok.
  - apply Forall_forall. intros t Ht.
    destruct (ProductionLike_inputs t Ht) as [_ Hok Hn _ Hfl]. split_and!; try done; [lia|lia|].
    repeat (apply elem_of_cons in Ht as [->|Ht]; [by vm_compute|]). by apply elem_of_nil in Ht.
  - split; [apply (bool_decide_unpack _); vm_compute; exact I|by vm_compute].
  - intros role l. by rewrite lookup_empty.
  - intros f l [<- <-]%lookup_singleton_Some. by vm_compute.
Qed.

Lemma ComputeDesiredPools_within_quota_witness :
  spent ProductionLike.result.1.1 ProductionLike.family + 32 <= 1000.
Proof.
  pose proof (ComputeDesiredPools_within_quota _ _ _ _ _ ProductionLike_allocation) as H.
  fold ProductionLike.result in H. destruct ProductionLike.result as [[pools failures] full] eqn:E.
  assert (Hl : ∃ p, last pools = Some p ∧ poolFamily p = ProductionLike.family ∧ poolVCPUs p = 32).
  { assert (pools = ProductionLike.result.1.1) as -> by (by rewrite E).
    vm_compute. eexists. split_and!; reflexivity. }
  destruct Hl as (p & Hp & Hf & Hv). specialize (H p ltac:(by apply last_Some_elem_of)).
  rewrite Hf, Hv in H. exact H.
Defined.

Lemma ComputeDesiredPools_from_tier_witness :
  (0 < length ProductionLike.result.1.1)%nat ∧
  ∀ p, p ∈ ProductionLike.result.1.1 → ∃ t, t ∈ ProductionLike.tiers ∧
    1 <= Pool_MinCount p <= Pool_MaxCount p ∧ Pool_MaxCount p <= Tier_MaxNodes t.
Proof.
  split; [apply Nat.ltb_lt; vm_compute; reflexivity|].
  pose proof (ComputeDesiredPools_from_tier _ _ _ _ _ ProductionLike_allocation) as H.
  fold ProductionLike.result in H. destruct ProductionLike.result as [[pools failures] full].
  intros p Hp. destruct (H p Hp) as (t & Ht & _ & _ & _ & _ & _ & Hm). eauto.
Defined.

(** ** Failures *)

Lemma allocateTier_full tier zones required budgets skuIndex pools :
  allocateTier tier zones required budgets skuIndex = (pools, true) → pools ≠ [].
Proof.
  unfold allocateTier, allocateRegionalTier, allocatePerZoneTier. intros H.
  destruct (Tier_PoolMode tier); [..|done].
  - destruct (_ && bool_decide (required = [])); [done|].
    destruct (bestZones _ _ _ _ _). destruct (fillZonesLoop _ _ _) as [[? ?] ?].
    injection H as <- H. bool_reflect. done.
  - destruct (regionalLoop _ _ _ _ _ _). injection H as <- H. bool_reflect. done.
Qed.

Lemma allocStep_full zones existingZones limits skuIndex before tier st :
  let st' := allocStep zones existingZones limits skuIndex before tier st in
  st_full st' = true →
  st_full st = true ∧ st_failures st' = st_failures st ∧ st_pools st' ≠ [].
Proof.
  cbv zeta. unfold allocStep. destruct (allocateTier _ _ _ _ _) as [tp tf] eqn:E.
  destruct (bool_decide_reflect (tp = [])) as [->|Hne]; simpl; intros [Hf ->]%andb_true_iff.
  - by apply allocateTier_full in E.
  - split_and!; [done|done|]. by destruct (st_pools st), tp.
Qed.

Lemma allocLoop_full zones existingZones limits skuIndex before rest st :
  let st' := allocLoop zones existingZones limits skuIndex before rest st in
  st_full st' = true →
  st_full st = true ∧ st_failures st' = st_failures st ∧
  (rest ≠ [] ∨ st_pools st ≠ [] → st_pools st' ≠ []).
Proof.
  cbv zeta. revert before st.
  induction rest as [|tier rest IH]; intros before st; cbn [allocLoop]; [naive_solver|].
  intros (H1 & -> & H3)%IH. apply allocStep_full in H1 as (H4 & -> & H6). naive_solver.
Qed.

(** The outcome is consistent: when every tier reached its target there is no
    failure, and when nothing was allocated at all there is one. *)
Theorem ComputeDesiredPools_failures (tiers : list TierConfig) (zones : list string)
    (existingZones : gmap PoolRole (list string)) (limits : gmap VMFamily Z)
    (skuIndex : EligibleSKUIndex) :
  let '(pools, failures, full) :=
    ComputeDesiredPools tiers zones existingZones limits skuIndex in
  (full = true → failures = [] ∧ pools ≠ []) ∧ (pools = [] → failures ≠ []).
Proof.
  unfold ComputeDesiredPools. set (st0 := {| st_consumed := ∅ |}).
  pose proof (allocLoop_full zones existingZones limits skuIndex [] tiers st0) as H.
  set (st := allocLoop _ _ _ _ _ _ _) in *. cbv zeta in H. split.
  - intros Hf. destruct (H Hf) as (H1 & H2 & H3). simpl in H1. bool_reflect.
    specialize (H3 (or_introl H1)). rewrite bool_decide_eq_false_2 by done. done.
  - intros E. rewrite bool_decide_eq_true_2 by done. by destruct (st_failures st).
Qed.

(** ** Pool names *)

Definition alnum (c : ascii) : bool := is_lower_alpha c || is_digit c.

(** What AKS accepts as the name of a Linux node pool. *)
Definition aksPoolName (name : string) : bool :=
  match String.list_ascii_of_string name with
  | [] => false
  | c :: rest => is_lower_alpha c && forallb alnum rest && Nat.leb (length rest) 11
  end.

Lemma be_bytes_range k z : Forall (λ b, 0 <= b < 256) (be_bytes k z).
Proof.
  induction k as [|k IH]; simpl; constructor; [|done].
  change 255 with (Z.ones 8). rewrite Z.land_ones by lia. apply Z.mod_pos_bound. lia.
Qed.

Lemma Sum256_range msg : Forall (λ b, 0 <= b < 256) (Sum256 msg).
Proof.
  unfold Sum256. set (s := sha_blocks _ _ _). clearbody s.
  apply Forall_forall. intros b (l & Hb & Hl)%list_elem_of_join.
  apply list_elem_of_fmap in Hl as (w & -> & _).
  pose proof (be_bytes_range 4 w) as H. rewrite Forall_forall in H. by apply H.
Qed.

Lemma hex_digit_alnum z : 0 <= z < 16 → alnum (hex_digit z) = true.
Proof.
  intros Hz. assert (Hn : ∃ n : nat, z = Z.of_nat n ∧ (n < 16)%nat) by (exists (Z.to_nat z); lia).
  destruct Hn as (n & -> & Hn). do 16 (destruct n as [|n]; [done|]). lia.
Qed.

Lemma EncodeToString_alnum bytes :
  Forall (λ b, 0 <= b < 256) bytes →
  forallb alnum (String.list_ascii_of_string (EncodeToString bytes)) = true.
Proof.
  unfold EncodeToString. rewrite String.list_ascii_of_string_of_list_ascii.
  induction 1 as [|b bytes Hb _ IH]; [done|]. csimpl.
  rewrite !hex_digit_alnum; [done|..].
  - change 15 with (Z.ones 4). rewrite Z.land_ones by lia. apply Z.mod_pos_bound. lia.
  - rewrite Z.shiftr_div_pow2 by lia. change (2 ^ 4) with 16.
    split; [apply Z.div_pos; lia|apply Z.div_lt_upper_bound; lia].
Qed.

Lemma list_ascii_substring n s :
  String.list_ascii_of_string (String.substring 0 n s) =
  take n (String.list_ascii_of_string s).
Proof. revert s. induction n as [|n IH]; intros [|c s]; simpl; try done. by rewrite IH. Qed.

Lemma list_ascii_app a b :
  String.list_ascii_of_string (a +:+ b)%string =
  String.list_ascii_of_string a ++ String.list_ascii_of_string b.
Proof. induction a as [|c a IH]; simpl; [done|]. by rewrite IH. Qed.

Lemma length_list_ascii s : length (String.list_ascii_of_string s) = String.length s.
Proof. induction s; simpl; congruence. Qed.

Lemma poolHash_ok msg :
  let h := String.list_ascii_of_string (String.substring 0 6 (EncodeToString (Sum256 msg))) in
  forallb alnum h = true ∧ length h = 6%nat.
Proof.
  cbv zeta. rewrite list_ascii_substring. split.
  - pose proof (EncodeToString_alnum _ (Sum256_range msg)) as H.
    rewrite forallb_forall in H |- *. intros c Hc. apply H.
    rewrite <- (take_drop 6), in_app_iff. by left.
  - rewrite length_take, length_list_ascii, length_EncodeToString,
      length_Sum256. done.
Qed.

(** For a validated tier and a single-digit zone the generated pool name is
    one AKS accepts: a lower-case letter followed by at most eleven lower-case
    letters or digits. *)
Theorem poolName_accepted (tier : TierConfig) (vmSize : string) (zone : ascii) (disk : Z)
    (Htier : tier_ok tier) (Hzone : is_digit zone = true) :
  aksPoolName (poolName tier vmSize (String zone "") disk) = true.
Proof.
  pose proof (tier_name_ok _ Htier) as Hname. unfold tierNameRegex in Hname.
  unfold aksPoolName, poolName. set (msg := bytes_of_string _).
  rewrite !list_ascii_app. destruct (poolHash_ok msg) as [Hh Hl].
  set (h := String.list_ascii_of_string (String.substring _ _ _)) in *.
  destruct (String.list_ascii_of_string (Tier_Name tier)) as [|c rest]; [done|].
  apply andb_true_iff in Hname as [[H H1]%andb_true_iff H0].
  apply Nat.leb_le in H0.
  cbn [app String.list_ascii_of_string forallb]. rewrite H, !forallb_app. unfold alnum at 1.
  rewrite H1. cbn [forallb app]. unfold alnum at 1. rewrite Hzone, orb_true_r, Hh. simpl.
  apply Nat.leb_le. rewrite length_app. simpl. lia.
Qed.

Lemma poolName_accepted_witness :
  let tier := ProductionLike.tierOf "wrk32" WorkerPools PoolModePerZone 3 32 8 512 225 in
  aksPoolName (poolName tier "Standard_E32ds_v6" "1" 1792) = true.
Proof.
  intros tier. apply (poolName_accepted tier "Standard_E32ds_v6" "1"%char 1792); [|reflexivity].
  apply (ProductionLike_inputs tier). do 3 right; left.
Defined.
