(* ===== verification/NodePoolPlan.v ===== *)
(** * The node pool planner

    [fleet/pkg/controllers/nodepool]: [action.go], [plan.go] and [capacity.go].
    From the desired pools, the observed pools, the vCPU budgets and the capacity
    floor the planner picks the single next operation. *)
From S2P Require Import Prelude GoStrings ComputeTypes ComputeCapacity.

Local Open Scope Z_scope.
Local Open Scope go_scope.

(** ** action.go *)

(** [time.Minute], in nanoseconds. *)
Definition waitPollHint : Z := 60000000000.

Inductive actionType : Type :=
  | actionWait | actionReconcile | actionCreate | actionSetScalingBounds | actionUnfreeze
  | actionFreeze | actionReduce | actionDelete | actionUpdateConfig.

Definition actionType_string (t : actionType) : string :=
  match t with
  | actionWait => "Wait"
  | actionReconcile => "Reconcile"
  | actionCreate => "Create"
  | actionSetScalingBounds => "SetScalingBounds"
  | actionUnfreeze => "Unfreeze"
  | actionFreeze => "Freeze"
  | actionReduce => "Reduce"
  | actionDelete => "Delete"
  | actionUpdateConfig => "UpdateConfig"
  end.

Definition provisioningStateFailed : string := "Failed".
Definition provisioningStateCreating : string := "Creating".
Definition provisioningStateUpdating : string := "Updating".
Definition provisioningStateScaling : string := "Scaling".
Definition provisioningStateDeleting : string := "Deleting".
Definition provisioningStateUpgrading : string := "Upgrading".
Definition provisioningStateMigrating : string := "Migrating".

Record actionBase := {
  ab_name : string;
  ab_size : string;
  ab_azZone : string;
  ab_typ : actionType;
}.

(** The implementations of the [Action] interface. *)
Inductive Action : Type :=
  | waitAction (b : actionBase) (Delay : Z)
  | reconcileAction (b : actionBase) (ETag : string)
  | createAction (b : actionBase) (p : Pool) (NetworkConfig : NetworkConfig)
  | setScalingBoundsAction (b : actionBase) (ETag : string) (MinCount MaxCount : Z)
  | unfreezeAction (b : actionBase) (ETag : string) (MinCount MaxCount : Z)
  | freezeAction (b : actionBase) (ETag : string) (Count : Z)
  | reduceAction (b : actionBase) (ETag : string) (Count : Z)
  | deleteAction (b : actionBase) (ETag : string)
  | updateConfigAction (b : actionBase) (ETag : string) (Labels : gmap string string)
      (Taints : list string).

Definition base_of (a : Action) : actionBase :=
  match a with
  | waitAction b _ | reconcileAction b _ | createAction b _ _ | setScalingBoundsAction b _ _ _
  | unfreezeAction b _ _ _ | freezeAction b _ _ | reduceAction b _ _ | deleteAction b _
  | updateConfigAction b _ _ _ => b
  end.

(** The methods of the interface. *)
Definition action_poolName (a : Action) : string := ab_name (base_of a).
Definition action_vmSize (a : Action) : string := ab_size (base_of a).
Definition action_zone (a : Action) : string := ab_azZone (base_of a).
Definition action_kind (a : Action) : actionType := ab_typ (base_of a).

Definition newWaitAction (poolName vmSize zone : string) (delay : Z) : Action :=
  waitAction {| ab_name := poolName; ab_size := vmSize; ab_azZone := zone;
                ab_typ := actionWait |} delay.

Definition newReconcileAction (poolName vmSize zone etag : string) : Action :=
  reconcileAction {| ab_name := poolName; ab_size := vmSize; ab_azZone := zone;
                     ab_typ := actionReconcile |} etag.

Definition newCreateAction (pool : Pool) (networkConfig : NetworkConfig) : Action :=
  createAction {| ab_name := Pool_Name pool; ab_size := spec_Size (Pool_Spec pool);
                  ab_azZone := ZoneString pool; ab_typ := actionCreate |} pool networkConfig.

Definition newSetScalingBoundsAction (poolName vmSize zone etag : string)
    (minCount maxCount : Z) : Action :=
  setScalingBoundsAction {| ab_name := poolName; ab_size := vmSize; ab_azZone := zone;
                            ab_typ := actionSetScalingBounds |} etag minCount maxCount.

Definition newUnfreezeAction (poolName vmSize zone etag : string)
    (minCount maxCount : Z) : Action :=
  unfreezeAction {| ab_name := poolName; ab_size := vmSize; ab_azZone := zone;
                    ab_typ := actionUnfreeze |} etag minCount maxCount.

Definition newFreezeAction (poolName vmSize zone etag : string) (count : Z) : Action :=
  freezeAction {| ab_name := poolName; ab_size := vmSize; ab_azZone := zone;
                  ab_typ := actionFreeze |} etag count.

Definition newReduceAction (poolName vmSize zone etag : string) (count : Z) : Action :=
  reduceAction {| ab_name := poolName; ab_size := vmSize; ab_azZone := zone;
                  ab_typ := actionReduce |} etag count.

Definition newDeleteAction (poolName vmSize zone etag : string) : Action :=
  deleteAction {| ab_name := poolName; ab_size := vmSize; ab_azZone := zone;
                  ab_typ := actionDelete |} etag.

Definition newUpdateConfigAction (pool : Pool) (etag : string) : Action :=
  updateConfigAction {| ab_name := Pool_Name pool; ab_size := spec_Size (Pool_Spec pool);
                        ab_azZone := ZoneString pool; ab_typ := actionUpdateConfig |}
    etag (Pool_Labels pool) (Pool_Taints pool).

(** The observed state of a pool.  [ps_MinCount] is the observed floor; it
    shadows the embedded desired one. *)
Record PoolState := {
  ps_Pool : Pool;
  ps_ETag : string;
  ps_ProvisioningState : string;
  ps_AutoScalingEnabled : bool;
  ps_Count : Z;
  ps_MinCount : Z;
}.

(** The fields Go promotes from the embedded [compute.Pool]. *)
Definition ps_Name (s : PoolState) : string := Pool_Name (ps_Pool s).
Definition ps_MaxCount (s : PoolState) : Z := Pool_MaxCount (ps_Pool s).
Definition ps_Spec (s : PoolState) : VMSpec := Pool_Spec (ps_Pool s).

(** Actions name the pool the way the planner does throughout. *)
Definition poolSize (p : Pool) : string := spec_Size (Pool_Spec p).

(** ** capacity.go *)

Definition poolCeiling (pool : PoolState) : Z :=
  if ps_AutoScalingEnabled pool then ps_MaxCount pool else ps_Count pool.

(** [compute.Pool] with another maximum. *)
Definition withMaxCount (p : Pool) (n : Z) : Pool := {|
  Pool_Role := Pool_Role p; Pool_AgentPoolMode := Pool_AgentPoolMode p;
  Pool_Name := Pool_Name p; Pool_Spec := Pool_Spec p;
  Pool_AvailabilityZones := Pool_AvailabilityZones p; Pool_MaxCount := n;
  Pool_MinCount := Pool_MinCount p; Pool_OSDiskSizeGB := Pool_OSDiskSizeGB p;
  Pool_MaxPods := Pool_MaxPods p; Pool_Labels := Pool_Labels p;
  Pool_Taints := Pool_Taints p; Pool_EnableSwift := Pool_EnableSwift p;
  Pool_SecondaryNICs := Pool_SecondaryNICs p |}.

(** [compute.Pool] with another minimum. *)
Definition withMinCount (p : Pool) (n : Z) : Pool := {|
  Pool_Role := Pool_Role p; Pool_AgentPoolMode := Pool_AgentPoolMode p;
  Pool_Name := Pool_Name p; Pool_Spec := Pool_Spec p;
  Pool_AvailabilityZones := Pool_AvailabilityZones p; Pool_MaxCount := Pool_MaxCount p;
  Pool_MinCount := n; Pool_OSDiskSizeGB := Pool_OSDiskSizeGB p;
  Pool_MaxPods := Pool_MaxPods p; Pool_Labels := Pool_Labels p;
  Pool_Taints := Pool_Taints p; Pool_EnableSwift := Pool_EnableSwift p;
  Pool_SecondaryNICs := Pool_SecondaryNICs p |}.

(** [ceilingPools] (simulation.go) *)
Definition ceilingPools (state : list PoolState) : list Pool :=
  (λ cur, withMaxCount (ps_Pool cur) (wrap32 (poolCeiling cur))) <$> state.

Record transitionFloor := { floor_zones : CapacityByRoleZone }.

Definition allowsCapacityReduction (current : list PoolState) (pool : PoolState)
    (newCeiling : Z) (floor : transitionFloor) : bool :=
  let delta := poolCeiling pool -! newCeiling in
  if delta <=? 0 then true
  else
    let reduction := CapacityAtCount (ps_Pool pool) delta in
    match PoolZoneCapacities (ceilingPools current) with
    | Err _ => false
    | Ok zoneCapacity =>
        let key := RoleZoneKey (ps_Pool pool) in
        Covers (Sub (default zeroCapacity (zoneCapacity !! key)) reduction)
          (default zeroCapacity (floor_zones floor !! key))
    end.

Definition allowsPoolDeletion (current : list PoolState) (pool : PoolState)
    (floor : transitionFloor) : bool :=
  if negb (allowsCapacityReduction current pool 0 floor) then false
  else
    let key := RoleZoneKey (ps_Pool pool) in
    match floor_zones floor !! key with
    | None => true
    | Some _ =>
        existsb (λ other, negb (String.eqb (ps_Name other) (ps_Name pool))
                          && bool_decide (RoleZoneKey (ps_Pool other) = key)) current
    end.

(** [taintsEqual] (plan.go) *)
Definition taintsEqual (a b : list string) : bool :=
  if negb (Nat.eqb (length a) (length b)) then false
  else bool_decide (sort_by string_less a = sort_by string_less b).

Definition byName {A} (name : A → string) (l : list A) : gmap string A :=
  fold_left (λ m x, <[name x := x]> m) l ∅.

(** The condition under which [configurationConverged] accepts one desired pool. *)
Definition poolConverged (currentByName : gmap string PoolState) (pool : Pool) : bool :=
  match currentByName !! Pool_Name pool with
  | None => false
  | Some cur =>
      let live := ps_Pool cur in
      negb (negb (String.eqb (ps_ProvisioningState cur) "Succeeded")
            || negb (ps_AutoScalingEnabled cur)
            || negb (ps_MaxCount cur =? Pool_MaxCount pool)
            || (Pool_MaxCount pool <? ps_Count cur)
            || negb (String.eqb (poolSize live) (poolSize pool))
            || negb (String.eqb (Pool_Role live) (Pool_Role pool))
            || negb (Pool_OSDiskSizeGB live =? Pool_OSDiskSizeGB pool)
            || negb (Pool_MaxPods live =? Pool_MaxPods pool)
            || negb (Bool.eqb (Pool_EnableSwift live) (Pool_EnableSwift pool))
            || negb (String.eqb (Pool_AgentPoolMode live) (Pool_AgentPoolMode pool))
            || negb (Pool_SecondaryNICs live =? Pool_SecondaryNICs pool)
            || negb (taintsEqual (Pool_AvailabilityZones live) (Pool_AvailabilityZones pool))
            || negb (bool_decide (Pool_Labels live = Pool_Labels pool))
            || negb (taintsEqual (Pool_Taints live) (Pool_Taints pool)))
  end.

Definition configurationConverged (desired : list Pool) (current : list PoolState) : bool :=
  if Nat.eqb (length desired) 0 || negb (Nat.eqb (length desired) (length current)) then false
  else forallb (poolConverged (byName ps_Name current)) desired.

(** ** plan.go *)

Inductive go_panic : Type := IntegerDivideByZero.

(** Go's [int64] division. *)
Definition goDiv (a b : Z) : result go_panic Z :=
  if b =? 0 then Err IntegerDivideByZero else Ok (wrap64 (Z.quot a b)).

Definition isTransitionalState (state : string) : bool :=
  existsb (String.eqb state)
    [provisioningStateCreating; provisioningStateUpdating; provisioningStateScaling;
     provisioningStateDeleting; provisioningStateUpgrading; provisioningStateMigrating].

Definition firstInProgressPool (current : list PoolState) : option PoolState :=
  find_first (λ cur, isTransitionalState (ps_ProvisioningState cur)) current.

Definition undesiredPools (current : list PoolState) (desiredByName : gmap string Pool) :
    list PoolState :=
  base.filter (λ pool, desiredByName !! ps_Name pool = None) current.

(** The loop of [computeFamilyHeadroom] that sums what the pools have reserved
    beyond their running nodes. *)
Definition reservedVCPUs (current : list PoolState) : gmap VMFamily Z :=
  fold_left (λ used pool,
      if spec_VCPUs (ps_Spec pool) =? 0 then used
      else
        let family := spec_Family (ps_Spec pool) in
        <[family := default 0 (used !! family) +!
           (Z.max (poolCeiling pool -! ps_Count pool) 0 *! spec_VCPUs (ps_Spec pool))]> used)
    current ∅.

Definition computeFamilyHeadroom (availableVCPUs : gmap VMFamily Z)
    (current : list PoolState) : gmap VMFamily Z :=
  let used := reservedVCPUs current in
  map_imap (λ family budget, Some (budget -! default 0 (used !! family))) availableVCPUs
  ∪ ((λ u, wrap64 (- u)) <$> used).

Definition findReconcileAction (desired : list Pool) (currentByName : gmap string PoolState) :
    option Action :=
  find_map (λ pool,
      match currentByName !! Pool_Name pool with
      | Some cur =>
          if String.eqb (ps_ProvisioningState cur) provisioningStateFailed
          then Some (newReconcileAction (Pool_Name pool) (poolSize pool) (ZoneString pool)
                       (ps_ETag cur))
          else None
      | None => None
      end) desired.

(** One iteration of [findCorrectDesiredAction]; [None] is [continue]. *)
Definition correctDesired (currentByName : gmap string PoolState)
    (headroom : gmap VMFamily Z) (current : list PoolState) (capacityFloor : transitionFloor)
    (pool : Pool) : option Action :=
  match currentByName !! Pool_Name pool with
  | None => None
  | Some cur =>
      if negb (ps_AutoScalingEnabled cur) then
        if ps_Count cur <=? Pool_MaxCount pool then
          let ceilingIncrease := wrap32 (Pool_MaxCount pool - ps_Count cur)
                                 *! spec_VCPUs (Pool_Spec pool) in
          if ceilingIncrease <=? default 0 (headroom !! spec_Family (Pool_Spec pool)) then
            let minCount := Z.min (ps_MinCount cur) (Pool_MaxCount pool) in
            let minCount :=
              if String.eqb (Pool_AgentPoolMode pool) AgentPoolModeSystem
              then Z.max minCount 1 else minCount in
            Some (newUnfreezeAction (Pool_Name pool) (poolSize pool) (ZoneString pool)
                    (ps_ETag cur) minCount (Pool_MaxCount pool))
          else None
        else if 0 <? ps_Count cur then
          if negb (allowsCapacityReduction current cur (wrap32 (ps_Count cur - 1)) capacityFloor)
          then None
          else Some (newReduceAction (Pool_Name pool) (poolSize pool) (ZoneString pool)
                       (ps_ETag cur) (wrap32 (ps_Count cur - 1)))
        else None
      else if (Pool_MaxCount pool <? ps_MaxCount cur) || (Pool_MaxCount pool <? ps_Count cur) then
        if ps_Count cur <=? Pool_MaxCount pool then
          if negb (allowsCapacityReduction current cur (Pool_MaxCount pool) capacityFloor)
          then None
          else Some (newSetScalingBoundsAction (Pool_Name pool) (poolSize pool) (ZoneString pool)
                       (ps_ETag cur) (Z.min (ps_MinCount cur) (Pool_MaxCount pool))
                       (Pool_MaxCount pool))
        else if negb (allowsCapacityReduction current cur (ps_Count cur) capacityFloor)
        then None
        else Some (newFreezeAction (Pool_Name pool) (poolSize pool) (ZoneString pool)
                     (ps_ETag cur) (ps_Count cur))
      else None
  end.

Definition findCorrectDesiredAction (desired : list Pool)
    (currentByName : gmap string PoolState) (headroom : gmap VMFamily Z)
    (current : list PoolState) (capacityFloor : transitionFloor) : option Action :=
  find_map (correctDesired currentByName headroom current capacityFloor) desired.

Definition findDriftAction (desired : list Pool) (currentByName : gmap string PoolState) :
    option Action :=
  find_map (λ pool,
      match currentByName !! Pool_Name pool with
      | None => None
      | Some cur =>
          if bool_decide (Pool_Labels pool = Pool_Labels (ps_Pool cur))
             && taintsEqual (Pool_Taints pool) (Pool_Taints (ps_Pool cur))
          then None
          else Some (newUpdateConfigAction pool (ps_ETag cur))
      end) desired.

(** The first loop of [findGrowAction]: create a missing pool. *)
Fixpoint growByCreating (desired : list Pool) (currentByName : gmap string PoolState)
    (headroom : gmap VMFamily Z) (networkConfig : NetworkConfig) :
    result go_panic (option Action) :=
  match desired with
  | [] => Ok None
  | pool :: desired =>
      match currentByName !! Pool_Name pool with
      | Some _ => growByCreating desired currentByName headroom networkConfig
      | None =>
          let* canGrow := goDiv (default 0 (headroom !! spec_Family (Pool_Spec pool)))
                            (spec_VCPUs (Pool_Spec pool)) in
          if canGrow <=? 0 then growByCreating desired currentByName headroom networkConfig
          else
            let createPool :=
              if canGrow <? Pool_MaxCount pool then
                withMinCount (withMaxCount pool (wrap32 canGrow))
                  (Z.min (Pool_MinCount pool) (wrap32 canGrow))
              else pool in
            Ok (Some (newCreateAction createPool networkConfig))
      end
  end.

(** The second loop: raise the maximum of an existing pool. *)
Fixpoint growByRaising (desired : list Pool) (currentByName : gmap string PoolState)
    (headroom : gmap VMFamily Z) : result go_panic (option Action) :=
  match desired with
  | [] => Ok None
  | pool :: desired =>
      match currentByName !! Pool_Name pool with
      | None => growByRaising desired currentByName headroom
      | Some cur =>
          if negb (ps_AutoScalingEnabled cur) || (Pool_MaxCount pool <=? ps_MaxCount cur)
          then growByRaising desired currentByName headroom
          else
            let* canGrow := goDiv (default 0 (headroom !! spec_Family (Pool_Spec pool)))
                              (spec_VCPUs (Pool_Spec pool)) in
            if canGrow <=? 0 then growByRaising desired currentByName headroom
            else
              let gap := wrap32 (Pool_MaxCount pool - ps_MaxCount cur) in
              let gap := if canGrow <? gap then canGrow else gap in
              let targetMax := wrap32 (ps_MaxCount cur + wrap32 gap) in
              Ok (Some (newSetScalingBoundsAction (Pool_Name pool) (poolSize pool)
                          (ZoneString pool) (ps_ETag cur)
                          (Z.min (ps_MinCount cur) targetMax) targetMax))
      end
  end.

Definition findGrowAction (desired : list Pool) (currentByName : gmap string PoolState)
    (headroom : gmap VMFamily Z) (networkConfig : NetworkConfig) :
    result go_panic (option Action) :=
  let* created := growByCreating desired currentByName headroom networkConfig in
  match created with
  | Some action => Ok (Some action)
  | None => growByRaising desired currentByName headroom
  end.

(** The actions [findShrinkAction] proposes name the live pool. *)
Definition stateName (f : string → string → string → string → Action) (cur : PoolState) : Action :=
  f (ps_Name cur) (poolSize (ps_Pool cur)) (ZoneString (ps_Pool cur)) (ps_ETag cur).

Definition isSystemPool (p : PoolState) : bool :=
  String.eqb (Pool_AgentPoolMode (ps_Pool p)) AgentPoolModeSystem.

Definition survivorRemains (current : list PoolState) (desiredByName : gmap string Pool) : bool :=
  existsb (λ other, isSystemPool other && bool_decide (is_Some (desiredByName !! ps_Name other)))
    current.

(** The scan for the lowest ceiling the floor allows, from [ceiling] up. *)
Fixpoint squeezeCeiling (n : nat) (current : list PoolState) (cur : PoolState)
    (capacityFloor : transitionFloor) (ceiling : Z) : option Z :=
  match n with
  | O => None
  | S n =>
      if allowsCapacityReduction current cur ceiling capacityFloor then Some ceiling
      else squeezeCeiling n current cur capacityFloor (ceiling + 1)
  end.

Definition nameLess (a b : PoolState) : bool := string_less (ps_Name a) (ps_Name b).

Definition countThenNameLess (a b : PoolState) : bool :=
  if negb (ps_Count a =? ps_Count b) then ps_Count a <? ps_Count b
  else string_less (ps_Name a) (ps_Name b).

(** The five scans of [findShrinkAction], in the order the code runs them. *)
Definition shrinkSystem (current undesired : list PoolState) (desiredByName : gmap string Pool)
    (capacityFloor : transitionFloor) : option Action :=
  find_map (λ cur,
      if negb (isSystemPool cur) then None
      else if negb (survivorRemains current desiredByName)
              || negb (allowsPoolDeletion current cur capacityFloor) then None
      else Some (stateName newDeleteAction cur)) undesired.

Definition shrinkSqueeze (current undesired : list PoolState)
    (capacityFloor : transitionFloor) : option Action :=
  find_map (λ cur,
      if negb (ps_AutoScalingEnabled cur) || (ps_MaxCount cur <=? ps_Count cur) then None
      else
        match squeezeCeiling (Z.to_nat (ps_MaxCount cur - ps_Count cur)) current cur
                capacityFloor (ps_Count cur) with
        | Some ceiling =>
            Some (stateName (λ n s z e, newSetScalingBoundsAction n s z e
                               (Z.min (ps_MinCount cur) ceiling) ceiling) cur)
        | None => None
        end) undesired.

Definition shrinkFreeze (undesired : list PoolState) : option Action :=
  find_map (λ cur,
      if ps_AutoScalingEnabled cur && (ps_MaxCount cur <=? ps_Count cur)
      then Some (stateName (λ n s z e, newFreezeAction n s z e (ps_Count cur)) cur)
      else None) undesired.

Definition shrinkDrain (current undesired : list PoolState)
    (capacityFloor : transitionFloor) : option Action :=
  find_map (λ cur,
      if isSystemPool cur then None
      else if negb (ps_AutoScalingEnabled cur) && (0 <? ps_Count cur) then
        if negb (allowsCapacityReduction current cur (wrap32 (ps_Count cur - 1)) capacityFloor)
        then None
        else Some (stateName (λ n s z e, newReduceAction n s z e (wrap32 (ps_Count cur - 1))) cur)
      else None) undesired.

Definition shrinkDelete (current undesired : list PoolState)
    (capacityFloor : transitionFloor) : option Action :=
  find_map (λ cur,
      if negb (ps_AutoScalingEnabled cur) && (ps_Count cur =? 0)
         && allowsPoolDeletion current cur capacityFloor
      then Some (stateName newDeleteAction cur)
      else None) undesired.

(** First proposal of two scans. *)
Definition orElse {A} (a b : option A) : option A :=
  match a with Some x => Some x | None => b end.

(** [sort.Slice] is not stable; pool names are distinct, so the order is the
    same for every correct sort. *)
Definition findShrinkAction (current : list PoolState) (desiredByName : gmap string Pool)
    (capacityFloor : transitionFloor) : option Action :=
  let undesired := undesiredPools current desiredByName in
  if bool_decide (length undesired = O) then None
  else
    let byNameOrder := sort_by nameLess undesired in
    let byCount := sort_by countThenNameLess byNameOrder in
    orElse (shrinkSystem current byNameOrder desiredByName capacityFloor)
      (orElse (shrinkSqueeze current byNameOrder capacityFloor)
        (orElse (shrinkFreeze byNameOrder)
          (orElse (shrinkDrain current byCount capacityFloor)
            (shrinkDelete current byCount capacityFloor)))).

(** [None] is the nil action: converged or blocked. *)
Definition findNextAction (desired : list Pool) (current : list PoolState)
    (availableVCPUs : gmap VMFamily Z) (capacityFloor : transitionFloor)
    (networkConfig : NetworkConfig) : result go_panic (option Action) :=
  match firstInProgressPool current with
  | Some blocker =>
      Ok (Some (newWaitAction (ps_Name blocker) (poolSize (ps_Pool blocker))
                  (ZoneString (ps_Pool blocker)) waitPollHint))
  | None =>
      if bool_decide (length desired = O) && negb (bool_decide (length current = O)) then Ok None
      else
        let desiredByName := byName Pool_Name desired in
        let currentByName := byName ps_Name current in
        let headroom := computeFamilyHeadroom availableVCPUs current in
        match findReconcileAction desired currentByName with
        | Some action => Ok (Some action)
        | None =>
        match findCorrectDesiredAction desired currentByName headroom current capacityFloor with
        | Some action => Ok (Some action)
        | None =>
        match findDriftAction desired currentByName with
        | Some action => Ok (Some action)
        | None =>
            let* grow := findGrowAction desired currentByName headroom networkConfig in
            match grow with
            | Some action => Ok (Some action)
            | None => Ok (findShrinkAction current desiredByName capacityFloor)
            end
        end end end
  end.
