(* ===== verification/NodePoolSimulation.v ===== *)
(** * The shadow simulator

    [fleet/pkg/controllers/nodepool/simulation.go]: the planner's actions are
    applied to a copy of the observed state until the configuration converges,
    nothing safe is left to do, or the step limit is reached.  Values are
    immutable here, so the source's defensive copies are the values themselves;
    the text report ([formatTrace] and its helpers) is left out. *)
From S2P Require Import Prelude GoStrings ComputeTypes ComputeCapacity NodePoolPlan.

Local Open Scope Z_scope.
Local Open Scope go_scope.

Record traceStep := {
  step_Action : Action;
  step_State : list PoolState;
  step_HeadroomBefore : gmap VMFamily Z;
  step_HeadroomAfter : gmap VMFamily Z;
  step_Capacity : CapacityByRole;
  step_ZoneCapacity : CapacityByRoleZone;
}.

(** The errors a projection may report, in the wrapping of the source. *)
Inductive plan_error : Type :=
  | CapacityError (e : capacity_error)
  | FloorError (e : floor_error).

Inductive sim_error : Type :=
  | ErrNegativeStepLimit
  | ErrDesiredBounds (pool : string)
  | ErrObservedNegative (pool : string)
  | ErrInitialCapacity (e : capacity_error)
  | ErrDesiredZoneCapacity (e : capacity_error)
  | ErrCannotProject (a : Action)
  | ErrMissingPool (pool : string)
  | ErrProjectedCapacity (e : capacity_error)
  | ErrProjectedZoneCapacity (e : capacity_error)
  | ErrFloorViolated (kind : actionType) (pool : string) (e : floor_error).

Inductive outcome : Type :=
  | OutcomeNone | OutcomeRejected | OutcomeConverged | OutcomeBlocked | OutcomeStepLimit
  | OutcomeWaiting.

Record trace := {
  tr_Desired : list Pool;
  tr_Initial : list PoolState;
  tr_FamilyBudgets : gmap VMFamily Z;
  tr_Steps : list traceStep;
  tr_FullyAllocated : bool;
  tr_InitialCapacity : CapacityByRole;
  tr_ZoneFloor : CapacityByRoleZone;
  tr_RejectedPlan : option plan_error;
  tr_Outcome : outcome;
  tr_Reason : string;
}.

(** ** The text of errors and reasons *)

(** [RoleCapacity.String] *)
Definition RoleCapacity_String (c : RoleCapacity) : string :=
  ("{VCPUs:" +:+ Itoa (cap_VCPUs c) +:+ " MemoryGiB:" +:+ Itoa (Z.shiftr (cap_MemoryBytes c) 30)
   +:+ " SwiftNICs:" +:+ Itoa (cap_SwiftNICs c) +:+ "}")%string.

Definition capacity_error_text (e : capacity_error) : string :=
  match e with
  | ErrUnknownCapacity pool => ("cannot determine capacity of pool " +:+ Quote pool)%string
  | ErrInvalidSwiftNICs pool =>
      ("invalid configured Swift NIC capacity of pool " +:+ Quote pool)%string
  end.

Definition floor_error_text (e : floor_error) : string :=
  match e with
  | ErrMissingCapacity key =>
      ("missing " +:+ rz_Role key +:+ " capacity in zone " +:+ Quote (rz_Zone key))%string
  | ErrBelowBaseline key got baseline =>
      (rz_Role key +:+ " capacity " +:+ RoleCapacity_String got +:+ " in zone " +:+
       Quote (rz_Zone key) +:+ " is below protected baseline " +:+
       RoleCapacity_String baseline)%string
  | ErrDesiredMissing key =>
      ("desired plan has no " +:+ rz_Role key +:+ " capacity in zone " +:+
       Quote (rz_Zone key))%string
  end.

Definition plan_error_text (e : plan_error) : string :=
  match e with
  | CapacityError e => capacity_error_text e
  | FloorError e => floor_error_text e
  end.

(** ** Budgets *)

Definition runningVCPU (pools : list PoolState) : gmap VMFamily Z :=
  fold_left (λ m p,
      let family := spec_Family (ps_Spec p) in
      <[family := default 0 (m !! family) +! (ps_Count p *! spec_VCPUs (ps_Spec p))]> m)
    pools ∅.

Definition liveBudget (base runInitial runNow : gmap VMFamily Z) : gmap VMFamily Z :=
  map_imap (λ family b,
      Some ((b +! default 0 (runInitial !! family)) -! default 0 (runNow !! family))) base.

(** ** Applying an action *)

(** What an action does to the pool it names; [None] for the actions that cannot
    be projected in place. *)
Definition withLabelsTaints (p : Pool) (labels : gmap string string) (taints : list string) :
    Pool := {|
  Pool_Role := Pool_Role p; Pool_AgentPoolMode := Pool_AgentPoolMode p;
  Pool_Name := Pool_Name p; Pool_Spec := Pool_Spec p;
  Pool_AvailabilityZones := Pool_AvailabilityZones p; Pool_MaxCount := Pool_MaxCount p;
  Pool_MinCount := Pool_MinCount p; Pool_OSDiskSizeGB := Pool_OSDiskSizeGB p;
  Pool_MaxPods := Pool_MaxPods p; Pool_Labels := labels; Pool_Taints := taints;
  Pool_EnableSwift := Pool_EnableSwift p; Pool_SecondaryNICs := Pool_SecondaryNICs p |}.

Definition etagFor (name suffix : string) : string := ("etag-" +:+ name +:+ "-" +:+ suffix)%string.

Definition updatePool (pool : PoolState) (action : Action) : option PoolState :=
  match action with
  | setScalingBoundsAction b _ minCount maxCount => Some {|
      ps_Pool := withMaxCount (ps_Pool pool) maxCount;
      ps_ETag := etagFor (ab_name b) (Itoa maxCount);
      ps_ProvisioningState := ps_ProvisioningState pool;
      ps_AutoScalingEnabled := ps_AutoScalingEnabled pool;
      ps_Count := ps_Count pool; ps_MinCount := minCount |}
  | unfreezeAction b _ minCount maxCount => Some {|
      ps_Pool := withMaxCount (ps_Pool pool) maxCount;
      ps_ETag := etagFor (ab_name b) "unfrozen";
      ps_ProvisioningState := ps_ProvisioningState pool;
      ps_AutoScalingEnabled := true;
      ps_Count := ps_Count pool; ps_MinCount := minCount |}
  | freezeAction b _ count => Some {|
      ps_Pool := withMaxCount (ps_Pool pool) count;
      ps_ETag := etagFor (ab_name b) "frozen";
      ps_ProvisioningState := ps_ProvisioningState pool;
      ps_AutoScalingEnabled := false;
      ps_Count := count; ps_MinCount := ps_MinCount pool |}
  | reduceAction b _ count => Some {|
      ps_Pool := withMaxCount (ps_Pool pool) count;
      ps_ETag := etagFor (ab_name b) ("cnt" +:+ Itoa count)%string;
      ps_ProvisioningState := ps_ProvisioningState pool;
      ps_AutoScalingEnabled := ps_AutoScalingEnabled pool;
      ps_Count := count; ps_MinCount := ps_MinCount pool |}
  | updateConfigAction b _ labels taints => Some {|
      ps_Pool := withLabelsTaints (ps_Pool pool) labels taints;
      ps_ETag := etagFor (ab_name b) "config";
      ps_ProvisioningState := ps_ProvisioningState pool;
      ps_AutoScalingEnabled := ps_AutoScalingEnabled pool;
      ps_Count := ps_Count pool; ps_MinCount := ps_MinCount pool |}
  | _ => None
  end.

(** The state of a pool just created: [MinCount] nodes running. *)
Definition createdPool (pool : Pool) (name : string) : PoolState := {|
  ps_Pool := pool;
  ps_ETag := etagFor name "new";
  ps_ProvisioningState := "Succeeded";
  ps_AutoScalingEnabled := true;
  ps_Count := Pool_MinCount pool;
  ps_MinCount := Pool_MinCount pool |}.

(** The loop of [applyAction] over the pools: the first pool of the action's name
    is updated or removed. *)
Fixpoint applyLoop (current : list PoolState) (action : Action) :
    result sim_error (list PoolState) :=
  match current with
  | [] => Err (ErrMissingPool (action_poolName action))
  | pool :: rest =>
      if negb (String.eqb (ps_Name pool) (action_poolName action)) then
        let* rest' := applyLoop rest action in Ok (pool :: rest')
      else
        match action with
        | deleteAction _ _ => Ok rest
        | _ =>
            match updatePool pool action with
            | Some pool' => Ok (pool' :: rest)
            | None => Err (ErrCannotProject action)
            end
        end
  end.

Definition applyAction (current : list PoolState) (action : Action) :
    result sim_error (list PoolState) :=
  match action with
  | createAction _ p _ => Ok (current ++ [createdPool p (action_poolName action)])
  | _ => applyLoop current action
  end.

(** ** The projection loop *)

Definition withOutcome (tr : trace) (steps : list traceStep) (rejected : option plan_error)
    (o : outcome) (reason : string) : trace := {|
  tr_Desired := tr_Desired tr; tr_Initial := tr_Initial tr;
  tr_FamilyBudgets := tr_FamilyBudgets tr; tr_Steps := steps;
  tr_FullyAllocated := tr_FullyAllocated tr; tr_InitialCapacity := tr_InitialCapacity tr;
  tr_ZoneFloor := tr_ZoneFloor tr; tr_RejectedPlan := rejected;
  tr_Outcome := o; tr_Reason := reason |}.

Definition blockedReason : string :=
  "no safe planner action is available for the remaining configuration difference (quota, capacity floor, or pool safety constraints)".

Definition isWait (action : option Action) : bool :=
  match action with Some (waitAction _ _) => true | _ => false end.

Definition waitingReason (action : Action) : string :=
  match action_kind action with
  | actionWait => ("pool " +:+ action_poolName action +:+
      " has an observed in-progress operation; a new observation is required")%string
  | _ => ("pool " +:+ action_poolName action +:+
      " requires reconciliation after failure; its result cannot be projected")%string
  end.

(** What the loop of [simulateAndTrace] keeps fixed. *)
Record simContext := {
  ctx_desired : list Pool;
  ctx_budgets : gmap VMFamily Z;
  ctx_runInitial : gmap VMFamily Z;
  ctx_floor : transitionFloor;
  ctx_floorErr : option plan_error;
  ctx_maxCycles : Z;
  ctx_trace : trace;
}.

Definition emptyNetworkConfig : NetworkConfig := {| VnetSubnetID := ""; PodSubnetID := "" |}.

Definition liveAt (ctx : simContext) (state : list PoolState) : gmap VMFamily Z :=
  liveBudget (ctx_budgets ctx) (ctx_runInitial ctx) (runningVCPU state).

(** A step that stops at an observation: nothing is projected. *)
Definition observedStep (action : Action) (state : list PoolState) (before : gmap VMFamily Z)
    (capacity : CapacityByRole) (zoneCapacity : CapacityByRoleZone) : traceStep := {|
  step_Action := action; step_State := state; step_HeadroomBefore := before;
  step_HeadroomAfter := before; step_Capacity := capacity; step_ZoneCapacity := zoneCapacity |}.

(** The body after the action has been applied: recompute the capacities, record
    the step and check the floor. *)
Definition projectStep (ctx : simContext) (action : Action) (before : gmap VMFamily Z)
    (state : list PoolState) : result sim_error traceStep :=
  let pools := ceilingPools state in
  match PoolCapacities pools with
  | Err e => Err (ErrProjectedCapacity e)
  | Ok capacity =>
      match PoolZoneCapacities pools with
      | Err e => Err (ErrProjectedZoneCapacity e)
      | Ok zoneCapacity =>
          Ok {| step_Action := action; step_State := state; step_HeadroomBefore := before;
                step_HeadroomAfter := computeFamilyHeadroom (liveAt ctx state) state;
                step_Capacity := capacity; step_ZoneCapacity := zoneCapacity |}
      end
  end.

(** The [for] loop.  Every round that goes on appends one step, so the rounds left
    are [maxCycles - len(tr.Steps)]: the recursion is on that number. *)
Fixpoint simulateLoop (ctx : simContext) (n : nat) (state : list PoolState)
    (capacity : CapacityByRole) (zoneCapacity : CapacityByRoleZone) (steps : list traceStep) :
    result go_panic (trace * option sim_error) :=
  let live := liveAt ctx state in
  let finish := withOutcome (ctx_trace ctx) in
  let* action := findNextAction (ctx_desired ctx) state live (ctx_floor ctx)
                   emptyNetworkConfig in
  match ctx_floorErr ctx, isWait action with
  | Some e, false => Ok (finish steps (Some e) OutcomeRejected (plan_error_text e), None)
  | _, _ =>
      match action with
      | None =>
          if configurationConverged (ctx_desired ctx) state
          then Ok (finish steps None OutcomeConverged "pool configuration matches desired", None)
          else Ok (finish steps None OutcomeBlocked blockedReason, None)
      | Some action =>
          match n with
          | O => Ok (finish steps None OutcomeStepLimit
                   ("projection stopped after " +:+ Itoa (ctx_maxCycles ctx) +:+
                    " actions; next action is " +:+ actionType_string (action_kind action) +:+
                    " on " +:+ action_poolName action)%string, None)
          | S n =>
              let before := computeFamilyHeadroom live state in
              match action with
              | waitAction _ _ | reconcileAction _ _ =>
                  Ok (finish (steps ++ [observedStep action state before capacity zoneCapacity])
                        None OutcomeWaiting (waitingReason action), None)
              | _ =>
                  let failed e := Ok (finish steps None OutcomeNone "", Some e) in
                  match applyAction state action with
                  | Err e => failed e
                  | Ok state =>
                      match projectStep ctx action before state with
                      | Err e => failed e
                      | Ok step =>
                          match EnsureMeetsBaseline (step_ZoneCapacity step)
                                  (floor_zones (ctx_floor ctx)) with
                          | Some e =>
                              Ok (finish (steps ++ [step]) None OutcomeNone "",
                                  Some (ErrFloorViolated (action_kind action)
                                          (action_poolName action) e))
                          | None =>
                              simulateLoop ctx n state (step_Capacity step)
                                (step_ZoneCapacity step) (steps ++ [step])
                          end
                      end
                  end
              end
          end
      end
  end.

(** The checks of the inputs; [None] when they pass. *)
Definition checkDesiredBounds (desired : list Pool) : option sim_error :=
  find_map (λ pool,
      if (Pool_MaxCount pool <=? 0) || (Pool_MinCount pool <? 0)
         || (Pool_MaxCount pool <? Pool_MinCount pool)
      then Some (ErrDesiredBounds (Pool_Name pool)) else None) desired.

Definition checkObserved (initial : list PoolState) : option sim_error :=
  find_map (λ pool,
      if (ps_Count pool <? 0) || (ps_MinCount pool <? 0) || (ps_MaxCount pool <? 0)
      then Some (ErrObservedNegative (ps_Name pool)) else None) initial.

(** The floor and the reason it is unusable, if any. *)
Definition resolveFloor (desiredZones : CapacityByRoleZone)
    (initialZones : result capacity_error CapacityByRoleZone) (fullyAllocated : bool) :
    CapacityByRoleZone * option plan_error :=
  match initialZones with
  | Err e => (∅, Some (CapacityError e))
  | Ok zoneCapacity =>
      match ResolveEffectiveFloor desiredZones zoneCapacity fullyAllocated with
      | Err e => (zoneCapacity, Some (FloorError e))
      | Ok floor => (floor, None)
      end
  end.

Definition initialTrace (desired : list Pool) (initial : list PoolState)
    (familyBudgets : gmap VMFamily Z) (fullyAllocated : bool) (capacity : CapacityByRole)
    (floor : CapacityByRoleZone) : trace := {|
  tr_Desired := desired; tr_Initial := initial; tr_FamilyBudgets := familyBudgets;
  tr_Steps := []; tr_FullyAllocated := fullyAllocated; tr_InitialCapacity := capacity;
  tr_ZoneFloor := floor; tr_RejectedPlan := None; tr_Outcome := OutcomeNone; tr_Reason := "" |}.

Definition simulateAndTrace (desired : list Pool) (initial : list PoolState)
    (familyBudgets : gmap VMFamily Z) (fullyAllocated : bool) (maxCycles : Z) :
    result go_panic (trace * option sim_error) :=
  let tr := initialTrace desired initial familyBudgets fullyAllocated in
  if maxCycles <? 0 then Ok (tr ∅ ∅, Some ErrNegativeStepLimit)
  else match checkDesiredBounds desired with
  | Some e => Ok (tr ∅ ∅, Some e)
  | None => match checkObserved initial with
  | Some e => Ok (tr ∅ ∅, Some e)
  | None =>
      let pools := ceilingPools initial in
      match PoolCapacities pools with
      | Err e => Ok (tr ∅ ∅, Some (ErrInitialCapacity e))
      | Ok capacity =>
          let initialZones := PoolZoneCapacities pools in
          match PoolZoneCapacities desired with
          | Err e => Ok (tr capacity ∅, Some (ErrDesiredZoneCapacity e))
          | Ok desiredZones =>
              let '(zoneFloor, floorErr) :=
                resolveFloor desiredZones initialZones fullyAllocated in
              let zoneCapacity := match initialZones with Ok m => m | Err _ => ∅ end in
              simulateLoop
                {| ctx_desired := desired; ctx_budgets := familyBudgets;
                   ctx_runInitial := runningVCPU initial;
                   ctx_floor := {| floor_zones := zoneFloor |}; ctx_floorErr := floorErr;
                   ctx_maxCycles := maxCycles; ctx_trace := tr capacity zoneFloor |}
                (Z.to_nat maxCycles) initial capacity zoneCapacity []
          end
      end
  end end.

(** [trace.finalState] *)
Definition finalState (tr : trace) : list PoolState :=
  match last (tr_Steps tr) with
  | None => tr_Initial tr
  | Some step => step_State step
  end.
