(* ===== verification/NodePoolSafety.v ===== *)
(** * Safety of the node pool planner

    Every action the planner proposes keeps the capacity floor of its role and
    zone, proposes valid autoscaler bounds and names an existing pool, so the
    simulator never fails on the planner's own actions; growth stays within the
    family's quota headroom. *)
From S2P Require Import Prelude GoStrings ComputeTypes ComputeCapacity NodePoolPlan.
From S2P Require Import NodePoolSimulation.

Local Open Scope Z_scope.
Local Open Scope go_scope.

(** ** A recorded projection of the repository

    [TestSameFamilyReplace_ZeroSlack_UndesiredPool]: nine actions replace a pool
    by one of the same family without ever going below the floor. *)
Module ZeroSlack.
Definition specE32v6 : VMSpec := {|
  spec_Size := "Standard_E32ds_v6"; spec_Family := "StandardEdsv6Family"; spec_VCPUs := 32;
  spec_MemoryBytes := 256 * 1073741824; spec_SecondaryNICs := 7 |}.

Definition pool (name zone : string) (maxCount minCount : Z) : Pool := {|
  Pool_Role := PoolRoleWorker; Pool_AgentPoolMode := AgentPoolModeUser;
  Pool_Name := name; Pool_Spec := specE32v6; Pool_AvailabilityZones := [zone];
  Pool_MaxCount := maxCount; Pool_MinCount := minCount; Pool_OSDiskSizeGB := 512;
  Pool_MaxPods := 225; Pool_Labels := {[RoleLabel := PoolRoleWorker]}; Pool_Taints := [];
  Pool_EnableSwift := true; Pool_SecondaryNICs := 7 |}.

Definition desired : list Pool := [pool "new1" "1" 6 1].

Definition initial : list PoolState :=
  [{| ps_Pool := pool "old1" "1" 6 0; ps_ETag := "etag-old1";
      ps_ProvisioningState := "Succeeded"; ps_AutoScalingEnabled := true;
      ps_Count := 2; ps_MinCount := 1 |}].

Definition budgets : gmap VMFamily Z := {["StandardEdsv6Family" := 192]}.

Definition run : result go_panic (trace * option sim_error) :=
  simulateAndTrace desired initial budgets true 20.

(** The change an action makes, as the recorded report prints it. *)
Definition change (a : Action) : option Z * option Z :=
  match a with
  | createAction _ p _ => (Some (Pool_MinCount p), Some (Pool_MaxCount p))
  | setScalingBoundsAction _ _ mn mx | unfreezeAction _ _ mn mx => (Some mn, Some mx)
  | freezeAction _ _ c | reduceAction _ _ c => (None, Some c)
  | _ => (None, None)
  end.

Example zero_slack_recorded :
  match run with
  | Ok (tr, None) => Some (
      (λ s, (action_kind (step_Action s), action_poolName (step_Action s),
             change (step_Action s),
             default 0 (step_HeadroomAfter s !! "StandardEdsv6Family"))) <$> tr_Steps tr,
      tr_Outcome tr)
  | _ => None
  end = Some (
    [(actionCreate, "new1", (Some 1, Some 2), 0);
     (actionSetScalingBounds, "old1", (Some 1, Some 4), 64);
     (actionSetScalingBounds, "new1", (Some 1, Some 4), 0);
     (actionSetScalingBounds, "old1", (Some 1, Some 2), 64);
     (actionSetScalingBounds, "new1", (Some 1, Some 6), 0);
     (actionFreeze, "old1", (None, Some 2), 0);
     (actionReduce, "old1", (None, Some 1), 32);
     (actionReduce, "old1", (None, Some 0), 64);
     (actionDelete, "old1", (None, None), 64)]%string, OutcomeConverged).
Proof. vm_compute. reflexivity. Qed.
End ZeroSlack.

(** ** Lookup by name *)

Section byName.
Context {A : Type} (name : A → string).

Lemma byName_snoc l x : byName name (l ++ [x]) = <[name x := x]> (byName name l).
Proof. unfold byName. by rewrite fold_left_app. Qed.

Lemma byName_None l n : byName name l !! n = None ↔ n ∉ name <$> l.
Proof.
  induction l as [|x l IH] using rev_ind.
  - split; [intros _; apply not_elem_of_nil|done].
  - rewrite byName_snoc, fmap_app, not_elem_of_app, lookup_insert_None, IH. simpl.
    rewrite list_elem_of_singleton. naive_solver.
Qed.

Lemma byName_Some l n x : byName name l !! n = Some x → x ∈ l ∧ name x = n.
Proof.
  induction l as [|y l IH] using rev_ind; [done|].
  rewrite byName_snoc, lookup_insert_Some. intros [[<- ->]|[_ H]].
  - split; [set_solver|done].
  - destruct (IH H). split; [set_solver|done].
Qed.

Lemma byName_elem l x : NoDup (name <$> l) → x ∈ l → byName name l !! name x = Some x.
Proof.
  induction l as [|y l IH] using rev_ind; [by intros _ ?%elem_of_nil|].
  rewrite fmap_app, byName_snoc. simpl. rewrite NoDup_app. intros (Hnd & Hdis & _).
  intros [Hx| ->%list_elem_of_singleton]%elem_of_app.
  - rewrite lookup_insert_ne; [auto|]. intros Heq. apply (Hdis (name x)).
    + by apply list_elem_of_fmap_2.
    + rewrite Heq. by apply list_elem_of_singleton.
  - by rewrite lookup_insert_eq.
Qed.
End byName.

(** ** Exact capacities *)

(** The three dimensions of a pool's capacity per node. *)
Definition vcpusOf (p : Pool) : Z := spec_VCPUs (Pool_Spec p).
Definition memoryOf (p : Pool) : Z := spec_MemoryBytes (Pool_Spec p).
Definition nicsOf (p : Pool) : Z := Pool_SecondaryNICs p.

(** The capacity of a bucket in one dimension, at the pools' ceilings. *)
Definition totalAt (dim : Pool → Z) (key : RoleZone) (state : list PoolState) : Z :=
  Zsum ((λ s, if decide (RoleZoneKey (ps_Pool s) = key)
              then poolCeiling s * dim (ps_Pool s) else 0) <$> state).

(** Sizes of counts ([C]) and of per-node resources ([R]). *)
Record poolOk (R : Z) (p : Pool) : Prop := {
  po_vcpus : 0 < vcpusOf p <= R;
  po_memory : 0 < memoryOf p <= R;
  po_nics : 0 <= nicsOf p <= R;
  po_swift : 0 < nicsOf p → Pool_EnableSwift p = true;
}.

Record stateOk (C R : Z) (s : PoolState) : Prop := {
  so_pool : poolOk R (ps_Pool s);
  so_count : 0 <= ps_Count s <= C;
  so_max : 0 <= ps_MaxCount s <= C;
  so_min : 0 <= ps_MinCount s;
}.

Lemma poolCeiling_bounds C R s : stateOk C R s → 0 <= poolCeiling s <= C.
Proof. intros []. unfold poolCeiling. destruct (ps_AutoScalingEnabled s); lia. Qed.

Lemma poolOk_known R p n : poolOk R p → 0 <= n → capacity_known (withMaxCount p n).
Proof.
  intros [H1 H2 H3 H4] Hn. unfold capacity_known, validatePoolCapacity, vcpusOf, memoryOf, nicsOf in *.
  simpl. rewrite (proj2 (Z.leb_gt _ _)), (proj2 (Z.leb_gt (spec_MemoryBytes _) _)),
    (proj2 (Z.ltb_ge n 0)), (proj2 (Z.ltb_ge (Pool_SecondaryNICs p) 0)) by lia. simpl.
  destruct (0 <? Pool_SecondaryNICs p) eqn:E; [|done]. bool_reflect. by rewrite H4 by lia.
Qed.

Section exact.
Context (C R : Z) (HC : C <= maxInt32).

Lemma ceilingPools_known state :
  Forall (stateOk C R) state → Forall capacity_known (ceilingPools state).
Proof.
  intros Hok. apply Forall_fmap. eapply Forall_impl; [exact Hok|]. intros s Hs. simpl.
  pose proof (poolCeiling_bounds _ _ _ Hs).
  rewrite wrap32_id by int_range. apply (poolOk_known R); [apply Hs|lia].
Qed.

Lemma pools_at_total (dim : Pool → Z) key state :
  (∀ p n, dim (withMaxCount p n) = dim p) → Forall (stateOk C R) state →
  Zsum ((λ p, Pool_MaxCount p * dim p) <$> pools_at RoleZoneKey key (ceilingPools state)) =
  totalAt dim key state.
Proof.
  intros Hdim Hok. unfold pools_at, totalAt, ceilingPools. rewrite Zsum_filter.
  rewrite <- list_fmap_compose. apply Zsum_map_ext. intros s Hs. simpl.
  rewrite Forall_forall in Hok. pose proof (poolCeiling_bounds _ _ _ (Hok s Hs)).
  rewrite wrap32_id by int_range. by rewrite Hdim.
Qed.

Lemma totalAt_bounds (dim : Pool → Z) key state :
  (∀ s, s ∈ state → 0 <= dim (ps_Pool s) <= R) → Forall (stateOk C R) state →
  0 <= R → 0 <= totalAt dim key state <= Z.of_nat (length state) * (C * R).
Proof.
  intros Hdim Hok HR. induction Hok as [|s state Hs Hok IH]; [unfold totalAt; simpl; lia|].
  unfold totalAt in *. rewrite fmap_cons, Zsum_cons. pose proof (poolCeiling_bounds _ _ _ Hs).
  destruct IH as [IH1 IH2]; [intros x Hx; apply Hdim; by right|].
  specialize (Hdim s ltac:(left)). cbn [length]. rewrite Nat2Z.inj_succ.
  destruct (decide _); nia.
Qed.
End exact.

(** Every bucket of the floor has a pool and enough capacity in each dimension. *)
Definition floorMet (floor : CapacityByRoleZone) (state : list PoolState) : Prop :=
  ∀ key f, floor !! key = Some f →
    (∃ s, s ∈ state ∧ RoleZoneKey (ps_Pool s) = key) ∧
    cap_VCPUs f <= totalAt vcpusOf key state ∧
    cap_MemoryBytes f <= totalAt memoryOf key state ∧
    cap_SwiftNICs f <= totalAt nicsOf key state.

(** The invariant of a projection: distinct pools of known names, sizes that keep
    the sums within [int64], and the floor. *)
Record planInv (C R : Z) (known : list string) (state : list PoolState) : Prop := {
  pi_C : 0 <= C <= maxInt32;
  pi_R : 0 <= R;
  pi_names : NoDup (ps_Name <$> state);
  pi_known : (ps_Name <$> state) ⊆ known;
  pi_ok : Forall (stateOk C R) state;
  pi_fit : Z.of_nat (length known) * (C * R) <= maxInt64;
}.

Section invariant.
Context (C R : Z) (known : list string) (state : list PoolState).
Context (Hinv : planInv C R known state).

Lemma state_ok s : s ∈ state → stateOk C R s.
Proof. pose proof (pi_ok _ _ _ _ Hinv) as H. rewrite Forall_forall in H. apply H. Qed.

Lemma totalAt_fits dim key :
  dim ∈ [vcpusOf; memoryOf; nicsOf] → 0 <= totalAt dim key state <= maxInt64.
Proof.
  intros Hdim.
  assert (Hd : ∀ s, s ∈ state → 0 <= dim (ps_Pool s) <= R).
  { intros s Hs. destruct (so_pool _ _ _ (state_ok s Hs)) as [H1 H2 H3 _].
    rewrite !elem_of_cons, elem_of_nil in Hdim. destruct Hdim as [->|[->|[->|[]]]]; lia. }
  pose proof (totalAt_bounds C R dim key state Hd (pi_ok _ _ _ _ Hinv)
    (pi_R _ _ _ _ Hinv)) as [H1 H2]. split; [done|].
  etransitivity; [exact H2|]. etransitivity; [|exact (pi_fit _ _ _ _ Hinv)].
  apply Z.mul_le_mono_nonneg_r; [destruct Hinv; nia|].
  apply inj_le. rewrite <- (length_fmap ps_Name state).
  apply submseteq_length, NoDup_submseteq; apply Hinv.
Qed.

(** The zone capacities the code computes are the exact totals. *)
Lemma zoneCapacity_exact :
  ∃ m, PoolZoneCapacities (ceilingPools state) = Ok m ∧
    (∀ key, is_Some (m !! key) ↔ ∃ s, s ∈ state ∧ RoleZoneKey (ps_Pool s) = key) ∧
    ∀ key, default zeroCapacity (m !! key) =
      {| cap_VCPUs := totalAt vcpusOf key state;
         cap_MemoryBytes := totalAt memoryOf key state;
         cap_SwiftNICs := totalAt nicsOf key state |}.
Proof.
  destruct Hinv as [HC HR _ _ Hok _].
  destruct (accumulate_ok RoleZoneKey (ceilingPools state)) as [m Hm].
  { apply (ceilingPools_known C R); [lia|done]. }
  exists m. split; [done|]. split.
  - intros key. rewrite (accumulate_lookup_empty _ _ _ key Hm).
    assert (Hin : (∃ s, s ∈ state ∧ RoleZoneKey (ps_Pool s) = key) ↔
                  pools_at RoleZoneKey key (ceilingPools state) ≠ []).
    { split.
      - intros (s & Hs & Hk) Heq.
        assert (Hp : withMaxCount (ps_Pool s) (wrap32 (poolCeiling s)) ∈
                     pools_at RoleZoneKey key (ceilingPools state)).
        { apply list_elem_of_filter. split; [done|].
          by apply (list_elem_of_fmap_2 (λ cur, withMaxCount (ps_Pool cur)
                      (wrap32 (poolCeiling cur)))). }
        rewrite Heq in Hp. by apply elem_of_nil in Hp.
      - destruct (pools_at RoleZoneKey key (ceilingPools state)) as [|p ps] eqn:E; [done|].
        intros _. assert (Hp : p ∈ pools_at RoleZoneKey key (ceilingPools state))
          by (rewrite E; left).
        apply list_elem_of_filter in Hp as [Hk Hp].
        apply list_elem_of_fmap in Hp as (s & -> & Hs). eauto. }
    rewrite Hin. destruct (pools_at RoleZoneKey key (ceilingPools state)); [|naive_solver].
    split; [by intros [? ?]|done].
  - intros key. rewrite (accumulate_default _ _ _ key Hm). unfold totalCapacity.
    assert (HC' : C <= maxInt32) by lia.
    f_equal; (rewrite wrap64_id;
      [by apply (pools_at_total C R HC')
      |rewrite (pools_at_total C R HC') by done]);
      match goal with |- in64 (totalAt ?dim key state) =>
        pose proof (totalAt_fits dim key ltac:(set_solver)); int_range end.
Qed.
End invariant.

(** ** Capacity-preserving changes *)

Definition floorAt (floor : CapacityByRoleZone) (key : RoleZone) : RoleCapacity :=
  default zeroCapacity (floor !! key).

(** Changing the ceiling of [s] to [n] keeps the floor of its bucket. *)
Definition safeCeiling (floor : CapacityByRoleZone) (state : list PoolState)
    (s : PoolState) (n : Z) : Prop :=
  poolCeiling s <= n ∨
  let key := RoleZoneKey (ps_Pool s) in
  let after dim := totalAt dim key state - (poolCeiling s - n) * dim (ps_Pool s) in
  cap_VCPUs (floorAt floor key) <= after vcpusOf ∧
  cap_MemoryBytes (floorAt floor key) <= after memoryOf ∧
  cap_SwiftNICs (floorAt floor key) <= after nicsOf.

Lemma ceiling_le_total dim key state s :
  (∀ x, x ∈ state → 0 <= poolCeiling x * dim (ps_Pool x)) →
  s ∈ state → RoleZoneKey (ps_Pool s) = key →
  poolCeiling s * dim (ps_Pool s) <= totalAt dim key state.
Proof.
  intros Hnn Hs Hk.
  pose proof (Zsum_elem_le (λ s, if decide (RoleZoneKey (ps_Pool s) = key)
    then poolCeiling s * dim (ps_Pool s) else 0) state s) as H.
  simpl in H. rewrite decide_True in H by done. apply H; [|done].
  intros x Hx. destruct (decide _); [auto|lia].
Qed.

Section changes.
Context (C R : Z) (known : list string) (state : list PoolState).
Context (Hinv : planInv C R known state).

Lemma poolTotal_bounds dim s :
  dim ∈ [vcpusOf; memoryOf; nicsOf] → s ∈ state →
  0 <= dim (ps_Pool s) ∧ 0 <= poolCeiling s * dim (ps_Pool s) ∧
  poolCeiling s * dim (ps_Pool s) <= totalAt dim (RoleZoneKey (ps_Pool s)) state.
Proof.
  intros Hdim.
  assert (Hd : ∀ x, x ∈ state → 0 <= dim (ps_Pool x) ∧ 0 <= poolCeiling x * dim (ps_Pool x)).
  { intros x Hx. pose proof (state_ok _ _ _ _ Hinv x Hx) as Hok.
    pose proof (poolCeiling_bounds _ _ _ Hok).
    destruct (so_pool _ _ _ Hok) as [H1 H2 H3 _].
    rewrite !elem_of_cons, elem_of_nil in Hdim. destruct Hdim as [->|[->|[->|[]]]]; nia. }
  intros Hs. split_and!; [by apply Hd|by apply Hd|].
  apply ceiling_le_total; [|done|done]. intros x Hx. by apply Hd.
Qed.

Lemma allowsCapacityReduction_safe floor s n :
  s ∈ state → 0 <= n <= C →
  allowsCapacityReduction state s n floor = true → safeCeiling (floor_zones floor) state s n.
Proof.
  intros Hs Hn. unfold allowsCapacityReduction, safeCeiling, floorAt.
  pose proof (poolCeiling_bounds _ _ _ (state_ok _ _ _ _ Hinv s Hs)) as Hc.
  pose proof (pi_C _ _ _ _ Hinv) as HC.
  rewrite wrap64_id by int_range. destruct (_ <=? 0) eqn:E; bool_reflect; [left; lia|].
  destruct (zoneCapacity_exact C R known state Hinv) as (m & -> & _ & Hm). rewrite Hm.
  rewrite Covers_spec. unfold Sub, CapacityAtCount. cbn [cap_VCPUs cap_MemoryBytes cap_SwiftNICs].
  assert (Hexact : ∀ dim, dim ∈ [vcpusOf; memoryOf; nicsOf] →
    let key := RoleZoneKey (ps_Pool s) in
    totalAt dim key state -! ((poolCeiling s - n) *! dim (ps_Pool s)) =
    totalAt dim key state - (poolCeiling s - n) * dim (ps_Pool s)).
  { intros dim Hdim key. pose proof (poolTotal_bounds dim s Hdim Hs) as (H1 & H2 & H3).
    pose proof (totalAt_fits C R known state Hinv dim key Hdim).
    fold key in H3. rewrite wrap64_sub_r. apply wrap64_id. apply in64_unfold.
    unfold maxInt64 in *. nia. }
  pose proof (Hexact vcpusOf ltac:(set_solver)) as H1.
  pose proof (Hexact memoryOf ltac:(set_solver)) as H2.
  pose proof (Hexact nicsOf ltac:(set_solver)) as H3. cbv zeta in H1, H2, H3.
  unfold vcpusOf in H1 at 2. unfold memoryOf in H2 at 2. unfold nicsOf in H3 at 2.
  rewrite H1, H2, H3. by right.
Qed.
End changes.

Lemma totalAt_app dim key l1 l2 :
  totalAt dim key (l1 ++ l2) = totalAt dim key l1 + totalAt dim key l2.
Proof. unfold totalAt. by rewrite fmap_app, Zsum_app. Qed.

Lemma totalAt_cons dim key s l :
  totalAt dim key (s :: l) =
  (if decide (RoleZoneKey (ps_Pool s) = key) then poolCeiling s * dim (ps_Pool s) else 0)
  + totalAt dim key l.
Proof. done. Qed.

(** Replacing a pool by one of the same bucket and per-node resources. *)
Record sameKind (s s' : PoolState) : Prop := {
  sk_name : ps_Name s' = ps_Name s;
  sk_key : RoleZoneKey (ps_Pool s') = RoleZoneKey (ps_Pool s);
  sk_vcpus : vcpusOf (ps_Pool s') = vcpusOf (ps_Pool s);
  sk_memory : memoryOf (ps_Pool s') = memoryOf (ps_Pool s);
  sk_nics : nicsOf (ps_Pool s') = nicsOf (ps_Pool s);
  sk_swift : Pool_EnableSwift (ps_Pool s') = Pool_EnableSwift (ps_Pool s);
  sk_family : spec_Family (ps_Spec s') = spec_Family (ps_Spec s);
}.

Lemma totalAt_replace dim key l1 l2 s s' :
  RoleZoneKey (ps_Pool s') = RoleZoneKey (ps_Pool s) → dim (ps_Pool s') = dim (ps_Pool s) →
  totalAt dim key (l1 ++ s' :: l2) = totalAt dim key (l1 ++ s :: l2) +
    (if decide (RoleZoneKey (ps_Pool s) = key)
     then (poolCeiling s' - poolCeiling s) * dim (ps_Pool s) else 0).
Proof.
  intros Hk Hd. rewrite !totalAt_app, !totalAt_cons, Hk, Hd. destruct (decide _); lia.
Qed.

Lemma floorMet_replace floor l1 l2 s s' :
  sameKind s s' → 0 <= vcpusOf (ps_Pool s) → 0 <= memoryOf (ps_Pool s) →
  0 <= nicsOf (ps_Pool s) →
  safeCeiling floor (l1 ++ s :: l2) s (poolCeiling s') →
  floorMet floor (l1 ++ s :: l2) → floorMet floor (l1 ++ s' :: l2).
Proof.
  intros [_ Hk Hv Hm Hn _ _] H1 H2 H3 Hsafe Hmet key f Hf.
  destruct (Hmet key f Hf) as ((x & Hx & Hxk) & F1 & F2 & F3). split.
  - apply elem_of_app in Hx as [Hx|[->|Hx]%elem_of_cons].
    + exists x. set_solver.
    + exists s'. split; [set_solver|congruence].
    + exists x. set_solver.
  - rewrite !(totalAt_replace _ key l1 l2 s s') by done.
    destruct (decide (RoleZoneKey (ps_Pool s) = key)) as [<-|]; [|lia].
    unfold safeCeiling, floorAt in Hsafe. rewrite Hf in Hsafe. simpl in Hsafe.
    destruct Hsafe as [Hup|(G1 & G2 & G3)]; [nia|lia].
Qed.

Lemma floorMet_snoc floor state s :
  0 <= poolCeiling s → 0 <= vcpusOf (ps_Pool s) → 0 <= memoryOf (ps_Pool s) →
  0 <= nicsOf (ps_Pool s) → floorMet floor state → floorMet floor (state ++ [s]).
Proof.
  intros Hc H1 H2 H3 Hmet key f Hf.
  destruct (Hmet key f Hf) as ((x & Hx & Hxk) & F1 & F2 & F3). split.
  - exists x. set_solver.
  - rewrite !totalAt_app, !totalAt_cons. unfold totalAt at 2 4 6. simpl.
    destruct (decide _); nia.
Qed.

Lemma floorMet_delete floor l1 l2 s :
  safeCeiling floor (l1 ++ s :: l2) s 0 → 0 <= poolCeiling s →
  (∀ f, floor !! RoleZoneKey (ps_Pool s) = Some f →
        ∃ x, x ∈ l1 ++ l2 ∧ RoleZoneKey (ps_Pool x) = RoleZoneKey (ps_Pool s)) →
  floorMet floor (l1 ++ s :: l2) → floorMet floor (l1 ++ l2).
Proof.
  intros Hsafe Hc Hother Hmet key f Hf.
  destruct (Hmet key f Hf) as ((x & Hx & Hxk) & F1 & F2 & F3). split.
  - destruct (decide (RoleZoneKey (ps_Pool s) = key)) as [<-|Hne]; [by eapply Hother|].
    exists x. split; [|done]. set_solver.
  - rewrite !totalAt_app, !totalAt_cons in F1, F2, F3. rewrite !totalAt_app.
    destruct (decide (RoleZoneKey (ps_Pool s) = key)) as [<-|]; [|lia].
    unfold safeCeiling, floorAt in Hsafe. rewrite Hf in Hsafe. simpl in Hsafe.
    rewrite !totalAt_app, !totalAt_cons, !decide_True in Hsafe by done.
    destruct Hsafe as [Hup|(G1 & G2 & G3)]; [|lia].
    assert (poolCeiling s = 0) as Hz by lia. rewrite Hz in *. lia.
Qed.

(** ** Valid actions *)

(** What makes an action valid in a state: it targets a pool that is there (or
    creates one that is not), its bounds satisfy [0 <= min <= max <= C], and the
    ceiling it leads to keeps the floor. *)
Definition actionSafe (C R : Z) (desired : list Pool) (floor : transitionFloor)
    (state : list PoolState) (a : Action) : Prop :=
  let on (b : actionBase) (P : PoolState → Prop) :=
    ∃ s, s ∈ state ∧ ps_Name s = ab_name b ∧ P s in
  let safe := safeCeiling (floor_zones floor) state in
  match a with
  | waitAction b _ | reconcileAction b _ => on b (λ _, True)
  | createAction b p _ =>
      Pool_Name p = ab_name b ∧ Pool_Name p ∉ ps_Name <$> state ∧
      Pool_Name p ∈ Pool_Name <$> desired ∧ poolOk R p ∧
      0 <= Pool_MinCount p <= Pool_MaxCount p ∧ 1 <= Pool_MaxCount p <= C
  | setScalingBoundsAction b _ mn mx =>
      on b (λ s, ps_AutoScalingEnabled s = true ∧ 0 <= mn <= mx ∧ mx <= C ∧ safe s mx)
  | unfreezeAction b _ mn mx =>
      on b (λ s, ps_AutoScalingEnabled s = false ∧ 0 <= mn <= mx ∧ ps_Count s <= mx <= C)
  | freezeAction b _ c =>
      on b (λ s, ps_AutoScalingEnabled s = true ∧ c = ps_Count s ∧ safe s c)
  | reduceAction b _ c =>
      on b (λ s, ps_AutoScalingEnabled s = false ∧ c = ps_Count s - 1 ∧ 0 <= c ∧ safe s c)
  | deleteAction b _ => on b (λ s, allowsPoolDeletion state s floor = true)
  | updateConfigAction b _ _ _ => on b (λ _, True)
  end.

Record desiredOk (C R : Z) (p : Pool) : Prop := {
  do_pool : poolOk R p;
  do_max : 1 <= Pool_MaxCount p <= C;
  do_min : 0 <= Pool_MinCount p <= Pool_MaxCount p;
}.

(** Unfolds the branch of a scan that proposed an action on [s]. *)
Ltac scan_branch H :=
  repeat match type of H with
    | (if ?b then _ else _) = Some _ => destruct b eqn:?; [try done|try done]
    | match ?m with Some _ => _ | None => _ end = Some _ => destruct m eqn:?; [|done]
    end; simplify_eq; bool_reflect.

Section planner.
Context (C R : Z) (known : list string) (state : list PoolState) (desired : list Pool)
  (floor : transitionFloor).
Context (Hinv : planInv C R known state) (Hdes : Forall (desiredOk C R) desired).

Abbreviation safeAction := (actionSafe C R desired floor state) (only parsing).

Lemma desired_ok p : p ∈ desired → desiredOk C R p.
Proof. rewrite Forall_forall in Hdes. apply Hdes. Qed.

Lemma desired_name p : p ∈ desired → Pool_Name p ∈ Pool_Name <$> desired.
Proof. apply list_elem_of_fmap_2. Qed.

Lemma firstInProgress_safe s :
  firstInProgressPool state = Some s →
  safeAction (newWaitAction (ps_Name s) (poolSize (ps_Pool s)) (ZoneString (ps_Pool s))
                waitPollHint).
Proof.
  intros (l1 & l2 & Heq & _)%find_first_Some. exists s. split; [|done].
  rewrite Heq. set_solver.
Qed.

Lemma findReconcile_safe a :
  findReconcileAction desired (byName ps_Name state) = Some a → safeAction a.
Proof.
  intros (p & Hp & H)%find_map_Some.
  destruct (byName ps_Name state !! Pool_Name p) as [s|] eqn:E; [|done].
  destruct (String.eqb _ _); [|done]. simplify_eq.
  apply byName_Some in E as [Hs Hn]. by exists s.
Qed.

Lemma findDrift_safe a :
  findDriftAction desired (byName ps_Name state) = Some a → safeAction a.
Proof.
  intros (p & Hp & H)%find_map_Some.
  destruct (byName ps_Name state !! Pool_Name p) as [s|] eqn:E; [|done].
  destruct (_ && _); [done|]. simplify_eq.
  apply byName_Some in E as [Hs Hn]. by exists s.
Qed.

Lemma findCorrect_safe headroom a :
  findCorrectDesiredAction desired (byName ps_Name state) headroom state floor = Some a →
  safeAction a.
Proof.
  pose proof (pi_C _ _ _ _ Hinv) as HC.
  intros (p & Hp & H)%find_map_Some. unfold correctDesired in H.
  destruct (byName ps_Name state !! Pool_Name p) as [s|] eqn:E; [|done].
  apply byName_Some in E as [Hs Hn].
  destruct (state_ok _ _ _ _ Hinv s Hs) as [_ Hcnt Hmax Hmin].
  destruct (desired_ok p Hp) as [_ Hpm Hpn].
  destruct (ps_AutoScalingEnabled s) eqn:Hauto; simpl in H.
  - destruct (_ || _) eqn:Hover; [|done].
    destruct (ps_Count s <=? Pool_MaxCount p) eqn:Hle; bool_reflect;
      destruct (allowsCapacityReduction _ _ _ _) eqn:Hal; simplify_eq/=;
      apply (allowsCapacityReduction_safe C R known state Hinv) in Hal; try done; try lia;
      exists s; simpl; split_and!; (done || lia).
  - destruct (ps_Count s <=? Pool_MaxCount p) eqn:Hle; bool_reflect.
    + destruct (_ <=? default 0 _); [|done]. simplify_eq. exists s. simpl.
      split_and!; try done; try lia; destruct (String.eqb _ _); lia.
    + destruct (0 <? ps_Count s) eqn:Hpos; [|done]. bool_reflect.
      rewrite (wrap32_id (ps_Count s - 1)) in H by int_range.
      destruct (allowsCapacityReduction _ _ _ _) eqn:Hal; simplify_eq/=.
      apply (allowsCapacityReduction_safe C R known state Hinv) in Hal; [|done|lia].
      exists s. simpl. split_and!; try done; lia.
Qed.

Lemma goDiv_ok h v : 0 < v → goDiv h v = Ok (wrap64 (Z.quot h v)).
Proof. intros Hv. unfold goDiv. destruct (v =? 0) eqn:E; bool_reflect; [lia|done]. Qed.

Lemma growByCreating_safe headroom nc l :
  l ⊆ desired →
  ∃ r, growByCreating l (byName ps_Name state) headroom nc = Ok r ∧
    ∀ a, r = Some a → safeAction a.
Proof.
  pose proof (pi_C _ _ _ _ Hinv) as HC.
  induction l as [|p l IH]; intros Hsub; cbn [growByCreating]; [by exists None|].
  assert (Hp : p ∈ desired) by set_solver. specialize (IH ltac:(set_solver)).
  destruct (desired_ok p Hp) as [Hpo Hpm Hpn].
  destruct (byName ps_Name state !! Pool_Name p) eqn:E; [done|].
  apply byName_None in E. rewrite goDiv_ok by apply Hpo. cbn [result_bind].
  set (g := wrap64 _). destruct (g <=? 0) eqn:Hg; [done|]. bool_reflect.
  eexists. split; [done|]. intros a [= <-]. destruct (g <? Pool_MaxCount p) eqn:Hl; simpl;
    bool_reflect; rewrite ?(wrap32_id g) by int_range.
  - split_and!; try done; try lia; [by apply desired_name|]. by destruct Hpo.
  - split_and!; try done; try lia. by apply desired_name.
Qed.

Lemma growByRaising_safe headroom l :
  l ⊆ desired →
  ∃ r, growByRaising l (byName ps_Name state) headroom = Ok r ∧
    ∀ a, r = Some a → safeAction a.
Proof.
  pose proof (pi_C _ _ _ _ Hinv) as HC.
  induction l as [|p l IH]; intros Hsub; cbn [growByRaising]; [by exists None|].
  assert (Hp : p ∈ desired) by set_solver. specialize (IH ltac:(set_solver)).
  destruct (desired_ok p Hp) as [Hpo Hpm Hpn].
  destruct (byName ps_Name state !! Pool_Name p) as [s|] eqn:E; [|done].
  apply byName_Some in E as [Hs Hn].
  destruct (state_ok _ _ _ _ Hinv s Hs) as [_ Hcnt Hmax Hmin].
  destruct (_ || _) eqn:Hskip; [done|]. bool_reflect.
  rewrite goDiv_ok by apply Hpo. cbn [result_bind].
  set (g := wrap64 _). destruct (g <=? 0) eqn:Hg; [done|]. bool_reflect.
  eexists. split; [done|]. intros a [= <-].
  rewrite (wrap32_id (Pool_MaxCount p - _)) by int_range.
  set (gap := if g <? _ then g else _).
  assert (Hgap : 0 < gap <= Pool_MaxCount p - ps_MaxCount s).
  { unfold gap. destruct (g <? _) eqn:?; bool_reflect; lia. }
  rewrite (wrap32_id gap), wrap32_id by int_range. exists s. simpl.
  split_and!; try done; try lia. left. unfold poolCeiling. destruct (ps_AutoScalingEnabled s); [lia|done].
Qed.

Lemma squeezeCeiling_safe n s ceiling r :
  s ∈ state → 0 <= ceiling → ceiling + Z.of_nat n <= C →
  squeezeCeiling n state s floor ceiling = Some r →
  ceiling <= r <= ceiling + Z.of_nat n ∧ safeCeiling (floor_zones floor) state s r.
Proof.
  intros Hs. revert ceiling. induction n as [|n IH]; intros ceiling H0 Hle; [done|].
  cbn [squeezeCeiling]. destruct (allowsCapacityReduction _ _ _ _) eqn:Hal.
  - intros [= <-]. split; [lia|].
    apply (allowsCapacityReduction_safe C R known state Hinv) in Hal; [done|done|lia].
  - intros H. apply IH in H; [|lia|lia]. split; [lia|]. apply H.
Qed.

(** The scans of [findShrinkAction] pick their target among the observed pools. *)
Lemma findShrink_safe desiredByName a :
  findShrinkAction state desiredByName floor = Some a → safeAction a.
Proof.
  pose proof (pi_C _ _ _ _ Hinv) as HC. unfold findShrinkAction.
  destruct (bool_decide _); [done|].
  set (l1 := sort_by nameLess _). set (l2 := sort_by countThenNameLess l1).
  assert (Hl1 : ∀ s, s ∈ l1 → s ∈ state).
  { intros s. unfold l1, undesiredPools. rewrite elem_of_sort_by, list_elem_of_filter. tauto. }
  assert (Hl2 : ∀ s, s ∈ l2 → s ∈ state).
  { intros s. unfold l2. rewrite elem_of_sort_by. apply Hl1. }
  unfold orElse, shrinkSystem, shrinkSqueeze, shrinkFreeze, shrinkDrain, shrinkDelete.
  intros H.
  repeat match type of H with
  | match find_map ?f ?l with Some _ => _ | None => _ end = _ =>
      let E := fresh "E" in destruct (find_map f l) eqn:E;
      [simplify_eq; rename E into H|clear E]
  end; apply find_map_Some in H as (s & Hin & H);
    first [apply Hl1 in Hin|apply Hl2 in Hin];
    destruct (state_ok _ _ _ _ Hinv s Hin) as [_ Hcnt Hmax Hmin];
    scan_branch H; exists s.
  - split_and!; done.
  - match goal with E : squeezeCeiling _ _ _ _ _ = Some _ |- _ =>
      apply squeezeCeiling_safe in E as [? ?]; [|done|lia|lia] end.
    simpl. split_and!; (done || lia).
  - simpl. split_and!; try done. left. unfold poolCeiling.
    by destruct (ps_AutoScalingEnabled s).
  - rewrite wrap32_id in * by int_range. simpl. split_and!; (done || lia || idtac).
    by apply (allowsCapacityReduction_safe C R known state Hinv); [|lia|].
  - split_and!; done.
Qed.

Lemma findNextAction_safe available nc :
  ∃ r, findNextAction desired state available floor nc = Ok r ∧
    ∀ a, r = Some a → safeAction a.
Proof.
  unfold findNextAction. destruct (firstInProgressPool state) as [b|] eqn:E0.
  { eexists. split; [done|]. intros a [= <-]. by apply firstInProgress_safe. }
  destruct (_ && _); [by exists None|].
  set (headroom := computeFamilyHeadroom _ _). unfold findGrowAction.
  destruct (findReconcileAction _ _) eqn:E1.
  { eexists. split; [done|]. intros a' [= <-]. by apply findReconcile_safe. }
  destruct (findCorrectDesiredAction _ _ _ _ _) eqn:E2.
  { eexists. split; [done|]. intros a' [= <-]. by eapply findCorrect_safe. }
  destruct (findDriftAction _ _) eqn:E3.
  { eexists. split; [done|]. intros a' [= <-]. by apply findDrift_safe. }
  destruct (growByCreating_safe headroom nc desired) as (r & -> & Hr); [done|].
  cbn [result_bind]. destruct r as [a|]; [by exists (Some a)|].
  destruct (growByRaising_safe headroom desired) as (r & -> & Hr'); [done|].
  cbn [result_bind]. destruct r as [a|]; [by exists (Some a)|].
  eexists. split; [done|]. intros a Ha. by eapply findShrink_safe.
Qed.
End planner.

(** ** Applying a valid action *)

Lemma applyLoop_found state a s :
  NoDup (ps_Name <$> state) → s ∈ state → ps_Name s = action_poolName a →
  ∃ l1 l2, state = l1 ++ s :: l2 ∧
    applyLoop state a =
      match a with
      | deleteAction _ _ => Ok (l1 ++ l2)
      | _ => match updatePool s a with
             | Some s' => Ok (l1 ++ s' :: l2)
             | None => Err (ErrCannotProject a)
             end
      end.
Proof.
  intros Hnd Hs Hn. induction state as [|x state IH]; [by apply elem_of_nil in Hs|].
  rewrite fmap_cons in Hnd. apply NoDup_cons in Hnd as [Hx Hnd]. cbn [applyLoop].
  destruct (String.eqb (ps_Name x) (action_poolName a)) eqn:E; simpl.
  - apply String.eqb_eq in E. apply elem_of_cons in Hs as [->|Hs].
    + exists [], state. split; [done|]. by destruct a.
    + destruct Hx. rewrite E, <- Hn. by apply list_elem_of_fmap_2.
  - apply elem_of_cons in Hs as [->|Hs].
    + apply String.eqb_neq in E. congruence.
    + destruct (IH Hnd Hs) as (l1 & l2 & -> & Heq). exists (x :: l1), l2. split; [done|].
      rewrite Heq. destruct a; simpl; try done; by destruct (updatePool s _).
Qed.

Lemma updatePool_sameKind s a s' : updatePool s a = Some s' → sameKind s s'.
Proof. destruct a; simpl; intros; simplify_eq; by split. Qed.

Section apply.
Context (C R : Z) (known : list string) (desired : list Pool) (floor : transitionFloor).
Context (Hknown : (Pool_Name <$> desired) ⊆ known).

Lemma planInv_replace l1 l2 s s' :
  planInv C R known (l1 ++ s :: l2) → sameKind s s' →
  0 <= ps_Count s' <= C → 0 <= ps_MaxCount s' <= C → 0 <= ps_MinCount s' →
  planInv C R known (l1 ++ s' :: l2).
Proof.
  intros [H1 H2 H3 H4 H5 H6] [Kn Kk Kv Km Ki Ks Kf] Hc Hm Hmin.
  assert (Hnames : ps_Name <$> l1 ++ s' :: l2 = ps_Name <$> l1 ++ s :: l2).
  { rewrite !fmap_app, !fmap_cons. by rewrite Kn. }
  split; try done; [by rewrite Hnames..|].
  apply Forall_app in H5 as [H5 [H7 H8]%Forall_cons]. apply Forall_app. split; [done|].
  constructor; [|done]. destruct H7 as [[P1 P2 P3 P4] _ _ _].
  split; try done. split; rewrite ?Kv, ?Km, ?Ki, ?Ks; done.
Qed.

Lemma planInv_delete l1 l2 s : planInv C R known (l1 ++ s :: l2) → planInv C R known (l1 ++ l2).
Proof.
  intros [H1 H2 H3 H4 H5 H6].
  assert (Hsub : (l1 ++ l2) `sublist_of` (l1 ++ s :: l2)).
  { apply sublist_app; [done|]. by apply sublist_cons. }
  split; try done.
  - eapply sublist_NoDup; [exact H3|]. by apply fmap_sublist.
  - intros n Hn. apply H4. eapply sublist_subseteq; [|exact Hn]. by apply fmap_sublist.
  - apply Forall_app in H5 as [H5 [H7 H8]%Forall_cons]. by apply Forall_app.
Qed.

Lemma planInv_create state p :
  planInv C R known state → Pool_Name p ∉ ps_Name <$> state →
  Pool_Name p ∈ Pool_Name <$> desired → poolOk R p →
  0 <= Pool_MinCount p <= Pool_MaxCount p → 1 <= Pool_MaxCount p <= C →
  planInv C R known (state ++ [createdPool p (Pool_Name p)]).
Proof.
  intros [H1 H2 H3 H4 H5 H6] Hnew Hin Hok Hmin Hmax. split; try done.
  - rewrite fmap_app. apply NoDup_app. split_and!; [done| |apply NoDup_singleton].
    intros n Hn ->%list_elem_of_singleton. done.
  - rewrite fmap_app. intros n [Hn| ->%list_elem_of_singleton]%elem_of_app; [auto|].
    by apply Hknown.
  - apply Forall_app. split; [done|]. constructor; [|done]. split; simpl; try done; [lia| |lia].
    unfold ps_MaxCount. simpl. lia.
Qed.

(** Applying the update an action makes to an observed pool. *)
Lemma apply_update state a s s' :
  planInv C R known state → floorMet (floor_zones floor) state →
  s ∈ state → ps_Name s = action_poolName a → updatePool s a = Some s' →
  (match a with deleteAction _ _ | createAction _ _ _ => False | _ => True end) →
  0 <= ps_Count s' <= C → 0 <= ps_MaxCount s' <= C → 0 <= ps_MinCount s' →
  safeCeiling (floor_zones floor) state s (poolCeiling s') →
  ∃ state', applyAction state a = Ok state' ∧
    planInv C R known state' ∧ floorMet (floor_zones floor) state'.
Proof.
  intros Hinv Hmet Hs Hn Hup Ha Hc Hm Hmin Hsafe.
  destruct (so_pool _ _ _ (state_ok _ _ _ _ Hinv s Hs)) as [P1 P2 P3 _].
  destruct (applyLoop_found state a s (pi_names _ _ _ _ Hinv) Hs Hn) as (l1 & l2 & Heq & Happ).
  pose proof (updatePool_sameKind s a s' Hup) as Hk.
  exists (l1 ++ s' :: l2). rewrite Heq in Hinv, Hmet, Hsafe.
  split; [|split; [by eapply planInv_replace|]].
  - transitivity (applyLoop state a); [by destruct a|]. rewrite Happ.
    destruct a; try done; by rewrite Hup.
  - eapply floorMet_replace; try done; lia.
Qed.

Lemma apply_delete state b etag s :
  planInv C R known state → floorMet (floor_zones floor) state →
  s ∈ state → ps_Name s = ab_name b → allowsPoolDeletion state s floor = true →
  ∃ state', applyAction state (deleteAction b etag) = Ok state' ∧
    planInv C R known state' ∧ floorMet (floor_zones floor) state'.
Proof.
  intros Hinv Hmet Hs Hn Hal. pose proof (pi_C _ _ _ _ Hinv) as HC.
  pose proof (poolCeiling_bounds _ _ _ (state_ok _ _ _ _ Hinv s Hs)) as Hceil.
  unfold allowsPoolDeletion in Hal.
  destruct (allowsCapacityReduction state s 0 floor) eqn:Hred; [|done]. simpl in Hal.
  apply (allowsCapacityReduction_safe C R known state Hinv) in Hred; [|done|lia].
  destruct (applyLoop_found state (deleteAction b etag) s (pi_names _ _ _ _ Hinv) Hs Hn)
    as (l1 & l2 & Heq & Happ).
  exists (l1 ++ l2). split; [done|].
  assert (Hother : ∀ f, floor_zones floor !! RoleZoneKey (ps_Pool s) = Some f →
    ∃ x, x ∈ l1 ++ l2 ∧ RoleZoneKey (ps_Pool x) = RoleZoneKey (ps_Pool s)).
  { intros f Hf. rewrite Hf in Hal. apply existsb_elem in Hal as (x & Hx & Hxk).
    bool_reflect. exists x. split; [|done]. rewrite Heq in Hx.
    apply String.eqb_neq in H. set_solver. }
  rewrite Heq in Hinv, Hmet, Hred. split; [by eapply planInv_delete|].
  eapply floorMet_delete; try done. lia.
Qed.

(** A valid action can be applied; the invariant and the floor are kept. *)
Lemma applyAction_safe state a :
  planInv C R known state → floorMet (floor_zones floor) state →
  actionSafe C R desired floor state a →
  (match a with waitAction _ _ | reconcileAction _ _ => False | _ => True end) →
  ∃ state', applyAction state a = Ok state' ∧
    planInv C R known state' ∧ floorMet (floor_zones floor) state'.
Proof.
  intros Hinv Hmet Hsafe Ha. pose proof (pi_C _ _ _ _ Hinv) as HC.
  assert (Hst : ∀ s, s ∈ state → stateOk C R s) by apply (state_ok _ _ _ _ Hinv).
  destruct a as [| |b p nc|b e mn mx|b e mn mx|b e c|b e c|b e|b e lb ta]; try done.
  - destruct Hsafe as (Hn & H1 & H2 & H3 & H4 & H5).
    exists (state ++ [createdPool p (Pool_Name p)]). split_and!.
    + simpl. unfold action_poolName. simpl. by rewrite <- Hn.
    + by apply planInv_create.
    + destruct H3. apply floorMet_snoc; simpl; try lia; [|done].
      unfold poolCeiling, ps_MaxCount. simpl. lia.
  - destruct Hsafe as (s & Hs & Hn & Hauto & H1 & H2 & H3). destruct (Hst s Hs).
    eapply apply_update; try done; simpl; try lia; [unfold ps_MaxCount; simpl; lia|].
    unfold poolCeiling at 1. simpl. by rewrite Hauto.
  - destruct Hsafe as (s & Hs & Hn & Hauto & H1 & H2). destruct (Hst s Hs).
    eapply apply_update; try done; simpl; try lia; [unfold ps_MaxCount; simpl; lia|].
    left. unfold poolCeiling. simpl. rewrite Hauto. unfold ps_MaxCount. simpl. lia.
  - destruct Hsafe as (s & Hs & Hn & Hauto & -> & H2). destruct (Hst s Hs).
    eapply apply_update; try done; simpl; lia.
  - destruct Hsafe as (s & Hs & Hn & Hauto & -> & H2 & H3). destruct (Hst s Hs).
    eapply apply_update; try done; simpl; try lia; [unfold ps_MaxCount; simpl; lia|].
    unfold poolCeiling at 1. simpl. by rewrite Hauto.
  - destruct Hsafe as (s & Hs & Hn & Hal). by eapply apply_delete.
  - destruct Hsafe as (s & Hs & Hn & _). destruct (Hst s Hs).
    eapply apply_update; try done. by left.
Qed.
End apply.

(** ** The projection *)

Lemma meets_floorMet C R known state m floor :
  planInv C R known state → PoolZoneCapacities (ceilingPools state) = Ok m →
  meets m floor ↔ floorMet floor state.
Proof.
  intros Hinv Hm. destruct (zoneCapacity_exact C R known state Hinv) as (m' & Hm' & Hdom & Hval).
  rewrite Hm in Hm'. simplify_eq. unfold meets, floorMet, map_Forall.
  split; intros H key f Hf; specialize (H key f Hf); specialize (Hval key).
  - destruct H as (got & Hgot & Hcov%Covers_spec). split; [apply Hdom; rewrite Hgot; eauto|].
    rewrite Hgot in Hval. simpl in Hval. subst got. simpl in Hcov. done.
  - destruct H as (Hin & H). apply Hdom in Hin as [got Hgot]. exists got. split; [done|].
    rewrite Hgot in Hval. simpl in Hval. subst got. by apply Covers_spec.
Qed.

Lemma roleCapacity_ok C R known state :
  planInv C R known state → ∃ m, PoolCapacities (ceilingPools state) = Ok m.
Proof.
  intros Hinv. apply accumulate_ok, (ceilingPools_known C R); [|apply Hinv].
  pose proof (pi_C _ _ _ _ Hinv). lia.
Qed.

(** A recorded step: the state's exact zone capacities, which meet the floor. *)
Definition stepMeets (floor : CapacityByRoleZone) (step : traceStep) : Prop :=
  PoolZoneCapacities (ceilingPools (step_State step)) = Ok (step_ZoneCapacity step) ∧
  meets (step_ZoneCapacity step) floor.

(** What a run of the loop from [state] yields. *)
Record loopResult (ctx : simContext) (n : nat) (state : list PoolState)
    (steps : list traceStep) (r : result go_panic (trace * option sim_error)) : Prop := {
  lr_run : ∃ tr new, r = Ok (tr, None) ∧
    tr_Steps tr = steps ++ new ∧ (length new ≤ n)%nat ∧
    Forall (stepMeets (floor_zones (ctx_floor ctx))) new ∧
    tr_ZoneFloor tr = tr_ZoneFloor (ctx_trace ctx) ∧
    tr_Initial tr = tr_Initial (ctx_trace ctx) ∧
    tr_Outcome tr ≠ OutcomeNone ∧
    (tr_Outcome tr = OutcomeConverged →
     configurationConverged (ctx_desired ctx) (default state (step_State <$> last new)) = true);
}.

Lemma loopResult_stop ctx n state steps rejected o reason :
  o ≠ OutcomeNone →
  (o = OutcomeConverged → configurationConverged (ctx_desired ctx) state = true) →
  loopResult ctx n state steps
    (Ok (withOutcome (ctx_trace ctx) steps rejected o reason, None)).
Proof.
  intros Ho Hc. split. eexists _, []. split; [done|]. rewrite app_nil_r.
  split_and!; simpl; (done || lia || by constructor).
Qed.

Section projection.
Context (C R : Z) (known : list string) (ctx : simContext).
Context (Hdes : Forall (desiredOk C R) (ctx_desired ctx))
  (Hknown : (Pool_Name <$> ctx_desired ctx) ⊆ known).

Abbreviation fl := (floor_zones (ctx_floor ctx)) (only parsing).

(** A wait or reconcile ends the projection with one recorded step. *)
Lemma loopResult_observed n state steps a cap zc before :
  planInv C R known state → floorMet fl state →
  PoolZoneCapacities (ceilingPools state) = Ok zc →
  loopResult ctx (S n) state steps
    (Ok (withOutcome (ctx_trace ctx) (steps ++ [observedStep a state before cap zc]) None
           OutcomeWaiting (waitingReason a), None)).
Proof.
  intros Hinv Hmet Hzc. split. eexists _, [_]. split; [done|].
  split_and!; simpl; try (done || lia). constructor; [|done]. split; [done|].
  by eapply meets_floorMet.
Qed.

Lemma projectStep_ok action before state :
  planInv C R known state → floorMet fl state →
  ∃ step, projectStep ctx action before state = Ok step ∧
    step_State step = state ∧ stepMeets fl step ∧
    EnsureMeetsBaseline (step_ZoneCapacity step) fl = None.
Proof.
  intros Hinv Hmet. unfold projectStep.
  destruct (roleCapacity_ok _ _ _ _ Hinv) as [rc ->].
  destruct (zoneCapacity_exact C R known state Hinv) as (zc & Hzc & _). rewrite Hzc.
  eexists. split; [done|]. split; [done|].
  assert (Hm : meets zc fl) by (by eapply meets_floorMet).
  split; [by split|]. by apply EnsureMeetsBaseline_meets.
Qed.

Lemma loopResult_step n state state' steps step r :
  step_State step = state' → stepMeets fl step →
  loopResult ctx n state' (steps ++ [step]) r → loopResult ctx (S n) state steps r.
Proof.
  intros Hst Hm [(tr & new & -> & H1 & H2 & H3 & H4 & H5 & H6 & H7)].
  split. exists tr, (step :: new). split; [done|]. rewrite <- app_assoc in H1.
  split_and!; try (done || (simpl; lia) || by constructor).
  intros Hc. rewrite last_cons. specialize (H7 Hc). destruct (last new); simpl in *; [done|].
  by rewrite Hst.
Qed.

Lemma simulateLoop_safe n state cap zc steps :
  planInv C R known state → floorMet fl state →
  PoolZoneCapacities (ceilingPools state) = Ok zc →
  loopResult ctx n state steps (simulateLoop ctx n state cap zc steps).
Proof.
  revert state cap zc steps. induction n as [|n IH]; intros state cap zc steps Hinv Hmet Hzc;
    cbn [simulateLoop];
    destruct (findNextAction_safe C R known state (ctx_desired ctx) (ctx_floor ctx) Hinv Hdes
      (liveAt ctx state) emptyNetworkConfig) as (action & -> & Hsafe); cbn [result_bind].
  - destruct (ctx_floorErr ctx), (isWait action), action; try destruct (configurationConverged _ _) eqn:?;
      by apply loopResult_stop.
  - assert (Hgo : ∀ a, action = Some a →
      match a with waitAction _ _ | reconcileAction _ _ => False | _ => True end →
      let before := computeFamilyHeadroom (liveAt ctx state) state in
      loopResult ctx (S n) state steps
        match applyAction state a with
        | Err e => Ok (withOutcome (ctx_trace ctx) steps None OutcomeNone "", Some e)
        | Ok state =>
            match projectStep ctx a before state with
            | Err e => Ok (withOutcome (ctx_trace ctx) steps None OutcomeNone "", Some e)
            | Ok step =>
                match EnsureMeetsBaseline (step_ZoneCapacity step) fl with
                | Some e => Ok (withOutcome (ctx_trace ctx) (steps ++ [step]) None OutcomeNone "",
                    Some (ErrFloorViolated (action_kind a) (action_poolName a) e))
                | None => simulateLoop ctx n state (step_Capacity step)
                    (step_ZoneCapacity step) (steps ++ [step])
                end
            end
        end).
    { intros a Ha Hk before.
      destruct (applyAction_safe C R known (ctx_desired ctx) (ctx_floor ctx) Hknown state a
        Hinv Hmet (Hsafe a Ha) Hk) as (state' & -> & Hinv' & Hmet').
      destruct (projectStep_ok a before state' Hinv' Hmet') as (step & -> & Hst & Hm & ->).
      eapply loopResult_step; [done|done|]. rewrite <- Hst in *. apply IH; [done|done|apply Hm]. }
    destruct (ctx_floorErr ctx) as [e|], (isWait action) eqn:Hw;
      try (by apply loopResult_stop);
      (destruct action as [a|]; [|destruct (configurationConverged _ _) eqn:?;
         by apply loopResult_stop]);
      destruct a; try done; try (by apply loopResult_observed); by apply Hgo.
Qed.
End projection.

(** The inputs of a projection: validated desired pools, distinct observed pools
    with resolved SKUs, and sizes for which the 64-bit sums are exact. *)
Record projectionInputs (C R : Z) (desired : list Pool) (initial : list PoolState) : Prop := {
  in_C : 0 <= C <= maxInt32;
  in_R : 0 <= R;
  in_desired : Forall (desiredOk C R) desired;
  in_initial : Forall (stateOk C R) initial;
  in_names : NoDup (ps_Name <$> initial);
  in_fit : (Z.of_nat (length initial) + Z.of_nat (length desired)) * (C * R) <= maxInt64;
}.

Definition knownNames (desired : list Pool) (initial : list PoolState) : list string :=
  (ps_Name <$> initial) ++ (Pool_Name <$> desired).

Lemma initial_inv C R desired initial :
  projectionInputs C R desired initial →
  planInv C R (knownNames desired initial) initial.
Proof.
  intros [H1 H2 H3 H4 H5 H6]. split; try done; unfold knownNames; [set_solver|].
  rewrite length_app, !length_fmap. lia.
Qed.

Lemma desired_known C R desired : Forall (desiredOk C R) desired → Forall capacity_known desired.
Proof.
  intros H. eapply Forall_impl; [exact H|]. intros p [Hp Hm _].
  assert (withMaxCount p (Pool_MaxCount p) = p) as <- by (by destruct p).
  apply (poolOk_known R); [done|lia].
Qed.

Lemma resolveFloor_met C R known desiredZones initial fa m :
  planInv C R known initial → PoolZoneCapacities (ceilingPools initial) = Ok m →
  floorMet (resolveFloor desiredZones (Ok m) fa).1 initial.
Proof.
  intros Hinv Hm. apply (meets_floorMet C R known _ m); [done|done|]. unfold resolveFloor.
  pose proof (ResolveEffectiveFloor_meets desiredZones m fa) as H.
  destruct (ResolveEffectiveFloor desiredZones m fa); simpl; [done|].
  intros key f Hf. exists f. auto with aro.
Qed.

Lemma checks_pass C R desired initial :
  projectionInputs C R desired initial →
  checkDesiredBounds desired = None ∧ checkObserved initial = None.
Proof.
  intros [_ _ Hd Hi _ _]. rewrite Forall_forall in Hd. rewrite Forall_forall in Hi.
  split; apply find_map_None.
  - intros p Hp. destruct (Hd p Hp) as [_ H1 H2].
    rewrite (proj2 (Z.leb_gt _ _)), !(proj2 (Z.ltb_ge _ _)) by lia. done.
  - intros s Hs. destruct (Hi s Hs) as [_ H1 H2 H3].
    rewrite !(proj2 (Z.ltb_ge _ _)) by lia. done.
Qed.

(** The result of a projection; the claims below state its parts. *)
Lemma simulateAndTrace_result (C R : Z) (desired : list Pool) (initial : list PoolState)
    (budgets : gmap VMFamily Z) (fullyAllocated : bool) (maxCycles : Z)
    (Hin : projectionInputs C R desired initial) (Hcycles : 0 <= maxCycles) :
  ∃ tr, simulateAndTrace desired initial budgets fullyAllocated maxCycles = Ok (tr, None) ∧
    Z.of_nat (length (tr_Steps tr)) <= maxCycles ∧
    tr_Outcome tr ≠ OutcomeNone ∧
    Forall (λ step,
        PoolZoneCapacities (ceilingPools (step_State step)) = Ok (step_ZoneCapacity step) ∧
        meets (step_ZoneCapacity step) (tr_ZoneFloor tr)) (tr_Steps tr) ∧
    (tr_Outcome tr = OutcomeConverged → configurationConverged desired (finalState tr) = true).
Proof.
  pose proof (initial_inv C R desired initial Hin) as Hinv. unfold simulateAndTrace.
  rewrite (proj2 (Z.ltb_ge _ _)) by lia.
  destruct (checks_pass C R desired initial Hin) as [-> ->].
  destruct (roleCapacity_ok _ _ _ _ Hinv) as [rc ->].
  destruct (zoneCapacity_exact _ _ _ _ Hinv) as (zc & Hzc & _).
  destruct (accumulate_ok RoleZoneKey desired) as [dz Hdz]; [eapply desired_known, Hin|].
  unfold PoolZoneCapacities at 1. rewrite Hdz, Hzc.
  pose proof (resolveFloor_met C R _ dz initial fullyAllocated zc Hinv Hzc) as Hmet.
  destruct (resolveFloor dz (Ok zc) fullyAllocated) as [floor floorErr]. simpl in Hmet.
  set (ctx := {| ctx_desired := desired |}).
  destruct (simulateLoop_safe C R (knownNames desired initial) ctx (in_desired _ _ _ _ Hin)
    ltac:(unfold knownNames; set_solver) (Z.to_nat maxCycles) initial rc zc [] Hinv Hmet Hzc)
    as [(tr & new & -> & H1 & H2 & H3 & H4 & H5 & H6 & H7)].
  simpl in H1, H4, H5. exists tr. rewrite H1, H4. split_and!; try done; [lia|].
  intros Hc. specialize (H7 Hc). unfold finalState. rewrite H1, H5.
  by destruct (last new).
Qed.

(** (C2) A projection always ends, within the step limit, with one of the reported
    outcomes and no error: the planner's own actions can always be applied, and
    after every step the capacity of every protected role and zone is present
    and at or above the floor in vCPUs, memory and NICs.  When the outcome is
    "converged" the final state really matches the desired configuration. *)
Theorem simulateAndTrace_safe (C R : Z) (desired : list Pool) (initial : list PoolState)
    (budgets : gmap VMFamily Z) (fullyAllocated : bool) (maxCycles : Z)
    (Hin : projectionInputs C R desired initial) (Hcycles : 0 <= maxCycles) :
  ∃ tr, simulateAndTrace desired initial budgets fullyAllocated maxCycles = Ok (tr, None) ∧
    Z.of_nat (length (tr_Steps tr)) <= maxCycles ∧
    tr_Outcome tr ≠ OutcomeNone ∧
    Forall (λ step,
        PoolZoneCapacities (ceilingPools (step_State step)) = Ok (step_ZoneCapacity step) ∧
        meets (step_ZoneCapacity step) (tr_ZoneFloor tr)) (tr_Steps tr) ∧
    (tr_Outcome tr = OutcomeConverged → configurationConverged desired (finalState tr) = true).
Proof. by apply (simulateAndTrace_result C R). Qed.

(** In short: the simulator returns a trace. *)
Lemma simulateAndTrace_total C R desired initial budgets fullyAllocated maxCycles :
  projectionInputs C R desired initial → 0 <= maxCycles →
  ∃ tr, simulateAndTrace desired initial budgets fullyAllocated maxCycles = Ok (tr, None).
Proof.
  intros Hin Hc. destruct (simulateAndTrace_result C R desired initial budgets fullyAllocated
    maxCycles Hin Hc) as (tr & H & _). eauto.
Qed.

Lemma ZeroSlack_inputs : projectionInputs 6 274877906944 ZeroSlack.desired ZeroSlack.initial.
Proof.
  split; try (by vm_compute).
  - constructor; [|constructor]. split; [split|..]; by vm_compute.
  - constructor; [|constructor]. split; [split|..]; by vm_compute.
  - apply (bool_decide_unpack _). by vm_compute.
Qed.

Lemma simulateAndTrace_safe_witness :
  ∃ tr, ZeroSlack.run = Ok (tr, None) ∧ tr_Outcome tr = OutcomeConverged ∧
    configurationConverged ZeroSlack.desired (finalState tr) = true.
Proof.
  destruct (simulateAndTrace_safe 6 274877906944 ZeroSlack.desired ZeroSlack.initial
    ZeroSlack.budgets true 20 ZeroSlack_inputs ltac:(lia)) as (tr & Hrun & _ & _ & _ & Hc).
  exists tr. split; [exact Hrun|].
  assert (Ho : match ZeroSlack.run with Ok (tr, None) => tr_Outcome tr | _ => OutcomeNone end
               = OutcomeConverged) by (vm_compute; reflexivity).
  unfold ZeroSlack.run in Ho. rewrite Hrun in Ho. split; [exact Ho|exact (Hc Ho)].
Defined.
