(* ===== verification/NodePoolQuota.v ===== *)
(** * Quota and protocol properties of the planner

    Growth stays within the family's vCPU headroom, an observed operation blocks
    everything else, the last system pool is never deleted, and a converged
    configuration needs no action. *)
From S2P Require Import Prelude GoStrings ComputeTypes ComputeCapacity NodePoolPlan.
From S2P Require Import NodePoolSimulation NodePoolSafety.

Local Open Scope Z_scope.
Local Open Scope go_scope.

(** ** Sums per family *)

Definition familyOf (s : PoolState) : VMFamily := spec_Family (ps_Spec s).
Definition vcpusAt (s : PoolState) : Z := spec_VCPUs (ps_Spec s).

(** A sum over the pools of a family. *)
Definition famSum (g : PoolState → Z) (f : VMFamily) (state : list PoolState) : Z :=
  Zsum ((λ s, if decide (familyOf s = f) then g s else 0) <$> state).

Lemma famSum_app g f l1 l2 : famSum g f (l1 ++ l2) = famSum g f l1 + famSum g f l2.
Proof. unfold famSum. by rewrite fmap_app, Zsum_app. Qed.

Lemma famSum_cons g f s l :
  famSum g f (s :: l) = (if decide (familyOf s = f) then g s else 0) + famSum g f l.
Proof. done. Qed.

(** Nodes running, and nodes reserved beyond those running. *)
Definition running (s : PoolState) : Z := ps_Count s * vcpusAt s.
Definition reserved (s : PoolState) : Z := Z.max (poolCeiling s - ps_Count s) 0 * vcpusAt s.
(** What the pool may come to use: the larger of its ceiling and its nodes. *)
Definition committed (s : PoolState) : Z := Z.max (poolCeiling s) (ps_Count s) * vcpusAt s.

Lemma committed_split f state :
  famSum committed f state = famSum running f state + famSum reserved f state.
Proof.
  unfold famSum. rewrite <- Zsum_map_add. apply Zsum_map_ext. intros s _.
  unfold committed, running, reserved. destruct (decide _); lia.
Qed.

(** The accumulation loops of [runningVCPU] and [reservedVCPUs]. *)
Definition addTo (g : PoolState → Z) (m : gmap VMFamily Z) (s : PoolState) : gmap VMFamily Z :=
  <[familyOf s := default 0 (m !! familyOf s) +! g s]> m.

Lemma addTo_lookup g m s f :
  default 0 (addTo g m s !! f) =
  if decide (familyOf s = f) then default 0 (m !! f) +! g s else default 0 (m !! f).
Proof.
  unfold addTo. destruct (decide _) as [<-|]; [by rewrite lookup_insert_eq|].
  by rewrite lookup_insert_ne.
Qed.

Lemma fold_addTo g state m f :
  in64 (default 0 (m !! f)) →
  default 0 (fold_left (addTo g) state m !! f) = wrap64 (default 0 (m !! f) + famSum g f state).
Proof.
  revert m. induction state as [|s state IH]; intros m Hm; cbn [fold_left].
  - unfold famSum. simpl. by rewrite Z.add_0_r, wrap64_id.
  - rewrite famSum_cons, IH; rewrite addTo_lookup; destruct (decide _);
      try apply wrap64_in64; try done.
    autorewrite with wrap. f_equal. lia.
Qed.

(** Wrapping every term does not change the wrapped sum. *)
Lemma famSum_wrap (g h : PoolState → Z) f state :
  (∀ s, s ∈ state → g s = wrap64 (h s)) →
  wrap64 (famSum g f state) = wrap64 (famSum h f state).
Proof.
  intros Hg. induction state as [|s state IH]; [done|]. rewrite !famSum_cons.
  specialize (IH ltac:(intros x Hx; apply Hg; by right)).
  rewrite <- wrap64_add_r, IH, wrap64_add_r.
  destruct (decide _); [|done]. rewrite Hg by left. by rewrite wrap64_add_l.
Qed.

Lemma runningVCPU_wrap state f :
  default 0 (runningVCPU state !! f) = wrap64 (famSum running f state).
Proof.
  change (runningVCPU state) with
    (fold_left (addTo (λ s, ps_Count s *! vcpusAt s)) state ∅).
  rewrite fold_addTo by (rewrite lookup_empty; by vm_compute).
  rewrite lookup_empty. simpl. by apply famSum_wrap.
Qed.

Lemma reservedVCPUs_wrap state f :
  (∀ s, s ∈ state → vcpusAt s ≠ 0 ∧ in64 (poolCeiling s - ps_Count s)) →
  default 0 (reservedVCPUs state !! f) = wrap64 (famSum reserved f state).
Proof.
  intros Hv.
  assert (reservedVCPUs state =
    fold_left (addTo (λ s, Z.max (poolCeiling s -! ps_Count s) 0 *! vcpusAt s)) state ∅) as ->.
  { unfold reservedVCPUs. generalize (∅ : gmap VMFamily Z).
    induction state as [|s state IH]; intros m; cbn [fold_left]; [done|].
    destruct (Hv s ltac:(left)) as [Hs _].
    change (spec_VCPUs (ps_Spec s)) with (vcpusAt s).
    destruct (vcpusAt s =? 0) eqn:E; bool_reflect; [done|].
    apply IH. intros x Hx. apply Hv. by right. }
  rewrite fold_addTo by (rewrite lookup_empty; by vm_compute).
  rewrite lookup_empty. simpl. apply famSum_wrap. intros s Hs.
  destruct (Hv s Hs) as [_ Hin]. by rewrite (wrap64_id (_ - _)).
Qed.

(** ** Exact headroom *)

Definition headroomAt (live : gmap VMFamily Z) (state : list PoolState) (f : VMFamily) : Z :=
  default 0 (computeFamilyHeadroom live state !! f).

(** Small enough for the headroom arithmetic: twice the largest sum and the
    budgets fit together. *)
Record quotaFits (C R : Z) (known : list string) (budgets : gmap VMFamily Z) : Prop := {
  qf_sum : Z.of_nat (length known) * (C * R) <= 2 ^ 61;
  qf_budgets : ∀ f b, budgets !! f = Some b → - 2 ^ 61 <= b <= 2 ^ 61;
}.

Section headroom.
Context (C R : Z) (known : list string) (budgets : gmap VMFamily Z).
Context (Hfit : quotaFits C R known budgets).

Lemma famSum_bounds g f state :
  planInv C R known state → (∀ s, s ∈ state → 0 <= g s <= C * R) →
  0 <= famSum g f state <= 2 ^ 61.
Proof.
  intros Hinv Hg.
  assert (Hlen : Z.of_nat (length state) <= Z.of_nat (length known)).
  { apply inj_le. rewrite <- (length_fmap ps_Name state).
    apply submseteq_length, NoDup_submseteq; apply Hinv. }
  assert (H : 0 <= famSum g f state <= Z.of_nat (length state) * (C * R)).
  { clear Hinv Hlen. induction state as [|s state IH]; [unfold famSum; simpl; lia|].
    rewrite famSum_cons. specialize (IH ltac:(intros x Hx; apply Hg; by right)).
    specialize (Hg s ltac:(left)). cbn [length]. rewrite Nat2Z.inj_succ.
    destruct (decide _); nia. }
  destruct Hinv as [HC HR _ _ _ _]. pose proof (qf_sum _ _ _ _ Hfit).
  assert (Z.of_nat (length state) * (C * R) <= Z.of_nat (length known) * (C * R)); [|lia].
  apply Z.mul_le_mono_nonneg_r; nia.
Qed.

Lemma committed_bounds state s :
  planInv C R known state → s ∈ state →
  0 <= running s <= C * R ∧ 0 <= reserved s <= C * R ∧ 0 <= committed s <= C * R ∧
  0 < vcpusAt s ∧ in64 (poolCeiling s - ps_Count s).
Proof.
  intros Hinv Hs. pose proof (state_ok _ _ _ _ Hinv s Hs) as Hok.
  pose proof (poolCeiling_bounds _ _ _ Hok) as Hc. pose proof (pi_C _ _ _ _ Hinv).
  destruct Hok as [[Hv _ _ _] Hcnt _ _]. change (vcpusOf (ps_Pool s)) with (vcpusAt s) in Hv.
  unfold running, reserved, committed. split_and!; try nia; int_range.
Qed.

(** The headroom of a tracked family is its budget, anchored at the initial
    usage, less everything the pools have committed. *)
Lemma headroom_exact initial state f b :
  planInv C R known initial → planInv C R known state → budgets !! f = Some b →
  headroomAt (liveBudget budgets (runningVCPU initial) (runningVCPU state)) state f =
  b + famSum running f initial - famSum committed f state.
Proof.
  intros Hi Hs Hb. unfold headroomAt, computeFamilyHeadroom, liveBudget.
  pose proof (qf_budgets _ _ _ _ Hfit f b Hb) as Hbb.
  assert (Hr0 := famSum_bounds running f initial Hi
    (λ s H, proj1 (committed_bounds initial s Hi H))).
  assert (Hr := famSum_bounds running f state Hs
    (λ s H, proj1 (committed_bounds state s Hs H))).
  assert (Hres := famSum_bounds reserved f state Hs
    (λ s H, proj1 (proj2 (committed_bounds state s Hs H)))).
  rewrite lookup_union, map_lookup_imap, map_lookup_imap, Hb. simpl.
  rewrite (union_Some_l _ _). simpl.
  rewrite reservedVCPUs_wrap, !runningVCPU_wrap.
  - rewrite committed_split, !(wrap64_id (famSum _ _ _)) by (apply in64_unfold; lia).
    rewrite (wrap64_id (b + _)), (wrap64_id (_ - famSum running f state)), wrap64_id
      by (apply in64_unfold; lia). lia.
  - intros s Hin. destruct (committed_bounds state s Hs Hin) as (_ & _ & _ & ? & ?).
    split; [lia|done].
Qed.
End headroom.

(** ** Growth fits the headroom *)

(** A desired pool and the observed pool of its name have the same VM size; pool
    names carry a hash of it. *)
Definition specMatch (desired : list Pool) (state : list PoolState) : Prop :=
  ∀ p s, p ∈ desired → s ∈ state → ps_Name s = Pool_Name p → ps_Spec s = Pool_Spec p.

(** What an action adds to the commitment of its family is within [h]. *)
Definition actionFits (h : VMFamily → Z) (state : list PoolState) (a : Action) : Prop :=
  match a with
  | createAction _ p _ =>
      Pool_MaxCount p * spec_VCPUs (Pool_Spec p) <= h (spec_Family (Pool_Spec p))
  | setScalingBoundsAction b _ _ mx =>
      ∃ s, s ∈ state ∧ ps_Name s = ab_name b ∧
        (mx <= ps_MaxCount s ∨ (mx - ps_MaxCount s) * vcpusAt s <= h (familyOf s))
  | unfreezeAction b _ _ mx =>
      ∃ s, s ∈ state ∧ ps_Name s = ab_name b ∧ (mx - ps_Count s) * vcpusAt s <= h (familyOf s)
  | _ => True
  end.

Lemma headroom_in64 live state f : in64 (headroomAt live state f).
Proof.
  unfold headroomAt, computeFamilyHeadroom.
  rewrite lookup_union, map_lookup_imap, lookup_fmap.
  destruct (live !! f), (reservedVCPUs state !! f); simpl; try apply wrap64_in64. by vm_compute.
Qed.

Lemma canGrow_fits h v :
  0 < v → in64 h → 0 < wrap64 (Z.quot h v) → wrap64 (Z.quot h v) * v <= h.
Proof.
  intros Hv Hh. rewrite in64_unfold in Hh.
  assert (Hq : Z.abs (Z.quot h v) <= Z.abs h).
  { rewrite <- Z.quot_abs by lia. rewrite (Z.abs_eq v) by lia.
    rewrite Z.quot_div_nonneg by lia. apply Z.div_le_upper_bound; nia. }
  destruct (Z.eq_dec (Z.quot h v) (2 ^ 63)) as [E|Hne].
  { rewrite E. by vm_compute. }
  rewrite wrap64_id by (apply in64_unfold; lia). intros Hpos.
  destruct (Z.lt_ge_cases h 0) as [Hneg|Hnn].
  - pose proof (Z.quot_le_mono h 0 v Hv ltac:(lia)) as H. rewrite Z.quot_0_l in H by lia. lia.
  - rewrite Z.mul_comm. apply Z.mul_quot_le; lia.
Qed.

Section fits.
Context (C R : Z) (known : list string) (desired : list Pool) (state : list PoolState)
  (floor : transitionFloor) (live : gmap VMFamily Z).
Context (Hinv : planInv C R known state) (Hdes : Forall (desiredOk C R) desired)
  (Hspec : specMatch desired state).

Abbreviation fits := (actionFits (headroomAt live state) state) (only parsing).

Lemma growByCreating_fits nc l a :
  l ⊆ desired →
  growByCreating l (byName ps_Name state) (computeFamilyHeadroom live state) nc =
    Ok (Some a) → fits a.
Proof.
  intros Hsub. induction l as [|p l IH]; cbn [growByCreating]; [done|].
  specialize (IH ltac:(set_solver)).
  destruct (desired_ok C R desired Hdes p) as [Hpo Hpm Hpn]; [set_solver|].
  destruct (byName ps_Name state !! Pool_Name p); [done|].
  pose proof (po_vcpus _ _ Hpo) as Hv. unfold vcpusOf in Hv.
  rewrite goDiv_ok by lia. cbn [result_bind].
  fold (headroomAt live state (spec_Family (Pool_Spec p))).
  set (h := headroomAt _ _ _). pose proof (canGrow_fits h (spec_VCPUs (Pool_Spec p))
    ltac:(lia) (headroom_in64 _ _ _)) as Hg.
  set (g := wrap64 _) in *. pose proof (pi_C _ _ _ _ Hinv).
  destruct (g <=? 0) eqn:E; [done|]. bool_reflect. specialize (Hg ltac:(lia)).
  intros [= <-]. destruct (g <? Pool_MaxCount p) eqn:El; bool_reflect; simpl;
    rewrite ?(wrap32_id g) by int_range; fold h; nia.
Qed.

Lemma growByRaising_fits l a :
  l ⊆ desired →
  growByRaising l (byName ps_Name state) (computeFamilyHeadroom live state) =
    Ok (Some a) → fits a.
Proof.
  intros Hsub. induction l as [|p l IH]; cbn [growByRaising]; [done|].
  specialize (IH ltac:(set_solver)).
  destruct (desired_ok C R desired Hdes p) as [Hpo Hpm Hpn]; [set_solver|].
  destruct (byName ps_Name state !! Pool_Name p) as [s|] eqn:Es; [|done].
  apply byName_Some in Es as [Hs Hn]. destruct (_ || _) eqn:Eo; [done|]. bool_reflect.
  destruct (state_ok _ _ _ _ Hinv s Hs) as [_ Hcnt Hmax Hmin].
  pose proof (po_vcpus _ _ Hpo) as Hv. unfold vcpusOf in Hv.
  rewrite goDiv_ok by lia. cbn [result_bind].
  fold (headroomAt live state (spec_Family (Pool_Spec p))).
  set (h := headroomAt _ _ _). pose proof (canGrow_fits h (spec_VCPUs (Pool_Spec p))
    ltac:(lia) (headroom_in64 _ _ _)) as Hg.
  set (g := wrap64 _) in *. pose proof (pi_C _ _ _ _ Hinv).
  destruct (g <=? 0) eqn:E; [done|]. bool_reflect. specialize (Hg ltac:(lia)).
  clear IH. intros [= <-]. rewrite (wrap32_id (Pool_MaxCount p - _)) by int_range.
  set (gap := if g <? _ then g else _).
  assert (Hgap : 0 < gap <= Pool_MaxCount p - ps_MaxCount s ∧ gap <= g).
  { unfold gap. destruct (g <? _) eqn:?; bool_reflect; lia. }
  rewrite (wrap32_id gap), wrap32_id by int_range. exists s. simpl.
  split; [done|]. split; [done|]. right. unfold vcpusAt, familyOf.
  rewrite (Hspec p s) by (done || set_solver). fold h. nia.
Qed.

Lemma findCorrect_fits a :
  C * R <= maxInt64 →
  findCorrectDesiredAction desired (byName ps_Name state) (computeFamilyHeadroom live state)
    state floor = Some a → fits a.
Proof.
  intros HCR (p & Hp & H)%find_map_Some. unfold correctDesired in H.
  destruct (byName ps_Name state !! Pool_Name p) as [s|] eqn:Es; [|done].
  apply byName_Some in Es as [Hs Hn]. pose proof (pi_C _ _ _ _ Hinv).
  destruct (state_ok _ _ _ _ Hinv s Hs) as [_ Hcnt Hmax Hmin].
  destruct (desired_ok C R desired Hdes p Hp) as [Hpo Hpm Hpn].
  pose proof (po_vcpus _ _ Hpo) as Hv. unfold vcpusOf in Hv.
  fold (headroomAt live state (spec_Family (Pool_Spec p))) in H.
  scan_branch H; try done.
  - exists s. simpl. split; [done|]. split; [done|]. unfold vcpusAt, familyOf.
    rewrite (Hspec p s) by done. rewrite (wrap32_id (_ - _)) in * by int_range.
    rewrite wrap64_id in *; [done|]. apply in64_unfold. unfold maxInt64 in *. nia.
  - exists s. simpl. split; [done|]. split; [done|]. left.
    match goal with Ho : (_ || _) = true |- _ => apply orb_true_iff in Ho as [Ho|Ho] end;
      bool_reflect; lia.
Qed.

Lemma findShrink_fits desiredByName a :
  findShrinkAction state desiredByName floor = Some a → fits a.
Proof.
  pose proof (pi_C _ _ _ _ Hinv) as HC. unfold findShrinkAction.
  destruct (bool_decide _); [done|].
  set (l1 := sort_by nameLess _). set (l2 := sort_by countThenNameLess l1).
  assert (Hl1 : ∀ s, s ∈ l1 → s ∈ state).
  { intros s. unfold l1, undesiredPools. rewrite elem_of_sort_by, list_elem_of_filter. tauto. }
  unfold orElse, shrinkSystem, shrinkSqueeze, shrinkFreeze, shrinkDrain, shrinkDelete.
  intros H.
  repeat match type of H with
  | match find_map ?f ?l with Some _ => _ | None => _ end = _ =>
      let E := fresh "E" in destruct (find_map f l) eqn:E;
      [simplify_eq; rename E into H|clear E]
  end; apply find_map_Some in H as (s & Hin & H); scan_branch H; try done.
  apply Hl1 in Hin. destruct (state_ok _ _ _ _ Hinv s Hin) as [_ Hcnt Hmax Hmin].
  match goal with E : squeezeCeiling _ _ _ _ _ = Some _ |- _ =>
    apply (squeezeCeiling_safe C R known state floor Hinv) in E as [? ?]; [|done|lia|lia] end.
  exists s. simpl. split_and!; try done. left. lia.
Qed.

Lemma findNextAction_fits nc a :
  C * R <= maxInt64 →
  findNextAction desired state live floor nc = Ok (Some a) → fits a.
Proof.
  intros HCR. unfold findNextAction. destruct (firstInProgressPool state); [by intros [= <-]|].
  destruct (_ && _); [done|]. unfold findGrowAction.
  destruct (findReconcileAction _ _) eqn:E1.
  { intros [= <-]. apply find_map_Some in E1 as (p & Hp & H). by scan_branch H. }
  destruct (findCorrectDesiredAction _ _ _ _ _) eqn:E2.
  { intros [= <-]. by apply findCorrect_fits. }
  destruct (findDriftAction _ _) eqn:E3.
  { intros [= <-]. apply find_map_Some in E3 as (p & Hp & H). by scan_branch H. }
  destruct (growByCreating _ _ _ _) as [[a'|]|] eqn:E4; cbn [result_bind]; [|..|done].
  { intros [= <-]. by apply growByCreating_fits in E4. }
  destruct (growByRaising _ _ _) as [[a'|]|] eqn:E5; cbn [result_bind]; [|..|done].
  { intros [= <-]. by apply growByRaising_fits in E5. }
  intros [= H]. by apply findShrink_fits in H.
Qed.
End fits.

(** ** The effect of an action on the commitment *)

Lemma same_pool state s s' :
  NoDup (ps_Name <$> state) → s ∈ state → s' ∈ state → ps_Name s = ps_Name s' → s = s'.
Proof.
  intros Hnd Hs Hs' Hn. pose proof (byName_elem ps_Name state s Hnd Hs) as H1.
  pose proof (byName_elem ps_Name state s' Hnd Hs') as H2. congruence.
Qed.

Lemma committed_nonneg C R s : stateOk C R s → 0 <= committed s.
Proof.
  intros Hok. pose proof (poolCeiling_bounds _ _ _ Hok). destruct Hok as [[Hv _ _ _] ? _ _].
  unfold committed, vcpusAt. unfold vcpusOf in Hv. unfold ps_Spec. nia.
Qed.

Lemma famSum_update l1 l2 s s' f :
  familyOf s' = familyOf s → vcpusAt s' = vcpusAt s →
  famSum committed f (l1 ++ s' :: l2) = famSum committed f (l1 ++ s :: l2) +
    (if decide (familyOf s = f)
     then (Z.max (poolCeiling s') (ps_Count s') - Z.max (poolCeiling s) (ps_Count s)) * vcpusAt s
     else 0).
Proof.
  intros Hf Hv. rewrite !famSum_app, !famSum_cons, Hf. unfold committed at 2 5. rewrite Hv.
  destruct (decide _); lia.
Qed.

(** An update in place changes the commitment by that of the one pool. *)
Lemma commitment_update h state state' a f s s' :
  NoDup (ps_Name <$> state) → applyAction state a = Ok state' →
  s ∈ state → ps_Name s = action_poolName a → updatePool s a = Some s' →
  (match a with deleteAction _ _ | createAction _ _ _ => False | _ => True end) →
  (Z.max (poolCeiling s') (ps_Count s') - Z.max (poolCeiling s) (ps_Count s)) * vcpusAt s
    <= Z.max 0 (h (familyOf s)) →
  famSum committed f state' <= famSum committed f state + Z.max 0 (h f).
Proof.
  intros Hnd Happ Hs Hn Hup Hk Hle.
  destruct (applyLoop_found state a s Hnd Hs Hn) as (l1 & l2 & Heq & Hal).
  assert (state' = l1 ++ s' :: l2) as ->.
  { assert (applyAction state a = applyLoop state a) as Ha by (by destruct a).
    rewrite Ha, Hal in Happ. destruct a; try done; rewrite Hup in Happ; congruence. }
  destruct (updatePool_sameKind s a s' Hup) as [_ _ Kv _ _ _ Kf]. rewrite Heq.
  rewrite (famSum_update l1 l2 s s' f Kf Kv). destruct (decide _) as [<-|]; lia.
Qed.

(** Waiting and reconciling cannot be applied. *)
Lemma apply_observed state a s :
  NoDup (ps_Name <$> state) → s ∈ state → ps_Name s = action_poolName a →
  (match a with waitAction _ _ | reconcileAction _ _ => True | _ => False end) →
  is_ok (applyAction state a) = false.
Proof.
  intros Hnd Hs Hn Hk. destruct (applyLoop_found state a s Hnd Hs Hn) as (l1 & l2 & _ & Hal).
  destruct a; try done; simpl; by rewrite Hal.
Qed.

Lemma action_commitment C R known desired floor h state state' a f :
  planInv C R known state → actionSafe C R desired floor state a →
  actionFits h state a → applyAction state a = Ok state' →
  famSum committed f state' <= famSum committed f state + Z.max 0 (h f).
Proof.
  intros Hinv Hsafe Hfits Happ. pose proof (pi_names _ _ _ _ Hinv) as Hnd.
  assert (Hst : ∀ s, s ∈ state → stateOk C R s ∧ 0 < vcpusAt s).
  { intros s Hs. pose proof (state_ok _ _ _ _ Hinv s Hs) as Hok. split; [done|]. apply Hok. }
  destruct a as [| |b p nc|b e mn mx|b e mn mx|b e c|b e c|b e|b e lb ta].
  1, 2: destruct Hsafe as (s & Hs & Hn & _);
    match type of Happ with applyAction _ ?a = _ =>
      pose proof (apply_observed state a s Hnd Hs Hn I) as Hno; by rewrite Happ in Hno end.
  - destruct Hsafe as (_ & _ & _ & _ & Hmin & Hmax). simpl in Hfits, Happ. simplify_eq.
    rewrite famSum_app. unfold famSum at 2. simpl.
    unfold familyOf, committed, poolCeiling, ps_MaxCount, vcpusAt, ps_Spec. simpl.
    destruct (decide _) as [<-|]; [|lia]. rewrite Z.max_l by lia. lia.
  - destruct Hsafe as (s & Hs & Hn & Hauto & H1 & H2 & _).
    destruct Hfits as (s' & Hs' & Hn' & Hle).
    assert (s' = s) as -> by (eapply same_pool; [apply Hinv|done|done|congruence]).
    eapply commitment_update; try done. destruct (Hst s Hs) as [[_ ? ? _] Hv].
    unfold poolCeiling. simpl. rewrite Hauto. unfold ps_MaxCount in *. simpl. nia.
  - destruct Hsafe as (s & Hs & Hn & Hauto & H1 & H2).
    destruct Hfits as (s' & Hs' & Hn' & Hle).
    assert (s' = s) as -> by (eapply same_pool; [apply Hinv|done|done|congruence]).
    eapply commitment_update; try done. unfold poolCeiling. simpl. rewrite Hauto.
    unfold ps_MaxCount in *. simpl. rewrite !Z.max_l by lia. lia.
  - destruct Hsafe as (s & Hs & Hn & Hauto & -> & _). destruct (Hst s Hs) as [[_ ? ? _] Hv].
    eapply commitment_update; try done. unfold poolCeiling. simpl. nia.
  - destruct Hsafe as (s & Hs & Hn & Hauto & -> & _). destruct (Hst s Hs) as [[_ ? ? _] Hv].
    eapply commitment_update; try done. unfold poolCeiling. simpl. rewrite Hauto. nia.
  - destruct Hsafe as (s & Hs & Hn & _).
    destruct (applyLoop_found state (deleteAction b e) s (pi_names _ _ _ _ Hinv) Hs Hn)
      as (l1 & l2 & Heq & Hal). simpl in Happ. rewrite Hal in Happ. injection Happ as <-.
    pose proof (committed_nonneg C R s (proj1 (Hst s Hs))).
    rewrite Heq, !famSum_app, famSum_cons. destruct (decide _); lia.
  - destruct Hsafe as (s & Hs & Hn & _). eapply commitment_update; try done.
    unfold poolCeiling. simpl. unfold ps_MaxCount. simpl. lia.
Qed.

(** An action never overcommits a family's quota: for every family with a
    budget, the headroom after applying the planner's action is non-negative, or
    at least what it was before.  A pool is created, raised or unfrozen only as
    far as the headroom pays for. *)
Theorem planned_action_keeps_headroom (C R : Z) (known : list string) (desired : list Pool)
    (initial state state' : list PoolState) (budgets : gmap VMFamily Z)
    (floor : transitionFloor) (nc : NetworkConfig) (a : Action) (f : VMFamily) (b : Z)
    (Hfit : quotaFits C R known budgets) (Hi : planInv C R known initial)
    (Hs : planInv C R known state) (Hs' : planInv C R known state')
    (Hdes : Forall (desiredOk C R) desired) (Hspec : specMatch desired state)
    (Hb : budgets !! f = Some b) :
  let headroom st :=
    headroomAt (liveBudget budgets (runningVCPU initial) (runningVCPU st)) st f in
  findNextAction desired state (liveBudget budgets (runningVCPU initial) (runningVCPU state))
    floor nc = Ok (Some a) →
  applyAction state a = Ok state' →
  Z.min 0 (headroom state) <= headroom state'.
Proof.
  cbv zeta. intros Ha Happ. set (live := liveBudget _ _ _) in Ha.
  destruct (findNextAction_safe C R known state desired floor Hs Hdes live nc) as (r & Hr & Hsafe).
  rewrite Ha in Hr. simplify_eq. specialize (Hsafe a eq_refl).
  destruct (decide (known = [])) as [->|Hne].
  { assert (state = []) as ->.
    { pose proof (pi_known _ _ _ _ Hs) as Hk. destruct state as [|s l]; [done|].
      exfalso. eapply not_elem_of_nil, (Hk (ps_Name s)). left. }
    assert (state' = []) as ->.
    { pose proof (pi_known _ _ _ _ Hs') as Hk. destruct state' as [|s l]; [done|].
      exfalso. eapply not_elem_of_nil, (Hk (ps_Name s)). left. }
    lia. }
  assert (HCR : C * R <= maxInt64).
  { pose proof (qf_sum _ _ _ _ Hfit). destruct known as [|k known]; [done|].
    cbn [length] in H. rewrite Nat2Z.inj_succ in H. destruct Hs as [HC HR _ _ _ _].
    unfold maxInt64. nia. }
  pose proof (findNextAction_fits C R known desired state floor live Hs Hdes Hspec nc a HCR Ha)
    as Hfits.
  pose proof (action_commitment C R known desired floor _ state state' a f Hs Hsafe Hfits Happ)
    as Hc.
  rewrite (headroom_exact C R known budgets Hfit initial state f b) in * by done.
  unfold live in Hc.
  rewrite (headroom_exact C R known budgets Hfit initial state f b) in Hc by done.
  rewrite (headroom_exact C R known budgets Hfit initial state' f b) by done. lia.
Qed.

Lemma planned_action_keeps_headroom_witness :
  let initial := ZeroSlack.initial in
  let create := withMinCount (withMaxCount (ZeroSlack.pool "new1" "1" 6 1) 2) 1 in
  let state' := initial ++ [createdPool create "new1"] in
  let headroom st := headroomAt (liveBudget ZeroSlack.budgets (runningVCPU initial)
                                   (runningVCPU st)) st "StandardEdsv6Family" in
  headroom initial = 64 ∧ Z.min 0 (headroom initial) <= headroom state'.
Proof.
  intros initial create state' headroom. split; [vm_compute; reflexivity|].
  assert (Hi : planInv 6 274877906944 (knownNames ZeroSlack.desired initial) initial)
    by (apply initial_inv, ZeroSlack_inputs).
  apply (planned_action_keeps_headroom 6 274877906944 (knownNames ZeroSlack.desired initial)
    ZeroSlack.desired initial initial state' ZeroSlack.budgets {| floor_zones := ∅ |}
    emptyNetworkConfig (newCreateAction create emptyNetworkConfig) "StandardEdsv6Family" 192).
  - split; [by vm_compute|]. unfold ZeroSlack.budgets.
    intros f b [<- <-]%lookup_singleton_Some. by vm_compute.
  - exact Hi.
  - exact Hi.
  - apply (planInv_create 6 274877906944 (knownNames ZeroSlack.desired initial)
      ZeroSlack.desired ltac:(unfold knownNames; set_solver) initial create Hi);
      [vm_compute; set_solver|vm_compute; set_solver|split; by vm_compute|by vm_compute|by vm_compute].
  - apply ZeroSlack_inputs.
  - intros p s Hp Hs Hn. apply list_elem_of_singleton in Hp, Hs. subst. by vm_compute in Hn.
  - reflexivity.
  - vm_compute. reflexivity.
  - vm_compute. reflexivity.
Defined.

(** ** Observed operations come first *)

Definition isWaitAction (a : Action) : bool := match a with waitAction _ _ => true | _ => false end.

Lemma grow_not_wait desired currentByName headroom nc a :
  findGrowAction desired currentByName headroom nc = Ok (Some a) → isWaitAction a = false.
Proof.
  unfold findGrowAction.
  assert (Hc : ∀ l a, growByCreating l currentByName headroom nc = Ok (Some a) →
    isWaitAction a = false).
  { induction l as [|p l IH]; intros a'; cbn [growByCreating]; [done|].
    destruct (currentByName !! Pool_Name p); [apply IH|].
    destruct (goDiv _ _); cbn [result_bind]; [|done]. destruct (_ <=? 0); [apply IH|].
    by intros [= <-]. }
  assert (Hr : ∀ l a, growByRaising l currentByName headroom = Ok (Some a) →
    isWaitAction a = false).
  { induction l as [|p l IH]; intros a'; cbn [growByRaising]; [done|].
    destruct (currentByName !! Pool_Name p); [|apply IH]. destruct (_ || _); [apply IH|].
    destruct (goDiv _ _); cbn [result_bind]; [|done]. destruct (_ <=? 0); [apply IH|].
    by intros [= <-]. }
  destruct (growByCreating _ _ _ _) as [[a'|]|] eqn:E; cbn [result_bind]; [|..|done].
  - intros [= <-]. eauto.
  - eauto.
Qed.

Lemma shrink_not_wait current desiredByName floor a :
  findShrinkAction current desiredByName floor = Some a → isWaitAction a = false.
Proof.
  unfold findShrinkAction. destruct (bool_decide _); [done|].
  unfold orElse, shrinkSystem, shrinkSqueeze, shrinkFreeze, shrinkDrain, shrinkDelete.
  intros H.
  repeat match type of H with
  | match find_map ?f ?l with Some _ => _ | None => _ end = _ =>
      let E := fresh "E" in destruct (find_map f l) eqn:E;
      [simplify_eq; rename E into H|clear E]
  end; apply find_map_Some in H as (s & _ & H); by scan_branch H.
Qed.

(** An observed operation blocks planning: when some pool is in a transitional
    provisioning state the answer is to wait for the first such pool, whatever
    else differs, and otherwise the planner never answers with a wait. *)
Theorem findNextAction_waits (desired : list Pool) (current : list PoolState)
    (available : gmap VMFamily Z) (floor : transitionFloor) (nc : NetworkConfig) :
  match firstInProgressPool current with
  | Some blocker =>
      blocker ∈ current ∧ isTransitionalState (ps_ProvisioningState blocker) = true ∧
      findNextAction desired current available floor nc =
        Ok (Some (newWaitAction (ps_Name blocker) (poolSize (ps_Pool blocker))
                    (ZoneString (ps_Pool blocker)) waitPollHint))
  | None =>
      (∀ s, s ∈ current → isTransitionalState (ps_ProvisioningState s) = false) ∧
      ∀ a, findNextAction desired current available floor nc = Ok (Some a) →
        isWaitAction a = false
  end.
Proof.
  unfold findNextAction. destruct (firstInProgressPool current) as [b|] eqn:E.
  - apply find_first_Some in E as (l1 & l2 & -> & Hb & _). split_and!; [set_solver|done|done].
  - apply find_first_None in E. rewrite Forall_forall in E. split; [done|]. intros a.
    destruct (_ && _); [done|].
    destruct (findReconcileAction _ _) eqn:E1.
    { intros [= <-]. apply find_map_Some in E1 as (p & Hp & H). by scan_branch H. }
    destruct (findCorrectDesiredAction _ _ _ _ _) eqn:E2.
    { intros [= <-]. apply find_map_Some in E2 as (p & Hp & H). unfold correctDesired in H.
      by scan_branch H. }
    destruct (findDriftAction _ _) eqn:E3.
    { intros [= <-]. apply find_map_Some in E3 as (p & Hp & H). by scan_branch H. }
    destruct (findGrowAction _ _ _ _) as [[a'|]|] eqn:E4; cbn [result_bind]; [|..|done].
    { intros [= <-]. by apply grow_not_wait in E4. }
    intros [= H]. by apply shrink_not_wait in H.
Qed.

(** ** Taints as sets *)

Lemma taintsEqual_iff (a b : list string) : taintsEqual a b = true ↔ a ≡ₚ b.
Proof.
  unfold taintsEqual. destruct (Nat.eqb (length a) (length b)) eqn:E; simpl.
  - rewrite bool_decide_eq_true. split.
    + intros Heq. rewrite <- (sort_by_perm string_less a), <- (sort_by_perm string_less b).
      by rewrite Heq.
    + intros Hp. by apply sort_strings_unique.
  - split; [done|]. intros Hp%Permutation_length. apply Nat.eqb_neq in E. congruence.
Qed.

(** [taintsEqual] decides equality up to order, counting repetitions. *)
Theorem taintsEqual_permutation (a b : list string) :
  taintsEqual a b = true ↔ a ≡ₚ b.
Proof. apply taintsEqual_iff. Qed.

(** ** Valid actions *)

(** The planner never panics, and every action it proposes is valid: it
    targets an observed pool (or creates a missing desired one), its autoscaler
    bounds satisfy [0 <= min <= max], a reduction removes exactly one node of a
    frozen pool, and the resulting ceiling keeps the capacity floor of the
    pool's role and zone. *)
Theorem findNextAction_valid (C R : Z) (known : list string) (desired : list Pool)
    (current : list PoolState) (available : gmap VMFamily Z) (floor : transitionFloor)
    (nc : NetworkConfig)
    (Hinv : planInv C R known current) (Hdes : Forall (desiredOk C R) desired) :
  ∃ r, findNextAction desired current available floor nc = Ok r ∧
    ∀ a, r = Some a → actionSafe C R desired floor current a.
Proof. by eapply findNextAction_safe. Qed.

Lemma findNextAction_valid_witness :
  ∃ a, findNextAction ZeroSlack.desired ZeroSlack.initial ∅ {| floor_zones := ∅ |}
         emptyNetworkConfig = Ok (Some a) ∧
       actionSafe 6 274877906944 ZeroSlack.desired {| floor_zones := ∅ |} ZeroSlack.initial a.
Proof.
  destruct (findNextAction_valid 6 274877906944 (knownNames ZeroSlack.desired ZeroSlack.initial)
    ZeroSlack.desired ZeroSlack.initial ∅ {| floor_zones := ∅ |} emptyNetworkConfig
    ltac:(apply initial_inv, ZeroSlack_inputs) ltac:(apply ZeroSlack_inputs)) as (r & Hr & Ha).
  assert (Hs : match findNextAction ZeroSlack.desired ZeroSlack.initial ∅ {| floor_zones := ∅ |}
                 emptyNetworkConfig with Ok (Some _) => true | _ => false end = true)
    by (vm_compute; reflexivity).
  rewrite Hr in Hs. destruct r as [a|]; [|discriminate Hs].
  exists a. split; [exact Hr|]. apply Ha. reflexivity.
Defined.

(** ** Deletion *)

Lemma shrink_delete current desiredByName floor b e :
  findShrinkAction current desiredByName floor = Some (deleteAction b e) →
  ∃ s, s ∈ current ∧ ps_Name s = ab_name b ∧ desiredByName !! ps_Name s = None ∧
    allowsPoolDeletion current s floor = true ∧
    (isSystemPool s = true ∧ survivorRemains current desiredByName = true ∨
     ps_AutoScalingEnabled s = false ∧ ps_Count s = 0).
Proof.
  unfold findShrinkAction. destruct (bool_decide _); [done|].
  set (l1 := sort_by nameLess _). set (l2 := sort_by countThenNameLess l1).
  assert (Hl1 : ∀ s, s ∈ l1 → s ∈ current ∧ desiredByName !! ps_Name s = None).
  { intros s. unfold l1, undesiredPools. rewrite elem_of_sort_by, list_elem_of_filter. tauto. }
  assert (Hl2 : ∀ s, s ∈ l2 → s ∈ current ∧ desiredByName !! ps_Name s = None).
  { intros s. unfold l2. rewrite elem_of_sort_by. apply Hl1. }
  unfold orElse, shrinkSystem, shrinkSqueeze, shrinkFreeze, shrinkDrain, shrinkDelete.
  intros H.
  repeat match type of H with
  | match find_map ?f ?l with Some _ => _ | None => _ end = _ =>
      let E := fresh "E" in destruct (find_map f l) eqn:E;
      [simplify_eq; rename E into H|clear E]
  end; apply find_map_Some in H as (s & Hin & H); scan_branch H;
    (apply Hl1 in Hin as [? ?] || apply Hl2 in Hin as [? ?]);
    unfold stateName, newDeleteAction in H; simplify_eq;
    exists s; split_and!; try done; ((left; done) || (right; done)).
Qed.

Lemma findNextAction_delete desired current available floor nc b e :
  findNextAction desired current available floor nc = Ok (Some (deleteAction b e)) →
  findShrinkAction current (byName Pool_Name desired) floor = Some (deleteAction b e).
Proof.
  unfold findNextAction. destruct (firstInProgressPool current); [done|].
  destruct (_ && _); [done|].
  destruct (findReconcileAction _ _) eqn:E1.
  { intros [= ->]. apply find_map_Some in E1 as (p & Hp & H). by scan_branch H. }
  destruct (findCorrectDesiredAction _ _ _ _ _) eqn:E2.
  { intros [= ->]. apply find_map_Some in E2 as (p & Hp & H). unfold correctDesired in H.
    by scan_branch H. }
  destruct (findDriftAction _ _) eqn:E3.
  { intros [= ->]. apply find_map_Some in E3 as (p & Hp & H). by scan_branch H. }
  destruct (findGrowAction _ _ _ _) as [[a'|]|] eqn:E4; cbn [result_bind]; [|congruence|done].
  intros [= ->]. exfalso. revert E4. unfold findGrowAction.
  set (cm := byName ps_Name current). set (hr := computeFamilyHeadroom _ _).
  assert (Hc : ∀ l, growByCreating l cm hr nc ≠ Ok (Some (deleteAction b e))).
  { induction l as [|p l IH]; cbn [growByCreating]; [done|].
    destruct (cm !! Pool_Name p); [done|]. destruct (goDiv _ _); cbn [result_bind]; [|done].
    by destruct (_ <=? 0). }
  assert (Hr : ∀ l, growByRaising l cm hr ≠ Ok (Some (deleteAction b e))).
  { induction l as [|p l IH]; cbn [growByRaising]; [done|].
    destruct (cm !! Pool_Name p); [|done]. destruct (_ || _); [done|].
    destruct (goDiv _ _); cbn [result_bind]; [|done]. by destruct (_ <=? 0). }
  specialize (Hc desired).
  destruct (growByCreating desired cm hr nc) as [[a'|]|]; cbn [result_bind];
    [congruence|apply Hr|done].
Qed.

(** Only superfluous pools are deleted: the target is observed and not
    desired, and the floor of its role and zone survives without it.  A user
    pool is deleted only once it is frozen and empty; a system pool that still
    has nodes only while another observed system pool that is desired
    remains. *)
Theorem planned_deletion_is_superfluous (desired : list Pool) (current : list PoolState)
    (available : gmap VMFamily Z) (floor : transitionFloor) (nc : NetworkConfig)
    (b : actionBase) (etag : string)
    (Ha : findNextAction desired current available floor nc = Ok (Some (deleteAction b etag))) :
  ∃ s, s ∈ current ∧ ps_Name s = ab_name b ∧ ps_Name s ∉ Pool_Name <$> desired ∧
    allowsPoolDeletion current s floor = true ∧
    (isSystemPool s = false → ps_AutoScalingEnabled s = false ∧ ps_Count s = 0) ∧
    (isSystemPool s = true → ps_Count s ≠ 0 →
     ∃ s', s' ∈ current ∧ s' ≠ s ∧ isSystemPool s' = true ∧
           ps_Name s' ∈ Pool_Name <$> desired).
Proof.
  apply findNextAction_delete, shrink_delete in Ha as (s & Hs & Hn & Hund & Hal & Hwhy).
  apply byName_None in Hund. exists s. split_and!; try done.
  - intros Hu. destruct Hwhy as [[? _]|?]; [congruence|done].
  - intros Hsys Hc. destruct Hwhy as [[_ Hsur]|[_ ?]]; [|done].
    apply existsb_elem in Hsur as (s' & Hs' & Hk). bool_reflect. exists s'.
    destruct (decide (ps_Name s' ∈ Pool_Name <$> desired)) as [Hd|Hd].
    + split_and!; try done. intros ->. done.
    + apply byName_None in Hd. rewrite Hd in *. by destruct H0.
Qed.

Lemma planned_deletion_is_superfluous_witness :
  let old := {| ps_Pool := ZeroSlack.pool "old1" "1" 0 0; ps_ETag := "e";
     ps_ProvisioningState := "Succeeded"; ps_AutoScalingEnabled := false;
     ps_Count := 0; ps_MinCount := 1 |} in
  let new := {| ps_Pool := ZeroSlack.pool "new1" "1" 6 1; ps_ETag := "e";
     ps_ProvisioningState := "Succeeded"; ps_AutoScalingEnabled := true;
     ps_Count := 1; ps_MinCount := 1 |} in
  ∃ s, s ∈ [old; new] ∧ ps_Name s = "old1" ∧ ps_Name s ∉ Pool_Name <$> ZeroSlack.desired.
Proof.
  intros old new.
  set (fl := {| floor_zones := (∅ : gmap RoleZone RoleCapacity) |}).
  destruct (planned_deletion_is_superfluous ZeroSlack.desired [old; new]
    (∅ : gmap VMFamily Z) fl emptyNetworkConfig
    {| ab_name := "old1"; ab_size := "Standard_E32ds_v6"; ab_azZone := "1";
       ab_typ := actionDelete |} "e" ltac:(vm_compute; reflexivity))
    as (s & Hs & Hn & Hd & _).
  exists s. split; [exact Hs|]. split; [exact Hn|exact Hd].
Defined.

(** ** Convergence *)

Lemma converged_pool current pool :
  poolConverged (byName ps_Name current) pool = true →
  ∃ cur, byName ps_Name current !! Pool_Name pool = Some cur ∧
    ps_ProvisioningState cur = "Succeeded" ∧ ps_AutoScalingEnabled cur = true ∧
    ps_MaxCount cur = Pool_MaxCount pool ∧ ps_Count cur <= Pool_MaxCount pool ∧
    Pool_Labels (ps_Pool cur) = Pool_Labels pool ∧
    Pool_Taints (ps_Pool cur) ≡ₚ Pool_Taints pool.
Proof.
  unfold poolConverged. destruct (byName _ _ !! _) as [cur|]; [|done]. intros H.
  bool_reflect. exists cur. split_and!; try done.
  - by apply String.eqb_eq.
  - by apply taintsEqual_iff.
Qed.

(** Converged configurations have exactly the desired pools. *)
Lemma converged_names desired current :
  configurationConverged desired current = true → NoDup (Pool_Name <$> desired) →
  (ps_Name <$> current) ≡ₚ (Pool_Name <$> desired) ∧
  ∀ p, p ∈ desired → poolConverged (byName ps_Name current) p = true.
Proof.
  unfold configurationConverged. intros H Hnd.
  destruct (_ || _) eqn:E; [done|]. bool_reflect.
  rewrite forallb_elem in H. split; [|done]. symmetry. apply submseteq_length_Permutation.
  - apply NoDup_submseteq; [done|]. intros n (p & -> & Hp)%list_elem_of_fmap.
    destruct (converged_pool _ _ (H p Hp)) as (cur & Hc & _).
    apply byName_Some in Hc as [Hc <-]. by apply list_elem_of_fmap_2.
  - rewrite !length_fmap. apply Nat.eqb_eq in H1. lia.
Qed.

(** A desired pool that exists with autoscaling and its full ceiling needs no
    growth. *)
Lemma satisfied_no_growth desired byName headroom nc :
  (∀ p, p ∈ desired → ∃ cur, byName !! Pool_Name p = Some cur ∧
     ps_AutoScalingEnabled cur = true ∧ ps_MaxCount cur = Pool_MaxCount p) →
  findGrowAction desired byName headroom nc = Ok None.
Proof.
  intros Hall. unfold findGrowAction.
  assert (Hgc : ∀ l, l ⊆ desired → growByCreating l byName headroom nc = Ok None).
  { induction l as [|p l IH]; intros Hl; cbn [growByCreating]; [done|].
    destruct (Hall p ltac:(set_solver)) as (cur & -> & _). apply IH. set_solver. }
  assert (Hgr : ∀ l, l ⊆ desired → growByRaising l byName headroom = Ok None).
  { induction l as [|p l IH]; intros Hl; cbn [growByRaising]; [done|].
    destruct (Hall p ltac:(set_solver)) as (cur & -> & -> & ->). simpl.
    rewrite Z.leb_refl. apply IH. set_solver. }
  rewrite Hgc by done. cbn [result_bind]. by apply Hgr.
Qed.

(** A converged configuration is stable: the planner has nothing left to do,
    whatever the quota and the floor. *)
Theorem converged_needs_no_action (desired : list Pool) (current : list PoolState)
    (available : gmap VMFamily Z) (floor : transitionFloor) (nc : NetworkConfig)
    (Hconv : configurationConverged desired current = true)
    (Hnames : NoDup (Pool_Name <$> desired)) :
  findNextAction desired current available floor nc = Ok None.
Proof.
  destruct (converged_names desired current Hconv Hnames) as [Hperm Hpools].
  assert (Hnd : NoDup (ps_Name <$> current)) by (by rewrite Hperm).
  assert (Hall : ∀ p, p ∈ desired → _) by exact (λ p Hp, converged_pool current p (Hpools p Hp)).
  assert (Hcur : ∀ s, s ∈ current → ∃ p, p ∈ desired ∧ Pool_Name p = ps_Name s).
  { intros s Hs. assert (Hin : ps_Name s ∈ Pool_Name <$> desired).
    { rewrite <- Hperm. by apply list_elem_of_fmap_2. }
    apply list_elem_of_fmap in Hin as (p & -> & Hp). eauto. }
  unfold findNextAction.
  assert (firstInProgressPool current = None) as ->.
  { apply find_first_None, Forall_forall. intros s Hs. destruct (Hcur s Hs) as (p & Hp & Hn).
    destruct (Hall p Hp) as (cur & Hc & Hst & _).
    rewrite Hn, (byName_elem ps_Name current s Hnd Hs) in Hc. simplify_eq. by rewrite Hst. }
  destruct (_ && _); [done|].
  assert (findReconcileAction desired (byName ps_Name current) = None) as ->.
  { apply find_map_None. intros p Hp. destruct (Hall p Hp) as (cur & -> & -> & _). done. }
  set (h := computeFamilyHeadroom _ _).
  assert (findCorrectDesiredAction desired (byName ps_Name current) h current floor = None) as ->.
  { apply find_map_None. intros p Hp. unfold correctDesired.
    destruct (Hall p Hp) as (cur & -> & _ & -> & -> & Hle & _). simpl.
    rewrite Z.ltb_irrefl, (proj2 (Z.ltb_ge _ _)) by lia. done. }
  assert (findDriftAction desired (byName ps_Name current) = None) as ->.
  { apply find_map_None. intros p Hp.
    destruct (Hall p Hp) as (cur & -> & _ & _ & _ & _ & Hl & Ht).
    rewrite Hl, bool_decide_eq_true_2 by done. symmetry in Ht.
    apply taintsEqual_iff in Ht. by rewrite Ht. }
  assert (findGrowAction desired (byName ps_Name current) h nc = Ok None) as ->.
  { apply satisfied_no_growth. intros p Hp. destruct (Hall p Hp) as (cur & ? & _ & ? & ? & _); eauto. }
  cbn [result_bind]. f_equal. unfold findShrinkAction, undesiredPools.
  rewrite bool_decide_eq_true_2; [done|]. apply length_zero_iff_nil.
  apply (elem_of_nil_inv (base.filter _ current)). intros s [Hn Hs]%list_elem_of_filter.
  apply byName_None in Hn. apply Hn. rewrite <- Hperm. by apply list_elem_of_fmap_2.
Qed.

Lemma converged_needs_no_action_witness :
  let current := [{| ps_Pool := ZeroSlack.pool "new1" "1" 6 1; ps_ETag := "e";
     ps_ProvisioningState := "Succeeded"; ps_AutoScalingEnabled := true;
     ps_Count := 1; ps_MinCount := 1 |}] in
  findNextAction ZeroSlack.desired current (∅ : gmap VMFamily Z)
    {| floor_zones := (∅ : gmap RoleZone RoleCapacity) |} emptyNetworkConfig = Ok None.
Proof.
  intros current. apply converged_needs_no_action; [vm_compute; reflexivity|].
  apply (bool_decide_unpack _). vm_compute. exact I.
Defined.

(** The final delete step does not ask for a surviving system pool: without
    quota for the desired one, the only system pool, frozen and empty, is
    proposed for deletion. *)
Example frozen_system_pool_deleted :
  let system name := {|
    Pool_Role := PoolRoleSystem; Pool_AgentPoolMode := AgentPoolModeSystem;
    Pool_Name := name; Pool_Spec := ZeroSlack.specE32v6; Pool_AvailabilityZones := [];
    Pool_MaxCount := 3; Pool_MinCount := 1; Pool_OSDiskSizeGB := 32; Pool_MaxPods := 100;
    Pool_Labels := ∅; Pool_Taints := []; Pool_EnableSwift := false; Pool_SecondaryNICs := 0 |} in
  let old := {| ps_Pool := system "sysold"; ps_ETag := "e"; ps_ProvisioningState := "Succeeded";
                ps_AutoScalingEnabled := false; ps_Count := 0; ps_MinCount := 0 |} in
  findNextAction [system "sysnew"] [old] (∅ : gmap VMFamily Z)
    {| floor_zones := (∅ : gmap RoleZone RoleCapacity) |} emptyNetworkConfig =
  Ok (Some (newDeleteAction "sysold" (poolSize (ps_Pool old)) "" "e")).
Proof. vm_compute. reflexivity. Qed.
