(* ===== verification/AgentPools.v ===== *)
(** * AKS agent pools as Azure reports them

    [fleet/pkg/azure/agentpools], [agentpoolspec], [azure/quota] and
    [controllers/nodepool/current.go]: the properties a desired pool is created
    with, and how live pools are read back.  The ARM types are records of the
    fields the code touches; a pointer is an [option] and a nil map is empty. *)
From S2P Require Import Prelude GoStrings ComputeTypes ComputeCapacity NodePoolPlan.

Local Open Scope Z_scope.
Local Open Scope go_scope.

(** ** The ARM resource *)

Record AgentPoolProperties := {
  ap_VMSize : option string;
  ap_AvailabilityZones : list (option string);
  ap_OSDiskSizeGB : option Z;
  ap_OSDiskType : option string;
  ap_EnableAutoScaling : option bool;
  ap_Count : option Z;
  ap_MinCount : option Z;
  ap_MaxCount : option Z;
  ap_Mode : option string;
  ap_ProvisioningState : option string;
  ap_ETag : option string;
  ap_MaxPods : option Z;
  ap_NodeLabels : gmap string (option string);
  ap_NodeTaints : list (option string);
  ap_Tags : gmap string (option string);
  (* set on creation only *)
  ap_Type : option string;
  ap_OSSKU : option string;
  ap_OSType : option string;
  ap_KubeletDiskType : option string;
  ap_EnableEncryptionAtHost : option bool;
  ap_EnableFIPS : option bool;
  ap_EnableNodePublicIP : option bool;
  ap_EnableSecureBoot : option bool;
  ap_EnableVTPM : option bool;
  ap_MaxSurge : option string;
  ap_VnetSubnetID : option string;
  ap_PodSubnetID : option string;
}.

Record AgentPool := {
  agentpool_Name : option string;
  agentpool_Properties : option AgentPoolProperties;
}.

Definition OSDiskTypeEphemeral : string := "Ephemeral".

(** A pointer read from a map of pointers; nil when the key is absent. *)
Definition pointerAt (m : gmap string (option string)) (key : string) : option string :=
  mjoin (m !! key).

(** ** agentpools.go *)

Definition RoleFromAgentPool (pool : AgentPool) : string :=
  match agentpool_Properties pool with
  | None => ""
  | Some p => default "" (pointerAt (ap_NodeLabels p) RoleLabel)
  end.

Definition IsManagedPool (pool : AgentPool) : bool :=
  negb (String.eqb (RoleFromAgentPool pool) "").

Definition IsWorkerPool (pool : AgentPool) : bool :=
  String.eqb (RoleFromAgentPool pool) PoolRoleWorker.

Definition PoolMaxCount (pool : AgentPool) : Z :=
  match agentpool_Properties pool with
  | None => 0
  | Some p =>
      match ap_Count p with
      | None => 0
      | Some count =>
          match ap_EnableAutoScaling p, ap_MaxCount p with
          | Some true, Some maxCount => maxCount
          | _, _ => count
          end
      end
  end.

(** ** agentpoolspec.go *)

Definition SwiftMultiTenancyTag : string := "aks-nic-enable-multi-tenancy".
Definition SwiftSecondaryNICCountTag : string := "aks-nic-secondary-count".
Definition SwiftMultiTenancyEnabledValue : string := "true".

Definition IsSwiftEnabled (tags : gmap string (option string)) : bool :=
  String.eqb (default "" (pointerAt tags SwiftMultiTenancyTag)) SwiftMultiTenancyEnabledValue.

(** [SecondaryNICCount]: [None] when the tag is absent, [Some (Err _)] when it is
    malformed or negative. *)
Definition SecondaryNICCount (tags : gmap string (option string)) :
    option (result string Z) :=
  match tags !! SwiftSecondaryNICCountTag with
  | None => None
  | Some value =>
      let raw := default "" value in
      match Atoi raw with
      | Some nics => if nics <? 0 then Some (Err raw) else Some (Ok nics)
      | None => Some (Err raw)
      end
  end.

Definition Build (pool : Pool) (networkConfig : NetworkConfig) : AgentPoolProperties :=
  let tags : gmap string (option string) :=
    if Pool_EnableSwift pool then
      let enabled : gmap string (option string) :=
        {[SwiftMultiTenancyTag := Some SwiftMultiTenancyEnabledValue]} in
      if 0 <? Pool_SecondaryNICs pool
      then <[SwiftSecondaryNICCountTag := Some (Itoa (Pool_SecondaryNICs pool))]> enabled
      else enabled
    else ∅ in
  let nonempty (s : string) := if String.eqb s "" then None else Some s in
  {| ap_VMSize := Some (spec_Size (Pool_Spec pool));
     ap_AvailabilityZones := Some <$> Pool_AvailabilityZones pool;
     ap_OSDiskSizeGB := Some (Pool_OSDiskSizeGB pool);
     ap_OSDiskType := Some OSDiskTypeEphemeral;
     ap_EnableAutoScaling := Some true;
     ap_Count := None;
     ap_MinCount := Some (Pool_MinCount pool);
     ap_MaxCount := Some (Pool_MaxCount pool);
     ap_Mode := Some (Pool_AgentPoolMode pool);
     ap_ProvisioningState := None;
     ap_ETag := None;
     ap_MaxPods := Some (Pool_MaxPods pool);
     ap_NodeLabels := Some <$> Pool_Labels pool;
     ap_NodeTaints := Some <$> Pool_Taints pool;
     ap_Tags := tags;
     ap_Type := Some "VirtualMachineScaleSets";
     ap_OSSKU := Some "AzureLinux";
     ap_OSType := Some "Linux";
     ap_KubeletDiskType := Some "OS";
     ap_EnableEncryptionAtHost := Some true;
     ap_EnableFIPS := Some true;
     ap_EnableNodePublicIP := Some false;
     ap_EnableSecureBoot := Some false;
     ap_EnableVTPM := Some false;
     ap_MaxSurge := Some "10%";
     ap_VnetSubnetID := nonempty (VnetSubnetID networkConfig);
     ap_PodSubnetID := nonempty (PodSubnetID networkConfig) |}%string.

(** ** current.go *)

Inductive current_error : Type :=
  | ErrOSDiskType (pool diskType : string)
  | ErrNICsRequireSwift (pool : string)
  | ErrInvalidNICs (pool : string).

(** The secondary NICs of a live pool. *)
Definition liveNICs (name : string) (tags : gmap string (option string)) :
    result current_error Z :=
  match SecondaryNICCount tags with
  | None => Ok 0
  | Some r =>
      if negb (IsSwiftEnabled tags) then Err (ErrNICsRequireSwift name)
      else match r with
           | Err _ => Err (ErrInvalidNICs name)
           | Ok nics => Ok nics
           end
  end.

(** The state of one pool whose required fields are set; it is read only after
    the checks of the disk type. *)
Definition livePoolState (pool : AgentPool) (p : AgentPoolProperties)
    (name vmSize : string) (disk : Z) (skuMetadata : gmap string SKUMetadata) :
    result current_error PoolState :=
  let unresolved := {| spec_Size := vmSize; spec_Family := ""; spec_VCPUs := 0;
                       spec_MemoryBytes := 0; spec_SecondaryNICs := 0 |} in
  let spec := match skuMetadata !! vmSize with
              | Some meta => NewVMSpecFromSKU meta
              | None => unresolved
              end in
  let* secondaryNICs := liveNICs name (ap_Tags p) in
  Ok {| ps_Pool := {|
          Pool_Role := RoleFromAgentPool pool;
          Pool_AgentPoolMode := default "" (ap_Mode p);
          Pool_Name := name;
          Pool_Spec := spec;
          Pool_AvailabilityZones := omap id (ap_AvailabilityZones p);
          Pool_MaxCount := wrap32 (PoolMaxCount pool);
          Pool_MinCount := 0;
          Pool_OSDiskSizeGB := disk;
          Pool_MaxPods := default 0 (ap_MaxPods p);
          Pool_Labels := omap id (ap_NodeLabels p);
          Pool_Taints := omap id (ap_NodeTaints p);
          Pool_EnableSwift := IsSwiftEnabled (ap_Tags p);
          Pool_SecondaryNICs := secondaryNICs |};
        ps_ETag := default "" (ap_ETag p);
        ps_ProvisioningState := default "" (ap_ProvisioningState p);
        ps_AutoScalingEnabled := default false (ap_EnableAutoScaling p);
        ps_Count := default 0 (ap_Count p);
        ps_MinCount := default 0 (ap_MinCount p) |}.

(** One iteration of the loop of [currentPoolStates]; [Ok None] is [continue]. *)
Definition currentPoolState (skuMetadata : gmap string SKUMetadata) (pool : AgentPool) :
    result current_error (option PoolState) :=
  if negb (IsManagedPool pool) then Ok None
  else
    match agentpool_Properties pool, agentpool_Name pool with
    | Some p, Some name =>
        match ap_VMSize p, ap_OSDiskSizeGB p with
        | Some vmSize, Some disk =>
            let other := match ap_OSDiskType p with
                         | Some diskType =>
                             if String.eqb diskType OSDiskTypeEphemeral then None
                             else Some diskType
                         | None => None
                         end in
            match other with
            | Some diskType => Err (ErrOSDiskType name diskType)
            | None =>
                let* state := livePoolState pool p name vmSize disk skuMetadata in
                Ok (Some state)
            end
        | _, _ => Ok None
        end
    | _, _ => Ok None
    end.

Fixpoint currentPoolStates (pools : list AgentPool) (skuMetadata : gmap string SKUMetadata) :
    result current_error (list PoolState) :=
  match pools with
  | [] => Ok []
  | pool :: pools =>
      let* state := currentPoolState skuMetadata pool in
      let* rest := currentPoolStates pools skuMetadata in
      Ok (match state with Some s => s :: rest | None => rest end)
  end.

Definition unresolvedSKUSizes (current : list PoolState) : list string :=
  (λ pool, spec_Size (ps_Spec pool)) <$>
    base.filter (λ pool, spec_VCPUs (ps_Spec pool) = 0) current.

(** The zones gathered per role, each a set. *)
Definition zonesOfRole (zones : gmap PoolRole (gset string)) (pool : AgentPool) :
    gmap PoolRole (gset string) :=
  match agentpool_Properties pool with
  | Some p =>
      if negb (IsManagedPool pool) then zones
      else
        let role := RoleFromAgentPool pool in
        let found := base.filter (λ z, z ≠ "") (omap id (ap_AvailabilityZones p)) in
        <[role := default ∅ (zones !! role) ∪ list_to_set found]> zones
  | None => zones
  end.

(** [sets.List] sorts the elements. *)
Definition poolZonesByRole (pools : list AgentPool) : gmap PoolRole (list string) :=
  (λ s : gset string, sort_by string_less (elements s)) <$> fold_left zonesOfRole pools ∅.

(** ** agentpools/capacity.go *)

Inductive observed_error : Type :=
  | ErrIncompleteARM (pool : string)
  | ErrMissingSKU (pool vmSize : string)
  | ErrSwiftNICs (pool : string)
  | ErrCapacity (e : capacity_error).

(** The pool whose capacity is counted; only the fields capacities depend on are
    set. *)
Definition capacityPool (role name : string) (spec : VMSpec) (maxCount : Z) (swift : bool)
    (nics : Z) : Pool := {|
  Pool_Role := role; Pool_AgentPoolMode := ""; Pool_Name := name; Pool_Spec := spec;
  Pool_AvailabilityZones := []; Pool_MaxCount := maxCount; Pool_MinCount := 0;
  Pool_OSDiskSizeGB := 0; Pool_MaxPods := 0; Pool_Labels := ∅; Pool_Taints := [];
  Pool_EnableSwift := swift; Pool_SecondaryNICs := nics |}.

(** One managed pool of [ObservedAgentPoolCapacities]. *)
Definition observedPool (metadata : gmap string SKUMetadata) (pool : AgentPool)
    (p : AgentPoolProperties) : result observed_error Pool :=
  let incomplete := Err (ErrIncompleteARM (default "" (agentpool_Name pool))) in
  match agentpool_Name pool, ap_VMSize p, ap_Count p, ap_EnableAutoScaling p with
  | Some name, Some vmSize, Some _, Some auto =>
      if auto && bool_decide (ap_MaxCount p = None) then incomplete
      else
        match metadata !! vmSize with
        | None => Err (ErrMissingSKU name vmSize)
        | Some meta =>
            let swift := IsSwiftEnabled (ap_Tags p) in
            let* nics :=
              match SecondaryNICCount (ap_Tags p) with
              | None => Ok 0
              | Some (Err _) => Err (ErrSwiftNICs name)
              | Some (Ok nics) => if swift then Ok nics else Err (ErrSwiftNICs name)
              end in
            Ok (capacityPool (RoleFromAgentPool pool) name (NewVMSpecFromSKU meta)
                  (wrap32 (PoolMaxCount pool)) swift nics)
        end
  | _, _, _, _ => incomplete
  end.

Fixpoint observedPools (pools : list AgentPool) (metadata : gmap string SKUMetadata) :
    result observed_error (list Pool) :=
  match pools with
  | [] => Ok []
  | pool :: pools =>
      match agentpool_Properties pool, IsManagedPool pool with
      | Some p, true =>
          let* observed := observedPool metadata pool p in
          let* rest := observedPools pools metadata in
          Ok (observed :: rest)
      | _, _ => observedPools pools metadata
      end
  end.

Definition ObservedAgentPoolCapacities (pools : list AgentPool)
    (metadata : gmap string SKUMetadata) : result observed_error CapacityByRole :=
  let* observed := observedPools pools metadata in
  match PoolCapacities observed with
  | Ok capacity => Ok capacity
  | Err e => Err (ErrCapacity e)
  end.

(** ** quota.go *)

Record Usage := {
  usage_Name : option string;
  usage_Limit : option Z;
  usage_CurrentValue : option Z;
}.

(** The loop of [FetchUsage] over the pages' entries; the pager is the argument. *)
Definition collectUsage (families : gset VMFamily) (usages : gmap VMFamily QuotaUsage)
    (usage : option Usage) : gmap VMFamily QuotaUsage :=
  match usage with
  | Some {| usage_Name := Some name; usage_Limit := Some limit; usage_CurrentValue := cur |} =>
      if bool_decide (name ∈ families)
      then <[name := {| quota_Limit := limit; quota_CurrentValue := default 0 cur |}]> usages
      else usages
  | _ => usages
  end.

Fixpoint FetchUsage (pages : list (result string (list (option Usage))))
    (families : gset VMFamily) (usages : gmap VMFamily QuotaUsage) :
    result string (gmap VMFamily QuotaUsage) :=
  match pages with
  | [] => Ok usages
  | Err e :: _ => Err ("listing compute usages: " +:+ e)%string
  | Ok page :: pages => FetchUsage pages families (fold_left (collectUsage families) page usages)
  end.

(** ** Reading back what was created *)

(** The resource AKS reports for a pool created from [Build]: the properties of
    the request, the node count, an entity tag and a settled state. *)
Definition deployed (pool : Pool) (nc : NetworkConfig) (count : Z) (etag : string) : AgentPool :=
  let b := Build pool nc in {|
  agentpool_Name := Some (Pool_Name pool);
  agentpool_Properties := Some {|
    ap_VMSize := ap_VMSize b; ap_AvailabilityZones := ap_AvailabilityZones b;
    ap_OSDiskSizeGB := ap_OSDiskSizeGB b; ap_OSDiskType := ap_OSDiskType b;
    ap_EnableAutoScaling := ap_EnableAutoScaling b; ap_Count := Some count;
    ap_MinCount := ap_MinCount b; ap_MaxCount := ap_MaxCount b; ap_Mode := ap_Mode b;
    ap_ProvisioningState := Some "Succeeded"; ap_ETag := Some etag;
    ap_MaxPods := ap_MaxPods b; ap_NodeLabels := ap_NodeLabels b;
    ap_NodeTaints := ap_NodeTaints b; ap_Tags := ap_Tags b; ap_Type := ap_Type b;
    ap_OSSKU := ap_OSSKU b; ap_OSType := ap_OSType b; ap_KubeletDiskType := ap_KubeletDiskType b;
    ap_EnableEncryptionAtHost := ap_EnableEncryptionAtHost b; ap_EnableFIPS := ap_EnableFIPS b;
    ap_EnableNodePublicIP := ap_EnableNodePublicIP b;
    ap_EnableSecureBoot := ap_EnableSecureBoot b; ap_EnableVTPM := ap_EnableVTPM b;
    ap_MaxSurge := ap_MaxSurge b; ap_VnetSubnetID := ap_VnetSubnetID b;
    ap_PodSubnetID := ap_PodSubnetID b |} |}.

(** A pool the planner may create: its role is its role label, its VM size is in
    the SKU map, and its NIC count is consistent with Swift. *)
Record creatable (skus : gmap string SKUMetadata) (pool : Pool) : Prop := {
  cr_role : Pool_Labels pool !! RoleLabel = Some (Pool_Role pool);
  cr_nonempty : Pool_Role pool ≠ "";
  cr_spec : ∃ meta, skus !! spec_Size (Pool_Spec pool) = Some meta ∧
                    Pool_Spec pool = NewVMSpecFromSKU meta;
  cr_max : in32 (Pool_MaxCount pool);
  cr_nics : 0 <= Pool_SecondaryNICs pool ∧ in64 (Pool_SecondaryNICs pool);
  cr_swift : 0 < Pool_SecondaryNICs pool → Pool_EnableSwift pool = true;
}.

Lemma omap_id_Some {A} (l : list A) : omap id (Some <$> l) = l.
Proof. induction l as [|x l IH]; [done|]. csimpl. by rewrite IH. Qed.

Lemma omap_id_Some_map (m : gmap string string) : omap id (Some <$> m) = m.
Proof.
  apply map_eq. intros k. rewrite lookup_omap, lookup_fmap. by destruct (m !! k).
Qed.

(** The tags written by [Build] decode to the pool's Swift settings. *)
Lemma Build_tags skus pool nc :
  creatable skus pool →
  IsSwiftEnabled (ap_Tags (Build pool nc)) = Pool_EnableSwift pool ∧
  ∀ name, liveNICs name (ap_Tags (Build pool nc)) = Ok (Pool_SecondaryNICs pool).
Proof.
  intros [_ _ _ _ [Hn Hn64] Hs]. unfold liveNICs, SecondaryNICCount, IsSwiftEnabled, pointerAt.
  simpl. destruct (Pool_EnableSwift pool) eqn:Hsw.
  - destruct (0 <? Pool_SecondaryNICs pool) eqn:E; bool_reflect.
    + rewrite lookup_insert_ne, lookup_singleton_eq by done. simpl. split; [done|]. intros name.
      rewrite lookup_insert_eq. simpl. rewrite Atoi_Itoa by done.
      destruct (Pool_SecondaryNICs pool <? 0) eqn:E'; bool_reflect; [lia|done].
    + rewrite lookup_singleton_eq. simpl. split; [done|]. intros name.
      rewrite lookup_singleton_ne by done. f_equal. lia.
  - rewrite !lookup_empty. simpl. split; [done|]. intros name. f_equal.
    destruct (decide (0 < Pool_SecondaryNICs pool)) as [Hp|]; [by specialize (Hs Hp)|lia].
Qed.

(** The observed state of a deployed pool: the pool itself (the floor is read into
    the observed minimum). *)
Lemma currentPoolState_deployed skus pool nc count etag :
  creatable skus pool →
  currentPoolState skus (deployed pool nc count etag) = Ok (Some {|
    ps_Pool := withMinCount pool 0; ps_ETag := etag; ps_ProvisioningState := "Succeeded";
    ps_AutoScalingEnabled := true; ps_Count := count; ps_MinCount := Pool_MinCount pool |}).
Proof.
  intros Hc. destruct (Build_tags skus pool nc Hc) as [Hsw Hn].
  destruct Hc as [Hrole Hne (meta & Hmeta & Hspec) Hmax _ _].
  assert (Hr : RoleFromAgentPool (deployed pool nc count etag) = Pool_Role pool).
  { unfold RoleFromAgentPool, pointerAt. simpl. by rewrite lookup_fmap, Hrole. }
  unfold currentPoolState, IsManagedPool. rewrite Hr.
  rewrite (proj2 (String.eqb_neq _ _) Hne). cbn [negb].
  unfold livePoolState. rewrite Hr. unfold PoolMaxCount.
  cbn -[Build]. rewrite Hsw, Hn. cbn [result_bind]. simpl.
  rewrite Hmeta, <- Hspec, !omap_id_Some, omap_id_Some_map, wrap32_id by done.
  by destruct pool.
Qed.

(** (C39) Creating a pool and reading it back is a round trip: the properties
    [Build] writes are read by [currentPoolStates] as exactly the desired pool,
    so with no more nodes than its maximum a freshly created pool counts as
    converged. *)
Theorem Build_current_roundtrip (skus : gmap string SKUMetadata) (pool : Pool)
    (nc : NetworkConfig) (count : Z) (etag : string)
    (Hpool : creatable skus pool) (Hcount : count <= Pool_MaxCount pool) :
  ∃ s, currentPoolStates [deployed pool nc count etag] skus = Ok [s] ∧
    ps_Pool s = withMinCount pool 0 ∧ ps_MinCount s = Pool_MinCount pool ∧
    configurationConverged [pool] [s] = true.
Proof.
  simpl. rewrite currentPoolState_deployed by done. cbn [result_bind]. eexists. split; [done|].
  split; [done|]. split; [done|]. unfold configurationConverged, byName. simpl.
  assert (Ht : ∀ l, taintsEqual l l = true).
  { intros l. unfold taintsEqual. by rewrite Nat.eqb_refl, bool_decide_eq_true_2. }
  unfold poolConverged, ps_Name, ps_MaxCount, poolSize. simpl. rewrite lookup_insert_eq. simpl.
  rewrite ?Ht, ?String.eqb_refl, ?Z.eqb_refl, ?Bool.eqb_reflx, ?bool_decide_eq_true_2,
    (proj2 (Z.ltb_ge _ _)) by done.
  done.
Qed.

Lemma Build_current_roundtrip_witness :
  let meta := {| sku_Name := "Standard_E32ds_v6"; sku_Family := "StandardEdsv6Family";
    sku_VCPUs := 32; sku_MemoryBytes := 274877906944; sku_SecondaryNICs := 7;
    sku_EphemeralOSDiskSupported := true; sku_EphemeralDiskSizeGB := 1792;
    sku_Zones := ["1"]; sku_ConstrainedVCPUs := false; sku_LocationRestricted := false |} in
  let pool := {| Pool_Role := PoolRoleWorker; Pool_AgentPoolMode := AgentPoolModeUser;
    Pool_Name := "wrk"; Pool_Spec := NewVMSpecFromSKU meta; Pool_AvailabilityZones := ["1"];
    Pool_MaxCount := 6; Pool_MinCount := 1; Pool_OSDiskSizeGB := 512; Pool_MaxPods := 225;
    Pool_Labels := {[RoleLabel := PoolRoleWorker]}; Pool_Taints := [];
    Pool_EnableSwift := true; Pool_SecondaryNICs := 7 |} in
  let nc := {| VnetSubnetID := ""; PodSubnetID := "" |} in
  ∃ s, currentPoolStates [deployed pool nc 2 "e"] {["Standard_E32ds_v6" := meta]} = Ok [s] ∧
    configurationConverged [pool] [s] = true.
Proof.
  intros meta pool nc.
  destruct (Build_current_roundtrip {["Standard_E32ds_v6" := meta]} pool nc 2 "e")
    as (s & Hs & _ & _ & Hc); [|by vm_compute|].
  - split; try (by vm_compute). exists meta. split; [by vm_compute|reflexivity].
  - exists s. split; [exact Hs|exact Hc].
Defined.
