(* ===== verification/SkuCache.v ===== *)
(** * The VM size catalogue

    [fleet/pkg/azure/skucache/skucache.go]: reading the characteristics of VM
    sizes from the Azure Resource SKUs API and caching them per subscription.
    [resource.ParseQuantity] and the API pages are arguments. *)
From S2P Require Import Prelude GoStrings ComputeTypes.

Local Open Scope Z_scope.
Local Open Scope go_scope.

(** ** The API's resource *)

Inductive RestrictionType : Type := RestrictionLocation | RestrictionZone.

#[export] Instance RestrictionType_eq_dec : EqDecision RestrictionType.
Proof. solve_decision. Defined.

Record RestrictionInfo := {
  ri_Locations : list (option string);
  ri_Zones : list (option string);
}.

Record Restriction := {
  restr_Type : option RestrictionType;
  restr_Values : list (option string);
  restr_Info : option RestrictionInfo;
}.

Record Capability := { cap_Name : option string; cap_Value : option string }.

Record ResourceSKU := {
  rs_ResourceType : option string;
  rs_Name : option string;
  rs_Family : option string;
  rs_LocationInfo : list (option (list (option string)));
  rs_Restrictions : list (option Restriction);
  rs_Capabilities : list (option Capability);
}.

(** ** Capabilities *)

Definition lookupCapability (sku : ResourceSKU) (capabilityName : string) : option string :=
  find_map (λ capability,
      match capability with
      | Some {| cap_Name := Some name; cap_Value := Some value |} =>
          if EqualFold name capabilityName then Some (TrimSpace value) else None
      | _ => None
      end) (rs_Capabilities sku).

Definition lookupBool (sku : ResourceSKU) (capabilityName : string) : option bool :=
  (λ raw, EqualFold raw "true") <$> lookupCapability sku capabilityName.

Definition lookupInt64 (sku : ResourceSKU) (capabilityName : string) : option Z :=
  lookupCapability sku capabilityName ≫= Atoi.

Definition supportsResourceDiskPlacement (sku : ResourceSKU) : bool :=
  match lookupCapability sku "SupportedEphemeralOSDiskPlacements" with
  | None => false
  | Some raw => existsb (λ placement, EqualFold (TrimSpace placement) "ResourceDisk")
                  (Split "," raw)
  end.

(** ** Restrictions *)

(** A list of location pointers names the region. *)
Definition namesRegion (region : string) (locations : list (option string)) : bool :=
  existsb (λ location, match location with Some l => EqualFold l region | None => false end)
    locations.

Definition isLocationRestricted (sku : ResourceSKU) (region : string) : bool :=
  existsb (λ restriction,
      match restriction with
      | Some r =>
          bool_decide (restr_Type r = Some RestrictionLocation)
          && (namesRegion region (restr_Values r)
              || match restr_Info r with
                 | Some info => namesRegion region (ri_Locations info)
                 | None => false
                 end)
      | None => false
      end) (rs_Restrictions sku).

Definition collectRestrictedZones (sku : ResourceSKU) : gset string :=
  fold_left (λ restricted restriction,
      match restriction with
      | Some {| restr_Type := Some RestrictionZone; restr_Info := Some info |} =>
          restricted ∪ list_to_set (omap id (ri_Zones info))
      | _ => restricted
      end) (rs_Restrictions sku) ∅.

(** ** Metadata *)

(** The size of the ephemeral OS disk: the NVMe disk, else the cache, else the
    resource disk where it may hold the OS. *)
Definition ephemeralDiskSizeGB (sku : ResourceSKU) : Z :=
  let positive (name : string) := z ← lookupInt64 sku name; guard (0 < z);; Some z in
  match positive "NVMeDiskSizeInMiB" with
  | Some nvmeMiB => Z.quot nvmeMiB 1024
  | None =>
      match positive "CachedDiskBytes" with
      | Some cachedBytes => Z.quot cachedBytes (1024 * 1024 * 1024)
      | None =>
          match positive "MaxResourceVolumeMB" with
          | Some resourceMB =>
              if supportsResourceDiskPlacement sku then Z.quot resourceMB 1024 else 0
          | None => 0
          end
      end
  end.

(** The zones of the first location, restricted ones left out, sorted. *)
Definition skuZones (sku : ResourceSKU) : list string :=
  match rs_LocationInfo sku with
  | Some zones :: _ =>
      sort_by string_less
        (base.filter (λ z, z ∉ collectRestrictedZones sku) (omap id zones))
  | _ => []
  end.

(** [parseQuantity] is [resource.ParseQuantity] followed by [Value]. *)
Definition extractSKUMetadata (parseQuantity : string → option Z) (sku : ResourceSKU)
    (name region : string) : SKUMetadata :=
  let vcpus := lookupInt64 sku "vCPUs" in
  let constrained := match vcpus, lookupInt64 sku "vCPUsAvailable" with
                     | Some vcpus, Some available => available <? vcpus
                     | _, _ => false
                     end in
  {| sku_Name := name;
     sku_Family := default "" (rs_Family sku);
     sku_VCPUs := default 0 vcpus;
     sku_MemoryBytes :=
       default 0 (raw ← lookupCapability sku "MemoryGB"; parseQuantity (raw +:+ "Gi")%string);
     sku_SecondaryNICs := match lookupInt64 sku "MaxNetworkInterfaces" with
                          | Some maxNICs => if (1 <? maxNICs)%Z then (maxNICs - 1)%Z else 0
                          | None => 0
                          end;
     sku_EphemeralOSDiskSupported :=
       default false (lookupBool sku "EphemeralOSDiskSupported");
     sku_EphemeralDiskSizeGB := ephemeralDiskSizeGB sku;
     sku_Zones := skuZones sku;
     sku_ConstrainedVCPUs := constrained;
     sku_LocationRestricted := isLocationRestricted sku region |}.

Definition HasResources (m : SKUMetadata) : bool :=
  (0 <? sku_VCPUs m) || (0 <? sku_MemoryBytes m) || (0 <? sku_SecondaryNICs m).

(** One SKU of a page of [fetchSKUMetadata]. *)
Definition collectSKU (parseQuantity : string → option Z) (region : string)
    (acc : gmap string SKUMetadata) (sku : option ResourceSKU) : gmap string SKUMetadata :=
  match sku with
  | Some s =>
      match rs_ResourceType s, rs_Name s with
      | Some "virtualMachines"%string, Some name =>
          let meta := extractSKUMetadata parseQuantity s name region in
          if HasResources meta then <[name := meta]> acc else acc
      | _, _ => acc
      end
  | None => acc
  end.

Fixpoint fetchSKUMetadata (parseQuantity : string → option Z) (region : string)
    (pages : list (result string (list (option ResourceSKU))))
    (acc : gmap string SKUMetadata) : result string (gmap string SKUMetadata) :=
  match pages with
  | [] => Ok acc
  | Err e :: _ => Err ("listing resource SKUs: " +:+ e)%string
  | Ok page :: pages =>
      fetchSKUMetadata parseQuantity region pages
        (fold_left (collectSKU parseQuantity region) page acc)
  end.

(** ** The cache *)

(** [time.Hour], in nanoseconds. *)
Definition skuCacheTTL : Z := 3600000000000.

Record skuCacheEntry := {
  entry_metadata : gmap string SKUMetadata;
  entry_expiresAt : Z;
}.

Abbreviation skuCacheEntries := (gmap string skuCacheEntry) (only parsing).

(** An unexpired entry. *)
Definition validEntry (entries : skuCacheEntries) (subscriptionID : string) (now : Z) :
    option (gmap string SKUMetadata) :=
  match entries !! subscriptionID with
  | Some entry => if now <? entry_expiresAt entry then Some (entry_metadata entry) else None
  | None => None
  end.

(** One call by one goroutine: the clock is read before the lookup ([now0]), again
    inside the single flight ([now1]) and when the entry is stored ([now2]).  The
    last component tells whether the API was queried. *)
Definition SKUMetadataByVMSize (entries : skuCacheEntries) (subscriptionID : string)
    (now0 now1 now2 : Z) (fetched : result string (gmap string SKUMetadata)) :
    result string (gmap string SKUMetadata) * skuCacheEntries * bool :=
  match validEntry entries subscriptionID now0 with
  | Some metadata => (Ok metadata, entries, false)
  | None =>
      match validEntry entries subscriptionID now1 with
      | Some metadata => (Ok metadata, entries, false)
      | None =>
          match fetched with
          | Err e => (Err e, entries, true)
          | Ok metadata =>
              (Ok metadata,
               <[subscriptionID := {| entry_metadata := metadata;
                                      entry_expiresAt := now2 + skuCacheTTL |}]> entries,
               true)
          end
      end
  end.

(** ** Properties *)

Lemma elem_of_collectRestrictedZones sku z :
  z ∈ collectRestrictedZones sku ↔
  ∃ r info, Some r ∈ rs_Restrictions sku ∧ restr_Type r = Some RestrictionZone ∧
    restr_Info r = Some info ∧ Some z ∈ ri_Zones info.
Proof.
  unfold collectRestrictedZones. generalize (rs_Restrictions sku) as l.
  assert (Hgen : ∀ l acc, z ∈ fold_left (λ restricted restriction,
      match restriction with
      | Some {| restr_Type := Some RestrictionZone; restr_Info := Some info |} =>
          restricted ∪ list_to_set (omap id (ri_Zones info))
      | _ => restricted
      end) l acc ↔ z ∈ (acc : gset string) ∨
    ∃ r info, Some r ∈ l ∧ restr_Type r = Some RestrictionZone ∧
      restr_Info r = Some info ∧ Some z ∈ ri_Zones info).
  { induction l as [|x l IH]; intros acc; cbn [fold_left]; [set_solver|]. rewrite IH.
    destruct x as [[[[]|] vs [info|]]|]; try (split; [set_solver|]; intros [?|(r & i & Hin & Ht & Hi & Hz)];
      [by left|]; apply elem_of_cons in Hin as [Hin|Hin]; [simplify_eq; done|right; eauto 10]).
    rewrite elem_of_union, elem_of_list_to_set, list_elem_of_omap. split.
    - intros [[?|(y & Hy & Hid)]|(r & i & Hin & H)]; [by left| |].
      + right. unfold id in Hid. subst y. eexists _, info. split; [left|done].
      + right. exists r, i. split; [by right|done].
    - intros [?|(r & i & Hin & Ht & Hi & Hz)]; [by left; left|].
      apply elem_of_cons in Hin as [Hin|Hin].
      + simplify_eq/=. left; right. by exists (Some z).
      + right. eauto 10. }
  intros l. rewrite Hgen. set_solver.
Qed.

(** The zones recorded for a VM size are exactly the zones Azure lists for the
    region less the zones a restriction names, in sorted order; and the SKU is
    marked as restricted exactly when a location restriction names the region,
    ignoring case. *)
Theorem extractSKUMetadata_restrictions (parseQuantity : string → option Z)
    (sku : ResourceSKU) (name region : string) :
  let meta := extractSKUMetadata parseQuantity sku name region in
  (∀ z, z ∈ sku_Zones meta ↔
     (∃ zones, head (rs_LocationInfo sku) = Some (Some zones) ∧ Some z ∈ zones) ∧
     ¬ ∃ r info, Some r ∈ rs_Restrictions sku ∧ restr_Type r = Some RestrictionZone ∧
         restr_Info r = Some info ∧ Some z ∈ ri_Zones info) ∧
  StronglySorted (ordered string_less) (sku_Zones meta) ∧
  (sku_LocationRestricted meta = true ↔
   ∃ r l, Some r ∈ rs_Restrictions sku ∧ restr_Type r = Some RestrictionLocation ∧
     EqualFold l region = true ∧
     (Some l ∈ restr_Values r ∨ ∃ info, restr_Info r = Some info ∧ Some l ∈ ri_Locations info)).
Proof.
  cbv zeta. simpl. split_and!.
  - intros z. unfold skuZones. rewrite <- elem_of_collectRestrictedZones.
    destruct (rs_LocationInfo sku) as [|[zones|] rest]; simpl; [set_solver| |set_solver].
    rewrite elem_of_sort_by, list_elem_of_filter, list_elem_of_omap.
    unfold id. naive_solver.
  - unfold skuZones. destruct (rs_LocationInfo sku) as [|[zones|] rest]; [constructor| |constructor].
    apply sort_by_sorted; eauto using string_less_asym with aro.
  - assert (Hnames : ∀ l, namesRegion region l = true ↔
      ∃ x, Some x ∈ l ∧ EqualFold x region = true).
    { intros l. unfold namesRegion. rewrite existsb_elem. split.
      - intros ([x|] & Hx & He); [eauto|done].
      - intros (x & Hx & He). by exists (Some x). }
    unfold isLocationRestricted. rewrite existsb_elem. split.
    + intros ([r|] & Hr & H); [|done]. apply andb_true_iff in H as [Ht Hl].
      apply bool_decide_eq_true in Ht. apply orb_true_iff in Hl as [Hl|Hl].
      * apply Hnames in Hl as (x & ? & ?). exists r, x. eauto 10.
      * destruct (restr_Info r) as [info|] eqn:Hi; [|done].
        apply Hnames in Hl as (x & ? & ?). exists r, x. split_and!; try done. right. eauto.
    + intros (r & l & Hr & Ht & He & Hl). exists (Some r). split; [done|].
      rewrite bool_decide_eq_true_2 by done. simpl. apply orb_true_iff.
      destruct Hl as [Hl|(info & Hi & Hl)]; [left|right; rewrite Hi]; apply Hnames; eauto.
Qed.

(** The cache is fresh and saves queries: a successful call leaves an entry
    with which every later call that starts within the time to live returns the
    same metadata without querying the API, whatever the API would say; and a
    failed query leaves the cache as it was. *)
Theorem SKUMetadataByVMSize_cached (entries : skuCacheEntries) (sub : string)
    (now0 now1 now2 : Z) (fetched : result string (gmap string SKUMetadata)) :
  let '(r, entries', queried) := SKUMetadataByVMSize entries sub now0 now1 now2 fetched in
  match r with
  | Err e => entries' = entries ∧ queried = true ∧ fetched = Err e
  | Ok metadata =>
      (queried = true → fetched = Ok metadata ∧
         ∀ t0 t1 t2 later, t0 < now2 + skuCacheTTL →
           SKUMetadataByVMSize entries' sub t0 t1 t2 later = (Ok metadata, entries', false)) ∧
      (queried = false → entries' = entries ∧
         ∃ entry, entries !! sub = Some entry ∧ entry_metadata entry = metadata ∧
           (now0 < entry_expiresAt entry ∨ now1 < entry_expiresAt entry))
  end.
Proof.
  assert (Hvalid : ∀ now m, validEntry entries sub now = Some m →
    ∃ entry, entries !! sub = Some entry ∧ entry_metadata entry = m ∧ now < entry_expiresAt entry).
  { intros now m. unfold validEntry. destruct (entries !! sub) as [entry|]; [|done].
    destruct (_ <? _) eqn:E; [|done]. bool_reflect. intros [= <-]. eauto. }
  unfold SKUMetadataByVMSize at 1. destruct (validEntry entries sub now0) eqn:E0.
  { split; [done|]. intros _. apply Hvalid in E0 as (entry & ? & ? & ?). eauto 10. }
  destruct (validEntry entries sub now1) eqn:E1.
  { split; [done|]. intros _. apply Hvalid in E1 as (entry & ? & ? & ?). eauto 10. }
  destruct fetched as [m|e]; [|done]. split; [|done]. intros _. split; [done|].
  intros t0 t1 t2 later Ht. unfold SKUMetadataByVMSize, validEntry.
  rewrite lookup_insert_eq. simpl. by rewrite (proj2 (Z.ltb_lt _ _)).
Qed.
