(* ===== verification/NodePoolController.v ===== *)
(** * One reconcile of the node pool controller

    [fleet/pkg/controllers/nodepool/controller.go]: [SyncOnce] reads the cluster,
    its pools, the SKUs and the quota, resolves the desired pools and reports a
    projection.  What Azure and the database answer is an argument; the logged
    report is the result. *)
From S2P Require Import Prelude GoStrings ComputeTypes ComputeCapacity ComputeFill.
From S2P Require Import ComputeDesired ComputeAllocation NodePoolPlan NodePoolSimulation.
From S2P Require Import NodePoolSafety AgentPools.

Local Open Scope Z_scope.
Local Open Scope go_scope.

Definition nodePoolSimulationMaxCycles : Z := 1000.
Definition ProvisioningTagKey : string := "aro-hcp-provisioning".
Definition ProvisioningTagValue : string := "true".

(** The AKS managed cluster: its tags and provisioning state. *)
Record ManagedCluster := {
  mc_Tags : gmap string (option string);
  mc_ProvisioningState : option (option string);
}.

(** What the environment answers during a reconcile. *)
Record syncInputs := {
  si_managementCluster : result string (option string);
  si_cluster : result string ManagedCluster;
  si_pools : result string (list AgentPool);
  si_skus : result string (gmap string SKUMetadata);
  si_fetchUsage : FetchQuotaUsageFunc;
}.

Record nodePoolSyncer := {
  sy_profile : Profile;
  sy_zones : list string;
}.

(** The errors [SyncOnce] returns, by origin. *)
Inductive sync_error : Type :=
  | ErrLister (e : string)
  | ErrGetCluster (e : string)
  | ErrListPools (e : string)
  | ErrResolve (e : resolve_error)
  | ErrCurrent (e : current_error)
  | ErrIncompleteConfiguration
  | ErrUnresolvedSKUs (sizes : list string)
  | ErrObservedCapacity (e : observed_error)
  | ErrSimulating (e : sim_error).

(** What [logShadowReport] logs. *)
Record shadowReport := {
  report_trace : trace;
  report_failures : list AllocationFailure;
}.

Definition waitingReport (reason : string) : shadowReport := {|
  report_trace := withOutcome (initialTrace [] [] ∅ false ∅ ∅) [] None OutcomeWaiting reason;
  report_failures := [] |}.

(** The report of a failed required tier. *)
Definition tierFailureReport (resolved : DesiredPoolsResult) (current : list PoolState)
    (observedCapacity : CapacityByRole) : shadowReport :=
  let reason := ("tier allocation failed: " +:+ FailureSummary (dr_Failures resolved))%string in
  let '(o, reason) :=
    match firstInProgressPool current with
    | Some pool => (OutcomeWaiting,
        ("pool " +:+ ps_Name pool +:+ " has an operation in progress; " +:+ reason)%string)
    | None => (OutcomeRejected, reason)
    end in
  {| report_trace :=
       withOutcome (initialTrace (dr_Pools resolved) current (dr_AvailableVCPUs resolved)
                      (dr_FullyAllocated resolved) observedCapacity ∅) [] None o reason;
     report_failures := dr_Failures resolved |}.

(** The part of [SyncOnce] after the desired pools and the live pools are known. *)
Definition projectPools (pools : list AgentPool) (resolved : DesiredPoolsResult)
    (current : list PoolState) : result go_panic (result sync_error shadowReport) :=
  let managedCount := length (base.filter (λ p, IsManagedPool p = true) pools) in
  if negb (Nat.eqb (length current) managedCount) then Ok (Err ErrIncompleteConfiguration)
  else
    let unresolved := unresolvedSKUSizes current in
    if negb (bool_decide (unresolved = [])) then Ok (Err (ErrUnresolvedSKUs unresolved))
    else
      match ObservedAgentPoolCapacities pools (dr_SKUMetadata resolved) with
      | Err e => Ok (Err (ErrObservedCapacity e))
      | Ok observedCapacity =>
          if RequiredTierFailed (dr_Failures resolved)
          then Ok (Ok (tierFailureReport resolved current observedCapacity))
          else
            let* projection := simulateAndTrace (dr_Pools resolved) current
              (dr_AvailableVCPUs resolved) (dr_FullyAllocated resolved)
              nodePoolSimulationMaxCycles in
            match projection with
            | (_, Some e) => Ok (Err (ErrSimulating e))
            | (tr, None) =>
                Ok (Ok {| report_trace := tr; report_failures := dr_Failures resolved |})
            end
      end.

Definition SyncOnce (s : nodePoolSyncer) (env : syncInputs) :
    result go_panic (result sync_error shadowReport) :=
  match si_managementCluster env with
  | Err e => Ok (Err (ErrLister e))
  | Ok None => Ok (Ok (waitingReport "management cluster has no AKS resource ID yet"))
  | Ok (Some _) =>
      match si_cluster env with
      | Err e => Ok (Err (ErrGetCluster e))
      | Ok cluster =>
          if bool_decide (pointerAt (mc_Tags cluster) ProvisioningTagKey
                          = Some ProvisioningTagValue)
          then Ok (Ok (waitingReport "cluster provisioning marker is present"))
          else if negb (bool_decide (mc_ProvisioningState cluster
                                     = Some (Some "Succeeded"%string)))
          then Ok (Ok (waitingReport "AKS cluster provisioning state is not Succeeded"))
          else
            match si_pools env with
            | Err e => Ok (Err (ErrListPools e))
            | Ok pools =>
                match ResolveDesiredPools (si_skus env) (sy_profile s) (sy_zones s)
                        (poolZonesByRole pools) (si_fetchUsage env) with
                | Err e => Ok (Err (ErrResolve e))
                | Ok resolved =>
                    match currentPoolStates pools (dr_SKUMetadata resolved) with
                    | Err e => Ok (Err (ErrCurrent e))
                    | Ok current => projectPools pools resolved current
                    end
                end
            end
      end
  end.

(** ** The live pools satisfy the simulator's preconditions *)

(** Bounds on the SKU catalogue: known memory, resources of at most [R]. *)
Definition skusOk (R : Z) (skus : gmap string SKUMetadata) : Prop :=
  ∀ name meta, skus !! name = Some meta →
    0 <= sku_VCPUs meta <= R ∧ 0 < sku_MemoryBytes meta <= R ∧ 0 <= sku_SecondaryNICs meta <= R.

(** Bounds on what Azure reports for a pool. *)
Record agentPoolOk (C R : Z) (pool : AgentPool) : Prop := {
  ao_counts : ∀ p, agentpool_Properties pool = Some p →
    (∀ n, ap_Count p = Some n → 0 <= n <= C) ∧ (∀ n, ap_MinCount p = Some n → 0 <= n) ∧
    (∀ n, ap_MaxCount p = Some n → 0 <= n <= C) ∧
    (∀ n, SecondaryNICCount (ap_Tags p) = Some (Ok n) → n <= R);
}.

Lemma SecondaryNICCount_nonneg tags n : SecondaryNICCount tags = Some (Ok n) → 0 <= n.
Proof.
  unfold SecondaryNICCount. destruct (tags !! _); [|done].
  destruct (Atoi _); [|done]. destruct (_ <? 0) eqn:E; [done|]. bool_reflect.
  intros; simplify_eq; lia.
Qed.

Lemma liveNICs_ok R name tags n :
  0 <= R → (∀ n, SecondaryNICCount tags = Some (Ok n) → n <= R) → liveNICs name tags = Ok n →
  0 <= n <= R ∧ (0 < n → IsSwiftEnabled tags = true).
Proof.
  intros HR Hb. unfold liveNICs. destruct (SecondaryNICCount tags) as [[m|e]|] eqn:E.
  - destruct (IsSwiftEnabled tags); simpl; [|done]. intros [= <-].
    pose proof (SecondaryNICCount_nonneg _ _ E). specialize (Hb m eq_refl). split; [lia|done].
  - by destruct (IsSwiftEnabled tags).
  - intros [= <-]. split; lia.
Qed.

Lemma currentPoolState_ok C R skus pool s :
  0 <= C <= maxInt32 → 0 <= R → skusOk R skus → agentPoolOk C R pool →
  currentPoolState skus pool = Ok (Some s) → spec_VCPUs (ps_Spec s) ≠ 0 →
  stateOk C R s ∧ agentpool_Name pool = Some (ps_Name s).
Proof.
  intros HC HR Hskus [Hao] H Hv. unfold currentPoolState in H.
  destruct (IsManagedPool pool); [|done]. simpl in H.
  destruct (agentpool_Properties pool) as [p|] eqn:Hp; [|done].
  destruct (agentpool_Name pool) as [name|]; [|done].
  destruct (ap_VMSize p) as [vmSize|]; [|done]. destruct (ap_OSDiskSizeGB p) as [disk|]; [|done].
  destruct (Hao p eq_refl) as (Hcnt & Hmin & Hmax & Hnic).
  set (other := match ap_OSDiskType p with Some _ => _ | None => None end) in H.
  destruct other; [done|]. unfold livePoolState in H.
  destruct (liveNICs name (ap_Tags p)) as [nics|] eqn:Hn; [|done]. cbn [result_bind] in H.
  apply (liveNICs_ok R) in Hn as [Hnb Hsw]; [|done|done]. simplify_eq. split; [|done].
  unfold ps_Spec in Hv. simpl in Hv.
  destruct (skus !! vmSize) as [meta|] eqn:Hm; [|done]. simpl in Hv.
  destruct (Hskus vmSize meta Hm) as (H1 & H2 & H3).
  assert (Hcount : 0 <= default 0 (ap_Count p) <= C).
  { destruct (ap_Count p); simpl; [by apply Hcnt|lia]. }
  split.
  - split; unfold vcpusOf, memoryOf, nicsOf; simpl; try done; lia.
  - done.
  - unfold ps_MaxCount. simpl. unfold PoolMaxCount. rewrite Hp.
    destruct (ap_Count p) as [c|]; simpl in *; [|by vm_compute].
    destruct (ap_MaxCount p) as [m|]; [pose proof (Hmax m eq_refl)|];
      destruct (ap_EnableAutoScaling p) as [[]|]; rewrite wrap32_id; int_range.
  - simpl. destruct (ap_MinCount p); simpl; [by apply Hmin|lia].
Qed.

Lemma currentPoolStates_ok C R skus pools current :
  0 <= C <= maxInt32 → 0 <= R → skusOk R skus → Forall (agentPoolOk C R) pools →
  currentPoolStates pools skus = Ok current → unresolvedSKUSizes current = [] →
  Forall (stateOk C R) current ∧
  (Some ∘ ps_Name <$> current) `sublist_of` (agentpool_Name <$> pools).
Proof.
  intros HC HR Hskus Hpools. revert current.
  induction Hpools as [|pool pools Hp Hpools IH]; intros current; cbn [currentPoolStates].
  { intros [= <-] _. split; constructor. }
  destruct (currentPoolState skus pool) as [os|] eqn:E1; [|done]. cbn [result_bind].
  destruct (currentPoolStates pools skus) as [rest|] eqn:E2; [|done]. cbn [result_bind].
  intros [= <-]. destruct os as [s|].
  - unfold unresolvedSKUSizes. rewrite filter_cons.
    destruct (decide (spec_VCPUs (ps_Spec s) = 0)) as [|Hv]; [done|]. intros Hu.
    destruct (IH rest eq_refl Hu) as [H1 H2].
    destruct (currentPoolState_ok C R skus pool s HC HR Hskus Hp E1 Hv) as [H3 H4].
    split; [by constructor|]. rewrite !fmap_cons, H4. by apply sublist_skip.
  - intros Hu. destruct (IH rest eq_refl Hu) as [H1 H2]. split; [done|].
    rewrite fmap_cons. by apply sublist_cons.
Qed.

(** ** The desired pools satisfy them too *)

Lemma tierSKU_catalogue tier family skus meta :
  tierSKU tier family (BuildEligibleSKUIndex skus) = Some meta → ∃ name, skus !! name = Some meta.
Proof.
  unfold tierSKU, Lookup. destruct (indexLookup _ _ _) as [sku|] eqn:E; simpl; [|done].
  destruct (_ <? _); [done|]. destruct (_ && _); [done|]. intros [= <-].
  apply buildIndexFrom_lookup in E as [Hin _ _ _ _]; [|apply NoDup_fst_map_to_list].
  exists (es_VMSize sku). by apply elem_of_map_to_list.
Qed.

Lemma madeFor_desiredOk C R skus t p :
  C <= maxInt32 → skusOk R skus → tier_ok t → 0 <= Tier_MaxNodes t <= C →
  madeFor t (BuildEligibleSKUIndex skus) p → desiredOk C R p.
Proof.
  intros HC Hskus Ht Hn Hm. pose proof (BuildEligibleSKUIndex_ok skus) as Hix.
  destruct (madeFor_spec t _ Hix ltac:(lia) p Hm) as (_ & Hv & Hmax & Hmin).
  pose proof (tier_cores_ok _ Ht) as Hc. unfold poolVCPUs in Hv.
  destruct Hm as (meta & zone & zs & n & -> & _ & Hs & _).
  destruct (tierSKU_catalogue _ _ _ _ Hs) as [name Hname].
  destruct (Hskus name meta Hname) as (H1 & H2 & H3). simpl in Hv.
  split; [|lia|lia]. split; unfold vcpusOf, memoryOf, nicsOf; simpl; try lia.
  - destruct (Class_AttachSecondaryNICs (Tier_Class t)); lia.
  - intros Hpos. destruct (Class_AttachSecondaryNICs (Tier_Class t)) eqn:E; [|lia].
    by apply (tier_swift_ok _ Ht).
Qed.

Lemma ComputeDesiredPools_ok C R tiers zones existing limits skus :
  C <= maxInt32 → skusOk R skus →
  allocationInputs tiers zones existing limits (BuildEligibleSKUIndex skus) →
  Forall (λ t, Tier_MaxNodes t <= C) tiers →
  Forall (desiredOk C R)
    (ComputeDesiredPools tiers zones existing limits (BuildEligibleSKUIndex skus)).1.1.
Proof.
  intros HC Hskus Hin Hmax. destruct (ComputeDesiredPools_inv _ _ _ _ _ Hin) as (st & Hinv & ->).
  apply Forall_forall. intros p Hp. destruct (inv_made _ _ _ _ Hinv p Hp) as (t & Ht & Hm).
  destruct (tiers_ok _ _ _ _ _ Hin t Ht) as (Hok & Hn & _). rewrite Forall_forall in Hmax.
  specialize (Hmax t Ht). eapply madeFor_desiredOk; try done. lia.
Qed.

(** What a reconcile is given: a validated profile, distinct zones and pools,
    sane quota limits, and bounds [C] on counts and [R] on resources for which
    the capacity sums fit [int64]. *)
Record reconcileInputs (C R : Z) (s : nodePoolSyncer) (env : syncInputs) : Prop := {
  ri_C : 0 <= C <= maxInt32;
  ri_R : 0 <= R;
  ri_skus : ∀ skus, si_skus env = Ok skus → skusOk R skus;
  ri_pools : ∀ pools, si_pools env = Ok pools →
    Forall (agentPoolOk C R) pools ∧ NoDup (agentpool_Name <$> pools);
  ri_tiers : Forall (λ t, Tier_MaxNodes t <= C) (Profile_Tiers (sy_profile s));
  ri_alloc : ∀ skus pools quota, si_skus env = Ok skus → si_pools env = Ok pools →
    Profile_BudgetStrategy (sy_profile s) (TierFamilies (Profile_Tiers (sy_profile s)))
      (si_fetchUsage env) = Ok quota →
    allocationInputs (Profile_Tiers (sy_profile s)) (sy_zones s) (poolZonesByRole pools)
      (quota_Limit <$> quota) (BuildEligibleSKUIndex skus);
  ri_fit : ∀ pools resolved, si_pools env = Ok pools →
    ResolveDesiredPools (si_skus env) (sy_profile s) (sy_zones s) (poolZonesByRole pools)
      (si_fetchUsage env) = Ok resolved →
    (Z.of_nat (length pools) + Z.of_nat (length (dr_Pools resolved))) * (C * R) <= maxInt64;
}.

Lemma resolved_ok C R s env pools resolved :
  reconcileInputs C R s env → si_pools env = Ok pools →
  ResolveDesiredPools (si_skus env) (sy_profile s) (sy_zones s) (poolZonesByRole pools)
    (si_fetchUsage env) = Ok resolved →
  si_skus env = Ok (dr_SKUMetadata resolved) ∧ Forall (desiredOk C R) (dr_Pools resolved).
Proof.
  intros Hin Hp. unfold ResolveDesiredPools. pose proof (ri_C _ _ _ _ Hin).
  destruct (si_skus env) as [skus|] eqn:Hskus; [|done].
  destruct (Profile_BudgetStrategy _ _ _) as [quota|] eqn:Hq; [|done].
  pose proof (ComputeDesiredPools_ok C R _ _ _ _ skus ltac:(lia) (ri_skus _ _ _ _ Hin skus Hskus)
    (ri_alloc _ _ _ _ Hin skus pools quota Hskus Hp Hq) (ri_tiers _ _ _ _ Hin)) as Hd.
  destruct (ComputeDesiredPools _ _ _ _ _) as [[ps fs] full]. by intros [= <-].
Qed.

(** (C6) End to end, a reconcile never panics and never fails in the simulator:
    whatever pools AKS reports and whatever quota Azure grants within the stated
    sizes, the desired pools the allocator computes and the live pools read back
    meet the simulator's preconditions, so every reconcile ends in a report or
    in an error about its inputs. *)
Theorem SyncOnce_never_fails_simulating (C R : Z) (s : nodePoolSyncer) (env : syncInputs)
    (Hin : reconcileInputs C R s env) :
  ∃ r, SyncOnce s env = Ok r ∧ ∀ e, r ≠ Err (ErrSimulating e).
Proof.
  unfold SyncOnce.
  destruct (si_managementCluster env) as [[id|]|]; [|by eexists..].
  destruct (si_cluster env) as [cluster|]; [|by eexists].
  destruct (bool_decide _); [by eexists|]. destruct (negb _); [by eexists|].
  destruct (si_pools env) as [pools|] eqn:Hp; [|by eexists].
  destruct (ResolveDesiredPools _ _ _ _ _) as [resolved|] eqn:Hr; [|by eexists].
  destruct (resolved_ok C R s env pools resolved Hin Hp Hr) as [Hskus Hdes].
  destruct (currentPoolStates pools (dr_SKUMetadata resolved)) as [current|] eqn:Hc;
    [|by eexists].
  unfold projectPools. destruct (negb _); [by eexists|].
  destruct (bool_decide_reflect (unresolvedSKUSizes current = [])) as [Hu|]; [|by eexists].
  simpl. destruct (ObservedAgentPoolCapacities _ _) as [obs|]; [|by eexists].
  destruct (RequiredTierFailed _); [by eexists|].
  destruct (ri_pools _ _ _ _ Hin pools Hp) as [Hpo Hnd].
  destruct (currentPoolStates_ok C R _ pools current (ri_C _ _ _ _ Hin) (ri_R _ _ _ _ Hin)
    (ri_skus _ _ _ _ Hin _ Hskus) Hpo Hc Hu) as [Hst Hsub].
  assert (Hinputs : projectionInputs C R (dr_Pools resolved) current).
  { split; try done; [apply Hin|apply Hin| |].
    - eapply sublist_NoDup in Hnd; [|exact Hsub]. rewrite list_fmap_compose in Hnd.
      by apply NoDup_fmap_1 in Hnd.
    - apply sublist_length in Hsub. rewrite !length_fmap in Hsub.
      pose proof (ri_fit _ _ _ _ Hin pools resolved Hp Hr). pose proof (ri_C _ _ _ _ Hin).
      pose proof (ri_R _ _ _ _ Hin). etransitivity; [|exact H].
      apply Z.mul_le_mono_nonneg_r; [nia|lia]. }
  destruct (simulateAndTrace_total C R _ _ (dr_AvailableVCPUs resolved)
    (dr_FullyAllocated resolved) nodePoolSimulationMaxCycles Hinputs ltac:(by vm_compute))
    as (tr & ->).
  cbn [result_bind]. by eexists.
Qed.

Lemma SyncOnce_never_fails_simulating_witness :
  let env := {| si_managementCluster := Ok (Some "aks"%string);
    si_cluster := Ok {| mc_Tags := ∅; mc_ProvisioningState := Some (Some "Succeeded"%string) |};
    si_pools := Ok []; si_skus := Ok ProductionLike.skus;
    si_fetchUsage := λ _, Ok {[ProductionLike.family :=
      {| quota_Limit := 1000; quota_CurrentValue := 0 |}]} |} in
  let s := {| sy_profile := {| Profile_Tiers := ProductionLike.tiers;
                Profile_BudgetStrategy := SubscriptionQuotaBudget |};
              sy_zones := ["1"; "2"; "3"] |} in
  ∃ r, SyncOnce s env = Ok r ∧ ∀ e, r ≠ Err (ErrSimulating e).
Proof.
  intros env s. apply (SyncOnce_never_fails_simulating 8 274877906944 s env). split.
  - by vm_compute.
  - by vm_compute.
  - intros skus [= <-] name meta Hm. apply elem_of_map_to_list in Hm.
    vm_compute in Hm. repeat (apply elem_of_cons in Hm as [Hm|Hm]; [simplify_eq; by vm_compute|]).
    by apply elem_of_nil in Hm.
  - intros pools [= <-]. split; constructor.
  - repeat constructor; by vm_compute.
  - intros skus pools quota [= <-] [= <-] [= <-]. rewrite map_fmap_singleton.
    exact ProductionLike_allocation.
  - intros pools resolved [= <-] [= <-]. vm_compute. discriminate.
Defined.
