(* ===== verification/NsgEvaluator.v ===== *)
(** * The network security group evaluator

    Model of [backend/pkg/utils/validationutils/nsg_evaluator.go]: which required
    paths (worker prefix, destination prefix, TCP port) a network security
    group's rules, taken in priority order, leave blocked or without an Allow.
    Definitions only; the properties are in [NsgRanges] and [NsgSafety].

    [utilnet.ParsePortRange] of [k8s.io/apimachinery] is a parameter: a function
    that returns the parsed range as its [Contains] method, or the error. *)
From S2P Require Import Prelude GoStrings GoNetip.

Local Open Scope Z_scope.

Definition securityGroupAccess := string.
Definition securityGroupAccessAllow : securityGroupAccess := "Allow".
Definition securityGroupAccessDeny : securityGroupAccess := "Deny".
Definition azureTagAny : string := "Any".
Definition azureTagVirtualNetwork : string := "VirtualNetwork".
Definition azureTagInternet : string := "Internet".

Record nsgSecurityRule := {
  rule_Name : string;
  rule_Priority : Z;
  rule_Access : securityGroupAccess;
  rule_Protocol : string;
  rule_SourceAddressPrefixes : list string;
  rule_DestinationAddressPrefixes : list string;
  rule_SourcePortRanges : list string;
  rule_DestinationPortRanges : list string;
}.

Record requiredNSGPath := {
  path_worker : Prefix;
  path_destination : Prefix;
  path_port : Z;
}.

Inductive nsgDirection : Type := nsgDirectionOutbound | nsgDirectionInbound.

Definition nsgDirection_string (d : nsgDirection) : string :=
  match d with nsgDirectionOutbound => "Outbound" | nsgDirectionInbound => "Inbound" end.

Record nsgRequiredConnectivityViolationDetails := {
  v_Direction : nsgDirection;
  v_RuleName : string;
  v_RulePriority : Z;
  v_Protocol : string;
  v_SourcePortRanges : list string;
  v_BlockedPorts : list Z;
  v_Source : list string;
  v_Destination : list string;
  v_PathWorker : Prefix;
  v_PathDestination : Prefix;
  v_Reason : string;
}.

Record ipAddrRange := { range_first : Addr; range_last : Addr }.

Inductive nsg_error : Type :=
  | ErrNoPrefixes (label : string)
  | ErrPortRange (field part cause : string).

Definition buildRequiredNSGPaths (workerPrefixes : list Prefix) (workerLabel : string)
    (destinationPrefixes : list Prefix) (destLabel : string) (ports : list Z) :
    result nsg_error (list requiredNSGPath) :=
  if bool_decide (workerPrefixes = []) then Err (ErrNoPrefixes workerLabel)
  else if bool_decide (destinationPrefixes = []) then Err (ErrNoPrefixes destLabel)
  else Ok (worker ← workerPrefixes; dest ← destinationPrefixes; port ← ports;
           [{| path_worker := worker; path_destination := dest; path_port := port |}]).

(** ** Rule predicates *)
Definition isDeny (rule : nsgSecurityRule) : bool :=
  EqualFold (rule_Access rule) securityGroupAccessDeny.
Definition isAllow (rule : nsgSecurityRule) : bool :=
  EqualFold (rule_Access rule) securityGroupAccessAllow.

Definition isAnyAddressPrefix (p : string) : bool :=
  let p := TrimSpace p in
  String.eqb p "" || String.eqb p "*" || EqualFold p azureTagAny.

Definition isAnyAddressPrefixes (prefixes : list string) : bool :=
  if bool_decide (prefixes = []) then true else existsb isAnyAddressPrefix prefixes.

Definition isAnyPort (p : string) : bool := String.eqb p "*".
Definition isVirtualNetworkTag (p : string) : bool := EqualFold (TrimSpace p) azureTagVirtualNetwork.
Definition isInternetTag (p : string) : bool := EqualFold (TrimSpace p) azureTagInternet.

Definition isAnyProtocol (protocol : string) : bool :=
  let p := TrimSpace protocol in
  String.eqb p "" || String.eqb p "*" || EqualFold p azureTagAny.
Definition protocolMatchesTCP (protocol : string) : bool :=
  isAnyProtocol protocol || EqualFold (TrimSpace protocol) "Tcp".

Definition parsePrefixOrAddr (s : string) : option Prefix :=
  let s := TrimSpace s in
  if ContainsByte s slash then ParsePrefix s
  else match ParseAddr s with
       | Some addr => Some (PrefixFrom addr (BitLen addr))
       | None => None
       end.

Definition overlapsText (p : string) (subnet : Prefix) : bool :=
  match parsePrefixOrAddr p with Some rulePrefix => Overlaps rulePrefix subnet | None => false end.

Definition sourceMatchesSubnet (prefixes : list string) (subnet : Prefix) : bool :=
  if bool_decide (prefixes = []) then true
  else existsb (λ p, let p := TrimSpace p in
         (isAnyAddressPrefix p || isVirtualNetworkTag p) || overlapsText p subnet) prefixes.

Definition sourceSpecificallyFromWorker (prefixes : list string) (workerSubnet : Prefix) : bool :=
  existsb (λ p, let p := TrimSpace p in
    if isAnyAddressPrefix p then false
    else isVirtualNetworkTag p || overlapsText p workerSubnet) prefixes.

Definition destinationMatchesSubnet (prefixes : list string) (subnet : Prefix) (matchAny : bool) :
    bool :=
  if bool_decide (prefixes = []) then matchAny
  else existsb (λ p, let p := TrimSpace p in
         if isAnyAddressPrefix p then matchAny
         else if isInternetTag p then false
         else isVirtualNetworkTag p || overlapsText p subnet) prefixes.

Definition destinationIsVNetOrSubnet (prefixes : list string) (subnet : Prefix) : bool :=
  destinationMatchesSubnet prefixes subnet false.
Definition destinationOverlapsSubnet (prefixes : list string) (subnet : Prefix) : bool :=
  destinationMatchesSubnet prefixes subnet true.

Definition allowCoversPrefix (allowPrefixes : list string) (destPrefix : Prefix) : bool :=
  existsb (λ p, let p := TrimSpace p in
    (isAnyAddressPrefix p || isVirtualNetworkTag p) ||
    match parsePrefixOrAddr p with
    | Some allowPrefix =>
        Contains allowPrefix (prefix_ip destPrefix) && (Bits allowPrefix <=? Bits destPrefix)
    | None => false
    end) allowPrefixes.

(** ** Address ranges *)

(** Four bytes as [uint32] and back; the [uint32] operations wrap. *)
Definition last4 (n bits : Z) : Z :=
  let hostBits := 32 - bits in
  if 0 <? hostBits then Z.lor n ((Z.shiftl 1 hostBits `mod` 2 ^ 32 - 1) `mod` 2 ^ 32) else n.

(** The 16 bytes of an address from the last one to the first, and their value. *)
Definition bytesUp (n : Z) : list Z := (λ i, Z.shiftr n (8 * Z.of_nat i) `mod` 256) <$> seq 0 16.
Definition valueUp (bytes : list Z) : Z := foldr (λ b acc, b + 256 * acc) 0 bytes.

(** The loop over the bytes of an IPv6 address, last byte first. *)
Fixpoint setHostBits (bytes : list Z) (hostBits : Z) : list Z :=
  match bytes with
  | [] => []
  | b :: bs =>
      if 0 <? hostBits then
        if 8 <=? hostBits then 255 :: setHostBits bs (hostBits - 8)
        else Z.lor b (Z.shiftl 1 hostBits - 1) :: bs
      else b :: bs
  end.

Definition lastAddrOfPrefix (p : Prefix) : option Addr :=
  if negb (Prefix_IsValid p) then None
  else
    let bits := Bits p in
    match prefix_ip p with
    | Addr4 n => if (bits <? 0) || (32 <? bits) then None else Some (Addr4 (last4 n bits))
    | a => if (bits <? 0) || (128 <? bits) then None
           else Some (Addr6 (valueUp (setHostBits (bytesUp (addrValue a)) (128 - bits))) "")
    end.

Definition prefixToAddrRange (p : Prefix) : option ipAddrRange :=
  if negb (Prefix_IsValid p) then None
  else
    let masked := Masked p in
    match lastAddrOfPrefix masked with
    | Some l => Some {| range_first := prefix_ip masked; range_last := l |}
    | None => None
    end.

Definition intersectAddrRanges (a b : ipAddrRange) : ipAddrRange := {|
  range_first := if 0 <? Addr_Compare (range_first b) (range_first a)
                 then range_first b else range_first a;
  range_last := if Addr_Compare (range_last b) (range_last a) <? 0
                then range_last b else range_last a;
|}.

Definition adjacentAddrs (a b : Addr) : bool :=
  if negb (Bool.eqb (Addr_Is4 a) (Addr_Is4 b)) then false
  else (Addr_IsValid (Addr_Next a) && bool_decide (Addr_Next a = b))
       || (Addr_IsValid (Addr_Next b) && bool_decide (Addr_Next b = a)).

(** The merge loop; [cur] is the last merged range so far. *)
Fixpoint mergeLoop (cur : ipAddrRange) (ranges : list ipAddrRange) : list ipAddrRange :=
  match ranges with
  | [] => [cur]
  | r :: rs =>
      if (Addr_Compare (range_first r) (range_last cur) <=? 0)
         || adjacentAddrs (range_last cur) (range_first r) then
        mergeLoop
          (if 0 <? Addr_Compare (range_last r) (range_last cur) then
             {| range_first := range_first cur; range_last := range_last r |}
           else cur) rs
      else cur :: mergeLoop r rs
  end.

Definition rangeBefore (a b : ipAddrRange) : bool :=
  Addr_Compare (range_first a) (range_first b) <? 0.

Definition mergeSorted (ranges : list ipAddrRange) : list ipAddrRange :=
  match ranges with
  | [] => []
  | r :: rs => mergeLoop r rs
  end.

Definition mergeAddrRanges (ranges : list ipAddrRange) : list ipAddrRange :=
  mergeSorted (sort_by rangeBefore ranges).

Definition addrRangeCovers (ranges : list ipAddrRange) (dest : ipAddrRange) : bool :=
  if bool_decide (ranges = []) then false
  else existsb (λ r, (Addr_Compare (range_first r) (range_first dest) <=? 0)
                     && (0 <=? Addr_Compare (range_last r) (range_last dest)))
         (mergeAddrRanges ranges).

Definition prefixUnionCoversDest (partials : list Prefix) (dest : Prefix) : bool :=
  match prefixToAddrRange dest with
  | None => false
  | Some destRange =>
      let ranges := omap (λ partial,
        if Overlaps partial dest then
          partialRange ← prefixToAddrRange partial;
          Some (intersectAddrRanges partialRange destRange)
        else None) partials in
      if bool_decide (ranges = []) then false
      else addrRangeCovers (mergeAddrRanges ranges) destRange
  end.

Definition partialSubnetsCoverDestination (partials : list Prefix) (dest : Prefix) : bool :=
  if bool_decide (partials = []) then false
  else if allowCoversPrefix (Prefix_String <$> partials) dest then true
  else prefixUnionCoversDest partials dest.

Definition appendPartialAllowDestinations (partials : list Prefix) (rule : nsgSecurityRule)
    (dest : Prefix) : list Prefix :=
  partials ++ omap (λ p, let p := TrimSpace p in
    if isAnyAddressPrefix p || isVirtualNetworkTag p || isInternetTag p then None
    else rulePrefix ← parsePrefixOrAddr p;
         if Overlaps rulePrefix dest then Some rulePrefix else None)
    (rule_DestinationAddressPrefixes rule).

(** ** Messages *)
Definition formatNSGAddressPrefixesForMessage (prefixes : list string) : string :=
  if isAnyAddressPrefixes prefixes then "Any"
  else
    let parts := (λ p, let p := TrimSpace p in
      if isVirtualNetworkTag p then azureTagVirtualNetwork
      else if isInternetTag p then azureTagInternet else p) <$> prefixes in
    if bool_decide (parts = []) then "Any" else Join ", " parts.

Definition formatRuleSourceToDestination (sourcePrefixes destinationPrefixes : list string) :
    string :=
  ("source " +:+ formatNSGAddressPrefixesForMessage sourcePrefixes +:+
   " to destination " +:+ formatNSGAddressPrefixesForMessage destinationPrefixes)%string.

Definition outboundBlockedRuleEndpoints (deny : nsgSecurityRule) (path : requiredNSGPath) : string :=
  if isAnyAddressPrefixes (rule_SourceAddressPrefixes deny)
     && isAnyAddressPrefixes (rule_DestinationAddressPrefixes deny) then
    "source Any to destination Any"
  else
    ("source " +:+ formatNSGAddressPrefixesForMessage (rule_SourceAddressPrefixes deny) +:+
     " to destination overlapping subnet " +:+ Prefix_String (path_destination path))%string.

Definition inboundBlockedRuleEndpoints (deny : nsgSecurityRule) (path : requiredNSGPath) : string :=
  let srcAny := isAnyAddressPrefixes (rule_SourceAddressPrefixes deny) in
  let dstAny := isAnyAddressPrefixes (rule_DestinationAddressPrefixes deny) in
  let srcWorker := sourceSpecificallyFromWorker (rule_SourceAddressPrefixes deny)
                     (path_worker path) in
  let dstVNetOrIntegration := destinationIsVNetOrSubnet (rule_DestinationAddressPrefixes deny)
                                (path_destination path) in
  if srcAny && dstAny then "source Any to destination Any"
  else if srcAny && dstVNetOrIntegration then
    "source Any to destination VirtualNetwork/vnet-integration subnet"
  else if srcWorker && dstAny then "source Worker subnet to destination Any"
  else if srcWorker && dstVNetOrIntegration then
    "source Worker subnet to destination VirtualNetwork/vnet-integration subnet"
  else formatRuleSourceToDestination (rule_SourceAddressPrefixes deny)
         (rule_DestinationAddressPrefixes deny).

Definition formatPorts (ports : list Z) : string := Join "/" (Itoa <$> ports).

(** "any" as soon as one range is empty or a wildcard. *)
Definition formatNSGRulePortRangesForMessage (ranges : list string) : string :=
  if bool_decide (ranges = []) then "any"
  else
    let parts := TrimSpace <$> ranges in
    if existsb (λ r, String.eqb r "" || isAnyPort r) parts then "any" else Join "/" parts.

Definition formatNSGProtocolForMessage (protocol : string) : string :=
  let protocol := TrimSpace protocol in
  if isAnyProtocol protocol then "Any"
  else
    let lower := ToLower protocol in
    if String.eqb lower "tcp" then "TCP"
    else if String.eqb lower "udp" then "UDP"
    else if String.eqb lower "icmp" then "ICMP"
    else ToUpper protocol.

Definition formatNSGSourcePortClause (sourcePortRanges : list string) (protocol : string) : string :=
  let ports := formatNSGRulePortRangesForMessage sourcePortRanges in
  let proto := formatNSGProtocolForMessage protocol in
  (if String.eqb ports "any" then "any source port, " +:+ proto +:+ " protocol"
   else if ContainsByte ports slash then
     "source ports " +:+ ports +:+ ", " +:+ proto +:+ " protocol"
   else "source port " +:+ ports +:+ ", " +:+ proto +:+ " protocol")%string.

Definition formatNSGDestinationPortClause (blockedPorts : list Z) (protocol : string) : string :=
  ("port " +:+ formatPorts blockedPorts +:+ ", " +:+ formatNSGProtocolForMessage protocol +:+
   " protocol")%string.

Definition formatNSGRequiredConnectivityViolationDetailsMessage
    (v : nsgRequiredConnectivityViolationDetails) : string :=
  let base :=
    (nsgDirection_string (v_Direction v) +:+ " traffic is not allowed from " +:+
     Prefix_String (v_PathWorker v) +:+ " (" +:+
     formatNSGSourcePortClause (v_SourcePortRanges v) (v_Protocol v) +:+ ") to " +:+
     Prefix_String (v_PathDestination v) +:+ " (" +:+
     formatNSGDestinationPortClause (v_BlockedPorts v) (v_Protocol v) +:+ ").")%string in
  (if String.eqb (v_RuleName v) "" then base +:+ " No Allow rule permits this traffic."
   else base +:+ " It is blocked by rule " +:+ Quote (v_RuleName v) +:+ " (priority " +:+
        Itoa (v_RulePriority v) +:+ "), action - Deny from " +:+ v_Reason v +:+ ".")%string.

Definition newline : string := String (ascii_of_N 10) EmptyString.

Definition formatNSGRequiredConnectivityViolationsMessage
    (violations : list nsgRequiredConnectivityViolationDetails) : string :=
  Join newline (formatNSGRequiredConnectivityViolationDetailsMessage <$> violations).

Definition sortByPriority (rules : list nsgSecurityRule) : list nsgSecurityRule :=
  sort_by (λ a b, rule_Priority a <? rule_Priority b) rules.

Fixpoint requiredPortsFrom (seen : gset Z) (paths : list requiredNSGPath) : list Z :=
  match paths with
  | [] => []
  | path :: paths =>
      if bool_decide (path_port path ∈ seen) then requiredPortsFrom seen paths
      else path_port path :: requiredPortsFrom ({[path_port path]} ∪ seen) paths
  end.

Definition requiredPortsFromPaths (paths : list requiredNSGPath) : list Z :=
  requiredPortsFrom ∅ paths.

Definition pathMissingAllowViolation (path : requiredNSGPath) (direction : nsgDirection) :
    nsgRequiredConnectivityViolationDetails := {|
  v_Direction := direction; v_RuleName := ""; v_RulePriority := 0; v_Protocol := "Tcp";
  v_SourcePortRanges := []; v_BlockedPorts := [path_port path]; v_Source := [];
  v_Destination := []; v_PathWorker := path_worker path;
  v_PathDestination := path_destination path;
  v_Reason := "no Allow rule permits this traffic";
|}.

(** ** The evaluator, given the port range parser *)
Section evaluator.
Context (ParsePortRange : string → result string (Z → bool)).

Definition portRangesMatch (ranges : list string) (port : Z) : bool :=
  if bool_decide (ranges = []) then true
  else existsb (λ r, let r := TrimSpace r in
         isAnyPort r ||
         existsb (λ part, match ParsePortRange (TrimSpace part) with
                          | Ok contains => contains port
                          | Err _ => false
                          end) (Split ","%char r)) ranges.

Definition matchingPorts (ranges : list string) (ports : list Z) : list Z :=
  base.filter (λ port, portRangesMatch ranges port = true) ports.

Definition ruleMatchesPath (rule : nsgSecurityRule) (path : requiredNSGPath) : bool :=
  if negb (sourceMatchesSubnet (rule_SourceAddressPrefixes rule) (path_worker path)) then false
  else if negb (destinationOverlapsSubnet (rule_DestinationAddressPrefixes rule)
                  (path_destination path)) then false
  else portRangesMatch (rule_DestinationPortRanges rule) (path_port path).

Definition pathBlockedViolation (deny : nsgSecurityRule) (path : requiredNSGPath)
    (direction : nsgDirection) (requiredPorts : list Z) :
    nsgRequiredConnectivityViolationDetails :=
  let matching := matchingPorts (rule_DestinationPortRanges deny) requiredPorts in
  {| v_Direction := direction; v_RuleName := rule_Name deny;
     v_RulePriority := rule_Priority deny; v_Protocol := rule_Protocol deny;
     v_SourcePortRanges := rule_SourcePortRanges deny;
     v_BlockedPorts := if bool_decide (matching = []) then [path_port path] else matching;
     v_Source := rule_SourceAddressPrefixes deny;
     v_Destination := rule_DestinationAddressPrefixes deny;
     v_PathWorker := path_worker path; v_PathDestination := path_destination path;
     v_Reason := match direction with
                 | nsgDirectionOutbound => outboundBlockedRuleEndpoints deny path
                 | nsgDirectionInbound => inboundBlockedRuleEndpoints deny path
                 end |}.

Fixpoint evaluateRules (sorted : list nsgSecurityRule) (partialSubnets : list Prefix)
    (path : requiredNSGPath) (direction : nsgDirection) (requiredPorts : list Z) :
    option nsgRequiredConnectivityViolationDetails :=
  match sorted with
  | [] =>
      if partialSubnetsCoverDestination partialSubnets (path_destination path) then None
      else Some (pathMissingAllowViolation path direction)
  | rule :: rules =>
      if negb (protocolMatchesTCP (rule_Protocol rule)) || negb (ruleMatchesPath rule path) then
        evaluateRules rules partialSubnets path direction requiredPorts
      else if isAllow rule then
        if allowCoversPrefix (rule_DestinationAddressPrefixes rule) (path_destination path)
        then None
        else evaluateRules rules
               (appendPartialAllowDestinations partialSubnets rule (path_destination path))
               path direction requiredPorts
      else if isDeny rule then
        if partialSubnetsCoverDestination partialSubnets (path_destination path) then None
        else Some (pathBlockedViolation rule path direction requiredPorts)
      else evaluateRules rules partialSubnets path direction requiredPorts
  end.

Definition evaluateSingleRequiredNSGPath (sorted : list nsgSecurityRule)
    (path : requiredNSGPath) (direction : nsgDirection) (requiredPorts : list Z) :
    option nsgRequiredConnectivityViolationDetails :=
  evaluateRules sorted [] path direction requiredPorts.

Definition evaluateRequiredNSGPathViolations (rules : list nsgSecurityRule)
    (paths : list requiredNSGPath) (direction : nsgDirection) :
    list nsgRequiredConnectivityViolationDetails :=
  let sorted := sortByPriority rules in
  let requiredPorts := requiredPortsFromPaths paths in
  omap (λ path, evaluateSingleRequiredNSGPath sorted path direction requiredPorts) paths.

(** Checks one port field of a rule; [field] names it in the error. *)
Definition validatePart (field part : string) : option nsg_error :=
  let part := TrimSpace part in
  if isAnyPort part then None
  else match ParsePortRange part with
       | Ok _ => None
       | Err e => Some (ErrPortRange field part e)
       end.

Definition validateNSGPortRanges (ranges : list string) (field : string) : option nsg_error :=
  find_map (λ r, let r := TrimSpace r in
    if isAnyPort r then None else find_map (validatePart field) (Split ","%char r)) ranges.

Definition preValidationPortCheck (rules : list nsgSecurityRule) : option nsg_error :=
  find_map (λ rule,
    match validateNSGPortRanges (rule_SourcePortRanges rule) "source" with
    | Some e => Some e
    | None => validateNSGPortRanges (rule_DestinationPortRanges rule) "destination"
    end) rules.
End evaluator.
