(* ===== verification/NsgRanges.v ===== *)
(** * Merging address ranges

    The range arithmetic of the network security group evaluator on IPv4
    addresses: merging computes the canonical list of separated ranges with the
    same addresses, and the coverage checks decide whether prefixes cover a
    destination as sets of addresses. *)
From S2P Require Import Prelude GoStrings GoNetip NsgEvaluator.

Local Open Scope Z_scope.

Definition mk4Range (a b : Z) : ipAddrRange :=
  {| range_first := Addr4 a; range_last := Addr4 b |}.

(** A nonempty range of IPv4 addresses. *)
Definition range4 (r : ipAddrRange) : Prop := ∃ a b, r = mk4Range a b ∧ 0 <= a <= b ∧ b < 2 ^ 32.

Definition first4 (r : ipAddrRange) : Z := addrValue (range_first r).
Definition last4Of (r : ipAddrRange) : Z := addrValue (range_last r).

Definition inRange (x : Z) (r : ipAddrRange) : Prop := first4 r <= x <= last4Of r.

(** The addresses of a list of ranges. *)
Definition inRanges (x : Z) (rs : list ipAddrRange) : Prop := ∃ r, r ∈ rs ∧ inRange x r.

(** [r1] ends before [r2] starts, with at least one address in between. *)
Definition separated (r1 r2 : ipAddrRange) : Prop := last4Of r1 + 1 < first4 r2.

Lemma inRanges_cons x r rs : inRanges x (r :: rs) ↔ inRange x r ∨ inRanges x rs.
Proof. unfold inRanges. setoid_rewrite elem_of_cons. naive_solver. Qed.

Lemma inRanges_perm x rs rs' : rs ≡ₚ rs' → inRanges x rs ↔ inRanges x rs'.
Proof. intros H. unfold inRanges. by setoid_rewrite H. Qed.

Lemma compareZ_le a b : (compareZ a b <=? 0) = (a <=? b).
Proof. unfold compareZ. repeat case_match; bool_reflect; lia. Qed.
Lemma compareZ_lt a b : (compareZ a b <? 0) = (a <? b).
Proof. unfold compareZ. repeat case_match; bool_reflect; lia. Qed.
Lemma compareZ_ge a b : (0 <=? compareZ a b) = (b <=? a).
Proof. unfold compareZ. repeat case_match; bool_reflect; lia. Qed.
Lemma compareZ_gt a b : (0 <? compareZ a b) = (b <? a).
Proof. unfold compareZ. repeat case_match; bool_reflect; lia. Qed.

Lemma Addr_Compare_4 a b : Addr_Compare (Addr4 a) (Addr4 b) = compareZ a b.
Proof.
  unfold Addr_Compare. simpl. unfold compareZ. repeat case_match; bool_reflect; try lia; done.
Qed.

Create Rewrite HintDb nsg.
#[export] Hint Rewrite Addr_Compare_4 compareZ_le compareZ_lt compareZ_ge compareZ_gt : nsg.

Lemma adjacentAddrs_4 a b :
  0 <= a < 2 ^ 32 → 0 <= b < 2 ^ 32 →
  adjacentAddrs (Addr4 a) (Addr4 b) = true ↔ a + 1 = b ∨ b + 1 = a.
Proof.
  intros Ha Hb. unfold adjacentAddrs. simpl.
  destruct (a + 1 =? 2 ^ 32) eqn:E1, (b + 1 =? 2 ^ 32) eqn:E2; bool_reflect; simpl;
    rewrite ?orb_true_iff, ?bool_decide_eq_true; split; intros; simplify_eq/=; try lia;
    repeat match goal with H : _ ∨ _ |- _ => destruct H end; simplify_eq; try lia; auto;
    try (left; f_equal; lia); try (right; f_equal; lia).
Qed.

Lemma range4_bounds r : range4 r → 0 <= first4 r <= last4Of r ∧ last4Of r < 2 ^ 32.
Proof. intros (a & b & -> & ? & ?). unfold first4, last4Of; simpl. lia. Qed.

(** One step of the merge loop: joined ranges have the addresses of both. *)
Lemma mergeLoop_step cur r rs :
  range4 cur → range4 r → first4 cur <= first4 r →
  (∃ cur', mergeLoop cur (r :: rs) = mergeLoop cur' rs ∧ range4 cur' ∧
     first4 cur' = first4 cur ∧ ∀ x, inRange x cur' ↔ inRange x cur ∨ inRange x r) ∨
  (mergeLoop cur (r :: rs) = cur :: mergeLoop r rs ∧ separated cur r).
Proof.
  intros (a & b & -> & Hab & Hb) (c & d & -> & Hcd & Hd) Hle.
  unfold separated, inRange, first4, last4Of in *. simpl in *.
  destruct (_ || _) eqn:E.
  - left. apply orb_true_iff in E. rewrite adjacentAddrs_4 in E by lia.
    autorewrite with nsg in E. rewrite Z.leb_le in E.
    eexists. split; [reflexivity|]. autorewrite with nsg.
    destruct (b <? d) eqn:Ed; bool_reflect.
    + split; [by exists a, d; split; [|lia]|]. split; [done|].
      intros x. unfold first4, last4Of; simpl. lia.
    + split; [by exists a, b; split; [|lia]|]. split; [done|].
      intros x. unfold first4, last4Of; simpl. lia.
  - right. split; [done|]. apply orb_false_iff in E as [E1 E2].
    autorewrite with nsg in E1. bool_reflect.
    apply not_true_iff_false in E2. rewrite adjacentAddrs_4 in E2 by lia. lia.
Qed.

(** [rs] are the separated ranges of the address set [S], none before [lo]. *)
Record canonical (lo : Z) (S : Z → Prop) (rs : list ipAddrRange) : Prop := {
  can_range4 : Forall range4 rs;
  can_lo : Forall (λ r, lo <= first4 r) rs;
  can_sep : StronglySorted separated rs;
  can_set : ∀ x, inRanges x rs ↔ S x;
}.

Definition byFirst (r1 r2 : ipAddrRange) : Prop := first4 r1 <= first4 r2.

Lemma mergeLoop_canonical rs : ∀ cur,
  Forall range4 (cur :: rs) → StronglySorted byFirst (cur :: rs) →
  canonical (first4 cur) (λ x, inRanges x (cur :: rs)) (mergeLoop cur rs).
Proof.
  induction rs as [|r rs IH]; intros cur Hr Hs.
  - split; simpl; [done| |repeat constructor|done]. repeat constructor. done.
  - rewrite !Forall_cons in Hr. destruct Hr as (Hcur & Hr & Hrs).
    apply StronglySorted_inv in Hs as [Hs Hhd]. pose proof Hs as Hs0.
    apply StronglySorted_inv in Hs0 as [Hss _]. rewrite Forall_cons in Hhd. destruct Hhd as [Hle Hhd].
    destruct (mergeLoop_step cur r rs Hcur Hr Hle) as [(cur' & -> & Hc' & Hf & Hx)|[-> Hsep]].
    + destruct (IH cur') as [H1 H2 H3 H4]; [by constructor|constructor; [done|]|].
      { eapply Forall_impl; [exact Hhd|]. unfold byFirst. rewrite Hf. done. }
      split; [done|by rewrite <- Hf|done|]. intros x. rewrite H4, !inRanges_cons, Hx. tauto.
    + destruct (IH r) as [H1 H2 H3 H4]; [by constructor|done|].
      split.
      * by constructor.
      * constructor; [done|]. eapply Forall_impl; [exact H2|]. unfold byFirst in Hle. simpl. lia.
      * constructor; [done|]. eapply Forall_impl; [exact H2|]. unfold separated in *. simpl. lia.
      * intros x. rewrite inRanges_cons, H4, inRanges_cons. by rewrite (inRanges_cons x cur), inRanges_cons.
Qed.

Lemma rangeBefore_4 r1 r2 :
  range4 r1 → range4 r2 → rangeBefore r1 r2 = (first4 r1 <? first4 r2).
Proof.
  intros (a & b & -> & ? & ?) (c & d & -> & ? & ?). unfold rangeBefore, first4; simpl.
  by autorewrite with nsg.
Qed.

Lemma sort_ranges_sorted rs :
  Forall range4 rs → StronglySorted byFirst (sort_by rangeBefore rs).
Proof.
  intros Hr. rewrite Forall_forall in Hr.
  rewrite (sort_by_ext _ (λ r1 r2, first4 r1 <? first4 r2)) by (auto using rangeBefore_4).
  eapply StronglySorted_weaken; [|apply sort_by_sorted].
  - unfold ordered, byFirst. intros r1 r2 H. by apply Z.ltb_ge.
  - intros r1 r2 H. bool_reflect. apply Z.ltb_ge. lia.
  - unfold ordered. intros r1 r2 r3 H1 H2. bool_reflect. apply Z.ltb_ge. lia.
Qed.

Lemma mergeSorted_canonical sorted rs :
  Forall range4 rs → sorted ≡ₚ rs → StronglySorted byFirst sorted →
  canonical 0 (λ x, inRanges x rs) (mergeSorted sorted).
Proof.
  intros Hr Hp Hs. destruct sorted as [|r rs'].
  - apply Permutation_nil_l in Hp. subst rs. split; [constructor..|done].
  - assert (Forall range4 (r :: rs')) as Hr' by (by rewrite Hp).
    destruct (mergeLoop_canonical rs' r Hr' Hs) as [H1 H2 H3 H4]. split; [done| |done|].
    + apply Forall_forall. intros r' Hin. rewrite Forall_forall in H1.
      destruct (range4_bounds _ (H1 _ Hin)). lia.
    + intros x. rewrite H4. by apply inRanges_perm.
Qed.

Lemma mergeAddrRanges_canonical rs :
  Forall range4 rs → canonical 0 (λ x, inRanges x rs) (mergeAddrRanges rs).
Proof. intros Hr. apply mergeSorted_canonical; auto using sort_by_perm, sort_ranges_sorted. Qed.

(** Both ends of the first separated range are determined by the addresses. *)
Lemma canonical_head lo S r rs :
  canonical lo S (r :: rs) →
  S (first4 r) ∧ (∀ x, S x → first4 r <= x) ∧
  (∀ x, inRange x r → S x) ∧ ¬ S (last4Of r + 1) ∧
  canonical (last4Of r + 2) (λ x, S x ∧ last4Of r < x) rs.
Proof.
  intros [H1 H2 H3 H4]. rewrite Forall_cons in H1. destruct H1 as [Hr Hrs].
  apply StronglySorted_inv in H3 as [H3 Hhd].
  destruct (range4_bounds _ Hr) as [Hb Hb'].
  assert (∀ x, inRanges x rs → last4Of r + 2 <= x) as Hlater.
  { intros x (r' & Hin & Hx). rewrite Forall_forall in Hhd. specialize (Hhd _ Hin).
    unfold separated, inRange in *. lia. }
  assert (∀ x, S x ↔ inRange x r ∨ inRanges x rs) as HS
    by (intros x; by rewrite <- H4, inRanges_cons).
  split_and!.
  - apply HS. left. unfold inRange. lia.
  - intros x [Hx|Hx]%HS; [unfold inRange in Hx; lia|]. specialize (Hlater _ Hx). lia.
  - intros x Hx. apply HS. by left.
  - intros [Hx|Hx]%HS; [unfold inRange in Hx; lia|]. specialize (Hlater _ Hx). lia.
  - split; [done| |done|].
    + eapply Forall_impl; [exact Hhd|]. unfold separated. simpl. lia.
    + intros x. split.
      * intros Hx. split; [apply HS; by right|]. specialize (Hlater _ Hx). lia.
      * intros [[Hx|Hx]%HS Hlt]; [unfold inRange in Hx; lia|done].
Qed.

Lemma canonical_unique rs1 : ∀ rs2 lo1 lo2 S1 S2,
  (∀ x, S1 x ↔ S2 x) → canonical lo1 S1 rs1 → canonical lo2 S2 rs2 → rs1 = rs2.
Proof.
  induction rs1 as [|r1 rs1 IH]; intros [|r2 rs2] lo1 lo2 S1 S2 HS C1 C2; [done|..].
  - apply canonical_head in C2 as (H2 & _). apply HS, C1 in H2 as (r & Hr & _). inversion Hr.
  - apply canonical_head in C1 as (H1 & _). apply HS, C2 in H1 as (r & Hr & _). inversion Hr.
  - pose proof (can_range4 _ _ _ C1) as Hr1. pose proof (can_range4 _ _ _ C2) as Hr2.
    rewrite Forall_cons in Hr1, Hr2. destruct Hr1 as [Hr1 _], Hr2 as [Hr2 _].
    apply canonical_head in C1 as (A1 & B1 & D1 & E1 & F1).
    apply canonical_head in C2 as (A2 & B2 & D2 & E2 & F2).
    destruct (range4_bounds _ Hr1), (range4_bounds _ Hr2).
    assert (first4 r1 = first4 r2) as Ef.
    { apply HS in A1. apply HS in A2. pose proof (B1 _ A2). pose proof (B2 _ A1). lia. }
    assert (last4Of r1 = last4Of r2) as El.
    { destruct (Z.lt_trichotomy (last4Of r1) (last4Of r2)) as [Hlt|[|Hlt]]; [|done|]; exfalso.
      - apply E1, HS, D2. unfold inRange. lia.
      - apply E2, HS, D1. unfold inRange. lia. }
    f_equal.
    + destruct Hr1 as (a & b & -> & _), Hr2 as (c & d & -> & _).
      unfold first4, last4Of in *. simpl in *. congruence.
    + eapply IH; [|exact F1|exact F2]. intros x. simpl. by rewrite HS, El.
Qed.

Lemma canonical_covers lo S rs dest :
  canonical lo S rs → range4 dest →
  (∃ r, r ∈ rs ∧ first4 r <= first4 dest ∧ last4Of dest <= last4Of r) ↔
  ∀ x, inRange x dest → S x.
Proof.
  intros HC Hd. destruct (range4_bounds _ Hd) as [Hb _]. split.
  - intros (r & Hr & H1 & H2) x Hx. apply (can_set _ _ _ HC). exists r. split; [done|].
    unfold inRange in *. lia.
  - revert lo S HC. induction rs as [|r rs IH]; intros lo S HC HS.
    { destruct (proj2 (can_set _ _ _ HC (first4 dest))) as (r & Hr & _);
        [apply HS; unfold inRange; lia|inversion Hr]. }
    pose proof (can_range4 _ _ _ HC) as Hr. rewrite Forall_cons in Hr. destruct Hr as [Hr _].
    destruct (range4_bounds _ Hr).
    apply canonical_head in HC as (A & B & D & E & F).
    destruct (Z.le_gt_cases (first4 dest) (last4Of r)) as [Hle|Hgt].
    + exists r. split; [left|]. split; [apply B, HS; unfold inRange; lia|].
      destruct (Z.le_gt_cases (last4Of dest) (last4Of r)); [done|exfalso].
      apply E, HS. unfold inRange. lia.
    + destruct (IH _ _ F) as (r' & Hin & ?).
      * intros x Hx. split; [auto|]. unfold inRange in Hx. lia.
      * exists r'. split; [by right|done].
Qed.

(** Merging is canonical: whatever order [sort.Slice] gives ranges with the
    same first address, the result has exactly the addresses of the given
    ranges, in ascending ranges with a gap between any two of them. *)
Theorem mergeAddrRanges_order_free (ranges sorted : list ipAddrRange)
    (Hr : Forall range4 ranges) (Hp : sorted ≡ₚ ranges) (Hs : StronglySorted byFirst sorted) :
  mergeSorted sorted = mergeAddrRanges ranges ∧
  StronglySorted separated (mergeAddrRanges ranges) ∧
  ∀ x, inRanges x (mergeAddrRanges ranges) ↔ inRanges x ranges.
Proof.
  pose proof (mergeAddrRanges_canonical ranges Hr) as HC. split; [|split; apply HC].
  eapply canonical_unique; [|exact (mergeSorted_canonical sorted ranges Hr Hp Hs)|exact HC]. done.
Qed.

Lemma addrRangeCovers_iff rs dest :
  Forall range4 rs → range4 dest →
  addrRangeCovers rs dest = true ↔ ∀ x, inRange x dest → inRanges x rs.
Proof.
  intros Hr Hd. rewrite <- (canonical_covers _ _ _ _ (mergeAddrRanges_canonical rs Hr) Hd).
  pose proof (can_range4 _ _ _ (mergeAddrRanges_canonical rs Hr)) as Hm.
  destruct Hd as (c & d & -> & ? & ?). unfold addrRangeCovers.
  assert (∀ r, range4 r →
    (Addr_Compare (range_first r) (Addr4 c) <=? 0) && (0 <=? Addr_Compare (range_last r) (Addr4 d)) = true
    ↔ first4 r <= first4 (mk4Range c d) ∧ last4Of (mk4Range c d) <= last4Of r) as Hone.
  { intros r (a & b & -> & ? & ?). unfold first4, last4Of; simpl. autorewrite with nsg.
    by rewrite andb_true_iff, !Z.leb_le. }
  rewrite Forall_forall in Hm. case_bool_decide as E.
  - subst rs. split; [done|]. intros (r & Hin & _). inversion Hin.
  - rewrite existsb_elem. split; intros (r & Hin & Hx); exists r; split; auto; by apply Hone; auto.
Qed.

(** ** Prefixes as ranges *)
Lemma last4_masked n b :
  0 <= b <= 32 → last4 (maskedValue 32 n b) b = maskedValue 32 n b + 2 ^ (32 - b) - 1.
Proof.
  intros Hb. unfold last4. destruct (0 <? 32 - b) eqn:E; bool_reflect.
  - assert ((Z.shiftl 1 (32 - b) `mod` 2 ^ 32 - 1) `mod` 2 ^ 32 = Z.ones (32 - b)) as ->.
    { rewrite Z.shiftl_1_l, Z.ones_equiv, <- Z.sub_1_r.
      destruct (Z.eq_dec b 0) as [->|]; [done|].
      assert (0 < 2 ^ (32 - b) < 2 ^ 32).
      { split; [apply Z.pow_pos_nonneg; lia|apply Z.pow_lt_mono_r; lia]. }
      rewrite (Z.mod_small (2 ^ (32 - b))), Z.mod_small by lia. done. }
    unfold maskedValue.
    assert (Z.land (Z.shiftl (Z.shiftr n (32 - b)) (32 - b)) (Z.ones (32 - b)) = 0) as E0.
    { rewrite Z.land_ones, Z.shiftl_mul_pow2 by lia. apply Z.mod_mul. lia. }
    rewrite <- Z.lxor_lor, <- Z.add_nocarry_lxor by done. rewrite Z.ones_equiv. lia.
  - replace b with 32 by lia. change (2 ^ (32 - 32)) with 1. lia.
Qed.

Lemma prefixToAddrRange_4 p :
  prefix4 p → ∃ r, prefixToAddrRange p = Some r ∧ range4 r ∧ ∀ x, inRange x r ↔ has4 p x.
Proof.
  intros (n & b & -> & Hn & Hb). unfold prefixToAddrRange, Masked.
  rewrite valid_mk4, Bits_mk4, ip_mk4, Addr_Prefix_4 by lia. cbn [from_option negb id].
  unfold lastAddrOfPrefix. rewrite valid_mk4, Bits_mk4, ip_mk4 by lia. cbn [negb].
  replace ((b <? 0) || (32 <? b)) with false by (symmetry; apply orb_false_iff; rewrite !Z.ltb_ge; lia).
  rewrite last4_masked by lia. eexists. split; [reflexivity|].
  rewrite !maskedValue_div by lia.
  assert (0 < 2 ^ (32 - b)) by (apply Z.pow_pos_nonneg; lia).
  pose proof (Z.div_mod n (2 ^ (32 - b)) ltac:(lia)) as Ed.
  pose proof (Z.mod_pos_bound n (2 ^ (32 - b)) ltac:(lia)).
  assert (0 <= n / 2 ^ (32 - b) < 2 ^ b) as Hq.
  { split; [apply Z.div_pos; lia|]. apply Z.div_lt_upper_bound; [lia|].
    rewrite <- Z.pow_add_r by lia. replace (32 - b + b) with 32 by lia. lia. }
  assert (n / 2 ^ (32 - b) * 2 ^ (32 - b) + 2 ^ (32 - b) <= 2 ^ 32) as Hmax.
  { replace (2 ^ 32) with (2 ^ b * 2 ^ (32 - b)) by (rewrite <- Z.pow_add_r by lia; f_equal; lia). nia. }
  split.
  - eexists _, _. split; [reflexivity|]. nia.
  - intros x. unfold inRange, first4, last4Of; simpl. rewrite has4_iff by lia. split.
    + intros Hx. symmetry. apply Z.div_unique_pos with (r := x - n / 2 ^ (32 - b) * 2 ^ (32 - b)); lia.
    + intros <-. pose proof (Z.div_mod x (2 ^ (32 - b)) ltac:(lia)).
      pose proof (Z.mod_pos_bound x (2 ^ (32 - b)) ltac:(lia)). lia.
Qed.

(** The two intersecting ranges of overlapping prefixes are not empty. *)
Lemma intersectAddrRanges_4 a b :
  range4 a → range4 b → (∃ x, inRange x a ∧ inRange x b) →
  range4 (intersectAddrRanges a b) ∧
  ∀ x, inRange x (intersectAddrRanges a b) ↔ inRange x a ∧ inRange x b.
Proof.
  intros (a1 & a2 & -> & ? & ?) (b1 & b2 & -> & ? & ?) (x & Hx).
  unfold intersectAddrRanges, inRange, first4, last4Of in *. simpl in *. autorewrite with nsg.
  split.
  - exists (Z.max a1 b1), (Z.min a2 b2). split; [|lia]. unfold mk4Range.
    destruct (a1 <? b1) eqn:E1, (b2 <? a2) eqn:E2; bool_reflect; f_equal; f_equal; lia.
  - intros y. destruct (a1 <? b1) eqn:E1, (b2 <? a2) eqn:E2; bool_reflect; simpl; lia.
Qed.

Lemma prefixUnionCoversDest_iff partials dest :
  Forall prefix4 partials → prefix4 dest →
  prefixUnionCoversDest partials dest = true ↔
  ∀ x, has4 dest x → ∃ p, p ∈ partials ∧ has4 p x.
Proof.
  intros Hp Hd. unfold prefixUnionCoversDest.
  destruct (prefixToAddrRange_4 _ Hd) as (dr & -> & Hdr & Hdx).
  remember (omap _ partials) as rs eqn:Ers.
  assert (∀ r, r ∈ rs → ∃ p, p ∈ partials ∧ range4 r ∧ ∀ x, inRange x r ↔ has4 p x ∧ has4 dest x)
    as Hrs.
  { intros r Hr. subst rs. apply list_elem_of_omap in Hr as (p & Hin & E).
    rewrite Forall_forall in Hp. pose proof (Hp _ Hin) as Hpp.
    destruct (Overlaps p dest) eqn:Eo; [|done].
    apply Overlaps4_iff in Eo as (x & Ho); [|done..].
    destruct (prefixToAddrRange_4 _ Hpp) as (pr & Epr & Hpr & Hpx). rewrite Epr in E.
    injection E as <-. destruct (intersectAddrRanges_4 pr dr) as [H1 H2]; [done..| |].
    - exists x. by rewrite Hpx, Hdx.
    - exists p. split_and!; [done..|]. intros y. by rewrite H2, Hpx, Hdx. }
  assert (Forall range4 rs) as Hr4 by (apply Forall_forall; intros r (?&?&?&?)%Hrs; done).
  assert (∀ x, inRanges x rs ↔ has4 dest x ∧ ∃ p, p ∈ partials ∧ has4 p x) as Hset.
  { intros x. split.
    - intros (r & Hr & Hx). destruct (Hrs _ Hr) as (p & Hin & _ & Hpx).
      destruct (proj1 (Hpx x) Hx). eauto.
    - intros [Hx (p & Hin & Hpx)]. rewrite Forall_forall in Hp.
      destruct (prefixToAddrRange_4 _ (Hp _ Hin)) as (pr & Epr & Hpr & Hprx).
      destruct (intersectAddrRanges_4 pr dr) as [_ H2]; [done..|exists x; by rewrite Hprx, Hdx|].
      exists (intersectAddrRanges pr dr). split; [|by rewrite H2, Hprx, Hdx].
      subst rs. apply list_elem_of_omap. exists p. split; [done|].
      assert (Overlaps p dest = true) as -> by (apply Overlaps4_iff; eauto). by rewrite Epr. }
  assert ((∀ x, has4 dest x → ∃ p, p ∈ partials ∧ has4 p x) ↔
          ∀ x, inRange x dr → inRanges x (mergeAddrRanges rs)) as ->.
  { pose proof (can_set _ _ _ (mergeAddrRanges_canonical rs Hr4)) as Hm.
    split; intros H x Hx.
    - apply Hm, Hset. apply Hdx in Hx. auto.
    - destruct (proj1 (Hset x)) as [_ ?]; [|done]. by apply Hm, H, Hdx. }
  case_bool_decide as E.
  - split; [done|]. intros H. destruct (range4_bounds _ Hdr).
    destruct (H (first4 dr)) as (r & Hr & _); [unfold inRange; lia|].
    rewrite E in Hr. inversion Hr.
  - apply addrRangeCovers_iff; [|done]. apply (mergeAddrRanges_canonical rs Hr4).
Qed.

(** ** Prefix texts *)
Lemma digitChar_class c :
  isDigitChar c → is_space c = false ∧ lower_ascii c = c.
Proof.
  unfold isDigitChar. destruct c as [[] [] [] [] [] [] [] []]; vm_compute;
    intros [? ?]; (by split) || congruence.
Qed.

Lemma drop_spaces_id l : Forall (λ c, is_space c = false) l → drop_spaces l = l.
Proof. destruct 1 as [|c l Hc]; simpl; [done|]. by rewrite Hc. Qed.

Lemma TrimSpace_id s :
  Forall (λ c, is_space c = false) (String.list_ascii_of_string s) → TrimSpace s = s.
Proof.
  intros H. unfold TrimSpace.
  rewrite (drop_spaces_id (String.list_ascii_of_string s)) by done.
  rewrite drop_spaces_id by (by apply Forall_rev).
  by rewrite rev_involutive, String.string_of_list_ascii_of_string.
Qed.

Lemma Prefix_String_mk4 n b :
  0 <= b <= 32 → ∃ c l,
  String.list_ascii_of_string (Prefix_String (mk4 n b)) = c :: l ∧ isDigitChar c ∧
  Forall (λ c, is_space c = false) (c :: l) ∧ slash ∈ (c :: l).
Proof.
  intros Hb. unfold Prefix_String. rewrite valid_mk4, Bits_mk4, ip_mk4 by lia.
  rewrite String.list_ascii_of_string_of_list_ascii. cbn [Addr_text].
  assert (∀ i, Forall (λ c, is_space c = false) (octetText (octet n i))) as Ho.
  { intros i. eapply Forall_impl; [apply octetText_digits, octet_isOctet|].
    intros c Hc. by apply digitChar_class. }
  assert (Forall (λ c, is_space c = false)
            (v4Text n ++ slash :: String.list_ascii_of_string (Itoa b))) as Hall.
  { unfold v4Text. rewrite !Forall_app, !Forall_cons, !Forall_app, !Forall_cons, !Forall_app,
      !Forall_cons. split_and!; try done; try apply Ho.
    pose proof (bitsText_all b Hb) as Ht. unfold bitsText_ok in Ht.
    rewrite !andb_true_iff, forallb_forall in Ht. destruct Ht as [[_ Ht] _].
    apply Forall_forall. intros c Hc. apply list_elem_of_In in Hc. specialize (Ht c Hc).
    apply digitChar_class. unfold isDigitChar. by destruct (digit_value c). }
  assert (slash ∈ v4Text n ++ slash :: String.list_ascii_of_string (Itoa b)) as Hsl.
  { apply elem_of_app. right. left. }
  pose proof (octetText_digits _ (octet_isOctet n 3)) as Hdig.
  pose proof (octetText_nonempty (octet n 3) []) as Hne. rewrite app_nil_r in Hne.
  unfold v4Text in *. destruct (octetText (octet n 3)) as [|c l]; [done|].
  simpl app in *. eexists c, _. split; [reflexivity|]. rewrite Forall_cons in Hdig.
  split_and!; [apply Hdig|done|done].
Qed.

Lemma EqualFold_head c s d t :
  isDigitChar c → lower_ascii d ≠ c → EqualFold (String c s) (String d t) = false.
Proof.
  intros Hc Hd. unfold EqualFold. simpl. apply digitChar_class in Hc as [_ ->].
  destruct (Ascii.eqb c (lower_ascii d)) eqn:E; [|done].
  apply Ascii.eqb_eq in E. congruence.
Qed.

Lemma digitChar_neq c d : isDigitChar c → digit_value d = None → c ≠ d.
Proof. intros [v Hv] Hd ->. congruence. Qed.

Lemma ContainsByte_elem s c :
  c ∈ String.list_ascii_of_string s → ContainsByte s c = true.
Proof.
  induction s as [|d s IH]; simpl; [by intros ?%not_elem_of_nil|].
  intros [->|Hin]%elem_of_cons; [by rewrite Ascii.eqb_refl|].
  apply orb_true_iff. auto.
Qed.

(** A printed IPv4 prefix is a plain CIDR text and parses back. *)
Lemma Prefix_String_plain p :
  prefix4 p →
  TrimSpace (Prefix_String p) = Prefix_String p ∧
  isAnyAddressPrefix (Prefix_String p) = false ∧
  isVirtualNetworkTag (Prefix_String p) = false ∧
  parsePrefixOrAddr (Prefix_String p) = Some p.
Proof.
  intros (n & b & -> & Hn & Hb).
  destruct (Prefix_String_mk4 n b Hb) as (c & l & El & Hc & Hsp & Hsl).
  rewrite <- El in Hsp, Hsl. pose proof (TrimSpace_id _ Hsp) as Ht.
  unfold isAnyAddressPrefix, isVirtualNetworkTag, parsePrefixOrAddr, azureTagAny,
    azureTagVirtualNetwork. rewrite Ht.
  rewrite (ContainsByte_elem _ _ Hsl), ParsePrefix_text by done.
  destruct (Prefix_String (mk4 n b)) as [|c' s']; [done|]. injection El as -> _.
  split_and!; [done| | |done].
  - assert (String c s' ≠ "*") as Hstar
      by (intros [= E _]; by apply (digitChar_neq c "*"%char) in E).
    rewrite (proj2 (String.eqb_neq _ _) Hstar).
    by rewrite EqualFold_head by (done || by apply not_eq_sym, digitChar_neq).
  - by rewrite EqualFold_head by (done || by apply not_eq_sym, digitChar_neq).
Qed.

Lemma partials_cover_iff partials dest :
  Forall prefix4 partials → prefix4 dest →
  partialSubnetsCoverDestination partials dest = true ↔
  ∀ x, has4 dest x → ∃ p, p ∈ partials ∧ has4 p x.
Proof.
  intros Hp Hd.
  unfold partialSubnetsCoverDestination. case_bool_decide as E.
  { subst. split; [done|]. destruct Hd as (n & b & -> & ? & ?). intros Hcov.
    destruct (Hcov n) as (p & Hin & _); [by apply has4_self|inversion Hin]. }
  destruct (allowCoversPrefix _ _) eqn:Ea; [|by apply prefixUnionCoversDest_iff].
  split; [intros _ x Hx|done]. unfold allowCoversPrefix in Ea.
  apply existsb_elem in Ea as (t & Hin & Ht). apply list_elem_of_fmap in Hin as (p & -> & Hin).
  rewrite Forall_forall in Hp. destruct (Prefix_String_plain p) as (E1 & E2 & E3 & E4); [auto|].
  rewrite E1, E2, E3, E4 in Ht. exists p. split; [done|].
  apply (proj1 (Contains4_covers p dest (Hp _ Hin) Hd)); done.
Qed.

(** The accumulated partial Allows count as covering a destination exactly
    when every address of the destination is in one of them: neither the detour
    over the printed prefixes nor the range arithmetic loses or invents an
    address. *)
Theorem partialSubnetsCoverDestination_iff (partials : list Prefix) (dest : Prefix)
    (Hp : Forall prefix4 partials) (Hd : prefix4 dest) :
  partialSubnetsCoverDestination partials dest = true ↔
  ∀ x, has4 dest x → ∃ p, p ∈ partials ∧ has4 p x.
Proof. by apply partials_cover_iff. Qed.

Lemma mk4_ok n b : 0 <= n < 2 ^ 32 → 0 <= b <= 32 → prefix4 (mk4 n b).
Proof. intros. by exists n, b. Qed.

(** 10.0.0.0/25 and 10.0.0.128/25 together cover 10.0.0.0/24. *)
Lemma partialSubnetsCoverDestination_iff_witness :
  partialSubnetsCoverDestination [mk4 167772288 25; mk4 167772160 25] (mk4 167772160 24) = true ∧
  ∀ x, has4 (mk4 167772160 24) x →
    ∃ p, p ∈ [mk4 167772288 25; mk4 167772160 25] ∧ has4 p x.
Proof.
  assert (partialSubnetsCoverDestination [mk4 167772288 25; mk4 167772160 25]
            (mk4 167772160 24) = true) as H by (vm_compute; reflexivity).
  split; [exact H|].
  apply (partialSubnetsCoverDestination_iff [mk4 167772288 25; mk4 167772160 25]
           (mk4 167772160 24)); [repeat constructor; apply mk4_ok; lia|apply mk4_ok; lia|exact H].
Defined.

Lemma mergeAddrRanges_order_free_witness :
  mergeSorted [mk4Range 1 3; mk4Range 1 9; mk4Range 10 12; mk4Range 20 21] =
    mergeAddrRanges [mk4Range 10 12; mk4Range 1 9; mk4Range 20 21; mk4Range 1 3] ∧
  mergeAddrRanges [mk4Range 10 12; mk4Range 1 9; mk4Range 20 21; mk4Range 1 3] =
    [mk4Range 1 12; mk4Range 20 21].
Proof.
  split; [|vm_compute; reflexivity].
  apply (mergeAddrRanges_order_free
           [mk4Range 10 12; mk4Range 1 9; mk4Range 20 21; mk4Range 1 3]
           [mk4Range 1 3; mk4Range 1 9; mk4Range 10 12; mk4Range 20 21]).
  - repeat constructor; eexists _, _; (split; [reflexivity|lia]).
  - solve_Permutation.
  - repeat constructor; unfold byFirst, first4; simpl; lia.
Defined.
