(* ===== verification/NsgSafety.v ===== *)
(** * What the network security group evaluator guarantees

    The specification is Azure's packet semantics: the rules are taken in
    priority order and the first rule that matches a packet decides.  The
    evaluator never sees a packet; it works on whole prefixes.  The theorems
    relate the two for TCP over IPv4: a path without violation is permitted for
    every packet, and a reported violation names an address no earlier rule
    permits. *)
From S2P Require Import Prelude GoStrings GoNetip NsgEvaluator NsgRanges.

Local Open Scope Z_scope.

(** A TCP packet over IPv4. *)
Record packet := { pkt_src : Z; pkt_dst : Z; pkt_sport : Z; pkt_dport : Z }.

Definition textHas (p : string) (x : Z) : bool :=
  match parsePrefixOrAddr p with Some q => Contains q (Addr4 x) | None => false end.

(** Does an address field of a rule contain an address of the cluster's
    virtual network?  An empty field and the wildcards contain everything, the
    tag [VirtualNetwork] every such address, the tag [Internet] none. *)
Definition fieldHas (prefixes : list string) (x : Z) : bool :=
  if bool_decide (prefixes = []) then true
  else existsb (λ p, let p := TrimSpace p in
         if isAnyAddressPrefix p then true
         else if isInternetTag p then false
         else isVirtualNetworkTag p || textHas p x) prefixes.

Section semantics.
Context (ParsePortRange : string → result string (Z → bool)).

Definition ruleMatchesPacket (rule : nsgSecurityRule) (pkt : packet) : bool :=
  protocolMatchesTCP (rule_Protocol rule)
  && fieldHas (rule_SourceAddressPrefixes rule) (pkt_src pkt)
  && fieldHas (rule_DestinationAddressPrefixes rule) (pkt_dst pkt)
  && portRangesMatch ParsePortRange (rule_SourcePortRanges rule) (pkt_sport pkt)
  && portRangesMatch ParsePortRange (rule_DestinationPortRanges rule) (pkt_dport pkt).

(** The decision of the first matching rule: [Some true] permits. *)
Fixpoint verdict (rules : list nsgSecurityRule) (pkt : packet) : option bool :=
  match rules with
  | [] => None
  | rule :: rules =>
      if ruleMatchesPacket rule pkt then
        if isAllow rule then Some true
        else if isDeny rule then Some false
        else verdict rules pkt
      else verdict rules pkt
  end.

(** The packets of a required path. *)
Definition onPath (path : requiredNSGPath) (pkt : packet) : Prop :=
  has4 (path_worker path) (pkt_src pkt) ∧ has4 (path_destination path) (pkt_dst pkt) ∧
  pkt_dport pkt = path_port path.

(** An Allow rule that applies to a worker prefix applies to all of it and to
    every source port.  The evaluator takes this for granted. *)
Definition broadAllow (worker : Prefix) (rule : nsgSecurityRule) : Prop :=
  isAllow rule = true →
  (∀ sport, portRangesMatch ParsePortRange (rule_SourcePortRanges rule) sport = true) ∧
  (sourceMatchesSubnet (rule_SourceAddressPrefixes rule) worker = true →
   ∀ x, has4 worker x → fieldHas (rule_SourceAddressPrefixes rule) x = true).
End semantics.

Lemma Contains_is4 q x : Contains q (Addr4 x) = true → Addr_Is4 (prefix_ip q) = true.
Proof.
  unfold Contains. destruct (_ || _); [done|]. by destruct (prefix_ip q) as [| |].
Qed.

Lemma parsePrefixOrAddr_4 p q :
  parsePrefixOrAddr p = Some q → Addr_Is4 (prefix_ip q) = true → prefix4 q.
Proof.
  unfold parsePrefixOrAddr. destruct (ContainsByte _ _); [apply ParsePrefix_4|].
  destruct (ParseAddr _) as [a|] eqn:Ea; [|done]. intros [= <-] H.
  assert (Addr_Is4 a = true) as Ha by (by destruct a).
  destruct (ParseAddr_4 _ _ Ea Ha) as (n & -> & Hn). simpl BitLen.
  rewrite PrefixFrom_mk4 by lia. exists n, 32. split_and!; auto; lia.
Qed.

Lemma textHas_spec p x :
  textHas p x = true ↔ ∃ q, parsePrefixOrAddr p = Some q ∧ prefix4 q ∧ has4 q x.
Proof.
  unfold textHas. split.
  - destruct (parsePrefixOrAddr p) as [q|] eqn:E; [|done]. intros H. exists q.
    split_and!; [done| |done]. eapply parsePrefixOrAddr_4; [done|by eapply Contains_is4].
  - by intros (q & -> & _ & H).
Qed.

Lemma textHas_overlaps p x d :
  prefix4 d → has4 d x → textHas p x = true → overlapsText p d = true.
Proof.
  intros Hd Hx (q & E & Hq & Hqx)%textHas_spec. unfold overlapsText. rewrite E.
  apply Overlaps4_iff; eauto.
Qed.

Lemma overlapsText_is4 p q d :
  prefix4 d → parsePrefixOrAddr p = Some q → Overlaps q d = true → prefix4 q.
Proof.
  intros (n & b & -> & ? & ?) E Ho. eapply parsePrefixOrAddr_4; [done|].
  by rewrite (Overlaps_family _ _ Ho).
Qed.

(** *** Tags are not addresses *)
Lemma ToLower_elem s c :
  c ∈ String.list_ascii_of_string s → lower_ascii c ∈ String.list_ascii_of_string (ToLower s).
Proof.
  induction s as [|d s IH]; simpl; [by intros ?%not_elem_of_nil|].
  intros [->|Hc]%elem_of_cons; [left|right; auto].
Qed.

Lemma ContainsByte_iff s c : ContainsByte s c = true → c ∈ String.list_ascii_of_string s.
Proof.
  induction s as [|d s IH]; simpl; [done|].
  intros [E|E]%orb_true_iff; [apply Ascii.eqb_eq in E as ->; left|right; auto].
Qed.

(** A text whose letters are those of a tag without punctuation is no address. *)
Lemma plain_tag_no_address s tag :
  ToLower s = tag →
  forallb (λ c, negb (existsb (Ascii.eqb c) [dot; colon; percent; slash]))
    (String.list_ascii_of_string tag) = true →
  (ContainsByte s slash = false) ∧ ParseAddr s = None.
Proof.
  intros <- H. rewrite forallb_forall in H.
  assert (∀ c, c ∈ String.list_ascii_of_string s →
            lower_ascii c ∉ [dot; colon; percent; slash]) as Hno.
  { intros c Hc Hin. apply ToLower_elem, list_elem_of_In, H, negb_true_iff in Hc.
    apply not_true_iff_false in Hc. apply Hc, existsb_exists.
    exists (lower_ascii c). split; [by apply list_elem_of_In|apply Ascii.eqb_refl]. }
  split.
  - apply not_true_iff_false. intros Hc%ContainsByte_iff%Hno. apply Hc. simpl. set_solver.
  - unfold ParseAddr. destruct (find_first _ _) as [c|] eqn:E; [|done].
    apply find_first_Some in E as (l1 & l2 & El & Hp & _). exfalso.
    apply (Hno c); [rewrite El; apply elem_of_app; right; left|].
    apply orb_true_iff in Hp as [[Hp|Hp]%orb_true_iff|Hp];
      apply Ascii.eqb_eq in Hp as ->; simpl; set_solver.
Qed.

Lemma internet_no_address p : isInternetTag p = true → parsePrefixOrAddr p = None.
Proof.
  unfold isInternetTag, parsePrefixOrAddr. intros H%EqualFold_spec.
  destruct (plain_tag_no_address _ _ H) as [-> ->]; done.
Qed.

Lemma vnet_not_internet p : isVirtualNetworkTag p = true → isInternetTag p = false.
Proof.
  unfold isVirtualNetworkTag, isInternetTag. intros H%EqualFold_spec.
  apply not_true_iff_false. intros H'%EqualFold_spec. rewrite H in H'. discriminate H'.
Qed.

Lemma vnet_no_address p : isVirtualNetworkTag p = true → parsePrefixOrAddr p = None.
Proof.
  unfold isVirtualNetworkTag, parsePrefixOrAddr. intros H%EqualFold_spec.
  destruct (plain_tag_no_address _ _ H) as [-> ->]; done.
Qed.

(** *** Address fields of a rule and whole prefixes *)
Section fields.
Context (d : Prefix) (Hd : prefix4 d).

(** A rule that matches a packet's address matches the prefix it is in. *)
Lemma fieldHas_source prefixes x :
  has4 d x → fieldHas prefixes x = true → sourceMatchesSubnet prefixes d = true.
Proof.
  intros Hx. unfold fieldHas, sourceMatchesSubnet. case_bool_decide; [done|].
  rewrite !existsb_elem. intros (p & Hin & Hp). exists p. split; [done|]. simpl in *.
  destruct (isAnyAddressPrefix _); [done|]. destruct (isInternetTag _); [done|].
  destruct (isVirtualNetworkTag _); [done|]. by eapply textHas_overlaps.
Qed.

Lemma fieldHas_destination prefixes x :
  has4 d x → fieldHas prefixes x = true → destinationOverlapsSubnet prefixes d = true.
Proof.
  intros Hx. unfold fieldHas, destinationOverlapsSubnet, destinationMatchesSubnet.
  case_bool_decide; [done|].
  rewrite !existsb_elem. intros (p & Hin & Hp). exists p. split; [done|]. simpl in *.
  destruct (isAnyAddressPrefix _); [done|]. destruct (isInternetTag _); [done|].
  destruct (isVirtualNetworkTag _); [done|]. by eapply textHas_overlaps.
Qed.

(** Destinations that cover the prefix contain every address of it. *)
Lemma allowCovers_fieldHas prefixes x :
  allowCoversPrefix prefixes d = true → has4 d x → fieldHas prefixes x = true.
Proof.
  unfold allowCoversPrefix, fieldHas. rewrite existsb_elem. intros (p & Hin & Hp) Hx.
  case_bool_decide; [done|]. apply existsb_elem. exists p. split; [done|]. simpl in *.
  destruct (isAnyAddressPrefix _); [done|].
  destruct (isVirtualNetworkTag _) eqn:Ev; [by rewrite (vnet_not_internet _ Ev)|].
  destruct (isInternetTag _) eqn:Ei; [by rewrite (internet_no_address _ Ei) in Hp|]. simpl in *.
  destruct (parsePrefixOrAddr _) as [q|] eqn:Eq; [|done].
  assert (prefix4 q) as Hq.
  { eapply parsePrefixOrAddr_4; [done|]. bool_reflect.
    destruct Hd as (n & b & -> & _). by eapply Contains_is4. }
  apply textHas_spec. exists q. split_and!; [done..|]. by apply (Contains4_covers q d).
Qed.

(** The partial destinations an Allow rule contributes. *)
Lemma partials_4 partials rule :
  Forall prefix4 partials → Forall prefix4 (appendPartialAllowDestinations partials rule d).
Proof.
  intros Hp. apply Forall_app. split; [done|]. apply Forall_forall. intros q Hq.
  apply list_elem_of_omap in Hq as (p & _ & E). simpl in E.
  destruct (_ || _); [done|]. destruct (parsePrefixOrAddr _) as [q'|] eqn:Eq; [|done].
  simpl in E. destruct (Overlaps q' d) eqn:Eo; [|done]. injection E as <-.
  by eapply overlapsText_is4.
Qed.

Lemma partials_sound partials rule q x :
  q ∈ appendPartialAllowDestinations partials rule d → has4 q x →
  q ∈ partials ∨ fieldHas (rule_DestinationAddressPrefixes rule) x = true.
Proof.
  intros [Hq|Hq]%elem_of_app Hx; [by left|right].
  pose proof Hq as Hq'. apply list_elem_of_omap in Hq as (p & Hin & E). simpl in E.
  destruct (_ || _) eqn:Et; [done|]. bool_reflect.
  destruct (parsePrefixOrAddr _) as [q'|] eqn:Eq; [|done].
  simpl in E. destruct (Overlaps q' d) eqn:Eo; [|done]. injection E as ->.
  unfold fieldHas. case_bool_decide; [done|]. apply existsb_elem. exists p.
  split; [done|]. cbv zeta. rewrite H, H0, H1. simpl. apply textHas_spec. exists q.
  split_and!; [done| |done]. by eapply overlapsText_is4.
Qed.

(** Conversely, an Allow that does not cover the prefix has nothing but its
    partial destinations in it. *)
Lemma partials_complete partials rule x :
  rule_DestinationAddressPrefixes rule ≠ [] →
  allowCoversPrefix (rule_DestinationAddressPrefixes rule) d = false → has4 d x →
  fieldHas (rule_DestinationAddressPrefixes rule) x = true →
  ∃ q, q ∈ appendPartialAllowDestinations partials rule d ∧ has4 q x.
Proof.
  intros Hne Hc Hx. unfold fieldHas. rewrite bool_decide_false by done.
  rewrite existsb_elem. intros (p & Hin & Hp). cbv zeta in Hp.
  apply not_true_iff_false in Hc. unfold allowCoversPrefix in Hc. rewrite existsb_elem in Hc.
  destruct (isAnyAddressPrefix (TrimSpace p)) eqn:Ea.
  { exfalso. apply Hc. exists p. split; [done|]. cbv zeta. by rewrite Ea. }
  destruct (isInternetTag (TrimSpace p)) eqn:Ei; [done|].
  destruct (isVirtualNetworkTag (TrimSpace p)) eqn:Ev.
  { exfalso. apply Hc. exists p. split; [done|]. cbv zeta. by rewrite Ea, Ev. }
  apply textHas_spec in Hp as (q & Eq & Hq & Hqx). exists q. split; [|done].
  apply elem_of_app. right. apply list_elem_of_omap. exists p. split; [done|]. cbv zeta.
  rewrite Ea, Ev, Ei, Eq. simpl.
  by assert (Overlaps q d = true) as -> by (apply Overlaps4_iff; eauto).
Qed.
End fields.

Section evaluation.
Context (ParsePortRange : string → result string (Z → bool)).
Context (path : requiredNSGPath).
Context (Hw : prefix4 (path_worker path)) (Hdst : prefix4 (path_destination path)).

(** A rule that decides some packet of the path matches the path. *)
Lemma ruleMatchesPacket_path rule pkt :
  onPath path pkt → ruleMatchesPacket ParsePortRange rule pkt = true →
  protocolMatchesTCP (rule_Protocol rule) = true ∧
  ruleMatchesPath ParsePortRange rule path = true.
Proof.
  intros (Hs & Hd & Hp) H. unfold ruleMatchesPacket in H. bool_reflect.
  unfold ruleMatchesPath. rewrite Hp in *. split; [done|].
  rewrite (fieldHas_source _ Hw _ _ Hs) by done.
  by rewrite (fieldHas_destination _ Hdst _ _ Hd) by done.
Qed.

Lemma ruleMatchesPath_inv rule :
  ruleMatchesPath ParsePortRange rule path = true →
  sourceMatchesSubnet (rule_SourceAddressPrefixes rule) (path_worker path) = true ∧
  destinationOverlapsSubnet (rule_DestinationAddressPrefixes rule) (path_destination path) = true ∧
  portRangesMatch ParsePortRange (rule_DestinationPortRanges rule) (path_port path) = true.
Proof. unfold ruleMatchesPath. by repeat (destruct (negb _) eqn:?; bool_reflect; [done|]). Qed.

(** A broad Allow that matches the path permits every packet of it whose
    destination is among its own. *)
Lemma broadAllow_matches rule pkt :
  broadAllow ParsePortRange (path_worker path) rule → isAllow rule = true →
  protocolMatchesTCP (rule_Protocol rule) = true →
  ruleMatchesPath ParsePortRange rule path = true → onPath path pkt →
  fieldHas (rule_DestinationAddressPrefixes rule) (pkt_dst pkt) = true →
  ruleMatchesPacket ParsePortRange rule pkt = true.
Proof.
  intros Hb Ha Ht (H1 & H2 & H3)%ruleMatchesPath_inv (Hs & Hd & Hp) Hf.
  destruct (Hb Ha) as [Hb1 Hb2]. unfold ruleMatchesPacket.
  by rewrite Ht, Hf, Hp, H3, Hb1, Hb2.
Qed.

Lemma evaluateRules_sound direction ports rules : ∀ partials pkt,
  Forall (broadAllow ParsePortRange (path_worker path)) rules → Forall prefix4 partials →
  evaluateRules ParsePortRange rules partials path direction ports = None →
  onPath path pkt →
  (∃ p, p ∈ partials ∧ has4 p (pkt_dst pkt)) ∨ verdict ParsePortRange rules pkt = Some true.
Proof.
  induction rules as [|rule rules IH]; simpl; intros partials pkt Hb Hp He Hon.
  { destruct (partialSubnetsCoverDestination _ _) eqn:Ec; [|done]. left.
    apply (partials_cover_iff partials _ Hp Hdst); [done|apply Hon]. }
  rewrite Forall_cons in Hb. destruct Hb as [Hb Hbs].
  destruct (negb _ || negb _) eqn:Em.
  { destruct (ruleMatchesPacket ParsePortRange rule pkt) eqn:Er; [|by eapply IH].
    exfalso. destruct (ruleMatchesPacket_path _ _ Hon Er) as [E1 E2].
    by rewrite E1, E2 in Em. }
  bool_reflect. destruct (isAllow rule) eqn:Ea.
  - assert (fieldHas (rule_DestinationAddressPrefixes rule) (pkt_dst pkt) = true →
            ruleMatchesPacket ParsePortRange rule pkt = true) as Hm
      by (intros; by apply broadAllow_matches).
    destruct (allowCoversPrefix _ _) eqn:Ec.
    { right. rewrite Hm; [done|]. eapply allowCovers_fieldHas; [exact Hdst|done|apply Hon]. }
    destruct (IH (appendPartialAllowDestinations partials rule (path_destination path)) pkt)
      as [(p & Hin & Hx)|Hv]; auto using partials_4.
    + destruct (partials_sound _ Hdst _ _ _ _ Hin Hx) as [Hold|Hf]; [left; eauto|].
      right. by rewrite Hm.
    + right. by destruct (ruleMatchesPacket ParsePortRange rule pkt).
  - destruct (isDeny rule) eqn:Ed.
    + destruct (partialSubnetsCoverDestination _ _) eqn:Ec; [|done]. left.
      apply (partials_cover_iff partials _ Hp Hdst); [done|apply Hon].
    + destruct (IH partials pkt) as [?|Hv]; auto. right.
      by destruct (ruleMatchesPacket ParsePortRange rule pkt).
Qed.
End evaluation.

(** ** Packets and priorities *)

(** Some Allow rule matches the packet, and no Deny rule that matches it comes
    before it. *)
Definition permits (ParsePortRange : string → result string (Z → bool))
    (rules : list nsgSecurityRule) (pkt : packet) : Prop :=
  ∃ allow, allow ∈ rules ∧ isAllow allow = true ∧
    ruleMatchesPacket ParsePortRange allow pkt = true ∧
    ∀ deny, deny ∈ rules → isDeny deny = true →
      ruleMatchesPacket ParsePortRange deny pkt = true →
      rule_Priority allow <= rule_Priority deny.

Lemma verdict_split PPR rules pkt :
  verdict PPR rules pkt = Some true →
  ∃ before allow after, rules = before ++ allow :: after ∧ isAllow allow = true ∧
    ruleMatchesPacket PPR allow pkt = true ∧
    Forall (λ r, ruleMatchesPacket PPR r pkt = true → isDeny r = false) before.
Proof.
  induction rules as [|r rules IH]; simpl; [done|]. intros H.
  assert (verdict PPR rules pkt = Some true →
          (ruleMatchesPacket PPR r pkt = true → isDeny r = false) →
          ∃ before allow after, r :: rules = before ++ allow :: after ∧ isAllow allow = true ∧
            ruleMatchesPacket PPR allow pkt = true ∧
            Forall (λ r, ruleMatchesPacket PPR r pkt = true → isDeny r = false) before) as Hlater.
  { intros (b & a & l & -> & ? & ? & ?)%IH Hr. exists (r :: b), a, l. auto. }
  destruct (ruleMatchesPacket PPR r pkt) eqn:Em; [|by apply Hlater].
  destruct (isAllow r) eqn:Ea; [exists [], r, rules; auto|].
  destruct (isDeny r) eqn:Ed; [done|]. by apply Hlater.
Qed.

Lemma verdict_permits PPR rules pkt :
  verdict PPR (sortByPriority rules) pkt = Some true → permits PPR rules pkt.
Proof.
  intros (before & allow & after & E & Ha & Hm & Hb)%verdict_split.
  assert (StronglySorted (λ a b, rule_Priority a <= rule_Priority b) (sortByPriority rules)) as Hs.
  { eapply StronglySorted_weaken; [|apply sort_by_sorted].
    - unfold ordered. intros a b H. by apply Z.ltb_ge.
    - intros a b H. bool_reflect. apply Z.ltb_ge. lia.
    - unfold ordered. intros a b c H1 H2. bool_reflect. apply Z.ltb_ge. lia. }
  assert (∀ r, r ∈ rules ↔ r ∈ before ++ allow :: after) as Hin.
  { intros r. rewrite <- E. symmetry. apply elem_of_sort_by. }
  exists allow. split_and!; [apply Hin, elem_of_app; right; left|done..|].
  intros deny Hd Hdeny Hdm. apply Hin, elem_of_app in Hd as [Hd|Hd].
  - rewrite Forall_forall in Hb. specialize (Hb _ Hd Hdm). congruence.
  - rewrite E in Hs. apply elem_of_cons in Hd as [->|Hd]; [done|].
    apply StronglySorted_app_1_r in Hs.
    apply StronglySorted_inv in Hs as [_ Hs]. rewrite Forall_forall in Hs. by apply Hs.
Qed.

Lemma no_violation_permits
    (ParsePortRange : string → result string (Z → bool)) (rules : list nsgSecurityRule)
    (paths : list requiredNSGPath) (direction : nsgDirection) (path : requiredNSGPath)
    (pkt : packet)
    (Hnone : evaluateRequiredNSGPathViolations ParsePortRange rules paths direction = [])
    (Hpath : path ∈ paths) (Hw : prefix4 (path_worker path))
    (Hd : prefix4 (path_destination path))
    (Hbroad : Forall (broadAllow ParsePortRange (path_worker path)) rules)
    (Hpkt : onPath path pkt) :
  permits ParsePortRange rules pkt.
Proof.
  apply verdict_permits. unfold evaluateRequiredNSGPathViolations in Hnone.
  assert (evaluateSingleRequiredNSGPath ParsePortRange (sortByPriority rules) path direction
            (requiredPortsFromPaths paths) = None) as He.
  { destruct (evaluateSingleRequiredNSGPath _ _ _ _ _) as [v|] eqn:E; [|done].
    assert (v ∈ @nil nsgRequiredConnectivityViolationDetails) as Hv; [|inversion Hv].
    rewrite <- Hnone. apply list_elem_of_omap. eauto. }
  destruct (evaluateRules_sound ParsePortRange path Hw Hd direction
              (requiredPortsFromPaths paths) (sortByPriority rules) [] pkt)
    as [(p & Hp & _)|Hv]; [|constructor|done|done|inversion Hp|done].
  unfold sortByPriority. by rewrite sort_by_perm.
Qed.

(** (C5) Soundness of the evaluator, for paths between IPv4 prefixes and rules whose Allow
    rules apply to whole worker prefixes and to every source port: when it reports no
    violation, every packet of every required path is permitted by the rules under
    Azure's semantics, some matching Allow coming before every matching Deny. *)
Theorem evaluateRequiredNSGPathViolations_sound
    (ParsePortRange : string → result string (Z → bool)) (rules : list nsgSecurityRule)
    (paths : list requiredNSGPath) (direction : nsgDirection) (path : requiredNSGPath)
    (pkt : packet)
    (Hnone : evaluateRequiredNSGPathViolations ParsePortRange rules paths direction = [])
    (Hpath : path ∈ paths) (Hw : prefix4 (path_worker path))
    (Hd : prefix4 (path_destination path))
    (Hbroad : Forall (broadAllow ParsePortRange (path_worker path)) rules)
    (Hpkt : onPath path pkt) :
  permits ParsePortRange rules pkt.
Proof. by eapply no_violation_permits. Qed.

(** ** Violations *)

(** [v] reports [path]: either no rule is left, or the next one is a Deny that
    matches the path; and some destination of the path is permitted by no rule
    before. *)
Definition reportedAt (ParsePortRange : string → result string (Z → bool))
    (path : requiredNSGPath) (direction : nsgDirection) (ports : list Z)
    (v : nsgRequiredConnectivityViolationDetails) (before after : list nsgSecurityRule) : Prop :=
  (∃ dst, has4 (path_destination path) dst ∧
     ∀ pkt, onPath path pkt → pkt_dst pkt = dst → verdict ParsePortRange before pkt = None) ∧
  match after with
  | [] => v = pathMissingAllowViolation path direction
  | deny :: _ =>
      isDeny deny = true ∧ protocolMatchesTCP (rule_Protocol deny) = true ∧
      ruleMatchesPath ParsePortRange deny path = true ∧
      v = pathBlockedViolation ParsePortRange deny path direction ports
  end.

Section violations.
Context (ParsePortRange : string → result string (Z → bool)).
Context (path : requiredNSGPath).
Context (Hw : prefix4 (path_worker path)) (Hdst : prefix4 (path_destination path)).

(** The destinations that are in none of the partial Allows. *)
Lemma uncovered partials :
  Forall prefix4 partials →
  partialSubnetsCoverDestination partials (path_destination path) = false →
  ∃ dst, has4 (path_destination path) dst ∧ ∀ p, p ∈ partials → ¬ has4 p dst.
Proof.
  intros Hp Hc.
  destruct (prefixToAddrRange_4 _ Hdst) as (r & _ & Hr & Hx).
  destruct (range4_bounds _ Hr) as [Hb1 Hb2].
  destruct (decide (Forall (λ x, Exists (λ p, has4 p x) partials)
                      (seqZ (first4 r) (last4Of r - first4 r + 1)))) as [Hall|Hnot].
  - exfalso. apply not_true_iff_false in Hc. apply Hc.
    apply (partials_cover_iff partials _ Hp Hdst). intros x Hin. apply Hx in Hin.
    rewrite Forall_forall in Hall. apply Exists_exists, Hall, elem_of_seqZ.
    unfold inRange in Hin. lia.
  - apply not_Forall_Exists in Hnot; [|intros x; apply _].
    apply Exists_exists in Hnot as (x & Hin & Hno). apply elem_of_seqZ in Hin.
    exists x. split; [apply Hx; unfold inRange; lia|].
    intros p Hp' Hpx. apply Hno, Exists_exists. eauto.
Qed.

(** Some prefix of the rules decides nothing for a destination outside the
    partial Allows, and the violation is reported there. *)
Definition reported (direction : nsgDirection) (ports : list Z)
    (v : nsgRequiredConnectivityViolationDetails) (partials : list Prefix)
    (rules : list nsgSecurityRule) : Prop :=
  ∃ before after, rules = before ++ after ∧
    (∃ dst, has4 (path_destination path) dst ∧ (∀ p, p ∈ partials → ¬ has4 p dst) ∧
       ∀ pkt, onPath path pkt → pkt_dst pkt = dst →
         verdict ParsePortRange before pkt = None) ∧
    reportedAt ParsePortRange path direction ports v before after.

(** A rule that decides no packet to the chosen destination. *)
Lemma reported_skip direction ports v partials partials' rule rules :
  (∀ p, p ∈ partials → p ∈ partials') →
  (∀ pkt, onPath path pkt → (∀ p, p ∈ partials' → ¬ has4 p (pkt_dst pkt)) →
     ∀ rest, verdict ParsePortRange (rule :: rest) pkt = verdict ParsePortRange rest pkt) →
  reported direction ports v partials' rules → reported direction ports v partials (rule :: rules).
Proof.
  intros Hsub Hsk (b & a & -> & (dst & H1 & H2 & H3) & _ & H5).
  assert (∀ pkt, onPath path pkt → pkt_dst pkt = dst →
            verdict ParsePortRange (rule :: b) pkt = None) as Hv
    by (intros pkt Hon <-; rewrite Hsk by done; auto).
  exists (rule :: b), a. split; [done|]. split; [eauto 10|]. split; [eauto|done].
Qed.

Lemma reported_here direction ports v partials rules :
  Forall prefix4 partials →
  partialSubnetsCoverDestination partials (path_destination path) = false →
  match rules with
  | [] => v = pathMissingAllowViolation path direction
  | deny :: _ =>
      isDeny deny = true ∧ protocolMatchesTCP (rule_Protocol deny) = true ∧
      ruleMatchesPath ParsePortRange deny path = true ∧
      v = pathBlockedViolation ParsePortRange deny path direction ports
  end →
  reported direction ports v partials rules.
Proof.
  intros Hp Hc Hv. destruct (uncovered _ Hp Hc) as (dst & ? & ?).
  exists [], rules. split; [done|]. split; [eauto|]. split; [eauto|done].
Qed.

Lemma evaluateRules_violation direction ports v rules : ∀ partials,
  Forall (λ r, isAllow r = true → rule_DestinationAddressPrefixes r ≠ []) rules →
  Forall prefix4 partials →
  evaluateRules ParsePortRange rules partials path direction ports = Some v →
  reported direction ports v partials rules.
Proof.
  induction rules as [|rule rules IH]; simpl; intros partials Hne Hp He.
  { destruct (partialSubnetsCoverDestination _ _) eqn:Ec; [done|].
    apply reported_here; [done..|congruence]. }
  rewrite Forall_cons in Hne. destruct Hne as [Hne Hnes].
  destruct (negb _ || negb _) eqn:Em.
  { apply (reported_skip _ _ _ _ partials); auto. intros pkt Hon _ rest. simpl.
    destruct (ruleMatchesPacket ParsePortRange rule pkt) eqn:Er; [|done].
    destruct (ruleMatchesPacket_path ParsePortRange path Hw Hdst _ _ Hon Er) as [E1 E2].
    by rewrite E1, E2 in Em. }
  bool_reflect. destruct (isAllow rule) eqn:Ea.
  - destruct (allowCoversPrefix _ _) eqn:Ec; [done|].
    eapply reported_skip; [| |apply IH; [done|by apply partials_4|exact He]].
    { intros p Hin. apply elem_of_app. by left. }
    intros pkt Hon Hno rest. simpl.
    destruct (ruleMatchesPacket ParsePortRange rule pkt) eqn:Er; [|done]. exfalso.
    unfold ruleMatchesPacket in Er. bool_reflect.
    destruct (partials_complete _ Hdst partials rule (pkt_dst pkt)) as (q & Hq & Hqx); auto.
    { apply Hon. }
    by apply (Hno q).
  - destruct (isDeny rule) eqn:Ed.
    + destruct (partialSubnetsCoverDestination _ _) eqn:Ec; [done|].
      apply reported_here; [done..|]. split_and!; congruence.
    + apply (reported_skip _ _ _ _ partials); auto. intros pkt _ _ rest. simpl. rewrite Ea, Ed.
      by destruct (ruleMatchesPacket ParsePortRange rule pkt).
Qed.
End violations.

(** Every reported violation is real in this sense: the rules split, in
    priority order, into rules that permit no packet to some destination address
    of the path and the reported cause, which is the first matching Deny rule or
    the absence of any further rule. *)
Theorem violation_names_unpermitted_address
    (ParsePortRange : string → result string (Z → bool)) (rules : list nsgSecurityRule)
    (path : requiredNSGPath) (direction : nsgDirection) (ports : list Z)
    (v : nsgRequiredConnectivityViolationDetails)
    (Hw : prefix4 (path_worker path)) (Hd : prefix4 (path_destination path))
    (Hne : Forall (λ r, isAllow r = true → rule_DestinationAddressPrefixes r ≠ []) rules)
    (Hv : evaluateSingleRequiredNSGPath ParsePortRange (sortByPriority rules) path direction
            ports = Some v) :
  ∃ before after, sortByPriority rules = before ++ after ∧
    reportedAt ParsePortRange path direction ports v before after.
Proof.
  destruct (evaluateRules_violation ParsePortRange path Hw Hd direction ports v
              (sortByPriority rules) []) as (before & after & E & _ & Hr);
    [unfold sortByPriority; by rewrite sort_by_perm|constructor|exact Hv|]. eauto.
Qed.

(** ** Examples *)
Module NsgExamples.
(** A port or a hyphenated range, both in decimal. *)
Definition portRange (s : string) : result string (Z → bool) :=
match Atoi <$> Split "-"%char s with
| [Some n] => Ok (λ port, port =? n)
| [Some lo; Some hi] => Ok (λ port, (lo <=? port) && (port <=? hi))
| _ => Err "invalid port range"
end.

(** 10.0.1.0/24 to 10.0.2.0/24 on port 443. *)
Definition path : requiredNSGPath :=
{| path_worker := mk4 167772416 24; path_destination := mk4 167772672 24; path_port := 443 |}.

Definition rule (name : string) (priority : Z) (access : string) (sources destinations : list string) :
  nsgSecurityRule := {|
rule_Name := name; rule_Priority := priority; rule_Access := access; rule_Protocol := "Tcp";
rule_SourceAddressPrefixes := sources; rule_DestinationAddressPrefixes := destinations;
rule_SourcePortRanges := ["*"]; rule_DestinationPortRanges := ["443,6443"; "8000-9000"];
|}.

(** Two Allows that only together cover the destination, before a Deny. *)
Definition halves : list nsgSecurityRule :=
[rule "deny-all" 4096 "Deny" ["*"] ["*"];
 rule "upper" 110 "Allow" ["VirtualNetwork"] ["10.0.2.128/25"];
 rule "lower" 100 "Allow" ["10.0.0.0/16"] [" 10.0.2.0/25 "; "10.9.0.0/16"]].

Definition pkt : packet :=
{| pkt_src := 167772421; pkt_dst := 167772900; pkt_sport := 50000; pkt_dport := 443 |}.

(** Only the lower half is allowed. *)
Definition lowerOnly : list nsgSecurityRule :=
[rule "deny-all" 4096 "Deny" ["*"] ["*"]; rule "lower" 100 "Allow" ["10.0.0.0/16"] ["10.0.2.0/25"]].

(** An Allow for a single worker address before a Deny for all others. *)
Definition oneWorker : list nsgSecurityRule :=
[rule "one-worker" 100 "Allow" ["10.0.1.4"] ["*"]; rule "deny-all" 4096 "Deny" ["*"] ["*"]].

(** An Allow without destination prefixes. *)
Definition noDestination : list nsgSecurityRule := [rule "allow-all" 100 "Allow" ["*"] []].
End NsgExamples.

(** Sources that cover the worker prefix, from any port. *)
Lemma broadAllow_covering PPR worker rule :
  prefix4 worker → rule_SourcePortRanges rule = ["*"] →
  allowCoversPrefix (rule_SourceAddressPrefixes rule) worker = true →
  broadAllow PPR worker rule.
Proof.
  intros Hw Hp Hc _. rewrite Hp. split; [done|]. intros _ x Hx.
  by eapply allowCovers_fieldHas.
Qed.

Lemma evaluateRequiredNSGPathViolations_sound_witness :
  permits NsgExamples.portRange NsgExamples.halves NsgExamples.pkt.
Proof.
  apply (evaluateRequiredNSGPathViolations_sound NsgExamples.portRange NsgExamples.halves
           [NsgExamples.path] nsgDirectionOutbound NsgExamples.path).
  - vm_compute. reflexivity.
  - left.
  - apply mk4_ok; lia.
  - apply mk4_ok; lia.
  - repeat apply Forall_cons_2; [..|apply Forall_nil_2];
      (apply broadAllow_covering; [apply mk4_ok; lia|reflexivity|reflexivity]).
  - vm_compute. repeat split.
Defined.

Lemma violation_names_unpermitted_address_witness :
  ∃ before after, sortByPriority NsgExamples.lowerOnly = before ++ after ∧
    reportedAt NsgExamples.portRange NsgExamples.path nsgDirectionOutbound [443]
      (pathBlockedViolation NsgExamples.portRange
         (NsgExamples.rule "deny-all" 4096 "Deny" ["*"] ["*"]) NsgExamples.path
         nsgDirectionOutbound [443]) before after.
Proof.
  apply (violation_names_unpermitted_address NsgExamples.portRange NsgExamples.lowerOnly
           NsgExamples.path nsgDirectionOutbound [443]).
  - apply mk4_ok; lia.
  - apply mk4_ok; lia.
  - repeat constructor; done.
  - vm_compute. reflexivity.
Defined.

(** An Allow rule for a part of the worker subnet hides the Deny behind it: no
    violation is reported although packets of the path are denied. *)
Example narrow_allow_hides_deny :
  evaluateRequiredNSGPathViolations NsgExamples.portRange NsgExamples.oneWorker
    [NsgExamples.path] nsgDirectionOutbound = [] ∧
  onPath NsgExamples.path NsgExamples.pkt ∧
  verdict NsgExamples.portRange (sortByPriority NsgExamples.oneWorker) NsgExamples.pkt = Some false.
Proof. vm_compute. repeat split. Qed.

(** An Allow rule without destination prefixes matches every destination but is
    not counted as covering any: the permitted path is reported as having no
    Allow rule. *)
Example empty_destination_not_counted :
  evaluateSingleRequiredNSGPath NsgExamples.portRange NsgExamples.noDestination
    NsgExamples.path nsgDirectionOutbound [443] =
    Some (pathMissingAllowViolation NsgExamples.path nsgDirectionOutbound) ∧
  ∀ pkt, onPath NsgExamples.path pkt →
    verdict NsgExamples.portRange NsgExamples.noDestination pkt = Some true.
Proof.
  split; [vm_compute; reflexivity|]. intros [src dst sport dport] (Hs & _ & Hp). simpl in Hp.
  subst dport. reflexivity.
Qed.
