(* ===== verification/ValidationResult.v ===== *)
(** * Validation results

    Model of [backend/pkg/utils/validationutils/validation_result.go]: the
    outcome of one validation check and its mapping to a status condition.
    [wait.Jitter] of [k8s.io/apimachinery] is a parameter. *)
From S2P Require Import Prelude GoStrings.

Local Open Scope Z_scope.
Local Open Scope go_scope.

(** Durations in nanoseconds. *)
Definition nonpassedRetryBase : Z := 60 * 1000000000.
Definition passedRetryBase : Z := 12 * 3600 * 1000000000.

Inductive OutcomeType : Type :=
  | OutcomeTypePassed | OutcomeTypeFailed | OutcomeTypeUnknown | OutcomeTypeSkipped
  | OutcomeTypeOther (s : string).

Inductive controllerReportingPolicyType : Type :=
  | ControllerReportingPolicyTypeLogOnly | ControllerReportingPolicyTypeError.

Record failedOutcome := {
  failed_Reason : string; failed_InternalMessage : string; failed_UserMessage : string }.
Record passedOutcome := {
  passed_Reason : string; passed_InternalMessage : string; passed_UserMessage : string }.
Record skippedOutcome := {
  skipped_Reason : string; skipped_InternalMessage : string; skipped_UserMessage : string }.
Record unknownOutcome := {
  unknown_Reason : string; unknown_InternalMessage : string; unknown_UserMessage : string;
  unknown_ControllerReportingPolicy : controllerReportingPolicyType }.

(** [validationutils.outcome]: the payloads are pointers. *)
Record validationOutcome := {
  oc_Type : OutcomeType;
  oc_Failed : option failedOutcome;
  oc_Unknown : option unknownOutcome;
  oc_Passed : option passedOutcome;
  oc_Skipped : option skippedOutcome;
}.

Record ValidationResult := {
  vr_Outcome : validationOutcome;
  vr_EarliestRetryAfter : option Z;
}.

(** The run-time panic of a nil payload. *)
Inductive nil_panic : Type := NilPointerDereference.

Definition deref {A} (p : option A) : result nil_panic A :=
  match p with Some a => Ok a | None => Err NilPointerDereference end.

Definition Reason (r : ValidationResult) : result nil_panic string :=
  let o := vr_Outcome r in
  match oc_Type o with
  | OutcomeTypeFailed => let* f := deref (oc_Failed o) in Ok (failed_Reason f)
  | OutcomeTypeUnknown => let* u := deref (oc_Unknown o) in Ok (unknown_Reason u)
  | OutcomeTypeSkipped => let* s := deref (oc_Skipped o) in Ok (skipped_Reason s)
  | OutcomeTypePassed => let* p := deref (oc_Passed o) in Ok (passed_Reason p)
  | OutcomeTypeOther _ => Ok ""
  end.

Definition InternalMessage (r : ValidationResult) : result nil_panic string :=
  let o := vr_Outcome r in
  match oc_Type o with
  | OutcomeTypeFailed => let* f := deref (oc_Failed o) in Ok (failed_InternalMessage f)
  | OutcomeTypeUnknown => let* u := deref (oc_Unknown o) in Ok (unknown_InternalMessage u)
  | OutcomeTypeSkipped => let* s := deref (oc_Skipped o) in Ok (skipped_InternalMessage s)
  | OutcomeTypePassed => let* p := deref (oc_Passed o) in Ok (passed_InternalMessage p)
  | OutcomeTypeOther _ => Ok ""
  end.

Inductive outcome_error : Type :=
  | ErrOutcomeCount (count : Z)
  | ErrPayloadNil (t : OutcomeType)
  | ErrEmptyReason (t : OutcomeType)
  | ErrUnrecognizedType (t : OutcomeType)
  | ErrNegativeRetry (d : Z).

Definition isSet {A} (p : option A) : Z := match p with Some _ => 1 | None => 0 end.

(** The check of one payload: present and with a reason. *)
Definition checkPayload {A} (t : OutcomeType) (p : option A) (reason : A → string) :
    option outcome_error :=
  match p with
  | None => Some (ErrPayloadNil t)
  | Some a => if String.eqb (reason a) "" then Some (ErrEmptyReason t) else None
  end.

Definition ValidationResult_Validate (r : ValidationResult) : option outcome_error :=
  let o := vr_Outcome r in
  let count := isSet (oc_Passed o) + isSet (oc_Failed o) + isSet (oc_Unknown o)
               + isSet (oc_Skipped o) in
  if negb (count =? 1) then Some (ErrOutcomeCount count)
  else
    match match oc_Type o with
          | OutcomeTypePassed => checkPayload OutcomeTypePassed (oc_Passed o) passed_Reason
          | OutcomeTypeFailed => checkPayload OutcomeTypeFailed (oc_Failed o) failed_Reason
          | OutcomeTypeUnknown => checkPayload OutcomeTypeUnknown (oc_Unknown o) unknown_Reason
          | OutcomeTypeSkipped => checkPayload OutcomeTypeSkipped (oc_Skipped o) skipped_Reason
          | OutcomeTypeOther _ => Some (ErrUnrecognizedType (oc_Type o))
          end with
    | Some e => Some e
    | None =>
        match vr_EarliestRetryAfter r with
        | Some d => if d <? 0 then Some (ErrNegativeRetry d) else None
        | None => None
        end
    end.

Inductive ConditionStatus : Type := ConditionUnset | ConditionTrue | ConditionFalse | ConditionUnknown.

Record Condition := {
  cond_Type : string;
  cond_Status : ConditionStatus;
  cond_Reason : string;
  cond_Message : string;
}.

Definition ToCondition (r : ValidationResult) (conditionType : string) :
    result nil_panic Condition :=
  let o := vr_Outcome r in
  let cond status reason message :=
    {| cond_Type := conditionType; cond_Status := status; cond_Reason := reason;
       cond_Message := message |} in
  match oc_Type o with
  | OutcomeTypePassed =>
      let* p := deref (oc_Passed o) in Ok (cond ConditionTrue (passed_Reason p) (passed_UserMessage p))
  | OutcomeTypeFailed =>
      let* f := deref (oc_Failed o) in Ok (cond ConditionFalse (failed_Reason f) (failed_UserMessage f))
  | OutcomeTypeSkipped =>
      let* s := deref (oc_Skipped o) in
      Ok (cond ConditionUnknown (skipped_Reason s) (skipped_UserMessage s))
  | OutcomeTypeUnknown =>
      let* u := deref (oc_Unknown o) in
      Ok (cond ConditionUnknown (unknown_Reason u) (unknown_UserMessage u))
  | OutcomeTypeOther _ => Ok (cond ConditionUnset "" "")
  end.

(** ** The four constructors; [jitter base] is [wait.Jitter(base, 0.5)] *)
Section constructors.
Context (jitter : Z → Z).

Definition NonPassedRetryDelay : Z := jitter nonpassedRetryBase.

Definition FailedValidation (reason userMessage internalMessage : string) : ValidationResult := {|
  vr_Outcome := {|
    oc_Type := OutcomeTypeFailed;
    oc_Failed := Some {| failed_Reason := reason; failed_InternalMessage := internalMessage;
                         failed_UserMessage := userMessage |};
    oc_Unknown := None; oc_Passed := None; oc_Skipped := None |};
  vr_EarliestRetryAfter := Some (jitter nonpassedRetryBase);
|}.

Definition PassedValidation (reason userMessage internalMessage : string) : ValidationResult := {|
  vr_Outcome := {|
    oc_Type := OutcomeTypePassed;
    oc_Passed := Some {| passed_Reason := reason; passed_InternalMessage := internalMessage;
                         passed_UserMessage := userMessage |};
    oc_Unknown := None; oc_Failed := None; oc_Skipped := None |};
  vr_EarliestRetryAfter := Some (jitter passedRetryBase);
|}.

Definition SkippedValidation (reason userMessage internalMessage : string) : ValidationResult := {|
  vr_Outcome := {|
    oc_Type := OutcomeTypeSkipped;
    oc_Skipped := Some {| skipped_Reason := reason; skipped_InternalMessage := internalMessage;
                          skipped_UserMessage := userMessage |};
    oc_Unknown := None; oc_Failed := None; oc_Passed := None |};
  vr_EarliestRetryAfter := Some (jitter nonpassedRetryBase);
|}.

Definition UnknownValidation (reason userMessage internalMessage : string)
    (reportingPolicy : controllerReportingPolicyType) : ValidationResult := {|
  vr_Outcome := {|
    oc_Type := OutcomeTypeUnknown;
    oc_Unknown := Some {| unknown_Reason := reason; unknown_InternalMessage := internalMessage;
                          unknown_UserMessage := userMessage;
                          unknown_ControllerReportingPolicy := reportingPolicy |};
    oc_Skipped := None; oc_Failed := None; oc_Passed := None |};
  vr_EarliestRetryAfter := Some (jitter nonpassedRetryBase);
|}.
End constructors.

(** A result that passes [Validate] can be reported without a panic: its
    reason, internal message and condition are defined, the reason is not empty,
    and the condition carries that reason, the given type and the status of the
    outcome: True only for Passed, False only for Failed. *)
Theorem validated_result_reports (r : ValidationResult) (conditionType : string)
    (Hok : ValidationResult_Validate r = None) :
  ∃ reason message cond,
    Reason r = Ok reason ∧ reason ≠ "" ∧ InternalMessage r = Ok message ∧
    ToCondition r conditionType = Ok cond ∧ cond_Type cond = conditionType ∧
    cond_Reason cond = reason ∧
    (cond_Status cond = ConditionTrue ↔ is_Some (oc_Passed (vr_Outcome r))) ∧
    (cond_Status cond = ConditionFalse ↔ is_Some (oc_Failed (vr_Outcome r))) ∧
    cond_Status cond ≠ ConditionUnset.
Proof.
  destruct r as [[t f u p s] retry]. unfold ValidationResult_Validate in Hok. simpl in Hok.
  destruct (negb _) eqn:Ec; [done|]. bool_reflect. unfold checkPayload in Hok.
  unfold Reason, InternalMessage, ToCondition. simpl.
  destruct t, p, f, u, s; simpl in *; try done; try lia;
    destruct (String.eqb _ _) eqn:Er; try done; apply String.eqb_neq in Er;
    eexists _, _, _; split_and!; try reflexivity; try done; by split; intros [].
Qed.

Lemma validated_result_reports_witness :
  let r := FailedValidation (λ base, base) "Blocked" "user" "internal" in
  ValidationResult_Validate r = None ∧
  ∃ reason message cond,
    Reason r = Ok reason ∧ reason ≠ "" ∧ InternalMessage r = Ok message ∧
    ToCondition r "NSG" = Ok cond ∧ cond_Type cond = "NSG" ∧ cond_Reason cond = reason ∧
    (cond_Status cond = ConditionTrue ↔ is_Some (oc_Passed (vr_Outcome r))) ∧
    (cond_Status cond = ConditionFalse ↔ is_Some (oc_Failed (vr_Outcome r))) ∧
    cond_Status cond ≠ ConditionUnset.
Proof.
  cbv zeta. split; [vm_compute; reflexivity|].
  apply (validated_result_reports (FailedValidation (λ base, base) "Blocked" "user" "internal")
           "NSG"). vm_compute. reflexivity.
Defined.

(** Every constructor builds a result that passes [Validate], as long as the
    reason is not empty and jitter never shortens a delay. *)
Lemma constructors_valid (jitter : Z → Z) reason user internal policy :
  (∀ base, base <= jitter base) → reason ≠ "" →
  ValidationResult_Validate (FailedValidation jitter reason user internal) = None ∧
  ValidationResult_Validate (PassedValidation jitter reason user internal) = None ∧
  ValidationResult_Validate (SkippedValidation jitter reason user internal) = None ∧
  ValidationResult_Validate (UnknownValidation jitter reason user internal policy) = None.
Proof.
  intros Hj Hr. apply String.eqb_neq in Hr.
  assert (∀ base, 0 <= base → (jitter base <? 0) = false) as Hb
    by (intros base ?; apply Z.ltb_ge; specialize (Hj base); lia).
  unfold ValidationResult_Validate. simpl. rewrite Hr, !Hb; [done|..]; vm_compute; done.
Qed.
