(* ===== verification/NsgValidation.v ===== *)
(** * The node pool connectivity validation

    Model of [backend/pkg/utils/validationutils/subnet_helpers.go] and
    [azure_nodepool_nsg_based_required_connectivity_validation.go]: which network
    security groups are read, how Azure's rules are converted, and what the
    validation reports.  The results of the Azure calls are inputs, one per call.
    [utilnet.ParsePortRange], [azcorearm.ParseResourceID], [wait.Jitter] and the
    text of a tracked error are parameters.  A cluster's subnet ID is present:
    the API requires it. *)
From S2P Require Import Prelude GoStrings GoNetip NsgEvaluator NsgRanges NsgSafety.
From S2P Require Import ValidationResult.

Local Open Scope Z_scope.
Local Open Scope go_scope.

(** The parts of an Azure resource ID the code reads. *)
Record ResourceID := { rid_String : string; rid_HasParent : bool }.

Record SubnetProperties := {
  sp_AddressPrefixes : list (option string);
  sp_AddressPrefix : option string;
  (** [NetworkSecurityGroup.ID] *)
  sp_NetworkSecurityGroup : option (option string);
}.

Record Subnet := { subnet_ID : option string; subnet_Properties : option SubnetProperties }.

Record SecurityRuleProperties := {
  srp_Direction : option string;
  srp_Access : option string;
  srp_Protocol : option string;
  srp_Priority : option Z;
  srp_SourceAddressPrefix : option string;
  srp_SourceAddressPrefixes : list (option string);
  srp_SourcePortRange : option string;
  srp_SourcePortRanges : list (option string);
  srp_DestinationAddressPrefix : option string;
  srp_DestinationAddressPrefixes : list (option string);
  srp_DestinationPortRange : option string;
  srp_DestinationPortRanges : list (option string);
}.

Record SecurityRule := { sr_Name : option string; sr_Properties : option SecurityRuleProperties }.

Record SecurityGroupProperties := {
  sgp_SecurityRules : list (option SecurityRule);
  sgp_DefaultSecurityRules : list (option SecurityRule);
}.

Definition SecurityRuleDirectionOutbound : string := "Outbound".
Definition SecurityRuleDirectionInbound : string := "Inbound".
Definition SecurityRuleAccessAllow : string := "Allow".

Definition outboundNSGPorts : list Z := [443; 6443].
Definition inboundNSGPorts : list Z := [8443; 443].

(** ** Subnets *)
Inductive subnet_error : Type :=
  | ErrSubnetIDNil
  | ErrNoParent (id : string)
  | ErrGetSubnet (id cause : string)
  | ErrSubnetNoProperties (id : string)
  | ErrNoAddressPrefix (id : string)
  | ErrParseAddressPrefix (raw id : string)
  | ErrInvalidNSGID (id cause : string).

(** [subnetsClient.Get] is the argument [get]. *)
Definition getSubnet (get : ResourceID → result string Subnet) (subnetID : option ResourceID) :
    result subnet_error Subnet :=
  match subnetID with
  | None => Err ErrSubnetIDNil
  | Some id =>
      if negb (rid_HasParent id) then Err (ErrNoParent (rid_String id))
      else match get id with
           | Err e => Err (ErrGetSubnet (rid_String id) e)
           | Ok subnet =>
               match subnet_Properties subnet with
               | None => Err (ErrSubnetNoProperties (rid_String id))
               | Some _ => Ok subnet
               end
           end
  end.

Fixpoint parsePrefixes (raws : list string) (id : string) : result subnet_error (list Prefix) :=
  match raws with
  | [] => Ok []
  | raw :: raws =>
      match ParsePrefix raw with
      | None => Err (ErrParseAddressPrefix raw id)
      | Some p => let* ps := parsePrefixes raws id in Ok (p :: ps)
      end
  end.

Definition subnetAddressPrefixes (subnet : Subnet) : result subnet_error (list Prefix) :=
  let id := default "" (subnet_ID subnet) in
  match subnet_Properties subnet with
  | None => Err (ErrSubnetNoProperties id)
  | Some props =>
      let plural := omap (λ p, p) (sp_AddressPrefixes props) in
      let raws := if bool_decide (plural = [])
                  then match sp_AddressPrefix props with Some p => [p] | None => [] end
                  else plural in
      if bool_decide (raws = []) then Err (ErrNoAddressPrefix id) else parsePrefixes raws id
  end.

(** ** Rules *)
Definition singularOrPluralStrings (single : option string) (multi : list (option string)) :
    list string :=
  let out := omap (λ p, p) multi in
  if negb (bool_decide (out = [])) then out
  else match single with Some s => [s] | None => [] end.

Definition convertRule (direction : string) (rule : option SecurityRule) : option nsgSecurityRule :=
  rule ← rule;
  props ← sr_Properties rule;
  if bool_decide (srp_Direction props = Some direction) then
    Some {|
      rule_Name := default "" (sr_Name rule);
      rule_Priority := default 0 (srp_Priority props);
      rule_Access := if bool_decide (srp_Access props = Some SecurityRuleAccessAllow)
                     then securityGroupAccessAllow else securityGroupAccessDeny;
      rule_Protocol := default "*" (srp_Protocol props);
      rule_SourceAddressPrefixes :=
        singularOrPluralStrings (srp_SourceAddressPrefix props) (srp_SourceAddressPrefixes props);
      rule_SourcePortRanges :=
        singularOrPluralStrings (srp_SourcePortRange props) (srp_SourcePortRanges props);
      rule_DestinationAddressPrefixes :=
        singularOrPluralStrings (srp_DestinationAddressPrefix props)
          (srp_DestinationAddressPrefixes props);
      rule_DestinationPortRanges :=
        singularOrPluralStrings (srp_DestinationPortRange props) (srp_DestinationPortRanges props);
    |}
  else None.

Definition convertSecurityRules (rules : list (option SecurityRule)) (direction : string) :
    list nsgSecurityRule := omap (convertRule direction) rules.

Inductive list_error : Type :=
  | ErrGetNSG (id cause : string)
  | ErrNSGNoProperties (id : string).

(** The outbound and the inbound rules, the default rules behind the custom
    ones; [nsgClient.Get] is the argument [get]. *)
Definition listNSGSecurityRules
    (get : ResourceID → result string (option SecurityGroupProperties)) (nsgID : ResourceID) :
    result list_error (list nsgSecurityRule * list nsgSecurityRule) :=
  match get nsgID with
  | Err e => Err (ErrGetNSG (rid_String nsgID) e)
  | Ok None => Err (ErrNSGNoProperties (rid_String nsgID))
  | Ok (Some props) =>
      let rulesOf direction := convertSecurityRules (sgp_SecurityRules props) direction
                               ++ convertSecurityRules (sgp_DefaultSecurityRules props) direction in
      Ok (rulesOf SecurityRuleDirectionOutbound, rulesOf SecurityRuleDirectionInbound)
  end.

Section validation.
Context (ParsePortRange : string → result string (Z → bool)).
Context (ParseResourceID : string → result string ResourceID).

Definition nsgIDFromSubnet (subnet : Subnet) : result subnet_error (option ResourceID) :=
  match subnet_Properties subnet with
  | None => Err (ErrSubnetNoProperties (default "" (subnet_ID subnet)))
  | Some props =>
      match sp_NetworkSecurityGroup props with
      | Some (Some id) =>
          if String.eqb id "" then Ok None
          else match ParseResourceID id with
               | Err e => Err (ErrInvalidNSGID id e)
               | Ok nsgID => Ok (Some nsgID)
               end
      | _ => Ok None
      end
  end.

(** [validateOutboundNSGRules] and [validateInboundNSGRules] differ in the
    label and the direction. *)
Definition validateNSGRules (destLabel : string) (direction : nsgDirection)
    (rules : list nsgSecurityRule) (workerSubnetPrefixes destinationPrefixes : list Prefix)
    (ports : list Z) : result nsg_error (list nsgRequiredConnectivityViolationDetails) :=
  match preValidationPortCheck ParsePortRange rules with
  | Some e => Err e
  | None =>
      let* paths := buildRequiredNSGPaths workerSubnetPrefixes "worker subnet"
                      destinationPrefixes destLabel ports in
      Ok (evaluateRequiredNSGPathViolations ParsePortRange rules paths direction)
  end.

Definition validateOutboundNSGRules := validateNSGRules "destination subnet" nsgDirectionOutbound.
Definition validateInboundNSGRules :=
  validateNSGRules "vnet-integration subnet" nsgDirectionInbound.

(** What the validation reads: the IDs of the node pool and the cluster, and
    the result of each Azure call, which may differ from call to call. *)
Record connectivityInputs := {
  in_nodePoolSubnetID : option ResourceID;
  in_clusterSubnetID : ResourceID;
  in_vnetIntegrationSubnetID : option ResourceID;
  in_subnetsClient : result string unit;
  in_nsgClient : result string unit;
  in_getWorkerSubnet : ResourceID → result string Subnet;
  in_getClusterSubnet : ResourceID → result string Subnet;
  in_getVnetIntegrationSubnet : ResourceID → result string Subnet;
  in_getWorkerNSG : ResourceID → result string (option SecurityGroupProperties);
  in_getVnetIntegrationNSG : ResourceID → result string (option SecurityGroupProperties);
}.

Inductive connectivity_error : Type :=
  | ErrSubnetsClient (cause : string)
  | ErrWorkerSubnet (e : subnet_error)
  | ErrWorkerNSGID (e : subnet_error)
  | ErrWorkerPrefixes (e : subnet_error)
  | ErrClusterSubnet (e : subnet_error)
  | ErrClusterPrefixes (e : subnet_error)
  | ErrWorkerNSGClient (cause : string)
  | ErrWorkerRules (e : list_error)
  | ErrOutbound (e : nsg_error)
  | ErrVnetIntegrationSubnet (e : subnet_error)
  | ErrVnetIntegrationPrefixes (e : subnet_error)
  | ErrVnetIntegrationNSGID (e : subnet_error)
  | ErrVnetIntegrationNSGClient (cause : string)
  | ErrVnetIntegrationRules (e : list_error)
  | ErrInbound (e : nsg_error).

Definition mapErr {E F A} (f : E → F) (m : result E A) : result F A :=
  match m with Ok a => Ok a | Err e => Err (f e) end.

Definition workerSubnetID (env : connectivityInputs) : ResourceID :=
  default (in_clusterSubnetID env) (in_nodePoolSubnetID env).

(** The cluster subnet's prefixes: those of the worker subnet when it is the
    same subnet, read from Azure otherwise. *)
Definition clusterPrefixesOf (env : connectivityInputs) (workerPrefixes : list Prefix) :
    result connectivity_error (list Prefix) :=
  if EqualFold (rid_String (workerSubnetID env)) (rid_String (in_clusterSubnetID env))
  then Ok workerPrefixes
  else
    let* clusterSubnet := mapErr ErrClusterSubnet
      (getSubnet (in_getClusterSubnet env) (Some (in_clusterSubnetID env))) in
    mapErr ErrClusterPrefixes (subnetAddressPrefixes clusterSubnet).

(** The outbound half: nothing to check without a security group on the worker
    subnet; the destination is the cluster's subnet. *)
Definition outboundViolations (env : connectivityInputs) (workerNSGID : option ResourceID)
    (workerPrefixes : list Prefix) :
    result connectivity_error (list nsgRequiredConnectivityViolationDetails) :=
  match workerNSGID with
  | None => Ok []
  | Some nsgID =>
      let* clusterPrefixes := clusterPrefixesOf env workerPrefixes in
      let* client := mapErr ErrWorkerNSGClient (in_nsgClient env) in
      let* rules := mapErr ErrWorkerRules (listNSGSecurityRules (in_getWorkerNSG env) nsgID) in
      mapErr ErrOutbound
        (validateOutboundNSGRules rules.1 workerPrefixes clusterPrefixes outboundNSGPorts)
  end.

(** The inbound half: nothing to check without a vnet-integration subnet or
    without a security group on it. *)
Definition inboundViolations (env : connectivityInputs) (workerPrefixes : list Prefix) :
    result connectivity_error (list nsgRequiredConnectivityViolationDetails) :=
  match in_vnetIntegrationSubnetID env with
  | None => Ok []
  | Some id =>
      let* subnet := mapErr ErrVnetIntegrationSubnet
        (getSubnet (in_getVnetIntegrationSubnet env) (Some id)) in
      let* prefixes := mapErr ErrVnetIntegrationPrefixes (subnetAddressPrefixes subnet) in
      let* nsgID := mapErr ErrVnetIntegrationNSGID (nsgIDFromSubnet subnet) in
      match nsgID with
      | None => Ok []
      | Some nsgID =>
          let* client := mapErr ErrVnetIntegrationNSGClient (in_nsgClient env) in
          let* rules := mapErr ErrVnetIntegrationRules
            (listNSGSecurityRules (in_getVnetIntegrationNSG env) nsgID) in
          mapErr ErrInbound
            (validateInboundNSGRules rules.2 workerPrefixes prefixes inboundNSGPorts)
      end
  end.

Definition allViolations (env : connectivityInputs) :
    result connectivity_error (list nsgRequiredConnectivityViolationDetails) :=
  let* client := mapErr ErrSubnetsClient (in_subnetsClient env) in
  let* workerSubnet := mapErr ErrWorkerSubnet
    (getSubnet (in_getWorkerSubnet env) (Some (workerSubnetID env))) in
  let* workerNSGID := mapErr ErrWorkerNSGID (nsgIDFromSubnet workerSubnet) in
  let* workerPrefixes := mapErr ErrWorkerPrefixes (subnetAddressPrefixes workerSubnet) in
  let* outbound := outboundViolations env workerNSGID workerPrefixes in
  let* inbound := inboundViolations env workerPrefixes in
  Ok (outbound ++ inbound).

Definition validMessage : string :=
  "Azure network security group rules required for node pool connectivity are valid.".

(** [Validate]; [errorText] is the text of the error as it is logged. *)
Definition Validate (jitter : Z → Z) (errorText : connectivity_error → string)
    (env : connectivityInputs) : ValidationResult :=
  match allViolations env with
  | Err e =>
      UnknownValidation jitter "InternalError"
        "Unable to verify azure network security group rules required for node pool connectivity."
        (errorText e) ControllerReportingPolicyTypeError
  | Ok [] => PassedValidation jitter "AsExpected" validMessage validMessage
  | Ok violations =>
      let msg := formatNSGRequiredConnectivityViolationsMessage violations in
      FailedValidation jitter "AzureNodePoolNSGBlocksRequiredConnectivity" msg msg
  end.
End validation.

(** ** Properties *)

(** Every packet from a worker prefix to a destination prefix on one of the
    ports is permitted by the rules, for IPv4 prefixes and Allow rules that apply
    to whole worker prefixes. *)
Definition reaches (ParsePortRange : string → result string (Z → bool))
    (rules : list nsgSecurityRule) (workers destinations : list Prefix) (ports : list Z) : Prop :=
  ∀ worker destination port pkt,
    worker ∈ workers → destination ∈ destinations → port ∈ ports →
    prefix4 worker → prefix4 destination → Forall (broadAllow ParsePortRange worker) rules →
    onPath {| path_worker := worker; path_destination := destination; path_port := port |} pkt →
    permits ParsePortRange rules pkt.

Lemma buildRequiredNSGPaths_spec workers wl destinations dl ports paths :
  buildRequiredNSGPaths workers wl destinations dl ports = Ok paths →
  ∀ path, path ∈ paths ↔ path_worker path ∈ workers ∧ path_destination path ∈ destinations ∧
    path_port path ∈ ports.
Proof.
  unfold buildRequiredNSGPaths. repeat (case_bool_decide; [done|]). intros [= <-] [w d p]. simpl.
  rewrite list_elem_of_bind. setoid_rewrite list_elem_of_bind. setoid_rewrite list_elem_of_bind.
  setoid_rewrite list_elem_of_singleton. naive_solver.
Qed.

Lemma validateNSGRules_reaches PPR label direction rules workers destinations ports :
  validateNSGRules PPR label direction rules workers destinations ports = Ok [] →
  reaches PPR rules workers destinations ports.
Proof.
  unfold validateNSGRules. destruct (preValidationPortCheck _ _); [done|].
  destruct (buildRequiredNSGPaths _ _ _ _ _) as [paths|] eqn:Eb; [|done]. intros [= He].
  intros w d port pkt Hw Hd Hp Hw4 Hd4 Hb Hon.
  apply (no_violation_permits PPR rules paths direction
           {| path_worker := w; path_destination := d; path_port := port |} pkt He); try done.
  by apply (buildRequiredNSGPaths_spec _ _ _ _ _ _ Eb).
Qed.

(** The first step of a reading is known to have succeeded when the whole did. *)
Ltac step_ok H :=
  match type of H with
  | result_bind (mapErr _ ?m) _ = Ok _ =>
      let E := fresh "E" in destruct m eqn:E; simpl in H; [|discriminate H]
  | result_bind ?m _ = Ok _ =>
      let E := fresh "E" in destruct m eqn:E; simpl in H; [|discriminate H]
  end.

Lemma outboundViolations_reaches PPR env id workers :
  outboundViolations PPR env (Some id) workers = Ok [] →
  ∃ rules destinations,
    listNSGSecurityRules (in_getWorkerNSG env) id = Ok rules ∧
    clusterPrefixesOf env workers = Ok destinations ∧
    reaches PPR rules.1 workers destinations outboundNSGPorts.
Proof.
  simpl. intros H. repeat step_ok H.
  destruct (validateOutboundNSGRules _ _ _ _ _) eqn:Ev; [|done]. injection H as ->.
  eexists _, _. split_and!; [done..|]. by eapply validateNSGRules_reaches.
Qed.

Lemma inboundViolations_reaches PPR PRI env id workers :
  inboundViolations PPR PRI env workers = Ok [] → in_vnetIntegrationSubnetID env = Some id →
  ∃ subnet destinations nsg,
    getSubnet (in_getVnetIntegrationSubnet env) (Some id) = Ok subnet ∧
    subnetAddressPrefixes subnet = Ok destinations ∧ nsgIDFromSubnet PRI subnet = Ok nsg ∧
    ∀ nsgID, nsg = Some nsgID → ∃ rules,
      listNSGSecurityRules (in_getVnetIntegrationNSG env) nsgID = Ok rules ∧
      reaches PPR rules.2 workers destinations inboundNSGPorts.
Proof.
  unfold inboundViolations. intros H Eid. rewrite Eid in H. repeat step_ok H.
  eexists _, _, _. split_and!; [done..|]. intros nsgID ->. repeat step_ok H.
  destruct (validateInboundNSGRules _ _ _ _ _) eqn:Ev; [|done]. injection H as ->.
  eexists. split; [done|]. by eapply validateNSGRules_reaches.
Qed.

(** (C7) A passed validation guarantees connectivity between IPv4 prefixes, provided the
    Allow rules apply to whole worker prefixes and to every source port (both are part
    of [reaches]): the worker subnet was read;
    if it has a network security group, the group's outbound rules permit every
    packet from the workers to the cluster subnet on ports 443 and 6443; and if
    the cluster has a vnet-integration subnet with a group, the group's inbound
    rules permit every packet from the workers to it on ports 8443 and 443. *)
Theorem Validate_passed_guarantees_connectivity
    (ParsePortRange : string → result string (Z → bool))
    (ParseResourceID : string → result string ResourceID) (jitter : Z → Z)
    (errorText : connectivity_error → string) (env : connectivityInputs)
    (Hpassed : oc_Type (vr_Outcome
                 (Validate ParsePortRange ParseResourceID jitter errorText env)) =
               OutcomeTypePassed) :
  ∃ workerSubnet workers nsg,
    getSubnet (in_getWorkerSubnet env) (Some (workerSubnetID env)) = Ok workerSubnet ∧
    subnetAddressPrefixes workerSubnet = Ok workers ∧
    nsgIDFromSubnet ParseResourceID workerSubnet = Ok nsg ∧
    (∀ id, nsg = Some id → ∃ rules destinations,
       listNSGSecurityRules (in_getWorkerNSG env) id = Ok rules ∧
       clusterPrefixesOf env workers = Ok destinations ∧
       reaches ParsePortRange rules.1 workers destinations [443; 6443]) ∧
    (∀ id, in_vnetIntegrationSubnetID env = Some id → ∃ subnet destinations vnsg,
       getSubnet (in_getVnetIntegrationSubnet env) (Some id) = Ok subnet ∧
       subnetAddressPrefixes subnet = Ok destinations ∧
       nsgIDFromSubnet ParseResourceID subnet = Ok vnsg ∧
       ∀ nsgID, vnsg = Some nsgID → ∃ rules,
         listNSGSecurityRules (in_getVnetIntegrationNSG env) nsgID = Ok rules ∧
         reaches ParsePortRange rules.2 workers destinations [8443; 443]).
Proof.
  unfold Validate in Hpassed.
  destruct (allViolations ParsePortRange ParseResourceID env) as [[|v vs]|e] eqn:Ea; try done.
  unfold allViolations in Ea. repeat step_ok Ea. injection Ea as Ea.
  apply app_eq_nil in Ea as [-> ->]. eexists _, _, _. split_and!; [done..| |].
  - intros id ->. by apply outboundViolations_reaches.
  - intros id Eid. by eapply inboundViolations_reaches.
Qed.

(** Reading Azure's rules fails closed: every rule of the wanted direction
    with properties is kept, it counts as an Allow exactly when Azure's access is
    "Allow" and as a Deny in every other case, an absent access included. *)
Theorem convertSecurityRules_fails_closed (rules : list (option SecurityRule))
    (direction : string) (rule : SecurityRule) (props : SecurityRuleProperties)
    (Hin : Some rule ∈ rules) (Hprops : sr_Properties rule = Some props)
    (Hdir : srp_Direction props = Some direction) :
  ∃ r, r ∈ convertSecurityRules rules direction ∧
    rule_Priority r = default 0 (srp_Priority props) ∧
    (isAllow r = true ↔ srp_Access props = Some "Allow") ∧ isDeny r = negb (isAllow r).
Proof.
  destruct (convertRule direction (Some rule)) as [r|] eqn:Er.
  2:{ simpl in Er. rewrite Hprops in Er. simpl in Er. by rewrite bool_decide_true in Er. }
  exists r. split; [by apply list_elem_of_omap; eauto|].
  simpl in Er. rewrite Hprops in Er. simpl in Er. rewrite bool_decide_true in Er by done.
  injection Er as <-. unfold isAllow, isDeny, SecurityRuleAccessAllow. simpl.
  split; [done|]. case_bool_decide as E; simpl; by rewrite ?E.
Qed.

(** The port check accepts exactly the rules in which every comma-separated
    part of every port field is a wildcard or a valid port range. *)
Theorem preValidationPortCheck_accepts_iff
    (ParsePortRange : string → result string (Z → bool)) (rules : list nsgSecurityRule) :
  preValidationPortCheck ParsePortRange rules = None ↔
  ∀ rule r part, rule ∈ rules →
    r ∈ rule_SourcePortRanges rule ++ rule_DestinationPortRanges rule →
    TrimSpace r ≠ "*" → part ∈ Split ","%char (TrimSpace r) → TrimSpace part ≠ "*" →
    is_ok (ParsePortRange (TrimSpace part)) = true.
Proof.
  assert (∀ field part, validatePart ParsePortRange field part = None ↔
            (TrimSpace part ≠ "*" → is_ok (ParsePortRange (TrimSpace part)) = true)) as Hpart.
  { intros. unfold validatePart, isAnyPort. destruct (String.eqb_spec (TrimSpace part) "*");
      [naive_solver|]. destruct (ParsePortRange _); simpl; naive_solver. }
  assert (∀ field ranges, validateNSGPortRanges ParsePortRange ranges field = None ↔
    ∀ r part, r ∈ ranges → TrimSpace r ≠ "*" → part ∈ Split ","%char (TrimSpace r) →
      TrimSpace part ≠ "*" → is_ok (ParsePortRange (TrimSpace part)) = true) as Hfield.
  { intros. unfold validateNSGPortRanges. rewrite find_map_None.
    apply forall_proper; intros r. cbv zeta. unfold isAnyPort.
    destruct (String.eqb_spec (TrimSpace r) "*") as [E|E]; [naive_solver|].
    rewrite find_map_None. setoid_rewrite Hpart. naive_solver. }
  unfold preValidationPortCheck. rewrite find_map_None.
  setoid_rewrite elem_of_app. split.
  - intros H rule r part Hr. specialize (H rule Hr). simpl in H.
    destruct (validateNSGPortRanges _ (rule_SourcePortRanges rule) _) eqn:E1; [done|].
    rewrite Hfield in E1, H. intros [Hin|Hin]; eauto.
  - intros H rule Hr. simpl.
    assert (validateNSGPortRanges ParsePortRange (rule_SourcePortRanges rule) "source" = None) as ->
      by (apply Hfield; eauto).
    apply Hfield; eauto.
Qed.

(** ** Examples *)
Module ConnectivityExample.
Definition id (s : string) : ResourceID := {| rid_String := s; rid_HasParent := true |}.

Definition subnet (prefix : string) : Subnet := {|
subnet_ID := Some prefix;
subnet_Properties := Some {| sp_AddressPrefixes := []; sp_AddressPrefix := Some prefix;
                             sp_NetworkSecurityGroup := Some (Some "nsg") |};
|}.

Definition rule (name : string) (priority : Z) (direction : string) (access : option string)
  (source destination ports : string) : SecurityRule := {|
sr_Name := Some name;
sr_Properties := Some {|
  srp_Direction := Some direction; srp_Access := access; srp_Protocol := Some "Tcp";
  srp_Priority := Some priority;
  srp_SourceAddressPrefix := Some source; srp_SourceAddressPrefixes := [];
  srp_SourcePortRange := Some "*"; srp_SourcePortRanges := [];
  srp_DestinationAddressPrefix := Some destination; srp_DestinationAddressPrefixes := [None];
  srp_DestinationPortRange := None; srp_DestinationPortRanges := [Some ports] |};
|}.

(** One group for both directions, with Azure's default rules. *)
Definition group : SecurityGroupProperties := {|
sgp_SecurityRules :=
  [Some (rule "workers" 200 "Outbound" (Some "Allow") "10.0.1.0/24" "10.0.0.0/16" "443,6443");
   None; Some (rule "no-access" 300 "Outbound" None "*" "*" "*")];
sgp_DefaultSecurityRules :=
  [Some (rule "AllowVnetInBound" 65000 "Inbound" (Some "Allow") "VirtualNetwork"
           "VirtualNetwork" "*")];
|}.

Definition env : connectivityInputs := {|
in_nodePoolSubnetID := Some (id "worker"); in_clusterSubnetID := id "cluster";
in_vnetIntegrationSubnetID := Some (id "vnet");
in_subnetsClient := Ok (); in_nsgClient := Ok ();
in_getWorkerSubnet := λ _, Ok (subnet "10.0.1.0/24");
in_getClusterSubnet := λ _, Ok (subnet "10.0.2.0/24");
in_getVnetIntegrationSubnet := λ _, Ok (subnet "10.0.3.0/24");
in_getWorkerNSG := λ _, Ok (Some group);
in_getVnetIntegrationNSG := λ _, Ok (Some group);
|}.

Definition run : ValidationResult :=
Validate NsgExamples.portRange (λ s, Ok (id s)) (λ base, base) (λ _, "error") env.

(** The same cluster with a Deny in front of the Allow. *)
Definition blockedEnv : connectivityInputs := {|
in_nodePoolSubnetID := None; in_clusterSubnetID := id "cluster";
in_vnetIntegrationSubnetID := None;
in_subnetsClient := Ok (); in_nsgClient := Ok ();
in_getWorkerSubnet := λ _, Ok (subnet "10.0.2.0/24");
in_getClusterSubnet := λ _, Err "not read";
in_getVnetIntegrationSubnet := λ _, Err "not read";
in_getWorkerNSG := λ _, Ok (Some {|
  sgp_SecurityRules := [Some (rule "deny-kas" 100 "Outbound" (Some "Deny") "*" "10.0.2.7" "6443")];
  sgp_DefaultSecurityRules := sgp_SecurityRules group |});
in_getVnetIntegrationNSG := λ _, Err "not read";
|}.

Example blocked_message :
InternalMessage (Validate NsgExamples.portRange (λ s, Ok (id s)) (λ base, base)
                   (λ _, "error") blockedEnv) =
Ok ("Outbound traffic is not allowed from 10.0.2.0/24 (any source port, TCP protocol) to " +:+
    "10.0.2.0/24 (port 443/6443, TCP protocol). It is blocked by rule " +:+ Quote "no-access" +:+
    " (priority 300), action - Deny from source Any to destination Any." +:+ newline +:+
    "Outbound traffic is not allowed from 10.0.2.0/24 (any source port, TCP protocol) to " +:+
    "10.0.2.0/24 (port 6443, TCP protocol). It is blocked by rule " +:+ Quote "deny-kas" +:+
    " (priority 100), action - Deny from source Any to destination overlapping subnet " +:+
    "10.0.2.0/24.")%string.
Proof. vm_compute. reflexivity. Qed.
End ConnectivityExample.

Lemma Validate_passed_guarantees_connectivity_witness :
  oc_Type (vr_Outcome ConnectivityExample.run) = OutcomeTypePassed ∧
  ∃ workerSubnet workers nsg,
    getSubnet (in_getWorkerSubnet ConnectivityExample.env)
      (Some (workerSubnetID ConnectivityExample.env)) = Ok workerSubnet ∧
    subnetAddressPrefixes workerSubnet = Ok workers ∧
    nsgIDFromSubnet (λ s, Ok (ConnectivityExample.id s)) workerSubnet = Ok nsg ∧
    (∀ id, nsg = Some id → ∃ rules destinations,
       listNSGSecurityRules (in_getWorkerNSG ConnectivityExample.env) id = Ok rules ∧
       clusterPrefixesOf ConnectivityExample.env workers = Ok destinations ∧
       reaches NsgExamples.portRange rules.1 workers destinations [443; 6443]).
Proof.
  assert (oc_Type (vr_Outcome ConnectivityExample.run) = OutcomeTypePassed) as H
    by (vm_compute; reflexivity).
  split; [exact H|].
  destruct (Validate_passed_guarantees_connectivity NsgExamples.portRange
              (λ s, Ok (ConnectivityExample.id s)) (λ base, base) (λ _, "error")
              ConnectivityExample.env H) as (s & w & n & H1 & H2 & H3 & H4 & _).
  exists s, w, n. auto.
Defined.

Lemma convertSecurityRules_fails_closed_witness :
  ∃ r, r ∈ convertSecurityRules (sgp_SecurityRules ConnectivityExample.group) "Outbound" ∧
    rule_Priority r = 300 ∧ (isAllow r = true ↔ None = Some "Allow") ∧
    isDeny r = negb (isAllow r).
Proof.
  destruct (sr_Properties (ConnectivityExample.rule "no-access" 300 "Outbound" None "*" "*" "*"))
    as [props|] eqn:Ep; [|discriminate Ep].
  destruct (convertSecurityRules_fails_closed (sgp_SecurityRules ConnectivityExample.group)
              "Outbound" (ConnectivityExample.rule "no-access" 300 "Outbound" None "*" "*" "*")
              props) as (r & H1 & H2 & H3).
  - simpl. right. right. left.
  - exact Ep.
  - injection Ep as <-. reflexivity.
  - injection Ep as <-. exists r. auto.
Defined.

(** A wildcard inside a comma-separated port list passes the port check but
    matches no port, so a Deny on it is not seen. *)
Example wildcard_part_ignored :
  let deny := {|
    rule_Name := "deny"; rule_Priority := 100; rule_Access := "Deny"; rule_Protocol := "*";
    rule_SourceAddressPrefixes := []; rule_DestinationAddressPrefixes := [];
    rule_SourcePortRanges := []; rule_DestinationPortRanges := ["80,*"] |} in
  preValidationPortCheck NsgExamples.portRange [deny] = None ∧
  portRangesMatch NsgExamples.portRange (rule_DestinationPortRanges deny) 443 = false.
Proof. vm_compute. done. Qed.
