(* ===== verification/RolloutTypes.v ===== *)
(** * Control plane version rollout: versions, documents and channels

    [backend/pkg/controllers/cluster/version/rollout]: [versions.go], [config.go],
    [membership.go], and [internal/apihelpers/fleetapihelpers/rollout_version.go];
    the parts of the documents ([ServiceProviderCluster], [Cluster],
    [ControlPlaneVersionRollout]) that the rollout controllers use.

    Semantic versions come from the package [blang/semver], which is not part of
    the repository: the class [Semver] lists the operations the code calls and
    [SemverLaws] the documented facts the theorems use. *)
From S2P Require Import Prelude GoStrings.

Local Open Scope string_scope.
Local Open Scope Z_scope.

(** ** Semantic versions *)

(** [Compare] orders versions; [String] prints one; [Major] and [Minor] are the
    [uint64] fields; a parser answers [None] for an error. *)
Class Semver (V : Type) := {
  semver_eq_dec :: EqDecision V;
  semver_Compare : V → V → comparison;
  semver_String : V → string;
  Major : V → Z;
  Minor : V → Z;
  semver_Parse : string → option V;
  ParseTolerant : string → option V;
}.

Class SemverLaws (V : Type) `{Semver V} := {
  Compare_refl : ∀ v : V, semver_Compare v v = Eq;
  Compare_antisym : ∀ v w : V, semver_Compare w v = CompOpp (semver_Compare v w);
  Compare_lt_trans : ∀ u v w : V,
    semver_Compare u v = Lt → semver_Compare v w = Lt → semver_Compare u w = Lt;
  Compare_eq_l : ∀ u v w : V,
    semver_Compare u v = Eq → semver_Compare u w = semver_Compare v w;
  String_Compare : ∀ v w : V, semver_String v = semver_String w → semver_Compare v w = Eq;
  Major_uint64 : ∀ v : V, 0 <= Major v < 2 ^ 64;
  Minor_uint64 : ∀ v : V, 0 <= Minor v < 2 ^ 64;
  Parse_numbers : ∀ major minor, 0 <= major < 2 ^ 64 → 0 <= minor < 2 ^ 64 →
    is_Some (semver_Parse (Itoa major +:+ "." +:+ Itoa minor +:+ ".0"));
  ParseTolerant_numbers : ∀ major minor, 0 <= major < 2 ^ 64 → 0 <= minor < 2 ^ 64 →
    ∃ v : V, ParseTolerant (Itoa major +:+ "." +:+ Itoa minor) = Some v ∧
      Major v = major ∧ Minor v = minor;
  Compare_numbers : ∀ v w : V, semver_Compare v w = Eq → Major v = Major w ∧ Minor v = Minor w;
  Compare_major : ∀ v w : V, Major v < Major w → semver_Compare v w = Lt;
  Compare_minor : ∀ v w : V, Major v = Major w → Minor v < Minor w → semver_Compare v w = Lt;
  Parse_tolerant : ∀ s (v : V), semver_Parse s = Some v → ParseTolerant s = Some v;
  ParseTolerant_line : ∀ a b (v : V), canonicalNumber a = true → canonicalNumber b = true →
    ParseTolerant (a +:+ "." +:+ b) = Some v → a = Itoa (Major v) ∧ b = Itoa (Minor v);
}.

(** The comparison methods, by the result of [Compare]. *)
Definition EQ {V} `{Semver V} (v w : V) : bool :=
  match semver_Compare v w with Eq => true | _ => false end.
Definition LT {V} `{Semver V} (v w : V) : bool :=
  match semver_Compare v w with Lt => true | _ => false end.
Definition GT {V} `{Semver V} (v w : V) : bool :=
  match semver_Compare v w with Gt => true | _ => false end.
Definition LTE {V} `{Semver V} (v w : V) : bool := negb (GT v w).
Definition GTE {V} `{Semver V} (v w : V) : bool := negb (LT v w).

(** ** Times

    A [time.Time] is the number of nanoseconds since the zero time; [timeSub] gives a
    [time.Duration] and saturates.  A [*metav1.Time] is an [option]. *)
Definition IsZero (t : Z) : bool := t =? 0.

(** [IsZero] of a [*metav1.Time]: nil is zero as well. *)
Definition ptr_IsZero (t : option Z) : bool :=
  match t with None => true | Some t => IsZero t end.

Definition timeSub (t u : Z) : Z := Z.max (- 2 ^ 63) (Z.min (t - u) (2 ^ 63 - 1)).

Definition Second : Z := 1000000000.
Definition Minute : Z := 60 * Second.
Definition Hour : Z := 60 * Minute.

(** ** Documents *)

(** What is used of an [azcorearm.ResourceID] and of its parent. *)
Record ParentID := { parent_Name : string; parent_String : string }.

Record ResourceID := {
  rid_SubscriptionID : string;
  rid_ResourceGroupName : string;
  rid_Name : string;
  rid_ResourceType : string;
  rid_String : string;
  rid_Parent : option ParentID;
}.

#[export] Instance ParentID_eq_dec : EqDecision ParentID.
Proof. solve_decision. Defined.
#[export] Instance ResourceID_eq_dec : EqDecision ResourceID.
Proof. solve_decision. Defined.

Record VersionProfile := { vp_ID : string; vp_ChannelGroup : string }.

#[export] Instance VersionProfile_eq_dec : EqDecision VersionProfile.
Proof. solve_decision. Defined.
#[export] Program Instance VersionProfile_countable : Countable VersionProfile :=
  inj_countable' (λ p, (vp_ID p, vp_ChannelGroup p))
    (λ '(i, g), {| vp_ID := i; vp_ChannelGroup := g |}) _.
Next Obligation. by intros []. Qed.

Definition CompletedUpdate : string := "Completed".

Record ActiveVersion (V : Type) := {
  av_Version : option V;
  av_State : string;
  av_LastTransitionTime : Z;
}.
Arguments av_Version {V}.
Arguments av_State {V}.
Arguments av_LastTransitionTime {V}.

Record PinnedVersion (V : Type) := {
  ExactVersion : option V;
  UntilExactVersion : option V;
}.
Arguments ExactVersion {V}.
Arguments UntilExactVersion {V}.

Definition noPin {V} : PinnedVersion V := {| ExactVersion := None; UntilExactVersion := None |}.

Record ServiceProviderCluster (V : Type) := {
  spc_ResourceID : option ResourceID;
  spc_DesiredVersion : option V;
  spc_DesiredVersionLastTransitionTime : option Z;
  spc_PinnedVersion : PinnedVersion V;
  spc_ActiveVersions : list (ActiveVersion V);
}.
Arguments spc_ResourceID {V}.
Arguments spc_DesiredVersion {V}.
Arguments spc_DesiredVersionLastTransitionTime {V}.
Arguments spc_PinnedVersion {V}.
Arguments spc_ActiveVersions {V}.

Definition ImmediateZStreamUpdatePolicy : string := "Immediate".

Record Cluster (V : Type) := {
  cl_ID : option string;
  cl_DeletionTimestamp : option Z;
  cl_Version : VersionProfile;
  cl_ControlPlaneExactVersion : option V;
  cl_ZStreamUpdatePolicy : string;
  cl_ActiveVersions : list string;
}.
Arguments cl_ID {V}.
Arguments cl_DeletionTimestamp {V}.
Arguments cl_Version {V}.
Arguments cl_ControlPlaneExactVersion {V}.
Arguments cl_ZStreamUpdatePolicy {V}.
Arguments cl_ActiveVersions {V}.

(** What is used of a [metav1.Condition]. *)
Record Condition := {
  cond_Type : string;
  cond_Status : bool;
  cond_Reason : string;
  cond_Message : string;
  cond_LastTransitionTime : Z;
}.

#[export] Instance Condition_eq_dec : EqDecision Condition.
Proof. solve_decision. Defined.

(** [ControlPlaneVersionRolloutStatus]; a missing map is the empty map. *)
Record RolloutStatus := {
  rs_ReferencingClusterCount : option Z;
  rs_LastAssignmentTime : option Z;
  rs_Conditions : list Condition;
  rs_Desired : gmap string Z;
  rs_Mismatched : gmap string Z;
  rs_Failed : gmap string Z;
  rs_Achieved : gmap string Z;
  rs_Successful : gmap string Z;
}.

#[export] Instance RolloutStatus_eq_dec : EqDecision RolloutStatus.
Proof. solve_decision. Defined.

Record Rollout (V : Type) := {
  ro_CosmosETag : string;
  ro_Version : VersionProfile;
  ro_BestExactVersion : option V;
  ro_Status : RolloutStatus;
}.
Arguments ro_CosmosETag {V}.
Arguments ro_Version {V}.
Arguments ro_BestExactVersion {V}.
Arguments ro_Status {V}.

#[export] Instance Rollout_eq_dec {V} `{EqDecision V} : EqDecision (Rollout V).
Proof. solve_decision. Defined.

(** ** Configuration *)

Record RolloutConfig (V : Type) := {
  CanaryPercentage : Z;
  RollingPercentage : Z;
  MinVersionReadyDuration : Z;
  MinimumVersions : gmap string V;
  MaxUpgradeDuration : gmap string Z;
}.
Arguments CanaryPercentage {V}.
Arguments RollingPercentage {V}.
Arguments MinVersionReadyDuration {V}.
Arguments MinimumVersions {V}.
Arguments MaxUpgradeDuration {V}.

Definition DefaultCanaryPercentage : Z := 6.
Definition DefaultRollingPercentage : Z := 12.
Definition DefaultMinVersionReadyDuration : Z := 1 * Hour.
Definition DefaultMaxUpgradeDuration : Z := 2 * Hour.

Definition MaxUpgradeDurationForMinor {V} (c : RolloutConfig V) (minor : string) : Z :=
  match MaxUpgradeDuration c !! minor with
  | Some d => d
  | None => DefaultMaxUpgradeDuration
  end.

Definition NewDefaultRolloutConfig {V} : RolloutConfig V := {|
  CanaryPercentage := DefaultCanaryPercentage;
  RollingPercentage := DefaultRollingPercentage;
  MinVersionReadyDuration := DefaultMinVersionReadyDuration;
  MinimumVersions := ∅;
  MaxUpgradeDuration := ∅ |}.

Definition MinimumBackendVersion : string := "4.20".

Definition percentOfCeil (pct total : Z) : Z :=
  if (pct <=? 0) || (total <=? 0) then 0
  else Z.quot (wrap64 (wrap64 (pct * total) + 99)) 100.

(** ** Channel names *)

Definition yStreamChannel (channelGroup minor : string) : string :=
  channelGroup +:+ "-" +:+ minor.

Definition rolloutChannelGroups : list string := ["stable"; "fast"; "candidate"; "nightly"].

(** [rolloutChannelPattern]: one of the groups, a dash, and two canonical numbers
    separated by a dot. *)
Definition rolloutChannelPattern (name : string) : bool :=
  let '(group, minor, found) := Cut "-" name in
  found && existsb (String.eqb group) rolloutChannelGroups
  && match Split "." minor with
     | [a; b] => canonicalNumber a && canonicalNumber b
     | _ => false
     end.

Inductive channel_error : Type := ErrChannelName (name : string).

Section versions.
Context {V : Type} `{Semver V}.

Definition minorString (v : V) : string := Itoa (Major v) +:+ "." +:+ Itoa (Minor v).

Definition RolloutVersionFromName (name : string) : result channel_error VersionProfile :=
  let '(group, minor, _) := Cut "-" name in
  match semver_Parse (minor +:+ ".0") with
  | Some _ =>
      if rolloutChannelPattern name
      then Ok {| vp_ID := minor; vp_ChannelGroup := group |}
      else Err (ErrChannelName name)
  | None => Err (ErrChannelName name)
  end.

(** The support floor of the backend, by major and minor. *)
Definition atLeastBackendVersion (version : string) : bool :=
  match ParseTolerant version, ParseTolerant MinimumBackendVersion with
  | Some parsed, Some floor =>
      (Major floor <? Major parsed)
      || ((Major parsed =? Major floor) && (Minor floor <=? Minor parsed))
  | _, _ => false
  end.

(** ** Versions of a cluster *)

(** The loop runs from the end of the list. *)
Definition earliestActiveVersionEntry (activeVersions : list (ActiveVersion V)) :
    option (ActiveVersion V) :=
  find_first (λ a, bool_decide (is_Some (av_Version a)) && String.eqb (av_State a) CompletedUpdate)
    (rev activeVersions).

Definition earliestActiveVersion (activeVersions : list (ActiveVersion V)) : option V :=
  earliestActiveVersionEntry activeVersions ≫= av_Version.

Definition maxVersion (a b : option V) : option V :=
  match a, b with
  | None, _ => b
  | _, None => a
  | Some x, Some y => if GTE x y then a else b
  end.

Definition setDesiredVersion (c : ServiceProviderCluster V) (newDesired : option V) (now : Z) :
    ServiceProviderCluster V :=
  let replaced := {|
    spc_ResourceID := spc_ResourceID c;
    spc_DesiredVersion := newDesired;
    spc_DesiredVersionLastTransitionTime := Some now;
    spc_PinnedVersion := spc_PinnedVersion c;
    spc_ActiveVersions := spc_ActiveVersions c |} in
  match spc_DesiredVersion c, newDesired with
  | Some current, Some new =>
      if EQ current new && negb (ptr_IsZero (spc_DesiredVersionLastTransitionTime c))
      then c else replaced
  | _, _ => replaced
  end.

Definition hasForcedVersion (cluster : Cluster V) (c : ServiceProviderCluster V) : bool :=
  bool_decide (is_Some (ExactVersion (spc_PinnedVersion c)))
  || bool_decide (is_Some (cl_ControlPlaneExactVersion cluster)).

(** ** Membership *)

Definition clusterMinor (c : ServiceProviderCluster V) : option string :=
  match spc_DesiredVersion c with
  | Some desired => Some (minorString desired)
  | None => minorString <$> earliestActiveVersion (spc_ActiveVersions c)
  end.

(** [strings.ToLower(ResourceID.Parent.String())], when both pointers are set. *)
Definition parentKey (c : ServiceProviderCluster V) : option string :=
  id ← spc_ResourceID c;
  parent ← rid_Parent id;
  Some (ToLower (parent_String parent)).

(** The channel groups of the clusters that are not being deleted; a later entry
    overwrites an earlier one. *)
Definition channelGroupByClusterID (clusters : list (Cluster V)) : gmap string string :=
  fold_left (λ m cluster,
      match cl_ID cluster, cl_DeletionTimestamp cluster with
      | Some id, None => <[ToLower id := vp_ChannelGroup (cl_Version cluster)]> m
      | _, _ => m
      end) clusters ∅.

(** The conditions under which the loop keeps a [ServiceProviderCluster]. *)
Definition inChannel (groups : gmap string string) (channelGroup minor : string)
    (c : ServiceProviderCluster V) : bool :=
  bool_decide (clusterMinor c = Some minor)
  && match parentKey c with
     | None => false
     | Some key => bool_decide (groups !! key = Some channelGroup)
     end.

Definition filterServiceProviderClustersForChannel (clusters : list (Cluster V))
    (serviceProviderClusters : list (ServiceProviderCluster V)) (channel : string) :
    result channel_error (list (ServiceProviderCluster V)) :=
  match RolloutVersionFromName channel with
  | Err e => Err e
  | Ok profile =>
      Ok (List.filter
            (inChannel (channelGroupByClusterID clusters) (vp_ChannelGroup profile) (vp_ID profile))
            serviceProviderClusters)
  end.

(** The y-stream channel a cluster requests. *)
Definition clusterYStreamChannel (cluster : Cluster V) : option string :=
  if String.eqb (vp_ChannelGroup (cl_Version cluster)) EmptyString then None
  else match ParseTolerant (vp_ID (cl_Version cluster)) with
       | None => None
       | Some parsed =>
           Some (yStreamChannel (vp_ChannelGroup (cl_Version cluster)) (minorString parsed))
       end.

End versions.

(** ** The order of versions *)

Section order.
Context {V : Type} `{SemverLaws V}.

Lemma EQ_refl (v : V) : EQ v v = true.
Proof. unfold EQ. by rewrite Compare_refl. Qed.

Lemma EQ_sym (v w : V) : EQ v w = EQ w v.
Proof. unfold EQ. rewrite (Compare_antisym v w). by destruct (semver_Compare v w). Qed.

Lemma LT_irrefl (v : V) : LT v v = false.
Proof. unfold LT. by rewrite Compare_refl. Qed.

Lemma LT_trans (u v w : V) : LT u v = true → LT v w = true → LT u w = true.
Proof.
  unfold LT. destruct (semver_Compare u v) eqn:E1, (semver_Compare v w) eqn:E2; try done.
  by rewrite (Compare_lt_trans _ _ _ E1 E2).
Qed.

Lemma GT_LT (v w : V) : GT v w = LT w v.
Proof. unfold GT, LT. rewrite (Compare_antisym v w). by destruct (semver_Compare v w). Qed.

Lemma LT_not_EQ (v w : V) : LT v w = true → EQ v w = false.
Proof. unfold LT, EQ. by destruct (semver_Compare v w). Qed.

Lemma LT_String (v w : V) : LT v w = true → semver_String v ≠ semver_String w.
Proof. intros Hlt Hs. apply String_Compare in Hs. unfold LT in Hlt. by rewrite Hs in Hlt. Qed.

Lemma LT_GTE_trans (u v w : V) : LT u v = true → GTE w v = true → LT u w = true.
Proof.
  unfold GTE. intros Huv Hvw. apply negb_true_iff in Hvw.
  destruct (LT v w) eqn:E; [by eapply LT_trans|].
  assert (semver_Compare w v = Eq) as Heq.
  { unfold LT in *. rewrite (Compare_antisym w v) in E. by destruct (semver_Compare w v). }
  unfold LT in *. destruct (semver_Compare u v) eqn:E'; try done.
  rewrite (Compare_antisym w u), (Compare_eq_l _ _ u Heq), (Compare_antisym u v), E'. done.
Qed.

(** [maxVersion] is an upper bound of the versions that are set, and one of them. *)
Lemma maxVersion_spec (a b : option V) :
  (∀ v, a = Some v ∨ b = Some v → ∃ m, maxVersion a b = Some m ∧ GTE m v = true) ∧
  (maxVersion a b = a ∨ maxVersion a b = b).
Proof.
  assert (Hr : ∀ v : V, GTE v v = true) by (intros v; unfold GTE; by rewrite LT_irrefl).
  destruct a as [a|], b as [b|]; simpl; [| | |naive_solver].
  2,3: naive_solver.
  destruct (GTE a b) eqn:E; (split; [|naive_solver]); intros v [[= <-]|[= <-]]; eauto.
  exists b. split; [done|]. unfold GTE in *. apply negb_false_iff in E. apply negb_true_iff.
  destruct (LT b a) eqn:E2; [|done].
  pose proof (LT_trans _ _ _ E E2) as E3. by rewrite LT_irrefl in E3.
Qed.

End order.

(** ** Channel names are read back *)

Lemma Cut_app sep s t :
  string_forall (λ c, negb (Ascii.eqb c sep)) s = true →
  Cut sep (s +:+ String sep t) = (s, t, true).
Proof.
  induction s as [|c s IH]; simpl; [by rewrite Ascii.eqb_refl|].
  rewrite andb_true_iff. intros [Hc Hs]. apply negb_true_iff in Hc.
  by rewrite Hc, IH.
Qed.

Lemma Cut_found sep s before after :
  Cut sep s = (before, after, true) → s = before +:+ String sep after.
Proof.
  revert before. induction s as [|c s IH]; intros before; simpl; [done|].
  destruct (Ascii.eqb c sep) eqn:E.
  - apply Ascii.eqb_eq in E as ->. by intros [= <- <-].
  - destruct (Cut sep s) as [[b a] f] eqn:E'. intros [= <- <- ->]. simpl. by rewrite (IH b).
Qed.

Lemma digits_no_sep sep s :
  is_digit_char sep = false → string_forall is_digit_char s = true →
  string_forall (λ c, negb (Ascii.eqb c sep)) s = true.
Proof.
  intros Hsep. apply string_forall_impl. intros c Hc. apply negb_true_iff.
  destruct (Ascii.eqb c sep) eqn:E; [|done]. apply Ascii.eqb_eq in E as ->. congruence.
Qed.

(** A canonical number has digits only. *)
Lemma Itoa_no_sep sep z :
  0 <= z → is_digit_char sep = false → string_forall (λ c, negb (Ascii.eqb c sep)) (Itoa z) = true.
Proof. intros. by apply digits_no_sep, Itoa_digits. Qed.

Section channels.
Context {V : Type} `{SemverLaws V}.

Lemma Split_minorString (v : V) : Split "." (minorString v) = [Itoa (Major v); Itoa (Minor v)].
Proof.
  pose proof (Major_uint64 v). pose proof (Minor_uint64 v).
  unfold minorString.
  change (Itoa (Major v) +:+ "." +:+ Itoa (Minor v))
    with (Itoa (Major v) +:+ String "." (Itoa (Minor v))).
  rewrite Split_app_sep by (apply Itoa_no_sep; [lia|done]).
  by rewrite Split_no_sep by (apply Itoa_no_sep; [lia|done]).
Qed.

(** The text of a release line determines its numbers. *)
Lemma minorString_numbers (v : V) major minor :
  minorString v = Itoa major +:+ "." +:+ Itoa minor →
  Split "." (Itoa major +:+ "." +:+ Itoa minor) = [Itoa major; Itoa minor] →
  Major v = major ∧ Minor v = minor.
Proof.
  intros Hs Hsplit. rewrite <- Hs, Split_minorString in Hsplit.
  injection Hsplit as ->%Itoa_inj ->%Itoa_inj. done.
Qed.

Lemma minorString_inj (v w : V) : minorString v = minorString w → Major v = Major w ∧ Minor v = Minor w.
Proof. intros Hs. apply minorString_numbers; [exact Hs|apply Split_minorString]. Qed.

Lemma RolloutVersionFromName_channel (group : string) (v : V) :
  group ∈ rolloutChannelGroups →
  RolloutVersionFromName (yStreamChannel group (minorString v))
  = Ok {| vp_ID := minorString v; vp_ChannelGroup := group |}.
Proof.
  intros Hg. pose proof (Major_uint64 v). pose proof (Minor_uint64 v).
  assert (Hcut : Cut "-" (yStreamChannel group (minorString v)) = (group, minorString v, true)).
  { apply Cut_app. by repeat (apply elem_of_cons in Hg as [->|Hg]; [done|]); apply elem_of_nil in Hg. }
  assert (Hp : rolloutChannelPattern (yStreamChannel group (minorString v)) = true).
  { unfold rolloutChannelPattern. rewrite Hcut, Split_minorString, !canonical_Itoa by lia.
    rewrite !andb_true_r, andb_true_l. apply existsb_elem. exists group. by rewrite String.eqb_refl. }
  unfold RolloutVersionFromName. rewrite Hcut, Hp.
  destruct (Parse_numbers (Major v) (Minor v)) as [w Hw]; [lia..|].
  replace (minorString v +:+ ".0") with (Itoa (Major v) +:+ "." +:+ Itoa (Minor v) +:+ ".0").
  - by rewrite Hw.
  - unfold minorString. by rewrite !string_app_assoc.
Qed.

Lemma RolloutVersionFromName_inv name profile :
  RolloutVersionFromName (V := V) name = Ok profile →
  name = yStreamChannel (vp_ChannelGroup profile) (vp_ID profile) ∧
  vp_ChannelGroup profile ∈ rolloutChannelGroups.
Proof.
  unfold RolloutVersionFromName, rolloutChannelPattern.
  destruct (Cut "-" name) as [[group minor] found] eqn:E.
  destruct (semver_Parse _); [|done]. destruct (_ && _) eqn:Ep; [|done].
  intros [= <-]. simpl. bool_reflect. subst found.
  split; [by apply Cut_found|].
  match goal with Hx : existsb _ _ = true |- _ => apply existsb_elem in Hx as (g & Hg & Heq) end.
  by apply String.eqb_eq in Heq as ->.
Qed.

End channels.

(** ** Release versions

    A concrete instance of the interface: versions [major.minor.patch] without
    pre-release or build parts, as OpenShift releases have them. *)
Module Release.

Definition u64b (z : Z) : bool := (0 <=? z) && (z <? 2 ^ 64).

Definition numbersOk (t : Z * Z * Z) : bool :=
  let '(a, b, c) := t in u64b a && u64b b && u64b c.

Definition t : Type := { v : Z * Z * Z | numbersOk v = true }.

Definition make (a b c : Z) : option t :=
  match Sumbool.sumbool_of_bool (numbersOk (a, b, c)) with
  | left H => Some (exist _ (a, b, c) H)
  | right _ => None
  end.

Definition compare (v w : t) : comparison :=
  let '(a, b, c) := `v in
  let '(a', b', c') := `w in
  match a ?= a' with
  | Eq => match b ?= b' with Eq => c ?= c' | r => r end
  | r => r
  end.

Definition print (v : t) : string :=
  let '(a, b, c) := `v in Itoa a +:+ "." +:+ Itoa b +:+ "." +:+ Itoa c.

Definition parse (s : string) : option t :=
  match Split "." s with
  | [a; b; c] =>
      a ← parse_decimal a; b ← parse_decimal b; c ← parse_decimal c; make a b c
  | _ => None
  end.

(** A missing patch number is zero. *)
Definition parseTolerant (s : string) : option t :=
  match Split "." s with
  | [a; b] => a ← parse_decimal a; b ← parse_decimal b; make a b 0
  | _ => parse s
  end.

#[export] Instance semver : Semver t := {
  semver_eq_dec := _;
  semver_Compare := compare;
  semver_String := print;
  Major v := (`v).1.1;
  Minor v := (`v).1.2;
  semver_Parse := parse;
  ParseTolerant := parseTolerant;
}.

Lemma numbers (v : t) :
  0 <= (`v).1.1 < 2 ^ 64 ∧ 0 <= (`v).1.2 < 2 ^ 64 ∧ 0 <= (`v).2 < 2 ^ 64.
Proof. destruct v as [[[a b] c] H]. simpl in *. unfold u64b in H. bool_reflect. lia. Qed.

Lemma Split_print a b c :
  0 <= a → 0 <= b → 0 <= c →
  Split "." (Itoa a +:+ "." +:+ Itoa b +:+ "." +:+ Itoa c) = [Itoa a; Itoa b; Itoa c].
Proof.
  intros. apply (Split_Join "." [Itoa a; Itoa b; Itoa c]); [done|].
  repeat constructor; by apply Itoa_no_sep.
Qed.

Lemma make_ok a b c :
  0 <= a < 2 ^ 64 → 0 <= b < 2 ^ 64 → 0 <= c < 2 ^ 64 → is_Some (make a b c).
Proof.
  intros. assert (Hok : numbersOk (a, b, c) = true).
  { unfold numbersOk, u64b. rewrite !andb_true_iff, !Z.leb_le, !Z.ltb_lt. lia. }
  unfold make. destruct (Sumbool.sumbool_of_bool _); [by eexists|congruence].
Qed.

Lemma compare_spec (v w : t) :
  let '(a, b, c) := `v in
  let '(a', b', c') := `w in
  match compare v w with
  | Eq => a = a' ∧ b = b' ∧ c = c'
  | Lt => a < a' ∨ a = a' ∧ (b < b' ∨ b = b' ∧ c < c')
  | Gt => a' < a ∨ a = a' ∧ (b' < b ∨ b = b' ∧ c' < c)
  end.
Proof.
  unfold compare. destruct (`v) as [[a b] c], (`w) as [[a' b'] c'].
  destruct (Z.compare_spec a a'); [|lia..].
  destruct (Z.compare_spec b b'); [|lia..].
  destruct (Z.compare_spec c c'); lia.
Qed.

#[export] Instance laws : SemverLaws t.
Proof.
  split; simpl.
  - intros v. pose proof (compare_spec v v) as H.
    destruct (`v) as [[a b] c]. destruct (compare v v); [done|lia..].
  - intros v w. pose proof (compare_spec v w) as H1. pose proof (compare_spec w v) as H2.
    destruct (`v) as [[a b] c], (`w) as [[a' b'] c'].
    destruct (compare v w), (compare w v); simpl; lia || done.
  - intros u v w. pose proof (compare_spec u v). pose proof (compare_spec v w).
    pose proof (compare_spec u w).
    destruct (`u) as [[a b] c], (`v) as [[a' b'] c'], (`w) as [[a'' b''] c''].
    destruct (compare u v), (compare v w), (compare u w); lia || done.
  - intros u v w. pose proof (compare_spec u v). pose proof (compare_spec v w).
    pose proof (compare_spec u w).
    destruct (`u) as [[a b] c], (`v) as [[a' b'] c'], (`w) as [[a'' b''] c''].
    destruct (compare u v), (compare v w), (compare u w); lia || done.
  - intros v w Hs. pose proof (numbers v) as Hv. pose proof (numbers w) as Hw.
    unfold print, compare in *.
    destruct (`v) as [[a b] c], (`w) as [[a' b'] c']. simpl in *.
    apply (f_equal (Split ".")) in Hs. rewrite !Split_print in Hs by lia.
    injection Hs as ->%Itoa_inj ->%Itoa_inj ->%Itoa_inj. by rewrite !Z.compare_refl.
  - intros v. apply numbers.
  - intros v. apply numbers.
  - intros a b Ha Hb. unfold parse.
    change ".0" with ("." +:+ Itoa 0). rewrite Split_print by lia.
    rewrite !parse_decimal_Itoa. simpl. by apply make_ok.
  - intros a b Ha Hb. unfold parseTolerant.
    change (Itoa a +:+ "." +:+ Itoa b) with (Join "." [Itoa a; Itoa b]).
    rewrite (Split_Join "." [Itoa a; Itoa b]);
      [|done|apply Forall_cons_2; [|apply Forall_cons_2; [|constructor]]; apply Itoa_no_sep; done || lia].
    rewrite !parse_decimal_Itoa. simpl.
    unfold make. destruct (Sumbool.sumbool_of_bool _) as [H|H]; [by eexists|].
    exfalso. unfold numbersOk, u64b in H. rewrite !andb_false_iff, !Z.leb_gt, !Z.ltb_ge in H. lia.
  - intros v w. pose proof (compare_spec v w).
    destruct (`v) as [[a b] c], (`w) as [[a' b'] c']. destruct (compare v w); naive_solver.
  - intros v w. pose proof (compare_spec v w).
    destruct (`v) as [[a b] c], (`w) as [[a' b'] c']. simpl. destruct (compare v w); lia || done.
  - intros v w. pose proof (compare_spec v w).
    destruct (`v) as [[a b] c], (`w) as [[a' b'] c']. simpl. destruct (compare v w); lia || done.
  - intros s v. unfold parseTolerant, parse. destruct (Split "." s) as [|a [|b [|c [|]]]]; done.
  - intros a b v Ha Hb. unfold parseTolerant.
    change (a +:+ "." +:+ b) with (Join "." [a; b]).
    rewrite (Split_Join "." [a; b]);
      [|done|apply Forall_cons_2; [|apply Forall_cons_2; [|constructor]]; apply digits_no_sep;
        done || by apply canonicalNumber_digits].
    destruct (parse_decimal a) as [x|] eqn:Ex; [|done]. destruct (parse_decimal b) as [y|] eqn:Ey; [|done].
    simpl. unfold make. destruct (Sumbool.sumbool_of_bool _); [|done]. intros [= <-]. simpl.
    split; symmetry; by apply canonicalNumber_Itoa.
Qed.

End Release.
