(* ===== verification/VersionRules.v ===== *)
(** * Version rules for clusters and node pools

    [internal/utils/apihelpers/version.go], the tables of
    [internal/api/metadataapi/utils.go], the version validators of
    [internal/validation/validators.go] and [internal/admission/utils.go]: which
    upgrade paths and which distances between control plane and node pools are
    allowed.  Dereferencing a nil version and [Must] on an error are explicit
    panics; [uint64] arithmetic wraps. *)
From S2P Require Import Prelude GoStrings RolloutTypes.

Local Open Scope string_scope.
Local Open Scope Z_scope.
Local Open Scope go_scope.

Inductive version_panic : Type := NilDereference | MustFailed (s : string).

Definition wrapU64 (z : Z) : Z := z mod 2 ^ 64.

(** ** Tables *)

Definition AllowMajorUpgradePaths : gmap string string :=
  {[ "4.22" := "5.0"; "4.23" := "5.1" ]}.

Definition AllowControlPlaneNodePoolMajorVersionSkew : gmap string (list string) :=
  {[ "4.21" := ["5.0"]; "4.22" := ["5.0"; "5.1"]; "4.23" := ["5.1"; "5.2"] ]}.

Definition ChannelGroupNightly : string := "nightly".
Definition ChannelGroupCandidate : string := "candidate".

Section rules.
Context {V : Type} `{Semver V}.

(** ** Lowest and highest active version *)

(** One iteration: [less v w] is [v.LT(w)] for the lowest and [v.GT(w)] for the
    highest version.  A nil version is dereferenced only in a comparison. *)
Definition pickVersion (less : V → V → bool) (picked av : option V) : result version_panic (option V) :=
  match picked, av with
  | None, _ => Ok av
  | Some _, None => Err NilDereference
  | Some p, Some v => Ok (if less v p then Some v else Some p)
  end.

Fixpoint findLowestAndHighest (activeVersions : list (option V)) (lowest highest : option V) :
    result version_panic (option V * option V) :=
  match activeVersions with
  | [] => Ok (lowest, highest)
  | av :: rest =>
      let* lowest := pickVersion LT lowest av in
      let* highest := pickVersion GT highest av in
      findLowestAndHighest rest lowest highest
  end.

Definition FindLowestAndHighestClusterVersion (activeVersions : list (ActiveVersion V)) :
    result version_panic (option V * option V) :=
  findLowestAndHighest (av_Version <$> activeVersions) None None.

Definition FindLowestAndHighestNodePoolVersion (activeVersions : list (option V)) :
    result version_panic (option V * option V) :=
  findLowestAndHighest activeVersions None None.

(** ** Upgrade paths *)

Inductive path_error : Type :=
  | ErrParseVersion (s : string)
  | ErrSkipMajor
  | ErrCrossMajor (allowed : string)
  | ErrSkipMinor.

Definition OpenshiftVersionAtMostOneMinorSkew (previousVersionID newVersionID : string) : option path_error :=
  if String.eqb previousVersionID EmptyString || String.eqb newVersionID EmptyString then None
  else
    match ParseTolerant newVersionID with
    | None => Some (ErrParseVersion newVersionID)
    | Some desired =>
        match ParseTolerant previousVersionID with
        | None => Some (ErrParseVersion previousVersionID)
        | Some previous =>
            if negb (Major desired =? Major previous) then
              if negb (Major desired =? wrapU64 (Major previous + 1)) then Some ErrSkipMajor
              else
                let allowed := default EmptyString (AllowMajorUpgradePaths !! minorString previous) in
                if negb (String.eqb (minorString desired) allowed) then Some (ErrCrossMajor allowed)
                else None
            else if wrapU64 (Minor previous + 1) <? Minor desired then Some ErrSkipMinor
            else None
        end
    end.

(** ** Distance between node pools and control plane *)

Inductive change_error : Type :=
  | ErrUnknownLowest
  | ErrUnknownHighest
  | ErrExceedsControlPlane
  | ErrBehindControlPlane
  | ErrDifferentMajor
  | ErrMajorChange
  | ErrNotCoexist
  | ErrMajorPath
  | ErrSkipTwoMinors.

Definition ValidateCrossMajorNodePoolSkew (nodePoolVersion controlPlaneVersion : V) : option change_error :=
  match AllowControlPlaneNodePoolMajorVersionSkew !! minorString nodePoolVersion with
  | None => Some ErrNotCoexist
  | Some allowedCPs =>
      if existsb (String.eqb (minorString controlPlaneVersion)) allowedCPs then None
      else Some ErrNotCoexist
  end.

Definition ValidateMajorUpgrade (fromVersion toVersion : V) : option change_error :=
  match AllowMajorUpgradePaths !! minorString fromVersion with
  | None => Some ErrMajorPath
  | Some allowed => if String.eqb allowed (minorString toVersion) then None else Some ErrMajorPath
  end.

(** [a.Major > b.Major || (a.Major == b.Major && a.Minor > b.Minor)] *)
Definition minorAbove (a b : V) : bool :=
  (Major b <? Major a) || ((Major a =? Major b) && (Minor b <? Minor a)).

Definition ValidateNodePoolVersionChange (desiredVersion : V) (activeVersions : list (option V))
    (lowestCPVersion highestCPVersion : option V) (allowMajorUpgrade : bool) :
    result version_panic (option change_error) :=
  if existsb (λ av, match av with Some v => EQ v desiredVersion | None => false end) activeVersions
  then Ok None
  else
    match lowestCPVersion, highestCPVersion with
    | None, _ => Ok (Some ErrUnknownLowest)
    | _, None => Ok (Some ErrUnknownHighest)
    | Some lowestCP, Some highestCP =>
        let* bounds := FindLowestAndHighestNodePoolVersion activeVersions in
        let '(lowest, highest) := bounds in
        if minorAbove desiredVersion lowestCP then Ok (Some ErrExceedsControlPlane)
        else if (Major desiredVersion =? Major highestCP)
                && (2 <? wrapU64 (Minor highestCP - Minor desiredVersion))
        then Ok (Some ErrBehindControlPlane)
        else
          let isSameMajorNPChange :=
            match highest with None => true | Some h => Major desiredVersion =? Major h end in
          if negb (Major desiredVersion =? Major highestCP) && isSameMajorNPChange then
            if negb allowMajorUpgrade then Ok (Some ErrDifferentMajor)
            else Ok (ValidateCrossMajorNodePoolSkew desiredVersion highestCP)
          else
            let isCrossMajorUpgrade :=
              match lowest with Some l => Major l <? Major desiredVersion | None => false end in
            let isCrossMajorDowngrade :=
              match highest with Some h => Major desiredVersion <? Major h | None => false end in
            if isCrossMajorUpgrade || isCrossMajorDowngrade then
              if negb allowMajorUpgrade then Ok (Some ErrMajorChange)
              else match lowest with
                   | Some l =>
                       if isCrossMajorUpgrade then Ok (ValidateMajorUpgrade l desiredVersion)
                       else Ok (ValidateCrossMajorNodePoolSkew desiredVersion highestCP)
                   | None => Ok (ValidateCrossMajorNodePoolSkew desiredVersion highestCP)
                   end
            else
              match lowest with
              | Some l =>
                  if wrapU64 (Minor l + 2) <? Minor desiredVersion then Ok (Some ErrSkipTwoMinors)
                  else Ok None
              | None => Ok None
              end
    end.

(** ** A new cluster version against the existing node pools *)

Inductive skew_error : Type :=
  | ErrInvalidNodePoolVersion (name version : string)
  | ErrClusterTooFarAhead (name : string)
  | ErrIncompatibleMajor (name : string).

Definition mustParseTolerant (s : string) : result version_panic V :=
  match ParseTolerant s with Some v => Ok v | None => Err (MustFailed s) end.

Definition clusterVersionSkewVersusNodePool (nodePoolName : string) (nodePoolVer clusterVer : V) :
    result version_panic (option skew_error) :=
  let* nodePoolMinorRelease := mustParseTolerant (minorString nodePoolVer) in
  let* clusterMinorRelease := mustParseTolerant (minorString clusterVer) in
  if EQ nodePoolMinorRelease clusterMinorRelease then Ok None
  else if Major nodePoolVer =? Major clusterVer then
    if wrap64 (wrap64 (Minor clusterVer) - 2) <=? wrap64 (Minor nodePoolVer) then Ok None
    else Ok (Some (ErrClusterTooFarAhead nodePoolName))
  else
    let allowed := default [] (AllowControlPlaneNodePoolMajorVersionSkew !! minorString nodePoolVer) in
    if existsb (String.eqb (minorString clusterVer)) allowed then Ok None
    else Ok (Some (ErrIncompatibleMajor nodePoolName)).

(** A node pool with its requested version and, when there is a service provider
    record, the active versions; [None] is a nil node pool. *)
Record AdmissionNodePool := {
  anp_Name : string;
  anp_VersionID : string;
  anp_ActiveVersions : option (list (option V));
}.

Definition optError {E} (e : option E) : list E := match e with Some e => [e] | None => [] end.

(** The checks of one entry, in order. *)
Definition admitNodePoolSkew (clusterVersion : V) (pool : AdmissionNodePool) :
    result version_panic (list skew_error) :=
  let* requested :=
    if String.eqb (anp_VersionID pool) EmptyString then Ok []
    else match ParseTolerant (anp_VersionID pool) with
         | None => Ok [ErrInvalidNodePoolVersion (anp_Name pool) (anp_VersionID pool)]
         | Some parsed =>
             let* e := clusterVersionSkewVersusNodePool (anp_Name pool) parsed clusterVersion in
             Ok (optError e)
         end in
  let* active :=
    match anp_ActiveVersions pool with
    | None => Ok []
    | Some versions =>
        let* bounds := FindLowestAndHighestNodePoolVersion versions in
        match bounds with
        | (Some lowest, Some highest) =>
            let* e1 := clusterVersionSkewVersusNodePool (anp_Name pool) lowest clusterVersion in
            let* e2 := clusterVersionSkewVersusNodePool (anp_Name pool) highest clusterVersion in
            Ok (optError e1 ++ optError e2)%list
        | _ => Ok []
        end
    end in
  Ok (requested ++ active)%list.

Fixpoint AdmitClusterNodePoolsMinorVersionSkew (pools : list (option AdmissionNodePool))
    (clusterVersion : V) : result version_panic (list skew_error) :=
  match pools with
  | [] => Ok []
  | None :: rest => AdmitClusterNodePoolsMinorVersionSkew rest clusterVersion
  | Some pool :: rest =>
      let* errs := admitNodePoolSkew clusterVersion pool in
      let* more := AdmitClusterNodePoolsMinorVersionSkew rest clusterVersion in
      Ok (errs ++ more)%list
  end.

End rules.
Arguments AdmissionNodePool : clear implicits.

(** ** The extremes are the extremes *)

Section extremes.
Context {V : Type} `{SemverLaws V}.

Lemma LE_trans (u v w : V) : LT v u = false → LT w v = false → LT w u = false.
Proof.
  intros Huv Hvw. destruct (LT w u) eqn:E; [|done].
  rewrite <- Hvw. symmetry. eapply LT_GTE_trans; [exact E|]. unfold GTE. by rewrite Huv.
Qed.

Lemma LE_total (u v : V) : LT u v = true → LT v u = false.
Proof.
  intros Huv. destruct (LT v u) eqn:E; [|done].
  pose proof (LT_trans _ _ _ Huv E) as Hc. by rewrite LT_irrefl in Hc.
Qed.

(** The order of versions is the order of their release lines first. *)
Lemma LE_numbers (u v : V) :
  LT v u = false → Major u <= Major v ∧ (Major u = Major v → Minor u <= Minor v).
Proof.
  intros Hle. unfold LT in Hle. split.
  - destruct (Z.lt_ge_cases (Major v) (Major u)) as [Hl|]; [|lia].
    by rewrite (Compare_major _ _ Hl) in Hle.
  - intros Heq. destruct (Z.lt_ge_cases (Minor v) (Minor u)) as [Hl|]; [|lia].
    by rewrite (Compare_minor _ _ (eq_sym Heq) Hl) in Hle.
Qed.

Lemma findLowestAndHighest_from (vs : list V) lo hi :
  ∃ lo' hi', findLowestAndHighest (Some <$> vs) (Some lo) (Some hi) = Ok (Some lo', Some hi') ∧
    (lo' = lo ∨ lo' ∈ vs) ∧ (hi' = hi ∨ hi' ∈ vs) ∧
    LT lo lo' = false ∧ LT hi' hi = false ∧
    ∀ v, v ∈ vs → LT v lo' = false ∧ LT hi' v = false.
Proof.
  revert lo hi. induction vs as [|v vs IH]; intros lo hi.
  { exists lo, hi. rewrite !LT_irrefl. simpl. split_and!; eauto; set_solver. }
  set (lo1 := if LT v lo then v else lo). set (hi1 := if GT v hi then v else hi).
  destruct (IH lo1 hi1) as (lo' & hi' & Hr & Hlo & Hhi & Hll & Hhh & Hall).
  assert (Hlo1 : LT lo lo1 = false ∧ LT v lo1 = false).
  { unfold lo1. destruct (LT v lo) eqn:E; rewrite ?LT_irrefl; auto using LE_total. }
  assert (Hhi1 : LT hi1 hi = false ∧ LT hi1 v = false).
  { unfold hi1. rewrite GT_LT. destruct (LT hi v) eqn:E; rewrite ?LT_irrefl; auto using LE_total. }
  exists lo', hi'. split_and!.
  - rewrite fmap_cons. cbn [findLowestAndHighest pickVersion result_bind].
    unfold lo1, hi1 in Hr. destruct (LT v lo), (GT v hi); exact Hr.
  - destruct Hlo as [->|]; [|by right; right]. unfold lo1. destruct (LT v lo); [right; left|by left].
  - destruct Hhi as [->|]; [|by right; right]. unfold hi1. destruct (GT v hi); [right; left|by left].
  - eapply LE_trans; [exact Hll|apply Hlo1].
  - eapply LE_trans; [apply Hhi1|exact Hhh].
  - intros w [->|Hw]%elem_of_cons; [|by apply Hall]. split.
    + eapply LE_trans; [exact Hll|apply Hlo1].
    + eapply LE_trans; [apply Hhi1|exact Hhh].
Qed.

(** With no nil version, the two results bound all active versions and are active. *)
Lemma findLowestAndHighest_spec (vs : list V) :
  (vs = [] ∧ findLowestAndHighest (Some <$> vs) None None = Ok (None, None)) ∨
  ∃ lo hi, findLowestAndHighest (Some <$> vs) None None = Ok (Some lo, Some hi) ∧
    lo ∈ vs ∧ hi ∈ vs ∧ ∀ v, v ∈ vs → LT v lo = false ∧ LT hi v = false.
Proof.
  destruct vs as [|v vs]; [by left|right].
  destruct (findLowestAndHighest_from vs v v) as (lo & hi & Hr & Hlo & Hhi & Hll & Hhh & Hall).
  exists lo, hi. split_and!; [exact Hr|set_solver..|].
  intros w [->|Hw]%elem_of_cons; [by split|by apply Hall].
Qed.

Lemma minorAbove_false (a b : V) :
  minorAbove a b = false ↔ Major a <= Major b ∧ (Major a = Major b → Minor a <= Minor b).
Proof.
  unfold minorAbove. rewrite orb_false_iff, andb_false_iff, !Z.ltb_ge, Z.eqb_neq. lia.
Qed.

Lemma wrapU64_bounds z : 0 <= wrapU64 z < 2 ^ 64.
Proof. apply Z.mod_pos_bound. lia. Qed.

Lemma wrapU64_small z : 0 <= z < 2 ^ 64 → wrapU64 z = z.
Proof. apply Z.mod_small. Qed.

Lemma wrapU64_le z : 0 <= z → wrapU64 z <= z.
Proof. intros. apply Z.mod_le; lia. Qed.

(** ** Accepted node pool versions *)

(** What acceptance of [desired] promises, given the active versions [nps] of the
    node pool and [cps] of the control plane with the highest [hi]. *)
Record versionChangeOk (desired : V) (nps cps : list V) (hi : V) (allow : bool) : Prop := {
  vc_not_above : ∀ cp, cp ∈ cps → minorAbove desired cp = false;
  vc_within_two : Major hi = Major desired → ∀ cp, cp ∈ cps → Minor cp <= Minor desired + 2;
  vc_same_major : allow = false →
    Major hi = Major desired ∧
    ∀ np, np ∈ nps → Major np = Major desired ∧ Minor desired <= Minor np + 2;
  vc_coexist : Major hi ≠ Major desired → (∀ np, np ∈ nps → Major desired <= Major np) →
    ValidateCrossMajorNodePoolSkew desired hi = None;
  vc_upgrade : Major hi = Major desired → (∃ np, np ∈ nps ∧ Major np < Major desired) →
    ∃ np, np ∈ nps ∧ ValidateMajorUpgrade np desired = None;
}.

(** The part after the bounds of the node pool are known. *)
Lemma versionChange_accepts desired nps cps lo hi allow :
  lo ∈ cps → hi ∈ cps → (∀ v, v ∈ cps → LT v lo = false ∧ LT hi v = false) →
  ValidateNodePoolVersionChange desired (Some <$> nps) (Some lo) (Some hi) allow = Ok None →
  (∃ v, v ∈ nps ∧ EQ v desired = true) ∨ versionChangeOk desired nps cps hi allow.
Proof.
  intros Hlo Hhi Hcps Hacc. unfold ValidateNodePoolVersionChange in Hacc.
  destruct (existsb _ _) eqn:Eact.
  { left. apply existsb_elem in Eact as (o & Ho & Heq).
    apply list_elem_of_fmap in Ho as (v & -> & Hv). eauto. }
  right. clear Eact.
  assert (Hcp : ∀ cp, cp ∈ cps → Major lo <= Major cp <= Major hi ∧
    (Major lo = Major cp → Minor lo <= Minor cp) ∧ (Major cp = Major hi → Minor cp <= Minor hi)).
  { intros cp [Hl Hh]%Hcps. apply LE_numbers in Hl, Hh. lia. }
  pose proof (Minor_uint64 hi) as Hhi64. pose proof (Minor_uint64 desired) as Hd64.
  assert (Habove : minorAbove desired lo = false → ∀ cp, cp ∈ cps → minorAbove desired cp = false).
  { intros Hab cp Hc. apply minorAbove_false in Hab. apply minorAbove_false. specialize (Hcp cp Hc). lia. }
  assert (Htwo : minorAbove desired lo = false → Major desired = Major hi →
    (2 <? wrapU64 (Minor hi - Minor desired)) = false → ∀ cp, cp ∈ cps → Minor cp <= Minor desired + 2).
  { intros Hab Hm Hw cp Hc. apply minorAbove_false in Hab. pose proof (Hcp lo Hlo). specialize (Hcp cp Hc).
    rewrite wrapU64_small in Hw by lia. bool_reflect. lia. }
  unfold FindLowestAndHighestNodePoolVersion in Hacc. revert Hacc.
  pose proof (findLowestAndHighest_spec nps) as Hspec. destruct (findLowestAndHighest _ _ _) as [[l h]|];
    cbn [result_bind]; [|intros; by destruct Hspec as [[_ ?]|(? & ? & ? & _)]].
  destruct (minorAbove desired lo) eqn:Eab; [done|]. specialize (Habove eq_refl). specialize (Htwo eq_refl).
  destruct (_ && _) eqn:Ebeh; [done|].
  destruct Hspec as [[-> [= -> ->]]|(l' & h' & [= -> ->] & Hl & Hh & Hnps)].
  - destruct (Z.eqb_spec (Major desired) (Major hi)) as [Em|Em]; simpl in Ebeh |- *.
    + intros _. split; [done|auto|split; [lia|set_solver]|lia|set_solver].
    + destruct allow; simpl; [|done]. intros [= Hx]. split; [done|lia|done|done|set_solver].
  - assert (Hnp : ∀ np, np ∈ nps → Major l' <= Major np <= Major h' ∧ (Major l' = Major np → Minor l' <= Minor np)).
    { intros np [Hx Hy]%Hnps. apply LE_numbers in Hx, Hy. lia. }
    pose proof (wrapU64_le (Minor l' + 2)) as Hwrap. pose proof (Minor_uint64 l').
    destruct (Z.eqb_spec (Major desired) (Major hi)) as [Em|Em];
      destruct (Z.eqb_spec (Major desired) (Major h')) as [Eh|Eh]; simpl in Ebeh |- *.
    + specialize (Htwo Em Ebeh). destruct (Z.ltb_spec (Major l') (Major desired)); simpl.
      { destruct allow; simpl; [|done]. intros [= Hx].
        split; [done|auto|done|lia|intros _ _; by exists l']. }
      destruct (Z.ltb_spec (Major desired) (Major h')); simpl; [lia|].
      destruct (_ <? Minor desired) eqn:Es; [done|]. intros _. bool_reflect.
      split; [done|auto|intros _; split; [done|]|lia|intros _ (np & Hin & Hlt); specialize (Hnp np Hin); lia].
      intros np Hin. specialize (Hnp np Hin). lia.
    + specialize (Htwo Em Ebeh). destruct (Z.ltb_spec (Major l') (Major desired)); simpl.
      { destruct allow; simpl; [|done]. intros [= Hx].
        split; [done|auto|done|lia|intros _ _; by exists l']. }
      destruct (Z.ltb_spec (Major desired) (Major h')); simpl.
      { destruct allow; simpl; [|done]. intros [= Hx].
        split; [done|auto|done|lia|intros _ (np & Hin & Hlt); specialize (Hnp np Hin); lia]. }
      specialize (Hnp h' Hh). lia.
    + destruct allow; simpl; [|done]. intros [= Hx].
      split; [done|lia|done|done|lia].
    + destruct (Z.ltb_spec (Major l') (Major desired)); simpl.
      { destruct allow; simpl; [|done]. intros [= Hx].
        split; [done|lia|done| |lia]. intros _ Hall. specialize (Hall l' Hl). lia. }
      destruct (Z.ltb_spec (Major desired) (Major h')); simpl.
      { destruct allow; simpl; [|done]. intros [= Hx]. split; [done|lia|done|done|lia]. }
      specialize (Hnp h' Hh). lia.
Qed.

(** ** A new cluster version and the node pools *)

(** The node pool version [np] may run under a control plane [cl]. *)
Definition skewOk (np cl : V) : Prop :=
  (Major np = Major cl ∧ Minor cl <= Minor np + 2) ∨
  (Major np ≠ Major cl ∧
   minorString cl ∈ default [] (AllowControlPlaneNodePoolMajorVersionSkew !! minorString np)).

Lemma mustParse_minorString (v : V) :
  ∃ w, mustParseTolerant (minorString v) = Ok w ∧ Major w = Major v ∧ Minor w = Minor v.
Proof.
  destruct (ParseTolerant_numbers (Major v) (Minor v)) as (w & Hw & Hn);
    [apply Major_uint64|apply Minor_uint64|].
  exists w. unfold mustParseTolerant, minorString. by rewrite Hw.
Qed.

Lemma EQ_release_lines (v w : V) :
  ∃ rv rw, mustParseTolerant (minorString v) = Ok rv ∧ mustParseTolerant (minorString w) = Ok rw ∧
    (EQ rv rw = true ↔ Major v = Major w ∧ Minor v = Minor w).
Proof.
  destruct (mustParse_minorString v) as (rv & Hv & Hv1 & Hv2).
  destruct (mustParse_minorString w) as (rw & Hw & Hw1 & Hw2).
  exists rv, rw. split_and!; [done..|]. split.
  - unfold EQ. destruct (semver_Compare rv rw) eqn:E; try done. apply Compare_numbers in E. lia.
  - intros [Em Ei]. assert (Hs : minorString v = minorString w) by (unfold minorString; congruence).
    rewrite Hs, Hw in Hv. injection Hv as <-. apply EQ_refl.
Qed.

(** The check never panics, and it accepts exactly the allowed distances. *)
Lemma clusterVersionSkew_spec name (np cl : V) :
  Minor np < 2 ^ 63 → Minor cl < 2 ^ 63 →
  ∃ e, clusterVersionSkewVersusNodePool name np cl = Ok e ∧ (e = None ↔ skewOk np cl).
Proof.
  intros Hn Hc. unfold clusterVersionSkewVersusNodePool, skewOk.
  destruct (EQ_release_lines np cl) as (rv & rw & -> & -> & Heq). cbn [result_bind].
  pose proof (Minor_uint64 np). pose proof (Minor_uint64 cl).
  destruct (EQ rv rw). { exists None. split; [done|]. split; [intros _; left; lia|done]. }
  rewrite !(wrap64_id (Minor np)), !(wrap64_id (Minor cl)), wrap64_id by (rewrite in64_unfold; lia).
  destruct (Z.eqb_spec (Major np) (Major cl)) as [Em|Em].
  - destruct (_ <=? _) eqn:E; bool_reflect; (eexists; split; [done|]); split; try done; [lia|].
    intros [|]; [lia|naive_solver].
  - destruct (existsb _ _) eqn:E; (eexists; split; [done|]).
    + apply existsb_elem in E as (x & Hx & ->%String.eqb_eq). split; [auto|done].
    + split; [done|]. intros [[? _]|[_ Hin]]; [done|]. exfalso.
      assert (existsb (String.eqb (minorString cl)) (default []
        (AllowControlPlaneNodePoolMajorVersionSkew !! minorString np)) = true) as Ht; [|congruence].
      apply existsb_elem. exists (minorString cl). by rewrite String.eqb_refl.
Qed.

Lemma optError_nil {E} (e : option E) : optError e = [] ↔ e = None.
Proof. by destruct e. Qed.

(** An accepted upgrade path keeps the line or moves one minor version on, or takes
    the listed step into the next major version. *)
Definition oneMinorStep (previous desired : V) : Prop :=
  (Major desired = Major previous ∧ Minor desired <= Minor previous + 1) ∨
  (Major desired ≠ Major previous ∧ AllowMajorUpgradePaths !! minorString previous = Some (minorString desired)).

Lemma minorString_nonempty (v : V) : minorString v ≠ EmptyString.
Proof. unfold minorString. destruct (Itoa (Major v)); discriminate. Qed.

Lemma oneMinorSkew_sound previousID newID (previous desired : V) :
  previousID ≠ EmptyString → newID ≠ EmptyString →
  ParseTolerant previousID = Some previous → ParseTolerant newID = Some desired →
  OpenshiftVersionAtMostOneMinorSkew (V := V) previousID newID = None → oneMinorStep previous desired.
Proof.
  intros Hp Hn Hpp Hpn. unfold OpenshiftVersionAtMostOneMinorSkew, oneMinorStep.
  rewrite (proj2 (String.eqb_neq _ _) Hp), (proj2 (String.eqb_neq _ _) Hn), Hpp, Hpn. cbn [orb].
  destruct (Z.eqb_spec (Major desired) (Major previous)) as [Em|Em]; cbn [negb].
  - destruct (Z.ltb_spec (wrapU64 (Minor previous + 1)) (Minor desired)); [done|]. intros _. left.
    pose proof (Minor_uint64 previous). pose proof (wrapU64_le (Minor previous + 1)). lia.
  - destruct (negb _); [done|]. destruct (String.eqb_spec (minorString desired)
      (default EmptyString (AllowMajorUpgradePaths !! minorString previous))) as [E|E]; [|done].
    intros _. right. split; [done|]. destruct (AllowMajorUpgradePaths !! minorString previous); simpl in E; [congruence|].
    by apply minorString_nonempty in E.
Qed.

(** The table of the release lines that may run together across major versions,
    as numbers. *)
Definition coexistingLines : list (Z * Z * (Z * Z)) :=
  [((4, 21), (5, 0)); ((4, 22), (5, 0)); ((4, 22), (5, 1)); ((4, 23), (5, 1)); ((4, 23), (5, 2))].

Lemma coexist_spec (np cl : V) :
  minorString cl ∈ default [] (AllowControlPlaneNodePoolMajorVersionSkew !! minorString np) ↔
  ((Major np, Minor np), (Major cl, Minor cl)) ∈ coexistingLines.
Proof.
  split.
  - destruct (_ !! minorString np) as [lines|] eqn:El; simpl; [|set_solver]. intros Hcl.
    unfold AllowControlPlaneNodePoolMajorVersionSkew in El.
    rewrite !lookup_insert_Some, lookup_singleton_Some in El.
    destruct El as [[Hn <-]|[_ [[Hn <-]|[_ [Hn <-]]]]]; symmetry in Hn;
      [apply (minorString_numbers np 4 21) in Hn; [|reflexivity]
      |apply (minorString_numbers np 4 22) in Hn; [|reflexivity]
      |apply (minorString_numbers np 4 23) in Hn; [|reflexivity]];
      destruct Hn as [-> ->]; rewrite !elem_of_cons, elem_of_nil in Hcl;
      repeat (destruct Hcl as [Hcl|Hcl]); try done;
      first [apply (minorString_numbers cl 5 0) in Hcl; [|reflexivity]
            |apply (minorString_numbers cl 5 1) in Hcl; [|reflexivity]
            |apply (minorString_numbers cl 5 2) in Hcl; [|reflexivity]];
      destruct Hcl as [-> ->]; unfold coexistingLines; set_solver.
  - unfold coexistingLines. rewrite !elem_of_cons, elem_of_nil, !pair_equal_spec.
    unfold minorString. intros Hin. repeat destruct Hin as [Hin|Hin]; try done;
      destruct Hin as [[-> ->] [-> ->]]; apply (bool_decide_unpack _); vm_compute; exact I.
Qed.

Lemma coexistingLines_bounds a b c d :
  ((a, b), (c, d)) ∈ coexistingLines ↔ a = 4 ∧ c = 5 ∧ 21 <= b <= 23 ∧ 0 <= d ∧ b - 22 <= d <= b - 21.
Proof.
  unfold coexistingLines. rewrite !elem_of_cons, elem_of_nil, !pair_equal_spec. split.
  - intros Hin. repeat destruct Hin as [Hin|Hin]; try done; destruct Hin as [[-> ->] [-> ->]]; lia.
  - intros (-> & -> & Hb & Hd).
    assert (b = 21 ∨ b = 22 ∨ b = 23) as [-> | [-> | ->]] by lia;
      [left; lia|destruct (Z.eq_dec d 0) as [-> |]; [right; left; lia|right; right; left; lia]
      |destruct (Z.eq_dec d 1) as [-> |]; [right; right; right; left; lia|right; right; right; right; left; lia]].
Qed.

(** [skewOk] depends on the release line of the node pool only. *)
Lemma skewOk_line (v w cl : V) : Major v = Major w → Minor v = Minor w → skewOk v cl → skewOk w cl.
Proof. unfold skewOk, minorString. by intros -> ->. Qed.

(** Between two release lines of one major version that suit the control plane,
    every release line suits it. *)
Lemma skewOk_between (lo v hi cl : V) :
  Major lo = Major v → Major v = Major hi → Minor lo <= Minor v <= Minor hi →
  skewOk lo cl → skewOk hi cl → skewOk v cl.
Proof.
  unfold skewOk. rewrite !coexist_spec, !coexistingLines_bounds. intros -> -> Hm [[Hl Hlo]|[Hl Hlo]] [[Hh Hhi]|[Hh Hhi]];
    [left; lia|congruence..|right; split; [done|lia]].
Qed.

(** A release line of the control plane's major version that is at least one that
    suits the control plane suits it: lines of an older major version run only
    under the first three of the next. *)
Lemma skewOk_same_major (lo v cl : V) :
  Major v = Major cl → Major lo <= Major v → (Major lo = Major v → Minor lo <= Minor v) →
  skewOk lo cl → skewOk v cl.
Proof.
  unfold skewOk. rewrite coexist_spec, coexistingLines_bounds. intros Hv Hmaj Hmin [[Hl Hlo]|[Hl Hlo]]; left; split; [done|lia|done|].
  pose proof (Minor_uint64 v). lia.
Qed.

(** The requested version of a node pool, where it has one, is a version and may run
    under the control plane [cl]. *)
Definition requestedSuits (cl : V) (versionID : string) : Prop :=
  versionID ≠ EmptyString →
  ∃ v, ParseTolerant versionID = Some v ∧ (Minor v < 2 ^ 63 → skewOk v cl).

(** The active versions of a node pool suit the control plane [cl]: the lowest and
    the highest may run under it, and so may all that have its major version, and
    all together when they share one major version. *)
Record activeSuits (cl : V) (vs : list V) : Prop := {
  as_lowest : ∀ v, v ∈ vs → (∀ w, w ∈ vs → LT w v = false) → skewOk v cl;
  as_highest : ∀ v, v ∈ vs → (∀ w, w ∈ vs → LT v w = false) → skewOk v cl;
  as_same_major : ∀ v, v ∈ vs → Major v = Major cl → skewOk v cl;
  as_one_major : (∀ v w, v ∈ vs → w ∈ vs → Major v = Major w) → ∀ v, v ∈ vs → skewOk v cl;
}.

Lemma admitNodePoolSkew_parts (cl : V) pool :
  admitNodePoolSkew cl pool = Ok [] →
  (anp_VersionID pool = EmptyString ∨ ∃ v, ParseTolerant (anp_VersionID pool) = Some v ∧
     clusterVersionSkewVersusNodePool (anp_Name pool) v cl = Ok None) ∧
  ∀ vs lo hi, anp_ActiveVersions pool = Some vs →
    FindLowestAndHighestNodePoolVersion vs = Ok (Some lo, Some hi) →
    clusterVersionSkewVersusNodePool (anp_Name pool) lo cl = Ok None ∧
    clusterVersionSkewVersusNodePool (anp_Name pool) hi cl = Ok None.
Proof.
  unfold admitNodePoolSkew. rewrite result_bind_ok. intros (req & Hreq & Hrest).
  apply result_bind_ok in Hrest as (act & Hact & [= [-> ->]%app_eq_nil]). split.
  - destruct (String.eqb_spec (anp_VersionID pool) EmptyString); [by left|right].
    destruct (ParseTolerant _) as [v|]; [|done]. exists v. split; [done|].
    apply result_bind_ok in Hreq as (e & -> & [= ->%optError_nil]). done.
  - intros vs lo hi Hvs Hb. rewrite Hvs, Hb in Hact. cbn [result_bind] in Hact.
    apply result_bind_ok in Hact as (e1 & -> & Hact). apply result_bind_ok in Hact as (e2 & -> & Hact).
    injection Hact as [->%optError_nil ->%optError_nil]%app_eq_nil. done.
Qed.

Lemma clusterVersionSkew_sound name (np cl : V) :
  Minor np < 2 ^ 63 → Minor cl < 2 ^ 63 →
  clusterVersionSkewVersusNodePool name np cl = Ok None → skewOk np cl.
Proof.
  intros Hn Hc He. destruct (clusterVersionSkew_spec name np cl Hn Hc) as (e & He' & Hiff).
  rewrite He in He'. injection He' as <-. by apply Hiff.
Qed.

(** An accepted cluster version suits a node pool, by its requested version and by
    its active versions. *)
Lemma admitNodePoolSkew_requested (cl : V) pool :
  Minor cl < 2 ^ 63 → admitNodePoolSkew cl pool = Ok [] → requestedSuits cl (anp_VersionID pool).
Proof.
  intros Hcl [[He|(v & Hp & Hv)] _]%admitNodePoolSkew_parts Hne; [done|].
  exists v. split; [done|]. intros Hb. by eapply clusterVersionSkew_sound.
Qed.

Lemma admitNodePoolSkew_active (cl : V) pool vs :
  Minor cl < 2 ^ 63 → anp_ActiveVersions pool = Some (Some <$> vs) → (∀ v, v ∈ vs → Minor v < 2 ^ 63) →
  admitNodePoolSkew cl pool = Ok [] → activeSuits cl vs.
Proof.
  intros Hcl Hact Hvs [_ Hadm]%admitNodePoolSkew_parts.
  destruct (findLowestAndHighest_spec vs) as [[-> _]|(lo & hi & Hr & Hlo & Hhi & Hb)]; [split; set_solver|].
  destruct (Hadm _ lo hi Hact Hr) as [Hl Hh].
  apply clusterVersionSkew_sound in Hl; [|by auto..]. apply clusterVersionSkew_sound in Hh; [|by auto..].
  split.
  - intros v Hv Hmin. apply (skewOk_line lo); [..|exact Hl];
      pose proof (LE_numbers _ _ (Hmin lo Hlo)); pose proof (LE_numbers _ _ (proj1 (Hb v Hv))); lia.
  - intros v Hv Hmax. apply (skewOk_line hi); [..|exact Hh];
      pose proof (LE_numbers _ _ (Hmax hi Hhi)); pose proof (LE_numbers _ _ (proj2 (Hb v Hv))); lia.
  - intros v Hv Hm. pose proof (LE_numbers _ _ (proj1 (Hb v Hv))).
    apply (skewOk_same_major lo); tauto.
  - intros Hone v Hv. destruct (Hb v Hv) as [H1%LE_numbers H2%LE_numbers].
    pose proof (Hone lo v Hlo Hv). pose proof (Hone v hi Hv Hhi).
    apply (skewOk_between lo v hi); [lia..|exact Hl|exact Hh].
Qed.

Lemma AdmitClusterNodePools_each (cl : V) pools pool :
  AdmitClusterNodePoolsMinorVersionSkew pools cl = Ok [] → Some pool ∈ pools →
  admitNodePoolSkew cl pool = Ok [].
Proof.
  induction pools as [|[p|] pools IH]; simpl; intros Hok Hin; [set_solver| |set_solver].
  apply result_bind_ok in Hok as (errs & He & Hok). apply result_bind_ok in Hok as (more & Hm & [= Hn]).
  apply app_eq_nil in Hn as [-> ->].
  apply elem_of_cons in Hin as [[= ->]|Hin]; [done|by apply IH].
Qed.

End extremes.
