(* ===== verification/RolloutStatus.v ===== *)
(** * Control plane version rollout: status collection

    [status_collector_controller.go] and [rollout_references.go]: the counts of
    clusters per exact version, the number of clusters that reference a channel,
    and the controller that publishes them.  The database is an argument; what a
    controller writes is a list of events. *)
From S2P Require Import Prelude GoStrings RolloutTypes.

Local Open Scope string_scope.
Local Open Scope Z_scope.

(** ** The database *)

(** The error of a lister's [Get]. *)
Inductive getError : Type := GetNotFound | GetFailed (e : string).

(** The errors of a write, as the code tells them apart. *)
Inductive dbError : Type := PreconditionFailed | ConflictError | NotFoundError | OtherError (e : string).

Definition coordinates : Type := string * string * string.

Inductive dbOp (V : Type) : Type :=
  | ReplaceRollout (replacement observed : Rollout V)
  | ReplaceCluster (coords : coordinates) (replacement : ServiceProviderCluster V)
  | CreateRollout (channel : string) (rollout : Rollout V)
  | DeleteRollout (channel etag : string).
Arguments ReplaceRollout {V}.
Arguments ReplaceCluster {V}.
Arguments CreateRollout {V}.
Arguments DeleteRollout {V}.

(** An attempted write and whether it took effect. *)
Record dbEvent (V : Type) := { ev_op : dbOp V; ev_done : bool }.
Arguments ev_op {V}.
Arguments ev_done {V}.

(** The answers of the database; they may depend on everything attempted before.
    A replaced rollout is returned as it was stored. *)
Record Database (V : Type) := {
  db_replaceRollout : list (dbEvent V) → Rollout V → Rollout V → result dbError (Rollout V);
  db_replaceCluster : list (dbEvent V) → coordinates → ServiceProviderCluster V → option dbError;
  db_createRollout : list (dbEvent V) → string → Rollout V → option dbError;
  db_deleteRollout : list (dbEvent V) → string → string → option dbError;
}.
Arguments db_replaceRollout {V}.
Arguments db_replaceCluster {V}.
Arguments db_createRollout {V}.
Arguments db_deleteRollout {V}.

Section operations.
Context {V : Type}.
Implicit Types log : list (dbEvent V).

Definition attempt log (op : dbOp V) (done : bool) : list (dbEvent V) :=
  (log ++ [{| ev_op := op; ev_done := done |}])%list.

Definition runReplaceRollout (db : Database V) log (replacement observed : Rollout V) :
    list (dbEvent V) * result dbError (Rollout V) :=
  let answer := db_replaceRollout db log replacement observed in
  (attempt log (ReplaceRollout replacement observed) (is_ok answer), answer).

Definition runReplaceCluster (db : Database V) log coords (replacement : ServiceProviderCluster V) :
    list (dbEvent V) * option dbError :=
  let answer := db_replaceCluster db log coords replacement in
  (attempt log (ReplaceCluster coords replacement) (bool_decide (answer = None)), answer).

End operations.

(** ** Counting clusters *)

Record rolloutCounts := {
  Desired : gmap string Z;
  Mismatched : gmap string Z;
  Failed : gmap string Z;
  Achieved : gmap string Z;
  Successful : gmap string Z;
}.

(** Reading a missing key gives zero; [m[k]++] writes the key. *)
Definition count (m : gmap string Z) (k : string) : Z := default 0 (m !! k).
Definition increment (k : string) (m : gmap string Z) : gmap string Z :=
  <[k := wrap64 (count m k + 1)]> m.

Section counts.
Context {V : Type} `{Semver V}.

(** One iteration of the loop. *)
Definition countCluster (config : RolloutConfig V) (now : Z) (counts : rolloutCounts)
    (c : ServiceProviderCluster V) : rolloutCounts :=
  let desired := spc_DesiredVersion c in
  let achievedEntry := earliestActiveVersionEntry (spc_ActiveVersions c) in
  let achieved := achievedEntry ≫= av_Version in
  let mismatched :=
    match desired, achieved with
    | Some d, Some a => negb (EQ a d)
    | Some _, None => true
    | None, _ => false
    end in
  let failed :=
    match desired with
    | Some d =>
        mismatched && match spc_DesiredVersionLastTransitionTime c with
        | Some since =>
            negb (IsZero since)
            && (MaxUpgradeDurationForMinor config (minorString d) <? timeSub now since)
        | None => false
        end
    | None => false
    end in
  let successful :=
    match achievedEntry with
    | Some entry =>
        negb (IsZero (av_LastTransitionTime entry))
        && (MinVersionReadyDuration config <? timeSub now (av_LastTransitionTime entry))
    | None => false
    end in
  let bump (b : bool) (v : option V) (m : gmap string Z) :=
    match v with
    | Some v => if b then increment (semver_String v) m else m
    | None => m
    end in
  {| Desired := bump true desired (Desired counts);
     Mismatched := bump mismatched desired (Mismatched counts);
     Failed := bump failed desired (Failed counts);
     Achieved := bump true achieved (Achieved counts);
     Successful := bump successful achieved (Successful counts) |}.

Definition computeRolloutStatusCounts (clusters : list (ServiceProviderCluster V))
    (config : RolloutConfig V) (now : Z) : rolloutCounts :=
  fold_left (countCluster config now) clusters
    {| Desired := ∅; Mismatched := ∅; Failed := ∅; Achieved := ∅; Successful := ∅ |}.

(** ** References to a channel *)

Inductive reference_error : Type :=
  | ErrInvalidVersion (version : string)
  | ErrUnsupportedGroup (group : string)
  | ErrClusterWithoutID
  | ErrWithoutParent
  | ErrNoChannelGroup (id : string).

Definition references : Type := gmap VersionProfile (gset string) * list reference_error.

(** The closure [add], with its error appended by the caller. *)
Definition addReference (clusterID group : string) (refs : references) (version : string) :
    references :=
  match ParseTolerant version with
  | None => (refs.1, (refs.2 ++ [ErrInvalidVersion version])%list)
  | Some v =>
      match RolloutVersionFromName (V := V) (group +:+ "-" +:+ minorString v) with
      | Err _ => (refs.1, (refs.2 ++ [ErrUnsupportedGroup group])%list)
      | Ok profile =>
          (<[profile := {[clusterID]} ∪ default ∅ (refs.1 !! profile)]> refs.1, refs.2)
      end
  end.

(** The versions the two loops add for a cluster, in the order of the calls. *)
Definition clusterReferences (cluster : Cluster V) : list string :=
  (vp_ID (cl_Version cluster)
    :: match cl_ControlPlaneExactVersion cluster with
       | Some exact => [semver_String exact]
       | None => []
       end
    ++ cl_ActiveVersions cluster)%list.

Definition serviceProviderReferences (c : ServiceProviderCluster V) : list string :=
  omap (fmap semver_String)
    (spc_DesiredVersion c :: ExactVersion (spc_PinnedVersion c) :: (av_Version <$> spc_ActiveVersions c)).

Definition scanCluster (state : references * gmap string string) (cluster : Cluster V) :
    references * gmap string string :=
  let '(refs, groups) := state in
  let group := vp_ChannelGroup (cl_Version cluster) in
  match cl_ID cluster with
  | None => ((refs.1, (refs.2 ++ [ErrClusterWithoutID])%list), groups)
  | Some id =>
      let clusterID := ToLower id in
      (fold_left (addReference clusterID group) (clusterReferences cluster) refs,
       <[clusterID := group]> groups)
  end.

Definition scanServiceProviderCluster (groups : gmap string string) (refs : references)
    (c : ServiceProviderCluster V) : references :=
  match parentKey c with
  | None => (refs.1, (refs.2 ++ [ErrWithoutParent])%list)
  | Some clusterID =>
      match groups !! clusterID with
      | Some group =>
          if String.eqb group EmptyString
          then (refs.1, (refs.2 ++ [ErrNoChannelGroup clusterID])%list)
          else fold_left (addReference clusterID group) (serviceProviderReferences c) refs
      | None => (refs.1, (refs.2 ++ [ErrNoChannelGroup clusterID])%list)
      end
  end.

Definition collectRolloutReferences (clusterList : list (Cluster V))
    (serviceProviderClusters : list (ServiceProviderCluster V)) :
    gmap VersionProfile Z * list reference_error :=
  let '(refs, groups) := fold_left scanCluster clusterList ((∅, []), ∅) in
  let refs := fold_left (scanServiceProviderCluster groups) serviceProviderClusters refs in
  ((λ clusterIDs : gset string, Z.of_nat (size clusterIDs)) <$> refs.1, refs.2).

(** ** The status collector *)

Definition nilIfEmpty (m : gmap string Z) : gmap string Z :=
  if bool_decide (size m = 0%nat) then ∅ else m.

Inductive collector_error : Type :=
  | ErrGetRollout (e : string)
  | ErrListClusters (e : string)
  | ErrListServiceProviderClusters (e : string)
  | ErrReferences (errs : list reference_error)
  | ErrMembership (e : channel_error)
  | ErrReplaceRollout (e : dbError).

Definition publishedStatus (rollout : Rollout V) (refs : gmap VersionProfile Z)
    (counts : rolloutCounts) : Rollout V := {|
  ro_CosmosETag := ro_CosmosETag rollout;
  ro_Version := ro_Version rollout;
  ro_BestExactVersion := ro_BestExactVersion rollout;
  ro_Status := {|
    rs_ReferencingClusterCount := Some (default 0 (refs !! ro_Version rollout));
    rs_LastAssignmentTime := rs_LastAssignmentTime (ro_Status rollout);
    rs_Conditions := rs_Conditions (ro_Status rollout);
    rs_Desired := nilIfEmpty (Desired counts);
    rs_Mismatched := nilIfEmpty (Mismatched counts);
    rs_Failed := nilIfEmpty (Failed counts);
    rs_Achieved := nilIfEmpty (Achieved counts);
    rs_Successful := nilIfEmpty (Successful counts) |} |}.

Definition statusCollectorSyncOnce (db : Database V) (config : RolloutConfig V) (channel : string)
    (getRollout : result getError (Rollout V)) (listClusters : result string (list (Cluster V)))
    (listServiceProviderClusters : result string (list (ServiceProviderCluster V))) (now : Z) :
    list (dbEvent V) * option collector_error :=
  match getRollout with
  | Err GetNotFound => ([], None)
  | Err (GetFailed e) => ([], Some (ErrGetRollout e))
  | Ok rollout =>
      match listClusters with
      | Err e => ([], Some (ErrListClusters e))
      | Ok clusters =>
          match listServiceProviderClusters with
          | Err e => ([], Some (ErrListServiceProviderClusters e))
          | Ok serviceProviderClusters =>
              match collectRolloutReferences clusters serviceProviderClusters with
              | (_, (_ :: _) as errs) => ([], Some (ErrReferences errs))
              | (refs, []) =>
                  match filterServiceProviderClustersForChannel clusters serviceProviderClusters channel with
                  | Err e => ([], Some (ErrMembership e))
                  | Ok matched =>
                      let counts := computeRolloutStatusCounts matched config now in
                      let replacement := publishedStatus rollout refs counts in
                      if bool_decide (rollout = replacement) then ([], None)
                      else match runReplaceRollout db [] replacement rollout with
                           | (log, Ok _) => (log, None)
                           | (log, Err PreconditionFailed) => (log, None)
                           | (log, Err e) => (log, Some (ErrReplaceRollout e))
                           end
                  end
              end
          end
      end
  end.

End counts.

(** ** The counts are the numbers of clusters *)

Definition countb {A} (p : A → bool) (l : list A) : Z := Z.of_nat (length (List.filter p l)).

Lemma countb_nonneg {A} (p : A → bool) l : 0 <= countb p l.
Proof. unfold countb. lia. Qed.

Lemma countb_cons {A} (p : A → bool) a l : countb p (a :: l) = (if p a then 1 else 0) + countb p l.
Proof. unfold countb. simpl. destruct (p a); simpl; lia. Qed.

Lemma countb_le_length {A} (p : A → bool) l : countb p l <= Z.of_nat (length l).
Proof. induction l as [|a l IH]; [done|]. rewrite countb_cons. simpl. destruct (p a); lia. Qed.

Lemma countb_impl {A} (p q : A → bool) l :
  (∀ a, a ∈ l → p a = true → q a = true) → countb p l <= countb q l.
Proof.
  induction l as [|a l IH]; intros Hpq; [done|]. rewrite !countb_cons.
  pose proof (IH ltac:(set_solver)). pose proof (Hpq a ltac:(set_solver)).
  destruct (p a), (q a); naive_solver lia.
Qed.

Lemma countb_fmap {A B} (p : B → bool) (f : A → B) l : countb p (f <$> l) = countb (λ a, p (f a)) l.
Proof. induction l as [|a l IH]; [done|]. by rewrite fmap_cons, !countb_cons, IH. Qed.

(** Counting by key: the loop body increments at most one key per element. *)
Definition countKeys {A} (f : A → option string) (l : list A) (m : gmap string Z) : gmap string Z :=
  fold_left (λ m a, match f a with Some k => increment k m | None => m end) l m.

Lemma countKeys_count {A} (f : A → option string) l m k :
  0 <= count m k → count m k + Z.of_nat (length l) < 2 ^ 63 →
  count (countKeys f l m) k = count m k + countb (λ a, bool_decide (f a = Some k)) l.
Proof.
  revert m. induction l as [|a l IH]; intros m H0 Hb; simpl in *; [unfold countb; simpl; lia|].
  rewrite countb_cons. destruct (f a) as [k'|] eqn:E.
  - assert (Hc : count (increment k' m) k = count m k + if bool_decide (Some k' = Some k) then 1 else 0).
    { unfold increment. unfold count at 1. destruct (decide (k' = k)) as [->|Hne].
      - rewrite lookup_insert_eq, bool_decide_true by done. simpl.
        rewrite wrap64_id; [done|]. rewrite in64_unfold. lia.
      - rewrite lookup_insert_ne, bool_decide_false by congruence. unfold count. lia. }
    rewrite IH; rewrite Hc; destruct (bool_decide _); lia.
  - rewrite bool_decide_false by done. rewrite IH; lia.
Qed.

Section counting.
Context {V : Type} `{Semver V}.
Implicit Types c : ServiceProviderCluster V.

(** What each map counts, cluster by cluster: the key a cluster adds to. *)
Definition achievedVersion c : option V := earliestActiveVersion (spc_ActiveVersions c).

Definition isMismatched c : bool :=
  match spc_DesiredVersion c, achievedVersion c with
  | Some d, Some a => negb (EQ a d)
  | Some _, None => true
  | None, _ => false
  end.

Definition heldLong (config : RolloutConfig V) (now : Z) c : bool :=
  match earliestActiveVersionEntry (spc_ActiveVersions c) with
  | Some entry =>
      negb (IsZero (av_LastTransitionTime entry))
      && (MinVersionReadyDuration config <? timeSub now (av_LastTransitionTime entry))
  | None => false
  end.

Definition overdue (config : RolloutConfig V) (now : Z) c : bool :=
  match spc_DesiredVersion c, spc_DesiredVersionLastTransitionTime c with
  | Some d, Some since =>
      negb (IsZero since) && (MaxUpgradeDurationForMinor config (minorString d) <? timeSub now since)
  | _, _ => false
  end.

Definition desiresAt (k : string) c : bool :=
  bool_decide (semver_String <$> spc_DesiredVersion c = Some k).
Definition achievedAt (k : string) c : bool :=
  bool_decide (semver_String <$> achievedVersion c = Some k).

(** The fold over clusters is five independent counts. *)
Lemma computeRolloutStatusCounts_keys (clusters : list (ServiceProviderCluster V)) config now :
  let guardKey (b : bool) (k : option string) := if b then k else None in
  let desired c := semver_String <$> spc_DesiredVersion c in
  let achieved c := semver_String <$> achievedVersion c in
  computeRolloutStatusCounts clusters config now = {|
    Desired := countKeys desired clusters ∅;
    Mismatched := countKeys (λ c, guardKey (isMismatched c) (desired c)) clusters ∅;
    Failed := countKeys (λ c, guardKey (isMismatched c && overdue config now c) (desired c)) clusters ∅;
    Achieved := countKeys achieved clusters ∅;
    Successful := countKeys (λ c, guardKey (heldLong config now c) (achieved c)) clusters ∅ |}.
Proof.
  intros guardKey desired achieved. unfold computeRolloutStatusCounts.
  generalize (∅ : gmap string Z) at 1 6 as m1. generalize (∅ : gmap string Z) at 1 5 as m2.
  generalize (∅ : gmap string Z) at 1 4 as m3. generalize (∅ : gmap string Z) at 1 3 as m4.
  generalize (∅ : gmap string Z) as m5.
  induction clusters as [|c clusters IH]; intros; [done|]. simpl. rewrite <- IH. f_equal.
  unfold countCluster, guardKey, desired, achieved, isMismatched, heldLong, overdue, achievedVersion,
    earliestActiveVersion. simpl.
  destruct (earliestActiveVersionEntry _) as [[[a|] st t]|] eqn:Ea; simpl.
  all: destruct (spc_DesiredVersion c); simpl; repeat case_match; simplify_eq; done.
Qed.

(** Each count is the number of clusters of its kind. *)
Lemma counts_exact (clusters : list (ServiceProviderCluster V)) config now k :
  Z.of_nat (length clusters) < 2 ^ 63 →
  let counts := computeRolloutStatusCounts clusters config now in
  count (Desired counts) k = countb (desiresAt k) clusters ∧
  count (Mismatched counts) k = countb (λ c, desiresAt k c && isMismatched c) clusters ∧
  count (Failed counts) k
    = countb (λ c, desiresAt k c && isMismatched c && overdue config now c) clusters ∧
  count (Achieved counts) k = countb (achievedAt k) clusters ∧
  count (Successful counts) k = countb (λ c, achievedAt k c && heldLong config now c) clusters.
Proof.
  intros Hlen counts. unfold counts. rewrite computeRolloutStatusCounts_keys. simpl.
  assert (Hk : ∀ f, count (countKeys f clusters ∅) k = countb (λ c, bool_decide (f c = Some k)) clusters).
  { intros f. rewrite countKeys_count; unfold count; rewrite lookup_empty; simpl; lia. }
  assert (Hext : ∀ p q : ServiceProviderCluster V → bool, (∀ c, p c = q c) → countb p clusters = countb q clusters).
  { intros p q Hpq. unfold countb. f_equal. f_equal. apply List.filter_ext. done. }
  rewrite !Hk. unfold desiresAt, achievedAt.
  split_and!; [done|apply Hext; intros c..|done|apply Hext; intros c].
  - destruct (isMismatched c); [by rewrite andb_true_r|by rewrite andb_false_r].
  - rewrite <- andb_assoc. destruct (_ && _); [by rewrite andb_true_r|by rewrite andb_false_r].
  - destruct (heldLong _ _ c); [by rewrite andb_true_r|by rewrite andb_false_r].
Qed.

End counting.

(** ** References are complete when no error is reported *)

Arguments clusterReferences : simpl never.
Arguments serviceProviderReferences : simpl never.

Section references.
Context {V : Type} `{Semver V}.

(** [refs'] knows every reference of [refs] and reports no fewer errors. *)
Definition refsLe (refs refs' : references) : Prop :=
  (∀ p id, id ∈ default ∅ (refs.1 !! p) → id ∈ default ∅ (refs'.1 !! p)) ∧
  (refs'.2 = [] → refs.2 = []).

#[export] Instance refsLe_preorder : PreOrder refsLe.
Proof. split; [done|]. intros r1 r2 r3 [H1 H1'] [H2 H2']. split; auto. Qed.

Lemma refsLe_error refs e : refsLe refs (refs.1, (refs.2 ++ [e])%list).
Proof. split; [done|]. simpl. intros Hn. by apply app_eq_nil in Hn as [? _]. Qed.

Lemma addReference_le id group refs version :
  refsLe refs (addReference (V := V) id group refs version).
Proof.
  unfold addReference. destruct (ParseTolerant version); [|apply refsLe_error].
  destruct (RolloutVersionFromName _) as [profile|]; [|apply refsLe_error].
  split; [|done]. intros p i Hi. simpl. destruct (decide (p = profile)) as [->|].
  - rewrite lookup_insert_eq. simpl. set_solver.
  - by rewrite lookup_insert_ne.
Qed.

Lemma fold_refsLe {A} (f : references → A → references) l refs :
  (∀ r a, refsLe r (f r a)) → refsLe refs (fold_left f l refs).
Proof.
  intros Hf. revert refs. induction l as [|a l IH]; intros refs; simpl; [done|].
  etransitivity; [apply Hf|apply IH].
Qed.

(** [version] of the cluster [id] in [group] is known to [refs]. *)
Definition referenced (refs : references) (id group version : string) : Prop :=
  ∃ (v : V) profile, ParseTolerant version = Some v ∧
    RolloutVersionFromName (V := V) (group +:+ "-" +:+ minorString v) = Ok profile ∧
    id ∈ default ∅ (refs.1 !! profile).

Lemma referenced_le refs refs' id group version :
  refsLe refs refs' → referenced refs id group version → referenced refs' id group version.
Proof. intros [Hle _] (v & p & ? & ? & ?). exists v, p. auto. Qed.

Lemma addReference_referenced id group refs version :
  (addReference (V := V) id group refs version).2 = [] →
  referenced (addReference (V := V) id group refs version) id group version.
Proof.
  unfold addReference, referenced. destruct (ParseTolerant version) as [v|] eqn:Ev; simpl.
  2: { intros Hn. by apply app_eq_nil in Hn as [_ Hn]. }
  destruct (RolloutVersionFromName (V := V) (group +:+ "-" +:+ minorString v)) as [p|e] eqn:Ep; simpl.
  - intros _. exists v, p. split_and!; [done..|]. rewrite lookup_insert_eq. simpl. set_solver.
  - intros Hn. by apply app_eq_nil in Hn as [_ Hn].
Qed.

Lemma fold_addReference_referenced id group versions refs version :
  version ∈ versions → (fold_left (addReference (V := V) id group) versions refs).2 = [] →
  referenced (fold_left (addReference (V := V) id group) versions refs) id group version.
Proof.
  revert refs. induction versions as [|w versions IH]; intros refs Hin Hok; [set_solver|].
  simpl in *. apply elem_of_cons in Hin as [->|Hin]; [|by apply IH].
  pose proof (fold_refsLe (addReference (V := V) id group) versions
    (addReference (V := V) id group refs w) (addReference_le id group)) as Hle.
  eapply referenced_le; [exact Hle|]. apply addReference_referenced. by apply Hle.
Qed.

Lemma scanCluster_le state cluster : refsLe state.1 (scanCluster (V := V) state cluster).1.
Proof.
  destruct state as [refs groups]. unfold scanCluster. destruct (cl_ID cluster) as [id|]; simpl.
  - apply (fold_refsLe (addReference (ToLower id) _) (clusterReferences cluster)).
    intros. apply addReference_le.
  - apply refsLe_error.
Qed.

Lemma fold_scanCluster_le clusters state :
  refsLe state.1 (fold_left (scanCluster (V := V)) clusters state).1.
Proof.
  revert state. induction clusters as [|c l IH]; intros state; simpl; [done|].
  etransitivity; [apply scanCluster_le|apply IH].
Qed.

Lemma scanServiceProviderCluster_le groups refs c :
  refsLe refs (scanServiceProviderCluster (V := V) groups refs c).
Proof.
  unfold scanServiceProviderCluster. destruct (parentKey c); [|apply refsLe_error].
  destruct (_ !! _) as [g|]; [|apply refsLe_error]. destruct (String.eqb g _); [apply refsLe_error|].
  apply fold_refsLe. intros. apply addReference_le.
Qed.

Lemma scanCluster_referenced state (cluster : Cluster V) :
  (scanCluster state cluster).1.2 = [] →
  ∃ id, cl_ID cluster = Some id ∧ ∀ version, version ∈ clusterReferences cluster →
    referenced (scanCluster state cluster).1 (ToLower id) (vp_ChannelGroup (cl_Version cluster)) version.
Proof.
  destruct state as [refs groups]. unfold scanCluster.
  destruct (cl_ID cluster) as [id|]; cbn [fst snd].
  - intros Hok. exists id. split; [done|]. intros version Hv. by apply fold_addReference_referenced.
  - intros Hok. by apply app_eq_nil in Hok as [_ Hok].
Qed.

Lemma fold_scanCluster_referenced clusters state (cluster : Cluster V) :
  cluster ∈ clusters → (fold_left scanCluster clusters state).1.2 = [] →
  ∃ id, cl_ID cluster = Some id ∧ ∀ version, version ∈ clusterReferences cluster →
    referenced (fold_left scanCluster clusters state).1 (ToLower id)
      (vp_ChannelGroup (cl_Version cluster)) version.
Proof.
  revert state. induction clusters as [|c l IH]; intros state Hin Hok; [set_solver|].
  change (fold_left scanCluster (c :: l) state) with (fold_left scanCluster l (scanCluster state c)) in *.
  apply elem_of_cons in Hin as [->|Hin]; [|by apply IH].
  pose proof (fold_scanCluster_le l (scanCluster state c)) as Hle.
  destruct (scanCluster_referenced state c) as (id & Hid & Hr); [by apply Hle|].
  exists id. split; [done|]. intros version Hv. eapply referenced_le; [exact Hle|by apply Hr].
Qed.

Lemma scanServiceProviderCluster_referenced groups refs (c : ServiceProviderCluster V) :
  (scanServiceProviderCluster groups refs c).2 = [] →
  ∃ id group, parentKey c = Some id ∧ groups !! id = Some group ∧
    ∀ version, version ∈ serviceProviderReferences c →
      referenced (scanServiceProviderCluster groups refs c) id group version.
Proof.
  assert (Hcons : ∀ (l : list reference_error) e, (l ++ [e])%list ≠ []).
  { intros l e Hn. by apply app_eq_nil in Hn as [_ Hn]. }
  unfold scanServiceProviderCluster.
  destruct (parentKey c) as [id|]; [|intros Hok; by apply Hcons in Hok].
  destruct (groups !! id) as [g|] eqn:Eg; [|intros Hok; by apply Hcons in Hok].
  destruct (String.eqb g _); [intros Hok; by apply Hcons in Hok|].
  intros Hok. exists id, g. split_and!; [done..|]. intros version Hv.
  by apply fold_addReference_referenced.
Qed.

Lemma fold_scanServiceProvider_referenced groups spcs refs (c : ServiceProviderCluster V) :
  c ∈ spcs → (fold_left (scanServiceProviderCluster groups) spcs refs).2 = [] →
  ∃ id group, parentKey c = Some id ∧ groups !! id = Some group ∧
    ∀ version, version ∈ serviceProviderReferences c →
      referenced (fold_left (scanServiceProviderCluster groups) spcs refs) id group version.
Proof.
  revert refs. induction spcs as [|c' l IH]; intros refs Hin Hok; [set_solver|].
  change (fold_left (scanServiceProviderCluster groups) (c' :: l) refs)
    with (fold_left (scanServiceProviderCluster groups) l (scanServiceProviderCluster groups refs c')) in *.
  apply elem_of_cons in Hin as [->|Hin]; [|by apply IH].
  pose proof (fold_refsLe _ l (scanServiceProviderCluster groups refs c')
    (scanServiceProviderCluster_le groups)) as Hle.
  destruct (scanServiceProviderCluster_referenced groups refs c') as (id & g & Hid & Hg & Hr);
    [by apply Hle|].
  exists id, g. split_and!; [done..|]. intros version Hv. eapply referenced_le; [exact Hle|by apply Hr].
Qed.

(** The number of clusters referencing the channel of [v] in [group] is positive. *)
Definition countedReference (counts : gmap VersionProfile Z) (group version : string) : Prop :=
  ∃ (v : V) profile, ParseTolerant version = Some v ∧
    RolloutVersionFromName (V := V) (group +:+ "-" +:+ minorString v) = Ok profile ∧
    0 < default 0 (counts !! profile).

Lemma referenced_counted refs id group version :
  referenced refs id group version →
  countedReference ((λ ids : gset string, Z.of_nat (size ids)) <$> refs.1) group version.
Proof.
  intros (v & p & Hv & Hp & Hin). exists v, p. split_and!; [done..|].
  rewrite lookup_fmap. destruct (refs.1 !! p) as [ids|]; simpl in *; [|set_solver].
  assert (size ids ≠ 0%nat); [|lia].
  intros Hz. apply size_empty_inv in Hz. set_solver.
Qed.

(** The channel group recorded for an ID is that of a listed cluster. *)
Lemma fold_scanCluster_groups clusters state id g :
  (fold_left (scanCluster (V := V)) clusters state).2 !! id = Some g →
  state.2 !! id = Some g ∨
  ∃ cluster i, cluster ∈ clusters ∧ cl_ID cluster = Some i ∧ ToLower i = id ∧
    vp_ChannelGroup (cl_Version cluster) = g.
Proof.
  revert state. induction clusters as [|c l IH]; intros state; [by left|].
  change (fold_left scanCluster (c :: l) state) with (fold_left scanCluster l (scanCluster state c)).
  intros [Hs|(cl & i & Hin & Hrest)]%IH; [|right; exists cl, i; set_solver].
  destruct state as [refs groups]. unfold scanCluster in Hs.
  destruct (cl_ID c) as [i|] eqn:Ei; cbn [fst snd] in *; [|by left].
  destruct (decide (ToLower i = id)) as [<-|Hne].
  - rewrite lookup_insert_eq in Hs. right. exists c, i. split_and!; [set_solver|done|done|congruence].
  - rewrite lookup_insert_ne in Hs by done. by left.
Qed.

(** The inventory scan is complete: without errors, every version that a cluster
    or its service provider document names is counted for its channel. *)
Lemma collectRolloutReferences_complete clusters spcs counts :
  collectRolloutReferences (V := V) clusters spcs = (counts, []) →
  (∀ cluster version, cluster ∈ clusters → version ∈ clusterReferences cluster →
     countedReference counts (vp_ChannelGroup (cl_Version cluster)) version) ∧
  (∀ c, c ∈ spcs → ∃ cluster id, cluster ∈ clusters ∧ cl_ID cluster = Some id ∧
     parentKey c = Some (ToLower id) ∧ ∀ version, version ∈ serviceProviderReferences c →
     countedReference counts (vp_ChannelGroup (cl_Version cluster)) version).
Proof.
  unfold collectRolloutReferences.
  pose proof (λ c, fold_scanCluster_referenced clusters ((∅, []), ∅) c) as Hcl.
  pose proof (fold_scanCluster_groups clusters ((∅, []), ∅)) as Hgr.
  destruct (fold_left scanCluster clusters _) as [refs groups]. simpl in Hcl, Hgr.
  intros [= <- Hok]. pose proof (fold_refsLe _ spcs refs (scanServiceProviderCluster_le groups)) as Hle.
  split.
  - intros cluster version Hin Hv. destruct (Hcl cluster Hin) as (id & _ & Hr); [by apply Hle|].
    eapply referenced_counted, referenced_le; [exact Hle|by apply Hr].
  - intros c Hin.
    destruct (fold_scanServiceProvider_referenced groups spcs refs c Hin Hok) as (id & g & Hp & Hg & Hr).
    destruct (Hgr id g Hg) as [Hemp|(cluster & i & Hcin & Hi & <- & <-)]; [by rewrite lookup_empty in Hemp|].
    exists cluster, i. split_and!; [done..|]. intros version Hv. eapply referenced_counted. by apply Hr.
Qed.

End references.
