(* ===== verification/RolloutSelection.v ===== *)
(** * Control plane version rollout: the best version of a channel

    [controlplaneversion/cincinnati.go] and
    [recency_based_control_plane_version_selection.go],
    [version/select_control_plane_version.go], [rollout/cincinnati_selector.go]:
    from the update graph of a channel to one exact version.  The HTTP exchange
    with the update service is an argument: it answers the nodes of the graph. *)
From S2P Require Import Prelude GoStrings RolloutTypes VersionRules RolloutStatus.

Local Open Scope string_scope.
Local Open Scope Z_scope.
Local Open Scope go_scope.

Record node := { node_Version : string; node_Payload : string }.
Record ReleaseImage := { release_Version : string; release_Image : string }.

(** The part of a string after the last occurrence of a byte, or all of it:
    [s[strings.LastIndex(s, sep)+1:]]. *)
Fixpoint afterLast (sep : ascii) (s : string) : string :=
  match s with
  | EmptyString => EmptyString
  | String c s' =>
      if ContainsByte s' sep then afterLast sep s'
      else if Ascii.eqb c sep then s' else s
  end.

Definition stableChannelGroup : string := "stable".
Definition defaultControlPlaneVersionOffset : Z := 0.

Definition GetZStreamOffset (channel : string) : Z :=
  if String.eqb channel stableChannelGroup then 1 else defaultControlPlaneVersionOffset.

Section selection.
Context {V : Type} `{Semver V}.

(** [-vA.Compare(vB) < 0]: newer releases first. *)
Definition releaseBefore (a b : ReleaseImage) : bool :=
  match semver_Parse (release_Version a), semver_Parse (release_Version b) with
  | Some vA, Some vB => LT vB vA
  | _, _ => false
  end.

(** [MustParse] panics as soon as a version is compared, which happens to every
    element of a list of two or more. *)
Definition nodesToReleases (nodes : list node) : result version_panic (list ReleaseImage) :=
  let releases := (λ n, {| release_Version := node_Version n; release_Image := node_Payload n |}) <$> nodes in
  match nodes with
  | [] | [_] => Ok releases
  | _ =>
      match find_first (λ r, bool_decide (semver_Parse (V := V) (release_Version r) = None)) releases with
      | Some r => Err (MustFailed (release_Version r))
      | None => Ok (sort_by releaseBefore releases)
      end
  end.

Inductive selection_error : Type :=
  | ErrGraph (e : string)
  | ErrChannelVersion (channel : string)
  | ErrNoReleases
  | ErrOffset (found : nat) (offset : Z)
  | ErrSelectedVersion (version : string)
  | ErrBestChannel (e : channel_error)
  | ErrMinorOfChannel (minor : string).

Definition inMinor (channelVersion : V) (r : ReleaseImage) : bool :=
  match ParseTolerant (release_Version r) with
  | None => false
  | Some v => (Major v =? Major channelVersion) && (Minor v =? Minor channelVersion)
  end.

Definition filterReleasesToChannelMinor (releases : list ReleaseImage) (channel : string) :
    result selection_error (list ReleaseImage) :=
  match ParseTolerant (afterLast "-" channel) with
  | None => Err (ErrChannelVersion channel)
  | Some channelVersion => Ok (List.filter (inMinor channelVersion) releases)
  end.

(** The update service: the nodes of a channel's graph. *)
Variable cincinnati : string → result string (list node).

(** [controlplaneversion.SelectControlPlaneVersion] *)
Definition selectRelease (channel : string) (offset : Z) :
    result version_panic (result selection_error ReleaseImage) :=
  match cincinnati channel with
  | Err e => Ok (Err (ErrGraph e))
  | Ok nodes =>
      let* releases := nodesToReleases nodes in
      match filterReleasesToChannelMinor releases channel with
      | Err e => Ok (Err e)
      | Ok [] => Ok (Err ErrNoReleases)
      | Ok matching =>
          match matching !! Z.to_nat offset with
          | None => Ok (Err (ErrOffset (length matching) offset))
          | Some r => Ok (Ok r)
          end
      end
  end.

(** [clusterversion.SelectControlPlaneVersion] *)
Definition SelectControlPlaneVersion (channelGroup : string) (minorVersion : V) (offset : Z) :
    result version_panic (result selection_error V) :=
  let* selected := selectRelease (channelGroup +:+ "-" +:+ minorString minorVersion) offset in
  match selected with
  | Err e => Ok (Err e)
  | Ok release =>
      match ParseTolerant (release_Version release) with
      | None => Ok (Err (ErrSelectedVersion (release_Version release)))
      | Some v => Ok (Ok v)
      end
  end.

(** [BestExactVersionForChannel]: nil for nightly channels. *)
Definition BestExactVersionForChannel (channel : string) :
    result version_panic (result selection_error (option V)) :=
  match RolloutVersionFromName (V := V) channel with
  | Err e => Ok (Err (ErrBestChannel e))
  | Ok profile =>
      if String.eqb (vp_ChannelGroup profile) "nightly" then Ok (Ok None)
      else match ParseTolerant (vp_ID profile) with
           | None => Ok (Err (ErrMinorOfChannel (vp_ID profile)))
           | Some targetMinor =>
               let* best := SelectControlPlaneVersion (vp_ChannelGroup profile) targetMinor
                              (GetZStreamOffset (vp_ChannelGroup profile)) in
               match best with
               | Err e => Ok (Err e)
               | Ok v => Ok (Ok (Some v))
               end
           end
  end.

End selection.

(** ** The selected release *)

Section selected.
Context {V : Type} `{SemverLaws V}.

Lemma ContainsByte_app sep s t : ContainsByte (s +:+ String sep t) sep = true.
Proof.
  induction s as [|c s IH]; simpl; [by rewrite Ascii.eqb_refl|]. rewrite IH. by destruct (Ascii.eqb c sep).
Qed.

Lemma ContainsByte_none sep s :
  string_forall (λ c, negb (Ascii.eqb c sep)) s = true → ContainsByte s sep = false.
Proof.
  induction s as [|c s IH]; simpl; [done|]. rewrite andb_true_iff, negb_true_iff.
  intros [-> Hs]. by apply IH.
Qed.

Lemma afterLast_app sep s t :
  string_forall (λ c, negb (Ascii.eqb c sep)) t = true → afterLast sep (s +:+ String sep t) = t.
Proof.
  intros Ht. induction s as [|c s IH]; simpl.
  - by rewrite (ContainsByte_none _ _ Ht), Ascii.eqb_refl.
  - by rewrite ContainsByte_app.
Qed.

Lemma minorString_no_dash (v : V) :
  string_forall (λ c, negb (Ascii.eqb c "-")) (minorString v) = true.
Proof.
  pose proof (Major_uint64 v). pose proof (Minor_uint64 v). unfold minorString.
  rewrite !string_forall_app, !Itoa_no_sep by (done || lia). done.
Qed.

Lemma ParseTolerant_minorString (v : V) :
  ∃ w, ParseTolerant (minorString v) = Some w ∧ Major w = Major v ∧ Minor w = Minor v.
Proof. apply ParseTolerant_numbers; [apply Major_uint64|apply Minor_uint64]. Qed.
(** Releases in descending order: none is newer than one before it. *)
Definition descending (l : list ReleaseImage) : Prop :=
  StronglySorted (λ a b, releaseBefore (V := V) b a = false) l.

Lemma nodesToReleases_descending nodes releases :
  nodesToReleases (V := V) nodes = Ok releases →
  descending releases ∧
  releases ≡ₚ (λ n, {| release_Version := node_Version n; release_Image := node_Payload n |}) <$> nodes.
Proof.
  unfold nodesToReleases. set (rs := _ <$> nodes).
  assert (Hshort : ∀ l : list ReleaseImage, (length l <= 1)%nat → descending l).
  { intros [|a [|b l]] Hl; simpl in Hl; [repeat constructor..|lia]. }
  destruct nodes as [|n1 [|n2 nodes]].
  1, 2: intros [= <-]; split; [apply Hshort; simpl; lia|done].
  destruct (find_first _ rs) eqn:Ef; [done|]. intros [= <-]. split; [|apply sort_by_perm].
  rewrite find_first_None, Forall_forall in Ef.
  assert (Hp : ∀ r, r ∈ rs → is_Some (semver_Parse (V := V) (release_Version r))).
  { intros r Hr. specialize (Ef r Hr). bool_reflect. by apply not_eq_None_Some. }
  destruct (Hp {| release_Version := node_Version n1; release_Image := node_Payload n1 |}) as [v0 _];
    [unfold rs; set_solver|].
  set (parsed := λ r, default v0 (semver_Parse (V := V) (release_Version r))).
  assert (Hext : ∀ a b, a ∈ rs → b ∈ rs → releaseBefore a b = LT (parsed b) (parsed a)).
  { intros a b [va Ha]%Hp [vb Hb]%Hp. unfold releaseBefore, parsed. by rewrite Ha, Hb. }
  unfold descending. rewrite (sort_by_ext releaseBefore (λ a b, LT (parsed b) (parsed a))) by done.
  pose proof (sort_by_sorted (λ a b, LT (parsed b) (parsed a)) ltac:(intros; by apply LE_total)
    ltac:(unfold ordered; intros a b c Hab Hbc; eapply LE_trans; eauto) rs) as Hsort.
  assert (Hin : ∀ x, x ∈ sort_by (λ a b, LT (parsed b) (parsed a)) rs → x ∈ rs).
  { intros x. by rewrite elem_of_sort_by. }
  induction Hsort as [|x l Hl IH Hx]; constructor.
  - apply IH. set_solver.
  - apply Forall_forall. intros y Hy. rewrite Forall_forall in Hx.
    rewrite Hext by set_solver. by apply Hx.
Qed.

Lemma descending_filter p l : descending l → descending (List.filter p l).
Proof.
  unfold descending. induction 1 as [|x l _ IH Hx]; simpl; [constructor|].
  destruct (p x); [|done]. constructor; [done|].
  rewrite Forall_forall in Hx |- *. intros y Hy. apply Hx.
  rewrite list_elem_of_In, filter_In, <- list_elem_of_In in Hy. naive_solver.
Qed.

(** At most [i] elements of a descending list are newer than the one at [i]. *)
Lemma descending_newer l i r :
  descending l → l !! i = Some r → countb (λ x, releaseBefore (V := V) x r) l <= Z.of_nat i.
Proof.
  intros Hs. revert i. induction Hs as [|x l Hl IH Hx]; intros i Hi; [done|].
  rewrite countb_cons. destruct i as [|i]; simpl in Hi.
  - injection Hi as ->. assert (releaseBefore r r = false) as ->.
    { unfold releaseBefore. destruct (semver_Parse _); [by rewrite LT_irrefl|done]. }
    assert (Hz : countb (λ x, releaseBefore x r) l <= countb (λ _, false) l).
    { apply countb_impl. intros y Hy Hb. rewrite Forall_forall in Hx. by rewrite Hx in Hb. }
    assert (Hn : countb (λ _ : ReleaseImage, false) l = 0) by (clear; induction l; done). lia.
  - specialize (IH i Hi). destruct (releaseBefore x r); lia.
Qed.

Lemma countb_perm {A} (p : A → bool) l1 l2 : l1 ≡ₚ l2 → countb p l1 = countb p l2.
Proof. induction 1; rewrite ?countb_cons; lia. Qed.

Lemma countb_filter {A} (p q : A → bool) l :
  countb p (List.filter q l) = countb (λ a, q a && p a) l.
Proof.
  induction l as [|a l IH]; [done|]. simpl. rewrite countb_cons. destruct (q a); simpl; [|done].
  by rewrite countb_cons, IH.
Qed.

(** The selected release is a node of the graph, of the channel's own minor, and
    at most [offset] releases of that minor are newer. *)
Lemma selectRelease_newest cincinnati group (minor : V) offset r :
  0 <= offset →
  selectRelease (V := V) cincinnati (group +:+ "-" +:+ minorString minor) offset = Ok (Ok r) →
  ∃ nodes v, cincinnati (group +:+ "-" +:+ minorString minor) = Ok nodes ∧
    {| node_Version := release_Version r; node_Payload := release_Image r |} ∈ nodes ∧
    ParseTolerant (release_Version r) = Some v ∧ minorString v = minorString minor ∧
    countb (λ n, let r' := {| release_Version := node_Version n; release_Image := node_Payload n |} in
                 inMinor minor r' && releaseBefore (V := V) r' r) nodes <= offset.
Proof.
  intros Hoff. unfold selectRelease. destruct (cincinnati _) as [nodes|e] eqn:En; [|done].
  rewrite result_bind_ok. intros (releases & Hr & Hsel).
  destruct (nodesToReleases_descending _ _ Hr) as [Hdesc Hperm].
  unfold filterReleasesToChannelMinor in Hsel.
  change (group +:+ "-" +:+ minorString minor) with (group +:+ String "-" (minorString minor)) in Hsel.
  rewrite afterLast_app in Hsel by apply minorString_no_dash.
  destruct (ParseTolerant_minorString minor) as (cv & Hcv & Hmaj & Hmin). rewrite Hcv in Hsel.
  assert (Hm : ∀ x, inMinor cv x = inMinor minor x).
  { intros x. unfold inMinor. by rewrite Hmaj, Hmin. }
  set (matching := List.filter (inMinor cv) releases) in *.
  destruct (matching !! Z.to_nat offset) as [r0|] eqn:Ei.
  2: { destruct matching; done. }
  assert (r0 = r) as -> by (destruct matching; [done|congruence]).
  pose proof (list_elem_of_lookup_2 _ _ _ Ei) as Hin. unfold matching in Hin.
  rewrite list_elem_of_In, filter_In, <- list_elem_of_In in Hin. destruct Hin as [Hin Hrm].
  unfold inMinor in Hrm. destruct (ParseTolerant (release_Version r)) as [v|] eqn:Ev; [|done].
  bool_reflect. exists nodes, v. split_and!; [done| |done|unfold minorString; congruence|].
  - rewrite Hperm in Hin. apply list_elem_of_fmap in Hin as (n & -> & Hn). by destruct n.
  - pose proof (descending_newer _ _ _ (descending_filter (inMinor cv) _ Hdesc) Ei) as Hnew.
    rewrite countb_filter, (countb_perm _ _ _ Hperm) in Hnew.
    rewrite Z2Nat.id in Hnew by lia. etransitivity; [|exact Hnew].
    rewrite (countb_fmap _ _ nodes). apply countb_impl. intros n _. by rewrite Hm.
Qed.

(** The name of a channel determines its release line. *)
Lemma channel_line channel profile (target : V) :
  RolloutVersionFromName (V := V) channel = Ok profile → ParseTolerant (vp_ID profile) = Some target →
  vp_ID profile = minorString target ∧
  channel = vp_ChannelGroup profile +:+ "-" +:+ minorString target.
Proof.
  intros Hch Ht. assert (Hid : vp_ID profile = minorString target).
  { unfold RolloutVersionFromName, rolloutChannelPattern in Hch.
    destruct (Cut "-" channel) as [[group minor] found]. destruct (semver_Parse _); [|done].
    destruct (_ && _) eqn:Ep; [|done]. injection Hch as <-. simpl in *.
    apply andb_true_iff in Ep as [_ Ep].
    destruct (Split "." minor) as [|a [|b [|c l]]] eqn:Es; try done.
    apply andb_true_iff in Ep as [Ha Hb].
    assert (minor = a +:+ "." +:+ b) as ->.
    { change (a +:+ "." +:+ b) with (Join "." [a; b]). rewrite <- Es. symmetry. apply Join_Split. }
    by destruct (ParseTolerant_line a b target Ha Hb Ht) as [-> ->]. }
  split; [done|]. destruct (RolloutVersionFromName_inv _ _ Hch) as [-> _].
  unfold yStreamChannel. by rewrite Hid.
Qed.

(** The best version of a channel comes from the channel's own release line in
    the update graph, and no release of that line is newer, except one for the
    stable channel group, which stays one release behind. *)
Theorem BestExactVersionForChannel_newest cincinnati channel (v : V) :
  BestExactVersionForChannel cincinnati channel = Ok (Ok (Some v)) →
  ∃ profile nodes n,
    RolloutVersionFromName (V := V) channel = Ok profile ∧ cincinnati channel = Ok nodes ∧
    n ∈ nodes ∧ ParseTolerant (node_Version n) = Some v ∧ minorString v = vp_ID profile ∧
    let newer n' := releaseBefore (V := V)
      {| release_Version := node_Version n'; release_Image := node_Payload n' |}
      {| release_Version := node_Version n; release_Image := node_Payload n |} in
    countb (λ n', bool_decide (minorString <$> ParseTolerant (node_Version n') = Some (vp_ID profile))
                  && newer n') nodes
    <= if String.eqb (vp_ChannelGroup profile) "stable" then 1 else 0.
Proof.
  unfold BestExactVersionForChannel.
  destruct (RolloutVersionFromName channel) as [profile|] eqn:Ech; [|done].
  destruct (String.eqb (vp_ChannelGroup profile) "nightly"); [done|].
  destruct (ParseTolerant (vp_ID profile)) as [target|] eqn:Et; [|done].
  destruct (channel_line _ _ _ Ech Et) as [Hid Hname].
  rewrite result_bind_ok. intros (best & Hbest & Hv). unfold SelectControlPlaneVersion in Hbest.
  apply result_bind_ok in Hbest as (sel & Hsel & Hbest).
  destruct sel as [r|]; [|by simplify_eq]. destruct (ParseTolerant (release_Version r)) as [w|] eqn:Ew;
    [|by simplify_eq]. injection Hbest as <-. injection Hv as ->.
  apply selectRelease_newest in Hsel as (nodes & v' & Hn & Hin & Hv' & Hm & Hc).
  2: { unfold GetZStreamOffset. destruct (String.eqb _ _); done. }
  rewrite Ew in Hv'. injection Hv' as <-. rewrite <- Hname in Hn.
  exists profile, nodes, {| node_Version := release_Version r; node_Payload := release_Image r |}.
  split_and!; [done..|congruence|]. simpl.
  etransitivity; [|etransitivity; [exact Hc|]].
  - apply countb_impl. intros n' _. rewrite !andb_true_iff, bool_decide_eq_true.
    intros [Hl Hb]. split; [|by destruct r]. unfold inMinor. simpl.
    destruct (ParseTolerant (node_Version n')) as [w'|]; [|done]. injection Hl as Hl.
    rewrite Hid in Hl. apply minorString_inj in Hl as [-> ->]. by rewrite !Z.eqb_refl.
  - unfold GetZStreamOffset, stableChannelGroup. by destruct (String.eqb _ _).
Qed.

End selected.

(** ** A concrete update graph *)

#[local] Existing Instances Release.semver Release.laws.

Module SampleGraph.

Definition cincinnati (channel : string) : result string (list node) :=
  if String.eqb channel "stable-4.20"
  then Ok [{| node_Version := "4.20.1"; node_Payload := "a" |}; {| node_Version := "4.20.4"; node_Payload := "b" |};
           {| node_Version := "4.19.9"; node_Payload := "c" |}; {| node_Version := "4.20.3"; node_Payload := "d" |}]
  else Err "unknown channel".

End SampleGraph.

(** One release behind the newest one. *)
Lemma BestExactVersionForChannel_newest_witness :
  ∃ v : Release.t, BestExactVersionForChannel SampleGraph.cincinnati "stable-4.20" = Ok (Ok (Some v)) ∧
    semver_String v = "4.20.3" ∧ minorString v = "4.20".
Proof.
  assert (Hb : match BestExactVersionForChannel (V := Release.t) SampleGraph.cincinnati "stable-4.20" with
               | Ok (Ok (Some v)) => String.eqb (semver_String v) "4.20.3" | _ => false end = true)
    by (vm_compute; reflexivity).
  destruct (BestExactVersionForChannel SampleGraph.cincinnati "stable-4.20") as [[[v|]|]|] eqn:E;
    try discriminate Hb.
  destruct (BestExactVersionForChannel_newest SampleGraph.cincinnati "stable-4.20" v E)
    as (profile & nodes & n & Hp & _ & _ & _ & Hm & _).
  exists v. split; [reflexivity|]. split; [by apply String.eqb_eq|]. rewrite Hm.
  vm_compute in Hp. by injection Hp as <-.
Defined.
