(* ===== verification/RolloutProgressive.v ===== *)
(** * Control plane version rollout: the progressive z-stream controller

    [zstream_progressive_desired_version_rollout_controller.go] and the selector of
    [types.go]: one sync of a rollout channel advances a bounded batch of clusters
    to the best version, canaries first, and stops when too many clusters failed.

    The random permutation, the clock readings, the two reads of the cluster list
    and [meta.SetStatusCondition] of apimachinery are arguments. *)
From S2P Require Import Prelude GoStrings RolloutTypes RolloutStatus.

Local Open Scope string_scope.
Local Open Scope Z_scope.
Local Open Scope go_scope.

(** ** The failure budget in floating point *)

(** Rounds an integer to 53 significant bits, ties to even: the significand of a
    [float64] result, up to its scale. *)
Definition round53 (z : Z) : Z :=
  let a := Z.abs z in
  let k := Z.log2 a - 52 in
  if k <=? 0 then z
  else
    let q := a / 2 ^ k in
    let r := a mod 2 ^ k in
    let half := 2 ^ (k - 1) in
    let up := (half <? r) || ((r =? half) && Z.odd q) in
    Z.sgn z * ((q + Z.b2z up) * 2 ^ k).

(** [float64(n)] *)
Definition float64_of_int (n : Z) : Z := round53 n.

Definition failureBudgetAbsolute : Z := 2.

(** The constant [0.05] is [failureBudgetFraction / 2^57]; budgets are kept scaled
    by [2^57].  The product is rounded once. *)
Definition failureBudgetFraction : Z := 7205759403792794.
Definition scale57 : Z := 2 ^ 57.

Definition failureBudget (desiredAtBest : Z) : Z :=
  Z.max (float64_of_int failureBudgetAbsolute * scale57)
    (round53 (failureBudgetFraction * float64_of_int desiredAtBest)).

Definition budgetExceeded (failed desiredAtBest : Z) : bool :=
  failureBudget desiredAtBest <? float64_of_int failed * scale57.

(** ** Selection *)

(** [RandomClusterSelector.Select]; [perm] is the permutation [rand.Perm] draws. *)
Definition RandomClusterSelector_Select {A} (perm : list nat) (candidates : list A) (n : Z) : list A :=
  if (n <=? 0) || bool_decide (candidates = []) then []
  else if Z.of_nat (length candidates) <=? n then candidates
  else omap (λ idx, candidates !! idx) (take (Z.to_nat n) perm).

Inductive rolloutOutcome : Type :=
  | outcomeNoBest | outcomeFailure | outcomeStable
  | outcomeCanary | outcomeProgressing | outcomeRolling.

#[export] Instance rolloutOutcome_eq_dec : EqDecision rolloutOutcome.
Proof. solve_decision. Defined.

Definition outcomeString (o : rolloutOutcome) : string :=
  match o with
  | outcomeNoBest => "NoBestVersion"
  | outcomeFailure => "Failure"
  | outcomeStable => "Stable"
  | outcomeCanary => "Canary"
  | outcomeProgressing => "Progressing"
  | outcomeRolling => "Rolling"
  end.

Record rolloutDecisionResult := {
  Outcome : rolloutOutcome;
  SelectCount : Z;
  Message : string;
}.

Definition ConditionProgressing : string := "Progressing".
Definition ConditionDegraded : string := "Degraded".

Section progressive.
Context {V : Type} `{Semver V}.

(** The clusters that belong to the forced assignment controller. *)
Definition clustersWithExperimentalAssignment (clusters : list (Cluster V)) : gset string :=
  fold_left (λ out cluster,
      match cl_ID cluster with
      | Some id =>
          if bool_decide (is_Some (cl_ControlPlaneExactVersion cluster))
             || String.eqb (cl_ZStreamUpdatePolicy cluster) ImmediateZStreamUpdatePolicy
          then {[ToLower id]} ∪ out else out
      | None => out
      end) clusters ∅.

(** The loop body of [eligibleClusters]. *)
Definition isEligible (best : V) (experimental : gset string) (c : ServiceProviderCluster V) : bool :=
  if match parentKey c with Some key => bool_decide (key ∈ experimental) | None => false end
  then false
  else match spc_DesiredVersion c with
       | None => false
       | Some desired =>
           if negb (LT desired best) then false
           else match ExactVersion (spc_PinnedVersion c), UntilExactVersion (spc_PinnedVersion c) with
                | None, _ => true
                | Some _, Some until => LTE until best
                | Some _, None => false
                end
       end.

Definition eligibleClusters (clusters : list (ServiceProviderCluster V)) (best : V)
    (experimental : gset string) : list (ServiceProviderCluster V) :=
  List.filter (isEligible best experimental) clusters.

(** [rolloutDecision], given the counts that were put into the rollout's status. *)
Definition rolloutDecision (bestExactVersion : option V) (counts : rolloutCounts)
    (totalClusters eligibleCount : Z) (config : RolloutConfig V) : rolloutDecisionResult :=
  match bestExactVersion with
  | None => {| Outcome := outcomeNoBest; SelectCount := 0; Message := "no best version selected yet" |}
  | Some best =>
      let key := semver_String best in
      let failed := count (Failed counts) key in
      let desiredAtBest := count (Desired counts) key in
      let mismatched := count (Mismatched counts) key in
      let achieved := count (Achieved counts) key in
      let successful := count (Successful counts) key in
      if budgetExceeded failed desiredAtBest then
        {| Outcome := outcomeFailure; SelectCount := 0;
           Message := Itoa failed +:+ " clusters failed to reach " +:+ key
                      +:+ ", exceeding the failure budget" |}
      else if eligibleCount =? 0 then
        {| Outcome := outcomeStable; SelectCount := 0;
           Message := "no clusters eligible to advance to " +:+ key |}
      else
        let inFlightOrDone := mismatched +! achieved in
        let canaryThreshold := percentOfCeil (CanaryPercentage config) totalClusters +! 2 in
        if inFlightOrDone <? canaryThreshold then
          let n := Z.min (canaryThreshold -! inFlightOrDone) eligibleCount in
          {| Outcome := outcomeCanary; SelectCount := n;
             Message := "selecting " +:+ Itoa n +:+ " canary clusters for " +:+ key |}
        else if successful <? percentOfCeil (CanaryPercentage config) totalClusters then
          {| Outcome := outcomeProgressing; SelectCount := 0;
             Message := "waiting for canaries to become successful at " +:+ key |}
        else
          let rollingThreshold := percentOfCeil (RollingPercentage config) totalClusters in
          let inFlight := Z.max 0 (inFlightOrDone -! successful) in
          if inFlight <? rollingThreshold then
            let n := Z.min (rollingThreshold -! inFlight) eligibleCount in
            {| Outcome := outcomeRolling; SelectCount := n;
               Message := "selecting " +:+ Itoa n +:+ " rolling clusters for " +:+ key |}
          else
            {| Outcome := outcomeProgressing; SelectCount := 0;
               Message := "rollout to " +:+ key +:+ " in progress" |}
  end.

(** ** Writing *)

Inductive assign_error : Type :=
  | ErrMissingResourceID
  | ErrReplaceCluster (coords : coordinates) (e : dbError).

Definition serviceProviderClusterCoords (c : ServiceProviderCluster V) : option coordinates :=
  match spc_ResourceID c with
  | Some id =>
      match rid_Parent id with
      | Some parent =>
          if String.eqb (rid_SubscriptionID id) EmptyString || String.eqb (rid_ResourceGroupName id) EmptyString
          then None
          else Some (rid_SubscriptionID id, rid_ResourceGroupName id, parent_Name parent)
      | None => None
      end
  | None => None
  end.

Definition assignDesiredVersion (db : Database V) (log : list (dbEvent V))
    (c : ServiceProviderCluster V) (best : V) (now : Z) : list (dbEvent V) * option assign_error :=
  match serviceProviderClusterCoords c with
  | None => (log, Some ErrMissingResourceID)
  | Some coords =>
      let replacement := setDesiredVersion c (Some best) now in
      match runReplaceCluster db log coords replacement with
      | (log, None) => (log, None)
      | (log, Some PreconditionFailed) => (log, None)
      | (log, Some e) => (log, Some (ErrReplaceCluster coords e))
      end
  end.

(** The loop over the selected clusters: an error does not stop it. *)
Definition assignStep (db : Database V) (best : V) (now : Z)
    (state : list (dbEvent V) * list assign_error) (c : ServiceProviderCluster V) :
    list (dbEvent V) * list assign_error :=
  let '(log, errs) := state in
  match assignDesiredVersion db log c best now with
  | (log, None) => (log, errs)
  | (log, Some e) => (log, (errs ++ [e])%list)
  end.

Definition assignAll (db : Database V) (log : list (dbEvent V))
    (selected : list (ServiceProviderCluster V)) (best : V) (now : Z) :
    list (dbEvent V) * list assign_error :=
  fold_left (assignStep db best now) selected (log, []).

(** ** The rollout's conditions *)

(** [meta.SetStatusCondition] and the text of a joined error. *)
Record conditionOps := {
  SetStatusCondition : list Condition → string → bool → string → string → list Condition;
  errorText : list assign_error → string;
}.

Definition withConditions (r : Rollout V) (conditions : list Condition) : Rollout V := {|
  ro_CosmosETag := ro_CosmosETag r;
  ro_Version := ro_Version r;
  ro_BestExactVersion := ro_BestExactVersion r;
  ro_Status := {|
    rs_ReferencingClusterCount := rs_ReferencingClusterCount (ro_Status r);
    rs_LastAssignmentTime := rs_LastAssignmentTime (ro_Status r);
    rs_Conditions := conditions;
    rs_Desired := rs_Desired (ro_Status r);
    rs_Mismatched := rs_Mismatched (ro_Status r);
    rs_Failed := rs_Failed (ro_Status r);
    rs_Achieved := rs_Achieved (ro_Status r);
    rs_Successful := rs_Successful (ro_Status r) |} |}.

Definition withLastAssignmentTime (r : Rollout V) (now : Z) : Rollout V := {|
  ro_CosmosETag := ro_CosmosETag r;
  ro_Version := ro_Version r;
  ro_BestExactVersion := ro_BestExactVersion r;
  ro_Status := {|
    rs_ReferencingClusterCount := rs_ReferencingClusterCount (ro_Status r);
    rs_LastAssignmentTime := Some now;
    rs_Conditions := rs_Conditions (ro_Status r);
    rs_Desired := rs_Desired (ro_Status r);
    rs_Mismatched := rs_Mismatched (ro_Status r);
    rs_Failed := rs_Failed (ro_Status r);
    rs_Achieved := rs_Achieved (ro_Status r);
    rs_Successful := rs_Successful (ro_Status r) |} |}.

Definition recordCondition (db : Database V) (ops : conditionOps) (log : list (dbEvent V))
    (rollout : Rollout V) (decision : rolloutDecisionResult) (syncErrs : list assign_error) :
    list (dbEvent V) * option dbError :=
  let progressing :=
    match Outcome decision with
    | outcomeCanary | outcomeRolling | outcomeProgressing => true
    | _ => false
    end in
  let failedOutcome := bool_decide (Outcome decision = outcomeFailure) in
  let reason := outcomeString (Outcome decision) in
  let '(degraded, degradedReason, degradedMessage) :=
    match syncErrs with
    | [] => (failedOutcome, reason, Message decision)
    | _ :: _ => (true, "AssignmentFailed",
                 "failed to advance one or more clusters: " +:+ errorText ops syncErrs)
    end in
  let conditions :=
    SetStatusCondition ops (rs_Conditions (ro_Status rollout))
      ConditionProgressing progressing reason (Message decision) in
  let conditions :=
    SetStatusCondition ops conditions ConditionDegraded degraded degradedReason degradedMessage in
  if bool_decide (rs_Conditions (ro_Status rollout) = conditions) then (log, None)
  else match runReplaceRollout db log (withConditions rollout conditions) rollout with
       | (log, Ok _) => (log, None)
       | (log, Err PreconditionFailed) => (log, None)
       | (log, Err e) => (log, Some e)
       end.

(** ** One sync *)

(** What the controller reads: the rollout, the clusters (twice), the service
    provider documents, the clock at its three readings, and a permutation. *)
Record progressiveInputs := {
  pi_channel : string;
  pi_rollout : result getError (Rollout V);
  pi_clusters : result string (list (Cluster V));
  pi_serviceProviderClusters : result string (list (ServiceProviderCluster V));
  pi_clustersAgain : result string (list (Cluster V));
  pi_cooldownNow : Z;
  pi_countNow : Z;
  pi_assignNow : Z;
  pi_perm : nat → list nat;
}.

Inductive progressive_error : Type :=
  | ErrGet (e : string)
  | ErrList (e : string)
  | ErrChannel (e : channel_error)
  | ErrReserve (e : dbError)
  | ErrAssign (errs : list assign_error) (condition : option dbError).

(** How a sync ends: put back with a delay, or done. *)
Inductive progressiveResult : Type :=
  | EnqueuedAfter (remaining : Z)
  | Synced (e : option progressive_error).

Definition serviceProviderClustersForChannel (clusters : result string (list (Cluster V)))
    (serviceProviderClusters : result string (list (ServiceProviderCluster V))) (channel : string) :
    result progressive_error (list (ServiceProviderCluster V)) :=
  match clusters with
  | Err e => Err (ErrList e)
  | Ok clusters =>
      match serviceProviderClusters with
      | Err e => Err (ErrList e)
      | Ok serviceProviderClusters =>
          match filterServiceProviderClustersForChannel clusters serviceProviderClusters channel with
          | Err e => Err (ErrChannel e)
          | Ok matched => Ok matched
          end
      end
  end.

(** [errors.Join] of the assignment errors and the condition error. *)
Definition joinErrors (errs : list assign_error) (condition : option dbError) :
    option progressive_error :=
  match errs, condition with
  | [], None => None
  | _, _ => Some (ErrAssign errs condition)
  end.

(** The last part of [SyncOnce]: reserve, assign, record. *)
Definition advanceClusters (db : Database V) (ops : conditionOps) (inputs : progressiveInputs)
    (rollout : Rollout V) (eligible : list (ServiceProviderCluster V))
    (decision : rolloutDecisionResult) : list (dbEvent V) * option progressive_error :=
  match ro_BestExactVersion rollout with
  | Some best =>
      if 0 <? SelectCount decision then
        let now := pi_assignNow inputs in
        match runReplaceRollout db [] (withLastAssignmentTime rollout now) rollout with
        | (log, Err PreconditionFailed) => (log, None)
        | (log, Err e) => (log, Some (ErrReserve e))
        | (log, Ok reserved) =>
            let selected := RandomClusterSelector_Select (pi_perm inputs (length eligible))
                              eligible (SelectCount decision) in
            let '(log, errs) := assignAll db log selected best now in
            let '(log, conditionErr) := recordCondition db ops log reserved decision errs in
            (log, joinErrors errs conditionErr)
        end
      else
        let '(log, conditionErr) := recordCondition db ops [] rollout decision [] in
        (log, joinErrors [] conditionErr)
  | None =>
      let '(log, conditionErr) := recordCondition db ops [] rollout decision [] in
      (log, joinErrors [] conditionErr)
  end.

Definition progressiveSyncOnce (db : Database V) (ops : conditionOps) (config : RolloutConfig V)
    (inputs : progressiveInputs) : list (dbEvent V) * progressiveResult :=
  match pi_rollout inputs with
  | Err GetNotFound => ([], Synced None)
  | Err (GetFailed e) => ([], Synced (Some (ErrGet e)))
  | Ok rollout =>
      let remaining :=
        match rs_LastAssignmentTime (ro_Status rollout) with
        | Some last => timeSub (last + Minute) (pi_cooldownNow inputs)
        | None => 0
        end in
      if 0 <? remaining then ([], EnqueuedAfter remaining)
      else
        match serviceProviderClustersForChannel (pi_clusters inputs)
                (pi_serviceProviderClusters inputs) (pi_channel inputs) with
        | Err e => ([], Synced (Some e))
        | Ok members =>
            let counts := computeRolloutStatusCounts members config (pi_countNow inputs) in
            match pi_clustersAgain inputs with
            | Err e => ([], Synced (Some (ErrList e)))
            | Ok clusters =>
                let experimental := clustersWithExperimentalAssignment clusters in
                let eligible :=
                  match ro_BestExactVersion rollout with
                  | Some best => eligibleClusters members best experimental
                  | None => []
                  end in
                let decision := rolloutDecision (ro_BestExactVersion rollout) counts
                  (Z.of_nat (length members)) (Z.of_nat (length eligible)) config in
                let '(log, e) := advanceClusters db ops inputs rollout eligible decision in
                (log, Synced e)
            end
        end
  end.

End progressive.

Arguments assignStep : simpl never.

(** ** The budget is five percent, and at least two *)

Lemma round53_small z : Z.abs z < 2 ^ 53 → round53 z = z.
Proof.
  intros Hz. unfold round53. destruct (_ <=? 0) eqn:E; [done|]. bool_reflect.
  assert (Z.log2 (Z.abs z) < 53); [|lia].
  destruct (Z.eq_dec (Z.abs z) 0) as [->|]; [done|]. apply Z.log2_lt_pow2; lia.
Qed.

(** Rounding keeps a lower bound that is a multiple of a large power of two, and
    is off by at most one unit in the last of the 53 places. *)
Lemma round53_bounds z e :
  0 <= z < 2 ^ (e + 53) → 0 <= e →
  (∀ c, (2 ^ e | c) → c <= z → c <= round53 z) ∧ Z.abs (round53 z - z) <= 2 ^ e.
Proof.
  intros Hz He. unfold round53. rewrite Z.abs_eq by lia.
  destruct (_ <=? 0) eqn:E.
  { split; [done|]. rewrite Z.sub_diag. simpl. apply Z.pow_nonneg. lia. }
  bool_reflect. set (k := Z.log2 z - 52) in *.
  assert (Hzpos : 0 < z) by (destruct (Z.eq_dec z 0) as [->|]; [simpl in *; lia|lia]).
  assert (Hk : k <= e).
  { assert (Z.log2 z < e + 53) by (apply Z.log2_lt_pow2; lia). lia. }
  rewrite (Z.sgn_pos z), Z.mul_1_l by lia.
  assert (Hp : 0 < 2 ^ k) by (apply Z.pow_pos_nonneg; lia).
  pose proof (Z.div_mod z (2 ^ k)) as Hdm. pose proof (Z.mod_pos_bound z (2 ^ k) Hp) as Hr.
  assert (Hb : ∀ b, 0 <= Z.b2z b <= 1) by (intros []; simpl; lia).
  specialize (Hb ((2 ^ (k - 1) <? z mod 2 ^ k)
    || ((z mod 2 ^ k =? 2 ^ (k - 1)) && Z.odd (z / 2 ^ k)))).
  set (u := Z.b2z _) in *. clearbody u.
  assert (Hke : 2 ^ k <= 2 ^ e) by (apply Z.pow_le_mono_r; lia).
  split.
  - intros c [d Hd] Hc.
    assert (Hc' : c = d * 2 ^ (e - k) * 2 ^ k).
    { rewrite Hd, <- Z.mul_assoc, <- Z.pow_add_r by lia. do 2 f_equal. lia. }
    assert (d * 2 ^ (e - k) <= z / 2 ^ k); [|nia].
    apply Z.div_le_lower_bound; lia.
  - assert (u = 0 ∨ u = 1) as [->| ->] by lia; nia.
Qed.

Lemma budgetExceeded_iff failed desired :
  0 <= failed < 2 ^ 50 → 0 <= desired < 2 ^ 50 →
  budgetExceeded failed desired = true ↔ 2 < failed ∧ desired < 20 * failed.
Proof.
  intros Hf Hd. unfold budgetExceeded, failureBudget, float64_of_int.
  rewrite Z.ltb_lt, !(round53_small failed), !(round53_small desired), (round53_small failureBudgetAbsolute)
    by (unfold failureBudgetAbsolute; lia).
  unfold failureBudgetAbsolute, failureBudgetFraction, scale57.
  set (m := 7205759403792794 * desired).
  destruct (round53_bounds m 51) as [Hlow Hab]; [unfold m; lia|lia|].
  change (2 ^ 57) with (64 * 2 ^ 51) in *. change (2 ^ 51) with 2251799813685248 in *.
  change (2 ^ 50) with 1125899906842624 in *.
  assert (Hm : 20 * m = (64 * 2251799813685248 + 8) * desired) by (unfold m; lia).
  specialize (Hlow (failed * (64 * 2251799813685248))).
  assert (Hdiv : (2251799813685248 | failed * (64 * 2251799813685248)))
    by (exists (failed * 64); lia).
  split.
  - intros Hlt. split; [lia|]. destruct (Z.lt_ge_cases desired (20 * failed)); [done|].
    specialize (Hlow Hdiv). lia.
  - intros [H1 H2]. lia.
Qed.
