(* ===== verification/RolloutAssign.v ===== *)
(** * Control plane version rollout: assignment, seeding and retirement

    The controllers that decide one cluster or one channel at a time:
    [forced_desired_version_controller.go], [initial_normal_desired_version_controller.go],
    [minor_upgrade_normal_desired_version_controller.go], [best_version_controller.go],
    [rollout_seeding_controller.go], [cincinnati_seeding_controller.go] and
    [rollout_retirement_controller.go].  Lister answers, the clock and the database
    are arguments; a sync gives the writes it attempted and how it ended. *)
From S2P Require Import Prelude GoStrings RolloutTypes VersionRules RolloutStatus RolloutProgressive.

Local Open Scope string_scope.
Local Open Scope Z_scope.
Local Open Scope go_scope.

Inductive assign_sync_error : Type :=
  | ErrGetServiceProviderCluster (e : string)
  | ErrGetCluster (e : string)
  | ErrNoChannelGroupForCluster
  | ErrGetChannelRollout (e : string)
  | ErrRequestedChannel
  | ErrListNodePools (e : string)
  | ErrGetNodePoolState (name : string)
  | ErrNodePoolSkew (errs : list skew_error)
  | ErrWrite (e : dbError)
  | ErrNewRollout
  | ErrSelectBest (e : string).

(** How a sync ends: done, or put back into the queue after a delay. *)
Inductive assignResult : Type :=
  | AssignDone (e : option assign_sync_error)
  | AssignRetry (after : Z).

Section assignment.
Context {V : Type} `{Semver V}.

(** The write that ends most syncs: a lost race is not an error. *)
Definition writeCluster (db : Database V) (key : coordinates) (replacement : ServiceProviderCluster V) :
    list (dbEvent V) * assignResult :=
  match runReplaceCluster db [] key replacement with
  | (log, None) => (log, AssignDone None)
  | (log, Some PreconditionFailed) => (log, AssignDone None)
  | (log, Some e) => (log, AssignDone (Some (ErrWrite e)))
  end.

(** ** Forced assignment *)

Definition isImmediate (cluster : Cluster V) : bool :=
  String.eqb (cl_ZStreamUpdatePolicy cluster) ImmediateZStreamUpdatePolicy.

(** The version whose channel provides the best version. *)
Definition versionForChannel (cluster : Cluster V) (c : ServiceProviderCluster V) : option V :=
  match ExactVersion (spc_PinnedVersion c) with
  | Some pinned => Some pinned
  | None =>
      match cl_ControlPlaneExactVersion cluster with
      | None => if isImmediate cluster then spc_DesiredVersion c else None
      | Some _ => None
      end
  end.

(** The [switch]: the new desired version and whether the pin is released. *)
Definition forcedDecision (cluster : Cluster V) (c : ServiceProviderCluster V) (best : option V) :
    option V * bool :=
  match ExactVersion (spc_PinnedVersion c) with
  | Some pinned =>
      match best, UntilExactVersion (spc_PinnedVersion c) with
      | Some b, Some until => if GTE b until then (Some b, true) else (Some pinned, false)
      | _, _ => (Some pinned, false)
      end
  | None =>
      match cl_ControlPlaneExactVersion cluster with
      | Some exact => (Some exact, false)
      | None =>
          match best, spc_DesiredVersion c with
          | Some b, Some desired =>
              if isImmediate cluster && String.eqb (minorString b) (minorString desired) && GT b desired
              then (Some b, false) else (None, false)
          | _, _ => (None, false)
          end
      end
  end.

Definition clearPinnedVersion (c : ServiceProviderCluster V) : ServiceProviderCluster V := {|
  spc_ResourceID := spc_ResourceID c;
  spc_DesiredVersion := spc_DesiredVersion c;
  spc_DesiredVersionLastTransitionTime := spc_DesiredVersionLastTransitionTime c;
  spc_PinnedVersion := noPin;
  spc_ActiveVersions := spc_ActiveVersions c |}.

(** The part of [SyncOnce] after the best version is known. *)
Definition applyForced (db : Database V) (key : coordinates) (cluster : Cluster V)
    (c : ServiceProviderCluster V) (best : option V) (now : Z) : list (dbEvent V) * assignResult :=
  let '(newDesired, clearPin) := forcedDecision cluster c best in
  match newDesired with
  | None => ([], AssignDone None)
  | Some v =>
      let changed :=
        clearPin || match spc_DesiredVersion c with None => true | Some d => negb (EQ d v) end in
      if negb changed then ([], AssignDone None)
      else
        let replacement := setDesiredVersion c (Some v) now in
        let replacement := if clearPin then clearPinnedVersion replacement else replacement in
        writeCluster db key replacement
  end.

Definition forcedSyncOnce (db : Database V) (key : coordinates)
    (getServiceProviderCluster : result getError (ServiceProviderCluster V))
    (getCluster : result getError (Cluster V))
    (getRollout : string → result getError (Rollout V)) (now : Z) : list (dbEvent V) * assignResult :=
  match getServiceProviderCluster with
  | Err GetNotFound => ([], AssignDone None)
  | Err (GetFailed e) => ([], AssignDone (Some (ErrGetServiceProviderCluster e)))
  | Ok c =>
      match getCluster with
      | Err GetNotFound => ([], AssignDone None)
      | Err (GetFailed e) => ([], AssignDone (Some (ErrGetCluster e)))
      | Ok cluster =>
          if negb (hasForcedVersion cluster c) && negb (isImmediate cluster)
          then ([], AssignDone None)
          else
            match versionForChannel cluster c with
            | None => applyForced db key cluster c None now
            | Some v =>
                let channelGroup := vp_ChannelGroup (cl_Version cluster) in
                if String.eqb channelGroup EmptyString
                then ([], AssignDone (Some ErrNoChannelGroupForCluster))
                else
                  match getRollout (yStreamChannel channelGroup (minorString v)) with
                  | Err (GetFailed e) => ([], AssignDone (Some (ErrGetChannelRollout e)))
                  | Err GetNotFound => applyForced db key cluster c None now
                  | Ok rollout => applyForced db key cluster c (ro_BestExactVersion rollout) now
                  end
            end
      end
  end.

(** ** Initial assignment *)

Definition retryDelay : Z := 10 * Second.

Definition initialNeedsWork (c : ServiceProviderCluster V) : bool :=
  bool_decide (spc_DesiredVersion c = None) || ptr_IsZero (spc_DesiredVersionLastTransitionTime c).

(** The tail shared by initial assignment and minor upgrades: the best version of
    a channel, waiting for the rollout and for its best version. *)
Definition withBestOf (getRollout : string → result getError (Rollout V)) (channel : string)
    (k : V → list (dbEvent V) * assignResult) : list (dbEvent V) * assignResult :=
  match getRollout channel with
  | Err GetNotFound => ([], AssignRetry retryDelay)
  | Err (GetFailed e) => ([], AssignDone (Some (ErrGetChannelRollout e)))
  | Ok rollout =>
      match ro_BestExactVersion rollout with
      | None => ([], AssignRetry retryDelay)
      | Some best => k best
      end
  end.

Definition initialSyncOnce (db : Database V) (key : coordinates)
    (getServiceProviderCluster : result getError (ServiceProviderCluster V))
    (getCluster : result getError (Cluster V))
    (getRollout : string → result getError (Rollout V)) (now : Z) : list (dbEvent V) * assignResult :=
  match getServiceProviderCluster with
  | Err GetNotFound => ([], AssignDone None)
  | Err (GetFailed e) => ([], AssignDone (Some (ErrGetServiceProviderCluster e)))
  | Ok c =>
      if negb (initialNeedsWork c) then ([], AssignDone None)
      else
        match spc_DesiredVersion c with
        | Some desired => writeCluster db key (setDesiredVersion c (Some desired) now)
        | None =>
            match getCluster with
            | Err GetNotFound => ([], AssignDone None)
            | Err (GetFailed e) => ([], AssignDone (Some (ErrGetCluster e)))
            | Ok cluster =>
                if hasForcedVersion cluster c then ([], AssignDone None)
                else
                  match clusterYStreamChannel cluster with
                  | None => ([], AssignDone (Some ErrRequestedChannel))
                  | Some channel =>
                      withBestOf getRollout channel
                        (λ best, writeCluster db key (setDesiredVersion c (Some best) now))
                  end
            end
        end
  end.

(** ** Minor upgrades *)

Definition minorNeedsWork (cluster : Cluster V) (c : ServiceProviderCluster V) : bool :=
  if hasForcedVersion cluster c then false
  else match spc_DesiredVersion c with
       | None => false
       | Some desired =>
           match ParseTolerant (vp_ID (cl_Version cluster)) with
           | None => false
           | Some requested => negb (String.eqb (minorString requested) (minorString desired))
           end
       end.

(** A node pool of the lister, and the active versions of its service provider
    document, by name. *)
Record NodePoolEntry := { npe_Name : string; npe_VersionID : string }.

Fixpoint collectNodePools (getState : string → option (list (option V))) (pools : list NodePoolEntry) :
    result string (list (option (AdmissionNodePool V))) :=
  match pools with
  | [] => Ok []
  | p :: rest =>
      match getState (npe_Name p) with
      | None => Err (npe_Name p)
      | Some active =>
          let* entries := collectNodePools getState rest in
          Ok (Some {| anp_Name := npe_Name p; anp_VersionID := npe_VersionID p;
                      anp_ActiveVersions := Some active |} :: entries)
      end
  end.

Definition validateNodePoolSkew (listNodePools : result string (list NodePoolEntry))
    (getState : string → option (list (option V))) (target : V) :
    result version_panic (option assign_sync_error) :=
  match listNodePools with
  | Err e => Ok (Some (ErrListNodePools e))
  | Ok pools =>
      match collectNodePools getState pools with
      | Err name => Ok (Some (ErrGetNodePoolState name))
      | Ok entries =>
          let* errs := AdmitClusterNodePoolsMinorVersionSkew entries target in
          match errs with
          | [] => Ok None
          | _ :: _ => Ok (Some (ErrNodePoolSkew errs))
          end
      end
  end.

Definition minorUpgradeSyncOnce (db : Database V) (key : coordinates)
    (getServiceProviderCluster : result getError (ServiceProviderCluster V))
    (getCluster : result getError (Cluster V))
    (getRollout : string → result getError (Rollout V))
    (listNodePools : result string (list NodePoolEntry))
    (getState : string → option (list (option V))) (now : Z) :
    result version_panic (list (dbEvent V) * assignResult) :=
  match getServiceProviderCluster with
  | Err GetNotFound => Ok ([], AssignDone None)
  | Err (GetFailed e) => Ok ([], AssignDone (Some (ErrGetServiceProviderCluster e)))
  | Ok c =>
      match getCluster with
      | Err GetNotFound => Ok ([], AssignDone None)
      | Err (GetFailed e) => Ok ([], AssignDone (Some (ErrGetCluster e)))
      | Ok cluster =>
          match clusterYStreamChannel cluster with
          | None => Ok ([], AssignDone (Some ErrRequestedChannel))
          | Some channel =>
              if negb (minorNeedsWork cluster c) then Ok ([], AssignDone None)
              else
                match getRollout channel with
                | Err GetNotFound => Ok ([], AssignRetry retryDelay)
                | Err (GetFailed e) => Ok ([], AssignDone (Some (ErrGetChannelRollout e)))
                | Ok rollout =>
                    match ro_BestExactVersion rollout with
                    | None => Ok ([], AssignRetry retryDelay)
                    | Some best =>
                        let* skew := validateNodePoolSkew listNodePools getState best in
                        match skew with
                        | Some e => Ok ([], AssignDone (Some e))
                        | None => Ok (writeCluster db key (setDesiredVersion c (Some best) now))
                        end
                    end
                end
          end
      end
  end.

(** ** Selecting the best version *)

Definition selectBestExactVersion (graphBest minimum : option V) : option V := maxVersion graphBest minimum.

Definition withBestExactVersion (r : Rollout V) (best : V) : Rollout V := {|
  ro_CosmosETag := ro_CosmosETag r;
  ro_Version := ro_Version r;
  ro_BestExactVersion := Some best;
  ro_Status := ro_Status r |}.

Definition bestVersionSyncOnce (db : Database V) (config : RolloutConfig V) (channel : string)
    (getRollout : result getError (Rollout V)) (graphBest : result string (option V)) :
    list (dbEvent V) * option assign_sync_error :=
  match getRollout with
  | Err GetNotFound => ([], None)
  | Err (GetFailed e) => ([], Some (ErrGetChannelRollout e))
  | Ok rollout =>
      match graphBest with
      | Err e => ([], Some (ErrSelectBest e))
      | Ok graphBest =>
          match selectBestExactVersion graphBest (MinimumVersions config !! channel) with
          | None => ([], None)
          | Some best =>
              if match ro_BestExactVersion rollout with Some current => EQ current best | None => false end
              then ([], None)
              else match runReplaceRollout db [] (withBestExactVersion rollout best) rollout with
                   | (log, Ok _) => (log, None)
                   | (log, Err PreconditionFailed) => (log, None)
                   | (log, Err e) => (log, Some (ErrWrite e))
                   end
          end
      end
  end.

(** ** Seeding and retiring rollouts *)

(** An empty rollout; [resourceIDValid] is the resource ID parser's verdict. *)
Definition newControlPlaneVersionRollout (resourceIDValid : string → bool) (channel : string) :
    option (Rollout V) :=
  match RolloutVersionFromName (V := V) channel with
  | Err _ => None
  | Ok profile =>
      if resourceIDValid channel then
        Some {| ro_CosmosETag := EmptyString; ro_Version := profile; ro_BestExactVersion := None;
                ro_Status := {| rs_ReferencingClusterCount := None; rs_LastAssignmentTime := None;
                  rs_Conditions := []; rs_Desired := ∅; rs_Mismatched := ∅; rs_Failed := ∅;
                  rs_Achieved := ∅; rs_Successful := ∅ |} |}
      else None
  end.

Definition runCreateRollout (db : Database V) (log : list (dbEvent V)) (channel : string) (r : Rollout V) :
    list (dbEvent V) * option dbError :=
  let answer := db_createRollout db log channel r in
  (attempt log (CreateRollout channel r) (bool_decide (answer = None)), answer).

Definition ensureRollout (db : Database V) (log : list (dbEvent V)) (resourceIDValid : string → bool)
    (getRollout : string → result getError (Rollout V)) (channel : string) :
    list (dbEvent V) * option assign_sync_error :=
  match getRollout channel with
  | Ok _ => (log, None)
  | Err (GetFailed e) => (log, Some (ErrGetChannelRollout e))
  | Err GetNotFound =>
      match newControlPlaneVersionRollout resourceIDValid channel with
      | None => (log, Some ErrNewRollout)
      | Some rollout =>
          match runCreateRollout db log channel rollout with
          | (log, None) => (log, None)
          | (log, Some ConflictError) => (log, None)
          | (log, Some e) => (log, Some (ErrWrite e))
          end
      end
  end.

Definition seedingSyncOnce (db : Database V) (resourceIDValid : string → bool)
    (getCluster : result getError (Cluster V))
    (getServiceProviderCluster : result getError (ServiceProviderCluster V))
    (getRollout : string → result getError (Rollout V)) :
    list (dbEvent V) * option assign_sync_error :=
  match getCluster with
  | Err GetNotFound => ([], None)
  | Err (GetFailed e) => ([], Some (ErrGetCluster e))
  | Ok cluster =>
      if bool_decide (is_Some (cl_DeletionTimestamp cluster)) then ([], None)
      else if String.eqb (vp_ChannelGroup (cl_Version cluster)) "nightly" then ([], None)
      else
        match clusterYStreamChannel cluster with
        | None => ([], None)
        | Some requested =>
            match ensureRollout db [] resourceIDValid getRollout requested with
            | (log, Some e) => (log, Some e)
            | (log, None) =>
                match getServiceProviderCluster with
                | Err GetNotFound => (log, None)
                | Err (GetFailed e) => (log, Some (ErrGetServiceProviderCluster e))
                | Ok c =>
                    match ExactVersion (spc_PinnedVersion c) with
                    | Some pin =>
                        ensureRollout db log resourceIDValid getRollout
                          (yStreamChannel (vp_ChannelGroup (cl_Version cluster)) (minorString pin))
                    | None => (log, None)
                    end
                end
            end
        end
  end.

(** [cincinnatiSeedingSyncer.SyncOnce] *)
Definition cincinnatiSeedingSyncOnce (db : Database V) (resourceIDValid : string → bool)
    (getRollout : string → result getError (Rollout V)) (channel : string) :
    list (dbEvent V) * option assign_sync_error :=
  match RolloutVersionFromName (V := V) channel with
  | Err _ => ([], Some ErrNewRollout)
  | Ok profile =>
      if negb (atLeastBackendVersion (V := V) (vp_ID profile)) then ([], None)
      else ensureRollout db [] resourceIDValid getRollout channel
  end.

Inductive discover_error : Type := ErrUnsupportedChannelGroup (g : string) | ErrProfileVersion (s : string).

(** The loop of [discoverChannels]: the profiles with canonical versions above the
    support floor, as a set. *)
Fixpoint discoverEligible (profiles : list VersionProfile) (eligible : list VersionProfile) :
    result discover_error (list VersionProfile) :=
  match profiles with
  | [] => Ok eligible
  | p :: rest =>
      if negb (existsb (String.eqb (vp_ChannelGroup p)) rolloutChannelGroups)
      then Err (ErrUnsupportedChannelGroup (vp_ChannelGroup p))
      else
        match ParseTolerant (vp_ID p) with
        | None => Err (ErrProfileVersion (vp_ID p))
        | Some version =>
            let p := {| vp_ID := minorString version; vp_ChannelGroup := vp_ChannelGroup p |} in
            if atLeastBackendVersion (V := V) (vp_ID p) && negb (bool_decide (p ∈ eligible))
            then discoverEligible rest (p :: eligible)
            else discoverEligible rest eligible
        end
  end.

Definition profileBefore (a b : VersionProfile) : bool :=
  string_less (vp_ChannelGroup a) (vp_ChannelGroup b)
  || (String.eqb (vp_ChannelGroup a) (vp_ChannelGroup b) && string_less (vp_ID a) (vp_ID b)).

Definition discoverChannels (profiles : list VersionProfile) : result discover_error (list string) :=
  let* eligible := discoverEligible profiles [] in
  Ok ((λ p, vp_ChannelGroup p +:+ "-" +:+ vp_ID p) <$> sort_by profileBefore eligible).

Definition reconcileRolloutRetirement (rollout : Rollout V) : bool :=
  let profile := ro_Version rollout in
  if bool_decide (profile = {| vp_ID := EmptyString; vp_ChannelGroup := EmptyString |}) then false
  else if atLeastBackendVersion (V := V) (vp_ID profile) then false
  else bool_decide (rs_ReferencingClusterCount (ro_Status rollout) = Some 0).

Definition runDeleteRollout (db : Database V) (channel etag : string) :
    list (dbEvent V) * option dbError :=
  let answer := db_deleteRollout db [] channel etag in
  (attempt [] (DeleteRollout channel etag) (bool_decide (answer = None)), answer).

Definition retirementSyncOnce (db : Database V) (channel : string)
    (getRollout : result getError (Rollout V)) : list (dbEvent V) * option assign_sync_error :=
  match getRollout with
  | Err GetNotFound => ([], None)
  | Err (GetFailed e) => ([], Some (ErrGetChannelRollout e))
  | Ok rollout =>
      if reconcileRolloutRetirement rollout then
        match runDeleteRollout db channel (ro_CosmosETag rollout) with
        | (log, None) => (log, None)
        | (log, Some PreconditionFailed) => (log, None)
        | (log, Some NotFoundError) => (log, None)
        | (log, Some e) => (log, Some (ErrWrite e))
        end
      else ([], None)
  end.

End assignment.
