(* ===== verification/RolloutSafety.v ===== *)
(** * Control plane version rollout: safety of the progressive controller

    What one sync may write, how many clusters it may put in flight, and that the
    number of simultaneous upgrades stays bounded over any sequence of syncs and
    completing upgrades. *)
From S2P Require Import Prelude GoStrings RolloutTypes RolloutStatus RolloutProgressive.

Local Open Scope string_scope.
Local Open Scope Z_scope.

(** ** Thresholds *)

(** The sizes for which no intermediate value leaves 64 bits. *)
Definition configOk {V} (config : RolloutConfig V) : Prop :=
  0 <= CanaryPercentage config <= 100 ∧ 0 <= RollingPercentage config <= 100 ∧
  0 <= MinVersionReadyDuration config.

Definition fleetSize (n : Z) : Prop := 0 <= n < 2 ^ 40.

Lemma percentOfCeil_spec pct total :
  0 <= pct <= 100 → fleetSize total →
  0 <= percentOfCeil pct total <= total ∧
  pct * total <= 100 * percentOfCeil pct total < pct * total + 100.
Proof.
  intros Hp [Ht Ht']. unfold percentOfCeil.
  destruct ((pct <=? 0) || (total <=? 0)) eqn:E.
  - apply orb_true_iff in E as [E|E]; bool_reflect; nia.
  - bool_reflect. rewrite (wrap64_id (pct * total)) by (rewrite in64_unfold; nia).
    rewrite wrap64_id by (rewrite in64_unfold; nia).
    rewrite Z.quot_div_nonneg by nia.
    pose proof (Z.div_mod (pct * total + 99) 100 ltac:(lia)) as Hdm.
    pose proof (Z.mod_pos_bound (pct * total + 99) 100 ltac:(lia)). nia.
Qed.

Definition canaryThreshold {V} (config : RolloutConfig V) (total : Z) : Z :=
  percentOfCeil (CanaryPercentage config) total + 2.
Definition rollingThreshold {V} (config : RolloutConfig V) (total : Z) : Z :=
  percentOfCeil (RollingPercentage config) total.

Section decision.
Context {V : Type} `{Semver V}.

(** The counts at a key lie between zero and the number of clusters. *)
Definition countsWithin (counts : rolloutCounts) (k : string) (total : Z) : Prop :=
  0 <= count (Desired counts) k <= total ∧ 0 <= count (Mismatched counts) k <= total ∧
  0 <= count (Failed counts) k <= total ∧ 0 <= count (Achieved counts) k <= total ∧
  0 <= count (Successful counts) k <= total.

Lemma counts_within (members : list (ServiceProviderCluster V)) config now k :
  fleetSize (Z.of_nat (length members)) →
  countsWithin (computeRolloutStatusCounts members config now) k (Z.of_nat (length members)).
Proof.
  intros Hs. unfold countsWithin.
  destruct (counts_exact members config now k) as (-> & -> & -> & -> & ->).
  { unfold fleetSize in Hs. lia. }
  split_and!; try apply countb_nonneg; apply countb_le_length.
Qed.

(** The decision in exact arithmetic: the failure budget first, then eligibility,
    the canary batch, the canary gate and the rolling batch. *)
Lemma rolloutDecision_exact (best : V) counts total eligible config :
  configOk config → fleetSize total → 0 <= eligible <= total →
  let k := semver_String best in
  countsWithin counts k total →
  let d := rolloutDecision (Some best) counts total eligible config in
  let inFlightOrDone := count (Mismatched counts) k + count (Achieved counts) k in
  let successful := count (Successful counts) k in
  let failed := count (Failed counts) k in
  let exceeded := 2 < failed ∧ count (Desired counts) k < 20 * failed in
  let canaryShare := percentOfCeil (CanaryPercentage config) total in
  (Outcome d, SelectCount d) =
    if decide exceeded then (outcomeFailure, 0)
    else if decide (eligible = 0) then (outcomeStable, 0)
    else if decide (inFlightOrDone < canaryThreshold config total) then
      (outcomeCanary, Z.min (canaryThreshold config total - inFlightOrDone) eligible)
    else if decide (successful < canaryShare) then (outcomeProgressing, 0)
    else if decide (Z.max 0 (inFlightOrDone - successful) < rollingThreshold config total) then
      (outcomeRolling, Z.min (rollingThreshold config total - Z.max 0 (inFlightOrDone - successful)) eligible)
    else (outcomeProgressing, 0).
Proof.
  intros (Hc1 & Hc2 & _) Ht He k (Hd & Hm & Hf & Ha & Hs).
  destruct (percentOfCeil_spec _ _ Hc1 Ht) as [Hp1 _].
  destruct (percentOfCeil_spec _ _ Hc2 Ht) as [Hp2 _].
  unfold fleetSize in Ht. simpl. unfold rolloutDecision, canaryThreshold, rollingThreshold.
  fold k in Hd, Hm, Hf, Ha, Hs |- *.
  set (failed := count (Failed counts) k) in *. set (desired := count (Desired counts) k) in *.
  set (mismatched := count (Mismatched counts) k) in *. set (achieved := count (Achieved counts) k) in *.
  set (successful := count (Successful counts) k) in *.
  set (share := percentOfCeil (CanaryPercentage config) total) in *.
  set (rolling := percentOfCeil (RollingPercentage config) total) in *.
  assert (Hex : budgetExceeded failed desired = bool_decide (2 < failed ∧ desired < 20 * failed)).
  { apply eq_true_iff_eq. rewrite budgetExceeded_iff, bool_decide_eq_true; [done|lia|lia]. }
  rewrite Hex, (wrap64_id (mismatched + achieved)), (wrap64_id (share + 2)) by (rewrite in64_unfold; lia).
  rewrite (wrap64_id (share + 2 - (mismatched + achieved))),
    (wrap64_id (mismatched + achieved - successful)) by (rewrite in64_unfold; lia).
  rewrite (wrap64_id (rolling - _)) by (rewrite in64_unfold; lia).
  repeat case_decide; repeat case_bool_decide; try lia;
    repeat match goal with |- context [?a =? ?b] => destruct (Z.eqb_spec a b); try lia end;
    repeat match goal with |- context [?a <? ?b] => destruct (Z.ltb_spec a b); try lia end; done.
Qed.

(** A batch never exceeds the eligible clusters, starts only within the failure
    budget, and fills the canary or the rolling allowance at most. *)
Lemma rolloutDecision_bounds (best : V) counts total eligible config :
  configOk config → fleetSize total → 0 <= eligible <= total →
  let k := semver_String best in
  countsWithin counts k total →
  let d := rolloutDecision (Some best) counts total eligible config in
  let inFlightOrDone := count (Mismatched counts) k + count (Achieved counts) k in
  let successful := count (Successful counts) k in
  let failed := count (Failed counts) k in
  0 <= SelectCount d <= eligible ∧
  (0 < SelectCount d →
   (failed <= 2 ∨ 20 * failed <= count (Desired counts) k) ∧
   ((Outcome d = outcomeCanary ∧ inFlightOrDone + SelectCount d <= canaryThreshold config total) ∨
    (Outcome d = outcomeRolling ∧
     percentOfCeil (CanaryPercentage config) total <= successful ∧
     inFlightOrDone - successful + SelectCount d <= rollingThreshold config total))).
Proof.
  intros Hc Ht He k Hw.
  pose proof (rolloutDecision_exact best counts total eligible config Hc Ht He Hw) as Hx.
  cbv zeta in *. fold k in Hx.
  set (d := rolloutDecision (Some best) counts total eligible config) in *.
  repeat case_decide; injection Hx as Ho Hs; rewrite Hs; split; try lia; intros Hpos.
  - split; [lia|]. left. split; [done|lia].
  - split; [lia|]. right. split; [done|lia].
Qed.

End decision.

(** ** What a sync writes *)

Section writes.
Context {V : Type} `{Semver V}.
Implicit Types log : list (dbEvent V).

(** [ev] assigns [best] to the cluster [c]. *)
Definition assigns (best : V) (now : Z) (c : ServiceProviderCluster V) (ev : dbEvent V) : Prop :=
  ∃ coords, serviceProviderClusterCoords c = Some coords ∧
    ev_op ev = ReplaceCluster coords (setDesiredVersion c (Some best) now).

Definition isRolloutWrite (ev : dbEvent V) : Prop :=
  match ev_op ev with ReplaceRollout _ _ => True | _ => False end.

Lemma assignDesiredVersion_log db log c best now :
  ∃ ws, (assignDesiredVersion (V := V) db log c best now).1 = (log ++ ws)%list ∧
    (length ws <= 1)%nat ∧ Forall (assigns best now c) ws.
Proof.
  unfold assignDesiredVersion, runReplaceCluster, attempt.
  destruct (serviceProviderClusterCoords c) as [coords|] eqn:E.
  - destruct (db_replaceCluster _ _ _ _) as [[]|]; eexists [_]; (split_and!; [reflexivity|simpl; lia|]);
      repeat constructor; exists coords; done.
  - exists []. rewrite app_nil_r. split_and!; [done|simpl; lia|constructor].
Qed.

Lemma assignAll_log db log selected best now :
  ∃ ws, (assignAll (V := V) db log selected best now).1 = (log ++ ws)%list ∧
    (length ws <= length selected)%nat ∧
    Forall (λ ev, ∃ c, c ∈ selected ∧ assigns best now c ev) ws.
Proof.
  unfold assignAll. generalize (@nil assign_error) as errs. revert log.
  induction selected as [|c selected IH]; intros log errs; simpl.
  { exists []. rewrite app_nil_r. split_and!; [done|simpl; lia|constructor]. }
  destruct (assignDesiredVersion_log db log c best now) as (w & Hw & Hlen & Hf).
  assert (Hstep : ∃ e, assignStep db best now (log, errs) c = ((log ++ w)%list, e)).
  { unfold assignStep. destruct (assignDesiredVersion db log c best now) as [log' []];
      simpl in Hw; subst log'; eauto. }
  destruct Hstep as [e ->]. destruct (IH (log ++ w)%list e) as (ws & Hws & Hl & Hfs).
  exists (w ++ ws)%list. rewrite Hws, app_assoc, length_app. split_and!; [done|lia|].
  apply Forall_app. split; eapply Forall_impl; eauto; simpl.
  - intros ev Hev. exists c. split; [left|done].
  - intros ev (c0 & Hin & Hev). exists c0. split; [by right|done].
Qed.

Lemma recordCondition_log db ops log rollout decision errs :
  ∃ cs, (recordCondition (V := V) db ops log rollout decision errs).1 = (log ++ cs)%list ∧
    Forall isRolloutWrite cs.
Proof.
  unfold recordCondition.
  destruct (match errs with [] => _ | _ :: _ => _ end) as [[degraded reason] message].
  destruct (bool_decide _).
  { exists []. by rewrite app_nil_r. }
  unfold runReplaceRollout, attempt.
  destruct (db_replaceRollout _ _ _ _) as [|[]]; eexists [_]; (split; [reflexivity|repeat constructor]).
Qed.

Lemma Select_subset {A} perm (candidates : list A) n :
  (∀ a, a ∈ RandomClusterSelector_Select perm candidates n → a ∈ candidates) ∧
  Z.of_nat (length (RandomClusterSelector_Select perm candidates n)) <= Z.max 0 n.
Proof.
  unfold RandomClusterSelector_Select. destruct (_ || _) eqn:E.
  { split; [set_solver|simpl; lia]. }
  bool_reflect. destruct (_ <=? n) eqn:E2; bool_reflect.
  { split; [done|lia]. }
  split.
  - intros a (idx & _ & Ha)%list_elem_of_omap. by eapply list_elem_of_lookup_2.
  - assert (Hl : ∀ l : list nat, (length (omap (λ idx, candidates !! idx) l) <= length l)%nat).
    { induction l as [|i l IH]; csimpl; [lia|]. destruct (candidates !! i); csimpl; lia. }
    specialize (Hl (take (Z.to_nat n) perm)). rewrite length_take in Hl. lia.
Qed.

(** The writes of the last part of a sync: nothing but conditions when nothing is
    selected; otherwise the reservation of the batch comes first, the cluster
    writes follow only when it succeeded, and there are at most [SelectCount]. *)
Definition batchLog (rollout : Rollout V) (now : Z) (eligible : list (ServiceProviderCluster V))
    (selectCount : Z) log : Prop :=
  ∃ rs ws cs, log = (rs ++ ws ++ cs)%list ∧
    Forall isRolloutWrite rs ∧ Forall isRolloutWrite cs ∧
    Z.of_nat (length ws) <= Z.max 0 selectCount ∧
    (ws ≠ [] → rs = [{| ev_op := ReplaceRollout (withLastAssignmentTime rollout now) rollout;
                        ev_done := true |}]) ∧
    Forall (λ ev, ∃ best c, ro_BestExactVersion rollout = Some best ∧ c ∈ eligible ∧
                            assigns best now c ev) ws.

Lemma advanceClusters_log db ops inputs rollout eligible decision :
  batchLog rollout (pi_assignNow inputs) eligible (SelectCount decision)
    (advanceClusters (V := V) db ops inputs rollout eligible decision).1.
Proof.
  unfold advanceClusters.
  assert (Hrec : batchLog rollout (pi_assignNow inputs) eligible (SelectCount decision)
      (let '(log, conditionErr) := recordCondition db ops [] rollout decision [] in
       (log, joinErrors [] conditionErr)).1).
  { destruct (recordCondition_log db ops [] rollout decision []) as (cs & Hcs & Hf).
    destruct (recordCondition _ _ _ _ _ _) as [log e]. simpl in *. subst log.
    exists [], [], cs. split_and!; [done|done|done|simpl; lia|done|constructor]. }
  destruct (ro_BestExactVersion rollout) as [best|] eqn:Hbest; [|exact Hrec].
  destruct (0 <? SelectCount decision); [|exact Hrec]. clear Hrec.
  unfold runReplaceRollout, attempt. set (reserve := ReplaceRollout _ _).
  destruct (db_replaceRollout _ _ _ _) as [reserved|e]; cbn [is_ok app].
  2: { exists [{| ev_op := reserve; ev_done := false |}], [], [].
       split_and!; try done; try (simpl; lia); try (by destruct e); repeat constructor. }
  set (selected := RandomClusterSelector_Select _ _ _).
  destruct (assignAll_log db [{| ev_op := reserve; ev_done := true |}] selected best (pi_assignNow inputs))
    as (ws & Hws & Hlen & Hf).
  destruct (assignAll _ _ _ _ _) as [log errs]. simpl in Hws. subst log.
  destruct (recordCondition_log db ops ({| ev_op := reserve; ev_done := true |} :: ws) reserved decision errs)
    as (cs & Hcs & Hfc).
  destruct (recordCondition _ _ _ _ _ _) as [log e]. simpl in *. subst log.
  exists [{| ev_op := reserve; ev_done := true |}], ws, cs.
  destruct (Select_subset (pi_perm inputs (length eligible)) eligible (SelectCount decision)) as [Hsub Hcount].
  fold selected in Hsub, Hcount.
  split_and!; [done|repeat constructor|done|lia|done|].
  eapply Forall_impl; [exact Hf|]. intros ev (c & Hc & Ha). exists best, c. auto.
Qed.

End writes.

Section sync.
Context {V : Type} `{SemverLaws V}.

(** What a sync that gets past its guards computes. *)
Definition syncEligible (rollout : Rollout V) (members : list (ServiceProviderCluster V))
    (clusters : list (Cluster V)) : list (ServiceProviderCluster V) :=
  match ro_BestExactVersion rollout with
  | Some best => eligibleClusters members best (clustersWithExperimentalAssignment clusters)
  | None => []
  end.

Definition syncDecision (config : RolloutConfig V) (now : Z) (rollout : Rollout V)
    (members : list (ServiceProviderCluster V)) (clusters : list (Cluster V)) : rolloutDecisionResult :=
  rolloutDecision (ro_BestExactVersion rollout) (computeRolloutStatusCounts members config now)
    (Z.of_nat (length members)) (Z.of_nat (length (syncEligible rollout members clusters))) config.

(** A sync either writes nothing or got past the cooldown and read everything. *)
Lemma progressiveSyncOnce_log db ops config (inputs : progressiveInputs) :
  let log := (progressiveSyncOnce (V := V) db ops config inputs).1 in
  log = [] ∨
  ∃ rollout members clusters,
    pi_rollout inputs = Ok rollout ∧
    (∀ last, rs_LastAssignmentTime (ro_Status rollout) = Some last →
       last + Minute <= pi_cooldownNow inputs) ∧
    serviceProviderClustersForChannel (pi_clusters inputs) (pi_serviceProviderClusters inputs)
      (pi_channel inputs) = Ok members ∧
    pi_clustersAgain inputs = Ok clusters ∧
    batchLog rollout (pi_assignNow inputs) (syncEligible rollout members clusters)
      (SelectCount (syncDecision config (pi_countNow inputs) rollout members clusters)) log.
Proof.
  unfold progressiveSyncOnce. destruct (pi_rollout inputs) as [rollout|[]]; [|by left..].
  destruct (0 <? _) eqn:Ecool; [by left|].
  destruct (serviceProviderClustersForChannel _ _ _) as [members|]; [|by left].
  destruct (pi_clustersAgain inputs) as [clusters|]; [|by left].
  right. exists rollout, members, clusters. split_and!; [done| |done|done|].
  - intros last Hlast. rewrite Hlast in Ecool. bool_reflect. unfold timeSub in Ecool. lia.
  - pose proof (advanceClusters_log db ops inputs rollout (syncEligible rollout members clusters)
      (syncDecision config (pi_countNow inputs) rollout members clusters)) as Hlog.
    unfold syncDecision, syncEligible in *.
    destruct (advanceClusters _ _ _ _ _ _) as [log e]. exact Hlog.
Qed.

Lemma isEligible_spec (best : V) experimental (c : ServiceProviderCluster V) :
  isEligible best experimental c = true →
  (∃ desired, spc_DesiredVersion c = Some desired ∧ LT desired best = true) ∧
  (∀ key, parentKey c = Some key → key ∉ experimental) ∧
  (ExactVersion (spc_PinnedVersion c) = None ∨
   ∃ until, UntilExactVersion (spc_PinnedVersion c) = Some until ∧ LTE until best = true).
Proof.
  unfold isEligible. destruct (parentKey c) as [key|].
  - case_bool_decide; [done|]. destruct (spc_DesiredVersion c) as [d|]; [|done].
    destruct (LT d best) eqn:E; [simpl|done]. intros Hp. split_and!; [eauto|naive_solver|].
    destruct (ExactVersion _), (UntilExactVersion _); naive_solver.
  - destruct (spc_DesiredVersion c) as [d|]; [|done].
    destruct (LT d best) eqn:E; [simpl|done]. intros Hp. split_and!; [eauto|naive_solver|].
    destruct (ExactVersion _), (UntilExactVersion _); naive_solver.
Qed.

Lemma elem_clustersWithExperimentalAssignment (clusters : list (Cluster V)) cluster id :
  cluster ∈ clusters → cl_ID cluster = Some id →
  is_Some (cl_ControlPlaneExactVersion cluster) ∨
  cl_ZStreamUpdatePolicy cluster = ImmediateZStreamUpdatePolicy →
  ToLower id ∈ clustersWithExperimentalAssignment clusters.
Proof.
  intros Hin Hid Hx. unfold clustersWithExperimentalAssignment.
  set (f := λ (out : gset string) (cluster : Cluster V), _).
  assert (Hmono : ∀ l out, ToLower id ∈ out → ToLower id ∈ fold_left f l out).
  { induction l as [|c l IH]; intros out Ho; simpl; [done|]. apply IH. unfold f.
    destruct (cl_ID c); [|done]. destruct (_ || _); set_solver. }
  generalize (∅ : gset string) as out. revert Hin.
  induction clusters as [|c l IH]; intros Hin out; [set_solver|].
  apply elem_of_cons in Hin as [->|Hin]; simpl; [|by apply IH].
  apply Hmono. unfold f. rewrite Hid.
  destruct (_ || _) eqn:E; [set_solver|]. bool_reflect.
  match goal with Hs : String.eqb _ _ = false |- _ => apply String.eqb_neq in Hs end.
  naive_solver.
Qed.

(** The setter replaces a lower desired version and nothing else but its time. *)
Lemma setDesiredVersion_lower (c : ServiceProviderCluster V) desired best now :
  spc_DesiredVersion c = Some desired → LT desired best = true →
  setDesiredVersion c (Some best) now = {|
    spc_ResourceID := spc_ResourceID c;
    spc_DesiredVersion := Some best;
    spc_DesiredVersionLastTransitionTime := Some now;
    spc_PinnedVersion := spc_PinnedVersion c;
    spc_ActiveVersions := spc_ActiveVersions c |}.
Proof.
  intros Hd Hlt. unfold setDesiredVersion. rewrite Hd. by rewrite (LT_not_EQ _ _ Hlt).
Qed.

Lemma serviceProviderClustersForChannel_spec clusters spcs channel members :
  serviceProviderClustersForChannel (V := V) clusters spcs channel = Ok members →
  ∃ cls l profile, clusters = Ok cls ∧ spcs = Ok l ∧
    RolloutVersionFromName (V := V) channel = Ok profile ∧
    members = List.filter
      (inChannel (channelGroupByClusterID cls) (vp_ChannelGroup profile) (vp_ID profile)) l.
Proof.
  unfold serviceProviderClustersForChannel, filterServiceProviderClustersForChannel.
  destruct clusters as [cls|]; [|done]. destruct spcs as [l|]; [|done].
  destruct (RolloutVersionFromName _) as [p|]; [|done]. intros [= <-]. eauto 10.
Qed.

(** An entry of the channel groups belongs to a cluster that is not being deleted. *)
Lemma channelGroupByClusterID_lookup (clusters : list (Cluster V)) key group :
  channelGroupByClusterID clusters !! key = Some group →
  ∃ cluster id, cluster ∈ clusters ∧ cl_ID cluster = Some id ∧ key = ToLower id ∧
    cl_DeletionTimestamp cluster = None ∧ vp_ChannelGroup (cl_Version cluster) = group.
Proof.
  unfold channelGroupByClusterID. induction clusters as [|cluster l IH] using rev_ind; [done|].
  rewrite fold_left_app. simpl.
  match type of IH with ?P → _ => assert (Hold : P → ∃ c id, c ∈ (l ++ [cluster])%list ∧
    cl_ID c = Some id ∧ key = ToLower id ∧ cl_DeletionTimestamp c = None ∧
    vp_ChannelGroup (cl_Version c) = group) end.
  { intros Hl. destruct (IH Hl) as (x & id & Hx & HQ). exists x, id. rewrite elem_of_app. tauto. }
  destruct (cl_ID cluster) as [id|] eqn:Eid; [|exact Hold].
  destruct (cl_DeletionTimestamp cluster) eqn:Ed; [exact Hold|].
  rewrite lookup_insert_Some. intros [[<- <-]|[_ Hl]]; [|by apply Hold].
  exists cluster, id. rewrite elem_of_app, list_elem_of_singleton. auto.
Qed.

(** (C26) Every cluster write of a sync is safe: the batch was reserved first and the
    last one is at least a minute old; the cluster is one of the channel (its resource
    is listed, is not being deleted and asks for the group of the channel, and its
    desired version is of the release line of the channel) with a desired version
    below the best one, is not owned by the forced assignment
    controller, and is not held by a pin; the write sets the desired version to
    the best version and changes nothing else but its timestamp. *)
Theorem progressive_writes_safe db ops config (inputs : progressiveInputs (V := V)) ev coords r :
  ev ∈ (progressiveSyncOnce db ops config inputs).1 → ev_op ev = ReplaceCluster coords r →
  ∃ rollout best desired c clusters spcs again profile,
    pi_rollout inputs = Ok rollout ∧ ro_BestExactVersion rollout = Some best ∧
    (∀ last, rs_LastAssignmentTime (ro_Status rollout) = Some last →
       last + Minute <= pi_cooldownNow inputs) ∧
    (∃ log', (progressiveSyncOnce db ops config inputs).1 =
       {| ev_op := ReplaceRollout (withLastAssignmentTime rollout (pi_assignNow inputs)) rollout;
          ev_done := true |} :: log' ∧ ev ∈ log') ∧
    pi_clusters inputs = Ok clusters ∧ pi_serviceProviderClusters inputs = Ok spcs ∧
    pi_clustersAgain inputs = Ok again ∧
    RolloutVersionFromName (V := V) (pi_channel inputs) = Ok profile ∧
    c ∈ spcs ∧ serviceProviderClusterCoords c = Some coords ∧
    spc_DesiredVersion c = Some desired ∧ LT desired best = true ∧ minorString desired = vp_ID profile ∧
    (∃ cluster id, cluster ∈ clusters ∧ cl_ID cluster = Some id ∧
       parentKey c = Some (ToLower id) ∧ cl_DeletionTimestamp cluster = None ∧
       vp_ChannelGroup (cl_Version cluster) = vp_ChannelGroup profile) ∧
    (∀ cluster id, cluster ∈ again → cl_ID cluster = Some id → parentKey c = Some (ToLower id) →
       cl_ControlPlaneExactVersion cluster = None ∧
       cl_ZStreamUpdatePolicy cluster ≠ ImmediateZStreamUpdatePolicy) ∧
    (ExactVersion (spc_PinnedVersion c) = None ∨
     ∃ until, UntilExactVersion (spc_PinnedVersion c) = Some until ∧ LTE until best = true) ∧
    r = {| spc_ResourceID := spc_ResourceID c;
           spc_DesiredVersion := Some best;
           spc_DesiredVersionLastTransitionTime := Some (pi_assignNow inputs);
           spc_PinnedVersion := spc_PinnedVersion c;
           spc_ActiveVersions := spc_ActiveVersions c |}.
Proof.
  intros Hin Hop.
  destruct (progressiveSyncOnce_log db ops config inputs)
    as [Hnil|(rollout & members & again & Hr & Hcool & Hm & Hagain & Hlog)].
  { rewrite Hnil in Hin. set_solver. }
  destruct Hlog as (rs & ws & cs & Hlog & Hrs & Hcs & _ & Hres & Hws). rewrite Hlog in Hin |- *.
  assert (Hw : ev ∈ ws).
  { rewrite !elem_of_app in Hin. destruct Hin as [Hi|[Hi|Hi]]; [|done|].
    - rewrite Forall_forall in Hrs. apply Hrs in Hi. unfold isRolloutWrite in Hi. by rewrite Hop in Hi.
    - rewrite Forall_forall in Hcs. apply Hcs in Hi. unfold isRolloutWrite in Hi. by rewrite Hop in Hi. }
  rewrite Hres in * by (intros ->; set_solver).
  rewrite Forall_forall in Hws. destruct (Hws ev Hw) as (best & c & Hbest & Hc & coords' & Hcoords & Hop').
  rewrite Hop in Hop'. injection Hop' as -> ->.
  unfold syncEligible in Hc. rewrite Hbest in Hc. unfold eligibleClusters in Hc.
  rewrite list_elem_of_In, filter_In, <- list_elem_of_In in Hc. destruct Hc as [Hc Helig].
  destruct (serviceProviderClustersForChannel_spec _ _ _ _ Hm) as (cls & l & profile & Hcls & Hl & Hp & ->).
  rewrite list_elem_of_In, filter_In, <- list_elem_of_In in Hc. destruct Hc as [Hc Hch].
  apply isEligible_spec in Helig as ((desired & Hd & Hlt) & Hexp & Hpin).
  exists rollout, best, desired, c, cls, l, again, profile. split_and!; try done.
  - exists (ws ++ cs)%list. split; [done|]. set_solver.
  - unfold inChannel, clusterMinor in Hch. rewrite Hd in Hch. bool_reflect. congruence.
  - unfold inChannel in Hch. apply andb_true_iff in Hch as [_ Hch].
    destruct (parentKey c) as [key|]; [|done]. apply bool_decide_eq_true in Hch.
    apply channelGroupByClusterID_lookup in Hch as (cluster & id & ? & ? & -> & ? & ?). eauto 10.
  - intros cluster id Hcl Hid Hpar. specialize (Hexp _ Hpar).
    destruct (cl_ControlPlaneExactVersion cluster) eqn:Ex.
    { destruct Hexp. eapply elem_clustersWithExperimentalAssignment; eauto. }
    split; [done|]. intros Hpol. destruct Hexp. eapply elem_clustersWithExperimentalAssignment; eauto.
  - by eapply setDesiredVersion_lower.
Qed.

End sync.
