(* ===== verification/RolloutInvariant.v ===== *)
(** * Control plane version rollout: how many clusters upgrade at once

    The effect of a sync's writes on the fleet, and the invariant that the number
    of clusters on their way to the best version never exceeds the larger of the
    canary and the rolling allowance. *)
From S2P Require Import Prelude GoStrings RolloutTypes RolloutStatus RolloutProgressive RolloutSafety.

Local Open Scope string_scope.
Local Open Scope Z_scope.

Section effect.
Context {V : Type} `{SemverLaws V}.
Implicit Types (c r : ServiceProviderCluster V) (l : list (ServiceProviderCluster V)).

(** ** The effect of writes *)

(** A successful replacement changes the document with its coordinates. *)
Definition replaceAt (coords : coordinates) r l : list (ServiceProviderCluster V) :=
  (λ c, if bool_decide (serviceProviderClusterCoords c = Some coords) then r else c) <$> l.

Definition applyEvent l (ev : dbEvent V) : list (ServiceProviderCluster V) :=
  match ev_op ev, ev_done ev with
  | ReplaceCluster coords r, true => replaceAt coords r l
  | _, _ => l
  end.

Definition applyLog (log : list (dbEvent V)) l : list (ServiceProviderCluster V) :=
  fold_left applyEvent log l.

(** Documents are identified by their coordinates. *)
Definition uniqueCoords l : Prop := NoDup (omap serviceProviderClusterCoords l).

(** A write keeps identity and status of the document it replaces. *)
Definition sameStatus c c' : Prop :=
  spc_ResourceID c' = spc_ResourceID c ∧ spc_ActiveVersions c' = spc_ActiveVersions c.

Lemma setDesiredVersion_sameStatus c v now : sameStatus c (setDesiredVersion c v now).
Proof.
  unfold sameStatus, setDesiredVersion. destruct (spc_DesiredVersion c), v; try done.
  by destruct (_ && _).
Qed.

Lemma sameStatus_coords c c' :
  sameStatus c c' → serviceProviderClusterCoords c' = serviceProviderClusterCoords c.
Proof. intros [Hid _]. unfold serviceProviderClusterCoords. by rewrite Hid. Qed.

(** Replacing a document that is not there does nothing. *)
Lemma replaceAt_absent coords r l :
  coords ∉ omap serviceProviderClusterCoords l → replaceAt coords r l = l.
Proof.
  unfold replaceAt. induction l as [|c l IH]; csimpl; [done|]. intros Hn.
  destruct (serviceProviderClusterCoords c) as [x|] eqn:E.
  - apply not_elem_of_cons in Hn as [Hx Hn]. rewrite bool_decide_false by congruence. by rewrite IH.
  - rewrite bool_decide_false by done. by rewrite IH.
Qed.

(** ** In flight, done, successful *)

(** What a cluster contributes to [mismatched + achieved] at the key [k]. *)
Definition inFlightWeight (k : string) c : Z :=
  Z.b2z (desiresAt k c && isMismatched c) + Z.b2z (achievedAt k c).

Definition successWeight (k : string) (config : RolloutConfig V) (now : Z) c : Z :=
  Z.b2z (achievedAt k c && heldLong config now c).

Lemma countb_Zsum {A} (p : A → bool) (l : list A) : countb p l = Zsum ((λ a, Z.b2z (p a)) <$> l).
Proof.
  induction l as [|a l IH]; [done|]. rewrite countb_cons, IH, fmap_cons, Zsum_cons.
  by destruct (p a).
Qed.

Lemma counts_weights l config now k :
  Z.of_nat (length l) < 2 ^ 63 →
  let counts := computeRolloutStatusCounts l config now in
  count (Mismatched counts) k + count (Achieved counts) k = Zsum (inFlightWeight k <$> l) ∧
  count (Successful counts) k = Zsum (successWeight k config now <$> l).
Proof.
  intros Hl. cbv zeta. destruct (counts_exact l config now k Hl) as (_ & -> & _ & -> & ->).
  rewrite !countb_Zsum. split; [|done]. by rewrite <- Zsum_map_add.
Qed.

Lemma sameStatus_achieved c c' : sameStatus c c' → achievedVersion c' = achievedVersion c.
Proof. intros [_ Ha]. unfold achievedVersion. by rewrite Ha. Qed.

Lemma sameStatus_success k config now c c' :
  sameStatus c c' → successWeight k config now c' = successWeight k config now c.
Proof.
  intros Hs. unfold successWeight, achievedAt, heldLong. rewrite (sameStatus_achieved _ _ Hs).
  destruct Hs as [_ ->]. done.
Qed.

(** Assigning a version puts at most one more cluster in flight. *)
Lemma sameStatus_weight k c c' : sameStatus c c' → inFlightWeight k c' <= inFlightWeight k c + 1.
Proof.
  intros Hs. unfold inFlightWeight. unfold achievedAt. rewrite (sameStatus_achieved _ _ Hs).
  destruct (desiresAt k c' && _), (desiresAt k c && _), (bool_decide _); simpl; lia.
Qed.

(** ** One replacement *)

Lemma replaceAt_effect k config now coords r l :
  uniqueCoords l →
  (∀ c, c ∈ l → serviceProviderClusterCoords c = Some coords → sameStatus c r) →
  Forall2 sameStatus l (replaceAt coords r l) ∧
  Zsum (inFlightWeight k <$> replaceAt coords r l) <= Zsum (inFlightWeight k <$> l) + 1 ∧
  Zsum (successWeight k config now <$> replaceAt coords r l) = Zsum (successWeight k config now <$> l).
Proof.
  unfold uniqueCoords. induction l as [|c l IH]; intros Hnd Hs.
  { split_and!; [constructor|done|done]. }
  assert (Hrefl : ∀ l, Forall2 sameStatus l l).
  { intros l'. induction l'; constructor; done. }
  csimpl in Hnd. unfold replaceAt. rewrite fmap_cons. fold (replaceAt coords r l).
  rewrite !fmap_cons, !Zsum_cons.
  case_bool_decide as Hc.
  - rewrite Hc in Hnd. apply NoDup_cons in Hnd as [Hnot Hnd].
    rewrite replaceAt_absent by done.
    assert (Hcr : sameStatus c r) by (apply Hs; [left|done]).
    pose proof (sameStatus_weight k _ _ Hcr). pose proof (sameStatus_success k config now _ _ Hcr).
    split_and!; [constructor; done|lia|lia].
  - destruct IH as (IH1 & IH2 & IH3).
    + destruct (serviceProviderClusterCoords c); [by apply NoDup_cons in Hnd as [_ Hnd]|done].
    + intros c' Hin. apply Hs. by right.
    + split_and!; [constructor; done|lia|lia].
Qed.

(** ** A whole batch *)

Lemma uniqueCoords_inj l c1 c2 coords :
  uniqueCoords l → c1 ∈ l → c2 ∈ l →
  serviceProviderClusterCoords c1 = Some coords → serviceProviderClusterCoords c2 = Some coords →
  c1 = c2.
Proof.
  unfold uniqueCoords. induction l as [|c l IH]; intros Hnd H1 H2 Hc1 Hc2; [set_solver|].
  assert (Htl : ∀ c', c' ∈ l → serviceProviderClusterCoords c' = Some coords →
    coords ∈ omap serviceProviderClusterCoords l).
  { intros c' Hin Hc'. apply list_elem_of_omap. eauto. }
  csimpl in Hnd. apply elem_of_cons in H1, H2.
  destruct (serviceProviderClusterCoords c) as [x|] eqn:E.
  - apply NoDup_cons in Hnd as [Hn Hnd].
    destruct H1 as [->|H1], H2 as [->|H2]; [done| | |by apply IH].
    + rewrite E in Hc1. simplify_eq. destruct Hn. by eapply Htl.
    + rewrite E in Hc2. simplify_eq. destruct Hn. by eapply Htl.
  - destruct H1 as [->|H1], H2 as [->|H2]; [congruence..|by apply IH].
Qed.

Lemma sameStatus_unique l l' : Forall2 sameStatus l l' → uniqueCoords l → uniqueCoords l'.
Proof.
  intros Hf. unfold uniqueCoords.
  replace (omap serviceProviderClusterCoords l') with (omap serviceProviderClusterCoords l); [done|].
  induction Hf as [|c c' l l' Hs Hf IH]; csimpl; [done|].
  by rewrite (sameStatus_coords _ _ Hs), IH.
Qed.

(** An attempted assignment to a document of [l0], applied to a later state [l]. *)
Lemma applyEvent_effect k config now l0 l ev best at_ c :
  uniqueCoords l0 → Forall2 sameStatus l0 l → c ∈ l0 → assigns best at_ c ev →
  Forall2 sameStatus l0 (applyEvent l ev) ∧
  Zsum (inFlightWeight k <$> applyEvent l ev) <= Zsum (inFlightWeight k <$> l) + 1 ∧
  Zsum (successWeight k config now <$> applyEvent l ev) = Zsum (successWeight k config now <$> l).
Proof.
  intros Hu Hf Hin (coords & Hc & Hop). unfold applyEvent. rewrite Hop.
  destruct (ev_done ev); [|split_and!; [done|lia|done]].
  set (r := setDesiredVersion c (Some best) at_).
  destruct (replaceAt_effect k config now coords r l) as (H1 & H2 & H3).
  - by eapply sameStatus_unique.
  - intros c' Hc' Hcc'. apply list_elem_of_lookup in Hc' as [i Hi].
    destruct (Forall2_lookup_r _ _ _ _ _ Hf Hi) as (c0 & Hi0 & Hs0).
    assert (c0 = c) as ->.
    { eapply (uniqueCoords_inj l0); eauto using list_elem_of_lookup_2.
      by rewrite <- (sameStatus_coords _ _ Hs0). }
    destruct (setDesiredVersion_sameStatus c (Some best) at_) as [Hr1 Hr2].
    destruct Hs0 as [Hs1 Hs2]. split; [by rewrite Hs1|by rewrite Hs2].
  - split_and!; [|done|done]. eapply Forall2_trans; [|exact Hf|exact H1].
    intros x y z [? ?] [? ?]. split; congruence.
Qed.

Lemma applyLog_assignments k config now l0 ws l :
  uniqueCoords l0 → Forall2 sameStatus l0 l →
  Forall (λ ev, ∃ best at_ c, c ∈ l0 ∧ assigns best at_ c ev) ws →
  Forall2 sameStatus l0 (applyLog ws l) ∧
  Zsum (inFlightWeight k <$> applyLog ws l) <= Zsum (inFlightWeight k <$> l) + Z.of_nat (length ws) ∧
  Zsum (successWeight k config now <$> applyLog ws l) = Zsum (successWeight k config now <$> l).
Proof.
  intros Hu Hf Hws. revert l Hf. induction Hws as [|ev ws (best & at_ & c & Hc & Ha) Hws IH]; intros l Hf.
  { split_and!; [done|simpl; lia|done]. }
  destruct (applyEvent_effect k config now l0 l ev best at_ c Hu Hf Hc Ha) as (H1 & H2 & H3).
  destruct (IH _ H1) as (IH1 & IH2 & IH3). unfold applyLog in *. simpl.
  split_and!; [done|lia|congruence].
Qed.

Lemma applyLog_rollout (log : list (dbEvent V)) l : Forall isRolloutWrite log → applyLog log l = l.
Proof.
  intros Hf. revert l. induction Hf as [|ev log Hev Hf IH]; intros l; [done|].
  unfold applyLog in *. simpl. rewrite IH. unfold applyEvent, isRolloutWrite in *.
  by destruct (ev_op ev).
Qed.

Lemma applyLog_app (log1 log2 : list (dbEvent V)) l :
  applyLog (log1 ++ log2)%list l = applyLog log2 (applyLog log1 l).
Proof. apply fold_left_app. Qed.

(** The clusters after a batch: same documents, and at most [SelectCount] more of
    them in flight. *)
Lemma batchLog_effect k config now rollout at_ eligible n log l :
  batchLog rollout at_ eligible n log → uniqueCoords l → (∀ c, c ∈ eligible → c ∈ l) →
  Forall2 sameStatus l (applyLog log l) ∧
  Zsum (inFlightWeight k <$> applyLog log l) <= Zsum (inFlightWeight k <$> l) + Z.max 0 n ∧
  Zsum (successWeight k config now <$> applyLog log l) = Zsum (successWeight k config now <$> l).
Proof.
  intros (rs & ws & cs & -> & Hrs & Hcs & Hn & _ & Hws) Hu Hsub.
  rewrite !applyLog_app, (applyLog_rollout rs), (applyLog_rollout cs) by done.
  destruct (applyLog_assignments k config now l ws l) as (H1 & H2 & H3); [done| | |].
  - apply Forall2_same_length_lookup. split; [done|]. intros; simplify_eq. done.
  - eapply Forall_impl; [exact Hws|]. intros ev (best & c & _ & Hc & Ha). eauto 10.
  - split_and!; [done|lia|done].
Qed.

End effect.

Section invariant.
Context {V : Type} `{SemverLaws V}.
Variable config : RolloutConfig V.
Variable best : V.
Implicit Types (c : ServiceProviderCluster V) (l : list (ServiceProviderCluster V)).

Local Notation key := (semver_String best).

Definition inFlight (now : Z) l : Z :=
  Zsum (inFlightWeight key <$> l) - Zsum (successWeight key config now <$> l).

Definition total l : Z := Z.of_nat (length l).

(** ** A batch stays within the allowance *)

Lemma sync_effect db ops (inputs : progressiveInputs (V := V)) rollout members :
  configOk config → fleetSize (total members) → uniqueCoords members →
  pi_rollout inputs = Ok rollout → ro_BestExactVersion rollout = Some best →
  serviceProviderClustersForChannel (pi_clusters inputs) (pi_serviceProviderClusters inputs)
    (pi_channel inputs) = Ok members →
  let log := (progressiveSyncOnce db ops config inputs).1 in
  let now := pi_countNow inputs in
  let counts := computeRolloutStatusCounts members config now in
  let failed := count (Failed counts) key in
  Forall2 sameStatus members (applyLog log members) ∧
  Zsum (successWeight key config now <$> applyLog log members)
    = Zsum (successWeight key config now <$> members) ∧
  (applyLog log members = members ∨
   (failed <= 2 ∨ 20 * failed <= count (Desired counts) key) ∧
   (Zsum (inFlightWeight key <$> applyLog log members) <= canaryThreshold config (total members) ∨
    percentOfCeil (CanaryPercentage config) (total members) <= count (Successful counts) key ∧
    inFlight now (applyLog log members) <= rollingThreshold config (total members))).
Proof.
  intros Hc Hs Hu Hr Hb Hm log now counts failed.
  assert (Hrefl : Forall2 sameStatus members members).
  { apply Forall2_same_length_lookup. split; [done|]. intros; simplify_eq. done. }
  destruct (progressiveSyncOnce_log db ops config inputs)
    as [Hnil|(rollout' & members' & clusters & Hr' & _ & Hm' & _ & Hlog)].
  { unfold log. rewrite Hnil. split_and!; [done|done|by left]. }
  assert (rollout' = rollout) as -> by congruence. assert (members' = members) as -> by congruence.
  fold log now in Hlog. set (elig := syncEligible rollout members clusters) in *.
  assert (Hsub : ∀ c, c ∈ elig → c ∈ members).
  { intros c. unfold elig, syncEligible. rewrite Hb. unfold eligibleClusters.
    rewrite !list_elem_of_In, filter_In. naive_solver. }
  assert (Hlen : 0 <= Z.of_nat (length elig) <= total members).
  { unfold elig, syncEligible, total. rewrite Hb. unfold eligibleClusters.
    pose proof (List.filter_length_le (isEligible best (clustersWithExperimentalAssignment clusters)) members). lia. }
  destruct (batchLog_effect key config now _ _ _ _ _ _ Hlog Hu Hsub) as (H1 & H2 & H3).
  split_and!; [done|done|].
  destruct (rolloutDecision_bounds best counts (total members) (Z.of_nat (length elig)) config Hc Hs Hlen)
    as [Hsel Hbound]; [by apply counts_within|].
  destruct (counts_weights members config now key) as [Hw1 Hw2]; [unfold fleetSize, total in Hs; lia|].
  unfold syncDecision in Hlog, H2. fold elig in Hlog, H2. rewrite Hb in Hlog, H2.
  fold counts (total members) in Hlog, H2, Hw1, Hw2.
  set (d := rolloutDecision _ _ _ _ _) in *.
  destruct (Z.le_gt_cases (SelectCount d) 0) as [Hz|Hpos].
  - left. destruct Hlog as (rs & ws & cs & -> & Hrs & Hcs & Hn & _).
    assert (ws = []) as -> by (destruct ws; [done|simpl in Hn; lia]).
    by rewrite !applyLog_app, !applyLog_rollout by done.
  - right. destruct (Hbound ltac:(lia)) as [Hfail Hcase]. split; [done|].
    unfold inFlight. rewrite H3. destruct Hcase as [[_ Hcan]|(_ & Hgate & Hroll)].
    + left. unfold d in *. lia.
    + right. split; [done|]. unfold d in *. lia.
Qed.

(** ** Steps of the fleet *)

(** The upgrade of [c] to its desired version [d] completes at [now]. *)
Definition upgraded c (d : V) (now : Z) : ServiceProviderCluster V := {|
  spc_ResourceID := spc_ResourceID c;
  spc_DesiredVersion := spc_DesiredVersion c;
  spc_DesiredVersionLastTransitionTime := spc_DesiredVersionLastTransitionTime c;
  spc_PinnedVersion := spc_PinnedVersion c;
  spc_ActiveVersions :=
    [{| av_Version := Some d; av_State := CompletedUpdate; av_LastTransitionTime := now |}] |}.

(** The members of a channel and the time: a sync (with any answers of the
    database), a completing upgrade, time passing. *)
Inductive fleetStep : list (ServiceProviderCluster V) * Z → list (ServiceProviderCluster V) * Z → Prop :=
  | step_sync db ops inputs rollout members now :
      pi_rollout inputs = Ok rollout → ro_BestExactVersion rollout = Some best →
      serviceProviderClustersForChannel (pi_clusters inputs) (pi_serviceProviderClusters inputs)
        (pi_channel inputs) = Ok members →
      pi_countNow inputs = now →
      fleetStep (members, now) (applyLog (progressiveSyncOnce db ops config inputs).1 members, now)
  | step_upgraded l1 c l2 d now :
      spc_DesiredVersion c = Some d → isMismatched c = true →
      fleetStep ((l1 ++ c :: l2)%list, now) ((l1 ++ upgraded c d now :: l2)%list, now)
  | step_time members now now' :
      now <= now' → fleetStep (members, now) (members, now').

Definition allowance (n : Z) : Z := Z.max (canaryThreshold config n) (rollingThreshold config n).

Definition fleetInv (n : Z) (s : list (ServiceProviderCluster V) * Z) : Prop :=
  total s.1 = n ∧ uniqueCoords s.1 ∧ inFlight s.2 s.1 <= allowance n.

Lemma Zsum_split (w : ServiceProviderCluster V → Z) l1 c l2 :
  Zsum (w <$> (l1 ++ c :: l2)%list) = w c + (Zsum (w <$> l1) + Zsum (w <$> l2)).
Proof. rewrite fmap_app, Zsum_app, fmap_cons, Zsum_cons. lia. Qed.

(** A completed upgrade trades a cluster in flight for a cluster that is done. *)
Lemma upgraded_weight c d now :
  configOk config → spc_DesiredVersion c = Some d → isMismatched c = true →
  inFlightWeight key (upgraded c d now) - successWeight key config now (upgraded c d now)
  <= inFlightWeight key c - successWeight key config now c.
Proof.
  intros (_ & _ & Hmin) Hd Hmm. unfold inFlightWeight, successWeight.
  assert (Hach : achievedVersion (upgraded c d now) = Some d) by done.
  assert (Hmm' : isMismatched (upgraded c d now) = false).
  { unfold isMismatched. rewrite Hach. simpl. rewrite Hd, EQ_refl. done. }
  assert (Hheld : heldLong config now (upgraded c d now) = false).
  { unfold heldLong. simpl. unfold timeSub. rewrite Z.sub_diag. simpl.
    destruct (IsZero now); [done|]. simpl. apply Z.ltb_ge. exact Hmin. }
  rewrite Hmm, Hmm', Hheld, !andb_false_r, andb_true_r. simpl.
  unfold desiresAt, achievedAt. rewrite Hach, Hd. simpl.
  case_bool_decide as Hk; simpl; [|destruct (bool_decide _), (heldLong config now c); simpl; lia].
  rewrite bool_decide_false; [done|]. unfold isMismatched in Hmm. rewrite Hd in Hmm.
  destruct (achievedVersion c) as [a|] eqn:Ea; simpl; [|done].
  intros [= Ha]. injection Hk as Hk. rewrite <- Hk in Ha.
  apply String_Compare in Ha. unfold EQ in Hmm. by rewrite Ha in Hmm.
Qed.

Lemma successWeight_time now now' c :
  now <= now' → successWeight key config now c <= successWeight key config now' c.
Proof.
  intros Ht. unfold successWeight, heldLong. destruct (achievedAt key c); [|done]. simpl.
  destruct (earliestActiveVersionEntry _) as [e|]; [|done].
  destruct (IsZero _); simpl; [done|].
  destruct (Z.ltb_spec (MinVersionReadyDuration config) (timeSub now (av_LastTransitionTime e)));
    destruct (Z.ltb_spec (MinVersionReadyDuration config) (timeSub now' (av_LastTransitionTime e)));
    simpl; try lia. unfold timeSub in *. lia.
Qed.

Lemma successWeight_sum_nonneg now l : 0 <= Zsum (successWeight key config now <$> l).
Proof. apply Zsum_map_nonneg. intros c _. unfold successWeight. by destruct (_ && _). Qed.

Lemma fleetStep_inv n s s' :
  configOk config → fleetSize n → fleetStep s s' → fleetInv n s → fleetInv n s'.
Proof.
  intros Hc Hn Hstep (Hlen & Hu & Hb). unfold fleetInv, inFlight in *. destruct Hstep; simpl in *.
  - subst. destruct (sync_effect db ops inputs rollout members Hc Hn Hu) as (Hst & Hsu & Hor); [done..|].
    cbv zeta in Hst, Hsu, Hor. split_and!.
    + unfold total. by rewrite <- (Forall2_length _ _ _ Hst).
    + by eapply sameStatus_unique.
    + unfold allowance, inFlight in *. destruct Hor as [->|[_ [Hor|[_ Hor]]]]; [done| |lia].
      rewrite Hsu. pose proof (successWeight_sum_nonneg (pi_countNow inputs) members). lia.
  - pose proof (upgraded_weight c d now Hc) as Hw. rewrite !Zsum_split in *.
    split_and!; [|  |specialize (Hw ltac:(done) ltac:(done)); lia].
    + rewrite <- Hlen. unfold total. rewrite !length_app. done.
    + unfold uniqueCoords in *. rewrite omap_app in *. csimpl in *. done.
  - split_and!; [done..|]. pose proof (Zsum_map_le (successWeight key config now)
      (successWeight key config now') members) as Hle.
    specialize (Hle ltac:(intros; by apply successWeight_time)). lia.
Qed.

Lemma mismatched_inFlight now l :
  countb (λ c, desiresAt key c && isMismatched c) l <= inFlight now l.
Proof.
  unfold inFlight. rewrite countb_Zsum.
  induction l as [|c l IH]; [done|]. rewrite !fmap_cons, !Zsum_cons.
  unfold inFlightWeight at 1, successWeight at 1.
  destruct (achievedAt key c), (heldLong config now c); simpl; lia.
Qed.

End invariant.

(** ** Theorems *)

Section theorems.
Context {V : Type} `{SemverLaws V}.

(** A sync that changes the fleet starts within the failure budget (at most two
    failed clusters, or at most five percent of those that desire the best version)
    and leaves it within its allowance: the clusters in flight or done stay
    within the canary threshold, or enough canaries are successful and the
    clusters in flight stay within the rolling threshold. *)
Theorem progressive_batch_bounded db ops config (inputs : progressiveInputs (V := V)) rollout best members :
  configOk config → fleetSize (total members) → uniqueCoords members →
  pi_rollout inputs = Ok rollout → ro_BestExactVersion rollout = Some best →
  serviceProviderClustersForChannel (pi_clusters inputs) (pi_serviceProviderClusters inputs)
    (pi_channel inputs) = Ok members →
  let k := semver_String best in
  let members' := applyLog (progressiveSyncOnce db ops config inputs).1 members in
  let before := computeRolloutStatusCounts members config (pi_countNow inputs) in
  let after := computeRolloutStatusCounts members' config (pi_countNow inputs) in
  let inFlightOrDone := count (Mismatched after) k + count (Achieved after) k in
  members' = members ∨
  (count (Failed before) k <= 2 ∨ 20 * count (Failed before) k <= count (Desired before) k) ∧
  (inFlightOrDone <= canaryThreshold config (total members) ∨
   percentOfCeil (CanaryPercentage config) (total members) <= count (Successful after) k ∧
   inFlightOrDone - count (Successful after) k <= rollingThreshold config (total members)).
Proof.
  intros Hc Hs Hu Hr Hb Hm. cbv zeta.
  destruct (sync_effect config best db ops inputs rollout members Hc Hs Hu Hr Hb Hm) as (Hst & Hsu & Hor).
  cbv zeta in Hst, Hsu, Hor. set (members' := applyLog _ members) in *.
  assert (Hlen : length members' = length members) by (symmetry; by eapply Forall2_length).
  destruct (counts_weights members' config (pi_countNow inputs) (semver_String best)) as [-> ->];
    [unfold fleetSize, total in Hs; lia|].
  destruct Hor as [Heq|[Hf Hor]]; [by left|right]. split; [done|].
  destruct (counts_weights members config (pi_countNow inputs) (semver_String best)) as [_ Hw];
    [unfold fleetSize, total in Hs; lia|].
  unfold inFlight in Hor. rewrite Hsu in *. rewrite Hw in Hor. exact Hor.
Qed.

(** (C24) Over any sequence of syncs (whatever the database answers), completing
    upgrades and passing time, the number of clusters that are upgrading to the
    best version at once never exceeds the larger of the canary threshold and the
    rolling threshold. *)
Theorem rollout_in_flight_bounded config (best : V) members now members' now' :
  configOk config → fleetSize (total members) → uniqueCoords members →
  let k := semver_String best in
  let start := computeRolloutStatusCounts members config now in
  count (Mismatched start) k + count (Achieved start) k - count (Successful start) k
    <= allowance config (total members) →
  rtc (fleetStep config best) (members, now) (members', now') →
  count (Mismatched (computeRolloutStatusCounts members' config now')) k
    <= allowance config (total members).
Proof.
  intros Hc Hs Hu k start Hstart Hrtc.
  assert (Hinv : fleetInv config best (total members) (members, now)).
  { split_and!; [done|done|]. simpl. unfold inFlight.
    destruct (counts_weights members config now (semver_String best)) as [<- <-];
      [unfold fleetSize, total in Hs; lia|done]. }
  assert (Hinv' : fleetInv config best (total members) (members', now')).
  { clear Hstart. remember (members, now) as s eqn:Es. remember (members', now') as s' eqn:Es'.
    clear Es Es'. induction Hrtc; [done|]. apply IHHrtc. by eapply fleetStep_inv. }
  destruct Hinv' as (Hlen & _ & Hb). simpl in *.
  destruct (counts_exact members' config now' k) as (_ & -> & _); [unfold fleetSize, total in *; lia|].
  pose proof (mismatched_inFlight config best now' members') as Hm. fold k in Hm. lia.
Qed.

End theorems.

(** ** A small fleet *)

#[local] Existing Instances Release.semver Release.laws.

Module SmallFleet.

Definition rel (a b c : Z) : Release.t :=
  default (exist _ (0, 0, 0) eq_refl) (Release.make a b c).

Definition clusterID (name : string) : string := "/sub/rg/" +:+ name.

Definition spc (name : string) (desired active : Release.t) : ServiceProviderCluster Release.t := {|
  spc_ResourceID := Some {| rid_SubscriptionID := "sub"; rid_ResourceGroupName := "rg"; rid_Name := "default";
    rid_ResourceType := "serviceProviderClusters"; rid_String := clusterID name +:+ "/default";
    rid_Parent := Some {| parent_Name := name; parent_String := clusterID name |} |};
  spc_DesiredVersion := Some desired;
  spc_DesiredVersionLastTransitionTime := Some 1;
  spc_PinnedVersion := noPin;
  spc_ActiveVersions :=
    [{| av_Version := Some active; av_State := CompletedUpdate; av_LastTransitionTime := 1 |}] |}.

Definition cluster (name : string) : Cluster Release.t := {|
  cl_ID := Some (clusterID name);
  cl_DeletionTimestamp := None;
  cl_Version := {| vp_ID := "4.20"; vp_ChannelGroup := "stable" |};
  cl_ControlPlaneExactVersion := None;
  cl_ZStreamUpdatePolicy := "";
  cl_ActiveVersions := [] |}.

Definition names : list string := ["a"; "b"; "c"; "d"].
Definition spcs : list (ServiceProviderCluster Release.t) :=
  (λ n, spc n (rel 4 20 1) (rel 4 20 1)) <$> names.

Definition rollout : Rollout Release.t := {|
  ro_CosmosETag := "1";
  ro_Version := {| vp_ID := "4.20"; vp_ChannelGroup := "stable" |};
  ro_BestExactVersion := Some (rel 4 20 3);
  ro_Status := {| rs_ReferencingClusterCount := Some 4; rs_LastAssignmentTime := None;
    rs_Conditions := []; rs_Desired := ∅; rs_Mismatched := ∅; rs_Failed := ∅;
    rs_Achieved := ∅; rs_Successful := ∅ |} |}.

(** A database that accepts every write. *)
Definition db : Database Release.t := {|
  db_replaceRollout _ replacement _ := Ok replacement;
  db_replaceCluster _ _ _ := None;
  db_createRollout _ _ _ := None;
  db_deleteRollout _ _ _ := None |}.

Definition ops : conditionOps := {|
  SetStatusCondition conditions ty status reason message :=
    ({| cond_Type := ty; cond_Status := status; cond_Reason := reason; cond_Message := message;
        cond_LastTransitionTime := 0 |}
     :: List.filter (λ c, negb (String.eqb (cond_Type c) ty)) conditions)%list;
  errorText _ := "error" |}.

Definition inputs : progressiveInputs := {|
  pi_channel := "stable-4.20";
  pi_rollout := Ok rollout;
  pi_clusters := Ok (cluster <$> names);
  pi_serviceProviderClusters := Ok spcs;
  pi_clustersAgain := Ok (cluster <$> names);
  pi_cooldownNow := 10 * Hour;
  pi_countNow := 10 * Hour;
  pi_assignNow := 10 * Hour;
  pi_perm := seq 0 |}.

Definition config : RolloutConfig Release.t := NewDefaultRolloutConfig.

Definition log : list (dbEvent Release.t) := (progressiveSyncOnce db ops config inputs).1.

Lemma members_eq :
  serviceProviderClustersForChannel (pi_clusters inputs) (pi_serviceProviderClusters inputs)
    (pi_channel inputs) = Ok spcs.
Proof. reflexivity. Qed.

(** Three of the four clusters become canaries. *)
Lemma batch_of_three :
  List.length (base.filter (λ c : ServiceProviderCluster Release.t, spc_DesiredVersion c = Some (rel 4 20 3))
    (applyLog log spcs)) = 3%nat.
Proof. vm_compute. reflexivity. Qed.

Lemma unique : uniqueCoords spcs.
Proof. apply (bool_decide_unpack _). vm_compute. exact I. Qed.

Lemma hour_later : 10 * Hour <= 11 * Hour.
Proof. vm_compute. discriminate. Qed.

Lemma config_ok : configOk config.
Proof. vm_compute. repeat split; discriminate. Qed.

Lemma size_ok : fleetSize (total spcs).
Proof. split; vm_compute; [discriminate|reflexivity]. Qed.

(** The sync, and an hour passing. *)
Lemma run : rtc (fleetStep config (rel 4 20 3)) (spcs, 10 * Hour) (applyLog log spcs, 11 * Hour).
Proof.
  exact (rtc_l _ _ _ _
    (step_sync config (rel 4 20 3) db ops inputs rollout spcs (10 * Hour) eq_refl eq_refl members_eq eq_refl)
    (rtc_once _ _ (step_time config (rel 4 20 3) (applyLog (progressiveSyncOnce db ops config inputs).1 spcs)
       _ _ hour_later))).
Qed.

(** The second write of the run assigns a cluster. *)
Lemma log_writes :
  ∃ ev coords r, ev ∈ (progressiveSyncOnce db ops config inputs).1 ∧ ev_op ev = ReplaceCluster coords r.
Proof.
  assert (Hb : match (progressiveSyncOnce db ops config inputs).1 !! 1%nat with
               | Some ev => match ev_op ev with ReplaceCluster _ _ => true | _ => false end
               | None => false end = true) by (vm_compute; reflexivity).
  revert Hb. generalize (progressiveSyncOnce db ops config inputs).1. intros log Hb.
  destruct (log !! 1%nat) as [ev|] eqn:E; [|discriminate Hb].
  destruct (ev_op ev) as [|coords r| |] eqn:Eo; try discriminate Hb.
  exists ev, coords, r. split; [by apply (list_elem_of_lookup_2 _ 1)|exact Eo].
Qed.

End SmallFleet.

Lemma progressive_batch_bounded_witness :
  let members' := applyLog SmallFleet.log SmallFleet.spcs in
  let after := computeRolloutStatusCounts members' SmallFleet.config (10 * Hour) in
  let k := semver_String (SmallFleet.rel 4 20 3) in
  members' = SmallFleet.spcs ∨
  (count (Failed (computeRolloutStatusCounts SmallFleet.spcs SmallFleet.config (10 * Hour))) k <= 2 ∨
   20 * count (Failed (computeRolloutStatusCounts SmallFleet.spcs SmallFleet.config (10 * Hour))) k
     <= count (Desired (computeRolloutStatusCounts SmallFleet.spcs SmallFleet.config (10 * Hour))) k) ∧
  (count (Mismatched after) k + count (Achieved after) k <= 3 ∨
   1 <= count (Successful after) k ∧
   count (Mismatched after) k + count (Achieved after) k - count (Successful after) k <= 1).
Proof.
  exact (progressive_batch_bounded SmallFleet.db SmallFleet.ops SmallFleet.config SmallFleet.inputs
    SmallFleet.rollout (SmallFleet.rel 4 20 3) SmallFleet.spcs
    SmallFleet.config_ok SmallFleet.size_ok SmallFleet.unique
    eq_refl eq_refl SmallFleet.members_eq).
Defined.

Lemma rollout_in_flight_bounded_witness :
  let members' := applyLog SmallFleet.log SmallFleet.spcs in
  count (Mismatched (computeRolloutStatusCounts members' SmallFleet.config (11 * Hour)))
    (semver_String (SmallFleet.rel 4 20 3)) <= 3.
Proof.
  apply (rollout_in_flight_bounded SmallFleet.config (SmallFleet.rel 4 20 3) SmallFleet.spcs (10 * Hour)).
  - exact SmallFleet.config_ok.
  - exact SmallFleet.size_ok.
  - exact SmallFleet.unique.
  - vm_compute. discriminate.
  - exact SmallFleet.run.
Defined.


(** A run that writes a cluster, and what the write is. *)
Lemma progressive_writes_safe_witness :
  ∃ ev coords r best desired,
    ev ∈ (progressiveSyncOnce SmallFleet.db SmallFleet.ops SmallFleet.config SmallFleet.inputs).1 ∧ ev_op ev = ReplaceCluster coords r ∧
    spc_DesiredVersion r = Some best ∧ LT desired best = true ∧
    ∃ cluster clusters, pi_clusters SmallFleet.inputs = Ok clusters ∧ cluster ∈ clusters ∧
      cl_DeletionTimestamp cluster = None ∧ vp_ChannelGroup (cl_Version cluster) = "stable".
Proof.
  destruct SmallFleet.log_writes as (ev & coords & r & Hin & Hop).
  destruct (progressive_writes_safe SmallFleet.db SmallFleet.ops SmallFleet.config SmallFleet.inputs
    ev coords r Hin Hop)
    as (rollout & best & desired & c' & cls & l & again & profile & H1 & H2 & H3 & H4 & H5 & H6 & H7 & H8
        & H9 & H10 & H11 & Hlt & H12 & Hmember & H13 & H14 & Hr).
  exists ev, coords, r, best, desired. split_and!; [exact Hin|exact Hop|rewrite Hr; reflexivity|exact Hlt|].
  destruct Hmember as (cluster & id & Hcl & _ & _ & Hdel & Hgroup).
  exists cluster, cls. split_and!; [exact H5|exact Hcl|exact Hdel|].
  rewrite Hgroup. vm_compute in H8. injection H8 as <-. reflexivity.
Defined.
