(* ===== verification/RolloutControl.v ===== *)
(** * Control plane version rollout: theorems about the assigning controllers

    Precedence and safety of forced assignment and its interplay with the
    progressive rollout, minor upgrades against node pools, selection floors and
    the retirement of channels. *)
From S2P Require Import Prelude GoStrings RolloutTypes VersionRules RolloutStatus.
From S2P Require Import RolloutProgressive RolloutAssign RolloutSafety.

Local Open Scope string_scope.
Local Open Scope Z_scope.
Local Open Scope go_scope.

Section control.
Context {V : Type} `{SemverLaws V}.

Lemma writeCluster_log db key (r : ServiceProviderCluster V) :
  ∃ done, (writeCluster db key r).1 = [{| ev_op := ReplaceCluster key r; ev_done := done |}].
Proof.
  unfold writeCluster, runReplaceCluster, attempt.
  destruct (db_replaceCluster _ _ _ _) as [[]|]; eexists; reflexivity.
Qed.

(** ** Forced assignment *)

(** The decision when it changes something. *)
Definition changedDecision (cluster : Cluster V) (c : ServiceProviderCluster V) (best : option V) :
    option (V * bool) :=
  let '(newDesired, clearPin) := forcedDecision cluster c best in
  v ← newDesired;
  if clearPin || match spc_DesiredVersion c with None => true | Some d => negb (EQ d v) end
  then Some (v, clearPin) else None.

(** The document written for a decision. *)
Definition forcedDocument (c : ServiceProviderCluster V) (v : V) (clearPin : bool) (now : Z) :
    ServiceProviderCluster V :=
  let r := setDesiredVersion c (Some v) now in
  if clearPin then clearPinnedVersion r else r.

Lemma applyForced_log db key cluster c best now :
  match changedDecision cluster c best with
  | None => (applyForced (V := V) db key cluster c best now).1 = []
  | Some (v, clearPin) =>
      ∃ done, (applyForced db key cluster c best now).1
        = [{| ev_op := ReplaceCluster key (forcedDocument c v clearPin now); ev_done := done |}]
  end.
Proof.
  unfold changedDecision, applyForced, forcedDocument.
  destruct (forcedDecision cluster c best) as [[v|] clearPin]; [|done].
  cbn [mbind option_bind]. destruct (_ || _); cbn [negb]; [apply writeCluster_log|done].
Qed.

(** The best version a forced sync decides with; [None] when it stops before
    deciding: the cluster is not forced, or its channel cannot be named or read. *)
Definition forcedBest (cluster : Cluster V) (getRollout : string → result getError (Rollout V))
    (c : ServiceProviderCluster V) : option (option V) :=
  if negb (hasForcedVersion cluster c) && negb (isImmediate cluster) then None
  else
    match versionForChannel cluster c with
    | None => Some None
    | Some v =>
        if String.eqb (vp_ChannelGroup (cl_Version cluster)) EmptyString then None
        else match getRollout (yStreamChannel (vp_ChannelGroup (cl_Version cluster)) (minorString v)) with
             | Err (GetFailed e) => None
             | Err GetNotFound => Some None
             | Ok rollout => Some (ro_BestExactVersion rollout)
             end
    end.

(** The change a forced sync makes to [c] from what it reads. *)
Definition forcedChange (cluster : Cluster V) (getRollout : string → result getError (Rollout V))
    (c : ServiceProviderCluster V) : option (V * bool) :=
  best ← forcedBest cluster getRollout c; changedDecision cluster c best.

(** The document after a sync whose write succeeds. *)
Definition forcedNext (cluster : Cluster V) (getRollout : string → result getError (Rollout V)) (now : Z)
    (c : ServiceProviderCluster V) : ServiceProviderCluster V :=
  match forcedChange cluster getRollout c with
  | None => c
  | Some (v, clearPin) => forcedDocument c v clearPin now
  end.

Lemma forcedSyncOnce_log db key cluster c getRollout now :
  match forcedChange cluster getRollout c with
  | None => (forcedSyncOnce (V := V) db key (Ok c) (Ok cluster) getRollout now).1 = []
  | Some (v, clearPin) =>
      ∃ done, (forcedSyncOnce db key (Ok c) (Ok cluster) getRollout now).1
        = [{| ev_op := ReplaceCluster key (forcedDocument c v clearPin now); ev_done := done |}]
  end.
Proof.
  unfold forcedChange, forcedBest, forcedSyncOnce. destruct (_ && _); [done|].
  destruct (versionForChannel cluster c) as [v|]; [|apply applyForced_log].
  destruct (String.eqb _ _); [done|].
  destruct (getRollout _) as [rollout|[]]; [apply applyForced_log|apply applyForced_log|done].
Qed.

(** ** What a forced write means *)

Lemma setDesiredVersion_spec (c : ServiceProviderCluster V) (v : V) now :
  let r := setDesiredVersion c (Some v) now in
  spc_ResourceID r = spc_ResourceID c ∧ spc_PinnedVersion r = spc_PinnedVersion c ∧
  spc_ActiveVersions r = spc_ActiveVersions c ∧
  ∃ w, spc_DesiredVersion r = Some w ∧ EQ w v = true.
Proof.
  unfold setDesiredVersion. destruct (spc_DesiredVersion c) as [d|] eqn:Ed.
  - destruct (EQ d v) eqn:Eq; simpl.
    + destruct (ptr_IsZero _); simpl; split_and!; eauto using EQ_refl.
    + split_and!; eauto using EQ_refl.
  - simpl. split_and!; eauto using EQ_refl.
Qed.

Lemma changedDecision_Some cluster c best v clearPin :
  changedDecision cluster c best = Some (v, clearPin) → forcedDecision cluster c best = (Some v, clearPin).
Proof.
  unfold changedDecision. destruct (forcedDecision cluster c best) as [[v'|] cl]; [|done].
  cbn. destruct (_ || _); [congruence|done].
Qed.

(** A document whose desired version equals the decided one needs no change. *)
Lemma changedDecision_same cluster c best w v :
  forcedDecision cluster c best = (Some v, false) → spc_DesiredVersion c = Some w → EQ w v = true →
  changedDecision cluster c best = None.
Proof. intros Hd Hw He. unfold changedDecision. rewrite Hd. cbn. by rewrite Hw, He. Qed.

(** The new document is judged with the best version of the old one. *)
Lemma forcedBest_again cluster getRollout c c' :
  hasForcedVersion cluster c' = hasForcedVersion cluster c →
  (minorString <$> versionForChannel cluster c') = (minorString <$> versionForChannel cluster c) →
  forcedBest cluster getRollout c' = forcedBest cluster getRollout c.
Proof.
  intros Hf Hv. unfold forcedBest. rewrite Hf. destruct (_ && _); [done|].
  destruct (versionForChannel cluster c) as [w|], (versionForChannel cluster c') as [w'|]; try done.
  injection Hv as ->. done.
Qed.

Lemma forcedChange_inv cluster getRollout c v clearPin :
  forcedChange cluster getRollout c = Some (v, clearPin) →
  ∃ best, forcedBest cluster getRollout c = Some best ∧
          forcedDecision cluster c best = (Some v, clearPin).
Proof.
  unfold forcedChange. destruct (forcedBest _ _ _) as [best|]; [|done].
  cbn. intros Hc. exists best. eauto using changedDecision_Some.
Qed.

(** Without a pin a sync leaves nothing to change. *)
Lemma forcedNext_no_pin cluster getRollout now c :
  ExactVersion (spc_PinnedVersion c) = None →
  forcedChange cluster getRollout (forcedNext cluster getRollout now c) = None.
Proof.
  intros Hpin. unfold forcedNext. destruct (forcedChange cluster getRollout c) as [[v clearPin]|] eqn:Ec; [|done].
  apply forcedChange_inv in Ec as (best & Hbest & Hd).
  unfold forcedDecision in Hd. rewrite Hpin in Hd.
  assert (clearPin = false) as -> by (repeat case_match; simplify_eq; done).
  unfold forcedDocument. destruct (setDesiredVersion_spec c v now) as (_ & Hp & _ & w & Hw & Heq).
  set (c' := setDesiredVersion c (Some v) now) in *.
  assert (Hf : hasForcedVersion cluster c' = hasForcedVersion cluster c)
    by (unfold hasForcedVersion; by rewrite Hp).
  destruct (cl_ControlPlaneExactVersion cluster) as [e|] eqn:Ee.
  - injection Hd as <-. unfold forcedChange.
    rewrite (forcedBest_again _ _ c c'), Hbest; [|done|unfold versionForChannel; by rewrite Hp, Hpin, Ee].
    apply (changedDecision_same _ _ _ w e); [|done..]. unfold forcedDecision. by rewrite Hp, Hpin, Ee.
  - destruct best as [b|]; [|done]. destruct (spc_DesiredVersion c) as [d|] eqn:Edes; [|done].
    destruct (isImmediate cluster && _ && _) eqn:Eb; [|done]. injection Hd as <-.
    apply andb_true_iff in Eb as [[Hi Hm%String.eqb_eq]%andb_true_iff _].
    unfold EQ in Heq. destruct (semver_Compare w b) eqn:Ecmp; [|done..].
    unfold forcedChange. rewrite (forcedBest_again _ _ c c'), Hbest; [|done|].
    + unfold changedDecision, forcedDecision. cbn. rewrite Hp, Hpin, Ee, Hw.
      unfold GT. rewrite (Compare_antisym w b), Ecmp. cbn. by rewrite andb_false_r.
    + unfold versionForChannel. rewrite Hp, Hpin, Ee, Hi, Hw, Edes. simpl. rewrite <- Hm. simpl.
      apply Compare_numbers in Ecmp as [E1 E2]. unfold minorString. by rewrite E1, E2.
Qed.

(** A pin that is held leaves nothing to change either. *)
Lemma forcedNext_held cluster getRollout now c v :
  forcedChange cluster getRollout c = Some (v, false) → is_Some (ExactVersion (spc_PinnedVersion c)) →
  forcedChange cluster getRollout (forcedNext cluster getRollout now c) = None.
Proof.
  intros Ec [pinned Hpin]. unfold forcedNext. rewrite Ec.
  apply forcedChange_inv in Ec as (best & Hbest & Hd).
  unfold forcedDocument. destruct (setDesiredVersion_spec c v now) as (_ & Hp & _ & w & Hw & Heq).
  set (c' := setDesiredVersion c (Some v) now) in *.
  unfold forcedChange. rewrite (forcedBest_again _ _ c c'), Hbest.
  - apply (changedDecision_same _ _ _ w v); [|done..]. rewrite <- Hd.
    unfold forcedDecision. by rewrite Hp, Hpin.
  - unfold hasForcedVersion. by rewrite Hp.
  - unfold versionForChannel. by rewrite Hp, Hpin.
Qed.

(** Releasing a pin leaves no pin. *)
Lemma forcedNext_released cluster getRollout now c v :
  forcedChange cluster getRollout c = Some (v, true) →
  spc_PinnedVersion (forcedNext cluster getRollout now c) = noPin.
Proof. intros Ec. unfold forcedNext. by rewrite Ec. Qed.

(** (C27) The forced assignment of a cluster settles: with the same answers from
    the listers, after at most two syncs whose writes succeed (the first may
    release the pin) a further sync of [forcedDesiredVersionSyncer] finds nothing
    to change and attempts no write. *)
Theorem forced_settles db key cluster getRollout now1 now2 now3 c :
  let c2 := forcedNext cluster getRollout now2 (forcedNext cluster getRollout now1 c) in
  (forcedSyncOnce (V := V) db key (Ok c2) (Ok cluster) getRollout now3).1 = [].
Proof.
  intros c2. pose proof (forcedSyncOnce_log db key cluster c2 getRollout now3) as Hlog.
  enough (Hn : forcedChange cluster getRollout c2 = None) by by rewrite Hn in Hlog.
  subst c2. set (c1 := forcedNext cluster getRollout now1 c).
  assert (Hsettled : forcedChange cluster getRollout c1 = None →
                     forcedChange cluster getRollout (forcedNext cluster getRollout now2 c1) = None).
  { intros Hn. unfold forcedNext. by rewrite Hn. }
  destruct (ExactVersion (spc_PinnedVersion c)) as [pinned|] eqn:Hpin; [|by apply Hsettled, forcedNext_no_pin].
  destruct (forcedChange cluster getRollout c) as [[v [|]]|] eqn:Ec.
  - apply forcedNext_no_pin. unfold c1. by rewrite (forcedNext_released _ _ _ _ v).
  - apply Hsettled, (forcedNext_held _ _ _ _ v); [done|by rewrite Hpin].
  - apply Hsettled. unfold c1, forcedNext. by rewrite Ec.
Qed.

(** The four ways a forced sync changes a document, with the version decided and
    the pin that remains. *)
Inductive forcedOutcome (cluster : Cluster V) (c : ServiceProviderCluster V) (best : option V) :
    V → PinnedVersion V → Prop :=
  | PinHeld pinned :
      ExactVersion (spc_PinnedVersion c) = Some pinned →
      (∀ b until, best = Some b → UntilExactVersion (spc_PinnedVersion c) = Some until → LT b until = true) →
      forcedOutcome cluster c best pinned (spc_PinnedVersion c)
  | PinReleased b until :
      is_Some (ExactVersion (spc_PinnedVersion c)) → best = Some b →
      UntilExactVersion (spc_PinnedVersion c) = Some until → GTE b until = true →
      forcedOutcome cluster c best b noPin
  | ExactOverride exact :
      ExactVersion (spc_PinnedVersion c) = None → cl_ControlPlaneExactVersion cluster = Some exact →
      forcedOutcome cluster c best exact (spc_PinnedVersion c)
  | ImmediateUpdate b desired :
      ExactVersion (spc_PinnedVersion c) = None → cl_ControlPlaneExactVersion cluster = None →
      isImmediate cluster = true → best = Some b → spc_DesiredVersion c = Some desired →
      minorString b = minorString desired → LT desired b = true →
      forcedOutcome cluster c best b (spc_PinnedVersion c).

Lemma forcedDecision_outcome cluster c best v clearPin :
  forcedDecision cluster c best = (Some v, clearPin) →
  forcedOutcome cluster c best v (if clearPin then noPin else spc_PinnedVersion c).
Proof.
  unfold forcedDecision. destruct (ExactVersion (spc_PinnedVersion c)) as [pinned|] eqn:Ep.
  - destruct best as [b|]; [|intros [= <- <-]; by apply PinHeld].
    destruct (UntilExactVersion _) as [until|] eqn:Eu; [|intros [= <- <-]; apply PinHeld; [done|congruence]].
    destruct (GTE b until) eqn:Eg; intros [= <- <-].
    + eapply PinReleased; [by rewrite Ep|done..].
    + apply PinHeld; [done|]. intros b' u [= <-] Hu. rewrite Eu in Hu. injection Hu as <-.
      unfold GTE in Eg. by apply negb_false_iff.
  - destruct (cl_ControlPlaneExactVersion cluster) as [e|] eqn:Ee; [intros [= <- <-]; by apply ExactOverride|].
    destruct best as [b|]; [|done]. destruct (spc_DesiredVersion c) as [d|] eqn:Ed; [|done].
    destruct (_ && _) eqn:Eb; [|done]. intros [= <- <-].
    apply andb_true_iff in Eb as [[Hi Hm%String.eqb_eq]%andb_true_iff Hgt].
    eapply ImmediateUpdate; [done..|]. by rewrite <- GT_LT.
Qed.

Lemma forcedDocument_spec (c : ServiceProviderCluster V) v (clearPin : bool) now :
  let r := forcedDocument c v clearPin now in
  spc_ResourceID r = spc_ResourceID c ∧ spc_ActiveVersions r = spc_ActiveVersions c ∧
  spc_PinnedVersion r = (if clearPin then noPin else spc_PinnedVersion c) ∧
  ∃ w, spc_DesiredVersion r = Some w ∧ EQ w v = true.
Proof.
  destruct (setDesiredVersion_spec c v now) as (Hr & Hp & Ha & Hw).
  unfold forcedDocument. destruct clearPin; simpl; eauto.
Qed.

(** A forced sync attempts at most one write, and only for a cluster with a
    pin, an exact override or the Immediate policy.  A pin takes precedence: it is
    held while the best version of the pinned release line is below the release
    threshold, and released together with adopting that best version otherwise; an
    exact override comes next; Immediate only moves the desired version up within
    its release line.  Nothing but the desired version, its time and the pin
    changes. *)
Theorem forced_write_meaning db key cluster c getRollout now ev :
  ev ∈ (forcedSyncOnce (V := V) db key (Ok c) (Ok cluster) getRollout now).1 →
  (forcedSyncOnce db key (Ok c) (Ok cluster) getRollout now).1 = [ev] ∧
  (hasForcedVersion cluster c || isImmediate cluster) = true ∧
  ∃ r best v w, ev_op ev = ReplaceCluster key r ∧
    (∀ b, best = Some b → ∃ line rollout, versionForChannel cluster c = Some line ∧
       getRollout (yStreamChannel (vp_ChannelGroup (cl_Version cluster)) (minorString line)) = Ok rollout ∧
       ro_BestExactVersion rollout = Some b) ∧
    forcedOutcome cluster c best v (spc_PinnedVersion r) ∧
    spc_DesiredVersion r = Some w ∧ EQ w v = true ∧
    spc_ResourceID r = spc_ResourceID c ∧ spc_ActiveVersions r = spc_ActiveVersions c.
Proof.
  intros Hin. pose proof (forcedSyncOnce_log db key cluster c getRollout now) as Hlog.
  destruct (forcedChange cluster getRollout c) as [[v clearPin]|] eqn:Ec; [|rewrite Hlog in Hin; set_solver].
  destruct Hlog as [done Hlog]. rewrite Hlog in Hin |- *. apply list_elem_of_singleton in Hin as ->.
  split; [done|]. apply forcedChange_inv in Ec as (best & Hbest & Hd%forcedDecision_outcome).
  destruct (forcedDocument_spec c v clearPin now) as (Hr & Ha & Hp & w & Hw & He).
  unfold forcedBest in Hbest. destruct (_ && _) eqn:Eforced; [done|].
  split. { by destruct (hasForcedVersion cluster c), (isImmediate cluster). }
  exists (forcedDocument c v clearPin now), best, v, w. rewrite Hp. split_and!; try done.
  intros b ->. destruct (versionForChannel cluster c) as [line|]; [|done].
  destruct (String.eqb _ _); [done|].
  destruct (getRollout _) as [rollout|[]] eqn:Er; [|done|done]. injection Hbest as Hbest. eauto.
Qed.

(** A pinned cluster that the progressive rollout may advance to [best] is one the
    forced assignment releases to [best] as well. *)
Lemma eligible_pin_released cluster c best experimental pinned :
  isEligible best experimental c = true → ExactVersion (spc_PinnedVersion c) = Some pinned →
  forcedDecision (V := V) cluster c (Some best) = (Some best, true).
Proof.
  unfold isEligible, forcedDecision. intros He Hp. rewrite Hp in He |- *.
  destruct (match parentKey c with Some _ => _ | None => _ end); [done|].
  destruct (spc_DesiredVersion c); [|done]. destruct (negb _); [done|].
  destruct (UntilExactVersion _) as [until|]; [|done].
  unfold LTE in He. rewrite GT_LT in He. unfold GTE. by rewrite He.
Qed.

End control.
