(* ===== verification/RolloutLifecycle.v ===== *)
(** * Control plane version rollout: ownership, minor upgrades and retirement

    Theorems about the remaining controllers: which controller may change the
    desired version of a cluster, minor upgrades against the node pools, the floor
    of the best version, names of channels and the retirement of rollouts; with
    concrete runs of every controller. *)
From S2P Require Import Prelude GoStrings RolloutTypes VersionRules RolloutStatus RolloutSelection.
From S2P Require Import RolloutProgressive RolloutAssign RolloutSafety RolloutInvariant RolloutControl.

Local Open Scope string_scope.
Local Open Scope Z_scope.
Local Open Scope go_scope.

Section lifecycle.
Context {V : Type} `{SemverLaws V}.

Lemma setDesiredVersion_same (c : ServiceProviderCluster V) now :
  spc_DesiredVersion (setDesiredVersion c (spc_DesiredVersion c) now) = spc_DesiredVersion c.
Proof.
  unfold setDesiredVersion. destruct (spc_DesiredVersion c) as [d|] eqn:E; [|done].
  by destruct (_ && _).
Qed.

Lemma writeCluster_elem db key (r : ServiceProviderCluster V) ev :
  ev ∈ (writeCluster db key r).1 → (writeCluster db key r).1 = [ev] ∧ ev_op ev = ReplaceCluster key r.
Proof.
  destruct (writeCluster_log db key r) as [done ->]. intros ->%list_elem_of_singleton. done.
Qed.

(** ** Ownership *)

(** What a write of the initial assignment is: it stamps a missing time, or gives a
    cluster without a desired version, and without a forced one, the best version
    of the channel it requests. *)
Lemma initial_write db key c getCluster getRollout now ev :
  ev ∈ (initialSyncOnce (V := V) db key (Ok c) getCluster getRollout now).1 →
  ∃ v, ev_op ev = ReplaceCluster key (setDesiredVersion c (Some v) now) ∧
    (spc_DesiredVersion c = Some v ∨
     spc_DesiredVersion c = None ∧ ∃ cluster channel rollout, getCluster = Ok cluster ∧
       hasForcedVersion cluster c = false ∧ clusterYStreamChannel cluster = Some channel ∧
       getRollout channel = Ok rollout ∧ ro_BestExactVersion rollout = Some v).
Proof.
  unfold initialSyncOnce, withBestOf. destruct (initialNeedsWork c); [|set_solver].
  cbn [negb]. destruct (spc_DesiredVersion c) as [d|] eqn:Ed.
  { intros [_ Hop]%writeCluster_elem. eauto. }
  destruct getCluster as [cluster|[]]; [|set_solver..].
  destruct (hasForcedVersion cluster c) eqn:Ef; [set_solver|].
  destruct (clusterYStreamChannel cluster) as [channel|] eqn:Ech; [|set_solver].
  destruct (getRollout channel) as [rollout|[]] eqn:Er; [|set_solver..].
  destruct (ro_BestExactVersion rollout) as [best|] eqn:Eb; [|set_solver].
  intros [_ Hop]%writeCluster_elem. exists best. split; [done|]. right. eauto 10.
Qed.

(** What a write of the minor upgrade controller is. *)
Lemma minor_write db key c cluster getRollout listNodePools getState now log res ev :
  minorUpgradeSyncOnce (V := V) db key (Ok c) (Ok cluster) getRollout listNodePools getState now
    = Ok (log, res) → ev ∈ log →
  log = [ev] ∧ hasForcedVersion cluster c = false ∧
  ∃ desired requested rollout best,
    spc_DesiredVersion c = Some desired ∧ ParseTolerant (vp_ID (cl_Version cluster)) = Some requested ∧
    minorString requested ≠ minorString desired ∧
    getRollout (yStreamChannel (vp_ChannelGroup (cl_Version cluster)) (minorString requested)) = Ok rollout ∧
    ro_BestExactVersion rollout = Some best ∧
    validateNodePoolSkew listNodePools getState best = Ok None ∧
    ev_op ev = ReplaceCluster key (setDesiredVersion c (Some best) now).
Proof.
  unfold minorUpgradeSyncOnce, clusterYStreamChannel, minorNeedsWork.
  destruct (String.eqb _ _); [intros [= <- <-]; set_solver|].
  destruct (ParseTolerant _) as [requested|] eqn:Ereq; [|intros [= <- <-]; set_solver].
  destruct (hasForcedVersion cluster c) eqn:Ef; [intros [= <- <-]; set_solver|].
  destruct (spc_DesiredVersion c) as [desired|] eqn:Ed; [|intros [= <- <-]; set_solver].
  rewrite negb_involutive. destruct (String.eqb_spec (minorString requested) (minorString desired)) as [|Hm];
    [intros [= <- <-]; set_solver|].
  destruct (getRollout _) as [rollout|[]] eqn:Er; [|intros [= <- <-]; set_solver..].
  destruct (ro_BestExactVersion rollout) as [best|] eqn:Eb; [|intros [= <- <-]; set_solver].
  rewrite result_bind_ok. intros (skew & Hskew & Hres).
  destruct skew as [e|]; [injection Hres as <- <-; set_solver|].
  intros Hin. injection Hres as Hres.
  destruct (writeCluster_elem db key (setDesiredVersion c (Some best) now) ev) as [Hl Hop];
    [by rewrite Hres|].
  rewrite Hres in Hl. split_and!; [done..|]. exists desired, requested, rollout, best. done.
Qed.

(** The desired version of a cluster with a pin or an exact override has one
    owner: the minor upgrade controller does not write the cluster, and the initial
    assignment changes at most the time of the assignment. *)
Theorem forced_clusters_have_one_owner db key c cluster getRollout listNodePools getState now :
  hasForcedVersion (V := V) cluster c = true →
  (∀ log res,
     minorUpgradeSyncOnce db key (Ok c) (Ok cluster) getRollout listNodePools getState now = Ok (log, res) →
     log = []) ∧
  (∀ ev, ev ∈ (initialSyncOnce db key (Ok c) (Ok cluster) getRollout now).1 →
     ∃ r, ev_op ev = ReplaceCluster key r ∧ spc_DesiredVersion r = spc_DesiredVersion c ∧
       spc_PinnedVersion r = spc_PinnedVersion c ∧ spc_ActiveVersions r = spc_ActiveVersions c).
Proof.
  intros Hf. split.
  - intros log res Hr. destruct log as [|ev log]; [done|].
    apply (minor_write _ _ _ _ _ _ _ _ _ _ ev) in Hr as (_ & Hnf & _); [congruence|set_solver].
  - intros ev (v & Hop & [Hd|(_ & cl & ch & ro & [= <-] & Hnf & _)])%initial_write; [|congruence].
    exists (setDesiredVersion c (Some v) now). rewrite <- Hd.
    destruct (setDesiredVersion_spec c v now) as (_ & Hp & Ha & _). rewrite <- Hd in Hp, Ha, Hop.
    rewrite setDesiredVersion_same. done.
Qed.

(** ** Minor upgrades and node pools *)

Lemma collectNodePools_elem (getState : string → option (list (option V))) pools entries p :
  collectNodePools getState pools = Ok entries → p ∈ pools →
  ∃ active, getState (npe_Name p) = Some active ∧
    Some {| anp_Name := npe_Name p; anp_VersionID := npe_VersionID p;
            anp_ActiveVersions := Some active |} ∈ entries.
Proof.
  revert entries. induction pools as [|q pools IH]; intros entries; simpl; [set_solver|].
  destruct (getState (npe_Name q)) as [active|] eqn:Eq; [|done].
  rewrite result_bind_ok. intros (rest & Hrest & [= <-]) [->|Hin]%elem_of_cons; [set_solver|].
  destruct (IH rest Hrest Hin) as (a & Ha & Hin'). exists a. split; [done|]. set_solver.
Qed.

(** (C28) A minor upgrade is written only for a cluster without a forced version whose
    requested release line differs from its desired one; it writes the best version
    of the requested channel; every listed node pool has a record, its requested
    version, if it has one, may run under the new control plane version, and so may
    the lowest and the highest of its active versions, all of them that have the
    major version of the control plane, and all of them when they share one major
    version (all active versions known, minor numbers below 2^63). *)
Theorem minor_upgrade_safe db key c cluster getRollout listNodePools getState now log res ev :
  minorUpgradeSyncOnce (V := V) db key (Ok c) (Ok cluster) getRollout listNodePools getState now
    = Ok (log, res) → ev ∈ log →
  ∃ desired requested rollout best pools,
    log = [ev] ∧ hasForcedVersion cluster c = false ∧
    spc_DesiredVersion c = Some desired ∧ ParseTolerant (vp_ID (cl_Version cluster)) = Some requested ∧
    minorString requested ≠ minorString desired ∧
    getRollout (yStreamChannel (vp_ChannelGroup (cl_Version cluster)) (minorString requested)) = Ok rollout ∧
    ro_BestExactVersion rollout = Some best ∧
    ev_op ev = ReplaceCluster key (setDesiredVersion c (Some best) now) ∧
    listNodePools = Ok pools ∧
    (Minor best < 2 ^ 63 → ∀ p, p ∈ pools →
       requestedSuits best (npe_VersionID p) ∧
       ∃ active, getState (npe_Name p) = Some active ∧
         ∀ vs, active = Some <$> vs → (∀ v, v ∈ vs → Minor v < 2 ^ 63) → activeSuits best vs).
Proof.
  intros Hr Hin. destruct (minor_write _ _ _ _ _ _ _ _ _ _ _ Hr Hin)
    as (Hl & Hf & desired & requested & rollout & best & Hd & Hreq & Hm & Hro & Hb & Hskew & Hop).
  unfold validateNodePoolSkew in Hskew. destruct listNodePools as [pools|]; [|done].
  destruct (collectNodePools getState pools) as [entries|] eqn:Ec; [|done].
  apply result_bind_ok in Hskew as (errs & Herrs & Hnil). destruct errs; [|done].
  exists desired, requested, rollout, best, pools. split_and!; try done.
  intros Hmb p Hp. destruct (collectNodePools_elem _ _ _ _ Ec Hp) as (active & Ha & Hentry).
  pose proof (AdmitClusterNodePools_each _ _ _ Herrs Hentry) as Hadm.
  split; [by apply admitNodePoolSkew_requested in Hadm|].
  exists active. split; [done|]. intros vs -> Hmv. by apply (admitNodePoolSkew_active best _ vs) in Hadm.
Qed.

(** ** The best version *)

(** The best version published for a channel is the update service's answer or
    the configured minimum, is below neither, and is written only when it differs
    from the published one. *)
Theorem bestVersion_floor db config channel rollout graphBest ev :
  ev ∈ (bestVersionSyncOnce (V := V) db config channel (Ok rollout) (Ok graphBest)).1 →
  ∃ best, ev_op ev = ReplaceRollout (withBestExactVersion rollout best) rollout ∧
    (graphBest = Some best ∨ MinimumVersions config !! channel = Some best) ∧
    (∀ v, graphBest = Some v ∨ MinimumVersions config !! channel = Some v → GTE best v = true) ∧
    (∀ current, ro_BestExactVersion rollout = Some current → EQ current best = false).
Proof.
  unfold bestVersionSyncOnce, selectBestExactVersion.
  destruct (maxVersion_spec graphBest (MinimumVersions config !! channel)) as [Hge Hone].
  destruct (maxVersion graphBest _) as [best|]; [|set_solver].
  destruct (match ro_BestExactVersion rollout with Some _ => _ | None => _ end) eqn:Ecur; [set_solver|].
  unfold runReplaceRollout, attempt. simpl. intros Hin.
  assert (Hop : ev_op ev = ReplaceRollout (withBestExactVersion rollout best) rollout).
  { destruct (db_replaceRollout _ _ _ _) as [|[]]; simpl in Hin; apply list_elem_of_singleton in Hin as ->; done. }
  exists best. split_and!; [done|naive_solver|..].
  - intros v Hv. destruct (Hge v Hv) as (m & [= <-] & Hm). done.
  - intros current Hc. by rewrite Hc in Ecur.
Qed.

(** ** Channel names *)

(** The channel name of a release line is read back as that line and group, and
    every name that is accepted is the name of the profile it is read as; so the
    names of two release lines of known groups differ. *)
Theorem channel_names_roundtrip (group : string) (v : V) :
  group ∈ rolloutChannelGroups →
  RolloutVersionFromName (V := V) (yStreamChannel group (minorString v))
    = Ok {| vp_ID := minorString v; vp_ChannelGroup := group |} ∧
  ∀ name profile, RolloutVersionFromName (V := V) name = Ok profile →
    name = yStreamChannel (vp_ChannelGroup profile) (vp_ID profile) ∧
    vp_ChannelGroup profile ∈ rolloutChannelGroups ∧
    (name = yStreamChannel group (minorString v) ↔
     profile = {| vp_ID := minorString v; vp_ChannelGroup := group |}).
Proof.
  intros Hg. pose proof (RolloutVersionFromName_channel group v Hg) as Hr. split; [done|].
  intros name profile Hn. destruct (RolloutVersionFromName_inv _ _ Hn) as [Hname Hin].
  split_and!; [done..|]. split; [intros ->; congruence|]. intros ->. done.
Qed.

(** ** Retirement *)

(** [version], in the channel group [group], belongs to the channel of [profile]. *)
Definition namesChannel (group version : string) (profile : VersionProfile) : Prop :=
  ∃ v : V, ParseTolerant version = Some v ∧
    RolloutVersionFromName (V := V) (group +:+ "-" +:+ minorString v) = Ok profile.

Lemma zero_not_referenced counts group version profile :
  countedReference (V := V) counts group version → default 0 (counts !! profile) = 0 →
  ¬ namesChannel group version profile.
Proof.
  intros (v & p & Hv & Hp & Hpos) Hz (w & Hw & Hpw). rewrite Hv in Hw. injection Hw as <-.
  rewrite Hp in Hpw. injection Hpw as <-. lia.
Qed.

(** What the status collector writes, it counted over a complete inventory. *)
Lemma statusCollector_write db config channel rollout clusters spcs now ev r :
  ev ∈ (statusCollectorSyncOnce (V := V) db config channel (Ok rollout) (Ok clusters) (Ok spcs) now).1 →
  ev_op ev = ReplaceRollout r rollout →
  ∃ refs counts, collectRolloutReferences clusters spcs = (refs, []) ∧ r = publishedStatus rollout refs counts.
Proof.
  unfold statusCollectorSyncOnce.
  destruct (collectRolloutReferences clusters spcs) as [refs [|]]; [|set_solver].
  destruct (filterServiceProviderClustersForChannel _ _ _) as [matched|]; [|set_solver].
  set (counts := computeRolloutStatusCounts matched config now).
  destruct (bool_decide _); [set_solver|]. unfold runReplaceRollout, attempt. simpl. intros Hin Hop.
  assert (Hr : ev_op ev = ReplaceRollout (publishedStatus rollout refs counts) rollout).
  { destruct (db_replaceRollout _ _ _ _) as [|[]]; simpl in Hin; apply list_elem_of_singleton in Hin as ->; done. }
  exists refs, counts. split; [done|]. congruence.
Qed.

(** A rollout that is retired on the status the collector published was below the
    support floor, and no cluster and no service provider document of the inventory
    the collector scanned names a version of its channel: neither as requested,
    exact, desired or pinned version nor as an active one.  The deletion carries the
    document's entity tag. *)
Theorem retirement_unreferenced db config channel rollout clusters spcs now ev r stored ev' :
  ev ∈ (statusCollectorSyncOnce (V := V) db config channel (Ok rollout) (Ok clusters) (Ok spcs) now).1 →
  ev_op ev = ReplaceRollout r rollout →
  ro_Status stored = ro_Status r → ro_Version stored = ro_Version r →
  ev' ∈ (retirementSyncOnce db channel (Ok stored)).1 →
  ev_op ev' = DeleteRollout channel (ro_CosmosETag stored) ∧
  atLeastBackendVersion (V := V) (vp_ID (ro_Version stored)) = false ∧
  (∀ cluster version, cluster ∈ clusters → version ∈ clusterReferences cluster →
     ¬ namesChannel (vp_ChannelGroup (cl_Version cluster)) version (ro_Version stored)) ∧
  (∀ c, c ∈ spcs → ∃ cluster id, cluster ∈ clusters ∧ cl_ID cluster = Some id ∧
     parentKey c = Some (ToLower id) ∧ ∀ version, version ∈ serviceProviderReferences c →
     ¬ namesChannel (vp_ChannelGroup (cl_Version cluster)) version (ro_Version stored)).
Proof.
  intros Hin Hop Hst Hver Hdel.
  destruct (statusCollector_write _ _ _ _ _ _ _ _ _ Hin Hop) as (refs & counts & Hrefs & ->).
  destruct (collectRolloutReferences_complete _ _ _ Hrefs) as [Hcl Hsp].
  unfold retirementSyncOnce in Hdel. destruct (reconcileRolloutRetirement stored) eqn:Eret; [|set_solver].
  unfold reconcileRolloutRetirement in Eret. destruct (bool_decide _); [done|].
  destruct (atLeastBackendVersion _) eqn:Efloor; [done|].
  apply bool_decide_eq_true in Eret. rewrite Hst in Eret. simpl in Eret. injection Eret as Hz.
  rewrite Hver. simpl. split_and!.
  - unfold runDeleteRollout, attempt in Hdel.
    destruct (db_deleteRollout _ _ _ _) as [[]|]; simpl in Hdel; apply list_elem_of_singleton in Hdel as ->; done.
  - by rewrite Hver in Efloor.
  - intros cluster version Hc Hv. eapply zero_not_referenced; [by apply Hcl|done].
  - intros c Hc. destruct (Hsp c Hc) as (cluster & id & Hin' & Hid & Hp & Hall).
    exists cluster, id. split_and!; [done..|]. intros version Hv. eapply zero_not_referenced; [by apply Hall|done].
Qed.

End lifecycle.

(** ** Concrete runs *)

#[local] Existing Instances Release.semver Release.laws.

Lemma nonempty_elem {A} (l : list A) :
  match l with [] => false | _ => true end = true → ∃ a, a ∈ l.
Proof. destruct l as [|a l]; [done|]. exists a. left. Qed.

Module Runs.
Import SmallFleet.

Definition key : coordinates := ("sub", "rg", "a").

(** A cluster that is pinned until 4.20.3 is available. *)
Definition pinned : ServiceProviderCluster Release.t := {|
  spc_ResourceID := None;
  spc_DesiredVersion := Some (rel 4 20 1);
  spc_DesiredVersionLastTransitionTime := None;
  spc_PinnedVersion := {| ExactVersion := Some (rel 4 20 1); UntilExactVersion := Some (rel 4 20 3) |};
  spc_ActiveVersions := [] |}.

Definition getRollout (channel : string) : result getError (Rollout Release.t) :=
  if String.eqb channel "stable-4.20" then Ok rollout else Err GetNotFound.

(** A cluster on 4.19 that requests 4.20, with one node pool. *)
Definition older : ServiceProviderCluster Release.t := spc "a" (rel 4 19 7) (rel 4 19 7).
Definition pools : list NodePoolEntry := [{| npe_Name := "np"; npe_VersionID := "4.19.7" |}].
Definition getState (name : string) : option (list (option Release.t)) := Some [Some (rel 4 19 7)].

(** The rollout of an old channel that nothing references. *)
Definition oldRollout : Rollout Release.t := {|
  ro_CosmosETag := "7";
  ro_Version := {| vp_ID := "4.18"; vp_ChannelGroup := "stable" |};
  ro_BestExactVersion := None;
  ro_Status := {| rs_ReferencingClusterCount := None; rs_LastAssignmentTime := None;
    rs_Conditions := []; rs_Desired := ∅; rs_Mismatched := ∅; rs_Failed := ∅;
    rs_Achieved := ∅; rs_Successful := ∅ |} |}.

Definition oldRetired : Rollout Release.t := publishedStatus oldRollout
  (collectRolloutReferences [cluster "a"] [spc "a" (rel 4 20 1) (rel 4 20 1)]).1
  {| Desired := ∅; Mismatched := ∅; Failed := ∅; Achieved := ∅; Successful := ∅ |}.

Definition floorConfig : RolloutConfig Release.t := {|
  CanaryPercentage := 6; RollingPercentage := 12; MinVersionReadyDuration := Hour;
  MinimumVersions := {["stable-4.20" := rel 4 20 9]}; MaxUpgradeDuration := ∅ |}.

End Runs.

(** The pinned cluster: the first sync releases the pin, then nothing changes. *)
Lemma forced_settles_witness :
  let c2 := forcedNext (SmallFleet.cluster "a") Runs.getRollout 6
              (forcedNext (SmallFleet.cluster "a") Runs.getRollout 5 Runs.pinned) in
  (forcedSyncOnce SmallFleet.db Runs.key (Ok c2) (Ok (SmallFleet.cluster "a")) Runs.getRollout 7).1 = [].
Proof. exact (forced_settles SmallFleet.db Runs.key (SmallFleet.cluster "a") Runs.getRollout 5 6 7 Runs.pinned). Defined.

Lemma forced_write_meaning_witness :
  ∃ ev r best v, ev_op ev = ReplaceCluster Runs.key r ∧
    forcedOutcome (SmallFleet.cluster "a") Runs.pinned best v (spc_PinnedVersion r).
Proof.
  destruct (nonempty_elem (forcedSyncOnce SmallFleet.db Runs.key (Ok Runs.pinned) (Ok (SmallFleet.cluster "a"))
    Runs.getRollout 5).1) as [ev Hin]; [vm_compute; reflexivity|].
  destruct (forced_write_meaning SmallFleet.db Runs.key (SmallFleet.cluster "a") Runs.pinned Runs.getRollout 5 ev Hin)
    as (_ & _ & r & best & v & w & Hop & Hbest & Hout & Hrest).
  exists ev, r, best, v. split; [exact Hop|exact Hout].
Defined.

Lemma forced_clusters_have_one_owner_witness :
  hasForcedVersion (SmallFleet.cluster "a") Runs.pinned = true ∧
  ∀ log res, minorUpgradeSyncOnce SmallFleet.db Runs.key (Ok Runs.pinned) (Ok (SmallFleet.cluster "a"))
    Runs.getRollout (Ok Runs.pools) Runs.getState 5 = Ok (log, res) → log = [].
Proof.
  assert (Hf : hasForcedVersion (SmallFleet.cluster "a") Runs.pinned = true) by reflexivity.
  split; [exact Hf|].
  exact (proj1 (forced_clusters_have_one_owner SmallFleet.db Runs.key Runs.pinned (SmallFleet.cluster "a")
    Runs.getRollout (Ok Runs.pools) Runs.getState 5 Hf)).
Defined.

Lemma minor_upgrade_safe_witness :
  ∃ log res ev best, minorUpgradeSyncOnce SmallFleet.db Runs.key (Ok Runs.older) (Ok (SmallFleet.cluster "a"))
      Runs.getRollout (Ok Runs.pools) Runs.getState 5 = Ok (log, res) ∧
    ev_op ev = ReplaceCluster Runs.key (setDesiredVersion Runs.older (Some best) 5).
Proof.
  assert (Hb : match minorUpgradeSyncOnce SmallFleet.db Runs.key (Ok Runs.older) (Ok (SmallFleet.cluster "a"))
      Runs.getRollout (Ok Runs.pools) Runs.getState 5 with Ok (_ :: _, _) => true | _ => false end = true)
    by (vm_compute; reflexivity).
  destruct (minorUpgradeSyncOnce SmallFleet.db Runs.key (Ok Runs.older) (Ok (SmallFleet.cluster "a"))
    Runs.getRollout (Ok Runs.pools) Runs.getState 5) as [[[|ev log] res]|] eqn:E; try discriminate Hb.
  destruct (minor_upgrade_safe SmallFleet.db Runs.key Runs.older (SmallFleet.cluster "a") Runs.getRollout
    (Ok Runs.pools) Runs.getState 5 (ev :: log) res ev E (list_elem_of_here ev log))
    as (desired & requested & rollout & best & pools & H1 & H2 & H3 & H4 & H5 & H6 & H7 & Hop & H8).
  exists (ev :: log), res, ev, best. split; [reflexivity|exact Hop].
Defined.

Lemma bestVersion_floor_witness :
  ∃ ev best, ev_op ev = ReplaceRollout (withBestExactVersion SmallFleet.rollout best) SmallFleet.rollout ∧
    GTE best (SmallFleet.rel 4 20 9) = true.
Proof.
  destruct (nonempty_elem (bestVersionSyncOnce SmallFleet.db Runs.floorConfig "stable-4.20"
    (Ok SmallFleet.rollout) (Ok (Some (SmallFleet.rel 4 20 5)))).1) as [ev Hin]; [vm_compute; reflexivity|].
  destruct (bestVersion_floor SmallFleet.db Runs.floorConfig "stable-4.20" SmallFleet.rollout
    (Some (SmallFleet.rel 4 20 5)) ev Hin) as (best & Hop & _ & Hge & _).
  exists ev, best. split; [exact Hop|]. apply Hge. right. reflexivity.
Defined.

Lemma channel_names_roundtrip_witness :
  RolloutVersionFromName (V := Release.t) (yStreamChannel "fast" (minorString (SmallFleet.rel 4 21 0)))
    = Ok {| vp_ID := minorString (SmallFleet.rel 4 21 0); vp_ChannelGroup := "fast" |}.
Proof.
  apply (channel_names_roundtrip "fast" (SmallFleet.rel 4 21 0)). apply (bool_decide_unpack _). exact I.
Defined.

Lemma retirement_unreferenced_witness :
  ∃ ev' : dbEvent Release.t, ev_op ev' = DeleteRollout "stable-4.18" "7" ∧
    atLeastBackendVersion (V := Release.t) "4.18" = false.
Proof.
  destruct (nonempty_elem (retirementSyncOnce SmallFleet.db "stable-4.18" (Ok Runs.oldRetired)).1) as [ev' Hin'];
    [vm_compute; reflexivity|].
  assert (Hin : {| ev_op := ReplaceRollout Runs.oldRetired Runs.oldRollout; ev_done := true |}
    ∈ (statusCollectorSyncOnce SmallFleet.db SmallFleet.config "stable-4.18"
    (Ok Runs.oldRollout) (Ok [SmallFleet.cluster "a"])
    (Ok [SmallFleet.spc "a" (SmallFleet.rel 4 20 1) (SmallFleet.rel 4 20 1)]) 5).1).
  { apply (list_elem_of_lookup_2 _ 0). reflexivity. }
  destruct (retirement_unreferenced SmallFleet.db SmallFleet.config "stable-4.18" Runs.oldRollout
    [SmallFleet.cluster "a"] [SmallFleet.spc "a" (SmallFleet.rel 4 20 1) (SmallFleet.rel 4 20 1)] 5
    _ Runs.oldRetired Runs.oldRetired ev' Hin eq_refl eq_refl eq_refl Hin') as (Hdel & Hfloor & _).
  exists ev'. split; [exact Hdel|exact Hfloor].
Defined.
