(* ===== verification/RolloutLiveness.v ===== *)
(** * Control plane version rollout: completion

    A rollout whose upgrades succeed completes: each sync of a settled fleet, with a
    database that accepts the writes, advances at least one eligible cluster, so
    after as many rounds as there are eligible clusters none is left. *)
From S2P Require Import Prelude GoStrings RolloutTypes RolloutStatus RolloutProgressive.
From S2P Require Import RolloutSafety RolloutInvariant.

Local Open Scope string_scope.
Local Open Scope Z_scope.

(** ** The selection is not empty *)

Lemma Select_nonempty {A} perm (candidates : list A) n :
  0 < n → candidates ≠ [] → perm ≡ₚ seq 0 (length candidates) →
  ∃ a, a ∈ RandomClusterSelector_Select perm candidates n.
Proof.
  intros Hn Hne Hperm. unfold RandomClusterSelector_Select.
  rewrite bool_decide_false, orb_false_r by done.
  destruct (n <=? 0) eqn:E; bool_reflect; [lia|].
  destruct (_ <=? n). { destruct candidates as [|a l]; [done|]. exists a. left. }
  destruct perm as [|i perm].
  { apply Permutation_nil in Hperm. by destruct candidates. }
  assert (Hi : (i < length candidates)%nat).
  { assert (Hin : i ∈ seq 0 (length candidates)) by (rewrite <- Hperm; left).
    apply elem_of_seq in Hin. lia. }
  apply lookup_lt_is_Some in Hi as [a Ha]. exists a.
  apply list_elem_of_omap. exists i. split; [|done].
  destruct (Z.to_nat n) eqn:En; [lia|]. left.
Qed.

Section completion.
Context {V : Type} `{SemverLaws V}.
Variable config : RolloutConfig V.
Variable best : V.
Variable experimental : gset string.
Implicit Types (c : ServiceProviderCluster V) (l : list (ServiceProviderCluster V)).

Local Notation key := (semver_String best).
Local Notation eligible := (isEligible best experimental).

(** A database that accepts every write. *)
Definition accepting (db : Database V) : Prop :=
  (∀ log r o, is_ok (db_replaceRollout db log r o) = true) ∧
  ∀ log coords r, db_replaceCluster db log coords r = None.

(** No upgrade to the best version is pending, and those that completed are old
    enough to count. *)
Definition settled (now : Z) c : bool :=
  negb (desiresAt key c && isMismatched c) && (negb (achievedAt key c) || heldLong config now c).

(** ** A settled fleet advances *)

Lemma countb_none {A} (p : A → bool) (l : list A) : (∀ a, a ∈ l → p a = false) → countb p l = 0.
Proof.
  induction l as [|a l IH]; intros Hp; [done|]. rewrite countb_cons, (Hp a), IH; [done|set_solver..].
Qed.

Lemma settled_counts l now :
  Z.of_nat (length l) < 2 ^ 63 → Forall (λ c, settled now c = true) l →
  let counts := computeRolloutStatusCounts l config now in
  count (Mismatched counts) key = 0 ∧ count (Failed counts) key = 0 ∧
  count (Successful counts) key = count (Achieved counts) key.
Proof.
  intros Hl Hs. cbv zeta. destruct (counts_exact l config now key Hl) as (_ & -> & -> & -> & ->).
  rewrite Forall_forall in Hs.
  assert (Hm : ∀ c, c ∈ l → desiresAt key c && isMismatched c = false).
  { intros c Hc. apply Hs in Hc. unfold settled in Hc. apply andb_true_iff in Hc as [Hc _].
    by apply negb_true_iff in Hc. }
  split_and!.
  - by apply countb_none.
  - apply countb_none. intros c Hc. by rewrite (Hm c Hc).
  - apply Z.le_antisymm; apply countb_impl; intros c Hc Ha.
    + by apply andb_true_iff in Ha as [Ha _].
    + apply Hs in Hc. unfold settled in Hc. rewrite Ha in Hc |- *. by apply andb_true_iff in Hc as [_ Hc].
Qed.

Lemma settled_selects l now n :
  configOk config → 0 < RollingPercentage config → fleetSize (total l) →
  Forall (λ c, settled now c = true) l → 0 < n <= total l →
  0 < SelectCount (rolloutDecision (Some best) (computeRolloutStatusCounts l config now) (total l) n config).
Proof.
  intros Hc Hroll Hs Hset Hn.
  destruct (settled_counts l now) as (Hm & Hf & Hsucc); [unfold fleetSize, total in Hs; lia|done|].
  pose proof (rolloutDecision_exact best (computeRolloutStatusCounts l config now) (total l) n config
    Hc Hs ltac:(lia) (counts_within l config now key Hs)) as Hx. cbv zeta in Hx.
  set (d := rolloutDecision _ _ _ _ _) in *.
  rewrite Hm, Hf, Hsucc in Hx. destruct Hc as (Hc1 & Hc2 & _).
  destruct (percentOfCeil_spec _ _ Hc1 Hs) as [Hshare _].
  destruct (percentOfCeil_spec _ _ Hc2 Hs) as [_ Hrolling].
  unfold canaryThreshold, rollingThreshold in Hx.
  repeat case_decide; injection Hx as _ ->; try lia; nia.
Qed.

(** ** The writes of an accepting database *)

Lemma assignStep_grows db now (ev : dbEvent V) selected state :
  ev ∈ state.1 → ev ∈ (fold_left (assignStep db best now) selected state).1.
Proof.
  revert state. induction selected as [|c selected IH]; intros [log errs] Hin; simpl; [done|].
  apply IH. unfold assignStep. destruct (assignDesiredVersion_log db log c best now) as (ws & Hws & _).
  destruct (assignDesiredVersion db log c best now) as [log' []]; simpl in *; subst log'; set_solver.
Qed.

Lemma assignAll_done db log selected now c coords :
  accepting db → c ∈ selected → serviceProviderClusterCoords c = Some coords →
  {| ev_op := ReplaceCluster coords (setDesiredVersion c (Some best) now); ev_done := true |}
    ∈ (assignAll db log selected best now).1.
Proof.
  intros [_ Hdb] Hin Hc. unfold assignAll. generalize (@nil assign_error) as errs. revert log.
  induction selected as [|c' selected IH]; intros log errs; [set_solver|].
  apply elem_of_cons in Hin as [->|Hin]; simpl.
  - apply assignStep_grows. unfold assignStep, assignDesiredVersion. rewrite Hc.
    unfold runReplaceCluster, attempt. rewrite Hdb. simpl. set_solver.
  - unfold assignStep at 2. destruct (assignDesiredVersion db log c' best now) as [log' [e|]]; by apply IH.
Qed.

(** One eligible cluster, at least, is written. *)
Lemma settled_writes db ops (inputs : progressiveInputs (V := V)) rollout members clusters :
  configOk config → 0 < RollingPercentage config → fleetSize (total members) →
  accepting db →
  pi_rollout inputs = Ok rollout → ro_BestExactVersion rollout = Some best →
  (∀ last, rs_LastAssignmentTime (ro_Status rollout) = Some last → last + Minute <= pi_cooldownNow inputs) →
  serviceProviderClustersForChannel (pi_clusters inputs) (pi_serviceProviderClusters inputs)
    (pi_channel inputs) = Ok members →
  pi_clustersAgain inputs = Ok clusters → clustersWithExperimentalAssignment clusters = experimental →
  (∀ n, pi_perm inputs n ≡ₚ seq 0 n) →
  Forall (λ c, settled (pi_countNow inputs) c = true) members →
  (∀ c, c ∈ members → is_Some (serviceProviderClusterCoords c)) →
  List.filter eligible members ≠ [] →
  ∃ c coords, c ∈ members ∧ eligible c = true ∧ serviceProviderClusterCoords c = Some coords ∧
    {| ev_op := ReplaceCluster coords (setDesiredVersion c (Some best) (pi_assignNow inputs));
       ev_done := true |} ∈ (progressiveSyncOnce db ops config inputs).1.
Proof.
  intros Hcfg Hroll Hsize Hdb Hr Hb Hcool Hm Hcl Hexp Hperm Hset Hco Hne.
  unfold progressiveSyncOnce. rewrite Hr.
  assert (Hrem : (0 <? match rs_LastAssignmentTime (ro_Status rollout) with
                       | Some last => timeSub (last + Minute) (pi_cooldownNow inputs) | None => 0 end) = false).
  { destruct (rs_LastAssignmentTime _) as [last|]; [|done].
    specialize (Hcool last eq_refl). apply Z.ltb_ge. unfold timeSub. lia. }
  rewrite Hrem, Hm, Hcl, Hb, Hexp. unfold eligibleClusters.
  set (elig := List.filter eligible members) in *.
  assert (Hlen : 0 < Z.of_nat (length elig) <= total members).
  { pose proof (List.filter_length_le eligible members). unfold elig, total in *.
    destruct (List.filter eligible members); [done|]. simpl in *. lia. }
  pose proof (settled_selects members (pi_countNow inputs) _ Hcfg Hroll Hsize Hset Hlen) as Hsel.
  unfold total in Hsel. set (d := rolloutDecision _ _ _ _ _) in *.
  unfold advanceClusters. rewrite Hb. destruct (Z.ltb_spec 0 (SelectCount d)); [|lia].
  destruct (Select_nonempty _ elig (SelectCount d) Hsel Hne (Hperm _)) as [c Hc].
  destruct (Select_subset (pi_perm inputs (length elig)) elig (SelectCount d)) as [Hsub _].
  pose proof (Hsub _ Hc) as Hce. unfold elig in Hce.
  rewrite list_elem_of_In, filter_In, <- list_elem_of_In in Hce. destruct Hce as [Hcm Hel].
  destruct (Hco c Hcm) as [coords Hcoords]. exists c, coords. split_and!; [done..|].
  unfold runReplaceRollout, attempt. pose proof (proj1 Hdb) as Hok.
  match goal with |- context [db_replaceRollout db ?a ?b ?e] => specialize (Hok a b e);
    destruct (db_replaceRollout db a b e) as [reserved|]; [|done] end.
  match goal with |- context [assignAll db ?a ?b ?e ?f] =>
    pose proof (assignAll_done db a b f c coords Hdb Hc Hcoords) as Hev;
    destruct (assignAll db a b e f) as [log errs] end.
  destruct (recordCondition_log db ops log reserved d errs) as (cs & Hcs & _).
  destruct (recordCondition db ops log reserved d errs) as [log' e]. simpl in *. subst log'. set_solver.
Qed.

(** ** The effect on eligibility *)

(** [c] was assigned by a write of [ws] that took effect. *)
Definition advanced (ws : list (dbEvent V)) c : bool :=
  existsb (λ ev, ev_done ev && match ev_op ev with
    | ReplaceCluster coords _ => bool_decide (serviceProviderClusterCoords c = Some coords)
    | _ => false end) ws.

Lemma setDesiredVersion_coords c v now :
  serviceProviderClusterCoords (setDesiredVersion c v now) = serviceProviderClusterCoords c.
Proof. apply sameStatus_coords, setDesiredVersion_sameStatus. Qed.

(** The members after a batch, one by one. *)
Lemma applyLog_pointwise ws now l :
  uniqueCoords l → Forall (λ ev, ∃ c, c ∈ l ∧ assigns best now c ev) ws →
  applyLog ws l = (λ c, if advanced ws c then setDesiredVersion c (Some best) now else c) <$> l.
Proof.
  intros Hu. induction ws as [|ev ws IH] using rev_ind; intros Hws.
  { unfold applyLog. simpl. by rewrite list_fmap_id. }
  apply Forall_app in Hws as [Hws Hev]. apply Forall_singleton in Hev as (c0 & Hin0 & coords & Hc0 & Hop).
  rewrite applyLog_app, IH by done. unfold applyLog, applyEvent. simpl. rewrite Hop.
  assert (Hadv : ∀ c, advanced (ws ++ [ev]) c
    = advanced ws c || (ev_done ev && bool_decide (serviceProviderClusterCoords c = Some coords))).
  { intros c. unfold advanced. rewrite existsb_app. simpl. by rewrite Hop, orb_false_r. }
  destruct (ev_done ev) eqn:Ed.
  - unfold replaceAt. rewrite <- list_fmap_compose. apply list_fmap_ext. intros i c Hi. simpl.
    assert (Hco : serviceProviderClusterCoords (if advanced ws c then setDesiredVersion c (Some best) now else c)
      = serviceProviderClusterCoords c) by (destruct (advanced ws c); [apply setDesiredVersion_coords|done]).
    rewrite Hadv, Hco. case_bool_decide as Heq; [|by rewrite orb_false_r].
    assert (c = c0) as -> by eauto using uniqueCoords_inj, list_elem_of_lookup_2. by rewrite orb_true_r.
  - apply list_fmap_ext. intros i c _. by rewrite Hadv, orb_false_r.
Qed.

Lemma assigned_not_eligible c now : eligible (setDesiredVersion c (Some best) now) = false.
Proof.
  unfold isEligible. destruct (match parentKey _ with Some _ => _ | None => _ end); [done|].
  assert (Hd : ∃ w, spc_DesiredVersion (setDesiredVersion c (Some best) now) = Some w ∧ LT w best = false).
  { unfold setDesiredVersion. destruct (spc_DesiredVersion c) as [d|] eqn:Ed; [|eauto using LT_irrefl].
    destruct (EQ d best && _) eqn:Eq; [|eauto using LT_irrefl]. exists d. split; [done|].
    apply andb_true_iff in Eq as [Eq _]. unfold EQ, LT in *. by destruct (semver_Compare d best). }
  destruct Hd as (w & -> & ->). done.
Qed.

Lemma countb_strict {A} (p q : A → bool) (l : list A) a :
  (∀ x, x ∈ l → p x = true → q x = true) → a ∈ l → p a = false → q a = true → countb p l < countb q l.
Proof.
  intros Hpq Hin Hp Hq. induction l as [|x l IH]; [set_solver|]. rewrite !countb_cons.
  pose proof (countb_impl p q l ltac:(set_solver)).
  apply elem_of_cons in Hin as [->|Hin]; [rewrite Hp, Hq; lia|].
  specialize (IH ltac:(set_solver) Hin). pose proof (Hpq x ltac:(set_solver)).
  destruct (p x), (q x); naive_solver lia.
Qed.

(** ** Rounds *)

(** A document whose status may have changed, but not what the controllers decide. *)
Definition sameSpec c c' : Prop :=
  spc_ResourceID c' = spc_ResourceID c ∧ spc_DesiredVersion c' = spc_DesiredVersion c ∧
  spc_PinnedVersion c' = spc_PinnedVersion c.

Lemma sameSpec_eligible c c' : sameSpec c c' → eligible c' = eligible c.
Proof. intros (Hr & Hd & Hp). unfold isEligible, parentKey. by rewrite Hr, Hd, Hp. Qed.

Lemma sameSpec_coords c c' :
  sameSpec c c' → serviceProviderClusterCoords c' = serviceProviderClusterCoords c.
Proof. intros (Hr & _). unfold serviceProviderClusterCoords. by rewrite Hr. Qed.

(** One sync of a settled fleet, past the cooldown, with an accepting database. *)
Record healthySync (inputs : progressiveInputs (V := V)) (db : Database V) (members : list (ServiceProviderCluster V)) :
    Prop := {
  hs_db : accepting db;
  hs_rollout : ∃ rollout, pi_rollout inputs = Ok rollout ∧ ro_BestExactVersion rollout = Some best ∧
    ∀ last, rs_LastAssignmentTime (ro_Status rollout) = Some last → last + Minute <= pi_cooldownNow inputs;
  hs_members : serviceProviderClustersForChannel (pi_clusters inputs) (pi_serviceProviderClusters inputs)
    (pi_channel inputs) = Ok members;
  hs_experimental : ∃ clusters, pi_clustersAgain inputs = Ok clusters ∧
    clustersWithExperimentalAssignment clusters = experimental;
  hs_perm : ∀ n, pi_perm inputs n ≡ₚ seq 0 n;
  hs_settled : Forall (λ c, settled (pi_countNow inputs) c = true) members;
}.

(** [n] such syncs; in between only the status of the documents changes. *)
Inductive healthyRounds : nat → list (ServiceProviderCluster V) → list (ServiceProviderCluster V) → Prop :=
  | rounds_done members : healthyRounds 0 members members
  | rounds_step n inputs db ops members next last :
      healthySync inputs db members →
      Forall2 sameSpec (applyLog (progressiveSyncOnce db ops config inputs).1 members) next →
      healthyRounds n next last → healthyRounds (S n) members last.

(** A healthy sync leaves fewer eligible clusters. *)
Lemma healthySync_progress inputs db ops members :
  configOk config → 0 < RollingPercentage config → fleetSize (total members) → uniqueCoords members →
  (∀ c, c ∈ members → is_Some (serviceProviderClusterCoords c)) →
  healthySync inputs db members →
  let members' := applyLog (progressiveSyncOnce db ops config inputs).1 members in
  Forall2 sameStatus members members' ∧
  (countb eligible members' < countb eligible members ∨ countb eligible members' = 0).
Proof.
  intros Hcfg Hroll Hsize Hu Hco [Hdb (rollout & Hr & Hb & Hcool) Hm (clusters & Hcl & Hexp) Hperm Hset].
  cbv zeta. split. { eapply sync_effect; eauto. }
  destruct (progressiveSyncOnce_log db ops config inputs)
    as [Hnil|(rollout' & m' & cls' & Hr' & _ & Hm' & Hcl' & (rs & ws & cs & Hlog & Hrs & Hcs & _ & _ & Hws))].
  { destruct (decide (List.filter eligible members = [])) as [Hz|Hne].
    - right. rewrite Hnil. unfold applyLog, countb. simpl. by rewrite Hz.
    - destruct (settled_writes db ops inputs rollout members clusters) as (c & k & _ & _ & _ & Hin); try done.
      rewrite Hnil in Hin. set_solver. }
  assert (rollout' = rollout) as -> by congruence. assert (m' = members) as -> by congruence.
  assert (cls' = clusters) as -> by congruence.
  unfold syncEligible in Hws. rewrite Hb, Hexp in Hws. unfold eligibleClusters in Hws.
  set (now := pi_assignNow inputs) in *.
  assert (Heff : applyLog (progressiveSyncOnce db ops config inputs).1 members
    = (λ c, if advanced ws c then setDesiredVersion c (Some best) now else c) <$> members).
  { rewrite Hlog, !applyLog_app, (applyLog_rollout rs), (applyLog_rollout cs) by done.
    apply applyLog_pointwise; [done|]. eapply Forall_impl; [exact Hws|].
    intros ev (b & c & Hb' & Hc & Ha). injection Hb' as <-.
    rewrite list_elem_of_In, filter_In, <- list_elem_of_In in Hc. naive_solver. }
  rewrite Heff, countb_fmap.
  assert (Himp : ∀ c, c ∈ members →
    eligible (if advanced ws c then setDesiredVersion c (Some best) now else c) = true → eligible c = true).
  { intros c _. destruct (advanced ws c); [by rewrite assigned_not_eligible|done]. }
  destruct (decide (List.filter eligible members = [])) as [Hz|Hne].
  - right. pose proof (countb_impl _ _ members Himp) as Hle.
    assert (countb eligible members = 0) by (unfold countb; by rewrite Hz).
    pose proof (countb_nonneg (λ c, eligible (if advanced ws c then setDesiredVersion c (Some best) now else c)) members).
    lia.
  - left. destruct (settled_writes db ops inputs rollout members clusters)
      as (c & k & Hc & Hel & Hk & Hin); try done.
    eapply countb_strict; [exact Himp|exact Hc| |exact Hel].
    replace (advanced ws c) with true; [apply assigned_not_eligible|]. symmetry.
    unfold advanced. apply existsb_exists. eexists. split; [apply list_elem_of_In|].
    + rewrite Hlog, !elem_of_app in Hin. destruct Hin as [Hi|[Hi|Hi]]; [|exact Hi|].
      * rewrite Forall_forall in Hrs. by apply Hrs in Hi.
      * rewrite Forall_forall in Hcs. by apply Hcs in Hi.
    + simpl. by apply bool_decide_eq_true.
Qed.

Lemma sameSpec_transport l l' :
  Forall2 sameSpec l l' →
  length l' = length l ∧ countb eligible l' = countb eligible l ∧
  omap serviceProviderClusterCoords l' = omap serviceProviderClusterCoords l ∧
  ((∀ c, c ∈ l → is_Some (serviceProviderClusterCoords c)) →
   ∀ c, c ∈ l' → is_Some (serviceProviderClusterCoords c)).
Proof.
  induction 1 as [|c c' l l' Hc Hf (IH1 & IH2 & IH3 & IH4)]; [done|].
  rewrite !countb_cons, (sameSpec_eligible _ _ Hc). csimpl. rewrite (sameSpec_coords _ _ Hc), IH3.
  split_and!; [by f_equal|lia|done|].
  intros Hall x [->|Hx]%elem_of_cons.
  - rewrite (sameSpec_coords _ _ Hc). apply Hall. left.
  - apply IH4; [|done]. intros y Hy. apply Hall. by right.
Qed.

Lemma sameStatus_transport l l' :
  Forall2 sameStatus l l' →
  length l' = length l ∧
  ((∀ c, c ∈ l → is_Some (serviceProviderClusterCoords c)) →
   ∀ c, c ∈ l' → is_Some (serviceProviderClusterCoords c)).
Proof.
  induction 1 as [|c c' l l' Hc Hf (IH1 & IH2)]; [done|]. split; [simpl; by f_equal|].
  intros Hall x [->|Hx]%elem_of_cons.
  - rewrite (sameStatus_coords _ _ Hc). apply Hall. left.
  - apply IH2; [|done]. intros y Hy. apply Hall. by right.
Qed.

Lemma healthyRounds_eligible n members last :
  configOk config → 0 < RollingPercentage config → fleetSize (total members) → uniqueCoords members →
  (∀ c, c ∈ members → is_Some (serviceProviderClusterCoords c)) →
  healthyRounds n members last → countb eligible members <= Z.of_nat n → countb eligible last = 0.
Proof.
  intros Hcfg Hroll Hsize Hu Hco Hrun. revert Hsize Hu Hco.
  induction Hrun as [members|n inputs db ops members next last Hs Hspec Hrun IH]; intros Hsize Hu Hco Hle.
  { pose proof (countb_nonneg eligible members). lia. }
  destruct (healthySync_progress inputs db ops members Hcfg Hroll Hsize Hu Hco Hs) as [Hst Hdec].
  set (members' := applyLog _ members) in *.
  destruct (sameStatus_transport _ _ Hst) as [Hlen Hco'].
  destruct (sameSpec_transport _ _ Hspec) as (Hlen' & Hcount & Hcoords & Hco'').
  apply IH.
  - unfold total in *. by rewrite Hlen', Hlen.
  - unfold uniqueCoords. rewrite Hcoords. by eapply sameStatus_unique.
  - auto.
  - pose proof (countb_nonneg eligible members). lia.
Qed.

(** (C25) A healthy rollout completes: when every sync finds the earlier upgrades
    completed and old enough, the cooldown over and a database that accepts its
    writes, then after as many syncs as there are eligible clusters no cluster is
    eligible any more: every member with a desired version is at the best version
    or above, is owned by the forced assignment, or is held by its pin. *)
Theorem rollout_completes n members last :
  configOk config → 0 < RollingPercentage config → fleetSize (total members) → uniqueCoords members →
  (∀ c, c ∈ members → is_Some (serviceProviderClusterCoords c)) →
  healthyRounds n members last → countb eligible members <= Z.of_nat n →
  eligibleClusters last best experimental = [] ∧
  ∀ c desired, c ∈ last → spc_DesiredVersion c = Some desired → LT desired best = true →
    (∃ id, parentKey c = Some id ∧ id ∈ experimental) ∨ is_Some (ExactVersion (spc_PinnedVersion c)).
Proof.
  intros Hcfg Hroll Hsize Hu Hco Hrun Hle.
  pose proof (healthyRounds_eligible n members last Hcfg Hroll Hsize Hu Hco Hrun Hle) as Hz.
  assert (Hnil : eligibleClusters last best experimental = []).
  { unfold eligibleClusters. unfold countb in Hz.
    destruct (List.filter eligible last); [done|simpl in Hz; lia]. }
  split; [done|]. intros c desired Hc Hd Hlt.
  destruct (eligible c) eqn:He.
  { assert (Hin : c ∈ eligibleClusters last best experimental).
    { unfold eligibleClusters. rewrite list_elem_of_In, filter_In, <- list_elem_of_In. done. }
    rewrite Hnil in Hin. set_solver. }
  unfold isEligible in He. rewrite Hd, Hlt in He. simpl in He.
  destruct (parentKey c) as [id|] eqn:Ep.
  - case_bool_decide; [left; eauto|]. destruct (ExactVersion _); [by right; eauto|done].
  - destruct (ExactVersion _); [by right; eauto|done].
Qed.

End completion.

(** ** A fleet with one cluster left *)

#[local] Existing Instances Release.semver Release.laws.

Module LateFleet.
Import SmallFleet.

Definition members : list (ServiceProviderCluster Release.t) :=
  [spc "a" (rel 4 20 3) (rel 4 20 3); spc "b" (rel 4 20 3) (rel 4 20 3);
   spc "c" (rel 4 20 3) (rel 4 20 3); spc "d" (rel 4 20 1) (rel 4 20 1)].

Definition inputs : progressiveInputs := {|
  pi_channel := "stable-4.20";
  pi_rollout := Ok rollout;
  pi_clusters := Ok (cluster <$> names);
  pi_serviceProviderClusters := Ok members;
  pi_clustersAgain := Ok (cluster <$> names);
  pi_cooldownNow := 100 * Hour;
  pi_countNow := 100 * Hour;
  pi_assignNow := 100 * Hour;
  pi_perm := seq 0 |}.

Definition experimental : gset string := clustersWithExperimentalAssignment (cluster <$> names).

Lemma late_members_eq :
  serviceProviderClustersForChannel (pi_clusters inputs) (pi_serviceProviderClusters inputs)
    (pi_channel inputs) = Ok members.
Proof. reflexivity. Qed.

Lemma members_settled :
  Forall (λ c, settled config (rel 4 20 3) (100 * Hour) c = true) members.
Proof.
  assert (Hb : forallb (settled config (rel 4 20 3) (100 * Hour)) members = true) by (vm_compute; reflexivity).
  rewrite forallb_forall in Hb. apply Forall_forall. intros c Hc. by apply Hb, list_elem_of_In.
Qed.

Lemma healthy : healthySync config (rel 4 20 3) experimental inputs db members.
Proof.
  split; [done|..].
  - by exists rollout.
  - exact late_members_eq.
  - by exists (cluster <$> names).
  - done.
  - exact members_settled.
Qed.

Lemma coords_set c : c ∈ members → is_Some (serviceProviderClusterCoords c).
Proof.
  intros Hc. unfold members in Hc. rewrite !elem_of_cons, elem_of_nil in Hc.
  destruct Hc as [->|[->|[->|[->|[]]]]]; eexists; reflexivity.
Qed.

Lemma late_unique : uniqueCoords members.
Proof. apply (bool_decide_unpack _). vm_compute. exact I. Qed.

Lemma late_size_ok : fleetSize (total members).
Proof. split; vm_compute; [discriminate|reflexivity]. Qed.

Lemma sameSpec_refl (l : list (ServiceProviderCluster Release.t)) : Forall2 sameSpec l l.
Proof. induction l; by constructor. Qed.

End LateFleet.

Lemma rollout_completes_witness :
  let log := (progressiveSyncOnce SmallFleet.db SmallFleet.ops SmallFleet.config LateFleet.inputs).1 in
  eligibleClusters (applyLog log LateFleet.members) (SmallFleet.rel 4 20 3) LateFleet.experimental = [].
Proof.
  intros log.
  destruct (rollout_completes SmallFleet.config (SmallFleet.rel 4 20 3) LateFleet.experimental 1
    LateFleet.members (applyLog log LateFleet.members)) as [Hnil _].
  - exact SmallFleet.config_ok.
  - reflexivity.
  - exact LateFleet.late_size_ok.
  - exact LateFleet.late_unique.
  - exact LateFleet.coords_set.
  - exact (rounds_step _ _ _ 0 LateFleet.inputs SmallFleet.db SmallFleet.ops _ _ _
      LateFleet.healthy (LateFleet.sameSpec_refl _) (rounds_done _ _ _ _)).
  - vm_compute. discriminate.
  - exact Hnil.
Defined.
