(* ===== verification/Admission.v ===== *)
(** * Admission: operations, field errors, tags and deadlines

    What [internal/admission] shares between clusters and node pools: the operation
    (package [operation]), field errors (package [field]), registered features
    ([coreapi/subscription.go]), API versions ([metadataapi/apiversions.go]), tags
    and the deadlines derived from them.  A Go map that is only iterated is the list
    of its entries in iteration order. *)
From S2P Require Import Prelude GoStrings GoDuration RolloutTypes VersionRules.

Local Open Scope string_scope.
Local Open Scope Z_scope.

(** ** Operations *)

Inductive operationType : Type := Create | Update | Delete.

#[export] Instance operationType_eq_dec : EqDecision operationType.
Proof. solve_decision. Defined.

(** The options are a map from names to whether they are enabled. *)
Record Operation := { op_Type : operationType; op_Options : list (string * bool) }.

Definition lookupOption (options : list (string * bool)) (option_ : string) : option bool :=
  snd <$> List.find (λ e, String.eqb (fst e) option_) options.

(** The first result of [HasOption]. *)
Definition HasOption (op : Operation) (name : string) : bool :=
  default false (lookupOption (op_Options op) name).

(** ** Field errors *)

(** What an error says; its text is not modelled. *)
Inductive detail : Type :=
  | UnrecognizedTag
  | NotADuration
  | DurationBelow (minimum : Z)
  | LastNodePool
  | ScaledToZero
  | OtherVNet (vnet : string)
  | SameResourceGroup (name : string)
  | NotAVersion
  | VersionChange (e : change_error)
  | UpgradePath (e : path_error)
  | NodePoolSkew (errs : list skew_error)
  | BelowVersion (minimum : string)
  | MustBe (value : string)
  | MustBeOrEmpty (value : string)
  | SingleReplicaDisabled
  | Blank
  | ExactVersionMissing
  | BeingDeleted
  | IdentityRequired (operator : string)
  | UnrecognizedOperator (supported : list string)
  | UnsupportedOperator (operator version : string)
  | RequiresVersion (major minor : Z)
  | AlreadyInUse (name : string)
  | Unspecified
  | CannotValidate
  | ExistingWithout (field : string)
  | NoUpgradePath (channel : string)
  | MirrorUnknown
  | MirrorMissing
  | OnlyCustomerManaged
  | ImmutableForAPIVersion
  | MayNotDecrease (old : string)
  | PatchNotAllowed (guidance : string)
  | PatchRequired
  | MajorNotSupported
  | ChannelGroupUpdate
  | Immutable
  | ImmutableOnceSet
  | ExtraWhitespace
  | FewerItems (minimum : Z)
  | MustEqual (value : string)
  | ShorterThan (minimum : Z)
  | AboveMaximum (maximum : Z)
  | Mismatch (pattern : string)
  | NotACIDR
  | NotAnIP
  | NotIPv4
  | NotANetwork
  | NotHostPort
  | EmptyHost
  | EmptyPort
  | ProtocolPrefix
  | NotLowercase
  | ContainsWhitespace
  | OtherSubscription (id : string)
  | NoSubscription
  | NoResourceName
  | OtherResourceType (type : string)
  | NoResourceGroup
  | HasResourceGroup
  | NotAResourceID
  | Message (text : string)
  | ReplicasWithAutoScaling
  | AutoRepairRequired
  | LabelKeyNotAllowed
  | LabelValueNotAllowed
  | NetworksOverlap (one other : string)
  | RequiredWhen (field : string)
  | SwiftWithSubnet
  | NotABoolean
  | NightlyNeedsPin
  | PinOfOtherLine
  | NotAssigned
  | AssignedNotUsed
  | UsedMultipleTimes
  | DataPlaneAssigned
  | NotUnique (id : string)
  | PlatformSource.

Inductive fieldError : Type :=
  | Invalid (path value : string) (d : detail)
  | Forbidden (path : string) (d : detail)
  | Required (path : string) (d : detail)
  | TooLong (path : string) (maximum : Z)
  | TooMany (path : string) (actual maximum : Z)
  | InternalError (path : string) (d : detail).

(** [path.Child] and [path.Key] *)
Definition Child (path name : string) : string := path +:+ "." +:+ name.
Definition Key (path key : string) : string := path +:+ "[" +:+ key +:+ "]".

(** ** Registered features *)

Record Feature := { feature_Name : option string; feature_State : option string }.

(** [Properties.RegisteredFeatures], with both pointers resolved. *)
Record Subscription := { sub_RegisteredFeatures : option (list Feature) }.

Definition FeatureExperimentalReleaseFeatures : string :=
  "microsoft.redhatopenshift/experimentalreleasefeatures".

Definition HasRegisteredFeature (s : Subscription) (featureName : string) : bool :=
  match sub_RegisteredFeatures s with
  | None => false
  | Some features =>
      existsb (λ f, match feature_Name f with
                    | Some name => EqualFold name featureName && bool_decide (feature_State f = Some "Registered")
                    | None => false
                    end) features
  end.

(** The guard all experimental tags share. *)
Definition experimentalEnabled (subscription : option Subscription) : bool :=
  match subscription with
  | Some s => HasRegisteredFeature s FeatureExperimentalReleaseFeatures
  | None => false
  end.

(** ** Tags *)

Definition tags : Type := list (string * string).

Definition lookupTag (ts : tags) (key : string) : string :=
  match List.find (λ e, EqualFold (fst e) key) ts with
  | Some e => snd e
  | None => EmptyString
  end.

Definition hasTag (ts : tags) (key : string) : bool := existsb (λ e, EqualFold (fst e) key) ts.

(** The first tag with the experimental prefix that is not known. *)
Definition unrecognizedTag (prefix : string) (knownTags : list string) (ts : tags) : option string :=
  fst <$> List.find (λ e, HasPrefix (ToLower (fst e)) prefix
                          && negb (bool_decide (ToLower (fst e) ∈ knownTags))) ts.

(** ** Deadlines *)

Definition defaultCreateOperationCompletionDeadlineDuration : Z := 60 * Minute.
Definition minCreateOperationCompletionDeadlineDuration : Z := Minute.
Definition defaultUpdateOperationCompletionDeadlineDuration : Z := 60 * Minute.
Definition minUpdateOperationCompletionDeadlineDuration : Z := Minute.
Definition DefaultDeleteOperationCompletionDeadlineDuration : Z := 12 * Hour.
Definition MinDeleteOperationCompletionDeadlineDuration : Z := Minute.

(** A duration from a tag that is set. *)
Definition tagDuration (tagName tagValue : string) (minimum : Z) : result fieldError Z :=
  match ParseDuration tagValue with
  | None => Err (Invalid (Key "tags" tagName) tagValue NotADuration)
  | Some parsed =>
      if parsed <? minimum then Err (Invalid (Key "tags" tagName) tagValue (DurationBelow minimum))
      else Ok parsed
  end.

(** The deadline of an operation: the default, or the tag's duration when the
    experimental features are registered. *)
Definition operationDeadline (subscription : option Subscription) (original : option tags)
    (tagName : string) (standard minimum now : Z) : result fieldError Z :=
  if experimentalEnabled subscription then
    let tagValue := lookupTag (default [] original) tagName in
    if String.eqb tagValue EmptyString then Ok (now + standard)
    else match tagDuration tagName tagValue minimum with
         | Err e => Err e
         | Ok parsed => Ok (now + parsed)
         end
  else Ok (now + standard).

(** A deadline as a mutation: on an error the field keeps its value. *)
Definition setDeadline (applies : bool) (answer : result fieldError Z) (current : option Z) :
    option Z * list fieldError :=
  if negb applies then (current, [])
  else match answer with
       | Err e => (current, [e])
       | Ok t => (Some t, [])
       end.

(** ** API versions *)

Definition apiVersionOptionPrefix : string := "api-version=".
Definition APIVersionV20260630Preview : string := "2026-06-30-preview".

(** [strings.CutSuffix] *)
Definition CutSuffix (s suffix : string) : string * bool :=
  let n := (String.length s - String.length suffix)%nat in
  if (String.length suffix <=? String.length s)%nat && String.eqb (String.substring n (String.length suffix) s) suffix
  then (String.substring 0 n s, true) else (s, false).

(** [strings.CutPrefix] *)
Definition CutPrefix (s p : string) : option string :=
  if HasPrefix s p then Some (String.substring (String.length p) (String.length s - String.length p) s) else None.

Fixpoint APIVersionFromOptions (options : list (string * bool)) : string :=
  match options with
  | [] => EmptyString
  | (name, enabled) :: rest =>
      match CutPrefix name apiVersionOptionPrefix with
      | Some version => if enabled then version else APIVersionFromOptions rest
      | None => APIVersionFromOptions rest
      end
  end.

(** [compare]: the date first, then preview before stable. *)
Definition compareAPIVersion (v other : string) : comparison :=
  let '(dateA, suffixA) := CutSuffix v "-preview" in
  let '(dateB, suffixB) := CutSuffix other "-preview" in
  match String.compare dateA dateB with
  | Eq => match suffixA, suffixB with
          | true, false => Lt
          | false, true => Gt
          | _, _ => Eq
          end
  | c => c
  end.

Definition APIVersion_LT (v other : string) : bool :=
  match compareAPIVersion v other with Lt => true | _ => false end.

Example compareAPIVersion_examples :
  compareAPIVersion "2024-06-10-preview" "2026-06-30-preview" = Lt ∧
  compareAPIVersion "2026-06-30-preview" "2026-06-30-preview" = Eq ∧
  compareAPIVersion "2026-06-30-preview" "2026-06-30" = Lt ∧
  compareAPIVersion "2026-06-30" "2026-06-30-preview" = Gt ∧
  APIVersionFromOptions [("a", true); ("api-version=2026-10-01", true)] = "2026-10-01".
Proof. vm_compute. tauto. Qed.

(** ** Tags are read whatever their order *)

(** No two keys differ in case only, as in an ARM resource. *)
Definition distinctTags (ts : tags) : Prop := NoDup (ToLower ∘ fst <$> ts).

Lemma find_distinct (ts : tags) key k v :
  distinctTags ts → (k, v) ∈ ts → EqualFold k key = true →
  List.find (λ e : string * string, EqualFold (fst e) key) ts = Some (k, v).
Proof.
  unfold distinctTags. induction ts as [|[k' v'] ts IH]; intros Hd Hin Hk; [set_solver|].
  rewrite fmap_cons in Hd. apply NoDup_cons in Hd as [Hn Hd]. simpl.
  apply elem_of_cons in Hin as [[= <- <-]|Hin]; [by rewrite Hk|].
  destruct (EqualFold k' key) eqn:E; [|by apply IH].
  destruct Hn. apply EqualFold_spec in E, Hk. simpl. apply list_elem_of_fmap. exists (k, v).
  split; [simpl; congruence|done].
Qed.

Lemma lookupTag_elem ts key k v :
  distinctTags ts → (k, v) ∈ ts → EqualFold k key = true → lookupTag ts key = v.
Proof. intros Hd Hin Hk. unfold lookupTag. by rewrite (find_distinct ts key k v). Qed.

Lemma hasTag_spec ts key : hasTag ts key = true ↔ ∃ k v, (k, v) ∈ ts ∧ EqualFold k key = true.
Proof.
  unfold hasTag. rewrite existsb_exists. split.
  - intros ([k v] & Hin & Hk). exists k, v. by rewrite list_elem_of_In.
  - intros (k & v & Hin & Hk). exists (k, v). by rewrite <- list_elem_of_In.
Qed.

Lemma lookupTag_absent ts key : hasTag ts key = false → lookupTag ts key = EmptyString.
Proof.
  unfold hasTag, lookupTag. induction ts as [|[k v] ts IH]; simpl; [done|].
  destruct (EqualFold k key); [done|]. apply IH.
Qed.

Lemma hasTag_perm ts ts' key : ts ≡ₚ ts' → hasTag ts key = hasTag ts' key.
Proof.
  intros Hp. apply eq_true_iff_eq. rewrite !hasTag_spec. by setoid_rewrite Hp.
Qed.

(** The value of a tag does not depend on the iteration order. *)
Lemma lookupTag_perm ts ts' key : distinctTags ts → ts ≡ₚ ts' → lookupTag ts key = lookupTag ts' key.
Proof.
  intros Hd Hp. assert (Hd' : distinctTags ts') by (unfold distinctTags in *; by rewrite <- Hp).
  destruct (hasTag ts key) eqn:E.
  - apply hasTag_spec in E as (k & v & Hin & Hk). rewrite (lookupTag_elem ts key k v) by done.
    symmetry. apply (lookupTag_elem ts' key k v); [done|by rewrite <- Hp|done].
  - rewrite (lookupTag_absent ts) by done. symmetry. apply lookupTag_absent. by rewrite <- (hasTag_perm ts).
Qed.

Lemma unrecognizedTag_None prefix knownTags ts :
  unrecognizedTag prefix knownTags ts = None ↔
  ∀ k v, (k, v) ∈ ts → HasPrefix (ToLower k) prefix = true → ToLower k ∈ knownTags.
Proof.
  unfold unrecognizedTag. split.
  - intros Hn k v Hin Hp. destruct (List.find _ ts) eqn:E; [done|].
    apply list_elem_of_In in Hin. apply (List.find_none _ _ E (k, v)) in Hin.
    simpl in Hin. rewrite Hp in Hin. simpl in Hin. apply negb_false_iff in Hin. by apply bool_decide_eq_true in Hin.
  - intros Hall. destruct (List.find _ ts) as [[k v]|] eqn:E; [|done].
    apply List.find_some in E as [Hin Hb]. apply list_elem_of_In in Hin. simpl in Hb.
    apply andb_true_iff in Hb as [Hp Hb]. apply negb_true_iff in Hb.
    apply bool_decide_eq_false in Hb. by destruct Hb; eapply Hall.
Qed.

(** ** Deadlines are sane *)

(** A deadline lies at least the minimum ahead of the clock, and the tag is looked
    at only when the experimental features are registered. *)
Lemma operationDeadline_spec subscription original tagName standard minimum now t :
  minimum <= standard →
  operationDeadline subscription original tagName standard minimum now = Ok t →
  now + minimum <= t ∧
  (t = now + standard ∨
   experimentalEnabled subscription = true ∧
   ∃ d, ParseDuration (lookupTag (default [] original) tagName) = Some d ∧ t = now + d).
Proof.
  intros Hm. unfold operationDeadline, tagDuration. destruct (experimentalEnabled subscription).
  - destruct (String.eqb _ _); [intros [= <-]; split; [lia|by left]|].
    destruct (ParseDuration _) as [d|]; [|done]. destruct (Z.ltb_spec d minimum); [done|].
    intros [= <-]. split; [lia|]. right. eauto.
  - intros [= <-]. split; [lia|by left].
Qed.

Lemma operationDeadline_plain subscription original tagName standard minimum now :
  experimentalEnabled subscription = false →
  operationDeadline subscription original tagName standard minimum now = Ok (now + standard).
Proof. intros He. unfold operationDeadline. by rewrite He. Qed.
