(* ===== verification/FieldValidation.v ===== *)
(** * Static validation: the validators of single fields

    [internal/validation/validators.go] and [validate_common.go].  What the code
    takes from package [validate] and [util/validation] of Kubernetes is a class of
    functions with the laws their documentation states.  A pointer to a field that is
    always set is the field; package [net] is modelled as far as addresses, CIDR
    texts and host-port texts go. *)
From S2P Require Import Prelude GoStrings GoNetip GoRegexp RolloutTypes VersionRules Admission.

Local Open Scope string_scope.
Local Open Scope Z_scope.

(** ** Validators of Kubernetes

    [DiscriminatedUnion op path member (discriminator, isSet) old] is the union of one
    member: a field that is set exactly when the discriminator names it.  On an update
    it looks at the old object, so its law is about updates that have one. *)

Class FieldValidators := {
  RequiredValue : string → string → list fieldError;
  RequiredNumber : string → Z → list fieldError;
  RequiredPointer : string → bool → list fieldError;
  Enum : string → string → list string → list fieldError;
  Minimum : string → option Z → Z → list fieldError;
  EachSliceVal : ∀ A, string → list A → (string → A → list fieldError) → list fieldError;
  EachMapVal : ∀ A, string → gmap string A → gmap string A → (string → A → option A → list fieldError) → list fieldError;
  validate_EachMapKey : ∀ A, Operation → string → gmap string A → gmap string A →
    (string → string → list fieldError) → list fieldError;
  IsQualifiedName : string → list string;
  IsValidLabelValue : string → list string;
  IsDNS1123Subdomain : string → list string;
  DiscriminatedUnion : Operation → string → string → string * bool → option (string * bool) → list fieldError;
}.
Arguments EachSliceVal {_ A}.
Arguments EachMapVal {_ A}.
Arguments validate_EachMapKey {_ A}.

(** The path of an element is of no consequence, so the laws are about validators
    that accept or refuse a value whatever its path. *)
Class FieldValidatorLaws `{FieldValidators} := {
  RequiredValue_nil : ∀ path value, RequiredValue path value = [] ↔ value ≠ EmptyString;
  RequiredNumber_nil : ∀ path value, RequiredNumber path value = [] ↔ value ≠ 0;
  RequiredPointer_nil : ∀ path isSet, RequiredPointer path isSet = [] ↔ isSet = true;
  Enum_nil : ∀ path value symbols, Enum path value symbols = [] ↔ value ∈ symbols;
  Minimum_nil : ∀ path value min, Minimum path value min = [] ↔ ∀ v, value = Some v → min <= v;
  EachSliceVal_nil : ∀ A path (l : list A) validator,
    EachSliceVal path l validator = [] → ∀ a, a ∈ l → ∃ p, validator p a = [];
  EachMapVal_nil : ∀ A path (m old : gmap string A) validator,
    EachMapVal path m old validator = [] → ∀ k a, m !! k = Some a → ∃ p, validator p a (old !! k) = [];
  EachMapKey_nil : ∀ A op path (m old : gmap string A) validator,
    validate_EachMapKey op path m old validator = [] → ∀ k, is_Some (m !! k) →
    (op_Type op = Update ∧ is_Some (old !! k)) ∨ ∃ p, validator p k = [];
  DiscriminatedUnion_nil : ∀ op path member new old, (op_Type op = Update → is_Some old) →
    DiscriminatedUnion op path member new old = [] ↔
    (op_Type op = Update ∧ old = Some new) ∨ (new.2 = true ↔ new.1 = member);
}.

(** ** Semantic equality

    [equality.Semantic.DeepEqual] with the functions [coreapi/registry.go] adds:
    resource IDs are equal up to the case of their text. *)
Class SemanticEqual (A : Type) := DeepEqual : A → A → bool.
Class SemanticEqualLaws (A : Type) `{SemanticEqual A} := {
  DeepEqual_equivalence :: Equivalence (λ a b : A, DeepEqual a b = true);
}.

#[export] Instance string_semantic : SemanticEqual string := String.eqb.
#[export] Instance Z_semantic : SemanticEqual Z := Z.eqb.
#[export] Instance bool_semantic : SemanticEqual bool := Bool.eqb.
#[export] Instance ResourceID_semantic : SemanticEqual ResourceID := λ a b, EqualFold (rid_String a) (rid_String b).
#[export] Instance option_semantic {A} `{SemanticEqual A} : SemanticEqual (option A) := λ a b,
  match a, b with
  | Some a, Some b => DeepEqual a b
  | None, None => true
  | _, _ => false
  end.
(** Nil and empty maps are equal. *)
#[export] Instance gmap_semantic {A} `{SemanticEqual A} : SemanticEqual (gmap string A) := λ a b,
  bool_decide (dom a = dom b) && forallb (λ e, DeepEqual (Some e.2) (b !! e.1)) (map_to_list a).

(** ** Immutability *)

Definition immutableByCompare {A} `{EqDecision A} (op : Operation) (path : string) (value oldValue : option A) :
    list fieldError :=
  if negb (bool_decide (op_Type op = Update)) then []
  else match value, oldValue with
       | None, None => []
       | Some v, Some old => if decide (v = old) then [] else [Forbidden path Immutable]
       | _, _ => [Forbidden path Immutable]
       end.

Definition immutableByReflect {A} `{SemanticEqual A} (op : Operation) (path : string) (value oldValue : A) :
    list fieldError :=
  if negb (bool_decide (op_Type op = Update)) then []
  else if negb (DeepEqual value oldValue) then [Forbidden path Immutable] else [].

Definition immutableByReflectOnceSet {A} `{SemanticEqual A} (op : Operation) (path : string) (value oldValue : option A) :
    list fieldError :=
  if negb (bool_decide (op_Type op = Update)) then []
  else match oldValue with
       | None => []
       | Some old =>
           match value with
           | Some v => if DeepEqual v old then [] else [Forbidden path ImmutableOnceSet]
           | None => [Forbidden path ImmutableOnceSet]
           end
       end.

(** ** Texts and numbers *)

Definition NoExtraWhitespace (path value : string) : list fieldError :=
  if String.eqb value EmptyString then []
  else if negb (String.eqb (TrimSpace value) value) then [Invalid path value ExtraWhitespace] else [].

Definition len (s : string) : Z := Z.of_nat (String.length s).

(** A nil slice has no minimum length. *)
Definition MinItems {A} (path : string) (value : option (list A)) (minLen : Z) : list fieldError :=
  match value with
  | None => []
  | Some l => if Z.of_nat (length l) <? minLen then [Invalid path (Itoa (Z.of_nat (length l))) (FewerItems minLen)] else []
  end.

Definition MaxItems {A} (path : string) (value : option (list A)) (maxLen : Z) : list fieldError :=
  match value with
  | None => []
  | Some l => if maxLen <? Z.of_nat (length l) then [TooMany path (Z.of_nat (length l)) maxLen] else []
  end.

Definition validate_EqualFold (path value requiredValue : string) : list fieldError :=
  if negb (EqualFold value requiredValue) then [Invalid path value (MustEqual requiredValue)] else [].

Definition MaxLen (path value : string) (maxLen : Z) : list fieldError :=
  if maxLen <? len value then [TooLong path maxLen] else [].

Definition MinLen (path value : string) (minLen : Z) : list fieldError :=
  if len value <? minLen then [Invalid path value (ShorterThan minLen)] else [].

Definition Maximum (path : string) (value : option Z) (max : Z) : list fieldError :=
  match value with
  | None => []
  | Some v => if max <? v then [Invalid path (Itoa v) (AboveMaximum max)] else []
  end.

Definition MaximumIfNoAZ (path : string) (value : option Z) (max : Z) (availabilityZone : string) : list fieldError :=
  match value with
  | None => []
  | Some _ => if negb (String.eqb availabilityZone EmptyString) then [] else Maximum path value max
  end.

(** ** Patterns *)

Definition dashed (c : ascii) : bool := isByte "-"%char c || isAlphanumeric c.
Definition dashedLower (c : ascii) : bool := isByte "-"%char c || isLower c || isNumeral c.
Definition lowerOrNumeral (c : ascii) : bool := isLower c || isNumeral c.

(** [^[a-z]([-a-z0-9]*[a-z0-9])?$] *)
Definition rfc1035LabelRegex : regexp :=
  Then (OneOf isLower) (maybe (Then (Many (OneOf dashedLower)) (OneOf lowerOrNumeral))).
(** [^[a-zA-Z]([-a-zA-Z0-9]{0,52}[a-zA-Z0-9])?$] *)
Definition clusterResourceNameRegex : regexp := nameOf isLetter dashed isAlphanumeric 52.
(** [^[a-zA-Z]([-a-zA-Z0-9]{0,13}[a-zA-Z0-9])?$] *)
Definition nodePoolResourceNameRegex : regexp := nameOf isLetter dashed isAlphanumeric 13.
Definition externalAuthResourceNameRegex : regexp := nameOf isLetter dashed isAlphanumeric 13.

(** [^[\p{L}\p{N}_\-.()]{0,89}[\p{L}\p{N}_\-()]$] *)
Definition groupNameEnd (c : ascii) : bool :=
  isAlphanumeric c || existsb (λ b, isByte b c) ["_"%char; "-"%char; "("%char; ")"%char].
Definition groupNameMiddle (c : ascii) : bool := groupNameEnd c || isByte "."%char c.
Definition resourceGroupNameRegex : regexp := Then (upTo 89 (OneOf groupNameMiddle)) (OneOf groupNameEnd).

(** [^[a-zA-Z0-9_-]+$] *)
Definition diskEncryptionSetNameRegex : regexp :=
  some (OneOf (λ c, isAlphanumeric c || isByte "_"%char c || isByte "-"%char c)).
(** [^[0-9a-fA-F]{32}$] *)
Definition keyVaultKeyVersionRegex : regexp :=
  times 32 (OneOf (λ c, isNumeral c || inRange "a"%char "f"%char c || inRange "A"%char "F"%char c)).
(** [^[a-zA-Z0-9]([a-zA-Z0-9._-]{0,62}[a-zA-Z0-9_])?$] *)
Definition azureVMNameRegex : regexp :=
  nameOf isAlphanumeric (λ c, isAlphanumeric c || existsb (λ b, isByte b c) ["."%char; "_"%char; "-"%char])
    (λ c, isAlphanumeric c || isByte "_"%char c) 62.

Definition MatchesRegex (path value : string) (regex : regexp) (errorString : string) : list fieldError :=
  if String.eqb value EmptyString then []
  else if MatchString regex value then [] else [Invalid path value (Mismatch errorString)].

Definition AzureKeyVaultKeyVersion (path value : string) : list fieldError :=
  if String.eqb value EmptyString then []
  else if negb (MatchString keyVaultKeyVersionRegex value)
  then [Invalid path value (Mismatch "(must be a 32-character hexadecimal key version)")] else [].

Definition IsValidAzureVMName (name : string) : bool := MatchString azureVMNameRegex name.

(** ** Names and labels of Kubernetes *)

Section kubernetes.
Context `{FieldValidators}.

Definition KubeLabelValue (path value : string) : list fieldError :=
  (λ msg, Invalid path value (Message msg)) <$> IsValidLabelValue value.

Definition KubeQualifiedName (path value : string) : list fieldError :=
  (λ msg, Invalid path value (Message msg)) <$> IsQualifiedName value.

End kubernetes.

(** The copy of [EachMapKey] in [validators.go], with the key in the path. *)
Definition EachMapKey {A} (op : Operation) (path : string) (newMap oldMap : gmap string A)
    (validator : string → string → list fieldError) : list fieldError :=
  flat_map (λ e,
    if bool_decide (op_Type op = Update) && bool_decide (is_Some (oldMap !! e.1)) then []
    else validator (Key path e.1) e.1) (map_to_list newMap).

(** The first alternative that accepts decides. *)
Fixpoint validate_Or (path value : string) (validateFns : list (string → string → list fieldError)) : list fieldError :=
  match validateFns with
  | [] => []
  | f :: rest =>
      match f path value with
      | [] => []
      | errs => match rest with [] => errs | _ => match validate_Or path value rest with [] => [] | more => (errs ++ more)%list end end
      end
  end.

(** ** Resource IDs *)

Definition SameSubscription (path : string) (value : option ResourceID) (subscriptionID : string) : list fieldError :=
  match value with
  | None => []
  | Some id =>
      if negb (EqualFold (rid_SubscriptionID id) subscriptionID)
      then [Invalid path (rid_String id) (OtherSubscription subscriptionID)] else []
  end.

Definition DifferentResourceGroupName (path value resourceGroupName : string) : list fieldError :=
  if String.eqb value EmptyString then []
  else if EqualFold value resourceGroupName then [Invalid path value (SameResourceGroup resourceGroupName)] else [].

Definition SameVirtualNetwork (path : string) (value otherSubnet : option ResourceID) : list fieldError :=
  match value, otherSubnet with
  | Some id, Some other =>
      match rid_Parent id, rid_Parent other with
      | Some p, Some q =>
          if negb (EqualFold (parent_String p) (parent_String q))
          then [Invalid path (rid_String id) (OtherVNet (rid_String other))] else []
      | _, _ => []
      end
  | _, _ => []
  end.

Definition restrictedGenericResourceIDCheck (path : string) (resourceID : option ResourceID)
    (resourceTypeRestriction : string) : list fieldError :=
  match resourceID with
  | None => []
  | Some id =>
      ((if String.eqb (rid_SubscriptionID id) EmptyString then [Invalid path (rid_String id) NoSubscription] else [])
       ++ (if String.eqb (rid_Name id) EmptyString then [Invalid path (rid_String id) NoResourceName] else [])
       ++ (if negb (String.eqb resourceTypeRestriction EmptyString)
              && negb (EqualFold resourceTypeRestriction (rid_ResourceType id))
           then [Invalid path (rid_String id) (OtherResourceType resourceTypeRestriction)] else []))%list
  end.

Definition restrictedResourceIDInResourceGroupCheck (path : string) (resourceID : option ResourceID)
    (resourceTypeRestriction : string) : list fieldError :=
  match resourceID with
  | None => []
  | Some id =>
      (restrictedGenericResourceIDCheck path resourceID resourceTypeRestriction
       ++ if String.eqb (rid_ResourceGroupName id) EmptyString then [Invalid path (rid_String id) NoResourceGroup]
          else [])%list
  end.

Definition restrictedResourceIDWithoutResourceGroupCheck (path : string) (resourceID : option ResourceID)
    (resourceTypeRestriction : string) : list fieldError :=
  match resourceID with
  | None => []
  | Some id =>
      (restrictedGenericResourceIDCheck path resourceID resourceTypeRestriction
       ++ if negb (String.eqb (rid_ResourceGroupName id) EmptyString) then [Invalid path (rid_String id) HasResourceGroup]
          else [])%list
  end.

(** The exported names of the three checks. *)
Definition validate_ResourceID (path : string) (value : option ResourceID) : list fieldError :=
  restrictedResourceIDInResourceGroupCheck path value EmptyString.
Definition GenericResourceID (path : string) (value : option ResourceID) : list fieldError :=
  restrictedGenericResourceIDCheck path value EmptyString.
Definition RestrictedResourceIDWithResourceGroup (path : string) (value : option ResourceID) (type : string) :
    list fieldError := restrictedResourceIDInResourceGroupCheck path value type.
Definition RestrictedResourceIDWithoutResourceGroup (path : string) (value : option ResourceID) (type : string) :
    list fieldError := restrictedResourceIDWithoutResourceGroupCheck path value type.

Definition newRestrictedResourceID (type path : string) (newValue : option ResourceID) : list fieldError :=
  RestrictedResourceIDWithResourceGroup path newValue type.

(** [parse] is [azcorearm.ParseResourceID]; the keys are validated without an old value. *)
Definition newRestrictedResourceIDString (parse : string → option ResourceID) (type path newValue : string) :
    list fieldError :=
  match parse newValue with
  | None => [Invalid path newValue NotAResourceID]
  | Some id => RestrictedResourceIDWithResourceGroup path (Some id) type
  end.

(** What an accepted resource ID looks like. *)
Definition resourceIDOk (type : string) (id : ResourceID) : Prop :=
  rid_SubscriptionID id ≠ EmptyString ∧ rid_Name id ≠ EmptyString ∧ rid_ResourceGroupName id ≠ EmptyString ∧
  (type ≠ EmptyString → ToLower type = ToLower (rid_ResourceType id)).

(** ** Package [net] *)

(** A [net.IP] of 16 bytes; an IPv4 address is mapped. *)
Definition mapped (v4 : Z) : Z := 65535 * 2 ^ 32 + v4.
Definition As16 (a : Addr) : option Z :=
  match a with Addr4 n => Some (mapped n) | Addr6 n _ => Some n | AddrZero => None end.
Definition To4 (ip : Z) : option Z := if Z.shiftr ip 32 =? 65535 then Some (ip - mapped 0) else None.

(** A network: its masked address, the number of leading ones of the mask and the
    width of the mask. *)
Record IPNet := { net_IP : Z; net_Ones : Z; net_Width : Z }.

Definition ParseIP (s : string) : option Z :=
  match ParseAddr s with
  | Some a => if String.eqb (addrZone a) EmptyString then As16 a else None
  | None => None
  end.

(** [dtoi]: only digits, below [0xFFFFFF]. *)
Fixpoint dtoi (s : list ascii) (n : Z) : option Z :=
  match s with
  | [] => Some n
  | c :: rest =>
      match digit_value c with
      | Some d => let n := n * 10 + d in if 16777215 <=? n then None else dtoi rest n
      | None => None
      end
  end.

(** The number of zero bits below the mask, applied to the 16 byte address. *)
Definition maskIP (ip ones width : Z) : Z := Z.shiftl (Z.shiftr ip (width - ones)) (width - ones).

Definition ParseCIDR (s : string) : option (Z * IPNet) :=
  match cut slash (String.list_ascii_of_string s) with
  | (addr, Some (d :: mask)) =>
      match ParseAddr (String.string_of_list_ascii addr), dtoi (d :: mask) 0 with
      | Some a, Some n =>
          if negb (String.eqb (addrZone a) EmptyString) || (BitLen a <? n) then None
          else match As16 a with
               | Some ip => Some (ip, {| net_IP := maskIP ip n (BitLen a); net_Ones := n; net_Width := BitLen a |})
               | None => None
               end
      | _, _ => None
      end
  | _ => None
  end.

(** [networkNumberAndMask]: an IPv4 network is compared in 32 bits. *)
Definition IPNet_Contains (n : IPNet) (ip : Z) : bool :=
  match To4 (net_IP n), To4 ip with
  | Some a, Some b =>
      let ones := if net_Width n =? 32 then net_Ones n else Z.max 0 (net_Ones n - 96) in
      Z.shiftr a (32 - ones) =? Z.shiftr b (32 - ones)
  | None, None => Z.shiftr (net_IP n) (128 - net_Ones n) =? Z.shiftr ip (128 - net_Ones n)
  | _, _ => false
  end.

Definition CIDRv4 (path value : string) : list fieldError :=
  if String.eqb value EmptyString then []
  else match ParseCIDR value with
       | None => [Invalid path value NotACIDR]
       | Some (ip, net) =>
           if negb (bool_decide (is_Some (To4 ip))) then [Invalid path value NotIPv4]
           else if negb (net_IP net =? ip) then [Invalid path value NotANetwork]
           else []
       end.

Definition IPv4 (path value : string) : list fieldError :=
  if String.eqb value EmptyString then []
  else match ParseIP value with
       | None => [Invalid path value NotAnIP]
       | Some ip => if bool_decide (is_Some (To4 ip)) then [] else [Invalid path value NotIPv4]
       end.

(** [net.SplitHostPort]; the text of its errors is not modelled. *)
Definition SplitHostPort (hostport : list ascii) : option (list ascii * list ascii) :=
  match cutLast colon hostport with
  | None => None
  | Some (before, port) =>
      match hostport with
      | "["%char :: inside =>
          match cut "]"%char inside with
          | (host, Some (":"%char :: rest)) =>
              (* The last colon has to be the one after the bracket. *)
              if existsb (Ascii.eqb colon) rest then None
              else if existsb (Ascii.eqb "["%char) inside || existsb (Ascii.eqb "]"%char) rest then None
              else Some (host, port)
          | _ => None
          end
      | _ =>
          if existsb (Ascii.eqb colon) before then None
          else if existsb (λ c, Ascii.eqb "["%char c || Ascii.eqb "]"%char c) hostport then None
          else Some (before, port)
      end
  end.

(** [strings.Trim(host, "[]")] *)
Fixpoint dropBrackets (s : list ascii) : list ascii :=
  match s with
  | c :: rest => if Ascii.eqb "["%char c || Ascii.eqb "]"%char c then dropBrackets rest else s
  | [] => []
  end.
Definition trimBrackets (s : list ascii) : list ascii := reverse (dropBrackets (reverse (dropBrackets s))).

Definition isIpAddress (host : list ascii) : bool :=
  bool_decide (is_Some (ParseIP (String.string_of_list_ascii (trimBrackets host)))).

Definition hasProtocolPrefix (registry : string) : bool :=
  HasPrefix registry "http://" || HasPrefix registry "https://".
Definition hasUppercaseLetters (registry : string) : bool := negb (String.eqb registry (ToLower registry)).

(** The space, tab, newline, carriage return, form feed and vertical tab. *)
Definition whitespaceBytes : list ascii :=
  [" "%char; "009"%char; "010"%char; "013"%char; "012"%char; "011"%char].
Definition hasWhitespaceCharacters (registry : string) : bool :=
  existsb (λ c, existsb (Ascii.eqb c) whitespaceBytes) (String.list_ascii_of_string registry).

Definition extractHostFromPath (registry : string) : string := List.hd EmptyString (Split "/" registry).
Definition removeWildcardPrefix (host : string) : string := default host (CutPrefix host "*.").

Section hosts.
Context `{FieldValidators}.

Definition HostPort (path value : string) : list fieldError :=
  if String.eqb value EmptyString then []
  else
    match SplitHostPort (String.list_ascii_of_string value) with
    | None => [Invalid path value NotHostPort]
    | Some ([], _) => [Invalid path value EmptyHost]
    | Some (host, _) =>
        if isIpAddress host then []
        else (λ msg, Invalid path value (Message msg)) <$> IsDNS1123Subdomain (String.string_of_list_ascii host)
    end.

(** The check of the host once the port is split off. *)
Definition registryHost (path value : string) (host : list ascii) : list fieldError :=
  if isIpAddress host then []
  else (λ msg, Invalid path value (Message msg)) <$> IsDNS1123Subdomain (String.string_of_list_ascii host).

Definition ImageRegistry (path value : string) : list fieldError :=
  if String.eqb value EmptyString then [Required path Unspecified]
  else if 255 <? len value then [TooLong path 255]
  else if hasProtocolPrefix value then [Invalid path value ProtocolPrefix]
  else if hasUppercaseLetters value then [Invalid path value NotLowercase]
  else if hasWhitespaceCharacters value then [Invalid path value ContainsWhitespace]
  else
    let hostPort := String.list_ascii_of_string (removeWildcardPrefix (extractHostFromPath value)) in
    if existsb (Ascii.eqb colon) hostPort then
      match SplitHostPort hostPort with
      | None => if isIpAddress hostPort then [] else [Invalid path value NotHostPort]
      | Some (_, []) => [Invalid path value EmptyPort]
      | Some (host, _) => registryHost path value host
      end
    else registryHost path value hostPort.

End hosts.

(** ** Tracked resources *)

Record SystemData := { sd_CreatedBy : string; sd_CreatedAt : option Z; sd_CreatedByType : string }.

Record Resource := {
  res_ID : option ResourceID;
  res_Name : string;
  res_Type : string;
  res_SystemData : option SystemData;
}.

Record TrackedResource := { tr_Resource : Resource; tr_Location : string }.

Section resources.
Context `{FieldValidators}.

(** Whether an old text is set: bad old data is not held against an update. *)
Definition hasOld (old : option string) : bool :=
  match old with Some s => negb (String.eqb s EmptyString) | None => false end.

Definition validateSystemData (op : Operation) (path : string) (newObj oldObj : option SystemData) : list fieldError :=
  match newObj with
  | None => []
  | Some new =>
      (RequiredValue (Child path "createdBy") (sd_CreatedBy new)
       ++ (if hasOld (sd_CreatedBy <$> oldObj)
           then immutableByCompare op (Child path "createdBy") (Some (sd_CreatedBy new)) (sd_CreatedBy <$> oldObj) else [])
       ++ RequiredPointer (Child path "createdAt") (bool_decide (is_Some (sd_CreatedAt new)))
       ++ match sd_CreatedAt new with Some t => RequiredNumber (Child path "createdAt") t | None => [] end
       ++ match oldObj with
          | Some old =>
              if bool_decide (is_Some (sd_CreatedAt old))
              then immutableByReflect op (Child path "createdAt") (sd_CreatedAt new) (sd_CreatedAt old) else []
          | None => []
          end
       ++ RequiredValue (Child path "createdByType") (sd_CreatedByType new)
       ++ (if hasOld (sd_CreatedByType <$> oldObj)
           then immutableByCompare op (Child path "createdByType") (Some (sd_CreatedByType new))
                  (sd_CreatedByType <$> oldObj) else []))%list
  end.

Definition validateResource (op : Operation) (path : string) (newObj : Resource) (oldObj : option Resource) :
    list fieldError :=
  let withID (f : ResourceID → list fieldError) := match res_ID newObj with Some id => f id | None => [] end in
  (immutableByReflect op (Child path "id") (res_ID newObj) (mjoin (res_ID <$> oldObj))
   ++ RequiredPointer (Child path "id") (bool_decide (is_Some (res_ID newObj)))
   ++ GenericResourceID (Child path "id") (res_ID newObj)
   ++ immutableByCompare op (Child path "name") (Some (res_Name newObj)) (res_Name <$> oldObj)
   ++ withID (λ id, validate_EqualFold (Child path "name") (res_Name newObj) (rid_Name id))
   ++ immutableByCompare op (Child path "type") (Some (res_Type newObj)) (res_Type <$> oldObj)
   ++ withID (λ id, validate_EqualFold (Child path "type") (res_Type newObj) (rid_ResourceType id))
   ++ RequiredPointer (Child path "systemData") (bool_decide (is_Some (res_SystemData newObj)))
   ++ validateSystemData op (Child path "systemData") (res_SystemData newObj) (mjoin (res_SystemData <$> oldObj)))%list.

Definition validateTrackedResource (op : Operation) (path : string) (newObj : TrackedResource)
    (oldObj : option TrackedResource) : list fieldError :=
  (validateResource op (Child path "resource") (tr_Resource newObj) (tr_Resource <$> oldObj)
   ++ RequiredValue (Child path "location") (tr_Location newObj)
   ++ immutableByCompare op (Child path "location") (Some (tr_Location newObj)) (tr_Location <$> oldObj))%list.

End resources.

(** ** What accepted fields look like *)

Section accepted.

Lemma immutableByCompare_nil {A} `{EqDecision A} op path (value oldValue : option A) :
  op_Type op = Update → immutableByCompare op path value oldValue = [] ↔ value = oldValue.
Proof.
  intros Hop. unfold immutableByCompare. rewrite (bool_decide_true _ Hop). cbn [negb].
  destruct value as [v|], oldValue as [old|]; [destruct (decide (v = old))|..]; naive_solver congruence.
Qed.

Lemma immutableByReflect_nil {A} `{SemanticEqual A} op path (value oldValue : A) :
  op_Type op = Update → immutableByReflect op path value oldValue = [] ↔ DeepEqual value oldValue = true.
Proof.
  intros Hop. unfold immutableByReflect. rewrite (bool_decide_true _ Hop). cbn [negb]. by destruct (DeepEqual value oldValue).
Qed.

Lemma Maximum_nil path value max : Maximum path value max = [] ↔ ∀ v, value = Some v → v <= max.
Proof.
  unfold Maximum. destruct value as [v|]; [|naive_solver]. destruct (Z.ltb_spec max v).
  - split; [done|]. intros Hall. specialize (Hall v eq_refl). lia.
  - split; [|done]. by intros _ w [= <-].
Qed.

Lemma MaximumIfNoAZ_nil path value max zone :
  MaximumIfNoAZ path value max zone = [] ↔ (zone = EmptyString → ∀ v, value = Some v → v <= max).
Proof.
  unfold MaximumIfNoAZ. destruct value as [v|]; [|naive_solver].
  destruct (String.eqb_spec zone EmptyString) as [->|Hz]; cbn [negb]; [|naive_solver].
  rewrite Maximum_nil. naive_solver.
Qed.

Lemma MaxLen_nil path value max : MaxLen path value max = [] ↔ len value <= max.
Proof. unfold MaxLen. destruct (Z.ltb_spec max (len value)); split; try done; lia. Qed.

Lemma MatchesRegex_nil path value regex message :
  value ≠ EmptyString → MatchesRegex path value regex message = [] ↔ MatchString regex value = true.
Proof.
  intros Hne. unfold MatchesRegex. rewrite (proj2 (String.eqb_neq _ _) Hne). by destruct (MatchString regex value).
Qed.

Lemma if_nil {A} (b : bool) (e : A) : (if b then [e] else []) = [] ↔ b = false.
Proof. by destruct b. Qed.

Lemma RestrictedResourceID_nil path value type :
  RestrictedResourceIDWithResourceGroup path value type = [] ↔ ∀ id, value = Some id → resourceIDOk type id.
Proof.
  unfold RestrictedResourceIDWithResourceGroup, restrictedResourceIDInResourceGroupCheck, restrictedGenericResourceIDCheck.
  destruct value as [id|]; [|naive_solver]. rewrite !app_nil_iff, !if_nil, andb_false_iff, !negb_false_iff.
  rewrite !String.eqb_neq, String.eqb_eq, EqualFold_spec. unfold resourceIDOk.
  split.
  - intros ((Hs & Hn & Ht) & Hg) i [= <-]. split_and!; try done. tauto.
  - intros Hall. destruct (Hall id eq_refl) as (Hs & Hn & Hg & Ht). split_and!; try done.
    destruct (decide (type = EmptyString)); [by left|right; auto].
Qed.

Lemma SameSubscription_nil path value sub :
  SameSubscription path value sub = [] ↔ ∀ id, value = Some id → ToLower (rid_SubscriptionID id) = ToLower sub.
Proof.
  unfold SameSubscription. destruct value as [id|]; [|naive_solver].
  rewrite if_nil, negb_false_iff, EqualFold_spec. naive_solver.
Qed.

Lemma KubeLabelValue_nil `{FieldValidators} path value : KubeLabelValue path value = [] ↔ IsValidLabelValue value = [].
Proof. apply fmap_nil_inv'. Qed.

Lemma KubeQualifiedName_nil `{FieldValidators} path value : KubeQualifiedName path value = [] ↔ IsQualifiedName value = [].
Proof. apply fmap_nil_inv'. Qed.

(** ** Networks *)

(** An IPv4 network with a usable mask. *)
Record net4 (n : IPNet) : Prop := {
  net4_ip : is_Some (To4 (net_IP n));
  net4_ones : 0 <= net_Ones n <= net_Width n;
  net4_width : net_Width n = 32 ∨ net_Width n = 128;
}.

Definition net4_bits (n : IPNet) : Z := if net_Width n =? 32 then net_Ones n else Z.max 0 (net_Ones n - 96).

Lemma net4_bits_range n : net4 n → 0 <= net4_bits n <= 32.
Proof. intros [_ Ho [Hw|Hw]]; unfold net4_bits; rewrite Hw in *; simpl; lia. Qed.

Lemma IPNet_Contains_spec n ip a b :
  To4 (net_IP n) = Some a → To4 ip = Some b →
  IPNet_Contains n ip = true ↔ Z.shiftr a (32 - net4_bits n) = Z.shiftr b (32 - net4_bits n).
Proof. intros Ha Hb. unfold IPNet_Contains. rewrite Ha, Hb. apply Z.eqb_eq. Qed.

Lemma shiftr_coarser a b i j : 0 <= i <= j → Z.shiftr a i = Z.shiftr b i → Z.shiftr a j = Z.shiftr b j.
Proof.
  intros Hij Heq. replace j with (i + (j - i)) by lia. rewrite <- !Z.shiftr_shiftr by lia. by rewrite Heq.
Qed.

(** Two networks share an address exactly when one contains the address of the other. *)
Lemma networks_share_iff n m :
  net4 n → net4 m →
  (∃ ip, IPNet_Contains n ip = true ∧ IPNet_Contains m ip = true) ↔
  IPNet_Contains m (net_IP n) = true ∨ IPNet_Contains n (net_IP m) = true.
Proof.
  intros Hn Hm. pose proof (net4_bits_range n Hn) as Hbn. pose proof (net4_bits_range m Hm) as Hbm.
  destruct (net4_ip n Hn) as [a Ha], (net4_ip m Hm) as [b Hb]. split.
  - intros (ip & H1 & H2). destruct (To4 ip) as [c|] eqn:Ec.
    2: { unfold IPNet_Contains in H1. by rewrite Ha, Ec in H1. }
    apply (IPNet_Contains_spec n ip a c Ha Ec) in H1. apply (IPNet_Contains_spec m ip b c Hb Ec) in H2.
    destruct (Z.le_ge_cases (net4_bits n) (net4_bits m)) as [Hle|Hle].
    + right. apply (IPNet_Contains_spec n _ a b Ha Hb). rewrite H1. symmetry.
      by apply (shiftr_coarser b c (32 - net4_bits m)); [lia|].
    + left. apply (IPNet_Contains_spec m _ b a Hb Ha). rewrite H2. symmetry.
      by apply (shiftr_coarser a c (32 - net4_bits n)); [lia|].
  - intros [H1|H1]; [exists (net_IP n)|exists (net_IP m)]; (split; [|try done]); try done.
    + by apply (IPNet_Contains_spec n _ a a Ha Ha).
    + by apply (IPNet_Contains_spec m _ b b Hb Hb).
Qed.

End accepted.

(** ** An instance

    Functions that behave as documented; any label is accepted as long as it is not
    empty. *)
Module KubernetesReference.

#[export] Instance validators : FieldValidators := {
  RequiredValue path value := if String.eqb value EmptyString then [Required path Unspecified] else [];
  RequiredNumber path value := if value =? 0 then [Required path Unspecified] else [];
  RequiredPointer path isSet := if negb isSet then [Required path Unspecified] else [];
  Enum path value symbols := if bool_decide (value ∈ symbols) then [] else [Invalid path value Unspecified];
  Minimum path value min :=
    match value with Some v => if v <? min then [Invalid path (Itoa v) Unspecified] else [] | None => [] end;
  EachSliceVal A path l validator := flat_map (validator path) l;
  EachMapVal A path m old validator :=
    flat_map (λ e : string * A, validator (Key path e.1) e.2 (old !! e.1)) (map_to_list m);
  validate_EachMapKey A op path m old validator :=
    flat_map (λ e : string * A,
      if bool_decide (op_Type op = Update) && bool_decide (is_Some (old !! e.1)) then [] else validator path e.1)
      (map_to_list m);
  IsQualifiedName value := if String.eqb value EmptyString then ["empty"] else [];
  IsValidLabelValue value := [];
  IsDNS1123Subdomain value := if String.eqb value EmptyString then ["empty"] else [];
  DiscriminatedUnion op path member new old :=
    if bool_decide (op_Type op = Update ∧ old = Some new) then []
    else if Bool.eqb new.2 (String.eqb new.1 member) then [] else [Invalid path new.1 Unspecified];
}.

#[export] Instance laws : FieldValidatorLaws.
Proof.
  split; simpl.
  - intros path value. by rewrite if_nil, String.eqb_neq.
  - intros path value. by rewrite if_nil, Z.eqb_neq.
  - intros path isSet. by rewrite if_nil, negb_false_iff.
  - intros path value symbols. destruct (bool_decide_reflect (value ∈ symbols)); naive_solver.
  - intros path [v|] min; [|naive_solver]. rewrite if_nil, Z.ltb_ge. naive_solver.
  - intros A path l validator Hn a Ha. exists path. by apply (proj1 (flat_map_nil_iff _ _) Hn).
  - intros A path m old validator Hn k a Hk. exists (Key path k).
    apply (proj1 (flat_map_nil_iff _ _) Hn (k, a)). by apply elem_of_map_to_list.
  - intros A op path m old validator Hn k [a Hk].
    assert (Hin : (k, a) ∈ map_to_list m) by (by apply elem_of_map_to_list).
    pose proof (proj1 (flat_map_nil_iff _ _) Hn (k, a) Hin) as Hv. simpl in Hv.
    destruct (bool_decide_reflect (op_Type op = Update)), (bool_decide_reflect (is_Some (old !! k))); simpl in Hv; eauto.
  - intros op path member [disc isSet] old _. simpl.
    case_bool_decide as Hc; [naive_solver|].
    destruct (String.eqb_spec disc member), isSet; simpl; naive_solver.
Qed.

End KubernetesReference.
