(* ===== verification/NodePoolAdmission.v ===== *)
(** * Node pool admission

    [internal/admission/admit_nodepool.go]: the mutations and checks of a node pool
    on create, update and delete.  The documents the code prefetches are fields of
    the admission context; a nil dereference is the error of a [result]. *)
From S2P Require Import Prelude GoStrings GoDuration RolloutTypes VersionRules Admission.

Local Open Scope string_scope.
Local Open Scope Z_scope.
Local Open Scope go_scope.

(** ** Documents *)

Record NodePoolAutoScaling := { autoscaling_Min : Z; autoscaling_Max : Z }.

Record NodePoolPlatformProfile := {
  platform_SubnetID : option ResourceID;
  platform_EncryptionSetID : option ResourceID;
}.

Record NodePoolProperties := {
  npp_VersionID : string;
  npp_Platform : NodePoolPlatformProfile;
  npp_Replicas : Z;
  npp_AutoScaling : option NodePoolAutoScaling;
}.

(** [np_ID] and [np_ResourceID] are the strings of the two IDs. *)
Record NodePool := {
  np_ID : string;
  np_ResourceID : string;
  np_Tags : tags;
  np_DeletionTimestamp : option Z;
  np_Properties : NodePoolProperties;
  np_CreateOperationCompletionDeadline : option Z;
  np_UpdateOperationCompletionDeadline : option Z;
}.

Definition ExperimentalNodePoolTagPrefix : string := "aro-hcp.experimental.nodepool.".
Definition TagNodePoolMaxCreationDuration : string :=
  ExperimentalNodePoolTagPrefix +:+ "max-creation-duration".
Definition TagNodePoolMaxUpdateDuration : string :=
  ExperimentalNodePoolTagPrefix +:+ "max-update-duration".

Section admission.
Context {V : Type} `{Semver V}.

(** What the node pool admission reads of the parent cluster. *)
Record ParentCluster := {
  pc_SubnetID : option ResourceID;
  pc_ManagedResourceGroup : string;
}.

(** The service provider documents: the desired and active versions. *)
Record NodePoolAdmissionContext := {
  nac_Now : Z;
  nac_Subscription : option Subscription;
  nac_OriginalNodePool : option NodePool;
  nac_Cluster : ParentCluster;
  nac_ServiceProviderNodePool : option (option V * list (option V));
  nac_ServiceProviderCluster : option (list (ActiveVersion V));
  nac_ClusterNodePools : list NodePool;
}.

(** ** Mutations *)

Definition originalTags (ctx : NodePoolAdmissionContext) : option tags := np_Tags <$> nac_OriginalNodePool ctx.

Definition withSubnet (np : NodePool) (subnet : option ResourceID) : NodePool := {|
  np_ID := np_ID np;
  np_ResourceID := np_ResourceID np;
  np_Tags := np_Tags np;
  np_DeletionTimestamp := np_DeletionTimestamp np;
  np_Properties := {|
    npp_VersionID := npp_VersionID (np_Properties np);
    npp_Platform := {|
      platform_SubnetID := subnet;
      platform_EncryptionSetID := platform_EncryptionSetID (npp_Platform (np_Properties np)) |};
    npp_Replicas := npp_Replicas (np_Properties np);
    npp_AutoScaling := npp_AutoScaling (np_Properties np) |};
  np_CreateOperationCompletionDeadline := np_CreateOperationCompletionDeadline np;
  np_UpdateOperationCompletionDeadline := np_UpdateOperationCompletionDeadline np |}.

Definition withDeadlines (np : NodePool) (create update : option Z) : NodePool := {|
  np_ID := np_ID np;
  np_ResourceID := np_ResourceID np;
  np_Tags := np_Tags np;
  np_DeletionTimestamp := np_DeletionTimestamp np;
  np_Properties := np_Properties np;
  np_CreateOperationCompletionDeadline := create;
  np_UpdateOperationCompletionDeadline := update |}.

(** [mutateNodePoolProperties] only mutates the platform, which only defaults the
    subnet on create. *)
Definition mutateNodePoolPlatform (ctx : NodePoolAdmissionContext) (op : Operation) (np : NodePool) : NodePool :=
  if bool_decide (op_Type op = Create) && bool_decide (platform_SubnetID (npp_Platform (np_Properties np)) = None)
  then withSubnet np (pc_SubnetID (nac_Cluster ctx)) else np.

Definition mutateNodePoolExperimentalTags (ctx : NodePoolAdmissionContext) : list fieldError :=
  if experimentalEnabled (nac_Subscription ctx) then
    match unrecognizedTag ExperimentalNodePoolTagPrefix
            [TagNodePoolMaxCreationDuration; TagNodePoolMaxUpdateDuration] (default [] (originalTags ctx)) with
    | Some k => [Invalid (Key "tags" k) k UnrecognizedTag]
    | None => []
    end
  else [].

Definition mutateNodePoolCreateOperationCompletionDeadline (ctx : NodePoolAdmissionContext) (op : Operation)
    (current : option Z) : option Z * list fieldError :=
  setDeadline (bool_decide (op_Type op = Create))
    (operationDeadline (nac_Subscription ctx) (originalTags ctx) TagNodePoolMaxCreationDuration
       defaultCreateOperationCompletionDeadlineDuration minCreateOperationCompletionDeadlineDuration (nac_Now ctx))
    current.

Definition mutateNodePoolUpdateOperationCompletionDeadline (ctx : NodePoolAdmissionContext) (op : Operation)
    (current : option Z) : option Z * list fieldError :=
  setDeadline (bool_decide (op_Type op = Update))
    (operationDeadline (nac_Subscription ctx) (originalTags ctx) TagNodePoolMaxUpdateDuration
       defaultUpdateOperationCompletionDeadlineDuration minUpdateOperationCompletionDeadlineDuration (nac_Now ctx))
    current.

Definition mutateNodePoolServiceProviderProperties (ctx : NodePoolAdmissionContext) (op : Operation) (np : NodePool) :
    NodePool * list fieldError :=
  let '(create, createErrs) :=
    mutateNodePoolCreateOperationCompletionDeadline ctx op (np_CreateOperationCompletionDeadline np) in
  let '(update, updateErrs) :=
    mutateNodePoolUpdateOperationCompletionDeadline ctx op (np_UpdateOperationCompletionDeadline np) in
  (withDeadlines np create update, (mutateNodePoolExperimentalTags ctx ++ createErrs ++ updateErrs)%list).

Definition MutateNodePool (ctx : NodePoolAdmissionContext) (op : Operation) (newObj : NodePool) :
    NodePool * list fieldError :=
  mutateNodePoolServiceProviderProperties ctx op (mutateNodePoolPlatform ctx op newObj).

(** ** Deletion *)

Definition isDeleting (np : NodePool) : bool := bool_decide (is_Some (np_DeletionTimestamp np)).

Definition admitAtLeastOneNodePoolRemains (nodePools : list NodePool) (nodePoolBeingDeleted : NodePool) :
    list fieldError :=
  if isDeleting nodePoolBeingDeleted then []
  else if existsb (λ np, negb (EqualFold (np_ResourceID np) (np_ResourceID nodePoolBeingDeleted))
                         && negb (isDeleting np)) nodePools
  then []
  else [Forbidden "name" LastNodePool].

Definition AdmitNodePoolOnDelete (nodePools : list NodePool) (nodePoolBeingDeleted : NodePool) : list fieldError :=
  admitAtLeastOneNodePoolRemains nodePools nodePoolBeingDeleted.

(** ** Version *)

Definition validateNodePoolVersionChange (ctx : NodePoolAdmissionContext) (op : Operation) (path : string)
    (newID : string) (oldID : option string) : result version_panic (list fieldError) :=
  if String.eqb newID EmptyString || bool_decide (oldID = Some newID) then Ok []
  else
    match semver_Parse newID with
    | None => Ok [Invalid path newID NotAVersion]
    | Some newVersion =>
        let sameAsDesired :=
          match nac_ServiceProviderNodePool ctx with
          | Some (Some desired, _) => EQ newVersion desired
          | _ => false
          end in
        if sameAsDesired then Ok []
        else
          let activeVersions := match nac_ServiceProviderNodePool ctx with Some (_, active) => active | None => [] end in
          match nac_ServiceProviderCluster ctx with
          | None => Err NilDereference
          | Some clusterActive =>
              let* bounds := FindLowestAndHighestClusterVersion clusterActive in
              let '(lowestCP, highestCP) := bounds in
              let* e := ValidateNodePoolVersionChange newVersion activeVersions lowestCP highestCP
                          (HasOption op FeatureExperimentalReleaseFeatures) in
              match e with
              | Some e => Ok [Invalid path newID (VersionChange e)]
              | None => Ok []
              end
          end
    end.

(** ** Platform *)

Definition DifferentResourceGroupNameFromResourceID (path : string) (value : option ResourceID)
    (resourceGroupName : string) : list fieldError :=
  match value with
  | None => []
  | Some id =>
      if EqualFold (rid_ResourceGroupName id) resourceGroupName
      then [Invalid path (rid_String id) (SameResourceGroup resourceGroupName)] else []
  end.

Definition admitNodePoolOSDiskEncryptionSet (ctx : NodePoolAdmissionContext) (path : string)
    (encryptionSetID : option ResourceID) : list fieldError :=
  match encryptionSetID with
  | None => []
  | Some _ =>
      DifferentResourceGroupNameFromResourceID (Child path "encryptionSetId") encryptionSetID
        (pc_ManagedResourceGroup (nac_Cluster ctx))
  end.

(** [subnet.Parent.String()] *)
Definition parentString (id : ResourceID) : result version_panic string :=
  match rid_Parent id with Some parent => Ok (parent_String parent) | None => Err NilDereference end.

Definition admitNodePoolSubnet (ctx : NodePoolAdmissionContext) (op : Operation) (path : string)
    (newSubnet oldSubnet : option ResourceID) : result version_panic (list fieldError) :=
  match newSubnet, pc_SubnetID (nac_Cluster ctx) with
  | Some subnet, Some clusterSubnet =>
      let oldSubnetID :=
        match oldSubnet with
        | Some old => if bool_decide (op_Type op = Update) then rid_String old else EmptyString
        | None => EmptyString
        end in
      if bool_decide (op_Type op = Create) || negb (EqualFold (rid_String subnet) oldSubnetID) then
        let* clusterVNet := parentString clusterSubnet in
        let* nodePoolVNet := parentString subnet in
        if negb (EqualFold nodePoolVNet clusterVNet)
        then Ok [Invalid (Child path "subnetId") (rid_String subnet) (OtherVNet clusterVNet)]
        else Ok []
      else Ok []
  | _, _ => Ok []
  end.

(** The old platform is dereferenced on an update only, where it is set. *)
Definition admitNodePoolPlatform (ctx : NodePoolAdmissionContext) (op : Operation) (path : string)
    (newObj : NodePoolPlatformProfile) (oldObj : option NodePoolPlatformProfile) :
    result version_panic (list fieldError) :=
  let* subnetErrs := admitNodePoolSubnet ctx op path (platform_SubnetID newObj) (oldObj ≫= platform_SubnetID) in
  Ok (subnetErrs
      ++ admitNodePoolOSDiskEncryptionSet ctx (Child path "osDisk") (platform_EncryptionSetID newObj))%list.

(** ** Replicas *)

Definition canRunWorkerNodes (np : NodePoolProperties) : bool :=
  match npp_AutoScaling np with
  | Some autoscaling => 0 <? autoscaling_Max autoscaling
  | None => 0 <? npp_Replicas np
  end.

Definition admitReplicas (ctx : NodePoolAdmissionContext) (op : Operation) (path : string)
    (newObj : NodePoolProperties) (oldObj : option NodePoolProperties) : result version_panic (list fieldError) :=
  match oldObj with
  | None => Ok []
  | Some old =>
      if negb (bool_decide (op_Type op = Update)) then Ok []
      else if canRunWorkerNodes newObj || negb (canRunWorkerNodes old) then Ok []
      else
        match nac_OriginalNodePool ctx with
        | None => Err NilDereference
        | Some original =>
            if existsb (λ np, negb (EqualFold (np_ID np) (np_ID original)) && negb (isDeleting np)
                              && canRunWorkerNodes (np_Properties np)) (nac_ClusterNodePools ctx)
            then Ok []
            else Ok [Forbidden path ScaledToZero]
        end
  end.

(** ** All checks *)

Definition AdmitNodePool (ctx : NodePoolAdmissionContext) (op : Operation)
    (newNodePool : NodePool) (oldNodePool : option NodePool) : result version_panic (list fieldError) :=
  let newObj := np_Properties newNodePool in
  let oldObj := np_Properties <$> oldNodePool in
  let* versionErrs :=
    validateNodePoolVersionChange ctx op "properties.version.id" (npp_VersionID newObj) (npp_VersionID <$> oldObj) in
  let* platformErrs :=
    admitNodePoolPlatform ctx op "properties.platform" (npp_Platform newObj) (npp_Platform <$> oldObj) in
  let* replicaErrs := admitReplicas ctx op "properties.replicas" newObj oldObj in
  Ok (versionErrs ++ platformErrs ++ replicaErrs)%list.

End admission.
Arguments NodePoolAdmissionContext : clear implicits.
