(* ===== verification/NodePoolGuards.v ===== *)
(** * Node pool admission: what accepted requests guarantee

    A cluster never loses its last node pool through serialised requests, updates
    keep worker capacity, accepted versions respect the skew rules, and accepted
    mutations set sane deadlines whatever the order of the tags. *)
From S2P Require Import Prelude GoStrings GoDuration RolloutTypes VersionRules Admission NodePoolAdmission.

Local Open Scope string_scope.
Local Open Scope Z_scope.
Local Open Scope go_scope.

(** ** Node pools over time *)

Definition startDeletion (now : Z) (np : NodePool) : NodePool := {|
  np_ID := np_ID np;
  np_ResourceID := np_ResourceID np;
  np_Tags := np_Tags np;
  np_DeletionTimestamp := Some now;
  np_Properties := np_Properties np;
  np_CreateOperationCompletionDeadline := np_CreateOperationCompletionDeadline np;
  np_UpdateOperationCompletionDeadline := np_UpdateOperationCompletionDeadline np |}.

(** The stored pool with what an update sends. *)
Definition storeUpdate (new np : NodePool) : NodePool := {|
  np_ID := np_ID np;
  np_ResourceID := np_ResourceID np;
  np_Tags := np_Tags new;
  np_DeletionTimestamp := np_DeletionTimestamp np;
  np_Properties := np_Properties new;
  np_CreateOperationCompletionDeadline := np_CreateOperationCompletionDeadline new;
  np_UpdateOperationCompletionDeadline := np_UpdateOperationCompletionDeadline new |}.

Definition updateWhere {A} (p : A → bool) (f : A → A) (l : list A) : list A :=
  (λ a, if p a then f a else a) <$> l.

Lemma elem_updateWhere {A} (p : A → bool) (f : A → A) l a :
  a ∈ l → (if p a then f a else a) ∈ updateWhere p f l.
Proof. intros Hin. apply list_elem_of_fmap. eauto. Qed.

Section guards.
Context {V : Type} `{SemverLaws V}.
Implicit Types pools : list NodePool.

Definition poolIDs pools : list string := ToLower ∘ np_ResourceID <$> pools.

(** The node pools of a cluster under requests that are admitted one after the
    other, each against the current documents; teardown removes a pool whose
    deletion was accepted. *)
Inductive poolStep : list NodePool → list NodePool → Prop :=
  | step_create pools np :
      isDeleting np = false → ToLower (np_ResourceID np) ∉ poolIDs pools → poolStep pools (pools ++ [np])%list
  | step_update pools (ctx : NodePoolAdmissionContext V) op new old :
      op_Type op = Update → nac_ClusterNodePools ctx = pools → nac_OriginalNodePool ctx = Some new →
      (∀ p, p ∈ pools → EqualFold (np_ID p) (np_ID new) = true → np_Properties p = np_Properties old) →
      AdmitNodePool ctx op new (Some old) = Ok [] →
      poolStep pools (updateWhere (λ p, EqualFold (np_ID p) (np_ID new)) (storeUpdate new) pools)
  | step_delete pools np now :
      np ∈ pools → AdmitNodePoolOnDelete pools np = [] →
      poolStep pools
        (updateWhere (λ p, EqualFold (np_ResourceID p) (np_ResourceID np)) (startDeletion now) pools)
  | step_removed pools1 np pools2 :
      isDeleting np = true → poolStep (pools1 ++ np :: pools2)%list (pools1 ++ pools2)%list.

Definition somePoolRemains pools : Prop := ∃ np, np ∈ pools ∧ isDeleting np = false.

Lemma AdmitNodePoolOnDelete_accepts pools np :
  AdmitNodePoolOnDelete pools np = [] ↔
  isDeleting np = true ∨
  ∃ other, other ∈ pools ∧ isDeleting other = false ∧
    EqualFold (np_ResourceID other) (np_ResourceID np) = false.
Proof.
  unfold AdmitNodePoolOnDelete, admitAtLeastOneNodePoolRemains.
  destruct (isDeleting np); [naive_solver|]. destruct (existsb _ _) eqn:E.
  - apply existsb_exists in E as (o & Hin & Hb). apply list_elem_of_In in Hin.
    apply andb_true_iff in Hb as [H1%negb_true_iff H2%negb_true_iff]. naive_solver.
  - split; [done|]. intros [Hf|(o & Hin & Hd & He)]; [done|].
    assert (existsb (λ np0, negb (EqualFold (np_ResourceID np0) (np_ResourceID np)) && negb (isDeleting np0)) pools = true);
      [|congruence].
    apply existsb_exists. exists o. rewrite <- list_elem_of_In, Hd, He. done.
Qed.

Lemma poolIDs_updateWhere p f pools :
  (∀ np, np_ResourceID (f np) = np_ResourceID np) → poolIDs (updateWhere p f pools) = poolIDs pools.
Proof.
  intros Hf. unfold poolIDs, updateWhere. rewrite <- list_fmap_compose. apply list_fmap_ext.
  intros i np _. simpl. by destruct (p np); rewrite ?Hf.
Qed.

Lemma poolIDs_inj pools a b :
  NoDup (poolIDs pools) → a ∈ pools → b ∈ pools →
  EqualFold (np_ResourceID a) (np_ResourceID b) = true → a = b.
Proof.
  unfold poolIDs. rewrite EqualFold_spec. induction pools as [|p pools IH]; intros Hnd Ha Hb He; [set_solver|].
  rewrite fmap_cons in Hnd. apply NoDup_cons in Hnd as [Hn Hnd].
  assert (Hx : ∀ x, x ∈ pools → ToLower (np_ResourceID x) ≠ ToLower (np_ResourceID p)).
  { intros x Hin Heq. destruct Hn. simpl. rewrite <- Heq. by apply (list_elem_of_fmap_2 (ToLower ∘ np_ResourceID)). }
  apply elem_of_cons in Ha as [->|Ha], Hb as [->|Hb]; [done| | |by apply IH].
  - by destruct (Hx b).
  - by destruct (Hx a).
Qed.

(** The two facts that every request keeps. *)
Definition poolsOk pools : Prop := NoDup (poolIDs pools) ∧ somePoolRemains pools.

Lemma poolStep_unique pools pools' : poolStep pools pools' → NoDup (poolIDs pools) → NoDup (poolIDs pools').
Proof.
  intros Hstep Hnd. destruct Hstep as [pools np _ Hn|pools ctx op new old _ _ _ _ _|pools np now _ _|pools1 np pools2 _].
  - unfold poolIDs in *. rewrite fmap_app. apply NoDup_app. split_and!; [done| |apply NoDup_singleton].
    intros x Hx Hs. simpl in Hs. apply list_elem_of_singleton in Hs. by subst x.
  - by rewrite poolIDs_updateWhere.
  - by rewrite poolIDs_updateWhere.
  - unfold poolIDs in *. rewrite fmap_app in *. rewrite fmap_cons in Hnd.
    apply NoDup_app in Hnd as (H1 & H2 & H3). apply NoDup_cons in H3 as [_ H3].
    apply NoDup_app. split_and!; [done| |done]. intros x Hx Hx'. apply (H2 x Hx). by right.
Qed.

Lemma poolStep_ok pools pools' : poolStep pools pools' → poolsOk pools → poolsOk pools'.
Proof.
  intros Hstep [Hu (q & Hq & Hd)]. split; [by eapply poolStep_unique|].
  destruct Hstep as [pools np Hn _|pools ctx op new old _ _ _ _ _|pools np now Hin Hacc|pools1 np pools2 Hdel].
  - exists q. split; [set_solver|done].
  - eexists. split; [by apply elem_updateWhere|]. cbv beta. by destruct (EqualFold _ _).
  - apply AdmitNodePoolOnDelete_accepts in Hacc as Hother.
    assert (∃ o, o ∈ pools ∧ isDeleting o = false ∧ EqualFold (np_ResourceID o) (np_ResourceID np) = false)
      as (o & Ho & Hod & Hne).
    { destruct Hother as [Hdel|Ho]; [|done]. exists q. split_and!; [done..|].
      destruct (EqualFold _ _) eqn:E; [|done]. rewrite (poolIDs_inj pools q np) in Hd by done. congruence. }
    exists o. split; [|done].
    pose proof (elem_updateWhere (λ p, EqualFold (np_ResourceID p) (np_ResourceID np)) (startDeletion now) _ _ Ho) as Hin'.
    cbv beta in Hin'. by rewrite Hne in Hin'.
  - exists q. split; [|done]. rewrite elem_of_app, elem_of_cons in *.
    destruct Hq as [Hq|[->|Hq]]; [by left|congruence|by right].
Qed.

(** (C34) Requests that are admitted one after the other never take the last node
    pool from a cluster: as long as one node pool is not being deleted, some node
    pool is not being deleted after any number of creations, admitted updates,
    admitted deletions (retried ones too) and completed teardowns. *)
Theorem cluster_keeps_a_node_pool pools pools' :
  rtc poolStep pools pools' → NoDup (poolIDs pools) → somePoolRemains pools → somePoolRemains pools'.
Proof.
  intros Hrun Hu Hr. assert (Hok : poolsOk pools) by done. clear Hu Hr. revert Hok.
  induction Hrun as [|p1 p2 p3 Hs _ IH]; intros Hok; [by destruct Hok|].
  apply IH. by eapply poolStep_ok.
Qed.

(** ** Worker capacity *)

Definition hasCapacity pools : Prop :=
  ∃ np, np ∈ pools ∧ isDeleting np = false ∧ canRunWorkerNodes (np_Properties np) = true.

Lemma AdmitNodePool_parts (ctx : NodePoolAdmissionContext V) op new old :
  AdmitNodePool ctx op new old = Ok [] →
  validateNodePoolVersionChange ctx op "properties.version.id" (npp_VersionID (np_Properties new))
    (npp_VersionID <$> (np_Properties <$> old)) = Ok [] ∧
  admitNodePoolPlatform ctx op "properties.platform" (npp_Platform (np_Properties new))
    (npp_Platform <$> (np_Properties <$> old)) = Ok [] ∧
  admitReplicas ctx op "properties.replicas" (np_Properties new) (np_Properties <$> old) = Ok [].
Proof.
  unfold AdmitNodePool. rewrite result_bind_ok. intros (e1 & H1 & H2).
  apply result_bind_ok in H2 as (e2 & H2 & H3). apply result_bind_ok in H3 as (e3 & H3 & [= Hn]).
  apply app_eq_nil in Hn as [-> Hn]. apply app_eq_nil in Hn as [-> ->]. done.
Qed.

(** An admitted update keeps worker capacity: when some node pool that is not
    being deleted can run nodes, then one still can after the update, whatever it
    changes. *)
Theorem update_keeps_capacity (ctx : NodePoolAdmissionContext V) op new old :
  op_Type op = Update → nac_OriginalNodePool ctx = Some new →
  (∀ p, p ∈ nac_ClusterNodePools ctx → EqualFold (np_ID p) (np_ID new) = true → np_Properties p = np_Properties old) →
  AdmitNodePool ctx op new (Some old) = Ok [] →
  hasCapacity (nac_ClusterNodePools ctx) →
  hasCapacity (updateWhere (λ p, EqualFold (np_ID p) (np_ID new)) (storeUpdate new) (nac_ClusterNodePools ctx)).
Proof.
  intros Hop Horig Hold (_ & _ & Hr)%AdmitNodePool_parts (q & Hq & Hd & Hc).
  set (same := λ p, EqualFold (np_ID p) (np_ID new)).
  assert (Hkeep : ∀ p, p ∈ nac_ClusterNodePools ctx → isDeleting p = false →
    (if same p then canRunWorkerNodes (np_Properties new) else canRunWorkerNodes (np_Properties p)) = true →
    hasCapacity (updateWhere same (storeUpdate new) (nac_ClusterNodePools ctx))).
  { intros p Hp Hpd Hpc. eexists. split; [by apply elem_updateWhere|]. by destruct (same p). }
  destruct (same q) eqn:Es; [|apply (Hkeep q Hq Hd); by rewrite Es].
  destruct (canRunWorkerNodes (np_Properties new)) eqn:En; [apply (Hkeep q Hq Hd); by rewrite Es|].
  unfold admitReplicas in Hr. simpl in Hr. rewrite (bool_decide_true _ Hop), En, Horig in Hr.
  rewrite <- (Hold q Hq Es), Hc in Hr. simpl in Hr.
  destruct (existsb _ _) eqn:E; [|done]. apply existsb_exists in E as (o & Ho & Hb).
  apply list_elem_of_In in Ho. apply andb_true_iff in Hb as [[H1%negb_true_iff H2%negb_true_iff]%andb_true_iff H3].
  apply (Hkeep o Ho H2). unfold same. by rewrite H1.
Qed.

(** ** Versions *)

(** The versions the admission reads, when none of them is nil. *)
Definition desiredOf (ctx : NodePoolAdmissionContext V) : option V := nac_ServiceProviderNodePool ctx ≫= fst.
Definition activeOf (ctx : NodePoolAdmissionContext V) : list (option V) :=
  match nac_ServiceProviderNodePool ctx with Some (_, active) => active | None => [] end.

(** A node pool version that is admitted, on create or update, is the version
    the service already drives the pool to, a version it already runs, or one that
    respects the skew rules against every control plane version and every version
    of the pool; a different major version needs the experimental feature. *)
Theorem nodepool_version_admitted (ctx : NodePoolAdmissionContext V) op new old id spc cps nps :
  AdmitNodePool ctx op new old = Ok [] →
  npp_VersionID (np_Properties new) = id → id ≠ EmptyString →
  (npp_VersionID ∘ np_Properties) <$> old ≠ Some id →
  nac_ServiceProviderCluster ctx = Some spc → av_Version <$> spc = Some <$> cps →
  activeOf ctx = Some <$> nps →
  ∃ v, semver_Parse id = Some v ∧
    ((∃ desired, desiredOf ctx = Some desired ∧ EQ v desired = true) ∨
     (∃ active, active ∈ nps ∧ EQ active v = true) ∨
     ∃ hi, hi ∈ cps ∧ (∀ cp, cp ∈ cps → LT hi cp = false) ∧
       versionChangeOk v nps cps hi (HasOption op FeatureExperimentalReleaseFeatures)).
Proof.
  intros (Hv & _ & _)%AdmitNodePool_parts Hid Hne Hold Hspc Hcps Hnps.
  rewrite Hid in Hv. unfold validateNodePoolVersionChange in Hv.
  assert (Hold' : npp_VersionID <$> (np_Properties <$> old) ≠ Some id) by (by destruct old).
  apply String.eqb_neq in Hne. rewrite Hne, (bool_decide_false _ Hold') in Hv. simpl in Hv.
  destruct (semver_Parse id) as [v|]; [|done]. exists v. split; [done|].
  unfold desiredOf. unfold activeOf in Hnps. rewrite Hspc in Hv.
  set (same := match nac_ServiceProviderNodePool ctx with Some (Some d, _) => EQ v d | _ => false end) in Hv.
  destruct same eqn:Es.
  { left. unfold same in Es. destruct (nac_ServiceProviderNodePool ctx) as [[[d|] l]|]; try done. eauto. }
  right. rewrite Hnps in Hv. unfold FindLowestAndHighestClusterVersion in Hv. rewrite Hcps in Hv.
  destruct (findLowestAndHighest_spec cps) as [[-> Hb]|(lo & hi & Hb & Hlo & Hhi & Hall)];
    rewrite Hb in Hv; cbn [result_bind] in Hv.
  - left. unfold ValidateNodePoolVersionChange in Hv. destruct (existsb _ _) eqn:E; [|done].
    apply existsb_exists in E as (o & Ho & Heq). apply list_elem_of_In, list_elem_of_fmap in Ho as (a & -> & Ha). eauto.
  - apply result_bind_ok in Hv as (e & He & Hn). destruct e; [done|].
    apply (versionChange_accepts v nps cps lo hi) in He; [|done..].
    destruct He as [He|He]; [by left|]. right. exists hi. split_and!; [done|naive_solver|done].
Qed.

(** ** Mutations *)

Lemma setDeadline_ok applies answer current t :
  setDeadline applies answer current = (t, []) →
  if applies then ∃ x, answer = Ok x ∧ t = Some x else t = current.
Proof.
  unfold setDeadline. destruct applies; simpl; [|by intros [= <-]].
  destruct answer as [x|e]; [|done]. intros [= <-]. eauto.
Qed.

Lemma MutateNodePool_parts (ctx : NodePoolAdmissionContext V) op np np' :
  MutateNodePool ctx op np = (np', []) →
  let np0 := mutateNodePoolPlatform ctx op np in
  ∃ create update,
    np' = withDeadlines np0 create update ∧ mutateNodePoolExperimentalTags ctx = [] ∧
    mutateNodePoolCreateOperationCompletionDeadline ctx op (np_CreateOperationCompletionDeadline np0) = (create, []) ∧
    mutateNodePoolUpdateOperationCompletionDeadline ctx op (np_UpdateOperationCompletionDeadline np0) = (update, []).
Proof.
  unfold MutateNodePool, mutateNodePoolServiceProviderProperties. cbv zeta.
  destruct (mutateNodePoolCreateOperationCompletionDeadline _ _ _) as [create ce].
  destruct (mutateNodePoolUpdateOperationCompletionDeadline _ _ _) as [update ue].
  intros [= <- Hn]. apply app_eq_nil in Hn as [Ht Hn]. apply app_eq_nil in Hn as [-> ->]. eauto 10.
Qed.

(** An accepted mutation sets exactly the deadline of its operation, at least a
    minute ahead (an hour ahead without the experimental feature), and rejects
    unknown experimental tags; a create fills in the cluster's subnet when none is
    given.  Nothing else of the node pool changes. *)
Theorem MutateNodePool_spec (ctx : NodePoolAdmissionContext V) op np np' :
  MutateNodePool ctx op np = (np', []) →
  let deadlineOk t :=
    nac_Now ctx + Minute <= t ∧
    (experimentalEnabled (nac_Subscription ctx) = false → t = nac_Now ctx + 60 * Minute) in
  (if bool_decide (op_Type op = Create)
   then ∃ t, np_CreateOperationCompletionDeadline np' = Some t ∧ deadlineOk t
   else np_CreateOperationCompletionDeadline np' = np_CreateOperationCompletionDeadline np) ∧
  (if bool_decide (op_Type op = Update)
   then ∃ t, np_UpdateOperationCompletionDeadline np' = Some t ∧ deadlineOk t
   else np_UpdateOperationCompletionDeadline np' = np_UpdateOperationCompletionDeadline np) ∧
  (experimentalEnabled (nac_Subscription ctx) = true →
   ∀ k v, (k, v) ∈ default [] (originalTags ctx) → HasPrefix (ToLower k) ExperimentalNodePoolTagPrefix = true →
     ToLower k ∈ [TagNodePoolMaxCreationDuration; TagNodePoolMaxUpdateDuration]) ∧
  platform_SubnetID (npp_Platform (np_Properties np')) =
    (if bool_decide (op_Type op = Create) then
       match platform_SubnetID (npp_Platform (np_Properties np)) with
       | Some s => Some s | None => pc_SubnetID (nac_Cluster ctx) end
     else platform_SubnetID (npp_Platform (np_Properties np))) ∧
  withSubnet (withDeadlines np' (np_CreateOperationCompletionDeadline np) (np_UpdateOperationCompletionDeadline np))
    (platform_SubnetID (npp_Platform (np_Properties np))) = np.
Proof.
  intros (create & update & -> & Ht & Hc & Hu)%MutateNodePool_parts deadlineOk.
  assert (Hdl : ∀ tag t, operationDeadline (nac_Subscription ctx) (originalTags ctx) tag (60 * Minute) Minute
      (nac_Now ctx) = Ok t → deadlineOk t).
  { intros tag t Hx. split.
    - destruct (operationDeadline_spec _ _ _ (60 * Minute) Minute _ _ ltac:(vm_compute; discriminate) Hx) as [Hge _]. exact Hge.
    - intros He. rewrite operationDeadline_plain in Hx by done. by injection Hx as <-. }
  assert (Hplat : ∀ f : NodePool → option Z,
    (∀ s, f (withSubnet np s) = f np) → f (mutateNodePoolPlatform ctx op np) = f np).
  { intros f Hf. unfold mutateNodePoolPlatform. by destruct (_ && _). }
  split_and!.
  - apply setDeadline_ok in Hc. destruct (bool_decide (op_Type op = Create)); simpl in *.
    + destruct Hc as (x & Hx & ->). exists x. eauto.
    + rewrite Hc. by apply Hplat.
  - apply setDeadline_ok in Hu. destruct (bool_decide (op_Type op = Update)); simpl in *.
    + destruct Hu as (x & Hx & ->). exists x. eauto.
    + rewrite Hu. by apply Hplat.
  - intros He. unfold mutateNodePoolExperimentalTags in Ht. rewrite He in Ht.
    apply unrecognizedTag_None. by destruct (unrecognizedTag _ _ _).
  - simpl. unfold mutateNodePoolPlatform. destruct (bool_decide (op_Type op = Create)); [|done].
    simpl. case_bool_decide as E; simpl; [by rewrite E|]. by destruct (platform_SubnetID _).
  - unfold mutateNodePoolPlatform. destruct np as [? ? ? ? [? [? ?] ? ?] ? ?]. simpl. by destruct (_ && _).
Qed.

End guards.

(** ** Concrete requests *)

#[local] Existing Instances Release.semver Release.laws.

Module PoolSamples.

Definition rel (a b c : Z) : Release.t := default (exist _ (0, 0, 0) eq_refl) (Release.make a b c).

Definition pool (id version : string) (replicas : Z) : NodePool := {|
  np_ID := id;
  np_ResourceID := id;
  np_Tags := [];
  np_DeletionTimestamp := None;
  np_Properties := {| npp_VersionID := version;
    npp_Platform := {| platform_SubnetID := None; platform_EncryptionSetID := None |};
    npp_Replicas := replicas; npp_AutoScaling := None |};
  np_CreateOperationCompletionDeadline := None;
  np_UpdateOperationCompletionDeadline := None |}.

Definition pools : list NodePool := [pool "a" "4.20.1" 3; pool "b" "4.20.1" 2].

Definition ctx (new : NodePool) : NodePoolAdmissionContext Release.t := {|
  nac_Now := 0;
  nac_Subscription := None;
  nac_OriginalNodePool := Some new;
  nac_Cluster := {| pc_SubnetID := None; pc_ManagedResourceGroup := "managed" |};
  nac_ServiceProviderNodePool := Some (Some (rel 4 20 1), [Some (rel 4 20 1)]);
  nac_ServiceProviderCluster :=
    Some [{| av_Version := Some (rel 4 21 0); av_State := CompletedUpdate; av_LastTransitionTime := 1 |}];
  nac_ClusterNodePools := pools |}.

Definition update : Operation := {| op_Type := Update; op_Options := [] |}.
Definition create : Operation := {| op_Type := Create; op_Options := [] |}.

(** Two deletions that are checked against the same documents are both accepted. *)
Example concurrent_deletions_accepted :
  AdmitNodePoolOnDelete pools (pool "a" "4.20.1" 3) = [] ∧
  AdmitNodePoolOnDelete pools (pool "b" "4.20.1" 2) = [].
Proof. split; reflexivity. Qed.

(** A deletion may take the last worker capacity: only updates are checked for it. *)
Example deletion_ignores_capacity :
  AdmitNodePoolOnDelete [pool "a" "4.20.1" 3; pool "b" "4.20.1" 0] (pool "a" "4.20.1" 3) = [] ∧
  canRunWorkerNodes (np_Properties (pool "b" "4.20.1" 0)) = false.
Proof. split; reflexivity. Qed.

(** Scaling the last pool with capacity to zero is refused, in one order or the other. *)
Example last_scale_down_refused :
  AdmitNodePool (ctx (pool "a" "4.20.1" 0)) update (pool "a" "4.20.1" 0) (Some (pool "a" "4.20.1" 3)) = Ok [] ∧
  AdmitNodePool {| nac_Now := 0; nac_Subscription := None; nac_OriginalNodePool := Some (pool "B" "4.20.1" 0);
      nac_Cluster := {| pc_SubnetID := None; pc_ManagedResourceGroup := "managed" |};
      nac_ServiceProviderNodePool := None; nac_ServiceProviderCluster := None;
      nac_ClusterNodePools := [pool "a" "4.20.1" 0; pool "b" "4.20.1" 2] |}
    update (pool "B" "4.20.1" 0) (Some (pool "b" "4.20.1" 2))
  = Ok [Forbidden "properties.replicas" ScaledToZero].
Proof. split; reflexivity. Qed.

Definition deleted : list NodePool :=
  updateWhere (λ p, EqualFold (np_ResourceID p) "a") (startDeletion 5) pools.

Lemma delete_first : poolStep (V := Release.t) pools deleted.
Proof. apply (step_delete pools (pool "a" "4.20.1" 3) 5); [left|reflexivity]. Qed.

End PoolSamples.

Lemma cluster_keeps_a_node_pool_witness : somePoolRemains PoolSamples.deleted.
Proof.
  apply (cluster_keeps_a_node_pool PoolSamples.pools PoolSamples.deleted).
  - exact (rtc_once _ _ PoolSamples.delete_first).
  - apply (bool_decide_unpack _). vm_compute. exact I.
  - exists (PoolSamples.pool "a" "4.20.1" 3). split; [left|reflexivity].
Defined.

Lemma update_keeps_capacity_witness :
  hasCapacity (updateWhere (λ p, EqualFold (np_ID p) "a") (storeUpdate (PoolSamples.pool "a" "4.20.1" 0)) PoolSamples.pools).
Proof.
  apply (update_keeps_capacity (PoolSamples.ctx (PoolSamples.pool "a" "4.20.1" 0)) PoolSamples.update
    (PoolSamples.pool "a" "4.20.1" 0) (PoolSamples.pool "a" "4.20.1" 3)).
  - reflexivity.
  - reflexivity.
  - intros p Hp Hs. simpl in Hp. unfold PoolSamples.pools in Hp. rewrite !elem_of_cons, elem_of_nil in Hp.
    destruct Hp as [->|[->|[]]]; [reflexivity|discriminate Hs].
  - reflexivity.
  - exists (PoolSamples.pool "a" "4.20.1" 3). split; [left|split; reflexivity].
Defined.

Lemma nodepool_version_admitted_witness :
  ∃ v : Release.t, semver_Parse "4.21.0" = Some v.
Proof.
  destruct (nodepool_version_admitted (PoolSamples.ctx (PoolSamples.pool "a" "4.21.0" 3)) PoolSamples.update
    (PoolSamples.pool "a" "4.21.0" 3) (Some (PoolSamples.pool "a" "4.20.1" 3)) "4.21.0"
    [{| av_Version := Some (PoolSamples.rel 4 21 0); av_State := CompletedUpdate; av_LastTransitionTime := 1 |}]
    [PoolSamples.rel 4 21 0] [PoolSamples.rel 4 20 1]) as (v & Hv & _).
  - reflexivity.
  - reflexivity.
  - discriminate.
  - discriminate.
  - reflexivity.
  - reflexivity.
  - reflexivity.
  - exists v. exact Hv.
Defined.

Lemma MutateNodePool_spec_witness :
  ∃ t, np_CreateOperationCompletionDeadline
    (MutateNodePool (PoolSamples.ctx (PoolSamples.pool "a" "4.20.1" 3)) PoolSamples.create
       (PoolSamples.pool "a" "4.20.1" 3)).1 = Some t ∧ Minute <= t.
Proof.
  destruct (MutateNodePool (PoolSamples.ctx (PoolSamples.pool "a" "4.20.1" 3)) PoolSamples.create
       (PoolSamples.pool "a" "4.20.1" 3)) as [np' errs] eqn:E.
  assert (errs = []) as -> by (vm_compute in E; by injection E).
  destruct (MutateNodePool_spec _ _ _ _ E) as ((t & Ht & Hge & _) & _).
  exists t. split; [exact Ht|exact Hge].
Defined.
