(* ===== verification/ClusterAdmission.v ===== *)
(** * Cluster admission: documents and mutations

    The first half of [internal/admission/admit_cluster.go]: [MutateCluster] with
    the experimental features that tags request and the deadlines of operations;
    and [admit_external_auth.go].  The generated UID and the clock are arguments. *)
From S2P Require Import Prelude GoStrings GoDuration RolloutTypes VersionRules Admission.

Local Open Scope string_scope.
Local Open Scope Z_scope.
Local Open Scope go_scope.

(** ** Documents *)

(** A [map[string]*ResourceID] of operators, as the list of its entries. *)
Definition operatorIdentities : Type := list (string * option string).

Record PlatformProfile := {
  pp_ManagedResourceGroup : string;
  pp_SubnetID : option string;
  pp_NetworkSecurityGroupID : option string;
  pp_PullManagedIdentity : option string;
  pp_ControlPlaneOperators : operatorIdentities;
  pp_DataPlaneOperators : operatorIdentities;
}.

(** [etcd_KmsKeyVersion] is [CustomerManaged.Kms.ActiveKey.Version]; [None] when one
    of the two pointers is nil. *)
Record EtcdProfile := { etcd_KeyManagementMode : string; etcd_KmsKeyVersion : option string }.

Record CustomerProperties := {
  cp_Version : VersionProfile;
  cp_BaseDomainPrefix : string;
  cp_Platform : PlatformProfile;
  cp_Etcd : EtcdProfile;
}.

Section documents.
Context {V : Type}.

Record ExperimentalFeatures := {
  ef_ControlPlaneAvailability : string;
  ef_ControlPlanePodSizing : string;
  ef_ControlPlaneOperatorImage : string;
  ef_ControlPlaneExactVersion : option V;
  ef_ZStreamUpdatePolicy : string;
  ef_BackupScheduleOverride : string;
}.

Record ServiceProviderProperties := {
  sp_ClusterUID : string;
  sp_DeletionTimestamp : option Z;
  sp_ExperimentalFeatures : ExperimentalFeatures;
  sp_CreateOperationCompletionDeadline : option Z;
  sp_UpdateOperationCompletionDeadline : option Z;
  sp_DeleteOperationCompletionTimeout : option Z;
}.

(** [cd_ID]: whether the resource ID is set. *)
Record ClusterDocument := {
  cd_ID : bool;
  cd_Tags : tags;
  cd_CustomerProperties : CustomerProperties;
  cd_ServiceProviderProperties : ServiceProviderProperties;
}.

(** What admission reads of the service provider document. *)
Record ServiceProviderView := {
  spv_ActiveVersions : list (ActiveVersion V);
  spv_DesiredVersionChannels : list string;
  spv_ImageContentSources : option (list string);
}.

(** An operator of the identities configuration. *)
Record OperatorIdentity := {
  oi_ClusterOperatorIdentifier : string;
  oi_MinVersionInclusive : option V;
  oi_MaxVersionInclusive : option V;
  oi_RequirementAlways : bool;
}.

Record ClusterScopedIdentitiesConfig := {
  ControlPlaneOperatorsIdentities : list (string * OperatorIdentity);
  DataPlaneOperatorsIdentities : list (string * OperatorIdentity);
}.

(** Existing documents of the subscription: of a cluster its managed resource group,
    subnet and security group, of a node pool its subnet. *)
Record ExistingCluster := {
  ex_ManagedResourceGroup : string;
  ex_SubnetID : option string;
  ex_NetworkSecurityGroupID : option string;
}.

Record ClusterAdmissionContext := {
  cac_Now : Z;
  cac_Subscription : option Subscription;
  cac_OriginalCluster : option ClusterDocument;
  cac_ServiceProviderCluster : option ServiceProviderView;
  cac_ClusterNodePools : list (option (AdmissionNodePool V));
  cac_SubscriptionClusters : list ExistingCluster;
  cac_SubscriptionNodePools : list (option string);
  cac_IdentitiesConfig : ClusterScopedIdentitiesConfig;
}.

Definition noExperimentalFeatures : ExperimentalFeatures := {|
  ef_ControlPlaneAvailability := EmptyString;
  ef_ControlPlanePodSizing := EmptyString;
  ef_ControlPlaneOperatorImage := EmptyString;
  ef_ControlPlaneExactVersion := None;
  ef_ZStreamUpdatePolicy := EmptyString;
  ef_BackupScheduleOverride := EmptyString |}.

End documents.
Arguments ExperimentalFeatures : clear implicits.
Arguments ServiceProviderProperties : clear implicits.
Arguments ClusterDocument : clear implicits.
Arguments ServiceProviderView : clear implicits.
Arguments OperatorIdentity : clear implicits.
Arguments ClusterScopedIdentitiesConfig : clear implicits.
Arguments ClusterAdmissionContext : clear implicits.

(** ** Tags *)

Definition ExperimentalClusterTagPrefix : string := "aro-hcp.experimental.cluster.".
Definition TagClusterSingleReplica : string := ExperimentalClusterTagPrefix +:+ "single-replica".
Definition TagClusterSizeOverride : string := ExperimentalClusterTagPrefix +:+ "size-override".
Definition TagClusterDisableSwift : string := ExperimentalClusterTagPrefix +:+ "disable-swift".
Definition TagClusterCPOImageOverride : string :=
  ExperimentalClusterTagPrefix +:+ "control-plane-operator-image-override".
Definition TagClusterControlPlaneExactVersion : string :=
  ExperimentalClusterTagPrefix +:+ "control-plane-exact-version".
Definition TagClusterZStreamUpdatePolicy : string := ExperimentalClusterTagPrefix +:+ "z-stream-update-policy".
Definition TagClusterMaxCreationDuration : string := ExperimentalClusterTagPrefix +:+ "max-creation-duration".
Definition TagClusterMaxUpdateDuration : string := ExperimentalClusterTagPrefix +:+ "max-update-duration".
Definition TagClusterMaxDeletionDuration : string := ExperimentalClusterTagPrefix +:+ "max-deletion-duration".
Definition TagClusterBackupScheduleOverride : string :=
  ExperimentalClusterTagPrefix +:+ "backup-schedule-override".

Definition knownClusterTags : list string :=
  [TagClusterSingleReplica; TagClusterSizeOverride; TagClusterCPOImageOverride;
   TagClusterControlPlaneExactVersion; TagClusterZStreamUpdatePolicy; TagClusterMaxCreationDuration;
   TagClusterMaxUpdateDuration; TagClusterMaxDeletionDuration; TagClusterDisableSwift;
   TagClusterBackupScheduleOverride].

Definition SingleReplicaControlPlane : string := "SingleReplica".
Definition MinimalControlPlanePodSizing : string := "Minimal".
Definition BackupScheduleStateEnabled : string := "Enabled".

Section mutations.
Context {V : Type} `{Semver V}.

Definition clusterTags (ctx : ClusterAdmissionContext V) : tags :=
  default [] (cd_Tags <$> cac_OriginalCluster ctx).

(** ** Experimental features *)

(** One tag's contribution: a value, or an error. *)
Definition zStreamPolicyOf (ts : tags) : result fieldError string :=
  if hasTag ts TagClusterZStreamUpdatePolicy then
    let value := lookupTag ts TagClusterZStreamUpdatePolicy in
    if negb (String.eqb value ImmediateZStreamUpdatePolicy)
    then Err (Invalid (Key "tags" TagClusterZStreamUpdatePolicy) value (MustBe ImmediateZStreamUpdatePolicy))
    else Ok ImmediateZStreamUpdatePolicy
  else Ok EmptyString.

Definition availabilityOf (op : Operation) (old : option (ExperimentalFeatures V)) (ts : tags) : result fieldError string :=
  let value := lookupTag ts TagClusterSingleReplica in
  if String.eqb value SingleReplicaControlPlane then
    if bool_decide (op_Type op = Update)
       && match old with
          | Some features => String.eqb (ef_ControlPlaneAvailability features) SingleReplicaControlPlane
          | None => false
          end
    then Ok SingleReplicaControlPlane
    else Err (Forbidden (Key "tags" TagClusterSingleReplica) SingleReplicaDisabled)
  else if String.eqb value EmptyString then Ok EmptyString
  else Err (Invalid (Key "tags" TagClusterSingleReplica) value (MustBeOrEmpty SingleReplicaControlPlane)).

(** A tag that has one accepted value besides the empty one. *)
Definition enumTag (tag accepted : string) (ts : tags) : result fieldError string :=
  let value := lookupTag ts tag in
  if String.eqb value accepted then Ok accepted
  else if String.eqb value EmptyString then Ok EmptyString
  else Err (Invalid (Key "tags" tag) value (MustBeOrEmpty accepted)).

Definition operatorImageOf (ts : tags) : result fieldError string :=
  let value := lookupTag ts TagClusterCPOImageOverride in
  if String.eqb value EmptyString then Ok EmptyString
  else if String.eqb (TrimSpace value) EmptyString
  then Err (Invalid (Key "tags" TagClusterCPOImageOverride) value Blank)
  else Ok (TrimSpace value).

Definition exactVersionOf (ts : tags) : result fieldError (option V) :=
  if hasTag ts TagClusterControlPlaneExactVersion then
    let value := lookupTag ts TagClusterControlPlaneExactVersion in
    if String.eqb value EmptyString
    then Err (Invalid (Key "tags" TagClusterControlPlaneExactVersion) value ExactVersionMissing)
    else match semver_Parse value with
         | None => Err (Invalid (Key "tags" TagClusterControlPlaneExactVersion) value NotAVersion)
         | Some parsed => Ok (Some parsed)
         end
  else Ok None.

(** Errors accumulate; a value that could not be read stays zero. *)
Definition errorsOf {A} (r : result fieldError A) : list fieldError :=
  match r with Ok _ => [] | Err e => [e] end.
Definition valueOf {A} (zero : A) (r : result fieldError A) : A :=
  match r with Ok a => a | Err _ => zero end.

Definition featuresOf (op : Operation) (old : option (ExperimentalFeatures V)) (ts : tags) :
    ExperimentalFeatures V * list fieldError :=
  let policy := zStreamPolicyOf ts in
  let availability := availabilityOf op old ts in
  let sizing := enumTag TagClusterSizeOverride MinimalControlPlanePodSizing ts in
  let image := operatorImageOf ts in
  let exact := exactVersionOf ts in
  let backup := enumTag TagClusterBackupScheduleOverride BackupScheduleStateEnabled ts in
  ({| ef_ControlPlaneAvailability := valueOf EmptyString availability;
      ef_ControlPlanePodSizing := valueOf EmptyString sizing;
      ef_ControlPlaneOperatorImage := valueOf EmptyString image;
      ef_ControlPlaneExactVersion := valueOf None exact;
      ef_ZStreamUpdatePolicy := valueOf EmptyString policy;
      ef_BackupScheduleOverride := valueOf EmptyString backup |},
   (errorsOf policy ++ errorsOf availability ++ errorsOf sizing ++ errorsOf image ++ errorsOf exact
    ++ errorsOf backup)%list).

(** The mutated features and the errors; on an error the features stay as sent. *)
Definition mutateClusterExperimentalFeatures (ctx : ClusterAdmissionContext V) (op : Operation)
    (newObj : ExperimentalFeatures V) (oldObj : option (ExperimentalFeatures V)) :
    ExperimentalFeatures V * list fieldError :=
  if negb (experimentalEnabled (cac_Subscription ctx)) then (noExperimentalFeatures, [])
  else
    match unrecognizedTag ExperimentalClusterTagPrefix knownClusterTags (clusterTags ctx) with
    | Some k => (newObj, [Invalid (Key "tags" k) k UnrecognizedTag])
    | None =>
        match featuresOf op oldObj (clusterTags ctx) with
        | (features, []) => (features, [])
        | (_, errs) => (newObj, errs)
        end
    end.

(** ** Deadlines *)

Definition mutateCreateOperationCompletionDeadline (ctx : ClusterAdmissionContext V) (op : Operation)
    (current : option Z) : option Z * list fieldError :=
  setDeadline (bool_decide (op_Type op = Create))
    (operationDeadline (cac_Subscription ctx) (cd_Tags <$> cac_OriginalCluster ctx) TagClusterMaxCreationDuration
       defaultCreateOperationCompletionDeadlineDuration minCreateOperationCompletionDeadlineDuration (cac_Now ctx))
    current.

Definition mutateUpdateOperationCompletionDeadline (ctx : ClusterAdmissionContext V) (op : Operation)
    (current : option Z) : option Z * list fieldError :=
  setDeadline (bool_decide (op_Type op = Update))
    (operationDeadline (cac_Subscription ctx) (cd_Tags <$> cac_OriginalCluster ctx) TagClusterMaxUpdateDuration
       defaultUpdateOperationCompletionDeadlineDuration minUpdateOperationCompletionDeadlineDuration (cac_Now ctx))
    current.

(** The timeout of a later deletion: cleared unless the tag sets it. *)
Definition mutateDeleteOperationCompletionTimeout (ctx : ClusterAdmissionContext V) (current : option Z) :
    option Z * list fieldError :=
  if negb (experimentalEnabled (cac_Subscription ctx)) then (None, [])
  else
    let tagValue := lookupTag (clusterTags ctx) TagClusterMaxDeletionDuration in
    if String.eqb tagValue EmptyString then (None, [])
    else match tagDuration TagClusterMaxDeletionDuration tagValue MinDeleteOperationCompletionDeadlineDuration with
         | Err e => (current, [e])
         | Ok parsed => (Some parsed, [])
         end.

(** ** The whole mutation *)

Definition mutateClusterUID (op : Operation) (newUID current : string) : string :=
  if bool_decide (op_Type op = Create) && String.eqb current EmptyString then newUID else current.

Definition mutateClusterDNS (op : Operation) (prefix : string) : string :=
  if bool_decide (op_Type op = Create) && String.eqb prefix EmptyString then "cluster" else prefix.

Definition mutateClusterServiceProviderProperties (ctx : ClusterAdmissionContext V) (op : Operation) (newUID : string)
    (newObj : ServiceProviderProperties V) (oldObj : option (ServiceProviderProperties V)) :
    ServiceProviderProperties V * list fieldError :=
  let '(features, featureErrs) :=
    mutateClusterExperimentalFeatures ctx op (sp_ExperimentalFeatures newObj) (sp_ExperimentalFeatures <$> oldObj) in
  let '(create, createErrs) :=
    mutateCreateOperationCompletionDeadline ctx op (sp_CreateOperationCompletionDeadline newObj) in
  let '(update, updateErrs) :=
    mutateUpdateOperationCompletionDeadline ctx op (sp_UpdateOperationCompletionDeadline newObj) in
  let '(delete, deleteErrs) :=
    mutateDeleteOperationCompletionTimeout ctx (sp_DeleteOperationCompletionTimeout newObj) in
  ({| sp_ClusterUID := mutateClusterUID op newUID (sp_ClusterUID newObj);
      sp_DeletionTimestamp := sp_DeletionTimestamp newObj;
      sp_ExperimentalFeatures := features;
      sp_CreateOperationCompletionDeadline := create;
      sp_UpdateOperationCompletionDeadline := update;
      sp_DeleteOperationCompletionTimeout := delete |},
   (featureErrs ++ createErrs ++ updateErrs ++ deleteErrs)%list).

Definition MutateCluster (ctx : ClusterAdmissionContext V) (op : Operation) (newUID : string)
    (newObj : ClusterDocument V) (oldObj : option (ClusterDocument V)) : ClusterDocument V * list fieldError :=
  let '(properties, errs) :=
    mutateClusterServiceProviderProperties ctx op newUID (cd_ServiceProviderProperties newObj)
      (cd_ServiceProviderProperties <$> oldObj) in
  ({| cd_ID := cd_ID newObj;
      cd_Tags := cd_Tags newObj;
      cd_CustomerProperties := {|
        cp_Version := cp_Version (cd_CustomerProperties newObj);
        cp_BaseDomainPrefix := mutateClusterDNS op (cp_BaseDomainPrefix (cd_CustomerProperties newObj));
        cp_Platform := cp_Platform (cd_CustomerProperties newObj);
        cp_Etcd := cp_Etcd (cd_CustomerProperties newObj) |};
      cd_ServiceProviderProperties := properties |}, errs).

End mutations.

(** ** External authentication *)

(** Only the number of existing configurations matters. *)
Definition AdmitExternalAuth (existing : nat) (op : Operation) : list fieldError :=
  if bool_decide (op_Type op = Create) && (0 <? existing)%nat
  then [Forbidden "name" (AlreadyInUse "external auth")] else [].
