(* ===== verification/ClusterChecks.v ===== *)
(** * Cluster admission: checks

    The second half of [internal/admission/admit_cluster.go]: [AdmitCluster] with the
    checks of operator identities, platform resources, versions and encryption keys;
    [azure/cluster_scoped_identities_config.go] as far as they use it.  The fields of a
    version and the literal that builds one are a class, like the rest of package
    semver; a nil dereference is the error of a [result]. *)
From S2P Require Import Prelude GoStrings RolloutTypes VersionRules Admission ClusterAdmission.

Local Open Scope string_scope.
Local Open Scope Z_scope.
Local Open Scope go_scope.

Definition EtcdDataEncryptionKeyManagementModeTypeCustomerManaged : string := "CustomerManaged".
Definition ClusterOperatorIdentifierKMS : string := "kms".
Definition OcpV5ArtDevMirrorSource : string := "quay.io/openshift-release-dev/ocp-v5.0-art-dev".

(** The patch number and the literal [semver.Version{Major, Minor, Patch}]. *)
Class VersionFields (V : Type) := {
  Patch : V → Z;
  VersionOf : Z → Z → Z → V;
}.

Section checks.
Context {V : Type} `{Semver V} `{VersionFields V}.

(** ** Operator identities *)

Definition versionExcludingPrereleaseAndBuild (v : V) : V := VersionOf (Major v) (Minor v) (Patch v).

Definition IsSupportedForOpenshiftVersion (b : OperatorIdentity V) (version : V) : bool :=
  let v := versionExcludingPrereleaseAndBuild version in
  match oi_MinVersionInclusive b, oi_MaxVersionInclusive b with
  | None, None => true
  | min, max =>
      if match min with Some m => LT v m | None => false end then false
      else if match max with Some m => GT v m | None => false end then false
      else true
  end.

Definition isAlwaysRequiredForOpenshiftVersion (b : OperatorIdentity V) (version : V) : bool :=
  oi_RequirementAlways b && IsSupportedForOpenshiftVersion b version.

(** The keys of the map that [AlwaysRequired...Operators] builds. *)
Definition alwaysRequiredOperators (identities : list (string * OperatorIdentity V)) (version : V) : list string :=
  remove_dups (oi_ClusterOperatorIdentifier ∘ snd
    <$> List.filter (λ e, isAlwaysRequiredForOpenshiftVersion (snd e) version) identities).

Definition operatorIdentitySupplied (operators : operatorIdentities) (operatorName : string) : bool :=
  match List.find (λ e, String.eqb (fst e) operatorName) operators with
  | Some (_, Some _) => true
  | _ => false
  end.

Definition operatorSupportedForVersion (identities : list (string * OperatorIdentity V)) (operatorName : string)
    (version : V) : bool :=
  match List.find (λ e, String.eqb (fst e) operatorName) identities with
  | Some (_, config) => IsSupportedForOpenshiftVersion config version
  | None => false
  end.

Definition missingIdentities (path : string) (supplied : operatorIdentities) (required : list string) : list fieldError :=
  (λ name, Required (Key path name) (IdentityRequired name))
    <$> List.filter (λ name, negb (operatorIdentitySupplied supplied name)) (sort_by string_less required).

(** The operators that are required once a feature is enabled: the key management
    service with customer managed keys. *)
Definition conditionallyRequiredControlPlaneOperatorIdentities (properties : CustomerProperties) : list string :=
  if String.eqb (etcd_KeyManagementMode (cp_Etcd properties)) EtcdDataEncryptionKeyManagementModeTypeCustomerManaged
  then [ClusterOperatorIdentifierKMS] else [].

Definition admitRequiredOperatorIdentities (config : ClusterScopedIdentitiesConfig V) (path : string)
    (properties : CustomerProperties) : list fieldError :=
  match ParseTolerant (vp_ID (cp_Version properties)) with
  | None => []
  | Some version =>
      let controlPlane := pp_ControlPlaneOperators (cp_Platform properties) in
      let dataPlane := pp_DataPlaneOperators (cp_Platform properties) in
      let controlPlanePath := Child path "controlPlaneOperators" in
      (missingIdentities controlPlanePath controlPlane
         (alwaysRequiredOperators (ControlPlaneOperatorsIdentities config) version)
       ++ missingIdentities (Child path "dataPlaneOperators") dataPlane
            (alwaysRequiredOperators (DataPlaneOperatorsIdentities config) version)
       ++ ((λ name, Required (Key controlPlanePath name) (IdentityRequired name))
             <$> List.filter (λ name,
                   operatorSupportedForVersion (ControlPlaneOperatorsIdentities config) name version
                   && negb (operatorIdentitySupplied controlPlane name))
                 (conditionallyRequiredControlPlaneOperatorIdentities properties)))%list
  end.

Definition recognizedOperatorNames (identities : list (string * OperatorIdentity V)) : list string :=
  sort_by string_less (fst <$> identities).

(** One error for each name that fails [ok]; the empty name is left to the static
    validation. *)
Definition operatorNameErrors (path : string) (supplied : operatorIdentities) (ok : string → bool) (d : string → detail) :
    list fieldError :=
  (λ name, Invalid (Key path name) name (d name))
    <$> sort_by string_less (List.filter (λ name, negb (String.eqb name EmptyString || ok name)) (fst <$> supplied)).

Definition unrecognizedOperatorNameErrors (supplied : operatorIdentities) (path : string) (recognized : list string) :
    list fieldError :=
  operatorNameErrors path supplied (λ name, existsb (String.eqb name) recognized) (λ _, UnrecognizedOperator recognized).

Definition unsupportedOperatorNameErrors (supplied : operatorIdentities) (path : string) (version : V)
    (isSupported : string → V → bool) : list fieldError :=
  operatorNameErrors path supplied (λ name, isSupported name version)
    (λ name, UnsupportedOperator name (semver_String version)).

Definition admitOperatorIdentityNames (config : ClusterScopedIdentitiesConfig V) (path : string)
    (properties : CustomerProperties) : list fieldError :=
  let controlPlane := pp_ControlPlaneOperators (cp_Platform properties) in
  let dataPlane := pp_DataPlaneOperators (cp_Platform properties) in
  let controlPlanePath := Child path "controlPlaneOperators" in
  let dataPlanePath := Child path "dataPlaneOperators" in
  (unrecognizedOperatorNameErrors controlPlane controlPlanePath
     (recognizedOperatorNames (ControlPlaneOperatorsIdentities config))
   ++ unrecognizedOperatorNameErrors dataPlane dataPlanePath
        (recognizedOperatorNames (DataPlaneOperatorsIdentities config))
   ++ match ParseTolerant (vp_ID (cp_Version properties)) with
      | None => []
      | Some version =>
          unsupportedOperatorNameErrors controlPlane controlPlanePath version
            (operatorSupportedForVersion (ControlPlaneOperatorsIdentities config))
          ++ unsupportedOperatorNameErrors dataPlane dataPlanePath version
               (operatorSupportedForVersion (DataPlaneOperatorsIdentities config))
      end)%list.

Definition admitClusterUserAssignedIdentities (ctx : ClusterAdmissionContext V) (path : string)
    (properties : CustomerProperties) : list fieldError :=
  (admitRequiredOperatorIdentities (cac_IdentitiesConfig ctx) path properties
   ++ admitOperatorIdentityNames (cac_IdentitiesConfig ctx) path properties)%list.

(** ** Platform resources *)

(** [semver.Version{Major: v.Major, Minor: v.Minor}.LT(...)] of a release line. *)
Definition lineBelow (v : V) (major minor : Z) : bool :=
  (Major v <? major) || ((Major v =? major) && (Minor v <? minor)).

Definition originalVersion (ctx : ClusterAdmissionContext V) (path : string) : result fieldError V :=
  match cac_OriginalCluster ctx with
  | None => Err (InternalError path CannotValidate)
  | Some original =>
      match ParseTolerant (vp_ID (cp_Version (cd_CustomerProperties original))) with
      | None => Err (InternalError path NotAVersion)
      | Some v => Ok v
      end
  end.

Definition admitClusterContainerRegistryPullManagedIdentity (ctx : ClusterAdmissionContext V) (path : string)
    (pullManagedIdentity : option string) : result version_panic (list fieldError) :=
  match pullManagedIdentity with
  | None => Ok []
  | Some identity =>
      let* observed :=
        match cac_ServiceProviderCluster ctx with
        | Some spc =>
            let* bounds := FindLowestAndHighestClusterVersion (spv_ActiveVersions spc) in Ok (fst bounds)
        | None => Ok None
        end in
      match match observed with Some lowest => Ok lowest | None => originalVersion ctx path end with
      | Err e => Ok [e]
      | Ok version =>
          if lineBelow version 4 22 then Ok [Invalid path identity (RequiresVersion 4 22)] else Ok []
      end
  end.

Definition admitClusterManagedResourceGroupName (ctx : ClusterAdmissionContext V) (op : Operation) (path : string)
    (managedResourceGroup : string) : result version_panic (list fieldError) :=
  if negb (bool_decide (op_Type op = Create)) then Ok []
  else
    match cac_OriginalCluster ctx with
    | None => Ok [InternalError path CannotValidate]
    | Some original =>
        let mrgPath := Child path "managedResourceGroup" in
        if String.eqb managedResourceGroup EmptyString then Ok [Required mrgPath Unspecified]
        else if negb (cd_ID original) then Err NilDereference
        else if existsb (λ e, EqualFold managedResourceGroup (ex_ManagedResourceGroup e)) (cac_SubscriptionClusters ctx)
        then Ok [Invalid mrgPath managedResourceGroup (AlreadyInUse managedResourceGroup)]
        else Ok []
    end.

(** The loop over existing IDs: a missing one is an internal error, the first equal
    one ends the loop. *)
Fixpoint inUseErrors (path field id : string) (existing : list (option string)) : list fieldError :=
  match existing with
  | [] => []
  | None :: rest => InternalError path (ExistingWithout field) :: inUseErrors path field id rest
  | Some e :: rest =>
      if EqualFold id e then [Invalid path id (AlreadyInUse id)] else inUseErrors path field id rest
  end.

Definition admitClusterSubnetResourceID (ctx : ClusterAdmissionContext V) (op : Operation) (path : string)
    (subnetID : option string) : list fieldError :=
  if negb (bool_decide (op_Type op = Create)) then []
  else
    let subnetPath := Child path "subnetId" in
    match subnetID with
    | None => [Required subnetPath Unspecified]
    | Some id =>
        (inUseErrors subnetPath "subnetId" id (ex_SubnetID <$> cac_SubscriptionClusters ctx)
         ++ inUseErrors subnetPath "subnetId" id (cac_SubscriptionNodePools ctx))%list
    end.

Definition admitClusterNetworkSecurityGroupResourceID (ctx : ClusterAdmissionContext V) (op : Operation) (path : string)
    (nsgID : option string) : list fieldError :=
  if negb (bool_decide (op_Type op = Create)) then []
  else
    let nsgPath := Child path "networkSecurityGroupId" in
    match nsgID with
    | None => [Required nsgPath Unspecified]
    | Some id =>
        inUseErrors nsgPath "networkSecurityGroupId" id (ex_NetworkSecurityGroupID <$> cac_SubscriptionClusters ctx)
    end.

Definition admitClusterPlatform (ctx : ClusterAdmissionContext V) (op : Operation) (path : string)
    (properties : CustomerProperties) : result version_panic (list fieldError) :=
  let platform := cp_Platform properties in
  let* mrg := admitClusterManagedResourceGroupName ctx op path (pp_ManagedResourceGroup platform) in
  let* registry :=
    admitClusterContainerRegistryPullManagedIdentity ctx (Child (Child path "containerRegistry") "managedIdentity")
      (pp_PullManagedIdentity platform) in
  Ok (mrg
      ++ admitClusterSubnetResourceID ctx op path (pp_SubnetID platform)
      ++ admitClusterNetworkSecurityGroupResourceID ctx op path (pp_NetworkSecurityGroupID platform)
      ++ registry
      ++ admitClusterUserAssignedIdentities ctx
           (Child (Child path "operatorsAuthentication") "userAssignedIdentities") properties)%list.

(** ** Versions *)

Definition VersionMustBeAtLeast (path value minimumVersion : string) : list fieldError :=
  if String.eqb value EmptyString then []
  else
    match ParseTolerant value with
    | None => [Invalid path value NotAVersion]
    | Some newVersion =>
        match ParseTolerant minimumVersion with
        | None => [Invalid path value NotAVersion]
        | Some minVersion => if LT newVersion minVersion then [Invalid path value (BelowVersion minimumVersion)] else []
        end
    end.

Definition VersionMustBeAtLeastMajorMinor (path value minimumVersion : string) : list fieldError :=
  if String.eqb value EmptyString then []
  else
    match ParseTolerant value with
    | None => [Invalid path value NotAVersion]
    | Some newVersion =>
        match ParseTolerant minimumVersion with
        | None => [Invalid path value NotAVersion]
        | Some minVersion =>
            if lineBelow newVersion (Major minVersion) (Minor minVersion)
            then [Invalid path value (BelowVersion minimumVersion)] else []
        end
    end.

Definition versionMajorMinor (id : string) : option string := minorString <$> ParseTolerant (V := V) id.

Definition admitClusterVersionID (ctx : ClusterAdmissionContext V) (op : Operation) (path : string)
    (new : VersionProfile) (old : option VersionProfile) : list fieldError :=
  match old with
  | None => []
  | Some old =>
      if negb (bool_decide (op_Type op = Update)) then []
      else if String.eqb (vp_ID new) EmptyString || String.eqb (vp_ID old) (vp_ID new) then []
      else if String.eqb (vp_ChannelGroup new) EmptyString then []
      else if String.eqb (vp_ChannelGroup new) ChannelGroupNightly
              || String.eqb (vp_ChannelGroup new) ChannelGroupCandidate then []
      else
        match cac_ServiceProviderCluster ctx with
        | None => []
        | Some spc =>
            match spv_DesiredVersionChannels spc with
            | [] => []
            | available =>
                match versionMajorMinor (vp_ID new) with
                | None => []
                | Some majorMinor =>
                    let expected := vp_ChannelGroup new +:+ "-" +:+ majorMinor in
                    if existsb (String.eqb expected) available then []
                    else [Invalid (Child path "id") (vp_ID new) (NoUpgradePath expected)]
                end
            end
        end
  end.

Definition admitClusterV5DataPlaneMirror (ctx : ClusterAdmissionContext V) (op : Operation) (path : string)
    (new : VersionProfile) (old : option VersionProfile) : list fieldError :=
  match old with
  | None => []
  | Some old =>
      if negb (bool_decide (op_Type op = Update)) || String.eqb (vp_ID new) (vp_ID old) then []
      else
        match ParseTolerant (V := V) (vp_ID old), ParseTolerant (V := V) (vp_ID new) with
        | Some oldVersion, Some newVersion =>
            if negb (Major oldVersion =? 4) || negb (Major newVersion =? 5) then []
            else
              match cac_ServiceProviderCluster ctx with
              | Some spc =>
                  match spv_ImageContentSources spc with
                  | Some sources =>
                      if existsb (λ source, String.eqb source OcpV5ArtDevMirrorSource) sources then []
                      else [Invalid (Child path "id") (vp_ID new) MirrorMissing]
                  | None => [Invalid (Child path "id") (vp_ID new) MirrorUnknown]
                  end
              | None => [Invalid (Child path "id") (vp_ID new) MirrorUnknown]
              end
        | _, _ => []
        end
  end.

(** The checks against the active control plane versions. *)
Definition admitVersionSkew (ctx : ClusterAdmissionContext V) (path : string) (new : VersionProfile) (oldVersion : V) :
    result version_panic (list fieldError) :=
  match cac_ServiceProviderCluster ctx with
  | None => Ok [InternalError path CannotValidate]
  | Some spc =>
      let* bounds := FindLowestAndHighestClusterVersion (spv_ActiveVersions spc) in
      match bounds with
      | (Some lowest, Some highest) =>
          let skew :=
            if negb (Major oldVersion =? Major lowest) || negb (Minor oldVersion =? Minor lowest) then
              match OpenshiftVersionAtMostOneMinorSkew (V := V) (semver_String lowest) (vp_ID new) with
              | Some e => [Invalid path (vp_ID new) (UpgradePath e)]
              | None => []
              end
            else [] in
          let atLeast :=
            if String.eqb (vp_ChannelGroup new) ChannelGroupNightly
            then VersionMustBeAtLeastMajorMinor path (vp_ID new) (semver_String highest)
            else VersionMustBeAtLeast path (vp_ID new) (semver_String highest) in
          Ok (skew ++ atLeast)%list
      | _ => Ok []
      end
  end.

Definition admitClusterVersionProfile (ctx : ClusterAdmissionContext V) (op : Operation) (path : string)
    (new : VersionProfile) (old : option VersionProfile) : result version_panic (list fieldError) :=
  match old with
  | None => Ok []
  | Some oldObj =>
      if negb (bool_decide (op_Type op = Update)) then Ok []
      else if String.eqb (vp_ID new) EmptyString || String.eqb (vp_ID oldObj) (vp_ID new) then Ok []
      else
        let versionPath := Child path "id" in
        match ParseTolerant (vp_ID oldObj) with
        | None => Ok [Invalid versionPath (vp_ID oldObj) NotAVersion]
        | Some oldVersion =>
            let* skewErrs := admitVersionSkew ctx versionPath new oldVersion in
            let* nodePoolErrs :=
              match ParseTolerant (vp_ID new) with
              | None => Ok [Invalid versionPath (vp_ID new) NotAVersion]
              | Some newVersion =>
                  let* errs := AdmitClusterNodePoolsMinorVersionSkew (cac_ClusterNodePools ctx) newVersion in
                  match errs with
                  | [] => Ok []
                  | _ :: _ => Ok [Invalid versionPath (vp_ID new) (NodePoolSkew errs)]
                  end
              end in
            Ok (skewErrs ++ nodePoolErrs ++ admitClusterVersionID ctx op path new old
                ++ admitClusterV5DataPlaneMirror ctx op path new old)%list
        end
  end.

(** ** Encryption keys *)

Definition admitClusterEtcdKmsKeyVersionChange (ctx : ClusterAdmissionContext V) (op : Operation) (path : string)
    (new : CustomerProperties) (old : option CustomerProperties) : result version_panic (list fieldError) :=
  match old with
  | None => Ok []
  | Some old =>
      if negb (bool_decide (op_Type op = Update)) then Ok []
      else if negb (String.eqb (etcd_KeyManagementMode (cp_Etcd new)) EtcdDataEncryptionKeyManagementModeTypeCustomerManaged)
              && negb (String.eqb (etcd_KeyManagementMode (cp_Etcd new)) (etcd_KeyManagementMode (cp_Etcd old)))
      then Ok [Forbidden path OnlyCustomerManaged]
      else
        match etcd_KmsKeyVersion (cp_Etcd new), etcd_KmsKeyVersion (cp_Etcd old) with
        | Some newKey, Some oldKey =>
            if String.eqb newKey oldKey then Ok []
            else if APIVersion_LT (APIVersionFromOptions (op_Options op)) APIVersionV20260630Preview
            then Ok [Forbidden path ImmutableForAPIVersion]
            else
              match cac_ServiceProviderCluster ctx with
              | None => Ok [InternalError path CannotValidate]
              | Some spc =>
                  let* bounds := FindLowestAndHighestClusterVersion (spv_ActiveVersions spc) in
                  match fst bounds with
                  | None => Err NilDereference
                  | Some lowest =>
                      if lineBelow lowest 4 22 then Ok [Invalid path newKey (RequiresVersion 4 22)] else Ok []
                  end
              end
        | _, _ => Err NilDereference
        end
  end.

(** ** All checks *)

Definition admitClusterCustomerProperties (ctx : ClusterAdmissionContext V) (op : Operation)
    (new : CustomerProperties) (old : option CustomerProperties) : result version_panic (list fieldError) :=
  let* version := admitClusterVersionProfile ctx op "properties.version" (cp_Version new) (cp_Version <$> old) in
  let* kms := admitClusterEtcdKmsKeyVersionChange ctx op
                "properties.etcd.dataEncryption.customerManaged.kms.activeKey.version" new old in
  let* platform := admitClusterPlatform ctx op "properties.platform" new in
  Ok (version ++ kms ++ platform)%list.

Definition AdmitCluster (ctx : ClusterAdmissionContext V) (op : Operation)
    (new : ClusterDocument V) (old : option (ClusterDocument V)) : result version_panic (list fieldError) :=
  if bool_decide (op_Type op = Update)
     && match old with
        | Some o => bool_decide (is_Some (sp_DeletionTimestamp (cd_ServiceProviderProperties o)))
        | None => false
        end
  then Ok [Forbidden EmptyString BeingDeleted]
  else admitClusterCustomerProperties ctx op (cd_CustomerProperties new) (cd_CustomerProperties <$> old).

End checks.
