(* ===== verification/ClusterGuards.v ===== *)
(** * Cluster admission: what accepted requests guarantee

    Uniqueness of platform resources on create, the exact set of operator
    identities, version changes, the encryption key check and its nil
    dereferences, and the experimental features. *)
From S2P Require Import Prelude GoStrings GoDuration RolloutTypes VersionRules RolloutStatus.
From S2P Require Import RolloutAssign Admission ClusterAdmission ClusterChecks.

Local Open Scope string_scope.
Local Open Scope Z_scope.
Local Open Scope go_scope.

Section guards.
Context {V : Type} `{SemverLaws V}.
Context {fieldsOf : VersionFields V}.

(** ** Resources of a new cluster *)

Lemma inUseErrors_nil path field id existing :
  inUseErrors path field id existing = [] ↔ ∀ e, e ∈ existing → ∃ s, e = Some s ∧ EqualFold id s = false.
Proof.
  induction existing as [|[e|] l IH]; simpl; [set_solver| |].
  - destruct (EqualFold id e) eqn:E.
    + split; [done|]. intros Hall. destruct (Hall (Some e) ltac:(set_solver)) as (s & [= <-] & Hs). congruence.
    + rewrite IH. set_solver.
  - split; [done|]. intros Hall. destruct (Hall None ltac:(set_solver)) as (s & Hs & _). done.
Qed.

Lemma AdmitCluster_parts ctx op new old :
  AdmitCluster ctx op new old = Ok [] →
  admitClusterVersionProfile ctx op "properties.version" (cp_Version (cd_CustomerProperties new))
    (cp_Version <$> (cd_CustomerProperties <$> old)) = Ok [] ∧
  admitClusterEtcdKmsKeyVersionChange ctx op "properties.etcd.dataEncryption.customerManaged.kms.activeKey.version"
    (cd_CustomerProperties new) (cd_CustomerProperties <$> old) = Ok [] ∧
  admitClusterPlatform ctx op "properties.platform" (cd_CustomerProperties new) = Ok [].
Proof.
  unfold AdmitCluster, admitClusterCustomerProperties. destruct (_ && _); [done|].
  rewrite result_bind_ok. intros (e1 & H1 & H2). apply result_bind_ok in H2 as (e2 & H2 & H3).
  apply result_bind_ok in H3 as (e3 & H3 & [= Hn]).
  apply app_nil_iff in Hn as [-> [-> ->]%app_nil_iff]. done.
Qed.

Lemma admitClusterPlatform_parts ctx op path properties :
  admitClusterPlatform ctx op path properties = Ok [] →
  let platform := cp_Platform properties in
  admitClusterManagedResourceGroupName ctx op path (pp_ManagedResourceGroup platform) = Ok [] ∧
  admitClusterSubnetResourceID ctx op path (pp_SubnetID platform) = [] ∧
  admitClusterNetworkSecurityGroupResourceID ctx op path (pp_NetworkSecurityGroupID platform) = [] ∧
  admitClusterUserAssignedIdentities ctx
    (Child (Child path "operatorsAuthentication") "userAssignedIdentities") properties = [].
Proof.
  unfold admitClusterPlatform. rewrite result_bind_ok. intros (e1 & H1 & H2).
  apply result_bind_ok in H2 as (e2 & H2 & [= Hn]).
  apply app_nil_iff in Hn as [-> [-> [-> [-> ->]%app_nil_iff]%app_nil_iff]%app_nil_iff]. done.
Qed.

(** A cluster whose creation is accepted names a managed resource group, a
    subnet and a network security group that no other cluster of the subscription
    uses, in any spelling of the case, and no node pool uses its subnet. *)
Theorem cluster_create_unique ctx op new old :
  op_Type op = Create → AdmitCluster ctx op new old = Ok [] →
  let platform := cp_Platform (cd_CustomerProperties new) in
  pp_ManagedResourceGroup platform ≠ EmptyString ∧
  (∀ e, e ∈ cac_SubscriptionClusters ctx →
     ToLower (pp_ManagedResourceGroup platform) ≠ ToLower (ex_ManagedResourceGroup e)) ∧
  (∃ subnet, pp_SubnetID platform = Some subnet ∧
     (∀ e, e ∈ cac_SubscriptionClusters ctx → ∃ s, ex_SubnetID e = Some s ∧ ToLower subnet ≠ ToLower s) ∧
     (∀ s, s ∈ cac_SubscriptionNodePools ctx → ∃ t, s = Some t ∧ ToLower subnet ≠ ToLower t)) ∧
  (∃ nsg, pp_NetworkSecurityGroupID platform = Some nsg ∧
     ∀ e, e ∈ cac_SubscriptionClusters ctx →
       ∃ s, ex_NetworkSecurityGroupID e = Some s ∧ ToLower nsg ≠ ToLower s).
Proof.
  intros Hop (_ & _ & Hp)%AdmitCluster_parts platform.
  apply admitClusterPlatform_parts in Hp as (Hm & Hs & Hn & _).
  assert (Hfold : ∀ a b, EqualFold a b = false → ToLower a ≠ ToLower b).
  { intros a b He Heq. apply EqualFold_spec in Heq. congruence. }
  unfold admitClusterManagedResourceGroupName in Hm. unfold admitClusterSubnetResourceID in Hs.
  unfold admitClusterNetworkSecurityGroupResourceID in Hn.
  rewrite (bool_decide_true _ Hop) in Hm, Hs, Hn. cbn [negb] in *. fold platform in Hm, Hs, Hn.
  destruct (cac_OriginalCluster ctx); [|done].
  destruct (String.eqb_spec (pp_ManagedResourceGroup platform) EmptyString); [done|].
  destruct (negb _); [done|]. destruct (existsb _ _) eqn:Eex; [done|].
  destruct (pp_SubnetID platform) as [subnet|]; [|done]. destruct (pp_NetworkSecurityGroupID platform) as [nsg|]; [|done].
  apply app_nil_iff in Hs as [Hs1 Hs2]. rewrite inUseErrors_nil in Hs1, Hs2, Hn.
  split_and!; [done| | |].
  - intros e He. apply Hfold. apply not_true_is_false. intros Hx.
    assert (existsb (λ e0, EqualFold (pp_ManagedResourceGroup platform) (ex_ManagedResourceGroup e0))
      (cac_SubscriptionClusters ctx) = true); [|congruence].
    apply existsb_exists. exists e. by rewrite <- list_elem_of_In.
  - exists subnet. split_and!; [done| |].
    + intros e He. destruct (Hs1 (ex_SubnetID e)) as (s & Hx & Hf); [apply list_elem_of_fmap; eauto|]. eauto.
    + intros s Hin. destruct (Hs2 s Hin) as (t & -> & Hf). eauto.
  - exists nsg. split; [done|]. intros e He.
    destruct (Hn (ex_NetworkSecurityGroupID e)) as (s & Hx & Hf); [apply list_elem_of_fmap; eauto|]. eauto.
Qed.

(** ** Operator identities *)

Definition supplies (operators : operatorIdentities) (name : string) : Prop :=
  operatorIdentitySupplied operators name = true.

Lemma missingIdentities_nil path supplied required :
  missingIdentities path supplied required = [] ↔ ∀ name, name ∈ required → supplies supplied name.
Proof.
  unfold missingIdentities. rewrite fmap_nil_inv', filter_nil. unfold supplies.
  setoid_rewrite elem_of_sort_by. setoid_rewrite negb_false_iff. done.
Qed.

Lemma operatorNameErrors_nil path (supplied : operatorIdentities) ok d :
  operatorNameErrors path supplied ok d = [] ↔
  ∀ name, name ∈ fst <$> supplied → name ≠ EmptyString → ok name = true.
Proof.
  unfold operatorNameErrors. rewrite fmap_nil_inv'.
  assert (Hs : ∀ l : list string, sort_by string_less l = [] ↔ l = []).
  { intros l. split; [|by intros ->]. intros Hn.
    pose proof (sort_by_perm string_less l) as Hp. rewrite Hn in Hp. by apply Permutation_nil. }
  rewrite Hs, filter_nil. setoid_rewrite negb_false_iff. setoid_rewrite orb_true_iff. setoid_rewrite String.eqb_eq.
  split; intros Hall name Hin; specialize (Hall name Hin); [naive_solver|].
  destruct (decide (name = EmptyString)); [by left|right; auto].
Qed.

(** [name] has to be supplied whatever the configuration of the cluster. *)
Definition alwaysRequired (identities : list (string * OperatorIdentity V)) (version : V) (name : string) : Prop :=
  ∃ key config, (key, config) ∈ identities ∧ oi_ClusterOperatorIdentifier config = name ∧
    oi_RequirementAlways config = true ∧ IsSupportedForOpenshiftVersion config version = true.

Lemma elem_alwaysRequiredOperators identities version name :
  name ∈ alwaysRequiredOperators identities version ↔ alwaysRequired identities version name.
Proof.
  unfold alwaysRequiredOperators, alwaysRequired. rewrite elem_of_remove_dups, list_elem_of_fmap.
  unfold isAlwaysRequiredForOpenshiftVersion. split.
  - intros ([key config] & -> & Hin). rewrite list_elem_of_In, filter_In, <- list_elem_of_In in Hin.
    destruct Hin as [Hin Hb]. apply andb_true_iff in Hb. simpl in *. naive_solver.
  - intros (key & config & Hin & Hname & Hr & Hs). exists (key, config). split; [done|].
    rewrite list_elem_of_In, filter_In, <- list_elem_of_In. split; [done|]. simpl. by rewrite Hr, Hs.
Qed.

Lemma supported_recognized identities name version :
  operatorSupportedForVersion identities name version = true →
  existsb (String.eqb name) (recognizedOperatorNames identities) = true.
Proof.
  unfold operatorSupportedForVersion. destruct (List.find _ identities) as [[k c]|] eqn:E; [|done]. intros _.
  apply List.find_some in E as [Hin Hk]. apply existsb_exists. exists k. simpl in Hk. apply String.eqb_eq in Hk as ->.
  split; [|apply String.eqb_refl]. apply list_elem_of_In. unfold recognizedOperatorNames.
  rewrite elem_of_sort_by. apply list_elem_of_In in Hin. by apply (list_elem_of_fmap_2 fst) in Hin.
Qed.

(** The names an operator map may hold. *)
Definition namesSupported (identities : list (string * OperatorIdentity V)) (version : V)
    (operators : operatorIdentities) : Prop :=
  ∀ name, name ∈ fst <$> operators → name ≠ EmptyString →
    operatorSupportedForVersion identities name version = true.

Lemma admitOperatorIdentityNames_nil config path properties version :
  ParseTolerant (vp_ID (cp_Version properties)) = Some version →
  (admitOperatorIdentityNames config path properties = [] ↔
   namesSupported (ControlPlaneOperatorsIdentities config) version (pp_ControlPlaneOperators (cp_Platform properties)) ∧
   namesSupported (DataPlaneOperatorsIdentities config) version (pp_DataPlaneOperators (cp_Platform properties))).
Proof.
  intros Hv. unfold admitOperatorIdentityNames, unrecognizedOperatorNameErrors, unsupportedOperatorNameErrors. rewrite Hv.
  rewrite !app_nil_iff, !operatorNameErrors_nil. unfold namesSupported.
  split; [naive_solver|]. intros [Hc Hd]. split_and!; [| |done|done];
    intros name Hin Hne; eapply supported_recognized; eauto.
Qed.

Lemma admitRequiredOperatorIdentities_nil config path properties version :
  ParseTolerant (vp_ID (cp_Version properties)) = Some version →
  let controlPlane := pp_ControlPlaneOperators (cp_Platform properties) in
  (admitRequiredOperatorIdentities config path properties = [] ↔
   (∀ name, alwaysRequired (ControlPlaneOperatorsIdentities config) version name → supplies controlPlane name) ∧
   (∀ name, alwaysRequired (DataPlaneOperatorsIdentities config) version name →
      supplies (pp_DataPlaneOperators (cp_Platform properties)) name) ∧
   (etcd_KeyManagementMode (cp_Etcd properties) = EtcdDataEncryptionKeyManagementModeTypeCustomerManaged →
    operatorSupportedForVersion (ControlPlaneOperatorsIdentities config) ClusterOperatorIdentifierKMS version = true →
    supplies controlPlane ClusterOperatorIdentifierKMS)).
Proof.
  intros Hv controlPlane. unfold admitRequiredOperatorIdentities. rewrite Hv.
  rewrite !app_nil_iff, !missingIdentities_nil, fmap_nil_inv', filter_nil.
  setoid_rewrite elem_alwaysRequiredOperators. do 2 (apply and_iff_compat_l).
  unfold conditionallyRequiredControlPlaneOperatorIdentities, supplies. fold controlPlane.
  destruct (String.eqb_spec (etcd_KeyManagementMode (cp_Etcd properties)) EtcdDataEncryptionKeyManagementModeTypeCustomerManaged)
    as [Hk|Hk]; [|set_solver].
  setoid_rewrite list_elem_of_singleton. setoid_rewrite andb_false_iff. setoid_rewrite negb_false_iff.
  split.
  - intros Hall _ Hs. destruct (Hall _ eq_refl); [congruence|done].
  - intros Hall a ->. destruct (operatorSupportedForVersion _ _ _); [right; auto|by left].
Qed.

(** The operator identities of a cluster are accepted exactly when every operator
    that its version always requires has an identity, the key management operator
    has one if customer managed keys are used and the version has it, and every
    named operator exists in the version. *)
Theorem operator_identities_exact ctx path properties version :
  ParseTolerant (vp_ID (cp_Version properties)) = Some version →
  let config := cac_IdentitiesConfig ctx in
  let controlPlane := pp_ControlPlaneOperators (cp_Platform properties) in
  let dataPlane := pp_DataPlaneOperators (cp_Platform properties) in
  admitClusterUserAssignedIdentities ctx path properties = [] ↔
  (∀ name, alwaysRequired (ControlPlaneOperatorsIdentities config) version name → supplies controlPlane name) ∧
  (∀ name, alwaysRequired (DataPlaneOperatorsIdentities config) version name → supplies dataPlane name) ∧
  (etcd_KeyManagementMode (cp_Etcd properties) = EtcdDataEncryptionKeyManagementModeTypeCustomerManaged →
   operatorSupportedForVersion (ControlPlaneOperatorsIdentities config) ClusterOperatorIdentifierKMS version = true →
   supplies controlPlane ClusterOperatorIdentifierKMS) ∧
  namesSupported (ControlPlaneOperatorsIdentities config) version controlPlane ∧
  namesSupported (DataPlaneOperatorsIdentities config) version dataPlane.
Proof.
  intros Hv config controlPlane dataPlane. unfold admitClusterUserAssignedIdentities.
  rewrite app_nil_iff, (admitRequiredOperatorIdentities_nil _ _ _ _ Hv), (admitOperatorIdentityNames_nil _ _ _ _ Hv).
  unfold config, controlPlane, dataPlane. tauto.
Qed.

End guards.
