(* ===== verification/VersionValidation.v ===== *)
(** * Static validation of versions, and version changes as a whole

    The version validators of [internal/validation/validators.go], the version
    profiles of [validate_cluster.go] and [validate_nodepools.go], and the options of
    [validate_common.go].  The theorems are about both layers
    together: a version change passes the static validation and the admission. *)
From S2P Require Import Prelude GoStrings RolloutTypes VersionRules Admission FieldValidation.
From S2P Require Import ClusterAdmission ClusterChecks ClusterGuards.

Local Open Scope string_scope.
Local Open Scope Z_scope.
Local Open Scope go_scope.

(** ** Options of an operation *)

Definition GetRegisteredFeatures (s : option Subscription) : list Feature :=
  match s with
  | Some sub => default [] (sub_RegisteredFeatures sub)
  | None => []
  end.

Definition addFeature (ret : gmap string bool) (curr : Feature) : gmap string bool :=
  match feature_Name curr with
  | None => ret
  | Some raw =>
      if String.eqb raw EmptyString then ret
      else
        let name := ToLower raw in
        <[name := default false (ret !! name)
                  || String.eqb (default EmptyString (feature_State curr)) "Registered"]> ret
  end.

Definition AFECsToValidationOptions (features : list Feature) : gmap string bool :=
  List.fold_left addFeature features ∅.

Definition APIVersionOption (version : string) : string := apiVersionOptionPrefix +:+ version.

Definition BuildValidationOptions (features : list Feature) (apiVersion : string) : gmap string bool :=
  let options := AFECsToValidationOptions features in
  if String.eqb apiVersion EmptyString then options else <[APIVersionOption apiVersion := true]> options.

(** ** Validators of versions *)

Definition ChannelGroupStable : string := "stable".
Definition ChannelGroupFast : string := "fast".
Definition AllowedChannelGroups : list string := [ChannelGroupStable; ChannelGroupFast].
Definition AllowedChannelGroupsWithExperimentalFlag : list string :=
  [ChannelGroupStable; ChannelGroupFast; ChannelGroupCandidate; ChannelGroupNightly].

Definition exactVersionTagDetail : string := TagClusterControlPlaneExactVersion.

Definition rejectUnsupportedChannelGroupUpdate (op : Operation) (path newChannelGroup : string)
    (oldChannelGroup : option string) : list fieldError :=
  match oldChannelGroup with
  | None => []
  | Some old =>
      if negb (bool_decide (op_Type op = Update)) then []
      else if String.eqb newChannelGroup old then []
      else [Forbidden (Child path "channelGroup") ChannelGroupUpdate]
  end.

Section validators.
Context {V : Type} `{Semver V} `{FieldValidators}.

Definition VersionMayNotDecrease (path value : string) (oldValue : option string) : list fieldError :=
  if String.eqb value EmptyString then []
  else
    match oldValue with
    | None => []
    | Some old =>
        if String.eqb old EmptyString then []
        else
          match ParseTolerant (V := V) value with
          | None => [Invalid path value NotAVersion]
          | Some newVersion =>
              match ParseTolerant old with
              | None => [Invalid path value NotAVersion]
              | Some oldVersion => if LT newVersion oldVersion then [Invalid path value (MayNotDecrease old)] else []
              end
          end
    end.

Definition OpenshiftVersionAtMostOneMinorSkewWithField (path newVersionID : string) (previousVersionID : option string) :
    list fieldError :=
  let previous := default EmptyString previousVersionID in
  if String.eqb newVersionID EmptyString || String.eqb previous EmptyString then []
  else match OpenshiftVersionAtMostOneMinorSkew (V := V) previous newVersionID with
       | Some e => [Invalid path newVersionID (UpgradePath e)]
       | None => []
       end.

(** [len(strings.SplitN(value, ".", 3))] *)
Definition versionParts (value : string) : nat := Nat.min 3 (length (Split "." value)).

Definition OpenShiftWithOptionalPrerelease (path value : string) : list fieldError :=
  if String.eqb value EmptyString then []
  else match semver_Parse (V := V) value with
       | None => [Invalid path value NotAVersion]
       | Some _ => if (versionParts value <? 3)%nat then [Invalid path value PatchRequired] else []
       end.

Definition OpenshiftVersionWithoutMicroDetail (path value guidance : string) : list fieldError :=
  if String.eqb value EmptyString then []
  else match ParseTolerant (V := V) value with
       | None => [Invalid path value NotAVersion]
       | Some _ => if (2 <? versionParts value)%nat then [Invalid path value (PatchNotAllowed guidance)] else []
       end.

Definition OpenshiftVersionWithoutMicro (path value : string) : list fieldError :=
  OpenshiftVersionWithoutMicroDetail path value "the PATCH value is managed".

(** The old version is checked only once a version was stored. *)
Definition checkVersionID (old : option VersionProfile) : bool :=
  match old with None => true | Some o => negb (String.eqb (vp_ID o) EmptyString) end.

Definition validateVersionProfile (op : Operation) (path : string) (new : VersionProfile) (old : option VersionProfile) :
    list fieldError :=
  let idPath := Child path "id" in
  let groupPath := Child path "channelGroup" in
  let experimental := HasOption op FeatureExperimentalReleaseFeatures in
  ((if checkVersionID old then
      RequiredValue idPath (vp_ID new)
      ++ VersionMustBeAtLeastMajorMinor (V := V) idPath (vp_ID new) "4.20"
      ++ VersionMayNotDecrease idPath (vp_ID new) (vp_ID <$> old)
      ++ OpenshiftVersionAtMostOneMinorSkewWithField idPath (vp_ID new) (vp_ID <$> old)
    else [])
   ++ (if negb experimental then
         OpenshiftVersionWithoutMicro idPath (vp_ID new)
         ++ match ParseTolerant (V := V) (vp_ID new) with
            | Some v => if 5 <=? Major v then [Invalid idPath (vp_ID new) MajorNotSupported] else []
            | None => []
            end
       else OpenshiftVersionWithoutMicroDetail idPath (vp_ID new) exactVersionTagDetail)
   ++ RequiredValue groupPath (vp_ChannelGroup new)
   ++ Enum groupPath (vp_ChannelGroup new)
        (if negb experimental then AllowedChannelGroups else AllowedChannelGroupsWithExperimentalFlag)
   ++ rejectUnsupportedChannelGroupUpdate op path (vp_ChannelGroup new) (vp_ChannelGroup <$> old))%list.

Definition validateNodePoolVersionID (path : string) (new : VersionProfile) : list fieldError :=
  (OpenShiftWithOptionalPrerelease (Child path "id") (vp_ID new)
   ++ if String.eqb (vp_ChannelGroup new) ChannelGroupNightly
      then VersionMustBeAtLeastMajorMinor (V := V) (Child path "id") (vp_ID new) "4.20"
      else VersionMustBeAtLeast (V := V) (Child path "id") (vp_ID new) "4.20.8")%list.

Definition validateNodePoolVersionProfile (op : Operation) (path : string) (new : VersionProfile)
    (old : option VersionProfile) : list fieldError :=
  let groupPath := Child path "channelGroup" in
  ((if checkVersionID old then RequiredValue (Child path "id") (vp_ID new) else [])
   ++ (if match old with None => true | Some o => negb (String.eqb (vp_ID new) (vp_ID o)) end
       then validateNodePoolVersionID path new else [])
   ++ RequiredValue groupPath (vp_ChannelGroup new)
   ++ Enum groupPath (vp_ChannelGroup new)
        (if negb (HasOption op FeatureExperimentalReleaseFeatures)
         then AllowedChannelGroups else AllowedChannelGroupsWithExperimentalFlag)
   ++ rejectUnsupportedChannelGroupUpdate op path (vp_ChannelGroup new) (vp_ChannelGroup <$> old))%list.

End validators.

(** ** Both layers read the same registered features *)

Lemma find_map_to_list (options : gmap string bool) key :
  lookupOption (map_to_list options) key = options !! key.
Proof.
  unfold lookupOption. destruct (List.find _ _) as [[k b]|] eqn:E; simpl.
  - apply List.find_some in E as [Hin Hk%String.eqb_eq]. simpl in Hk. subst k.
    apply list_elem_of_In, elem_of_map_to_list in Hin. done.
  - destruct (options !! key) as [b|] eqn:Eo; [|done]. exfalso.
    apply elem_of_map_to_list, list_elem_of_In in Eo. apply (List.find_none _ _ E) in Eo. simpl in Eo.
    by rewrite String.eqb_refl in Eo.
Qed.

(** The entry of a feature: whether one of its spellings is registered. *)
Definition featureMatches (key : string) (f : Feature) : bool :=
  match feature_Name f with
  | Some name => EqualFold name key && bool_decide (feature_State f = Some "Registered")
  | None => false
  end.

Lemma addFeature_lookup key ret f :
  key ≠ EmptyString → ToLower key = key →
  default false (addFeature ret f !! key) = default false (ret !! key) || featureMatches key f.
Proof.
  intros Hne Hlow. unfold addFeature, featureMatches. destruct (feature_Name f) as [raw|]; [|by rewrite orb_false_r].
  assert (Hstate : String.eqb (default EmptyString (feature_State f)) "Registered"
    = bool_decide (feature_State f = Some "Registered")).
  { apply eq_true_iff_eq. rewrite String.eqb_eq, bool_decide_eq_true.
    destruct (feature_State f); simpl; naive_solver congruence. }
  destruct (String.eqb_spec raw EmptyString) as [->|Hraw].
  - destruct (EqualFold EmptyString key) eqn:E; [|by rewrite orb_false_r].
    apply EqualFold_spec in E. rewrite Hlow in E. by subst key.
  - cbv zeta. rewrite Hstate. destruct (EqualFold raw key) eqn:E.
    + apply EqualFold_spec in E. rewrite Hlow in E. rewrite E, lookup_insert_eq. done.
    + rewrite lookup_insert_ne; [by rewrite orb_false_r|]. intros Heq.
      assert (EqualFold raw key = true) by (apply EqualFold_spec; congruence). congruence.
Qed.

Lemma AFECs_lookup key features :
  key ≠ EmptyString → ToLower key = key →
  default false (AFECsToValidationOptions features !! key) = existsb (featureMatches key) features.
Proof.
  intros Hne Hlow. unfold AFECsToValidationOptions.
  assert (Hgen : ∀ ret, default false (List.fold_left addFeature features ret !! key)
    = default false (ret !! key) || existsb (featureMatches key) features); [|by rewrite Hgen, lookup_empty].
  induction features as [|f l IH]; intros ret; simpl; [by rewrite orb_false_r|].
  rewrite IH, addFeature_lookup by done. by rewrite orb_assoc.
Qed.

Lemma AFECs_key key features b :
  AFECsToValidationOptions features !! key = Some b →
  ∃ f name, f ∈ features ∧ feature_Name f = Some name ∧ key = ToLower name.
Proof.
  unfold AFECsToValidationOptions.
  assert (Hgen : ∀ ret, List.fold_left addFeature features ret !! key = Some b →
    ret !! key = Some b ∨ ∃ f name, f ∈ features ∧ feature_Name f = Some name ∧ key = ToLower name).
  2: { intros Hl. destruct (Hgen _ Hl) as [He|]; [by rewrite lookup_empty in He|done]. }
  induction features as [|f l IH]; intros ret; simpl; [by left|]. intros Hl.
  destruct (IH _ Hl) as [Ha|(g & name & Hin & Hg)]; [|right; exists g, name; set_solver].
  unfold addFeature in Ha. destruct (feature_Name f) as [raw|] eqn:Ef; [|by left].
  destruct (String.eqb raw EmptyString); [by left|]. cbv zeta in Ha.
  destruct (decide (ToLower raw = key)) as [<-|Hne]; [right; exists f, raw; set_solver|].
  rewrite lookup_insert_ne in Ha by done. by left.
Qed.

Lemma CutPrefix_append p s : CutPrefix (p +:+ s) p = Some s.
Proof.
  unfold CutPrefix, HasPrefix. replace (String.prefix p (p +:+ s)) with true.
  - f_equal. induction p as [|c p IH]; simpl; [|exact IH].
    rewrite Nat.sub_0_r. change (EmptyString +:+ s) with s. clear.
    induction s as [|c s IH]; simpl; [done|by rewrite IH].
  - induction p as [|c p IH]; simpl; [by destruct s|]. rewrite <- IH. by destruct (ascii_dec c c).
Qed.

Lemma APIVersionFromOptions_spec options version :
  (∀ name, (name, true) ∈ options → ∀ v, CutPrefix name apiVersionOptionPrefix = Some v → v = version) →
  (version = EmptyString ∨ (APIVersionOption version, true) ∈ options) →
  APIVersionFromOptions options = version.
Proof.
  induction options as [|[name enabled] l IH]; intros Hall Hsome; simpl.
  { destruct Hsome as [|Hn]; [done|set_solver]. }
  destruct (CutPrefix name apiVersionOptionPrefix) as [v|] eqn:E; [destruct enabled|].
  - eapply Hall; [left|exact E].
  - apply IH; [set_solver|]. destruct Hsome as [|Hin]; [by left|right].
    apply elem_of_cons in Hin as [[=]|]; done.
  - apply IH; [set_solver|]. destruct Hsome as [|Hin]; [by left|right].
    apply elem_of_cons in Hin as [[= <- <-]|]; [|done].
    unfold APIVersionOption in E. by rewrite CutPrefix_append in E.
Qed.

(** The options of an operation carry what they were built from: the experimental
    features as admission reads them from the subscription, and the API version. *)
Theorem options_carry_the_request sub apiVersion (op : Operation) :
  op_Options op = map_to_list (BuildValidationOptions (GetRegisteredFeatures sub) apiVersion) →
  HasOption op FeatureExperimentalReleaseFeatures = experimentalEnabled sub ∧
  ((∀ f name, f ∈ GetRegisteredFeatures sub → feature_Name f = Some name →
      CutPrefix (ToLower name) apiVersionOptionPrefix = None) →
   APIVersionFromOptions (op_Options op) = apiVersion).
Proof.
  intros Hop. split.
  - unfold HasOption. rewrite Hop, find_map_to_list. unfold BuildValidationOptions.
    assert (Hf : default false (AFECsToValidationOptions (GetRegisteredFeatures sub) !! FeatureExperimentalReleaseFeatures)
      = experimentalEnabled sub).
    { rewrite AFECs_lookup by done. destruct sub as [[[features|]]|]; reflexivity. }
    destruct (String.eqb apiVersion EmptyString); [exact Hf|]. rewrite lookup_insert_ne; [exact Hf|discriminate].
  - intros Hnames. rewrite Hop. unfold BuildValidationOptions. apply APIVersionFromOptions_spec.
    + intros name Hin v Hcut. apply elem_of_map_to_list in Hin.
      assert (Hno : AFECsToValidationOptions (GetRegisteredFeatures sub) !! name = Some true → False).
      { intros (f & raw & Hf & Hr & ->)%AFECs_key. by rewrite (Hnames f raw Hf Hr) in Hcut. }
      destruct (String.eqb apiVersion EmptyString); [done|].
      destruct (decide (APIVersionOption apiVersion = name)) as [<-|Hne].
      * unfold APIVersionOption in Hcut. rewrite CutPrefix_append in Hcut. congruence.
      * rewrite lookup_insert_ne in Hin by done. done.
    + destruct (String.eqb_spec apiVersion EmptyString); [by left|right].
      apply elem_of_map_to_list. by rewrite lookup_insert_eq.
Qed.

(** ** Accepted version changes of a cluster *)

Section changes.
Context {V : Type} `{SemverLaws V} `{FieldValidatorLaws}.
Context {fieldsOf : VersionFields V}.

(** What both layers promise of the change to [version], given the active control
    plane versions [vs]. *)
Record clusterUpgradeOk (ctx : ClusterAdmissionContext V) (spc : ServiceProviderView V) (new old : VersionProfile)
    (vs : list V) (version : V) : Prop := {
  cu_supported : 4 < Major version ∨ Major version = 4 ∧ 20 <= Minor version;
  cu_line : (versionParts (vp_ID new) <= 2)%nat;
  cu_group : vp_ChannelGroup new = vp_ChannelGroup old;
  cu_not_below : ∀ v, v ∈ vs →
    if String.eqb (vp_ChannelGroup new) ChannelGroupNightly
    then lineBelow version (Major v) (Minor v) = false else LT version v = false;
  cu_step : ∀ v, v ∈ vs → (∀ w, w ∈ vs → LT w v = false) → oneMinorStep v version;
  cu_node_pools : Minor version < 2 ^ 63 → ∀ pool, Some pool ∈ cac_ClusterNodePools ctx →
    requestedSuits version (anp_VersionID pool) ∧
    ∀ ws, anp_ActiveVersions pool = Some (Some <$> ws) → (∀ w, w ∈ ws → Minor w < 2 ^ 63) →
      activeSuits version ws;
  cu_channel : spv_DesiredVersionChannels spc ≠ [] →
    vp_ChannelGroup new ≠ ChannelGroupNightly → vp_ChannelGroup new ≠ ChannelGroupCandidate →
    vp_ChannelGroup new +:+ "-" +:+ minorString version ∈ spv_DesiredVersionChannels spc;
  cu_mirror : ∀ oldVersion, ParseTolerant (V := V) (vp_ID old) = Some oldVersion →
    Major oldVersion = 4 → Major version = 5 →
    ∃ sources, spv_ImageContentSources spc = Some sources ∧ OcpV5ArtDevMirrorSource ∈ sources;
}.

Lemma lineBelow_false (v : V) major minor :
  lineBelow v major minor = false ↔ major <= Major v ∧ (Major v = major → minor <= Minor v).
Proof.
  unfold lineBelow. rewrite orb_false_iff, andb_false_iff, !Z.ltb_ge, Z.eqb_neq. lia.
Qed.

(** The parts of the static validation that the theorem uses. *)
Lemma validateVersionProfile_parts op path new old version :
  vp_ID old ≠ EmptyString → vp_ID new ≠ EmptyString → op_Type op = Update →
  ParseTolerant (vp_ID new) = Some version →
  validateVersionProfile (V := V) op path new (Some old) = [] →
  VersionMustBeAtLeastMajorMinor (V := V) (Child path "id") (vp_ID new) "4.20" = [] ∧
  OpenshiftVersionAtMostOneMinorSkew (V := V) (vp_ID old) (vp_ID new) = None ∧
  (versionParts (vp_ID new) <= 2)%nat ∧ vp_ChannelGroup new ≠ EmptyString ∧ vp_ChannelGroup new = vp_ChannelGroup old.
Proof.
  intros Hold Hnew Hop Hp. unfold validateVersionProfile, checkVersionID.
  apply String.eqb_neq in Hold, Hnew. rewrite Hold. cbn [negb].
  intros [[_ [Hmin [_ Hskew]%app_nil_iff]%app_nil_iff]%app_nil_iff [Hmicro [Hreq [_ Hg]%app_nil_iff]%app_nil_iff]%app_nil_iff]%app_nil_iff.
  assert (Hparts : ∀ d, OpenshiftVersionWithoutMicroDetail (V := V) (Child path "id") (vp_ID new) d = [] →
    (versionParts (vp_ID new) <= 2)%nat).
  { intros d. unfold OpenshiftVersionWithoutMicroDetail. rewrite Hnew, Hp.
    destruct (Nat.ltb_spec 2 (versionParts (vp_ID new))); [done|]. intros _. lia. }
  split_and!; [exact Hmin| | | |].
  - unfold OpenshiftVersionAtMostOneMinorSkewWithField in Hskew. cbn [fmap option_fmap option_map default] in Hskew.
    unfold default, from_option, id in Hskew. rewrite Hnew, Hold in Hskew. cbn [orb] in Hskew. by destruct (OpenshiftVersionAtMostOneMinorSkew _ _).
  - destruct (negb _); [|by eapply Hparts]. apply app_nil_iff in Hmicro as [Hm _].
    by eapply Hparts.
  - by apply RequiredValue_nil in Hreq.
  - unfold rejectUnsupportedChannelGroupUpdate in Hg. cbn [fmap option_fmap option_map] in Hg.
    rewrite (bool_decide_true _ Hop) in Hg. cbn [negb] in Hg.
    by destruct (String.eqb_spec (vp_ChannelGroup new) (vp_ChannelGroup old)).
Qed.

Lemma admitVersionSkew_sound ctx path new oldVersion spc vs version :
  cac_ServiceProviderCluster ctx = Some spc → av_Version <$> spv_ActiveVersions spc = Some <$> vs →
  (∀ v, v ∈ vs → ParseTolerant (semver_String v) = Some v ∧ semver_String v ≠ EmptyString) →
  vp_ID new ≠ EmptyString → ParseTolerant (vp_ID new) = Some version →
  admitVersionSkew ctx path new oldVersion = Ok [] →
  (∀ v, v ∈ vs →
     if String.eqb (vp_ChannelGroup new) ChannelGroupNightly
     then lineBelow version (Major v) (Minor v) = false else LT version v = false) ∧
  (∀ v, v ∈ vs → (∀ w, w ∈ vs → LT w v = false) →
     (Major oldVersion = Major v ∧ Minor oldVersion = Minor v) ∨ oneMinorStep v version).
Proof.
  intros Hspc Hvs Hprint Hnew Hp. unfold admitVersionSkew. rewrite Hspc.
  unfold FindLowestAndHighestClusterVersion.
  destruct (findLowestAndHighest_spec vs) as [[-> _]|(lo & hi & Hr & Hlo & Hhi & Hb)]; [set_solver|].
  rewrite Hvs, Hr. cbn [result_bind]. intros [= [Hskew Hleast]%app_nil_iff]. split.
  - intros v Hv. destruct (Hb v Hv) as [_ Hle]. destruct (Hprint hi Hhi) as [Hph _].
    apply String.eqb_neq in Hnew. destruct (String.eqb (vp_ChannelGroup new) ChannelGroupNightly).
    + unfold VersionMustBeAtLeastMajorMinor in Hleast. rewrite Hnew, Hp, Hph in Hleast.
      destruct (lineBelow _ _ _) eqn:E; [done|]. apply lineBelow_false in E. apply lineBelow_false.
      apply LE_numbers in Hle. lia.
    + unfold VersionMustBeAtLeast in Hleast. rewrite Hnew, Hp, Hph in Hleast.
      destruct (LT version hi) eqn:E; [done|]. by eapply LE_trans.
  - intros v Hv Hmin. destruct (Hprint lo Hlo) as [Hpl Hne].
    assert (Hline : Major v = Major lo ∧ Minor v = Minor lo).
    { pose proof (LE_numbers _ _ (Hmin lo Hlo)). destruct (Hb v Hv) as [Hle _]. apply LE_numbers in Hle. lia. }
    destruct (Z.eqb_spec (Major oldVersion) (Major lo)) as [Em|Em]; cbn [negb orb] in Hskew;
      [destruct (Z.eqb_spec (Minor oldVersion) (Minor lo)) as [Ei|Ei]; cbn [negb orb] in Hskew; [left; lia|]|];
      (right; destruct (OpenshiftVersionAtMostOneMinorSkew _ _) eqn:Es; [done|];
       pose proof (oneMinorSkew_sound _ _ lo version Hne Hnew Hpl Hp Es) as Hstep;
       unfold oneMinorStep, minorString in *; destruct Hline as [-> ->]; exact Hstep).
Qed.

(** The remaining parts of the admission of a changed version. *)
Lemma admitClusterVersionProfile_parts ctx op path new old :
  op_Type op = Update → vp_ID new ≠ EmptyString → vp_ID new ≠ vp_ID old →
  admitClusterVersionProfile ctx op path new (Some old) = Ok [] →
  ∃ oldVersion version : V, ParseTolerant (vp_ID old) = Some oldVersion ∧ ParseTolerant (vp_ID new) = Some version ∧
    admitVersionSkew ctx (Child path "id") new oldVersion = Ok [] ∧
    AdmitClusterNodePoolsMinorVersionSkew (cac_ClusterNodePools ctx) version = Ok [] ∧
    admitClusterVersionID ctx op path new (Some old) = [] ∧ admitClusterV5DataPlaneMirror ctx op path new (Some old) = [].
Proof.
  intros Hop Hnew Hne. unfold admitClusterVersionProfile. rewrite (bool_decide_true _ Hop).
  apply String.eqb_neq in Hnew. rewrite Hnew. rewrite (proj2 (String.eqb_neq (vp_ID old) (vp_ID new))) by congruence.
  cbn [negb orb]. destruct (ParseTolerant (vp_ID old)) as [oldVersion|]; [|done].
  rewrite result_bind_ok. intros (skew & Hskew & Hrest). apply result_bind_ok in Hrest as (pools & Hpools & Hok).
  apply Ok_inj, app_nil_iff in Hok as [-> [-> [Hid Hm]%app_nil_iff]%app_nil_iff].
  destruct (ParseTolerant (vp_ID new)) as [version|]; [|done]. apply result_bind_ok in Hpools as ([|] & Hp & Hp'); [|done].
  exists oldVersion, version. by split_and!.
Qed.

Lemma admitClusterVersionID_sound ctx op path new old spc version :
  op_Type op = Update → vp_ID new ≠ EmptyString → vp_ID new ≠ vp_ID old → vp_ChannelGroup new ≠ EmptyString →
  cac_ServiceProviderCluster ctx = Some spc → ParseTolerant (V := V) (vp_ID new) = Some version →
  admitClusterVersionID ctx op path new (Some old) = [] →
  spv_DesiredVersionChannels spc ≠ [] → vp_ChannelGroup new ≠ ChannelGroupNightly →
  vp_ChannelGroup new ≠ ChannelGroupCandidate →
  vp_ChannelGroup new +:+ "-" +:+ minorString version ∈ spv_DesiredVersionChannels spc.
Proof.
  intros Hop Hnew Hne Hg Hspc Hp. unfold admitClusterVersionID, versionMajorMinor. rewrite (bool_decide_true _ Hop), Hspc, Hp.
  apply String.eqb_neq in Hnew, Hg. rewrite Hnew, Hg, (proj2 (String.eqb_neq (vp_ID old) (vp_ID new))) by congruence.
  cbn [negb orb]. intros Hn Hc Hni Hca. apply String.eqb_neq in Hni, Hca. rewrite Hni, Hca in Hn. cbn [orb] in Hn.
  destruct (spv_DesiredVersionChannels spc) as [|c l] eqn:E; [done|]. cbn [fmap option_fmap option_map] in Hn. cbv zeta in Hn.
  destruct (existsb _ (c :: l)) eqn:Ex; [|done]. apply existsb_elem in Ex as (x & Hx & ->%String.eqb_eq). done.
Qed.

Lemma admitClusterV5DataPlaneMirror_sound ctx op path new old spc oldVersion version :
  op_Type op = Update → vp_ID new ≠ vp_ID old →
  cac_ServiceProviderCluster ctx = Some spc → ParseTolerant (V := V) (vp_ID new) = Some version →
  ParseTolerant (V := V) (vp_ID old) = Some oldVersion →
  admitClusterV5DataPlaneMirror ctx op path new (Some old) = [] → Major oldVersion = 4 → Major version = 5 →
  ∃ sources, spv_ImageContentSources spc = Some sources ∧ OcpV5ArtDevMirrorSource ∈ sources.
Proof.
  intros Hop Hne Hspc Hp Hpo. unfold admitClusterV5DataPlaneMirror. rewrite (bool_decide_true _ Hop), Hspc, Hp, Hpo.
  apply String.eqb_neq in Hne. rewrite Hne. cbn [negb orb]. intros Hn E4 E5. rewrite E4, E5 in Hn. change (negb (4 =? 4) || negb (5 =? 5)) with false in Hn.
  cbv iota in Hn. destruct (spv_ImageContentSources spc) as [sources|]; [|done]. exists sources. split; [done|].
  destruct (existsb _ sources) eqn:Ex; [|done]. apply existsb_elem in Ex as (x & Hx & ->%String.eqb_eq). done.
Qed.

(** (C33) An accepted change of a cluster's version (from one that is set, with all
    active control plane versions known) is safe: the new version is a release line
    from 4.20 on, of the same channel group; it is at least every active control plane
    version (in the nightly group: by its release line) and at most one minor step, or
    one listed step into the next major version, above the lowest.  The requested
    version of every node pool may run under it, and so may the lowest and the highest
    active version of the pool, all that have the new major version, and all when they
    share one major version.  Where channels are recorded and the group is neither
    nightly nor candidate, the channel of the new line is one of them; the step from
    major version 4 to 5 waits for the image mirror. *)
Theorem cluster_version_change_safe ctx op new old spc vs :
  let newV := cp_Version (cd_CustomerProperties new) in
  let oldV := cp_Version (cd_CustomerProperties old) in
  (∃ v : V, ParseTolerant "4.20" = Some v ∧ Major v = 4 ∧ Minor v = 20) →
  op_Type op = Update → vp_ID newV ≠ EmptyString → vp_ID oldV ≠ EmptyString → vp_ID newV ≠ vp_ID oldV →
  cac_ServiceProviderCluster ctx = Some spc → av_Version <$> spv_ActiveVersions spc = Some <$> vs →
  (∀ v, v ∈ vs → ParseTolerant (semver_String v) = Some v ∧ semver_String v ≠ EmptyString) →
  validateVersionProfile (V := V) op "properties.version" newV (Some oldV) = [] →
  AdmitCluster ctx op new (Some old) = Ok [] →
  ∃ version, ParseTolerant (vp_ID newV) = Some version ∧ clusterUpgradeOk ctx spc newV oldV vs version.
Proof.
  intros newV oldV (min & Hmin & HM & Hm) Hop Hnew Hold Hne Hspc Hvs Hprint Hval (Hadm & _)%AdmitCluster_parts.
  destruct (admitClusterVersionProfile_parts _ _ _ _ _ Hop Hnew Hne Hadm)
    as (oldVersion & version & Hpo & Hp & Hskew & Hpools & Hid & Hmirror).
  destruct (validateVersionProfile_parts _ _ _ _ _ Hold Hnew Hop Hp Hval) as (Hleast & Hstatic & Hparts & Hgroup & Hsame).
  destruct (admitVersionSkew_sound _ _ _ _ _ _ _ Hspc Hvs Hprint Hnew Hp Hskew) as [Hbelow Hstep].
  exists version. split; [exact Hp|]. split; [|exact Hparts|exact Hsame|exact Hbelow| | | |].
  - unfold VersionMustBeAtLeastMajorMinor in Hleast. rewrite (proj2 (String.eqb_neq _ _) Hnew), Hp, Hmin in Hleast.
    destruct (lineBelow _ _ _) eqn:E; [done|]. apply lineBelow_false in E. lia.
  - intros v Hv Hlow. destruct (Hstep v Hv Hlow) as [[E1 E2]|]; [|done].
    pose proof (oneMinorSkew_sound _ _ oldVersion version Hold Hnew Hpo Hp Hstatic) as Ho.
    unfold oneMinorStep, minorString in *. rewrite <- E1, <- E2. exact Ho.
  - intros Hb pool Hin. pose proof (AdmitClusterNodePools_each _ _ _ Hpools Hin) as Hpool.
    split; [by apply admitNodePoolSkew_requested in Hpool|].
    intros ws Hws Hall. by apply (admitNodePoolSkew_active _ pool).
  - by eapply admitClusterVersionID_sound.
  - intros ov Hov. by eapply admitClusterV5DataPlaneMirror_sound.
Qed.

End changes.
