(* ===== verification/NodePoolValidation.v ===== *)
(** * Static validation of node pools

    All of [internal/validation/validate_nodepools.go] and the VM sizes of
    [enabled_nodepool_vm_sizes.go].  The documents hold every validated field; maps
    are finite maps, so that their order does not matter. *)
From S2P Require Import Prelude GoStrings GoRegexp RolloutTypes VersionRules Admission FieldValidation.
From S2P Require Import NodePoolAdmission ClusterAdmission ClusterChecks VersionValidation.

Local Open Scope string_scope.
Local Open Scope Z_scope.

(** ** Constants *)

Definition MaxNodePoolNodes : Z := 200.
Definition MaxDiskEncryptionSetNameLen : Z := 80.
Definition MaxManagedOSDiskSizeGiB : Z := 4095.
Definition MaxEphemeralOSDiskSizeGiB : Z := 2040.

Definition OsDiskTypeManaged : string := "Managed".
Definition OsDiskTypeEphemeral : string := "Ephemeral".
Definition ValidOsDiskTypes : list string := [OsDiskTypeManaged; OsDiskTypeEphemeral].
Definition ValidDiskStorageAccountTypes : list string := ["Premium_LRS"; "StandardSSD_LRS"; "Standard_LRS"].
Definition ValidEffects : list string := ["NoExecute"; "NoSchedule"; "PreferNoSchedule"].

Definition nodePoolResourceType : string := "Microsoft.RedHatOpenShift/hcpOpenShiftClusters/nodePools".

(** A label key with its forbidden values; [None] forbids every value. *)
Definition nodePoolForbiddenK8sLabelValuesByKey : gmap string (option (list string)) :=
  {[ "node-role.kubernetes.io/master" := None;
     "node-role.kubernetes.io/worker" := None;
     "machine.openshift.io/cluster-api-machine-role" := Some ["master"; "infra"];
     "machine.openshift.io/cluster-api-machine-type" := Some ["master"; "infra"] ]}.

Definition EnabledNodePoolAzureVMSizes : list string := [
    "Standard_D128s_v6"; "Standard_D16as_v4"; "Standard_D16as_v5"; "Standard_D16pds_v6";
    "Standard_D16plds_v6"; "Standard_D16pls_v6"; "Standard_D16ps_v6"; "Standard_D16s_v3";
    "Standard_D16s_v4"; "Standard_D16s_v5"; "Standard_D16s_v6"; "Standard_D192s_v6"; "Standard_D2pds_v6";
    "Standard_D2plds_v6"; "Standard_D2pls_v6"; "Standard_D2ps_v6"; "Standard_D2s_v6"; "Standard_D32as_v4";
    "Standard_D32as_v5"; "Standard_D32pds_v6"; "Standard_D32plds_v6"; "Standard_D32pls_v6";
    "Standard_D32ps_v6"; "Standard_D32s_v3"; "Standard_D32s_v4"; "Standard_D32s_v5"; "Standard_D32s_v6";
    "Standard_D48pds_v6"; "Standard_D48plds_v6"; "Standard_D48pls_v6"; "Standard_D48ps_v6";
    "Standard_D48s_v6"; "Standard_D4as_v4"; "Standard_D4as_v5"; "Standard_D4pds_v6"; "Standard_D4plds_v6";
    "Standard_D4pls_v6"; "Standard_D4ps_v6"; "Standard_D4s_v3"; "Standard_D4s_v4"; "Standard_D4s_v5";
    "Standard_D4s_v6"; "Standard_D64as_v4"; "Standard_D64as_v5"; "Standard_D64pds_v6";
    "Standard_D64plds_v6"; "Standard_D64pls_v6"; "Standard_D64ps_v6"; "Standard_D64s_v4";
    "Standard_D64s_v5"; "Standard_D64s_v6"; "Standard_D8as_v4"; "Standard_D8as_v5"; "Standard_D8pds_v6";
    "Standard_D8plds_v6"; "Standard_D8pls_v6"; "Standard_D8ps_v6"; "Standard_D8s_v3"; "Standard_D8s_v4";
    "Standard_D8s_v5"; "Standard_D8s_v6"; "Standard_D96as_v4"; "Standard_D96as_v5"; "Standard_D96pds_v6";
    "Standard_D96plds_v6"; "Standard_D96pls_v6"; "Standard_D96ps_v6"; "Standard_D96s_v5";
    "Standard_D96s_v6"; "Standard_E104ids_v5"; "Standard_E104is_v5"; "Standard_E128s_v6";
    "Standard_E16as_v4"; "Standard_E16as_v5"; "Standard_E16pds_v6"; "Standard_E16ps_v6"; "Standard_E16s_v3";
    "Standard_E16s_v4"; "Standard_E16s_v5"; "Standard_E16s_v6"; "Standard_E192is_v6"; "Standard_E20as_v4";
    "Standard_E20as_v5"; "Standard_E20s_v4"; "Standard_E20s_v5"; "Standard_E20s_v6"; "Standard_E2pds_v6";
    "Standard_E2ps_v6"; "Standard_E2s_v6"; "Standard_E32as_v4"; "Standard_E32as_v5"; "Standard_E32pds_v6";
    "Standard_E32ps_v6"; "Standard_E32s_v3"; "Standard_E32s_v4"; "Standard_E32s_v5"; "Standard_E32s_v6";
    "Standard_E48as_v4"; "Standard_E48as_v5"; "Standard_E48pds_v6"; "Standard_E48ps_v6"; "Standard_E48s_v4";
    "Standard_E48s_v5"; "Standard_E48s_v6"; "Standard_E4as_v4"; "Standard_E4pds_v6"; "Standard_E4ps_v6";
    "Standard_E4s_v3"; "Standard_E4s_v4"; "Standard_E4s_v5"; "Standard_E4s_v6"; "Standard_E64as_v4";
    "Standard_E64as_v5"; "Standard_E64pds_v6"; "Standard_E64ps_v6"; "Standard_E64s_v4"; "Standard_E64s_v5";
    "Standard_E64s_v6"; "Standard_E80ids_v4"; "Standard_E80is_v4"; "Standard_E8as_v4"; "Standard_E8as_v5";
    "Standard_E8pds_v6"; "Standard_E8ps_v6"; "Standard_E8s_v3"; "Standard_E8s_v4"; "Standard_E8s_v5";
    "Standard_E8s_v6"; "Standard_E96as_v4"; "Standard_E96as_v5"; "Standard_E96ds_v5"; "Standard_E96pds_v6";
    "Standard_E96ps_v6"; "Standard_E96s_v5"; "Standard_E96s_v6"; "Standard_F16s_v2"; "Standard_F32s_v2";
    "Standard_F4s_v2"; "Standard_F72s_v2"; "Standard_F8s_v2"; "Standard_L16s_v3"; "Standard_L16s_v4";
    "Standard_L2s_v4"; "Standard_L32s_v3"; "Standard_L32s_v4"; "Standard_L48s_v3"; "Standard_L48s_v4";
    "Standard_L4s_v4"; "Standard_L64s_v3"; "Standard_L64s_v4"; "Standard_L80s_v4"; "Standard_L8s_v3";
    "Standard_L8s_v4"; "Standard_L96s_v4"; "Standard_NC12s_v3"; "Standard_NC16as_T4_v3";
    "Standard_NC24ads_A100_v4"; "Standard_NC24rs_v3"; "Standard_NC24s_v3"; "Standard_NC40ads_H100_v5";
    "Standard_NC48ads_A100_v4"; "Standard_NC4as_T4_v3"; "Standard_NC64as_T4_v3"; "Standard_NC6s_v3";
    "Standard_NC80adis_H100_v5"; "Standard_NC8as_T4_v3"; "Standard_NC96ads_A100_v4";
    "Standard_ND96isr_H200_v5"].

(** ** Documents *)

Record OSDiskProfile := {
  osDisk_SizeGiB : option Z;
  osDisk_DiskStorageAccountType : string;
  osDisk_EncryptionSetID : option ResourceID;
  osDisk_DiskType : string;
}.

Record PoolPlatform := {
  pf_SubnetID : option ResourceID;
  pf_VMSize : string;
  pf_EnableEncryptionAtHost : bool;
  pf_OSDisk : OSDiskProfile;
  pf_AvailabilityZone : string;
}.

Record PoolTaint := { taint_Effect : string; taint_Key : string; taint_Value : string }.

Record PoolProperties := {
  pl_ProvisioningState : string;
  pl_Version : VersionProfile;
  pl_Platform : PoolPlatform;
  pl_Replicas : Z;
  pl_AutoRepair : bool;
  pl_AutoScaling : option NodePoolAutoScaling;
  pl_Labels : gmap string string;
  pl_Taints : list PoolTaint;
  pl_NodeDrainTimeoutMinutes : option Z;
}.

Record PoolDocument := {
  pd_TrackedResource : TrackedResource;
  pd_Properties : PoolProperties;
  pd_ClusterServiceID : option string;
}.

Definition pd_ID (np : PoolDocument) : option ResourceID := res_ID (tr_Resource (pd_TrackedResource np)).

#[export] Instance OSDiskProfile_semantic : SemanticEqual OSDiskProfile := λ a b,
  DeepEqual (osDisk_SizeGiB a) (osDisk_SizeGiB b)
  && DeepEqual (osDisk_DiskStorageAccountType a) (osDisk_DiskStorageAccountType b)
  && DeepEqual (osDisk_EncryptionSetID a) (osDisk_EncryptionSetID b)
  && DeepEqual (osDisk_DiskType a) (osDisk_DiskType b).

#[export] Instance PoolPlatform_semantic : SemanticEqual PoolPlatform := λ a b,
  DeepEqual (pf_SubnetID a) (pf_SubnetID b)
  && DeepEqual (pf_VMSize a) (pf_VMSize b)
  && DeepEqual (pf_EnableEncryptionAtHost a) (pf_EnableEncryptionAtHost b)
  && DeepEqual (pf_OSDisk a) (pf_OSDisk b)
  && DeepEqual (pf_AvailabilityZone a) (pf_AvailabilityZone b).

Section validation.
Context {V : Type} `{Semver V} `{FieldValidators}.

(** ** The parts of a node pool *)

Definition validateTaint (path : string) (newObj : PoolTaint) : list fieldError :=
  (Enum (Child path "effect") (taint_Effect newObj) ValidEffects
   ++ RequiredValue (Child path "key") (taint_Key newObj)
   ++ KubeQualifiedName (Child path "key") (taint_Key newObj)
   ++ KubeLabelValue (Child path "value") (taint_Value newObj))%list.

(** The maximum is compared with the minimum only once both are in range. *)
Definition validateNodePoolAutoScaling (path : string) (newObj : option NodePoolAutoScaling) (availabilityZone : string) :
    list fieldError :=
  match newObj with
  | None => []
  | Some scaling =>
      let errs :=
        (Minimum (Child path "min") (Some (autoscaling_Min scaling)) 1
         ++ MaximumIfNoAZ (Child path "min") (Some (autoscaling_Min scaling)) MaxNodePoolNodes availabilityZone
         ++ MaximumIfNoAZ (Child path "max") (Some (autoscaling_Max scaling)) MaxNodePoolNodes availabilityZone)%list in
      match errs with
      | [] => Minimum (Child path "max") (Some (autoscaling_Max scaling)) (autoscaling_Min scaling)
      | _ :: _ => errs
      end
  end.

Definition validateOSDiskProfile (path : string) (newObj : OSDiskProfile) : list fieldError :=
  (Minimum (Child path "sizeGiB") (osDisk_SizeGiB newObj) 64
   ++ Enum (Child path "diskStorageAccountType") (osDisk_DiskStorageAccountType newObj) ValidDiskStorageAccountTypes
   ++ RequiredValue (Child path "diskType") (osDisk_DiskType newObj)
   ++ Enum (Child path "diskType") (osDisk_DiskType newObj) ValidOsDiskTypes
   ++ (if String.eqb (osDisk_DiskType newObj) OsDiskTypeManaged
       then Maximum (Child path "sizeGiB") (osDisk_SizeGiB newObj) MaxManagedOSDiskSizeGiB
       else if String.eqb (osDisk_DiskType newObj) OsDiskTypeEphemeral
       then Maximum (Child path "sizeGiB") (osDisk_SizeGiB newObj) MaxEphemeralOSDiskSizeGiB
       else [])
   ++ RestrictedResourceIDWithResourceGroup (Child path "encryptionSetId") (osDisk_EncryptionSetID newObj)
        "Microsoft.Compute/diskEncryptionSets"
   ++ match osDisk_EncryptionSetID newObj with
      | None => []
      | Some id =>
          MaxLen (Child path "encryptionSetId") (rid_Name id) MaxDiskEncryptionSetNameLen
          ++ MatchesRegex (Child path "encryptionSetId") (rid_Name id) diskEncryptionSetNameRegex
               "(must contain only alphanumeric characters, underscores, and hyphens)"
      end)%list.

Definition validateNodePoolPlatformProfile (op : Operation) (path : string) (newObj : PoolPlatform)
    (oldObj : option PoolPlatform) : list fieldError :=
  (immutableByReflect op (Child path "subnetId") (pf_SubnetID newObj) (mjoin (pf_SubnetID <$> oldObj))
   ++ RestrictedResourceIDWithResourceGroup (Child path "subnetId") (pf_SubnetID newObj)
        "Microsoft.Network/virtualNetworks/subnets"
   ++ immutableByCompare op (Child path "vmSize") (Some (pf_VMSize newObj)) (pf_VMSize <$> oldObj)
   ++ RequiredValue (Child path "vmSize") (pf_VMSize newObj)
   ++ Enum (Child path "vmSize") (pf_VMSize newObj) EnabledNodePoolAzureVMSizes
   ++ immutableByCompare op (Child path "enableEncryptionAtHost") (Some (pf_EnableEncryptionAtHost newObj))
        (pf_EnableEncryptionAtHost <$> oldObj)
   ++ immutableByReflect op (Child path "osDisk") (Some (pf_OSDisk newObj)) (pf_OSDisk <$> oldObj)
   ++ validateOSDiskProfile (Child path "osDisk") (pf_OSDisk newObj)
   ++ immutableByCompare op (Child path "availabilityZone") (Some (pf_AvailabilityZone newObj))
        (pf_AvailabilityZone <$> oldObj))%list.

Definition forbiddenLabel (path key value : string) : list fieldError :=
  match nodePoolForbiddenK8sLabelValuesByKey !! key with
  | None => []
  | Some None => [Invalid (Key path key) key LabelKeyNotAllowed]
  | Some (Some forbiddenValues) =>
      if bool_decide (value ∈ forbiddenValues) then [Invalid (Key path key) value LabelValueNotAllowed] else []
  end.

Definition validateNodePoolForbiddenLabels (path : string) (newLabels : gmap string string) : list fieldError :=
  flat_map (λ e, forbiddenLabel path e.1 e.2) (map_to_list newLabels).

Definition validateNodePoolProperties (op : Operation) (path : string) (newObj : PoolProperties)
    (oldObj : option PoolProperties) : list fieldError :=
  let zone := pf_AvailabilityZone (pl_Platform newObj) in
  let labels := Child path "labels" in
  (immutableByCompare op (Child path "provisioningState") (Some (pl_ProvisioningState newObj))
     (pl_ProvisioningState <$> oldObj)
   ++ validateNodePoolVersionProfile (V := V) op (Child path "version") (pl_Version newObj) (pl_Version <$> oldObj)
   ++ immutableByReflect op (Child path "platform") (Some (pl_Platform newObj)) (pl_Platform <$> oldObj)
   ++ validateNodePoolPlatformProfile op (Child path "platform") (pl_Platform newObj) (pl_Platform <$> oldObj)
   ++ Minimum (Child path "replicas") (Some (pl_Replicas newObj)) 0
   ++ MaximumIfNoAZ (Child path "replicas") (Some (pl_Replicas newObj)) MaxNodePoolNodes zone
   ++ match pl_AutoScaling newObj with
      | Some scaling =>
          if 0 <? pl_Replicas newObj
          then [Invalid (Child path "replicas") (Itoa (autoscaling_Min scaling)) ReplicasWithAutoScaling] else []
      | None => []
      end
   ++ immutableByCompare op (Child path "autoRepair") (Some (pl_AutoRepair newObj)) (pl_AutoRepair <$> oldObj)
   ++ (if String.eqb (osDisk_DiskType (pf_OSDisk (pl_Platform newObj))) OsDiskTypeEphemeral && negb (pl_AutoRepair newObj)
       then [Invalid (Child path "autoRepair") "false" AutoRepairRequired] else [])
   ++ validateNodePoolAutoScaling (Child path "autoScaling") (pl_AutoScaling newObj) zone
   ++ validate_EachMapKey op labels (pl_Labels newObj) (default ∅ (pl_Labels <$> oldObj)) KubeQualifiedName
   ++ EachMapVal labels (pl_Labels newObj) (default ∅ (pl_Labels <$> oldObj)) (λ p value _, KubeLabelValue p value)
   ++ validateNodePoolForbiddenLabels labels (pl_Labels newObj)
   ++ EachSliceVal (Child path "taints") (pl_Taints newObj) validateTaint
   ++ Minimum (Child path "nodeDrainTimeoutMinutes") (pl_NodeDrainTimeoutMinutes newObj) 0
   ++ Maximum (Child path "nodeDrainTimeoutMinutes") (pl_NodeDrainTimeoutMinutes newObj) 10080)%list.

Definition validateNodePoolServiceProviderProperties (op : Operation) (path : string) (newID oldID : option string) :
    list fieldError :=
  immutableByReflect op (Child path "clusterServiceID") newID oldID.

Definition validateResourceIDsAgainstNodePoolID (newObj : PoolDocument) : list fieldError :=
  match pd_ID newObj with
  | None => []
  | Some id =>
      SameSubscription "properties.platform.osDisk.encryptionSetId"
        (osDisk_EncryptionSetID (pf_OSDisk (pl_Platform (pd_Properties newObj)))) (rid_SubscriptionID id)
  end.

Definition validateNodePool (op : Operation) (newObj : PoolDocument) (oldObj : option PoolDocument) : list fieldError :=
  (validateTrackedResource op "trackedResource" (pd_TrackedResource newObj) (pd_TrackedResource <$> oldObj)
   ++ RestrictedResourceIDWithResourceGroup "id" (pd_ID newObj) nodePoolResourceType
   ++ match pd_ID newObj with
      | None => []
      | Some id =>
          MaxLen "id" (rid_Name id) 15
          ++ MatchesRegex "id" (rid_Name id) nodePoolResourceNameRegex "(must be a valid DNS RFC 1035 label)"
      end
   ++ validateNodePoolProperties op "properties" (pd_Properties newObj) (pd_Properties <$> oldObj)
   ++ validateNodePoolServiceProviderProperties op "serviceProviderProperties" (pd_ClusterServiceID newObj)
        (mjoin (pd_ClusterServiceID <$> oldObj))
   ++ validateResourceIDsAgainstNodePoolID newObj)%list.

Definition ValidateNodePool (op : Operation) (newObj : PoolDocument) (oldObj : option PoolDocument) : list fieldError :=
  validateNodePool op newObj oldObj.

End validation.

(** ** Accepted node pools *)

Section accepted_pools.
Context {V : Type} `{Semver V} `{FieldValidatorLaws}.

(** A label that the table allows. *)
Definition labelAllowed (key value : string) : Prop :=
  match nodePoolForbiddenK8sLabelValuesByKey !! key with
  | None => True
  | Some None => False
  | Some (Some forbidden) => value ∉ forbidden
  end.

(** The shape of a node pool name: up to fifteen letters, digits and dashes that
    start with a letter and do not end with a dash. *)
Definition poolNameOk (name : string) : Prop :=
  ∃ c rest, String.list_ascii_of_string name = c :: rest ∧ isLetter c = true ∧ (length rest <= 14)%nat ∧
    Forall (λ d, dashed d = true) rest ∧ (∀ d, last rest = Some d → isAlphanumeric d = true).

Record poolInRange (p : PoolProperties) : Prop := {
  pr_replicas : 0 <= pl_Replicas p ∧ (pf_AvailabilityZone (pl_Platform p) = EmptyString → pl_Replicas p <= 200);
  pr_autoscaling : ∀ s, pl_AutoScaling p = Some s →
    pl_Replicas p = 0 ∧ 1 <= autoscaling_Min s <= autoscaling_Max s ∧
    (pf_AvailabilityZone (pl_Platform p) = EmptyString → autoscaling_Max s <= 200);
  pr_disk : ∀ size, osDisk_SizeGiB (pf_OSDisk (pl_Platform p)) = Some size →
    64 <= size <= 4095 ∧ (osDisk_DiskType (pf_OSDisk (pl_Platform p)) = OsDiskTypeEphemeral → size <= 2040);
  pr_disk_type : osDisk_DiskType (pf_OSDisk (pl_Platform p)) = OsDiskTypeManaged ∨
    osDisk_DiskType (pf_OSDisk (pl_Platform p)) = OsDiskTypeEphemeral;
  pr_storage : osDisk_DiskStorageAccountType (pf_OSDisk (pl_Platform p)) ∈
    ["Premium_LRS"; "StandardSSD_LRS"; "Standard_LRS"];
  pr_ephemeral : osDisk_DiskType (pf_OSDisk (pl_Platform p)) = OsDiskTypeEphemeral → pl_AutoRepair p = true;
  pr_drain : ∀ t, pl_NodeDrainTimeoutMinutes p = Some t → 0 <= t <= 10080;
  pr_vmsize : pf_VMSize (pl_Platform p) ∈ EnabledNodePoolAzureVMSizes;
  pr_labels : ∀ k v, pl_Labels p !! k = Some v → labelAllowed k v;
  pr_taints : ∀ t, t ∈ pl_Taints p → taint_Effect t ∈ ValidEffects ∧ taint_Key t ≠ EmptyString;
}.

Lemma validateNodePoolAutoScaling_nil path scaling zone :
  validateNodePoolAutoScaling path (Some scaling) zone = [] →
  1 <= autoscaling_Min scaling <= autoscaling_Max scaling ∧ (zone = EmptyString → autoscaling_Max scaling <= 200).
Proof.
  unfold validateNodePoolAutoScaling. destruct (_ ++ _)%list eqn:E; [|done]. intros Hmm.
  split_errors E. rewrite Minimum_nil in Hmm. rewrite Minimum_nil in E0.
  specialize (Hmm _ eq_refl). specialize (E0 _ eq_refl). split; [lia|]. intros Hz.
  by apply (proj1 (MaximumIfNoAZ_nil _ _ _ _) E Hz).
Qed.

Lemma validateOSDiskProfile_nil path disk size :
  validateOSDiskProfile path disk = [] → osDisk_SizeGiB disk = Some size →
  64 <= size <= 4095 ∧ (osDisk_DiskType disk = OsDiskTypeEphemeral → size <= 2040).
Proof.
  unfold validateOSDiskProfile. intros Hn Hs. split_errors Hn.
  rewrite Minimum_nil in Hn0. specialize (Hn0 _ Hs). apply Enum_nil in Hn3. unfold ValidOsDiskTypes in Hn3.
  rewrite !elem_of_cons, elem_of_nil in Hn3.
  destruct Hn3 as [Ht|[Ht|[]]]; rewrite Ht in Hn4; simpl in Hn4; rewrite Maximum_nil in Hn4; specialize (Hn4 _ Hs).
  - split; [unfold MaxManagedOSDiskSizeGiB in Hn4; lia|]. rewrite Ht. discriminate.
  - unfold MaxEphemeralOSDiskSizeGiB in Hn4. lia.
Qed.

Lemma validateOSDiskProfile_types path disk :
  validateOSDiskProfile path disk = [] →
  (osDisk_DiskType disk = OsDiskTypeManaged ∨ osDisk_DiskType disk = OsDiskTypeEphemeral) ∧
  osDisk_DiskStorageAccountType disk ∈ ["Premium_LRS"; "StandardSSD_LRS"; "Standard_LRS"].
Proof.
  unfold validateOSDiskProfile. rewrite !app_nil_iff, !Enum_nil. intros (_ & Hs & _ & Ht & _).
  split; [|exact Hs]. unfold ValidOsDiskTypes in Ht. rewrite !elem_of_cons, elem_of_nil in Ht. tauto.
Qed.

Lemma forbiddenLabel_nil path key value : forbiddenLabel path key value = [] ↔ labelAllowed key value.
Proof.
  unfold forbiddenLabel, labelAllowed. destruct (_ !! key) as [[forbidden|]|]; [|naive_solver..].
  rewrite if_nil. apply bool_decide_eq_false.
Qed.

Lemma validateNodePoolPlatformProfile_nil op path new old :
  validateNodePoolPlatformProfile op path new old = [] →
  pf_VMSize new ∈ EnabledNodePoolAzureVMSizes ∧ validateOSDiskProfile (Child path "osDisk") (pf_OSDisk new) = [].
Proof. unfold validateNodePoolPlatformProfile. rewrite !app_nil_iff, Enum_nil. tauto. Qed.

Lemma validateNodePoolProperties_range op path new old :
  validateNodePoolProperties (V := V) op path new old = [] → poolInRange new.
Proof.
  unfold validateNodePoolProperties. cbv zeta. intros Hn. split_errors Hn.
  apply validateNodePoolPlatformProfile_nil in Hn3 as [Hsize Hdisk].
  rewrite Minimum_nil in Hn4. specialize (Hn4 _ eq_refl).
  split.
  - split; [lia|]. intros Hz. by apply (proj1 (MaximumIfNoAZ_nil _ _ _ _) Hn5 Hz).
  - intros s Hs. rewrite Hs in Hn6, Hn9. apply validateNodePoolAutoScaling_nil in Hn9 as [Hr Hz].
    destruct (Z.ltb_spec 0 (pl_Replicas new)); [done|]. split_and!; [lia|tauto..].
  - intros size Hs. by eapply validateOSDiskProfile_nil.
  - apply validateOSDiskProfile_types in Hdisk. tauto.
  - apply validateOSDiskProfile_types in Hdisk. tauto.
  - intros Ht. rewrite Ht, String.eqb_refl in Hn8. by destruct (pl_AutoRepair new).
  - intros t Ht. rewrite Minimum_nil in Hn14. rewrite Maximum_nil in Hn. specialize (Hn14 _ Ht). specialize (Hn _ Ht). lia.
  - exact Hsize.
  - intros k v Hk. apply forbiddenLabel_nil with (path := Child path "labels").
    apply (proj1 (flat_map_nil_iff _ _) Hn12 (k, v)). by apply elem_of_map_to_list.
  - intros t Ht. apply EachSliceVal_nil with (a := t) in Hn13 as [p Hp]; [|done].
    unfold validateTaint in Hp. split_errors Hp. apply Enum_nil in Hp0. by apply RequiredValue_nil in Hp1.
Qed.

Lemma node_pool_name op new old id :
  ValidateNodePool (V := V) op new old = [] → pd_ID new = Some id →
  resourceIDOk nodePoolResourceType id ∧ poolNameOk (rid_Name id).
Proof.
  unfold ValidateNodePool, validateNodePool. intros Hn Hid. rewrite Hid in Hn. split_errors Hn.
  rewrite RestrictedResourceID_nil in Hn1. specialize (Hn1 _ eq_refl). split; [exact Hn1|].
  destruct Hn1 as (_ & Hne & _). apply (MatchesRegex_nil _ _ _ _ Hne) in Hn2.
  apply nameOf_spec in Hn2 as (c & rest & Hs & Hc & Hl & Hf & Hlast).
  - by exists c, rest.
  - intros d Hd. unfold dashed. rewrite Hd. apply orb_true_r.
Qed.

(** (C38) A node pool that passes the static validation is within all limits: its node
    count (zero when it scales itself; at most 200 outside the availability zones),
    the bounds of its autoscaling, the size, the type and the storage account type of
    its disk, automatic repair of ephemeral disks, drain timeout, VM size, refused
    labels, the effects and keys of taints, and the shape of its resource ID and name. *)
Theorem valid_node_pool_in_range op new old :
  ValidateNodePool (V := V) op new old = [] →
  poolInRange (pd_Properties new) ∧
  ∀ id, pd_ID new = Some id → resourceIDOk nodePoolResourceType id ∧ poolNameOk (rid_Name id).
Proof.
  intros Hv. split; [|intros id; by eapply node_pool_name].
  unfold ValidateNodePool, validateNodePool in Hv. rewrite !app_nil_iff in Hv.
  destruct Hv as (_ & _ & _ & Hp & _). by eapply validateNodePoolProperties_range.
Qed.

(** What an update may not change. *)
Record poolUnchanged (new old : PoolDocument) : Prop := {
  pu_id : DeepEqual (pd_ID new) (pd_ID old) = true;
  pu_location : tr_Location (pd_TrackedResource new) = tr_Location (pd_TrackedResource old);
  pu_state : pl_ProvisioningState (pd_Properties new) = pl_ProvisioningState (pd_Properties old);
  pu_group : vp_ChannelGroup (pl_Version (pd_Properties new)) = vp_ChannelGroup (pl_Version (pd_Properties old));
  pu_repair : pl_AutoRepair (pd_Properties new) = pl_AutoRepair (pd_Properties old);
  pu_service : pd_ClusterServiceID new = pd_ClusterServiceID old;
  pu_subnet : ToLower <$> (rid_String <$> pf_SubnetID (pl_Platform (pd_Properties new)))
    = ToLower <$> (rid_String <$> pf_SubnetID (pl_Platform (pd_Properties old)));
  pu_vmsize : pf_VMSize (pl_Platform (pd_Properties new)) = pf_VMSize (pl_Platform (pd_Properties old));
  pu_encryption : pf_EnableEncryptionAtHost (pl_Platform (pd_Properties new))
    = pf_EnableEncryptionAtHost (pl_Platform (pd_Properties old));
  pu_disk : DeepEqual (pf_OSDisk (pl_Platform (pd_Properties new))) (pf_OSDisk (pl_Platform (pd_Properties old))) = true;
  pu_zone : pf_AvailabilityZone (pl_Platform (pd_Properties new)) = pf_AvailabilityZone (pl_Platform (pd_Properties old));
}.

Lemma rejectChannelGroup_nil op path new old :
  op_Type op = Update → rejectUnsupportedChannelGroupUpdate op path new (Some old) = [] → new = old.
Proof.
  intros Hop. unfold rejectUnsupportedChannelGroupUpdate. rewrite (bool_decide_true _ Hop). cbn [negb].
  by destruct (String.eqb_spec new old).
Qed.

Lemma DeepEqual_resource (a b : option ResourceID) :
  DeepEqual a b = true ↔ ToLower <$> (rid_String <$> a) = ToLower <$> (rid_String <$> b).
Proof.
  destruct a, b; simpl; [|done..]. unfold DeepEqual, option_semantic, DeepEqual, ResourceID_semantic.
  rewrite EqualFold_spec. naive_solver congruence.
Qed.

Lemma DeepEqual_option_string (a b : option string) : DeepEqual a b = true ↔ a = b.
Proof.
  destruct a, b; simpl; [|done..]. unfold DeepEqual, option_semantic, DeepEqual, string_semantic.
  rewrite String.eqb_eq. naive_solver congruence.
Qed.

(** An accepted update of a node pool changes neither its identity, location and
    state nor its platform, repair policy and channel group; resource IDs may only
    change their letter case. *)
Theorem node_pool_update_immutable op new old :
  op_Type op = Update → ValidateNodePool (V := V) op new (Some old) = [] → poolUnchanged new old.
Proof.
  intros Hop. unfold ValidateNodePool, validateNodePool, validateTrackedResource, validateResource,
    validateNodePoolProperties, validateNodePoolPlatformProfile, validateNodePoolVersionProfile,
    validateNodePoolServiceProviderProperties.
  cbv zeta. rewrite !app_nil_iff, !(immutableByCompare_nil _ _ _ _ Hop), !(immutableByReflect_nil _ _ _ _ Hop).
  cbn [fmap option_fmap option_map mjoin option_join]. intros Hv. decompose [and] Hv. clear Hv.
  split; try congruence; try done.
  - by eapply rejectChannelGroup_nil.
  - by apply DeepEqual_option_string.
  - by apply DeepEqual_resource.
Qed.

(** With a valid configuration, autoscaling always leaves room for workers. *)
Lemma valid_pool_workers op new old scaling (view : NodePoolProperties) :
  ValidateNodePool (V := V) op new old = [] → pl_AutoScaling (pd_Properties new) = Some scaling →
  npp_AutoScaling view = Some scaling → canRunWorkerNodes view = true.
Proof.
  intros Hv Hs Hview. unfold canRunWorkerNodes. rewrite Hview. unfold ValidateNodePool, validateNodePool in Hv.
  rewrite !app_nil_iff in Hv. destruct Hv as (_ & _ & _ & Hp & _).
  apply validateNodePoolProperties_range in Hp. destruct (pr_autoscaling _ Hp _ Hs) as (_ & Hr & _).
  apply Z.ltb_lt. lia.
Qed.

End accepted_pools.

(** ** Samples *)

#[local] Existing Instances Release.semver Release.laws.
#[local] Existing Instances KubernetesReference.validators KubernetesReference.laws.

Module PoolDocuments.

Definition poolID : ResourceID := {|
  rid_SubscriptionID := "sub"; rid_ResourceGroupName := "rg"; rid_Name := "workers";
  rid_ResourceType := nodePoolResourceType; rid_String := "/subscriptions/sub/.../workers"; rid_Parent := None |}.

Definition document (zone : string) (replicas : Z) (labels : gmap string string) : PoolDocument := {|
  pd_TrackedResource := {|
    tr_Resource := {| res_ID := Some poolID; res_Name := "workers"; res_Type := nodePoolResourceType;
      res_SystemData := Some {| sd_CreatedBy := "me"; sd_CreatedAt := Some 1; sd_CreatedByType := "User" |} |};
    tr_Location := "uksouth" |};
  pd_Properties := {|
    pl_ProvisioningState := "Succeeded";
    pl_Version := {| vp_ID := "4.20.8"; vp_ChannelGroup := "stable" |};
    pl_Platform := {| pf_SubnetID := None; pf_VMSize := "Standard_D8s_v3"; pf_EnableEncryptionAtHost := false;
      pf_OSDisk := {| osDisk_SizeGiB := Some 64; osDisk_DiskStorageAccountType := "Premium_LRS";
        osDisk_EncryptionSetID := None; osDisk_DiskType := OsDiskTypeManaged |};
      pf_AvailabilityZone := zone |};
    pl_Replicas := replicas;
    pl_AutoRepair := true;
    pl_AutoScaling := None;
    pl_Labels := labels;
    pl_Taints := [];
    pl_NodeDrainTimeoutMinutes := None |};
  pd_ClusterServiceID := None |}.

Definition create : Operation := {| op_Type := Create; op_Options := [] |}.
Definition update : Operation := {| op_Type := Update; op_Options := [] |}.

(** A node pool of an availability zone has no upper limit at all; the limit of 500
    nodes of a cluster is not checked here. *)
Example zoned_pool_unlimited :
  ValidateNodePool (V := Release.t) create (document "1" 100000 ∅) None = [].
Proof. vm_compute. reflexivity. Qed.

Example unzoned_pool_limited :
  ValidateNodePool (V := Release.t) create (document EmptyString 201 ∅) None
  = [Invalid "properties.replicas" "201" (AboveMaximum 200)].
Proof. vm_compute. reflexivity. Qed.

Example role_labels_refused :
  ValidateNodePool (V := Release.t) create (document "1" 2 {[ "node-role.kubernetes.io/worker" := EmptyString ]}) None
  = [Invalid "properties.labels[node-role.kubernetes.io/worker]" "node-role.kubernetes.io/worker" LabelKeyNotAllowed].
Proof. vm_compute. reflexivity. Qed.

End PoolDocuments.

Lemma valid_node_pool_in_range_witness : poolNameOk "workers".
Proof.
  destruct (valid_node_pool_in_range (V := Release.t) PoolDocuments.create (PoolDocuments.document "1" 3 ∅) None)
    as [_ Hid].
  - vm_compute. reflexivity.
  - exact (proj2 (Hid PoolDocuments.poolID eq_refl)).
Defined.

Lemma node_pool_update_immutable_witness :
  pf_VMSize (pl_Platform (pd_Properties (PoolDocuments.document "1" 3 ∅))) = "Standard_D8s_v3".
Proof.
  destruct (node_pool_update_immutable (V := Release.t) PoolDocuments.update (PoolDocuments.document "1" 3 ∅)
    (PoolDocuments.document "1" 5 ∅) eq_refl) as [_ _ _ _ _ _ _ Hsize _ _ _].
  - vm_compute. reflexivity.
  - exact Hsize.
Defined.
