(* ===== verification/ClusterValidation.v ===== *)
(** * Static validation of clusters

    [internal/validation/validate_cluster.go] but for the version profile, which is in
    [VersionValidation].  [parse] is [azcorearm.ParseResourceID] and [parseURL] tells
    whether [url.Parse] succeeds.  The rewriting of field paths for an API version
    ([RewriteValidationFieldPaths]) only renames paths and is left out.  A struct with
    a single field is that field. *)
From S2P Require Import Prelude GoStrings GoNetip GoRegexp RolloutTypes VersionRules Admission FieldValidation.
From S2P Require Import NodePoolAdmission ClusterAdmission ClusterChecks VersionValidation.

Local Open Scope string_scope.
Local Open Scope Z_scope.

(** ** Constants *)

Definition NetworkTypeOVNKubernetes : string := "OVNKubernetes".
Definition ValidNetworkTypes : list string := [NetworkTypeOVNKubernetes; "Other"].
Definition ValidOutboundTypes : list string := ["LoadBalancer"].
Definition VisibilityPublic : string := "Public".
Definition VisibilityPrivate : string := "Private".
Definition ValidVisibility : list string := [VisibilityPublic; VisibilityPrivate].
Definition ValidIngressTypes : list string := ["Public"; "Private"].
Definition KeyVaultVisibilityPrivate : string := "Private".
Definition ValidKeyVaultVisibility : list string := ["Public"; KeyVaultVisibilityPrivate].
Definition CustomerManagedEncryptionTypeKMS : string := "KMS".
Definition ValidCustomerManagedEncryptionType : list string := [CustomerManagedEncryptionTypeKMS].
Definition ValidEtcdDataEncryptionKeyManagementModeType : list string :=
  [EtcdDataEncryptionKeyManagementModeTypeCustomerManaged].
Definition ValidClusterImageRegistryStates : list string := ["Disabled"; "Enabled"].
Definition ValidMirrorSourcePolicies : list string := ["AllowContactingSource"].
Definition ValidCryptoRestrictions : list string := ["None"; "FIPS"].
Definition KmsKeyVaultTypeManagedHSM : string := "ManagedHSM".
Definition validKmsKeyVaultTypes : list string := ["KeyVault"; KmsKeyVaultTypeManagedHSM].
Definition ValidManagedServiceIdentityTypes : list string :=
  ["None"; "SystemAssigned"; "SystemAssigned,UserAssigned"; "UserAssigned"].

Definition ManagedIdentitiesDataPlaneIdentityURLOptionalOperationOption : string :=
  "ManagedIdentitiesDataPlaneIdentityURLOptional".
Definition clusterResourceType : string := "Microsoft.RedHatOpenShift/hcpOpenShiftClusters".
Definition subnetResourceType : string := "Microsoft.Network/virtualNetworks/subnets".
Definition networkSecurityGroupResourceType : string := "Microsoft.Network/networkSecurityGroups".
Definition userAssignedIdentityResourceType : string := "Microsoft.ManagedIdentity/userAssignedIdentities".
Definition APIVersionV20251223Preview : string := "2025-12-23-preview".

Definition APIVersion_GE (v other : string) : bool := negb (APIVersion_LT v other).

Definition platformImageContentSources : list string := [
  "quay.io/openshift-release-dev/ocp-v4.0-art-dev"; OcpV5ArtDevMirrorSource;
  "quay.io/openshift-release-dev/ocp-release"; "quay.io/openshift-release-dev/ocp-release-nightly"].
Definition IsPlatformImageContentSource (source : string) : bool := bool_decide (source ∈ platformImageContentSources).

(** ** The patterns of image registries *)

Definition resourceGroupNameErrorString : string :=
  "it must be max 90 characters and only letters, digits, underscores (_), hyphens (-), periods (.), and parentheses (( )) are allowed, and it cannot end with a period '.'.".

Definition hostLabel : regexp :=
  Or (OneOf isAlphanumeric) (Then (OneOf isAlphanumeric) (Then (Many (OneOf dashed)) (OneOf isAlphanumeric))).
Definition dottedLabel : regexp := Then (literal ".") hostLabel.
Definition hostAndPort : regexp :=
  Then hostLabel (Then (maybe (some dottedLabel)) (maybe (Then (literal ":") (some (OneOf isNumeral))))).
Definition pathWord : regexp := some (OneOf lowerOrNumeral).
Definition pathSeparator : regexp :=
  Or (OneOf (λ c, isByte "." c || isByte "_" c)) (Or (Then (literal "_") (literal "_")) (Many (literal "-"))).
Definition pathElement : regexp := Then (literal "/") (Then pathWord (maybe (some (Then pathSeparator pathWord)))).

Definition imageDigestMirroredRegistryRegex : regexp := Then hostAndPort (maybe (some pathElement)).
Definition imageDigestSourceRegistryRegex : regexp :=
  Or (Then (literal "*") (some dottedLabel)) imageDigestMirroredRegistryRegex.

(** ** Documents *)

Record NetworkProfile := {
  nw_NetworkType : string;
  nw_PodCIDR : string;
  nw_ServiceCIDR : string;
  nw_MachineCIDR : string;
  nw_HostPrefix : Z;
}.

Record CustomerAPIProfile := { api_Visibility : string; api_AuthorizedCIDRs : option (list string) }.

Record UserAssignedIdentitiesProfile := {
  ua_ControlPlaneOperators : gmap string (option ResourceID);
  ua_DataPlaneOperators : gmap string (option ResourceID);
  ua_ServiceManagedIdentity : option ResourceID;
}.

Record CustomerPlatformProfile := {
  cpf_ManagedResourceGroup : string;
  cpf_SubnetID : option ResourceID;
  cpf_VnetIntegrationSubnetID : option ResourceID;
  cpf_OutboundType : string;
  cpf_NetworkSecurityGroupID : option ResourceID;
  cpf_OperatorsAuthentication : UserAssignedIdentitiesProfile;
  cpf_PullManagedIdentity : option ResourceID;
}.

Record ClusterAutoscalingProfile := {
  as_MaxNodesTotal : Z;
  as_MaxPodGracePeriodSeconds : Z;
  as_MaxNodeProvisionTimeSeconds : Z;
  as_PodPriorityThreshold : Z;
}.

Record KmsKey := { key_Name : string; key_VaultName : string; key_Version : string }.
Record KmsEncryptionProfile := { kms_Visibility : string; kms_ActiveKey : KmsKey; kms_KeyVaultType : string }.
Record CustomerManagedEncryptionProfile := { cm_EncryptionType : string; cm_Kms : option KmsEncryptionProfile }.
Record EtcdDataEncryptionProfile := {
  de_KeyManagementMode : string;
  de_CustomerManaged : option CustomerManagedEncryptionProfile;
}.

Record ImageDigestMirror := {
  idm_Source : string;
  idm_Mirrors : option (list string);
  idm_MirrorSourcePolicy : string;
}.

Record ClusterCustomerProperties := {
  ccp_Version : VersionProfile;
  ccp_BaseDomainPrefix : string;
  ccp_Network : NetworkProfile;
  ccp_API : CustomerAPIProfile;
  ccp_IngressType : string;
  ccp_Platform : CustomerPlatformProfile;
  ccp_Autoscaling : ClusterAutoscalingProfile;
  ccp_NodeDrainTimeoutMinutes : Z;
  ccp_Etcd : EtcdDataEncryptionProfile;
  ccp_ClusterImageRegistryState : string;
  ccp_ImageDigestMirrors : option (list ImageDigestMirror);
  ccp_CryptoRestrictions : string;
}.

Record UserAssignedIdentity := { uai_ClientID : option string; uai_PrincipalID : option string }.
Record ManagedServiceIdentity := {
  msi_PrincipalID : string;
  msi_TenantID : string;
  msi_Type : string;
  msi_UserAssignedIdentities : gmap string (option UserAssignedIdentity);
}.

(** [ClusterServiceProviderProperties], the fields that are validated. *)
Record ClusterServiceProperties (V : Type) := {
  csp_ProvisioningState : string;
  csp_ClusterServiceID : option string;
  csp_BaseDomain : string;
  csp_ConsoleURL : string;
  csp_APIURL : string;
  csp_IssuerURL : string;
  csp_ExperimentalFeatures : ExperimentalFeatures V;
  csp_ManagedIdentitiesDataPlaneIdentityURL : string;
  csp_ClusterUID : string;
}.
Arguments csp_ProvisioningState {V}.
Arguments csp_ClusterServiceID {V}.
Arguments csp_BaseDomain {V}.
Arguments csp_ConsoleURL {V}.
Arguments csp_APIURL {V}.
Arguments csp_IssuerURL {V}.
Arguments csp_ExperimentalFeatures {V}.
Arguments csp_ManagedIdentitiesDataPlaneIdentityURL {V}.
Arguments csp_ClusterUID {V}.

Record ClusterResource (V : Type) := {
  cr_TrackedResource : TrackedResource;
  cr_Tags : tags;
  cr_CustomerProperties : ClusterCustomerProperties;
  cr_ServiceProviderProperties : ClusterServiceProperties V;
  cr_Identity : option ManagedServiceIdentity;
}.
Arguments cr_TrackedResource {V}.
Arguments cr_Tags {V}.
Arguments cr_CustomerProperties {V}.
Arguments cr_ServiceProviderProperties {V}.
Arguments cr_Identity {V}.

Definition cr_ID {V} (c : ClusterResource V) : option ResourceID := res_ID (tr_Resource (cr_TrackedResource c)).

#[export] Instance NetworkProfile_semantic : SemanticEqual NetworkProfile := λ a b,
  DeepEqual (nw_NetworkType a) (nw_NetworkType b)
  && DeepEqual (nw_PodCIDR a) (nw_PodCIDR b)
  && DeepEqual (nw_ServiceCIDR a) (nw_ServiceCIDR b)
  && DeepEqual (nw_MachineCIDR a) (nw_MachineCIDR b)
  && DeepEqual (nw_HostPrefix a) (nw_HostPrefix b).

#[export] Instance UserAssignedIdentitiesProfile_semantic : SemanticEqual UserAssignedIdentitiesProfile := λ a b,
  DeepEqual (ua_ControlPlaneOperators a) (ua_ControlPlaneOperators b)
  && DeepEqual (ua_DataPlaneOperators a) (ua_DataPlaneOperators b)
  && DeepEqual (ua_ServiceManagedIdentity a) (ua_ServiceManagedIdentity b).

(** ** The parts of a cluster *)

(** [safe.Field(old, f)] of a pointer field [f]. *)
Definition oldField {A B} (f : A → option B) (old : option A) : option B := mjoin (f <$> old).

Section parts.
Context {V : Type} `{Semver V} {fieldsOf : VersionFields V} `{FieldValidators}.
Context (parse : string → option ResourceID) (parseURL : string → bool).

Definition URL (path value : string) : list fieldError :=
  if parseURL value then [] else [Invalid path value Unspecified].

Definition ValidateUserAssignedIdentityLocation (path : string) (value : option ResourceID)
    (clusterSubscriptionID managedResourceGroupName : string) : list fieldError :=
  match value with
  | None => []
  | Some _ =>
      (SameSubscription path value clusterSubscriptionID
       ++ DifferentResourceGroupNameFromResourceID path value managedResourceGroupName)%list
  end.

Definition validateCustomerDNSProfile (op : Operation) (path newPrefix : string) (oldPrefix : option string) :
    list fieldError :=
  let p := Child path "baseDomainPrefix" in
  (immutableByCompare op p (Some newPrefix) oldPrefix
   ++ MaxLen p newPrefix 15
   ++ MatchesRegex p newPrefix rfc1035LabelRegex "(must be a valid DNS RFC 1035 label)")%list.

Definition validateServiceProviderDNSProfile (op : Operation) (path newDomain : string) (oldDomain : option string) :
    list fieldError :=
  immutableByCompare op (Child path "baseDomain") (Some newDomain) oldDomain.

(** [intersect]: a network that cannot be parsed intersects nothing. *)
Definition intersect (n1 n2 : option IPNet) : bool :=
  match n1, n2 with
  | Some n1, Some n2 => IPNet_Contains n2 (net_IP n1) || IPNet_Contains n1 (net_IP n2)
  | _, _ => false
  end.

Definition networkOf (cidr : string) : option IPNet := snd <$> ParseCIDR cidr.

(** A CIDR field: required, immutable, and an IPv4 network. *)
Definition networkCIDR (op : Operation) (path value : string) (old : option string) : list fieldError :=
  (RequiredValue path value ++ immutableByCompare op path (Some value) old ++ CIDRv4 path value)%list.

Definition validateNetworkProfile (op : Operation) (path : string) (newObj : NetworkProfile)
    (oldObj : option NetworkProfile) : list fieldError :=
  let podCIDR := networkOf (nw_PodCIDR newObj) in
  let serviceCIDR := networkOf (nw_ServiceCIDR newObj) in
  let machineCIDR := networkOf (nw_MachineCIDR newObj) in
  (RequiredValue (Child path "networkType") (nw_NetworkType newObj)
   ++ immutableByCompare op (Child path "networkType") (Some (nw_NetworkType newObj)) (nw_NetworkType <$> oldObj)
   ++ Enum (Child path "networkType") (nw_NetworkType newObj) ValidNetworkTypes
   ++ networkCIDR op (Child path "podCidr") (nw_PodCIDR newObj) (nw_PodCIDR <$> oldObj)
   ++ networkCIDR op (Child path "serviceCidr") (nw_ServiceCIDR newObj) (nw_ServiceCIDR <$> oldObj)
   ++ networkCIDR op (Child path "machineCidr") (nw_MachineCIDR newObj) (nw_MachineCIDR <$> oldObj)
   ++ RequiredNumber (Child path "hostPrefix") (nw_HostPrefix newObj)
   ++ immutableByCompare op (Child path "hostPrefix") (Some (nw_HostPrefix newObj)) (nw_HostPrefix <$> oldObj)
   ++ Minimum (Child path "hostPrefix") (Some (nw_HostPrefix newObj)) 23
   ++ Maximum (Child path "hostPrefix") (Some (nw_HostPrefix newObj)) 26
   ++ (if intersect machineCIDR serviceCIDR
       then [Invalid path (nw_MachineCIDR newObj) (NetworksOverlap (nw_MachineCIDR newObj) (nw_ServiceCIDR newObj))] else [])
   ++ (if intersect machineCIDR podCIDR
       then [Invalid path (nw_MachineCIDR newObj) (NetworksOverlap (nw_MachineCIDR newObj) (nw_PodCIDR newObj))] else [])
   ++ (if intersect serviceCIDR podCIDR
       then [Invalid path (nw_ServiceCIDR newObj) (NetworksOverlap (nw_ServiceCIDR newObj) (nw_PodCIDR newObj))]
       else []))%list.

Definition validateServiceProviderConsoleProfile (op : Operation) (path newURL : string) (oldURL : option string) :
    list fieldError :=
  immutableByCompare op (Child path "url") (Some newURL) oldURL.

(** An authorized range is an IPv4 address or an IPv4 network. *)
Definition validateCustomerAPIProfile (op : Operation) (path : string) (newObj : CustomerAPIProfile)
    (oldObj : option CustomerAPIProfile) : list fieldError :=
  let visibility := Child path "visibility" in
  let cidrs := Child path "authorizedCidrs" in
  let ranges := default [] (api_AuthorizedCIDRs newObj) in
  (RequiredValue visibility (api_Visibility newObj)
   ++ immutableByCompare op visibility (Some (api_Visibility newObj)) (api_Visibility <$> oldObj)
   ++ Enum visibility (api_Visibility newObj) ValidVisibility
   ++ MaxItems cidrs (api_AuthorizedCIDRs newObj) 500
   ++ MinItems cidrs (api_AuthorizedCIDRs newObj) 1
   ++ EachSliceVal cidrs ranges (λ p value, validate_Or p value [IPv4; CIDRv4])
   ++ EachSliceVal cidrs ranges RequiredValue
   ++ EachSliceVal cidrs ranges NoExtraWhitespace)%list.

Definition validateCustomerIngressProfile (op : Operation) (path newType : string) (oldType : option string) :
    list fieldError :=
  let p := Child path "type" in
  (RequiredValue p newType ++ immutableByCompare op p (Some newType) oldType ++ Enum p newType ValidIngressTypes)%list.

Definition validateServiceProviderAPIProfile (op : Operation) (path newURL : string) (oldURL : option string) :
    list fieldError :=
  immutableByCompare op (Child path "url") (Some newURL) oldURL.

Definition validateServiceProviderPlatformProfile (op : Operation) (path newURL : string) (oldURL : option string) :
    list fieldError :=
  immutableByCompare op (Child path "issuerUrl") (Some newURL) oldURL.

Definition validateContainerRegistryPullCredentials (path : string) (newObj : option ResourceID)
    (managedResourceGroup : string) : list fieldError :=
  match newObj with
  | None => []
  | Some _ =>
      (RestrictedResourceIDWithResourceGroup path newObj userAssignedIdentityResourceType
       ++ DifferentResourceGroupNameFromResourceID path newObj managedResourceGroup)%list
  end.

(** ** Operator identities *)

(** [record]: an identity that was seen already is refused. *)
Definition recordIdentity (observed : gset string) (entry : string * option ResourceID) : gset string * list fieldError :=
  match entry.2 with
  | None => (observed, [])
  | Some id =>
      let key := ToLower (rid_String id) in
      if bool_decide (key ∈ observed)
      then (observed, [Invalid entry.1 (rid_String id) (NotUnique (rid_String id))])
      else ({[ key ]} ∪ observed, [])
  end.

Fixpoint recordIdentities (observed : gset string) (entries : list (string * option ResourceID)) : list fieldError :=
  match entries with
  | [] => []
  | e :: rest => let '(observed', errs) := recordIdentity observed e in (errs ++ recordIdentities observed' rest)%list
  end.

(** The entries of a map in the order of their names, with their paths. *)
Definition sortedEntries {A} (path : string) (m : gmap string A) : list (string * A) :=
  (λ e : string * A, (Key path e.1, e.2))
    <$> sort_by (λ a b : string * A, string_less a.1 b.1) (map_to_list m).

Definition validateManagedIdentitiesUniqueWithinCluster (path : string) (newObj : UserAssignedIdentitiesProfile) :
    list fieldError :=
  recordIdentities ∅
    (sortedEntries (Child path "controlPlaneOperators") (ua_ControlPlaneOperators newObj)
     ++ sortedEntries (Child path "dataPlaneOperators") (ua_DataPlaneOperators newObj)
     ++ [(Child path "serviceManagedIdentity", ua_ServiceManagedIdentity newObj)])%list.

(** The four checks of a map of operator identities. *)
Definition operatorMap (op : Operation) (path : string) (newMap : gmap string (option ResourceID))
    (oldMap : option (gmap string (option ResourceID))) : list fieldError :=
  let old := default ∅ oldMap in
  (immutableByReflect op path newMap old
   ++ EachMapKey op path newMap old RequiredValue
   ++ EachMapVal path newMap old (λ p value _, RequiredPointer p (bool_decide (is_Some value)))
   ++ EachMapVal path newMap old (λ p value _, newRestrictedResourceID userAssignedIdentityResourceType p value))%list.

Definition validateUserAssignedIdentitiesProfile (op : Operation) (path : string) (newObj : UserAssignedIdentitiesProfile)
    (oldObj : option UserAssignedIdentitiesProfile) : list fieldError :=
  let service := Child path "serviceManagedIdentity" in
  (operatorMap op (Child path "controlPlaneOperators") (ua_ControlPlaneOperators newObj) (ua_ControlPlaneOperators <$> oldObj)
   ++ operatorMap op (Child path "dataPlaneOperators") (ua_DataPlaneOperators newObj) (ua_DataPlaneOperators <$> oldObj)
   ++ immutableByReflect op service (ua_ServiceManagedIdentity newObj) (oldField ua_ServiceManagedIdentity oldObj)
   ++ RestrictedResourceIDWithResourceGroup service (ua_ServiceManagedIdentity newObj) userAssignedIdentityResourceType
   ++ validateManagedIdentitiesUniqueWithinCluster path newObj)%list.

Definition validateOperatorsAuthenticationProfile (op : Operation) (path : string) (newObj : UserAssignedIdentitiesProfile)
    (oldObj : option UserAssignedIdentitiesProfile) : list fieldError :=
  let p := Child path "userAssignedIdentities" in
  (immutableByReflect op p (Some newObj) oldObj ++ validateUserAssignedIdentitiesProfile op p newObj oldObj)%list.

Definition validateCustomerPlatformProfile (op : Operation) (path : string) (newObj : CustomerPlatformProfile)
    (oldObj : option CustomerPlatformProfile) : list fieldError :=
  let group := Child path "managedResourceGroup" in
  let subnet := Child path "subnetId" in
  let vnet := Child path "vnetIntegrationSubnetId" in
  let outbound := Child path "outboundType" in
  let nsg := Child path "networkSecurityGroupId" in
  let auth := Child path "operatorsAuthentication" in
  (RequiredValue group (cpf_ManagedResourceGroup newObj)
   ++ immutableByCompare op group (Some (cpf_ManagedResourceGroup newObj)) (cpf_ManagedResourceGroup <$> oldObj)
   ++ MatchesRegex group (cpf_ManagedResourceGroup newObj) resourceGroupNameRegex resourceGroupNameErrorString
   ++ RequiredPointer subnet (bool_decide (is_Some (cpf_SubnetID newObj)))
   ++ immutableByReflect op subnet (cpf_SubnetID newObj) (oldField cpf_SubnetID oldObj)
   ++ RestrictedResourceIDWithResourceGroup subnet (cpf_SubnetID newObj) subnetResourceType
   ++ immutableByReflect op vnet (cpf_VnetIntegrationSubnetID newObj) (oldField cpf_VnetIntegrationSubnetID oldObj)
   ++ match cpf_VnetIntegrationSubnetID newObj with
      | None => []
      | Some id =>
          RestrictedResourceIDWithResourceGroup vnet (Some id) subnetResourceType
          ++ DifferentResourceGroupNameFromResourceID vnet (Some id) (cpf_ManagedResourceGroup newObj)
          ++ SameVirtualNetwork vnet (Some id) (cpf_SubnetID newObj)
      end
   ++ RequiredValue outbound (cpf_OutboundType newObj)
   ++ immutableByCompare op outbound (Some (cpf_OutboundType newObj)) (cpf_OutboundType <$> oldObj)
   ++ Enum outbound (cpf_OutboundType newObj) ValidOutboundTypes
   ++ RequiredPointer nsg (bool_decide (is_Some (cpf_NetworkSecurityGroupID newObj)))
   ++ immutableByReflect op nsg (cpf_NetworkSecurityGroupID newObj) (oldField cpf_NetworkSecurityGroupID oldObj)
   ++ RestrictedResourceIDWithResourceGroup nsg (cpf_NetworkSecurityGroupID newObj) networkSecurityGroupResourceType
   ++ immutableByReflect op auth (Some (cpf_OperatorsAuthentication newObj)) (cpf_OperatorsAuthentication <$> oldObj)
   ++ validateOperatorsAuthenticationProfile op auth (cpf_OperatorsAuthentication newObj)
        (cpf_OperatorsAuthentication <$> oldObj)
   ++ validateContainerRegistryPullCredentials (Child (Child path "containerRegistry") "managedIdentity")
        (cpf_PullManagedIdentity newObj) (cpf_ManagedResourceGroup newObj))%list.

(** ** Scaling, encryption, images *)

Definition validateClusterAutoscalingProfile (path : string) (newObj : ClusterAutoscalingProfile) : list fieldError :=
  let grace := Child path "maxPodGracePeriodSeconds" in
  let provision := Child path "maxNodeProvisionTimeSeconds" in
  (Minimum (Child path "maxNodesTotal") (Some (as_MaxNodesTotal newObj)) 0
   ++ Maximum (Child path "maxNodesTotal") (Some (as_MaxNodesTotal newObj)) 500
   ++ RequiredNumber grace (as_MaxPodGracePeriodSeconds newObj)
   ++ Minimum grace (Some (as_MaxPodGracePeriodSeconds newObj)) 1
   ++ RequiredNumber provision (as_MaxNodeProvisionTimeSeconds newObj)
   ++ Minimum provision (Some (as_MaxNodeProvisionTimeSeconds newObj)) 1
   ++ RequiredNumber (Child path "podPriorityThreshold") (as_PodPriorityThreshold newObj))%list.

(** The key version is immutable for API versions before 2026-06-30-preview. *)
Definition validateKmsKey (op : Operation) (path : string) (newObj : KmsKey) (oldObj : option KmsKey) : list fieldError :=
  let apiVersion := APIVersionFromOptions (op_Options op) in
  (immutableByCompare op (Child path "name") (Some (key_Name newObj)) (key_Name <$> oldObj)
   ++ RequiredValue (Child path "name") (key_Name newObj)
   ++ MaxLen (Child path "name") (key_Name newObj) 255
   ++ immutableByCompare op (Child path "vaultName") (Some (key_VaultName newObj)) (key_VaultName <$> oldObj)
   ++ RequiredValue (Child path "vaultName") (key_VaultName newObj)
   ++ MaxLen (Child path "vaultName") (key_VaultName newObj) 255
   ++ (if negb (String.eqb apiVersion EmptyString) && APIVersion_LT apiVersion APIVersionV20260630Preview
       then immutableByCompare op (Child path "version") (Some (key_Version newObj)) (key_Version <$> oldObj) else [])
   ++ RequiredValue (Child path "version") (key_Version newObj)
   ++ AzureKeyVaultKeyVersion (Child path "version") (key_Version newObj))%list.

Definition validateKmsEncryptionProfile (op : Operation) (path : string) (newObj oldObj : option KmsEncryptionProfile) :
    list fieldError :=
  match newObj with
  | None => []
  | Some new =>
      let visibility := Child path "visibility" in
      let vault := Child path "keyVaultType" in
      (immutableByCompare op visibility (Some (kms_Visibility new)) (kms_Visibility <$> oldObj)
       ++ RequiredValue visibility (kms_Visibility new)
       ++ Enum visibility (kms_Visibility new) ValidKeyVaultVisibility
       ++ validateKmsKey op (Child path "activeKey") (kms_ActiveKey new) (kms_ActiveKey <$> oldObj)
       ++ immutableByCompare op vault (Some (kms_KeyVaultType new)) (kms_KeyVaultType <$> oldObj)
       ++ Enum vault (kms_KeyVaultType new) validKmsKeyVaultTypes)%list
  end.

(** The discriminator of a profile and whether its member is set. *)
Definition kmsUnion (p : CustomerManagedEncryptionProfile) : string * bool :=
  (cm_EncryptionType p, bool_decide (is_Some (cm_Kms p))).
Definition customerManagedUnion (p : EtcdDataEncryptionProfile) : string * bool :=
  (de_KeyManagementMode p, bool_decide (is_Some (de_CustomerManaged p))).

Definition validateCustomerManagedEncryptionProfile (op : Operation) (path : string)
    (newObj oldObj : option CustomerManagedEncryptionProfile) : list fieldError :=
  match newObj with
  | None => []
  | Some new =>
      let type := Child path "encryptionType" in
      (immutableByCompare op type (Some (cm_EncryptionType new)) (cm_EncryptionType <$> oldObj)
       ++ Enum type (cm_EncryptionType new) ValidCustomerManagedEncryptionType
       ++ DiscriminatedUnion op path "KMS" (kmsUnion new) (kmsUnion <$> oldObj)
       ++ validateKmsEncryptionProfile op (Child path "kms") (cm_Kms new) (oldField cm_Kms oldObj))%list
  end.

Definition validateEtcdDataEncryptionProfile (op : Operation) (path : string) (newObj : EtcdDataEncryptionProfile)
    (oldObj : option EtcdDataEncryptionProfile) : list fieldError :=
  let mode := Child path "keyManagementMode" in
  (RequiredValue mode (de_KeyManagementMode newObj)
   ++ immutableByCompare op mode (Some (de_KeyManagementMode newObj)) (de_KeyManagementMode <$> oldObj)
   ++ Enum mode (de_KeyManagementMode newObj) ValidEtcdDataEncryptionKeyManagementModeType
   ++ DiscriminatedUnion op path "CustomerManaged" (customerManagedUnion newObj) (customerManagedUnion <$> oldObj)
   ++ validateCustomerManagedEncryptionProfile op (Child path "customerManaged") (de_CustomerManaged newObj)
        (oldField de_CustomerManaged oldObj))%list.

Definition validateEtcdProfile (op : Operation) (path : string) (newObj : EtcdDataEncryptionProfile)
    (oldObj : option EtcdDataEncryptionProfile) : list fieldError :=
  validateEtcdDataEncryptionProfile op (Child path "dataEncryption") newObj oldObj.

Definition validateClusterImageRegistryProfile (op : Operation) (path newState : string) (oldState : option string) :
    list fieldError :=
  let p := Child path "state" in
  (RequiredValue p newState ++ immutableByCompare op p (Some newState) oldState
   ++ Enum p newState ValidClusterImageRegistryStates)%list.

Definition validateImageDigestMirror (path : string) (newObj : ImageDigestMirror) : list fieldError :=
  let source := Child path "source" in
  let mirrors := Child path "mirrors" in
  (RequiredValue source (idm_Source newObj)
   ++ ImageRegistry source (idm_Source newObj)
   ++ MatchesRegex source (idm_Source newObj) imageDigestSourceRegistryRegex "(must be a valid source image registry)"
   ++ (if IsPlatformImageContentSource (idm_Source newObj) then [Invalid source (idm_Source newObj) PlatformSource] else [])
   ++ MinItems mirrors (idm_Mirrors newObj) 1
   ++ MaxItems mirrors (idm_Mirrors newObj) 255
   ++ EachSliceVal mirrors (default [] (idm_Mirrors newObj)) ImageRegistry
   ++ EachSliceVal mirrors (default [] (idm_Mirrors newObj))
        (λ p value, MatchesRegex p value imageDigestMirroredRegistryRegex "(must be a valid mirrored image registry)")
   ++ Enum (Child path "mirrorSourcePolicy") (idm_MirrorSourcePolicy newObj) ValidMirrorSourcePolicies)%list.

(** ** Customer properties *)

Definition validateClusterCustomerProperties (op : Operation) (path : string) (newObj : ClusterCustomerProperties)
    (oldObj : option ClusterCustomerProperties) : list fieldError :=
  let network := Child path "network" in
  let drain := Child path "nodeDrainTimeoutMinutes" in
  let registry := Child path "clusterImageRegistry" in
  let mirrors := Child path "imageDigestMirrors" in
  let crypto := Child path "cryptoRestrictions" in
  (validateVersionProfile (V := V) op (Child path "version") (ccp_Version newObj) (ccp_Version <$> oldObj)
   ++ validateCustomerDNSProfile op (Child path "dns") (ccp_BaseDomainPrefix newObj) (ccp_BaseDomainPrefix <$> oldObj)
   ++ immutableByReflect op network (Some (ccp_Network newObj)) (ccp_Network <$> oldObj)
   ++ validateNetworkProfile op network (ccp_Network newObj) (ccp_Network <$> oldObj)
   ++ validateCustomerAPIProfile op (Child path "api") (ccp_API newObj) (ccp_API <$> oldObj)
   ++ validateCustomerIngressProfile op (Child path "ingress") (ccp_IngressType newObj) (ccp_IngressType <$> oldObj)
   ++ validateCustomerPlatformProfile op (Child path "platform") (ccp_Platform newObj) (ccp_Platform <$> oldObj)
   ++ validateClusterAutoscalingProfile (Child path "autoscaling") (ccp_Autoscaling newObj)
   ++ Minimum drain (Some (ccp_NodeDrainTimeoutMinutes newObj)) 0
   ++ Maximum drain (Some (ccp_NodeDrainTimeoutMinutes newObj)) 10080
   ++ validateEtcdProfile op (Child path "etcd") (ccp_Etcd newObj) (ccp_Etcd <$> oldObj)
   ++ immutableByReflect op registry (Some (ccp_ClusterImageRegistryState newObj)) (ccp_ClusterImageRegistryState <$> oldObj)
   ++ validateClusterImageRegistryProfile op registry (ccp_ClusterImageRegistryState newObj)
        (ccp_ClusterImageRegistryState <$> oldObj)
   ++ MaxItems mirrors (ccp_ImageDigestMirrors newObj) 240
   ++ EachSliceVal mirrors (default [] (ccp_ImageDigestMirrors newObj)) validateImageDigestMirror
   ++ immutableByCompare op crypto (Some (ccp_CryptoRestrictions newObj)) (ccp_CryptoRestrictions <$> oldObj)
   ++ Enum crypto (ccp_CryptoRestrictions newObj) ValidCryptoRestrictions)%list.

(** ** Properties of the service *)

Definition validateClusterServiceProviderProperties (op : Operation) (path : string) (newObj : ClusterServiceProperties V)
    (oldObj : option (ClusterServiceProperties V)) : list fieldError :=
  let url := Child path "managedIdentitiesDataPlaneIdentityURL" in
  let uid := Child path "clusterUID" in
  let urlRequired := match oldObj with
                     | None => true
                     | Some old => negb (String.eqb (csp_ManagedIdentitiesDataPlaneIdentityURL old) EmptyString)
                     end in
  ((if bool_decide (op_Type op = Create)
       && String.eqb (ef_ControlPlaneAvailability (csp_ExperimentalFeatures newObj)) SingleReplicaControlPlane
    then [Forbidden (Child (Child path "experimentalFeatures") "singleReplica") SingleReplicaDisabled] else [])
   ++ immutableByCompare op (Child path "provisioningState") (Some (csp_ProvisioningState newObj))
        (csp_ProvisioningState <$> oldObj)
   ++ immutableByReflect op (Child path "clusterServiceID") (csp_ClusterServiceID newObj)
        (oldField csp_ClusterServiceID oldObj)
   ++ validateServiceProviderDNSProfile op (Child path "dns") (csp_BaseDomain newObj) (csp_BaseDomain <$> oldObj)
   ++ immutableByReflect op (Child path "console") (Some (csp_ConsoleURL newObj)) (csp_ConsoleURL <$> oldObj)
   ++ validateServiceProviderConsoleProfile op (Child path "console") (csp_ConsoleURL newObj) (csp_ConsoleURL <$> oldObj)
   ++ validateServiceProviderAPIProfile op (Child path "api") (csp_APIURL newObj) (csp_APIURL <$> oldObj)
   ++ immutableByReflect op (Child path "platform") (Some (csp_IssuerURL newObj)) (csp_IssuerURL <$> oldObj)
   ++ validateServiceProviderPlatformProfile op (Child path "platform") (csp_IssuerURL newObj) (csp_IssuerURL <$> oldObj)
   ++ immutableByCompare op url (Some (csp_ManagedIdentitiesDataPlaneIdentityURL newObj))
        (csp_ManagedIdentitiesDataPlaneIdentityURL <$> oldObj)
   ++ (if urlRequired && negb (HasOption op ManagedIdentitiesDataPlaneIdentityURLOptionalOperationOption)
       then RequiredValue url (csp_ManagedIdentitiesDataPlaneIdentityURL newObj) else [])
   ++ URL url (csp_ManagedIdentitiesDataPlaneIdentityURL newObj)
   ++ (if bool_decide (op_Type op = Create) then RequiredValue uid (csp_ClusterUID newObj) else [])
   ++ immutableByCompare op uid (Some (csp_ClusterUID newObj)) (csp_ClusterUID <$> oldObj))%list.

(** ** Identities of the resource *)

Definition validateUserAssignedIdentity (op : Operation) (path : string) (newObj oldObj : option UserAssignedIdentity) :
    list fieldError :=
  match newObj with
  | None => []
  | Some new =>
      (immutableByCompare op (Child path "clientId") (uai_ClientID new) (oldField uai_ClientID oldObj)
       ++ immutableByCompare op (Child path "principalId") (uai_PrincipalID new) (oldField uai_PrincipalID oldObj))%list
  end.

Definition validateManagedServiceIdentity (op : Operation) (path : string) (newObj oldObj : option ManagedServiceIdentity) :
    list fieldError :=
  match newObj with
  | None => []
  | Some new =>
      let identities := Child path "userAssignedIdentities" in
      let old := default ∅ (msi_UserAssignedIdentities <$> oldObj) in
      (immutableByCompare op (Child path "principalId") (Some (msi_PrincipalID new)) (msi_PrincipalID <$> oldObj)
       ++ immutableByCompare op (Child path "tenantId") (Some (msi_TenantID new)) (msi_TenantID <$> oldObj)
       ++ RequiredValue (Child path "type") (msi_Type new)
       ++ Enum (Child path "state") (msi_Type new) ValidManagedServiceIdentityTypes
       ++ EachMapKey op identities (msi_UserAssignedIdentities new) old RequiredValue
       ++ EachMapKey op identities (msi_UserAssignedIdentities new) old
            (newRestrictedResourceIDString parse userAssignedIdentityResourceType)
       ++ EachMapVal identities (msi_UserAssignedIdentities new) old
            (λ p value oldValue, validateUserAssignedIdentity op p value (mjoin oldValue)))%list
  end.

End parts.

(** ** The cluster as a whole *)

Section cluster.
Context {V : Type} `{Semver V} {fieldsOf : VersionFields V} `{FieldValidators}.
Context (parse : string → option ResourceID) (parseURL : string → bool).

Definition identitiesPath (name : string) : string :=
  "customerProperties.platform.operatorsAuthentication.userAssignedIdentities." +:+ name.

Definition operatorsOf (c : ClusterResource V) : UserAssignedIdentitiesProfile :=
  cpf_OperatorsAuthentication (ccp_Platform (cr_CustomerProperties c)).

(** One tag that names the SWIFT opt-out: whether it opts out, and its errors. *)
Definition disableSwiftTag (subnet : option ResourceID) (tag : string * string) : bool * list fieldError :=
  let '(key, value) := tag in
  if negb (EqualFold key TagClusterDisableSwift) then (false, [])
  else if String.eqb value "true" then
    (true, match subnet with Some _ => [Invalid (Key "tags" key) value SwiftWithSubnet] | None => [] end)
  else if String.eqb value "false" then (false, [])
  else (false, [Invalid (Key "tags" key) value NotABoolean]).

Definition privateKms (c : ClusterResource V) : bool :=
  match de_CustomerManaged (ccp_Etcd (cr_CustomerProperties c)) with
  | Some cm => match cm_Kms cm with
               | Some kms => String.eqb (kms_Visibility kms) KeyVaultVisibilityPrivate
               | None => false
               end
  | None => false
  end.

Definition validateClusterVNetIntegrationSubnetID (op : Operation) (newCluster : ClusterResource V) : list fieldError :=
  let subnetPath := "customerProperties.platform.vnetIntegrationSubnetId" in
  let subnet := cpf_VnetIntegrationSubnetID (ccp_Platform (cr_CustomerProperties newCluster)) in
  let swiftTags := if HasOption op FeatureExperimentalReleaseFeatures
                   then disableSwiftTag subnet <$> cr_Tags newCluster else [] in
  let disableSwift := existsb fst swiftTags in
  (flat_map snd swiftTags
   ++ match subnet with
      | Some _ => []
      | None =>
          (if String.eqb (api_Visibility (ccp_API (cr_CustomerProperties newCluster))) VisibilityPrivate
           then [Required subnetPath (RequiredWhen "customerProperties.api.visibility")] else [])
          ++ (if privateKms newCluster
              then [Required subnetPath (RequiredWhen "customerProperties.etcd.dataEncryption.customerManaged.kms.visibility")]
              else [])
          ++ (if bool_decide (op_Type op = Create)
                 && APIVersion_GE (APIVersionFromOptions (op_Options op)) APIVersionV20251223Preview && negb disableSwift
              then [Required subnetPath (RequiredWhen "disable-swift")] else [])
      end)%list.

Definition minPrivateKASOpenShiftVersion : V := VersionOf 4 22 0.
Definition minManagedHSMOpenShiftVersion : V := VersionOf 4 22 0.

(** Whether the requested release line is below [minimum]; a version that cannot be
    parsed is reported elsewhere. *)
Definition requestedBelow (versionID : string) (minimum : V) : bool :=
  if String.eqb versionID EmptyString then false
  else match ParseTolerant versionID with
       | None => false
       | Some requested => LT (VersionOf (Major requested) (Minor requested) 0) minimum
       end.

Definition validatePrivateKASRequiresMinimumVersion (newCluster : ClusterResource V) : list fieldError :=
  let visibility := api_Visibility (ccp_API (cr_CustomerProperties newCluster)) in
  if negb (String.eqb visibility VisibilityPrivate) then []
  else if requestedBelow (vp_ID (ccp_Version (cr_CustomerProperties newCluster))) minPrivateKASOpenShiftVersion
  then [Invalid "customerProperties.api.visibility" visibility (RequiresVersion 4 22)] else [].

Definition managedHSM (c : ClusterResource V) : bool :=
  match de_CustomerManaged (ccp_Etcd (cr_CustomerProperties c)) with
  | Some cm => match cm_Kms cm with
               | Some kms => String.eqb (kms_KeyVaultType kms) KmsKeyVaultTypeManagedHSM
               | None => false
               end
  | None => false
  end.

Definition validateManagedHSMRequiresMinimumVersion (newCluster : ClusterResource V) : list fieldError :=
  if negb (managedHSM newCluster) then []
  else if requestedBelow (vp_ID (ccp_Version (cr_CustomerProperties newCluster))) minManagedHSMOpenShiftVersion
  then [Forbidden "customerProperties.etcd.dataEncryption.customerManaged.kms.keyVaultType" (RequiresVersion 4 22)]
  else [].

Definition validateControlPlaneExactVersionPin (op : Operation) (newCluster : ClusterResource V) : list fieldError :=
  let tagPath := Key "tags" TagClusterControlPlaneExactVersion in
  let exact := ef_ControlPlaneExactVersion (csp_ExperimentalFeatures (cr_ServiceProviderProperties newCluster)) in
  let version := ccp_Version (cr_CustomerProperties newCluster) in
  if negb (HasOption op FeatureExperimentalReleaseFeatures) then []
  else match exact with
       | None => if String.eqb (vp_ChannelGroup version) ChannelGroupNightly then [Required tagPath NightlyNeedsPin] else []
       | Some pin =>
           match ParseTolerant (vp_ID version) with
           | None => []
           | Some requested =>
               if negb (Major requested =? Major pin) || negb (Minor requested =? Minor pin)
               then [Invalid tagPath (semver_String pin) PinOfOtherLine] else []
           end
       end.

(** *** Identities assigned to the resource and identities used by operators *)

Definition assignedKeys (c : ClusterResource V) : list string :=
  match cr_Identity c with
  | Some identity => (map_to_list (msi_UserAssignedIdentities identity)).*1
  | None => []
  end.

Definition newTally (keys : list string) : gmap string Z :=
  List.fold_left (λ m key, <[ToLower key := 0]> m) keys ∅.

(** [tallyIdentity] *)
Definition tallyIdentity (state : gmap string Z * list fieldError) (entry : string * option ResourceID) :
    gmap string Z * list fieldError :=
  match entry.2 with
  | None => state
  | Some id =>
      let key := ToLower (rid_String id) in
      match state.1 !! key with
      | Some n => (<[key := n + 1]> state.1, state.2)
      | None => (state.1, (state.2 ++ [Invalid entry.1 (rid_String id) NotAssigned])%list)
      end
  end.

(** Each operator identity with the path it is reported under. *)
Definition operatorEntries (name : string) (m : gmap string (option ResourceID)) : list (string * option ResourceID) :=
  (λ e : string * option ResourceID, (Key (identitiesPath name) e.1, e.2)) <$> map_to_list m.

Definition identityUse (tally : gmap string Z) (identity : string) : list fieldError :=
  let path := Key "identity.userAssignedIdentities" identity in
  match tally !! ToLower identity with
  | None => []
  | Some n =>
      if n =? 0 then [Invalid path identity AssignedNotUsed]
      else if n =? 1 then [] else [Invalid path identity UsedMultipleTimes]
  end.

Definition dataPlaneUse (tally : gmap string Z) (entry : string * option ResourceID) : list fieldError :=
  match entry.2 with
  | None => []
  | Some id => match tally !! ToLower (rid_String id) with
               | Some _ => [Invalid entry.1 (rid_String id) DataPlaneAssigned]
               | None => []
               end
  end.

Definition validateOperatorAuthenticationAgainstIdentities (newCluster : ClusterResource V) : list fieldError :=
  let operators := operatorsOf newCluster in
  let '(tally, errs) := List.fold_left tallyIdentity
    (operatorEntries "controlPlaneOperators" (ua_ControlPlaneOperators operators)
     ++ [(identitiesPath "serviceManagedIdentity", ua_ServiceManagedIdentity operators)])%list
    (newTally (assignedKeys newCluster), []) in
  (errs
   ++ flat_map (identityUse tally) (assignedKeys newCluster)
   ++ flat_map (dataPlaneUse tally) (operatorEntries "dataPlaneOperators" (ua_DataPlaneOperators operators)))%list.

Definition identityLocations (id : ResourceID) (group : string) (entries : list (string * option ResourceID)) :
    list fieldError :=
  flat_map (λ e : string * option ResourceID,
    ValidateUserAssignedIdentityLocation e.1 e.2 (rid_SubscriptionID id) group) entries.

Definition validateResourceIDsAgainstClusterID (newCluster : ClusterResource V) : list fieldError :=
  match cr_ID newCluster with
  | None => []
  | Some id =>
      let platform := ccp_Platform (cr_CustomerProperties newCluster) in
      let operators := operatorsOf newCluster in
      let group := cpf_ManagedResourceGroup platform in
      let sub := rid_SubscriptionID id in
      let path name := "customerProperties.platform." +:+ name in
      (DifferentResourceGroupName (path "managedResourceGroup") group (rid_ResourceGroupName id)
       ++ SameSubscription (path "subnetId") (cpf_SubnetID platform) sub
       ++ DifferentResourceGroupNameFromResourceID (path "subnetId") (cpf_SubnetID platform) group
       ++ SameSubscription (path "networkSecurityGroupId") (cpf_NetworkSecurityGroupID platform) sub
       ++ DifferentResourceGroupNameFromResourceID (path "networkSecurityGroupId") (cpf_NetworkSecurityGroupID platform) group
       ++ SameSubscription (path "vnetIntegrationSubnetId") (cpf_VnetIntegrationSubnetID platform) sub
       ++ SameSubscription (path "containerRegistry.managedIdentity") (cpf_PullManagedIdentity platform) sub
       ++ identityLocations id group (operatorEntries "controlPlaneOperators" (ua_ControlPlaneOperators operators))
       ++ identityLocations id group (operatorEntries "dataPlaneOperators" (ua_DataPlaneOperators operators))
       ++ ValidateUserAssignedIdentityLocation (identitiesPath "serviceManagedIdentity")
            (ua_ServiceManagedIdentity operators) sub group)%list
  end.

Definition ValidateCluster (op : Operation) (newCluster : ClusterResource V) (oldCluster : option (ClusterResource V)) :
    list fieldError :=
  (validateTrackedResource op "trackedResource" (cr_TrackedResource newCluster) (cr_TrackedResource <$> oldCluster)
   ++ RestrictedResourceIDWithResourceGroup "id" (cr_ID newCluster) clusterResourceType
   ++ match cr_ID newCluster with
      | None => []
      | Some id =>
          MaxLen "id" (rid_Name id) 54
          ++ MatchesRegex "id" (rid_Name id) clusterResourceNameRegex "(must be a valid DNS RFC 1035 label)"
      end
   ++ validateClusterCustomerProperties (V := V) op "customerProperties" (cr_CustomerProperties newCluster)
        (cr_CustomerProperties <$> oldCluster)
   ++ validateClusterServiceProviderProperties parseURL op "serviceProviderProperties"
        (cr_ServiceProviderProperties newCluster) (cr_ServiceProviderProperties <$> oldCluster)
   ++ validateManagedServiceIdentity parse op "identity" (cr_Identity newCluster) (oldField cr_Identity oldCluster)
   ++ validateResourceIDsAgainstClusterID newCluster
   ++ validateClusterVNetIntegrationSubnetID op newCluster
   ++ validatePrivateKASRequiresMinimumVersion newCluster
   ++ validateControlPlaneExactVersionPin op newCluster
   ++ validateManagedHSMRequiresMinimumVersion newCluster
   ++ validateOperatorAuthenticationAgainstIdentities newCluster)%list.

End cluster.
