(* ===== verification/ClusterIdentities.v ===== *)
(** * Which managed identities a cluster may use

    Theorems about the identity checks of [validate_cluster.go]: the identities
    assigned to the resource are exactly those its control plane operators and the
    service use, each once, and no identity serves twice. *)
From S2P Require Import Prelude GoStrings RolloutTypes VersionRules Admission FieldValidation.
From S2P Require Import ClusterAdmission ClusterChecks ClusterValidation.

Local Open Scope string_scope.
Local Open Scope Z_scope.

(** ** Identities up to letter case *)

Definition lowerID (id : ResourceID) : string := ToLower (rid_String id).

(** The identities of some entries; an entry without identity has none. *)
Definition idsOf {A} (entries : list (A * option ResourceID)) : list string :=
  omap (λ e, lowerID <$> e.2) entries.

Definition serviceIDs (p : UserAssignedIdentitiesProfile) : list string := option_list (lowerID <$> ua_ServiceManagedIdentity p).
Definition controlPlaneIDs (p : UserAssignedIdentitiesProfile) : list string := idsOf (map_to_list (ua_ControlPlaneOperators p)).
Definition dataPlaneIDs (p : UserAssignedIdentitiesProfile) : list string := idsOf (map_to_list (ua_DataPlaneOperators p)).

Lemma idsOf_app {A} (l k : list (A * option ResourceID)) : idsOf (l ++ k)%list = (idsOf l ++ idsOf k)%list.
Proof. apply omap_app. Qed.

Lemma idsOf_rename {A B} (f : A → B) (l : list (A * option ResourceID)) : idsOf ((λ e, (f e.1, e.2)) <$> l) = idsOf l.
Proof. induction l as [|[a [id|]] l IH]; [done|exact (f_equal (cons (lowerID id)) IH)|exact IH]. Qed.

Lemma idsOf_perm {A} (l k : list (A * option ResourceID)) : l ≡ₚ k → idsOf l ≡ₚ idsOf k.
Proof. intros Hp. unfold idsOf. by rewrite Hp. Qed.

Lemma idsOf_single {A} (a : A) (id : option ResourceID) : idsOf [(a, id)] = option_list (lowerID <$> id).
Proof. by destruct id. Qed.

Lemma idsOf_sortedEntries path (m : gmap string (option ResourceID)) : idsOf (sortedEntries path m) ≡ₚ idsOf (map_to_list m).
Proof. unfold sortedEntries. rewrite (idsOf_rename (Key path)). apply idsOf_perm, sort_by_perm. Qed.

Lemma idsOf_operatorEntries name (m : gmap string (option ResourceID)) : idsOf (operatorEntries name m) = idsOf (map_to_list m).
Proof. apply (idsOf_rename (Key (identitiesPath name))). Qed.

Lemma elem_of_idsOf {A} (l : list (A * option ResourceID)) k :
  k ∈ idsOf l ↔ ∃ a id, (a, Some id) ∈ l ∧ k = lowerID id.
Proof.
  unfold idsOf. rewrite list_elem_of_omap. split.
  - intros ([a [id|]] & Hin & [= <-]). eauto.
  - intros (a & id & Hin & ->). by exists (a, Some id).
Qed.

(** ** Uniqueness *)

Lemma recordIdentities_nil entries observed :
  recordIdentities observed entries = [] ↔ NoDup (idsOf entries) ∧ ∀ k, k ∈ idsOf entries → k ∉ observed.
Proof.
  revert observed. induction entries as [|[p [id|]] entries IH]; intros observed; simpl.
  - split; [intros _; split; [constructor|set_solver]|done].
  - change (idsOf ((p, Some id) :: entries)) with (lowerID id :: idsOf entries).
    unfold recordIdentity. simpl. fold (lowerID id). case_bool_decide as Hin; simpl.
    + split; [done|]. intros [_ Hall]. by destruct (Hall (lowerID id)); [left|].
    + rewrite IH, NoDup_cons. set_solver.
  - change (idsOf ((p, None) :: entries)) with (idsOf entries). apply IH.
Qed.

Lemma validateManagedIdentitiesUnique_nil path p :
  validateManagedIdentitiesUniqueWithinCluster path p = [] ↔ NoDup (controlPlaneIDs p ++ dataPlaneIDs p ++ serviceIDs p).
Proof.
  unfold validateManagedIdentitiesUniqueWithinCluster. rewrite recordIdentities_nil, !idsOf_app, !idsOf_sortedEntries, idsOf_single.
  fold (controlPlaneIDs p) (dataPlaneIDs p) (serviceIDs p). set_solver.
Qed.

(** ** The tally of uses *)

Definition uses (k : string) (l : list string) : Z := Z.of_nat (count_occ String.string_dec l k).

Lemma newTally_lookup keys k :
  newTally keys !! k = if bool_decide (k ∈ ToLower <$> keys) then Some 0 else None.
Proof.
  unfold newTally.
  assert (Hgen : ∀ m : gmap string Z, List.fold_left (λ m key, <[ToLower key := 0]> m) keys m !! k
    = if bool_decide (k ∈ ToLower <$> keys) then Some 0 else m !! k).
  { induction keys as [|key keys IH]; intros m; [done|]. cbn [List.fold_left].
    rewrite IH. case_bool_decide as Hin; case_bool_decide as Hin'; try done.
    - destruct Hin'. by right.
    - apply elem_of_cons in Hin' as [->|?]; [by rewrite lookup_insert_eq|done].
    - rewrite lookup_insert_ne; [done|]. intros <-. destruct Hin'. by left. }
  by rewrite Hgen, lookup_empty.
Qed.

Lemma tally_lookup entries state k :
  (List.fold_left tallyIdentity entries state).1 !! k = (λ n, n + uses k (idsOf entries)) <$> state.1 !! k.
Proof.
  revert state. induction entries as [|[p [id|]] entries IH]; intros [m errs]; simpl.
  - unfold uses. simpl. destruct (m !! k); simpl; [|done]. by rewrite Z.add_0_r.
  - rewrite IH. unfold tallyIdentity. simpl. fold (lowerID id).
    change (idsOf ((p, Some id) :: entries)) with (lowerID id :: idsOf entries).
    unfold uses. simpl. destruct (String.string_dec (lowerID id) k) as [Hk|Hk]; [subst k|];
      (destruct (m !! lowerID id) as [n|] eqn:En; simpl); rewrite ?lookup_insert_eq, ?lookup_insert_ne by done;
      rewrite ?En; simpl; try done. f_equal. lia.
  - rewrite IH. done.
Qed.

Lemma tally_errors entries state :
  (List.fold_left tallyIdentity entries state).2 = [] ↔
  state.2 = [] ∧ ∀ k, k ∈ idsOf entries → is_Some (state.1 !! k).
Proof.
  revert state. induction entries as [|[p [id|]] entries IH]; intros [m errs]; simpl.
  - split; [intros ->; split; [done|by intros k ?%elem_of_nil]|by intros [? _]].
  - change (idsOf ((p, Some id) :: entries)) with (lowerID id :: idsOf entries).
    rewrite IH. unfold tallyIdentity. simpl. fold (lowerID id). setoid_rewrite elem_of_cons.
    destruct (m !! lowerID id) as [n|] eqn:En; simpl.
    + setoid_rewrite lookup_insert_is_Some. split; intros [-> Hall]; (split; [done|]); intros k Hk.
      * destruct Hk as [->|Hk]; [by eexists|]. destruct (Hall k Hk) as [<-|[_ Hs]]; [by eexists|done].
      * destruct (decide (lowerID id = k)) as [He|He]; [by left|right]. split; [done|]. apply Hall. by right.
    + split; [by intros [?%app_eq_nil _]; naive_solver|].
      intros [-> Hall]. destruct (Hall (lowerID id)) as [? Hs]; [by left|]. by rewrite En in Hs.
  - rewrite IH. done.
Qed.

Section identities.
Context {V : Type}.

(** The identities assigned to the resource, up to letter case. *)
Definition assignedIDs (c : ClusterResource V) : list string := ToLower <$> assignedKeys c.

Definition usedIDs (c : ClusterResource V) : list string :=
  (controlPlaneIDs (operatorsOf c) ++ serviceIDs (operatorsOf c))%list.

Lemma identityUse_nil tally identity n :
  tally !! ToLower identity = Some n → identityUse tally identity = [] ↔ n = 1.
Proof.
  intros Ht. unfold identityUse. rewrite Ht.
  destruct (Z.eqb_spec n 0) as [->|H0]; [done|]. by destruct (Z.eqb_spec n 1).
Qed.

Lemma used_once l k : uses k l = 1 ↔ count_occ String.string_dec l k = 1%nat.
Proof. unfold uses. lia. Qed.

(** Every element counted once is being without duplicates. *)
Lemma once_NoDup (l assigned : list string) :
  ((∀ k, k ∈ l → k ∈ assigned) ∧ (∀ k, k ∈ assigned → uses k l = 1)) ↔ (NoDup l ∧ ∀ k, k ∈ l ↔ k ∈ assigned).
Proof.
  setoid_rewrite used_once. split.
  - intros [Hsub Hone]. split.
    + apply NoDup_ListNoDup, (NoDup_count_occ' String.string_dec). intros k Hk.
      apply Hone, Hsub. by apply list_elem_of_In.
    + intros k. split; [auto|]. intros Hk. apply list_elem_of_In, (count_occ_In String.string_dec). rewrite Hone by done. lia.
  - intros [Hnd Hiff]. split; [naive_solver|]. intros k Hk.
    apply (NoDup_count_occ' String.string_dec); [by apply NoDup_ListNoDup|]. by apply list_elem_of_In, Hiff.
Qed.

Lemma dataPlaneUse_nil tally entries :
  flat_map (dataPlaneUse tally) entries = [] ↔ ∀ k, k ∈ idsOf entries → tally !! k = None.
Proof.
  rewrite flat_map_nil_iff. setoid_rewrite elem_of_idsOf. split.
  - intros Hall k (a & id & Hin & ->). specialize (Hall _ Hin). unfold dataPlaneUse, lowerID in *. simpl in Hall.
    by destruct (tally !! ToLower (rid_String id)).
  - intros Hall [a [id|]] Hin; [|done]. unfold dataPlaneUse. simpl. fold (lowerID id).
    by rewrite (Hall (lowerID id)) by eauto.
Qed.

(** The final tally counts the uses of the assigned identities. *)
Lemma finalTally_lookup keys entries k :
  (List.fold_left tallyIdentity entries (newTally keys, [])).1 !! k
  = if bool_decide (k ∈ ToLower <$> keys) then Some (uses k (idsOf entries)) else None.
Proof. rewrite tally_lookup. simpl. rewrite newTally_lookup. by case_bool_decide. Qed.

Lemma assignedUse_nil keys entries :
  flat_map (identityUse (List.fold_left tallyIdentity entries (newTally keys, [])).1) keys = [] ↔
  ∀ k, k ∈ ToLower <$> keys → uses k (idsOf entries) = 1.
Proof.
  rewrite flat_map_nil_iff. setoid_rewrite list_elem_of_fmap.
  assert (Hl : ∀ key, key ∈ keys → (List.fold_left tallyIdentity entries (newTally keys, [])).1 !! ToLower key
    = Some (uses (ToLower key) (idsOf entries))).
  { intros key Hin. rewrite finalTally_lookup, bool_decide_true; [done|]. by apply list_elem_of_fmap_2. }
  split.
  - intros Hall k (key & -> & Hin). by apply (identityUse_nil _ _ _ (Hl key Hin)), Hall.
  - intros Hall key Hin. apply (identityUse_nil _ _ _ (Hl key Hin)). apply Hall. eauto.
Qed.

(** (C36) The identity checks accept a cluster exactly when the identities assigned to
    it are the ones its control plane operators and the service use, each of them
    once, and none of the data plane; and when no identity of the cluster is used
    twice.  Letter case does not count. *)
Theorem identities_used_exactly_once (c : ClusterResource V) path :
  let p := operatorsOf c in
  (validateOperatorAuthenticationAgainstIdentities c = [] ↔
     NoDup (usedIDs c) ∧ (∀ k, k ∈ usedIDs c ↔ k ∈ assignedIDs c) ∧ (∀ k, k ∈ dataPlaneIDs p → k ∉ assignedIDs c)) ∧
  (validateManagedIdentitiesUniqueWithinCluster path p = [] ↔
     NoDup (controlPlaneIDs p ++ dataPlaneIDs p ++ serviceIDs p)).
Proof.
  intros p. split; [|apply validateManagedIdentitiesUnique_nil].
  unfold validateOperatorAuthenticationAgainstIdentities. fold p.
  set (entries := (operatorEntries _ (ua_ControlPlaneOperators p) ++ _)%list).
  assert (Hids : idsOf entries = usedIDs c).
  { unfold entries. by rewrite idsOf_app, idsOf_operatorEntries, idsOf_single. }
  pose proof (finalTally_lookup (assignedKeys c) entries) as Hlookup.
  pose proof (assignedUse_nil (assignedKeys c) entries) as Huse.
  pose proof (tally_errors entries (newTally (assignedKeys c), [])) as Herr.
  destruct (List.fold_left tallyIdentity entries _) as [tally errs] eqn:E. cbn [fst snd] in *.
  rewrite !app_nil_iff, Herr, Huse, dataPlaneUse_nil, idsOf_operatorEntries, Hids. fold (dataPlaneIDs p) (assignedIDs c).
  setoid_rewrite Hlookup. setoid_rewrite newTally_lookup. fold (assignedIDs c).
  assert (Hin : ∀ k (x : Z), is_Some (if bool_decide (k ∈ assignedIDs c) then Some x else None) ↔ k ∈ assignedIDs c).
  { intros k x. case_bool_decide; split; [done|by eexists|by intros []|done]. }
  setoid_rewrite Hin.
  assert (Hout : ∀ k (x : Z), (if bool_decide (k ∈ assignedIDs c) then Some x else None) = None ↔ k ∉ assignedIDs c).
  { intros k x. by case_bool_decide. }
  setoid_rewrite Hout. pose proof (once_NoDup (usedIDs c) (assignedIDs c)). tauto.
Qed.

End identities.
