(* ===== verification/ClusterFeatures.v ===== *)
(** * Cluster admission: encryption keys, experimental features, and samples

    When the check of encryption keys dereferences nil, what tags can reach the
    experimental features of a cluster, and that an exact version requested by a tag
    is what the rollout assigns.  The module [ClusterSamples] instantiates the
    theorems about clusters. *)
From S2P Require Import Prelude GoStrings GoDuration RolloutTypes VersionRules RolloutStatus.
From S2P Require Import RolloutAssign Admission FieldValidation ClusterAdmission ClusterChecks ClusterGuards VersionValidation.

Local Open Scope string_scope.
Local Open Scope Z_scope.
Local Open Scope go_scope.

Section features.
Context {V : Type} `{SemverLaws V}.

(** ** The check of encryption keys *)

(** The check of a changed encryption key panics exactly when one of the two
    profiles has no key although the mode is unchanged or customer managed, or when
    the key changes before the first active version is recorded. *)
Theorem kms_check_panics_iff ctx op path new old (vs : list V) :
  (∀ spc, cac_ServiceProviderCluster ctx = Some spc → av_Version <$> spv_ActiveVersions spc = Some <$> vs) →
  let mode p := etcd_KeyManagementMode (cp_Etcd p) in
  let key p := etcd_KmsKeyVersion (cp_Etcd p) in
  (∃ e, admitClusterEtcdKmsKeyVersionChange ctx op path new (Some old) = Err e) ↔
  op_Type op = Update ∧
  (mode new = EtcdDataEncryptionKeyManagementModeTypeCustomerManaged ∨ mode new = mode old) ∧
  (key new = None ∨ key old = None ∨
   key new ≠ key old ∧ APIVersion_LT (APIVersionFromOptions (op_Options op)) APIVersionV20260630Preview = false ∧
   is_Some (cac_ServiceProviderCluster ctx) ∧ vs = []).
Proof.
  intros Hvs mode key. unfold admitClusterEtcdKmsKeyVersionChange. fold (mode new) (mode old) (key new) (key old).
  destruct (decide (op_Type op = Update)) as [Hop|Hop].
  2: { rewrite bool_decide_false by done. split; [by intros [? [=]]|by intros [? _]]. }
  rewrite (bool_decide_true _ Hop). cbn [negb].
  destruct (String.eqb_spec (mode new) EtcdDataEncryptionKeyManagementModeTypeCustomerManaged) as [Hm|Hm],
    (String.eqb_spec (mode new) (mode old)) as [Ho|Ho]; cbn [negb andb];
    try (split; [by intros [? [=]]|by intros (_ & [|] & _)]).
  all: destruct (key new) as [nk|]; [|split; [intros _; split_and!; auto|by eauto]].
  all: destruct (key old) as [ok|]; [|split; [intros _; split_and!; auto|by eauto]].
  all: destruct (String.eqb_spec nk ok) as [->|Hk]; [split; [by intros [? [=]]|naive_solver]|].
  all: destruct (APIVersion_LT _ _); [split; [by intros [? [=]]|naive_solver]|].
  all: destruct (cac_ServiceProviderCluster ctx) as [spc|]; [|split; [by intros [? [=]]|intros (_ & _ & [|[|(_ & _ & [? [=]] & _)]]); done]].
  all: unfold FindLowestAndHighestClusterVersion; rewrite (Hvs spc eq_refl).
  all: destruct (findLowestAndHighest_spec vs) as [[-> Hr]|(lo & hi & Hr & Hlo & _)]; rewrite Hr; cbn [result_bind fst].
  all: try (split; [intros _; split_and!; [done|by auto|]; right; right; split_and!; [congruence|done|by eexists|done]|by eauto]).
  all: split; [intros [e He]; by destruct (lineBelow lo 4 22)|].
  all: intros (_ & _ & [?|[?|(_ & _ & _ & ->)]]); [done|done|by apply elem_of_nil in Hlo].
Qed.

(** ** Experimental features *)

Lemma MutateCluster_features ctx op uid new old doc :
  MutateCluster ctx op uid new old = (doc, []) →
  mutateClusterExperimentalFeatures ctx op (sp_ExperimentalFeatures (cd_ServiceProviderProperties new))
    (sp_ExperimentalFeatures <$> (cd_ServiceProviderProperties <$> old))
  = (sp_ExperimentalFeatures (cd_ServiceProviderProperties doc), []).
Proof.
  unfold MutateCluster, mutateClusterServiceProviderProperties.
  destruct (mutateClusterExperimentalFeatures _ _ _ _) as [features e1].
  destruct (mutateCreateOperationCompletionDeadline _ _ _) as [c e2].
  destruct (mutateUpdateOperationCompletionDeadline _ _ _) as [u e3].
  destruct (mutateDeleteOperationCompletionTimeout _ _) as [d e4].
  intros [= <- [-> _]%app_nil_iff]. done.
Qed.

Lemma errorsOf_nil {A} (zero : A) (r : result fieldError A) : errorsOf r = [] ↔ r = Ok (valueOf zero r).
Proof. by destruct r. Qed.

Lemma enabled_features ctx op new old (f : ExperimentalFeatures V) :
  experimentalEnabled (cac_Subscription ctx) = true →
  mutateClusterExperimentalFeatures ctx op new old = (f, []) →
  let ts := clusterTags ctx in
  unrecognizedTag ExperimentalClusterTagPrefix knownClusterTags ts = None ∧
  zStreamPolicyOf ts = Ok (ef_ZStreamUpdatePolicy f) ∧
  availabilityOf op old ts = Ok (ef_ControlPlaneAvailability f) ∧
  enumTag TagClusterSizeOverride MinimalControlPlanePodSizing ts = Ok (ef_ControlPlanePodSizing f) ∧
  operatorImageOf ts = Ok (ef_ControlPlaneOperatorImage f) ∧
  exactVersionOf ts = Ok (ef_ControlPlaneExactVersion f) ∧
  enumTag TagClusterBackupScheduleOverride BackupScheduleStateEnabled ts = Ok (ef_BackupScheduleOverride f).
Proof.
  intros He. unfold mutateClusterExperimentalFeatures. rewrite He. cbn [negb]. cbv zeta.
  destruct (unrecognizedTag _ _ _); [done|]. unfold featuresOf. cbv zeta.
  destruct (errorsOf _ ++ _)%list eqn:E; [|done]. intros Hf%(f_equal fst). cbn in Hf. subst f. cbn.
  rewrite !app_nil_iff in E. destruct E as (E1 & E2 & E3 & E4 & E5 & E6).
  split_and!; [done|by apply errorsOf_nil..].
Qed.

Lemma enumTag_values tag accepted ts value :
  enumTag tag accepted ts = Ok value → value = lookupTag ts tag ∧ (value = accepted ∨ value = EmptyString).
Proof.
  unfold enumTag. destruct (String.eqb_spec (lookupTag ts tag) accepted) as [E|]; [intros [= <-]; auto|].
  destruct (String.eqb_spec (lookupTag ts tag) EmptyString) as [E|]; [|done]. intros [= <-]; auto.
Qed.

(** Without the registered feature, a cluster has no experimental features,
    whatever its tags; with it, every experimental tag is known, the enumerations
    have their values, and a single replica is kept but never newly requested. *)
Theorem experimental_features_gated ctx op uid new old (doc : ClusterDocument V) :
  MutateCluster ctx op uid new old = (doc, []) →
  let f := sp_ExperimentalFeatures (cd_ServiceProviderProperties doc) in
  let before := sp_ExperimentalFeatures <$> (cd_ServiceProviderProperties <$> old) in
  if experimentalEnabled (cac_Subscription ctx) then
    (∀ k v, (k, v) ∈ clusterTags ctx → HasPrefix (ToLower k) ExperimentalClusterTagPrefix = true →
       ToLower k ∈ knownClusterTags) ∧
    (ef_ControlPlaneAvailability f = EmptyString ∨
     ef_ControlPlaneAvailability f = SingleReplicaControlPlane ∧ op_Type op = Update ∧
     ∃ b, before = Some b ∧ ef_ControlPlaneAvailability b = SingleReplicaControlPlane) ∧
    (ef_ControlPlanePodSizing f ∈ [MinimalControlPlanePodSizing; EmptyString]) ∧
    (ef_BackupScheduleOverride f ∈ [BackupScheduleStateEnabled; EmptyString]) ∧
    (ef_ZStreamUpdatePolicy f ∈ [ImmediateZStreamUpdatePolicy; EmptyString]) ∧
    ef_ControlPlaneOperatorImage f = TrimSpace (lookupTag (clusterTags ctx) TagClusterCPOImageOverride)
  else f = noExperimentalFeatures.
Proof.
  intros Hm%MutateCluster_features f before. fold f before in Hm. clearbody f before. destruct (experimentalEnabled _) eqn:He.
  2: { unfold mutateClusterExperimentalFeatures in Hm. rewrite He in Hm. cbn [negb] in Hm. by injection Hm. }
  destruct (enabled_features _ _ _ _ _ He Hm) as (Hu & Hz & Ha & Hs & Hi & _ & Hb).
  split_and!.
  - by apply unrecognizedTag_None.
  - unfold availabilityOf in Ha. destruct (String.eqb _ SingleReplicaControlPlane).
    + destruct (bool_decide _ && _) eqn:E; [|done]. apply andb_true_iff in E as [Hop%bool_decide_eq_true Hb'].
      right. injection Ha as <-. split_and!; [done|done|]. destruct before as [b|]; [|done].
      exists b. by apply String.eqb_eq in Hb'.
    + destruct (String.eqb _ EmptyString); [|done]. left. by injection Ha.
  - apply enumTag_values in Hs as [_ [->| ->]]; set_solver.
  - apply enumTag_values in Hb as [_ [->| ->]]; set_solver.
  - unfold zStreamPolicyOf in Hz. destruct (hasTag _ _); [destruct (negb _); [done|]|]; injection Hz as <-; set_solver.
  - unfold operatorImageOf in Hi. destruct (String.eqb_spec (lookupTag (clusterTags ctx) TagClusterCPOImageOverride) EmptyString) as [E|].
    + injection Hi as <-. by rewrite E.
    + destruct (String.eqb _ EmptyString); [done|]. by injection Hi.
Qed.

(** The exact version that a tag requests is a version, and the forced version
    controller assigns it to a cluster that is not pinned. *)
Theorem exact_version_tag_honoured ctx op uid new old (doc : ClusterDocument V) k value cluster c best :
  MutateCluster ctx op uid new old = (doc, []) →
  experimentalEnabled (cac_Subscription ctx) = true →
  distinctTags (clusterTags ctx) → (k, value) ∈ clusterTags ctx →
  EqualFold k TagClusterControlPlaneExactVersion = true →
  cl_ControlPlaneExactVersion cluster
    = ef_ControlPlaneExactVersion (sp_ExperimentalFeatures (cd_ServiceProviderProperties doc)) →
  ExactVersion (spc_PinnedVersion c) = None →
  ∃ v, semver_Parse value = Some v ∧ forcedDecision cluster c best = (Some v, false).
Proof.
  intros Hm%MutateCluster_features He Hd Hin Hk Hcl Hpin.
  destruct (enabled_features _ _ _ _ _ He Hm) as (_ & _ & _ & _ & _ & Hx & _).
  unfold exactVersionOf in Hx. rewrite (lookupTag_elem _ _ k value Hd Hin Hk) in Hx.
  assert (Hh : hasTag (clusterTags ctx) TagClusterControlPlaneExactVersion = true) by (apply hasTag_spec; eauto).
  rewrite Hh in Hx. destruct (String.eqb value EmptyString); [done|].
  destruct (semver_Parse value) as [v|]; [|done]. injection Hx as Hx.
  exists v. split; [done|]. unfold forcedDecision. by rewrite Hpin, Hcl, <- Hx.
Qed.

End features.

#[local] Existing Instances Release.semver Release.laws.
#[local] Existing Instances KubernetesReference.validators KubernetesReference.laws.

(** A decidable fact about versions, decided by evaluation. *)
Ltac evaluates := apply (bool_decide_unpack _); vm_compute; exact I.

Module ClusterSamples.

Definition rel (a b c : Z) : Release.t := default (exist _ (0, 0, 0) eq_refl) (Release.make a b c).

#[export] Instance fields : VersionFields Release.t := {
  Patch v := (`v).2;
  VersionOf := rel;
}.

Definition experimental : Subscription := {|
  sub_RegisteredFeatures := Some [{| feature_Name := Some "Microsoft.RedHatOpenShift/ExperimentalReleaseFeatures";
    feature_State := Some "Registered" |}] |}.

Definition operator (name : string) (min : option Release.t) : string * OperatorIdentity Release.t :=
  (name, {| oi_ClusterOperatorIdentifier := name; oi_MinVersionInclusive := min; oi_MaxVersionInclusive := None;
            oi_RequirementAlways := true |}).

Definition identities : ClusterScopedIdentitiesConfig Release.t := {|
  ControlPlaneOperatorsIdentities := [operator "ingress" None; operator "router" (Some (rel 4 22 0))];
  DataPlaneOperatorsIdentities := [operator "disk" None] |}.

Definition properties (version : string) (key : option string) : CustomerProperties := {|
  cp_Version := {| vp_ID := version; vp_ChannelGroup := "stable" |};
  cp_BaseDomainPrefix := EmptyString;
  cp_Platform := {| pp_ManagedResourceGroup := "managed"; pp_SubnetID := Some "subnet";
    pp_NetworkSecurityGroupID := Some "nsg"; pp_PullManagedIdentity := None;
    pp_ControlPlaneOperators := [("ingress", Some "id")]; pp_DataPlaneOperators := [("disk", Some "id")] |};
  cp_Etcd := {| etcd_KeyManagementMode := EtcdDataEncryptionKeyManagementModeTypeCustomerManaged;
    etcd_KmsKeyVersion := key |} |}.

Definition document (ts : tags) (version : string) (key : option string) : ClusterDocument Release.t := {|
  cd_ID := true;
  cd_Tags := ts;
  cd_CustomerProperties := properties version key;
  cd_ServiceProviderProperties := {| sp_ClusterUID := EmptyString; sp_DeletionTimestamp := None;
    sp_ExperimentalFeatures := noExperimentalFeatures; sp_CreateOperationCompletionDeadline := None;
    sp_UpdateOperationCompletionDeadline := None; sp_DeleteOperationCompletionTimeout := None |} |}.

Definition provider (vs : list Release.t) : ServiceProviderView Release.t := {|
  spv_ActiveVersions :=
    (λ v, {| av_Version := Some v; av_State := CompletedUpdate; av_LastTransitionTime := 1 |}) <$> vs;
  spv_DesiredVersionChannels := ["stable-4.20"; "stable-4.21"];
  spv_ImageContentSources := None |}.

Definition context (doc : ClusterDocument Release.t) (vs : list Release.t) : ClusterAdmissionContext Release.t := {|
  cac_Now := 0;
  cac_Subscription := Some experimental;
  cac_OriginalCluster := Some doc;
  cac_ServiceProviderCluster := Some (provider vs);
  cac_ClusterNodePools := [];
  cac_SubscriptionClusters := [{| ex_ManagedResourceGroup := "other"; ex_SubnetID := Some "other";
    ex_NetworkSecurityGroupID := Some "other" |}];
  cac_SubscriptionNodePools := [Some "third"];
  cac_IdentitiesConfig := identities |}.

Definition create : Operation := {| op_Type := Create; op_Options := [] |}.
Definition update : Operation := {|
  op_Type := Update;
  op_Options := map_to_list (BuildValidationOptions (GetRegisteredFeatures (Some experimental)) "2026-06-30-preview") |}.

Definition pinned : tags := [("Aro-Hcp.Experimental.Cluster.Control-Plane-Exact-Version", "4.21.7")].

(** Rotating the key of a cluster that has no recorded version yet: the request is
    valid in every other respect, and the server panics. *)
Example early_key_rotation_panics :
  AdmitCluster (context (document [] "4.22" (Some "b")) []) update (document [] "4.22" (Some "b"))
    (Some (document [] "4.22" (Some "a"))) = Err NilDereference.
Proof. vm_compute. reflexivity. Qed.

(** A request that drops the key profile is refused by the static validation, but
    the admission, which runs regardless, panics. *)
Example missing_key_profile_panics :
  AdmitCluster (context (document [] "4.22" None) [rel 4 22 0]) update (document [] "4.22" None)
    (Some (document [] "4.22" (Some "a"))) = Err NilDereference.
Proof. vm_compute. reflexivity. Qed.

(** An update that asks for a single replica is refused, one that keeps it is not. *)
Example single_replica_needs_history :
  availabilityOf update (Some (noExperimentalFeatures (V := Release.t)))
    [(TagClusterSingleReplica, SingleReplicaControlPlane)]
  = Err (Forbidden (Key "tags" TagClusterSingleReplica) SingleReplicaDisabled).
Proof. reflexivity. Qed.

End ClusterSamples.
Import ClusterSamples.

Lemma cluster_create_unique_witness :
  ∃ subnet, pp_SubnetID (cp_Platform (properties "4.21" (Some "a"))) = Some subnet ∧
    ToLower subnet ≠ ToLower "other".
Proof.
  destruct (cluster_create_unique (context (document [] "4.21" (Some "a")) []) create
    (document [] "4.21" (Some "a")) None eq_refl) as (_ & _ & (subnet & Hs & Hall & _) & _).
  - vm_compute. reflexivity.
  - exists subnet. split; [exact Hs|]. destruct (Hall _ (list_elem_of_here _ _)) as (s & [= <-] & Hne). exact Hne.
Defined.

Lemma operator_identities_exact_witness :
  supplies (pp_ControlPlaneOperators (cp_Platform (properties "4.21" (Some "a")))) "ingress".
Proof.
  assert (Hv : ParseTolerant "4.21" = Some (rel 4 21 0)) by evaluates.
  destruct (proj1 (operator_identities_exact (context (document [] "4.22" (Some "a")) []) "path"
    (properties "4.21" (Some "a")) (rel 4 21 0) Hv)) as (Hc & _).
  - vm_compute. reflexivity.
  - apply Hc. exists "ingress", (snd (operator "ingress" None)). split_and!; [left|reflexivity..].
Defined.

Lemma options_carry_the_request_witness :
  HasOption update FeatureExperimentalReleaseFeatures = true ∧
  APIVersionFromOptions (op_Options update) = "2026-06-30-preview".
Proof.
  destruct (options_carry_the_request (Some experimental) "2026-06-30-preview" update eq_refl) as [Hf Hv].
  split; [exact Hf|]. apply Hv. intros f name Hin Hn. apply list_elem_of_singleton in Hin as ->.
  injection Hn as <-. reflexivity.
Defined.

Lemma cluster_version_change_safe_witness : ∃ v, ParseTolerant "4.21" = Some v ∧ oneMinorStep (rel 4 20 9) v.
Proof.
  destruct (cluster_version_change_safe (context (document [] "4.21" (Some "a")) [rel 4 20 9]) update
    (document [] "4.21" (Some "a")) (document [] "4.20" (Some "a")) (provider [rel 4 20 9]) [rel 4 20 9])
    as (v & Hv & Hok).
  - exists (rel 4 20 0). split_and!; [evaluates|vm_compute; reflexivity..].
  - reflexivity.
  - discriminate.
  - discriminate.
  - discriminate.
  - reflexivity.
  - reflexivity.
  - intros v ->%list_elem_of_singleton. split; [evaluates|discriminate].
  - vm_compute. reflexivity.
  - vm_compute. reflexivity.
  - exists v. split; [exact Hv|]. apply (cu_step _ _ _ _ _ _ Hok); [left|].
    intros w ->%list_elem_of_singleton. vm_compute. reflexivity.
Defined.

Lemma kms_check_panics_iff_witness :
  ∃ e, admitClusterEtcdKmsKeyVersionChange (context (document [] "4.22" (Some "b")) []) update "path"
    (properties "4.22" (Some "b")) (Some (properties "4.22" (Some "a"))) = Err e.
Proof.
  apply (kms_check_panics_iff (context (document [] "4.22" (Some "b")) []) update "path" _ _ []).
  - intros spc [= <-]. reflexivity.
  - split_and!; [reflexivity|left; reflexivity|right; right].
    split_and!; [discriminate|vm_compute; reflexivity|eexists; reflexivity|reflexivity].
Defined.

Lemma experimental_features_gated_witness :
  ef_ControlPlaneOperatorImage (sp_ExperimentalFeatures (cd_ServiceProviderProperties
    (MutateCluster (context (document pinned "4.21" None) []) create "uid" (document pinned "4.21" None) None).1))
  = TrimSpace EmptyString.
Proof.
  destruct (MutateCluster (context (document pinned "4.21" None) []) create "uid" (document pinned "4.21" None) None)
    as [doc errs] eqn:E.
  assert (errs = []) as -> by (apply (f_equal snd) in E; vm_compute in E; by subst).
  destruct (experimental_features_gated _ _ _ _ _ _ E) as (_ & _ & _ & _ & _ & Hi). exact Hi.
Defined.

Lemma exact_version_tag_honoured_witness :
  ∃ v : Release.t, semver_Parse "4.21.7" = Some v.
Proof.
  destruct (MutateCluster (context (document pinned "4.21" None) []) create "uid" (document pinned "4.21" None) None)
    as [doc errs] eqn:E.
  assert (errs = []) as -> by (apply (f_equal snd) in E; vm_compute in E; by subst).
  destruct (exact_version_tag_honoured _ _ _ _ _ _ "Aro-Hcp.Experimental.Cluster.Control-Plane-Exact-Version" "4.21.7"
    {| cl_ID := None; cl_DeletionTimestamp := None; cl_Version := {| vp_ID := "4.21"; vp_ChannelGroup := "stable" |};
       cl_ControlPlaneExactVersion := ef_ControlPlaneExactVersion (sp_ExperimentalFeatures (cd_ServiceProviderProperties doc));
       cl_ZStreamUpdatePolicy := EmptyString; cl_ActiveVersions := [] |}
    {| spc_ResourceID := None; spc_DesiredVersion := None; spc_DesiredVersionLastTransitionTime := None;
       spc_PinnedVersion := noPin; spc_ActiveVersions := [] |} None E) as (v & Hv & _).
  - reflexivity.
  - apply NoDup_singleton.
  - left.
  - vm_compute. reflexivity.
  - reflexivity.
  - reflexivity.
  - exists v. exact Hv.
Defined.
