(* ===== verification/ClusterValidated.v ===== *)
(** * What an accepted cluster looks like

    Theorems about [ValidateCluster]: its networks are disjoint, what an update may not
    change, the encryption profile over the life of a cluster, and what depends on the
    release line. *)
From S2P Require Import Prelude GoStrings GoNetip GoRegexp RolloutTypes VersionRules Admission FieldValidation.
From S2P Require Import NodePoolAdmission ClusterAdmission ClusterChecks ClusterGuards VersionValidation ClusterFeatures.
From S2P Require Import NodePoolValidation ClusterValidation ClusterIdentities.

Local Open Scope string_scope.
Local Open Scope Z_scope.

(** ** Networks *)

Section networks.

Lemma dtoi_nonneg s n r : dtoi s n = Some r → 0 <= n → 0 <= r.
Proof.
  revert n. induction s as [|c s IH]; intros n; simpl; [by intros [= <-]|].
  destruct (digit_value c) as [d|] eqn:Ed; [|done]. destruct (16777215 <=? n * 10 + d); [done|].
  intros Hr Hn. apply (IH _ Hr). apply digit_value_range in Ed. lia.
Qed.

Lemma ParseCIDR_shape s ip n :
  ParseCIDR s = Some (ip, n) → 0 <= net_Ones n <= net_Width n ∧ (net_Width n = 32 ∨ net_Width n = 128).
Proof.
  unfold ParseCIDR. destruct (cut slash _) as [addr [[|d mask]|]]; [done| |done].
  destruct (ParseAddr _) as [a|] eqn:Ea; [|done]. destruct (dtoi _ 0) as [m|] eqn:Em; [|done].
  destruct (negb _ || _) eqn:Eb; [done|]. apply orb_false_iff in Eb as [_ Hw%Z.ltb_ge].
  apply dtoi_nonneg in Em; [|lia].
  destruct a; simpl; intros [= <- <-]; simpl in *; lia.
Qed.

Lemma CIDRv4_network path value :
  value ≠ EmptyString → CIDRv4 path value = [] → ∃ n, networkOf value = Some n ∧ net4 n.
Proof.
  intros Hne. unfold CIDRv4, networkOf. rewrite (proj2 (String.eqb_neq _ _) Hne).
  destruct (ParseCIDR value) as [[ip n]|] eqn:Ep; [|done]. apply ParseCIDR_shape in Ep as [Ho Hw].
  destruct (bool_decide_reflect (is_Some (To4 ip))) as [H4|]; cbn [negb]; [|done].
  destruct (Z.eqb_spec (net_IP n) ip) as [<-|]; cbn [negb]; [|done].
  intros _. exists n. split; [done|]. by split.
Qed.

(** Two networks have no address in common. *)
Definition disjointNets (a b : string) : Prop :=
  ∃ m n, networkOf a = Some m ∧ networkOf b = Some n ∧ net4 m ∧ net4 n ∧
    ∀ ip, ¬ (IPNet_Contains m ip = true ∧ IPNet_Contains n ip = true).

Lemma intersect_disjoint a b m n :
  networkOf a = Some m → networkOf b = Some n → net4 m → net4 n → intersect (networkOf a) (networkOf b) = false →
  disjointNets a b.
Proof.
  intros Ha Hb Hm Hn. rewrite Ha, Hb. unfold intersect. rewrite orb_false_iff. intros [H1 H2].
  exists m, n. do 4 (split; [assumption|]). intros ip Hip.
  destruct (proj1 (networks_share_iff m n Hm Hn) (ex_intro _ ip Hip)) as [H|H]; congruence.
Qed.

End networks.

(** ** Semantic equality *)

Section semantic.

Lemma DeepEqual_string (a b : string) : DeepEqual a b = true ↔ a = b.
Proof. apply String.eqb_eq. Qed.

Lemma DeepEqual_Some {A} `{SemanticEqual A} (a b : A) : DeepEqual (Some a) (Some b) = DeepEqual a b.
Proof. reflexivity. Qed.

Lemma DeepEqual_network (a b : NetworkProfile) : DeepEqual a b = true ↔ a = b.
Proof.
  unfold DeepEqual, NetworkProfile_semantic. rewrite !andb_true_iff, !DeepEqual_string.
  unfold DeepEqual, Z_semantic. rewrite Z.eqb_eq. destruct a, b; simpl. naive_solver congruence.
Qed.

(** A map of identities, up to letter case. *)
Definition lowerIDs (m : gmap string (option ResourceID)) : gmap string (option string) :=
  fmap (M := gmap string) (fmap (M := option) lowerID) m.

Lemma DeepEqual_identity (a b : option ResourceID) : DeepEqual a b = true ↔ lowerID <$> a = lowerID <$> b.
Proof. rewrite DeepEqual_resource. destruct a, b; simpl; unfold lowerID; done. Qed.

Lemma DeepEqual_identities (a b : gmap string (option ResourceID)) :
  DeepEqual a b = true ↔ lowerIDs a = lowerIDs b.
Proof.
  unfold DeepEqual, gmap_semantic. rewrite andb_true_iff, bool_decide_eq_true, forallb_forall. split.
  - intros [Hdom Hall]. apply map_eq. intros k. unfold lowerIDs. rewrite !lookup_fmap.
    destruct (a !! k) as [x|] eqn:Ea.
    + specialize (Hall (k, x)). simpl in Hall. destruct (b !! k) as [y|] eqn:Eb.
      * simpl. f_equal. apply DeepEqual_identity. rewrite DeepEqual_Some in Hall. apply Hall.
        by apply list_elem_of_In, elem_of_map_to_list.
      * apply not_elem_of_dom in Eb. rewrite <- Hdom in Eb. by apply not_elem_of_dom in Eb; rewrite Ea in Eb.
    + apply not_elem_of_dom in Ea. rewrite Hdom in Ea. apply not_elem_of_dom in Ea. by rewrite Ea.
  - intros Heq. split.
    + rewrite <- (dom_fmap_L (fmap (M := option) lowerID) a), <- (dom_fmap_L (fmap (M := option) lowerID) b). by f_equal.
    + intros [k x] Hin%list_elem_of_In%elem_of_map_to_list. simpl.
      assert (Hk : lowerIDs a !! k = lowerIDs b !! k) by (by rewrite Heq).
      unfold lowerIDs in Hk. rewrite !lookup_fmap, Hin in Hk. simpl in Hk.
      destruct (b !! k) as [y|]; simpl in Hk; [|done]. rewrite DeepEqual_Some. apply DeepEqual_identity. congruence.
Qed.

End semantic.

(** ** What an update may not change *)

Record FrozenFields := {
  fz_ID : option string;
  fz_Location : string;
  fz_Service : string * option string * string * string * string * string * string;
  fz_ClusterUID : string;
  fz_BaseDomainPrefix : string;
  fz_Network : NetworkProfile;
  fz_Visibility : string;
  fz_IngressType : string;
  fz_ManagedResourceGroup : string;
  fz_Subnets : option string * option string;
  fz_OutboundType : string;
  fz_NetworkSecurityGroup : option string;
  fz_Operators : gmap string (option string) * gmap string (option string) * option string;
  fz_KeyManagementMode : string;
  fz_ImageRegistry : string;
  fz_CryptoRestrictions : string;
  fz_ChannelGroup : string;
}.

(** The part of a cluster that is fixed at creation; resource IDs up to letter case. *)
Definition frozen {V} (c : ClusterResource V) : FrozenFields :=
  let cp := cr_CustomerProperties c in
  let sp := cr_ServiceProviderProperties c in
  let pf := ccp_Platform cp in
  {| fz_ID := lowerID <$> cr_ID c;
     fz_Location := tr_Location (cr_TrackedResource c);
     fz_Service := (csp_ProvisioningState sp, csp_ClusterServiceID sp, csp_BaseDomain sp, csp_ConsoleURL sp,
                    csp_APIURL sp, csp_IssuerURL sp, csp_ManagedIdentitiesDataPlaneIdentityURL sp);
     fz_ClusterUID := csp_ClusterUID sp;
     fz_BaseDomainPrefix := ccp_BaseDomainPrefix cp;
     fz_Network := ccp_Network cp;
     fz_Visibility := api_Visibility (ccp_API cp);
     fz_IngressType := ccp_IngressType cp;
     fz_ManagedResourceGroup := cpf_ManagedResourceGroup pf;
     fz_Subnets := (lowerID <$> cpf_SubnetID pf, lowerID <$> cpf_VnetIntegrationSubnetID pf);
     fz_OutboundType := cpf_OutboundType pf;
     fz_NetworkSecurityGroup := lowerID <$> cpf_NetworkSecurityGroupID pf;
     fz_Operators := (lowerIDs (ua_ControlPlaneOperators (cpf_OperatorsAuthentication pf)),
                      lowerIDs (ua_DataPlaneOperators (cpf_OperatorsAuthentication pf)),
                      lowerID <$> ua_ServiceManagedIdentity (cpf_OperatorsAuthentication pf));
     fz_KeyManagementMode := de_KeyManagementMode (ccp_Etcd cp);
     fz_ImageRegistry := ccp_ClusterImageRegistryState cp;
     fz_CryptoRestrictions := ccp_CryptoRestrictions cp;
     fz_ChannelGroup := vp_ChannelGroup (ccp_Version cp) |}.

(** A [semver.Version] built from its numbers has these numbers. *)
Class VersionFieldLaws (V : Type) `{Semver V} `{VersionFields V} := {
  VersionOf_numbers : ∀ major minor patch, 0 <= major < 2 ^ 64 → 0 <= minor < 2 ^ 64 → 0 <= patch < 2 ^ 64 →
    Major (VersionOf major minor patch) = major ∧ Minor (VersionOf major minor patch) = minor;
}.

Section accepted_clusters.
Context {V : Type} `{SemverLaws V} {fieldsOf : VersionFields V} {fieldLaws : VersionFieldLaws V} `{FieldValidatorLaws}.
Context (parse : string → option ResourceID) (parseURL : string → bool).

Notation ValidateCluster := (ValidateCluster parse parseURL).

Lemma networkCIDR_nil op path value old :
  networkCIDR op path value old = [] → ∃ n, networkOf value = Some n ∧ net4 n.
Proof.
  unfold networkCIDR. rewrite !app_nil_iff, RequiredValue_nil. intros (Hne & _ & Hc). by eapply CIDRv4_network.
Qed.

Lemma ValidateCluster_properties op (new : ClusterResource V) old :
  ValidateCluster op new old = [] →
  validateClusterCustomerProperties (V := V) op "customerProperties" (cr_CustomerProperties new)
    (cr_CustomerProperties <$> old) = [].
Proof. unfold ClusterValidation.ValidateCluster. rewrite !app_nil_iff. tauto. Qed.

(** (C35) The pod, service and machine networks of an accepted cluster are IPv4 networks
    of which no two have an address in common; and the host prefix is in range. *)
Theorem cluster_networks_disjoint op (new : ClusterResource V) old :
  ValidateCluster op new old = [] →
  let nw := ccp_Network (cr_CustomerProperties new) in
  disjointNets (nw_MachineCIDR nw) (nw_ServiceCIDR nw) ∧
  disjointNets (nw_MachineCIDR nw) (nw_PodCIDR nw) ∧
  disjointNets (nw_ServiceCIDR nw) (nw_PodCIDR nw) ∧
  23 <= nw_HostPrefix nw <= 26.
Proof.
  intros Hv%ValidateCluster_properties nw. revert Hv. unfold validateClusterCustomerProperties, validateNetworkProfile.
  cbv zeta. fold nw. rewrite !app_nil_iff, !if_nil, !Maximum_nil, !Minimum_nil. intros Hv. decompose [and] Hv. clear Hv.
  repeat match goal with Hn : networkCIDR _ _ _ _ = [] |- _ => apply networkCIDR_nil in Hn as (? & ? & ?) end.
  split_and!; try (eapply intersect_disjoint; eassumption); eauto.
Qed.

(** What the immutability checks of an update say, as equations. *)
Ltac frozen_equations Hop :=
  cbv zeta; rewrite ?app_nil_iff, ?(immutableByCompare_nil _ _ _ _ Hop), ?(immutableByReflect_nil _ _ _ _ Hop);
  cbn [fmap option_fmap option_map mjoin option_join oldField default].

Lemma operatorMap_frozen op path new old :
  op_Type op = Update → operatorMap op path new (Some old) = [] → lowerIDs new = lowerIDs old.
Proof. intros Hop. unfold operatorMap. frozen_equations Hop. rewrite DeepEqual_identities. tauto. Qed.

Lemma platform_frozen op path new old :
  op_Type op = Update → validateCustomerPlatformProfile op path new (Some old) = [] →
  cpf_ManagedResourceGroup new = cpf_ManagedResourceGroup old ∧
  lowerID <$> cpf_SubnetID new = lowerID <$> cpf_SubnetID old ∧
  lowerID <$> cpf_VnetIntegrationSubnetID new = lowerID <$> cpf_VnetIntegrationSubnetID old ∧
  cpf_OutboundType new = cpf_OutboundType old ∧
  lowerID <$> cpf_NetworkSecurityGroupID new = lowerID <$> cpf_NetworkSecurityGroupID old ∧
  lowerIDs (ua_ControlPlaneOperators (cpf_OperatorsAuthentication new))
    = lowerIDs (ua_ControlPlaneOperators (cpf_OperatorsAuthentication old)) ∧
  lowerIDs (ua_DataPlaneOperators (cpf_OperatorsAuthentication new))
    = lowerIDs (ua_DataPlaneOperators (cpf_OperatorsAuthentication old)) ∧
  lowerID <$> ua_ServiceManagedIdentity (cpf_OperatorsAuthentication new)
    = lowerID <$> ua_ServiceManagedIdentity (cpf_OperatorsAuthentication old).
Proof.
  intros Hop. unfold validateCustomerPlatformProfile, validateOperatorsAuthenticationProfile, validateUserAssignedIdentitiesProfile.
  frozen_equations Hop. rewrite !DeepEqual_identity. intros Hv. decompose [and] Hv. clear Hv.
  repeat match goal with Hm : operatorMap _ _ _ _ = [] |- _ => apply (operatorMap_frozen _ _ _ _ Hop) in Hm end.
  split_and!; (assumption || congruence).
Qed.

Lemma service_frozen op path (new old : ClusterServiceProperties V) :
  op_Type op = Update → validateClusterServiceProviderProperties parseURL op path new (Some old) = [] →
  csp_ProvisioningState new = csp_ProvisioningState old ∧ csp_ClusterServiceID new = csp_ClusterServiceID old ∧
  csp_BaseDomain new = csp_BaseDomain old ∧ csp_ConsoleURL new = csp_ConsoleURL old ∧ csp_APIURL new = csp_APIURL old ∧
  csp_IssuerURL new = csp_IssuerURL old ∧
  csp_ManagedIdentitiesDataPlaneIdentityURL new = csp_ManagedIdentitiesDataPlaneIdentityURL old ∧
  csp_ClusterUID new = csp_ClusterUID old.
Proof.
  intros Hop. unfold validateClusterServiceProviderProperties, validateServiceProviderDNSProfile,
    validateServiceProviderConsoleProfile, validateServiceProviderAPIProfile, validateServiceProviderPlatformProfile.
  frozen_equations Hop. rewrite DeepEqual_option_string. intros Hv. decompose [and] Hv. split_and!; congruence.
Qed.

Lemma customer_frozen op path new old :
  op_Type op = Update → validateClusterCustomerProperties (V := V) op path new (Some old) = [] →
  ccp_BaseDomainPrefix new = ccp_BaseDomainPrefix old ∧ ccp_Network new = ccp_Network old ∧
  api_Visibility (ccp_API new) = api_Visibility (ccp_API old) ∧ ccp_IngressType new = ccp_IngressType old ∧
  de_KeyManagementMode (ccp_Etcd new) = de_KeyManagementMode (ccp_Etcd old) ∧
  ccp_ClusterImageRegistryState new = ccp_ClusterImageRegistryState old ∧
  ccp_CryptoRestrictions new = ccp_CryptoRestrictions old ∧
  vp_ChannelGroup (ccp_Version new) = vp_ChannelGroup (ccp_Version old) ∧
  validateCustomerPlatformProfile op (Child path "platform") (ccp_Platform new) (Some (ccp_Platform old)) = [].
Proof.
  intros Hop. unfold validateClusterCustomerProperties, validateCustomerDNSProfile, validateCustomerAPIProfile,
    validateCustomerIngressProfile, validateEtcdProfile, validateEtcdDataEncryptionProfile, validateVersionProfile,
    validateClusterImageRegistryProfile.
  frozen_equations Hop. rewrite !DeepEqual_Some, DeepEqual_network. intros Hv. decompose [and] Hv. clear Hv.
  split_and!; try congruence. by eapply rejectChannelGroup_nil.
Qed.

(** An accepted update leaves everything alone that is fixed at creation: the
    identity and place of the resource, what the service filled in, networking, ingress
    and API visibility, the operators' identities, the encryption mode, the image
    registry, the cryptographic restrictions and the channel group. *)
Theorem cluster_update_frozen op (new old : ClusterResource V) :
  op_Type op = Update → ValidateCluster op new (Some old) = [] → frozen new = frozen old.
Proof.
  intros Hop. unfold ClusterValidation.ValidateCluster, validateTrackedResource, validateResource. frozen_equations Hop.
  fold (cr_ID new) (cr_ID old). rewrite DeepEqual_identity. intros Hv. decompose [and] Hv. clear Hv.
  repeat match goal with
  | Hc : validateClusterCustomerProperties _ _ _ _ = [] |- _ => apply (customer_frozen _ _ _ _ Hop) in Hc
  | Hs : validateClusterServiceProviderProperties _ _ _ _ _ = [] |- _ => apply (service_frozen _ _ _ _ Hop) in Hs
  end.
  destruct_and?.
  match goal with Hp : validateCustomerPlatformProfile _ _ _ _ = [] |- _ => apply (platform_frozen _ _ _ _ Hop) in Hp end.
  destruct_and?. unfold frozen. f_equal; congruence.
Qed.

(** ** The encryption profile *)

(** A usable customer managed key. *)
Record kmsOk (kms : KmsEncryptionProfile) : Prop := {
  ko_visibility : kms_Visibility kms ∈ ValidKeyVaultVisibility;
  ko_type : kms_KeyVaultType kms ∈ validKmsKeyVaultTypes;
  ko_name : key_Name (kms_ActiveKey kms) ≠ EmptyString ∧ len (key_Name (kms_ActiveKey kms)) <= 255;
  ko_vault : key_VaultName (kms_ActiveKey kms) ≠ EmptyString ∧ len (key_VaultName (kms_ActiveKey kms)) <= 255;
  ko_version : MatchString keyVaultKeyVersionRegex (key_Version (kms_ActiveKey kms)) = true;
}.

(** The key management profile of a data encryption profile. *)
Definition kmsOf (p : EtcdDataEncryptionProfile) : option KmsEncryptionProfile := de_CustomerManaged p ≫= cm_Kms.

Definition etcdOk (p : EtcdDataEncryptionProfile) : Prop :=
  de_KeyManagementMode p = EtcdDataEncryptionKeyManagementModeTypeCustomerManaged ∧
  ∃ cm kms, de_CustomerManaged p = Some cm ∧ cm_EncryptionType cm = CustomerManagedEncryptionTypeKMS ∧
    cm_Kms cm = Some kms ∧ kmsOk kms.

(** Which key a profile names, whatever its version. *)
Definition keyIdentity (kms : KmsEncryptionProfile) : string * string * string * string :=
  (key_Name (kms_ActiveKey kms), key_VaultName (kms_ActiveKey kms), kms_Visibility kms, kms_KeyVaultType kms).

Lemma AzureKeyVaultKeyVersion_nil path value :
  value ≠ EmptyString → AzureKeyVaultKeyVersion path value = [] ↔ MatchString keyVaultKeyVersionRegex value = true.
Proof.
  intros Hne. unfold AzureKeyVaultKeyVersion. rewrite (proj2 (String.eqb_neq _ _) Hne). by destruct (MatchString _ value).
Qed.

Lemma kms_accepted op path kms old :
  validateKmsEncryptionProfile op path (Some kms) old = [] → kmsOk kms.
Proof.
  unfold validateKmsEncryptionProfile, validateKmsKey. cbv zeta.
  rewrite !app_nil_iff, !Enum_nil, !RequiredValue_nil, !MaxLen_nil. intros Hv. decompose [and] Hv.
  split; [done..|]. by eapply AzureKeyVaultKeyVersion_nil.
Qed.

Lemma kms_keeps_key op path kms old :
  op_Type op = Update → validateKmsEncryptionProfile op path (Some kms) (Some old) = [] → keyIdentity kms = keyIdentity old.
Proof.
  intros Hop. unfold validateKmsEncryptionProfile, validateKmsKey. frozen_equations Hop. intros Hv. decompose [and] Hv.
  unfold keyIdentity. congruence.
Qed.

(** A union that is consistent, or that was consistent and has not changed, is set. *)
Lemma union_set op path (member : string) (isSet : bool) old :
  (op_Type op = Update → old = Some (member, true)) →
  DiscriminatedUnion op path member (member, isSet) old = [] → isSet = true.
Proof.
  intros Hold Hu. apply DiscriminatedUnion_nil in Hu; [|naive_solver].
  destruct Hu as [[Hop Ho]|Hiff]; [specialize (Hold Hop); congruence|by apply Hiff].
Qed.

(** What holds of the old profile of an update. *)
Definition oldProfile (op : Operation) (old : option EtcdDataEncryptionProfile) : Prop :=
  op_Type op = Update → ∃ p, old = Some p ∧ etcdOk p.

Lemma etcd_accepted op path new old :
  oldProfile op old → validateEtcdDataEncryptionProfile op path new old = [] →
  etcdOk new ∧ (op_Type op = Update → keyIdentity <$> kmsOf new = keyIdentity <$> (old ≫= kmsOf)).
Proof.
  intros Hold. unfold validateEtcdDataEncryptionProfile. cbv zeta. rewrite !app_nil_iff, Enum_nil.
  intros (_ & _ & Hmode%list_elem_of_singleton & Hunion & Hcm). unfold customerManagedUnion in Hunion.
  rewrite Hmode in Hunion. apply union_set in Hunion.
  2: { intros Hop. destruct (Hold Hop) as (p & -> & Hm & cm & kms & Hc & _). simpl.
       by rewrite Hm, Hc, bool_decide_true by eauto. }
  apply bool_decide_eq_true in Hunion as [cm Hc]. rewrite Hc in Hcm. unfold validateCustomerManagedEncryptionProfile in Hcm.
  cbv zeta in Hcm. rewrite !app_nil_iff, Enum_nil in Hcm. destruct Hcm as (_ & Htype%list_elem_of_singleton & Hunion & Hkms).
  unfold kmsUnion in Hunion. rewrite Htype in Hunion. apply union_set in Hunion.
  2: { intros Hop. destruct (Hold Hop) as (p & -> & Hm & ocm & kms & Hoc & Hot & Hok & _). 
       change (kmsUnion <$> de_CustomerManaged p = Some (CustomerManagedEncryptionTypeKMS, true)). rewrite Hoc.
       change (Some (kmsUnion ocm) = Some (CustomerManagedEncryptionTypeKMS, true)). unfold kmsUnion.
       by rewrite Hot, Hok, bool_decide_true by eauto. }
  apply bool_decide_eq_true in Hunion as [kms Hk]. rewrite Hk in Hkms. split.
  - split; [done|]. exists cm, kms. split_and!; try done. by eapply kms_accepted.
  - intros Hop. destruct (Hold Hop) as (p & -> & Hm & ocm & okms & Hoc & Hot & Hok & _).
    unfold oldField in Hkms. cbn in Hkms. rewrite Hoc in Hkms. cbn in Hkms. rewrite Hok in Hkms.
    unfold kmsOf. rewrite Hc. cbn. rewrite Hk, Hoc. cbn. rewrite Hok. cbn. f_equal. by eapply kms_keeps_key.
Qed.

(** ** The life of a cluster *)

Definition etcdOf (c : ClusterResource V) : EtcdDataEncryptionProfile := ccp_Etcd (cr_CustomerProperties c).

(** [lifetime c0 c]: the cluster was created as [c0] and is now [c], after accepted
    updates and changes of the service, which do not touch the encryption profile. *)
Inductive lifetime (c0 : ClusterResource V) : ClusterResource V → Prop :=
  | lifetime_created op :
      op_Type op = Create → ValidateCluster op c0 None = [] → lifetime c0 c0
  | lifetime_updated op old new :
      lifetime c0 old → op_Type op = Update → ValidateCluster op new (Some old) = [] → lifetime c0 new
  | lifetime_serviced old new :
      lifetime c0 old → etcdOf new = etcdOf old → lifetime c0 new.

Lemma ValidateCluster_etcd op (new : ClusterResource V) old :
  ValidateCluster op new old = [] → ∃ path, validateEtcdDataEncryptionProfile op path (etcdOf new) (etcdOf <$> old) = [].
Proof.
  intros Hv%ValidateCluster_properties. unfold validateClusterCustomerProperties, validateEtcdProfile in Hv.
  cbv zeta in Hv. rewrite !app_nil_iff in Hv. decompose [and] Hv. exists (Child (Child "customerProperties" "etcd") "dataEncryption").
  destruct old; done.
Qed.

Lemma lifetime_etcdOk c0 c : lifetime c0 c → etcdOk (etcdOf c).
Proof.
  induction 1 as [op Hop Hv|op old new Hl IH Hop Hv|old new Hl IH Heq]; [..|by rewrite Heq].
  all: apply ValidateCluster_etcd in Hv as [path Hv]; apply etcd_accepted in Hv as [Hok _]; [done|].
  - intros Hu. congruence.
  - intros _. by exists (etcdOf old).
Qed.

(** (C37) From its creation on, through every accepted update and every change the
    service makes, a cluster has a complete customer managed encryption profile with a
    well formed key version, and it names the key it was created with: name, vault,
    visibility and vault type never change. *)
Theorem encryption_key_for_life c0 c :
  lifetime c0 c → etcdOk (etcdOf c) ∧ keyIdentity <$> kmsOf (etcdOf c) = keyIdentity <$> kmsOf (etcdOf c0).
Proof.
  intros Hlife. split; [by eapply lifetime_etcdOk|].
  induction Hlife as [op Hop Hv|op old new Hl IH Hop Hv|old new Hl IH Heq]; [done|..|by rewrite Heq].
  rewrite <- IH. apply ValidateCluster_etcd in Hv as [path Hv]. apply etcd_accepted in Hv as [_ Hkeep]; [by apply Hkeep|].
  intros _. exists (etcdOf old). split; [done|]. by eapply lifetime_etcdOk.
Qed.

(** What admission reads of the profile. *)
Definition etcdView (p : EtcdDataEncryptionProfile) : EtcdProfile := {|
  etcd_KeyManagementMode := de_KeyManagementMode p;
  etcd_KmsKeyVersion := (λ kms, key_Version (kms_ActiveKey kms)) <$> kmsOf p |}.

Lemma etcdOk_view p : etcdOk p → is_Some (etcd_KmsKeyVersion (etcdView p)).
Proof. intros (_ & cm & kms & Hc & _ & Hk & _). unfold etcdView, kmsOf. simpl. rewrite Hc. cbn. rewrite Hk. by eexists. Qed.

(** Once the service has recorded an active version, the admission check of the
    encryption key has a result for every update that the static validation accepts:
    it dereferences no nil pointer. *)
Theorem kms_check_completes c0 (old new : ClusterResource V) op ctx path (cpNew cpOld : CustomerProperties) (v : V) vs :
  lifetime c0 old → op_Type op = Update → ValidateCluster op new (Some old) = [] →
  cp_Etcd cpNew = etcdView (etcdOf new) → cp_Etcd cpOld = etcdView (etcdOf old) →
  (∀ spc, cac_ServiceProviderCluster ctx = Some spc → av_Version <$> spv_ActiveVersions spc = Some <$> (v :: vs)) →
  ∃ errs, admitClusterEtcdKmsKeyVersionChange ctx op path cpNew (Some cpOld) = Ok errs.
Proof.
  intros Hold Hop Hv Hcn Hco Hactive.
  destruct (etcdOk_view _ (lifetime_etcdOk _ _ Hold)) as [ko Hko].
  destruct (etcdOk_view (etcdOf new)) as [kn Hkn].
  { eapply lifetime_etcdOk, lifetime_updated; eassumption. }
  unfold admitClusterEtcdKmsKeyVersionChange. rewrite Hcn, Hco, Hko, Hkn.
  destruct (negb (bool_decide _)); [by eauto|]. destruct (_ && _); [by eauto|].
  destruct (String.eqb kn ko); [by eauto|]. destruct (APIVersion_LT _ _); [by eauto|].
  destruct (cac_ServiceProviderCluster ctx) as [spc|]; [|by eauto].
  unfold FindLowestAndHighestClusterVersion. rewrite (Hactive spc eq_refl).
  destruct (findLowestAndHighest_spec (v :: vs)) as [[? _]|(lo & hi & Hr & _)]; [done|]. rewrite Hr. cbn [result_bind fst].
  destruct (lineBelow lo 4 22); by eauto.
Qed.

(** ** Release lines *)

(** [v] is in the release line [major.minor] or a later one. *)
Definition lineAtLeast (v : V) (major minor : Z) : Prop := major < Major v ∨ Major v = major ∧ minor <= Minor v.

Lemma requestedBelow_line versionID (v : V) major minor :
  0 <= major < 2 ^ 64 → 0 <= minor < 2 ^ 64 → versionID ≠ EmptyString → ParseTolerant versionID = Some v →
  requestedBelow versionID (VersionOf major minor 0) = false → lineAtLeast v major minor.
Proof.
  intros Hmj Hmn Hne Hp. unfold requestedBelow. rewrite (proj2 (String.eqb_neq _ _) Hne), Hp.
  pose proof (Major_uint64 v) as Hvj. pose proof (Minor_uint64 v) as Hvn.
  assert (Hz : 0 <= 0 < 2 ^ 64) by lia.
  destruct (VersionOf_numbers (Major v) (Minor v) 0 Hvj Hvn Hz) as [Hj Hn].
  destruct (VersionOf_numbers major minor 0 Hmj Hmn Hz) as [Hj' Hn']. unfold LT, lineAtLeast.
  destruct (Z.lt_trichotomy (Major v) major) as [Hlt|[Heq|Hgt]]; [| |by left].
  - rewrite Compare_major by (rewrite Hj, Hj'; done). done.
  - destruct (Z.lt_ge_cases (Minor v) minor); [|by right].
    rewrite Compare_minor by (rewrite ?Hj, ?Hj', ?Hn, ?Hn'; done). done.
Qed.

(** An accepted cluster whose API server is private or whose key is in a managed
    HSM requests release line 4.22 or a later one; private endpoints come with an
    integration subnet; and under the experimental feature a pinned version is of the
    requested line and the nightly channel group has a pin. *)
Theorem cluster_release_line_gates op (new : ClusterResource V) old v :
  ValidateCluster op new old = [] →
  let cp := cr_CustomerProperties new in
  let pin := ef_ControlPlaneExactVersion (csp_ExperimentalFeatures (cr_ServiceProviderProperties new)) in
  let private := api_Visibility (ccp_API cp) = VisibilityPrivate in
  vp_ID (ccp_Version cp) ≠ EmptyString → ParseTolerant (vp_ID (ccp_Version cp)) = Some v →
  (private ∨ managedHSM new = true → lineAtLeast v 4 22) ∧
  (private ∨ privateKms new = true → is_Some (cpf_VnetIntegrationSubnetID (ccp_Platform cp))) ∧
  (HasOption op FeatureExperimentalReleaseFeatures = true →
     (vp_ChannelGroup (ccp_Version cp) = ChannelGroupNightly → is_Some pin) ∧
     ∀ w, pin = Some w → Major w = Major v ∧ Minor w = Minor v).
Proof.
  intros Hv cp pin private Hne Hp. unfold ClusterValidation.ValidateCluster in Hv. rewrite !app_nil_iff in Hv.
  destruct Hv as (_ & _ & _ & _ & _ & _ & _ & Hsubnet & Hkas & Hpin & Hhsm & _). split_and!.
  - assert (Hline : requestedBelow (vp_ID (ccp_Version cp)) (VersionOf (V := V) 4 22 0) = false → lineAtLeast v 4 22).
    { by apply requestedBelow_line. }
    intros [Hpr|Hm]; apply Hline.
    + unfold validatePrivateKASRequiresMinimumVersion in Hkas. fold cp in Hkas. unfold private in Hpr. rewrite Hpr in Hkas.
      by destruct (requestedBelow _ _) eqn:E in Hkas.
    + unfold validateManagedHSMRequiresMinimumVersion in Hhsm. rewrite Hm in Hhsm. fold cp in Hhsm. cbn [negb] in Hhsm.
      by destruct (requestedBelow _ _) eqn:E in Hhsm.
  - unfold validateClusterVNetIntegrationSubnetID in Hsubnet. fold cp in Hsubnet. cbv zeta in Hsubnet.
    destruct (cpf_VnetIntegrationSubnetID (ccp_Platform cp)); [by eexists|].
    rewrite !app_nil_iff, !if_nil in Hsubnet. destruct Hsubnet as (_ & Hpub & Hkms & _).
    apply String.eqb_neq in Hpub. by intros [Hpr|Hk]; [|rewrite Hk in Hkms].
  - intros Hexp. unfold validateControlPlaneExactVersionPin in Hpin. fold cp pin in Hpin. rewrite Hexp in Hpin. cbn [negb] in Hpin.
    destruct pin as [w|].
    + split; [by eauto|]. intros w' [= <-]. rewrite Hp in Hpin. apply if_nil, orb_false_iff in Hpin as [Hj Hn].
      apply negb_false_iff, Z.eqb_eq in Hj. apply negb_false_iff, Z.eqb_eq in Hn. done.
    + split; [|done]. intros Hg. by rewrite Hg in Hpin.
Qed.

End accepted_clusters.

(** ** Samples *)

#[local] Existing Instances Release.semver Release.laws ClusterSamples.fields.
#[local] Existing Instances KubernetesReference.validators KubernetesReference.laws.

Module ClusterDocuments.

#[export] Instance fieldLaws : VersionFieldLaws Release.t.
Proof.
  split. intros major minor patch Hj Hn Hp. cbn. unfold ClusterSamples.rel, Release.make.
  assert (Hok : Release.numbersOk (major, minor, patch) = true).
  { unfold Release.numbersOk, Release.u64b. rewrite !andb_true_iff, !Z.leb_le, !Z.ltb_lt. lia. }
  destruct (Sumbool.sumbool_of_bool _) as [Heq|Hneq]; [done|congruence].
Qed.

Definition resource (group type name text parent : string) : ResourceID := {|
  rid_SubscriptionID := "sub"; rid_ResourceGroupName := group; rid_Name := name; rid_ResourceType := type;
  rid_String := text; rid_Parent := Some {| parent_Name := "parent"; parent_String := parent |} |}.

Definition identityID (name : string) : ResourceID :=
  resource "net" userAssignedIdentityResourceType name ("/Identities/" +:+ name) "/identities".

(** The parser of resource IDs, on the identities of the samples. *)
Definition parse (s : string) : option ResourceID :=
  identityID <$> CutPrefix s "/Identities/".

Definition key (version : string) : EtcdDataEncryptionProfile := {|
  de_KeyManagementMode := "CustomerManaged";
  de_CustomerManaged := Some {| cm_EncryptionType := "KMS";
    cm_Kms := Some {| kms_Visibility := "Public"; kms_KeyVaultType := "KeyVault";
      kms_ActiveKey := {| key_Name := "etcd"; key_VaultName := "vault"; key_Version := version |} |} |} |}.

Definition keyA : string := "0123456789abcdef0123456789abcdef".
Definition keyB : string := "0123456789abcdef0123456789abcdee".

Definition network (pod : string) : NetworkProfile := {|
  nw_NetworkType := NetworkTypeOVNKubernetes; nw_PodCIDR := pod; nw_ServiceCIDR := "172.30.0.0/16";
  nw_MachineCIDR := "10.0.0.0/16"; nw_HostPrefix := 23 |}.

Definition document (version pod keyVersion visibility : string) : ClusterResource Release.t := {|
  cr_TrackedResource := {|
    tr_Resource := {| res_ID := Some (resource "rg" clusterResourceType "prod" "/clusters/prod" "/");
      res_Name := "prod"; res_Type := clusterResourceType;
      res_SystemData := Some {| sd_CreatedBy := "me"; sd_CreatedAt := Some 1; sd_CreatedByType := "User" |} |};
    tr_Location := "uksouth" |};
  cr_Tags := [];
  cr_CustomerProperties := {|
    ccp_Version := {| vp_ID := version; vp_ChannelGroup := "stable" |};
    ccp_BaseDomainPrefix := "prod";
    ccp_Network := network pod;
    ccp_API := {| api_Visibility := visibility; api_AuthorizedCIDRs := Some ["192.0.2.1"; "198.51.100.0/24"] |};
    ccp_IngressType := "Public";
    ccp_Platform := {|
      cpf_ManagedResourceGroup := "managed";
      cpf_SubnetID := Some (resource "net" subnetResourceType "workers" "/vnet/subnets/workers" "/vnet");
      cpf_VnetIntegrationSubnetID := Some (resource "net" subnetResourceType "swift" "/vnet/subnets/swift" "/vnet");
      cpf_OutboundType := "LoadBalancer";
      cpf_NetworkSecurityGroupID := Some (resource "net" networkSecurityGroupResourceType "nsg" "/nsgs/nsg" "/");
      cpf_OperatorsAuthentication := {|
        ua_ControlPlaneOperators := {[ "kms" := Some (identityID "KMS"); "ingress" := Some (identityID "Ingress") ]};
        ua_DataPlaneOperators := {[ "ingress" := Some (identityID "workers") ]};
        ua_ServiceManagedIdentity := Some (identityID "service") |};
      cpf_PullManagedIdentity := None |};
    ccp_Autoscaling := {| as_MaxNodesTotal := 0; as_MaxPodGracePeriodSeconds := 600;
      as_MaxNodeProvisionTimeSeconds := 900; as_PodPriorityThreshold := -10 |};
    ccp_NodeDrainTimeoutMinutes := 0;
    ccp_Etcd := key keyVersion;
    ccp_ClusterImageRegistryState := "Enabled";
    ccp_ImageDigestMirrors := Some [{| idm_Source := "quay.io/my-org"; idm_Mirrors := Some ["mirror.example.com:5000/my_org"];
      idm_MirrorSourcePolicy := "AllowContactingSource" |}];
    ccp_CryptoRestrictions := "None" |};
  cr_ServiceProviderProperties := {|
    csp_ProvisioningState := "Succeeded"; csp_ClusterServiceID := None; csp_BaseDomain := EmptyString;
    csp_ConsoleURL := EmptyString; csp_APIURL := EmptyString; csp_IssuerURL := EmptyString;
    csp_ExperimentalFeatures := noExperimentalFeatures;
    csp_ManagedIdentitiesDataPlaneIdentityURL := "https://identity"; csp_ClusterUID := "uid" |};
  cr_Identity := Some {| msi_PrincipalID := EmptyString; msi_TenantID := EmptyString; msi_Type := "UserAssigned";
    msi_UserAssignedIdentities := {[ "/Identities/kms" := None; "/Identities/ingress" := None; "/Identities/service" := None ]} |} |}.

Definition accepted : ClusterResource Release.t := document "4.22" "10.128.0.0/14" keyA "Private".
Definition rotated : ClusterResource Release.t := document "4.22" "10.128.0.0/14" keyB "Private".

Definition validate (op : Operation) := ValidateCluster (V := Release.t) parse (λ _, true) op.

Example sample_accepted : validate PoolDocuments.create accepted None = [].
Proof. vm_compute. reflexivity. Qed.

(** A pod network inside the machine network is refused. *)
Example overlap_refused :
  validate PoolDocuments.create (document "4.22" "10.0.128.0/18" keyA "Public") None
  = [Invalid "customerProperties.network" "10.0.0.0/16" (NetworksOverlap "10.0.0.0/16" "10.0.128.0/18")].
Proof. vm_compute. reflexivity. Qed.

(** A private API server needs release line 4.22. *)
Example private_refused :
  validate PoolDocuments.create (document "4.21" "10.128.0.0/14" keyA "Private") None
  = [Invalid "customerProperties.api.visibility" "Private" (RequiresVersion 4 22)].
Proof. vm_compute. reflexivity. Qed.

End ClusterDocuments.

Import ClusterDocuments.

Lemma cluster_networks_disjoint_witness : disjointNets "10.0.0.0/16" "10.128.0.0/14".
Proof.
  destruct (cluster_networks_disjoint (V := Release.t) parse (λ _, true) PoolDocuments.create accepted None) as (_ & Hd & _).
  - vm_compute. reflexivity.
  - exact Hd.
Defined.

Lemma cluster_update_frozen_witness : frozen rotated = frozen accepted.
Proof.
  apply (cluster_update_frozen (V := Release.t) parse (λ _, true) PoolDocuments.update); [reflexivity|].
  vm_compute. reflexivity.
Defined.

Lemma encryption_key_for_life_witness : etcdOk (key keyB).
Proof.
  destruct (encryption_key_for_life (V := Release.t) parse (λ _, true) accepted rotated) as [Hok _].
  - apply (lifetime_updated _ _ _ PoolDocuments.update accepted); [|reflexivity|vm_compute; reflexivity].
    apply (lifetime_created _ _ _ PoolDocuments.create); [reflexivity|vm_compute; reflexivity].
  - exact Hok.
Defined.

Lemma cluster_release_line_gates_witness : lineAtLeast (ClusterSamples.rel 4 22 0) 4 22.
Proof.
  destruct (cluster_release_line_gates (V := Release.t) parse (λ _, true) PoolDocuments.create accepted None
    (ClusterSamples.rel 4 22 0)) as (Hline & _).
  - vm_compute. reflexivity.
  - discriminate.
  - apply (f_equal Some). ClusterFeatures.evaluates.
  - apply Hline. left. reflexivity.
Defined.

Lemma kms_check_completes_witness :
  ∃ errs, admitClusterEtcdKmsKeyVersionChange (ClusterSamples.context (ClusterSamples.document [] "4.22" (Some keyB))
    [ClusterSamples.rel 4 22 1]) ClusterSamples.update "path" (ClusterSamples.properties "4.22" (Some keyB))
    (Some (ClusterSamples.properties "4.22" (Some keyA))) = Ok errs.
Proof.
  apply (kms_check_completes (V := Release.t) parse (λ _, true) accepted accepted rotated _ _ _ _ _
    (ClusterSamples.rel 4 22 1) []).
  - apply (lifetime_created _ _ _ PoolDocuments.create); [reflexivity|vm_compute; reflexivity].
  - reflexivity.
  - vm_compute. reflexivity.
  - reflexivity.
  - reflexivity.
  - intros spc [= <-]. reflexivity.
Defined.
