(* ===== verification/StatusConditions.v ===== *)
(** * Status conditions: aggregation of what controllers report

    [backend/pkg/utils/statusutils]: the union of the conditions of many sources into
    one, with inertia against flapping; the collection of [Degraded] conditions with
    the cache of first bad observations; the two aggregations for users.

    A time is a number of nanoseconds since the zero [time.Time].  The LRU cache and
    the conditions of apimachinery are interfaces with the behaviour they document;
    [ObservedGeneration], which none of this sets, is left out of a condition. *)
From S2P Require Import Prelude GoStrings RolloutTypes.

Local Open Scope string_scope.
Local Open Scope Z_scope.

(** ** Conditions *)

Definition ConditionTrue : string := "True".
Definition ConditionFalse : string := "False".
Definition ConditionUnknown : string := "Unknown".

(** [metav1.Condition]. *)
Record StatusCondition := {
  sc_Type : string;
  sc_Status : string;
  sc_Reason : string;
  sc_Message : string;
  sc_LastTransitionTime : Z;
}.

#[export] Instance StatusCondition_eq_dec : EqDecision StatusCondition.
Proof. solve_decision. Defined.

Record SourcedCondition := { ControllerName : string; source_Condition : StatusCondition }.

#[export] Instance SourcedCondition_eq_dec : EqDecision SourcedCondition.
Proof. solve_decision. Defined.

(** ** Messages *)

Record namedMessage := { nm_name : string; nm_message : string }.

Definition newline : ascii := ascii_of_N 10.

(** [uniq]: the first occurrences, in order. *)
Fixpoint uniqFrom (seen : gset string) (s : list string) : list string :=
  match s with
  | [] => []
  | v :: rest => if bool_decide (v ∈ seen) then uniqFrom seen rest else v :: uniqFrom ({[v]} ∪ seen) rest
  end.
Definition uniq (s : list string) : list string := uniqFrom ∅ s.

Definition messageLines (src : namedMessage) : list string :=
  if String.eqb (nm_message src) EmptyString then []
  else (λ line, nm_name src +:+ ": " +:+ line) <$> uniq (Split newline (nm_message src)).

Definition joinNamedMessages (sources : list namedMessage) : string :=
  Join (String newline EmptyString) (flat_map messageLines sources).

Definition unionMessage (sources : list SourcedCondition) : string :=
  joinNamedMessages
    ((λ src, {| nm_name := ControllerName src; nm_message := sc_Message (source_Condition src) |}) <$> sources).

Definition reasonPart (src : SourcedCondition) : string :=
  if String.eqb (sc_Reason (source_Condition src)) EmptyString then ControllerName src
  else ControllerName src +:+ "_" +:+ sc_Reason (source_Condition src).

Definition unionReason (sources : list SourcedCondition) : string :=
  Join "::" (sort_by string_less (reasonPart <$> sources)).

Definition latestTransitionTime (sources : list SourcedCondition) : Z :=
  List.fold_left (λ latest src,
    let t := sc_LastTransitionTime (source_Condition src) in if latest <? t then t else latest) sources 0.

(** ** Inertia *)

Definition Inertia : Type := string → StatusCondition → Z.

(** The matcher of a [*regexp.Regexp] is its [MatchString]. *)
Record InertiaController := { ControllerNameMatcher : option (string → bool); ic_Duration : Z }.
Record InertiaConfig := { defaultDuration : Z; ic_controllers : list InertiaController }.

(** The index of the override without a matcher. *)
Inductive inertia_error : Type := NilMatcher (index : nat).

Fixpoint nilMatcher (i : nat) (controllers : list InertiaController) : option nat :=
  match controllers with
  | [] => None
  | c :: rest => match ControllerNameMatcher c with None => Some i | Some _ => nilMatcher (S i) rest end
  end.

Definition NewInertia (duration : Z) (controllers : list InertiaController) : result inertia_error InertiaConfig :=
  match nilMatcher 0 controllers with
  | Some i => Err (NilMatcher i)
  | None => Ok {| defaultDuration := duration; ic_controllers := controllers |}
  end.

(** The first matching override decides; [NewInertia] excludes missing matchers. *)
Definition InertiaConfig_Inertia (c : InertiaConfig) : Inertia := λ controllerName _,
  match List.find (λ o, match ControllerNameMatcher o with
                        | Some MatchString => MatchString controllerName
                        | None => false
                        end) (ic_controllers c) with
  | Some o => ic_Duration o
  | None => defaultDuration c
  end.

Definition DefaultInertia : Z := 30 * 1000000000.

(** ** The union *)

Definition byControllerName (a b : SourcedCondition) : bool := string_less (ControllerName a) (ControllerName b).

(** A source that disagrees with the default and has done so for longer than its inertia. *)
Definition isElder (inertia : option Inertia) (now : Z) (src : SourcedCondition) : bool :=
  match inertia with
  | None => true
  | Some f =>
      sc_LastTransitionTime (source_Condition src) <? now - f (ControllerName src) (source_Condition src)
  end.

Definition opposite (status : string) : string :=
  if String.eqb status ConditionTrue then ConditionFalse else ConditionTrue.

Definition hasType (conditionType : string) (src : SourcedCondition) : bool :=
  String.eqb (sc_Type (source_Condition src)) conditionType.

Definition disagrees (status : string) (src : SourcedCondition) : bool :=
  negb (String.eqb (sc_Status (source_Condition src)) status).

Definition UnionCondition (conditionType defaultStatus : string) (inertia : option Inertia) (now : Z)
    (sources : list SourcedCondition) : StatusCondition :=
  let oppositeStatus := opposite defaultStatus in
  let interesting := sort_by byControllerName (List.filter (hasType conditionType) sources) in
  let bad := sort_by byControllerName (List.filter (disagrees defaultStatus) (List.filter (hasType conditionType) sources)) in
  let badStatus :=
    if existsb (λ src, String.eqb (sc_Status (source_Condition src)) oppositeStatus) bad
    then oppositeStatus else ConditionUnknown in
  let elderBad := List.filter (isElder inertia now) bad in
  match interesting with
  | [] => {| sc_Type := conditionType; sc_Status := defaultStatus; sc_Reason := "AsExpected";
             sc_Message := "All is well"; sc_LastTransitionTime := now |}
  | _ =>
      match elderBad with
      | [] =>
          let message := unionMessage interesting in
          {| sc_Type := conditionType; sc_Status := defaultStatus; sc_Reason := "AsExpected";
             sc_Message := if String.eqb message EmptyString then "All is well" else message;
             sc_LastTransitionTime := latestTransitionTime interesting |}
      | _ =>
          {| sc_Type := conditionType; sc_Status := badStatus; sc_Reason := unionReason bad;
             sc_Message := unionMessage bad; sc_LastTransitionTime := latestTransitionTime bad |}
      end
  end.

(** ** Collecting degraded items *)

Definition DegradedConditionType : string := "Degraded".
Definition reasonMissingDegraded : string := "MissingDegradedCondition".
Definition ApplyDesireSourcePrefix : string := "applydesire".
Definition ReadDesireSourcePrefix : string := "readdesire".
Definition firstObservedBadCacheCapacity : Z := 50000.

(** The LRU cache of [k8s.io/utils/lru], from keys to times: a lookup may reorder the
    entries, an insertion may evict one when the cache is full. *)
Class LRU (C : Type) := {
  lru_Get : C → string → option Z * C;
  lru_Add : C → string → Z → C;
  lru_Remove : C → string → C;
  lru_lookup : C → string → option Z;
  lru_keys : C → gset string;
}.

Class LRULaws (C : Type) `{LRU C} := {
  elem_of_lru_keys : ∀ c k, k ∈ lru_keys c ↔ is_Some (lru_lookup c k);
  lru_Get_value : ∀ c k, (lru_Get c k).1 = lru_lookup c k;
  lru_Get_lookup : ∀ c k k', lru_lookup (lru_Get c k).2 k' = lru_lookup c k';
  lru_Add_same : ∀ c k t, lru_lookup (lru_Add c k t) k = Some t;
  lru_Add_other : ∀ c k t k', k ≠ k' →
    Z.of_nat (size ({[k]} ∪ lru_keys c)) <= firstObservedBadCacheCapacity →
    lru_lookup (lru_Add c k t) k' = lru_lookup c k';
  lru_Remove_lookup : ∀ c k k', lru_lookup (lru_Remove c k) k' = if String.eqb k k' then None else lru_lookup c k';
}.

(** [FindStatusCondition] and [SetStatusCondition] of [k8s.io/apimachinery/pkg/api/meta];
    the latter reads the clock for a condition without a transition time. *)
Class ConditionOps := {
  FindStatusCondition : list StatusCondition → string → option StatusCondition;
  SetStatusCondition : Z → list StatusCondition → StatusCondition → list StatusCondition;
}.

(** Two conditions that say the same, whenever it became true. *)
Definition saysSame (a b : StatusCondition) : Prop :=
  sc_Type a = sc_Type b ∧ sc_Status a = sc_Status b ∧ sc_Reason a = sc_Reason b ∧ sc_Message a = sc_Message b.

#[export] Instance saysSame_dec a b : Decision (saysSame a b).
Proof. unfold saysSame. apply _. Defined.

Class ConditionLaws `{ConditionOps} := {
  FindStatusCondition_some : ∀ l t c, FindStatusCondition l t = Some c → c ∈ l ∧ sc_Type c = t;
  FindStatusCondition_none : ∀ l t, FindStatusCondition l t = None → ∀ c, c ∈ l → sc_Type c ≠ t;
  SetStatusCondition_same : ∀ clock l c, ∃ c',
    FindStatusCondition (SetStatusCondition clock l c) (sc_Type c) = Some c' ∧ saysSame c' c;
  SetStatusCondition_other : ∀ clock l c t, t ≠ sc_Type c →
    FindStatusCondition (SetStatusCondition clock l c) t = FindStatusCondition l t;
  SetStatusCondition_unchanged : ∀ clock l c c', FindStatusCondition l (sc_Type c) = Some c' → saysSame c' c →
    SetStatusCondition clock l c = l;
}.

(** The documents that are aggregated; others have no conditions. *)
Inductive statusItem : Type :=
  | ControllerItem (id : option ResourceID) (conditions : list StatusCondition)
  | ApplyDesireItem (id : option ResourceID) (conditions : list StatusCondition)
  | ReadDesireItem (id : option ResourceID) (conditions : list StatusCondition)
  | OtherItem (id : option ResourceID).

Definition GetResourceID (item : statusItem) : option ResourceID :=
  match item with
  | ControllerItem id _ | ApplyDesireItem id _ | ReadDesireItem id _ | OtherItem id => id
  end.

Definition ConditionsOfKnown (item : statusItem) : list StatusCondition :=
  match item with
  | ControllerItem _ conditions | ApplyDesireItem _ conditions | ReadDesireItem _ conditions => conditions
  | OtherItem _ => []
  end.

Definition degradedSourceName (sourcePrefix : string) (resourceID : ResourceID) : string :=
  if String.eqb sourcePrefix EmptyString then rid_Name resourceID
  else sourcePrefix +:+ ToLower (rid_String resourceID).

Section collect.
Context {C : Type} `{LRU C} `{ConditionOps}.

Definition observe (cache : C) (controllerResourceID : string) (now : Z) : Z * C :=
  let key := ToLower controllerResourceID in
  let '(v, cache) := lru_Get cache key in
  match v with
  | Some t => (t, cache)
  | None => (now, lru_Add cache key now)
  end.

Definition forget (cache : C) (controllerResourceID : string) : C := lru_Remove cache (ToLower controllerResourceID).

Definition missingCondition (t : Z) : StatusCondition := {|
  sc_Type := DegradedConditionType; sc_Status := ConditionTrue; sc_Reason := reasonMissingDegraded;
  sc_Message := "has not reported a Degraded condition"; sc_LastTransitionTime := t |}.

(** The body of the loop: what an item contributes, and the cache afterwards.
    [clock id] is the reading of the clock when [id] is observed. *)
Definition collectItem (conditionsOf : statusItem → list StatusCondition) (sourcePrefix : string)
    (clock : string → Z) (cache : C) (item : statusItem) : list SourcedCondition * C :=
  match GetResourceID item with
  | None => ([], cache)
  | Some resourceID =>
      let ridString := rid_String resourceID in
      let name := degradedSourceName sourcePrefix resourceID in
      match FindStatusCondition (conditionsOf item) DegradedConditionType with
      | Some cond =>
          let cache := forget cache ridString in
          if String.eqb (sc_Status cond) ConditionFalse then ([], cache)
          else ([{| ControllerName := name; source_Condition := cond |}], cache)
      | None =>
          let '(t, cache) := observe cache ridString (clock ridString) in
          ([{| ControllerName := name; source_Condition := missingCondition t |}], cache)
      end
  end.

Fixpoint CollectDegradedConditions (items : list statusItem) (conditionsOf : statusItem → list StatusCondition)
    (sourcePrefix : string) (clock : string → Z) (cache : C) : list SourcedCondition * C :=
  match items with
  | [] => ([], cache)
  | item :: rest =>
      let '(out, cache) := collectItem conditionsOf sourcePrefix clock cache item in
      let '(more, cache) := CollectDegradedConditions rest conditionsOf sourcePrefix clock cache in
      ((out ++ more)%list, cache)
  end.

End collect.

(** ** Conditions for users *)

Definition RequirementsValidConditionType : string := "RequirementsValid".
Definition RequirementsValidConditionReasonValid : string := "Valid".
Definition RequirementsValidConditionReasonDegraded : string := "Degraded".

Definition ofCondition (c : StatusCondition) : namedMessage := {| nm_name := sc_Type c; nm_message := sc_Message c |}.

(** The messages of the conditions that do not have the good status, by type. *)
Definition failedMessages (good : string) (conditions : list StatusCondition) : list namedMessage :=
  sort_by (λ a b, string_less (nm_name a) (nm_name b))
    (ofCondition <$> List.filter (λ c, negb (String.eqb (sc_Status c) good)) conditions).

(** The time is filled in by [SetStatusCondition]. *)
Definition AggregateRequirementsValidCondition (validations : list StatusCondition) : StatusCondition :=
  match failedMessages ConditionTrue validations with
  | [] => {| sc_Type := RequirementsValidConditionType; sc_Status := ConditionTrue;
             sc_Reason := RequirementsValidConditionReasonValid; sc_Message := EmptyString; sc_LastTransitionTime := 0 |}
  | failed => {| sc_Type := RequirementsValidConditionType; sc_Status := ConditionFalse;
                 sc_Reason := RequirementsValidConditionReasonDegraded; sc_Message := joinNamedMessages failed;
                 sc_LastTransitionTime := 0 |}
  end.

Definition ExternalAuthUserFacingDegradedReasonAsExpected : string := "AsExpected".
Definition ExternalAuthUserFacingDegradedReason : string := "ExternalAuthDegraded".
Definition ExternalAuthUserFacingDegradedReasonDegradedStateUnknown : string := "ExternalAuthDegradedStateUnknown".

Definition AggregateExternalAuthUserFacingDegradedCondition (conditions : list StatusCondition) : StatusCondition :=
  let hasTrue := existsb (λ c, String.eqb (sc_Status c) ConditionTrue) conditions in
  match failedMessages ConditionFalse conditions with
  | [] => {| sc_Type := DegradedConditionType; sc_Status := ConditionFalse;
             sc_Reason := ExternalAuthUserFacingDegradedReasonAsExpected; sc_Message := "All is well";
             sc_LastTransitionTime := 0 |}
  | failed =>
      {| sc_Type := DegradedConditionType;
         sc_Status := if hasTrue then ConditionTrue else ConditionUnknown;
         sc_Reason := if hasTrue then ExternalAuthUserFacingDegradedReason
                      else ExternalAuthUserFacingDegradedReasonDegradedStateUnknown;
         sc_Message := joinNamedMessages failed; sc_LastTransitionTime := 0 |}
  end.

(** ** The status of a union *)

Section keyed_sort.
Context {A : Type} (key : A → string).

Definition byKey (a b : A) : bool := string_less (key a) (key b).

(** Elements with distinct keys have one sorted arrangement. *)
Lemma sort_by_key_unique (l l' : list A) :
  NoDup (key <$> l) → l ≡ₚ l' → sort_by byKey l = sort_by byKey l'.
Proof.
  intros Hnd Hp. eapply StronglySorted_unique_strong with (R := ordered byKey).
  - intros x y Hx Hy. rewrite elem_of_sort_by in Hx, Hy. unfold ordered, byKey.
    rewrite !string_less_false. intros Hyx Hxy.
    assert (Hk : key x = key y) by by apply (anti_symm String.le).
    rewrite <- Hp in Hy. apply elem_of_Permutation in Hx as [k Hk']. rewrite Hk' in Hnd, Hy.
    apply elem_of_cons in Hy as [->|Hy]; [done|]. exfalso.
    rewrite fmap_cons in Hnd. apply NoDup_cons in Hnd as [Hnot _]. apply Hnot.
    rewrite Hk. by apply list_elem_of_fmap_2.
  - apply sort_by_sorted; unfold ordered, byKey; eauto with aro.
    intros a b c. apply string_ordered_trans.
  - apply sort_by_sorted; unfold ordered, byKey; eauto with aro.
    intros a b c. apply string_ordered_trans.
  - by rewrite !sort_by_perm.
Qed.
End keyed_sort.

Lemma filter_perm {A} (p : A → bool) l l' : l ≡ₚ l' → List.filter p l ≡ₚ List.filter p l'.
Proof.
  induction 1; simpl; repeat case_match; eauto using Permutation_trans.
  constructor.
Qed.

Lemma existsb_perm {A} (p : A → bool) l l' : l ≡ₚ l' → existsb p l = existsb p l'.
Proof.
  intros Hp. apply eq_true_iff_eq. rewrite !existsb_exists.
  setoid_rewrite <- list_elem_of_In. by setoid_rewrite Hp.
Qed.

Lemma sort_by_nil {A} (less : A → A → bool) l : sort_by less l = [] ↔ l = [].
Proof.
  split; [|by intros ->]. intros E. pose proof (sort_by_perm less l) as Hp.
  rewrite E in Hp. by apply Permutation_nil.
Qed.

(** The sources a union of type [t] looks at. *)
Definition ofType (t : string) (sources : list SourcedCondition) : list SourcedCondition :=
  List.filter (hasType t) sources.

Definition badOf (t d : string) (sources : list SourcedCondition) : list SourcedCondition :=
  List.filter (disagrees d) (ofType t sources).

(** The union has the good status unless a bad source has outlived its inertia; then it
    has the bad status if any source has it, and is unknown otherwise. *)
Lemma UnionCondition_status t d inertia now sources :
  sc_Status (UnionCondition t d inertia now sources) =
    if existsb (isElder inertia now) (badOf t d sources) then
      if existsb (λ src, String.eqb (sc_Status (source_Condition src)) (opposite d)) (badOf t d sources)
      then opposite d else ConditionUnknown
    else d.
Proof.
  unfold UnionCondition. fold (ofType t sources) (badOf t d sources).
  rewrite (existsb_perm _ _ _ (sort_by_perm byControllerName (badOf t d sources))).
  pose proof (filter_perm (isElder inertia now) _ _ (sort_by_perm byControllerName (badOf t d sources))) as Helder.
  assert (Hx : existsb (isElder inertia now) (badOf t d sources) = false ↔
               List.filter (isElder inertia now) (sort_by byControllerName (badOf t d sources)) = []).
  { rewrite <- not_true_iff_false, existsb_exists. split.
    - intros Hno. apply elem_of_nil_inv. intros src. rewrite Helder, list_elem_of_In, filter_In. naive_solver.
    - intros E (src & Hin & He). rewrite E in Helder.
      apply Permutation_nil in Helder.
      assert (Hf : src ∈ List.filter (isElder inertia now) (badOf t d sources))
        by (apply list_elem_of_In, filter_In; done).
      rewrite Helder in Hf. by apply not_elem_of_nil in Hf. }
  destruct (sort_by byControllerName (ofType t sources)) as [|i rest] eqn:Ei.
  - apply sort_by_nil in Ei. unfold badOf. rewrite Ei. done.
  - destruct (existsb (isElder inertia now) (badOf t d sources)) eqn:Ee.
    + destruct (List.filter (isElder inertia now) _) eqn:Ef; [|done]. by pose proof (proj2 Hx eq_refl).
    + by rewrite (proj1 Hx).
Qed.

(** The aggregate does not depend on the order in which the sources are listed, its
    message and reason included, when the sources of the type have distinct names: a
    listing in another order does not rewrite the parent. *)
Theorem UnionCondition_order_free t d inertia now sources sources' :
  NoDup (ControllerName <$> ofType t sources) → sources ≡ₚ sources' →
  UnionCondition t d inertia now sources = UnionCondition t d inertia now sources'.
Proof.
  intros Hnd Hp.
  assert (Hof : ofType t sources ≡ₚ ofType t sources') by by apply filter_perm.
  assert (Hbad : badOf t d sources ≡ₚ badOf t d sources') by by apply filter_perm.
  assert (Hndb : NoDup (ControllerName <$> badOf t d sources)).
  { eapply sublist_NoDup; [exact Hnd|]. apply fmap_sublist. unfold badOf.
    generalize (ofType t sources). intros l. induction l as [|x l IH]; simpl; [done|].
    destruct (disagrees d x); by constructor. }
  unfold UnionCondition.
  fold (ofType t sources) (ofType t sources') (badOf t d sources) (badOf t d sources').
  change byControllerName with (byKey ControllerName).
  by rewrite (sort_by_key_unique ControllerName _ _ Hnd Hof), (sort_by_key_unique ControllerName _ _ Hndb Hbad).
Qed.

(** ** What a pass collects *)

Section collected.
Context {C : Type} `{LRULaws C} `{ConditionLaws}.

Definition itemKey (item : statusItem) : option string := (λ id, ToLower (rid_String id)) <$> GetResourceID item.

(** What an item is bad about at the start of a pass, if anything: the condition it
    reports, or that it reports none, since the first time this was seen. *)
Definition itemBad (cache : C) (clock : string → Z) (item : statusItem) : option StatusCondition :=
  match GetResourceID item with
  | None => None
  | Some id =>
      match FindStatusCondition (ConditionsOfKnown item) DegradedConditionType with
      | Some cond => if String.eqb (sc_Status cond) ConditionFalse then None else Some cond
      | None => Some (missingCondition (default (clock (rid_String id)) (lru_lookup cache (ToLower (rid_String id)))))
      end
  end.

Definition itemSource (prefix : string) (cache : C) (clock : string → Z) (item : statusItem) : option SourcedCondition :=
  id ← GetResourceID item;
  cond ← itemBad cache clock item;
  Some {| ControllerName := degradedSourceName prefix id; source_Condition := cond |}.

(** All keys fit in the cache. *)
Definition keysFit (keys : gset string) (cache : C) (items : list statusItem) : Prop :=
  Z.of_nat (size keys) <= firstObservedBadCacheCapacity ∧ lru_keys cache ⊆ keys ∧
  Forall (λ item, ∀ k, itemKey item = Some k → k ∈ keys) items.

(** The entry of a key after an item of that key was collected. *)
Definition entryAfter (cache : C) (clock : string → Z) (item : statusItem) : option Z :=
  match FindStatusCondition (ConditionsOfKnown item) DegradedConditionType with
  | Some _ => None
  | None => sc_LastTransitionTime <$> itemBad cache clock item
  end.

Lemma observe_value (cache : C) id now :
  (observe cache id now).1 = default now (lru_lookup cache (ToLower id)).
Proof.
  unfold observe. pose proof (lru_Get_value cache (ToLower id)) as Hv.
  destruct (lru_Get cache (ToLower id)) as [v c]. simpl in Hv. subst v. by destruct (lru_lookup _ _).
Qed.

Lemma observe_lookup keys (cache : C) id now k :
  Z.of_nat (size keys) <= firstObservedBadCacheCapacity → lru_keys cache ⊆ keys → ToLower id ∈ keys →
  lru_lookup (observe cache id now).2 k =
    if String.eqb (ToLower id) k then Some (default now (lru_lookup cache (ToLower id))) else lru_lookup cache k.
Proof.
  intros Hsize Hsub Hid. unfold observe.
  pose proof (lru_Get_value cache (ToLower id)) as Hv. pose proof (lru_Get_lookup cache (ToLower id)) as Hl.
  destruct (lru_Get cache (ToLower id)) as [v c]. simpl in Hv, Hl. subst v.
  destruct (lru_lookup cache (ToLower id)) as [t|] eqn:E; simpl.
  - rewrite Hl. destruct (String.eqb_spec (ToLower id) k) as [<-|]; done.
  - destruct (String.eqb_spec (ToLower id) k) as [<-|Hne]; [apply lru_Add_same|].
    rewrite lru_Add_other, Hl; [done|done|].
    etrans; [|exact Hsize]. apply inj_le, subseteq_size.
    intros x. rewrite elem_of_union, elem_of_singleton, elem_of_lru_keys, Hl, <- elem_of_lru_keys. set_solver.
Qed.

Lemma forget_lookup (cache : C) id k :
  lru_lookup (forget cache id) k = if String.eqb (ToLower id) k then None else lru_lookup cache k.
Proof. apply lru_Remove_lookup. Qed.

Lemma itemBad_ext (cache cache' : C) clock item :
  (∀ k, itemKey item = Some k → lru_lookup cache k = lru_lookup cache' k) →
  itemBad cache clock item = itemBad cache' clock item.
Proof.
  unfold itemBad, itemKey. destruct (GetResourceID item) as [id|]; simpl; [|done].
  intros Hk. by rewrite (Hk _ eq_refl).
Qed.

(** The body of the loop on one item. *)
Lemma collectItem_spec keys (cache : C) prefix clock item :
  keysFit keys cache [item] →
  (collectItem ConditionsOfKnown prefix clock cache item).1 = option_list (itemSource prefix cache clock item) ∧
  lru_keys (collectItem ConditionsOfKnown prefix clock cache item).2 ⊆ keys ∧
  ∀ k, lru_lookup (collectItem ConditionsOfKnown prefix clock cache item).2 k =
    if decide (itemKey item = Some k) then entryAfter cache clock item else lru_lookup cache k.
Proof.
  intros (Hsize & Hsub & Hitem). rewrite Forall_singleton in Hitem. revert Hitem.
  unfold collectItem, itemSource, entryAfter, itemBad, itemKey.
  destruct (GetResourceID item) as [id|]; simpl; [|done].
  intros Hid. specialize (Hid _ eq_refl).
  destruct (FindStatusCondition _ _) as [cond|]; simpl.
  - assert (Hl : ∀ k, lru_lookup (forget cache (rid_String id)) k =
      if decide (Some (ToLower (rid_String id)) = Some k) then None else lru_lookup cache k).
    { intros k. rewrite forget_lookup. destruct (String.eqb_spec (ToLower (rid_String id)) k); case_decide; congruence. }
    assert (Hk : lru_keys (forget cache (rid_String id)) ⊆ keys).
    { intros k. rewrite elem_of_lru_keys, Hl. case_decide; [by intros []|].
      rewrite <- elem_of_lru_keys. apply Hsub. }
    destruct (String.eqb (sc_Status cond) ConditionFalse); done.
  - pose proof (observe_value cache (rid_String id) (clock (rid_String id))) as Hv.
    pose proof (λ k, observe_lookup keys cache (rid_String id) (clock (rid_String id)) k Hsize Hsub Hid) as Hl.
    destruct (observe cache (rid_String id) (clock (rid_String id))) as [t c]. simpl in Hv, Hl |- *. subst t.
    assert (Hl' : ∀ k, lru_lookup c k = if decide (Some (ToLower (rid_String id)) = Some k)
      then Some (default (clock (rid_String id)) (lru_lookup cache (ToLower (rid_String id)))) else lru_lookup cache k).
    { intros k. rewrite Hl. destruct (String.eqb_spec (ToLower (rid_String id)) k); case_decide; congruence. }
    split_and!; [done| |done].
    intros k. rewrite elem_of_lru_keys, Hl'. case_decide as Hd; [by simplify_eq|].
    rewrite <- elem_of_lru_keys. apply Hsub.
Qed.

(** The loop collects what each item is bad about on its own: the cache, read and
    written between the items, does not let one item change what is said of another. *)
Lemma CollectDegradedConditions_spec keys prefix clock items (cache : C) :
  keysFit keys cache items → NoDup (omap itemKey items) →
  let collected := CollectDegradedConditions items ConditionsOfKnown prefix clock cache in
  collected.1 = omap (itemSource prefix cache clock) items ∧ lru_keys collected.2 ⊆ keys ∧
  (∀ k, k ∉ omap itemKey items → lru_lookup collected.2 k = lru_lookup cache k) ∧
  (∀ item k, item ∈ items → itemKey item = Some k → lru_lookup collected.2 k = entryAfter cache clock item).
Proof.
  revert cache. induction items as [|item items IH]; intros cache (Hsize & Hsub & Hall) Hnd; simpl.
  { split_and!; [done|done|done|]. intros item k Hin. by apply not_elem_of_nil in Hin. }
  apply Forall_cons in Hall as [Hitem Hall].
  destruct (collectItem_spec keys cache prefix clock item) as (Hout & Hkeys & Hlook);
    [split_and!; [done|done|by apply Forall_singleton]|].
  destruct (collectItem ConditionsOfKnown prefix clock cache item) as [out c]. simpl in Hout, Hkeys, Hlook. subst out.
  assert (Hother : ∀ item', item' ∈ items → ∀ k, itemKey item' = Some k → lru_lookup c k = lru_lookup cache k).
  { intros item' Hin k Hk. rewrite Hlook. case_decide as Hd; [|done]. exfalso.
    simpl in Hnd. rewrite Hd in Hnd. apply NoDup_cons in Hnd as [Hnot _]. apply Hnot, list_elem_of_omap. eauto. }
  assert (Hnd' : NoDup (omap itemKey items)).
  { simpl in Hnd. destruct (itemKey item); [by apply NoDup_cons in Hnd as [_ ?]|done]. }
  destruct (IH c) as (Hmore & Hkeys' & Hfree & Hdone); [done|done|].
  destruct (CollectDegradedConditions items ConditionsOfKnown prefix clock c) as [more c']. simpl in *.
  split_and!.
  - subst more. assert (Heq : omap (itemSource prefix c clock) items = omap (itemSource prefix cache clock) items).
    { apply list_omap_ext. apply Forall2_same_length_lookup_2; [done|].
      intros i x y Hx Hy. assert (x = y) as -> by congruence. unfold itemSource.
      rewrite (itemBad_ext c cache); [done|]. apply Hother. by eapply list_elem_of_lookup_2. }
    rewrite Heq. by destruct (itemSource prefix cache clock item).
  - done.
  - intros k Hk. rewrite Hfree, Hlook; [|by destruct (itemKey item); set_solver].
    case_decide as Hd; [|done]. rewrite Hd in Hk. set_solver.
  - intros item' k Hin Hk. apply elem_of_cons in Hin as [->|Hin].
    + rewrite Hfree, Hlook; [by rewrite decide_True|].
      intros Hin. rewrite Hk in Hnd. by apply NoDup_cons in Hnd as [? _].
    + rewrite (Hdone item' k Hin Hk). unfold entryAfter. by rewrite (itemBad_ext c cache) by by apply Hother.
Qed.
End collected.
