(* ===== verification/StatusAggregators.v ===== *)
(** * The controllers that aggregate status

    [backend/pkg/controllers/{cluster,nodepool,externalauth}/status]: the aggregators
    that roll the [Degraded] conditions of controllers and desires up onto their parent,
    those that tell users whether the requirements of their resource are valid, and the
    one for external auth.  A pass reads from listers, decides on a condition and
    replaces the document when the condition says something new. *)
From S2P Require Import Prelude GoStrings RolloutTypes RolloutStatus StatusConditions.

Local Open Scope string_scope.
Local Open Scope Z_scope.

(** ** Documents *)

(** What the aggregators use of a [Cluster], [NodePool] or [ExternalAuth]; [R] is the
    rest, which they carry along. *)
Record StatusDocument (R : Type) := {
  doc_rest : R;
  doc_DeletionTimestamp : option Z;
  doc_Conditions : list StatusCondition;
  doc_UserFacingConditions : list StatusCondition;
}.
Arguments doc_rest {R}.
Arguments doc_DeletionTimestamp {R}.
Arguments doc_Conditions {R}.
Arguments doc_UserFacingConditions {R}.

Definition withStatusConditions {R} (conditions : list StatusCondition) (d : StatusDocument R) : StatusDocument R := {|
  doc_rest := doc_rest d; doc_DeletionTimestamp := doc_DeletionTimestamp d;
  doc_Conditions := conditions; doc_UserFacingConditions := doc_UserFacingConditions d |}.

Definition withUserFacingConditions {R} (conditions : list StatusCondition) (d : StatusDocument R) : StatusDocument R := {|
  doc_rest := doc_rest d; doc_DeletionTimestamp := doc_DeletionTimestamp d;
  doc_Conditions := doc_Conditions d; doc_UserFacingConditions := conditions |}.

Inductive statusSyncError : Type :=
  | ErrGetResource (e : string)
  | ErrListControllers (e : string)
  | ErrListApplyDesires (e : string)
  | ErrListReadDesires (e : string)
  | ErrGetServiceProvider (e : string)
  | ErrReplaceResource (e : dbError).

(** What a pass asked the database to replace, and the error it returns. *)
Definition syncOutcome (D : Type) : Type := option D * option statusSyncError.

Definition nothing {D : Type} : syncOutcome D := (None, None).
Definition failed {D : Type} (e : statusSyncError) : syncOutcome D := (None, Some e).

(** The end of every pass: [changed] is the negated [DeepEqual] of the conditions.  A
    document written by another since is left to the next pass, as is, for some
    aggregators, one that is gone. *)
Definition storeReplacement {D : Type} (goneIsFine : bool) (changed : bool) (Replace : D → option dbError)
    (replacement : D) : syncOutcome D :=
  if negb changed then nothing
  else (Some replacement,
        match Replace replacement with
        | None | Some PreconditionFailed => None
        | Some NotFoundError => if goneIsFine then None else Some (ErrReplaceResource NotFoundError)
        | Some e => Some (ErrReplaceResource e)
        end).

Definition sameConditions (a b : list StatusCondition) : bool := bool_decide (a = b).

(** ** Degraded *)

Definition clusterDegradedAggregatorInertia : option Inertia :=
  match NewInertia DefaultInertia [] with Ok c => Some (InertiaConfig_Inertia c) | Err _ => None end.
Definition nodePoolDegradedAggregatorInertia : option Inertia :=
  match NewInertia DefaultInertia [] with Ok c => Some (InertiaConfig_Inertia c) | Err _ => None end.
Definition externalAuthDegradedAggregatorInertia : option Inertia :=
  match NewInertia DefaultInertia [] with Ok c => Some (InertiaConfig_Inertia c) | Err _ => None end.

Definition ClusterScopedApplyDesireResourceType : string := "Microsoft.RedHatOpenShift/hcpOpenShiftClusters/applyDesires".
Definition ClusterScopedReadDesireResourceType : string := "Microsoft.RedHatOpenShift/hcpOpenShiftClusters/readDesires".

Definition ResourceTypeEqual (lhs rhs : string) : bool := EqualFold lhs rhs.

Definition clusterScopedDesires (desires : list statusItem) (clusterScopedType : string) : list statusItem :=
  List.filter (λ desire, match GetResourceID desire with
                         | Some id => ResourceTypeEqual (rid_ResourceType id) clusterScopedType
                         | None => false
                         end) desires.

(** What a pass of a [Degraded] aggregator reads: the listers' answers, the readings of
    the clock (when an item is observed, for the union, inside [SetStatusCondition]), and
    how the database answers the replacement. *)
Record degradedPass (D : Type) := {
  pass_get : result getError D;
  pass_controllers : result string (list statusItem);
  pass_applyDesires : result string (list statusItem);
  pass_readDesires : result string (list statusItem);
  pass_observedAt : string → Z;
  pass_now : Z;
  pass_setAt : Z;
  pass_Replace : D → option dbError;
}.
Arguments pass_get {D}.
Arguments pass_controllers {D}.
Arguments pass_applyDesires {D}.
Arguments pass_readDesires {D}.
Arguments pass_observedAt {D}.
Arguments pass_now {D}.
Arguments pass_setAt {D}.
Arguments pass_Replace {D}.

Section degraded.
Context {R C : Type} `{LRU C} `{ConditionOps}.
Local Notation doc := (StatusDocument R).

(** The union of what was collected, set on the document. *)
Definition reportDegraded (inertia : option Inertia) (p : degradedPass doc) (existing : doc)
    (sources : list SourcedCondition) : syncOutcome doc :=
  let aggregated := UnionCondition DegradedConditionType ConditionFalse inertia (pass_now p) sources in
  let conditions := SetStatusCondition (pass_setAt p) (doc_Conditions existing) aggregated in
  storeReplacement true (negb (sameConditions (doc_Conditions existing) conditions)) (pass_Replace p)
    (withStatusConditions conditions existing).

(** [CollectDegradedConditions] for controllers, apply desires and read desires in turn,
    with one cache. *)
Definition collectAll (observedAt : string → Z) (controllers applyDesires readDesires : list statusItem) (cache : C) :
    list SourcedCondition * C :=
  let '(sources, cache) := CollectDegradedConditions controllers ConditionsOfKnown EmptyString observedAt cache in
  let '(apply, cache) := CollectDegradedConditions applyDesires ConditionsOfKnown ApplyDesireSourcePrefix observedAt cache in
  let '(read, cache) := CollectDegradedConditions readDesires ConditionsOfKnown ReadDesireSourcePrefix observedAt cache in
  ((sources ++ apply ++ read)%list, cache).

Definition clusterDegradedAggregator_SyncOnce (inertia : option Inertia) (p : degradedPass doc) (cache : C) :
    syncOutcome doc * C :=
  match pass_get p with
  | Err GetNotFound => (nothing, cache)
  | Err (GetFailed e) => (failed (ErrGetResource e), cache)
  | Ok existing =>
      match pass_controllers p with
      | Err e => (failed (ErrListControllers e), cache)
      | Ok controllers =>
          match pass_applyDesires p with
          | Err e => (failed (ErrListApplyDesires e), cache)
          | Ok applyDesires =>
              match pass_readDesires p with
              | Err e => (failed (ErrListReadDesires e), cache)
              | Ok readDesires =>
                  let clusterApplyDesires := clusterScopedDesires applyDesires ClusterScopedApplyDesireResourceType in
                  let clusterReadDesires := clusterScopedDesires readDesires ClusterScopedReadDesireResourceType in
                  let '(sources, cache) :=
                    collectAll (pass_observedAt p) controllers clusterApplyDesires clusterReadDesires cache in
                  (reportDegraded inertia p existing sources, cache)
              end
          end
      end
  end.

Definition nodePoolDegradedAggregator_SyncOnce (inertia : option Inertia) (p : degradedPass doc) (cache : C) :
    syncOutcome doc * C :=
  match pass_get p with
  | Err GetNotFound => (nothing, cache)
  | Err (GetFailed e) => (failed (ErrGetResource e), cache)
  | Ok existing =>
      match pass_controllers p with
      | Err e => (failed (ErrListControllers e), cache)
      | Ok controllers =>
          match pass_applyDesires p with
          | Err e => (failed (ErrListApplyDesires e), cache)
          | Ok applyDesires =>
              match pass_readDesires p with
              | Err e => (failed (ErrListReadDesires e), cache)
              | Ok readDesires =>
                  let '(sources, cache) :=
                    collectAll (pass_observedAt p) controllers applyDesires readDesires cache in
                  (reportDegraded inertia p existing sources, cache)
              end
          end
      end
  end.

(** Reads no desires. *)
Definition externalAuthDegradedAggregator_SyncOnce (inertia : option Inertia) (p : degradedPass doc) (cache : C) :
    syncOutcome doc * C :=
  match pass_get p with
  | Err GetNotFound => (nothing, cache)
  | Err (GetFailed e) => (failed (ErrGetResource e), cache)
  | Ok existing =>
      match pass_controllers p with
      | Err e => (failed (ErrListControllers e), cache)
      | Ok controllers =>
          let '(sources, cache) :=
            CollectDegradedConditions controllers ConditionsOfKnown EmptyString (pass_observedAt p) cache in
          (reportDegraded inertia p existing sources, cache)
      end
  end.
End degraded.

(** ** Conditions for users *)

Section user_facing.
Context {R : Type} `{ConditionOps}.
Local Notation doc := (StatusDocument R).

(** Both [RequirementsValid] aggregators: not for a resource that is being deleted. *)
Definition needsWork (d : doc) : bool := negb (bool_decide (is_Some (doc_DeletionTimestamp d))).

Definition reportUserFacing (setAt : Z) (Replace : doc → option dbError) (existing : doc) (aggregated : StatusCondition) :
    syncOutcome doc :=
  let conditions := SetStatusCondition setAt (doc_UserFacingConditions existing) aggregated in
  storeReplacement false (negb (sameConditions (doc_UserFacingConditions existing) conditions)) Replace
    (withUserFacingConditions conditions existing).

(** [validations] is the answer of the lister of service provider documents, its
    [Status.Validations]. *)
Definition clusterRequirementsValidAggregator_SyncOnce (get : result getError doc)
    (validations : result getError (list StatusCondition)) (setAt : Z) (Replace : doc → option dbError) : syncOutcome doc :=
  match get with
  | Err GetNotFound => nothing
  | Err (GetFailed e) => failed (ErrGetResource e)
  | Ok existing =>
      if negb (needsWork existing) then nothing
      else match validations with
      | Err GetNotFound => nothing
      | Err (GetFailed e) => failed (ErrGetServiceProvider e)
      | Ok validations =>
          reportUserFacing setAt Replace existing (AggregateRequirementsValidCondition validations)
      end
  end.

Definition nodePoolRequirementsValidAggregator_SyncOnce (get : result getError doc)
    (validations : result getError (list StatusCondition)) (setAt : Z) (Replace : doc → option dbError) : syncOutcome doc :=
  match get with
  | Err GetNotFound => nothing
  | Err (GetFailed e) => failed (ErrGetResource e)
  | Ok existing =>
      if negb (needsWork existing) then nothing
      else match validations with
      | Err GetNotFound => nothing
      | Err (GetFailed e) => failed (ErrGetServiceProvider e)
      | Ok validations =>
          reportUserFacing setAt Replace existing (AggregateRequirementsValidCondition validations)
      end
  end.

Definition ExternalAuthOIDCClientsDegradedCondition : string := "OIDCClientsDegraded".
Definition ExternalAuthOIDCIssuerCACertificateInvalidCondition : string := "OIDCIssuerCACertificateInvalid".
Definition ExternalAuthUserFacingDegradedReasonEvaluationIncomplete : string := "EvaluationIncomplete".

(** A map in the source, ranged over in any order. *)
Definition allowedDegradedConditionTypes : list string :=
  [ExternalAuthOIDCClientsDegradedCondition; ExternalAuthOIDCIssuerCACertificateInvalidCondition].

Definition waitingFor (condType : string) : StatusCondition := {|
  sc_Type := condType; sc_Status := ConditionUnknown;
  sc_Reason := ExternalAuthUserFacingDegradedReasonEvaluationIncomplete;
  sc_Message := "Waiting for condition to be evaluated"; sc_LastTransitionTime := 0 |}.

Definition allowlisted (c : StatusCondition) : bool := bool_decide (sc_Type c ∈ allowedDegradedConditionTypes).

Definition collectAllowlistedConditions (conditions : list StatusCondition) : list StatusCondition :=
  let seen := sc_Type <$> List.filter allowlisted conditions in
  (List.filter allowlisted conditions
   ++ (waitingFor <$> List.filter (λ t, negb (bool_decide (t ∈ seen))) allowedDegradedConditionTypes))%list.

Definition externalAuthUserFacingConditionsDegradedAggregator_SyncOnce (get : result getError doc)
    (serviceProvider : result getError (list StatusCondition)) (setAt : Z) (Replace : doc → option dbError) : syncOutcome doc :=
  match get with
  | Err GetNotFound => nothing
  | Err (GetFailed e) => failed (ErrGetResource e)
  | Ok existing =>
      if negb (needsWork existing) then nothing
      else match serviceProvider with
      | Err GetNotFound => nothing
      | Err (GetFailed e) => failed (ErrGetServiceProvider e)
      | Ok conditions =>
          reportUserFacing setAt Replace existing
            (AggregateExternalAuthUserFacingDegradedCondition (collectAllowlistedConditions conditions))
      end
  end.
End user_facing.

(** ** What a pass finds *)

Section verdicts.
Context {R C : Type} `{LRULaws C} `{ConditionLaws}.
Local Notation doc := (StatusDocument R).
Local Open Scope list_scope.

Lemma NoDup_app_notin {A} (l l' : list A) x : NoDup (l ++ l') → x ∈ l' → x ∉ l.
Proof. rewrite NoDup_app. naive_solver. Qed.

Lemma itemSource_ext prefix clock (cache cache' : C) (items : list statusItem) :
  (∀ item, item ∈ items → itemBad cache clock item = itemBad cache' clock item) →
  omap (itemSource prefix cache clock) items = omap (itemSource prefix cache' clock) items.
Proof.
  intros Hbad. apply list_omap_ext, Forall2_same_length_lookup_2; [done|].
  intros i x y Hx Hy. assert (x = y) as -> by congruence. unfold itemSource.
  rewrite Hbad; [done|]. by eapply list_elem_of_lookup_2.
Qed.

(** Collecting from [items] leaves alone what is said of items with other keys. *)
Lemma collected_elsewhere keys prefix clock items others (cache : C) :
  keysFit keys cache (items ++ others) → NoDup (omap itemKey (items ++ others)) →
  let cache' := (CollectDegradedConditions items ConditionsOfKnown prefix clock cache).2 in
  keysFit keys cache' others ∧ NoDup (omap itemKey others) ∧
  (∀ item, item ∈ others → itemBad cache' clock item = itemBad cache clock item).
Proof.
  intros (Hsize & Hsub & Hall) Hnd. apply Forall_app in Hall as [Hitems Hothers].
  rewrite omap_app in Hnd. pose proof Hnd as (Hnd1 & _ & Hnd2)%NoDup_app.
  destruct (CollectDegradedConditions_spec keys prefix clock items cache) as (_ & Hkeys & Hfree & _); [done|done|].
  split_and!; [done|done|].
  intros item Hin. apply itemBad_ext. intros k Hk. apply Hfree.
  eapply NoDup_app_notin; [exact Hnd|]. apply list_elem_of_omap. eauto.
Qed.

(** The sources of a pass: what each watched item is bad about, under its name. *)
Definition allSources (cache : C) (clock : string → Z) (controllers applyDesires readDesires : list statusItem) :
    list SourcedCondition :=
  (omap (itemSource EmptyString cache clock) controllers
   ++ omap (itemSource ApplyDesireSourcePrefix cache clock) applyDesires
   ++ omap (itemSource ReadDesireSourcePrefix cache clock) readDesires)%list.

Lemma collectAll_spec keys clock controllers applyDesires readDesires (cache : C) :
  keysFit keys cache (controllers ++ applyDesires ++ readDesires) →
  NoDup (omap itemKey (controllers ++ applyDesires ++ readDesires)) →
  let collected := collectAll clock controllers applyDesires readDesires cache in
  collected.1 = allSources cache clock controllers applyDesires readDesires ∧
  lru_keys collected.2 ⊆ keys ∧
  ∀ item k, item ∈ controllers → itemKey item = Some k → lru_lookup collected.2 k = entryAfter cache clock item.
Proof.
  intros Hfit Hnd. unfold collectAll, allSources.
  destruct (collected_elsewhere keys EmptyString clock _ _ _ Hfit Hnd) as (Hfit1 & Hnd1 & Hbad1).
  assert (Hc : keysFit keys cache controllers) by (destruct Hfit as (? & ? & [? _]%Forall_app); done).
  rewrite omap_app in Hnd. pose proof Hnd as (Hndc & Hdisj & _)%NoDup_app.
  destruct (CollectDegradedConditions_spec keys EmptyString clock _ _ Hc Hndc) as (Hout & _ & _ & Hentry).
  destruct (CollectDegradedConditions controllers ConditionsOfKnown EmptyString clock cache) as [s1 c1]. simpl in *. subst s1.
  destruct (collected_elsewhere keys ApplyDesireSourcePrefix clock _ _ _ Hfit1 Hnd1) as (Hfit2 & Hnd2 & Hbad2).
  assert (Ha : keysFit keys c1 applyDesires) by (destruct Hfit1 as (? & ? & [? _]%Forall_app); done).
  rewrite omap_app in Hnd1. pose proof Hnd1 as (Hnda & _ & _)%NoDup_app.
  destruct (CollectDegradedConditions_spec keys ApplyDesireSourcePrefix clock _ _ Ha Hnda) as (Hout2 & _ & Hfree2 & _).
  destruct (CollectDegradedConditions applyDesires ConditionsOfKnown ApplyDesireSourcePrefix clock c1) as [s2 c2]. simpl in *. subst s2.
  destruct (CollectDegradedConditions_spec keys ReadDesireSourcePrefix clock _ _ Hfit2 Hnd2) as (Hout3 & Hkeys3 & Hfree3 & _).
  destruct (CollectDegradedConditions readDesires ConditionsOfKnown ReadDesireSourcePrefix clock c2) as [s3 c3]. simpl in *. subst s3.
  split_and!; [|done|].
  - f_equal. f_equal; apply itemSource_ext; intros item Hin.
    + apply Hbad1. set_solver.
    + rewrite Hbad2 by done. apply Hbad1. set_solver.
  - intros item k Hin Hk. rewrite <- (Hentry item k Hin Hk).
    assert (Hko : k ∈ omap itemKey controllers) by (apply list_elem_of_omap; eauto).
    specialize (Hdisj k Hko). rewrite omap_app in Hdisj.
    rewrite Hfree3, Hfree2; [done| |]; set_solver.
Qed.

Lemma elem_of_allSources cache clock controllers applyDesires readDesires src :
  src ∈ allSources cache clock controllers applyDesires readDesires →
  ∃ item, item ∈ controllers ++ applyDesires ++ readDesires ∧ itemBad cache clock item = Some (source_Condition src).
Proof.
  unfold allSources. rewrite !elem_of_app, !list_elem_of_omap. unfold itemSource.
  intros [(item & Hin & E)|[(item & Hin & E)|(item & Hin & E)]]; exists item; rewrite !elem_of_app;
    (destruct (GetResourceID item) as [id|]; [|done]); simpl in E;
    (destruct (itemBad cache clock item) as [cond|]; [|done]); simpl in E; simplify_eq; eauto.
Qed.

Lemma allSources_covers cache clock controllers applyDesires readDesires item bad :
  item ∈ controllers ++ applyDesires ++ readDesires → itemBad cache clock item = Some bad →
  ∃ src, src ∈ allSources cache clock controllers applyDesires readDesires ∧ source_Condition src = bad.
Proof.
  intros Hin Hbad.
  assert (Hid : ∃ id, GetResourceID item = Some id).
  { unfold itemBad in Hbad. destruct (GetResourceID item) as [id|]; [by eexists|done]. }
  destruct Hid as [id Hid]. unfold allSources.
  assert (Hsrc : ∀ prefix, itemSource prefix cache clock item
    = Some {| ControllerName := degradedSourceName prefix id; source_Condition := bad |}).
  { intros prefix. unfold itemSource. by rewrite Hid, Hbad. }
  rewrite !elem_of_app in Hin.
  assert (Hsrc' : ∀ prefix (items : list statusItem), item ∈ items →
    {| ControllerName := degradedSourceName prefix id; source_Condition := bad |} ∈ omap (itemSource prefix cache clock) items).
  { intros prefix items Hin'. apply list_elem_of_omap. eauto. }
  destruct Hin as [Hin|[Hin|Hin]].
  - exists {| ControllerName := degradedSourceName EmptyString id; source_Condition := bad |}. rewrite !elem_of_app. eauto.
  - exists {| ControllerName := degradedSourceName ApplyDesireSourcePrefix id; source_Condition := bad |}. rewrite !elem_of_app. eauto.
  - exists {| ControllerName := degradedSourceName ReadDesireSourcePrefix id; source_Condition := bad |}. rewrite !elem_of_app. eauto.
Qed.

(** What the watched items say at the start of a pass: some is bad for longer than the
    inertia; some is, or is taken to be, degraded. *)
Definition longBad (cache : C) (p : degradedPass doc) (watched : list statusItem) : Prop :=
  ∃ item bad, item ∈ watched ∧ itemBad cache (pass_observedAt p) item = Some bad ∧
    sc_LastTransitionTime bad < pass_now p - DefaultInertia.
Definition someDegraded (cache : C) (p : degradedPass doc) (watched : list statusItem) : Prop :=
  ∃ item bad, item ∈ watched ∧ itemBad cache (pass_observedAt p) item = Some bad ∧ sc_Status bad = ConditionTrue.

(** The document after a pass whose write, if any, was accepted. *)
Definition documentAfter (existing : doc) (o : syncOutcome doc) : doc := default existing o.1.

(** What [Degraded] on the document says of the watched items. *)
Definition degradedVerdict (cache : C) (p : degradedPass doc) (watched : list statusItem) (d : doc) : Prop :=
  ∃ c, FindStatusCondition (doc_Conditions d) DegradedConditionType = Some c ∧
    (sc_Status c = ConditionFalse ↔ ¬ longBad cache p watched) ∧
    (sc_Status c = ConditionTrue ↔ longBad cache p watched ∧ someDegraded cache p watched).

Lemma itemBad_type cache clock item bad : itemBad cache clock item = Some bad →
  sc_Type bad = DegradedConditionType ∧ sc_Status bad ≠ ConditionFalse.
Proof.
  unfold itemBad. destruct (GetResourceID item); [|done].
  destruct (FindStatusCondition _ _) as [cond|] eqn:Ef; [|by intros [= <-]].
  destruct (String.eqb_spec (sc_Status cond) ConditionFalse) as [|Hs]; [done|]. intros [= <-].
  by apply FindStatusCondition_some in Ef as [_ ?].
Qed.

(** Every collected source counts as bad. *)
Lemma badOf_allSources cache clock controllers applyDesires readDesires :
  badOf DegradedConditionType ConditionFalse (allSources cache clock controllers applyDesires readDesires)
  = allSources cache clock controllers applyDesires readDesires.
Proof.
  assert (Hall : ∀ src, src ∈ allSources cache clock controllers applyDesires readDesires →
    sc_Type (source_Condition src) = DegradedConditionType ∧ sc_Status (source_Condition src) ≠ ConditionFalse).
  { intros src (item & _ & ?%itemBad_type)%elem_of_allSources. done. }
  unfold badOf, ofType. rewrite (forallb_filter_id (hasType _)), forallb_filter_id; [done| |];
    apply forallb_forall; intros src [Ht Hs]%list_elem_of_In%Hall; unfold hasType, disagrees.
  - by apply negb_true_iff, String.eqb_neq.
  - by rewrite Ht.
Qed.

(** A test of the conditions holds of a source when it holds of what an item is bad about. *)
Lemma existsb_allSources cache clock controllers applyDesires readDesires (test : SourcedCondition → bool) P :
  (∀ src, test src = true ↔ P (source_Condition src)) →
  existsb test (allSources cache clock controllers applyDesires readDesires) = true ↔
  ∃ item bad, item ∈ controllers ++ applyDesires ++ readDesires ∧ itemBad cache clock item = Some bad ∧ P bad.
Proof.
  intros HP. rewrite existsb_exists. setoid_rewrite <- list_elem_of_In. setoid_rewrite HP. split.
  - intros (src & (item & Hin & Hb)%elem_of_allSources & He). eauto.
  - intros (item & bad & Hin & Hb & Ht).
    destruct (allSources_covers _ _ _ _ _ _ _ Hin Hb) as (src & Hsrc & <-). eauto.
Qed.

(** A write that is accepted, or is not needed, leaves the conditions on the document. *)
Lemma reportDegraded_stored inertia (p : degradedPass doc) existing sources :
  (∀ d, pass_Replace p d = None) →
  let u := UnionCondition DegradedConditionType ConditionFalse inertia (pass_now p) sources in
  let o := reportDegraded inertia p existing sources in
  o.2 = None ∧ doc_Conditions (documentAfter existing o) = SetStatusCondition (pass_setAt p) (doc_Conditions existing) u.
Proof.
  intros Hw. unfold reportDegraded, storeReplacement, sameConditions, documentAfter. simpl. rewrite negb_involutive.
  case_bool_decide as Hd; simpl; [done|]. by rewrite Hw.
Qed.

Lemma UnionCondition_type t d inertia now sources : sc_Type (UnionCondition t d inertia now sources) = t.
Proof. unfold UnionCondition. by repeat case_match. Qed.

(** The end of a pass, for the sources the collection is proved to give. *)
Lemma reportDegraded_verdict (p : degradedPass doc) existing cache controllers applyDesires readDesires f :
  (∀ name c, f name c = DefaultInertia) → (∀ d, pass_Replace p d = None) →
  let o := reportDegraded (Some f) p existing
    (allSources cache (pass_observedAt p) controllers applyDesires readDesires) in
  o.2 = None ∧ degradedVerdict cache p (controllers ++ applyDesires ++ readDesires) (documentAfter existing o).
Proof.
  intros Hf Hw. set (sources := allSources _ _ _ _ _).
  destruct (reportDegraded_stored (Some f) p existing sources Hw) as [Hnone Hconds].
  split; [exact Hnone|]. unfold degradedVerdict. rewrite Hconds.
  destruct (SetStatusCondition_same (pass_setAt p) (doc_Conditions existing)
    (UnionCondition DegradedConditionType ConditionFalse (Some f) (pass_now p) sources)) as (c & Hc & (_ & Hs & _)).
  rewrite UnionCondition_type in Hc.
  exists c. split; [exact Hc|]. rewrite Hs, UnionCondition_status.
  unfold sources. rewrite badOf_allSources. unfold longBad, someDegraded.
  rewrite <- (existsb_allSources _ _ _ _ _ (isElder (Some f) (pass_now p))
      (λ bad, sc_LastTransitionTime bad < pass_now p - DefaultInertia)),
    <- (existsb_allSources _ _ _ _ _ (λ src, String.eqb (sc_Status (source_Condition src)) (opposite ConditionFalse))
      (λ bad, sc_Status bad = ConditionTrue)).
  - destruct (existsb (isElder _ _) _), (existsb _ _); naive_solver.
  - intros src. apply String.eqb_eq.
  - intros src. unfold isElder. rewrite Hf. apply Z.ltb_lt.
Qed.

(** The rest of the document, and what it says under other types, is as before. *)
Definition onlyDegradedChanged (existing d : doc) : Prop :=
  doc_rest d = doc_rest existing ∧ doc_DeletionTimestamp d = doc_DeletionTimestamp existing ∧
  doc_UserFacingConditions d = doc_UserFacingConditions existing ∧
  ∀ t, t ≠ DegradedConditionType →
    FindStatusCondition (doc_Conditions d) t = FindStatusCondition (doc_Conditions existing) t.

Lemma reportDegraded_frame inertia (p : degradedPass doc) existing sources :
  onlyDegradedChanged existing (documentAfter existing (reportDegraded inertia p existing sources)).
Proof.
  unfold reportDegraded, storeReplacement, documentAfter, onlyDegradedChanged. simpl.
  destruct (negb (negb _)); simpl; [done|]. split_and!; [done..|].
  intros t Ht. apply SetStatusCondition_other. by rewrite UnionCondition_type.
Qed.

(** The listers answer with these documents. *)
Record lists (p : degradedPass doc) (existing : doc) (controllers applyDesires readDesires : list statusItem) : Prop := {
  lists_get : pass_get p = Ok existing;
  lists_controllers : pass_controllers p = Ok controllers;
  lists_applyDesires : pass_applyDesires p = Ok applyDesires;
  lists_readDesires : pass_readDesires p = Ok readDesires;
}.

(** The items the cluster's aggregator watches: desires of node pools are left out. *)
Definition clusterWatched (controllers applyDesires readDesires : list statusItem) : list statusItem :=
  controllers ++ clusterScopedDesires applyDesires ClusterScopedApplyDesireResourceType
  ++ clusterScopedDesires readDesires ClusterScopedReadDesireResourceType.

Lemma clusterSync_collected keys (p : degradedPass doc) cache existing controllers applyDesires readDesires :
  lists p existing controllers applyDesires readDesires →
  keysFit keys cache (clusterWatched controllers applyDesires readDesires) →
  NoDup (omap itemKey (clusterWatched controllers applyDesires readDesires)) →
  let sync := clusterDegradedAggregator_SyncOnce clusterDegradedAggregatorInertia p cache in
  sync.1 = reportDegraded clusterDegradedAggregatorInertia p existing
    (allSources cache (pass_observedAt p) controllers
      (clusterScopedDesires applyDesires ClusterScopedApplyDesireResourceType)
      (clusterScopedDesires readDesires ClusterScopedReadDesireResourceType)) ∧
  lru_keys sync.2 ⊆ keys ∧
  ∀ item k, item ∈ controllers → itemKey item = Some k →
    lru_lookup sync.2 k = entryAfter cache (pass_observedAt p) item.
Proof.
  intros [Hg Hc Ha Hr] Hfit Hnd. unfold clusterDegradedAggregator_SyncOnce. rewrite Hg, Hc, Ha, Hr. simpl.
  destruct (collectAll_spec keys (pass_observedAt p) _ _ _ _ Hfit Hnd) as (Hs & Hk & He).
  destruct (collectAll _ _ _ _ _) as [sources cache']. simpl in *. by subst sources.
Qed.

(** (C29) What a cluster's [Degraded] condition means after a pass whose write is
    accepted: it is [False] exactly when nothing the cluster's controllers and its own
    desires report, or fail to report, has been bad for longer than the inertia of
    thirty seconds; it is [True] exactly when something has and some item is degraded or
    silent.  Nothing else on the cluster changes. *)
Theorem cluster_degraded_verdict keys (p : degradedPass doc) cache existing controllers applyDesires readDesires :
  lists p existing controllers applyDesires readDesires →
  keysFit keys cache (clusterWatched controllers applyDesires readDesires) →
  NoDup (omap itemKey (clusterWatched controllers applyDesires readDesires)) →
  (∀ d, pass_Replace p d = None) →
  let o := (clusterDegradedAggregator_SyncOnce clusterDegradedAggregatorInertia p cache).1 in
  o.2 = None ∧
  degradedVerdict cache p (clusterWatched controllers applyDesires readDesires) (documentAfter existing o) ∧
  onlyDegradedChanged existing (documentAfter existing o).
Proof.
  intros Hl Hfit Hnd Hw. destruct (clusterSync_collected _ _ _ _ _ _ _ Hl Hfit Hnd) as (Hs & _ & _).
  simpl. rewrite Hs.
  destruct (reportDegraded_verdict p existing cache controllers
    (clusterScopedDesires applyDesires ClusterScopedApplyDesireResourceType)
    (clusterScopedDesires readDesires ClusterScopedReadDesireResourceType) (λ _ _, DefaultInertia)) as [Hn Hv]; [done|done|].
  split_and!; [exact Hn|exact Hv|apply reportDegraded_frame].
Qed.

(** ** A controller that never reports *)

(** In a pass, the controller with key [k] is listed without a [Degraded] condition, and
    all keys are known ones. *)
Definition silentIn (keys : gset string) (k : string) (p : degradedPass doc) : Prop :=
  ∀ existing controllers applyDesires readDesires, lists p existing controllers applyDesires readDesires →
    NoDup (omap itemKey (clusterWatched controllers applyDesires readDesires)) ∧
    Forall (λ item, ∀ k, itemKey item = Some k → k ∈ keys) (clusterWatched controllers applyDesires readDesires) ∧
    ∃ item, item ∈ controllers ∧ itemKey item = Some k ∧
      FindStatusCondition (ConditionsOfKnown item) DegradedConditionType = None.

(** The passes of the aggregator, one after another. *)
Fixpoint clusterPasses (ps : list (degradedPass doc)) (cache : C) : C :=
  match ps with
  | [] => cache
  | p :: ps => clusterPasses ps (clusterDegradedAggregator_SyncOnce clusterDegradedAggregatorInertia p cache).2
  end.

Lemma silent_itemBad cache clock item k :
  itemKey item = Some k → FindStatusCondition (ConditionsOfKnown item) DegradedConditionType = None →
  ∃ id, GetResourceID item = Some id ∧
    itemBad cache clock item = Some (missingCondition (default (clock (rid_String id)) (lru_lookup cache k))) ∧
    entryAfter cache clock item = Some (default (clock (rid_String id)) (lru_lookup cache k)).
Proof.
  unfold itemKey, entryAfter, itemBad. destruct (GetResourceID item) as [id|]; simpl; [|done].
  intros [= <-] Hf. rewrite Hf. eauto.
Qed.

(** A pass that does not read everything leaves the cache. *)
Lemma clusterSync_unlisted (p : degradedPass doc) cache :
  (∃ existing controllers applyDesires readDesires, lists p existing controllers applyDesires readDesires) ∨
  (clusterDegradedAggregator_SyncOnce clusterDegradedAggregatorInertia p cache).2 = cache.
Proof.
  unfold clusterDegradedAggregator_SyncOnce.
  destruct (pass_get p) as [existing|[]] eqn:Hg; [|by right..].
  destruct (pass_controllers p) as [controllers|] eqn:Hc; [|by right].
  destruct (pass_applyDesires p) as [applyDesires|] eqn:Ha; [|by right].
  destruct (pass_readDesires p) as [readDesires|] eqn:Hr; [|by right].
  left. by exists existing, controllers, applyDesires, readDesires.
Qed.

(** The first observation of a silent controller is kept from pass to pass. *)
Lemma silent_kept keys k t ps : ∀ cache, Forall (silentIn keys k) ps →
  Z.of_nat (size keys) <= firstObservedBadCacheCapacity → lru_keys cache ⊆ keys → lru_lookup cache k = Some t →
  lru_keys (clusterPasses ps cache) ⊆ keys ∧ lru_lookup (clusterPasses ps cache) k = Some t.
Proof.
  induction ps as [|p ps IH]; intros cache Hall Hsize Hkeys Ht; simpl; [done|].
  apply Forall_cons in Hall as [Hp Hall].
  destruct (clusterSync_unlisted p cache) as [(existing & controllers & applyDesires & readDesires & Hl)|Hsame]; [|rewrite Hsame; by apply IH].
  destruct (Hp _ _ _ _ Hl) as (Hnd & Hin & item & Hitem & Hk & Hf).
  destruct (clusterSync_collected keys p cache _ _ _ _ Hl) as (_ & Hkeys' & He); [done|done|].
  apply IH; [done|done|done|]. rewrite (He item k Hitem Hk).
  destruct (silent_itemBad cache (pass_observedAt p) item k Hk Hf) as (id & _ & _ & ->). by rewrite Ht.
Qed.

(** (C30) A controller that never reports is noticed: when a pass has seen it without a
    [Degraded] condition, and it stays without one through any further passes, a pass
    more than thirty seconds later whose write is accepted makes the cluster [Degraded],
    as long as the cache of first observations holds all keys. *)
Theorem silent_controller_flagged keys k seen (first : degradedPass doc) ps last cache0
    existing0 controllers0 applyDesires0 readDesires0 existing controllers applyDesires readDesires :
  Z.of_nat (size keys) <= firstObservedBadCacheCapacity → lru_keys cache0 ⊆ keys →
  Forall (silentIn keys k) (first :: ps ++ [last]) →
  lists first existing0 controllers0 applyDesires0 readDesires0 →
  (∀ id, pass_observedAt first id <= seen) → (∀ t, lru_lookup cache0 k = Some t → t <= seen) →
  lists last existing controllers applyDesires readDesires →
  seen + DefaultInertia < pass_now last → (∀ d, pass_Replace last d = None) →
  let o := (clusterDegradedAggregator_SyncOnce clusterDegradedAggregatorInertia last
             (clusterPasses (first :: ps) cache0)).1 in
  ∃ c, FindStatusCondition (doc_Conditions (documentAfter existing o)) DegradedConditionType = Some c ∧
    sc_Status c = ConditionTrue.
Proof.
  intros Hsize Hkeys0 Hall Hl0 Hclock Hcache Hl Hnow Hw.
  apply Forall_cons in Hall as [Hfirst Hall]. apply Forall_app in Hall as [Hps Hlast]. rewrite Forall_singleton in Hlast.
  destruct (Hfirst _ _ _ _ Hl0) as (Hnd0 & Hin0 & item0 & Hitem0 & Hk0 & Hf0).
  destruct (clusterSync_collected keys first cache0 _ _ _ _ Hl0) as (_ & Hkeys1 & He1); [done|done|].
  specialize (He1 item0 k Hitem0 Hk0).
  destruct (silent_itemBad cache0 (pass_observedAt first) item0 k Hk0 Hf0) as (id0 & _ & _ & Ht).
  rewrite Ht in He1. set (t := default _ _) in He1.
  assert (Hseen : t <= seen) by (unfold t; destruct (lru_lookup cache0 k); simpl; auto).
  destruct (silent_kept keys k t ps _ Hps Hsize Hkeys1 He1) as [Hkeys Hlook].
  change (clusterPasses (first :: ps) cache0) with (clusterPasses ps
    (clusterDegradedAggregator_SyncOnce clusterDegradedAggregatorInertia first cache0).2).
  set (cache := clusterPasses ps _) in *.
  destruct (Hlast _ _ _ _ Hl) as (Hnd & Hin & item & Hitem & Hk & Hf).
  destruct (clusterSync_collected keys last cache _ _ _ _ Hl) as (Hs & _ & _); [done|done|]. simpl. rewrite Hs.
  destruct (reportDegraded_verdict last existing cache controllers
    (clusterScopedDesires applyDesires ClusterScopedApplyDesireResourceType)
    (clusterScopedDesires readDesires ClusterScopedReadDesireResourceType) (λ _ _, DefaultInertia))
    as [_ (c & Hc & _ & Htrue)]; [done|done|].
  exists c. split; [exact Hc|]. apply Htrue.
  destruct (silent_itemBad cache (pass_observedAt last) item k Hk Hf) as (id & _ & Hbad & _).
  rewrite Hlook in Hbad. simpl in Hbad.
  split; eexists item, _; (split; [set_solver|split; [exact Hbad|simpl; first [done|lia]]]).
Qed.
End verdicts.

(** ** What users see *)

Section user_verdicts.
Context {R : Type} `{ConditionLaws}.
Local Notation doc := (StatusDocument R).
Local Open Scope list_scope.

(** After a write that is accepted, or not needed, users see the aggregate. *)
Lemma reportUserFacing_stored setAt Replace (existing : doc) aggregated :
  (∀ d, Replace d = None) →
  let o := reportUserFacing setAt Replace existing aggregated in
  o.2 = None ∧
  doc_UserFacingConditions (documentAfter existing o) = SetStatusCondition setAt (doc_UserFacingConditions existing) aggregated ∧
  doc_DeletionTimestamp (documentAfter existing o) = doc_DeletionTimestamp existing.
Proof.
  intros Hw. unfold reportUserFacing, storeReplacement, sameConditions, documentAfter. simpl. rewrite negb_involutive.
  case_bool_decide as Hd; simpl; [done|]. by rewrite Hw.
Qed.

Lemma reportUserFacing_found setAt Replace (existing : doc) aggregated :
  (∀ d, Replace d = None) →
  ∃ c, FindStatusCondition (doc_UserFacingConditions
      (documentAfter existing (reportUserFacing setAt Replace existing aggregated))) (sc_Type aggregated) = Some c ∧
    saysSame c aggregated.
Proof.
  intros Hw. destruct (reportUserFacing_stored setAt Replace existing aggregated Hw) as (_ & -> & _).
  apply SetStatusCondition_same.
Qed.

Lemma reportUserFacing_settled setAt setAt' Replace Replace' (existing : doc) aggregated :
  (∀ d, Replace d = None) →
  reportUserFacing setAt' Replace' (documentAfter existing (reportUserFacing setAt Replace existing aggregated)) aggregated
  = nothing.
Proof.
  intros Hw. destruct (reportUserFacing_stored setAt Replace existing aggregated Hw) as (_ & Hs & _).
  destruct (SetStatusCondition_same setAt (doc_UserFacingConditions existing) aggregated) as (c & Hf & Hsame).
  unfold reportUserFacing at 1. rewrite Hs, (SetStatusCondition_unchanged setAt' _ _ c Hf Hsame).
  unfold storeReplacement, sameConditions. by rewrite bool_decide_true.
Qed.

Lemma failedMessages_nil good conditions :
  failedMessages good conditions = [] ↔ ∀ c, c ∈ conditions → sc_Status c = good.
Proof.
  unfold failedMessages. rewrite sort_by_nil.
  trans (List.filter (λ c, negb (String.eqb (sc_Status c) good)) conditions = []); [by destruct (List.filter _ _)|]. split.
  - intros Hf c Hin. destruct (String.eqb_spec (sc_Status c) good) as [|Hne]; [done|]. exfalso.
    apply (not_elem_of_nil c). rewrite <- Hf. apply list_elem_of_In, filter_In.
    split; [by apply list_elem_of_In|]. by apply negb_true_iff, String.eqb_neq.
  - intros Hall. apply elem_of_nil_inv. intros c [Hin Hb]%list_elem_of_In%filter_In.
    apply negb_true_iff, String.eqb_neq in Hb. apply Hb, Hall, list_elem_of_In, Hin.
Qed.

Lemma needsWork_alive (d : doc) : doc_DeletionTimestamp d = None → needsWork d = true.
Proof. unfold needsWork. by intros ->. Qed.

(** What users read of a cluster's requirements: after a pass over a cluster that is
    not being deleted, whose write is accepted, [RequirementsValid] is [True] exactly when
    every validation is [True] and [False] otherwise, a validation that is [Unknown]
    included; and a pass over the document it left, with the same validations, writes
    nothing. *)
Theorem cluster_requirements_valid_verdict (existing : doc) validations setAt Replace :
  doc_DeletionTimestamp existing = None → (∀ d, Replace d = None) →
  let o := clusterRequirementsValidAggregator_SyncOnce (Ok existing) (Ok validations) setAt Replace in
  o.2 = None ∧
  (∃ c, FindStatusCondition (doc_UserFacingConditions (documentAfter existing o)) RequirementsValidConditionType = Some c ∧
    (sc_Status c = ConditionTrue ↔ ∀ v, v ∈ validations → sc_Status v = ConditionTrue) ∧
    (sc_Status c = ConditionFalse ↔ ¬ ∀ v, v ∈ validations → sc_Status v = ConditionTrue)) ∧
  ∀ setAt' Replace', clusterRequirementsValidAggregator_SyncOnce (Ok (documentAfter existing o)) (Ok validations) setAt' Replace'
    = nothing.
Proof.
  intros Halive Hw. unfold clusterRequirementsValidAggregator_SyncOnce. rewrite (needsWork_alive existing Halive). simpl.
  destruct (reportUserFacing_stored setAt Replace existing (AggregateRequirementsValidCondition validations) Hw)
    as (Hn & Hs & Hd).
  split_and!; [exact Hn| |].
  - destruct (reportUserFacing_found setAt Replace existing (AggregateRequirementsValidCondition validations) Hw)
      as (c & Hf & (_ & Hst & _)).
    exists c. rewrite Hst, <- failedMessages_nil. revert Hf. unfold AggregateRequirementsValidCondition.
    destruct (failedMessages ConditionTrue validations); simpl; intros Hf; (split; [exact Hf|]); split; split; done.
  - intros setAt' Replace'. rewrite needsWork_alive by by rewrite Hd. simpl. by apply reportUserFacing_settled.
Qed.

Lemma elem_of_allowlisted conditions c :
  c ∈ List.filter allowlisted conditions ↔ c ∈ conditions ∧ sc_Type c ∈ allowedDegradedConditionTypes.
Proof. rewrite list_elem_of_In, filter_In, <- list_elem_of_In. unfold allowlisted. by rewrite bool_decide_eq_true. Qed.

Lemma elem_of_collectAllowlisted conditions c :
  c ∈ collectAllowlistedConditions conditions ↔
    (c ∈ conditions ∧ sc_Type c ∈ allowedDegradedConditionTypes) ∨
    (c = waitingFor (sc_Type c) ∧ sc_Type c ∈ allowedDegradedConditionTypes ∧ ∀ x, x ∈ conditions → sc_Type x ≠ sc_Type c).
Proof.
  unfold collectAllowlistedConditions. rewrite elem_of_app, elem_of_allowlisted, list_elem_of_fmap.
  setoid_rewrite list_elem_of_In at 3. setoid_rewrite filter_In.
  setoid_rewrite negb_true_iff. setoid_rewrite bool_decide_eq_false. setoid_rewrite list_elem_of_fmap.
  setoid_rewrite elem_of_allowlisted. setoid_rewrite <- list_elem_of_In.
  apply or_iff_compat_l. split.
  - intros (t & -> & Ht & Hno). simpl. split_and!; [done|done|]. intros x Hx Heq. apply Hno. exists x. by rewrite Heq.
  - intros (Hc & Ht & Hno). exists (sc_Type c). split_and!; [done|done|]. intros (x & Hx & Hin & _). by apply (Hno x).
Qed.

(** A contributor has reported, and that it is well. *)
Definition reportedWell (conditions : list StatusCondition) (t : string) : Prop :=
  (∃ c, c ∈ conditions ∧ sc_Type c = t) ∧ ∀ c, c ∈ conditions → sc_Type c = t → sc_Status c = ConditionFalse.

Lemma collected_all_false conditions :
  (∀ c, c ∈ collectAllowlistedConditions conditions → sc_Status c = ConditionFalse) ↔
  ∀ t, t ∈ allowedDegradedConditionTypes → reportedWell conditions t.
Proof.
  setoid_rewrite elem_of_collectAllowlisted. split.
  - intros Hall t Ht. split.
    + destruct (decide (Exists (λ c, sc_Type c = t) conditions)) as [(c & Hin & Hc)%Exists_exists|Hno]; [eauto|].
      exfalso. assert (Hw : sc_Status (waitingFor t) = ConditionFalse); [|done].
      apply Hall. right. split_and!; [done|done|]. intros x Hx Heq. apply Hno, Exists_exists. eauto.
    + intros c Hin <-. apply Hall. by left.
  - intros Hall c [[Hin Ht]|(_ & Ht & Hno)].
    + by apply (proj2 (Hall _ Ht)).
    + destruct (proj1 (Hall _ Ht)) as (x & Hx & Heq). by destruct (Hno x Hx).
Qed.

Lemma collected_some_true conditions :
  existsb (λ c, String.eqb (sc_Status c) ConditionTrue) (collectAllowlistedConditions conditions) = true ↔
  ∃ c, c ∈ conditions ∧ sc_Type c ∈ allowedDegradedConditionTypes ∧ sc_Status c = ConditionTrue.
Proof.
  rewrite existsb_exists. setoid_rewrite <- list_elem_of_In. setoid_rewrite elem_of_collectAllowlisted.
  setoid_rewrite String.eqb_eq. split; [|naive_solver].
  intros (c & [[Hin Ht]|(Hc & _)] & Hs); [eauto|]. rewrite Hc in Hs. done.
Qed.

Lemma AggregateExternalAuth_type l : sc_Type (AggregateExternalAuthUserFacingDegradedCondition l) = DegradedConditionType.
Proof. unfold AggregateExternalAuthUserFacingDegradedCondition. by case_match. Qed.

(** A degraded condition is never lost. *)
Lemma AggregateExternalAuth_true l :
  existsb (λ c, String.eqb (sc_Status c) ConditionTrue) l = true →
  sc_Status (AggregateExternalAuthUserFacingDegradedCondition l) = ConditionTrue.
Proof.
  intros He. unfold AggregateExternalAuthUserFacingDegradedCondition. rewrite He.
  destruct (failedMessages ConditionFalse l) eqn:Ef; [exfalso|done].
  apply existsb_exists in He as (x & Hx%list_elem_of_In & Ht%String.eqb_eq).
  rewrite (proj1 (failedMessages_nil ConditionFalse l) Ef x Hx) in Ht. done.
Qed.

(** What users read of an external auth: after a pass over one that is not being
    deleted, whose write is accepted, [Degraded] is [False] exactly when every
    allowlisted contributor has reported and is well, [True] exactly when an allowlisted
    contributor is degraded, [Unknown] otherwise; conditions that are not allowlisted
    change nothing, and a pass over the document it left writes nothing. *)
Theorem external_auth_user_facing_verdict (existing : doc) conditions setAt Replace :
  doc_DeletionTimestamp existing = None → (∀ d, Replace d = None) →
  let sync e l := externalAuthUserFacingConditionsDegradedAggregator_SyncOnce (Ok e) (Ok l) in
  let o := sync existing conditions setAt Replace in
  o.2 = None ∧
  (∃ c, FindStatusCondition (doc_UserFacingConditions (documentAfter existing o)) DegradedConditionType = Some c ∧
    (sc_Status c = ConditionFalse ↔ ∀ t, t ∈ allowedDegradedConditionTypes → reportedWell conditions t) ∧
    (sc_Status c = ConditionTrue ↔
      ∃ x, x ∈ conditions ∧ sc_Type x ∈ allowedDegradedConditionTypes ∧ sc_Status x = ConditionTrue) ∧
    sc_Status c ∈ [ConditionFalse; ConditionTrue; ConditionUnknown]) ∧
  sync existing (List.filter allowlisted conditions) setAt Replace = o ∧
  ∀ setAt' Replace', sync (documentAfter existing o) conditions setAt' Replace' = nothing.
Proof.
  intros Halive Hw. unfold externalAuthUserFacingConditionsDegradedAggregator_SyncOnce.
  rewrite (needsWork_alive existing Halive). simpl.
  set (aggregated := AggregateExternalAuthUserFacingDegradedCondition (collectAllowlistedConditions conditions)).
  destruct (reportUserFacing_stored setAt Replace existing aggregated Hw) as (Hn & Hs & Hd).
  split_and!; [exact Hn| | |].
  - destruct (reportUserFacing_found setAt Replace existing aggregated Hw) as (c & Hf & (_ & Hst & _)).
    unfold aggregated at 2 in Hf. rewrite AggregateExternalAuth_type in Hf.
    exists c. split; [exact Hf|]. rewrite Hst, <- collected_all_false, <- collected_some_true, <- failedMessages_nil.
    pose proof (AggregateExternalAuth_true (collectAllowlistedConditions conditions)) as Htrue.
    unfold aggregated, AggregateExternalAuthUserFacingDegradedCondition in *.
    destruct (failedMessages ConditionFalse _); destruct (existsb _ _); simpl in *;
      try (by specialize (Htrue eq_refl)); split_and!; try done; set_solver.
  - f_equal. unfold aggregated. f_equal. unfold collectAllowlistedConditions.
    assert (Hid : List.filter allowlisted (List.filter allowlisted conditions) = List.filter allowlisted conditions).
    { apply forallb_filter_id, forallb_forall. by intros x [_ ?]%filter_In. }
    by rewrite Hid.
  - intros setAt' Replace'. rewrite needsWork_alive by by rewrite Hd. simpl. by apply reportUserFacing_settled.
Qed.
End user_verdicts.

(** ** Conditions and cache, concretely *)

Module StatusInstances.
Definition find (l : list StatusCondition) (t : string) : option StatusCondition :=
  List.find (λ c, String.eqb (sc_Type c) t) l.

(** An update of the condition of the type, or an addition at the end. *)
Definition update (clock : Z) (old new : StatusCondition) : StatusCondition := {|
  sc_Type := sc_Type old; sc_Status := sc_Status new; sc_Reason := sc_Reason new; sc_Message := sc_Message new;
  sc_LastTransitionTime :=
    if String.eqb (sc_Status old) (sc_Status new) then sc_LastTransitionTime old
    else if IsZero (sc_LastTransitionTime new) then clock else sc_LastTransitionTime new |}.

Fixpoint set (clock : Z) (l : list StatusCondition) (new : StatusCondition) : list StatusCondition :=
  match l with
  | [] => [{| sc_Type := sc_Type new; sc_Status := sc_Status new; sc_Reason := sc_Reason new; sc_Message := sc_Message new;
              sc_LastTransitionTime := if IsZero (sc_LastTransitionTime new) then clock else sc_LastTransitionTime new |}]
  | old :: rest => if String.eqb (sc_Type old) (sc_Type new) then update clock old new :: rest else old :: set clock rest new
  end.

#[export] Instance conditions : ConditionOps := { FindStatusCondition := find; SetStatusCondition := set }.

#[export] Instance conditionLaws : ConditionLaws.
Proof.
  split.
  - intros l t c Hf. apply find_some in Hf as [Hin Ht%String.eqb_eq]. by rewrite list_elem_of_In.
  - intros l t Hf c Hin%list_elem_of_In Ht. apply (find_none _ _ Hf) in Hin. by apply String.eqb_neq in Hin.
  - intros clock l c. induction l as [|old l (c' & Hf & Hs)]; simpl; unfold find; simpl.
    + rewrite String.eqb_refl. by eexists.
    + destruct (String.eqb_spec (sc_Type old) (sc_Type c)) as [He|Hne]; simpl.
      * rewrite He, String.eqb_refl. by eexists.
      * apply String.eqb_neq in Hne. rewrite Hne. eauto.
  - intros clock l c t Ht. induction l as [|old l IH]; simpl; unfold find in *; simpl.
    + by destruct (String.eqb_spec (sc_Type c) t).
    + destruct (String.eqb_spec (sc_Type old) (sc_Type c)) as [He|Hne]; simpl.
      * rewrite He. by destruct (String.eqb_spec (sc_Type c) t).
      * destruct (String.eqb (sc_Type old) t); [done|exact IH].
  - intros clock l c c' Hf (Ht & Hs & Hr & Hm). induction l as [|old l IH]; simpl in *; [done|]. unfold find in *. simpl in Hf.
    destruct (String.eqb (sc_Type old) (sc_Type c)); [|by rewrite IH]. simplify_eq. f_equal.
    destruct c' as [ty st re me tr]. unfold update. simpl in *. subst. by rewrite String.eqb_refl.
Qed.

(** A cache that never has to evict. *)
#[export] Instance lru : LRU (gmap string Z) := {
  lru_Get := λ c k, (c !! k, c);
  lru_Add := λ c k t, <[k := t]> c;
  lru_Remove := λ c k, delete k c;
  lru_lookup := λ c k, c !! k;
  lru_keys := λ c, dom c;
}.

#[export] Instance lruLaws : LRULaws (gmap string Z).
Proof.
  split; simpl.
  - intros c k. apply elem_of_dom.
  - done.
  - done.
  - intros c k t. apply lookup_insert_eq.
  - intros c k t k' Hne _. by apply lookup_insert_ne.
  - intros c k k'. destruct (String.eqb_spec k k') as [->|Hne]; [apply lookup_delete_eq|by apply lookup_delete_ne].
Qed.
End StatusInstances.

(** A cluster with one controller that reports and one that is silent. *)
Module StatusExample.
Import StatusInstances.
Local Open Scope list_scope.

Definition rid (name : string) : ResourceID := {|
  rid_SubscriptionID := "sub"; rid_ResourceGroupName := "rg"; rid_Name := name;
  rid_ResourceType := "Microsoft.RedHatOpenShift/hcpOpenShiftClusters/hcpOpenShiftControllers";
  rid_String := ("/c/" +:+ name)%string; rid_Parent := None |}.
Definition condition (t status : string) (since : Z) : StatusCondition := {|
  sc_Type := t; sc_Status := status; sc_Reason := "Because"; sc_Message := "of this";
  sc_LastTransitionTime := since * Second |}.
Definition healthy : statusItem := ControllerItem (Some (rid "a")) [condition "Degraded" "False" 5].
Definition silent : statusItem := ControllerItem (Some (rid "b")) [].
Definition existing : StatusDocument unit := {|
  doc_rest := tt; doc_DeletionTimestamp := None;
  doc_Conditions := [condition "Available" "True" 1]; doc_UserFacingConditions := [] |}.
Definition pass (now : Z) : degradedPass (StatusDocument unit) := {|
  pass_get := Ok existing; pass_controllers := Ok [healthy; silent];
  pass_applyDesires := Ok []; pass_readDesires := Ok [];
  pass_observedAt := λ _, now * Second; pass_now := now * Second; pass_setAt := now * Second;
  pass_Replace := λ _, None |}.
Definition keys : gset string := {["/c/a"; "/c/b"]}.

Lemma pass_lists now : lists (pass now) existing [healthy; silent] [] [].
Proof. by split. Qed.

Lemma pass_keys : Forall (λ item, ∀ k, itemKey item = Some k → k ∈ keys) (clusterWatched [healthy; silent] [] []).
Proof. unfold clusterWatched. simpl. repeat constructor; intros k [= <-]; vm_compute; set_solver. Qed.

Lemma pass_distinct : NoDup (omap itemKey (clusterWatched [healthy; silent] [] [])).
Proof. apply (bool_decide_unpack _). by vm_compute. Qed.

Lemma pass_silent now : silentIn keys "/c/b" (pass now).
Proof.
  intros e cs ads rds [_ [= <-] [= <-] [= <-]].
  split_and!; [exact pass_distinct|exact pass_keys|].
  exists silent. split_and!; [|done|done]. right. left.
Qed.

Lemma keys_size : Z.of_nat (size keys) <= firstObservedBadCacheCapacity.
Proof. by vm_compute. Qed.

(** The first pass sees the silent controller and waits. *)
Lemma cluster_degraded_verdict_witness :
  let o := (clusterDegradedAggregator_SyncOnce (R := unit) clusterDegradedAggregatorInertia (pass 100) ∅).1 in
  o.2 = None ∧ degradedVerdict ∅ (pass 100) (clusterWatched [healthy; silent] [] []) (documentAfter existing o) ∧
  onlyDegradedChanged existing (documentAfter existing o).
Proof.
  apply (cluster_degraded_verdict keys (pass 100) ∅ existing [healthy; silent] [] []).
  - apply pass_lists.
  - split_and!; [exact keys_size|vm_compute; set_solver|exact pass_keys].
  - exact pass_distinct.
  - done.
Defined.

(** A pass a minute later reports it. *)
Lemma silent_controller_flagged_witness :
  let o := (clusterDegradedAggregator_SyncOnce (R := unit) clusterDegradedAggregatorInertia (pass 160)
             (clusterPasses [pass 100; pass 110] ∅)).1 in
  ∃ c, FindStatusCondition (doc_Conditions (documentAfter existing o)) DegradedConditionType = Some c ∧
    sc_Status c = ConditionTrue.
Proof.
  apply (silent_controller_flagged keys "/c/b" (100 * Second) (pass 100) [pass 110] (pass 160) ∅
    existing [healthy; silent] [] [] existing [healthy; silent] [] []).
  - exact keys_size.
  - vm_compute; set_solver.
  - do 3 (apply Forall_cons_2; [apply pass_silent|]). apply Forall_nil_2.
  - apply pass_lists.
  - intros id. simpl. lia.
  - done.
  - apply pass_lists.
  - done.
  - done.
Defined.

Lemma cluster_requirements_valid_verdict_witness :
  let v := [condition "VNet" "True" 3; condition "Quota" "Unknown" 4] in
  let o := clusterRequirementsValidAggregator_SyncOnce (Ok existing) (Ok v) 9 (λ _, None) in
  o.2 = None ∧
  (∃ c, FindStatusCondition (doc_UserFacingConditions (documentAfter existing o)) RequirementsValidConditionType = Some c ∧
    (sc_Status c = ConditionTrue ↔ ∀ x, x ∈ v → sc_Status x = ConditionTrue) ∧
    (sc_Status c = ConditionFalse ↔ ¬ ∀ x, x ∈ v → sc_Status x = ConditionTrue)) ∧
  ∀ setAt' Replace', clusterRequirementsValidAggregator_SyncOnce (Ok (documentAfter existing o)) (Ok v) setAt' Replace'
    = nothing.
Proof. exact (cluster_requirements_valid_verdict existing _ 9 (λ _, None) eq_refl (λ _, eq_refl)). Defined.

Lemma external_auth_user_facing_verdict_witness :
  let l := [condition "OIDCClientsDegraded" "False" 3; condition "Internal" "True" 4] in
  let o := externalAuthUserFacingConditionsDegradedAggregator_SyncOnce (Ok existing) (Ok l) 9 (λ _, None) in
  externalAuthUserFacingConditionsDegradedAggregator_SyncOnce (Ok existing) (Ok (List.filter allowlisted l)) 9 (λ _, None) = o ∧
  ∃ c, FindStatusCondition (doc_UserFacingConditions (documentAfter existing o)) DegradedConditionType = Some c ∧
    sc_Status c = ConditionUnknown.
Proof.
  destruct (external_auth_user_facing_verdict existing
    [condition "OIDCClientsDegraded" "False" 3; condition "Internal" "True" 4] 9 (λ _, None) eq_refl (λ _, eq_refl))
    as (_ & (c & Hc & _ & _ & _) & Hsame & _).
  split; [exact Hsame|]. exists c. split; [exact Hc|]. vm_compute in Hc. injection Hc as <-. reflexivity.
Defined.

Lemma UnionCondition_order_free_witness :
  let a := {| ControllerName := "a"; source_Condition := condition "Degraded" "True" 1 |} in
  let b := {| ControllerName := "b"; source_Condition := condition "Degraded" "Unknown" 2 |} in
  UnionCondition "Degraded" "False" None 9 [a; b] = UnionCondition "Degraded" "False" None 9 [b; a].
Proof.
  apply UnionCondition_order_free; [|apply Permutation_swap].
  apply (bool_decide_unpack _). by vm_compute.
Defined.

(** The source's comment on inertia says that a short [Degraded=True] does not reach the
    parent.  Next to a source that has long been [Unknown], it does at once. *)
Example young_true_behind_old_unknown :
  let old := {| ControllerName := "a"; source_Condition := condition "Degraded" "Unknown" 1 |} in
  let young := {| ControllerName := "b"; source_Condition := condition "Degraded" "True" 99 |} in
  sc_Status (UnionCondition "Degraded" "False" clusterDegradedAggregatorInertia (100 * Second) [old]) = "Unknown" ∧
  sc_Status (UnionCondition "Degraded" "False" clusterDegradedAggregatorInertia (100 * Second) [young]) = "False" ∧
  sc_Status (UnionCondition "Degraded" "False" clusterDegradedAggregatorInertia (100 * Second) [old; young]) = "True".
Proof. by vm_compute. Qed.
End StatusExample.
