(* ===== verification/ExternalAuthStatus.v ===== *)
(** * The OIDC clients of an external auth

    [backend/pkg/controllers/externalauth/status/externalauth_oidc_clients_degraded_controller.go]:
    what the hosted cluster reports of the OIDC clients becomes one condition of the
    service provider's document, which the aggregator of [StatusAggregators.v] shows to
    users.  The decoding of the cached hosted cluster is an argument. *)
From S2P Require Import Prelude GoStrings RolloutTypes VersionRules RolloutStatus StatusConditions StatusAggregators.

Local Open Scope string_scope.
Local Open Scope Z_scope.

(** ** Documents *)

Record ExternalAuthClientProfile := { client_Name : string; client_AuthClientNamespace : string }.

(** What is used of a [HostedCluster]: [Status.Configuration] may be missing. *)
Record OIDCClientStatus := {
  oidc_ComponentName : string;
  oidc_ComponentNamespace : string;
  oidc_Conditions : list StatusCondition;
}.
Record HostedCluster := { hc_OIDCClients : option (list OIDCClientStatus) }.

Record ExternalAuth := {
  ea_DeletionTimestamp : option Z;
  ea_ClusterServiceID : option string;
  ea_Clients : list ExternalAuthClientProfile;
}.

Record ReadDesire := { rd_Conditions : list StatusCondition; rd_KubeContent : option string }.

Definition ExternalAuthOIDCClientsDegradedReasonDegradation : string := "OIDCClientDegradation".
Definition ExternalAuthOIDCClientsDegradedReasonAsExpected : string := "AsExpected".
Definition ExternalAuthOIDCClientsDegradedReasonUnsupported : string := "ExternalAuthObservabilityUnsupported".
Definition ExternalAuthMessageAwaitingSecret : string :=
  "Waiting for the client secret to be created in the openshift-config namespace by user.".
Definition ExternalAuthMessageIssuerURLInvalid : string := "Invalid issuer URL provided by user.".
Definition ExternalAuthMessageGenericNotWorking : string := "External authentication provider is not working.".
Definition ExternalAuthMessageOIDCClientsAllOperational : string := "All OIDC clients are operational".
Definition ExternalAuthMessageObservabilityUnsupported : string :=
  "External Auth observability is not supported on this cluster version. The minimum supported OCP version is 4.20.41.".
Definition hypershiftOIDCClientSecretGetReason : string := "OIDCClientSecretGet".
Definition hypershiftOIDCIssuerURLInvalidReason : string := "OIDCIssuerURLInvalid".

(** ** One client *)

Record degradedClientMessage := { dc_componentName : string; dc_componentNamespace : string; dc_message : string }.

Definition clientMessage (client : ExternalAuthClientProfile) (message : string) : degradedClientMessage := {|
  dc_componentName := client_Name client; dc_componentNamespace := client_AuthClientNamespace client;
  dc_message := message |}.

Definition mapDegradedReasonToMessage (reason : string) : string :=
  if String.eqb reason hypershiftOIDCClientSecretGetReason then ExternalAuthMessageAwaitingSecret
  else if String.eqb reason hypershiftOIDCIssuerURLInvalidReason then ExternalAuthMessageIssuerURLInvalid
  else ExternalAuthMessageGenericNotWorking.

Definition oidcClientKey (componentName componentNamespace : string) : string :=
  ToLower componentName +:+ "/" +:+ ToLower componentNamespace.

Definition findOIDCClientStatus (componentName componentNamespace : string) (observed : list OIDCClientStatus) :
    option OIDCClientStatus :=
  let key := oidcClientKey componentName componentNamespace in
  List.find (λ o, String.eqb (oidcClientKey (oidc_ComponentName o) (oidc_ComponentNamespace o)) key) observed.

Section oidc.
Context {V : Type} `{Semver V} `{ConditionOps}.

Definition hasStatus (c : option StatusCondition) (status : string) : bool :=
  match c with Some c => String.eqb (sc_Status c) status | None => false end.

Definition mapSingleClientDegradation (conditions : list StatusCondition) (client : ExternalAuthClientProfile) :
    option degradedClientMessage :=
  let degraded := FindStatusCondition conditions "Degraded" in
  if hasStatus degraded ConditionTrue then
    Some (clientMessage client (mapDegradedReasonToMessage (from_option sc_Reason EmptyString degraded)))
  else
    let available := FindStatusCondition conditions "Available" in
    if hasStatus degraded ConditionFalse && hasStatus available ConditionTrue then None
    else Some (clientMessage client ExternalAuthMessageGenericNotWorking).

Definition evaluateExternalAuthClient (client : ExternalAuthClientProfile) (hostedCluster : HostedCluster) :
    option degradedClientMessage :=
  match hc_OIDCClients hostedCluster with
  | None => Some (clientMessage client ExternalAuthMessageGenericNotWorking)
  | Some observed =>
      match findOIDCClientStatus (client_Name client) (client_AuthClientNamespace client) observed with
      | None => Some (clientMessage client ExternalAuthMessageGenericNotWorking)
      | Some status => mapSingleClientDegradation (oidc_Conditions status) client
      end
  end.

(** ** The condition *)

Definition oidcCondition (status reason message : string) : StatusCondition := {|
  sc_Type := ExternalAuthOIDCClientsDegradedCondition; sc_Status := status; sc_Reason := reason; sc_Message := message;
  sc_LastTransitionTime := 0 |}.

Definition allOperational : StatusCondition :=
  oidcCondition ConditionFalse ExternalAuthOIDCClientsDegradedReasonAsExpected ExternalAuthMessageOIDCClientsAllOperational.

Definition minOIDCObservabilityVersion : string := "4.20.41".

Definition clientLine (m : degradedClientMessage) : string :=
  dc_componentName m +:+ "/" +:+ dc_componentNamespace m +:+ ": " +:+ dc_message m.

(** [activeVersions] is not empty.  [MustParse] and a missing version panic. *)
Definition determineOIDCClientsDegradedCondition (externalAuth : ExternalAuth) (hostedCluster : HostedCluster)
    (activeVersions : list (ActiveVersion V)) : result version_panic StatusCondition :=
  match ea_Clients externalAuth with
  | [] => Ok allOperational
  | clients =>
      match semver_Parse minOIDCObservabilityVersion with
      | None => Err (MustFailed minOIDCObservabilityVersion)
      | Some minimum =>
          match head activeVersions ≫= av_Version with
          | None => Err NilDereference
          | Some version =>
              if LT version minimum then
                Ok (oidcCondition ConditionUnknown ExternalAuthOIDCClientsDegradedReasonUnsupported
                      ExternalAuthMessageObservabilityUnsupported)
              else
                match omap (λ client, evaluateExternalAuthClient client hostedCluster) clients with
                | [] => Ok allOperational
                | degradedMessages =>
                    Ok (oidcCondition ConditionTrue ExternalAuthOIDCClientsDegradedReasonDegradation
                          (Join (String newline EmptyString) (clientLine <$> degradedMessages)))
                end
          end
      end
  end.

(** ** A pass *)

Definition ConditionTypeSuccessful : string := "Successful".

(** The cached hosted cluster, whether the last read was successful, or an error.
    [unmarshal] decodes the content. *)
Definition GetCachedHostedClusterForCluster (unmarshal : string → option HostedCluster)
    (readDesire : result getError ReadDesire) : result string (option HostedCluster * bool) :=
  match readDesire with
  | Err GetNotFound => Ok (None, false)
  | Err (GetFailed e) => Err e
  | Ok rd =>
      let observed := hasStatus (FindStatusCondition (rd_Conditions rd) ConditionTypeSuccessful) ConditionTrue in
      match rd_KubeContent rd with
      | None | Some EmptyString => Ok (None, observed)
      | Some raw =>
          match unmarshal raw with
          | None => Err "failed to unmarshal HostedCluster"
          | Some hostedCluster => Ok (Some hostedCluster, observed)
          end
      end
  end.

Definition oidc_needsWork (externalAuth : ExternalAuth) : bool :=
  negb (bool_decide (is_Some (ea_DeletionTimestamp externalAuth))) && bool_decide (is_Some (ea_ClusterServiceID externalAuth)).

(** The conditions of the service provider's document are what a pass may replace. *)
Definition externalAuthOIDCClientsDegradedController_SyncOnce (unmarshal : string → option HostedCluster)
    (get : result getError ExternalAuth) (serviceProvider : result getError (list StatusCondition))
    (readDesire : result getError ReadDesire) (versions : result getError (list (ActiveVersion V)))
    (setAt : Z) (Replace : list StatusCondition → option dbError) :
    result version_panic (syncOutcome (list StatusCondition)) :=
  match get with
  | Err GetNotFound => Ok nothing
  | Err (GetFailed e) => Ok (failed (ErrGetResource e))
  | Ok existing =>
      if negb (oidc_needsWork existing) then Ok nothing
      else match serviceProvider with
      | Err GetNotFound => Ok nothing
      | Err (GetFailed e) => Ok (failed (ErrGetServiceProvider e))
      | Ok conditions =>
          match GetCachedHostedClusterForCluster unmarshal readDesire with
          | Err e => Ok (failed (ErrListReadDesires e))
          | Ok (_, false) | Ok (None, true) => Ok nothing
          | Ok (Some hostedCluster, true) =>
              match versions with
              | Err GetNotFound => Ok nothing
              | Err (GetFailed e) => Ok (failed (ErrGetServiceProvider e))
              | Ok [] => Ok nothing
              | Ok activeVersions =>
                  match determineOIDCClientsDegradedCondition existing hostedCluster activeVersions with
                  | Err panic => Err panic
                  | Ok condition =>
                      let replacement := SetStatusCondition setAt conditions condition in
                      Ok (storeReplacement false (negb (sameConditions conditions replacement)) Replace replacement)
                  end
              end
          end
      end
  end.
End oidc.

(** ** What the condition says *)

Section oidc_facts.
Context {V : Type} `{Semver V} `{ConditionLaws}.

(** The hosted cluster reports the client available and not degraded. *)
Definition healthyClient (hostedCluster : HostedCluster) (client : ExternalAuthClientProfile) : Prop :=
  ∃ observed status, hc_OIDCClients hostedCluster = Some observed ∧
    findOIDCClientStatus (client_Name client) (client_AuthClientNamespace client) observed = Some status ∧
    hasStatus (FindStatusCondition (oidc_Conditions status) "Degraded") ConditionFalse = true ∧
    hasStatus (FindStatusCondition (oidc_Conditions status) "Available") ConditionTrue = true.

Lemma evaluateExternalAuthClient_healthy client hostedCluster :
  evaluateExternalAuthClient client hostedCluster = None ↔ healthyClient hostedCluster client.
Proof.
  unfold evaluateExternalAuthClient, healthyClient.
  destruct (hc_OIDCClients hostedCluster) as [observed|]; [|naive_solver].
  destruct (findOIDCClientStatus _ _ _) as [status|] eqn:Ef; [|naive_solver].
  unfold mapSingleClientDegradation.
  destruct (FindStatusCondition (oidc_Conditions status) "Degraded") as [d|] eqn:Ed; simpl.
  2: { split; [done|]. intros (? & ? & [= <-] & Hf & Hd & _). rewrite Ef in Hf. injection Hf as <-. by rewrite Ed in Hd. }
  destruct (String.eqb_spec (sc_Status d) ConditionTrue) as [Ht|Ht]; simpl.
  - split; [done|]. intros (? & ? & [= <-] & Hf & Hd & _). rewrite Ef in Hf. injection Hf as <-.
    rewrite Ed in Hd. simpl in Hd. rewrite Ht in Hd. done.
  - destruct (String.eqb (sc_Status d) ConditionFalse && hasStatus (FindStatusCondition (oidc_Conditions status) "Available") ConditionTrue) eqn:Eb.
    + apply andb_true_iff in Eb as [Eb1 Eb2]. split; [intros _|done].
      exists observed, status. rewrite Ed. by split_and!.
    + split; [done|]. intros (? & ? & [= <-] & Hf & Hd & Ha). rewrite Ef in Hf. injection Hf as <-.
      rewrite Ed in Hd. simpl in Hd. by rewrite Hd, Ha in Eb.
Qed.

(** The first active version is one whose hosted clusters report on clients
    ([minOIDCObservabilityVersion], 4.20.41, or later). *)
Definition reportsClients (activeVersions : list (ActiveVersion V)) : Prop :=
  ∃ minimum version, semver_Parse minOIDCObservabilityVersion = Some minimum ∧
    head activeVersions ≫= av_Version = Some version ∧ LT version minimum = false.

Lemma omap_client_nil hostedCluster (clients : list ExternalAuthClientProfile) :
  omap (λ client, evaluateExternalAuthClient client hostedCluster) clients = [] ↔
  ∀ client, client ∈ clients → healthyClient hostedCluster client.
Proof.
  split.
  - intros Hn client Hin. apply evaluateExternalAuthClient_healthy.
    destruct (evaluateExternalAuthClient client hostedCluster) as [m|] eqn:E; [|done]. exfalso.
    apply (not_elem_of_nil m). rewrite <- Hn. apply list_elem_of_omap. eauto.
  - intros Hall. apply elem_of_nil_inv. intros m (client & Hin & E)%list_elem_of_omap.
    apply Hall, evaluateExternalAuthClient_healthy in Hin. congruence.
Qed.

Lemma determineOIDC_status externalAuth hostedCluster activeVersions c :
  reportsClients activeVersions →
  determineOIDCClientsDegradedCondition externalAuth hostedCluster activeVersions = Ok c →
  sc_Type c = ExternalAuthOIDCClientsDegradedCondition ∧
  (sc_Status c = ConditionFalse ↔ ∀ client, client ∈ ea_Clients externalAuth → healthyClient hostedCluster client) ∧
  (sc_Status c = ConditionTrue ↔ ¬ ∀ client, client ∈ ea_Clients externalAuth → healthyClient hostedCluster client).
Proof.
  intros (minimum & version & Hm & Hv & Hlt). unfold determineOIDCClientsDegradedCondition. rewrite Hm, Hv, Hlt.
  destruct (ea_Clients externalAuth) as [|client clients] eqn:Ec.
  { intros [= <-]. split_and!; [done|split; [intros _ x Hx; by apply not_elem_of_nil in Hx|done]|].
    split; [done|]. intros Hno. destruct Hno. intros x Hx. by apply not_elem_of_nil in Hx. }
  rewrite <- (omap_client_nil hostedCluster (client :: clients)).
  destruct (omap _ (client :: clients)); intros [= <-]; simpl; split_and!; naive_solver.
Qed.

(** (C31) A client that does not work reaches the user.  On a version whose hosted clusters
    report on clients, for an external auth that is being served, when the hosted cluster
    was read and all writes are accepted: if the hosted cluster does not report every
    declared client available and not degraded, then after a pass of the controller of
    clients and a pass of the aggregator the user reads [Degraded=True]. *)
Theorem broken_client_reaches_user {R} unmarshal externalAuth (existing : StatusDocument R) conditions
    readDesire hostedCluster activeVersions setAt setAt' Replace Replace' :
  oidc_needsWork externalAuth = true → doc_DeletionTimestamp existing = None →
  GetCachedHostedClusterForCluster unmarshal readDesire = Ok (Some hostedCluster, true) →
  reportsClients activeVersions →
  (∀ l, Replace l = None) → (∀ d, Replace' d = None) →
  (¬ ∀ client, client ∈ ea_Clients externalAuth → healthyClient hostedCluster client) →
  ∃ written, externalAuthOIDCClientsDegradedController_SyncOnce unmarshal (Ok externalAuth) (Ok conditions) readDesire
      (Ok activeVersions) setAt Replace = Ok (written, None) ∧
  let o := externalAuthUserFacingConditionsDegradedAggregator_SyncOnce (Ok existing)
    (Ok (default conditions written)) setAt' Replace' in
  ∃ c, FindStatusCondition (doc_UserFacingConditions (documentAfter existing o)) DegradedConditionType = Some c ∧
    sc_Status c = ConditionTrue.
Proof.
  intros Hneeds Halive Hcached Hversion Hw Hw' Hbroken.
  assert (Hdet : ∃ c, determineOIDCClientsDegradedCondition externalAuth hostedCluster activeVersions = Ok c).
  { destruct Hversion as (minimum & version & Hm & Hv & Hlt). unfold determineOIDCClientsDegradedCondition.
    rewrite Hm, Hv, Hlt. destruct (ea_Clients externalAuth) as [|client clients]; [by eexists|].
    by destruct (omap _ (client :: clients)); eexists. }
  destruct Hdet as [c Hdet].
  destruct (determineOIDC_status _ _ _ _ Hversion Hdet) as (Htype & _ & [_ Htrue]). specialize (Htrue Hbroken).
  destruct (SetStatusCondition_same setAt conditions c) as (c' & Hfound & (Htype' & Hst & _)).
  set (l := SetStatusCondition setAt conditions c) in *.
  exists (storeReplacement false (negb (sameConditions conditions l)) Replace l).1.
  assert (Hstored : default conditions (storeReplacement false (negb (sameConditions conditions l)) Replace l).1 = l).
  { unfold storeReplacement, sameConditions. rewrite negb_involutive. by case_bool_decide. }
  rewrite Hstored. split.
  - unfold externalAuthOIDCClientsDegradedController_SyncOnce. rewrite Hneeds, Hcached. simpl.
    destruct activeVersions as [|v vs]; [destruct Hversion as (? & ? & _ & ? & _); done|].
    rewrite Hdet. fold l. unfold storeReplacement. destruct (negb (negb _)); simpl; [done|]. by rewrite Hw.
  - unfold externalAuthUserFacingConditionsDegradedAggregator_SyncOnce. rewrite (needsWork_alive existing Halive). simpl.
    set (aggregated := AggregateExternalAuthUserFacingDegradedCondition (collectAllowlistedConditions l)).
    destruct (reportUserFacing_found setAt' Replace' existing aggregated Hw') as (u & Hu & (_ & Hus & _)).
    unfold aggregated at 2 in Hu. rewrite AggregateExternalAuth_type in Hu.
    exists u. split; [exact Hu|]. rewrite Hus. apply AggregateExternalAuth_true, collected_some_true.
    exists c'. apply FindStatusCondition_some in Hfound as [Hin _].
    split_and!; [exact Hin|rewrite Htype', Htype; left|congruence].
Qed.
End oidc_facts.

(** ** An external auth with one client *)

Module OIDCExample.
Import StatusInstances.
#[local] Existing Instance Release.semver.
Local Open Scope list_scope.

Definition release (s : string) : ActiveVersion Release.t := {|
  av_Version := Release.parse s; av_State := "Completed"; av_LastTransitionTime := 0 |}.
Definition console : ExternalAuthClientProfile := {| client_Name := "Console"; client_AuthClientNamespace := "openshift-console" |}.
Definition served : ExternalAuth := {|
  ea_DeletionTimestamp := None; ea_ClusterServiceID := Some "id"; ea_Clients := [console] |}.
Definition condition (t status reason : string) : StatusCondition := {|
  sc_Type := t; sc_Status := status; sc_Reason := reason; sc_Message := EmptyString; sc_LastTransitionTime := 1 |}.
Definition secretMissing : HostedCluster := {| hc_OIDCClients := Some [{|
  oidc_ComponentName := "console"; oidc_ComponentNamespace := "openshift-console";
  oidc_Conditions := [condition "Degraded" "True" "OIDCClientSecretGet"; condition "Available" "False" "Waiting"] |}] |}.
Definition desire : ReadDesire := {| rd_Conditions := [condition "Successful" "True" "Read"]; rd_KubeContent := Some "content" |}.
Definition existing : StatusDocument unit := {|
  doc_rest := tt; doc_DeletionTimestamp := None; doc_Conditions := []; doc_UserFacingConditions := [] |}.

Definition rel (a b c : Z) : Release.t := default (exist _ (0, 0, 0) eq_refl) (Release.make a b c).

Ltac evaluates := apply (bool_decide_unpack _); vm_compute; exact I.

Lemma reports_4_21 : reportsClients [release "4.21.3"].
Proof. exists (rel 4 20 41), (rel 4 21 3). split_and!; [evaluates|evaluates|by vm_compute]. Qed.

Lemma broken_client_reaches_user_witness :
  ∃ written, externalAuthOIDCClientsDegradedController_SyncOnce (λ _, Some secretMissing) (Ok served) (Ok []) (Ok desire)
      (Ok [release "4.21.3"]) 7 (λ _, None) = Ok (written, None) ∧
  let o := externalAuthUserFacingConditionsDegradedAggregator_SyncOnce (Ok existing) (Ok (default [] written)) 8 (λ _, None) in
  ∃ c, FindStatusCondition (doc_UserFacingConditions (documentAfter existing o)) DegradedConditionType = Some c ∧
    sc_Status c = ConditionTrue.
Proof.
  apply (broken_client_reaches_user (λ _, Some secretMissing) served existing [] (Ok desire) secretMissing [release "4.21.3"]
    7 8 (λ _, None) (λ _, None)); [done|done|done|exact reports_4_21|done|done|].
  intros Hall. specialize (Hall console (list_elem_of_here _ _)).
  apply evaluateExternalAuthClient_healthy in Hall. vm_compute in Hall. discriminate.
Defined.

(** Below 4.20.41 the condition is [Unknown]; the comment of the function says [False]. *)
Example unsupported_version_is_unknown :
  match determineOIDCClientsDegradedCondition served secretMissing [release "4.20.40"] with
  | Ok c => sc_Status c = "Unknown" ∧ sc_Reason c = "ExternalAuthObservabilityUnsupported"
  | Err _ => False
  end.
Proof. by vm_compute. Qed.
End OIDCExample.
