(* ===== verification/OperationState.v ===== *)
(** * The state of an operation

    [backend/pkg/utils/operationutils/operation_state.go] and the cloud errors of
    [internal/api/coreapi/error.go]: several checks each report a provisioning state, and
    the operation takes the worst of them.  A [ProvisioningState] is a string, as in the
    source; the states are pointers there, and a nil one is [None] where it is handled. *)
From S2P Require Import Prelude GoStrings.

Local Open Scope string_scope.
Local Open Scope Z_scope.

(** ** Provisioning states *)

Definition ProvisioningStateSucceeded : string := "Succeeded".
Definition ProvisioningStateFailed : string := "Failed".
Definition ProvisioningStateCanceled : string := "Canceled".
Definition ProvisioningStateAccepted : string := "Accepted".
Definition ProvisioningStateDeleting : string := "Deleting".
Definition ProvisioningStateProvisioning : string := "Provisioning".
Definition ProvisioningStateUpdating : string := "Updating".
Definition ProvisioningStateAwaitingSecret : string := "AwaitingSecret".

Definition IsTerminal (s : string) : bool :=
  bool_decide (s ∈ [ProvisioningStateSucceeded; ProvisioningStateFailed; ProvisioningStateCanceled]).

(** ** Errors *)

Inductive CloudErrorBody : Type :=
  CloudError (code message target : string) (details : list CloudErrorBody).

Definition ceb_Code (e : CloudErrorBody) : string := let 'CloudError code _ _ _ := e in code.
Definition ceb_Message (e : CloudErrorBody) : string := let 'CloudError _ message _ _ := e in message.
Definition ceb_Details (e : CloudErrorBody) : list CloudErrorBody := let 'CloudError _ _ _ details := e in details.
Definition withCode (code : string) (e : CloudErrorBody) : CloudErrorBody :=
  let 'CloudError _ message target details := e in CloudError code message target details.
Definition withMessage (message : string) (e : CloudErrorBody) : CloudErrorBody :=
  let 'CloudError code _ target details := e in CloudError code message target details.

Definition CloudErrorCodeInternalServerError : string := "InternalServerError".
Definition CloudErrorCodeMultipleErrorsOccurred : string := "MultipleErrorsOccurred".
Definition CloudErrorCodeDeadlineExceeded : string := "DeadlineExceeded".

Definition NewCloudErrorBodyFromSlice (errors : list CloudErrorBody) (multipleErrorsMessage : string) : option CloudErrorBody :=
  match errors with
  | [] => None
  | [e] => Some e
  | _ => Some (CloudError CloudErrorCodeMultipleErrorsOccurred multipleErrorsMessage EmptyString errors)
  end.

(** The body of [NewInternalServerError]. *)
Definition internalServerError : CloudErrorBody :=
  CloudError CloudErrorCodeInternalServerError "Internal server error." EmptyString [].

(** ** States reported by checks *)

Record OperationState := {
  os_Source : string;
  os_ProvisioningState : string;
  os_Message : string;
  os_CloudErrorCode : string;
  os_Error : option CloudErrorBody;
}.

Definition WithSource (source : string) (s : OperationState) : OperationState := {|
  os_Source := source; os_ProvisioningState := os_ProvisioningState s; os_Message := os_Message s;
  os_CloudErrorCode := os_CloudErrorCode s; os_Error := os_Error s |}.

Definition WithCloudErrorCode (code : string) (s : OperationState) : OperationState :=
  if String.eqb code EmptyString then s
  else {| os_Source := os_Source s; os_ProvisioningState := os_ProvisioningState s; os_Message := os_Message s;
          os_CloudErrorCode := code; os_Error := os_Error s |}.

Definition NewOperationState (provisioningState message : string) : OperationState := {|
  os_Source := EmptyString; os_ProvisioningState := provisioningState; os_Message := message;
  os_CloudErrorCode :=
    if String.eqb provisioningState ProvisioningStateSucceeded then EmptyString else CloudErrorCodeInternalServerError;
  os_Error := None |}.

Definition NewFailedOperationState (code message : string) (operationError : option CloudErrorBody) : OperationState :=
  let s := WithCloudErrorCode code (NewOperationState ProvisioningStateFailed message) in
  {| os_Source := os_Source s; os_ProvisioningState := os_ProvisioningState s; os_Message := os_Message s;
     os_CloudErrorCode := os_CloudErrorCode s; os_Error := operationError |}.

(** ** The worst code *)

Definition cloudErrorCodePriority (code : string) : Z :=
  if HasPrefix code "Invalid" then 0
  else if String.eqb code CloudErrorCodeInternalServerError then 2
  else 1.

Definition PickWorstCloudErrorCode (states : list OperationState) (provisioningState : string) : string :=
  if String.eqb provisioningState ProvisioningStateSucceeded then EmptyString
  else List.fold_left (λ code state,
    if negb (String.eqb (os_ProvisioningState state) provisioningState)
       || String.eqb (os_CloudErrorCode state) EmptyString then code
    else if cloudErrorCodePriority (os_CloudErrorCode state) <? cloudErrorCodePriority code then os_CloudErrorCode state
    else code) states CloudErrorCodeInternalServerError.

(** ** The order of states *)

(** A state that is not in the map has the priority zero, that of a failure. *)
Definition provisioningStatePriority (s : string) : Z :=
  if String.eqb s EmptyString then -1
  else if String.eqb s ProvisioningStateFailed then 0
  else if String.eqb s ProvisioningStateCanceled then 10
  else if String.eqb s ProvisioningStateDeleting then 20
  else if String.eqb s ProvisioningStateProvisioning then 30
  else if String.eqb s ProvisioningStateAwaitingSecret then 35
  else if String.eqb s ProvisioningStateUpdating then 40
  else if String.eqb s ProvisioningStateAccepted then 50
  else if String.eqb s ProvisioningStateSucceeded then 100
  else 0.

(** [strings.Compare]. *)
Definition strings_Compare (a b : string) : Z := if String.eqb a b then 0 else if string_less a b then -1 else 1.

Definition CompareOperationState (lhs rhs : option OperationState) : Z :=
  match lhs, rhs with
  | None, None => 0
  | None, Some _ => -1
  | Some _, None => 1
  | Some lhs, Some rhs =>
      let l := provisioningStatePriority (os_ProvisioningState lhs) in
      let r := provisioningStatePriority (os_ProvisioningState rhs) in
      if l <? r then -1 else if r <? l then 1 else strings_Compare (os_Message lhs) (os_Message rhs)
  end.

(** [slices.SortStableFunc] with it. *)
Definition sortStates (states : list OperationState) : list OperationState :=
  sort_by (λ a b, CompareOperationState (Some a) (Some b) <? 0) states.

Definition DeadlineExceededMessage (deadlineSentence remainingChecks : string) : string :=
  if String.eqb remainingChecks EmptyString then deadlineSentence
  else deadlineSentence +:+ "; " +:+ remainingChecks.

(** ** The worst state *)

Inductive pickError : Type := NoOperationStates | EmptyProvisioningState.

(** The states at the front of the list with the given provisioning state. *)
Fixpoint takeState (provisioningState : string) (states : list OperationState) : list OperationState :=
  match states with
  | [] => []
  | s :: rest => if String.eqb (os_ProvisioningState s) provisioningState then s :: takeState provisioningState rest else []
  end.

Definition messagePart (s : OperationState) : option string :=
  if String.eqb (os_Message s) EmptyString then None
  else Some ("[" +:+ (if String.eqb (os_Source s) EmptyString then "<no_source>" else os_Source s) +:+ "] " +:+ os_Message s).

Definition PickWorstOperationState (states : list OperationState) : result pickError OperationState :=
  match states with
  | [] => Err NoOperationStates
  | first :: _ =>
      let worst := os_ProvisioningState first in
      if String.eqb worst EmptyString then Err EmptyProvisioningState
      else
        let tied := takeState worst states in
        let operationErrors := omap os_Error tied in
        let message := Join "; " (omap messagePart tied) in
        let code := PickWorstCloudErrorCode states worst in
        if String.eqb worst ProvisioningStateFailed then
          Ok (NewFailedOperationState code message
                (withCode code <$> NewCloudErrorBodyFromSlice operationErrors "Operation failed due to multiple errors"))
        else Ok (WithCloudErrorCode code (NewOperationState worst message))
  end.

(** ** Sorted states *)

Definition stateLess (a b : OperationState) : bool := CompareOperationState (Some a) (Some b) <? 0.
Definition statePriority (s : OperationState) : Z := provisioningStatePriority (os_ProvisioningState s).

(** By priority, then by message. *)
Lemma stateLess_spec a b :
  stateLess a b = true ↔ statePriority a < statePriority b ∨
    statePriority a = statePriority b ∧ string_less (os_Message a) (os_Message b) = true.
Proof.
  unfold stateLess, CompareOperationState, strings_Compare. fold (statePriority a) (statePriority b).
  destruct (Z.ltb_spec (statePriority a) (statePriority b)); [split; [by left|done]|].
  destruct (Z.ltb_spec (statePriority b) (statePriority a)).
  { split; [done|]. intros [?|[? _]]; lia. }
  destruct (String.eqb_spec (os_Message a) (os_Message b)) as [->|].
  - rewrite string_less_irrefl. split; [done|]. intros [?|[_ ?]]; [lia|done].
  - destruct (string_less (os_Message a) (os_Message b)).
    + split; [intros _; right; split; [lia|done]|done].
    + split; [done|]. intros [?|[_ ?]]; [lia|done].
Qed.

Lemma stateLess_asym a b : stateLess a b = true → stateLess b a = false.
Proof.
  intros Hab. apply not_true_iff_false. intros Hba. apply stateLess_spec in Hab, Hba.
  destruct Hab as [?|[? Hab]], Hba as [?|[? Hba]]; try lia. by rewrite (string_less_asym _ _ Hab) in Hba.
Qed.

Lemma stateLess_ordered a b : ordered stateLess a b ↔
  statePriority a < statePriority b ∨ statePriority a = statePriority b ∧ String.le (os_Message a) (os_Message b).
Proof.
  unfold ordered. rewrite <- not_true_iff_false, stateLess_spec, <- string_less_false, <- not_true_iff_false.
  destruct (Z.lt_total (statePriority a) (statePriority b)) as [?|[?|?]]; [naive_solver lia..].
Qed.

Lemma stateLess_trans a b c : ordered stateLess a b → ordered stateLess b c → ordered stateLess a c.
Proof.
  rewrite !stateLess_ordered. intros [?|[? ?]] [?|[? ?]]; [left; lia..|]. right. split; [lia|]. by trans (os_Message b).
Qed.

Lemma sortStates_sorted states : StronglySorted (ordered stateLess) (sortStates states).
Proof. apply sort_by_sorted; [apply stateLess_asym|apply stateLess_trans]. Qed.

Lemma elem_of_sortStates s states : s ∈ sortStates states ↔ s ∈ states.
Proof. apply elem_of_sort_by. Qed.

(** The states the map names; the empty one makes [PickWorstOperationState] fail. *)
Definition knownStates : list string :=
  [ProvisioningStateFailed; ProvisioningStateCanceled; ProvisioningStateDeleting; ProvisioningStateProvisioning;
   ProvisioningStateAwaitingSecret; ProvisioningStateUpdating; ProvisioningStateAccepted; ProvisioningStateSucceeded].

Lemma priority_inj s s' : s ∈ knownStates → s' ∈ knownStates →
  provisioningStatePriority s = provisioningStatePriority s' → s = s'.
Proof.
  intros Hs Hs'. assert (Hall : Forall (λ s, Forall (λ s',
    provisioningStatePriority s = provisioningStatePriority s' → s = s') knownStates) knownStates).
  { apply (bool_decide_unpack _). by vm_compute. }
  rewrite Forall_forall in Hall. specialize (Hall s Hs). rewrite Forall_forall in Hall. by apply Hall.
Qed.

Lemma priority_bounds s : s ∈ knownStates →
  0 <= provisioningStatePriority s <= 100 ∧ (provisioningStatePriority s = 0 ↔ s = ProvisioningStateFailed) ∧
  (provisioningStatePriority s = 100 ↔ s = ProvisioningStateSucceeded) ∧ s ≠ EmptyString.
Proof.
  intros Hs. assert (Hall : Forall (λ s, 0 <= provisioningStatePriority s <= 100 ∧
    (provisioningStatePriority s = 0 ↔ s = ProvisioningStateFailed) ∧
    (provisioningStatePriority s = 100 ↔ s = ProvisioningStateSucceeded) ∧ s ≠ EmptyString) knownStates).
  { unfold knownStates. repeat (apply Forall_cons_2; [split_and!; vm_compute; done|]). constructor. }
  rewrite Forall_forall in Hall. by apply Hall.
Qed.

(** In a sorted list of known states, those tied for the worst are all at the front. *)
Lemma takeState_sorted s states :
  StronglySorted (ordered stateLess) (s :: states) → Forall (λ x, os_ProvisioningState x ∈ knownStates) (s :: states) →
  takeState (os_ProvisioningState s) (s :: states)
  = List.filter (λ x, String.eqb (os_ProvisioningState x) (os_ProvisioningState s)) (s :: states).
Proof.
  intros Hsorted Hknown. simpl. rewrite String.eqb_refl. f_equal.
  apply Forall_cons in Hknown as [Hks Hknown]. apply StronglySorted_inv in Hsorted as [Hsorted Hle].
  induction states as [|x states IH]; simpl; [done|].
  apply Forall_cons in Hknown as [Hkx Hknown]. apply StronglySorted_inv in Hsorted as [Hsorted Hlex].
  apply Forall_cons in Hle as [Hsx Hle].
  destruct (String.eqb_spec (os_ProvisioningState x) (os_ProvisioningState s)) as [He|Hne]; [f_equal; by apply IH|].
  symmetry. apply elem_of_nil_inv. intros y [Hin Hy%String.eqb_eq]%list_elem_of_In%filter_In.
  apply list_elem_of_In in Hin. rewrite Forall_forall in Hlex. specialize (Hlex y Hin).
  apply stateLess_ordered in Hlex, Hsx. unfold statePriority in *. rewrite Hy in Hlex.
  apply Hne, priority_inj; [done|done|]. lia.
Qed.

(** ** The worst state wins *)

(** The code is [InternalServerError] or that of a state in the given provisioning
    state, and none of those has a worse one. *)
Lemma PickWorstCloudErrorCode_worst states p :
  p ≠ ProvisioningStateSucceeded →
  let code := PickWorstCloudErrorCode states p in
  (code = CloudErrorCodeInternalServerError ∨
    ∃ s, s ∈ states ∧ os_ProvisioningState s = p ∧ os_CloudErrorCode s = code ∧ code ≠ EmptyString) ∧
  ∀ s, s ∈ states → os_ProvisioningState s = p → os_CloudErrorCode s ≠ EmptyString →
    cloudErrorCodePriority code <= cloudErrorCodePriority (os_CloudErrorCode s).
Proof.
  intros Hp. unfold PickWorstCloudErrorCode. apply String.eqb_neq in Hp. rewrite Hp. simpl.
  set (step := λ code state, _).
  assert (Hgen : ∀ l code0, let code := List.fold_left step l code0 in
    (code = code0 ∨ ∃ s, s ∈ l ∧ os_ProvisioningState s = p ∧ os_CloudErrorCode s = code ∧ code ≠ EmptyString) ∧
    cloudErrorCodePriority code <= cloudErrorCodePriority code0 ∧
    ∀ s, s ∈ l → os_ProvisioningState s = p → os_CloudErrorCode s ≠ EmptyString →
      cloudErrorCodePriority code <= cloudErrorCodePriority (os_CloudErrorCode s)).
  { induction l as [|s l IH]; intros code0; simpl.
    { split_and!; [by left|lia|]. intros s Hs. by apply not_elem_of_nil in Hs. }
    assert (Hstep : (step code0 s = code0 ∨ os_ProvisioningState s = p ∧ os_CloudErrorCode s = step code0 s ∧ step code0 s ≠ EmptyString) ∧
      cloudErrorCodePriority (step code0 s) <= cloudErrorCodePriority code0 ∧
      (os_ProvisioningState s = p → os_CloudErrorCode s ≠ EmptyString →
        cloudErrorCodePriority (step code0 s) <= cloudErrorCodePriority (os_CloudErrorCode s))).
    { unfold step. destruct (String.eqb_spec (os_ProvisioningState s) p); simpl; [|split_and!; [by left|lia|done]].
      destruct (String.eqb_spec (os_CloudErrorCode s) EmptyString); [split_and!; [by left|lia|done]|].
      destruct (Z.ltb_spec (cloudErrorCodePriority (os_CloudErrorCode s)) (cloudErrorCodePriority code0));
        split_and!; [by right|lia|lia|by left|lia|lia]. }
    destruct Hstep as (Hfrom & Hle & Hs). destruct (IH (step code0 s)) as (Hfrom' & Hle' & Hall). split_and!.
    - destruct Hfrom' as [E|(x & Hx & ?)]; [|right; exists x; split; [by right|done]].
      rewrite E. destruct Hfrom as [->|?]; [by left|]. right. exists s. split; [by left|done].
    - lia.
    - intros x [->|Hx]%elem_of_cons ? ?; [etrans; [exact Hle'|auto]|auto]. }
  destruct (Hgen states CloudErrorCodeInternalServerError) as (H1 & _ & H3). done.
Qed.

(** What is picked, by the state at the front. *)
Lemma PickWorst_first first rest :
  os_ProvisioningState first ≠ EmptyString →
  let tied := takeState (os_ProvisioningState first) (first :: rest) in
  ∃ picked, PickWorstOperationState (first :: rest) = Ok picked ∧
    os_ProvisioningState picked = os_ProvisioningState first ∧
    os_Message picked = Join "; " (omap messagePart tied) ∧
    (os_ProvisioningState first = ProvisioningStateFailed →
     os_Error picked = withCode (PickWorstCloudErrorCode (first :: rest) ProvisioningStateFailed)
       <$> NewCloudErrorBodyFromSlice (omap os_Error tied) "Operation failed due to multiple errors").
Proof.
  intros Hempty. unfold PickWorstOperationState. apply String.eqb_neq in Hempty. rewrite Hempty.
  destruct (String.eqb_spec (os_ProvisioningState first) ProvisioningStateFailed) as [Hf|Hf];
    eexists; (split; [reflexivity|]).
  - unfold NewFailedOperationState, WithCloudErrorCode. by destruct (String.eqb (PickWorstCloudErrorCode _ _) _); rewrite <- ?Hf.
  - unfold WithCloudErrorCode. by destruct (String.eqb (PickWorstCloudErrorCode _ _) _).
Qed.

(** What is picked of the sorted states. *)
Lemma PickWorst_sorted states :
  states ≠ [] → Forall (λ s, os_ProvisioningState s ∈ knownStates) states →
  ∃ first rest picked, sortStates states = first :: rest ∧ PickWorstOperationState (sortStates states) = Ok picked ∧
    os_ProvisioningState picked = os_ProvisioningState first ∧ first ∈ states ∧
    (∀ s, s ∈ states → statePriority first <= statePriority s) ∧
    (os_ProvisioningState first = ProvisioningStateSucceeded ↔
      ∀ s, s ∈ states → os_ProvisioningState s = ProvisioningStateSucceeded) ∧
    (os_ProvisioningState first = ProvisioningStateFailed ↔
      ∃ s, s ∈ states ∧ os_ProvisioningState s = ProvisioningStateFailed).
Proof.
  intros Hne Hknown.
  pose proof (sortStates_sorted states) as Hsorted.
  destruct (sortStates states) as [|first rest] eqn:Es.
  { exfalso. apply Hne, Permutation_nil. rewrite <- Es. apply sort_by_perm. }
  assert (Hin : ∀ s, s ∈ states ↔ s ∈ first :: rest) by (intros s; by rewrite <- Es, elem_of_sortStates).
  assert (Hf : first ∈ states) by (apply Hin; by left).
  apply StronglySorted_inv in Hsorted as [_ Hle]. rewrite Forall_forall in Hknown.
  destruct (priority_bounds _ (Hknown first Hf)) as (Hb & Hb0 & Hb100 & Hempty).
  assert (Hmin : ∀ s, s ∈ states → statePriority first <= statePriority s).
  { intros s [->|Hs]%Hin%elem_of_cons; [lia|]. rewrite Forall_forall in Hle. apply Hle, stateLess_ordered in Hs. lia. }
  destruct (PickWorst_first first rest Hempty) as (picked & Hpick & Hstate & _).
  exists first, rest, picked. split_and!; [done|done|done|done|exact Hmin| |].
  - split; [|by eauto]. intros Hs s Hsin. destruct (priority_bounds _ (Hknown s Hsin)) as (? & _ & Hs100 & _).
    apply Hs100. specialize (Hmin s Hsin). unfold statePriority in *. apply Hb100 in Hs. lia.
  - split; [by eauto|]. intros (s & Hsin & Hs). apply Hb0. specialize (Hmin s Hsin). unfold statePriority in *.
    rewrite Hs in Hmin. change (provisioningStatePriority ProvisioningStateFailed) with 0 in Hmin. lia.
Qed.

(** The worst state wins: for checks in known states the pick succeeds, no check is in
    a worse state than the one picked, and some check is in it; so the operation is
    [Succeeded] only when every check is and [Failed] exactly when some check is.  Its
    message holds what every check tied for the worst state has to say, in order, and
    the errors of failed checks are kept under the worst of their codes. *)
Theorem worst_state_wins states :
  states ≠ [] → Forall (λ s, os_ProvisioningState s ∈ knownStates) states →
  ∃ picked, PickWorstOperationState (sortStates states) = Ok picked ∧
    (∃ s, s ∈ states ∧ os_ProvisioningState s = os_ProvisioningState picked) ∧
    (∀ s, s ∈ states → statePriority picked <= statePriority s) ∧
    (os_ProvisioningState picked = ProvisioningStateSucceeded ↔
      ∀ s, s ∈ states → os_ProvisioningState s = ProvisioningStateSucceeded) ∧
    (os_ProvisioningState picked = ProvisioningStateFailed ↔
      ∃ s, s ∈ states ∧ os_ProvisioningState s = ProvisioningStateFailed) ∧
    let tied := List.filter (λ s, String.eqb (os_ProvisioningState s) (os_ProvisioningState picked)) (sortStates states) in
    os_Message picked = Join "; " (omap messagePart tied) ∧
    (os_ProvisioningState picked = ProvisioningStateFailed →
      os_Error picked = withCode (PickWorstCloudErrorCode (sortStates states) ProvisioningStateFailed)
        <$> NewCloudErrorBodyFromSlice (omap os_Error tied) "Operation failed due to multiple errors").
Proof.
  intros Hne Hknown.
  destruct (PickWorst_sorted states Hne Hknown) as (first & rest & picked & Es & Hpick & Hstate & Hf & Hmin & Hsucc & Hfail).
  pose proof (sortStates_sorted states) as Hsorted. rewrite Es in Hpick, Hsorted |- *.
  assert (Hk' : Forall (λ s, os_ProvisioningState s ∈ knownStates) (first :: rest)).
  { rewrite <- Es. apply Forall_forall. intros x Hx. rewrite elem_of_sortStates in Hx. rewrite Forall_forall in Hknown. auto. }
  pose proof (takeState_sorted _ _ Hsorted Hk') as Htied.
  apply Forall_cons in Hk' as [Hkf _]. destruct (priority_bounds _ Hkf) as (_ & _ & _ & Hempty).
  destruct (PickWorst_first first rest Hempty) as (picked' & Hpick' & _ & Hmsg & Herr).
  assert (picked' = picked) as -> by congruence.
  exists picked. split; [done|]. unfold statePriority at 1. rewrite Hstate. simpl in Htied |- *. rewrite <- Htied.
  split_and!; eauto.
Qed.

Lemma worst_state_wins_witness :
  let states := [WithSource "service" (NewOperationState "Succeeded" EmptyString);
                 WithSource "b" (NewOperationState "Provisioning" "waiting");
                 WithSource "a" (NewOperationState "Provisioning" EmptyString)] in
  ∃ picked, PickWorstOperationState (sortStates states) = Ok picked ∧
    os_ProvisioningState picked = "Provisioning" ∧ os_Message picked = "[b] waiting" ∧
    ∀ s, s ∈ states → statePriority picked <= statePriority s.
Proof.
  intros states. destruct (worst_state_wins states) as (picked & Hp & _ & Hmin & _).
  - done.
  - unfold states. repeat (apply Forall_cons_2; [apply (bool_decide_unpack _); by vm_compute|]). constructor.
  - exists picked. split_and!; [exact Hp| | |exact Hmin]; vm_compute in Hp; injection Hp as <-; reflexivity.
Defined.
