(* ===== verification/OperationStore.v ===== *)
(** * Operations and the resources they act on

    The documents of operations ([internal/api/coreapi/types_operation.go]) and what the
    operations change of clusters, node pools and external auths; transactions of the
    database, whose replacements carry the ETag of the document they were made from
    ([internal/database/cosmosstorage]); new operations and canceled ones.

    The database is an interface: [db_view] is its content, and the laws say what its
    documentation says of reads, single replacements, deletions and atomic batches. *)
From S2P Require Import Prelude GoStrings RolloutTypes RolloutStatus OperationState.

Local Open Scope string_scope.
Local Open Scope Z_scope.

(** ** Documents *)

Definition OperationRequestCreate : string := "Create".
Definition OperationRequestUpdate : string := "Update".
Definition OperationRequestDelete : string := "Delete".
Definition OperationRequestSystemAdminCredentialRequest : string := "RequestCredential".
Definition OperationRequestSystemAdminCredentialRevocation : string := "RevokeCredentials".

(** What is used of an [Operation]; the name is that of its operation ID and of its
    resource ID, which [NewOperation] makes the same.  An ETag is a number. *)
Record OperationDoc := {
  op_OperationID : option string;
  op_Etag : Z;
  op_Request : string;
  op_ExternalID : option ResourceID;
  op_NotificationURI : string;
  op_StartTime : Z;
  op_LastTransitionTime : Z;
  op_Status : string;
  op_Error : option CloudErrorBody;
}.

(** What operations use of a [Cluster], [NodePool] or [ExternalAuth]; [R] is the rest. *)
Record ResourceDoc (R : Type) := {
  res_ID : ResourceID;
  res_Etag : Z;
  res_ProvisioningState : string;
  res_ActiveOperationID : string;
  res_DeletionTimestamp : option Z;
  res_DeleteOperationCompletionTimeout : option Z;
  res_DeleteOperationCompletionDeadline : option Z;
  res_rest : R;
}.
Arguments res_ID {R}.
Arguments res_Etag {R}.
Arguments res_ProvisioningState {R}.
Arguments res_ActiveOperationID {R}.
Arguments res_DeletionTimestamp {R}.
Arguments res_DeleteOperationCompletionTimeout {R}.
Arguments res_DeleteOperationCompletionDeadline {R}.
Arguments res_rest {R}.

Definition ClusterResourceType : string := "Microsoft.RedHatOpenShift/hcpOpenShiftClusters".
Definition NodePoolResourceType : string := "Microsoft.RedHatOpenShift/hcpOpenShiftClusters/nodePools".
Definition ExternalAuthResourceType : string := "Microsoft.RedHatOpenShift/hcpOpenShiftClusters/externalAuths".
Definition ClusterControllerResourceType : string := "Microsoft.RedHatOpenShift/hcpOpenShiftClusters/hcpOpenShiftControllers".
Definition NodePoolControllerResourceType : string :=
  "Microsoft.RedHatOpenShift/hcpOpenShiftClusters/nodePools/hcpOpenShiftControllers".
Definition ExternalAuthControllerResourceType : string :=
  "Microsoft.RedHatOpenShift/hcpOpenShiftClusters/externalAuths/hcpOpenShiftControllers".

(** Resource IDs are compared without case; the key of a document is its ID in lower case. *)
Definition docKey (id : ResourceID) : string := ToLower (rid_String id).

(** ** Updates of documents *)

Definition withOperationEtag (e : Z) (op : OperationDoc) : OperationDoc := {|
  op_OperationID := op_OperationID op; op_Etag := e; op_Request := op_Request op; op_ExternalID := op_ExternalID op;
  op_NotificationURI := op_NotificationURI op; op_StartTime := op_StartTime op;
  op_LastTransitionTime := op_LastTransitionTime op; op_Status := op_Status op; op_Error := op_Error op |}.

(** A new status at a time; a nil error leaves the one there is. *)
Definition withStatus (now : Z) (status : string) (error : option CloudErrorBody) (op : OperationDoc) : OperationDoc := {|
  op_OperationID := op_OperationID op; op_Etag := op_Etag op; op_Request := op_Request op; op_ExternalID := op_ExternalID op;
  op_NotificationURI := op_NotificationURI op; op_StartTime := op_StartTime op;
  op_LastTransitionTime := now; op_Status := status;
  op_Error := match error with Some e => Some e | None => op_Error op end |}.

Definition withNotificationURI (uri : string) (op : OperationDoc) : OperationDoc := {|
  op_OperationID := op_OperationID op; op_Etag := op_Etag op; op_Request := op_Request op; op_ExternalID := op_ExternalID op;
  op_NotificationURI := uri; op_StartTime := op_StartTime op;
  op_LastTransitionTime := op_LastTransitionTime op; op_Status := op_Status op; op_Error := op_Error op |}.

Definition withProvisioning {R} (state active : string) (d : ResourceDoc R) : ResourceDoc R := {|
  res_ID := res_ID d; res_Etag := res_Etag d; res_ProvisioningState := state; res_ActiveOperationID := active;
  res_DeletionTimestamp := res_DeletionTimestamp d;
  res_DeleteOperationCompletionTimeout := res_DeleteOperationCompletionTimeout d;
  res_DeleteOperationCompletionDeadline := res_DeleteOperationCompletionDeadline d; res_rest := res_rest d |}.

Definition withResourceEtag {R} (e : Z) (d : ResourceDoc R) : ResourceDoc R := {|
  res_ID := res_ID d; res_Etag := e; res_ProvisioningState := res_ProvisioningState d;
  res_ActiveOperationID := res_ActiveOperationID d; res_DeletionTimestamp := res_DeletionTimestamp d;
  res_DeleteOperationCompletionTimeout := res_DeleteOperationCompletionTimeout d;
  res_DeleteOperationCompletionDeadline := res_DeleteOperationCompletionDeadline d; res_rest := res_rest d |}.

Definition withDeletion {R} (timestamp deadline : option Z) (d : ResourceDoc R) : ResourceDoc R := {|
  res_ID := res_ID d; res_Etag := res_Etag d; res_ProvisioningState := res_ProvisioningState d;
  res_ActiveOperationID := res_ActiveOperationID d; res_DeletionTimestamp := timestamp;
  res_DeleteOperationCompletionTimeout := res_DeleteOperationCompletionTimeout d;
  res_DeleteOperationCompletionDeadline := deadline; res_rest := res_rest d |}.

(** ** Transactions *)

Inductive stagedWrite (R : Type) : Type :=
  | CreateOperation (op : OperationDoc)
  | ReplaceOperation (op : OperationDoc)
  | CreateResource (d : ResourceDoc R)
  | ReplaceResource (d : ResourceDoc R).
Arguments CreateOperation {R}.
Arguments ReplaceOperation {R}.
Arguments CreateResource {R}.
Arguments ReplaceResource {R}.

Record dbView (R : Type) := {
  v_operations : gmap string OperationDoc;
  v_resources : gmap string (ResourceDoc R);
}.
Arguments v_operations {R}.
Arguments v_resources {R}.

Definition setOperation {R} (n : string) (op : OperationDoc) (v : dbView R) : dbView R :=
  {| v_operations := <[n := op]> (v_operations v); v_resources := v_resources v |}.
Definition setResource {R} (k : string) (d : ResourceDoc R) (v : dbView R) : dbView R :=
  {| v_operations := v_operations v; v_resources := <[k := d]> (v_resources v) |}.
Definition deleteResource {R} (k : string) (v : dbView R) : dbView R :=
  {| v_operations := v_operations v; v_resources := delete k (v_resources v) |}.

(** A write of a batch: a creation needs the document to be new, a replacement needs the
    ETag it carries to be the stored one; [e] is the ETag the batch gives. *)
Definition applyWrite {R} (e : Z) (v : dbView R) (w : stagedWrite R) : option (dbView R) :=
  match w with
  | CreateOperation op =>
      n ← op_OperationID op;
      if bool_decide (v_operations v !! n = None) then Some (setOperation n (withOperationEtag e op) v) else None
  | ReplaceOperation op =>
      n ← op_OperationID op;
      current ← v_operations v !! n;
      if op_Etag current =? op_Etag op then Some (setOperation n (withOperationEtag e op) v) else None
  | CreateResource d =>
      if bool_decide (v_resources v !! docKey (res_ID d) = None)
      then Some (setResource (docKey (res_ID d)) (withResourceEtag e d) v) else None
  | ReplaceResource d =>
      current ← v_resources v !! docKey (res_ID d);
      if res_Etag current =? res_Etag d then Some (setResource (docKey (res_ID d)) (withResourceEtag e d) v) else None
  end.

Fixpoint applyBatch {R} (e : Z) (v : dbView R) (ws : list (stagedWrite R)) : option (dbView R) :=
  match ws with
  | [] => Some v
  | w :: ws => v' ← applyWrite e v w; applyBatch e v' ws
  end.

(** An ETag that no stored document has. *)
Definition freshEtag {R} (e : Z) (v : dbView R) : Prop :=
  (∀ n op, v_operations v !! n = Some op → op_Etag op ≠ e) ∧ (∀ k d, v_resources v !! k = Some d → res_Etag d ≠ e).

(** A child document of a resource, as a query returns it. *)
Record childDocument := { child_ResourceType : string; child_ResourceID : option ResourceID }.

(** Options of [ListActiveOperations]. *)
Record listOptions := {
  lo_Request : option string;
  lo_ExternalID : option ResourceID;
  lo_IncludeNestedResources : bool;
}.

(** What the query selects: active operations, of the request, for the resource or one
    nested in it. *)
Definition selects (opts : listOptions) (op : OperationDoc) : bool :=
  negb (IsTerminal (op_Status op)) &&
  match lo_Request opts with None => true | Some r => String.eqb (op_Request op) r end &&
  match lo_ExternalID opts with
  | None => true
  | Some id =>
      match op_ExternalID op with
      | None => false
      | Some external =>
          EqualFold (rid_String external) (rid_String id)
          || (lo_IncludeNestedResources opts && HasPrefix (ToLower (rid_String external)) (ToLower (rid_String id) +:+ "/"))
      end
  end.

(** ** The database *)

(** Resources are read by key; [db_listResources] lists those of a type under a parent. *)
Class OperationDB (S R : Type) := {
  db_view : S → dbView R;
  db_getOperation : S → string → result getError OperationDoc;
  db_getResource : S → string → result getError (ResourceDoc R);
  db_stage : S → stagedWrite R → option dbError;
  db_execute : S → list (stagedWrite R) → result dbError S;
  db_delete : S → ResourceID → result dbError S;
  db_children : S → ResourceID → result string (list childDocument * option string);
  db_listActive : S → listOptions → list OperationDoc * option string;
  db_listResources : S → string → string → result string (list (ResourceDoc R) * option string);
}.

Class OperationDBLaws (S R : Type) `{OperationDB S R} := {
  db_getOperation_ok : ∀ s n op, db_getOperation s n = Ok op → v_operations (db_view s) !! n = Some op;
  db_getResource_ok : ∀ s k d, db_getResource s k = Ok d → v_resources (db_view s) !! k = Some d;
  db_getResource_notFound : ∀ s k, db_getResource s k = Err GetNotFound → v_resources (db_view s) !! k = None;
  db_execute_ok : ∀ s ws s', db_execute s ws = Ok s' →
    ∃ e, freshEtag e (db_view s) ∧ applyBatch e (db_view s) ws = Some (db_view s');
  db_delete_ok : ∀ s id s', db_delete s id = Ok s' → db_view s' = deleteResource (docKey id) (db_view s);
  db_listActive_all : ∀ s opts ops, db_listActive s opts = (ops, None) →
    ∀ op, op ∈ ops ↔ (∃ n, v_operations (db_view s) !! n = Some op) ∧ selects opts op = true;
  db_listResources_ok : ∀ s parent ty ds err, db_listResources s parent ty = Ok (ds, err) →
    NoDup ((docKey ∘ res_ID) <$> ds) ∧
    ∀ d, d ∈ ds → v_resources (db_view s) !! docKey (res_ID d) = Some d ∧
      EqualFold (rid_ResourceType (res_ID d)) ty = true ∧ HasPrefix (docKey (res_ID d)) (parent +:+ "/") = true;
}.

(** ** New operations and canceled ones *)

(** [uuid] is the name [NewOperation] draws; tenant, client and correlation are left out. *)
Definition NewOperation (uuid : string) (now : Z) (request : string) (externalID : ResourceID) (notificationURI : string) :
    OperationDoc := {|
  op_OperationID := Some uuid; op_Etag := 0; op_Request := request; op_ExternalID := Some externalID;
  op_NotificationURI := notificationURI; op_StartTime := now; op_LastTransitionTime := now;
  op_Status := if String.eqb request OperationRequestDelete then ProvisioningStateDeleting else ProvisioningStateAccepted;
  op_Error := None |}.

Definition CloudErrorCodeCanceled : string := "Canceled".

Definition CancelOperation (now : Z) (op : OperationDoc) : OperationDoc :=
  withStatus now ProvisioningStateCanceled
    (Some (CloudError CloudErrorCodeCanceled "This operation was superseded by another" EmptyString [])) op.

Section cancel.
Context {S R : Type} `{OperationDB S R}.

(** The writes that cancel the operations the query finds, and whether an error was met
    on the way (staging one, or in the iteration). *)
Definition CancelActiveOperations (now : Z) (opts : listOptions) (s : S) : list (stagedWrite R) * bool :=
  let '(ops, iteratorError) := db_listActive s opts in
  let writes := (λ op, ReplaceOperation (CancelOperation now op)) <$> ops in
  (List.filter (λ w, bool_decide (db_stage s w = None)) writes,
   existsb (λ w, negb (bool_decide (db_stage s w = None))) writes || bool_decide (is_Some iteratorError)).
End cancel.
