(* ===== verification/OperationUpdate.v ===== *)
(** * Updates of an operation and its resource

    [backend/pkg/utils/operationutils/utils.go]: an operation and the resource it acts on
    get their new status in one transaction, the owner of the operation is notified, and
    a completed deletion removes the documents.  Logging is left out. *)
From S2P Require Import Prelude GoStrings RolloutTypes RolloutStatus OperationState OperationStore.

Local Open Scope string_scope.
Local Open Scope Z_scope.

Inductive opError : Type :=
  | StageFailed (e : dbError)
  | GetResourceFailed (e : string)
  | UnknownResourceType (ty : string)
  | TransactionFailed (e : dbError)
  | DeleteFailed (e : dbError)
  | ListChildrenFailed (e : string)
  | ChildWithoutResourceID
  | NilOperationID
  | NilExternalID.

(** Errors are compared as pointers: the new one is a fresh allocation or nil, so two
    errors are the same only when both are nil. *)
Definition NeedToPatchOperation (old : OperationDoc) (newStatus : string) (newError : option CloudErrorBody) : bool :=
  let statusChanged := negb (String.eqb (op_Status old) newStatus) in
  let errorChanged := match op_Error old, newError with None, None => false | _, _ => true end in
  let needsNotification := negb (String.eqb (op_NotificationURI old) EmptyString) && IsTerminal newStatus in
  statusChanged || errorChanged || needsNotification.

Section update.
Context {S R : Type} `{OperationDB S R}.

(** The resource with its new provisioning state, or [None] when it is not to be updated:
    it is gone, another operation owns it, or it has the state already. *)
Definition resourceForUpdate (s : S) (externalID : ResourceID) (operationName newStatus : string) :
    result opError (option (ResourceDoc R)) :=
  match db_getResource s (docKey externalID) with
  | Err GetNotFound => Ok None
  | Err (GetFailed e) => Err (GetResourceFailed e)
  | Ok curr =>
      if negb (String.eqb (res_ActiveOperationID curr) operationName) then Ok None
      else if String.eqb (res_ProvisioningState curr) newStatus && negb (IsTerminal newStatus) then Ok None
      else Ok (Some (withProvisioning newStatus
                 (if IsTerminal newStatus then EmptyString else res_ActiveOperationID curr) curr))
  end.

Definition getClusterForUpdate := resourceForUpdate.
Definition getNodePoolForUpdate := resourceForUpdate.
Definition getExternalAuthForUpdate := resourceForUpdate.

(** [post] is the notification function, if there is one: whether it succeeds. *)
Definition notifyOperationOwner (post : option (OperationDoc → bool)) (op : OperationDoc) (s : S) :
    S * list OperationDoc :=
  match post with
  | Some postAsyncNotificationFn =>
      if IsTerminal (op_Status op) && negb (String.eqb (op_NotificationURI op) EmptyString) then
        if postAsyncNotificationFn op then
          match op_OperationID op with
          | None => (s, [op])
          | Some name =>
              match db_getOperation s name with
              | Err _ => (s, [op])
              | Ok current =>
                  match db_execute s [ReplaceOperation (withNotificationURI EmptyString current)] with
                  | Err _ => (s, [op])
                  | Ok s' => (s', [op])
                  end
              end
          end
        else (s, [])
      else (s, [])
  | None => (s, [])
  end.

(** The resource's part of the transaction, if it is to be updated. *)
Definition stageResource (s : S) (updated : result opError (option (ResourceDoc R))) : result opError (list (stagedWrite R)) :=
  match updated with
  | Err e => Err e
  | Ok None => Ok []
  | Ok (Some d) =>
      match db_stage s (ReplaceResource d) with
      | Some e => Err (StageFailed e)
      | None => Ok [ReplaceResource d]
      end
  end.

(** The writes of the transaction besides that of the operation, by the type of the
    resource. *)
Definition resourceWrites (s : S) (operation : OperationDoc) (name newStatus : string) :
    result opError (list (stagedWrite R)) :=
  match op_ExternalID operation with
  | None => Ok []
  | Some id =>
      if EqualFold (rid_ResourceType id) ClusterResourceType then
        stageResource s (getClusterForUpdate s id name newStatus)
      else if EqualFold (rid_ResourceType id) NodePoolResourceType then
        stageResource s (getNodePoolForUpdate s id name newStatus)
      else if EqualFold (rid_ResourceType id) ExternalAuthResourceType then
        stageResource s (getExternalAuthForUpdate s id name newStatus)
      else Err (UnknownResourceType (rid_ResourceType id))
  end.

(** The state of the database afterwards, the notifications that were posted, and the
    error.  The operation without an ID panics. *)
Definition UpdateOperationStatus (now : Z) (existing : option OperationDoc) (newStatus : string)
    (newError : option CloudErrorBody) (post : option (OperationDoc → bool)) (s : S) :
    S * list OperationDoc * option opError :=
  match existing with
  | None => (s, [], None)
  | Some operation =>
      if negb (NeedToPatchOperation operation newStatus newError) then (s, [], None)
      else
        let updated := withStatus now newStatus newError operation in
        match op_OperationID operation with
        | None => (s, [], Some NilOperationID)
        | Some name =>
            match db_stage s (ReplaceOperation updated) with
            | Some e => (s, [], Some (StageFailed e))
            | None =>
                match resourceWrites s operation name newStatus with
                | Err e => (s, [], Some e)
                | Ok writes =>
                    match db_execute s (ReplaceOperation updated :: writes) with
                    | Err e => (s, [], Some (TransactionFailed e))
                    | Ok s => (notifyOperationOwner post updated s, None)
                    end
                end
            end
        end
  end.

(** The replacement returns the document as stored, with its new ETag. *)
Definition PatchOperation (now : Z) (old : OperationDoc) (newStatus : string) (newError : option CloudErrorBody)
    (post : option (OperationDoc → bool)) (s : S) : S * list OperationDoc * option opError :=
  if negb (NeedToPatchOperation old newStatus newError) then (s, [], None)
  else
    let operationToWrite := withStatus now newStatus newError old in
    match op_OperationID operationToWrite with
    | None => (s, [], Some NilOperationID)
    | Some _ =>
        match db_execute s [ReplaceOperation operationToWrite] with
        | Err e => (s, [], Some (TransactionFailed e))
        | Ok s => (notifyOperationOwner post operationToWrite s, None)
        end
    end.

(** ** Completed deletions *)

Definition childIsSkipped (ty : string) : bool :=
  bool_decide (ToLower ty ∈ ToLower <$>
    [ClusterControllerResourceType; NodePoolControllerResourceType; ExternalAuthControllerResourceType]).

Fixpoint deleteChildren (children : list childDocument) (s : S) : S * option opError :=
  match children with
  | [] => (s, None)
  | child :: rest =>
      if childIsSkipped (child_ResourceType child) then deleteChildren rest s
      else match child_ResourceID child with
      | None => (s, Some ChildWithoutResourceID)
      | Some id =>
          match db_delete s id with
          | Err e => (s, Some (DeleteFailed e))
          | Ok s => deleteChildren rest s
          end
      end
  end.

Definition SetDeleteOperationAsCompleted (now : Z) (operation : OperationDoc) (post : option (OperationDoc → bool)) (s : S) :
    S * list OperationDoc * option opError :=
  match op_ExternalID operation with
  | None => (s, [], Some NilExternalID)
  | Some id =>
      match db_delete s id with
      | Err e => (s, [], Some (DeleteFailed e))
      | Ok s =>
          match db_children s id with
          | Err e => (s, [], Some (ListChildrenFailed e))
          | Ok (children, iteratorError) =>
              match deleteChildren children s with
              | (s, Some e) => (s, [], Some e)
              | (s, None) =>
                  match iteratorError with
                  | Some e => (s, [], Some (ListChildrenFailed e))
                  | None => PatchOperation now operation ProvisioningStateSucceeded None post s
                  end
              end
          end
      end
  end.
End update.
