(* ===== verification/OperationRequests.v ===== *)
(** * Requests that start operations

    The part of the frontend ([frontend/pkg/frontend/{helpers,node_pool,external_auth,cluster}.go])
    that decides whether a request may start an operation and writes it: creation, update
    and deletion of node pools, external auths and clusters, and the deletions that come
    with a subscription.  A resource reaches it decoded, validated and admitted; the
    response is left out. *)
From S2P Require Import Prelude GoStrings RolloutTypes RolloutStatus OperationState OperationStore.

Local Open Scope string_scope.
Local Open Scope Z_scope.
Local Open Scope go_scope.

Inductive requestError : Type :=
  | Conflict (message : string)
  | ReadFailed (e : getError)
  | NotAdmitted
  | CancelFailed
  | StagingFailed (e : dbError)
  | ExecuteFailed (e : dbError)
  | ListFailed (e : string)
  | NilParent.

Section requests.
Context {S R : Type} `{OperationDB S R}.

(** ** Conflicts *)

Definition quoted (s : string) : string := String (ascii_of_N 34) (s +:+ String (ascii_of_N 34) EmptyString).

(** What the request says of the resource's own state. *)
Definition ownStateConflict (request provisioningState : string) : option requestError :=
  if String.eqb request OperationRequestCreate then None
  else if String.eqb request OperationRequestDelete then
    if String.eqb provisioningState ProvisioningStateDeleting then Some (Conflict "Resource is already deleting") else None
  else
    let unlessTerminal (what : string) :=
      if IsTerminal provisioningState then None
      else Some (Conflict ("Cannot " +:+ what +:+ " while resource is " +:+ quoted (ToLower provisioningState))) in
    if String.eqb request OperationRequestUpdate then unlessTerminal "update resource"
    else if String.eqb request OperationRequestSystemAdminCredentialRequest then unlessTerminal "request credential"
    else if String.eqb request OperationRequestSystemAdminCredentialRevocation then unlessTerminal "revoke credentials"
    else None.

Definition checkForProvisioningStateConflict (s : S) (request : string) (resourceID : ResourceID) (provisioningState : string) :
    option requestError :=
  match ownStateConflict request provisioningState with
  | Some e => Some e
  | None =>
      if EqualFold (rid_ResourceType resourceID) NodePoolResourceType
         || EqualFold (rid_ResourceType resourceID) ExternalAuthResourceType then
        match rid_Parent resourceID with
        | None => Some NilParent
        | Some parent =>
            match db_getResource s (ToLower (parent_String parent)) with
            | Err e => Some (ReadFailed e)
            | Ok cluster =>
                if String.eqb (res_ProvisioningState cluster) ProvisioningStateProvisioning then
                  Some (Conflict ("Cannot " +:+ ToLower request +:+ " resource while parent resource is provisioning"))
                else if String.eqb (res_ProvisioningState cluster) ProvisioningStateDeleting then
                  Some (Conflict ("Cannot " +:+ ToLower request +:+ " resource while parent resource is deleting"))
                else None
            end
        end
      else None
  end.

(** ** Creation and update *)

(** Staging a list of writes: all, or the first error. *)
Fixpoint stageAll (s : S) (ws : list (stagedWrite R)) : option dbError :=
  match ws with
  | [] => None
  | w :: ws => match db_stage s w with Some e => Some e | None => stageAll s ws end
  end.

Definition execute (s : S) (ws : list (stagedWrite R)) : result requestError S :=
  match stageAll s ws with
  | Some e => Err (StagingFailed e)
  | None => match db_execute s ws with Ok s' => Ok s' | Err e => Err (ExecuteFailed e) end
  end.

(** The end of [createNodePool]. *)
Definition createNodePool (uuid : string) (now : Z) (notificationURI : string) (newNodePool : ResourceDoc R) (s : S) :
    result requestError S :=
  match checkForProvisioningStateConflict s OperationRequestCreate (res_ID newNodePool) (res_ProvisioningState newNodePool) with
  | Some e => Err e
  | None =>
      let operation := NewOperation uuid now OperationRequestCreate (res_ID newNodePool) notificationURI in
      execute s [CreateOperation operation;
                 CreateResource (withProvisioning (op_Status operation) uuid newNodePool)]
  end.

(** The conflict check of a request that updates, then the end of [updateNodePoolInCosmos];
    the new document carries the ETag of the old. *)
Definition updateNodePool (uuid : string) (now : Z) (notificationURI : string) (newNodePool oldNodePool : ResourceDoc R) (s : S) :
    result requestError S :=
  match checkForProvisioningStateConflict s OperationRequestUpdate (res_ID oldNodePool) (res_ProvisioningState oldNodePool) with
  | Some e => Err e
  | None =>
      let operation := NewOperation uuid now OperationRequestUpdate (res_ID newNodePool) notificationURI in
      execute s [CreateOperation operation;
                 ReplaceResource (withProvisioning (op_Status operation) uuid newNodePool)]
  end.

(** [getInternalClusterFromStorage], whether it succeeds. *)
Definition parentCluster (s : S) (id : ResourceID) : option requestError :=
  match rid_Parent id with
  | None => Some NilParent
  | Some parent => match db_getResource s (ToLower (parent_String parent)) with Err e => Some (ReadFailed e) | Ok _ => None end
  end.

(** The end of [createExternalAuth]: its cluster must be there. *)
Definition createExternalAuth (uuid : string) (now : Z) (notificationURI : string) (newExternalAuth : ResourceDoc R) (s : S) :
    result requestError S :=
  match parentCluster s (res_ID newExternalAuth) with
  | Some e => Err e
  | None =>
      match checkForProvisioningStateConflict s OperationRequestCreate (res_ID newExternalAuth) (res_ProvisioningState newExternalAuth) with
      | Some e => Err e
      | None =>
          let operation := NewOperation uuid now OperationRequestCreate (res_ID newExternalAuth) notificationURI in
          execute s [CreateOperation operation;
                     CreateResource (withProvisioning (op_Status operation) uuid newExternalAuth)]
      end
  end.

(** The conflict check of a request that updates, then the end of
    [updateExternalAuthInCosmos]. *)
Definition updateExternalAuth (uuid : string) (now : Z) (notificationURI : string) (newExternalAuth oldExternalAuth : ResourceDoc R) (s : S) :
    result requestError S :=
  match checkForProvisioningStateConflict s OperationRequestUpdate (res_ID oldExternalAuth) (res_ProvisioningState oldExternalAuth) with
  | Some e => Err e
  | None =>
      let operation := NewOperation uuid now OperationRequestUpdate (res_ID newExternalAuth) notificationURI in
      execute s [CreateOperation operation;
                 ReplaceResource (withProvisioning (op_Status operation) uuid newExternalAuth)]
  end.

(** The end of [createHCPCluster]; no conflict is looked for. *)
Definition createHCPCluster (uuid : string) (now : Z) (notificationURI : string) (newCluster : ResourceDoc R) (s : S) :
    result requestError S :=
  let operation := NewOperation uuid now OperationRequestCreate (res_ID newCluster) notificationURI in
  execute s [CreateOperation operation; CreateResource (withProvisioning (op_Status operation) uuid newCluster)].

(** The conflict check of a request that updates, then the end of [updateHCPClusterInCosmos]:
    the operation is on the old document. *)
Definition updateHCPCluster (uuid : string) (now : Z) (notificationURI : string) (newCluster oldCluster : ResourceDoc R) (s : S) :
    result requestError S :=
  match checkForProvisioningStateConflict s OperationRequestUpdate (res_ID oldCluster) (res_ProvisioningState oldCluster) with
  | Some e => Err e
  | None =>
      let operation := NewOperation uuid now OperationRequestUpdate (res_ID oldCluster) notificationURI in
      execute s [CreateOperation operation;
                 ReplaceResource (withProvisioning (op_Status operation) uuid newCluster)]
  end.

(** ** Deletion *)

Definition DefaultDeleteOperationCompletionDeadlineDuration : Z := 12 * Hour.

Definition computeDeleteOperationCompletionDeadline (cluster : ResourceDoc R) (now : Z) : Z :=
  now + default DefaultDeleteOperationCompletionDeadlineDuration (res_DeleteOperationCompletionTimeout cluster).

Definition timestampOr (now : Z) (d : ResourceDoc R) : option Z :=
  match res_DeletionTimestamp d with None => Some now | t => t end.

(** The writes that delete a document: its active operations are canceled, those of nested
    resources too if asked for, and a new operation owns it. *)
Definition addDelete (nested : bool) (uuid : string) (now : Z) (notificationURI : string) (deadline : option Z)
    (d : ResourceDoc R) (s : S) : result requestError (list (stagedWrite R)) :=
  let '(cancels, cancelFailed) := CancelActiveOperations now
    {| lo_Request := None; lo_ExternalID := Some (res_ID d); lo_IncludeNestedResources := nested |} s in
  if cancelFailed then Err CancelFailed
  else
    let operation := NewOperation uuid now OperationRequestDelete (res_ID d) notificationURI in
    let writes := [CreateOperation operation;
                   ReplaceResource (withDeletion (timestampOr now d) deadline (withProvisioning (op_Status operation) uuid d))] in
    match stageAll s writes with
    | Some e => Err (StagingFailed e)
    | None => Ok (cancels ++ writes)%list
    end.

Definition addDeleteNodePoolToTransaction (uuid : string) (now : Z) (uri : string) (d : ResourceDoc R) (s : S) :=
  addDelete true uuid now uri (res_DeleteOperationCompletionDeadline d) d s.
Definition addDeleteExternalAuthToTransaction (uuid : string) (now : Z) (uri : string) (d : ResourceDoc R) (s : S) :=
  addDelete true uuid now uri (res_DeleteOperationCompletionDeadline d) d s.

(** The children that are not being deleted yet, each with an operation of its own;
    [uuids] draws the names. *)
Fixpoint addDeleteChildren (uuids : string → string) (now : Z) (ds : list (ResourceDoc R)) (s : S) :
    result requestError (list (stagedWrite R)) :=
  match ds with
  | [] => Ok []
  | d :: ds =>
      if bool_decide (is_Some (res_DeletionTimestamp d)) then addDeleteChildren uuids now ds s
      else
        match addDelete true (uuids (docKey (res_ID d))) now EmptyString (res_DeleteOperationCompletionDeadline d) d s with
        | Err e => Err e
        | Ok ws =>
            match addDeleteChildren uuids now ds s with
            | Err e => Err e
            | Ok more => Ok (ws ++ more)%list
            end
        end
  end.

Definition listChildren (s : S) (cluster : ResourceDoc R) (ty : string) : result requestError (list (ResourceDoc R) * option string) :=
  match db_listResources s (docKey (res_ID cluster)) ty with Ok r => Ok r | Err e => Err (ListFailed e) end.

Definition addDeleteClusterToTransaction (uuids : string → string) (now : Z) (uri : string) (cluster : ResourceDoc R) (s : S) :
    result requestError (list (stagedWrite R)) :=
  let* own := addDelete false (uuids (docKey (res_ID cluster))) now uri
    (Some (computeDeleteOperationCompletionDeadline cluster now)) cluster s in
  let* listed := listChildren s cluster NodePoolResourceType in
  let '(nodePools, nodePoolsError) := listed in
  let* pools := addDeleteChildren uuids now nodePools s in
  match nodePoolsError with
  | Some e => Err (ListFailed e)
  | None =>
      let* listed := listChildren s cluster ExternalAuthResourceType in
      let '(externalAuths, externalAuthsError) := listed in
      let* auths := addDeleteChildren uuids now externalAuths s in
      match externalAuthsError with
      | Some e => Err (ListFailed e)
      | None => Ok (own ++ pools ++ auths)%list
      end
  end.

(** A deletion of what is not there is done already. *)
Inductive deleted : Type := NoContent | DeleteAccepted (s : S).

Definition executeDelete (s : S) (writes : result requestError (list (stagedWrite R))) : result requestError deleted :=
  let* ws := writes in
  match db_execute s ws with Ok s' => Ok (DeleteAccepted s') | Err e => Err (ExecuteFailed e) end.

(** [admitted] is the outcome of [AdmitNodePoolOnDelete]. *)
Definition DeleteNodePool (uuid : string) (now : Z) (uri : string) (id : ResourceID) (admitted : ResourceDoc R → bool) (s : S) :
    result requestError deleted :=
  match db_getResource s (docKey id) with
  | Err GetNotFound => Ok NoContent
  | Err e => Err (ReadFailed e)
  | Ok nodePool =>
      match checkForProvisioningStateConflict s OperationRequestDelete (res_ID nodePool) (res_ProvisioningState nodePool) with
      | Some e => Err e
      | None =>
          if negb (admitted nodePool) then Err NotAdmitted
          else executeDelete s (addDeleteNodePoolToTransaction uuid now uri nodePool s)
      end
  end.

Definition DeleteExternalAuth (uuid : string) (now : Z) (uri : string) (id : ResourceID) (s : S) :
    result requestError deleted :=
  match db_getResource s (docKey id) with
  | Err GetNotFound => Ok NoContent
  | Err e => Err (ReadFailed e)
  | Ok externalAuth =>
      match checkForProvisioningStateConflict s OperationRequestDelete (res_ID externalAuth)
              (res_ProvisioningState externalAuth) with
      | Some e => Err e
      | None => executeDelete s (addDeleteExternalAuthToTransaction uuid now uri externalAuth s)
      end
  end.

Definition DeleteCluster (uuids : string → string) (now : Z) (uri : string) (id : ResourceID) (s : S) :
    result requestError deleted :=
  match db_getResource s (docKey id) with
  | Err GetNotFound => Ok NoContent
  | Err e => Err (ReadFailed e)
  | Ok cluster =>
      match checkForProvisioningStateConflict s OperationRequestDelete (res_ID cluster) (res_ProvisioningState cluster) with
      | Some e => Err e
      | None => executeDelete s (addDeleteClusterToTransaction uuids now uri cluster s)
      end
  end.

(** The clusters that are not being deleted, all in one transaction. *)
Fixpoint addDeleteClusters (uuids : string → string) (now : Z) (clusters : list (ResourceDoc R)) (s : S) :
    result requestError (list (stagedWrite R)) :=
  match clusters with
  | [] => Ok []
  | cluster :: rest =>
      if String.eqb (res_ProvisioningState cluster) ProvisioningStateDeleting then addDeleteClusters uuids now rest s
      else
        let* ws := addDeleteClusterToTransaction uuids now EmptyString cluster s in
        let* more := addDeleteClusters uuids now rest s in
        Ok (ws ++ more)%list
  end.

Definition DeleteAllResourcesInSubscription (uuids : string → string) (now : Z) (subscription : string) (s : S) :
    result requestError S :=
  match db_listResources s subscription ClusterResourceType with
  | Err e => Err (ListFailed e)
  | Ok (clusters, iteratorError) =>
      let* ws := addDeleteClusters uuids now clusters s in
      match iteratorError with
      | Some e => Err (ListFailed e)
      | None => match db_execute s ws with Ok s' => Ok s' | Err e => Err (ExecuteFailed e) end
      end
  end.
End requests.
