(* ===== verification/OperationSafety.v ===== *)
(** * Operations own their resources

    The invariant of operations and resources: the operation a resource names as its
    active one has not ended and acts on that resource.  Updates of operations, completed
    deletions and the requests that start operations keep it, so that no resource is left
    waiting for an operation that is over. *)
From S2P Require Import Prelude GoStrings RolloutTypes RolloutStatus OperationState OperationStore OperationUpdate OperationRequests.

Local Open Scope string_scope.
Local Open Scope Z_scope.

Section invariant.
Context {R : Type}.
Implicit Types (v : dbView R) (d : ResourceDoc R) (op : OperationDoc).

Record opInv v : Prop := {
  inv_named : ∀ n op, v_operations v !! n = Some op → op_OperationID op = Some n ∧ n ≠ EmptyString;
  inv_keyed : ∀ k d, v_resources v !! k = Some d → docKey (res_ID d) = k;
  inv_owned : ∀ k d op, v_resources v !! k = Some d → v_operations v !! res_ActiveOperationID d = Some op →
    IsTerminal (op_Status op) = false ∧ docKey <$> op_ExternalID op = Some k;
}.

(** A name no operation has and no resource waits for, as a new UUID is. *)
Definition freshName (n : string) v : Prop :=
  n ≠ EmptyString ∧ v_operations v !! n = None ∧ ∀ k d, v_resources v !! k = Some d → res_ActiveOperationID d ≠ n.

(** A caller's copy of an operation: if its ETag is still the stored one, it is the
    stored document. *)
Definition currentCopy op v : Prop :=
  ∀ n cur, op_OperationID op = Some n → v_operations v !! n = Some cur → op_Etag cur = op_Etag op → cur = op.

Lemma opInv_setOperation v n op :
  opInv v → op_OperationID op = Some n → n ≠ EmptyString →
  (∀ k d, v_resources v !! k = Some d → res_ActiveOperationID d = n →
    IsTerminal (op_Status op) = false ∧ docKey <$> op_ExternalID op = Some k) →
  opInv (setOperation n op v).
Proof.
  intros [Hnamed Hkeyed Howned] Hn Hne Hact. split; simpl.
  - intros m x. rewrite lookup_insert_Some. naive_solver.
  - done.
  - intros k d x Hd. rewrite lookup_insert_Some. intros [[Ha <-]|[_ Hx]]; [by apply (Hact k d)|by eapply Howned].
Qed.

Lemma opInv_setResource v d :
  opInv v →
  (∀ op, v_operations v !! res_ActiveOperationID d = Some op →
    IsTerminal (op_Status op) = false ∧ docKey <$> op_ExternalID op = Some (docKey (res_ID d))) →
  opInv (setResource (docKey (res_ID d)) d v).
Proof.
  intros [Hnamed Hkeyed Howned] Hact. split; simpl.
  - done.
  - intros k x. rewrite lookup_insert_Some. naive_solver.
  - intros k x op. rewrite lookup_insert_Some. intros [[<- <-]|[_ Hx]]; [by apply Hact|by apply Howned].
Qed.

Lemma opInv_deleteResource v k : opInv v → opInv (deleteResource k v).
Proof.
  intros [Hnamed Hkeyed Howned]. split; simpl; [done| |].
  - intros m x. rewrite lookup_delete_Some. naive_solver.
  - intros m x op. rewrite lookup_delete_Some. intros [_ Hx]. by eapply Howned.
Qed.

Lemma applyBatch_app e v ws ws' :
  applyBatch e v (ws ++ ws')%list = (v' ← applyBatch e v ws; applyBatch e v' ws').
Proof.
  revert v. induction ws as [|w ws IH]; intros v; simpl; [done|].
  destruct (applyWrite e v w) as [v'|]; simpl; [apply IH|done].
Qed.

Lemma applyWrite_replaceOperation e v op v' :
  applyWrite e v (ReplaceOperation op) = Some v' →
  ∃ n cur, op_OperationID op = Some n ∧ v_operations v !! n = Some cur ∧ op_Etag cur = op_Etag op ∧
    v' = setOperation n (withOperationEtag e op) v.
Proof.
  simpl. destruct (op_OperationID op) as [n|]; simpl; [|done].
  destruct (v_operations v !! n) as [cur|] eqn:Ec; simpl; [|done].
  destruct (Z.eqb_spec (op_Etag cur) (op_Etag op)); [|done]. intros [= <-]. by exists n, cur.
Qed.

Lemma applyWrite_replaceResource e v d v' :
  applyWrite e v (ReplaceResource d) = Some v' →
  ∃ cur, v_resources v !! docKey (res_ID d) = Some cur ∧ res_Etag cur = res_Etag d ∧
    v' = setResource (docKey (res_ID d)) (withResourceEtag e d) v.
Proof.
  simpl. destruct (v_resources v !! docKey (res_ID d)) as [cur|] eqn:Ec; simpl; [|done].
  destruct (Z.eqb_spec (res_Etag cur) (res_Etag d)); [|done]. intros [= <-]. by exists cur.
Qed.

Lemma applyWrite_createOperation e v op v' :
  applyWrite e v (CreateOperation op) = Some v' →
  ∃ n, op_OperationID op = Some n ∧ v_operations v !! n = None ∧ v' = setOperation n (withOperationEtag e op) v.
Proof.
  simpl. destruct (op_OperationID op) as [n|]; simpl; [|done].
  case_bool_decide; [|done]. intros [= <-]. by exists n.
Qed.

Lemma applyWrite_createResource e v d v' :
  applyWrite e v (CreateResource d) = Some v' →
  v_resources v !! docKey (res_ID d) = None ∧ v' = setResource (docKey (res_ID d)) (withResourceEtag e d) v.
Proof. simpl. case_bool_decide; [|done]. by intros [= <-]. Qed.
End invariant.

(** ** Updates *)

Section updates.
Context {S R : Type} `{OperationDBLaws S R}.
Implicit Types (s : S) (op : OperationDoc) (d : ResourceDoc R).

(** Notifying changes nothing but the address of the operation it notified of. *)
Lemma notify_view post op s :
  opInv (db_view s) →
  let s' := (notifyOperationOwner post op s).1 in
  s' = s ∨ ∃ n cur e, op_OperationID op = Some n ∧ v_operations (db_view s) !! n = Some cur ∧
    db_view s' = setOperation n (withOperationEtag e (withNotificationURI EmptyString cur)) (db_view s).
Proof.
  intros Hinv. unfold notifyOperationOwner. destruct post as [fn|]; [|by left].
  destruct (IsTerminal (op_Status op) && negb _); [|by left]. destruct (fn op); [|by left].
  destruct (op_OperationID op) as [n|] eqn:En; [|by left].
  destruct (db_getOperation s n) as [cur|] eqn:Eg; [|by left]. apply db_getOperation_ok in Eg.
  destruct (db_execute s _) as [s'|] eqn:Ex; [|by left]. right.
  apply db_execute_ok in Ex as (e & _ & Hb). cbn [applyBatch] in Hb.
  destruct (applyWrite e (db_view s) _) as [v'|] eqn:Ew; simpl in Hb; [|done].
  apply applyWrite_replaceOperation in Ew as (m & cur' & Hm & _ & _ & ->). simpl in Hm.
  destruct (inv_named _ Hinv n cur Eg) as [Hname _]. assert (m = n) as -> by congruence.
  injection Hb as Hb. by exists n, cur, e.
Qed.

Lemma notify_inv post op s : opInv (db_view s) → opInv (db_view (notifyOperationOwner post op s).1).
Proof.
  intros Hinv. destruct (notify_view post op s Hinv) as [->|(n & cur & e & _ & Hcur & ->)]; [done|].
  destruct (inv_named _ Hinv n cur Hcur) as [Hname Hne].
  apply opInv_setOperation; [done|done|done|]. intros k d Hd Ha. subst n. by apply (inv_owned _ Hinv k d cur).
Qed.

(** The resource's part of the transaction. *)
Definition ownedUpdate (newStatus : string) d : ResourceDoc R :=
  withProvisioning newStatus (if IsTerminal newStatus then EmptyString else res_ActiveOperationID d) d.

Lemma resourceWrites_spec s op name newStatus ws :
  resourceWrites s op name newStatus = Ok ws →
  (ws = [] ∧ ∀ k d, docKey <$> op_ExternalID op = Some k → v_resources (db_view s) !! k = Some d →
    res_ActiveOperationID d = name → IsTerminal newStatus = false ∧ res_ProvisioningState d = newStatus) ∨
  (∃ id d, op_ExternalID op = Some id ∧ v_resources (db_view s) !! docKey id = Some d ∧
    res_ActiveOperationID d = name ∧ ws = [ReplaceResource (ownedUpdate newStatus d)]).
Proof.
  unfold resourceWrites. destruct (op_ExternalID op) as [id|]; [|intros [= <-]; by left].
  assert (Hstaged : stageResource s (resourceForUpdate s id name newStatus) = Ok ws →
    (ws = [] ∧ ∀ k d, docKey <$> Some id = Some k → v_resources (db_view s) !! k = Some d →
      res_ActiveOperationID d = name → IsTerminal newStatus = false ∧ res_ProvisioningState d = newStatus) ∨
    (∃ id' d, Some id = Some id' ∧ v_resources (db_view s) !! docKey id' = Some d ∧
      res_ActiveOperationID d = name ∧ ws = [ReplaceResource (ownedUpdate newStatus d)])).
  { unfold stageResource, resourceForUpdate.
    destruct (db_getResource s (docKey id)) as [curr|[]] eqn:Eg; [apply db_getResource_ok in Eg| |done].
    - destruct (String.eqb_spec (res_ActiveOperationID curr) name) as [Ha|Ha]; simpl.
      + destruct (String.eqb_spec (res_ProvisioningState curr) newStatus) as [Hp|Hp]; simpl;
          [destruct (IsTerminal newStatus) eqn:Et; simpl|].
        1, 3: destruct (db_stage s _); [done|]; intros [= <-]; right; exists id, curr; split_and!; [done|done|done|];
          unfold ownedUpdate; by rewrite ?Et.
        intros [= <-]. left. split; [done|]. intros k d [= <-] Hd _. assert (d = curr) as -> by congruence. done.
      + intros [= <-]. left. split; [done|]. intros k d [= <-] Hd Ha'. congruence.
    - apply db_getResource_notFound in Eg. intros [= <-]. left. split; [done|]. intros k d [= <-] Hd. congruence. }
  repeat (destruct (EqualFold _ _); [exact Hstaged|]). done.
Qed.

(** What a committed transaction did: the operation has its new status; the resource, if
    this operation owns it, has it too, or had it already and goes on. *)
Definition committed (e now : Z) (n newStatus : string) (newError : option CloudErrorBody) op (v v' : dbView R) : Prop :=
  let v1 := setOperation n (withOperationEtag e (withStatus now newStatus newError op)) v in
  (v' = v1 ∧ ∀ k d, docKey <$> op_ExternalID op = Some k → v_resources v !! k = Some d →
     res_ActiveOperationID d = n → IsTerminal newStatus = false ∧ res_ProvisioningState d = newStatus) ∨
  (∃ k d, docKey <$> op_ExternalID op = Some k ∧ v_resources v !! k = Some d ∧ res_ActiveOperationID d = n ∧
     v' = setResource k (withResourceEtag e (ownedUpdate newStatus d)) v1).

Lemma update_effect now op newStatus newError post s :
  opInv (db_view s) → currentCopy op (db_view s) →
  let r := UpdateOperationStatus now (Some op) newStatus newError post s in
  (r.1.1 = s ∧ r.1.2 = [] ∧ (r.2 = None → NeedToPatchOperation op newStatus newError = false)) ∨
  (∃ n e s1, NeedToPatchOperation op newStatus newError = true ∧ r.2 = None ∧ op_OperationID op = Some n ∧
    v_operations (db_view s) !! n = Some op ∧
    r.1 = notifyOperationOwner post (withStatus now newStatus newError op) s1 ∧
    committed e now n newStatus newError op (db_view s) (db_view s1)).
Proof.
  intros Hinv Hcur. unfold UpdateOperationStatus.
  destruct (NeedToPatchOperation op newStatus newError) eqn:Enp; simpl; [|by left].
  destruct (op_OperationID op) as [n|] eqn:En; [|by left].
  destruct (db_stage s _); [by left|].
  destruct (resourceWrites s op n newStatus) as [ws|] eqn:Ew; [|by left].
  destruct (db_execute s _) as [s1|] eqn:Ex; [|by left]. right.
  apply db_execute_ok in Ex as (e & _ & Hb). cbn [applyBatch] in Hb.
  destruct (applyWrite e (db_view s) _) as [v1|] eqn:Eo; simpl in Hb; [|done].
  apply applyWrite_replaceOperation in Eo as (m & cur & Hm & Hlook & Hetag & ->). simpl in Hm, Hetag.
  assert (m = n) as -> by congruence. assert (cur = op) as -> by by apply (Hcur n).
  exists n, e, s1. split_and!; [done|done|done|done|done|].
  apply resourceWrites_spec in Ew as [[-> Hno]|(id & d & Hid & Hd & Ha & ->)]; unfold committed.
  - left. injection Hb as Hb. done.
  - right. exists (docKey id), d. rewrite Hid. split_and!; [done|done|done|].
    cbn [applyBatch] in Hb. destruct (applyWrite e _ (ReplaceResource _)) as [v2|] eqn:Er; simpl in Hb; [|done].
    apply applyWrite_replaceResource in Er as (cur & _ & _ & ->). injection Hb as Hb. rewrite <- Hb.
    by rewrite <- (inv_keyed _ Hinv _ _ Hd).
Qed.

Lemma committed_inv e now n newStatus newError op (v v' : dbView R) :
  opInv v → op_OperationID op = Some n → v_operations v !! n = Some op →
  committed e now n newStatus newError op v v' → opInv v'.
Proof.
  intros Hinv Hn Hop Hc. destruct (inv_named _ Hinv n op Hop) as [_ Hne].
  assert (Howned : ∀ k d, v_resources v !! k = Some d → res_ActiveOperationID d = n → docKey <$> op_ExternalID op = Some k).
  { intros k d Hd Ha. subst n. by apply (inv_owned _ Hinv k d op). }
  destruct Hc as [[-> Hno]|(k & d & Hk & Hd & Ha & ->)].
  - apply opInv_setOperation; [done|done|done|]. intros k d Hd Ha. simpl.
    split; [|by eapply Howned]. by apply (Hno k d); [eapply Howned| |].
  - set (v1 := setOperation _ _ v). set (d' := withResourceEtag e (ownedUpdate newStatus d)).
    assert (Hk' : docKey (res_ID d') = k) by by apply (inv_keyed _ Hinv k d).
    split; simpl.
    + intros m x. rewrite lookup_insert_Some. intros [[<- <-]|[_ Hx]]; [done|by apply (inv_named _ Hinv)].
    + intros k' x. rewrite lookup_insert_Some. intros [[<- <-]|[_ Hx]]; [done|by apply (inv_keyed _ Hinv)].
    + intros k' x y. rewrite lookup_insert_Some. intros [[<- <-]|[Hne' Hx]]; simpl.
      * destruct (IsTerminal newStatus) eqn:Et; rewrite lookup_insert_Some; intros [[Hm <-]|[Hm Hy]].
        -- done.
        -- by destruct (inv_named _ Hinv _ _ Hy).
        -- done.
        -- by destruct Hm.
      * rewrite lookup_insert_Some. intros [[Hm <-]|[_ Hy]]; [|by apply (inv_owned _ Hinv k' x)].
        exfalso. apply Hne'. specialize (Howned k' x Hx (eq_sym Hm)). congruence.
Qed.

Lemma update_inv now existing newStatus newError post s :
  opInv (db_view s) → (∀ op, existing = Some op → currentCopy op (db_view s)) →
  opInv (db_view (UpdateOperationStatus now existing newStatus newError post s).1.1).
Proof.
  intros Hinv Hcur. destruct existing as [op|]; [|done].
  destruct (update_effect now op newStatus newError post s Hinv (Hcur op eq_refl))
    as [(-> & _)|(n & e & s1 & _ & _ & Hn & Hop & Hr & Hc)]; [done|].
  rewrite Hr. apply notify_inv. by eapply committed_inv.
Qed.

Lemma notify_elsewhere post op s n :
  opInv (db_view s) → op_OperationID op = Some n →
  let v' := db_view (notifyOperationOwner post op s).1 in
  v_resources v' = v_resources (db_view s) ∧
  (∀ m, m ≠ n → v_operations v' !! m = v_operations (db_view s) !! m) ∧
  ∀ cur, v_operations (db_view s) !! n = Some cur → ∃ cur', v_operations v' !! n = Some cur' ∧ op_Status cur' = op_Status cur.
Proof.
  intros Hinv Hn. destruct (notify_view post op s Hinv) as [->|(m & cur & e & Hm & Hcur & ->)]; [eauto|].
  assert (m = n) as -> by congruence. split_and!; [done| |].
  - intros m Hne. simpl. by rewrite lookup_insert_ne.
  - intros x Hx. assert (x = cur) as -> by congruence. eexists. split; [apply lookup_insert_eq|done].
Qed.

(** (C12) An operation and its resource change together or not at all.  For a caller whose
    copy of the operation is current or outdated: when the update returns an error,
    nothing was written and nobody was notified.  When it succeeds and had something to
    do, the operation has the new status; every resource that names it as its active
    operation has the new status as well, is freed if the operation has ended, and keeps
    everything else; resources that another operation owns, and other operations, are
    as before. *)
Theorem operation_and_resource_change_together now op n newStatus newError post s :
  opInv (db_view s) → currentCopy op (db_view s) → op_OperationID op = Some n →
  let r := UpdateOperationStatus now (Some op) newStatus newError post s in
  (r.2 ≠ None → r.1 = (s, [])) ∧
  (r.2 = None → NeedToPatchOperation op newStatus newError = true →
    let v := db_view s in let v' := db_view r.1.1 in
    (∃ op', v_operations v' !! n = Some op' ∧ op_Status op' = newStatus) ∧
    (∀ k d, v_resources v !! k = Some d → res_ActiveOperationID d = n →
      ∃ d', v_resources v' !! k = Some d' ∧ res_ProvisioningState d' = newStatus ∧
        res_ActiveOperationID d' = (if IsTerminal newStatus then EmptyString else n) ∧
        res_ID d' = res_ID d ∧ res_DeletionTimestamp d' = res_DeletionTimestamp d ∧ res_rest d' = res_rest d) ∧
    (∀ k d, v_resources v !! k = Some d → res_ActiveOperationID d ≠ n → v_resources v' !! k = Some d) ∧
    ∀ m, m ≠ n → v_operations v' !! m = v_operations v !! m).
Proof.
  intros Hinv Hcur Hn.
  destruct (update_effect now op newStatus newError post s Hinv Hcur)
    as [(Hs & Hp & Hnone)|(m & e & s1 & Hneed & Hok & Hm & Hop & Hr & Hc)]; cbv zeta.
  { split; [intros _; by apply injective_projections|].
    intros Hok Hneed. rewrite Hnone in Hneed by done. done. }
  assert (m = n) as -> by congruence. rewrite Hok, Hr. split; [done|]. intros _ _.
  pose proof (committed_inv _ _ _ _ _ _ _ _ Hinv Hn Hop Hc) as Hinv1.
  destruct (notify_elsewhere post (withStatus now newStatus newError op) s1 n Hinv1 Hn) as (Hres & Hops & Hstat).
  rewrite Hres.
  assert (Hkey : ∀ k d, v_resources (db_view s) !! k = Some d → res_ActiveOperationID d = n →
    docKey <$> op_ExternalID op = Some k).
  { intros k d Hd Ha. subst n. by apply (inv_owned _ Hinv k d op). }
  destruct Hc as [[Hv Hno]|(k0 & d0 & Hk0 & Hd0 & Ha0 & Hv)]; rewrite Hv in *; simpl in *.
  - split_and!.
    + destruct (Hstat _ (lookup_insert_eq _ _ _)) as (x & Hx & Hs). eauto.
    + intros k d Hd Ha. destruct (Hno k d (Hkey k d Hd Ha) Hd Ha) as [Ht Hp]. rewrite Ht. exists d. done.
    + done.
    + intros m Hne. rewrite Hops by done. by apply lookup_insert_ne.
  - split_and!.
    + destruct (Hstat _ (lookup_insert_eq _ _ _)) as (x & Hx & Hs). eauto.
    + intros k d Hd Ha. specialize (Hkey k d Hd Ha). assert (k = k0) as -> by congruence. assert (d = d0) as -> by congruence.
      eexists. split; [apply lookup_insert_eq|]. simpl. by rewrite Ha.
    + intros k d Hd Ha. rewrite lookup_insert_ne; [done|]. intros ->. congruence.
    + intros m Hne. rewrite Hops by done. by apply lookup_insert_ne.
Qed.

(** (C32) The owner of an operation that ends is told: after a successful update of an
    operation with an address to notify to a terminal status, either the notification was
    posted, or the stored operation still has the address, and the next update with that
    status, whatever error it brings, has work to do and tries again. *)
Theorem notification_not_lost now op n newStatus newError post s :
  opInv (db_view s) → currentCopy op (db_view s) → op_OperationID op = Some n →
  IsTerminal newStatus = true → op_NotificationURI op ≠ EmptyString →
  let r := UpdateOperationStatus now (Some op) newStatus newError post s in
  r.2 = None →
  r.1.2 = [withStatus now newStatus newError op] ∨
  (r.1.2 = [] ∧ ∃ op', v_operations (db_view r.1.1) !! n = Some op' ∧ op_NotificationURI op' = op_NotificationURI op ∧
    ∀ newError', NeedToPatchOperation op' newStatus newError' = true).
Proof.
  intros Hinv Hcur Hn Hterm Huri r Hok.
  assert (Hagain : ∀ op' error, op_NotificationURI op' = op_NotificationURI op → NeedToPatchOperation op' newStatus error = true).
  { intros op' error Hu. unfold NeedToPatchOperation. rewrite Hu, Hterm.
    apply String.eqb_neq in Huri. rewrite Huri. simpl. by rewrite orb_true_r. }
  destruct (update_effect now op newStatus newError post s Hinv Hcur)
    as [(_ & _ & Hnone)|(m & e & s1 & Hneed & _ & Hm & Hop & Hr & Hc)]; subst r.
  { rewrite (Hagain op newError eq_refl) in Hnone. by specialize (Hnone Hok). }
  assert (m = n) as -> by congruence. rewrite Hr.
  assert (Hstored : ∃ op', v_operations (db_view s1) !! n = Some op' ∧ op_NotificationURI op' = op_NotificationURI op).
  { destruct Hc as [[-> _]|(k & d & _ & _ & _ & ->)]; eexists; (split; [apply lookup_insert_eq|done]). }
  destruct Hstored as (op' & Hop' & Hu).
  assert (Hunposted : (s1, @nil OperationDoc).2 = [] ∧ ∃ op', v_operations (db_view (s1, @nil OperationDoc).1) !! n = Some op' ∧
    op_NotificationURI op' = op_NotificationURI op ∧ ∀ newError', NeedToPatchOperation op' newStatus newError' = true).
  { split; [done|]. exists op'. split_and!; [done|done|]. intros. by apply Hagain. }
  unfold notifyOperationOwner. destruct post as [fn|]; [|by right].
  change (op_Status (withStatus now newStatus newError op)) with newStatus.
  change (op_NotificationURI (withStatus now newStatus newError op)) with (op_NotificationURI op).
  apply String.eqb_neq in Huri. rewrite Hterm, Huri. cbn [andb negb].
  destruct (fn _); [|by right]. left. cbn [op_OperationID withStatus]. rewrite Hn.
  destruct (db_getOperation s1 n); [|done]. by destruct (db_execute s1 _).
Qed.

(** ** Completed deletions *)

Lemma deleteChildren_view children : ∀ s,
  let v' := db_view (deleteChildren children s).1 in
  v_operations v' = v_operations (db_view s) ∧
  (opInv (db_view s) → opInv v') ∧ ∀ k, v_resources (db_view s) !! k = None → v_resources v' !! k = None.
Proof.
  induction children as [|child rest IH]; intros s; simpl; [done|].
  destruct (childIsSkipped _); [apply IH|]. destruct (child_ResourceID child) as [id|]; [|done].
  destruct (db_delete s id) as [s1|] eqn:Ed; [|done]. apply db_delete_ok in Ed.
  destruct (IH s1) as (Ho & Hi & Hr). rewrite Ed in *. simpl in *. split_and!; [done| |].
  - intros Hinv. by apply Hi, opInv_deleteResource.
  - intros k Hk. apply Hr. rewrite lookup_delete_None. by right.
Qed.

(** What a completed deletion does: the operations stay as they are, or the document is
    gone and the operation has succeeded. *)
Lemma completed_effect now op post s :
  opInv (db_view s) → currentCopy op (db_view s) →
  let s' := (SetDeleteOperationAsCompleted now op post s).1.1 in
  (opInv (db_view s') ∧ v_operations (db_view s') = v_operations (db_view s)) ∨
  (∃ n e id v2 s3, opInv (db_view s3) ∧ op_ExternalID op = Some id ∧
    (v_operations v2 = v_operations (db_view s) ∧ v_resources v2 !! docKey id = None) ∧
    db_view s3 = setOperation n (withOperationEtag e (withStatus now ProvisioningStateSucceeded None op)) v2 ∧
    s' = (notifyOperationOwner post (withStatus now ProvisioningStateSucceeded None op) s3).1).
Proof.
  intros Hinv Hcur. unfold SetDeleteOperationAsCompleted.
  destruct (op_ExternalID op) as [id|] eqn:Eid; [|by left].
  destruct (db_delete s id) as [s1|] eqn:Ed; [|by left]. apply db_delete_ok in Ed.
  assert (Hinv1 : opInv (db_view s1)) by (rewrite Ed; by apply opInv_deleteResource).
  destruct (db_children s1 id) as [[children iteratorError]|]; [|left; split; [done|simpl; by rewrite Ed]].
  destruct (deleteChildren_view children s1) as (Ho & Hi & Hr). specialize (Hi Hinv1).
  assert (Ho' : v_operations (db_view (deleteChildren children s1).1) = v_operations (db_view s)) by by rewrite Ho, Ed.
  destruct (deleteChildren children s1) as [s2 [err|]]; simpl in *; [by left|].
  destruct iteratorError; [by left|]. unfold PatchOperation.
  destruct (negb _); [by left|]. cbn [op_OperationID withStatus].
  destruct (op_OperationID op) as [n|] eqn:En; [|by left].
  destruct (db_execute s2 _) as [s3|] eqn:Ex; [|by left]. right.
  apply db_execute_ok in Ex as (e & _ & Hb). cbn [applyBatch] in Hb.
  destruct (applyWrite e (db_view s2) _) as [v3|] eqn:Ew; simpl in Hb; [|done]. injection Hb as Hb.
  apply applyWrite_replaceOperation in Ew as (m & cur & Hm & Hlook & Hetag & ->). simpl in Hm, Hetag.
  assert (m = n) as -> by congruence. rewrite Ho' in Hlook. assert (cur = op) as -> by by apply (Hcur n).
  assert (Hgone : v_resources (db_view s2) !! docKey id = None) by (apply Hr; rewrite Ed; simpl; by apply lookup_delete_eq).
  exists n, e, id, (db_view s2), s3. split_and!; [|done|done|done|by symmetry|done].
  rewrite <- Hb. destruct (inv_named _ Hinv n op Hlook) as [_ Hne].
  apply opInv_setOperation; [done|done|done|]. intros k d Hd Ha. exfalso. rewrite <- Ho' in Hlook.
  subst n. destruct (inv_owned _ Hi k d op Hd Hlook) as [_ Hk]. rewrite Eid in Hk. simpl in Hk. congruence.
Qed.

Lemma completed_inv now op post s :
  opInv (db_view s) → currentCopy op (db_view s) →
  opInv (db_view (SetDeleteOperationAsCompleted now op post s).1.1).
Proof.
  intros Hinv Hcur. destruct (completed_effect now op post s Hinv Hcur)
    as [[? _]|(n & e & id & v2 & s3 & Hinv3 & _ & _ & _ & -> )]; [done|]. by apply notify_inv.
Qed.
End updates.

#[local] Arguments applyWrite : simpl never.

(** ** Requests *)

Section start.
Context {R : Type}.
Implicit Types (v : dbView R) (d : ResourceDoc R) (op : OperationDoc).

(** A new operation and the resource it acts on, written together. *)
Lemma start_inv v uuid op d :
  opInv v → freshName uuid v → op_OperationID op = Some uuid → IsTerminal (op_Status op) = false →
  docKey <$> op_ExternalID op = Some (docKey (res_ID d)) → res_ActiveOperationID d = uuid →
  opInv (setResource (docKey (res_ID d)) d (setOperation uuid op v)).
Proof.
  intros Hinv (Hne & Hnew & Hunused) Hid Hterm Hext Ha. apply opInv_setResource.
  - apply opInv_setOperation; [done|done|done|]. intros k x Hx Hxa. by destruct (Hunused k x Hx).
  - intros op' Hop'. rewrite Ha in Hop'. simpl in Hop'. rewrite lookup_insert_eq in Hop'. by simplify_eq.
Qed.

(** The documents of an intermediate view of a batch: as they were, or with its ETag. *)
Definition derived (e : Z) v0 v : Prop :=
  ∀ n cur, v_operations v !! n = Some cur → v_operations v0 !! n = Some cur ∨ op_Etag cur = e.

Lemma derived_setOperation e v0 v n op : derived e v0 v → op_Etag op = e → derived e v0 (setOperation n op v).
Proof. intros Hd He m cur. simpl. rewrite lookup_insert_Some. naive_solver. Qed.

(** Cancellations read before the batch change just the operations they were read from. *)
Lemma cancels_effect e now v0 ops : ∀ v v1,
  opInv v0 → freshEtag e v0 → derived e v0 v → Forall (λ op, ∃ n, v_operations v0 !! n = Some op) ops →
  applyBatch e v ((λ op, ReplaceOperation (CancelOperation now op)) <$> ops) = Some v1 →
  v_resources v1 = v_resources v ∧ derived e v0 v1 ∧
  ∀ n, v_operations v1 !! n = v_operations v !! n ∨
    ∃ op, op ∈ ops ∧ v_operations v !! n = Some op ∧
      v_operations v1 !! n = Some (withOperationEtag e (CancelOperation now op)).
Proof.
  induction ops as [|op ops IH]; intros v v1 Hinv0 Hfresh Hder Hall; simpl.
  { intros [= <-]. split_and!; [done|done|]. intros n. by left. }
  apply Forall_cons in Hall as [[m Hm] Hall]. destruct (inv_named _ Hinv0 m op Hm) as [Hid _].
  intros Hb. destruct (applyWrite e v _) as [v2|] eqn:Ew; simpl in Hb; [|done].
  apply applyWrite_replaceOperation in Ew as (m' & cur & Hm' & Hcur & Hetag & ->). simpl in Hm', Hetag.
  assert (m' = m) as -> by congruence.
  assert (cur = op) as ->.
  { destruct (Hder m cur Hcur) as [?|He]; [congruence|]. destruct (proj1 Hfresh m op Hm). congruence. }
  destruct (IH _ v1 Hinv0 Hfresh (derived_setOperation e v0 v m
    (withOperationEtag e (CancelOperation now op)) Hder eq_refl) Hall Hb) as (Hres & Hder' & Hn).
  split_and!; [done|done|]. intros n. destruct (Hn n) as [Heq|(x & Hx & Hl & Hv)]; simpl in *.
  - destruct (decide (m = n)) as [<-|Hne]; [|left; by rewrite Heq, lookup_insert_ne].
    right. exists op. rewrite Heq, lookup_insert_eq. split_and!; [by left|done|done].
  - right. destruct (decide (m = n)) as [<-|Hne].
    + exfalso. rewrite lookup_insert_eq in Hl. simplify_eq.
      rewrite Forall_forall in Hall. destruct (Hall _ Hx) as [n' Hn']. by apply (proj1 Hfresh n' _ Hn').
    + rewrite lookup_insert_ne in Hl by done. exists x. split_and!; [by right|done|done].
Qed.

(** They leave the ones they name canceled. *)
Lemma cancels_keep e now n ops : ∀ v v1,
  applyBatch e v ((λ op, ReplaceOperation (CancelOperation now op)) <$> ops) = Some v1 →
  (∃ x, v_operations v !! n = Some x ∧ op_Status x = ProvisioningStateCanceled) →
  ∃ x, v_operations v1 !! n = Some x ∧ op_Status x = ProvisioningStateCanceled.
Proof.
  induction ops as [|op ops IH]; intros v v1; rewrite ?fmap_cons; cbn [applyBatch fmap list_fmap]; [by intros [= <-]|].
  destruct (applyWrite e v _) as [v2|] eqn:Ew; cbn [mbind option_bind]; [|done].
  apply applyWrite_replaceOperation in Ew as (m & cur & _ & _ & _ & ->). intros Hb (x & Hx & Hs). eapply IH; [exact Hb|].
  simpl. destruct (decide (m = n)) as [<-|Hne]; [rewrite lookup_insert_eq|rewrite lookup_insert_ne by done]; eauto.
Qed.

Lemma cancels_all e now n op ops : ∀ v v1,
  applyBatch e v ((λ op, ReplaceOperation (CancelOperation now op)) <$> ops) = Some v1 →
  op ∈ ops → op_OperationID op = Some n →
  ∃ x, v_operations v1 !! n = Some x ∧ op_Status x = ProvisioningStateCanceled.
Proof.
  induction ops as [|y ops IH]; intros v v1 Hb Hin Hn; [by apply not_elem_of_nil in Hin|].
  rewrite fmap_cons in Hb. cbn [applyBatch] in Hb.
  destruct (applyWrite e v _) as [v2|] eqn:Ew; cbn [mbind option_bind] in Hb; [|done].
  apply elem_of_cons in Hin as [<-|Hin]; [|by eapply IH].
  apply applyWrite_replaceOperation in Ew as (m & cur & Hm & _ & _ & ->). simpl in Hm. assert (m = n) as -> by congruence.
  eapply cancels_keep; [exact Hb|]. eexists. split; [apply lookup_insert_eq|done].
Qed.

(** No resource lies below the key. *)
Definition leaf (k : string) v : Prop := ∀ k' d, v_resources v !! k' = Some d → HasPrefix k' (k +:+ "/") = false.

(** The writes that delete a document keep the invariant. *)
Lemma delete_group_inv e now v0 v v' nested ops uuid uri deadline t d :
  opInv v0 → freshEtag e v0 → derived e v0 v → opInv v → freshName uuid v →
  Forall (λ op, (∃ n, v_operations v0 !! n = Some op) ∧
    selects {| lo_Request := None; lo_ExternalID := Some (res_ID d); lo_IncludeNestedResources := nested |} op = true) ops →
  (nested = true → leaf (docKey (res_ID d)) v) →
  let operation := NewOperation uuid now OperationRequestDelete (res_ID d) uri in
  applyBatch e v (((λ op, ReplaceOperation (CancelOperation now op)) <$> ops) ++
    [CreateOperation operation; ReplaceResource (withDeletion t deadline (withProvisioning (op_Status operation) uuid d))])%list
  = Some v' →
  opInv v' ∧ derived e v0 v' ∧ dom (v_resources v') = dom (v_resources v) ∧
  (∀ n, freshName n v → n ≠ uuid → freshName n v').
Proof.
  intros Hinv0 Hfresh Hder Hinv Huuid Hops Hleaf operation Hb. rewrite applyBatch_app in Hb.
  destruct (applyBatch e v _) as [v1|] eqn:Ec; cbn [mbind option_bind applyBatch] in Hb; [|done].
  apply (cancels_effect e now v0) in Ec as (Hres & Hder1 & Hn); [|done|done|done|by eapply Forall_impl; [exact Hops|]; intros ? []].
  destruct (applyWrite e v1 _) as [v2|] eqn:Ew; cbn [mbind option_bind] in Hb; [|done].
  apply applyWrite_createOperation in Ew as (u & [= <-] & _ & ->).
  destruct (applyWrite e _ (ReplaceResource _)) as [v3|] eqn:Er; cbn [mbind option_bind] in Hb; [|done]. injection Hb as <-.
  apply applyWrite_replaceResource in Er as (cur & Hcur & _ & ->). cbn in Hcur. rewrite Hres in Hcur.
  set (d' := withResourceEtag e _). set (op' := withOperationEtag e operation).
  assert (Hforeign : ∀ k x op, k ≠ docKey (res_ID d) → v_resources v !! k = Some x →
    v_operations v1 !! res_ActiveOperationID x = Some op → IsTerminal (op_Status op) = false ∧ docKey <$> op_ExternalID op = Some k).
  { intros k x op Hk Hx Hop. destruct (Hn (res_ActiveOperationID x)) as [Heq|(y & Hy & Hvy & _)].
    - rewrite Heq in Hop. by apply (inv_owned _ Hinv k x).
    - exfalso. destruct (inv_owned _ Hinv k x y Hx Hvy) as [_ Hext].
      rewrite Forall_forall in Hops. destruct (Hops y Hy) as [_ Hsel]. unfold selects in Hsel. simpl in Hsel.
      destruct (op_ExternalID y) as [id|]; [|done]. injection Hext as Hext. unfold docKey in *.
      apply andb_true_iff in Hsel as [_ [Hsame|[-> Hbelow]%andb_true_iff]%orb_true_iff].
      + apply EqualFold_spec in Hsame. congruence.
      + rewrite Hext in Hbelow. by rewrite (Hleaf eq_refl k x Hx) in Hbelow. }
  split_and!.
  - split; simpl.
    + intros n x. rewrite lookup_insert_Some. intros [[<- <-]|[_ Hx]]; [split; [done|apply Huuid]|].
      destruct (Hn n) as [Heq|(y & _ & Hvy & Hv1)]; [rewrite Heq in Hx; by apply (inv_named _ Hinv)|].
      destruct (inv_named _ Hinv n y Hvy). rewrite Hv1 in Hx. by simplify_eq.
    + intros k x. rewrite Hres, lookup_insert_Some. intros [[<- <-]|[_ Hx]]; [done|by apply (inv_keyed _ Hinv)].
    + intros k x op. rewrite Hres, lookup_insert_Some. intros [[<- <-]|[Hk Hx]]; simpl; rewrite lookup_insert_Some.
      * intros [[_ <-]|[[] _]]; done.
      * intros [[Ha _]|[_ Hop]]; [by destruct (proj2 (proj2 Huuid) k x Hx)|]. by apply (Hforeign k x).
  - by apply derived_setOperation.
  - simpl. rewrite Hres, dom_insert_L. apply elem_of_dom_2 in Hcur. set_solver.
  - intros n (Hne & Hnone & Hunused) Hnu. split_and!; [done| |]; simpl.
    + rewrite lookup_insert_ne by done. destruct (Hn n) as [->|(y & _ & Hvy & _)]; [done|congruence].
    + intros k x. rewrite Hres, lookup_insert_Some. intros [[<- <-]|[_ Hx]]; [done|by apply (Hunused k x)].
Qed.
End start.

Section requests.
Context {S R : Type} `{OperationDBLaws S R}.
Implicit Types (s : S) (v : dbView R) (op : OperationDoc) (d : ResourceDoc R).

Lemma execute_ok s ws s' : execute s ws = Ok s' →
  ∃ e, freshEtag e (db_view s) ∧ applyBatch e (db_view s) ws = Some (db_view s').
Proof.
  unfold execute. destruct (stageAll s ws); [done|]. destruct (db_execute s ws) as [s1|] eqn:Ex; [|done].
  intros [= <-]. by apply db_execute_ok.
Qed.

Lemma NewOperation_status uuid now request id uri : IsTerminal (op_Status (NewOperation uuid now request id uri)) = false.
Proof. simpl. by repeat case_match. Qed.

(** A new operation and the resource it acts on, which is created or replaced. *)
Lemma execute_create_inv uuid now request uri status d s s' :
  opInv (db_view s) → freshName uuid (db_view s) →
  execute s [CreateOperation (NewOperation uuid now request (res_ID d) uri);
             CreateResource (withProvisioning status uuid d)] = Ok s' → opInv (db_view s').
Proof.
  intros Hinv Hfresh (e & _ & Hb)%execute_ok. cbn [applyBatch] in Hb.
  destruct (applyWrite e _ (CreateOperation _)) as [v1|] eqn:E1; cbn [mbind option_bind] in Hb; [|done].
  apply applyWrite_createOperation in E1 as (n & [= <-] & _ & ->).
  destruct (applyWrite e _ (CreateResource _)) as [v2|] eqn:E2; cbn [mbind option_bind] in Hb; [|done]. injection Hb as <-.
  apply applyWrite_createResource in E2 as [_ ->].
  apply (start_inv (db_view s) uuid (withOperationEtag e (NewOperation uuid now request (res_ID d) uri))
    (withResourceEtag e (withProvisioning status uuid d))); try done. apply NewOperation_status.
Qed.

Lemma execute_replace_inv uuid now request uri status id d s s' :
  opInv (db_view s) → freshName uuid (db_view s) → docKey id = docKey (res_ID d) →
  execute s [CreateOperation (NewOperation uuid now request id uri);
             ReplaceResource (withProvisioning status uuid d)] = Ok s' → opInv (db_view s').
Proof.
  intros Hinv Hfresh Hid (e & _ & Hb)%execute_ok. cbn [applyBatch] in Hb.
  destruct (applyWrite e _ (CreateOperation _)) as [v1|] eqn:E1; cbn [mbind option_bind] in Hb; [|done].
  apply applyWrite_createOperation in E1 as (n & [= <-] & _ & ->).
  destruct (applyWrite e _ (ReplaceResource _)) as [v2|] eqn:E2; cbn [mbind option_bind] in Hb; [|done]. injection Hb as <-.
  apply applyWrite_replaceResource in E2 as (cur & _ & _ & ->).
  apply (start_inv (db_view s) uuid (withOperationEtag e (NewOperation uuid now request id uri))
    (withResourceEtag e (withProvisioning status uuid d))); try done.
  - apply NewOperation_status.
  - simpl. by rewrite Hid.
Qed.

Lemma createNodePool_inv uuid now uri d s s' :
  opInv (db_view s) → freshName uuid (db_view s) → createNodePool uuid now uri d s = Ok s' → opInv (db_view s').
Proof.
  intros Hinv Hfresh. unfold createNodePool. destruct (checkForProvisioningStateConflict _ _ _ _); [done|].
  by apply execute_create_inv.
Qed.

Lemma updateNodePool_inv uuid now uri d old s s' :
  opInv (db_view s) → freshName uuid (db_view s) → updateNodePool uuid now uri d old s = Ok s' → opInv (db_view s').
Proof.
  intros Hinv Hfresh. unfold updateNodePool. destruct (checkForProvisioningStateConflict _ _ _ _); [done|].
  by apply execute_replace_inv.
Qed.

Lemma createExternalAuth_inv uuid now uri d s s' :
  opInv (db_view s) → freshName uuid (db_view s) → createExternalAuth uuid now uri d s = Ok s' → opInv (db_view s').
Proof.
  intros Hinv Hfresh. unfold createExternalAuth. destruct (parentCluster _ _); [done|].
  destruct (checkForProvisioningStateConflict _ _ _ _); [done|]. by apply execute_create_inv.
Qed.

Lemma updateExternalAuth_inv uuid now uri d old s s' :
  opInv (db_view s) → freshName uuid (db_view s) → updateExternalAuth uuid now uri d old s = Ok s' → opInv (db_view s').
Proof.
  intros Hinv Hfresh. unfold updateExternalAuth. destruct (checkForProvisioningStateConflict _ _ _ _); [done|].
  by apply execute_replace_inv.
Qed.

Lemma createHCPCluster_inv uuid now uri d s s' :
  opInv (db_view s) → freshName uuid (db_view s) → createHCPCluster uuid now uri d s = Ok s' → opInv (db_view s').
Proof. intros Hinv Hfresh. by apply execute_create_inv. Qed.

Lemma updateHCPCluster_inv uuid now uri d old s s' :
  opInv (db_view s) → freshName uuid (db_view s) → docKey (res_ID old) = docKey (res_ID d) →
  updateHCPCluster uuid now uri d old s = Ok s' → opInv (db_view s').
Proof.
  intros Hinv Hfresh Hid. unfold updateHCPCluster. destruct (checkForProvisioningStateConflict _ _ _ _); [done|].
  by apply execute_replace_inv.
Qed.

(** Cancellations without an error: all the query selects. *)
Lemma CancelActiveOperations_ok now opts s ws :
  CancelActiveOperations now opts s = (ws, false) →
  ∃ ops, ws = (λ op, ReplaceOperation (CancelOperation now op)) <$> ops ∧
    ∀ op, op ∈ ops ↔ (∃ n, v_operations (db_view s) !! n = Some op) ∧ selects opts op = true.
Proof.
  unfold CancelActiveOperations. destruct (db_listActive s opts) as [ops err] eqn:El.
  intros [= <- [Hst Herr]%orb_false_iff]. destruct err as [e|]; [by rewrite bool_decide_eq_false in Herr; destruct Herr|].
  exists ops. split; [|by eapply db_listActive_all].
  apply forallb_filter_id, forallb_forall. intros w Hw.
  rewrite <- not_true_iff_false in Hst. destruct (bool_decide (db_stage s w = None)) eqn:Eb; [done|].
  destruct Hst. apply existsb_exists. exists w. by rewrite Eb.
Qed.

(** What the name generator may still draw, when the names for [used] keys are drawn. *)
Definition freshFrom (uuids : string → string) (used : list string) v : Prop :=
  ∀ k, k ∉ used → freshName (uuids k) v.

Lemma leaf_dom k v v' : dom (v_resources v') = dom (v_resources v) → leaf k v → leaf k v'.
Proof.
  intros Hdom Hl k' d Hd. apply elem_of_dom_2 in Hd. rewrite Hdom in Hd. apply elem_of_dom in Hd as [d' Hd']. by apply (Hl k' d').
Qed.

(** A part of the batch of a request, from an intermediate view to the next one. *)
Record batchStep (e : Z) s (uuids : string → string) (used : list string) v v' (keys : list string) : Prop := {
  bs_inv : opInv v';
  bs_derived : derived e (db_view s) v';
  bs_dom : dom (v_resources v') = dom (v_resources v);
  bs_fresh : freshFrom uuids (keys ++ used) v';
}.

Lemma addDelete_step e s uuids used v v' nested now uri deadline d ws :
  Inj (=) (=) uuids → opInv (db_view s) → freshEtag e (db_view s) → derived e (db_view s) v → opInv v →
  freshFrom uuids used v → docKey (res_ID d) ∉ used → (nested = true → leaf (docKey (res_ID d)) v) →
  addDelete nested (uuids (docKey (res_ID d))) now uri deadline d s = Ok ws → applyBatch e v ws = Some v' →
  batchStep e s uuids used v v' [docKey (res_ID d)].
Proof.
  intros Hinj Hinv0 Hfe Hder Hinv Hfresh Hk Hleaf. unfold addDelete.
  destruct (CancelActiveOperations _ _ _) as [cancels failed] eqn:Ec. destruct failed; [done|].
  destruct (stageAll _ _); [done|]. intros [= <-] Hb.
  apply CancelActiveOperations_ok in Ec as (ops & -> & Hops).
  destruct (delete_group_inv e now (db_view s) v v' nested ops (uuids (docKey (res_ID d))) uri deadline (timestampOr now d) d)
    as (H1 & H2 & H3 & H4); [done..|by apply Hfresh| |done|exact Hb|].
  { apply Forall_forall. intros op Hop. by apply Hops. }
  split; [done|done|done|]. intros k [Hne Hku]%not_elem_of_cons. apply H4; [by apply Hfresh|]. by intros ?%Hinj.
Qed.

Lemma addDeleteChildren_step e s uuids now ds : ∀ used v v' ws,
  Inj (=) (=) uuids → opInv (db_view s) → freshEtag e (db_view s) → derived e (db_view s) v → opInv v →
  freshFrom uuids used v → NoDup ((docKey ∘ res_ID) <$> ds) → Forall (λ d, docKey (res_ID d) ∉ used) ds →
  Forall (λ d, leaf (docKey (res_ID d)) v) ds →
  addDeleteChildren uuids now ds s = Ok ws → applyBatch e v ws = Some v' →
  batchStep e s uuids used v v' ((docKey ∘ res_ID) <$> ds).
Proof.
  induction ds as [|d ds IH]; intros used v v' ws Hinj Hinv0 Hfe Hder Hinv Hfresh Hnd Hused Hleaf; simpl.
  { intros [= <-] [= <-]. by split. }
  apply NoDup_cons in Hnd as [Hnot Hnd]. apply Forall_cons in Hused as [Hu Hused]. apply Forall_cons in Hleaf as [Hl Hleaf].
  case_bool_decide as Hdel.
  - intros Hws Hb. destruct (IH used v v' ws) as [H1 H2 H3 H4]; [done..|].
    split; [done|done|done|]. intros k Hk. apply H4. set_solver.
  - destruct (addDelete _ _ _ _ _ _ _) as [ws1|] eqn:E1; [|done].
    destruct (addDeleteChildren uuids now ds s) as [ws2|] eqn:E2; [|done]. intros [= <-] Hb.
    rewrite applyBatch_app in Hb. destruct (applyBatch e v ws1) as [v1|] eqn:Eb; cbn [mbind option_bind] in Hb; [|done].
    destruct (addDelete_step _ _ _ used _ _ _ _ _ _ _ _ Hinj Hinv0 Hfe Hder Hinv Hfresh Hu (λ _, Hl) E1 Eb) as [H1 H2 H3 H4].
    destruct (IH ([docKey (res_ID d)] ++ used)%list v1 v' ws2) as [H5 H6 H7 H8]; [done..| | |done|done|].
    + apply Forall_forall. intros x Hx. rewrite Forall_forall in Hused. specialize (Hused x Hx).
      assert (docKey (res_ID x) ≠ docKey (res_ID d)); [|set_solver]. intros Heq. apply Hnot, list_elem_of_fmap. by exists x.
    + eapply Forall_impl; [exact Hleaf|]. intros x. by apply leaf_dom.
    + split; [done|done|by rewrite H7|]. intros k Hk. apply H8. set_solver.
Qed.

(** A deletion of one document. *)
Lemma addDelete_inv s s' nested uuid now uri deadline d ws :
  opInv (db_view s) → freshName uuid (db_view s) → (nested = true → leaf (docKey (res_ID d)) (db_view s)) →
  addDelete nested uuid now uri deadline d s = Ok ws → db_execute s ws = Ok s' → opInv (db_view s').
Proof.
  intros Hinv Hfresh Hleaf. unfold addDelete.
  destruct (CancelActiveOperations _ _ _) as [cancels failed] eqn:Ec. destruct failed; [done|].
  destruct (stageAll _ _); [done|]. intros [= <-] (e & Hfe & Hb)%db_execute_ok.
  apply CancelActiveOperations_ok in Ec as (ops & -> & Hops).
  destruct (delete_group_inv e now (db_view s) (db_view s) (db_view s') nested ops uuid uri deadline (timestampOr now d) d)
    as (Hinv' & _); [done..|by left|done|done| |done|exact Hb|done].
  apply Forall_forall. intros op Hop. by apply Hops.
Qed.

Lemma executeDelete_ok s writes s' : executeDelete s writes = Ok (DeleteAccepted s') →
  ∃ ws, writes = Ok ws ∧ db_execute s ws = Ok s'.
Proof.
  unfold executeDelete. destruct writes as [ws|]; simpl; [|done].
  destruct (db_execute s ws) as [s1|] eqn:Ex; [|done]. intros [= <-]. by exists ws.
Qed.

(** Nothing lies below a node pool or an external auth. *)
Definition flat v : Prop :=
  ∀ k d, v_resources v !! k = Some d →
    EqualFold (rid_ResourceType (res_ID d)) NodePoolResourceType = true ∨
    EqualFold (rid_ResourceType (res_ID d)) ExternalAuthResourceType = true → leaf k v.

Lemma HasPrefix_longer a b : HasPrefix a (a +:+ String b EmptyString) = false.
Proof. unfold HasPrefix. induction a as [|c a IH]; simpl; [done|]. destruct (ascii_dec c c); [exact IH|done]. Qed.

(** What a request that deletes a cluster with its children writes. *)
Lemma addDeleteCluster_step e s uuids used v v' now uri d ws :
  Inj (=) (=) uuids → opInv (db_view s) → flat (db_view s) → freshEtag e (db_view s) →
  v_resources (db_view s) !! docKey (res_ID d) = Some d →
  derived e (db_view s) v → opInv v → dom (v_resources v) = dom (v_resources (db_view s)) → freshFrom uuids used v →
  (∀ k, k ∈ used → k ≠ docKey (res_ID d) ∧ HasPrefix k (docKey (res_ID d) +:+ "/") = false) →
  addDeleteClusterToTransaction uuids now uri d s = Ok ws → applyBatch e v ws = Some v' →
  ∃ keys, batchStep e s uuids used v v' keys ∧
    ∀ k, k ∈ keys → k = docKey (res_ID d) ∨ HasPrefix k (docKey (res_ID d) +:+ "/") = true.
Proof.
  intros Hinj Hinv0 Hflat Hfe Hd Hder Hinv Hdom Hfresh Hused. unfold addDeleteClusterToTransaction, listChildren.
  destruct (addDelete _ _ _ _ _ _ _) as [own|] eqn:Eo; simpl; [|done].
  destruct (db_listResources s _ NodePoolResourceType) as [[pools pe]|] eqn:Ep; simpl; [|done].
  destruct (addDeleteChildren uuids now pools s) as [wp|] eqn:Ewp; simpl; [|done]. destruct pe; [done|].
  destruct (db_listResources s _ ExternalAuthResourceType) as [[auths ae]|] eqn:Ea; simpl; [|done].
  destruct (addDeleteChildren uuids now auths s) as [wa|] eqn:Ewa; simpl; [|done]. destruct ae; [done|].
  intros [= <-] Hb. rewrite !applyBatch_app in Hb.
  destruct (applyBatch e v own) as [v1|] eqn:Eb1; cbn [mbind option_bind] in Hb; [|done].
  rewrite applyBatch_app in Hb. destruct (applyBatch e v1 wp) as [v2|] eqn:Eb2; cbn [mbind option_bind] in Hb; [|done].
  apply db_listResources_ok in Ep as [Hnp Hp]. apply db_listResources_ok in Ea as [Hna Ha].
  assert (Hleaf : ∀ x, x ∈ pools ∨ x ∈ auths → leaf (docKey (res_ID x)) (db_view s)).
  { intros x [Hx|Hx]; [destruct (Hp x Hx) as (Hs & Ht & _)|destruct (Ha x Hx) as (Hs & Ht & _)];
      apply (Hflat _ x Hs); [by left|by right]. }
  assert (Hbelow : ∀ x, x ∈ pools ∨ x ∈ auths → HasPrefix (docKey (res_ID x)) (docKey (res_ID d) +:+ "/") = true).
  { intros x [Hx|Hx]; [by apply Hp|by apply Ha]. }
  assert (Hdisj : ∀ x y, x ∈ pools → y ∈ auths → docKey (res_ID x) ≠ docKey (res_ID y)).
  { intros x y Hx Hy Heq. destruct (Hp x Hx) as (Hsx & Htx & _), (Ha y Hy) as (Hsy & Hty & _).
    rewrite Heq in Hsx. assert (x = y) as -> by congruence.
    apply EqualFold_spec in Htx, Hty. rewrite Htx in Hty. discriminate. }
  assert (Hself : HasPrefix (docKey (res_ID d)) (docKey (res_ID d) +:+ "/") = false) by apply HasPrefix_longer.
  destruct (addDelete_step e s uuids used v v1 false now uri (Some (computeDeleteOperationCompletionDeadline d now)) d own) as [I1 D1 M1 F1]; [done..| |done|exact Eo|exact Eb1|].
  { intros Hin. by destruct (Hused _ Hin). }
  destruct (addDeleteChildren_step e s uuids now pools ([docKey (res_ID d)] ++ used)%list v1 v2 wp) as [I2 D2 M2 F2];
    [done..| | |exact Ewp|exact Eb2|].
  { apply Forall_forall. intros x Hx. specialize (Hbelow x (or_introl Hx)). rewrite elem_of_app, list_elem_of_singleton.
    intros [Heq|Hin]; [rewrite Heq in Hbelow; congruence|]. destruct (Hused _ Hin). congruence. }
  { apply Forall_forall. intros x Hx. eapply leaf_dom; [by rewrite M1|by apply Hleaf; left]. }
  destruct (addDeleteChildren_step e s uuids now auths (((docKey ∘ res_ID) <$> pools) ++ [docKey (res_ID d)] ++ used)%list v2 v' wa)
    as [I3 D3 M3 F3]; [done..| | |exact Ewa|exact Hb|].
  { apply Forall_forall. intros x Hx. specialize (Hbelow x (or_intror Hx)).
    rewrite !elem_of_app, list_elem_of_singleton, list_elem_of_fmap.
    intros [(y & Heq & Hy)|[Heq|Hin]]; [by apply (Hdisj y x)|rewrite Heq in Hbelow; congruence|].
    destruct (Hused _ Hin). congruence. }
  { apply Forall_forall. intros x Hx. eapply leaf_dom; [by rewrite M2, M1|by apply Hleaf; right]. }
  exists (((docKey ∘ res_ID) <$> auths) ++ ((docKey ∘ res_ID) <$> pools) ++ [docKey (res_ID d)])%list. split.
  - split; [done|done|by rewrite M3, M2, M1|]. intros k Hk. apply F3. rewrite !elem_of_app in Hk |- *. tauto.
  - intros k. rewrite !elem_of_app, !list_elem_of_fmap, list_elem_of_singleton.
    intros [(x & -> & Hx)|[(x & -> & Hx)| ->]]; [right; apply Hbelow; by right|right; apply Hbelow; by left|by left].
Qed.

(** A deletion supersedes what was going on: when the request to delete a node pool
    is accepted, the node pool is [Deleting], marked with the time and owned by the new
    operation, and every other stored operation on it is over, those that were active
    because they were canceled in the same transaction. *)
Theorem delete_supersedes uuid now uri id admitted s s' :
  opInv (db_view s) → freshName uuid (db_view s) →
  DeleteNodePool uuid now uri id admitted s = Ok (DeleteAccepted s') →
  (∃ d, v_resources (db_view s') !! docKey id = Some d ∧ res_ActiveOperationID d = uuid ∧
    res_ProvisioningState d = ProvisioningStateDeleting ∧ is_Some (res_DeletionTimestamp d)) ∧
  (∃ op, v_operations (db_view s') !! uuid = Some op ∧ op_Status op = ProvisioningStateDeleting ∧
    op_Request op = OperationRequestDelete) ∧
  ∀ n op, v_operations (db_view s') !! n = Some op → n ≠ uuid → docKey <$> op_ExternalID op = Some (docKey id) →
    IsTerminal (op_Status op) = true.
Proof.
  intros Hinv Hfresh. unfold DeleteNodePool.
  destruct (db_getResource s (docKey id)) as [d|[]] eqn:Eg; [|done..]. apply db_getResource_ok in Eg.
  assert (Hkey : docKey (res_ID d) = docKey id) by by apply (inv_keyed _ Hinv).
  destruct (checkForProvisioningStateConflict _ _ _ _); [done|]. destruct (negb _); [done|].
  intros (ws & Hws & (e & Hfe & Hb)%db_execute_ok)%executeDelete_ok. revert Hws.
  unfold addDeleteNodePoolToTransaction, addDelete.
  destruct (CancelActiveOperations _ _ _) as [cancels failed] eqn:Ec. destruct failed; [done|].
  destruct (stageAll _ _); [done|]. intros [= <-].
  apply CancelActiveOperations_ok in Ec as (ops & -> & Hops).
  rewrite applyBatch_app in Hb. destruct (applyBatch e (db_view s) _) as [v1|] eqn:E1; cbn [mbind option_bind applyBatch] in Hb; [|done].
  destruct (applyWrite e v1 _) as [v2|] eqn:Ew; cbn [mbind option_bind] in Hb; [|done].
  apply applyWrite_createOperation in Ew as (u & [= <-] & _ & ->).
  destruct (applyWrite e _ (ReplaceResource _)) as [v3|] eqn:Er; cbn [mbind option_bind] in Hb; [|done]. injection Hb as <-.
  apply applyWrite_replaceResource in Er as (cur & _ & _ & ->). cbn [res_ID withDeletion withProvisioning]. rewrite Hkey.
  split_and!.
  - eexists. split; [apply lookup_insert_eq|]. split_and!; [done|done|]. cbn. unfold timestampOr. by destruct (res_DeletionTimestamp d).
  - eexists. split; [apply lookup_insert_eq|]. done.
  - intros n op Hop Hne Hext. simpl in Hop. rewrite lookup_insert_ne in Hop by done.
    destruct (cancels_effect e now (db_view s) ops (db_view s) v1) as (_ & _ & Hn); [done|done|by left| |exact E1|].
    { apply Forall_forall. intros x Hx. by apply Hops. }
    destruct (Hn n) as [Heq|(x & _ & _ & Hx)]; [|by rewrite Hx in Hop; simplify_eq].
    rewrite Heq in Hop. destruct (IsTerminal (op_Status op)) eqn:Et; [done|].
    assert (Hin : op ∈ ops).
    { apply Hops. split; [by exists n|]. unfold selects. rewrite Et. simpl.
      destruct (op_ExternalID op) as [ext|]; [|done]. injection Hext as Hext. unfold docKey in *.
      apply orb_true_iff. left. apply EqualFold_spec. congruence. }
    destruct (cancels_all e now n op ops _ _ E1 Hin (proj1 (inv_named _ Hinv n op Hop))) as (x & Hx & Hs).
    rewrite Heq, Hop in Hx. simplify_eq. rewrite Hs in Et. done.
Qed.

(** ** Everything that happens to operations *)

(** What the backend and the frontend do to the database, in any order: updates of
    operations, completed deletions, and the requests that create, update or delete a
    cluster, a node pool or an external auth.  A copy of an operation may be outdated; new
    names are new; the update of a cluster keeps its ID (it is copied from the old
    document); no cluster, node pool or external auth lies below a node pool or an external
    auth. *)
Inductive opStep : S → S → Prop :=
  | step_update now op newStatus newError post s :
      currentCopy op (db_view s) →
      opStep s (UpdateOperationStatus now (Some op) newStatus newError post s).1.1
  | step_complete now op post s :
      currentCopy op (db_view s) →
      opStep s (SetDeleteOperationAsCompleted now op post s).1.1
  | step_create uuid now uri d s s' :
      freshName uuid (db_view s) → createNodePool uuid now uri d s = Ok s' → opStep s s'
  | step_change uuid now uri d old s s' :
      freshName uuid (db_view s) → updateNodePool uuid now uri d old s = Ok s' → opStep s s'
  | step_createExternalAuth uuid now uri d s s' :
      freshName uuid (db_view s) → createExternalAuth uuid now uri d s = Ok s' → opStep s s'
  | step_updateExternalAuth uuid now uri d old s s' :
      freshName uuid (db_view s) → updateExternalAuth uuid now uri d old s = Ok s' → opStep s s'
  | step_createCluster uuid now uri d s s' :
      freshName uuid (db_view s) → createHCPCluster uuid now uri d s = Ok s' → opStep s s'
  | step_updateCluster uuid now uri d old s s' :
      freshName uuid (db_view s) → docKey (res_ID old) = docKey (res_ID d) →
      updateHCPCluster uuid now uri d old s = Ok s' → opStep s s'
  | step_deleteNodePool uuid now uri id admitted s s' :
      freshName uuid (db_view s) → leaf (docKey id) (db_view s) →
      DeleteNodePool uuid now uri id admitted s = Ok (DeleteAccepted s') → opStep s s'
  | step_deleteExternalAuth uuid now uri id s s' :
      freshName uuid (db_view s) → leaf (docKey id) (db_view s) →
      DeleteExternalAuth uuid now uri id s = Ok (DeleteAccepted s') → opStep s s'
  | step_deleteCluster uuids now uri id s s' :
      Inj (=) (=) uuids → freshFrom uuids [] (db_view s) → flat (db_view s) →
      DeleteCluster uuids now uri id s = Ok (DeleteAccepted s') → opStep s s'.

Lemma DeleteNodePool_inv uuid now uri id admitted s s' :
  opInv (db_view s) → freshName uuid (db_view s) → leaf (docKey id) (db_view s) →
  DeleteNodePool uuid now uri id admitted s = Ok (DeleteAccepted s') → opInv (db_view s').
Proof.
  intros Hinv Hfresh Hleaf. unfold DeleteNodePool.
  destruct (db_getResource s (docKey id)) as [d|[]] eqn:Eg; [|done..]. apply db_getResource_ok in Eg.
  destruct (checkForProvisioningStateConflict _ _ _ _); [done|]. destruct (negb _); [done|].
  intros (ws & Hws & Hx)%executeDelete_ok. eapply addDelete_inv; [done|done| |exact Hws|exact Hx].
  intros _. by rewrite (inv_keyed _ Hinv _ _ Eg).
Qed.

Lemma DeleteExternalAuth_inv uuid now uri id s s' :
  opInv (db_view s) → freshName uuid (db_view s) → leaf (docKey id) (db_view s) →
  DeleteExternalAuth uuid now uri id s = Ok (DeleteAccepted s') → opInv (db_view s').
Proof.
  intros Hinv Hfresh Hleaf. unfold DeleteExternalAuth.
  destruct (db_getResource s (docKey id)) as [d|[]] eqn:Eg; [|done..]. apply db_getResource_ok in Eg.
  destruct (checkForProvisioningStateConflict _ _ _ _); [done|].
  intros (ws & Hws & Hx)%executeDelete_ok. eapply addDelete_inv; [done|done| |exact Hws|exact Hx].
  intros _. by rewrite (inv_keyed _ Hinv _ _ Eg).
Qed.

Lemma DeleteCluster_inv uuids now uri id s s' :
  Inj (=) (=) uuids → opInv (db_view s) → freshFrom uuids [] (db_view s) → flat (db_view s) →
  DeleteCluster uuids now uri id s = Ok (DeleteAccepted s') → opInv (db_view s').
Proof.
  intros Hinj Hinv Hfresh Hflat. unfold DeleteCluster.
  destruct (db_getResource s (docKey id)) as [d|[]] eqn:Eg; [|done..]. apply db_getResource_ok in Eg.
  destruct (checkForProvisioningStateConflict _ _ _ _); [done|].
  intros (ws & Hws & Hx)%executeDelete_ok. apply db_execute_ok in Hx as (e & Hfe & Hb).
  destruct (addDeleteCluster_step e s uuids [] (db_view s) (db_view s') now uri d ws) as (keys & Hstep & _);
    [done..|by rewrite (inv_keyed _ Hinv _ _ Eg)|by left|done|done|done| |exact Hws|exact Hb|by apply Hstep].
  intros k Hk. by apply not_elem_of_nil in Hk.
Qed.

Lemma opStep_inv s s' : opStep s s' → opInv (db_view s) → opInv (db_view s').
Proof.
  destruct 1; intros Hinv.
  - apply update_inv; [done|]. by intros ? [= <-].
  - by apply completed_inv.
  - by eapply createNodePool_inv.
  - by eapply updateNodePool_inv.
  - by eapply createExternalAuth_inv.
  - by eapply updateExternalAuth_inv.
  - by eapply createHCPCluster_inv.
  - by eapply updateHCPCluster_inv.
  - by eapply DeleteNodePool_inv.
  - by eapply DeleteExternalAuth_inv.
  - by eapply DeleteCluster_inv.
Qed.

(** (C13) No resource waits for an operation that is over: from a database in which that
    holds (an empty one, to begin with), through any sequence of updates of operations,
    completed deletions and requests that create, update or delete a cluster, a node pool
    or an external auth (those about credentials and subscriptions are not among the
    steps), whenever a resource names an active operation that is stored, this operation
    has not ended, and it acts on that resource. *)
Theorem active_operation_not_over s0 s k d op :
  opInv (db_view s0) → rtc opStep s0 s →
  v_resources (db_view s) !! k = Some d → v_operations (db_view s) !! res_ActiveOperationID d = Some op →
  IsTerminal (op_Status op) = false ∧ docKey <$> op_ExternalID op = Some k.
Proof.
  intros Hinv Hsteps. assert (Hs : opInv (db_view s)).
  { clear k d op. induction Hsteps as [|x y z Hxy _ IH]; [done|]. apply IH. by eapply opStep_inv. }
  apply (inv_owned _ Hs).
Qed.
End requests.

(** ** A database in memory *)

Module MemoryDB.
Section memory.
Context {R : Type}.
Implicit Types v : dbView R.

Definition etags v : list Z := (op_Etag ∘ snd <$> map_to_list (v_operations v)) ++ (res_Etag ∘ snd <$> map_to_list (v_resources v)).
Definition nextEtag v : Z := 1 + foldr Z.max 0 (etags v).

Definition listed v (parent ty : string) : list (ResourceDoc R) :=
  snd <$> List.filter (λ kd, bool_decide (docKey (res_ID kd.2) = kd.1) && EqualFold (rid_ResourceType (res_ID kd.2)) ty
                             && HasPrefix kd.1 (parent +:+ "/")) (map_to_list (v_resources v)).

#[export] Instance memory : OperationDB (dbView R) R := {
  db_view v := v;
  db_getOperation v n := match v_operations v !! n with Some op => Ok op | None => Err GetNotFound end;
  db_getResource v k := match v_resources v !! k with Some d => Ok d | None => Err GetNotFound end;
  db_stage _ _ := None;
  db_execute v ws := match applyBatch (nextEtag v) v ws with Some v' => Ok v' | None => Err PreconditionFailed end;
  db_delete v id := Ok (deleteResource (docKey id) v);
  db_children _ _ := Ok ([], None);
  db_listActive v opts := (List.filter (selects opts) (snd <$> map_to_list (v_operations v)), None);
  db_listResources v parent ty := Ok (listed v parent ty, None);
}.

Lemma nextEtag_fresh v : freshEtag (nextEtag v) v.
Proof.
  assert (Hmax : ∀ l x, x ∈ l → x <= foldr Z.max 0 l).
  { induction l as [|y l IH]; intros x Hx; [by apply not_elem_of_nil in Hx|]. simpl.
    apply elem_of_cons in Hx as [->|Hx]; [lia|]. specialize (IH x Hx). lia. }
  assert (Hin : ∀ x, x ∈ etags v → x ≠ nextEtag v) by (intros x Hx%Hmax; unfold nextEtag; lia).
  split; intros k x Hx; apply Hin; unfold etags; apply elem_of_app; [left|right];
    apply list_elem_of_fmap; exists (k, x); (split; [done|by apply elem_of_map_to_list]).
Qed.

Lemma elem_of_listed v parent ty d : d ∈ listed v parent ty →
  v_resources v !! docKey (res_ID d) = Some d ∧ EqualFold (rid_ResourceType (res_ID d)) ty = true ∧
  HasPrefix (docKey (res_ID d)) (parent +:+ "/") = true.
Proof.
  unfold listed. intros ([k x] & -> & Hin)%list_elem_of_fmap. apply list_elem_of_In, filter_In in Hin as [Hin Hb].
  apply list_elem_of_In, elem_of_map_to_list in Hin. simpl in *.
  apply andb_true_iff in Hb as [[Hk%bool_decide_eq_true Ht]%andb_true_iff Hp]. by subst k.
Qed.

#[export] Instance laws : OperationDBLaws (dbView R) R.
Proof.
  split; simpl.
  - intros v n op. by destruct (v_operations v !! n); intros [= <-].
  - intros v k d. by destruct (v_resources v !! k); intros [= <-].
  - intros v k. by destruct (v_resources v !! k).
  - intros v ws v'. destruct (applyBatch _ v ws) as [x|] eqn:E; [|done]. intros [= <-].
    exists (nextEtag v). split; [apply nextEtag_fresh|done].
  - by intros v id v' [= <-].
  - intros v opts ops [= <-] op. rewrite list_elem_of_In, filter_In, <- list_elem_of_In, list_elem_of_fmap.
    apply and_iff_compat_r. split.
    + intros ([n x] & -> & Hx%elem_of_map_to_list). eauto.
    + intros [n Hn]. exists (n, op). split; [done|]. by apply elem_of_map_to_list.
  - intros v parent ty ds err [= <- <-]. split; [|apply elem_of_listed].
    unfold listed. eapply sublist_NoDup; [apply (NoDup_fst_map_to_list (v_resources v))|].
    generalize (map_to_list (v_resources v)). intros l. induction l as [|[k x] l IH]; simpl; [done|].
    destruct (bool_decide (docKey (res_ID x) = k) && _ && _) eqn:Eb; simpl; [|by constructor].
    apply andb_true_iff in Eb as [[Hk%bool_decide_eq_true _]%andb_true_iff _]. unfold compose at 1. simpl. rewrite Hk. by constructor.
Qed.
End memory.
End MemoryDB.

(** ** A node pool that is being created *)

Module OperationExample.
Import MemoryDB.

Definition clusterID : ResourceID := {|
  rid_SubscriptionID := "s"; rid_ResourceGroupName := "g"; rid_Name := "c"; rid_ResourceType := ClusterResourceType;
  rid_String := "/C"; rid_Parent := None |}.
Definition poolID : ResourceID := {|
  rid_SubscriptionID := "s"; rid_ResourceGroupName := "g"; rid_Name := "np"; rid_ResourceType := NodePoolResourceType;
  rid_String := "/C/NP"; rid_Parent := Some {| parent_Name := "c"; parent_String := "/C" |} |}.
Definition doc (id : ResourceID) (state active : string) : ResourceDoc unit := {|
  res_ID := id; res_Etag := 7; res_ProvisioningState := state; res_ActiveOperationID := active;
  res_DeletionTimestamp := None; res_DeleteOperationCompletionTimeout := None;
  res_DeleteOperationCompletionDeadline := None; res_rest := tt |}.
Definition creation : OperationDoc :=
  withOperationEtag 5 (NewOperation "u1" 10 OperationRequestCreate poolID "https://notify").
Definition v0 : dbView unit := {|
  v_operations := {["u1" := creation]};
  v_resources := {["/c" := doc clusterID "Succeeded" EmptyString; "/c/np" := doc poolID "Accepted" "u1"]} |}.

Lemma v0_resources k d : v_resources v0 !! k = Some d →
  (k = "/c" ∧ d = doc clusterID "Succeeded" EmptyString) ∨ (k = "/c/np" ∧ d = doc poolID "Accepted" "u1").
Proof.
  change (v_resources v0) with (<["/c" := doc clusterID "Succeeded" EmptyString]> {["/c/np" := doc poolID "Accepted" "u1"]} : gmap string _).
  rewrite lookup_insert_Some, lookup_singleton_Some. naive_solver.
Qed.

Lemma v0_inv : opInv (db_view v0).
Proof.
  change (opInv v0). split.
  - intros n op. change (v_operations v0) with ({["u1" := creation]} : gmap string _).
    rewrite lookup_singleton_Some. intros [<- <-]. done.
  - intros k d [[-> ->]|[-> ->]]%v0_resources; done.
  - intros k d op Hd Hop. destruct (v0_resources k d Hd) as [[-> ->]|[-> ->]]; vm_compute in Hop; [done|].
    injection Hop as <-. done.
Qed.

Lemma creation_current : currentCopy creation (db_view v0).
Proof. change (currentCopy creation v0). intros n cur [= <-]. vm_compute. by intros [= <-] _. Qed.

Lemma u2_fresh : freshName "u2" (db_view v0).
Proof. change (freshName "u2" v0). split_and!; [done|done|]. intros k d [[-> ->]|[-> ->]]%v0_resources; done. Qed.

Definition posting : option (OperationDoc → bool) := Some (λ _, true).

Lemma operation_and_resource_change_together_witness :
  let r := UpdateOperationStatus (R := unit) 20 (Some creation) "Succeeded" None posting v0 in
  (r.2 ≠ None → r.1 = (v0, [])) ∧
  ∃ d', v_resources (db_view r.1.1) !! "/c/np" = Some d' ∧ res_ProvisioningState d' = "Succeeded" ∧
    res_ActiveOperationID d' = EmptyString.
Proof.
  destruct (operation_and_resource_change_together (R := unit) 20 creation "u1" "Succeeded" None posting v0 v0_inv creation_current eq_refl)
    as [H1 H2].
  split; [exact H1|].
  assert (Hok : (UpdateOperationStatus (R := unit) 20 (Some creation) "Succeeded" None posting v0).2 = None) by by vm_compute.
  assert (Hneed : NeedToPatchOperation creation "Succeeded" None = true) by by vm_compute.
  destruct (H2 Hok Hneed) as (_ & Hown & _).
  destruct (Hown "/c/np" (doc poolID "Accepted" "u1") eq_refl eq_refl) as (d' & Hd' & Hp & Ha & _). exists d'. by split_and!.
Defined.

Lemma notification_not_lost_witness :
  let r := UpdateOperationStatus (R := unit) 20 (Some creation) "Succeeded" None (Some (λ _, false)) v0 in
  r.1.2 = [withStatus 20 "Succeeded" None creation] ∨
  (r.1.2 = [] ∧ ∃ op', v_operations (db_view r.1.1) !! "u1" = Some op' ∧ op_NotificationURI op' = "https://notify" ∧
    ∀ newError', NeedToPatchOperation op' "Succeeded" newError' = true).
Proof.
  apply (notification_not_lost (R := unit) 20 creation "u1" "Succeeded" None (Some (λ _, false)) v0 v0_inv creation_current); by vm_compute.
Defined.

Definition deletion : result requestError deleted := DeleteNodePool "u2" 30 EmptyString poolID (λ _, true) v0.
Definition v1 : dbView unit := match deletion with Ok (DeleteAccepted v) => v | _ => v0 end.

Lemma deletion_accepted : deletion = Ok (DeleteAccepted v1).
Proof.
  assert (Hacc : match deletion with Ok (DeleteAccepted _) => true | _ => false end = true) by by vm_compute.
  unfold v1. by destruct deletion as [[|v]|].
Qed.

Lemma delete_supersedes_witness :
  ∃ d, v_resources (db_view v1) !! "/c/np" = Some d ∧ res_ActiveOperationID d = "u2" ∧
    res_ProvisioningState d = "Deleting" ∧ is_Some (res_DeletionTimestamp d).
Proof.
  destruct (delete_supersedes (R := unit) "u2" 30 EmptyString poolID (λ _, true) v0 v1 v0_inv u2_fresh deletion_accepted) as (Hd & _).
  exact Hd.
Defined.

Lemma active_operation_not_over_witness :
  ∃ d op, v_resources (db_view v1) !! "/c/np" = Some d ∧ v_operations (db_view v1) !! res_ActiveOperationID d = Some op ∧
    IsTerminal (op_Status op) = false ∧ docKey <$> op_ExternalID op = Some "/c/np".
Proof.
  pose (d := default (doc poolID EmptyString EmptyString) (v_resources v1 !! "/c/np")).
  pose (op := default creation (v_operations v1 !! "u2")).
  assert (Hd : v_resources (db_view v1) !! "/c/np" = Some d) by by vm_compute.
  assert (Hop : v_operations (db_view v1) !! res_ActiveOperationID d = Some op) by by vm_compute.
  exists d, op. split; [exact Hd|]. split; [exact Hop|].
  apply (active_operation_not_over (R := unit) v0 v1 "/c/np" d op v0_inv); [|exact Hd|exact Hop].
  eapply rtc_l; [|apply rtc_refl].
  apply (step_deleteNodePool "u2" 30 EmptyString poolID (λ _, true)); [exact u2_fresh| |exact deletion_accepted].
  intros k x [[-> ->]|[-> ->]]%v0_resources; done.
Defined.

(** An external auth of a cluster that is there, the cluster itself and another one: these
    requests start operations; an update of what is not at rest does not. *)
Definition authID : ResourceID := {|
  rid_SubscriptionID := "s"; rid_ResourceGroupName := "g"; rid_Name := "ea"; rid_ResourceType := ExternalAuthResourceType;
  rid_String := "/C/EA"; rid_Parent := Some {| parent_Name := "c"; parent_String := "/C" |} |}.
Definition otherID : ResourceID := {|
  rid_SubscriptionID := "s"; rid_ResourceGroupName := "g"; rid_Name := "d"; rid_ResourceType := ClusterResourceType;
  rid_String := "/D"; rid_Parent := None |}.
Definition active (r : result requestError (dbView unit)) (k : string) : option (string * string) :=
  match r with
  | Ok v => (λ d, (res_ActiveOperationID d, res_ProvisioningState d)) <$> v_resources v !! k
  | Err _ => None
  end.

Example requests_start_operations :
  let auth := doc authID EmptyString EmptyString in
  let cluster := doc clusterID "Succeeded" EmptyString in
  active (createExternalAuth "u2" 30 EmptyString auth v0) "/c/ea" = Some ("u2", "Accepted") ∧
  active (createHCPCluster "u2" 30 EmptyString (doc otherID EmptyString EmptyString) v0) "/d" = Some ("u2", "Accepted") ∧
  active (updateHCPCluster "u2" 30 EmptyString cluster cluster v0) "/c" = Some ("u2", "Accepted") ∧
  active (updateHCPCluster "u2" 30 EmptyString cluster (doc clusterID "Updating" EmptyString) v0) "/c" = None ∧
  active (updateExternalAuth "u2" 30 EmptyString auth (doc authID "Accepted" EmptyString) v0) "/c/ea" = None.
Proof. by vm_compute. Qed.

(** An error that is there already counts as new: it is compared as a pointer. *)
Example same_error_patched_again :
  let failed := withStatus 20 "Failed" (Some internalServerError) (withNotificationURI EmptyString creation) in
  NeedToPatchOperation failed "Failed" (Some internalServerError) = true.
Proof. by vm_compute. Qed.

(** The comment says that node pools and external auths are not deleted along with a
    cluster here; the code skips the documents of controllers instead. *)
Example node_pools_are_not_skipped :
  childIsSkipped NodePoolResourceType = false ∧ childIsSkipped ExternalAuthResourceType = false ∧
  childIsSkipped ClusterControllerResourceType = true.
Proof. by vm_compute. Qed.
End OperationExample.
