(* ===== verification/ServiceStatus.v ===== *)
(** * What Cluster Service says of an operation

    [backend/pkg/utils/operationutils/utils.go]: the status of a cluster, node pool or
    external auth in Cluster Service becomes a provisioning state, with an error when it
    failed.  The statuses are those of its client library: the values the getters return. *)
From S2P Require Import Prelude GoStrings RolloutTypes OperationState OperationStore.

Local Open Scope string_scope.
Local Open Scope Z_scope.
Local Open Scope go_scope.

Inductive convertError : Type :=
  | UnexpectedState (state description status : string)
  | UnrecognizedRequest (request : string)
  | UnhandledState (state description : string)
  | InflightChecksFailed (e : string).

(** A provisioning state, an error for the user, an error of the conversion. *)
Definition conversion : Type := string * option CloudErrorBody * option convertError.

(** ** Clusters *)

Definition ClusterStateError : string := "error".
Definition ClusterStateInstalling : string := "installing".
Definition ClusterStateUpdating : string := "updating".
Definition ClusterStateReady : string := "ready".
Definition ClusterStateUninstalling : string := "uninstalling".
Definition ClusterStatePending : string := "pending".
Definition ClusterStateValidating : string := "validating".

Record ClusterStatus := {
  cs_State : string;
  cs_ProvisionErrorCode : string;
  cs_ProvisionErrorMessage : string;
  cs_Description : string;
}.

Definition InflightChecksFailedProvisionErrorCode : string := "OCM4001".

(** An inflight check: whether it failed, and the string under the key [error] of its
    details, when they are a map that has one. *)
Record InflightCheck := { check_Failed : bool; check_Error : option string }.

Definition convertInflightCheckDetails (check : InflightCheck) : string * bool :=
  match check_Error check with Some e => (e, true) | None => (EmptyString, false) end.

Definition convertInflightCheck (check : InflightCheck) : CloudErrorBody :=
  CloudError CloudErrorCodeInternalServerError (convertInflightCheckDetails check).1 EmptyString [].

Definition convertInflightChecks (checks : result string (list InflightCheck)) : option CloudErrorBody * option convertError :=
  match checks with
  | Err e => (Some (CloudError EmptyString EmptyString EmptyString []), Some (InflightChecksFailed e))
  | Ok checks =>
      match convertInflightCheck <$> List.filter check_Failed checks with
      | [] => (Some (CloudError CloudErrorCodeInternalServerError EmptyString EmptyString []), None)
      | cloudErrors => (NewCloudErrorBodyFromSlice cloudErrors "Cluster provisioning failed due to multiple errors", None)
      end
  end.

(** A state that has no provisioning state of its own, with those it may be seen in. *)
Definition keepIf (allowed : list string) (state description status : string) : conversion :=
  (status, None, if bool_decide (status ∈ allowed) then None else Some (UnexpectedState state description status)).

Definition ConvertClusterStatus (checks : result string (list InflightCheck)) (operation : OperationDoc)
    (clusterStatus : ClusterStatus) : conversion :=
  let state := cs_State clusterStatus in
  let status := op_Status operation in
  if String.eqb state ClusterStateError then
    let code := if String.eqb (cs_ProvisionErrorCode clusterStatus) EmptyString then CloudErrorCodeInternalServerError
                else cs_ProvisionErrorCode clusterStatus in
    let message := if String.eqb (cs_ProvisionErrorMessage clusterStatus) EmptyString then cs_Description clusterStatus
                   else cs_ProvisionErrorMessage clusterStatus in
    if String.eqb code InflightChecksFailedProvisionErrorCode then
      let '(opError, err) := convertInflightChecks checks in (ProvisioningStateFailed, opError, err)
    else (ProvisioningStateFailed, Some (CloudError code message EmptyString []), None)
  else if String.eqb state ClusterStateInstalling then (ProvisioningStateProvisioning, None, None)
  else if String.eqb state ClusterStateUpdating then (ProvisioningStateUpdating, None, None)
  else if String.eqb state ClusterStateReady then
    (if String.eqb (op_Request operation) OperationRequestDelete then status else ProvisioningStateSucceeded, None, None)
  else if String.eqb state ClusterStateUninstalling then (ProvisioningStateDeleting, None, None)
  else if String.eqb state ClusterStatePending || String.eqb state ClusterStateValidating then
    if String.eqb (op_Request operation) OperationRequestCreate then
      keepIf [ProvisioningStateAccepted; ProvisioningStateProvisioning] state (cs_Description clusterStatus) status
    else if String.eqb (op_Request operation) OperationRequestUpdate then
      keepIf [ProvisioningStateAccepted; ProvisioningStateUpdating] state (cs_Description clusterStatus) status
    else if String.eqb (op_Request operation) OperationRequestDelete then
      keepIf [ProvisioningStateDeleting] state (cs_Description clusterStatus) status
    else (status, None, Some (UnrecognizedRequest (op_Request operation)))
  else (status, None, Some (UnhandledState state (cs_Description clusterStatus))).

Definition ClusterServiceInProgressMessage (state : string) : string :=
  if bool_decide (state ∈ [ClusterStateInstalling; ClusterStatePending; ClusterStateValidating; ClusterStateUpdating;
                           ClusterStateUninstalling])
  then "cluster service is " +:+ state else EmptyString.

Definition errorMessage (opError : option CloudErrorBody) : option string :=
  e ← opError; if String.eqb (ceb_Message e) EmptyString then None else Some (ceb_Message e).

Definition ClusterServiceOperationMessage (clusterStatus : option ClusterStatus) (opError : option CloudErrorBody) : string :=
  match errorMessage opError with
  | Some m => m
  | None => from_option (ClusterServiceInProgressMessage ∘ cs_State) EmptyString clusterStatus
  end.

(** ** Node pools *)

Definition NodePoolStateValidating : string := "validating".
Definition NodePoolStatePending : string := "pending".
Definition NodePoolStateInstalling : string := "installing".
Definition NodePoolStateReady : string := "ready".
Definition NodePoolStateUpdating : string := "updating".
Definition NodePoolStateValidatingUpdate : string := "validating_update".
Definition NodePoolStatePendingUpdate : string := "pending_update".
Definition NodePoolStateUninstalling : string := "uninstalling".
Definition NodePoolStateRecoverableError : string := "recoverable_error".
Definition NodePoolStateError : string := "error".

Record NodePoolStatus := { nps_State : string; nps_Message : option string }.

Definition serverError (message : option string) : CloudErrorBody :=
  match message with Some m => withMessage m internalServerError | None => internalServerError end.

Definition ConvertNodePoolStatus (operation : OperationDoc) (nodePoolStatus : NodePoolStatus) : conversion :=
  let state := nps_State nodePoolStatus in
  let status := op_Status operation in
  let message := default EmptyString (nps_Message nodePoolStatus) in
  if bool_decide (state ∈ [NodePoolStateValidating; NodePoolStatePending; NodePoolStateValidatingUpdate;
                           NodePoolStatePendingUpdate]) then
    keepIf [ProvisioningStateAccepted] state message status
  else if String.eqb state NodePoolStateInstalling then (ProvisioningStateProvisioning, None, None)
  else if String.eqb state NodePoolStateReady then
    (if String.eqb (op_Request operation) OperationRequestDelete then status else ProvisioningStateSucceeded, None, None)
  else if String.eqb state NodePoolStateUpdating then (ProvisioningStateUpdating, None, None)
  else if String.eqb state NodePoolStateUninstalling then (ProvisioningStateDeleting, None, None)
  else if bool_decide (state ∈ [NodePoolStateRecoverableError; NodePoolStateError]) then
    (ProvisioningStateFailed, Some (serverError (nps_Message nodePoolStatus)), None)
  else (status, None, Some (UnhandledState state message)).

Definition NodePoolServiceInProgressMessage (state : string) : string :=
  if bool_decide (state ∈ [NodePoolStateValidating; NodePoolStatePending; NodePoolStateInstalling; NodePoolStateUpdating;
                           NodePoolStateValidatingUpdate; NodePoolStatePendingUpdate; NodePoolStateUninstalling])
  then "cluster service node pool is " +:+ state else EmptyString.

Definition NodePoolServiceOperationMessage (nodePoolStatus : option NodePoolStatus) (opError : option CloudErrorBody) : string :=
  match errorMessage opError with
  | Some m => m
  | None =>
      match nodePoolStatus with
      | None => EmptyString
      | Some st =>
          match nps_Message st with
          | Some m => if String.eqb m EmptyString then NodePoolServiceInProgressMessage (nps_State st) else m
          | None => NodePoolServiceInProgressMessage (nps_State st)
          end
      end
  end.

(** ** External auths *)

Definition ExternalAuthStateReady : string := "ready".
Definition ExternalAuthStateUninstalling : string := "uninstalling".
Definition ExternalAuthStateError : string := "error".

Record ExternalAuthServiceStatus := { eas_State : string; eas_Message : option string }.

Definition ConvertExternalAuthStatus (operation : OperationDoc) (externalAuthStatus : ExternalAuthServiceStatus) : conversion :=
  let state := eas_State externalAuthStatus in
  let status := op_Status operation in
  if String.eqb state ExternalAuthStateReady then
    (if String.eqb (op_Request operation) OperationRequestDelete then status else ProvisioningStateSucceeded, None, None)
  else if String.eqb state ExternalAuthStateError then
    (ProvisioningStateFailed, Some (serverError (eas_Message externalAuthStatus)), None)
  else if String.eqb state ExternalAuthStateUninstalling then (ProvisioningStateDeleting, None, None)
  else (status, None, Some (UnhandledState state (default EmptyString (eas_Message externalAuthStatus)))).

(** ** Facts *)

Definition nodePoolStates : list string :=
  [NodePoolStateValidating; NodePoolStatePending; NodePoolStateValidatingUpdate; NodePoolStatePendingUpdate;
   NodePoolStateInstalling; NodePoolStateReady; NodePoolStateUpdating; NodePoolStateUninstalling;
   NodePoolStateRecoverableError; NodePoolStateError].

Lemma keepIf_ok allowed state description status status' opError :
  keepIf allowed state description status = (status', opError, None) → status' ∈ allowed ∧ opError = None.
Proof. unfold keepIf. case_bool_decide; [|done]. by intros [= <- <-]. Qed.

(** A state that Cluster Service does not document is an error. *)
Lemma ConvertNodePoolStatus_documented operation st status opError :
  ConvertNodePoolStatus operation st = (status, opError, None) → nps_State st ∈ nodePoolStates.
Proof.
  unfold ConvertNodePoolStatus, nodePoolStates.
  case_bool_decide; [set_solver|]. do 4 (case String.eqb_spec; [intros ->; set_solver|intros _]).
  case_bool_decide; [set_solver|done].
Qed.

(** Of a creation or an update: a node pool that is ready is the one way to success, an
    error the one way to failure, and the other states are not terminal. *)
Lemma ConvertNodePoolStatus_spec operation st status opError :
  op_Request operation ≠ OperationRequestDelete →
  ConvertNodePoolStatus operation st = (status, opError, None) →
  status ∈ knownStates ∧ status ≠ ProvisioningStateCanceled ∧
  (status = ProvisioningStateSucceeded ↔ nps_State st = NodePoolStateReady) ∧
  (status = ProvisioningStateFailed ↔ nps_State st ∈ [NodePoolStateRecoverableError; NodePoolStateError]).
Proof.
  intros Hreq%String.eqb_neq Hc. pose proof (ConvertNodePoolStatus_documented _ _ _ _ Hc) as Hdoc.
  unfold ConvertNodePoolStatus in Hc. rewrite Hreq in Hc. destruct st as [state message]; simpl in *.
  unfold nodePoolStates in Hdoc. rewrite !elem_of_cons, elem_of_nil in Hdoc. destruct_or! Hdoc; try done; subst state.
  1-4: rewrite bool_decide_eq_true_2 in Hc by set_solver; apply keepIf_ok in Hc as [->%list_elem_of_singleton _].
  5-10: cbv -[serverError] in Hc; injection Hc as <- <-.
  all: split_and!; apply (bool_decide_unpack _); by vm_compute.
Qed.

Definition clusterStates : list string :=
  [ClusterStateError; ClusterStateInstalling; ClusterStateUpdating; ClusterStateReady; ClusterStateUninstalling;
   ClusterStatePending; ClusterStateValidating].

Lemma ConvertClusterStatus_documented checks operation st status opError :
  ConvertClusterStatus checks operation st = (status, opError, None) → cs_State st ∈ clusterStates.
Proof.
  unfold ConvertClusterStatus, clusterStates. do 5 (case String.eqb_spec; [intros ->; set_solver|intros _]).
  destruct (String.eqb_spec (cs_State st) ClusterStatePending) as [->|]; [set_solver|].
  destruct (String.eqb_spec (cs_State st) ClusterStateValidating) as [->|]; [set_solver|done].
Qed.

(** Of a cluster, likewise. *)
Lemma ConvertClusterStatus_spec checks operation st status opError :
  op_Request operation ≠ OperationRequestDelete →
  ConvertClusterStatus checks operation st = (status, opError, None) →
  status ∈ knownStates ∧ status ≠ ProvisioningStateCanceled ∧
  (status = ProvisioningStateSucceeded ↔ cs_State st = ClusterStateReady) ∧
  (status = ProvisioningStateFailed ↔ cs_State st = ClusterStateError).
Proof.
  intros Hreq Hc. pose proof (ConvertClusterStatus_documented _ _ _ _ _ Hc) as Hdoc.
  apply String.eqb_neq in Hreq.
  unfold ConvertClusterStatus in Hc. rewrite Hreq in Hc. destruct st as [state code message description]; simpl in *.
  unfold clusterStates in Hdoc. rewrite !elem_of_cons, elem_of_nil in Hdoc. destruct_or! Hdoc; try done; subst state; simpl in Hc.
  1: { assert (status = ProvisioningStateFailed) as ->.
       { apply (f_equal (λ c : conversion, c.1.1)) in Hc. simpl in Hc. rewrite <- Hc.
         destruct (String.eqb _ InflightChecksFailedProvisionErrorCode); [by destruct (convertInflightChecks checks)|done]. }
       split_and!; apply (bool_decide_unpack _); by vm_compute. }
  5-6: destruct (String.eqb (op_Request operation) OperationRequestCreate);
       [|destruct (String.eqb (op_Request operation) OperationRequestUpdate); [|done]].
  5-8: apply keepIf_ok in Hc as [Hin _]; rewrite !elem_of_cons, elem_of_nil in Hin; destruct_or! Hin; try done; subst status.
  all: try (injection Hc as <- <-).
  all: split_and!; apply (bool_decide_unpack _); by vm_compute.
Qed.

(** ** What has no place among the provisioning states *)

(** The statuses that an operation may have while Cluster Service has not begun. *)
Definition startStatuses (request : string) : list string :=
  if String.eqb request OperationRequestCreate then [ProvisioningStateAccepted; ProvisioningStateProvisioning]
  else if String.eqb request OperationRequestUpdate then [ProvisioningStateAccepted; ProvisioningStateUpdating]
  else if String.eqb request OperationRequestDelete then [ProvisioningStateDeleting]
  else [].

(** A cluster's status that cannot be told as a provisioning state: a failure whose
    inflight checks cannot be read, a cluster that is still pending although the operation
    is past its start, or a state that is not documented. *)
Definition clusterUnconvertible (checks : result string (list InflightCheck)) (operation : OperationDoc) (st : ClusterStatus) : Prop :=
  cs_State st = ClusterStateError ∧ cs_ProvisionErrorCode st = InflightChecksFailedProvisionErrorCode ∧ (∃ e, checks = Err e) ∨
  cs_State st ∈ [ClusterStatePending; ClusterStateValidating] ∧ op_Status operation ∉ startStatuses (op_Request operation) ∨
  cs_State st ∉ clusterStates.

Lemma keepIf_error allowed state description status :
  is_Some (keepIf allowed state description status).2 ↔ status ∉ allowed.
Proof. unfold keepIf. case_bool_decide; simpl; [by split; [intros [? [=]]|]|]. split; [done|by eexists]. Qed.

Lemma convertInflightChecks_error checks : is_Some (convertInflightChecks checks).2 ↔ ∃ e, checks = Err e.
Proof.
  destruct checks as [checks|e]; simpl; [|split; eauto].
  destruct (convertInflightCheck <$> _); simpl; split; by intros [? [=]].
Qed.

Lemma pending_error checks operation st :
  cs_State st ∈ [ClusterStatePending; ClusterStateValidating] →
  is_Some (ConvertClusterStatus checks operation st).2 ↔ op_Status operation ∉ startStatuses (op_Request operation).
Proof.
  intros Hst.
  assert (E : ConvertClusterStatus checks operation st =
    if String.eqb (op_Request operation) OperationRequestCreate then
      keepIf [ProvisioningStateAccepted; ProvisioningStateProvisioning] (cs_State st) (cs_Description st) (op_Status operation)
    else if String.eqb (op_Request operation) OperationRequestUpdate then
      keepIf [ProvisioningStateAccepted; ProvisioningStateUpdating] (cs_State st) (cs_Description st) (op_Status operation)
    else if String.eqb (op_Request operation) OperationRequestDelete then
      keepIf [ProvisioningStateDeleting] (cs_State st) (cs_Description st) (op_Status operation)
    else (op_Status operation, None, Some (UnrecognizedRequest (op_Request operation)))).
  { rewrite !elem_of_cons, elem_of_nil in Hst. destruct st as [state code message description]; simpl in *.
    destruct Hst as [->|[->|[]]]; reflexivity. }
  rewrite E. unfold startStatuses.
  do 3 (destruct (String.eqb (op_Request operation) _); [apply keepIf_error|]).
  simpl. split; [intros _ ?%elem_of_nil; done|by eexists].
Qed.

Lemma ConvertClusterStatus_error checks operation st :
  is_Some (ConvertClusterStatus checks operation st).2 ↔ clusterUnconvertible checks operation st.
Proof.
  unfold clusterUnconvertible. destruct (decide (cs_State st ∈ clusterStates)) as [Hin|Hout].
  2: { assert (E : (ConvertClusterStatus checks operation st).2 ≠ None).
       { destruct (ConvertClusterStatus checks operation st) as [[status opError] [e|]] eqn:Ec; [done|].
         by apply ConvertClusterStatus_documented in Ec. }
       apply not_eq_None_Some in E. tauto. }
  destruct (decide (cs_State st ∈ [ClusterStatePending; ClusterStateValidating])) as [Hp|Hp].
  { rewrite pending_error by done. split; [tauto|]. intros [(E & _)|[[_ ?]|?]]; [|done|done].
    exfalso. rewrite E in Hp. revert Hp. by apply (bool_decide_unpack _). }
  transitivity (cs_State st = ClusterStateError ∧ cs_ProvisionErrorCode st = InflightChecksFailedProvisionErrorCode ∧ ∃ e, checks = Err e);
    [|tauto].
  rewrite <- convertInflightChecks_error. unfold clusterStates in Hin. rewrite !elem_of_cons, elem_of_nil in Hin. rewrite !elem_of_cons, elem_of_nil in Hp.
  destruct st as [state code message description]; simpl in *.
  destruct_or! Hin; try done; try (exfalso; tauto); subst state; unfold ConvertClusterStatus; simpl;
    try (split; [by intros [? [=]]|by intros ([=] & _)]).
  destruct (String.eqb_spec code EmptyString) as [->|Hc]; simpl; [split; [by intros [? [=]]|by intros (_ & [=] & _)]|].
  destruct (String.eqb_spec code InflightChecksFailedProvisionErrorCode) as [->|Hi]; simpl.
  - destruct (convertInflightChecks checks) as [opError err]. simpl. tauto.
  - split; [by intros [? [=]]|by intros (_ & ? & _)].
Qed.

(** Of a node pool, likewise. *)
Definition nodePoolUnconvertible (operation : OperationDoc) (st : NodePoolStatus) : Prop :=
  nps_State st ∈ [NodePoolStateValidating; NodePoolStatePending; NodePoolStateValidatingUpdate; NodePoolStatePendingUpdate]
    ∧ op_Status operation ≠ ProvisioningStateAccepted ∨
  nps_State st ∉ nodePoolStates.

Lemma ConvertNodePoolStatus_error operation st :
  is_Some (ConvertNodePoolStatus operation st).2 ↔ nodePoolUnconvertible operation st.
Proof.
  unfold nodePoolUnconvertible. destruct (decide (nps_State st ∈ nodePoolStates)) as [Hin|Hout].
  2: { assert (E : (ConvertNodePoolStatus operation st).2 ≠ None).
       { destruct (ConvertNodePoolStatus operation st) as [[status opError] [e|]] eqn:Ec; [done|].
         by apply ConvertNodePoolStatus_documented in Ec. }
       apply not_eq_None_Some in E. tauto. }
  unfold ConvertNodePoolStatus. case_bool_decide as Hp.
  { rewrite keepIf_error, list_elem_of_singleton. tauto. }
  transitivity False; [|tauto]. unfold nodePoolStates in Hin. rewrite !elem_of_cons, elem_of_nil in Hin. rewrite !elem_of_cons, elem_of_nil in Hp.
  destruct st as [state message]; simpl in *.
  destruct_or! Hin; try done; try (exfalso; tauto); subst state; simpl; split; by intros [? [=]] || done.
Qed.
