(* ===== verification/OperationControllers.v ===== *)
(** * Controllers that follow an operation to its end

    What the operation controllers under [backend/pkg/controllers/*/operations] have in
    common: whether an operation is theirs, the verdict of several checks, the deadline,
    and the update of the operation and its resource.  The controllers themselves are in
    [NodePoolOperations.v], [NodePoolUpdates.v], [ClusterOperations.v], [ClusterDeletion.v],
    [ExternalAuthUpdates.v] and [ClusterUpdates.v]. *)
From S2P Require Import Prelude GoStrings RolloutTypes RolloutStatus OperationState OperationStore OperationUpdate ServiceStatus.

Local Open Scope string_scope.
Local Open Scope Z_scope.

(** The error of a check, and that of a pass. *)
Inductive stateError : Type :=
  | CheckFailed (e : string)
  | ConversionFailed (e : convertError)
  | PickFailed (e : pickError).

Inductive syncOpError : Type :=
  | GetOperationFailed (e : string)
  | GetFollowedFailed (e : string)
  | StateFailed (es : list stateError)
  | UpdateFailed (e : opError).

(** Names of conditions and states in the API of Hypershift. *)
Class HypershiftNames := {
  NodePoolAllNodesHealthyConditionType : string;
  NodePoolAllMachinesReadyConditionType : string;
  HostedClusterAvailable : string;
  HostedClusterDegraded : string;
  IngressDefaultCertificateSynced : string;
  CompletedUpdate : string;
}.

(** ** Whose operation it is *)

Definition ShouldProcess (request resourceType : string) (operation : OperationDoc) : bool :=
  if IsTerminal (op_Status operation) then false
  else if negb (String.eqb (op_Request operation) request) then false
  else match op_ExternalID operation with
       | None => false
       | Some id => EqualFold (rid_ResourceType id) resourceType
       end.

Lemma ShouldProcess_request request ty operation :
  ShouldProcess request ty operation = true → op_Request operation = request ∧ IsTerminal (op_Status operation) = false.
Proof.
  unfold ShouldProcess. destruct (IsTerminal (op_Status operation)); [done|].
  by destruct (String.eqb_spec (op_Request operation) request).
Qed.

Section follow.
Context {R : Type}.

(** The start of [SynchronizeOperation] for creations and updates.  [operation] and
    [resource] are what the listers answer. *)
Definition operationToFollow (request resourceType : string) (shouldReconcile : ResourceDoc R → bool)
    (operation : result getError OperationDoc) (resource : result getError (ResourceDoc R)) :
    result syncOpError (option (OperationDoc * ResourceDoc R)) :=
  match operation with
  | Err GetNotFound => Ok None
  | Err (GetFailed e) => Err (GetOperationFailed e)
  | Ok operation =>
      if negb (ShouldProcess request resourceType operation) then Ok None
      else match resource with
      | Err GetNotFound => Ok None
      | Err (GetFailed e) => Err (GetFollowedFailed e)
      | Ok resource =>
          if negb (bool_decide (op_OperationID operation = Some (res_ActiveOperationID resource))) then Ok None
          else if negb (shouldReconcile resource) then Ok None
          else Ok (Some (operation, resource))
      end
  end.

(** The operation owns the resource and is the controller's to end. *)
Definition follows (request resourceType : string) (shouldReconcile : ResourceDoc R → bool)
    (operation : OperationDoc) (resource : ResourceDoc R) : Prop :=
  ShouldProcess request resourceType operation = true ∧
  op_OperationID operation = Some (res_ActiveOperationID resource) ∧ shouldReconcile resource = true.

Lemma operationToFollow_follows request ty shouldReconcile operation resource :
  follows request ty shouldReconcile operation resource →
  operationToFollow request ty shouldReconcile (Ok operation) (Ok resource) = Ok (Some (operation, resource)).
Proof. intros (Hp & Hid & Hr). unfold operationToFollow. by rewrite Hp, bool_decide_eq_true_2, Hr. Qed.

(** Whatever is followed, its operation owns the resource. *)
Lemma operationToFollow_owns request ty shouldReconcile operation resource op d :
  operationToFollow request ty shouldReconcile operation resource = Ok (Some (op, d)) →
  operation = Ok op ∧ resource = Ok d ∧ follows request ty shouldReconcile op d.
Proof.
  unfold operationToFollow, follows. destruct operation as [o|[]]; [|done..].
  destruct (ShouldProcess request ty o) eqn:Ep; [|done]. destruct resource as [x|[]]; [|done..]. simpl.
  case_bool_decide as Hid; [|done]. destruct (shouldReconcile x) eqn:Er; [|done]. simpl. intros [= <- <-]. done.
Qed.
End follow.

(** ** The verdict of several checks *)

Definition checkError (check : string * result stateError OperationState) : option stateError :=
  match check.2 with Ok _ => None | Err e => Some e end.
Definition checkState (check : string * result stateError OperationState) : option OperationState :=
  match check.2 with Ok state => Some (WithSource check.1 state) | Err _ => None end.

(** The end of [determineOperationState]: the errors of the checks, joined, or the worst
    of the states.  No check returns a nil state. *)
Definition pickState (checks : list (string * result stateError OperationState)) : result (list stateError) OperationState :=
  match omap checkError checks with
  | [] =>
      match PickWorstOperationState (sortStates (omap checkState checks)) with
      | Ok picked => Ok picked
      | Err e => Err [PickFailed e]
      end
  | errs => Err errs
  end.

(** ** What is written *)

Definition pastDeadline (now : Z) (deadline : option Z) : bool :=
  match deadline with Some deadline => deadline <? now | None => false end.

(** The new status and its error.  The creation of a cluster keeps the error of the state;
    past the deadline an operation that has not ended is failed. *)
Definition completionOutcome (keepError : bool) (now : Z) (deadline : option Z) (sentence : string) (state : OperationState) :
    string * option CloudErrorBody :=
  if negb (IsTerminal (os_ProvisioningState state)) && pastDeadline now deadline then
    let code := if String.eqb (os_CloudErrorCode state) CloudErrorCodeInternalServerError then CloudErrorCodeDeadlineExceeded
                else os_CloudErrorCode state in
    (ProvisioningStateFailed, Some (CloudError code (DeadlineExceededMessage sentence (os_Message state)) EmptyString []))
  else
    let kept := if keepError then os_Error state else None in
    (os_ProvisioningState state,
     match kept with
     | Some e => Some e
     | None =>
         if String.eqb (os_ProvisioningState state) ProvisioningStateFailed
         then Some (CloudError (os_CloudErrorCode state) (os_Message state) EmptyString []) else None
     end).

Section update.
Context {S R : Type} `{OperationDB S R}.

(** A conflict is left to the next pass. *)
Definition tolerateConflict (r : S * list OperationDoc * option opError) : S * list OperationDoc * option syncOpError :=
  (r.1, match r.2 with
        | None | Some (TransactionFailed PreconditionFailed) | Some (StageFailed PreconditionFailed) => None
        | Some e => Some (UpdateFailed e)
        end).

(** The end of [SynchronizeOperation]. *)
Definition conclude (now : Z) (operation : OperationDoc) (outcome : OperationState → string * option CloudErrorBody)
    (determined : result (list stateError) OperationState) (post : option (OperationDoc → bool)) (s : S) :
    S * list OperationDoc * option syncOpError :=
  match determined with
  | Err es => (s, [], Some (StateFailed es))
  | Ok state =>
      let '(newStatus, newError) := outcome state in
      tolerateConflict (UpdateOperationStatus now (Some operation) newStatus newError post s)
  end.

(** A pass of a creation or an update. *)
Definition followOperation (request resourceType : string) (shouldReconcile : ResourceDoc R → bool)
    (determine : OperationDoc → ResourceDoc R → result (list stateError) OperationState)
    (outcome : ResourceDoc R → OperationState → string * option CloudErrorBody)
    (now : Z) (operation : result getError OperationDoc) (resource : result getError (ResourceDoc R))
    (post : option (OperationDoc → bool)) (s : S) : S * list OperationDoc * option syncOpError :=
  match operationToFollow request resourceType shouldReconcile operation resource with
  | Err e => (s, [], Some e)
  | Ok None => (s, [], None)
  | Ok (Some (operation, resource)) => conclude now operation (outcome resource) (determine operation resource) post s
  end.

(** A pass of a deletion, which reads the database: when the document is gone the
    operation is over, otherwise [reconcile] is asked. *)
Definition followDeletion (resourceType : string) (now : Z) (name : string)
    (reconcile : OperationDoc → ResourceDoc R → S → S * list OperationDoc * option syncOpError)
    (post : option (OperationDoc → bool)) (s : S) : S * list OperationDoc * option syncOpError :=
  match db_getOperation s name with
  | Err GetNotFound => (s, [], None)
  | Err (GetFailed e) => (s, [], Some (GetOperationFailed e))
  | Ok operation =>
      if negb (ShouldProcess OperationRequestDelete resourceType operation) then (s, [], None)
      else match op_ExternalID operation with
      | None => (s, [], None)
      | Some id =>
          match db_getResource s (docKey id) with
          | Err GetNotFound =>
              let r := SetDeleteOperationAsCompleted now operation post s in (r.1, UpdateFailed <$> r.2)
          | Err (GetFailed e) => (s, [], Some (GetFollowedFailed e))
          | Ok resource => reconcile operation resource s
          end
      end
  end.

(** What Cluster Service still says of a resource that is being deleted: [status] is its
    answer, a 404 is [GetNotFound]; a resource that is ready waits for its document to go. *)
Definition reconcileDeletion {T : Type} (isReady : T → bool) (convert : OperationDoc → T → conversion)
    (now : Z) (operation : OperationDoc) (status : result getError T) (post : option (OperationDoc → bool)) (s : S) :
    S * list OperationDoc * option syncOpError :=
  match status with
  | Err GetNotFound => (s, [], None)
  | Err (GetFailed e) => (s, [], Some (StateFailed [CheckFailed e]))
  | Ok status =>
      if isReady status then (s, [], None)
      else match convert operation status with
      | (_, _, Some e) => (s, [], Some (StateFailed [ConversionFailed e]))
      | (newStatus, newError, None) =>
          let r := UpdateOperationStatus now (Some operation) newStatus newError post s in
          (r.1, UpdateFailed <$> r.2)
      end
  end.
End update.

(** ** Facts *)

Lemma WithCloudErrorCode_state code s : os_ProvisioningState (WithCloudErrorCode code s) = os_ProvisioningState s.
Proof. unfold WithCloudErrorCode. by destruct (String.eqb code EmptyString). Qed.

(** The state a check reports, when it is one the controllers know and not [Canceled]. *)
Definition plainState (state : string) : Prop := state ∈ knownStates ∧ state ≠ ProvisioningStateCanceled.
Ltac plain_state := split; [apply (bool_decide_unpack _); by vm_compute|done].

(** A check that is waited for, or has succeeded. *)
Definition waitingState (state : string) : Prop := plainState state ∧ state ≠ ProvisioningStateFailed.

Definition plainCheck (check : string * result stateError OperationState) : Prop :=
  ∀ state, check.2 = Ok state → plainState (os_ProvisioningState state).
Definition checkSays (p : string) (check : string * result stateError OperationState) : Prop :=
  ∃ state, check.2 = Ok state ∧ os_ProvisioningState state = p.

Lemma checkSays_Ok p n state : checkSays p (n, Ok state) ↔ os_ProvisioningState state = p.
Proof. unfold checkSays. simpl. naive_solver. Qed.

Lemma omap_checkState p checks :
  (∃ s, s ∈ omap checkState checks ∧ os_ProvisioningState s = p) ↔ Exists (checkSays p) checks.
Proof.
  rewrite Exists_exists. unfold checkSays. setoid_rewrite list_elem_of_omap. split.
  - intros (s & ([n [x|e]] & Hin & [= <-]) & Hs). exists (n, Ok x). eauto.
  - intros ([n [x|e]] & Hin & (y & [= <-] & Hp)). exists (WithSource n x). split; [|done]. by exists (n, Ok x).
Qed.

Lemma checkError_nil checks : omap checkError checks = [] → Forall (λ check, ∃ state, check.2 = Ok state) checks.
Proof.
  induction checks as [|[n [x|e]] checks IH]; simpl; [done| |done]. intros H. constructor; [by exists x|auto].
Qed.

Lemma checkError_in e checks : e ∈ omap checkError checks → Exists (λ check, check.2 = Err e) checks.
Proof.
  rewrite list_elem_of_omap, Exists_exists. intros ([n [x|e']] & Hin & [= <-]). by exists (n, Err e').
Qed.

(** A check that could not be made. *)
Definition isError (r : result stateError OperationState) : Prop := ∃ e, r = Err e.

Lemma isError_Ok state : isError (Ok state) ↔ False.
Proof. split; [by intros [? [=]]|done]. Qed.

Lemma Exists_error e checks : Exists (λ check : string * result stateError OperationState, check.2 = Err e) checks →
  Exists (λ check, isError check.2) checks.
Proof. intros He. apply (Exists_impl _ _ _ He). intros check Hc. by exists e. Qed.

Lemma Forall_no_error checks : Forall (λ check : string * result stateError OperationState, ∃ state, check.2 = Ok state) checks →
  ¬ Exists (λ check, isError check.2) checks.
Proof.
  rewrite Forall_forall, Exists_exists. intros Hok (check & Hin & e & He).
  destruct (Hok check Hin) as [state Hs]. congruence.
Qed.

(** The verdict: an error when a check failed; otherwise success when all checks say so
    and failure when one does. *)
Lemma pickState_spec checks :
  checks ≠ [] → Forall plainCheck checks →
  match pickState checks with
  | Err es => ∃ e, e ∈ es ∧ Exists (λ check, check.2 = Err e) checks
  | Ok picked =>
      Forall (λ check, ∃ state, check.2 = Ok state) checks ∧ plainState (os_ProvisioningState picked) ∧
      (os_ProvisioningState picked = ProvisioningStateSucceeded ↔ Forall (checkSays ProvisioningStateSucceeded) checks) ∧
      (os_ProvisioningState picked = ProvisioningStateFailed ↔ Exists (checkSays ProvisioningStateFailed) checks)
  end.
Proof.
  intros Hne Hplain. unfold pickState. destruct (omap checkError checks) as [|e es] eqn:Ee.
  2: { exists e. split; [by left|]. apply checkError_in. rewrite Ee. by left. }
  apply checkError_nil in Ee as Hok.
  assert (Hstates : ∀ s, s ∈ omap checkState checks → plainState (os_ProvisioningState s)).
  { intros s ([n [x|e]] & Hin & [= <-])%list_elem_of_omap. rewrite Forall_forall in Hplain. exact (Hplain (n, Ok x) Hin x eq_refl). }
  destruct (PickWorst_sorted (omap checkState checks)) as (first & rest & picked & _ & -> & Hst & Hin & _ & Hsucc & Hfail).
  { destruct checks as [|[n r] checks]; [done|]. apply Forall_cons in Hok as [[x Hr] _]. simpl in Hr. by subst r. }
  { apply Forall_forall. intros s Hs. by apply Hstates. }
  rewrite Hst, Hsucc, Hfail, omap_checkState. split_and!; [done|by apply Hstates| |done].
  rewrite Forall_forall in Hok |- *. unfold checkSays. split.
  - intros Hall [n r] Hc. destruct (Hok _ Hc) as [state Hr]. simpl in Hr. subst r. exists state. split; [done|].
    apply (Hall (WithSource n state)). apply list_elem_of_omap. by exists (n, Ok state).
  - intros Hall s ([n [x|e]] & Hc & [= <-])%list_elem_of_omap. destruct (Hall _ Hc) as (state & [= <-] & Hs). done.
Qed.

(** What is written for a plain state: success for success alone, failure for failure and
    past the deadline, and an error with failure alone. *)
Lemma completionOutcome_spec keepError now deadline sentence state :
  plainState (os_ProvisioningState state) → (os_ProvisioningState state ≠ ProvisioningStateFailed → os_Error state = None) →
  let outcome := completionOutcome keepError now deadline sentence state in
  (outcome.1 = ProvisioningStateSucceeded ↔ os_ProvisioningState state = ProvisioningStateSucceeded) ∧
  (outcome.1 = ProvisioningStateFailed ↔ os_ProvisioningState state = ProvisioningStateFailed ∨
    os_ProvisioningState state ≠ ProvisioningStateSucceeded ∧ pastDeadline now deadline = true) ∧
  (outcome.1 = ProvisioningStateFailed ↔ is_Some outcome.2).
Proof.
  intros [_ Hc] Herr. unfold completionOutcome. destruct (IsTerminal (os_ProvisioningState state)) eqn:Et; simpl.
  - assert (Hst : os_ProvisioningState state = ProvisioningStateSucceeded ∨ os_ProvisioningState state = ProvisioningStateFailed).
    { apply bool_decide_eq_true in Et. set_solver. }
    destruct Hst as [Hst|Hst].
    + rewrite Herr by by rewrite Hst. rewrite Hst. destruct keepError; simpl; (split_and!; [naive_solver..|]);
        split; [done|by intros [? [=]]|done|by intros [? [=]]].
    + rewrite Hst. destruct keepError; [destruct (os_Error state)|]; simpl; naive_solver.
  - assert (Hst : os_ProvisioningState state ≠ ProvisioningStateSucceeded ∧ os_ProvisioningState state ≠ ProvisioningStateFailed).
    { apply bool_decide_eq_false in Et. set_solver. }
    destruct Hst as [? Hf]. apply String.eqb_neq in Hf as Hf'. rewrite Hf', Herr by done.
    destruct (pastDeadline now deadline); simpl; [naive_solver|].
    destruct keepError; (split_and!; [naive_solver..|]); split; [done|by intros [? [=]]|done|by intros [? [=]]].
Qed.

(** A picked state has an error only when it failed. *)
Lemma pickState_error checks state :
  pickState checks = Ok state → os_ProvisioningState state ≠ ProvisioningStateFailed → os_Error state = None.
Proof.
  unfold pickState. destruct (omap checkError checks); [|done].
  destruct (sortStates (omap checkState checks)) as [|first rest]; simpl; [done|].
  destruct (String.eqb (os_ProvisioningState first) EmptyString); [done|].
  destruct (String.eqb (os_ProvisioningState first) ProvisioningStateFailed); intros [= <-] Hne.
  - destruct Hne. unfold NewFailedOperationState. simpl. by rewrite WithCloudErrorCode_state.
  - unfold WithCloudErrorCode. by destruct (String.eqb _ EmptyString).
Qed.

(** ** A pass of a creation or an update *)

Section pass.
Context {S R : Type} `{OperationDB S R}.

(** The end of a pass, by its checks: when one cannot be made nothing is written and an
    error is returned; otherwise the operation gets the status they agree on, or fails at
    its deadline. *)
Definition decidedBy (checks : list (string * result stateError OperationState)) (deadlinePassed : bool) (now : Z)
    (operation : OperationDoc) (post : option (OperationDoc → bool)) (s : S) (r : S * list OperationDoc * option syncOpError) : Prop :=
  (∃ es e, r = (s, [], Some (StateFailed es)) ∧ e ∈ es ∧ Exists (λ check, check.2 = Err e) checks) ∨
  (Forall (λ check, ∃ state, check.2 = Ok state) checks ∧
   ∃ newStatus newError,
    r = tolerateConflict (UpdateOperationStatus now (Some operation) newStatus newError post s) ∧
    (newStatus = ProvisioningStateSucceeded ↔ Forall (checkSays ProvisioningStateSucceeded) checks) ∧
    (newStatus = ProvisioningStateFailed ↔ Exists (checkSays ProvisioningStateFailed) checks ∨
      ¬ Forall (checkSays ProvisioningStateSucceeded) checks ∧ deadlinePassed = true) ∧
    (newStatus = ProvisioningStateFailed ↔ is_Some newError)).

Lemma conclude_verdict checks keepError deadline sentence now operation post (s : S) :
  checks ≠ [] → Forall plainCheck checks →
  decidedBy checks (pastDeadline now deadline) now operation post s
    (conclude now operation (completionOutcome keepError now deadline sentence) (pickState checks) post s).
Proof.
  intros Hne Hplain. unfold conclude, decidedBy.
  pose proof (pickState_spec _ Hne Hplain) as Hpick. destruct (pickState checks) as [picked|es] eqn:Ep.
  2: { left. destruct Hpick as (e & He & Hex). by exists es, e. }
  right. destruct Hpick as (Hok & Hps & Hsucc & Hfail).
  pose proof (completionOutcome_spec keepError now deadline sentence picked Hps (pickState_error _ _ Ep)) as Hout.
  destruct (completionOutcome _ _ _ _ _) as [newStatus newError]. simpl in Hout. split; [done|].
  exists newStatus, newError. rewrite <- Hsucc, <- Hfail. by destruct Hout as (? & ? & ?).
Qed.

Lemma followOperation_verdict request ty shouldReconcile (checks : OperationDoc → ResourceDoc R → list (string * result stateError OperationState))
    keepError (deadline : ResourceDoc R → option Z) sentence now operation resource post (s : S) :
  follows request ty shouldReconcile operation resource →
  checks operation resource ≠ [] → Forall plainCheck (checks operation resource) →
  decidedBy (checks operation resource) (pastDeadline now (deadline resource)) now operation post s
    (followOperation request ty shouldReconcile (λ op d, pickState (checks op d))
      (λ d, completionOutcome keepError now (deadline d) sentence) now (Ok operation) (Ok resource) post s).
Proof.
  intros Hf Hne Hplain. unfold followOperation. rewrite (operationToFollow_follows _ _ _ _ _ Hf). by apply conclude_verdict.
Qed.
End pass.
