(* ===== verification/NodePoolOperations.v ===== *)
(** * Operations on node pools

    [backend/pkg/controllers/nodepool/operations]: the controllers that follow the
    creation and the deletion of a node pool to its end.  A creation succeeds when both
    Cluster Service and the mirrored Hypershift node pool say so, and fails when Cluster
    Service does or when its deadline has passed.  Updates are in [NodePoolUpdates.v]. *)
From S2P Require Import Prelude GoStrings RolloutTypes RolloutStatus OperationState OperationStore OperationUpdate ServiceStatus.
From S2P Require Import OperationControllers OperationSafety.

Local Open Scope string_scope.
Local Open Scope Z_scope.
Local Open Scope go_scope.

(** ** Documents *)

Record Taint := { t_Effect : string; t_Key : string; t_Value : string }.

#[export] Instance Taint_eq_dec : EqDecision Taint.
Proof. solve_decision. Defined.

(** What the controllers use of a node pool besides what [OperationStore.v] has. *)
Record PoolSpec := {
  pool_ClusterServiceID : option string;
  pool_ClusterServiceDeletionTimestamp : option Z;
  pool_CreateOperationCompletionDeadline : option Z;
  pool_UpdateOperationCompletionDeadline : option Z;
  pool_VersionID : string;
  pool_Labels : gmap string string;
  pool_Replicas : Z;
  pool_AutoScaling : option (Z * Z);
  pool_Taints : list Taint;
  pool_NodeDrainTimeoutMinutes : option Z;
}.

Definition PoolDoc : Type := ResourceDoc PoolSpec.
Definition spec (p : PoolDoc) : PoolSpec := res_rest p.

Record PoolCondition := { pc_Type : string; pc_Status : string; pc_Message : string }.

(** What is used of the Hypershift node pool, spec and status.  The minimum of an
    autoscaled pool may be nil; the drain timeout is in nanoseconds. *)
Record HypershiftNodePool := {
  hs_NodeLabels : gmap string string;
  hs_AutoScaling : option (option Z * Z);
  hs_Replicas : option Z;
  hs_Taints : list Taint;
  hs_NodeDrainTimeout : option Z;
  hs_StatusReplicas : Z;
  hs_Conditions : list PoolCondition;
}.

(** [%v] of a map: its entries by key. *)
Definition printMap (m : gmap string string) : string :=
  "map[" +:+ Join " " ((λ kv : string * string, kv.1 +:+ ":" +:+ kv.2)
    <$> sort_by (λ a b, string_less a.1 b.1) (map_to_list m)) +:+ "]".

(** ** The Hypershift node pool against the desired one: nothing, or what is missing *)

Section nodepools.
Context `{HypershiftNames}.

Definition labelsSpecMatch (desired observed : gmap string string) : option string :=
  if forallb (λ kv : string * string, String.eqb (default EmptyString (observed !! kv.1)) kv.2) (map_to_list desired) then None
  else Some ("hypershift NodePool nodeLabels are " +:+ printMap observed +:+ ", want at least " +:+ printMap desired).

Definition replicasOrAutoscalingSpecMatch (desired : PoolSpec) (observed : HypershiftNodePool) : option string :=
  match pool_AutoScaling desired with
  | Some (min, max) =>
      match hs_AutoScaling observed with
      | None => Some ("hypershift NodePool autoscaling is unset, want min=" +:+ Itoa min +:+ " max=" +:+ Itoa max)
      | Some (observedMin, observedMax) =>
          let observedMin := default 0 observedMin in
          if negb (observedMin =? min) || negb (observedMax =? max) then
            Some ("hypershift NodePool autoscaling is min=" +:+ Itoa observedMin +:+ " max=" +:+ Itoa observedMax
                  +:+ ", want min=" +:+ Itoa min +:+ " max=" +:+ Itoa max)
          else None
      end
  | None =>
      match hs_AutoScaling observed with
      | Some (observedMin, observedMax) =>
          Some ("hypershift NodePool autoscaling is set (min=" +:+ Itoa (default 0 observedMin) +:+ " max="
                +:+ Itoa observedMax +:+ "), want replicas=" +:+ Itoa (pool_Replicas desired))
      | None =>
          let observedReplicas := default 0 (hs_Replicas observed) in
          if observedReplicas =? pool_Replicas desired then None
          else Some ("hypershift NodePool replicas is " +:+ Itoa observedReplicas +:+ ", want " +:+ Itoa (pool_Replicas desired))
      end
  end.

Definition sameTaint (got want : Taint) : bool :=
  String.eqb (t_Key got) (t_Key want) && String.eqb (t_Value got) (t_Value want) && String.eqb (t_Effect got) (t_Effect want).

Fixpoint taintsSpecMatch (desired observed : list Taint) : option string :=
  match desired with
  | [] => None
  | want :: rest =>
      if existsb (λ got, sameTaint got want) observed then taintsSpecMatch rest observed
      else Some ("hypershift NodePool missing desired taint {effect:" +:+ t_Effect want +:+ " key:" +:+ t_Key want
                 +:+ " value:" +:+ t_Value want +:+ "}")
  end.

Definition firstMismatch (checks : list (option string)) : option string := head (omap id checks).

Definition specMatchesDesired (desired : PoolSpec) (observed : HypershiftNodePool) : option string :=
  firstMismatch [labelsSpecMatch (pool_Labels desired) (hs_NodeLabels observed);
                 replicasOrAutoscalingSpecMatch desired observed;
                 taintsSpecMatch (pool_Taints desired) (hs_Taints observed)].

Definition statusReplicasMatch (desired : PoolSpec) (observedReplicas : Z) : option string :=
  match pool_AutoScaling desired with
  | Some (min, max) =>
      if observedReplicas <? min then
        Some ("hypershift NodePool status replicas is " +:+ Itoa observedReplicas +:+ ", want >= " +:+ Itoa min +:+ " (autoscaling min)")
      else if max <? observedReplicas then
        Some ("hypershift NodePool status replicas is " +:+ Itoa observedReplicas +:+ ", want <= " +:+ Itoa max +:+ " (autoscaling max)")
      else None
  | None =>
      if observedReplicas =? pool_Replicas desired then None
      else Some ("hypershift NodePool status replicas is " +:+ Itoa observedReplicas +:+ ", want " +:+ Itoa (pool_Replicas desired))
  end.

(** [what] the message calls the condition. *)
Definition conditionStatusMatch (what : string) (conditions : list PoolCondition) (conditionType : string) : option string :=
  match List.find (λ c, String.eqb (pc_Type c) conditionType) conditions with
  | None => Some (what +:+ conditionType +:+ " not yet reported")
  | Some c =>
      if String.eqb (pc_Status c) "True" then None
      else Some (what +:+ pc_Type c +:+ " is " +:+ pc_Status c +:+ ": " +:+ pc_Message c)
  end.

(** Skipped when scaling to zero. *)
Definition machineChecks (what : string) (desired : PoolSpec) (observed : HypershiftNodePool) : list (option string) :=
  if (0 <? pool_Replicas desired) || bool_decide (is_Some (pool_AutoScaling desired)) then
    [conditionStatusMatch what (hs_Conditions observed) NodePoolAllNodesHealthyConditionType;
     conditionStatusMatch what (hs_Conditions observed) NodePoolAllMachinesReadyConditionType]
  else [].

Definition statusMatchesDesired (what : string) (desired : PoolSpec) (observed : HypershiftNodePool) : option string :=
  match omap id (statusReplicasMatch desired (hs_StatusReplicas observed) :: machineChecks what desired observed) with
  | [] => None
  | messages => Some (Join "; " messages)
  end.

Definition creationCondition : string := "node pool condition ".

(** [cached] is what [GetCachedNodePoolForNodePool] returns: a node pool, none yet, or an
    error. *)
Definition hypershiftNodePoolOperationState (cached : result string (option HypershiftNodePool)) (desired : PoolSpec) :
    result string OperationState :=
  let* cached := cached in
  match cached with
  | None => Ok (NewOperationState ProvisioningStateProvisioning "hypershift node pool not cached yet")
  | Some observed =>
      match specMatchesDesired desired observed with
      | Some message => Ok (NewOperationState ProvisioningStateProvisioning message)
      | None =>
          match statusMatchesDesired creationCondition desired observed with
          | Some message => Ok (NewOperationState ProvisioningStateProvisioning message)
          | None => Ok (NewOperationState ProvisioningStateSucceeded EmptyString)
          end
      end
  end.

(** The read desire's content, decoded by [unmarshal]. *)
Definition GetCachedNodePoolForNodePool (unmarshal : string → option HypershiftNodePool)
    (readDesire : result getError (option string)) : result string (option HypershiftNodePool) :=
  match readDesire with
  | Err GetNotFound => Ok None
  | Err (GetFailed e) => Err e
  | Ok None | Ok (Some EmptyString) => Ok None
  | Ok (Some raw) =>
      match unmarshal raw with
      | None => Err "failed to unmarshal NodePool"
      | Some nodePool => Ok (Some nodePool)
      end
  end.

(** ** The creation controller *)

Definition nodePoolServiceCreateOperationState (operation : OperationDoc) (status : result string NodePoolStatus) :
    result stateError OperationState :=
  match status with
  | Err e => Err (CheckFailed e)
  | Ok status =>
      match ConvertNodePoolStatus operation status with
      | (_, _, Some e) => Err (ConversionFailed e)
      | (newStatus, newError, None) =>
          let state := NewOperationState newStatus (NodePoolServiceOperationMessage (Some status) newError) in
          Ok (match newError with Some e => WithCloudErrorCode (ceb_Code e) state | None => state end)
      end
  end.

Definition createChecks (status : result string NodePoolStatus) (cached : result string (option HypershiftNodePool))
    (operation : OperationDoc) (nodePool : PoolDoc) : list (string * result stateError OperationState) :=
  [("clusterServiceNodePoolStatus", nodePoolServiceCreateOperationState operation status);
   ("hypershiftNodePool",
     match hypershiftNodePoolOperationState cached (spec nodePool) with Ok state => Ok state | Err e => Err (CheckFailed e) end)].

Definition create_determineOperationState (status : result string NodePoolStatus)
    (cached : result string (option HypershiftNodePool)) (operation : OperationDoc) (nodePool : PoolDoc) :
    result (list stateError) OperationState :=
  pickState (createChecks status cached operation nodePool).

Definition create_ShouldProcess : OperationDoc → bool := ShouldProcess OperationRequestCreate NodePoolResourceType.

Definition create_shouldReconcile (nodePool : PoolDoc) : bool :=
  negb (bool_decide (is_Some (res_DeletionTimestamp nodePool)))
  && bool_decide (is_Some (pool_ClusterServiceID (spec nodePool))).

Definition creationDeadlineSentence : string := "node pool creation did not complete before the deadline".

Section controllers.
Context {S : Type} `{OperationDB S PoolSpec}.

Definition create_SynchronizeOperation (now : Z) (operation : result getError OperationDoc) (nodePool : result getError PoolDoc)
    (status : result string NodePoolStatus) (cached : result string (option HypershiftNodePool))
    (post : option (OperationDoc → bool)) (s : S) : S * list OperationDoc * option syncOpError :=
  followOperation OperationRequestCreate NodePoolResourceType create_shouldReconcile
    (create_determineOperationState status cached)
    (λ nodePool, completionOutcome false now (pool_CreateOperationCompletionDeadline (spec nodePool)) creationDeadlineSentence)
    now operation nodePool post s.

(** ** The deletion controller *)

Definition delete_shouldReconcile (nodePool : PoolDoc) : bool :=
  bool_decide (is_Some (res_DeletionTimestamp nodePool))
  && bool_decide (is_Some (pool_ClusterServiceDeletionTimestamp (spec nodePool)))
  && bool_decide (is_Some (pool_ClusterServiceID (spec nodePool))).

Definition delete_reconcile (now : Z) (status : result getError NodePoolStatus) (post : option (OperationDoc → bool))
    (operation : OperationDoc) (s : S) : S * list OperationDoc * option syncOpError :=
  reconcileDeletion (λ status, String.eqb (nps_State status) NodePoolStateReady) ConvertNodePoolStatus
    now operation status post s.

(** [status] is the answer of Cluster Service; a 404 is [GetNotFound]. *)
Definition delete_SynchronizeOperation (now : Z) (name : string) (status : result getError NodePoolStatus)
    (post : option (OperationDoc → bool)) (s : S) : S * list OperationDoc * option syncOpError :=
  followDeletion NodePoolResourceType now name
    (λ operation nodePool s,
      if negb (delete_shouldReconcile nodePool) then (s, [], None) else delete_reconcile now status post operation s)
    post s.
End controllers.

(** ** What a created node pool has *)

(** The first condition of the type is true. *)
Definition conditionHolds (conditions : list PoolCondition) (conditionType : string) : Prop :=
  ∃ c, List.find (λ c, String.eqb (pc_Type c) conditionType) conditions = Some c ∧ pc_Status c = "True".

(** The node pool is what was asked for, and its machines are there.  A label that is
    wanted to be empty may be missing. *)
Record poolReady (desired : PoolSpec) (observed : HypershiftNodePool) : Prop := {
  ready_labels k v : pool_Labels desired !! k = Some v → default EmptyString (hs_NodeLabels observed !! k) = v;
  ready_taints t : t ∈ pool_Taints desired → t ∈ hs_Taints observed;
  ready_fixed : pool_AutoScaling desired = None →
    hs_AutoScaling observed = None ∧ default 0 (hs_Replicas observed) = pool_Replicas desired ∧
    hs_StatusReplicas observed = pool_Replicas desired;
  ready_scaled min max : pool_AutoScaling desired = Some (min, max) →
    (∃ observedMin, hs_AutoScaling observed = Some (observedMin, max) ∧ default 0 observedMin = min) ∧
    min <= hs_StatusReplicas observed <= max;
  ready_machines : 0 < pool_Replicas desired ∨ is_Some (pool_AutoScaling desired) →
    conditionHolds (hs_Conditions observed) NodePoolAllNodesHealthyConditionType ∧
    conditionHolds (hs_Conditions observed) NodePoolAllMachinesReadyConditionType;
}.

Lemma labelsSpecMatch_spec desired observed :
  labelsSpecMatch desired observed = None ↔ ∀ k v, desired !! k = Some v → default EmptyString (observed !! k) = v.
Proof.
  unfold labelsSpecMatch. destruct (forallb _ _) eqn:E.
  - split; [|done]. intros _ k v Hk%elem_of_map_to_list. rewrite forallb_forall in E.
    apply list_elem_of_In, E, String.eqb_eq in Hk. done.
  - split; [done|]. intros Hall. apply not_true_iff_false in E. destruct E. apply forallb_forall.
    intros [k v] Hk%list_elem_of_In%elem_of_map_to_list. by apply String.eqb_eq, Hall.
Qed.

Lemma sameTaint_spec got want : sameTaint got want = true ↔ got = want.
Proof.
  unfold sameTaint. rewrite !andb_true_iff, !String.eqb_eq. destruct got, want; simpl. naive_solver.
Qed.

Lemma taintsSpecMatch_spec desired observed :
  taintsSpecMatch desired observed = None ↔ ∀ t, t ∈ desired → t ∈ observed.
Proof.
  induction desired as [|want rest IH]; simpl; [split; [by intros _ t ?%not_elem_of_nil|done]|].
  destruct (existsb _ observed) eqn:E.
  - apply existsb_exists in E as (got & Hgot & ->%sameTaint_spec). apply list_elem_of_In in Hgot.
    rewrite IH. setoid_rewrite elem_of_cons. naive_solver.
  - split; [done|]. intros Hall. rewrite <- not_true_iff_false, existsb_exists in E. destruct E.
    exists want. split; [apply list_elem_of_In, Hall; by left|by apply sameTaint_spec].
Qed.

Lemma conditionStatusMatch_spec what conditions ty : conditionStatusMatch what conditions ty = None ↔ conditionHolds conditions ty.
Proof.
  unfold conditionStatusMatch, conditionHolds. destruct (List.find _ conditions) as [c|]; [|naive_solver].
  destruct (String.eqb_spec (pc_Status c) "True"); naive_solver.
Qed.

Lemma omap_id_nil {A} (l : list (option A)) : omap id l = [] ↔ Forall (.= None) l.
Proof.
  induction l as [|[x|] l IH]; simpl; [by split|split; [done|by intros [? _]%Forall_cons]|].
  rewrite IH, Forall_cons. naive_solver.
Qed.

Lemma firstMismatch_None checks : firstMismatch checks = None ↔ Forall (.= None) checks.
Proof. unfold firstMismatch. rewrite <- omap_id_nil. by destruct (omap id checks). Qed.

(** The replicas, or the bounds between which they are scaled, are those of the spec... *)
Lemma replicasSpecMatch_spec desired observed :
  replicasOrAutoscalingSpecMatch desired observed = None ↔
  match pool_AutoScaling desired with
  | Some (min, max) => ∃ observedMin, hs_AutoScaling observed = Some (observedMin, max) ∧ default 0 observedMin = min
  | None => hs_AutoScaling observed = None ∧ default 0 (hs_Replicas observed) = pool_Replicas desired
  end.
Proof.
  unfold replicasOrAutoscalingSpecMatch. destruct (pool_AutoScaling desired) as [[min max]|], (hs_AutoScaling observed) as [[m x]|].
  - destruct (Z.eqb_spec (default 0 m) min), (Z.eqb_spec x max); simpl; naive_solver.
  - naive_solver.
  - naive_solver.
  - destruct (Z.eqb_spec (default 0 (hs_Replicas observed)) (pool_Replicas desired)); naive_solver.
Qed.

(** ...and those of the status. *)
Lemma statusReplicasMatch_spec desired observed :
  statusReplicasMatch desired observed = None ↔
  match pool_AutoScaling desired with
  | Some (min, max) => min <= observed <= max
  | None => observed = pool_Replicas desired
  end.
Proof.
  unfold statusReplicasMatch. destruct (pool_AutoScaling desired) as [[min max]|].
  - destruct (Z.ltb_spec observed min), (Z.ltb_spec max observed); naive_solver lia.
  - destruct (Z.eqb_spec observed (pool_Replicas desired)); naive_solver.
Qed.

Lemma statusMatchesDesired_spec what desired observed :
  statusMatchesDesired what desired observed = None ↔
  statusReplicasMatch desired (hs_StatusReplicas observed) = None ∧
  (0 < pool_Replicas desired ∨ is_Some (pool_AutoScaling desired) →
    conditionHolds (hs_Conditions observed) NodePoolAllNodesHealthyConditionType ∧
    conditionHolds (hs_Conditions observed) NodePoolAllMachinesReadyConditionType).
Proof.
  unfold statusMatchesDesired. rewrite <- !(conditionStatusMatch_spec what).
  assert (Hm : Forall (.= None) (machineChecks what desired observed) ↔ (0 < pool_Replicas desired ∨ is_Some (pool_AutoScaling desired) →
    conditionStatusMatch what (hs_Conditions observed) NodePoolAllNodesHealthyConditionType = None ∧
    conditionStatusMatch what (hs_Conditions observed) NodePoolAllMachinesReadyConditionType = None)).
  { unfold machineChecks. destruct (Z.ltb_spec 0 (pool_Replicas desired)); simpl.
    - rewrite !Forall_cons, Forall_nil. naive_solver.
    - case_bool_decide; [rewrite !Forall_cons, Forall_nil; naive_solver|]. rewrite Forall_nil. naive_solver lia. }
  rewrite <- Hm, <- (Forall_cons (.= None)), <- omap_id_nil.
  by destruct (omap id (statusReplicasMatch desired (hs_StatusReplicas observed) :: machineChecks what desired observed)).
Qed.

(** Both checks pass on a node pool that is ready, and on no other. *)
Lemma creation_checks_pass what desired observed :
  specMatchesDesired desired observed = None ∧ statusMatchesDesired what desired observed = None ↔ poolReady desired observed.
Proof.
  unfold specMatchesDesired. rewrite firstMismatch_None, !Forall_cons, labelsSpecMatch_spec, taintsSpecMatch_spec,
    replicasSpecMatch_spec, statusMatchesDesired_spec, statusReplicasMatch_spec.
  split.
  - intros ((Hl & Hr & Ht & _) & Hs & Hm). split; try done; intros; simplify_option_eq; naive_solver.
  - intros [Hl Ht Hf Hs Hm]. destruct (pool_AutoScaling desired) as [[min max]|]; naive_solver.
Qed.

Lemma hypershift_succeeded cached desired state :
  hypershiftNodePoolOperationState cached desired = Ok state →
  waitingState (os_ProvisioningState state) ∧
  (os_ProvisioningState state = ProvisioningStateSucceeded ↔ ∃ observed, cached = Ok (Some observed) ∧ poolReady desired observed).
Proof.
  unfold waitingState.
  destruct cached as [[observed|]|]; simpl; [|intros [= <-]; split; [split; [plain_state|done]|naive_solver]|done].
  pose proof (creation_checks_pass creationCondition desired observed) as Hc.
  destruct (specMatchesDesired desired observed), (statusMatchesDesired creationCondition desired observed); intros [= <-];
    (split; [split; [plain_state|done]|]); simpl; naive_solver.
Qed.

(** The state that Cluster Service's status gives. *)
Lemma service_state operation status state :
  op_Request operation ≠ OperationRequestDelete →
  nodePoolServiceCreateOperationState operation status = Ok state →
  ∃ st, status = Ok st ∧ plainState (os_ProvisioningState state) ∧
    (os_ProvisioningState state = ProvisioningStateSucceeded ↔ nps_State st = NodePoolStateReady) ∧
    (os_ProvisioningState state = ProvisioningStateFailed ↔ nps_State st ∈ [NodePoolStateRecoverableError; NodePoolStateError]).
Proof.
  intros Hreq. destruct status as [st|]; [|done]. simpl.
  destruct (ConvertNodePoolStatus operation st) as [[newStatus newError] [e|]] eqn:Ec; [done|]. intros [= <-].
  exists st. split; [done|].
  assert (Heq : ∀ o : option CloudErrorBody, os_ProvisioningState match o with
    | Some e => WithCloudErrorCode (ceb_Code e) (NewOperationState newStatus (NodePoolServiceOperationMessage (Some st) newError))
    | None => NewOperationState newStatus (NodePoolServiceOperationMessage (Some st) newError) end = newStatus).
  { intros [e|]; [by rewrite WithCloudErrorCode_state|done]. }
  rewrite !Heq. destruct (ConvertNodePoolStatus_spec operation st newStatus newError Hreq Ec) as (? & ? & ? & ?). by split_and!.
Qed.

Section creation.
Context {S : Type} `{OperationDB S PoolSpec}.

(** A node pool's creation ends the right way.  When a check cannot be made nothing is
    written and an error is returned.  Otherwise the operation is updated: it becomes
    [Succeeded] exactly when Cluster Service calls the node pool ready and the mirrored
    Hypershift node pool has the labels, taints and replicas or bounds asked for, as many
    replicas as it should, and healthy machines; it becomes [Failed], and with an error,
    exactly when Cluster Service reports an error or the deadline has passed without
    success. *)
Theorem creation_verdict now operation nodePool status cached post (s : S) :
  follows OperationRequestCreate NodePoolResourceType create_shouldReconcile operation nodePool →
  let r := create_SynchronizeOperation now (Ok operation) (Ok nodePool) status cached post s in
  (∃ es, es ≠ [] ∧ r = (s, [], Some (StateFailed es))) ∨
  ∃ st hypershift newStatus newError, status = Ok st ∧ cached = Ok hypershift ∧
    r = tolerateConflict (UpdateOperationStatus now (Some operation) newStatus newError post s) ∧
    let success := nps_State st = NodePoolStateReady ∧ ∃ observed, hypershift = Some observed ∧ poolReady (spec nodePool) observed in
    (newStatus = ProvisioningStateSucceeded ↔ success) ∧
    (newStatus = ProvisioningStateFailed ↔ nps_State st ∈ [NodePoolStateRecoverableError; NodePoolStateError] ∨
      ¬ success ∧ pastDeadline now (pool_CreateOperationCompletionDeadline (spec nodePool)) = true) ∧
    (newStatus = ProvisioningStateFailed ↔ is_Some newError).
Proof.
  intros Hf. destruct (ShouldProcess_request _ _ _ (proj1 Hf)) as [Hreq _].
  assert (Hnd : op_Request operation ≠ OperationRequestDelete) by by rewrite Hreq.
  destruct (followOperation_verdict OperationRequestCreate NodePoolResourceType create_shouldReconcile (createChecks status cached)
    false (λ d, pool_CreateOperationCompletionDeadline (spec d)) creationDeadlineSentence now operation nodePool post s Hf)
    as [(es & e & Hr & He & _)|(Hok & newStatus & newError & Hr & Hs & Hfl & He)].
  - done.
  - apply Forall_cons_2; [|apply Forall_cons_2; [|constructor]]; unfold plainCheck; simpl.
    + intros state Hst. by destruct (service_state _ _ _ Hnd Hst) as (_ & _ & ? & _).
    + intros state. destruct (hypershiftNodePoolOperationState cached (spec nodePool)) as [x|] eqn:Eh; [|done].
      intros [= <-]. by destruct (hypershift_succeeded _ _ _ Eh) as [[? _] _].
  - left. exists es. split; [|exact Hr]. intros ->. by apply not_elem_of_nil in He.
  - right. unfold createChecks in Hok, Hs, Hfl. rewrite !Forall_cons in Hok. destruct Hok as ([x1 H1] & [x2 H2] & _). simpl in H1, H2.
    destruct (service_state _ _ _ Hnd H1) as (st & Hst & _ & Hready & Herror).
    destruct (hypershiftNodePoolOperationState cached (spec nodePool)) as [h|] eqn:Eh; [|done].
    destruct (hypershift_succeeded _ _ _ Eh) as [[_ Hnf] Hpool]. destruct cached as [hypershift|]; [|done].
    rewrite H1 in Hs, Hfl. injection H2 as ->.
    rewrite !Forall_cons, !checkSays_Ok, Hready, Hpool in Hs. rewrite !Exists_cons, !Forall_cons, !checkSays_Ok, Hready, Hpool, Herror in Hfl.
    exists st, hypershift, newStatus, newError. split_and!; [done|done|exact Hr|]. cbv zeta. split_and!; [| |exact He].
    + rewrite Hs. rewrite Forall_nil. naive_solver.
    + rewrite Hfl. rewrite Forall_nil, Exists_nil. naive_solver.
Qed.
End creation.

End nodepools.

(** ** A node pool that has come up *)

Module CreationExample.
Import MemoryDB.

#[export] Instance names : HypershiftNames := {
  NodePoolAllNodesHealthyConditionType := "AllNodesHealthy"; NodePoolAllMachinesReadyConditionType := "AllMachinesReady";
  HostedClusterAvailable := "Available"; HostedClusterDegraded := "Degraded";
  IngressDefaultCertificateSynced := "IngressDefaultCertificateSynced"; CompletedUpdate := "Completed";
}.

Definition desired : PoolSpec := {|
  pool_ClusterServiceID := Some "/api/np"; pool_ClusterServiceDeletionTimestamp := None;
  pool_CreateOperationCompletionDeadline := Some 100; pool_UpdateOperationCompletionDeadline := None;
  pool_VersionID := "4.20.5"; pool_Labels := {["tier" := "web"]}; pool_Replicas := 0; pool_AutoScaling := Some (1, 3);
  pool_Taints := [{| t_Effect := "NoSchedule"; t_Key := "k"; t_Value := "v" |}]; pool_NodeDrainTimeoutMinutes := Some 30 |}.
Definition condition (t status : string) : PoolCondition := {| pc_Type := t; pc_Status := status; pc_Message := "m" |}.
Definition observed (healthy : string) : HypershiftNodePool := {|
  hs_NodeLabels := {["tier" := "web"; "other" := "x"]}; hs_AutoScaling := Some (Some 1, 3); hs_Replicas := None;
  hs_Taints := pool_Taints desired; hs_NodeDrainTimeout := Some 1800000000000; hs_StatusReplicas := 2;
  hs_Conditions := [condition "AllNodesHealthy" healthy; condition "AllMachinesReady" "True"] |}.
Definition pool : PoolDoc := {|
  res_ID := OperationExample.poolID; res_Etag := 7; res_ProvisioningState := "Accepted"; res_ActiveOperationID := "u1";
  res_DeletionTimestamp := None; res_DeleteOperationCompletionTimeout := None;
  res_DeleteOperationCompletionDeadline := None; res_rest := desired |}.
Definition database : dbView PoolSpec := {|
  v_operations := {["u1" := OperationExample.creation]}; v_resources := {["/c/np" := pool]} |}.
Definition status (state : string) : NodePoolStatus := {| nps_State := state; nps_Message := None |}.
Definition pass (now : Z) (state healthy : string) : dbView PoolSpec * list OperationDoc * option syncOpError :=
  create_SynchronizeOperation now (Ok OperationExample.creation) (Ok pool) (Ok (status state)) (Ok (Some (observed healthy)))
    OperationExample.posting database.
Definition statusAfter (r : dbView PoolSpec * list OperationDoc * option syncOpError) : option string :=
  op_Status <$> v_operations r.1.1 !! "u1".

Lemma followed_creation : follows OperationRequestCreate NodePoolResourceType create_shouldReconcile OperationExample.creation pool.
Proof. split_and!; by vm_compute. Qed.

Lemma creation_verdict_witness :
  ∃ newError, pass 50 NodePoolStateReady "True"
    = tolerateConflict (UpdateOperationStatus 50 (Some OperationExample.creation) ProvisioningStateSucceeded newError
        OperationExample.posting database).
Proof.
  destruct (creation_verdict 50 OperationExample.creation pool (Ok (status NodePoolStateReady)) (Ok (Some (observed "True")))
    OperationExample.posting database followed_creation)
    as [(es & _ & Hr)|(st & h & newStatus & newError & Hst & Hh & Hr & Hs & _)].
  - exfalso. apply (f_equal snd) in Hr. by vm_compute in Hr.
  - exists newError. assert (newStatus = ProvisioningStateSucceeded) as <-; [|exact Hr]. apply Hs. injection Hst as <-. injection Hh as <-.
    split; [done|]. exists (observed "True"). split; [done|]. apply (creation_checks_pass creationCondition). split; vm_compute; reflexivity.
Defined.

(** The same pass at other moments: a machine is not healthy yet, Cluster Service is not
    ready yet, the deadline has passed, Cluster Service has failed. *)
Example creation_passes :
  statusAfter (pass 50 NodePoolStateReady "True") = Some "Succeeded" ∧
  statusAfter (pass 50 NodePoolStateReady "False") = Some "Provisioning" ∧
  statusAfter (pass 50 NodePoolStateInstalling "True") = Some "Provisioning" ∧
  statusAfter (pass 101 NodePoolStateReady "False") = Some "Failed" ∧
  statusAfter (pass 101 NodePoolStateReady "True") = Some "Succeeded" ∧
  statusAfter (pass 50 NodePoolStateError "True") = Some "Failed".
Proof. by vm_compute. Qed.
End CreationExample.
