(* ===== verification/NodePoolUpdates.v ===== *)
(** * Updates of node pools

    [backend/pkg/controllers/nodepool/operations/operation_node_pool_update*.go]: the
    controller that follows the update of a node pool to its end.  Beyond what a creation
    checks it waits for the version the customer asked for to be resolved, and compares
    what Cluster Service has with what was asked for, since the mirrored Hypershift node
    pool may have labels and taints of others. *)
From S2P Require Import Prelude GoStrings GoDuration RolloutTypes VersionRules RolloutStatus StatusConditions StatusAggregators.
From S2P Require Import OperationState OperationStore OperationUpdate ServiceStatus OperationControllers OperationSafety NodePoolOperations.

Local Open Scope string_scope.
Local Open Scope Z_scope.
Local Open Scope go_scope.

(** ** What Cluster Service has *)

(** A grace period has a unit, if any, and a value, here as its conversion to [int32]. *)
Record CSNodePool := {
  csnp_Status : NodePoolStatus;
  csnp_Labels : option (gmap string string);
  csnp_Taints : option (list Taint);
  csnp_NodeDrainGracePeriod : option (option string * Z);
}.

Definition csNodeDrainGracePeriodUnit : string := "minutes".

Definition NodePoolUpdateDispatchConfigTaintsFromRP (taints : list Taint) : list Taint := taints.
Definition NodePoolUpdateDispatchConfigLabelsFromCS (csNodePool : CSNodePool) : gmap string string :=
  default ∅ (csnp_Labels csNodePool).
Definition NodePoolUpdateDispatchConfigTaintsFromCS (csNodePool : CSNodePool) : list Taint :=
  default [] (csnp_Taints csNodePool).

Definition NodePoolUpdateDispatchConfigNodeDrainTimeoutFromCS (csNodePool : CSNodePool) : option Z :=
  match csnp_NodeDrainGracePeriod csNodePool with
  | Some (Some unit, value) => if String.eqb unit csNodeDrainGracePeriodUnit then Some value else None
  | _ => None
  end.

Definition NodePoolUpdateDispatchConfigEffectiveNodeDrainTimeoutMinutes (nodePool : PoolSpec) (csNodePool : CSNodePool) : option Z :=
  match pool_NodeDrainTimeoutMinutes nodePool with
  | Some minutes => Some minutes
  | None => NodePoolUpdateDispatchConfigNodeDrainTimeoutFromCS csNodePool
  end.

Definition printTaint (t : Taint) : string := "{" +:+ t_Effect t +:+ " " +:+ t_Key t +:+ " " +:+ t_Value t +:+ "}".
Definition printTaints (ts : list Taint) : string := "[" +:+ Join " " (printTaint <$> ts) +:+ "]".

Definition csLabelsSpecMatch (desired : gmap string string) (csNodePool : CSNodePool) : option string :=
  let observed := NodePoolUpdateDispatchConfigLabelsFromCS csNodePool in
  if bool_decide (desired = observed) then None
  else Some ("Cluster Service node pool labels are " +:+ printMap observed +:+ ", want " +:+ printMap desired).

Definition csTaintsSpecMatch (desired : list Taint) (csNodePool : CSNodePool) : option string :=
  let desiredTaints := NodePoolUpdateDispatchConfigTaintsFromRP desired in
  let observedTaints := NodePoolUpdateDispatchConfigTaintsFromCS csNodePool in
  if bool_decide (desiredTaints = observedTaints) then None
  else Some ("Cluster Service node pool taints are " +:+ printTaints observedTaints +:+ ", want " +:+ printTaints desiredTaints).

Definition csSpecMatchesDesired (nodePool : PoolSpec) (csNodePool : CSNodePool) : option string :=
  firstMismatch [csLabelsSpecMatch (pool_Labels nodePool) csNodePool; csTaintsSpecMatch (pool_Taints nodePool) csNodePool].

(** [Updating] with what is missing, or [Succeeded]. *)
Definition updatingUnless (mismatch : option string) : OperationState :=
  match mismatch with
  | Some message => NewOperationState ProvisioningStateUpdating message
  | None => NewOperationState ProvisioningStateSucceeded EmptyString
  end.

Definition clusterServiceNodePoolSpecOperationState (nodePool : PoolSpec) (csNodePool : CSNodePool) : OperationState :=
  updatingUnless (csSpecMatchesDesired nodePool csNodePool).

Definition clusterServiceNodePoolStatusOperationState (operation : OperationDoc) (status : NodePoolStatus) :
    result stateError OperationState :=
  match ConvertNodePoolStatus operation status with
  | (_, _, Some e) => Err (ConversionFailed e)
  | (newStatus, None, None) => Ok (NewOperationState newStatus (NodePoolServiceOperationMessage (Some status) None))
  | (newStatus, Some opError, None) => Ok (WithCloudErrorCode (ceb_Code opError) (NewOperationState newStatus (ceb_Message opError)))
  end.

(** ** What the management cluster has *)

Section updates.
Context `{HypershiftNames}.

Definition update_labelsSpecMatch := labelsSpecMatch.
Definition update_replicasOrAutoscalingSpecMatch := replicasOrAutoscalingSpecMatch.
Definition update_taintsSpecMatch := taintsSpecMatch.
Definition update_statusReplicasMatch := statusReplicasMatch.
Definition updateCondition : string := "hypershift NodePool condition ".
Definition update_conditionStatusMatch := conditionStatusMatch updateCondition.
Definition update_statusMatchesDesired := statusMatchesDesired updateCondition.

Definition minute : Z := 60 * 1000000000.

(** With no timeout of its own the node pool has the cluster's, which Cluster Service
    tells; the dereference of the effective timeout is then safe. *)
Definition nodeDrainTimeoutSpecMatch (desired : PoolSpec) (csNodePool : CSNodePool) (observed : option Z) : option string :=
  match NodePoolUpdateDispatchConfigEffectiveNodeDrainTimeoutMinutes desired csNodePool with
  | None => Some "Cluster Service node pool node_drain_grace_period is unset, want inherited cluster default"
  | Some effectiveDesiredMinutes =>
      let want := effectiveDesiredMinutes *! minute in
      if bool_decide (observed = Some 0) then
        Some ("unexpected hypershift NodePool nodeDrainTimeout set to an explicit zero duration, want " +:+ DurationString want)
      else if want =? 0 then
        match observed with
        | Some d => Some ("hypershift NodePool nodeDrainTimeout is " +:+ DurationString d +:+ ", want unset")
        | None => None
        end
      else
        match observed with
        | None => Some ("hypershift NodePool nodeDrainTimeout is unset, want " +:+ DurationString want)
        | Some d =>
            if d =? want then None
            else Some ("hypershift NodePool nodeDrainTimeout is " +:+ DurationString d +:+ ", want " +:+ DurationString want)
        end
  end.

Definition update_specMatchesDesired (nodePool : PoolSpec) (csNodePool : CSNodePool) (observed : HypershiftNodePool) : option string :=
  firstMismatch [update_labelsSpecMatch (pool_Labels nodePool) (hs_NodeLabels observed);
                 update_replicasOrAutoscalingSpecMatch nodePool observed;
                 update_taintsSpecMatch (pool_Taints nodePool) (hs_Taints observed);
                 nodeDrainTimeoutSpecMatch nodePool csNodePool (hs_NodeDrainTimeout observed)].

Definition update_hypershiftNodePoolOperationState (cached : result string (option HypershiftNodePool)) (nodePool : PoolSpec)
    (csNodePool : CSNodePool) : result stateError OperationState :=
  match cached with
  | Err e => Err (CheckFailed e)
  | Ok None => Ok (NewOperationState ProvisioningStateUpdating "Hypershift NodePool has not been observed yet")
  | Ok (Some observed) =>
      match update_specMatchesDesired nodePool csNodePool observed with
      | Some message => Ok (NewOperationState ProvisioningStateUpdating message)
      | None => Ok (updatingUnless (update_statusMatchesDesired nodePool observed))
      end
  end.

(** ** The version *)

Definition CloudErrorCodeInvalidRequestContent : string := "InvalidRequestContent".
Definition ControllerConditionTypeIntentFailed : string := "IntentFailed".
Definition VersionUpgradeNotAcceptedReason : string := "VersionUpgradeNotAccepted".
Definition versionMismatchTimeout : Z := 129 * 1000000000.

Definition errorOfGet (e : getError) : stateError :=
  CheckFailed (match e with GetNotFound => "not found" | GetFailed e => e end).

Section update.
Context {V C S : Type} `{Semver V} `{LRU C} `{ConditionOps} `{OperationDB S PoolSpec}.

(** [operationID] is the resource ID of the operation; [desired] the version of the
    service provider's document; [controller] the conditions of the document of the
    version controller, read only when the versions differ.  The cache says when this
    process first saw them differ. *)
Definition desiredVersionResolutionOperationState (now : Z) (operationID : string) (nodePool : PoolSpec) (desired : option V)
    (controller : result getError (list StatusCondition)) (cache : C) :
    result version_panic (result stateError OperationState * C) :=
  match desired with
  | None => Ok (Err (CheckFailed "service provider node pool has no desired version"), cache)
  | Some resulting =>
      match semver_Parse (pool_VersionID nodePool) with
      | None => Err (MustFailed (pool_VersionID nodePool))
      | Some customer =>
          let id := ToLower operationID in
          if EQ customer resulting then Ok (Ok (NewOperationState ProvisioningStateSucceeded EmptyString), lru_Remove cache id)
          else match controller with
          | Err e => Ok (Err (errorOfGet e), cache)
          | Ok conditions =>
              match FindStatusCondition conditions ControllerConditionTypeIntentFailed with
              | None => Ok (Ok (NewOperationState ProvisioningStateAccepted "customer desired version not yet calculated"), cache)
              | Some c =>
                  if negb (String.eqb (sc_Status c) ConditionTrue) || negb (String.eqb (sc_Reason c) VersionUpgradeNotAcceptedReason) then
                    let pending := NewOperationState ProvisioningStateAccepted
                      "customer desired version does not match resolved desired version" in
                    match lru_Get cache id with
                    | (None, cache) => Ok (Ok pending, lru_Add cache id now)
                    | (Some firstSeen, cache) =>
                        if now - firstSeen <=? versionMismatchTimeout then Ok (Ok pending, cache)
                        else Ok (Ok (NewFailedOperationState CloudErrorCodeInvalidRequestContent
                               ("timed out after 129s waiting for resolution of desired version from '" +:+ pool_VersionID nodePool
                                +:+ "' node pool version") None), lru_Remove cache id)
                    end
                  else Ok (Ok (NewFailedOperationState CloudErrorCodeInvalidRequestContent (sc_Message c) None), lru_Remove cache id)
              end
          end
      end
  end.

(** ** The controller *)

Definition updateChecks (version : result stateError OperationState) (csNodePool : CSNodePool)
    (cached : result string (option HypershiftNodePool)) (operation : OperationDoc) (nodePool : PoolDoc) :
    list (string * result stateError OperationState) :=
  [("nodePoolDesiredVersionResolution", version);
   ("clusterServiceNodePoolStatus", clusterServiceNodePoolStatusOperationState operation (csnp_Status csNodePool));
   ("clusterServiceNodePoolSpec", Ok (clusterServiceNodePoolSpecOperationState (spec nodePool) csNodePool));
   ("hypershiftNodePool", update_hypershiftNodePoolOperationState cached (spec nodePool) csNodePool)].

(** What the controller reads besides the operation and the node pool. *)
Record updateReads := {
  ur_operationID : string;
  ur_csNodePool : result string CSNodePool;
  ur_desiredVersion : result getError (option V);
  ur_controller : result getError (list StatusCondition);
  ur_cached : result string (option HypershiftNodePool);
}.

Definition update_determineOperationState (now : Z) (reads : updateReads) (operation : OperationDoc) (nodePool : PoolDoc) (cache : C) :
    result version_panic (result (list stateError) OperationState * C) :=
  match ur_csNodePool reads with
  | Err e => Ok (Err [CheckFailed e], cache)
  | Ok csNodePool =>
      match ur_desiredVersion reads with
      | Err e => Ok (Err [errorOfGet e], cache)
      | Ok desired =>
          let* (version, cache) :=
            desiredVersionResolutionOperationState now (ur_operationID reads) (spec nodePool) desired (ur_controller reads) cache in
          Ok (pickState (updateChecks version csNodePool (ur_cached reads) operation nodePool), cache)
      end
  end.

Definition update_shouldReconcile (nodePool : PoolDoc) : bool :=
  negb (bool_decide (is_Some (res_DeletionTimestamp nodePool)))
  && bool_decide (is_Some (pool_ClusterServiceID (spec nodePool))).

Definition updateDeadlineSentence : string := "node pool update did not complete before the deadline".

Definition update_ShouldProcess : OperationDoc → bool := ShouldProcess OperationRequestUpdate NodePoolResourceType.

Definition update_SynchronizeOperation (now : Z) (operation : result getError OperationDoc) (nodePool : result getError PoolDoc)
    (reads : updateReads) (post : option (OperationDoc → bool)) (s : S) (cache : C) :
    result version_panic (S * list OperationDoc * option syncOpError * C) :=
  match operationToFollow OperationRequestUpdate NodePoolResourceType update_shouldReconcile operation nodePool with
  | Err e => Ok (s, [], Some e, cache)
  | Ok None => Ok (s, [], None, cache)
  | Ok (Some (operation, nodePool)) =>
      let* (determined, cache) := update_determineOperationState now reads operation nodePool cache in
      Ok (conclude now operation
            (completionOutcome false now (pool_UpdateOperationCompletionDeadline (spec nodePool)) updateDeadlineSentence)
            determined post s, cache)
  end.
End update.

(** ** Facts *)

(** Cluster Service has the labels and taints asked for. *)
Lemma csSpecMatchesDesired_spec nodePool csNodePool :
  csSpecMatchesDesired nodePool csNodePool = None ↔
  default ∅ (csnp_Labels csNodePool) = pool_Labels nodePool ∧ default [] (csnp_Taints csNodePool) = pool_Taints nodePool.
Proof.
  unfold csSpecMatchesDesired. rewrite firstMismatch_None, !Forall_cons. unfold csLabelsSpecMatch, csTaintsSpecMatch.
  do 2 case_bool_decide; naive_solver.
Qed.

(** The drain timeout is the effective one, and unset when that is zero. *)
Definition drainReady (desired : PoolSpec) (csNodePool : CSNodePool) (observed : option Z) : Prop :=
  ∃ minutes, NodePoolUpdateDispatchConfigEffectiveNodeDrainTimeoutMinutes desired csNodePool = Some minutes ∧
    observed = if minutes *! minute =? 0 then None else Some (minutes *! minute).

Lemma nodeDrainTimeoutSpecMatch_spec desired csNodePool observed :
  nodeDrainTimeoutSpecMatch desired csNodePool observed = None ↔ drainReady desired csNodePool observed.
Proof.
  unfold nodeDrainTimeoutSpecMatch, drainReady.
  destruct (NodePoolUpdateDispatchConfigEffectiveNodeDrainTimeoutMinutes desired csNodePool) as [minutes|]; [|naive_solver].
  set (want := minutes *! minute). transitivity (observed = if want =? 0 then None else Some want); [|naive_solver].
  case_bool_decide as Hz; [subst observed; destruct (Z.eqb_spec want 0); naive_solver|].
  destruct (Z.eqb_spec want 0), observed as [d|]; [naive_solver..| |naive_solver].
  destruct (Z.eqb_spec d want); naive_solver.
Qed.

(** What an updated node pool has in the management cluster. *)
Lemma update_hypershift_succeeded cached nodePool csNodePool state :
  update_hypershiftNodePoolOperationState cached nodePool csNodePool = Ok state →
  ∃ hypershift, cached = Ok hypershift ∧ waitingState (os_ProvisioningState state) ∧
  (os_ProvisioningState state = ProvisioningStateSucceeded ↔
    ∃ observed, hypershift = Some observed ∧ poolReady nodePool observed ∧ drainReady nodePool csNodePool (hs_NodeDrainTimeout observed)).
Proof.
  unfold waitingState. destruct cached as [[observed|]|]; simpl; [|intros [= <-]|done].
  2: { exists None. split; [done|]. split; [split; [plain_state|done]|naive_solver]. }
  intros Hs. exists (Some observed). split; [done|].
  assert (Hc : update_specMatchesDesired nodePool csNodePool observed = None ∧ update_statusMatchesDesired nodePool observed = None ↔
    poolReady nodePool observed ∧ drainReady nodePool csNodePool (hs_NodeDrainTimeout observed)).
  { rewrite <- (creation_checks_pass updateCondition), <- nodeDrainTimeoutSpecMatch_spec.
    unfold update_specMatchesDesired, specMatchesDesired. rewrite !firstMismatch_None, !Forall_cons, !Forall_nil.
    unfold update_statusMatchesDesired, update_labelsSpecMatch, update_replicasOrAutoscalingSpecMatch, update_taintsSpecMatch. tauto. }
  destruct (update_specMatchesDesired nodePool csNodePool observed), (update_statusMatchesDesired nodePool observed);
    injection Hs as <-; (split; [split; [plain_state|done]|]); simpl; naive_solver.
Qed.

Lemma update_service_state operation status state :
  op_Request operation ≠ OperationRequestDelete →
  clusterServiceNodePoolStatusOperationState operation status = Ok state →
  plainState (os_ProvisioningState state) ∧
  (os_ProvisioningState state = ProvisioningStateSucceeded ↔ nps_State status = NodePoolStateReady) ∧
  (os_ProvisioningState state = ProvisioningStateFailed ↔ nps_State status ∈ [NodePoolStateRecoverableError; NodePoolStateError]).
Proof.
  intros Hreq. unfold clusterServiceNodePoolStatusOperationState.
  destruct (ConvertNodePoolStatus operation status) as [[newStatus newError] [e|]] eqn:Ec; [by destruct newError|].
  intros Hs.
  assert (os_ProvisioningState state = newStatus) as ->.
  { destruct newError; injection Hs as <-; [by rewrite WithCloudErrorCode_state|done]. }
  destruct (ConvertNodePoolStatus_spec operation status newStatus newError Hreq Ec) as (? & ? & ? & ?). by split_and!.
Qed.

Lemma csSpec_state nodePool csNodePool :
  let state := os_ProvisioningState (clusterServiceNodePoolSpecOperationState nodePool csNodePool) in
  waitingState state ∧ (state = ProvisioningStateSucceeded ↔
    default ∅ (csnp_Labels csNodePool) = pool_Labels nodePool ∧ default [] (csnp_Taints csNodePool) = pool_Taints nodePool).
Proof.
  unfold clusterServiceNodePoolSpecOperationState. rewrite <- csSpecMatchesDesired_spec.
  destruct (csSpecMatchesDesired _ _); simpl; (split; [split; [plain_state|done]|naive_solver]).
Qed.

Section facts.
Context {V C S : Type} `{Semver V} `{LRU C} `{ConditionOps} `{OperationDB S PoolSpec}.

(** The version controller has refused the version, or none has been resolved for too
    long since this process first saw the versions differ. *)
Definition versionFails (now : Z) (operationID : string) (customer resulting : V) (conditions : list StatusCondition) (cache : C) : Prop :=
  EQ customer resulting = false ∧
  ∃ c, FindStatusCondition conditions ControllerConditionTypeIntentFailed = Some c ∧
    (sc_Status c = ConditionTrue ∧ sc_Reason c = VersionUpgradeNotAcceptedReason ∨
     ∃ firstSeen, (lru_Get cache (ToLower operationID)).1 = Some firstSeen ∧ versionMismatchTimeout < now - firstSeen).

(** A version that parses does not panic. *)
Lemma version_state now operationID nodePool desired controller (cache : C) (customer : V) :
  semver_Parse (pool_VersionID nodePool) = Some customer →
  ∃ r cache', desiredVersionResolutionOperationState now operationID nodePool desired controller cache = Ok (r, cache') ∧
    ∀ state, r = Ok state → ∃ resulting, desired = Some resulting ∧ plainState (os_ProvisioningState state) ∧
      (os_ProvisioningState state = ProvisioningStateSucceeded ↔ EQ customer resulting = true) ∧
      (os_ProvisioningState state = ProvisioningStateFailed ↔
        ∃ conditions, controller = Ok conditions ∧ versionFails now operationID customer resulting conditions cache).
Proof.
  intros Hparse. unfold desiredVersionResolutionOperationState, versionFails.
  destruct desired as [resulting|]; [|eexists _, _; split; [done|by intros ? [=]]]. rewrite Hparse.
  destruct (EQ customer resulting) eqn:Eq.
  { eexists _, _. split; [done|]. intros state [= <-]. exists resulting.
    split_and!; [done|plain_state|done|]. split; [done|]. intros (? & _ & ? & _). congruence. }
  destruct controller as [conditions|e]; [|eexists _, _; split; [done|by intros ? [=]]].
  assert (Hverdict : ∀ state, plainState (os_ProvisioningState state) → os_ProvisioningState state ≠ ProvisioningStateSucceeded →
    (os_ProvisioningState state = ProvisioningStateFailed ↔ versionFails now operationID customer resulting conditions cache) →
    ∃ resulting', Some resulting = Some resulting' ∧ plainState (os_ProvisioningState state) ∧
      (os_ProvisioningState state = ProvisioningStateSucceeded ↔ EQ customer resulting' = true) ∧
      (os_ProvisioningState state = ProvisioningStateFailed ↔
        ∃ conditions', Ok (E := getError) conditions = Ok conditions' ∧ versionFails now operationID customer resulting' conditions' cache)).
  { intros state Hp Hns Hf. exists resulting. rewrite Eq. split_and!; [done|done|done|]. rewrite Hf. naive_solver. }
  unfold versionFails in Hverdict. rewrite Eq in Hverdict.
  destruct (FindStatusCondition conditions ControllerConditionTypeIntentFailed) as [c|] eqn:Ef.
  2: { eexists _, _. split; [done|]. intros state [= <-]. apply Hverdict; [plain_state|done|]. naive_solver. }
  destruct (String.eqb_spec (sc_Status c) ConditionTrue) as [Ht|Ht]; simpl.
  1: destruct (String.eqb_spec (sc_Reason c) VersionUpgradeNotAcceptedReason) as [Hr|Hr]; simpl.
  1: { eexists _, _. split; [done|]. intros state [= <-]. apply Hverdict; [plain_state|done|]. naive_solver. }
  all: destruct (lru_Get cache (ToLower operationID)) as [[firstSeen|] cache'].
  all: try (destruct (Z.leb_spec (now - firstSeen) versionMismatchTimeout)).
  all: eexists _, _; (split; [done|]); intros state [= <-]; apply Hverdict; [plain_state|done|]; naive_solver lia.
Qed.

(** What an update waits for. *)
Definition updateDone (customer resulting : V) (nodePool : PoolSpec) (csNodePool : CSNodePool) (hypershift : option HypershiftNodePool) : Prop :=
  EQ customer resulting = true ∧ nps_State (csnp_Status csNodePool) = NodePoolStateReady ∧
  default ∅ (csnp_Labels csNodePool) = pool_Labels nodePool ∧ default [] (csnp_Taints csNodePool) = pool_Taints nodePool ∧
  ∃ observed, hypershift = Some observed ∧ poolReady nodePool observed ∧ drainReady nodePool csNodePool (hs_NodeDrainTimeout observed).

(** What keeps a pass from a decision: Cluster Service, the service provider's document or
    the mirror cannot be read, the service provider has no version yet, the version
    controller's document is needed and cannot be read (or is not there), or Cluster
    Service answers what cannot be told. *)
Definition updateUnreadable (reads : updateReads (V := V)) (operation : OperationDoc) (customer : V) : Prop :=
  (∃ e, ur_csNodePool reads = Err e) ∨
  (∃ csNodePool, ur_csNodePool reads = Ok csNodePool ∧
     ((∃ e, ur_desiredVersion reads = Err e) ∨
      ∃ desired, ur_desiredVersion reads = Ok desired ∧
        (desired = None ∨
         (∃ resulting e, desired = Some resulting ∧ EQ customer resulting = false ∧ ur_controller reads = Err e) ∨
         nodePoolUnconvertible operation (csnp_Status csNodePool) ∨
         ∃ e, ur_cached reads = Err e))).

Lemma version_error now operationID nodePool desired controller (cache : C) (customer : V) r cache' :
  semver_Parse (pool_VersionID nodePool) = Some customer →
  desiredVersionResolutionOperationState now operationID nodePool desired controller cache = Ok (r, cache') →
  isError r ↔ desired = None ∨
    ∃ resulting e, desired = Some resulting ∧ EQ customer resulting = false ∧ controller = Err e.
Proof.
  intros Hparse. unfold desiredVersionResolutionOperationState, isError.
  destruct desired as [resulting|]; [|intros [= <- _]; naive_solver]. rewrite Hparse.
  destruct (EQ customer resulting) eqn:Eq; [intros [= <- _]; naive_solver congruence|].
  destruct controller as [conditions|e]; [|intros [= <- _]; naive_solver].
  assert (Hno : ∀ state : OperationState, (∃ e, Ok (E := stateError) state = Err e) ↔ Some resulting = None ∨
    ∃ resulting' e, Some resulting = Some resulting' ∧ EQ customer resulting' = false ∧ Ok (E := getError) conditions = Err e)
    by naive_solver.
  destruct (FindStatusCondition conditions ControllerConditionTypeIntentFailed) as [c|]; [|intros [= <- _]; apply Hno].
  destruct (negb _ || negb _); [|intros [= <- _]; apply Hno].
  destruct (lru_Get cache (ToLower operationID)) as [[firstSeen|] ?]; [destruct (now - firstSeen <=? versionMismatchTimeout)|];
    intros [= <- _]; apply Hno.
Qed.

Lemma update_service_error operation status :
  isError (clusterServiceNodePoolStatusOperationState operation status) ↔ nodePoolUnconvertible operation status.
Proof.
  rewrite <- ConvertNodePoolStatus_error. unfold isError, clusterServiceNodePoolStatusOperationState.
  destruct (ConvertNodePoolStatus operation status) as [[newStatus [opError|]] [e|]]; simpl; split; eauto; by intros [? [=]].
Qed.

Lemma update_hypershift_error cached nodePool csNodePool :
  isError (update_hypershiftNodePoolOperationState cached nodePool csNodePool) ↔ ∃ e, cached = Err e.
Proof.
  unfold isError, update_hypershiftNodePoolOperationState. destruct cached as [[observed|]|e]; [|naive_solver..].
  destruct (update_specMatchesDesired nodePool csNodePool observed); naive_solver.
Qed.

(** (C17) A node pool's update ends the right way, with a version that parses.  When
    something cannot be read, and only then, nothing is written and an error is returned.
    Otherwise the operation becomes [Succeeded] exactly when the resolved version is the one asked for,
    Cluster Service calls the node pool ready and has exactly the labels and taints asked
    for, and the mirrored Hypershift node pool has them too, with the replicas, healthy
    machines and the effective drain timeout.  It becomes [Failed], and with an error,
    exactly when Cluster Service reports an error, the version was refused or not
    resolved in 129 seconds, or the deadline has passed without success. *)
Theorem update_verdict now operation nodePool (reads : updateReads) post (s : S) (cache : C) (customer : V) :
  follows OperationRequestUpdate NodePoolResourceType update_shouldReconcile operation nodePool →
  semver_Parse (pool_VersionID (spec nodePool)) = Some customer →
  ∃ r cache', update_SynchronizeOperation now (Ok operation) (Ok nodePool) reads post s cache = Ok (r, cache') ∧
  (updateUnreadable reads operation customer ∧ (∃ es, es ≠ [] ∧ r = (s, [], Some (StateFailed es))) ∨
   ¬ updateUnreadable reads operation customer ∧
   ∃ csNodePool resulting hypershift newStatus newError,
    ur_csNodePool reads = Ok csNodePool ∧ ur_desiredVersion reads = Ok (Some resulting) ∧ ur_cached reads = Ok hypershift ∧
    r = tolerateConflict (UpdateOperationStatus now (Some operation) newStatus newError post s) ∧
    let success := updateDone customer resulting (spec nodePool) csNodePool hypershift in
    (newStatus = ProvisioningStateSucceeded ↔ success) ∧
    (newStatus = ProvisioningStateFailed ↔
      nps_State (csnp_Status csNodePool) ∈ [NodePoolStateRecoverableError; NodePoolStateError] ∨
      (∃ conditions, ur_controller reads = Ok conditions ∧
        versionFails now (ur_operationID reads) customer resulting conditions cache) ∨
      ¬ success ∧ pastDeadline now (pool_UpdateOperationCompletionDeadline (spec nodePool)) = true) ∧
    (newStatus = ProvisioningStateFailed ↔ is_Some newError)).
Proof.
  intros Hf Hparse. destruct (ShouldProcess_request _ _ _ (proj1 Hf)) as [Hreq _].
  assert (Hnd : op_Request operation ≠ OperationRequestDelete) by by rewrite Hreq.
  unfold update_SynchronizeOperation. rewrite (operationToFollow_follows _ _ _ _ _ Hf). unfold update_determineOperationState.
  unfold updateUnreadable.
  destruct (ur_csNodePool reads) as [csNodePool|e]; [|eexists _, _; split; [done|]; left; split; [eauto|by eexists [_]]].
  destruct (ur_desiredVersion reads) as [desired|e]; [|eexists _, _; split; [done|]; left; split; [naive_solver|by eexists [_]]].
  destruct (version_state now (ur_operationID reads) (spec nodePool) desired (ur_controller reads) cache customer Hparse)
    as (version & cache' & Ev & Hversion). rewrite Ev. simpl.
  eexists _, cache'. split; [done|].
  set (checks := updateChecks version csNodePool (ur_cached reads) operation nodePool).
  assert (Hun : Exists (λ check, isError check.2) checks ↔ desired = None ∨
    (∃ resulting e, desired = Some resulting ∧ EQ customer resulting = false ∧ ur_controller reads = Err e) ∨
    nodePoolUnconvertible operation (csnp_Status csNodePool) ∨ ∃ e, ur_cached reads = Err e).
  { unfold checks, updateChecks. rewrite !Exists_cons, Exists_nil. cbn [snd].
    rewrite (version_error _ _ _ _ _ _ _ _ _ Hparse Ev), update_service_error, update_hypershift_error, isError_Ok. clear. tauto. }
  destruct (conclude_verdict checks false (pool_UpdateOperationCompletionDeadline (spec nodePool)) updateDeadlineSentence
    now operation post s) as [(es & e & Hr & He & Hex)|(Hok & newStatus & newError & Hr & Hs & Hfl & He)].
  - done.
  - repeat apply Forall_cons_2; unfold plainCheck; simpl; [| | | |constructor].
    + intros state Hst. by destruct (Hversion _ Hst) as (_ & _ & ? & _).
    + intros state Hst. by destruct (update_service_state _ _ _ Hnd Hst).
    + intros state [= <-]. by destruct (csSpec_state (spec nodePool) csNodePool) as [[? _] _].
    + intros state Hst. by destruct (update_hypershift_succeeded _ _ _ _ Hst) as (_ & _ & [? _] & _).
  - left. apply Exists_error, Hun in Hex. split; [right; exists csNodePool; eauto|].
    exists es. split; [|exact Hr]. intros ->. by apply not_elem_of_nil in He.
  - right. pose proof (Forall_no_error _ Hok) as Hno. rewrite Hun in Hno.
    split; [intros [[? [=]]|(? & [= <-] & [[? [=]]|(? & [= <-] & Hx)])]; by apply Hno|].
    unfold checks, updateChecks in Hok, Hs, Hfl. rewrite !Forall_cons in Hok.
    destruct Hok as ([x1 H1'] & [x2 H2'] & _ & [x4 H4'] & _). simpl in H1', H2', H4'.
    destruct (Hversion _ H1') as (resulting & -> & _ & Hv & Hvf). destruct (update_service_state _ _ _ Hnd H2') as (_ & Hready & Herror).
    destruct (update_hypershift_succeeded _ _ _ _ H4') as (hypershift & Hc & [_ Hnf] & Hpool).
    destruct (csSpec_state (spec nodePool) csNodePool) as [[_ Hnf'] Hcs].
    rewrite H1', H2', H4', !Forall_cons, !checkSays_Ok, Hv, Hready, Hcs, Hpool in Hs.
    rewrite H1', H2', H4', !Exists_cons, !Forall_cons, !checkSays_Ok, Hv, Hready, Hcs, Hpool, Hvf, Herror in Hfl.
    exists csNodePool, resulting, hypershift, newStatus, newError. cbv zeta. unfold updateDone.
    split; [done|]. split; [done|]. split; [exact Hc|]. split; [exact Hr|]. split; [|split; [|exact He]].
    + rewrite Hs, Forall_nil. tauto.
    + rewrite Hfl, Forall_nil, Exists_nil. tauto.
Qed.
End facts.

End updates.

(** ** An update of a node pool *)

Module UpdateExample.
#[local] Existing Instance CreationExample.names.
Import MemoryDB StatusInstances.
#[local] Existing Instance Release.semver.

Definition update : OperationDoc := withOperationEtag 5 (NewOperation "u1" 10 OperationRequestUpdate OperationExample.poolID EmptyString).
Definition csNodePool : CSNodePool := {|
  csnp_Status := CreationExample.status NodePoolStateReady; csnp_Labels := Some {["tier" := "web"]};
  csnp_Taints := Some (pool_Taints CreationExample.desired); csnp_NodeDrainGracePeriod := None |}.
Definition database : dbView PoolSpec := {|
  v_operations := {["u1" := update]}; v_resources := {["/c/np" := CreationExample.pool]} |}.
Definition intentFailed (status : string) : StatusCondition := {|
  sc_Type := "IntentFailed"; sc_Status := status; sc_Reason := "VersionUpgradeNotAccepted"; sc_Message := "no path";
  sc_LastTransitionTime := 0 |}.
Definition reads (desired failed : string) : updateReads (V := Release.t) := {|
  ur_operationID := "/Operations/U1"; ur_csNodePool := Ok csNodePool; ur_desiredVersion := Ok (Release.parse desired);
  ur_controller := Ok [intentFailed failed]; ur_cached := Ok (Some (CreationExample.observed "True")) |}.
Definition customer : Release.t := default (exist _ (0, 0, 0) eq_refl) (Release.make 4 20 5).
Definition pass (now : Z) (desired failed : string) (cache : gmap string Z) :=
  update_SynchronizeOperation now (Ok update) (Ok CreationExample.pool) (reads desired failed) None database cache.
Definition statusAfter (now : Z) (desired failed : string) (cache : gmap string Z) : option string :=
  match pass now desired failed cache with Ok (r, _) => op_Status <$> v_operations r.1.1 !! "u1" | Err _ => None end.

Lemma followed_update : follows OperationRequestUpdate NodePoolResourceType update_shouldReconcile update CreationExample.pool.
Proof. split_and!; by vm_compute. Qed.

Lemma parsed : semver_Parse (pool_VersionID (spec CreationExample.pool)) = Some customer.
Proof. apply (bool_decide_unpack _). vm_compute. exact I. Qed.

Lemma update_verdict_witness :
  ∃ newError cache', pass 50 "4.20.5" "False" ∅
    = Ok (tolerateConflict (UpdateOperationStatus 50 (Some update) ProvisioningStateSucceeded newError None database), cache').
Proof.
  destruct (update_verdict 50 update CreationExample.pool (reads "4.20.5" "False") None database (∅ : gmap string Z) customer followed_update parsed)
    as (r & cache' & Hp & [(_ & es & _ & ->)|(_ & cs & resulting & h & newStatus & newError & Hcs & Hres & Hh & -> & Hs & _)]).
  - exfalso. assert (Hfail : match pass 50 "4.20.5" "False" ∅ with Ok (_, _, Some _, _) => true | _ => false end = false)
      by (vm_compute; reflexivity). change (pass 50 "4.20.5" "False" ∅ = Ok (database, [], Some (StateFailed es), cache')) in Hp.
    rewrite Hp in Hfail. discriminate.
  - exists newError, cache'. assert (newStatus = ProvisioningStateSucceeded) as <-; [|exact Hp]. apply Hs.
    injection Hcs as <-. injection Hh as <-. injection Hres as Hres.
    assert (resulting = customer) as -> by (apply (inj Some); rewrite <- Hres; apply parsed).
    split_and!; [vm_compute; reflexivity..|]. exists (CreationExample.observed "True"). split_and!; [done| |].
    + apply (creation_checks_pass updateCondition). split; vm_compute; reflexivity.
    + exists 30. split; vm_compute; reflexivity.
Defined.

(** The same update in other circumstances: the version is not resolved yet, it has not
    been for more than 129 seconds, it is refused, the deadline has passed. *)
Example update_passes :
  statusAfter 50 "4.20.5" "False" ∅ = Some "Succeeded" ∧
  statusAfter 50 "4.20.4" "False" ∅ = Some "Accepted" ∧
  statusAfter (130 * 1000000000) "4.20.4" "False" {["/operations/u1" := 1000000000]} = Some "Accepted" ∧
  statusAfter (130 * 1000000000) "4.20.4" "False" {["/operations/u1" := 999999999]} = Some "Failed" ∧
  statusAfter 50 "4.20.4" "True" ∅ = Some "Failed".
Proof. split_and!; vm_compute; reflexivity. Qed.
End UpdateExample.
