(* ===== verification/ClusterOperations.v ===== *)
(** * The creation of a cluster

    [backend/pkg/controllers/cluster/operations/operation_cluster_create.go] and
    [operation_cluster_validation.go]: nine checks decide how the creation of a cluster
    ends.  The decoding of cached content is an argument, and a pass sees one answer of
    each lister, except for the cluster, which is read twice. *)
From S2P Require Import Prelude GoStrings GoDuration RolloutTypes RolloutStatus StatusConditions StatusAggregators ExternalAuthStatus.
From S2P Require Import OperationState OperationStore OperationUpdate ServiceStatus OperationControllers OperationSafety NodePoolOperations.

Local Open Scope string_scope.
Local Open Scope Z_scope.

(** ** Documents *)

Record ClusterSpec := {
  cluster_ClusterServiceID : option string;
  cluster_CreateOperationCompletionDeadline : option Z;
  cluster_APIURL : string;
}.

Definition ClusterDoc : Type := ResourceDoc ClusterSpec.

(** What is used of a [ServiceProviderCluster].  A certificate may be missing, and may
    have no reference yet. *)
Record ServiceProviderCluster := {
  spc_Validations : list StatusCondition;
  spc_ValidationProbeTimes : gmap string Z;
  spc_ManagementClusterResourceID : option string;
  spc_PlacementConditions : option (list StatusCondition);
  spc_ServingCABundle : string;
  spc_RoleAssignments : list string;
  spc_PendingRoleAssignments : list string;
  spc_KubeAPIServerCertificate : option (option string);
  spc_IngressCertificate : option (option string);
}.

Record ControlPlaneUpdateHistory := { hist_State : string; hist_Version : string; hist_StartedTime : Z }.

(** What is used of the status of a [HostedCluster]. *)
Record HostedClusterStatus := {
  hcs_History : list ControlPlaneUpdateHistory;
  hcs_Conditions : list StatusCondition;
  hcs_EndpointHost : string;
  hcs_EndpointPort : Z;
}.

Definition succeeded : OperationState := NewOperationState ProvisioningStateSucceeded EmptyString.
Definition provisioning (message : string) : OperationState := NewOperationState ProvisioningStateProvisioning message.

Definition CloudErrorCodeInvalidResource : string := "InvalidResource".
Definition CloudErrorCodeCapacityHeavyUse : string := "AROHCPCapacityHeavyUse".
Definition CapacityAvailableConditionType : string := "CapacityAvailable".

(** ** Validations *)

Definition clusterValidationFailureTimeout : Z := 10 * 60 * 1000000000.
Definition ValidationProbeFreshnessWindow : Z := 8 * 60 * 1000000000.

Definition withState (state : string) (s : OperationState) : OperationState := {|
  os_Source := os_Source s; os_ProvisioningState := state; os_Message := os_Message s;
  os_CloudErrorCode := os_CloudErrorCode s; os_Error := os_Error s |}.
Definition withStateMessage (message : string) (s : OperationState) : OperationState := {|
  os_Source := os_Source s; os_ProvisioningState := os_ProvisioningState s; os_Message := message;
  os_CloudErrorCode := os_CloudErrorCode s; os_Error := os_Error s |}.

Definition validationMessage (validation : StatusCondition) : string :=
  let message := sc_Type validation +:+ ": " +:+ sc_Reason validation in
  if String.eqb (sc_Message validation) EmptyString then message else message +:+ ": " +:+ sc_Message validation.

(** Whether the last conclusive run of the validation is fresh; without one its age alone
    counts. *)
Definition probeIsFresh (spc : ServiceProviderCluster) (now : Z) (validation : StatusCondition) : bool :=
  match spc_ValidationProbeTimes spc !! sc_Type validation with
  | None => true
  | Some probeTime => negb (probeTime =? 0) && (now - probeTime <=? ValidationProbeFreshnessWindow)
  end.

Definition oldEnough (now since : Z) : bool := negb (since =? 0) && (clusterValidationFailureTimeout <=? now - since).

(** The body of the loop: the state so far and the messages. *)
Definition validationStep (spc : ServiceProviderCluster) (operationStartTime now : Z)
    (acc : OperationState * list string) (validation : StatusCondition) : OperationState * list string :=
  let '(state, messages) := acc in
  if String.eqb (sc_Status validation) ConditionTrue then acc
  else
    let state := if String.eqb (os_ProvisioningState state) ProvisioningStateSucceeded then provisioning EmptyString else state in
    let state := WithCloudErrorCode CloudErrorCodeInvalidResource state in
    let failureOldEnough := oldEnough now operationStartTime && oldEnough now (sc_LastTransitionTime validation) in
    (if failureOldEnough && probeIsFresh spc now validation then withState ProvisioningStateFailed state else state,
     (messages ++ [validationMessage validation])%list).

Definition clusterValidationOperationState (spc : ServiceProviderCluster) (operationStartTime now : Z) : OperationState :=
  let '(state, messages) := fold_left (validationStep spc operationStartTime now) (spc_Validations spc) (succeeded, []) in
  let state := withStateMessage (Join "; " (sort_by string_less messages)) state in
  if String.eqb (os_ProvisioningState state) ProvisioningStateFailed then
    NewFailedOperationState (os_CloudErrorCode state) (os_Message state)
      (Some (CloudError (os_CloudErrorCode state) (os_Message state) EmptyString []))
  else state.

(** What the listers answer about the service provider's document. *)
Definition withSPC (spc : result getError ServiceProviderCluster) (k : ServiceProviderCluster → OperationState) :
    result stateError OperationState :=
  match spc with
  | Err GetNotFound => Ok (provisioning "ServiceProviderCluster not cached yet")
  | Err (GetFailed e) => Err (CheckFailed e)
  | Ok spc => Ok (k spc)
  end.

Definition clusterValidation (now : Z) (spc : result getError ServiceProviderCluster) (operation : OperationDoc) :
    result stateError OperationState :=
  match spc with
  | Err GetNotFound => Ok (NewOperationState ProvisioningStateAccepted "ServiceProviderCluster not cached yet")
  | Err (GetFailed e) => Err (CheckFailed e)
  | Ok spc => Ok (clusterValidationOperationState spc (op_StartTime operation) now)
  end.

(** ** The other checks *)

Definition clusterServiceCreateOperationState (operation : OperationDoc) (cluster : ClusterDoc)
    (status : result string ClusterStatus) (checks : result string (list InflightCheck)) : result stateError OperationState :=
  if String.eqb (default EmptyString (cluster_ClusterServiceID (res_rest cluster))) EmptyString
  then Ok (provisioning "cluster service has not been successfully created")
  else match status with
  | Err e => Err (CheckFailed e)
  | Ok clusterStatus =>
      match ConvertClusterStatus checks operation clusterStatus with
      | (_, _, Some e) => Err (ConversionFailed e)
      | (newStatus, opError, None) =>
          let state := NewOperationState newStatus (ClusterServiceOperationMessage (Some clusterStatus) opError) in
          Ok (match opError with Some e => WithCloudErrorCode (ceb_Code e) state | None => state end)
      end
  end.

Definition clusterOperationStatus (cluster : result getError ClusterDoc) : result stateError OperationState :=
  match cluster with
  | Err GetNotFound => Ok (provisioning "cluster state not cached yet")
  | Err (GetFailed e) => Err (CheckFailed e)
  | Ok cluster =>
      if String.eqb (cluster_APIURL (res_rest cluster)) EmptyString then Ok (provisioning ".api.url is empty") else Ok succeeded
  end.

Definition servingCABundleOperationStatus (spc : result getError ServiceProviderCluster) : result stateError OperationState :=
  withSPC spc (λ spc,
    if String.eqb (spc_ServingCABundle spc) EmptyString then provisioning "ServingCABundle not yet populated" else succeeded).

Definition roleAssignmentsOperationStatus (spc : result getError ServiceProviderCluster) : result stateError OperationState :=
  withSPC spc (λ spc,
    if (length (spc_RoleAssignments spc) =? 0)%nat || negb (length (spc_PendingRoleAssignments spc) =? 0)%nat
    then provisioning "role assignments not yet confirmed" else succeeded).

Definition tlsCertificatesOperationStatus (spc : result getError ServiceProviderCluster) : result stateError OperationState :=
  withSPC spc (λ spc,
    if forallb (λ certificate, match certificate with Some (Some _) => true | _ => false end)
         [spc_KubeAPIServerCertificate spc; spc_IngressCertificate spc]
    then succeeded else provisioning "TLS certificates not yet confirmed").

Section create.
Context {V : Type} `{Semver V} `{ConditionOps} `{HypershiftNames}.

Definition IsStatusConditionTrue (conditions : list StatusCondition) (t : string) : bool :=
  hasStatus (FindStatusCondition conditions t) ConditionTrue.

(** The placement fails at the deadline; what is known of the capacity decides the code. *)
Definition placementState (now : Z) (spc : option ServiceProviderCluster) (cluster : ClusterDoc) : OperationState :=
  if bool_decide (is_Some (spc ≫= spc_ManagementClusterResourceID)) then succeeded
  else
    let waiting := provisioning match spc with None => "ServiceProviderCluster not cached yet"
                                             | Some _ => "waiting for management cluster placement" end in
    match cluster_CreateOperationCompletionDeadline (res_rest cluster) with
    | None => waiting
    | Some deadline =>
        if now <? deadline then waiting
        else
          let message := "cluster placement did not complete before the deadline" in
          let heavyUse := match spc ≫= spc_PlacementConditions with
                          | Some conditions => hasStatus (FindStatusCondition conditions CapacityAvailableConditionType) ConditionFalse
                          | None => false
                          end in
          let operationError :=
            if heavyUse then CloudError CloudErrorCodeCapacityHeavyUse
              "ARO HCP is currently experiencing capacity constraints. Try again later." EmptyString []
            else CloudError CloudErrorCodeInternalServerError message EmptyString [] in
          NewFailedOperationState (ceb_Code operationError) message (Some operationError)
    end.

Definition placementOperationStatus (now : Z) (spc : result getError ServiceProviderCluster) (cluster : ClusterDoc) :
    result stateError OperationState :=
  match spc with
  | Err (GetFailed e) => Err (CheckFailed e)
  | Err GetNotFound => Ok (placementState now None cluster)
  | Ok spc => Ok (placementState now (Some spc) cluster)
  end.

(** The versions with a reliable success condition start here; parsed when the program
    starts. *)
Definition minVersionsWithValidSuccessCondition : list (string * string) :=
  [("4.20", "4.20.15"); ("4.21", "4.21.1"); ("4.22", "4.22.0")].

Definition minVersion (majorMinor : string) : option V :=
  kv ← List.find (λ kv, String.eqb kv.1 majorMinor) minVersionsWithValidSuccessCondition; semver_Parse kv.2.

Definition hasValidSuccessCondition (entry : ControlPlaneUpdateHistory) : bool :=
  match semver_Parse (hist_Version entry) with
  | None => false
  | Some currVersion =>
      match minVersion (Itoa (Major currVersion) +:+ "." +:+ Itoa (Minor currVersion)) with
      | Some minimum => negb (LT currVersion minimum)
      | None => true
      end
  end.

Definition withDegradedSuffix (message : string) (hostedCluster : HostedClusterStatus) : string :=
  match FindStatusCondition (hcs_Conditions hostedCluster) HostedClusterDegraded with
  | Some degraded =>
      if String.eqb (sc_Status degraded) ConditionTrue
      then message +:+ "; hosted cluster degraded: " +:+ sc_Reason degraded +:+ ": " +:+ sc_Message degraded
      else message
  | None => message
  end.

(** [clock] is the time of the process, whole seconds of which are shown. *)
Definition describeEntry (clock : Z) (entry : ControlPlaneUpdateHistory) : string :=
  "version " +:+ hist_Version entry +:+ " is " +:+ hist_State entry +:+ " (want " +:+ CompletedUpdate +:+ ")"
  +:+ (if hist_StartedTime entry =? 0 then EmptyString
       else
         let elapsed := clock - hist_StartedTime entry in
         let elapsed := elapsed - Z.rem elapsed 1000000000 in
         ", started " +:+ DurationString (if elapsed <? 0 then 0 else elapsed) +:+ " ago").

Definition describeVersionHistory (clock : Z) (history : list ControlPlaneUpdateHistory) : string :=
  match history with
  | [] => "hosted cluster has no version history entries"
  | _ =>
      match describeEntry clock <$> List.filter (λ e, negb (String.eqb (hist_State e) CompletedUpdate)) history with
      | [] => "hosted cluster control plane version history has no in-flight entries"
      | descriptions => "hosted cluster control plane version not yet completed: " +:+ Join "; " descriptions
      end
  end.

Definition notReadyBecause (what : string) (conditions : list StatusCondition) (t : string) : string :=
  match FindStatusCondition conditions t with
  | None => what +:+ ", condition missing"
  | Some c => what +:+ ": " +:+ sc_Reason c +:+ ": " +:+ sc_Message c
  end.

(** What the hosted cluster still lacks. *)
Definition hostedClusterLacks (clock : Z) (hostedCluster : HostedClusterStatus) : option string :=
  let conditions := hcs_Conditions hostedCluster in
  let anyVersionInstalled := existsb (λ e, String.eqb (hist_State e) CompletedUpdate) (hcs_History hostedCluster) in
  let anyVersionWithValidSuccessCondition := existsb hasValidSuccessCondition (hcs_History hostedCluster) in
  if anyVersionWithValidSuccessCondition && negb (IsStatusConditionTrue conditions HostedClusterAvailable) then
    Some (notReadyBecause "hosted cluster is not available" conditions HostedClusterAvailable)
  else if anyVersionWithValidSuccessCondition && negb anyVersionInstalled then
    Some (describeVersionHistory clock (hcs_History hostedCluster))
  else if String.eqb (hcs_EndpointHost hostedCluster) EmptyString then Some "hosted cluster has no control plane endpoint host"
  else if hcs_EndpointPort hostedCluster =? 0 then Some "hosted cluster has no control plane endpoint port"
  else if negb (IsStatusConditionTrue conditions IngressDefaultCertificateSynced) then
    Some (notReadyBecause "ingress default certificate is not synced" conditions IngressDefaultCertificateSynced)
  else None.

Definition hostedClusterOperationStatus (unmarshal : string → option HostedClusterStatus) (clock : Z)
    (readDesire : result getError ReadDesire) : result stateError OperationState :=
  match readDesire with
  | Err GetNotFound => Ok (provisioning "hosted cluster state not cached yet")
  | Err (GetFailed e) => Err (CheckFailed e)
  | Ok readDesire =>
      if negb (IsStatusConditionTrue (rd_Conditions readDesire) ConditionTypeSuccessful) then
        Ok (provisioning match FindStatusCondition (rd_Conditions readDesire) ConditionTypeSuccessful with
                         | None => "ReadDesire has not yet successfully observed the target"
                         | Some c => "ReadDesire is not successful: " +:+ sc_Reason c +:+ ": " +:+ sc_Message c
                         end)
      else match rd_KubeContent readDesire with
      | None | Some EmptyString => Ok (provisioning "ReadDesire has no kube content")
      | Some raw =>
          match unmarshal raw with
          | None => Err (CheckFailed "failed to decode HostedCluster")
          | Some hostedCluster =>
              match hostedClusterLacks clock hostedCluster with
              | Some message => Ok (provisioning (withDegradedSuffix message hostedCluster))
              | None => Ok succeeded
              end
          end
      end
  end.

(** The conditions of the [SecretSync], if there is one, and whether it was observed. *)
Definition GetCachedIngressSecretSyncForCluster (unmarshal : string → option (list StatusCondition))
    (readDesire : result getError ReadDesire) : result string (option (list StatusCondition) * bool) :=
  match readDesire with
  | Err GetNotFound => Ok (None, false)
  | Err (GetFailed e) => Err e
  | Ok readDesire =>
      let observed := IsStatusConditionTrue (rd_Conditions readDesire) ConditionTypeSuccessful in
      match rd_KubeContent readDesire with
      | None | Some EmptyString => Ok (None, observed)
      | Some raw =>
          match unmarshal raw with
          | None => Err "failed to unmarshal SecretSync from ReadDesire kubeContent"
          | Some secretSync => Ok (Some secretSync, observed)
          end
      end
  end.

Definition serviceProviderDefaultIngressServingCertificateStatus (unmarshal : string → option (list StatusCondition))
    (readDesire : result getError ReadDesire) : result stateError OperationState :=
  match GetCachedIngressSecretSyncForCluster unmarshal readDesire with
  | Err e => Err (CheckFailed e)
  | Ok (_, false) | Ok (None, true) => Ok (provisioning "default ingress certificate not yet observed")
  | Ok (Some conditions, true) =>
      if IsStatusConditionTrue conditions "SecretCreated" then Ok succeeded
      else Ok (provisioning "default ingress certificate not yet synced")
  end.

(** ** The controller *)

(** What the controller reads besides the operation and the cluster. *)
Record creationReads := {
  cr_clusterAgain : result getError ClusterDoc;
  cr_spc : result getError ServiceProviderCluster;
  cr_status : result string ClusterStatus;
  cr_inflight : result string (list InflightCheck);
  cr_hostedCluster : result getError ReadDesire;
  cr_secretSync : result getError ReadDesire;
  cr_clock : Z;
  cr_unmarshalHostedCluster : string → option HostedClusterStatus;
  cr_unmarshalSecretSync : string → option (list StatusCondition);
}.

Definition clusterCreateChecks (now : Z) (reads : creationReads) (operation : OperationDoc) (cluster : ClusterDoc) :
    list (string * result stateError OperationState) :=
  [("clusterValidation", clusterValidation now (cr_spc reads) operation);
   ("hypershiftHostedCluster",
     hostedClusterOperationStatus (cr_unmarshalHostedCluster reads) (cr_clock reads) (cr_hostedCluster reads));
   ("cosmosCluster", clusterOperationStatus (cr_clusterAgain reads));
   ("clusterServiceClusterStatus", clusterServiceCreateOperationState operation cluster (cr_status reads) (cr_inflight reads));
   ("placement", placementOperationStatus now (cr_spc reads) cluster);
   ("servingCABundle", servingCABundleOperationStatus (cr_spc reads));
   ("defaultIngressServingCertificate",
     serviceProviderDefaultIngressServingCertificateStatus (cr_unmarshalSecretSync reads) (cr_secretSync reads));
   ("roleAssignments", roleAssignmentsOperationStatus (cr_spc reads));
   ("tlsCertificates", tlsCertificatesOperationStatus (cr_spc reads))].

Definition clusterCreate_determineOperationState (now : Z) (reads : creationReads) (operation : OperationDoc) (cluster : ClusterDoc) :
    result (list stateError) OperationState :=
  pickState (clusterCreateChecks now reads operation cluster).

Definition clusterCreate_ShouldProcess : OperationDoc → bool := ShouldProcess OperationRequestCreate ClusterResourceType.

Definition clusterCreate_shouldReconcile (cluster : ClusterDoc) : bool :=
  negb (bool_decide (is_Some (res_DeletionTimestamp cluster))).

Definition clusterCreationDeadlineSentence : string := "cluster creation did not complete before the deadline".

Context {S : Type} `{OperationDB S ClusterSpec}.

Definition clusterCreate_SynchronizeOperation (now : Z) (operation : result getError OperationDoc)
    (cluster : result getError ClusterDoc) (reads : creationReads) (post : option (OperationDoc → bool)) (s : S) :
    S * list OperationDoc * option syncOpError :=
  followOperation OperationRequestCreate ClusterResourceType clusterCreate_shouldReconcile
    (clusterCreate_determineOperationState now reads)
    (λ cluster, completionOutcome true now (cluster_CreateOperationCompletionDeadline (res_rest cluster)) clusterCreationDeadlineSentence)
    now operation cluster post s.
End create.

(** ** Facts *)

(** A validation that decides against the cluster: it does not pass, both it and the
    operation have had ten minutes, and the evidence is fresh. *)
Definition validationFails (spc : ServiceProviderCluster) (operationStartTime now : Z) (validation : StatusCondition) : Prop :=
  sc_Status validation ≠ ConditionTrue ∧ oldEnough now operationStartTime = true ∧
  oldEnough now (sc_LastTransitionTime validation) = true ∧ probeIsFresh spc now validation = true.

Definition foldedState (state : string) : Prop :=
  state = ProvisioningStateSucceeded ∨ state = ProvisioningStateProvisioning ∨ state = ProvisioningStateFailed.

Lemma validationStep_spec spc start now acc v :
  foldedState (os_ProvisioningState acc.1) →
  let acc' := validationStep spc start now acc v in
  foldedState (os_ProvisioningState acc'.1) ∧
  (os_ProvisioningState acc'.1 = ProvisioningStateSucceeded ↔
    os_ProvisioningState acc.1 = ProvisioningStateSucceeded ∧ sc_Status v = ConditionTrue) ∧
  (os_ProvisioningState acc'.1 = ProvisioningStateFailed ↔
    os_ProvisioningState acc.1 = ProvisioningStateFailed ∨ validationFails spc start now v).
Proof.
  destruct acc as [state messages]; simpl. intros Hst. unfold validationFails.
  destruct (String.eqb_spec (sc_Status v) ConditionTrue) as [Ht|Ht]; [naive_solver|]. simpl.
  destruct (oldEnough now start), (oldEnough now (sc_LastTransitionTime v)), (probeIsFresh spc now v); simpl;
    rewrite ?WithCloudErrorCode_state; unfold foldedState in *;
    destruct Hst as [Hst|[Hst|Hst]]; rewrite Hst; simpl; rewrite ?Hst; naive_solver.
Qed.

Lemma validationFold_spec spc start now vs acc :
  foldedState (os_ProvisioningState acc.1) →
  let acc' := fold_left (validationStep spc start now) vs acc in
  foldedState (os_ProvisioningState acc'.1) ∧
  (os_ProvisioningState acc'.1 = ProvisioningStateSucceeded ↔
    os_ProvisioningState acc.1 = ProvisioningStateSucceeded ∧ Forall (λ v, sc_Status v = ConditionTrue) vs) ∧
  (os_ProvisioningState acc'.1 = ProvisioningStateFailed ↔
    os_ProvisioningState acc.1 = ProvisioningStateFailed ∨ Exists (validationFails spc start now) vs).
Proof.
  revert acc. induction vs as [|v vs IH]; intros acc Hacc; simpl.
  { rewrite Forall_nil, Exists_nil. tauto. }
  destruct (validationStep_spec spc start now acc v Hacc) as (H1 & H2 & H3).
  destruct (IH (validationStep spc start now acc v) H1) as (I1 & I2 & I3).
  rewrite Forall_cons, Exists_cons. split_and!; [done| |]; [rewrite I2, H2|rewrite I3, H3]; tauto.
Qed.

(** The validations as one state. *)
Lemma clusterValidation_state spc start now :
  let state := os_ProvisioningState (clusterValidationOperationState spc start now) in
  plainState state ∧
  (state = ProvisioningStateSucceeded ↔ Forall (λ v, sc_Status v = ConditionTrue) (spc_Validations spc)) ∧
  (state = ProvisioningStateFailed ↔ Exists (validationFails spc start now) (spc_Validations spc)).
Proof.
  destruct (validationFold_spec spc start now (spc_Validations spc) (succeeded, [])) as (Hf & Hs & Hx); [by left|].
  unfold clusterValidationOperationState.
  destruct (fold_left _ _ _) as [state messages]. simpl in Hf, Hs, Hx |- *.
  assert (Heq : os_ProvisioningState (if String.eqb (os_ProvisioningState state) ProvisioningStateFailed
    then NewFailedOperationState (os_CloudErrorCode state) (Join "; " (sort_by string_less messages))
      (Some (CloudError (os_CloudErrorCode state) (Join "; " (sort_by string_less messages)) EmptyString []))
    else withStateMessage (Join "; " (sort_by string_less messages)) state) = os_ProvisioningState state).
  { destruct (String.eqb_spec (os_ProvisioningState state) ProvisioningStateFailed) as [->|]; [|done].
    unfold NewFailedOperationState. simpl. by rewrite WithCloudErrorCode_state. }
  rewrite !Heq. split_and!; [|naive_solver..].
  destruct Hf as [->|[->| ->]]; plain_state.
Qed.

(** Each other check, by what it waits for. *)
Lemma succeeded_waiting : waitingState (os_ProvisioningState succeeded).
Proof. split; [plain_state|done]. Qed.

Lemma provisioning_waiting m : waitingState (os_ProvisioningState (provisioning m)).
Proof. split; [plain_state|done]. Qed.

(** A state that is [succeeded] when [P] holds and provisioning otherwise. *)
Definition succeedsWhen (P : Prop) (state : OperationState) : Prop :=
  waitingState (os_ProvisioningState state) ∧ (os_ProvisioningState state = ProvisioningStateSucceeded ↔ P).

Lemma succeedsWhen_succeeded (P : Prop) : P → succeedsWhen P succeeded.
Proof. intros HP. split; [apply succeeded_waiting|done]. Qed.

Lemma succeedsWhen_provisioning (P : Prop) m : ¬ P → succeedsWhen P (provisioning m).
Proof. intros HP. split; [apply provisioning_waiting|]. by split. Qed.

Lemma withSPC_spec spc (k : ServiceProviderCluster → OperationState) (P : ServiceProviderCluster → Prop) state :
  (∀ x, succeedsWhen (P x) (k x)) → withSPC spc k = Ok state →
  succeedsWhen (∃ x, spc = Ok x ∧ P x) state.
Proof.
  intros Hk. destruct spc as [x|[]]; simpl; [intros [= <-]|intros [= <-]|done].
  - destruct (Hk x) as [Hw Hs]. split; [done|]. rewrite Hs. naive_solver.
  - apply succeedsWhen_provisioning. naive_solver.
Qed.

Section check_facts.
Context {V : Type} `{Semver V} `{ConditionOps} `{HypershiftNames}.

Lemma servingCABundle_spec spc state : servingCABundleOperationStatus spc = Ok state →
  succeedsWhen (∃ x, spc = Ok x ∧ spc_ServingCABundle x ≠ EmptyString) state.
Proof.
  apply withSPC_spec. intros x. destruct (String.eqb_spec (spc_ServingCABundle x) EmptyString);
    [by apply succeedsWhen_provisioning; naive_solver|by apply succeedsWhen_succeeded].
Qed.

Lemma roleAssignments_spec spc state : roleAssignmentsOperationStatus spc = Ok state →
  succeedsWhen (∃ x, spc = Ok x ∧ spc_RoleAssignments x ≠ [] ∧ spc_PendingRoleAssignments x = []) state.
Proof.
  apply (withSPC_spec _ _ (λ x, spc_RoleAssignments x ≠ [] ∧ spc_PendingRoleAssignments x = [])). intros x.
  destruct (spc_RoleAssignments x), (spc_PendingRoleAssignments x); simpl;
    [apply succeedsWhen_provisioning; naive_solver..|by apply succeedsWhen_succeeded|apply succeedsWhen_provisioning; naive_solver].
Qed.

Definition confirmed (certificate : option (option string)) : Prop := ∃ reference, certificate = Some (Some reference).

Lemma tlsCertificates_spec spc state : tlsCertificatesOperationStatus spc = Ok state →
  succeedsWhen (∃ x, spc = Ok x ∧ confirmed (spc_KubeAPIServerCertificate x) ∧ confirmed (spc_IngressCertificate x)) state.
Proof.
  apply (withSPC_spec _ _ (λ x, confirmed (spc_KubeAPIServerCertificate x) ∧ confirmed (spc_IngressCertificate x))). intros x.
  unfold confirmed. destruct (spc_KubeAPIServerCertificate x) as [[a|]|], (spc_IngressCertificate x) as [[b|]|]; simpl;
    first [apply succeedsWhen_succeeded; by eauto|apply succeedsWhen_provisioning; naive_solver].
Qed.

Lemma clusterOperationStatus_spec cluster state : clusterOperationStatus cluster = Ok state →
  succeedsWhen (∃ x, cluster = Ok x ∧ cluster_APIURL (res_rest x) ≠ EmptyString) state.
Proof.
  destruct cluster as [x|[]]; simpl; [|intros [= <-]; apply succeedsWhen_provisioning; naive_solver|done].
  destruct (String.eqb_spec (cluster_APIURL (res_rest x)) EmptyString); intros [= <-];
    [apply succeedsWhen_provisioning; naive_solver|apply succeedsWhen_succeeded; by eauto].
Qed.

(** A version whose success condition can be relied on: it parses, and is not before the
    first such version of its line, where the line has one. *)
Definition reliable (entry : ControlPlaneUpdateHistory) : Prop :=
  ∃ v, semver_Parse (hist_Version entry) = Some v ∧
    ∀ line first minimum, (line, first) ∈ [("4.20", "4.20.15"); ("4.21", "4.21.1"); ("4.22", "4.22.0")] →
      line = Itoa (Major v) +:+ "." +:+ Itoa (Minor v) → semver_Parse first = Some minimum → LT v minimum = false.

(** The control plane is up: once its history has a version that can be relied on, the
    hosted cluster is available and some version is installed; and in any case it has an
    endpoint and its ingress certificate is synced. *)
Definition hostedReady (hc : HostedClusterStatus) : Prop :=
  ((∃ e, e ∈ hcs_History hc ∧ reliable e) →
    IsStatusConditionTrue (hcs_Conditions hc) HostedClusterAvailable = true ∧
    ∃ e, e ∈ hcs_History hc ∧ hist_State e = CompletedUpdate) ∧
  hcs_EndpointHost hc ≠ EmptyString ∧ hcs_EndpointPort hc ≠ 0 ∧
  IsStatusConditionTrue (hcs_Conditions hc) IngressDefaultCertificateSynced = true.

Lemma hasValidSuccessCondition_spec entry : hasValidSuccessCondition entry = true ↔ reliable entry.
Proof.
  unfold hasValidSuccessCondition, reliable, minVersion, minVersionsWithValidSuccessCondition.
  destruct (semver_Parse (hist_Version entry)) as [v|]; [|split; [done|by intros (? & [=] & _)]].
  set (mm := Itoa (Major v) +:+ "." +:+ Itoa (Minor v)). transitivity (∀ line first minimum,
    (line, first) ∈ [("4.20", "4.20.15"); ("4.21", "4.21.1"); ("4.22", "4.22.0")] → line = mm →
    semver_Parse first = Some minimum → LT v minimum = false).
  2: { split; [intros Hall; by exists v|by intros (? & [= <-] & Hall)]. }
  cbn [List.find fst].
  assert (Hline : ∀ line first, (line, first) ∈ [("4.20", "4.20.15"); ("4.21", "4.21.1"); ("4.22", "4.22.0")] ↔
    line = "4.20" ∧ first = "4.20.15" ∨ line = "4.21" ∧ first = "4.21.1" ∨ line = "4.22" ∧ first = "4.22.0").
  { intros line first. rewrite !elem_of_cons, elem_of_nil. naive_solver. }
  setoid_rewrite Hline. clear Hline.
  destruct (String.eqb_spec "4.20" mm) as [<-|?]; [|destruct (String.eqb_spec "4.21" mm) as [<-|?];
    [|destruct (String.eqb_spec "4.22" mm) as [<-|?]]]; cbn [mbind option_bind snd]; [..|naive_solver].
  all: match goal with |- context [semver_Parse ?f] => destruct (semver_Parse f) as [minimum|] eqn:E end;
    [rewrite negb_true_iff|]; naive_solver.
Qed.

Lemma hostedClusterLacks_None clock hc : hostedClusterLacks clock hc = None ↔ hostedReady hc.
Proof.
  unfold hostedClusterLacks, hostedReady. cbv zeta.
  assert (Hr : existsb hasValidSuccessCondition (hcs_History hc) = true ↔ ∃ e, e ∈ hcs_History hc ∧ reliable e).
  { rewrite existsb_exists. setoid_rewrite hasValidSuccessCondition_spec. by setoid_rewrite <- list_elem_of_In. }
  assert (Hi : existsb (λ e, String.eqb (hist_State e) CompletedUpdate) (hcs_History hc) = true ↔
    ∃ e, e ∈ hcs_History hc ∧ hist_State e = CompletedUpdate).
  { rewrite existsb_exists. setoid_rewrite String.eqb_eq. by setoid_rewrite <- list_elem_of_In. }
  rewrite <- Hr, <- Hi. clear Hr Hi.
  destruct (existsb hasValidSuccessCondition _), (existsb (λ e, _) _), (IsStatusConditionTrue _ HostedClusterAvailable),
    (IsStatusConditionTrue _ IngressDefaultCertificateSynced), (String.eqb_spec (hcs_EndpointHost hc) EmptyString),
    (Z.eqb_spec (hcs_EndpointPort hc) 0); simpl; naive_solver.
Qed.

(** The read was successful, and this is what was read. *)
Definition wasRead {A} (unmarshal : string → option A) (readDesire : result getError ReadDesire) (a : A) : Prop :=
  ∃ rd raw, readDesire = Ok rd ∧ IsStatusConditionTrue (rd_Conditions rd) ConditionTypeSuccessful = true ∧
    rd_KubeContent rd = Some raw ∧ raw ≠ EmptyString ∧ unmarshal raw = Some a.

Ltac not_read := apply succeedsWhen_provisioning; intros (? & (? & ? & ? & ? & ? & ? & ?) & ?); simplify_eq; congruence.

Lemma hostedCluster_spec unmarshal clock readDesire state : hostedClusterOperationStatus unmarshal clock readDesire = Ok state →
  succeedsWhen (∃ hc, wasRead unmarshal readDesire hc ∧ hostedReady hc) state.
Proof.
  unfold wasRead. destruct readDesire as [rd|[]]; simpl; [|intros [= <-]; not_read|done].
  destruct (IsStatusConditionTrue _ _) eqn:Es; simpl; [|intros [= <-]; not_read].
  destruct (rd_KubeContent rd) as [[|c raw]|] eqn:Ec; [intros [= <-]; not_read| |
    intros [= <-]; not_read].
  destruct (unmarshal (String c raw)) as [hc|] eqn:Eu; [|done].
  pose proof (hostedClusterLacks_None clock hc) as Hl.
  destruct (hostedClusterLacks clock hc); intros [= <-].
  - apply succeedsWhen_provisioning. intros (? & (? & ? & ? & ? & ? & ? & ?) & Hready). simplify_eq. by apply Hl in Hready.
  - apply succeedsWhen_succeeded. exists hc. split; [by exists rd, (String c raw)|by apply Hl].
Qed.

Lemma ingressCertificate_spec unmarshal readDesire state :
  serviceProviderDefaultIngressServingCertificateStatus unmarshal readDesire = Ok state →
  succeedsWhen (∃ conditions, wasRead unmarshal readDesire conditions ∧ IsStatusConditionTrue conditions "SecretCreated" = true) state.
Proof.
  unfold serviceProviderDefaultIngressServingCertificateStatus, GetCachedIngressSecretSyncForCluster, wasRead.
  destruct readDesire as [rd|[]]; simpl; [|intros [= <-]; not_read|done].
  destruct (rd_KubeContent rd) as [[|c raw]|] eqn:Ec;
    [by destruct (IsStatusConditionTrue _ _); intros [= <-]; not_read| |
     by destruct (IsStatusConditionTrue _ _); intros [= <-]; not_read].
  destruct (unmarshal (String c raw)) as [conditions|] eqn:Eu; [|done].
  destruct (IsStatusConditionTrue (rd_Conditions rd) _) eqn:Es; [|intros [= <-]; not_read].
  destruct (IsStatusConditionTrue conditions "SecretCreated") eqn:Et; intros [= <-];
    [apply succeedsWhen_succeeded|not_read].
  exists conditions. split; [|done]. by exists rd, (String c raw).
Qed.
End check_facts.

Section creation_facts.
Context {V : Type} `{Semver V} `{ConditionOps} `{HypershiftNames}.

Definition placed (spc : result getError ServiceProviderCluster) : Prop :=
  ∃ x, spc = Ok x ∧ is_Some (spc_ManagementClusterResourceID x).

(** The cluster was not placed in time. *)
Definition placedTooLate (now : Z) (cluster : ClusterDoc) : Prop :=
  ∃ deadline, cluster_CreateOperationCompletionDeadline (res_rest cluster) = Some deadline ∧ deadline <= now.

Lemma placementState_spec now spc cluster :
  let state := os_ProvisioningState (placementState now spc cluster) in
  let isPlaced := is_Some (spc ≫= spc_ManagementClusterResourceID) in
  plainState state ∧ (state = ProvisioningStateSucceeded ↔ isPlaced) ∧
  (state = ProvisioningStateFailed ↔ ¬ isPlaced ∧ placedTooLate now cluster).
Proof.
  unfold placementState, placedTooLate. case_bool_decide; simpl; [split_and!; [plain_state|naive_solver..]|].
  destruct (cluster_CreateOperationCompletionDeadline (res_rest cluster)) as [deadline|];
    [destruct (Z.ltb_spec now deadline)|]; simpl.
  - split_and!; [plain_state|naive_solver|]. split; [done|]. intros (_ & ? & [= <-] & ?). lia.
  - unfold NewFailedOperationState. simpl. rewrite WithCloudErrorCode_state. simpl. split_and!; [plain_state|naive_solver|].
    split; [|done]. intros _. split; [done|]. by exists deadline.
  - split_and!; [plain_state|naive_solver|]. split; [done|]. by intros (_ & ? & [=] & ?).
Qed.

Lemma placement_spec now spc cluster state : placementOperationStatus now spc cluster = Ok state →
  plainState (os_ProvisioningState state) ∧
  (os_ProvisioningState state = ProvisioningStateSucceeded ↔ placed spc) ∧
  (os_ProvisioningState state = ProvisioningStateFailed ↔ ¬ placed spc ∧ placedTooLate now cluster).
Proof.
  unfold placed. destruct spc as [x|[]]; simpl; intros [= <-].
  - destruct (placementState_spec now (Some x) cluster) as (? & Hs & Hf). split; [done|]. rewrite Hs, Hf. simpl. naive_solver.
  - destruct (placementState_spec now None cluster) as (? & Hs & Hf). split; [done|]. rewrite Hs, Hf. simpl.
    split; split; [by intros [? [=]]|by intros (? & [=] & ?)|intros [_ ?]; split; [by intros (? & [=] & ?)|done]|].
    intros [_ ?]. split; [by intros [? [=]]|done].
Qed.

(** What Cluster Service says, once the cluster is there. *)
Definition serviceSays (cluster : ClusterDoc) (status : result string ClusterStatus) (state : string) : Prop :=
  default EmptyString (cluster_ClusterServiceID (res_rest cluster)) ≠ EmptyString ∧
  ∃ st, status = Ok st ∧ cs_State st = state.

Lemma clusterService_spec operation cluster status checks state :
  op_Request operation = OperationRequestCreate →
  clusterServiceCreateOperationState operation cluster status checks = Ok state →
  plainState (os_ProvisioningState state) ∧
  (os_ProvisioningState state = ProvisioningStateSucceeded ↔ serviceSays cluster status ClusterStateReady) ∧
  (os_ProvisioningState state = ProvisioningStateFailed ↔ serviceSays cluster status ClusterStateError).
Proof.
  intros Hreq. unfold clusterServiceCreateOperationState, serviceSays.
  destruct (String.eqb_spec (default EmptyString (cluster_ClusterServiceID (res_rest cluster))) EmptyString) as [Hid|Hid].
  { intros [= <-]. simpl. split_and!; [plain_state|naive_solver..]. }
  destruct status as [st|]; [|done].
  destruct (ConvertClusterStatus checks operation st) as [[newStatus opError] [e|]] eqn:Ec; [done|]. intros [= <-].
  assert (Heq : ∀ o : option CloudErrorBody, os_ProvisioningState match o with
    | Some e => WithCloudErrorCode (ceb_Code e) (NewOperationState newStatus (ClusterServiceOperationMessage (Some st) opError))
    | None => NewOperationState newStatus (ClusterServiceOperationMessage (Some st) opError) end = newStatus).
  { intros [e|]; [by rewrite WithCloudErrorCode_state|done]. }
  destruct (ConvertClusterStatus_spec checks operation st newStatus opError ltac:(by rewrite Hreq) Ec) as (? & ? & Hs & Hf).
  rewrite !Heq, Hs, Hf. split_and!; [done|naive_solver..].
Qed.

Lemma validation_spec now spc operation state : clusterValidation now spc operation = Ok state →
  plainState (os_ProvisioningState state) ∧
  (os_ProvisioningState state = ProvisioningStateSucceeded ↔
    ∃ x, spc = Ok x ∧ Forall (λ v, sc_Status v = ConditionTrue) (spc_Validations x)) ∧
  (os_ProvisioningState state = ProvisioningStateFailed ↔
    ∃ x, spc = Ok x ∧ Exists (validationFails x (op_StartTime operation) now) (spc_Validations x)).
Proof.
  destruct spc as [x|[]]; simpl; intros [= <-].
  - destruct (clusterValidation_state x (op_StartTime operation) now) as (? & Hs & Hf). rewrite Hs, Hf. naive_solver.
  - simpl. split_and!; [plain_state|naive_solver..].
Qed.
End creation_facts.

(** ** How a creation ends *)

Section creation_verdict.
Context {V S : Type} `{Semver V} `{ConditionOps} `{HypershiftNames} `{OperationDB S ClusterSpec}.

(** The cluster is up: its validations pass, it is placed, its certificate bundle, role
    assignments and certificates are there, Cluster Service calls it ready, its API has a
    URL, and its control plane and the ingress certificate were seen to be ready. *)
Definition clusterUp (reads : creationReads) (cluster : ClusterDoc) : Prop :=
  (∃ x, cr_spc reads = Ok x ∧ Forall (λ v, sc_Status v = ConditionTrue) (spc_Validations x) ∧
    is_Some (spc_ManagementClusterResourceID x) ∧ spc_ServingCABundle x ≠ EmptyString ∧
    (spc_RoleAssignments x ≠ [] ∧ spc_PendingRoleAssignments x = []) ∧
    confirmed (spc_KubeAPIServerCertificate x) ∧ confirmed (spc_IngressCertificate x)) ∧
  serviceSays cluster (cr_status reads) ClusterStateReady ∧
  (∃ c, cr_clusterAgain reads = Ok c ∧ cluster_APIURL (res_rest c) ≠ EmptyString) ∧
  (∃ hc, wasRead (cr_unmarshalHostedCluster reads) (cr_hostedCluster reads) hc ∧ hostedReady hc) ∧
  (∃ conditions, wasRead (cr_unmarshalSecretSync reads) (cr_secretSync reads) conditions ∧
    IsStatusConditionTrue conditions "SecretCreated" = true).

(** The cluster will not come up. *)
Definition clusterFails (now : Z) (reads : creationReads) (operation : OperationDoc) (cluster : ClusterDoc) : Prop :=
  (∃ x, cr_spc reads = Ok x ∧ Exists (validationFails x (op_StartTime operation) now) (spc_Validations x)) ∨
  serviceSays cluster (cr_status reads) ClusterStateError ∨
  ¬ placed (cr_spc reads) ∧ placedTooLate now cluster.

(** Cached content that is there and cannot be decoded. *)
Definition undecodable {A} (unmarshal : string → option A) (rd : ReadDesire) : Prop :=
  ∃ raw, rd_KubeContent rd = Some raw ∧ raw ≠ EmptyString ∧ unmarshal raw = None.

(** What keeps a pass from a decision: a lister fails (not finding a document is an
    answer), Cluster Service does not answer for a cluster it has or answers what cannot be
    told, or what was read of the hosted cluster or of its certificate does not decode. *)
Definition creationUnreadable (reads : creationReads) (operation : OperationDoc) (cluster : ClusterDoc) : Prop :=
  (∃ e, cr_spc reads = Err (GetFailed e)) ∨
  (∃ e, cr_clusterAgain reads = Err (GetFailed e)) ∨
  default EmptyString (cluster_ClusterServiceID (res_rest cluster)) ≠ EmptyString ∧
    ((∃ e, cr_status reads = Err e) ∨
     ∃ st, cr_status reads = Ok st ∧ clusterUnconvertible (cr_inflight reads) operation st) ∨
  (∃ e, cr_hostedCluster reads = Err (GetFailed e)) ∨
  (∃ rd, cr_hostedCluster reads = Ok rd ∧ IsStatusConditionTrue (rd_Conditions rd) ConditionTypeSuccessful = true ∧
     undecodable (cr_unmarshalHostedCluster reads) rd) ∨
  (∃ e, cr_secretSync reads = Err (GetFailed e)) ∨
  (∃ rd, cr_secretSync reads = Ok rd ∧ undecodable (cr_unmarshalSecretSync reads) rd).

Lemma withSPC_error spc k : isError (withSPC spc k) ↔ ∃ e, spc = Err (GetFailed e).
Proof. unfold isError. destruct spc as [x|[|e]]; simpl; naive_solver. Qed.

Lemma clusterService_error operation cluster status checks :
  isError (clusterServiceCreateOperationState operation cluster status checks) ↔
  default EmptyString (cluster_ClusterServiceID (res_rest cluster)) ≠ EmptyString ∧
  ((∃ e, status = Err e) ∨ ∃ st, status = Ok st ∧ clusterUnconvertible checks operation st).
Proof.
  unfold isError, clusterServiceCreateOperationState. case String.eqb_spec; [naive_solver|]. intros Hne.
  destruct status as [st|e]; [|naive_solver].
  assert (Hc := ConvertClusterStatus_error checks operation st).
  destruct (ConvertClusterStatus checks operation st) as [[newStatus opError] [e|]]; simpl in Hc.
  - assert (clusterUnconvertible checks operation st) by (apply Hc; eauto). naive_solver.
  - split; [by intros [? [=]]|]. intros [_ [[? [=]]|(? & [= <-] & [? [=]]%Hc)]].
Qed.

Lemma hostedCluster_error unmarshal clock readDesire :
  isError (hostedClusterOperationStatus unmarshal clock readDesire) ↔
  (∃ e, readDesire = Err (GetFailed e)) ∨
  ∃ rd, readDesire = Ok rd ∧ IsStatusConditionTrue (rd_Conditions rd) ConditionTypeSuccessful = true ∧ undecodable unmarshal rd.
Proof.
  unfold isError, undecodable. destruct readDesire as [rd|[|e]]; simpl; [|naive_solver..].
  destruct (IsStatusConditionTrue _ _) eqn:Es; simpl; [|naive_solver congruence].
  destruct (rd_KubeContent rd) as [[|c raw]|] eqn:Ec; [naive_solver| |naive_solver].
  destruct (unmarshal (String c raw)) as [hc|] eqn:Eu; [|naive_solver].
  destruct (hostedClusterLacks clock hc); naive_solver.
Qed.

Lemma ingressCertificate_error unmarshal readDesire :
  isError (serviceProviderDefaultIngressServingCertificateStatus unmarshal readDesire) ↔
  (∃ e, readDesire = Err (GetFailed e)) ∨ ∃ rd, readDesire = Ok rd ∧ undecodable unmarshal rd.
Proof.
  unfold isError, undecodable, serviceProviderDefaultIngressServingCertificateStatus, GetCachedIngressSecretSyncForCluster.
  destruct readDesire as [rd|[|e]]; simpl; [|naive_solver..].
  destruct (rd_KubeContent rd) as [[|c raw]|] eqn:Ec;
    [destruct (IsStatusConditionTrue _ _); naive_solver| |destruct (IsStatusConditionTrue _ _); naive_solver].
  destruct (unmarshal (String c raw)) as [conditions|] eqn:Eu; [|naive_solver].
  destruct (IsStatusConditionTrue (rd_Conditions rd) _), (IsStatusConditionTrue conditions "SecretCreated"); naive_solver.
Qed.

(** A check errs exactly when something cannot be read. *)
Lemma clusterCreateChecks_error now reads operation cluster :
  Exists (λ check, isError check.2) (clusterCreateChecks now reads operation cluster) ↔ creationUnreadable reads operation cluster.
Proof.
  unfold clusterCreateChecks, creationUnreadable. rewrite !Exists_cons, Exists_nil. simpl.
  rewrite hostedCluster_error, clusterService_error, ingressCertificate_error.
  unfold servingCABundleOperationStatus, roleAssignmentsOperationStatus, tlsCertificatesOperationStatus. rewrite !withSPC_error.
  assert (Hv : isError (clusterValidation now (cr_spc reads) operation) ↔ ∃ e, cr_spc reads = Err (GetFailed e)).
  { unfold isError. destruct (cr_spc reads) as [x|[|e]]; simpl; naive_solver. }
  assert (Hc : isError (clusterOperationStatus (cr_clusterAgain reads)) ↔ ∃ e, cr_clusterAgain reads = Err (GetFailed e)).
  { unfold isError. destruct (cr_clusterAgain reads) as [x|[|e]]; simpl; [destruct (String.eqb _ _)| |]; naive_solver. }
  assert (Hp : isError (placementOperationStatus now (cr_spc reads) cluster) ↔ ∃ e, cr_spc reads = Err (GetFailed e)).
  { unfold isError. destruct (cr_spc reads) as [x|[|e]]; simpl; naive_solver. }
  rewrite Hv, Hc, Hp. tauto.
Qed.

(** Nine results that are all there, and what they say. *)
Lemma clusterCreateChecks_spec now reads operation cluster :
  op_Request operation = OperationRequestCreate →
  let checks := clusterCreateChecks now reads operation cluster in
  Forall plainCheck checks ∧
  (Forall (λ check, ∃ state, check.2 = Ok state) checks →
    (Forall (checkSays ProvisioningStateSucceeded) checks ↔ clusterUp reads cluster) ∧
    (Exists (checkSays ProvisioningStateFailed) checks ↔ clusterFails now reads operation cluster)).
Proof.
  intros Hreq. unfold clusterCreateChecks. cbv zeta. split.
  - repeat apply Forall_cons_2; unfold plainCheck; simpl; [..|constructor]; intros state Hst.
    + by destruct (validation_spec _ _ _ _ Hst).
    + by destruct (hostedCluster_spec _ _ _ _ Hst) as [[? _] _].
    + by destruct (clusterOperationStatus_spec _ _ Hst) as [[? _] _].
    + by destruct (clusterService_spec _ _ _ _ _ Hreq Hst).
    + by destruct (placement_spec _ _ _ _ Hst).
    + by destruct (servingCABundle_spec _ _ Hst) as [[? _] _].
    + by destruct (ingressCertificate_spec _ _ _ Hst) as [[? _] _].
    + by destruct (roleAssignments_spec _ _ Hst) as [[? _] _].
    + by destruct (tlsCertificates_spec _ _ Hst) as [[? _] _].
  - rewrite !Forall_cons, !Exists_cons, Forall_nil, Exists_nil. simpl.
    intros ([x1 E1] & [x2 E2] & [x3 E3] & [x4 E4] & [x5 E5] & [x6 E6] & [x7 E7] & [x8 E8] & [x9 E9] & _).
    rewrite E1, E2, E3, E4, E5, E6, E7, E8, E9, !checkSays_Ok.
    destruct (validation_spec _ _ _ _ E1) as (_ & S1 & F1). destruct (hostedCluster_spec _ _ _ _ E2) as [[_ F2] S2].
    destruct (clusterOperationStatus_spec _ _ E3) as [[_ F3] S3]. destruct (clusterService_spec _ _ _ _ _ Hreq E4) as (_ & S4 & F4).
    destruct (placement_spec _ _ _ _ E5) as (_ & S5 & F5). destruct (servingCABundle_spec _ _ E6) as [[_ F6] S6].
    destruct (ingressCertificate_spec _ _ _ E7) as [[_ F7] S7]. destruct (roleAssignments_spec _ _ E8) as [[_ F8] S8].
    destruct (tlsCertificates_spec _ _ E9) as [[_ F9] S9].
    rewrite S1, S2, S3, S4, S5, S6, S7, S8, S9, F1, F4, F5. unfold clusterUp, clusterFails. split; [|tauto].
    unfold placed. destruct (cr_spc reads) as [x|]; naive_solver.
Qed.

(** (C14) The creation of a cluster ends the right way.  When something cannot be read (a
    lister fails, Cluster Service does not answer for a cluster it has or answers what
    cannot be told, cached content does not decode), and only then, nothing is written and
    an error is returned.  Otherwise the operation becomes [Succeeded] exactly when the
    cluster is up, where an available hosted cluster with an installed version is asked for
    only if its history has a version whose conditions can be relied on; it becomes
    [Failed], and with an error, exactly when a validation that does not pass has had its
    ten minutes and was tried again lately, Cluster Service reports an error, the cluster
    was not placed by the deadline, or the deadline has passed and the cluster is not up. *)
Theorem cluster_creation_verdict now operation cluster reads post (s : S) :
  follows OperationRequestCreate ClusterResourceType clusterCreate_shouldReconcile operation cluster →
  let r := clusterCreate_SynchronizeOperation now (Ok operation) (Ok cluster) reads post s in
  (creationUnreadable reads operation cluster ∧ ∃ es, es ≠ [] ∧ r = (s, [], Some (StateFailed es))) ∨
  ¬ creationUnreadable reads operation cluster ∧
  ∃ newStatus newError,
    r = tolerateConflict (UpdateOperationStatus now (Some operation) newStatus newError post s) ∧
    (newStatus = ProvisioningStateSucceeded ↔ clusterUp reads cluster) ∧
    (newStatus = ProvisioningStateFailed ↔ clusterFails now reads operation cluster ∨
      ¬ clusterUp reads cluster ∧ pastDeadline now (cluster_CreateOperationCompletionDeadline (res_rest cluster)) = true) ∧
    (newStatus = ProvisioningStateFailed ↔ is_Some newError).
Proof.
  intros Hf. destruct (ShouldProcess_request _ _ _ (proj1 Hf)) as [Hreq _].
  destruct (clusterCreateChecks_spec now reads operation cluster Hreq) as [Hplain Hsays].
  pose proof (clusterCreateChecks_error now reads operation cluster) as Hun.
  destruct (followOperation_verdict OperationRequestCreate ClusterResourceType clusterCreate_shouldReconcile
    (clusterCreateChecks now reads) true (λ d, cluster_CreateOperationCompletionDeadline (res_rest d))
    clusterCreationDeadlineSentence now operation cluster post s Hf)
    as [(es & e & Hr & He & Hex)|(Hok & newStatus & newError & Hr & Hs & Hfl & He)]; [done|done|left|right].
  - split; [by eapply Hun, Exists_error|]. exists es. split; [|exact Hr]. intros ->. by apply not_elem_of_nil in He.
  - split; [rewrite <- Hun; by apply Forall_no_error|].
    destruct (Hsays Hok) as [Hup Hdown]. rewrite Hup in Hs. rewrite Hup, Hdown in Hfl. exists newStatus, newError.
    split; [exact Hr|]. by split_and!.
Qed.
End creation_verdict.

(** ** A cluster that comes up *)

Module ClusterCreationExample.
Import MemoryDB StatusInstances.
#[local] Existing Instance Release.semver.
#[local] Existing Instance CreationExample.names.

Definition condition (t status : string) (since : Z) : StatusCondition := {|
  sc_Type := t; sc_Status := status; sc_Reason := "R"; sc_Message := EmptyString; sc_LastTransitionTime := since |}.
Definition minutes (n : Z) : Z := n * 60 * 1000000000.
Definition creation : OperationDoc :=
  withOperationEtag 5 (NewOperation "u1" (minutes 1) OperationRequestCreate OperationExample.clusterID EmptyString).
Definition cluster : ClusterDoc := {|
  res_ID := OperationExample.clusterID; res_Etag := 7; res_ProvisioningState := "Accepted"; res_ActiveOperationID := "u1";
  res_DeletionTimestamp := None; res_DeleteOperationCompletionTimeout := None; res_DeleteOperationCompletionDeadline := None;
  res_rest := {| cluster_ClusterServiceID := Some "/api/c"; cluster_CreateOperationCompletionDeadline := Some (minutes 60);
                 cluster_APIURL := "https://api" |} |}.
Definition database : dbView ClusterSpec := {| v_operations := {["u1" := creation]}; v_resources := {["/c" := cluster]} |}.

(** The validation [QuotaValid] is in the given status since minute two; it was tried
    last at [probe]. *)
Definition spc (status : string) (probe : Z) (management : option string) : ServiceProviderCluster := {|
  spc_Validations := [condition "QuotaValid" status (minutes 2)]; spc_ValidationProbeTimes := {["QuotaValid" := probe]};
  spc_ManagementClusterResourceID := management; spc_PlacementConditions := Some [condition "CapacityAvailable" "False" 1];
  spc_ServingCABundle := "ca"; spc_RoleAssignments := ["a"]; spc_PendingRoleAssignments := [];
  spc_KubeAPIServerCertificate := Some (Some "x"); spc_IngressCertificate := Some (Some "y") |}.
Definition hosted : HostedClusterStatus := {|
  hcs_History := [{| hist_State := "Completed"; hist_Version := "4.20.15"; hist_StartedTime := 5 |}];
  hcs_Conditions := [condition "Available" "True" 3; condition "IngressDefaultCertificateSynced" "True" 3];
  hcs_EndpointHost := "host"; hcs_EndpointPort := 443 |}.
Definition desire : ReadDesire := {| rd_Conditions := [condition "Successful" "True" 3]; rd_KubeContent := Some "raw" |}.
Definition reads (x : ServiceProviderCluster) : creationReads := {|
  cr_clusterAgain := Ok cluster; cr_spc := Ok x;
  cr_status := Ok {| cs_State := "ready"; cs_ProvisionErrorCode := EmptyString; cs_ProvisionErrorMessage := EmptyString;
                     cs_Description := EmptyString |};
  cr_inflight := Ok []; cr_hostedCluster := Ok desire; cr_secretSync := Ok desire; cr_clock := 9;
  cr_unmarshalHostedCluster := λ _, Some hosted; cr_unmarshalSecretSync := λ _, Some [condition "SecretCreated" "True" 3] |}.
Definition pass (now : Z) (x : ServiceProviderCluster) : dbView ClusterSpec * list OperationDoc * option syncOpError :=
  clusterCreate_SynchronizeOperation now (Ok creation) (Ok cluster) (reads x) None database.
Definition after (now : Z) (x : ServiceProviderCluster) : option (string * option (string)) :=
  (λ op, (op_Status op, ceb_Code <$> op_Error op)) <$> v_operations (pass now x).1.1 !! "u1".

Lemma followed_cluster : follows OperationRequestCreate ClusterResourceType clusterCreate_shouldReconcile creation cluster.
Proof. split_and!; by vm_compute. Qed.

Definition healthy : ServiceProviderCluster := spc "True" 0 (Some "/mc").

Lemma up : clusterUp (reads healthy) cluster.
Proof.
  split; [|split; [|split; [|split]]].
  - exists healthy. split_and!; simpl; try done; [by constructor|by eexists..].
  - split; [done|]. by eexists.
  - by exists cluster.
  - exists hosted. split; [|apply (hostedClusterLacks_None 9); vm_compute; reflexivity]. exists desire, "raw". split_and!; done.
  - eexists. split; [exists desire, "raw"; split_and!; done|done].
Qed.

Lemma cluster_creation_verdict_witness :
  ∃ newError, pass (minutes 20) healthy
    = tolerateConflict (UpdateOperationStatus (minutes 20) (Some creation) ProvisioningStateSucceeded newError None database).
Proof.
  destruct (cluster_creation_verdict (minutes 20) creation cluster (reads healthy) None database followed_cluster)
    as [(_ & es & _ & Hr)|(_ & newStatus & newError & Hr & Hs & _)].
  - exfalso. apply (f_equal snd) in Hr. vm_compute in Hr. discriminate.
  - exists newError. assert (newStatus = ProvisioningStateSucceeded) as <-; [|exact Hr]. apply Hs, up.
Defined.

(** The comment at the end of the check says that the hosted cluster is available and has
    installed a version; without a version that can be relied on neither is looked at. *)
Definition unproven (history : list ControlPlaneUpdateHistory) : HostedClusterStatus := {|
  hcs_History := history; hcs_Conditions := [condition "Available" "False" 3; condition "IngressDefaultCertificateSynced" "True" 3];
  hcs_EndpointHost := "host"; hcs_EndpointPort := 443 |}.

Example neither_available_nor_installed :
  let answer history := os_ProvisioningState <$> match hostedClusterOperationStatus (λ _, Some (unproven history)) 9 (Ok desire) with
                                                 | Ok state => Some state | Err _ => None end in
  answer [{| hist_State := "Partial"; hist_Version := "4.20.10"; hist_StartedTime := 5 |}] = Some "Succeeded" ∧
  answer [] = Some "Succeeded" ∧
  answer [{| hist_State := "Partial"; hist_Version := "4.20.15"; hist_StartedTime := 5 |}] = Some "Provisioning".
Proof. split_and!; vm_compute; reflexivity. Qed.

(** A failed validation waits for its ten minutes, and for a fresh attempt; placement and
    creation have their deadlines. *)
Example cluster_creation_passes :
  after (minutes 20) healthy = Some ("Succeeded", None) ∧
  after (minutes 11) (spc "False" (minutes 10) (Some "/mc")) = Some ("Provisioning", None) ∧
  after (minutes 12) (spc "False" (minutes 10) (Some "/mc")) = Some ("Failed", Some "InvalidResource") ∧
  after (minutes 30) (spc "False" (minutes 10) (Some "/mc")) = Some ("Provisioning", None) ∧
  after (minutes 30) (spc "True" 0 None) = Some ("Provisioning", None) ∧
  after (minutes 60) (spc "True" 0 None) = Some ("Failed", Some "AROHCPCapacityHeavyUse") ∧
  after (minutes 61) (spc "False" (minutes 10) (Some "/mc")) = Some ("Failed", Some "InvalidResource").
Proof. split_and!; vm_compute; reflexivity. Qed.
End ClusterCreationExample.
