(* ===== verification/ClusterDeletion.v ===== *)
(** * The deletions of clusters and external auths

    [backend/pkg/controllers/cluster/operations/operation_cluster_delete.go] and the
    creation and deletion controllers under [backend/pkg/controllers/externalauth/operations].
    The deletion of a cluster fails at its deadline with a message that says what is left.
    The decoding of cached content and the printing of a timestamp are arguments. *)
From S2P Require Import Prelude GoStrings RolloutTypes RolloutStatus StatusConditions ExternalAuthStatus.
From S2P Require Import OperationState OperationStore OperationUpdate ServiceStatus OperationControllers OperationSafety.
From S2P Require Import NodePoolOperations ClusterOperations.

Local Open Scope string_scope.
Local Open Scope Z_scope.

Definition deleting (message : string) : OperationState := NewOperationState ProvisioningStateDeleting message.

(** ** What is left of a cluster *)

(** What the deletion uses of a cluster besides what [OperationStore.v] has. *)
Record DeletedSpec := {
  del_ClusterServiceID : option string;
  del_ClusterServiceDeletionTimestamp : option Z;
}.

Definition DeletedDoc : Type := ResourceDoc DeletedSpec.

Definition clusterServiceDeletionStatus (rfc3339 : Z → string) (cluster : DeletedDoc) : OperationState :=
  match del_ClusterServiceID (res_rest cluster) with
  | None => succeeded
  | Some id =>
      match del_ClusterServiceDeletionTimestamp (res_rest cluster) with
      | None => deleting "ClusterService deletion not yet dispatched"
      | Some t => deleting ("ClusterService cluster " +:+ id +:+ " still exists (deletion dispatched at " +:+ rfc3339 t +:+ ")")
      end
  end.

(** The state of the cluster in Cluster Service; a 404 is [GetNotFound]. *)
Definition clusterServiceStatusForDeletion (status : result getError ClusterStatus) (cluster : DeletedDoc) :
    result stateError OperationState :=
  match del_ClusterServiceID (res_rest cluster) with
  | None => Ok succeeded
  | Some _ =>
      match status with
      | Err GetNotFound => Ok succeeded
      | Err (GetFailed e) => Err (CheckFailed e)
      | Ok st => Ok (deleting ("ClusterService state is " +:+ Quote (cs_State st)))
      end
  end.

(** A descendant; [desc_isDelete] is whether its properties decode to a desire of type
    [Delete]. *)
Record descendant := { desc_ResourceType : string; desc_isDelete : bool }.

Definition shouldCountChild (child : descendant) : bool :=
  let lowered := ToLower (desc_ResourceType child) in
  if strings_Contains lowered (ToLower "hcpOpenShiftControllers") then false
  else if strings_Contains lowered (ToLower "managementClusterContents") then false
  else if strings_Contains lowered (ToLower "readDesires") then false
  else if strings_Contains lowered (ToLower "applyDesires") && desc_isDelete child then false
  else true.

(** A listing: its items and the error of the iteration, or an error.  The counts are
    kept when the iteration fails. *)
Definition listing : Type := result string (list descendant * option string).

Definition countOne (counts : gmap string Z) (child : descendant) : gmap string Z :=
  if shouldCountChild child then <[desc_ResourceType child := default 0 (counts !! desc_ResourceType child) + 1]> counts else counts.

Definition countDescendants (l : listing) (counts : gmap string Z) : gmap string Z * option string :=
  match l with
  | Err e => (counts, Some e)
  | Ok (items, iteratorError) => (fold_left countOne items counts, iteratorError)
  end.

(** [crud] is the listing of the resource database, or the error of asking for it;
    [kubeApplier] that of the management cluster's, when the service provider's document
    names one.  Its errors are logged. *)
Definition remainingDescendantResources (crud : listing) (kubeApplier : option listing) : result stateError OperationState :=
  match countDescendants crud ∅ with
  | (_, Some e) => Err (CheckFailed e)
  | (counts, None) =>
      let counts := match kubeApplier with Some l => (countDescendants l counts).1 | None => counts end in
      let parts := (λ kv : string * Z, Itoa kv.2 +:+ " " +:+ kv.1) <$> map_to_list counts in
      match parts with
      | [] => Ok succeeded
      | _ => Ok (deleting ("remaining resources: " +:+ Join ", " (sort_by string_less parts)))
      end
  end.

(** ** The teardown of what was applied *)

Record ApplyDesire := { ad_Name : string; ad_ControllerName : option string }.

Definition ClusterResourcesControllerName : string := "ClusterResources".

Definition stepName (desireName : string) : string :=
  if String.eqb desireName (ToLower "HostedCluster") then "hosted cluster"
  else if String.eqb desireName (ToLower "NodePool") then "node pools"
  else if String.eqb desireName (ToLower "ManagedCluster") then "managed cluster"
  else if String.eqb desireName (ToLower "HostedClusterNamespace") || String.eqb desireName (ToLower "ControlPlaneNamespace")
  then "namespaces"
  else if String.eqb desireName (ToLower "PodNetworkInstance") then "pod network instances"
  else if String.eqb desireName (ToLower "PodNetwork") then "pod networks"
  else "cluster resources".

Definition stepOrder : list string :=
  ["cluster resources"; "node pools"; "managed cluster"; "hosted cluster"; "pod network instances"; "pod networks"; "namespaces"].

(** [management] is whether the service provider's document names a management cluster. *)
Definition applyDesireTeardownStatus (management : result getError bool) (applyDesires : result string (list ApplyDesire)) :
    result stateError OperationState :=
  match management with
  | Err GetNotFound => Ok succeeded
  | Err (GetFailed e) => Err (CheckFailed e)
  | Ok false => Ok succeeded
  | Ok true =>
      match applyDesires with
      | Err e => Err (CheckFailed e)
      | Ok desires =>
          match List.filter (λ d, bool_decide (ad_ControllerName d = Some ClusterResourcesControllerName)) desires with
          | [] => Ok succeeded
          | owned =>
              let steps := (λ d, stepName (ToLower (ad_Name d))) <$> owned in
              let count step := length (List.filter (String.eqb step) steps) in
              let part step := if (0 <? count step)%nat then Some (step +:+ " (" +:+ Itoa (Z.of_nat (count step)) +:+ ")") else None in
              match omap part stepOrder with
              | [] => Ok (deleting "cleaning up cluster resources")
              | parts => Ok (deleting ("tearing down " +:+ Join ", " parts))
              end
          end
      end
  end.

(** ** The deletion controller of clusters *)

Section cluster_deletion.
Context `{ConditionOps}.

Definition hostedClusterDeletionStatus (unmarshal : string → option HostedCluster) (readDesire : result getError ReadDesire) :
    result stateError OperationState :=
  match GetCachedHostedClusterForCluster unmarshal readDesire with
  | Err e => Err (CheckFailed e)
  | Ok (None, _) => Ok succeeded
  | Ok (Some _, _) => Ok (deleting "HostedCluster still exists")
  end.

(** What the controller reads besides the operation and the cluster.  The status is read
    for the message and for the operation. *)
Record deletionReads := {
  dr_status : result getError ClusterStatus;
  dr_inflight : result string (list InflightCheck);
  dr_crud : listing;
  dr_kubeApplier : option listing;
  dr_hostedCluster : result getError ReadDesire;
  dr_management : result getError bool;
  dr_applyDesires : result string (list ApplyDesire);
  dr_unmarshal : string → option HostedCluster;
  dr_rfc3339 : Z → string;
}.

Definition deletionChecks (reads : deletionReads) (cluster : DeletedDoc) : list (string * result stateError OperationState) :=
  [("clusterServiceDeletion", Ok (clusterServiceDeletionStatus (dr_rfc3339 reads) cluster));
   ("clusterServiceStatus", clusterServiceStatusForDeletion (dr_status reads) cluster);
   ("descendantResources", remainingDescendantResources (dr_crud reads) (dr_kubeApplier reads));
   ("hostedCluster", hostedClusterDeletionStatus (dr_unmarshal reads) (dr_hostedCluster reads));
   ("resourceTeardown", applyDesireTeardownStatus (dr_management reads) (dr_applyDesires reads))].

Definition deletionTimeoutSentence : string := "cluster deletion did not complete before the deadline".

(** Errors of checks are logged and leave their check out. *)
Definition buildDeletionTimeoutMessage (reads : deletionReads) (cluster : DeletedDoc) : string :=
  match omap checkState (deletionChecks reads cluster) with
  | [] => deletionTimeoutSentence
  | states =>
      match PickWorstOperationState (sortStates states) with
      | Err _ => deletionTimeoutSentence
      | Ok picked =>
          if String.eqb (os_Message picked) EmptyString then deletionTimeoutSentence
          else deletionTimeoutSentence +:+ "; " +:+ os_Message picked
      end
  end.

Definition clusterDelete_shouldReconcile (cluster : DeletedDoc) : bool :=
  bool_decide (is_Some (res_DeletionTimestamp cluster))
  && bool_decide (is_Some (del_ClusterServiceDeletionTimestamp (res_rest cluster)))
  && bool_decide (is_Some (del_ClusterServiceID (res_rest cluster))).

Context {S : Type} `{OperationDB S DeletedSpec}.

Definition clusterDelete_reconcile (now : Z) (reads : deletionReads) (post : option (OperationDoc → bool))
    (operation : OperationDoc) (s : S) : S * list OperationDoc * option syncOpError :=
  reconcileDeletion (λ st, String.eqb (cs_State st) ClusterStateReady) (ConvertClusterStatus (dr_inflight reads))
    now operation (dr_status reads) post s.

Definition clusterDelete_SynchronizeOperation (now : Z) (name : string) (reads : deletionReads)
    (post : option (OperationDoc → bool)) (s : S) : S * list OperationDoc * option syncOpError :=
  followDeletion ClusterResourceType now name
    (λ operation cluster s,
      if pastDeadline now (res_DeleteOperationCompletionDeadline cluster) then
        tolerateConflict (UpdateOperationStatus now (Some operation) ProvisioningStateFailed
          (Some (CloudError CloudErrorCodeInternalServerError (buildDeletionTimeoutMessage reads cluster) EmptyString [])) post s)
      else if negb (clusterDelete_shouldReconcile cluster) then (s, [], None)
      else clusterDelete_reconcile now reads post operation s)
    post s.

(** ** External auths *)

(** A creation has succeeded when Cluster Service has the external auth. *)
Definition externalAuthClusterServiceCreateOperationState (externalAuth : result string unit) : result stateError OperationState :=
  match externalAuth with Err e => Err (CheckFailed e) | Ok _ => Ok succeeded end.

Definition externalAuthCreate_shouldReconcile (externalAuth : DeletedDoc) : bool :=
  negb (bool_decide (is_Some (res_DeletionTimestamp externalAuth)))
  && bool_decide (is_Some (del_ClusterServiceID (res_rest externalAuth))).

Definition externalAuthCreate_SynchronizeOperation (now : Z) (operation : result getError OperationDoc)
    (externalAuth : result getError DeletedDoc) (answer : result string unit) (post : option (OperationDoc → bool)) (s : S) :
    S * list OperationDoc * option syncOpError :=
  followOperation OperationRequestCreate ExternalAuthResourceType externalAuthCreate_shouldReconcile
    (λ _ _, pickState [("externalAuthClusterServiceCreate", externalAuthClusterServiceCreateOperationState answer)])
    (λ _, completionOutcome false now None EmptyString) now operation externalAuth post s.

Definition externalAuthDelete_shouldReconcile (externalAuth : DeletedDoc) : bool :=
  bool_decide (is_Some (res_DeletionTimestamp externalAuth))
  && bool_decide (is_Some (del_ClusterServiceDeletionTimestamp (res_rest externalAuth)))
  && bool_decide (is_Some (del_ClusterServiceID (res_rest externalAuth))).

Definition externalAuthDelete_reconcile (now : Z) (status : result getError ExternalAuthServiceStatus)
    (post : option (OperationDoc → bool)) (operation : OperationDoc) (s : S) : S * list OperationDoc * option syncOpError :=
  reconcileDeletion (λ st, String.eqb (eas_State st) ExternalAuthStateReady) ConvertExternalAuthStatus
    now operation status post s.

Definition externalAuthDelete_SynchronizeOperation (now : Z) (name : string) (status : result getError ExternalAuthServiceStatus)
    (post : option (OperationDoc → bool)) (s : S) : S * list OperationDoc * option syncOpError :=
  followDeletion ExternalAuthResourceType now name
    (λ operation externalAuth s,
      if negb (externalAuthDelete_shouldReconcile externalAuth) then (s, [], None)
      else externalAuthDelete_reconcile now status post operation s)
    post s.
End cluster_deletion.
