(* ===== verification/DeletionSafety.v ===== *)
(** * Deletions that succeed

    A delete operation becomes [Succeeded] only when the document of its resource is gone
    from the database: Cluster Service's word is never enough.  For the controllers of
    [NodePoolOperations.v] and [ClusterDeletion.v]. *)
From S2P Require Import Prelude GoStrings RolloutTypes RolloutStatus StatusConditions StatusAggregators ExternalAuthStatus.
From S2P Require Import OperationState OperationStore OperationUpdate ServiceStatus OperationControllers OperationSafety.
From S2P Require Import NodePoolOperations ClusterOperations ClusterDeletion.

Local Open Scope string_scope.
Local Open Scope Z_scope.

Section gone.
Context {S R : Type} `{OperationDBLaws S R}.
Implicit Types (s : S) (op : OperationDoc) (v : dbView R).

(** Of two moments: whatever succeeded in between acted on a document that is gone. *)
Definition successesGone v v' : Prop :=
  ∀ n op', v_operations v' !! n = Some op' → op_Status op' = ProvisioningStateSucceeded →
    (∃ op, v_operations v !! n = Some op ∧ op_Status op = ProvisioningStateSucceeded) ∨
    (∃ id, op_ExternalID op' = Some id ∧ v_resources v' !! docKey id = None).

Lemma successesGone_refl v : successesGone v v.
Proof. intros n op' Hop Hs. left. eauto. Qed.

Lemma notify_gone post op s v :
  opInv (db_view s) → successesGone v (db_view s) → successesGone v (db_view (notifyOperationOwner post op s).1).
Proof.
  intros Hinv Hg. destruct (notify_view post op s Hinv) as [->|(n & cur & e & _ & Hcur & ->)]; [done|].
  intros m op'. simpl. rewrite lookup_insert_Some. intros [[<- <-]|[_ Hm]]; [|by apply Hg].
  simpl. intros Hs. by apply (Hg n cur).
Qed.

(** An update to another status makes nothing succeed. *)
Lemma update_gone now op newStatus newError post s :
  opInv (db_view s) → currentCopy op (db_view s) → newStatus ≠ ProvisioningStateSucceeded →
  successesGone (db_view s) (db_view (UpdateOperationStatus now (Some op) newStatus newError post s).1.1).
Proof.
  intros Hinv Hcur Hne. destruct (update_effect now op newStatus newError post s Hinv Hcur)
    as [[-> _]|(n & e & s1 & _ & _ & Hn & Hop & -> & Hc)]; [apply successesGone_refl|].
  pose proof (committed_inv _ _ _ _ _ _ _ _ Hinv Hn Hop Hc) as Hinv1.
  apply notify_gone; [done|]. intros m op' Hm Hs. left.
  assert (Hm' : v_operations (setOperation n (withOperationEtag e (withStatus now newStatus newError op)) (db_view s)) !! m = Some op').
  { destruct Hc as [[Hv _]|(k & d & _ & _ & _ & Hv)]; by rewrite Hv in Hm. }
  simpl in Hm'. rewrite lookup_insert_Some in Hm'. destruct Hm' as [[<- <-]|[_ Hm']]; [done|]. eauto.
Qed.

(** A completed deletion: the document goes first. *)
Lemma completed_gone now op post s :
  opInv (db_view s) → currentCopy op (db_view s) →
  successesGone (db_view s) (db_view (SetDeleteOperationAsCompleted now op post s).1.1).
Proof.
  intros Hinv Hcur. destruct (completed_effect now op post s Hinv Hcur)
    as [[_ Ho]|(n & e & id & v2 & s3 & Hinv3 & Hid & [Ho Hgone] & Hs3 & ->)].
  { intros m op'. rewrite Ho. intros Hop Hs. left. eauto. }
  apply notify_gone; [done|]. rewrite Hs3. intros m op'. simpl. rewrite lookup_insert_Some, Ho.
  intros [[<- <-]|[_ Hm]] Hs; [|left; by eauto]. right. exists id. by split.
Qed.

(** ** A pass *)

(** A document that was just read is the stored one. *)
Lemma read_current name op s : opInv (db_view s) → db_getOperation s name = Ok op → currentCopy op (db_view s).
Proof.
  intros Hinv Hop%db_getOperation_ok. destruct (inv_named _ Hinv _ _ Hop) as [Hn _]. intros n cur. congruence.
Qed.

Lemma followDeletion_gone ty now name reconcile post s :
  opInv (db_view s) →
  (∀ op d, currentCopy op (db_view s) → ShouldProcess OperationRequestDelete ty op = true →
    successesGone (db_view s) (db_view (reconcile op d s).1.1)) →
  successesGone (db_view s) (db_view (followDeletion ty now name reconcile post s).1.1).
Proof.
  intros Hinv Hrec. unfold followDeletion. destruct (db_getOperation s name) as [op|[]] eqn:Eo; [|apply successesGone_refl..].
  pose proof (read_current name op s Hinv Eo) as Hcur.
  destruct (ShouldProcess OperationRequestDelete ty op) eqn:Ep; [|apply successesGone_refl].
  destruct (op_ExternalID op) as [id|]; [|apply successesGone_refl].
  destruct (db_getResource s (docKey id)) as [d|[]]; [by apply Hrec|by apply completed_gone|apply successesGone_refl].
Qed.

(** A conversion that never makes a deletion succeed. *)
Lemma reconcileDeletion_gone {T} isReady (convert : OperationDoc → T → conversion) now op status post s :
  opInv (db_view s) → currentCopy op (db_view s) →
  (∀ st newStatus newError, convert op st = (newStatus, newError, None) → newStatus ≠ ProvisioningStateSucceeded) →
  successesGone (db_view s) (db_view (reconcileDeletion isReady convert now op status post s).1.1).
Proof.
  intros Hinv Hcur Hc. unfold reconcileDeletion. destruct status as [st|[]]; [|apply successesGone_refl..].
  destruct (isReady st); [apply successesGone_refl|].
  destruct (convert op st) as [[newStatus newError] [e|]] eqn:Ec; [apply successesGone_refl|].
  apply update_gone; [done|done|]. by eapply Hc.
Qed.
End gone.

(** Of a deletion that is not over, no conversion makes a success. *)
Lemma not_terminal op : IsTerminal (op_Status op) = false → op_Status op ≠ ProvisioningStateSucceeded.
Proof. intros Ht Hs. by rewrite Hs in Ht. Qed.

Ltac no_success :=
  intros (Hreq & Ht)%ShouldProcess_request Hc ->; apply not_terminal in Ht; rewrite Hreq in Hc; simpl in Hc.

Lemma nodePool_no_success ty op st newStatus newError :
  ShouldProcess OperationRequestDelete ty op = true → ConvertNodePoolStatus op st = (newStatus, newError, None) →
  newStatus ≠ ProvisioningStateSucceeded.
Proof.
  unfold ConvertNodePoolStatus. no_success. case_bool_decide; [by apply keepIf_ok in Hc as [?%list_elem_of_singleton _]|].
  repeat (destruct (String.eqb (nps_State st) _)); try first [done|congruence]. by case_bool_decide.
Qed.

Lemma externalAuth_no_success ty op st newStatus newError :
  ShouldProcess OperationRequestDelete ty op = true → ConvertExternalAuthStatus op st = (newStatus, newError, None) →
  newStatus ≠ ProvisioningStateSucceeded.
Proof.
  unfold ConvertExternalAuthStatus. no_success. repeat (destruct (String.eqb (eas_State st) _)); first [done|congruence].
Qed.

Lemma cluster_no_success checks ty op st newStatus newError :
  ShouldProcess OperationRequestDelete ty op = true → ConvertClusterStatus checks op st = (newStatus, newError, None) →
  newStatus ≠ ProvisioningStateSucceeded.
Proof.
  unfold ConvertClusterStatus. no_success.
  destruct (String.eqb (cs_State st) ClusterStateError).
  { apply (f_equal (λ c : conversion, c.1.1)) in Hc. simpl in Hc.
    destruct (String.eqb _ InflightChecksFailedProvisionErrorCode); [|done]. by destruct (convertInflightChecks checks). }
  repeat (destruct (String.eqb (cs_State st) _)); simpl in Hc; try first [done|congruence].
  all: by apply keepIf_ok in Hc as [?%list_elem_of_singleton _].
Qed.

(** ** The controllers *)

Lemma nodePool_deletion_gone {S} `{OperationDBLaws S PoolSpec} now name status post (s : S) :
  opInv (db_view s) → successesGone (db_view s) (db_view (delete_SynchronizeOperation now name status post s).1.1).
Proof.
  intros Hinv. apply followDeletion_gone; [done|]. intros op d Hcur Hp.
  destruct (negb (delete_shouldReconcile d)); [apply successesGone_refl|].
  apply reconcileDeletion_gone; [done|done|]. intros st newStatus newError. by apply (nodePool_no_success _ _ _ _ _ Hp).
Qed.

Section deletions.
Context {S : Type} `{OperationDBLaws S DeletedSpec} `{ConditionOps}.

(** (C15) A deletion succeeds only when the document is gone.  After any pass of the
    deletion controllers of clusters and of external auths, an operation that is
    [Succeeded] and was not before acted on a resource whose document is no longer in the
    database, whatever Cluster Service answered.  And past its deadline the deletion of a
    cluster that is still there is failed, with what is left of it. *)
Theorem deletion_succeeds_only_when_gone now name reads status post (s : S) :
  opInv (db_view s) →
  successesGone (db_view s) (db_view (clusterDelete_SynchronizeOperation now name reads post s).1.1) ∧
  successesGone (db_view s) (db_view (externalAuthDelete_SynchronizeOperation now name status post s).1.1) ∧
  (∀ op d id, db_getOperation s name = Ok op → ShouldProcess OperationRequestDelete ClusterResourceType op = true →
    op_ExternalID op = Some id → db_getResource s (docKey id) = Ok d →
    pastDeadline now (res_DeleteOperationCompletionDeadline d) = true →
    clusterDelete_SynchronizeOperation now name reads post s
    = tolerateConflict (UpdateOperationStatus now (Some op) ProvisioningStateFailed
        (Some (CloudError CloudErrorCodeInternalServerError (buildDeletionTimeoutMessage reads d) EmptyString [])) post s)).
Proof.
  intros Hinv. split_and!.
  - apply followDeletion_gone; [done|]. intros op d Hcur Hp.
    destruct (pastDeadline now _); [by apply update_gone|].
    destruct (negb (clusterDelete_shouldReconcile d)); [apply successesGone_refl|].
    apply reconcileDeletion_gone; [done|done|]. intros st newStatus newError. by apply (cluster_no_success _ _ _ _ _ _ Hp).
  - apply followDeletion_gone; [done|]. intros op d Hcur Hp.
    destruct (negb (externalAuthDelete_shouldReconcile d)); [apply successesGone_refl|].
    apply reconcileDeletion_gone; [done|done|]. intros st newStatus newError. by apply (externalAuth_no_success _ _ _ _ _ Hp).
  - intros op d id Ho Hp Hid Hd Hpast. unfold clusterDelete_SynchronizeOperation, followDeletion.
    by rewrite Ho, Hp, Hid, Hd, Hpast.
Qed.
End deletions.

(** ** A cluster that is being deleted *)

Module DeletionExample.
Import MemoryDB StatusInstances.

Definition deletion : OperationDoc :=
  withOperationEtag 5 (NewOperation "u1" 10 OperationRequestDelete OperationExample.clusterID EmptyString).
Definition cluster : DeletedDoc := {|
  res_ID := OperationExample.clusterID; res_Etag := 7; res_ProvisioningState := "Deleting"; res_ActiveOperationID := "u1";
  res_DeletionTimestamp := Some 10; res_DeleteOperationCompletionTimeout := None;
  res_DeleteOperationCompletionDeadline := Some 100;
  res_rest := {| del_ClusterServiceID := Some "/api/c"; del_ClusterServiceDeletionTimestamp := Some 12 |} |}.
Definition here : dbView DeletedSpec := {| v_operations := {["u1" := deletion]}; v_resources := {["/c" := cluster]} |}.
Definition gone : dbView DeletedSpec := {| v_operations := {["u1" := deletion]}; v_resources := ∅ |}.
Definition reads (state : string) : deletionReads := {|
  dr_status := Ok {| cs_State := state; cs_ProvisionErrorCode := EmptyString; cs_ProvisionErrorMessage := EmptyString;
                     cs_Description := EmptyString |};
  dr_inflight := Ok []; dr_crud := Ok ([{| desc_ResourceType := "t/nodePools"; desc_isDelete := false |};
                                        {| desc_ResourceType := "t/hcpOpenShiftControllers"; desc_isDelete := false |}], None);
  dr_kubeApplier := None; dr_hostedCluster := Err GetNotFound; dr_management := Ok true;
  dr_applyDesires := Ok [{| ad_Name := "nodePool"; ad_ControllerName := Some "ClusterResources" |}];
  dr_unmarshal := λ _, None; dr_rfc3339 := λ _, "12" |}.
Definition pass (now : Z) (v : dbView DeletedSpec) (state : string) :=
  clusterDelete_SynchronizeOperation now "u1" (reads state) None v.
Definition after (now : Z) (v : dbView DeletedSpec) (state : string) : option (string * option string) :=
  (λ op, (op_Status op, ceb_Message <$> op_Error op)) <$> v_operations (pass now v state).1.1 !! "u1".

Lemma gone_inv : opInv (db_view gone).
Proof.
  change (opInv gone). split.
  - intros n op. change (v_operations gone) with ({["u1" := deletion]} : gmap string _).
    rewrite lookup_singleton_Some. by intros [<- <-].
  - done.
  - done.
Qed.

Lemma deletion_succeeds_only_when_gone_witness :
  ∃ op', v_operations (db_view (pass 50 gone "uninstalling").1.1) !! "u1" = Some op' ∧
    op_Status op' = ProvisioningStateSucceeded ∧
    ((∃ op, v_operations (db_view gone) !! "u1" = Some op ∧ op_Status op = ProvisioningStateSucceeded) ∨
     ∃ id, op_ExternalID op' = Some id ∧ v_resources (db_view (pass 50 gone "uninstalling").1.1) !! docKey id = None).
Proof.
  destruct (deletion_succeeds_only_when_gone 50 "u1" (reads "uninstalling") (Err GetNotFound) None gone gone_inv) as [Hg _].
  destruct (v_operations (db_view (pass 50 gone "uninstalling").1.1) !! "u1") as [op'|] eqn:Eop; [|by vm_compute in Eop].
  exists op'. assert (Hs : op_Status op' = ProvisioningStateSucceeded) by (vm_compute in Eop; by injection Eop as <-).
  split_and!; [done|done|]. exact (Hg "u1" op' Eop Hs).
Defined.

(** Cluster Service calls the cluster ready, or gone: nothing happens while its document
    is there, until the deadline. *)
Example deletion_passes :
  after 50 here "ready" = Some ("Deleting", None) ∧ after 50 here "uninstalling" = Some ("Deleting", None) ∧
  after 50 gone "uninstalling" = Some ("Succeeded", None) ∧
  after 101 here "ready" = Some ("Failed", Some ("cluster deletion did not complete before the deadline; "
    +:+ "[clusterServiceDeletion] ClusterService cluster /api/c still exists (deletion dispatched at 12); "
    +:+ "[clusterServiceStatus] ClusterService state is " +:+ Quote "ready" +:+ "; "
    +:+ "[descendantResources] remaining resources: 1 t/nodePools; [resourceTeardown] tearing down node pools (1)")).
Proof. split_and!; vm_compute; reflexivity. Qed.
End DeletionExample.
