(* ===== verification/Dispatch.v ===== *)
(** * Dispatching updates: what the three controllers share

    [internal/controllerutils/cooldown.go], and the common part of the controllers that
    send updates of clusters, node pools and external auths to Cluster Service: read the
    document, compare what is desired with what Cluster Service has, send an update when
    they differ, and take some rejections for a reason to try again.  Times and durations
    are in nanoseconds. *)
From S2P Require Import Prelude GoStrings RolloutStatus StatusConditions StatusAggregators.

Local Open Scope string_scope.
Local Open Scope Z_scope.
Local Open Scope go_scope.

(** ** Cooldown *)

Section cooldown.
Context {C : Type} `{LRU C}.

Record TimeBasedCooldownChecker := { tb_cooldownDuration : Z; tb_nextExecTime : C }.

Definition withNextExecTime (c : TimeBasedCooldownChecker) (cache : C) : TimeBasedCooldownChecker :=
  {| tb_cooldownDuration := tb_cooldownDuration c; tb_nextExecTime := cache |}.

(** A key without a record is allowed; otherwise its time has to have passed. *)
Definition CanSync (now : Z) (key : string) (c : TimeBasedCooldownChecker) : bool * TimeBasedCooldownChecker :=
  let '(nextExecTime, cache) := lru_Get (tb_nextExecTime c) key in
  if match nextExecTime with None => true | Some t => t <? now end
  then (true, withNextExecTime c (lru_Add cache key (now + tb_cooldownDuration c)))
  else (false, withNextExecTime c cache).

(** [SettableCooldownChecker] is its cache. *)
Definition SetCooldown (now : Z) (key : string) (duration : Z) (cache : C) : C := lru_Add cache key (now + duration).

Definition SettableCooldownChecker_CanSync (now : Z) (key : string) (cache : C) : bool * C :=
  let '(nextExecTime, cache) := lru_Get cache key in
  (match nextExecTime with None => true | Some t => t <? now end, cache).

Definition TimeUntilReady (now : Z) (key : string) (cache : C) : Z * C :=
  let '(nextExecTime, cache) := lru_Get cache key in
  (match nextExecTime with None => 0 | Some t => if t - now <? 0 then 0 else t - now end, cache).

(** A run of a checker: the calls with their answers. *)
Fixpoint syncs (c : TimeBasedCooldownChecker) (calls : list (Z * string)) : list (Z * string * bool) :=
  match calls with
  | [] => []
  | (now, key) :: rest => let '(ok, c) := CanSync now key c in (now, key, ok) :: syncs c rest
  end.
End cooldown.
Arguments TimeBasedCooldownChecker : clear implicits.

(** ** Rejections *)

(** The error of an update: an answer of Cluster Service or another one. *)
Inductive updateError : Type := OcmError (status : Z) (reason : string) | OtherUpdateError (e : string).

Definition StatusBadRequest : Z := 400.

(** Cluster Service rejected the update with a reason that has all the phrases. *)
Definition rejectedFor (phrases : list string) (e : updateError) : bool :=
  match e with
  | OcmError status reason => (status =? StatusBadRequest) && forallb (strings_Contains reason) phrases
  | OtherUpdateError _ => false
  end.

(** ** One pass *)

(** The errors of a pass; [Panics] stands for the crash of a nil dereference. *)
Inductive dispatchError : Type :=
  | CacheFailed (e : string)
  | GetDocumentFailed (e : string)
  | SubscriptionFailed (e : string)
  | TenantMissing
  | GetServiceProviderFailed (e : string)
  | GetClusterServiceFailed (e : string)
  | ConfigFailed (e : string)
  | BuildFailed (e : string)
  | MarshalFailed (e : string)
  | UpdateFailed (e : updateError)
  | Panics.

(** A read that may end the pass: without an error when nothing is found. *)
Definition found {A} (failed : string → dispatchError) (r : result getError A) : result (option dispatchError) A :=
  match r with
  | Ok a => Ok a
  | Err GetNotFound => Err None
  | Err (GetFailed e) => Err (Some (failed e))
  end.

Definition failing {A} (r : result dispatchError A) : result (option dispatchError) A :=
  match r with Ok a => Ok a | Err e => Err (Some e) end.

Section pass.
Context {Doc Config Patch : Type} `{EqDecision Config}.

(** The document, first from the cache and then from the database. *)
Definition readForWork (needsWork : Doc → bool) (cached stored : result getError Doc) : result (option dispatchError) Doc :=
  let* document := found CacheFailed cached in
  if negb (needsWork document) then Err None
  else
    let* document := found GetDocumentFailed stored in
    if negb (needsWork document) then Err None else Ok document.

(** The update that is sent, if any, and the error of the pass. *)
Definition compareAndSend (desired actual : Config) (build : result dispatchError Patch) (marshal : Patch → option string)
    (update : Patch → option updateError) (tolerated : updateError → bool) : option Patch * option dispatchError :=
  if decide (desired = actual) then (None, None)
  else match build with
  | Err e => (None, Some e)
  | Ok patch =>
      match marshal patch with
      | Some e => (None, Some (MarshalFailed e))
      | None =>
          (Some patch,
           match update patch with
           | None => None
           | Some e => if tolerated e then None else Some (UpdateFailed e)
           end)
      end
  end.

Definition passOf (r : result (option dispatchError) (option Patch * option dispatchError)) : option Patch * option dispatchError :=
  match r with Ok sent => sent | Err e => (None, e) end.
End pass.

(** A document needs work when it is not being deleted and Cluster Service knows it. *)
Definition dispatchNeedsWork (deletionTimestamp : option Z) (clusterServiceID : option string) : bool :=
  match deletionTimestamp, clusterServiceID with
  | None, Some id => negb (String.eqb id EmptyString)
  | _, _ => false
  end.

(** ** Theorems *)

Section cooldown_theorems.
Context {C : Type} `{LRULaws C}.

Lemma CanSync_spec now key (c c' : TimeBasedCooldownChecker C) ok : CanSync now key c = (ok, c') →
  ok = match lru_lookup (tb_nextExecTime c) key with None => true | Some t => t <? now end ∧
  tb_cooldownDuration c' = tb_cooldownDuration c ∧
  (ok = true → tb_nextExecTime c' = lru_Add (lru_Get (tb_nextExecTime c) key).2 key (now + tb_cooldownDuration c)) ∧
  (ok = false → tb_nextExecTime c' = (lru_Get (tb_nextExecTime c) key).2).
Proof.
  unfold CanSync. rewrite <- lru_Get_value.
  destruct (lru_Get (tb_nextExecTime c) key) as [next cache]. simpl.
  destruct (match next with Some t => t <? now | None => true end) eqn:E; intros [= <- <-]; rewrite ?E; done.
Qed.

(** The entries after a call, when the cache has room for the key. *)
Lemma CanSync_lookup now key (c c' : TimeBasedCooldownChecker C) ok key' : CanSync now key c = (ok, c') →
  Z.of_nat (size ({[key]} ∪ lru_keys (tb_nextExecTime c))) <= firstObservedBadCacheCapacity →
  lru_lookup (tb_nextExecTime c') key'
  = if ok && String.eqb key key' then Some (now + tb_cooldownDuration c) else lru_lookup (tb_nextExecTime c) key'.
Proof.
  intros Hc Hroom. destruct (CanSync_spec _ _ _ _ _ Hc) as (_ & _ & Hyes & Hno).
  destruct ok; simpl; [|by rewrite (Hno eq_refl), lru_Get_lookup].
  rewrite (Hyes eq_refl).
  assert (Hkeys : lru_keys (lru_Get (tb_nextExecTime c) key).2 = lru_keys (tb_nextExecTime c)).
  { apply set_eq. intros k. by rewrite !elem_of_lru_keys, lru_Get_lookup. }
  destruct (String.eqb_spec key key') as [<-|Hne]; [apply lru_Add_same|].
  rewrite lru_Add_other, lru_Get_lookup by (rewrite ?Hkeys; done). done.
Qed.

(** What the checker keeps: a key's record is the end of the cooldown of its last
    allowed call. *)
Definition within (keys : gset string) (c : TimeBasedCooldownChecker C) : Prop :=
  lru_keys (tb_nextExecTime c) ⊆ keys ∧ 0 <= tb_cooldownDuration c.

Lemma CanSync_within keys now key (c c' : TimeBasedCooldownChecker C) ok :
  Z.of_nat (size keys) <= firstObservedBadCacheCapacity → key ∈ keys → within keys c →
  CanSync now key c = (ok, c') →
  within keys c' ∧ tb_cooldownDuration c' = tb_cooldownDuration c ∧
  (∀ key', lru_lookup (tb_nextExecTime c') key'
     = if ok && String.eqb key key' then Some (now + tb_cooldownDuration c) else lru_lookup (tb_nextExecTime c) key').
Proof.
  intros Hsize Hkey [Hsub Hd] Hc.
  assert (Hroom : Z.of_nat (size ({[key]} ∪ lru_keys (tb_nextExecTime c))) <= firstObservedBadCacheCapacity).
  { assert (size ({[key]} ∪ lru_keys (tb_nextExecTime c)) <= size keys)%nat by (apply subseteq_size; set_solver). lia. }
  pose proof (λ key', CanSync_lookup _ _ _ _ _ key' Hc Hroom) as Hl.
  destruct (CanSync_spec _ _ _ _ _ Hc) as (_ & Hdur & _).
  split_and!; [|done..]. split; [|by rewrite Hdur].
  intros k. rewrite elem_of_lru_keys, Hl.
  destruct (ok && String.eqb key k) eqn:E; [|rewrite <- elem_of_lru_keys; apply Hsub].
  intros _. apply andb_true_iff in E as [_ <-%String.eqb_eq]. done.
Qed.

(** With a record of [t], the next allowed call is after [t], and a call is refused no
    later than a cooldown after an allowed one, or up to [t]. *)
Lemma syncs_after keys calls : ∀ (c : TimeBasedCooldownChecker C) key t mid (later : Z) (ok : bool) post,
  Z.of_nat (size keys) <= firstObservedBadCacheCapacity → within keys c → Forall (λ call, call.2 ∈ keys) calls →
  lru_lookup (tb_nextExecTime c) key = Some t →
  syncs c calls = (mid ++ (later, key, ok) :: post)%list →
  if ok then t < later
  else later <= t ∨ ∃ now, (now, key, true) ∈ mid ∧ later <= now + tb_cooldownDuration c.
Proof.
  induction calls as [|[now key'] calls IH]; intros c key t mid later ok post Hsize Hw Hkeys Ht Hrun; [by destruct mid|].
  simpl in Hrun. destruct (CanSync now key' c) as [ok' c'] eqn:Ec.
  apply Forall_cons in Hkeys as [Hk Hkeys]. simpl in Hk.
  destruct (CanSync_within _ _ _ _ _ _ Hsize Hk Hw Ec) as (Hw' & Hd & Hl).
  destruct (CanSync_spec _ _ _ _ _ Ec) as (Hok & _).
  destruct mid as [|m mid]; simpl in Hrun; [injection Hrun as <- <- <- _|injection Hrun as <- Hrun].
  { rewrite Ht in Hok. destruct ok'; symmetry in Hok; [by apply Z.ltb_lt|left; by apply Z.ltb_ge]. }
  specialize (Hl key). rewrite Ht in Hl.
  destruct ok'; simpl in Hl; [destruct (String.eqb_spec key' key) as [->|]|].
  - (* allowed again *)
    rewrite Ht in Hok. symmetry in Hok. apply Z.ltb_lt in Hok.
    specialize (IH c' key _ mid later ok post Hsize Hw' Hkeys Hl Hrun). rewrite Hd in IH.
    destruct Hw as [_ Hpos]. destruct ok; [lia|].
    right. destruct IH as [IH|(now' & Hin & IH)].
    + exists now. split; [apply list_elem_of_here|lia].
    + exists now'. split; [by apply list_elem_of_further|done].
  - specialize (IH c' key _ mid later ok post Hsize Hw' Hkeys Hl Hrun). rewrite Hd in IH.
    destruct ok; [done|]. destruct IH as [IH|(now' & Hin & IH)]; [by left|right; exists now'].
    split; [by apply list_elem_of_further|done].
  - specialize (IH c' key _ mid later ok post Hsize Hw' Hkeys Hl Hrun). rewrite Hd in IH.
    destruct ok; [done|]. destruct IH as [IH|(now' & Hin & IH)]; [by left|right; exists now'].
    split; [by apply list_elem_of_further|done].
Qed.

Lemma syncs_split calls : ∀ (c : TimeBasedCooldownChecker C) keys pre first key later,
  Z.of_nat (size keys) <= firstObservedBadCacheCapacity → within keys c → Forall (λ call, call.2 ∈ keys) calls →
  syncs c calls = (pre ++ (first, key, true) :: later)%list →
  ∃ c' calls', within keys c' ∧ Forall (λ call, call.2 ∈ keys) calls' ∧ syncs c' calls' = later ∧
    tb_cooldownDuration c' = tb_cooldownDuration c ∧
    lru_lookup (tb_nextExecTime c') key = Some (first + tb_cooldownDuration c).
Proof.
  induction calls as [|[now key'] calls IH]; intros c keys pre first key later Hsize Hw Hkeys Hrun; [by destruct pre|].
  simpl in Hrun. destruct (CanSync now key' c) as [ok' c'] eqn:Ec.
  apply Forall_cons in Hkeys as [Hk Hkeys]. simpl in Hk.
  destruct (CanSync_within _ _ _ _ _ _ Hsize Hk Hw Ec) as (Hw' & Hd & Hl).
  destruct pre as [|p pre]; simpl in Hrun; [injection Hrun as <- <- -> Hrun|injection Hrun as <- Hrun].
  - exists c', calls. split_and!; try done. rewrite Hl. simpl. by rewrite String.eqb_refl.
  - rewrite <- Hd. by apply (IH c' keys pre).
Qed.

(** The cooldown: between two allowed calls for a key more than the cooldown passes, and
    a call is refused only within the cooldown of an allowed one. *)
Theorem cooldown_respected (keys : gset string) calls (c : TimeBasedCooldownChecker C) pre first key mid later ok post :
  Z.of_nat (size keys) <= firstObservedBadCacheCapacity → within keys c → Forall (λ call, call.2 ∈ keys) calls →
  syncs c calls = (pre ++ (first, key, true) :: mid ++ (later, key, ok) :: post)%list →
  if ok then first + tb_cooldownDuration c < later
  else ∃ now, (now, key, true) ∈ (first, key, true) :: mid ∧ later <= now + tb_cooldownDuration c.
Proof.
  intros Hsize Hw Hkeys Hrun.
  destruct (syncs_split _ _ _ _ _ _ _ Hsize Hw Hkeys Hrun) as (c' & calls' & Hw' & Hkeys' & Hrun' & Hd & Hl).
  pose proof (syncs_after keys calls' c' key _ mid later ok post Hsize Hw' Hkeys' Hl Hrun') as H1.
  rewrite Hd in H1. destruct ok; [done|].
  destruct H1 as [H1|(now & Hin & H1)].
  - exists first. split; [apply list_elem_of_here|done].
  - exists now. split; [by apply list_elem_of_further|done].
Qed.
End cooldown_theorems.

(** ** A run: two clusters, a minute of cooldown *)

Module DispatchExamples.
Import StatusInstances.

Definition minute : Z := 60000000000.
Definition checker : TimeBasedCooldownChecker (gmap string Z) := {| tb_cooldownDuration := minute; tb_nextExecTime := ∅ |}.
Definition calls : list (Z * string) :=
  [(0, "one"); (10 * minute, "two"); (10 * minute + 1, "one"); (11 * minute, "one"); (11 * minute + 2, "one")].

Lemma cooldown_respected_witness :
  syncs checker calls
  = ([] ++ (0, "one", true) :: [(10 * minute, "two", true)] ++ (10 * minute + 1, "one", true)
    :: [(11 * minute, "one", false); (11 * minute + 2, "one", true)])%list ∧
  0 + minute < 10 * minute + 1.
Proof.
  assert (Hrun : syncs checker calls
    = ([] ++ (0, "one", true) :: [(10 * minute, "two", true)] ++ (10 * minute + 1, "one", true)
      :: [(11 * minute, "one", false); (11 * minute + 2, "one", true)])%list) by (vm_compute; reflexivity).
  split; [exact Hrun|].
  apply (cooldown_respected {[ "one"; "two" ]} calls checker [] 0 "one" [(10 * minute, "two", true)] (10 * minute + 1) true
    [(11 * minute, "one", false); (11 * minute + 2, "one", true)]); [|split|..].
  - vm_compute. discriminate.
  - set_solver.
  - vm_compute. discriminate.
  - repeat constructor; simpl; set_solver.
  - exact Hrun.
Defined.
End DispatchExamples.
