(* ===== verification/ClusterDispatch.v ===== *)
(** * Dispatching cluster updates to Cluster Service

    [internal/ocm/cluster_update_dispatch_config.go], the conversions of
    [internal/ocm/convert.go] it uses, and
    [backend/pkg/controllers/cluster/update/cluster_cluster_service_update_dispatch_controller.go]:
    the stored cluster and the cluster of Cluster Service are projected to the same
    configuration, and an update is sent when the two differ.

    The SDK's cluster is what its getters return; the SDK's builder is what was set on it;
    Cluster Service's merge of an update is a parameter with laws. *)
From Stdlib Require Import SpecFloat.
From S2P Require Import Prelude GoStrings GoDuration GoFloat RolloutTypes RolloutStatus VersionRules StatusConditions.
From S2P Require Import OperationStore ClusterAdmission ClusterChecks ClusterValidation ClusterValidated Dispatch.

Local Open Scope string_scope.
Local Open Scope Z_scope.
Local Open Scope go_scope.

(** ** What Cluster Service has *)

(** [GetEtcdEncryption] and [GetDataEncryption], when both are set: the key management
    mode, if any, the encryption type and the version of the active key, empty if unset. *)
Record CSEtcd := { cse_KeyManagementMode : option string; cse_EncryptionType : string; cse_KeyVersion : string }.

(** A registry has credentials, if any, with a managed identity, if any. *)
Record CSAzure := { csa_Etcd : option CSEtcd; csa_ContainerRegistry : option (option (option string)) }.

Record CSAutoscaler := {
  csas_MaxNodeProvisionTime : string;
  csas_MaxPodGracePeriod : Z;
  csas_PodPriorityThreshold : Z;
  csas_MaxNodesTotal : Z;
}.

(** The grace period as for node pools; the mode and values of the allowed CIDR blocks;
    the source and mirrors of each image mirror. *)
Record CSCluster := {
  csc_NodeDrainGracePeriod : option (option string * Z);
  csc_AllowedCIDRs : option (option string * list string);
  csc_ImageDigestMirrors : list (option string * option (list string));
  csc_Properties : gmap string string;
  csc_Azure : option CSAzure;
  csc_Autoscaler : option CSAutoscaler;
}.

Definition csKeyManagementModePlatformManaged : string := "platform_managed".
Definition csKeyManagementModeCustomerManaged : string := "customer_managed".
Definition csCustomerManagedEncryptionTypeKms : string := "kms".
Definition CSCIDRBlockAllowAccessModeAllowAll : string := "allow_all".
Definition CSCIDRBlockAllowAccessModeAllowList : string := "allow_list".
Definition CSPropertySingleReplica : string := "hosted_cluster_single_replica".
Definition CSPropertySizeOverride : string := "hosted_cluster_size_override".
Definition CSPropertyCPOImageOverride : string := "control_plane_operator_image".
Definition CSPropertyEnabled : string := "true".
Definition CSPropertyE2EMinimalControlPlaneSize : string := "e2e_minimal".
Definition minutesUnit : string := "minutes".

(** ** The configuration *)

(** [clusterUpdateDispatchConfig].  The nested [Etcd] structure holds nothing but the
    version of the active key, when there is one. *)
Record clusterUpdateDispatchConfig := {
  cfg_NodeDrainTimeoutMinutes : Z;
  cfg_AuthorizedCIDRs : option (list string);
  cfg_ImageDigestMirrors : list (string * list string);
  cfg_Autoscaling : ClusterAutoscalingProfile;
  cfg_ControlPlaneAvailability : string;
  cfg_ControlPlanePodSizing : string;
  cfg_ControlPlaneOperatorImage : string;
  cfg_DesiredHostedClusterControlPlaneSize : option string;
  cfg_KmsActiveKeyVersion : option string;
  cfg_PullManagedIdentity : option string;
}.

#[export] Instance ClusterAutoscalingProfile_eq_dec : EqDecision ClusterAutoscalingProfile.
Proof. solve_decision. Defined.
#[export] Instance clusterUpdateDispatchConfig_eq_dec : EqDecision clusterUpdateDispatchConfig.
Proof. solve_decision. Defined.

(** Two configurations have the same canonical JSON when they are equal with the empty
    lists taken for nil: [omitempty] leaves out both, zero numbers and empty strings, but
    keeps pointers that are set. *)
Definition canonicalJSON (c : clusterUpdateDispatchConfig) : clusterUpdateDispatchConfig := {|
  cfg_NodeDrainTimeoutMinutes := cfg_NodeDrainTimeoutMinutes c;
  cfg_AuthorizedCIDRs := match cfg_AuthorizedCIDRs c with Some [] => None | l => l end;
  cfg_ImageDigestMirrors := cfg_ImageDigestMirrors c;
  cfg_Autoscaling := cfg_Autoscaling c;
  cfg_ControlPlaneAvailability := cfg_ControlPlaneAvailability c;
  cfg_ControlPlanePodSizing := cfg_ControlPlanePodSizing c;
  cfg_ControlPlaneOperatorImage := cfg_ControlPlaneOperatorImage c;
  cfg_DesiredHostedClusterControlPlaneSize := cfg_DesiredHostedClusterControlPlaneSize c;
  cfg_KmsActiveKeyVersion := cfg_KmsActiveKeyVersion c;
  cfg_PullManagedIdentity := cfg_PullManagedIdentity c;
|}.

(** ** From the stored documents *)

Definition clusterUpdateDispatchConfigImageDigestMirrorsFromRP (mirrors : list ImageDigestMirror) : list (string * list string) :=
  (λ m, (idm_Source m, default [] (idm_Mirrors m))) <$> mirrors.

(** A customer managed profile that is missing, or has no key, is dereferenced. *)
Definition clusterUpdateDispatchEtcdFromRP (etcd : EtcdDataEncryptionProfile) : result version_panic (option string) :=
  if negb (String.eqb (de_KeyManagementMode etcd) EtcdDataEncryptionKeyManagementModeTypeCustomerManaged) then Ok None
  else match de_CustomerManaged etcd with
  | None => Err NilDereference
  | Some customerManaged =>
      if String.eqb (cm_EncryptionType customerManaged) CustomerManagedEncryptionTypeKMS then
        match cm_Kms customerManaged with
        | None => Err NilDereference
        | Some kms => Ok (Some (key_Version (kms_ActiveKey kms)))
        end
      else Ok None
  end.

Section dispatch.
Context {V : Type}.

(** [size] is the size the service provider's document asks for; without a document there
    is none. *)
Definition clusterUpdateDispatchConfigFromRP (cluster : ClusterResource V) (size : option string) :
    result version_panic clusterUpdateDispatchConfig :=
  let properties := cr_CustomerProperties cluster in
  let features := csp_ExperimentalFeatures (cr_ServiceProviderProperties cluster) in
  let* version := clusterUpdateDispatchEtcdFromRP (ccp_Etcd properties) in
  Ok {|
    cfg_NodeDrainTimeoutMinutes := ccp_NodeDrainTimeoutMinutes properties;
    cfg_AuthorizedCIDRs := api_AuthorizedCIDRs (ccp_API properties);
    cfg_ImageDigestMirrors :=
      clusterUpdateDispatchConfigImageDigestMirrorsFromRP (default [] (ccp_ImageDigestMirrors properties));
    cfg_Autoscaling := ccp_Autoscaling properties;
    cfg_ControlPlaneAvailability := ef_ControlPlaneAvailability features;
    cfg_ControlPlanePodSizing := ef_ControlPlanePodSizing features;
    cfg_ControlPlaneOperatorImage := ef_ControlPlaneOperatorImage features;
    cfg_DesiredHostedClusterControlPlaneSize := size;
    cfg_KmsActiveKeyVersion := version;
    cfg_PullManagedIdentity := rid_String <$> cpf_PullManagedIdentity (ccp_Platform properties);
  |}.
End dispatch.

(** ** From Cluster Service *)

Definition ClusterUpdateDispatchConfigNodeDrainTimeoutFromCS (csCluster : CSCluster) : Z :=
  match csc_NodeDrainGracePeriod csCluster with
  | Some (Some unit, value) => if String.eqb unit minutesUnit then value else 0
  | _ => 0
  end.

Definition ClusterUpdateDispatchConfigAuthorizedCIDRsFromCS (csCluster : CSCluster) : option (list string) :=
  match csc_AllowedCIDRs csCluster with
  | None => None
  | Some (mode, values) =>
      if String.eqb (default EmptyString mode) CSCIDRBlockAllowAccessModeAllowList then Some values else None
  end.

Definition clusterUpdateDispatchConfigImageDigestMirrorsFromCS (csCluster : CSCluster) : list (string * list string) :=
  omap (λ m : option string * option (list string), (λ source, (source, default [] m.2)) <$> m.1)
    (csc_ImageDigestMirrors csCluster).

(** The properties are ranged over in any order, each sets a field of its own. *)
Definition availabilityFromCS (properties : gmap string string) : string :=
  if bool_decide (properties !! CSPropertySingleReplica = Some CSPropertyEnabled) then SingleReplicaControlPlane
  else EmptyString.
Definition podSizingFromCS (properties : gmap string string) : string :=
  if bool_decide (properties !! CSPropertySizeOverride = Some CSPropertyE2EMinimalControlPlaneSize)
  then MinimalControlPlanePodSizing else EmptyString.
Definition operatorImageFromCS (properties : gmap string string) : string :=
  default EmptyString (properties !! CSPropertyCPOImageOverride).

Definition clusterUpdateDispatchConfigServiceProviderClusterDispatchDesiredHostedClusterControlPlaneSizeFromCS
    (properties : gmap string string) : option string :=
  property ← properties !! CSPropertySizeOverride;
  if String.eqb property EmptyString || String.eqb property CSPropertyE2EMinimalControlPlaneSize then None else Some property.

(** The conversion of [int] to [int32] wraps around, that of seconds drops a fraction;
    [None] is a time that does not parse. *)
Definition clusterUpdateDispatchConfigAutoscalingFromCS (autoscaler : option CSAutoscaler) : option ClusterAutoscalingProfile :=
  match autoscaler with
  | None => Some {| as_MaxNodesTotal := 0; as_MaxPodGracePeriodSeconds := 0; as_MaxNodeProvisionTimeSeconds := 0;
                    as_PodPriorityThreshold := 0 |}
  | Some a =>
      seconds ← (if String.eqb (csas_MaxNodeProvisionTime a) EmptyString then Some 0
                 else (λ d, wrap32 (toInt (Seconds d))) <$> ParseDuration (csas_MaxNodeProvisionTime a));
      Some {| as_MaxNodesTotal := wrap32 (csas_MaxNodesTotal a);
              as_MaxPodGracePeriodSeconds := wrap32 (csas_MaxPodGracePeriod a);
              as_MaxNodeProvisionTimeSeconds := seconds;
              as_PodPriorityThreshold := wrap32 (csas_PodPriorityThreshold a) |}
  end.

Definition ClusterUpdateDispatchConfigContainerRegistryPullMIFromCS (azure : option CSAzure) : option string :=
  azure ← azure; registry ← csa_ContainerRegistry azure; credentials ← registry; credentials.

(** The test of the encryption type asks for both an empty type and another one than
    [kms], so any type that is set is taken for [kms]. *)
Definition clusterUpdateDispatchConfigEtcdFromCS (azure : option CSAzure) : option string :=
  etcd ← azure ≫= csa_Etcd;
  mode ← cse_KeyManagementMode etcd;
  if String.eqb mode csKeyManagementModePlatformManaged then None
  else if String.eqb (cse_EncryptionType etcd) EmptyString
          && negb (String.eqb (cse_EncryptionType etcd) csCustomerManagedEncryptionTypeKms) then None
  else Some (cse_KeyVersion etcd).

Definition clusterUpdateDispatchConfigFromCS (csCluster : CSCluster) : option clusterUpdateDispatchConfig :=
  autoscaling ← clusterUpdateDispatchConfigAutoscalingFromCS (csc_Autoscaler csCluster);
  Some {|
    cfg_NodeDrainTimeoutMinutes := ClusterUpdateDispatchConfigNodeDrainTimeoutFromCS csCluster;
    cfg_AuthorizedCIDRs := ClusterUpdateDispatchConfigAuthorizedCIDRsFromCS csCluster;
    cfg_ImageDigestMirrors := clusterUpdateDispatchConfigImageDigestMirrorsFromCS csCluster;
    cfg_Autoscaling := autoscaling;
    cfg_ControlPlaneAvailability := availabilityFromCS (csc_Properties csCluster);
    cfg_ControlPlanePodSizing := podSizingFromCS (csc_Properties csCluster);
    cfg_ControlPlaneOperatorImage := operatorImageFromCS (csc_Properties csCluster);
    cfg_DesiredHostedClusterControlPlaneSize :=
      clusterUpdateDispatchConfigServiceProviderClusterDispatchDesiredHostedClusterControlPlaneSizeFromCS (csc_Properties csCluster);
    cfg_KmsActiveKeyVersion := clusterUpdateDispatchConfigEtcdFromCS (csc_Azure csCluster);
    cfg_PullManagedIdentity := ClusterUpdateDispatchConfigContainerRegistryPullMIFromCS (csc_Azure csCluster);
  |}.

(** ** An update *)

(** The size override: the property's value, or that it has to be absent. *)
Definition ConvertHostedClusterSizeOverrideToCS (sizing : string) (size : option string) : option string :=
  match size with
  | Some size => Some (ToLower size)
  | None => if String.eqb sizing MinimalControlPlanePodSizing then Some CSPropertyE2EMinimalControlPlaneSize else None
  end.

(** The mode and the values that are set. *)
Definition convertCIDRBlockAllowAccessRPToCS (cidrs : option (list string)) : option (string * option (list string)) :=
  match cidrs with
  | None => Some (CSCIDRBlockAllowAccessModeAllowAll, None)
  | Some [] => None
  | Some values => Some (CSCIDRBlockAllowAccessModeAllowList, Some values)
  end.

Definition convertRpAutoscalarToCSBuilder (profile : ClusterAutoscalingProfile) : option CSAutoscaler :=
  d ← ParseDuration (Itoa (as_MaxNodeProvisionTimeSeconds profile) +:+ "s");
  Some {| csas_MaxNodeProvisionTime := FormatFloat (Minutes d) +:+ "m";
          csas_MaxPodGracePeriod := as_MaxPodGracePeriodSeconds profile;
          csas_PodPriorityThreshold := as_PodPriorityThreshold profile;
          csas_MaxNodesTotal := as_MaxNodesTotal profile |}.

(** What an update sets.  Its part about Azure sets the version of the active key, or the
    managed identity that pulls images, or both; the rest is always set. *)
Record ClusterPatch := {
  cpt_NodeDrainGracePeriod : string * Z;
  cpt_AllowedCIDRs : string * option (list string);
  cpt_ImageDigestMirrors : list (string * list string);
  cpt_Properties : gmap string string;
  cpt_KeyVersion : option string;
  cpt_PullManagedIdentity : option string;
  cpt_Autoscaler : CSAutoscaler;
}.

#[export] Instance CSAutoscaler_eq_dec : EqDecision CSAutoscaler.
Proof. solve_decision. Defined.
#[export] Instance ClusterPatch_eq_dec : EqDecision ClusterPatch.
Proof. solve_decision. Defined.

Definition setProperty (key : string) (value : option string) (properties : gmap string string) : gmap string string :=
  match value with Some v => <[key := v]> properties | None => delete key properties end.

Definition patchProperties (c : clusterUpdateDispatchConfig) (baseProperties : gmap string string) : gmap string string :=
  let image := cfg_ControlPlaneOperatorImage c in
  setProperty CSPropertyCPOImageOverride (if String.eqb image EmptyString then None else Some image)
    (setProperty CSPropertySizeOverride
       (ConvertHostedClusterSizeOverrideToCS (cfg_ControlPlanePodSizing c) (cfg_DesiredHostedClusterControlPlaneSize c))
       (setProperty CSPropertySingleReplica
          (if String.eqb (cfg_ControlPlaneAvailability c) SingleReplicaControlPlane then Some CSPropertyEnabled else None)
          baseProperties)).

Inductive buildError : Type := EmptyAuthorizedCIDRs | BadProvisionTime | BuildPanics (p : version_panic).

(** On an update the builder of the active key is there and that of Azure is not. *)
Definition applyToCSBuilders (c : clusterUpdateDispatchConfig) (baseProperties : gmap string string) : result buildError ClusterPatch :=
  match convertCIDRBlockAllowAccessRPToCS (cfg_AuthorizedCIDRs c) with
  | None => Err EmptyAuthorizedCIDRs
  | Some cidrs =>
      match convertRpAutoscalarToCSBuilder (cfg_Autoscaling c) with
      | None => Err BadProvisionTime
      | Some autoscaler => Ok {|
          cpt_NodeDrainGracePeriod := (minutesUnit, cfg_NodeDrainTimeoutMinutes c);
          cpt_AllowedCIDRs := cidrs;
          cpt_ImageDigestMirrors := cfg_ImageDigestMirrors c;
          cpt_Properties := patchProperties c baseProperties;
          cpt_KeyVersion := cfg_KmsActiveKeyVersion c;
          cpt_PullManagedIdentity := cfg_PullManagedIdentity c;
          cpt_Autoscaler := autoscaler |}
      end
  end.

Definition withPullManagedIdentity (identity : option string) (c : clusterUpdateDispatchConfig) : clusterUpdateDispatchConfig := {|
  cfg_NodeDrainTimeoutMinutes := cfg_NodeDrainTimeoutMinutes c;
  cfg_AuthorizedCIDRs := cfg_AuthorizedCIDRs c;
  cfg_ImageDigestMirrors := cfg_ImageDigestMirrors c;
  cfg_Autoscaling := cfg_Autoscaling c;
  cfg_ControlPlaneAvailability := cfg_ControlPlaneAvailability c;
  cfg_ControlPlanePodSizing := cfg_ControlPlanePodSizing c;
  cfg_ControlPlaneOperatorImage := cfg_ControlPlaneOperatorImage c;
  cfg_DesiredHostedClusterControlPlaneSize := cfg_DesiredHostedClusterControlPlaneSize c;
  cfg_KmsActiveKeyVersion := cfg_KmsActiveKeyVersion c;
  cfg_PullManagedIdentity := identity;
|}.

(** The empty string asks Cluster Service to forget the identity. *)
Definition clearedIdentity (old : CSCluster) (identity : option string) : option string :=
  match identity with
  | Some _ => identity
  | None => if bool_decide (is_Some (csc_Azure old ≫= csa_ContainerRegistry)) then Some EmptyString else None
  end.

(** [BuildCSCluster] for an update. *)
Definition BuildCSCluster (desired : clusterUpdateDispatchConfig) (requiredProperties : gmap string string) (old : CSCluster) :
    result buildError ClusterPatch :=
  applyToCSBuilders (withPullManagedIdentity (clearedIdentity old (cfg_PullManagedIdentity desired)) desired)
    (requiredProperties ∪ csc_Properties old).

(** ** Cluster Service's side of an update *)

(** [MergeCluster] is what Cluster Service makes of an update it accepts; the laws state
    that what an update sets is what is read back, that the empty identity unsets it and
    that what an update does not set stays.  A key version is for customer managed keys. *)
Class ClusterMerge := MergeCluster : ClusterPatch → CSCluster → CSCluster.

Definition withKeyVersion (version : option string) (etcd : CSEtcd) : CSEtcd :=
  match version with
  | None => etcd
  | Some v => {| cse_KeyManagementMode := cse_KeyManagementMode etcd; cse_EncryptionType := cse_EncryptionType etcd; cse_KeyVersion := v |}
  end.

Class ClusterMergeLaws `{ClusterMerge} := {
  merge_grace : ∀ p c, csc_NodeDrainGracePeriod (MergeCluster p c)
    = Some (Some (cpt_NodeDrainGracePeriod p).1, (cpt_NodeDrainGracePeriod p).2);
  merge_cidrs : ∀ p c, ∃ values, csc_AllowedCIDRs (MergeCluster p c) = Some (Some (cpt_AllowedCIDRs p).1, values)
    ∧ (∀ v, (cpt_AllowedCIDRs p).2 = Some v → values = v);
  merge_mirrors : ∀ p c, csc_ImageDigestMirrors (MergeCluster p c)
    = (λ m, (Some m.1, Some m.2)) <$> cpt_ImageDigestMirrors p;
  merge_properties : ∀ p c, csc_Properties (MergeCluster p c) = cpt_Properties p;
  merge_autoscaler : ∀ p c, csc_Autoscaler (MergeCluster p c) = Some (cpt_Autoscaler p);
  merge_etcd : ∀ p c etcd, csc_Azure c ≫= csa_Etcd = Some etcd → is_Some (cse_KeyManagementMode etcd) →
    cse_KeyManagementMode etcd ≠ Some csKeyManagementModePlatformManaged →
    csc_Azure (MergeCluster p c) ≫= csa_Etcd = Some (withKeyVersion (cpt_KeyVersion p) etcd);
  merge_no_etcd : ∀ p c, cpt_KeyVersion p = None →
    csc_Azure (MergeCluster p c) ≫= csa_Etcd = csc_Azure c ≫= csa_Etcd;
  merge_identity : ∀ p c, ClusterUpdateDispatchConfigContainerRegistryPullMIFromCS (csc_Azure (MergeCluster p c))
    = match cpt_PullManagedIdentity p with
      | None => ClusterUpdateDispatchConfigContainerRegistryPullMIFromCS (csc_Azure c)
      | Some id => if String.eqb id EmptyString then None else Some id
      end;
}.

(** ** The controller *)

(** A cluster document, with the timestamp of its deletion. *)
Record DispatchedCluster (V : Type) := { dcl_Cluster : ClusterResource V; dcl_DeletionTimestamp : option Z }.
Arguments dcl_Cluster {V}.
Arguments dcl_DeletionTimestamp {V}.

Definition cluster_needsWork {V} (cluster : DispatchedCluster V) : bool :=
  dispatchNeedsWork (dcl_DeletionTimestamp cluster) (csp_ClusterServiceID (cr_ServiceProviderProperties (dcl_Cluster cluster))).

Definition clusterNotUpdatable : list string := ["Cluster"; "is in state"; "can't update"].

(** What a pass reads: the cluster from the cache and from the database, the tenant of the
    subscription, the size the service provider's document asks for, and Cluster Service;
    and the outcomes of marshalling and of the update. *)
Record clusterDispatchReads (V : Type) := {
  cdr_cached : result getError (DispatchedCluster V);
  cdr_stored : result getError (DispatchedCluster V);
  cdr_subscription : result getError (option string);
  cdr_serviceProvider : result getError (option string);
  cdr_clusterService : result string CSCluster;
  cdr_marshal : ClusterPatch → option string;
  cdr_update : ClusterPatch → option updateError;
}.
Arguments cdr_cached {V}.
Arguments cdr_stored {V}.
Arguments cdr_subscription {V}.
Arguments cdr_serviceProvider {V}.
Arguments cdr_clusterService {V}.
Arguments cdr_marshal {V}.
Arguments cdr_update {V}.

Definition buildFailure {A} (r : result buildError A) : result dispatchError A :=
  match r with
  | Ok a => Ok a
  | Err EmptyAuthorizedCIDRs => Err (BuildFailed "AuthorizedCIDRs cannot be an empty list")
  | Err BadProvisionTime => Err (BuildFailed "invalid duration")
  | Err (BuildPanics _) => Err Panics
  end.

(** The pass once the cooldown has let it through. *)
Definition clusterDispatch_pass {V} (reads : clusterDispatchReads V) : option ClusterPatch * option dispatchError :=
  passOf (
    let* cluster := readForWork cluster_needsWork (cdr_cached reads) (cdr_stored reads) in
    let* tenant := found SubscriptionFailed (cdr_subscription reads) in
    let* _ := failing (match tenant with None => Err TenantMissing | Some t => Ok t end) in
    let* size := found GetServiceProviderFailed (cdr_serviceProvider reads) in
    let* csCluster := failing (match cdr_clusterService reads with Err e => Err (GetClusterServiceFailed e) | Ok c => Ok c end) in
    let* desired := failing (match clusterUpdateDispatchConfigFromRP (dcl_Cluster cluster) size with
                             | Err _ => Err Panics | Ok c => Ok c end) in
    let* actual := failing (match clusterUpdateDispatchConfigFromCS csCluster with
                            | None => Err (ConfigFailed "invalid duration") | Some c => Ok c end) in
    Ok (compareAndSend (canonicalJSON desired) (canonicalJSON actual)
          (buildFailure (BuildCSCluster desired ∅ csCluster)) (cdr_marshal reads) (cdr_update reads)
          (rejectedFor clusterNotUpdatable))).

Definition clusterDispatch_SyncOnce {V C} `{LRU C} (now : Z) (key : string) (reads : clusterDispatchReads V)
    (checker : TimeBasedCooldownChecker C) : TimeBasedCooldownChecker C * (option ClusterPatch * option dispatchError) :=
  let '(can, checker) := CanSync now key checker in
  (checker, if negb can then (None, None) else clusterDispatch_pass reads).

(** The sizes an administrator may ask for, [coreapi.HostedClusterControlPlaneSize]. *)
Definition HostedClusterControlPlaneSizes : list string := ["Small"; "Medium"; "Large"; "Xlarge"; "XXlarge"].

(** ** What an accepted update is read back as *)

(** The provision time after it went to Cluster Service in minutes and came back. *)
Definition provisionTimeReadBack (seconds : Z) : option Z :=
  d ← ParseDuration (Itoa seconds +:+ "s");
  let text := FormatFloat (Minutes d) +:+ "m" in
  if String.eqb text EmptyString then Some 0 else (λ d, wrap32 (toInt (Seconds d))) <$> ParseDuration text.

Definition scalarsReadBack (profile : ClusterAutoscalingProfile) : Prop :=
  in32 (as_MaxNodesTotal profile) ∧ in32 (as_MaxPodGracePeriodSeconds profile) ∧ in32 (as_PodPriorityThreshold profile).

(** The size of the control plane is read back: either none is asked for by the service
    provider, or one in lower case that is not that of the experimental feature, which is
    off. *)
Definition sizeReadBack (sizing : string) (size : option string) : Prop :=
  match size with
  | None => sizing = EmptyString ∨ sizing = MinimalControlPlanePodSizing
  | Some s => sizing = EmptyString ∧ ToLower s = s ∧ s ≠ EmptyString ∧ s ≠ CSPropertyE2EMinimalControlPlaneSize
  end.

(** An accepted update makes the two configurations equal. *)
Record settles (desired : clusterUpdateDispatchConfig) : Prop := {
  settles_availability : cfg_ControlPlaneAvailability desired = EmptyString ∨ cfg_ControlPlaneAvailability desired = SingleReplicaControlPlane;
  settles_size : sizeReadBack (cfg_ControlPlanePodSizing desired) (cfg_DesiredHostedClusterControlPlaneSize desired);
  settles_time : provisionTimeReadBack (as_MaxNodeProvisionTimeSeconds (cfg_Autoscaling desired))
    = Some (as_MaxNodeProvisionTimeSeconds (cfg_Autoscaling desired));
  settles_identity : cfg_PullManagedIdentity desired ≠ Some EmptyString;
}.

Lemma autoscaling_readBack profile a : convertRpAutoscalarToCSBuilder profile = Some a →
  clusterUpdateDispatchConfigAutoscalingFromCS (Some a)
  = (λ s, {| as_MaxNodesTotal := wrap32 (as_MaxNodesTotal profile);
             as_MaxPodGracePeriodSeconds := wrap32 (as_MaxPodGracePeriodSeconds profile);
             as_MaxNodeProvisionTimeSeconds := s;
             as_PodPriorityThreshold := wrap32 (as_PodPriorityThreshold profile) |})
    <$> provisionTimeReadBack (as_MaxNodeProvisionTimeSeconds profile).
Proof.
  unfold convertRpAutoscalarToCSBuilder, provisionTimeReadBack.
  destruct (ParseDuration (Itoa _ +:+ _)) as [d|]; [|done]. intros [= <-].
  unfold clusterUpdateDispatchConfigAutoscalingFromCS. cbn [csas_MaxNodeProvisionTime csas_MaxPodGracePeriod csas_PodPriorityThreshold csas_MaxNodesTotal mbind option_bind].
  by destruct (String.eqb _ EmptyString); [|destruct (ParseDuration _)].
Qed.

Lemma autoscaling_settles profile a : convertRpAutoscalarToCSBuilder profile = Some a → scalarsReadBack profile →
  clusterUpdateDispatchConfigAutoscalingFromCS (Some a) = Some profile
  ↔ provisionTimeReadBack (as_MaxNodeProvisionTimeSeconds profile) = Some (as_MaxNodeProvisionTimeSeconds profile).
Proof.
  intros Ha (H1 & H2 & H3). rewrite (autoscaling_readBack _ _ Ha), !wrap32_id by done.
  destruct (provisionTimeReadBack _) as [s|]; simpl; [|done].
  destruct profile; simpl in *. split; intros [= ->]; done.
Qed.

Lemma lookup_setProperty key value properties k :
  setProperty key value properties !! k = if String.eqb key k then value else properties !! k.
Proof.
  unfold setProperty. destruct (String.eqb_spec key k) as [->|Hne]; destruct value;
    by rewrite ?lookup_insert_eq, ?lookup_delete_eq, ?lookup_insert_ne, ?lookup_delete_ne.
Qed.

Section readBack.
Variable c : clusterUpdateDispatchConfig.
Variable base : gmap string string.
Let properties := patchProperties c base.

Lemma availability_settles :
  availabilityFromCS properties = cfg_ControlPlaneAvailability c
  ↔ cfg_ControlPlaneAvailability c = EmptyString ∨ cfg_ControlPlaneAvailability c = SingleReplicaControlPlane.
Proof.
  unfold availabilityFromCS, properties, patchProperties. rewrite !lookup_setProperty. simpl.
  destruct (String.eqb_spec (cfg_ControlPlaneAvailability c) SingleReplicaControlPlane) as [->|Hne]; simpl.
  - split; [by right|done].
  - split; [by left|by intros [->|?]].
Qed.

Lemma image_settles : operatorImageFromCS properties = cfg_ControlPlaneOperatorImage c.
Proof.
  unfold operatorImageFromCS, properties, patchProperties. rewrite !lookup_setProperty. simpl.
  by destruct (String.eqb_spec (cfg_ControlPlaneOperatorImage c) EmptyString) as [->|].
Qed.

Lemma sizeOverride_property :
  properties !! CSPropertySizeOverride
  = ConvertHostedClusterSizeOverrideToCS (cfg_ControlPlanePodSizing c) (cfg_DesiredHostedClusterControlPlaneSize c).
Proof. unfold properties, patchProperties. by rewrite !lookup_setProperty. Qed.

Lemma size_settles :
  podSizingFromCS properties = cfg_ControlPlanePodSizing c ∧
  clusterUpdateDispatchConfigServiceProviderClusterDispatchDesiredHostedClusterControlPlaneSizeFromCS properties
    = cfg_DesiredHostedClusterControlPlaneSize c
  ↔ sizeReadBack (cfg_ControlPlanePodSizing c) (cfg_DesiredHostedClusterControlPlaneSize c).
Proof.
  unfold podSizingFromCS,
    clusterUpdateDispatchConfigServiceProviderClusterDispatchDesiredHostedClusterControlPlaneSizeFromCS, sizeReadBack.
  rewrite sizeOverride_property. unfold ConvertHostedClusterSizeOverrideToCS.
  destruct (cfg_DesiredHostedClusterControlPlaneSize c) as [s|]; simpl.
  - destruct (decide (ToLower s = CSPropertyE2EMinimalControlPlaneSize)) as [E|E].
    + rewrite E. simpl. split; [by intros [_ [=]]|]. intros (_ & H1 & _ & H2). by rewrite H1 in E.
    + rewrite bool_decide_eq_false_2 by congruence.
      destruct (String.eqb_spec (ToLower s) EmptyString) as [E'|E']; simpl.
      { split; [by intros [_ [=]]|]. intros (_ & H1 & H2 & _). congruence. }
      rewrite (proj2 (String.eqb_neq _ _) E). split.
      * intros [<- [= H1]]. rewrite H1 in *. split_and!; congruence.
      * by intros (-> & -> & _).
  - destruct (String.eqb_spec (cfg_ControlPlanePodSizing c) MinimalControlPlanePodSizing) as [->|Hne]; simpl.
    + split; [by right|done].
    + split; [by intros [<- _]; left|by intros [->|?]].
Qed.
End readBack.

Section settling.
Context `{ClusterMergeLaws}.

Lemma BuildCSCluster_ok desired required old patch : BuildCSCluster desired required old = Ok patch →
  ∃ cidrs autoscaler,
    convertCIDRBlockAllowAccessRPToCS (cfg_AuthorizedCIDRs desired) = Some cidrs ∧
    convertRpAutoscalarToCSBuilder (cfg_Autoscaling desired) = Some autoscaler ∧
    patch = {| cpt_NodeDrainGracePeriod := (minutesUnit, cfg_NodeDrainTimeoutMinutes desired);
               cpt_AllowedCIDRs := cidrs;
               cpt_ImageDigestMirrors := cfg_ImageDigestMirrors desired;
               cpt_Properties := patchProperties desired (required ∪ csc_Properties old);
               cpt_KeyVersion := cfg_KmsActiveKeyVersion desired;
               cpt_PullManagedIdentity := clearedIdentity old (cfg_PullManagedIdentity desired);
               cpt_Autoscaler := autoscaler |}.
Proof.
  unfold BuildCSCluster, applyToCSBuilders. simpl.
  destruct (convertCIDRBlockAllowAccessRPToCS _) as [cidrs|]; [|done].
  destruct (convertRpAutoscalarToCSBuilder _) as [a|]; [|done].
  intros [= <-]. by exists cidrs, a.
Qed.

Lemma drain_readBack p c : (cpt_NodeDrainGracePeriod p).1 = minutesUnit →
  ClusterUpdateDispatchConfigNodeDrainTimeoutFromCS (MergeCluster p c) = (cpt_NodeDrainGracePeriod p).2.
Proof. intros E. unfold ClusterUpdateDispatchConfigNodeDrainTimeoutFromCS. by rewrite merge_grace, E. Qed.

Lemma cidrs_readBack cidrs set p c : convertCIDRBlockAllowAccessRPToCS cidrs = Some set → cpt_AllowedCIDRs p = set →
  ClusterUpdateDispatchConfigAuthorizedCIDRsFromCS (MergeCluster p c) = cidrs ∧ cidrs ≠ Some [].
Proof.
  unfold convertCIDRBlockAllowAccessRPToCS, ClusterUpdateDispatchConfigAuthorizedCIDRsFromCS. intros Hc Hp.
  destruct (merge_cidrs p c) as (values & -> & Hv). rewrite Hp in *.
  destruct cidrs as [[|x l]|]; [done| |]; injection Hc as <-; simpl; split; try done.
  by rewrite (Hv _ eq_refl).
Qed.

Lemma mirrors_readBack p c :
  clusterUpdateDispatchConfigImageDigestMirrorsFromCS (MergeCluster p c) = cpt_ImageDigestMirrors p.
Proof.
  unfold clusterUpdateDispatchConfigImageDigestMirrorsFromCS. rewrite merge_mirrors.
  induction (cpt_ImageDigestMirrors p) as [|[source mirrors] l IH]; simpl; [done|]. by f_equal.
Qed.

Lemma identity_readBack identity p c : cpt_PullManagedIdentity p = clearedIdentity c identity →
  ClusterUpdateDispatchConfigContainerRegistryPullMIFromCS (csc_Azure (MergeCluster p c)) = identity ↔ identity ≠ Some EmptyString.
Proof.
  intros E. rewrite merge_identity, E. unfold clearedIdentity. destruct identity as [id|].
  - destruct (String.eqb_spec id EmptyString) as [->|]; split; congruence.
  - split; [done|]. intros _. case_bool_decide as Hs; [done|].
    unfold ClusterUpdateDispatchConfigContainerRegistryPullMIFromCS.
    destruct (csc_Azure c) as [azure|]; simpl in *; [|done].
    destruct (csa_ContainerRegistry azure); [|done]. by destruct Hs.
Qed.

(** The encryption of a cluster is fixed when it is created: both sides have a key, or
    neither. *)
Lemma etcd_readBack version p c : cpt_KeyVersion p = version →
  (is_Some version ↔ is_Some (clusterUpdateDispatchConfigEtcdFromCS (csc_Azure c))) →
  clusterUpdateDispatchConfigEtcdFromCS (csc_Azure (MergeCluster p c)) = version.
Proof.
  intros Hp Hmode. unfold clusterUpdateDispatchConfigEtcdFromCS in *. destruct version as [v|].
  - destruct Hmode as [Hmode _]. specialize (Hmode (ex_intro _ v eq_refl)).
    destruct (csc_Azure c ≫= csa_Etcd) as [etcd|] eqn:Ee; [|by destruct Hmode]. simpl in Hmode.
    destruct (cse_KeyManagementMode etcd) as [mode|] eqn:Em; [|by destruct Hmode]. simpl in Hmode.
    destruct (String.eqb_spec mode csKeyManagementModePlatformManaged) as [->|Hne]; [by destruct Hmode|].
    rewrite (merge_etcd p c etcd Ee) by (rewrite Em; first [done | congruence]). rewrite Hp. simpl. rewrite Em. simpl.
    rewrite (proj2 (String.eqb_neq _ _) Hne).
    destruct (String.eqb (cse_EncryptionType etcd) EmptyString && _); [by destruct Hmode|done].
  - rewrite (merge_no_etcd p c Hp). apply eq_None_not_Some. intros Hs. by apply Hmode in Hs as [? ?].
Qed.

Lemma canonicalJSON_eq a b : canonicalJSON a = canonicalJSON b ↔
  cfg_NodeDrainTimeoutMinutes a = cfg_NodeDrainTimeoutMinutes b ∧
  cfg_AuthorizedCIDRs (canonicalJSON a) = cfg_AuthorizedCIDRs (canonicalJSON b) ∧
  cfg_ImageDigestMirrors a = cfg_ImageDigestMirrors b ∧
  cfg_Autoscaling a = cfg_Autoscaling b ∧
  cfg_ControlPlaneAvailability a = cfg_ControlPlaneAvailability b ∧
  cfg_ControlPlanePodSizing a = cfg_ControlPlanePodSizing b ∧
  cfg_ControlPlaneOperatorImage a = cfg_ControlPlaneOperatorImage b ∧
  cfg_DesiredHostedClusterControlPlaneSize a = cfg_DesiredHostedClusterControlPlaneSize b ∧
  cfg_KmsActiveKeyVersion a = cfg_KmsActiveKeyVersion b ∧
  cfg_PullManagedIdentity a = cfg_PullManagedIdentity b.
Proof.
  destruct a, b; simpl; unfold canonicalJSON; simpl. split.
  - intros [= -> E -> -> -> -> -> -> -> ->]. by split_and!.
  - intros (-> & E & -> & -> & -> & -> & -> & -> & -> & ->). by rewrite E.
Qed.

Lemma FromCS_settles desired required old patch : BuildCSCluster desired required old = Ok patch →
  scalarsReadBack (cfg_Autoscaling desired) →
  (is_Some (cfg_KmsActiveKeyVersion desired) ↔ is_Some (clusterUpdateDispatchConfigEtcdFromCS (csc_Azure old))) →
  canonicalJSON <$> clusterUpdateDispatchConfigFromCS (MergeCluster patch old) = Some (canonicalJSON desired) ↔ settles desired.
Proof.
  intros Hb Hscalars Hmode. destruct (BuildCSCluster_ok _ _ _ _ Hb) as (cidrs & a & Hc & Ha & Hp).
  set (new := MergeCluster patch old).
  assert (Hdrain : ClusterUpdateDispatchConfigNodeDrainTimeoutFromCS new = cfg_NodeDrainTimeoutMinutes desired)
    by (unfold new; rewrite drain_readBack; by rewrite Hp).
  destruct (cidrs_readBack _ cidrs patch old Hc ltac:(by rewrite Hp)) as [Hcidrs Hnonempty]. fold new in Hcidrs.
  assert (Hmirrors : clusterUpdateDispatchConfigImageDigestMirrorsFromCS new = cfg_ImageDigestMirrors desired)
    by (unfold new; by rewrite mirrors_readBack, Hp).
  pose proof (identity_readBack (cfg_PullManagedIdentity desired) patch old ltac:(by rewrite Hp)) as Hid. fold new in Hid.
  pose proof (etcd_readBack (cfg_KmsActiveKeyVersion desired) patch old ltac:(by rewrite Hp) Hmode) as Hetcd. fold new in Hetcd.
  assert (Hprops : csc_Properties new = patchProperties desired (required ∪ csc_Properties old))
    by (unfold new; by rewrite merge_properties, Hp).
  assert (Hauto : csc_Autoscaler new = Some a) by (unfold new; by rewrite merge_autoscaler, Hp).
  pose proof (availability_settles desired (required ∪ csc_Properties old)) as Hav.
  pose proof (image_settles desired (required ∪ csc_Properties old)) as Him.
  pose proof (size_settles desired (required ∪ csc_Properties old)) as Hsz.
  pose proof (autoscaling_settles _ _ Ha Hscalars) as Has.
  unfold clusterUpdateDispatchConfigFromCS. rewrite Hauto, Hprops.
  destruct (clusterUpdateDispatchConfigAutoscalingFromCS (Some a)) as [auto|] in Has |- *.
  2:{ simpl. split; [done|]. intros [_ _ Ht _]. apply Has in Ht. done. }
  simpl fmap. split.
  - intros E. apply (inj Some), canonicalJSON_eq in E. simpl in E.
    destruct E as (_ & _ & _ & E0 & E1 & E2 & _ & E3 & _ & E4).
    split; [by apply Hav|by apply Hsz|apply Has; by rewrite E0|by apply Hid].
  - intros [H1 H2 H3 H4]. f_equal. apply canonicalJSON_eq. simpl.
    apply Hsz in H2 as [? ?]. rewrite Hcidrs, (proj2 Hav H1), (proj2 Hid H4). apply Has in H3. injection H3 as ->.
    by split_and!.
Qed.
End settling.

Section passes.
Context `{ClusterMergeLaws} {V : Type}.

(** The same reads with another answer of Cluster Service. *)
Definition answering (reads : clusterDispatchReads V) (csCluster : CSCluster) : clusterDispatchReads V := {|
  cdr_cached := cdr_cached reads;
  cdr_stored := cdr_stored reads;
  cdr_subscription := cdr_subscription reads;
  cdr_serviceProvider := cdr_serviceProvider reads;
  cdr_clusterService := Ok csCluster;
  cdr_marshal := cdr_marshal reads;
  cdr_update := cdr_update reads;
|}.

(** A pass that sends an update has read everything, so that only Cluster Service's answer
    decides about the next one. *)
Lemma clusterDispatch_pass_sent (reads : clusterDispatchReads V) cluster size old desired patch e :
  cdr_stored reads = Ok cluster → cdr_serviceProvider reads = Ok size → cdr_clusterService reads = Ok old →
  clusterUpdateDispatchConfigFromRP (dcl_Cluster cluster) size = Ok desired →
  clusterDispatch_pass reads = (Some patch, e) →
  BuildCSCluster desired ∅ old = Ok patch ∧
  ∀ c, clusterDispatch_pass (answering reads c) =
    match clusterUpdateDispatchConfigFromCS c with
    | None => (None, Some (ConfigFailed "invalid duration"))
    | Some actual => compareAndSend (canonicalJSON desired) (canonicalJSON actual)
        (buildFailure (BuildCSCluster desired ∅ c)) (cdr_marshal reads) (cdr_update reads) (rejectedFor clusterNotUpdatable)
    end.
Proof.
  intros Hst Hsp Hcs Hrp. unfold clusterDispatch_pass, readForWork. simpl. rewrite Hst, Hsp, Hcs.
  destruct (cdr_cached reads) as [cached|[]]; simpl; [|done..].
  destruct (cluster_needsWork cached); simpl; [|done].
  destruct (cluster_needsWork cluster); simpl; [|done].
  destruct (cdr_subscription reads) as [[tenant|]|[]]; simpl; [|done..].
  rewrite Hrp. simpl. destruct (clusterUpdateDispatchConfigFromCS old) as [actual|]; simpl; [|done].
  unfold compareAndSend at 1. case_decide; [done|]. destruct (BuildCSCluster desired ∅ old) as [p|[]]; simpl; [|done..].
  destruct (cdr_marshal reads p); [done|]. intros [= -> _]. split; [done|].
  intros c. by destruct (clusterUpdateDispatchConfigFromCS c).
Qed.

Lemma compareAndSend_nothing {Config Patch} `{EqDecision Config} (desired actual : Config) build (marshal : Patch → option string) update tolerated :
  compareAndSend desired actual build marshal update tolerated = (None, None) ↔ desired = actual.
Proof.
  unfold compareAndSend. case_decide as E; [done|]. split; [|done].
  destruct build as [p|]; [|done]. by destruct (marshal p).
Qed.

(** (C18) After an update that Cluster Service has accepted and applied, the next pass finds
    nothing to send exactly when the configuration is one that is read back as it was
    sent: a control plane size in lower case, a provision time that survives the way
    through minutes, a known availability. *)
Theorem accepted_update_settles (reads : clusterDispatchReads V) cluster size old desired patch :
  cdr_stored reads = Ok cluster → cdr_serviceProvider reads = Ok size → cdr_clusterService reads = Ok old →
  clusterUpdateDispatchConfigFromRP (dcl_Cluster cluster) size = Ok desired →
  clusterDispatch_pass reads = (Some patch, None) →
  scalarsReadBack (cfg_Autoscaling desired) →
  (is_Some (cfg_KmsActiveKeyVersion desired) ↔ is_Some (clusterUpdateDispatchConfigEtcdFromCS (csc_Azure old))) →
  clusterDispatch_pass (answering reads (MergeCluster patch old)) = (None, None) ↔ settles desired.
Proof.
  intros Hst Hsp Hcs Hrp Hsent Hscalars Hmode.
  destruct (clusterDispatch_pass_sent _ _ _ _ _ _ _ Hst Hsp Hcs Hrp Hsent) as [Hb Hnext].
  rewrite Hnext, <- (FromCS_settles _ _ _ _ Hb Hscalars Hmode).
  destruct (clusterUpdateDispatchConfigFromCS (MergeCluster patch old)) as [actual|]; [|done].
  rewrite compareAndSend_nothing. split; [by intros E; simpl; rewrite E|]. intros E. by apply (inj Some) in E.
Qed.
End passes.

(** The whole minutes of a day are read back, and so are not all of the times allowed. *)
Lemma whole_minutes_readBack k : 1 <= k <= 1440 → provisionTimeReadBack (60 * k) = Some (60 * k).
Proof.
  intros Hk.
  assert (Hall : forallb (λ n, bool_decide (provisionTimeReadBack (60 * Z.of_nat n) = Some (60 * Z.of_nat n))) (seq 1 1440) = true)
    by (vm_compute; reflexivity).
  rewrite forallb_forall in Hall. specialize (Hall (Z.to_nat k)).
  rewrite in_seq, Z2Nat.id in Hall by lia. apply bool_decide_eq_true in Hall; [done|lia].
Qed.

Example fractions_of_minutes_readBack :
  provisionTimeReadBack 90 = Some 90 ∧ provisionTimeReadBack 100 = Some 99 ∧
  provisionTimeReadBack 60000000 = None.
Proof. by vm_compute. Qed.

(** ** A cluster that settles, and one that does not *)

Module DispatchedClusters.

(** Cluster Service: what is set replaces what it has. *)
#[export] Instance merge : ClusterMerge := λ p c, {|
  csc_NodeDrainGracePeriod := Some (Some (cpt_NodeDrainGracePeriod p).1, (cpt_NodeDrainGracePeriod p).2);
  csc_AllowedCIDRs := Some (Some (cpt_AllowedCIDRs p).1, default [] (cpt_AllowedCIDRs p).2);
  csc_ImageDigestMirrors := (λ m, (Some m.1, Some m.2)) <$> cpt_ImageDigestMirrors p;
  csc_Properties := cpt_Properties p;
  csc_Azure := Some {|
    csa_Etcd := withKeyVersion (cpt_KeyVersion p) <$> (csc_Azure c ≫= csa_Etcd);
    csa_ContainerRegistry :=
      match cpt_PullManagedIdentity p with
      | None => csc_Azure c ≫= csa_ContainerRegistry
      | Some id => if String.eqb id EmptyString then None else Some (Some (Some id))
      end |};
  csc_Autoscaler := Some (cpt_Autoscaler p);
|}.

#[export] Instance mergeLaws : ClusterMergeLaws.
Proof.
  split; try done.
  - intros p c. exists (default [] (cpt_AllowedCIDRs p).2). split; [done|]. by intros v ->.
  - intros p c etcd E _ _. simpl. by rewrite E.
  - intros p c E. simpl. rewrite E. by destruct (csc_Azure c ≫= csa_Etcd).
  - intros p c. unfold ClusterUpdateDispatchConfigContainerRegistryPullMIFromCS. simpl.
    destruct (cpt_PullManagedIdentity p) as [id|]; [by destruct (String.eqb id EmptyString)|].
    by destruct (csc_Azure c).
Qed.

Definition features (sizing : string) : ExperimentalFeatures Release.t := {|
  ef_ControlPlaneAvailability := SingleReplicaControlPlane; ef_ControlPlanePodSizing := sizing;
  ef_ControlPlaneOperatorImage := EmptyString; ef_ControlPlaneExactVersion := None;
  ef_ZStreamUpdatePolicy := EmptyString; ef_BackupScheduleOverride := EmptyString |}.

(** The document of [ClusterValidated.v] as Cluster Service knows it, with a changed drain
    timeout. *)
Definition changed (provisionTime : Z) : DispatchedCluster Release.t :=
  let c := ClusterDocuments.accepted in
  let p := cr_CustomerProperties c in
  {| dcl_DeletionTimestamp := None;
     dcl_Cluster := {|
       cr_TrackedResource := cr_TrackedResource c; cr_Tags := cr_Tags c; cr_Identity := cr_Identity c;
       cr_CustomerProperties := {|
         ccp_Version := ccp_Version p; ccp_BaseDomainPrefix := ccp_BaseDomainPrefix p; ccp_Network := ccp_Network p;
         ccp_API := ccp_API p; ccp_IngressType := ccp_IngressType p; ccp_Platform := ccp_Platform p;
         ccp_Autoscaling := {| as_MaxNodesTotal := 0; as_MaxPodGracePeriodSeconds := 600;
           as_MaxNodeProvisionTimeSeconds := provisionTime; as_PodPriorityThreshold := -10 |};
         ccp_NodeDrainTimeoutMinutes := 30; ccp_Etcd := ccp_Etcd p;
         ccp_ClusterImageRegistryState := ccp_ClusterImageRegistryState p;
         ccp_ImageDigestMirrors := ccp_ImageDigestMirrors p; ccp_CryptoRestrictions := ccp_CryptoRestrictions p |};
       cr_ServiceProviderProperties := {|
         csp_ProvisioningState := "Succeeded"; csp_ClusterServiceID := Some "/api/aro_hcp/v1alpha1/clusters/abc";
         csp_BaseDomain := EmptyString; csp_ConsoleURL := EmptyString; csp_APIURL := EmptyString;
         csp_IssuerURL := EmptyString; csp_ExperimentalFeatures := features EmptyString;
         csp_ManagedIdentitiesDataPlaneIdentityURL := EmptyString; csp_ClusterUID := "uid" |} |} |}.

Definition known : CSCluster := {|
  csc_NodeDrainGracePeriod := None; csc_AllowedCIDRs := None; csc_ImageDigestMirrors := [];
  csc_Properties := {[ "provision_shard_id" := "1" ]};
  csc_Azure := Some {| csa_Etcd := Some {| cse_KeyManagementMode := Some csKeyManagementModeCustomerManaged;
    cse_EncryptionType := csCustomerManagedEncryptionTypeKms; cse_KeyVersion := "0" |}; csa_ContainerRegistry := None |};
  csc_Autoscaler := None |}.

Definition reads (provisionTime : Z) (size : option string) : clusterDispatchReads Release.t := {|
  cdr_cached := Ok (changed provisionTime); cdr_stored := Ok (changed provisionTime);
  cdr_subscription := Ok (Some "tenant"); cdr_serviceProvider := Ok size; cdr_clusterService := Ok known;
  cdr_marshal := λ _, None; cdr_update := λ _, None |}.

Definition desired (provisionTime : Z) (size : option string) : clusterUpdateDispatchConfig :=
  match clusterUpdateDispatchConfigFromRP (dcl_Cluster (changed provisionTime)) size with
  | Ok c => c
  | Err _ => {| cfg_NodeDrainTimeoutMinutes := 0; cfg_AuthorizedCIDRs := None; cfg_ImageDigestMirrors := [];
      cfg_Autoscaling := {| as_MaxNodesTotal := 0; as_MaxPodGracePeriodSeconds := 0; as_MaxNodeProvisionTimeSeconds := 0; as_PodPriorityThreshold := 0 |};
      cfg_ControlPlaneAvailability := EmptyString; cfg_ControlPlanePodSizing := EmptyString; cfg_ControlPlaneOperatorImage := EmptyString;
      cfg_DesiredHostedClusterControlPlaneSize := None; cfg_KmsActiveKeyVersion := None; cfg_PullManagedIdentity := None |}
  end.

Definition patchOf (provisionTime : Z) (size : option string) : ClusterPatch :=
  match BuildCSCluster (desired provisionTime size) ∅ known with
  | Ok p => p
  | Err _ => {| cpt_NodeDrainGracePeriod := (EmptyString, 0); cpt_AllowedCIDRs := (EmptyString, None); cpt_ImageDigestMirrors := [];
      cpt_Properties := ∅; cpt_KeyVersion := None; cpt_PullManagedIdentity := None;
      cpt_Autoscaler := {| csas_MaxNodeProvisionTime := EmptyString; csas_MaxPodGracePeriod := 0; csas_PodPriorityThreshold := 0; csas_MaxNodesTotal := 0 |} |}
  end.

Lemma autoscaling_desired time size : cfg_Autoscaling (desired time size) = {|
  as_MaxNodesTotal := 0; as_MaxPodGracePeriodSeconds := 600; as_MaxNodeProvisionTimeSeconds := time; as_PodPriorityThreshold := -10 |}.
Proof. reflexivity. Qed.

(** Fifteen minutes settle; a hundred seconds do not, and neither does a size. *)
Lemma accepted_update_settles_witness :
  clusterDispatch_pass (reads 900 None) = (Some (patchOf 900 None), None) ∧
  clusterDispatch_pass (answering (reads 900 None) (MergeCluster (patchOf 900 None) known)) = (None, None) ∧
  clusterDispatch_pass (answering (reads 100 None) (MergeCluster (patchOf 100 None) known)) ≠ (None, None) ∧
  clusterDispatch_pass (answering (reads 900 (Some "Small")) (MergeCluster (patchOf 900 (Some "Small")) known)) ≠ (None, None).
Proof.
  assert (H : ∀ time size, clusterUpdateDispatchConfigFromRP (dcl_Cluster (changed time)) size = Ok (desired time size) →
    clusterDispatch_pass (reads time size) = (Some (patchOf time size), None) →
    is_Some (cfg_KmsActiveKeyVersion (desired time size)) →
    scalarsReadBack (cfg_Autoscaling (desired time size)) →
    clusterDispatch_pass (answering (reads time size) (MergeCluster (patchOf time size) known)) = (None, None) ↔ settles (desired time size)).
  { intros time size Hrp Hsent Hkey Hs.
    apply (accepted_update_settles (reads time size) (changed time) size known); [reflexivity..|exact Hrp|exact Hsent|exact Hs|].
    split; intros _; [eexists; vm_compute; reflexivity|exact Hkey]. }
  assert (Hs : ∀ time size, scalarsReadBack (cfg_Autoscaling (desired time size))) by (intros; rewrite autoscaling_desired; unfold scalarsReadBack, in32; simpl; lia).
  split; [vm_compute; reflexivity|]. split; [|split].
  - refine (proj2 (H 900 None _ _ _ (Hs _ _)) _); [vm_compute; reflexivity..|vm_compute; eauto|].
    split; vm_compute; [by right|by left|reflexivity|discriminate].
  - intros E. assert (Ht : settles (desired 100 None))
      by (refine (proj1 (H 100 None _ _ _ (Hs _ _)) E); [vm_compute; reflexivity..|vm_compute; eauto]).
    apply settles_time in Ht. vm_compute in Ht. discriminate Ht.
  - intros E. assert (Ht : settles (desired 900 (Some "Small")))
      by (refine (proj1 (H 900 (Some "Small") _ _ _ (Hs _ _)) E); [vm_compute; reflexivity..|vm_compute; eauto]).
    destruct (settles_size _ Ht) as (_ & Hl & _). vm_compute in Hl. discriminate Hl.
Defined.
End DispatchedClusters.
