(* ===== verification/ControlPlaneSize.v ===== *)
(** * The size of a control plane, from the request to Cluster Service

    [admin/server/handlers/hcp/desiredcontrolplanesize.go] and
    [backend/pkg/controllers/cluster/properties/desired_control_plane_size_sync.go]: an
    administrator asks for a size, the dispatch controller sends it, and a controller
    records it as applied once Cluster Service has it.  The service provider's document is
    its two sizes and a remainder that nobody here changes. *)
From S2P Require Import Prelude GoStrings RolloutTypes RolloutStatus StatusConditions ClusterAdmission ClusterValidation.
From S2P Require Import Dispatch ClusterDispatch.

Local Open Scope string_scope.
Local Open Scope Z_scope.
Local Open Scope go_scope.

Record SizedServiceProvider (R : Type) := {
  ssp_SpecSize : option string;
  ssp_StatusSize : option string;
  ssp_rest : R;
}.
Arguments ssp_SpecSize {R}.
Arguments ssp_StatusSize {R}.
Arguments ssp_rest {R}.

Definition withSpecSize {R} (size : option string) (d : SizedServiceProvider R) : SizedServiceProvider R :=
  {| ssp_SpecSize := size; ssp_StatusSize := ssp_StatusSize d; ssp_rest := ssp_rest d |}.
Definition withStatusSize {R} (size : option string) (d : SizedServiceProvider R) : SizedServiceProvider R :=
  {| ssp_SpecSize := ssp_SpecSize d; ssp_StatusSize := size; ssp_rest := ssp_rest d |}.

(** ** The request *)

Definition IsValidHostedClusterControlPlaneSize (s : string) : bool :=
  existsb (String.eqb s) HostedClusterControlPlaneSizes.

Inductive sizeError : Type :=
  | InvalidResourceID
  | InvalidJSON (e : string)
  | EmptySize
  | UnknownSize (size : string)
  | GetFailedForSize (e : string)
  | ReplaceFailedForSize (e : dbError).

(** [body] is the decoded size, which may be left out; [replace] is the write of the
    document.  The document that is written and the answer. *)
Definition HCPDesiredControlPlaneSize_ServeHTTP {R} (resourceID : bool) (body : result string (option string))
    (existing : result string (SizedServiceProvider R)) (replace : SizedServiceProvider R → option dbError) :
    option (SizedServiceProvider R) * result sizeError (option string) :=
  if negb resourceID then (None, Err InvalidResourceID)
  else match body with
  | Err e => (None, Err (InvalidJSON e))
  | Ok size =>
      if bool_decide (size = Some EmptyString) then (None, Err EmptySize)
      else if match size with Some s => negb (IsValidHostedClusterControlPlaneSize s) | None => false end
      then (None, Err (UnknownSize (default EmptyString size)))
      else match existing with
      | Err e => (None, Err (GetFailedForSize e))
      | Ok d => (Some (withSpecSize size d),
                 match replace (withSpecSize size d) with Some e => Err (ReplaceFailedForSize e) | None => Ok size end)
      end
  end.

(** ** The record of what is applied *)

Definition ptrStringEqual (a b : option string) : bool :=
  match a, b with
  | None, None => true
  | Some a, Some b => String.eqb a b
  | _, _ => false
  end.

Definition NeedsWork {R} (d : option (SizedServiceProvider R)) : bool :=
  match d with
  | None => false
  | Some d => negb (ptrStringEqual (ssp_SpecSize d) (ssp_StatusSize d))
  end.

Inductive sizeSyncError : Type :=
  | SizeCacheFailed (e : string)
  | SizeClusterFailed (e : string)
  | SizeClusterServiceFailed (e : string)
  | SizeReplaceFailed (e : dbError).

(** The document that is written, if any, and the error.  [cluster] is the pod sizing of the cached
    cluster and its ID in Cluster Service. *)
Definition desiredControlPlaneSize_SyncOnce {R} (cached : result getError (SizedServiceProvider R))
    (cluster : result getError (string * option string)) (csCluster : result string CSCluster)
    (replace : SizedServiceProvider R → option dbError) : option (SizedServiceProvider R) * option sizeSyncError :=
  match cached with
  | Err GetNotFound => (None, None)
  | Err (GetFailed e) => (None, Some (SizeCacheFailed e))
  | Ok document =>
      if negb (NeedsWork (Some document)) then (None, None)
      else match cluster with
      | Err GetNotFound => (None, None)
      | Err (GetFailed e) => (None, Some (SizeClusterFailed e))
      | Ok (sizing, id) =>
          if String.eqb (default EmptyString id) EmptyString then (None, None)
          else match csCluster with
          | Err e => (None, Some (SizeClusterServiceFailed e))
          | Ok csCluster =>
              if negb (bool_decide (ConvertHostedClusterSizeOverrideToCS sizing (ssp_SpecSize document)
                                    = csc_Properties csCluster !! CSPropertySizeOverride))
              then (None, None)
              else
                let replacement := withStatusSize (ssp_SpecSize document) document in
                (Some replacement,
                 match replace replacement with
                 | None | Some PreconditionFailed => None
                 | Some e => Some (SizeReplaceFailed e)
                 end)
          end
      end
  end.

(** ** From the request to Cluster Service *)

Lemma ptrStringEqual_spec a b : ptrStringEqual a b = true ↔ a = b.
Proof.
  destruct a as [a|], b as [b|]; simpl; rewrite ?String.eqb_eq; split; try done; [by intros ->|by intros [= ->]].
Qed.

(** None of the sizes that may be asked for is in lower case. *)
Lemma sizes_not_lower s : IsValidHostedClusterControlPlaneSize s = true → ToLower s ≠ s ∧ s ≠ EmptyString.
Proof.
  unfold IsValidHostedClusterControlPlaneSize. rewrite existsb_exists. intros (x & Hx & ->%String.eqb_eq).
  simpl in Hx. repeat destruct Hx as [<-|Hx]; [split; vm_compute; congruence..|done].
Qed.

Lemma ServeHTTP_written {R} resourceID body (existing : result string (SizedServiceProvider R)) replace d answer :
  HCPDesiredControlPlaneSize_ServeHTTP resourceID body existing replace = (Some d, answer) →
  ∃ size old, body = Ok size ∧ existing = Ok old ∧ d = withSpecSize size old ∧
    (∀ s, size = Some s → IsValidHostedClusterControlPlaneSize s = true).
Proof.
  unfold HCPDesiredControlPlaneSize_ServeHTTP. destruct resourceID; simpl; [|done].
  destruct body as [size|]; [|done]. case_bool_decide; [done|].
  destruct (match size with Some s => _ | None => false end) eqn:Ev; [done|].
  destruct existing as [old|]; [|done]. intros [= <- _]. exists size, old. split_and!; try done.
  intros s ->. by destruct (IsValidHostedClusterControlPlaneSize s).
Qed.

Section composition.
Context `{ClusterMergeLaws} {V R : Type}.

(** Cluster Service's cluster after some more passes, each of whose updates it has applied
    or not. *)
Fixpoint afterPasses (reads : clusterDispatchReads V) (applied : list bool) (c : CSCluster) : CSCluster :=
  match applied with
  | [] => c
  | accepted :: applied =>
      afterPasses reads applied
        (match (clusterDispatch_pass (answering reads c)).1 with
         | Some patch => if accepted then MergeCluster patch c else c
         | None => c
         end)
  end.

(** An update but for the identity, which may have to be cleared. *)
Definition withoutIdentity (p : ClusterPatch) : ClusterPatch := {|
  cpt_NodeDrainGracePeriod := cpt_NodeDrainGracePeriod p; cpt_AllowedCIDRs := cpt_AllowedCIDRs p;
  cpt_ImageDigestMirrors := cpt_ImageDigestMirrors p; cpt_Properties := cpt_Properties p;
  cpt_KeyVersion := cpt_KeyVersion p; cpt_PullManagedIdentity := None; cpt_Autoscaler := cpt_Autoscaler p |}.

Lemma patchProperties_idem c base : patchProperties c (∅ ∪ patchProperties c base) = patchProperties c base.
Proof.
  rewrite (left_id_L ∅ (∪)). apply map_eq. intros k. unfold patchProperties. rewrite !lookup_setProperty. by repeat case_match.
Qed.

(** A cluster that has taken the update. *)
Record tookUpdate (patch : ClusterPatch) (c : CSCluster) : Prop := {
  took_properties : csc_Properties c = cpt_Properties patch;
  took_autoscaler : csc_Autoscaler c = Some (cpt_Autoscaler patch);
}.

Lemma tookUpdate_merge patch patch' c : withoutIdentity patch' = withoutIdentity patch → tookUpdate patch (MergeCluster patch' c).
Proof.
  intros E. split; [rewrite merge_properties|rewrite merge_autoscaler].
  - exact (f_equal cpt_Properties E).
  - exact (f_equal (Some ∘ cpt_Autoscaler) E).
Qed.

(** The size that was asked for is not the one that is read back. *)
Lemma size_not_readBack s c desired base : ToLower s ≠ s →
  cfg_DesiredHostedClusterControlPlaneSize desired = Some s → csc_Properties c = patchProperties desired base →
  clusterUpdateDispatchConfigServiceProviderClusterDispatchDesiredHostedClusterControlPlaneSizeFromCS (csc_Properties c) ≠ Some s.
Proof.
  intros Hl Hs Hp. unfold clusterUpdateDispatchConfigServiceProviderClusterDispatchDesiredHostedClusterControlPlaneSizeFromCS.
  rewrite Hp, sizeOverride_property, Hs. simpl. destruct (_ || _); congruence.
Qed.

(** A pass over a cluster that has taken the update sends it again. *)
Lemma pass_resends (reads : clusterDispatchReads V) cluster s old desired patch c :
  cdr_stored reads = Ok cluster → cdr_serviceProvider reads = Ok (Some s) → cdr_clusterService reads = Ok old →
  clusterUpdateDispatchConfigFromRP (dcl_Cluster cluster) (Some s) = Ok desired →
  clusterDispatch_pass reads = (Some patch, None) → (∀ p, cdr_marshal reads p = None) →
  is_Some (provisionTimeReadBack (as_MaxNodeProvisionTimeSeconds (cfg_Autoscaling desired))) →
  ToLower s ≠ s → tookUpdate patch c →
  ∃ patch', (clusterDispatch_pass (answering reads c)).1 = Some patch' ∧ withoutIdentity patch' = withoutIdentity patch ∧
    (is_Some (cfg_PullManagedIdentity desired) → patch' = patch).
Proof.
  intros Hst Hsp Hcs Hrp Hsent Hmarshal [t Ht] Hlower [Hprops Hauto].
  destruct (clusterDispatch_pass_sent _ _ _ _ _ _ _ Hst Hsp Hcs Hrp Hsent) as [Hb Hnext].
  destruct (BuildCSCluster_ok _ _ _ _ Hb) as (cidrs & a & Hc & Ha & Hp).
  assert (Hsize : cfg_DesiredHostedClusterControlPlaneSize desired = Some s).
  { revert Hrp. unfold clusterUpdateDispatchConfigFromRP. destruct (clusterUpdateDispatchEtcdFromRP _); [|done].
    by intros [= <-]. }
  rewrite Hp in Hprops, Hauto. cbn [cpt_Properties cpt_Autoscaler] in Hprops, Hauto.
  rewrite Hnext. unfold clusterUpdateDispatchConfigFromCS. rewrite Hauto, (autoscaling_readBack _ _ Ha), Ht.
  cbn [fmap option_fmap option_map mbind option_bind]. unfold compareAndSend. case_decide as E.
  { apply canonicalJSON_eq in E. destruct E as (_ & _ & _ & _ & _ & _ & _ & Hsz & _). simpl in Hsz. rewrite Hsize in Hsz.
    by destruct (size_not_readBack s c desired _ Hlower Hsize Hprops). }
  unfold BuildCSCluster, applyToCSBuilders. cbn [cfg_AuthorizedCIDRs cfg_Autoscaling withPullManagedIdentity].
  rewrite Hc, Ha. cbn [buildFailure]. rewrite Hmarshal. eexists. split; [reflexivity|].
  assert (Hsame : patchProperties (withPullManagedIdentity (clearedIdentity c (cfg_PullManagedIdentity desired)) desired) (∅ ∪ csc_Properties c)
    = patchProperties desired (∅ ∪ csc_Properties old)) 
    by (transitivity (patchProperties desired (∅ ∪ csc_Properties c)); [reflexivity|]; rewrite Hprops; apply patchProperties_idem).
  rewrite Hp. split; [unfold withoutIdentity; simpl; by rewrite Hsame|].
  intros [id Hid]. rewrite Hsame, Hid. reflexivity.
Qed.

Lemma afterPasses_took (reads : clusterDispatchReads V) cluster s old desired patch applied c :
  cdr_stored reads = Ok cluster → cdr_serviceProvider reads = Ok (Some s) → cdr_clusterService reads = Ok old →
  clusterUpdateDispatchConfigFromRP (dcl_Cluster cluster) (Some s) = Ok desired →
  clusterDispatch_pass reads = (Some patch, None) → (∀ p, cdr_marshal reads p = None) →
  is_Some (provisionTimeReadBack (as_MaxNodeProvisionTimeSeconds (cfg_Autoscaling desired))) →
  ToLower s ≠ s → tookUpdate patch c → tookUpdate patch (afterPasses reads applied c).
Proof.
  intros Hst Hsp Hcs Hrp Hsent Hmarshal Ht Hlower. revert c. induction applied as [|accepted applied IH]; intros c Hc; [done|].
  simpl. apply IH. destruct (pass_resends reads cluster s old desired patch c) as (patch' & -> & Hsame & _); try done.
  destruct accepted; [by apply tookUpdate_merge|done].
Qed.

(** (C19) A size that an administrator asks for is sent to Cluster Service and then recorded as
    applied; yet the dispatch controller never takes the cluster for up to date.  It
    compares the size as it was asked for with the one in lower case, and while nothing
    else changes, every later pass sends the same update again (the identity aside, when
    it may have to be cleared), whichever of these updates Cluster Service applies; provided the
    update can be marshalled and the provision time it was sent with can be read back. *)
Theorem requested_size_is_sent_again (existing : SizedServiceProvider R) s replace (reads : clusterDispatchReads V) cluster old desired patch :
  (HCPDesiredControlPlaneSize_ServeHTTP true (Ok (Some s)) (Ok existing) replace).1 = Some (withSpecSize (Some s) existing) →
  ssp_StatusSize existing ≠ Some s →
  cdr_stored reads = Ok cluster → cdr_serviceProvider reads = Ok (Some s) → cdr_clusterService reads = Ok old →
  clusterUpdateDispatchConfigFromRP (dcl_Cluster cluster) (Some s) = Ok desired →
  clusterDispatch_pass reads = (Some patch, None) →
  (∀ p, cdr_marshal reads p = None) →
  is_Some (provisionTimeReadBack (as_MaxNodeProvisionTimeSeconds (cfg_Autoscaling desired))) →
  cpt_Properties patch !! CSPropertySizeOverride = Some (ToLower s) ∧
  (∀ sizing id, id ≠ EmptyString →
     desiredControlPlaneSize_SyncOnce (Ok (withSpecSize (Some s) existing)) (Ok (sizing, Some id)) (Ok (MergeCluster patch old)) (λ _, None)
     = (Some (withStatusSize (Some s) (withSpecSize (Some s) existing)), None)) ∧
  ∀ applied, ∃ patch',
    (clusterDispatch_pass (answering reads (afterPasses reads applied (MergeCluster patch old)))).1 = Some patch' ∧
    withoutIdentity patch' = withoutIdentity patch ∧
    (is_Some (cfg_PullManagedIdentity desired) → patch' = patch).
Proof.
  intros Hreq Hstatus Hst Hsp Hcs Hrp Hsent Hmarshal Htime.
  destruct (HCPDesiredControlPlaneSize_ServeHTTP _ _ _ _) as [w answer] eqn:Eh. simpl in Hreq. subst w.
  destruct (ServeHTTP_written _ _ _ _ _ _ Eh) as (size & old' & [= <-] & _ & _ & Hvalid).
  destruct (sizes_not_lower s (Hvalid s eq_refl)) as [Hlower _].
  destruct (clusterDispatch_pass_sent _ _ _ _ _ _ _ Hst Hsp Hcs Hrp Hsent) as [Hb _].
  destruct (BuildCSCluster_ok _ _ _ _ Hb) as (cidrs & a & _ & _ & Hp).
  assert (Hsize : cfg_DesiredHostedClusterControlPlaneSize desired = Some s).
  { revert Hrp. unfold clusterUpdateDispatchConfigFromRP. destruct (clusterUpdateDispatchEtcdFromRP _); [|done].
    by intros [= <-]. }
  assert (Hprop : cpt_Properties patch !! CSPropertySizeOverride = Some (ToLower s))
    by (rewrite Hp; simpl; by rewrite sizeOverride_property, Hsize).
  split; [exact Hprop|]. split.
  - intros sizing id Hid. unfold desiredControlPlaneSize_SyncOnce. cbn [NeedsWork ssp_SpecSize ssp_StatusSize withSpecSize].
    destruct (ptrStringEqual (Some s) (ssp_StatusSize existing)) eqn:Ee.
    { apply ptrStringEqual_spec in Ee. congruence. }
    simpl. rewrite (proj2 (String.eqb_neq _ _) Hid), merge_properties, Hprop. by rewrite bool_decide_eq_true_2.
  - intros applied. eapply pass_resends; try done.
    eapply afterPasses_took; try done. by apply tookUpdate_merge.
Qed.
End composition.

(** The controller that records a size changes nothing else, and only when Cluster Service
    has what is asked for. *)
Lemma recorded_size {R} (cached : result getError (SizedServiceProvider R)) cluster csCluster replace d e :
  desiredControlPlaneSize_SyncOnce cached cluster csCluster replace = (Some d, e) →
  ∃ document sizing id c, cached = Ok document ∧ cluster = Ok (sizing, id) ∧ csCluster = Ok c ∧
    d = withStatusSize (ssp_SpecSize document) document ∧ NeedsWork (Some d) = false ∧
    csc_Properties c !! CSPropertySizeOverride = ConvertHostedClusterSizeOverrideToCS sizing (ssp_SpecSize document).
Proof.
  unfold desiredControlPlaneSize_SyncOnce. destruct cached as [document|[]]; try done.
  destruct (NeedsWork (Some document)); simpl negb; [|done]. destruct cluster as [[sizing id]|[]]; try done.
  destruct (String.eqb _ EmptyString); [done|]. destruct csCluster as [c|]; [|done].
  case_bool_decide as E; simpl negb; [|done]. intros [= <- _]. exists document, sizing, id, c. split_and!; try done.
  simpl. rewrite (proj2 (ptrStringEqual_spec _ _)); done.
Qed.

Module SizeExamples.
Import DispatchedClusters.

Definition existing : SizedServiceProvider unit := {| ssp_SpecSize := None; ssp_StatusSize := None; ssp_rest := tt |}.

(** The first pass after the update, and the third. *)
Lemma requested_size_is_sent_again_witness :
  let applied := MergeCluster (patchOf 900 (Some "Small")) known in
  clusterDispatch_pass (reads 900 (Some "Small")) = (Some (patchOf 900 (Some "Small")), None) ∧
  (∃ patch', (clusterDispatch_pass (answering (reads 900 (Some "Small")) applied)).1 = Some patch' ∧
     withoutIdentity patch' = withoutIdentity (patchOf 900 (Some "Small"))) ∧
  ∃ patch', (clusterDispatch_pass (answering (reads 900 (Some "Small"))
       (afterPasses (reads 900 (Some "Small")) [true; false] applied))).1 = Some patch' ∧
     withoutIdentity patch' = withoutIdentity (patchOf 900 (Some "Small")).
Proof.
  intros applied.
  assert (Hrp : clusterUpdateDispatchConfigFromRP (dcl_Cluster (changed 900)) (Some "Small") = Ok (desired 900 (Some "Small")))
    by (vm_compute; reflexivity).
  assert (Hsent : clusterDispatch_pass (reads 900 (Some "Small")) = (Some (patchOf 900 (Some "Small")), None))
    by (vm_compute; reflexivity).
  assert (Htime : is_Some (provisionTimeReadBack (as_MaxNodeProvisionTimeSeconds (cfg_Autoscaling (desired 900 (Some "Small"))))))
    by (rewrite autoscaling_desired; exists 900; vm_compute; reflexivity).
  assert (Hreq : (HCPDesiredControlPlaneSize_ServeHTTP true (Ok (Some "Small")) (Ok existing) (λ _, None)).1
    = Some (withSpecSize (Some "Small") existing)) by (vm_compute; reflexivity).
  destruct (requested_size_is_sent_again existing "Small" (λ _, None) (reads 900 (Some "Small")) (changed 900) known
    (desired 900 (Some "Small")) (patchOf 900 (Some "Small")) Hreq ltac:(discriminate) eq_refl eq_refl eq_refl Hrp Hsent
    (λ _, eq_refl) Htime) as (_ & _ & Hagain).
  split; [exact Hsent|]. split.
  - destruct (Hagain []) as (patch' & Hp & Hsame & _). exists patch'. split; [exact Hp|exact Hsame].
  - destruct (Hagain [true; false]) as (patch' & Hp & Hsame & _). exists patch'. split; [exact Hp|exact Hsame].
Defined.
End SizeExamples.
