(* ===== verification/NodePoolDispatch.v ===== *)
(** * Dispatching node pool updates to Cluster Service

    [internal/ocm/node_pool_update_dispatch_config.go], the part of [BuildCSNodePool] for
    updates ([internal/ocm/convert.go]) and
    [backend/pkg/controllers/nodepool/update/node_pool_cluster_service_update_dispatch_controller.go].
    What of Cluster Service's node pool the update operation reads too is in
    [NodePoolUpdates.v]; nil and empty lists and maps are the same here, as they are in
    the JSON that is compared. *)
From S2P Require Import Prelude GoStrings RolloutStatus StatusConditions StatusAggregators OperationState OperationStore OperationSafety ServiceStatus.
From S2P Require Import NodePoolOperations NodePoolUpdates Dispatch.

Local Open Scope string_scope.
Local Open Scope Z_scope.
Local Open Scope go_scope.

(** ** The configuration *)

Record nodePoolUpdateDispatchConfig := {
  npc_Labels : gmap string string;
  npc_Replicas : Z;
  npc_AutoScaling : option (Z * Z);
  npc_Taints : list Taint;
  npc_NodeDrainTimeoutMinutes : option Z;
}.

#[export] Instance nodePoolUpdateDispatchConfig_eq_dec : EqDecision nodePoolUpdateDispatchConfig.
Proof. solve_decision. Defined.

(** A node pool of Cluster Service, with what scales it. *)
Record ScaledCSNodePool := {
  scs_NodePool : CSNodePool;
  scs_Autoscaling : option (Z * Z);
  scs_Replicas : Z;
}.

Definition nodePoolUpdateDispatchConfigFromRP (nodePool : PoolSpec) : nodePoolUpdateDispatchConfig := {|
  npc_Labels := pool_Labels nodePool;
  npc_Replicas := match pool_AutoScaling nodePool with Some _ => 0 | None => pool_Replicas nodePool end;
  npc_AutoScaling := pool_AutoScaling nodePool;
  npc_Taints := NodePoolUpdateDispatchConfigTaintsFromRP (pool_Taints nodePool);
  npc_NodeDrainTimeoutMinutes := pool_NodeDrainTimeoutMinutes nodePool;
|}.

(** The conversions to [int32] wrap around. *)
Definition nodePoolUpdateDispatchConfigFromCS (csNodePool : ScaledCSNodePool) : nodePoolUpdateDispatchConfig := {|
  npc_Labels := NodePoolUpdateDispatchConfigLabelsFromCS (scs_NodePool csNodePool);
  npc_Replicas := match scs_Autoscaling csNodePool with Some _ => 0 | None => wrap32 (scs_Replicas csNodePool) end;
  npc_AutoScaling := (λ a : Z * Z, (wrap32 a.1, wrap32 a.2)) <$> scs_Autoscaling csNodePool;
  npc_Taints := NodePoolUpdateDispatchConfigTaintsFromCS (scs_NodePool csNodePool);
  npc_NodeDrainTimeoutMinutes := NodePoolUpdateDispatchConfigNodeDrainTimeoutFromCS (scs_NodePool csNodePool);
|}.

(** Without a timeout of its own the node pool's is left out of the comparison. *)
Definition nodePoolUpdateDispatchConfigsForDiff (nodePool : PoolSpec) (csNodePool : ScaledCSNodePool) :
    nodePoolUpdateDispatchConfig * nodePoolUpdateDispatchConfig :=
  let desiredConfig := nodePoolUpdateDispatchConfigFromRP nodePool in
  let actualConfig := nodePoolUpdateDispatchConfigFromCS csNodePool in
  (desiredConfig,
   match npc_NodeDrainTimeoutMinutes desiredConfig with
   | Some _ => actualConfig
   | None => {| npc_Labels := npc_Labels actualConfig; npc_Replicas := npc_Replicas actualConfig;
                npc_AutoScaling := npc_AutoScaling actualConfig; npc_Taints := npc_Taints actualConfig;
                npc_NodeDrainTimeoutMinutes := None |}
   end).

(** ** An update *)

(** What an update sets: always the labels, and either the bounds of autoscaling or the
    replicas; taints when there are some, the drain timeout when there is one. *)
Record NodePoolPatch := {
  npp_Labels : gmap string string;
  npp_Scaling : (Z * Z) + Z;
  npp_Taints : option (list Taint);
  npp_NodeDrainGracePeriod : option (string * Z);
}.

Definition applyToCSBuilder (c : nodePoolUpdateDispatchConfig) : NodePoolPatch := {|
  npp_Labels := npc_Labels c;
  npp_Scaling := match npc_AutoScaling c with Some bounds => inl bounds | None => inr (npc_Replicas c) end;
  npp_Taints := match npc_Taints c with [] => None | taints => Some taints end;
  npp_NodeDrainGracePeriod := (λ minutes, (csNodeDrainGracePeriodUnit, minutes)) <$> npc_NodeDrainTimeoutMinutes c;
|}.

Definition BuildCSNodePool_update (nodePool : PoolSpec) : NodePoolPatch :=
  applyToCSBuilder (nodePoolUpdateDispatchConfigFromRP nodePool).

(** ** The controller *)

Definition nodePool_needsWork (nodePool : PoolDoc) : bool :=
  dispatchNeedsWork (res_DeletionTimestamp nodePool) (pool_ClusterServiceID (spec nodePool)).

Definition parentNotUpdatable : list string :=
  ["Node pools can only be"; "on clusters in an updatable state"; "cluster requested is in"; "state."].
Definition nodePoolNotUpdatable : list string :=
  ["Node pool can only be updated in"; "the node pool requested is in"; "state."].

Definition nodePoolDispatch_pass (cached stored : result getError PoolDoc) (csNodePool : result string ScaledCSNodePool)
    (marshal : NodePoolPatch → option string) (update : NodePoolPatch → option updateError) :
    option NodePoolPatch * option dispatchError :=
  passOf (
    let* nodePool := readForWork nodePool_needsWork cached stored in
    let* csNodePool := failing (match csNodePool with Err e => Err (GetClusterServiceFailed e) | Ok c => Ok c end) in
    let '(desired, actual) := nodePoolUpdateDispatchConfigsForDiff (spec nodePool) csNodePool in
    Ok (compareAndSend desired actual (Ok (BuildCSNodePool_update (spec nodePool))) marshal update
          (λ e, rejectedFor parentNotUpdatable e || rejectedFor nodePoolNotUpdatable e))).

Definition nodePoolDispatch_SyncOnce {C} `{LRU C} (now : Z) (key : string) (cached stored : result getError PoolDoc)
    (csNodePool : result string ScaledCSNodePool) (marshal : NodePoolPatch → option string)
    (update : NodePoolPatch → option updateError) (checker : TimeBasedCooldownChecker C) :
    TimeBasedCooldownChecker C * (option NodePoolPatch * option dispatchError) :=
  let '(can, checker) := CanSync now key checker in
  (checker, if negb can then (None, None) else nodePoolDispatch_pass cached stored csNodePool marshal update).

(** ** Cluster Service's side of an update *)

(** What an update sets is read back, what it does not set stays; nothing is said of an
    update without labels of a node pool that has some, and of replicas for a node pool
    that scales by itself. *)
Class NodePoolMerge := MergeNodePool : NodePoolPatch → ScaledCSNodePool → ScaledCSNodePool.

Class NodePoolMergeLaws `{NodePoolMerge} := {
  merge_labels : ∀ p c, npp_Labels p ≠ ∅ ∨ default ∅ (csnp_Labels (scs_NodePool c)) = ∅ →
    default ∅ (csnp_Labels (scs_NodePool (MergeNodePool p c))) = npp_Labels p;
  merge_autoscaling : ∀ p c bounds, npp_Scaling p = inl bounds → scs_Autoscaling (MergeNodePool p c) = Some bounds;
  merge_replicas : ∀ p c n, npp_Scaling p = inr n → scs_Autoscaling c = None →
    scs_Autoscaling (MergeNodePool p c) = None ∧ scs_Replicas (MergeNodePool p c) = n;
  merge_taints : ∀ p c, csnp_Taints (scs_NodePool (MergeNodePool p c))
    = match npp_Taints p with Some taints => Some taints | None => csnp_Taints (scs_NodePool c) end;
  merge_drain : ∀ p c, csnp_NodeDrainGracePeriod (scs_NodePool (MergeNodePool p c))
    = match npp_NodeDrainGracePeriod p with
      | Some (unit, value) => Some (Some unit, value)
      | None => csnp_NodeDrainGracePeriod (scs_NodePool c)
      end;
}.

(** ** What an accepted update is read back as *)

(** The counts are [int32]. *)
Definition countsInRange (nodePool : PoolSpec) : Prop :=
  in32 (pool_Replicas nodePool) ∧
  match pool_AutoScaling nodePool with Some (min, max) => in32 min ∧ in32 max | None => True end.

(** What an update can change at Cluster Service: the labels are not all removed and the
    node pool does not stop scaling by itself. *)
Definition changeable (nodePool : PoolSpec) (c : ScaledCSNodePool) : Prop :=
  (pool_Labels nodePool ≠ ∅ ∨ default ∅ (csnp_Labels (scs_NodePool c)) = ∅) ∧
  (pool_AutoScaling nodePool = None → scs_Autoscaling c = None).

(** The taints are not all removed. *)
Definition taintsSettle (nodePool : PoolSpec) (c : ScaledCSNodePool) : Prop :=
  pool_Taints nodePool ≠ [] ∨ NodePoolUpdateDispatchConfigTaintsFromCS (scs_NodePool c) = [].

Section settling.
Context `{NodePoolMergeLaws}.
Variable nodePool : PoolSpec.
Variable old : ScaledCSNodePool.
Hypothesis Hcounts : countsInRange nodePool.
Hypothesis Hchangeable : changeable nodePool old.
Let new := MergeNodePool (BuildCSNodePool_update nodePool) old.

Lemma labels_readBack : NodePoolUpdateDispatchConfigLabelsFromCS (scs_NodePool new) = pool_Labels nodePool.
Proof. destruct Hchangeable as [Hl _]. unfold NodePoolUpdateDispatchConfigLabelsFromCS, new. by rewrite merge_labels. Qed.

Lemma scaling_readBack :
  npc_AutoScaling (nodePoolUpdateDispatchConfigFromCS new) = pool_AutoScaling nodePool ∧
  npc_Replicas (nodePoolUpdateDispatchConfigFromCS new) = npc_Replicas (nodePoolUpdateDispatchConfigFromRP nodePool).
Proof.
  destruct Hchangeable as [_ Ha], Hcounts as [Hr Hb]. simpl. unfold new.
  destruct (pool_AutoScaling nodePool) as [[min max]|] eqn:E.
  - destruct Hb as [Hmin Hmax]. rewrite (merge_autoscaling _ _ (min, max)).
    + simpl. by rewrite !wrap32_id.
    + unfold BuildCSNodePool_update, applyToCSBuilder. simpl. by rewrite E.
  - destruct (merge_replicas (BuildCSNodePool_update nodePool) old (pool_Replicas nodePool)) as [-> ->].
    + unfold BuildCSNodePool_update, applyToCSBuilder. simpl. by rewrite E.
    + by apply Ha.
    + simpl. by rewrite wrap32_id.
Qed.

Lemma taints_readBack :
  NodePoolUpdateDispatchConfigTaintsFromCS (scs_NodePool new) = pool_Taints nodePool ↔ taintsSettle nodePool old.
Proof.
  unfold taintsSettle, NodePoolUpdateDispatchConfigTaintsFromCS, new. rewrite merge_taints.
  unfold BuildCSNodePool_update, applyToCSBuilder, nodePoolUpdateDispatchConfigFromRP, NodePoolUpdateDispatchConfigTaintsFromRP. simpl.
  destruct (pool_Taints nodePool) as [|t l]; simpl; [|naive_solver].
  split; [by right|by intros [?|?]].
Qed.

Lemma nodePool_drain_readBack minutes : pool_NodeDrainTimeoutMinutes nodePool = Some minutes →
  NodePoolUpdateDispatchConfigNodeDrainTimeoutFromCS (scs_NodePool new) = Some minutes.
Proof.
  intros E. unfold NodePoolUpdateDispatchConfigNodeDrainTimeoutFromCS, new. rewrite merge_drain. simpl. by rewrite E.
Qed.

Lemma configs_settle :
  (nodePoolUpdateDispatchConfigsForDiff nodePool new).1 = (nodePoolUpdateDispatchConfigsForDiff nodePool new).2
  ↔ taintsSettle nodePool old.
Proof.
  rewrite <- taints_readBack. destruct scaling_readBack as [Hs Hr]. pose proof labels_readBack as Hl.
  pose proof nodePool_drain_readBack as Hd. unfold nodePoolUpdateDispatchConfigsForDiff, nodePoolUpdateDispatchConfigFromRP, nodePoolUpdateDispatchConfigFromCS,
    NodePoolUpdateDispatchConfigTaintsFromRP in *.
  simpl in *. fold new. destruct (pool_NodeDrainTimeoutMinutes nodePool) as [minutes|].
  - rewrite (Hd _ eq_refl), Hl, Hs, Hr. split; [intros E; by injection E|by intros ->].
  - rewrite Hl, Hs, Hr. split; [intros E; by injection E|by intros ->].
Qed.

(** The check of the update operation looks at the same labels and taints. *)
Lemma csSpec_settles : csSpecMatchesDesired nodePool (scs_NodePool new) = None ↔ taintsSettle nodePool old.
Proof.
  rewrite <- taints_readBack. unfold csSpecMatchesDesired, csLabelsSpecMatch, csTaintsSpecMatch, NodePoolUpdateDispatchConfigTaintsFromRP.
  rewrite labels_readBack, bool_decide_eq_true_2 by done.
  case_bool_decide as E; simpl; [by rewrite E|]. split; [done|]. intros E'. by rewrite E' in E.
Qed.

(** After an update that Cluster Service has accepted and applied, the next pass sends
    nothing, and the update operation finds its labels and taints, exactly when the update
    did not remove all taints: that is never sent, so the pass repeats itself and the
    operation does not end. *)
Theorem accepted_pool_update_settles cached (stored : PoolDoc) marshal update patch :
  spec stored = nodePool →
  nodePoolDispatch_pass cached (Ok stored) (Ok old) marshal update = (Some patch, None) →
  patch = BuildCSNodePool_update nodePool ∧
  (nodePoolDispatch_pass cached (Ok stored) (Ok (MergeNodePool patch old)) marshal update = (None, None)
   ↔ taintsSettle nodePool old) ∧
  (clusterServiceNodePoolSpecOperationState nodePool (scs_NodePool (MergeNodePool patch old))
     = NewOperationState ProvisioningStateSucceeded EmptyString
   ↔ taintsSettle nodePool old).
Proof.
  intros Hspec. unfold nodePoolDispatch_pass, readForWork. destruct cached as [c|[]]; simpl; [|done..].
  destruct (nodePool_needsWork c); simpl; [|done]. destruct (nodePool_needsWork stored); simpl; [|done]. rewrite Hspec.
  unfold compareAndSend at 1. case_decide; [done|]. destruct (marshal _) eqn:Em; [done|]. intros [= <- Hu]. split; [done|].
  fold new. rewrite <- configs_settle at 1. split.
  - unfold nodePoolUpdateDispatchConfigsForDiff. simpl. unfold compareAndSend. case_decide as E; [done|].
    rewrite Em. done.
  - rewrite <- csSpec_settles. fold new. unfold clusterServiceNodePoolSpecOperationState, updatingUnless.
    by destruct (csSpecMatchesDesired _ _).
Qed.
End settling.

(** ** Two updates of a tainted node pool *)

Module PoolDispatchExample.

#[export] Instance poolMerge : NodePoolMerge := λ p c, {|
  scs_NodePool := {|
    csnp_Status := csnp_Status (scs_NodePool c);
    csnp_Labels := Some (npp_Labels p);
    csnp_Taints := match npp_Taints p with Some taints => Some taints | None => csnp_Taints (scs_NodePool c) end;
    csnp_NodeDrainGracePeriod :=
      match npp_NodeDrainGracePeriod p with
      | Some (unit, value) => Some (Some unit, value)
      | None => csnp_NodeDrainGracePeriod (scs_NodePool c)
      end |};
  scs_Autoscaling := match npp_Scaling p with inl bounds => Some bounds | inr _ => scs_Autoscaling c end;
  scs_Replicas := match npp_Scaling p with inl _ => scs_Replicas c | inr n => n end;
|}.

#[export] Instance poolMergeLaws : NodePoolMergeLaws.
Proof.
  split; simpl; try done.
  - by intros p c bounds ->.
  - by intros p c n -> ->.
Qed.

Definition taint : Taint := {| t_Effect := "NoSchedule"; t_Key := "k"; t_Value := "v" |}.
Definition wanted (taints : list Taint) : PoolDoc := {|
  res_ID := OperationExample.poolID; res_Etag := 7; res_ProvisioningState := "Updating"; res_ActiveOperationID := "u1";
  res_DeletionTimestamp := None; res_DeleteOperationCompletionTimeout := None; res_DeleteOperationCompletionDeadline := None;
  res_rest := {|
    pool_ClusterServiceID := Some "/api/np"; pool_ClusterServiceDeletionTimestamp := None;
    pool_CreateOperationCompletionDeadline := None; pool_UpdateOperationCompletionDeadline := None;
    pool_VersionID := "4.20.5"; pool_Labels := {["tier" := "web"]}; pool_Replicas := 4; pool_AutoScaling := None;
    pool_Taints := taints; pool_NodeDrainTimeoutMinutes := Some 30 |} |}.
Definition running : ScaledCSNodePool := {|
  scs_NodePool := {| csnp_Status := {| nps_State := NodePoolStateReady; nps_Message := None |};
    csnp_Labels := Some {["tier" := "web"]}; csnp_Taints := Some [taint]; csnp_NodeDrainGracePeriod := None |};
  scs_Autoscaling := None; scs_Replicas := 3 |}.
Definition pass (taints : list Taint) (c : ScaledCSNodePool) : option NodePoolPatch * option dispatchError :=
  nodePoolDispatch_pass (Ok (wanted taints)) (Ok (wanted taints)) (Ok c) (λ _, None) (λ _, None).
Definition sent (taints : list Taint) : NodePoolPatch := BuildCSNodePool_update (spec (wanted taints)).

(** Keeping the taint settles, removing it does not. *)
Lemma accepted_pool_update_settles_witness :
  pass [taint] (MergeNodePool (sent [taint]) running) = (None, None) ∧
  pass [] (MergeNodePool (sent []) running) ≠ (None, None).
Proof.
  assert (H : ∀ taints, pass taints running = (Some (sent taints), None) →
    pass taints (MergeNodePool (sent taints) running) = (None, None) ↔ taintsSettle (spec (wanted taints)) running).
  { intros taints Hsent.
    apply (accepted_pool_update_settles (spec (wanted taints)) running ltac:(split; [vm_compute; intuition discriminate|done])
      ltac:(split; [left; vm_compute; discriminate|done]) (Ok (wanted taints)) (wanted taints) (λ _, None) (λ _, None)
      (sent taints) eq_refl Hsent). }
  split.
  - apply H; [vm_compute; reflexivity|]. left. discriminate.
  - intros E. apply (proj1 (H [] eq_refl)) in E. destruct E as [E|E]; vm_compute in E; [by apply E|discriminate E].
Defined.
End PoolDispatchExample.
