(* ===== verification/CACertificates.v ===== *)
(** * Certificates of an issuer

    [validateCACertificatePEM] and its helpers ([internal/validation/validators.go]): the
    text is a sequence of PEM blocks.  Decoding a block, parsing a certificate and printing
    a time are those of the standard library's packages [encoding/pem], [crypto/x509] and
    [time], given by a class; its law is that a block takes some of the text. *)
From S2P Require Import Prelude GoStrings Admission FieldValidation.

Local Open Scope string_scope.
Local Open Scope Z_scope.

Record Block := { block_Type : string; block_Bytes : string }.
Record Certificate := { cert_Subject : string; cert_IsCA : bool; cert_NotBefore : Z; cert_NotAfter : Z }.

Class PEM := {
  pem_Decode : string → option (Block * string);
  x509_ParseCertificate : string → result string Certificate;
  formatTime : Z → string;
}.
Class PEMLaws `{PEM} := {
  pem_Decode_shorter : ∀ text block rest, pem_Decode text = Some (block, rest) → (String.length rest < String.length text)%nat;
}.

Definition pemBlockDiagnostic (blockIndex : Z) (subject : string) : string :=
  if String.eqb subject EmptyString then "block " +:+ Itoa blockIndex
  else "block " +:+ Itoa blockIndex +:+ ": " +:+ subject.

Definition pemBlockDetail (blockIndex : Z) (subject detail : string) : string :=
  if String.eqb subject EmptyString then "certificate " +:+ Itoa blockIndex +:+ " " +:+ detail
  else "certificate " +:+ Itoa blockIndex +:+ " (" +:+ subject +:+ ") " +:+ detail.

Section certificates.
Context `{PEM}.
Variable now : Z.
Variable path : string.

(** What the loop has found out. *)
Record pemState := {
  pem_errs : list fieldError;
  pem_blockIndex : Z;
  pem_firstIsLeaf : bool;
  pem_foundCAAfterLeaf : bool;
}.

Definition pemStart : pemState :=
  {| pem_errs := []; pem_blockIndex := 0; pem_firstIsLeaf := false; pem_foundCAAfterLeaf := false |}.

(** The body of the loop: the certificate of a block. *)
Definition pemBlock (st : pemState) (block : Block) : pemState :=
  let blockIndex := pem_blockIndex st + 1 in
  let failed e := {| pem_errs := pem_errs st ++ [e]; pem_blockIndex := blockIndex;
                     pem_firstIsLeaf := pem_firstIsLeaf st; pem_foundCAAfterLeaf := pem_foundCAAfterLeaf st |} in
  let diagnostic := pemBlockDiagnostic blockIndex EmptyString in
  if negb (String.eqb (block_Type block) "CERTIFICATE") then
    failed (Invalid path diagnostic (Message ("PEM block " +:+ Itoa blockIndex +:+ " has type " +:+ Quote (block_Type block)
      +:+ "; must be CERTIFICATE")))
  else match x509_ParseCertificate (block_Bytes block) with
  | Err e => failed (Invalid path diagnostic (Message (pemBlockDetail blockIndex EmptyString ("is not a valid X.509 certificate: " +:+ e))))
  | Ok cert =>
      let subject := cert_Subject cert in
      let diagnostic := pemBlockDiagnostic blockIndex subject in
      let invalid detail := Invalid path diagnostic (Message (pemBlockDetail blockIndex subject detail)) in
      let isLeaf := (blockIndex =? 1) && negb (cert_IsCA cert) in
      let firstIsLeaf := isLeaf || pem_firstIsLeaf st in
      {| pem_errs := (pem_errs st
           ++ (if negb isLeaf && negb (cert_IsCA cert) then [invalid "must be a CA certificate"] else [])
           ++ (if now <? cert_NotBefore cert then [invalid ("is not yet valid (NotBefore " +:+ formatTime (cert_NotBefore cert) +:+ ")")] else [])
           ++ (if cert_NotAfter cert <? now then [invalid ("has expired (NotAfter " +:+ formatTime (cert_NotAfter cert) +:+ ")")] else []))%list;
         pem_blockIndex := blockIndex;
         pem_firstIsLeaf := firstIsLeaf;
         pem_foundCAAfterLeaf := cert_IsCA cert && pem_firstIsLeaf st || pem_foundCAAfterLeaf st |}
  end.

(** The loop: the state and what is left of the text. *)
Fixpoint pemLoop (fuel : nat) (rest : string) (st : pemState) : pemState * string :=
  match fuel with
  | O => (st, rest)
  | S fuel =>
      match pem_Decode rest with
      | None => (st, rest)
      | Some (block, rest) => pemLoop fuel rest (pemBlock st block)
      end
  end.

Definition validateCACertificatePEM (value : string) : list fieldError :=
  if String.eqb value EmptyString then []
  else
    let '(st, rest) := pemLoop (S (String.length value)) value pemStart in
    if pem_blockIndex st =? 0 then [Invalid path EmptyString (Message "not a valid PEM")]
    else (pem_errs st
          ++ (if pem_firstIsLeaf st && negb (pem_foundCAAfterLeaf st)
              then [Invalid path EmptyString (Message
                "public certificate chain must include at least one CA certificate after the leaf certificate")] else [])
          ++ (if negb (String.eqb (TrimSpace rest) EmptyString)
              then [Invalid path EmptyString (Message "contains trailing non-PEM data")] else []))%list.

(** ** The blocks of a text *)

(** [text] is the blocks followed by a rest without any. *)
Inductive splitPEM : string → list Block → string → Prop :=
  | splitPEM_end text : pem_Decode text = None → splitPEM text [] text
  | splitPEM_block text block rest blocks last :
      pem_Decode text = Some (block, rest) → splitPEM rest blocks last → splitPEM text (block :: blocks) last.

(** The fuel is enough: the loop goes through all the blocks. *)
Lemma pemLoop_split `{!PEMLaws} fuel : ∀ text st, (String.length text < fuel)%nat →
  ∃ blocks rest, splitPEM text blocks rest ∧ pemLoop fuel text st = (fold_left pemBlock blocks st, rest).
Proof.
  induction fuel as [|fuel IH]; intros text st Hf; [lia|]. simpl.
  destruct (pem_Decode text) as [[block rest]|] eqn:E.
  - pose proof (pem_Decode_shorter _ _ _ E).
    destruct (IH rest (pemBlock st block)) as (blocks & last & Hs & ->); [lia|].
    exists (block :: blocks), last. split; [by eapply splitPEM_block|done].
  - exists [], text. split; [by constructor|done].
Qed.

(** A certificate that is valid at the time. *)
Definition currentCertificate (block : Block) (cert : Certificate) : Prop :=
  block_Type block = "CERTIFICATE" ∧ x509_ParseCertificate (block_Bytes block) = Ok cert ∧
  cert_NotBefore cert <= now <= cert_NotAfter cert.

Lemma pemBlock_index st block : pem_blockIndex (pemBlock st block) = pem_blockIndex st + 1.
Proof. unfold pemBlock. destruct (negb _); [done|]. by destruct (x509_ParseCertificate _). Qed.

Lemma fold_pemBlock_index blocks : ∀ st,
  pem_blockIndex (fold_left pemBlock blocks st) = pem_blockIndex st + Z.of_nat (length blocks).
Proof.
  induction blocks as [|b blocks IH]; intros st; simpl; [lia|]. rewrite IH, pemBlock_index. lia.
Qed.

(** After the first block every certificate has to be one of an authority. *)
Lemma pemBlock_later st block : 1 <= pem_blockIndex st →
  pem_errs (pemBlock st block) = [] ↔
  pem_errs st = [] ∧ ∃ cert, currentCertificate block cert ∧ cert_IsCA cert = true.
Proof.
  intros Hi. unfold pemBlock, currentCertificate.
  destruct (String.eqb_spec (block_Type block) "CERTIFICATE") as [Ht|Ht]; simpl negb; cbv iota.
  2:{ simpl. split; [by intros [_ [=]]%app_nil_iff|]. intros (_ & c & (? & _) & _); congruence. }
  destruct (x509_ParseCertificate (block_Bytes block)) as [cert|e]; simpl.
  2:{ split; [by intros [_ [=]]%app_nil_iff|]. by intros (_ & c & (_ & [=] & _) & _). }
  rewrite (proj2 (Z.eqb_neq (pem_blockIndex st + 1) 1)) by lia. simpl.
  rewrite !app_nil_iff, !if_nil, !Z.ltb_ge. destruct (cert_IsCA cert) eqn:Eca; simpl.
  - split; [intros (? & _ & ? & ?); split; [done|]; by exists cert|].
    intros (? & c & (_ & [= <-] & ?) & _). split_and!; tauto.
  - split; [naive_solver|]. intros (_ & c & (_ & [= <-] & _) & ?). congruence.
Qed.

Lemma fold_pemBlock_later blocks : ∀ st, 1 <= pem_blockIndex st →
  pem_errs (fold_left pemBlock blocks st) = [] ↔
  pem_errs st = [] ∧ Forall (λ b, ∃ cert, currentCertificate b cert ∧ cert_IsCA cert = true) blocks.
Proof.
  induction blocks as [|b blocks IH]; intros st Hi; simpl; [rewrite Forall_nil; tauto|].
  rewrite IH by (rewrite pemBlock_index; lia). rewrite pemBlock_later, Forall_cons by done. tauto.
Qed.

(** The chain after a leaf: found when some further certificate of an authority is. *)
Lemma fold_pemBlock_flags blocks : ∀ st, 1 <= pem_blockIndex st →
  Forall (λ b, ∃ cert, currentCertificate b cert ∧ cert_IsCA cert = true) blocks →
  pem_firstIsLeaf (fold_left pemBlock blocks st) = pem_firstIsLeaf st ∧
  pem_foundCAAfterLeaf (fold_left pemBlock blocks st)
  = pem_foundCAAfterLeaf st || pem_firstIsLeaf st && negb (bool_decide (blocks = [])).
Proof.
  induction blocks as [|b blocks IH]; intros st Hi Hall; simpl; [by rewrite andb_false_r, orb_false_r|].
  apply Forall_cons in Hall as [(cert & (Ht & Hc & _) & Hca) Hall].
  assert (Hb : pem_firstIsLeaf (pemBlock st b) = pem_firstIsLeaf st ∧
    pem_foundCAAfterLeaf (pemBlock st b) = pem_firstIsLeaf st || pem_foundCAAfterLeaf st).
  { unfold pemBlock. rewrite Ht, Hc. simpl. rewrite Hca.
    rewrite (proj2 (Z.eqb_neq (pem_blockIndex st + 1) 1)) by lia. done. }
  destruct Hb as [H1 H2]. destruct (IH (pemBlock st b)) as [-> ->]; [rewrite pemBlock_index; lia|done|].
  rewrite H1, H2. split; [done|]. destruct (pem_firstIsLeaf st), (pem_foundCAAfterLeaf st); simpl; try done.
Qed.

(** What is accepted: nothing at all, or certificates that are all valid now, all but
    perhaps the first of them of authorities, the first followed by another one if it is
    not, and nothing but space after them. *)
Definition acceptableChain (blocks : list Block) (rest : string) : Prop :=
  TrimSpace rest = EmptyString ∧
  match blocks with
  | [] => False
  | first :: others =>
      (∃ cert, currentCertificate first cert ∧ (cert_IsCA cert = true ∨ others ≠ [])) ∧
      Forall (λ b, ∃ cert, currentCertificate b cert ∧ cert_IsCA cert = true) others
  end.

Lemma pemBlock_first block :
  pem_errs (pemBlock pemStart block) = [] ↔ ∃ cert, currentCertificate block cert.
Proof.
  unfold pemBlock, currentCertificate. simpl.
  destruct (String.eqb_spec (block_Type block) "CERTIFICATE") as [Ht|Ht]; simpl negb; cbv iota; simpl.
  2:{ split; [done|]. intros (c & ? & _). congruence. }
  destruct (x509_ParseCertificate (block_Bytes block)) as [cert|e]; simpl.
  2:{ split; [done|]. by intros (c & _ & [=] & _). }
  rewrite andb_negb_l. simpl. rewrite !app_nil_iff, !if_nil, !Z.ltb_ge. split.
  - intros [? ?]. by exists cert.
  - intros (c & _ & [= <-] & ?). tauto.
Qed.

(** (C22) A bundle of certificates is accepted exactly when it is empty, or it holds one
    or more PEM blocks with nothing but white space after the last one (the decoder skips
    text before and between blocks), its blocks are certificates that are valid now, and all are of
    certificate authorities, but for the first one when one of an authority follows. *)
Theorem certificates_accepted `{!PEMLaws} value :
  validateCACertificatePEM value = [] ↔
  value = EmptyString ∨ ∃ blocks rest, splitPEM value blocks rest ∧ acceptableChain blocks rest.
Proof.
  unfold validateCACertificatePEM. destruct (String.eqb_spec value EmptyString) as [->|Hne]; [split; [by left|done]|].
  destruct (pemLoop_split (S (String.length value)) value pemStart ltac:(lia)) as (blocks & rest & Hsplit & ->).
  rewrite fold_pemBlock_index. simpl pem_blockIndex.
  transitivity (acceptableChain blocks rest).
  2:{ split; [right; by exists blocks, rest|]. intros [?|(blocks' & rest' & Hs' & Ha)]; [done|].
      assert (blocks' = blocks ∧ rest' = rest) as [-> ->]; [|done].
      clear Ha Hne. revert blocks' rest' Hs'. induction Hsplit as [t Et|t b r bs l Et _ IH]; intros blocks' rest' Hs'.
      - inversion Hs'; subst; [done|congruence].
      - inversion Hs' as [|t' b' r' bs' l' Et' Hr']; subst; [congruence|].
        rewrite Et in Et'. injection Et' as <- <-. destruct (IH _ _ Hr') as [-> ->]. done. }
  unfold acceptableChain. destruct blocks as [|first others]; [simpl; split; [done|tauto]|].
  rewrite (proj2 (Z.eqb_neq _ 0)) by (simpl; lia). simpl fold_left.
  rewrite !app_nil_iff, !if_nil, negb_false_iff, String.eqb_eq.
  rewrite fold_pemBlock_later, pemBlock_first by (rewrite pemBlock_index; simpl; lia).
  split.
  - intros ((Hfirst & Hothers) & Hflag & Hrest). split_and!; [done| |done].
    destruct Hfirst as (cert & Hc). exists cert. split; [done|].
    destruct (fold_pemBlock_flags others (pemBlock pemStart first)) as [H1 H2]; [rewrite pemBlock_index; simpl; lia|done|].
    rewrite H1, H2 in Hflag. destruct Hc as (Ht & Hp & _). unfold pemBlock in Hflag. rewrite Ht, Hp in Hflag. simpl in Hflag.
    destruct (cert_IsCA cert); [by left|right]. destruct others; [by rewrite bool_decide_eq_true_2 in Hflag|done].
  - intros (Hrest & (cert & Hc & Hca) & Hothers). split_and!; [by exists cert|done| |done].
    destruct (fold_pemBlock_flags others (pemBlock pemStart first)) as [H1 H2]; [rewrite pemBlock_index; simpl; lia|done|].
    rewrite H1, H2. destruct Hc as (Ht & Hp & _). unfold pemBlock. rewrite Ht, Hp. simpl.
    destruct (cert_IsCA cert); simpl; [done|]. destruct Hca as [?|Hca]; [done|]. by rewrite bool_decide_eq_false_2.
Qed.
End certificates.

(** ** Chains of one letter per block: a leaf, an authority, a key *)

Module PemSamples.

#[export] Instance pem : PEM := {
  pem_Decode text :=
    match text with
    | String "L" rest => Some ({| block_Type := "CERTIFICATE"; block_Bytes := "leaf" |}, rest)
    | String "A" rest => Some ({| block_Type := "CERTIFICATE"; block_Bytes := "authority" |}, rest)
    | String "K" rest => Some ({| block_Type := "PRIVATE KEY"; block_Bytes := "key" |}, rest)
    | _ => None
    end;
  x509_ParseCertificate bytes :=
    Ok {| cert_Subject := "CN=" +:+ bytes; cert_IsCA := String.eqb bytes "authority"; cert_NotBefore := 0; cert_NotAfter := 100 |};
  formatTime := Itoa;
}.

#[export] Instance pemLaws : PEMLaws.
Proof.
  split. intros [|c text] block rest; simpl; [done|].
  destruct c as [[] [] [] [] [] [] [] []]; simpl; try done; intros [= _ <-]; lia.
Qed.

Example chains :
  validateCACertificatePEM 50 "ca" "A" = [] ∧ validateCACertificatePEM 50 "ca" "LA" = [] ∧
  length (validateCACertificatePEM 50 "ca" "L") = 1%nat ∧ length (validateCACertificatePEM 50 "ca" "AL") = 1%nat ∧
  length (validateCACertificatePEM 101 "ca" "AK x") = 3%nat ∧
  validateCACertificatePEM 50 "ca" "x" = [Invalid "ca" EmptyString (Message "not a valid PEM")].
Proof. by vm_compute. Qed.

Lemma certificates_accepted_witness : validateCACertificatePEM 50 "ca" "LA" = [].
Proof.
  apply (certificates_accepted 50 "ca" "LA"). right.
  exists [{| block_Type := "CERTIFICATE"; block_Bytes := "leaf" |}; {| block_Type := "CERTIFICATE"; block_Bytes := "authority" |}],
    EmptyString. split.
  - repeat (eapply splitPEM_block; [reflexivity|]). by constructor.
  - split; [reflexivity|]. split.
    + exists {| cert_Subject := "CN=leaf"; cert_IsCA := false; cert_NotBefore := 0; cert_NotAfter := 100 |}.
      split; [|right; discriminate]. split_and!; [reflexivity|reflexivity|simpl; lia|simpl; lia].
    + constructor; [|constructor].
      exists {| cert_Subject := "CN=authority"; cert_IsCA := true; cert_NotBefore := 0; cert_NotAfter := 100 |}.
      split; [|reflexivity]. split_and!; [reflexivity|reflexivity|simpl; lia|simpl; lia].
Defined.
End PemSamples.
