(* ===== verification/ExternalAuthValidation.v ===== *)
(** * Static validation of external auths

    [internal/validation/validate_externalauth.go].  The rules of a token are validated
    without their old values, also on an update, and the validation of their union looks
    at the old value there: it is a nil dereference. *)
From S2P Require Import Prelude GoStrings GoRegexp RolloutTypes VersionRules Admission FieldValidation CACertificates.

Local Open Scope string_scope.
Local Open Scope Z_scope.
Local Open Scope go_scope.

(** ** The resource *)

Record TokenIssuerProfile := { iss_URL : string; iss_Audiences : option (list string); iss_CA : string }.

Record ClientComponent := { cc_Name : string; cc_AuthClientNamespace : string }.
#[export] Instance ClientComponent_eq_dec : EqDecision ClientComponent.
Proof. solve_decision. Defined.

Record AuthClient := {
  ac_Component : ClientComponent;
  ac_ClientID : string;
  ac_ExtraScopes : list string;
  ac_Type : string;
}.

Record UsernameClaim := { uc_Claim : string; uc_Prefix : string; uc_PrefixPolicy : string }.
#[export] Instance UsernameClaim_eq_dec : EqDecision UsernameClaim.
Proof. solve_decision. Defined.
Record GroupClaim := { gc_Claim : string; gc_Prefix : string }.
#[export] Instance GroupClaim_eq_dec : EqDecision GroupClaim.
Proof. solve_decision. Defined.

Record RequiredClaim := { rc_Claim : string; rc_RequiredValue : string }.
#[export] Instance RequiredClaim_eq_dec : EqDecision RequiredClaim.
Proof. solve_decision. Defined.
Record ValidationRule := { vr_Type : string; vr_RequiredClaim : RequiredClaim }.

Record AuthProperties := {
  ap_ProvisioningState : string;
  ap_Issuer : TokenIssuerProfile;
  ap_Clients : list AuthClient;
  ap_Username : UsernameClaim;
  ap_Groups : option GroupClaim;
  ap_ValidationRules : list ValidationRule;
}.

Record AuthResource := {
  ar_Resource : Resource;
  ar_Properties : AuthProperties;
  ar_ClusterServiceID : option string;
}.

Definition externalAuthResourceType : string := "Microsoft.RedHatOpenShift/hcpOpenShiftClusters/externalAuths".
Definition ExternalAuthConsoleClientComponentName : string := "console".
Definition ExternalAuthConsoleClientComponentNamespace : string := "openshift-console".
Definition ExternalAuthClientTypeConfidential : string := "Confidential".
Definition ExternalAuthClientTypePublic : string := "Public".
Definition ValidExternalAuthClientTypes : list string := [ExternalAuthClientTypeConfidential; ExternalAuthClientTypePublic].
Definition UsernameClaimPrefixPolicyPrefix : string := "Prefix".
Definition UsernameClaimPrefixPolicyNoPrefix : string := "NoPrefix".
Definition UsernameClaimPrefixPolicyNone : string := "None".
Definition ValidUsernameClaimPrefixPolicies : list string :=
  [UsernameClaimPrefixPolicyPrefix; UsernameClaimPrefixPolicyNoPrefix; UsernameClaimPrefixPolicyNone].
Definition TokenValidationRuleTypeRequiredClaim : string := "RequiredClaim".
Definition ValidTokenValidationRuleTypes : list string := [TokenValidationRuleTypeRequiredClaim].

(** ** More validators of Kubernetes

    A structure is required when it is not the zero value; [ValSliceUnique] compares
    the elements of a list. *)
Class SliceValidators := {
  RequiredStruct : string → bool → list fieldError;
  RequiredSlice : ∀ A, string → list A → list fieldError;
  ValSliceUnique : ∀ A, Operation → string → list A → (A → A → bool) → list fieldError;
}.
Arguments RequiredSlice {_ A}.
Arguments ValSliceUnique {_ A}.

Class SliceValidatorLaws `{SliceValidators} := {
  RequiredStruct_nil : ∀ path isZero, RequiredStruct path isZero = [] ↔ isZero = false;
  RequiredSlice_nil : ∀ A path (l : list A), RequiredSlice path l = [] ↔ l ≠ [];
  ValSliceUnique_nil : ∀ A op path (l : list A) same, op_Type op = Create → ValSliceUnique op path l same = [] →
    ∀ i j a b, l !! i = Some a → l !! j = Some b → i ≠ j → same a b = false;
}.

(** ** The validation *)

Section validation.
Context `{FieldValidators} `{SliceValidators} `{PEM}.

(** A list whose elements are validated by a function that may panic: the panic of an
    element is that of the whole. *)
Definition EachSliceValPanics {A} (path : string) (l : list A) (validator : string → A → result version_panic (list fieldError)) :
    result version_panic (list fieldError) :=
  if existsb (λ a, negb (is_ok (validator path a))) l then Err NilDereference
  else Ok (EachSliceVal path l (λ p a, match validator p a with Ok errs => errs | Err _ => [] end)).

(** The union of an object that may have no old value: on an update the functions that
    look at a field are given the old value and dereference it. *)
Definition DiscriminatedUnionOf (op : Operation) (path member : string) (new : string * bool) (old : option (string * bool)) :
    result version_panic (list fieldError) :=
  if bool_decide (op_Type op = Update) && negb (bool_decide (is_Some old)) then Err NilDereference
  else Ok (DiscriminatedUnion op path member new old).

(** [^https://.*], which is not anchored at the end. *)
Definition startsWithHTTPSRegex : regexp :=
  foldr (λ c e, Then (OneOf (isByte c)) e) (Many (OneOf (λ _, true))) (String.list_ascii_of_string "https://").

Definition validateTokenIssuerProfile (now : Z) (path : string) (newObj : TokenIssuerProfile) : list fieldError :=
  let audiences := default [] (iss_Audiences newObj) in
  (RequiredValue (Child path "url") (iss_URL newObj)
   ++ MatchesRegex (Child path "url") (iss_URL newObj) startsWithHTTPSRegex "must be https URL"
   ++ RequiredSlice (Child path "audiences") audiences
   ++ MinItems (Child path "audiences") (iss_Audiences newObj) 1
   ++ MaxItems (Child path "audiences") (iss_Audiences newObj) 10
   ++ EachSliceVal (Child path "audiences") audiences RequiredValue
   ++ validateCACertificatePEM now (Child path "ca") (iss_CA newObj))%list.

Definition validateExternalAuthClientComponentProfile (path : string) (newObj : ClientComponent) : list fieldError :=
  (RequiredValue (Child path "name") (cc_Name newObj)
   ++ MaxLen (Child path "name") (cc_Name newObj) 256
   ++ RequiredValue (Child path "authClientNamespace") (cc_AuthClientNamespace newObj)
   ++ MaxLen (Child path "authClientNamespace") (cc_AuthClientNamespace newObj) 63)%list.

Definition consoleComponent : ClientComponent :=
  {| cc_Name := ExternalAuthConsoleClientComponentName; cc_AuthClientNamespace := ExternalAuthConsoleClientComponentNamespace |}.
Definition noComponent : ClientComponent := {| cc_Name := EmptyString; cc_AuthClientNamespace := EmptyString |}.
Definition validConfidentialExternalAuthClientComponents : list ClientComponent := [consoleComponent].

Definition validateExternalAuthClientProfile (path : string) (newObj : AuthClient) : list fieldError :=
  (RequiredStruct (Child path "component") (bool_decide (ac_Component newObj = noComponent))
   ++ validateExternalAuthClientComponentProfile (Child path "component") (ac_Component newObj)
   ++ RequiredValue (Child path "clientId") (ac_ClientID newObj)
   ++ EachSliceVal (Child path "extraScopes") (ac_ExtraScopes newObj) RequiredValue
   ++ RequiredValue (Child path "type") (ac_Type newObj)
   ++ Enum (Child path "type") (ac_Type newObj) ValidExternalAuthClientTypes
   ++ (if bool_decide (ac_Component newObj = consoleComponent) && negb (String.eqb (ac_Type newObj) ExternalAuthClientTypeConfidential)
       then [Invalid (Child path "type") (ac_Type newObj)
         (Message "must be Confidential when component name is console and component namespace is openshift-console")] else [])
   ++ (if String.eqb (ac_Type newObj) ExternalAuthClientTypeConfidential
          && negb (bool_decide (ac_Component newObj ∈ validConfidentialExternalAuthClientComponents))
       then [Invalid (Child path "type") (ac_Type newObj)
         (Message "confidential client type is not allowed for this component")] else []))%list.

Definition validateUsernameClaimProfile (op : Operation) (path : string) (newObj : UsernameClaim) (oldObj : option UsernameClaim) :
    result version_panic (list fieldError) :=
  let view u := (uc_PrefixPolicy u, 0 <? len (uc_Prefix u)) in
  let* union := DiscriminatedUnionOf op path UsernameClaimPrefixPolicyPrefix (view newObj) (view <$> oldObj) in
  Ok (RequiredValue (Child path "claim") (uc_Claim newObj)
      ++ MaxLen (Child path "claim") (uc_Claim newObj) 256
      ++ Enum (Child path "prefixPolicy") (uc_PrefixPolicy newObj) ValidUsernameClaimPrefixPolicies
      ++ union)%list.

Definition validateGroupClaimProfile (path : string) (newObj : option GroupClaim) : list fieldError :=
  match newObj with
  | None => []
  | Some groups =>
      (RequiredValue (Child path "claim") (gc_Claim groups) ++ MaxLen (Child path "claim") (gc_Claim groups) 256)%list
  end.

Definition noUsername : UsernameClaim := {| uc_Claim := EmptyString; uc_Prefix := EmptyString; uc_PrefixPolicy := EmptyString |}.

(** [Mappings] holds the user name and the groups, and both at once may be missing. *)
Definition validateTokenClaimMappingsProfile (op : Operation) (path : string) (newObj : AuthProperties) (oldObj : option AuthProperties) :
    result version_panic (list fieldError) :=
  let* username := validateUsernameClaimProfile op (Child path "username") (ap_Username newObj) (ap_Username <$> oldObj) in
  Ok (RequiredStruct (Child path "username") (bool_decide (ap_Username newObj = noUsername))
      ++ username
      ++ validateGroupClaimProfile (Child path "groups") (ap_Groups newObj))%list.

Definition validateTokenRequiredClaim (path : string) (newObj : RequiredClaim) : list fieldError :=
  (RequiredValue (Child path "claim") (rc_Claim newObj)
   ++ RequiredValue (Child path "requiredValue") (rc_RequiredValue newObj))%list.

Definition noRequiredClaim : RequiredClaim := {| rc_Claim := EmptyString; rc_RequiredValue := EmptyString |}.

Definition validateTokenClaimValidationRule (op : Operation) (path : string) (newObj : ValidationRule) (oldObj : option ValidationRule) :
    result version_panic (list fieldError) :=
  let view r := (vr_Type r, negb (bool_decide (vr_RequiredClaim r = noRequiredClaim))) in
  let* union := DiscriminatedUnionOf op path TokenValidationRuleTypeRequiredClaim (view newObj) (view <$> oldObj) in
  Ok (Enum (Child path "type") (vr_Type newObj) ValidTokenValidationRuleTypes
      ++ union
      ++ validateTokenRequiredClaim (Child path "requiredClaim") (vr_RequiredClaim newObj))%list.

Definition validateExternalAuthClaimProfile (op : Operation) (path : string) (newObj : AuthProperties) (oldObj : option AuthProperties) :
    result version_panic (list fieldError) :=
  let* mappings := validateTokenClaimMappingsProfile op (Child path "mappings") newObj oldObj in
  let* rules := EachSliceValPanics (Child path "validationRules") (ap_ValidationRules newObj)
    (λ p rule, validateTokenClaimValidationRule op p rule None) in
  Ok (RequiredStruct (Child path "mappings")
        (bool_decide (ap_Username newObj = noUsername) && bool_decide (ap_Groups newObj = None))
      ++ mappings ++ rules)%list.

Definition clientInAudiences (audiences : list string) (path : string) (client : AuthClient) : list fieldError :=
  if existsb (λ audience, String.eqb audience (ac_ClientID client)) audiences then []
  else [Invalid (Child path "clientId") (ac_ClientID client) (Message "must match an audience in issuer audiences")].

Definition validateExternalAuthProperties (now : Z) (op : Operation) (path : string) (newObj : AuthProperties)
    (oldObj : option AuthProperties) : result version_panic (list fieldError) :=
  let clients := Child path "clients" in
  let* claim := validateExternalAuthClaimProfile op (Child path "claim") newObj oldObj in
  Ok (immutableByCompare op (Child path "provisioningState") (Some (ap_ProvisioningState newObj)) (ap_ProvisioningState <$> oldObj)
      ++ validateTokenIssuerProfile now (Child path "issuer") (ap_Issuer newObj)
      ++ MaxItems clients (Some (ap_Clients newObj)) 20
      ++ EachSliceVal clients (ap_Clients newObj) validateExternalAuthClientProfile
      ++ ValSliceUnique op clients (ap_Clients newObj) (λ a b, bool_decide (ac_Component a = ac_Component b))
      ++ claim
      ++ EachSliceVal clients (ap_Clients newObj) (clientInAudiences (default [] (iss_Audiences (ap_Issuer newObj)))))%list.

Definition validateProxyResource (op : Operation) (path : string) (newObj : Resource) (oldObj : option Resource) : list fieldError :=
  validateResource op (Child path "resource") newObj oldObj.

Definition validateExternalAuthServiceProviderProperties (op : Operation) (path : string) (newID oldID : option string) : list fieldError :=
  immutableByReflect op (Child path "clusterServiceID") newID oldID.

Definition validateExternalAuth (now : Z) (op : Operation) (newObj : AuthResource) (oldObj : option AuthResource) :
    result version_panic (list fieldError) :=
  let* properties := validateExternalAuthProperties now op "properties" (ar_Properties newObj) (ar_Properties <$> oldObj) in
  Ok (validateProxyResource op "trackedResource" (ar_Resource newObj) (ar_Resource <$> oldObj)
      ++ RestrictedResourceIDWithResourceGroup "id" (res_ID (ar_Resource newObj)) externalAuthResourceType
      ++ match res_ID (ar_Resource newObj) with
         | None => []
         | Some id =>
             MaxLen "id" (rid_Name id) 15
             ++ MatchesRegex "id" (rid_Name id) externalAuthResourceNameRegex "(must be a valid DNS RFC 1035 label)"
         end
      ++ properties
      ++ validateExternalAuthServiceProviderProperties op "serviceProviderProperties" (ar_ClusterServiceID newObj)
           (mjoin (ar_ClusterServiceID <$> oldObj)))%list.

Definition operationOf (t : operationType) : Operation := {| op_Type := t; op_Options := [] |}.

Definition ValidateExternalAuthCreate (now : Z) (newObj : AuthResource) : result version_panic (list fieldError) :=
  validateExternalAuth now (operationOf Create) newObj None.
Definition ValidateExternalAuthUpdate (now : Z) (newObj oldObj : AuthResource) : result version_panic (list fieldError) :=
  validateExternalAuth now (operationOf Update) newObj (Some oldObj).
End validation.

(** ** Accepted external auths *)

(** A client names a component, in one of the two types, and the console alone is
    confidential. *)
Record clientOk (audiences : list string) (c : AuthClient) : Prop := {
  co_name : 1 <= len (cc_Name (ac_Component c)) <= 256;
  co_namespace : 1 <= len (cc_AuthClientNamespace (ac_Component c)) <= 63;
  co_audience : ac_ClientID c ≠ EmptyString ∧ ac_ClientID c ∈ audiences;
  co_scopes : Forall (λ scope, scope ≠ EmptyString) (ac_ExtraScopes c);
  co_type : ac_Type c ∈ ValidExternalAuthClientTypes;
  co_console : ac_Type c = ExternalAuthClientTypeConfidential ↔ ac_Component c = consoleComponent;
}.

Record authOk `{PEM} (now : Z) (p : AuthProperties) : Prop := {
  ao_url : HasPrefix (iss_URL (ap_Issuer p)) "https://" = true;
  ao_audiences : ∃ l, iss_Audiences (ap_Issuer p) = Some l ∧ (1 <= length l <= 10)%nat ∧ Forall (λ a, a ≠ EmptyString) l ∧
    Forall (clientOk l) (ap_Clients p);
  ao_ca : iss_CA (ap_Issuer p) = EmptyString ∨
    ∃ blocks rest, splitPEM (iss_CA (ap_Issuer p)) blocks rest ∧ acceptableChain now blocks rest;
  ao_clients : (length (ap_Clients p) <= 20)%nat;
  ao_unique : ∀ i j c d, ap_Clients p !! i = Some c → ap_Clients p !! j = Some d → ac_Component c = ac_Component d → i = j;
  ao_username : 1 <= len (uc_Claim (ap_Username p)) <= 256 ∧ uc_PrefixPolicy (ap_Username p) ∈ ValidUsernameClaimPrefixPolicies ∧
    (uc_Prefix (ap_Username p) ≠ EmptyString ↔ uc_PrefixPolicy (ap_Username p) = UsernameClaimPrefixPolicyPrefix);
  ao_groups : ∀ g, ap_Groups p = Some g → 1 <= len (gc_Claim g) <= 256;
  ao_rules : Forall (λ r, vr_Type r = TokenValidationRuleTypeRequiredClaim ∧
    rc_Claim (vr_RequiredClaim r) ≠ EmptyString ∧ rc_RequiredValue (vr_RequiredClaim r) ≠ EmptyString) (ap_ValidationRules p);
}.

Lemma len_pos s : s ≠ EmptyString ↔ 1 <= len s.
Proof. unfold len. destruct s; simpl; split; try done; lia. Qed.

Lemma len_pos' s : (0 <? len s) = true ↔ s ≠ EmptyString.
Proof. rewrite len_pos, Z.ltb_lt. lia. Qed.

Lemma MatchString_then c e s : MatchString (Then (OneOf (isByte c)) e) s = true →
  ∃ rest, s = String c rest ∧ MatchString e rest = true.
Proof.
  unfold MatchString. destruct s as [|d s]; [done|]. cbn [String.list_ascii_of_string accepts after acceptsEmpty].
  assert (Hblank : thenSmall Blank_ e = e) by (destruct e; reflexivity).
  assert (Hnothing : ∀ l, accepts Nothing l = false) by (intros l; induction l; [done|assumption]).
  destruct (isByte c d) eqn:E.
  - rewrite Hblank. intros He. exists s. unfold isByte in E. by apply Ascii.eqb_eq in E as ->.
  - by replace (thenSmall Nothing e) with Nothing by (destruct e; reflexivity); rewrite Hnothing.
Qed.

Lemma https_prefix url : MatchString startsWithHTTPSRegex url = true → HasPrefix url "https://" = true.
Proof.
  unfold startsWithHTTPSRegex. simpl. intros Hm.
  repeat (apply MatchString_then in Hm as (? & -> & Hm)). unfold HasPrefix. simpl. by match goal with |- String.prefix _ ?x = _ => destruct x end.
Qed.

Section accepted_auths.
Context `{FieldValidatorLaws} `{SliceValidatorLaws} `{PEMLaws}.

Lemma EachSliceVal_Forall {A} path (l : list A) validator (P : A → Prop) :
  (∀ p a, validator p a = [] → P a) → EachSliceVal path l validator = [] → Forall P l.
Proof.
  intros Hv Hn. apply Forall_forall. intros a Ha. destruct (EachSliceVal_nil _ _ _ _ Hn a Ha) as [p Hp]. by eapply Hv.
Qed.

Lemma validateExternalAuthClientProfile_nil path c : validateExternalAuthClientProfile path c = [] →
  ∀ audiences, ac_ClientID c ∈ audiences → clientOk audiences c.
Proof.
  unfold validateExternalAuthClientProfile, validateExternalAuthClientComponentProfile. intros Hn audiences Hin.
  rewrite !app_nil_iff in Hn. destruct Hn as (_ & (Hn1 & Hn2 & Hn3 & Hn4) & Hid & Hsc & _ & Hty & Hc1 & Hc2).
  rewrite RequiredValue_nil in Hn1, Hn3, Hid. rewrite MaxLen_nil in Hn2, Hn4. rewrite Enum_nil in Hty.
  rewrite if_nil in Hc1, Hc2. rewrite len_pos in Hn1, Hn3.
  split; try done.
  - apply (EachSliceVal_Forall _ _ _ _ (λ p a, proj1 (RequiredValue_nil p a)) Hsc).
  - split.
    + intros Ht. rewrite Ht in Hc2. simpl in Hc2. apply negb_false_iff, bool_decide_eq_true in Hc2.
      by apply list_elem_of_singleton in Hc2.
    + intros Hc. rewrite bool_decide_eq_true_2 in Hc1 by done. simpl in Hc1. by apply negb_false_iff, String.eqb_eq in Hc1.
Qed.

Lemma DiscriminatedUnionOf_create path member new errs :
  DiscriminatedUnionOf (operationOf Create) path member new None = Ok errs → errs = [] → new.2 = true ↔ new.1 = member.
Proof.
  unfold DiscriminatedUnionOf. simpl. intros [= <-] Hn. apply DiscriminatedUnion_nil in Hn; [|done].
  by destruct Hn as [[? _]|Hn].
Qed.

Lemma validateTokenClaimValidationRule_create path rule errs :
  validateTokenClaimValidationRule (operationOf Create) path rule None = Ok errs → errs = [] →
  vr_Type rule = TokenValidationRuleTypeRequiredClaim ∧
  rc_Claim (vr_RequiredClaim rule) ≠ EmptyString ∧ rc_RequiredValue (vr_RequiredClaim rule) ≠ EmptyString.
Proof.
  unfold validateTokenClaimValidationRule, DiscriminatedUnionOf, validateTokenRequiredClaim. simpl. intros [= <-] Hn.
  rewrite !app_nil_iff in Hn. destruct Hn as (Ht & _ & Hc & Hv).
  rewrite Enum_nil in Ht. rewrite RequiredValue_nil in Hc, Hv. by apply list_elem_of_singleton in Ht.
Qed.

Lemma validateTokenIssuerProfile_nil now path issuer : validateTokenIssuerProfile now path issuer = [] →
  HasPrefix (iss_URL issuer) "https://" = true ∧
  (∃ l, iss_Audiences issuer = Some l ∧ (1 <= length l <= 10)%nat ∧ Forall (λ a, a ≠ EmptyString) l) ∧
  validateCACertificatePEM now (Child path "ca") (iss_CA issuer) = [].
Proof.
  unfold validateTokenIssuerProfile. intros Hn. rewrite !app_nil_iff in Hn.
  destruct Hn as (Hu & Hm & Hs & _ & Hx & He & Hca). rewrite RequiredValue_nil in Hu. rewrite RequiredSlice_nil in Hs.
  rewrite MatchesRegex_nil in Hm by done. split; [by apply https_prefix|]. split; [|done].
  destruct (iss_Audiences issuer) as [l|]; [|done]. simpl in Hs, Hx, He. exists l. split; [done|].
  apply if_nil, Z.ltb_ge in Hx. split; [destruct l; simpl in *; [done|lia]|].
  apply (EachSliceVal_Forall _ _ _ _ (λ p a, proj1 (RequiredValue_nil p a)) He).
Qed.

Lemma created_auth_ok now new : ValidateExternalAuthCreate now new = Ok [] → authOk now (ar_Properties new).
Proof.
  unfold ValidateExternalAuthCreate, validateExternalAuth, validateExternalAuthProperties, validateExternalAuthClaimProfile,
    validateTokenClaimMappingsProfile, validateUsernameClaimProfile.
  set (p := ar_Properties new). intros Hv.
  destruct (DiscriminatedUnionOf (operationOf Create) _ _ _ _) as [union|] eqn:Eu; [|done].
  destruct (EachSliceValPanics _ _ _) as [rules|] eqn:Er; [|done]. simpl in Hv. injection Hv as Hv.
  rewrite !app_nil_iff in Hv.
  destruct Hv as (_ & _ & _ & (Hiss & Hmax & Hcl & Huniq & (_ & (_ & (Huc & Hul & Hup & Hun) & Hg) & Hrules) & Haud) & _).
  apply validateTokenIssuerProfile_nil in Hiss as (Hurl & (l & Hl & Hlen & Hne) & Hca).
  rewrite Hl in Haud. simpl in Haud.
  assert (Hclients : Forall (clientOk l) (ap_Clients p)).
  { apply Forall_forall. intros c Hc. destruct (EachSliceVal_nil _ _ _ _ Hcl c Hc) as [p1 Hp1].
    destruct (EachSliceVal_nil _ _ _ _ Haud c Hc) as [p2 Hp2]. apply (validateExternalAuthClientProfile_nil _ _ Hp1).
    unfold clientInAudiences in Hp2. destruct (existsb _ l) eqn:E; [|done]. apply existsb_exists in E as (x & Hx & Exy).
    apply String.eqb_eq in Exy as <-. by apply list_elem_of_In. }
  split.
  - done.
  - exists l. split; [exact Hl|]. split; [exact Hlen|]. split; [exact Hne|exact Hclients].
  - apply (proj1 (certificates_accepted _ _ _) Hca).
  - apply if_nil, Z.ltb_ge in Hmax. lia.
  - intros i j c d Hi Hj Heq. destruct (decide (i = j)) as [|Hij]; [done|].
    pose proof (ValSliceUnique_nil _ (operationOf Create) _ _ _ eq_refl Huniq i j c d Hi Hj Hij) as Hf. simpl in Hf.
    by rewrite bool_decide_eq_false in Hf.
  - rewrite RequiredValue_nil, len_pos in Huc. rewrite MaxLen_nil in Hul. rewrite Enum_nil in Hup. split_and!; try done.
    pose proof (DiscriminatedUnionOf_create _ _ _ _ Eu Hun) as Hiff. simpl in Hiff. by rewrite len_pos' in Hiff.
  - intros g Eg. rewrite Eg in Hg. simpl in Hg. rewrite app_nil_iff, RequiredValue_nil, MaxLen_nil, len_pos in Hg. done.
  - unfold EachSliceValPanics in Er. destruct (existsb _ _); [done|]. injection Er as <-.
    eapply EachSliceVal_Forall; [|exact Hrules]. intros q a Ha. cbv beta in Ha.
    exact (validateTokenClaimValidationRule_create q a _ eq_refl Ha).
Qed.

(** (C23) What an external auth that is accepted on creation looks like: an https issuer with
    its certificates, up to ten audiences and twenty clients of distinct components, each
    with an ID among the audiences, confidential exactly for the console; a prefix exactly
    when the policy asks for one; complete rules. *)
Theorem external_auth_created_ok now new : ValidateExternalAuthCreate now new = Ok [] → authOk now (ar_Properties new).
Proof. apply created_auth_ok. Qed.

(** An update panics exactly when the new external auth has a validation rule, whatever
    it changes; a creation never does. *)
Theorem external_auth_update_panics now new old :
  (ValidateExternalAuthUpdate now new old = Err NilDereference ↔ ap_ValidationRules (ar_Properties new) ≠ []) ∧
  (is_ok (ValidateExternalAuthCreate now new) = true).
Proof.
  split.
  - unfold ValidateExternalAuthUpdate, validateExternalAuth, validateExternalAuthProperties, validateExternalAuthClaimProfile,
      validateTokenClaimMappingsProfile, validateUsernameClaimProfile, DiscriminatedUnionOf, EachSliceValPanics. simpl.
    destruct (ap_ValidationRules (ar_Properties new)) as [|r rules]; [simpl|cbn [existsb]].
    + split; [done|]. by intros [].
    + split; [done|]. intros _. done.
  - unfold ValidateExternalAuthCreate, validateExternalAuth, validateExternalAuthProperties, validateExternalAuthClaimProfile,
      validateTokenClaimMappingsProfile, validateUsernameClaimProfile, DiscriminatedUnionOf, EachSliceValPanics. simpl.
    assert (Hnone : ∀ l : list ValidationRule, existsb (λ _, false) l = false) by (by induction l).
    by rewrite Hnone.
Qed.
End accepted_auths.

(** ** A sample, from the repository's tests *)

#[local] Existing Instances KubernetesReference.validators KubernetesReference.laws PemSamples.pem PemSamples.pemLaws.

Module AuthResources.

#[export] Instance sliceValidators : SliceValidators := {
  RequiredStruct path isZero := if isZero then [Required path Unspecified] else [];
  RequiredSlice A path l := match l with [] => [Required path Unspecified] | _ => [] end;
  ValSliceUnique A op path l same :=
    if forallb (λ i, forallb (λ j, (i =? j)%nat ||
         match l !! i, l !! j with Some a, Some b => negb (same a b) | _, _ => true end) (seq 0 (length l))) (seq 0 (length l))
    then [] else [Invalid path EmptyString Unspecified];
}.

#[export] Instance sliceLaws : SliceValidatorLaws.
Proof.
  split; simpl.
  - by intros path [].
  - intros A path l. by destruct l.
  - intros A op path l same _ Hu i j a b Hi Hj Hij. destruct (forallb _ _) eqn:E; [|done].
    rewrite forallb_forall in E. specialize (E i). rewrite in_seq in E. apply lookup_lt_Some in Hi as Hil.
    apply lookup_lt_Some in Hj as Hjl. specialize (E ltac:(lia)). rewrite forallb_forall in E. specialize (E j).
    rewrite in_seq, Hi, Hj in E. specialize (E ltac:(lia)). rewrite (proj2 (Nat.eqb_neq i j)) in E by done.
    simpl in E. by destruct (same a b).
Qed.

Definition authID : ResourceID := {|
  rid_String := "/subscriptions/test-sub/test-auth"; rid_SubscriptionID := "test-sub"; rid_ResourceGroupName := "test-rg";
  rid_ResourceType := externalAuthResourceType; rid_Name := "test-auth"; rid_Parent := None |}.

Definition valid : AuthResource := {|
  ar_Resource := {| res_ID := Some authID; res_Name := "test-auth"; res_Type := externalAuthResourceType;
    res_SystemData := Some {| sd_CreatedBy := "test-user"; sd_CreatedAt := Some 1735689600; sd_CreatedByType := "User" |} |};
  ar_Properties := {|
    ap_ProvisioningState := "Succeeded";
    ap_Issuer := {| iss_URL := "https://issuer.example.com"; iss_Audiences := Some ["audience1"; "audience2"]; iss_CA := "A" |};
    ap_Clients := [{| ac_Component := {| cc_Name := "test-component"; cc_AuthClientNamespace := "test-namespace" |};
                      ac_ClientID := "audience1"; ac_ExtraScopes := []; ac_Type := ExternalAuthClientTypePublic |}];
    ap_Username := {| uc_Claim := "sub"; uc_Prefix := EmptyString; uc_PrefixPolicy := UsernameClaimPrefixPolicyNone |};
    ap_Groups := Some {| gc_Claim := "groups"; gc_Prefix := EmptyString |};
    ap_ValidationRules := [{| vr_Type := TokenValidationRuleTypeRequiredClaim;
      vr_RequiredClaim := {| rc_Claim := "iss"; rc_RequiredValue := "https://issuer.example.com" |} |}] |};
  ar_ClusterServiceID := None |}.

Lemma valid_ok : authOk 50 (ar_Properties valid).
Proof. apply created_auth_ok. vm_compute. reflexivity. Qed.

Lemma external_auth_created_ok_witness : authOk 50 (ar_Properties valid).
Proof. apply external_auth_created_ok. vm_compute. reflexivity. Defined.

(** The unchanged external auth cannot be updated. *)
Lemma external_auth_update_panics_witness : ValidateExternalAuthUpdate 50 valid valid = Err NilDereference.
Proof. apply (proj1 (external_auth_update_panics 50 valid valid)). discriminate. Defined.
End AuthResources.
