(* ===== verification/ExternalAuthDispatch.v ===== *)
(** * Dispatching external auth updates to Cluster Service

    [internal/ocm/external_auth_update_dispatch_config.go], the conversions of
    [internal/ocm/convert.go] it uses, [BuildCSExternalAuth] for updates and
    [backend/pkg/controllers/externalauth/update/external_auth_cluster_service_update_dispatch_controller.go].
    Nil and empty lists are the same here, as they are in the JSON that is compared. *)
From S2P Require Import Prelude GoStrings RolloutTypes RolloutStatus StatusConditions OperationStore.
From S2P Require Import FieldValidation CACertificates ExternalAuthValidation Dispatch.

Local Open Scope string_scope.
Local Open Scope Z_scope.
Local Open Scope go_scope.

(** ** What Cluster Service has *)

(** What the getters of the SDK return; a text that is not set is empty. *)
Record CSIssuer := { csi_URL : string; csi_CA : string; csi_Audiences : option (list string) }.
Record CSClient := {
  csl_ID : string;
  csl_Type : string;
  csl_Component : option ClientComponent;
  csl_ExtraScopes : option (list string);
}.
Record CSUserName := { csu_Claim : string; csu_Prefix : string; csu_PrefixPolicy : string }.
(** Of the groups it matters which fields are set. *)
Record CSGroups := { csg_Claim : option string; csg_Prefix : option string }.
Record CSMappings := { csm_UserName : option CSUserName; csm_Groups : option CSGroups }.
Record CSClaim := { csc_Mappings : option CSMappings; csc_ValidationRules : option (list RequiredClaim) }.
Record CSExternalAuth := {
  cea_Issuer : option CSIssuer;
  cea_Clients : option (list CSClient);
  cea_Claim : option CSClaim;
}.

(** ** Conversions *)

Definition csUsernameClaimPrefixPolicyNoPrefix : string := "NoPrefix".
Definition csUsernameClaimPrefixPolicyPrefix : string := "Prefix".
Definition csExternalAuthClientTypeConfidential : string := "confidential".
Definition csExternalAuthClientTypePublic : string := "public".

Definition convertUsernameClaimPrefixPolicyRPToCS (policy : string) : option string :=
  if String.eqb policy UsernameClaimPrefixPolicyPrefix then Some csUsernameClaimPrefixPolicyPrefix
  else if String.eqb policy UsernameClaimPrefixPolicyNoPrefix then Some csUsernameClaimPrefixPolicyNoPrefix
  else if String.eqb policy UsernameClaimPrefixPolicyNone then Some EmptyString
  else None.

Definition convertUsernameClaimPrefixPolicyCSToRP (policy : string) : option string :=
  if String.eqb policy csUsernameClaimPrefixPolicyPrefix then Some UsernameClaimPrefixPolicyPrefix
  else if String.eqb policy csUsernameClaimPrefixPolicyNoPrefix then Some UsernameClaimPrefixPolicyNoPrefix
  else if String.eqb policy EmptyString then Some UsernameClaimPrefixPolicyNone
  else None.

Definition convertExternalAuthClientTypeRPToCS (type : string) : option string :=
  if String.eqb type ExternalAuthClientTypeConfidential then Some csExternalAuthClientTypeConfidential
  else if String.eqb type ExternalAuthClientTypePublic then Some csExternalAuthClientTypePublic
  else None.

Definition convertExternalAuthClientTypeCSToRP (type : string) : option string :=
  if String.eqb type csExternalAuthClientTypeConfidential then Some ExternalAuthClientTypeConfidential
  else if String.eqb type csExternalAuthClientTypePublic then Some ExternalAuthClientTypePublic
  else None.

Definition convertTokenClaimValidationRuleRPToCS (rule : ValidationRule) : option RequiredClaim :=
  if String.eqb (vr_Type rule) TokenValidationRuleTypeRequiredClaim then Some (vr_RequiredClaim rule) else None.

(** ** The configuration *)

Record externalAuthUpdateDispatchConfig := {
  eac_IssuerURL : string;
  eac_Audiences : list string;
  eac_CA : string;
  eac_Clients : list AuthClient;
  eac_Username : UsernameClaim;
  eac_Groups : option GroupClaim;
  eac_ValidationRules : list ValidationRule;
}.

#[export] Instance AuthClient_eq_dec : EqDecision AuthClient.
Proof. solve_decision. Defined.
#[export] Instance ValidationRule_eq_dec : EqDecision ValidationRule.
Proof. solve_decision. Defined.
#[export] Instance externalAuthUpdateDispatchConfig_eq_dec : EqDecision externalAuthUpdateDispatchConfig.
Proof. solve_decision. Defined.

Definition externalAuthUpdateDispatchConfigFromRP (p : AuthProperties) : externalAuthUpdateDispatchConfig := {|
  eac_IssuerURL := iss_URL (ap_Issuer p);
  eac_Audiences := default [] (iss_Audiences (ap_Issuer p));
  eac_CA := iss_CA (ap_Issuer p);
  eac_Clients := ap_Clients p;
  eac_Username := ap_Username p;
  eac_Groups := ap_Groups p;
  eac_ValidationRules := ap_ValidationRules p;
|}.

Definition clientFromCS (c : CSClient) : option AuthClient :=
  type ← convertExternalAuthClientTypeCSToRP (csl_Type c);
  Some {| ac_Component := default noComponent (csl_Component c); ac_ClientID := csl_ID c;
          ac_ExtraScopes := default [] (csl_ExtraScopes c); ac_Type := type |}.

Definition externalAuthUpdateDispatchConfigClientsFromCS (csExternalAuth : CSExternalAuth) : option (list AuthClient) :=
  mapM clientFromCS (default [] (cea_Clients csExternalAuth)).

Definition externalAuthUpdateDispatchConfigValidationRulesFromCS (rules : list RequiredClaim) : list ValidationRule :=
  (λ r, {| vr_Type := TokenValidationRuleTypeRequiredClaim; vr_RequiredClaim := r |}) <$> rules.

(** Groups of which no field is set count as none. *)
Definition groupsFromCS (groups : option CSGroups) : option GroupClaim :=
  match groups with
  | None | Some {| csg_Claim := None; csg_Prefix := None |} => None
  | Some g => Some {| gc_Claim := default EmptyString (csg_Claim g); gc_Prefix := default EmptyString (csg_Prefix g) |}
  end.

Definition usernameFromCS (userName : option CSUserName) : option UsernameClaim :=
  match userName with
  | None => Some noUsername
  | Some u =>
      policy ← convertUsernameClaimPrefixPolicyCSToRP (csu_PrefixPolicy u);
      Some {| uc_Claim := csu_Claim u; uc_Prefix := csu_Prefix u; uc_PrefixPolicy := policy |}
  end.

(** [None] is a type or a policy that is not known. *)
Definition externalAuthUpdateDispatchConfigFromCS (csExternalAuth : CSExternalAuth) : option externalAuthUpdateDispatchConfig :=
  clients ← externalAuthUpdateDispatchConfigClientsFromCS csExternalAuth;
  let mappings := cea_Claim csExternalAuth ≫= csc_Mappings in
  username ← usernameFromCS (mappings ≫= csm_UserName);
  let issuer := cea_Issuer csExternalAuth in
  Some {|
    eac_IssuerURL := default EmptyString (csi_URL <$> issuer);
    eac_Audiences := default [] (issuer ≫= csi_Audiences);
    eac_CA := default EmptyString (csi_CA <$> issuer);
    eac_Clients := clients;
    eac_Username := username;
    eac_Groups := groupsFromCS (mappings ≫= csm_Groups);
    eac_ValidationRules :=
      externalAuthUpdateDispatchConfigValidationRulesFromCS (default [] (cea_Claim csExternalAuth ≫= csc_ValidationRules));
  |}.

(** ** An update *)

(** All of it is always set, but for the groups. *)
Record ExternalAuthPatch := {
  eap_Issuer : string * string * list string;
  eap_Clients : list (string * ClientComponent * list string * string);
  eap_UserName : CSUserName;
  eap_Groups : option CSGroups;
  eap_ValidationRules : list RequiredClaim;
}.

Definition clientToCS (client : AuthClient) : option (string * ClientComponent * list string * string) :=
  (λ type, (ac_ClientID client, ac_Component client, ac_ExtraScopes client, type))
    <$> convertExternalAuthClientTypeRPToCS (ac_Type client).

(** Both fields are set. *)
Definition groupsToCS (groups : GroupClaim) : CSGroups :=
  {| csg_Claim := Some (gc_Claim groups); csg_Prefix := Some (gc_Prefix groups) |}.

Definition externalAuth_applyToCSBuilder (c : externalAuthUpdateDispatchConfig) : option ExternalAuthPatch :=
  clients ← mapM clientToCS (eac_Clients c);
  policy ← convertUsernameClaimPrefixPolicyRPToCS (uc_PrefixPolicy (eac_Username c));
  rules ← mapM convertTokenClaimValidationRuleRPToCS (eac_ValidationRules c);
  Some {|
    eap_Issuer := (eac_IssuerURL c, eac_CA c, eac_Audiences c);
    eap_Clients := clients;
    eap_UserName := {| csu_Claim := uc_Claim (eac_Username c); csu_Prefix := uc_Prefix (eac_Username c); csu_PrefixPolicy := policy |};
    eap_Groups := groupsToCS <$> eac_Groups c;
    eap_ValidationRules := rules;
  |}.

(** ** The controller *)

(** What the controllers use of an external auth besides what [OperationStore.v] has. *)
Record AuthSpec := {
  as_Name : string;
  as_Properties : AuthProperties;
  as_ClusterServiceID : option string;
}.
Definition AuthDoc : Type := ResourceDoc AuthSpec.

Definition externalAuth_needsWork (externalAuth : AuthDoc) : bool :=
  dispatchNeedsWork (res_DeletionTimestamp externalAuth) (as_ClusterServiceID (res_rest externalAuth)).

Definition authParentNotUpdatable : list string :=
  ["ExternalAuths can only be updated on clusters in an updatable state"; "cluster requested is in"; "state."].
Definition noReadyNodePool : list string :=
  ["console clients cannot be configured without a ready node pool";
   "Please ensure at least one node pool is in 'ready' state before configuring console authentication"].

Definition externalAuthDispatch_pass (cached stored : result getError AuthDoc) (csExternalAuth : result string CSExternalAuth)
    (marshal : ExternalAuthPatch → option string) (update : ExternalAuthPatch → option updateError) :
    option ExternalAuthPatch * option dispatchError :=
  passOf (
    let* externalAuth := readForWork externalAuth_needsWork cached stored in
    let* csExternalAuth := failing (match csExternalAuth with Err e => Err (GetClusterServiceFailed e) | Ok c => Ok c end) in
    let desired := externalAuthUpdateDispatchConfigFromRP (as_Properties (res_rest externalAuth)) in
    let* actual := failing (match externalAuthUpdateDispatchConfigFromCS csExternalAuth with
                            | None => Err (ConfigFailed "unknown value") | Some c => Ok c end) in
    Ok (compareAndSend desired actual
          (match externalAuth_applyToCSBuilder desired with None => Err (BuildFailed "unknown value") | Some p => Ok p end)
          marshal update (λ e, rejectedFor authParentNotUpdatable e || rejectedFor noReadyNodePool e))).

Definition externalAuthDispatch_SyncOnce {C} `{LRU C} (now : Z) (key : string) (cached stored : result getError AuthDoc)
    (csExternalAuth : result string CSExternalAuth) (marshal : ExternalAuthPatch → option string)
    (update : ExternalAuthPatch → option updateError) (checker : TimeBasedCooldownChecker C) :
    TimeBasedCooldownChecker C * (option ExternalAuthPatch * option dispatchError) :=
  let '(can, checker) := CanSync now key checker in
  (checker, if negb can then (None, None) else externalAuthDispatch_pass cached stored csExternalAuth marshal update).

(** ** Cluster Service's side of an update *)

(** What an update sets is read back; nothing is said of an update without groups of an
    external auth that has some. *)
Class ExternalAuthMerge := MergeExternalAuth : ExternalAuthPatch → CSExternalAuth → CSExternalAuth.

Definition currentGroups (c : CSExternalAuth) : option CSGroups := (cea_Claim c ≫= csc_Mappings) ≫= csm_Groups.

Class ExternalAuthMergeLaws `{ExternalAuthMerge} := {
  merge_issuer : ∀ p c, ∃ i, cea_Issuer (MergeExternalAuth p c) = Some i ∧
    (csi_URL i, csi_CA i, default [] (csi_Audiences i)) = eap_Issuer p;
  merge_clients : ∀ p c, (λ l, (csl_ID l, default noComponent (csl_Component l), default [] (csl_ExtraScopes l), csl_Type l))
    <$> default [] (cea_Clients (MergeExternalAuth p c)) = eap_Clients p;
  merge_username : ∀ p c, (cea_Claim (MergeExternalAuth p c) ≫= csc_Mappings) ≫= csm_UserName = Some (eap_UserName p);
  merge_groups : ∀ p c, is_Some (eap_Groups p) ∨ groupsFromCS (currentGroups c) = None →
    groupsFromCS (currentGroups (MergeExternalAuth p c)) = groupsFromCS (eap_Groups p);
  merge_rules : ∀ p c, default [] (cea_Claim (MergeExternalAuth p c) ≫= csc_ValidationRules) = eap_ValidationRules p;
}.

(** ** What an accepted update is read back as *)

Lemma clientType_roundtrip type : type ∈ ValidExternalAuthClientTypes →
  ∃ cs, convertExternalAuthClientTypeRPToCS type = Some cs ∧ convertExternalAuthClientTypeCSToRP cs = Some type.
Proof. unfold ValidExternalAuthClientTypes. rewrite !elem_of_cons. intros [->|[->|?%not_elem_of_nil]]; [..|done]; by eexists. Qed.

Lemma prefixPolicy_roundtrip policy : policy ∈ ValidUsernameClaimPrefixPolicies →
  ∃ cs, convertUsernameClaimPrefixPolicyRPToCS policy = Some cs ∧ convertUsernameClaimPrefixPolicyCSToRP cs = Some policy.
Proof.
  unfold ValidUsernameClaimPrefixPolicies. rewrite !elem_of_cons.
  intros [->|[->|[->|?%not_elem_of_nil]]]; [..|done]; by eexists.
Qed.

Lemma clients_roundtrip (clients : list AuthClient) : Forall (λ c, ac_Type c ∈ ValidExternalAuthClientTypes) clients →
  ∃ sent, mapM clientToCS clients = Some sent ∧
    ∀ back : list CSClient, (λ l, (csl_ID l, default noComponent (csl_Component l), default [] (csl_ExtraScopes l), csl_Type l)) <$> back = sent →
      mapM clientFromCS back = Some clients.
Proof.
  induction 1 as [|c clients Hc Hall (sent & Hs & Hback)]; [exists []; split; [done|]; by intros [|]|].
  destruct (clientType_roundtrip _ Hc) as (t & Ht & Ht'). simpl.
  assert (clientToCS c = Some (ac_ClientID c, ac_Component c, ac_ExtraScopes c, t)) as -> by (unfold clientToCS; by rewrite Ht).
  simpl. rewrite Hs. simpl.
  eexists. split; [done|]. intros [|b back]; simpl; [done|]. intros [= Hid Hcomp Hsc Hty Hrest].
  assert (clientFromCS b = Some c) as -> by (unfold clientFromCS; rewrite Hty, Ht'; simpl; rewrite Hid, Hcomp, Hsc; by destruct c).
  simpl. by rewrite (Hback back Hrest).
Qed.

Lemma rules_roundtrip (rules : list ValidationRule) : Forall (λ r, vr_Type r = TokenValidationRuleTypeRequiredClaim) rules →
  ∃ sent, mapM convertTokenClaimValidationRuleRPToCS rules = Some sent ∧
    externalAuthUpdateDispatchConfigValidationRulesFromCS sent = rules.
Proof.
  induction 1 as [|r rules Hr Hall (sent & Hs & Hback)]; [by exists []|].
  simpl. assert (convertTokenClaimValidationRuleRPToCS r = Some (vr_RequiredClaim r)) as ->
    by (unfold convertTokenClaimValidationRuleRPToCS; by rewrite Hr).
  simpl. rewrite Hs. simpl.
  eexists. split; [done|]. simpl. f_equal; [destruct r; simpl in *; by subst|exact Hback].
Qed.

(** The groups are not removed. *)
Definition groupsSettle (p : AuthProperties) (c : CSExternalAuth) : Prop :=
  is_Some (ap_Groups p) ∨ groupsFromCS (currentGroups c) = None.

Section settling.
Context `{PEM} `{ExternalAuthMergeLaws}.

(** A valid external auth can always be sent. *)
Lemma valid_auth_sent now p : authOk now p →
  ∃ patch, externalAuth_applyToCSBuilder (externalAuthUpdateDispatchConfigFromRP p) = Some patch ∧
    ∀ old, groupsSettle p old →
      externalAuthUpdateDispatchConfigFromCS (MergeExternalAuth patch old) = Some (externalAuthUpdateDispatchConfigFromRP p).
Proof.
  intros Hok. destruct (ao_audiences _ _ Hok) as (l & Hl & _ & _ & Hclients).
  destruct (clients_roundtrip (ap_Clients p)) as (clients & Hc & Hcback).
  { eapply Forall_impl; [exact Hclients|]. intros c Hc. apply (co_type _ _ Hc). }
  destruct (ao_username _ _ Hok) as (_ & Hpolicy & _). destruct (prefixPolicy_roundtrip _ Hpolicy) as (policy & Hp & Hpback).
  destruct (rules_roundtrip (ap_ValidationRules p)) as (rules & Hr & Hrback).
  { eapply Forall_impl; [exact (ao_rules _ _ Hok)|]. by intros r [? _]. }
  unfold externalAuth_applyToCSBuilder. cbn [eac_Clients eac_Username eac_ValidationRules externalAuthUpdateDispatchConfigFromRP].
  rewrite Hc. cbn [mbind option_bind]. rewrite Hp. cbn [mbind option_bind]. rewrite Hr. cbn [mbind option_bind].
  eexists. split; [reflexivity|]. intros old Hgroups.
  set (patch := {| eap_Issuer := _; eap_Clients := _; eap_UserName := _; eap_Groups := _; eap_ValidationRules := _ |}).
  unfold externalAuthUpdateDispatchConfigFromCS, externalAuthUpdateDispatchConfigClientsFromCS.
  rewrite (Hcback _ (merge_clients patch old)). cbn [mbind option_bind].
  assert (Hu : (cea_Claim (MergeExternalAuth patch old) ≫= csc_Mappings) ≫= csm_UserName = Some (eap_UserName patch))
    by (rewrite <- (merge_username patch old); by destruct (cea_Claim _)).
  cbn [mbind option_bind] in Hu. rewrite Hu. unfold usernameFromCS. cbn [csu_PrefixPolicy eap_UserName patch csu_Claim csu_Prefix].
  rewrite Hpback. cbn [mbind option_bind].
  destruct (merge_issuer patch old) as (i & Hi & Hieq). rewrite Hi. cbn [mbind option_bind fmap option_fmap option_map default].
  injection Hieq as Hurl Hca Haud.
  assert (Hg : groupsFromCS (currentGroups (MergeExternalAuth patch old)) = ap_Groups p).
  { rewrite merge_groups by (destruct Hgroups as [[g Hg]|]; [left; simpl; rewrite Hg; by eexists|by right]).
    simpl. by destruct (ap_Groups p) as [[claim prefix]|]. }
  f_equal. unfold externalAuthUpdateDispatchConfigFromRP. f_equal; try done.
  - by destruct (ap_Username p).
  - etrans; [|exact Hrback]. f_equal. exact (merge_rules patch old).
Qed.

(** (C20) An external auth that passed the validation and does not drop its groups settles: once
    Cluster Service has accepted the update, the next pass finds nothing to send. *)
Theorem valid_external_auth_settles now cached (stored : AuthDoc) old marshal update patch :
  authOk now (as_Properties (res_rest stored)) → groupsSettle (as_Properties (res_rest stored)) old →
  externalAuthDispatch_pass cached (Ok stored) (Ok old) marshal update = (Some patch, None) →
  externalAuthDispatch_pass cached (Ok stored) (Ok (MergeExternalAuth patch old)) marshal update = (None, None).
Proof.
  intros Hok Hg. destruct (valid_auth_sent _ _ Hok) as (patch' & Hpatch & Hback).
  unfold externalAuthDispatch_pass, readForWork. destruct cached as [c|[]]; simpl; [|done..].
  destruct (externalAuth_needsWork c); simpl; [|done]. destruct (externalAuth_needsWork stored); simpl; [|done].
  rewrite Hpatch. destruct (externalAuthUpdateDispatchConfigFromCS old) as [actual|]; simpl; [|done].
  unfold compareAndSend at 1. case_decide; [done|]. destruct (marshal patch'); [done|]. intros [= <- _].
  rewrite (Hback old Hg). simpl. unfold compareAndSend. by rewrite decide_True.
Qed.
End settling.

(** ** An update of the sample *)

Module AuthDispatchExample.

#[local] Existing Instances PemSamples.pem PemSamples.pemLaws.

#[export] Instance authMerge : ExternalAuthMerge := λ p c, {|
  cea_Issuer := let '(url, ca, audiences) := eap_Issuer p in
    Some {| csi_URL := url; csi_CA := ca; csi_Audiences := Some audiences |};
  cea_Clients := Some ((λ x : string * ClientComponent * list string * string, let '(id, component, scopes, type) := x in
    {| csl_ID := id; csl_Type := type; csl_Component := Some component; csl_ExtraScopes := Some scopes |}) <$> eap_Clients p);
  cea_Claim := Some {|
    csc_Mappings := Some {| csm_UserName := Some (eap_UserName p);
      csm_Groups := match eap_Groups p with Some g => Some g | None => currentGroups c end |};
    csc_ValidationRules := Some (eap_ValidationRules p) |};
|}.

#[export] Instance authMergeLaws : ExternalAuthMergeLaws.
Proof.
  split; simpl.
  - intros p c. destruct (eap_Issuer p) as [[url ca] audiences]. by eexists.
  - intros p c. induction (eap_Clients p) as [|[[[id component] scopes] type] l IH]; simpl; [done|by f_equal].
  - done.
  - intros p c Hg. unfold currentGroups at 1. simpl. destruct (eap_Groups p); [done|]. by destruct Hg as [[? ?]|Hg].
  - done.
Qed.

Definition wanted : AuthDoc := {|
  OperationStore.res_ID := {| rid_String := "/c/auth"; rid_SubscriptionID := "sub"; rid_ResourceGroupName := "rg"; rid_Name := "auth";
    rid_ResourceType := externalAuthResourceType; rid_Parent := None |};
  res_Etag := 1; res_ProvisioningState := "Updating"; res_ActiveOperationID := "u1"; res_DeletionTimestamp := None;
  res_DeleteOperationCompletionTimeout := None; res_DeleteOperationCompletionDeadline := None;
  res_rest := {| as_Name := "Auth"; as_Properties := ar_Properties AuthResources.valid; as_ClusterServiceID := Some "/api/ea" |} |}.
Definition empty : CSExternalAuth := {| cea_Issuer := None; cea_Clients := None; cea_Claim := None |}.
Definition pass (c : CSExternalAuth) : option ExternalAuthPatch * option dispatchError :=
  externalAuthDispatch_pass (Ok wanted) (Ok wanted) (Ok c) (λ _, None) (λ _, None).
Definition sent : option ExternalAuthPatch :=
  externalAuth_applyToCSBuilder (externalAuthUpdateDispatchConfigFromRP (ar_Properties AuthResources.valid)).

Lemma valid_external_auth_settles_witness :
  ∃ patch, pass empty = (Some patch, None) ∧ pass (MergeExternalAuth patch empty) = (None, None).
Proof.
  destruct sent as [patch|] eqn:E; [|vm_compute in E; discriminate E]. vm_compute in E. injection E as E.
  assert (Hsent : pass empty = (Some patch, None)) by (rewrite <- E; vm_compute; reflexivity).
  exists patch. split; [exact Hsent|].
  apply (valid_external_auth_settles 50 (Ok wanted) wanted empty (λ _, None) (λ _, None) patch).
  - exact AuthResources.valid_ok.
  - left. eexists. reflexivity.
  - exact Hsent.
Defined.
End AuthDispatchExample.
