(* ===== verification/ExternalAuthUpdates.v ===== *)
(** * Updates of external auths

    [backend/pkg/controllers/externalauth/operations/operation_external_auth_update.go] and
    [operation_external_auth_update_state_calculation.go]: the controller that follows the
    update of an external auth to its end.  Cluster Service must have the configuration the
    dispatch controller sends ([ExternalAuthDispatch.v]), and the mirrored [HostedCluster]
    the provider it stands for. *)
From S2P Require Import Prelude GoStrings RolloutTypes RolloutStatus StatusConditions.
From S2P Require Import OperationState OperationStore OperationUpdate OperationRequests ServiceStatus OperationControllers OperationSafety.
From S2P Require Import NodePoolOperations NodePoolUpdates FieldValidation CACertificates ExternalAuthValidation Dispatch ExternalAuthDispatch.

Local Open Scope string_scope.
Local Open Scope Z_scope.
Local Open Scope go_scope.

(** ** The providers of a hosted cluster *)

Record OIDCClientConfig := {
  occ_ClientID : string;
  occ_ComponentName : string;
  occ_ComponentNamespace : string;
  occ_ExtraScopes : list string;
}.

(** A rule has a type, and a claim when it is of the type that has one. *)
Record ObservedRule := { or_Type : string; or_RequiredClaim : option RequiredClaim }.

Record OIDCProvider := {
  prov_Name : string;
  prov_IssuerURL : string;
  prov_Audiences : list string;
  prov_Clients : list OIDCClientConfig;
  prov_UsernameClaim : string;
  prov_UsernamePrefixPolicy : string;
  prov_UsernamePrefix : option string;
  prov_Groups : GroupClaim;
  prov_ValidationRules : list ObservedRule;
}.

(** [Spec.Configuration], its [Authentication] and the [OIDCProviders]. *)
Record HostedClusterAuth := { hca_Configuration : option (option (list OIDCProvider)) }.

(** Names of the configuration API of OpenShift. *)
Class OpenshiftNames := {
  configv1_Prefix : string;
  configv1_NoPrefix : string;
  configv1_NoOpinion : string;
  configv1_RequiredClaim : string;
}.

Definition printStrings (l : list string) : string := "[" +:+ Join " " l +:+ "]".

(** A check of two texts. *)
Definition textMismatch (what observed desired : string) : option string :=
  if String.eqb desired observed then None
  else Some (what +:+ " is " +:+ Quote observed +:+ ", want " +:+ Quote desired).

Definition listMismatch (what : string) (observed desired : list string) : option string :=
  if bool_decide (desired = observed) then None
  else Some (what +:+ " is " +:+ printStrings observed +:+ ", want " +:+ printStrings desired).

(** The check of two lists of one length, element by element. *)
Definition pairMismatch {A B} (check : nat → A → B → option string) (desired : list A) (observed : list B) : option string :=
  firstMismatch (imap (λ i ab, check i ab.1 ab.2) (zip desired observed)).

Section spec.
Context `{OpenshiftNames}.

Definition hypershiftHostedClusterExternalAuthIssuerSpecMatchesDesired (desired : TokenIssuerProfile) (observed : OIDCProvider) : option string :=
  firstMismatch [
    textMismatch "hypershift HostedCluster OIDCProvider issuer URL" (prov_IssuerURL observed) (iss_URL desired);
    listMismatch "hypershift HostedCluster OIDCProvider issuer audiences" (prov_Audiences observed) (default [] (iss_Audiences desired))].

Definition clientMismatch (i : nat) (desired : AuthClient) (observed : OIDCClientConfig) : option string :=
  let client := "hypershift HostedCluster OIDCProvider client " +:+ Quote (ac_ClientID desired) in
  firstMismatch [
    textMismatch ("hypershift HostedCluster OIDCProvider client[" +:+ Itoa (Z.of_nat i) +:+ "] clientID") (occ_ClientID observed) (ac_ClientID desired);
    textMismatch (client +:+ " componentName") (occ_ComponentName observed) (cc_Name (ac_Component desired));
    textMismatch (client +:+ " componentNamespace") (occ_ComponentNamespace observed) (cc_AuthClientNamespace (ac_Component desired));
    listMismatch (client +:+ " extraScopes") (occ_ExtraScopes observed) (ac_ExtraScopes desired)].

Definition hypershiftHostedClusterExternalAuthClientsSpecMatchesDesired (desired : list AuthClient) (observed : list OIDCClientConfig) : option string :=
  if (length desired =? length observed)%nat then pairMismatch clientMismatch desired observed
  else Some ("hypershift HostedCluster OIDCProvider has " +:+ Itoa (Z.of_nat (length observed)) +:+ " clients, want " +:+ Itoa (Z.of_nat (length desired))).

Definition ruleMismatch (i : nat) (desired : ValidationRule) (observed : ObservedRule) : option string :=
  let rule := "hypershift HostedCluster OIDCProvider validation rule[" +:+ Itoa (Z.of_nat i) +:+ "]" in
  if String.eqb (vr_Type desired) TokenValidationRuleTypeRequiredClaim then
    if negb (String.eqb (or_Type observed) configv1_RequiredClaim) then
      Some (rule +:+ " type is " +:+ Quote (or_Type observed) +:+ ", want " +:+ Quote configv1_RequiredClaim)
    else match or_RequiredClaim observed with
    | None => Some (rule +:+ " has nil requiredClaim but expects a requiredClaim")
    | Some claim =>
        firstMismatch [
          textMismatch (rule +:+ " claim") (rc_Claim claim) (rc_Claim (vr_RequiredClaim desired));
          textMismatch (rule +:+ " requiredValue") (rc_RequiredValue claim) (rc_RequiredValue (vr_RequiredClaim desired))]
    end
  else Some (rule +:+ " has unsupported desired type " +:+ Quote (vr_Type desired)).

Definition hypershiftHostedClusterExternalAuthValidationRulesSpecMatchesDesired (desired : list ValidationRule) (observed : list ObservedRule) : option string :=
  if (length desired =? length observed)%nat then pairMismatch ruleMismatch desired observed
  else Some ("hypershift HostedCluster OIDCProvider has " +:+ Itoa (Z.of_nat (length observed)) +:+ " validation rules, want " +:+ Itoa (Z.of_nat (length desired))).

Definition expectedPrefixPolicy (policy : string) : string :=
  if String.eqb policy UsernameClaimPrefixPolicyPrefix then configv1_Prefix
  else if String.eqb policy UsernameClaimPrefixPolicyNoPrefix then configv1_NoPrefix
  else if String.eqb policy UsernameClaimPrefixPolicyNone then configv1_NoOpinion
  else EmptyString.

(** The prefix counts only with the policy that uses one. *)
Definition expectedUsernamePrefix (username : UsernameClaim) : string :=
  if String.eqb (uc_PrefixPolicy username) UsernameClaimPrefixPolicyPrefix then uc_Prefix username else EmptyString.

Definition groupsMismatch (desired : option GroupClaim) (observed : GroupClaim) : option string :=
  match desired with
  | Some g => firstMismatch [
      textMismatch "hypershift HostedCluster OIDCProvider groups claim" (gc_Claim observed) (gc_Claim g);
      textMismatch "hypershift HostedCluster OIDCProvider groups prefix" (gc_Prefix observed) (gc_Prefix g)]
  | None =>
      if negb (String.eqb (gc_Claim observed) EmptyString) || negb (String.eqb (gc_Prefix observed) EmptyString) then
        Some ("hypershift HostedCluster OIDCProvider has groups claim " +:+ Quote (gc_Claim observed) +:+ " prefix "
              +:+ Quote (gc_Prefix observed) +:+ ", want no groups")
      else None
  end.

Definition hypershiftHostedClusterExternalAuthClaimMappingsSpecMatchesDesired (desired : AuthProperties) (observed : OIDCProvider) : option string :=
  firstMismatch [
    textMismatch "hypershift HostedCluster OIDCProvider username claim" (prov_UsernameClaim observed) (uc_Claim (ap_Username desired));
    textMismatch "hypershift HostedCluster OIDCProvider username prefixPolicy" (prov_UsernamePrefixPolicy observed)
      (expectedPrefixPolicy (uc_PrefixPolicy (ap_Username desired)));
    textMismatch "hypershift HostedCluster OIDCProvider username prefix" (default EmptyString (prov_UsernamePrefix observed))
      (expectedUsernamePrefix (ap_Username desired));
    groupsMismatch (ap_Groups desired) (prov_Groups observed);
    hypershiftHostedClusterExternalAuthValidationRulesSpecMatchesDesired (ap_ValidationRules desired) (prov_ValidationRules observed)].

Definition hypershiftHostedClusterExternalAuthSpecMatchesDesired (externalAuth : AuthSpec) (hostedCluster : HostedClusterAuth) : option string :=
  match mjoin (hca_Configuration hostedCluster) with
  | None | Some [] => Some "Hypershift HostedCluster has no OIDCProviders configured"
  | Some providers =>
      let expectedName := ToLower (as_Name externalAuth) in
      match List.find (λ p, EqualFold (prov_Name p) expectedName) providers with
      | None => Some ("Hypershift HostedCluster OIDCProvider " +:+ Quote expectedName +:+ " not found")
      | Some observedProvider =>
          let desired := as_Properties externalAuth in
          firstMismatch [
            hypershiftHostedClusterExternalAuthIssuerSpecMatchesDesired (ap_Issuer desired) observedProvider;
            hypershiftHostedClusterExternalAuthClientsSpecMatchesDesired (ap_Clients desired) (prov_Clients observedProvider);
            hypershiftHostedClusterExternalAuthClaimMappingsSpecMatchesDesired desired observedProvider]
      end
  end.

(** [hostedCluster] is what is decoded of the cached mirror, if it is there. *)
Definition hypershiftHostedClusterExternalAuthOperationState (hostedCluster : result string (option HostedClusterAuth))
    (externalAuth : AuthSpec) : result stateError OperationState :=
  match hostedCluster with
  | Err e => Err (CheckFailed e)
  | Ok None => Ok (NewOperationState ProvisioningStateUpdating "Hypershift HostedCluster has not been observed yet")
  | Ok (Some hostedCluster) => Ok (updatingUnless (hypershiftHostedClusterExternalAuthSpecMatchesDesired externalAuth hostedCluster))
  end.

(** The texts compared are canonical, so that the configurations are; [json] is their
    text, in the message alone. *)
Definition clusterServiceExternalAuthSpecMatchesDesired (json : externalAuthUpdateDispatchConfig → string) (externalAuth : AuthSpec)
    (csExternalAuth : CSExternalAuth) : result stateError (option string) :=
  let desired := externalAuthUpdateDispatchConfigFromRP (as_Properties externalAuth) in
  match externalAuthUpdateDispatchConfigFromCS csExternalAuth with
  | None => Err (CheckFailed "unknown value")
  | Some observed =>
      Ok (if decide (desired = observed) then None
          else Some ("Cluster Service external auth spec does not match desired: desired=" +:+ json desired +:+ ", actual=" +:+ json observed))
  end.

Definition clusterServiceExternalAuthSpecOperationState (json : externalAuthUpdateDispatchConfig → string) (externalAuth : AuthSpec)
    (csExternalAuth : CSExternalAuth) : result stateError OperationState :=
  match clusterServiceExternalAuthSpecMatchesDesired json externalAuth csExternalAuth with
  | Err e => Err e
  | Ok mismatch => Ok (updatingUnless mismatch)
  end.

(** ** The controller *)

Definition externalAuthUpdate_shouldReconcile (ea : AuthDoc) : bool :=
  negb (bool_decide (is_Some (res_DeletionTimestamp ea))) && bool_decide (is_Some (as_ClusterServiceID (res_rest ea))).

Definition externalAuthUpdateChecks (json : externalAuthUpdateDispatchConfig → string) (csExternalAuth : CSExternalAuth)
    (hostedCluster : result string (option HostedClusterAuth)) (ea : AuthDoc) : list (string * result stateError OperationState) :=
  [("clusterServiceExternalAuthSpec", clusterServiceExternalAuthSpecOperationState json (res_rest ea) csExternalAuth);
   ("hypershiftHostedClusterExternalAuth", hypershiftHostedClusterExternalAuthOperationState hostedCluster (res_rest ea))].

Definition externalAuthUpdate_determineOperationState (json : externalAuthUpdateDispatchConfig → string) (csExternalAuth : result string CSExternalAuth)
    (hostedCluster : result string (option HostedClusterAuth)) (ea : AuthDoc) : result (list stateError) OperationState :=
  match csExternalAuth with
  | Err e => Err [CheckFailed e]
  | Ok csExternalAuth => pickState (externalAuthUpdateChecks json csExternalAuth hostedCluster ea)
  end.

Definition externalAuthUpdate_SynchronizeOperation {S} `{OperationDB S AuthSpec} (json : externalAuthUpdateDispatchConfig → string)
    (now : Z) (operation : result getError OperationDoc) (ea : result getError AuthDoc) (csExternalAuth : result string CSExternalAuth)
    (hostedCluster : result string (option HostedClusterAuth)) (post : option (OperationDoc → bool)) (s : S) :
    S * list OperationDoc * option syncOpError :=
  followOperation OperationRequestUpdate ExternalAuthResourceType externalAuthUpdate_shouldReconcile
    (λ _ ea, externalAuthUpdate_determineOperationState json csExternalAuth hostedCluster ea)
    (λ _, completionOutcome false now None EmptyString) now operation ea post s.

(** ** What the checks compare *)

Lemma textMismatch_None what observed desired : textMismatch what observed desired = None ↔ observed = desired.
Proof. unfold textMismatch. destruct (String.eqb_spec desired observed); naive_solver. Qed.

Lemma listMismatch_None what observed desired : listMismatch what observed desired = None ↔ observed = desired.
Proof. unfold listMismatch. case_bool_decide; naive_solver. Qed.

Lemma pairMismatch_None {A B} (check : nat → A → B → option string) (P : A → B → Prop) message desired observed :
  (∀ i a b, check i a b = None ↔ P a b) →
  (if (length desired =? length observed)%nat then pairMismatch check desired observed else Some message) = None
    ↔ Forall2 P desired observed.
Proof.
  unfold pairMismatch. intros Hc. revert observed check Hc.
  induction desired as [|a desired IH]; intros [|b observed] check Hc; simpl.
  - split; [constructor|done].
  - split; [done|by inversion 1].
  - split; [done|by inversion 1].
  - specialize (IH observed (λ i, check (S i)) (λ i, Hc (S i))). rewrite Forall2_cons, <- IH, <- (Hc 0%nat).
    destruct (length desired =? length observed)%nat; [|naive_solver].
    rewrite !firstMismatch_None, Forall_cons. done.
Qed.

(** A client shows in its four fields; its type is not mirrored. *)
Definition clientShown (desired : AuthClient) (observed : OIDCClientConfig) : Prop :=
  occ_ClientID observed = ac_ClientID desired ∧ occ_ComponentName observed = cc_Name (ac_Component desired) ∧
  occ_ComponentNamespace observed = cc_AuthClientNamespace (ac_Component desired) ∧ occ_ExtraScopes observed = ac_ExtraScopes desired.

Definition ruleShown (desired : ValidationRule) (observed : ObservedRule) : Prop :=
  vr_Type desired = TokenValidationRuleTypeRequiredClaim ∧ or_Type observed = configv1_RequiredClaim ∧
  or_RequiredClaim observed = Some (vr_RequiredClaim desired).

Record providerShows (desired : AuthProperties) (observed : OIDCProvider) : Prop := {
  shows_url : prov_IssuerURL observed = iss_URL (ap_Issuer desired);
  shows_audiences : prov_Audiences observed = default [] (iss_Audiences (ap_Issuer desired));
  shows_clients : Forall2 clientShown (ap_Clients desired) (prov_Clients observed);
  shows_username : prov_UsernameClaim observed = uc_Claim (ap_Username desired);
  shows_policy : prov_UsernamePrefixPolicy observed = expectedPrefixPolicy (uc_PrefixPolicy (ap_Username desired));
  shows_prefix : default EmptyString (prov_UsernamePrefix observed) = expectedUsernamePrefix (ap_Username desired);
  shows_groups : prov_Groups observed = default {| gc_Claim := EmptyString; gc_Prefix := EmptyString |} (ap_Groups desired);
  shows_rules : Forall2 ruleShown (ap_ValidationRules desired) (prov_ValidationRules observed);
}.

Lemma clientMismatch_None i desired observed : clientMismatch i desired observed = None ↔ clientShown desired observed.
Proof.
  unfold clientMismatch, clientShown. cbv zeta.
  rewrite firstMismatch_None, !Forall_cons, Forall_nil, !textMismatch_None, listMismatch_None. tauto.
Qed.

Lemma ruleMismatch_None i desired observed : ruleMismatch i desired observed = None ↔ ruleShown desired observed.
Proof.
  unfold ruleMismatch, ruleShown. destruct (String.eqb_spec (vr_Type desired) TokenValidationRuleTypeRequiredClaim); [|naive_solver].
  destruct (String.eqb_spec (or_Type observed) configv1_RequiredClaim); simpl; [|naive_solver].
  destruct (or_RequiredClaim observed) as [[claim value]|]; [|naive_solver].
  rewrite firstMismatch_None, !Forall_cons, Forall_nil, !textMismatch_None. destruct (vr_RequiredClaim desired). simpl. naive_solver.
Qed.

Lemma groupsMismatch_None desired observed :
  groupsMismatch desired observed = None ↔ observed = default {| gc_Claim := EmptyString; gc_Prefix := EmptyString |} desired.
Proof.
  unfold groupsMismatch. destruct observed as [claim prefix], desired as [[claim' prefix']|]; simpl.
  - rewrite firstMismatch_None, !Forall_cons, Forall_nil, !textMismatch_None. naive_solver.
  - destruct (String.eqb_spec claim EmptyString), (String.eqb_spec prefix EmptyString); naive_solver.
Qed.

Lemma provider_checks desired observed :
  hypershiftHostedClusterExternalAuthIssuerSpecMatchesDesired (ap_Issuer desired) observed = None ∧
  hypershiftHostedClusterExternalAuthClientsSpecMatchesDesired (ap_Clients desired) (prov_Clients observed) = None ∧
  hypershiftHostedClusterExternalAuthClaimMappingsSpecMatchesDesired desired observed = None ↔ providerShows desired observed.
Proof.
  unfold hypershiftHostedClusterExternalAuthIssuerSpecMatchesDesired, hypershiftHostedClusterExternalAuthClientsSpecMatchesDesired,
    hypershiftHostedClusterExternalAuthClaimMappingsSpecMatchesDesired,
    hypershiftHostedClusterExternalAuthValidationRulesSpecMatchesDesired.
  rewrite !firstMismatch_None, !Forall_cons, !Forall_nil, !textMismatch_None, listMismatch_None, groupsMismatch_None.
  rewrite (pairMismatch_None _ _ _ _ _ clientMismatch_None), (pairMismatch_None _ _ _ _ _ ruleMismatch_None).
  split; [intros; by destruct_and!|intros []; by split_and!].
Qed.

(** The first provider of the name shows the external auth. *)
Definition hostedClusterShows (externalAuth : AuthSpec) (hostedCluster : HostedClusterAuth) : Prop :=
  ∃ providers provider, hca_Configuration hostedCluster = Some (Some providers) ∧
    List.find (λ p, EqualFold (prov_Name p) (as_Name externalAuth)) providers = Some provider ∧
    providerShows (as_Properties externalAuth) provider.

Lemma ToLower_idem s : ToLower (ToLower s) = ToLower s.
Proof.
  unfold ToLower. induction s as [|c s IH]; simpl; [done|]. rewrite IH. f_equal.
  by destruct c as [[] [] [] [] [] [] [] []].
Qed.

Lemma find_ext {A} (f g : A → bool) l : (∀ a, f a = g a) → List.find f l = List.find g l.
Proof. intros Hfg. induction l as [|a l IH]; simpl; [done|]. by rewrite Hfg, IH. Qed.

Lemma hostedCluster_checks externalAuth hostedCluster :
  hypershiftHostedClusterExternalAuthSpecMatchesDesired externalAuth hostedCluster = None ↔ hostedClusterShows externalAuth hostedCluster.
Proof.
  unfold hypershiftHostedClusterExternalAuthSpecMatchesDesired, hostedClusterShows.
  destruct (hca_Configuration hostedCluster) as [[[|p ps]|]|]; cbn [mjoin option_join].
  1: split; [done|]. 1: intros (? & ? & [= <-] & [=] & _).
  2,3: split; [done|]; by intros (? & ? & [=] & _).
  cbv zeta. rewrite (find_ext (λ q, EqualFold (prov_Name q) (ToLower (as_Name externalAuth)))
    (λ q, EqualFold (prov_Name q) (as_Name externalAuth)) (p :: ps)) by (intros q; unfold EqualFold; by rewrite ToLower_idem).
  destruct (List.find _ (p :: ps)) as [provider|] eqn:Ef.
  - rewrite firstMismatch_None, !Forall_cons, Forall_nil. split.
    + intros (? & ? & ? & _). eexists _, provider. split; [done|]. split; [exact Ef|]. by apply provider_checks.
    + intros (providers & provider' & [= <-] & Hp & Hs). rewrite Ef in Hp. injection Hp as <-.
      apply provider_checks in Hs. by destruct_and!.
  - split; [done|]. intros (? & ? & [= <-] & Hp & _). congruence.
Qed.

(** ** The verdict *)

Lemma updatingUnless_state mismatch :
  waitingState (os_ProvisioningState (updatingUnless mismatch)) ∧
  (os_ProvisioningState (updatingUnless mismatch) = ProvisioningStateSucceeded ↔ mismatch = None).
Proof. destruct mismatch; (split; [split; [plain_state|done]|naive_solver]). Qed.

Lemma authSpec_state json ea csExternalAuth state :
  clusterServiceExternalAuthSpecOperationState json ea csExternalAuth = Ok state →
  waitingState (os_ProvisioningState state) ∧
  (os_ProvisioningState state = ProvisioningStateSucceeded ↔
    externalAuthUpdateDispatchConfigFromCS csExternalAuth = Some (externalAuthUpdateDispatchConfigFromRP (as_Properties ea))).
Proof.
  unfold clusterServiceExternalAuthSpecOperationState, clusterServiceExternalAuthSpecMatchesDesired.
  destruct (externalAuthUpdateDispatchConfigFromCS csExternalAuth) as [observed|]; [|done]. intros [= <-].
  destruct (updatingUnless_state (if decide (externalAuthUpdateDispatchConfigFromRP (as_Properties ea) = observed) then None
    else Some ("Cluster Service external auth spec does not match desired: desired="
      +:+ json (externalAuthUpdateDispatchConfigFromRP (as_Properties ea)) +:+ ", actual=" +:+ json observed))) as [Hw Hs].
  split; [exact Hw|]. rewrite Hs. case_decide; naive_solver.
Qed.

Lemma authMirror_state hostedCluster ea state :
  hypershiftHostedClusterExternalAuthOperationState hostedCluster ea = Ok state →
  waitingState (os_ProvisioningState state) ∧
  (os_ProvisioningState state = ProvisioningStateSucceeded ↔
    ∃ observed, hostedCluster = Ok (Some observed) ∧ hostedClusterShows ea observed).
Proof.
  unfold hypershiftHostedClusterExternalAuthOperationState. destruct hostedCluster as [[observed|]|e]; [| |done]; intros [= <-].
  - destruct (updatingUnless_state (hypershiftHostedClusterExternalAuthSpecMatchesDesired ea observed)) as [Hw Hs].
    split; [exact Hw|]. rewrite Hs, hostedCluster_checks. naive_solver.
  - split; [split; [plain_state|done]|naive_solver].
Qed.

(** What keeps a pass from a decision: Cluster Service or the mirror cannot be read, or
    Cluster Service has a value that is not known. *)
Definition authUnreadable (csExternalAuth : result string CSExternalAuth) (hostedCluster : result string (option HostedClusterAuth)) : Prop :=
  (∃ e, csExternalAuth = Err e) ∨ (∃ e, hostedCluster = Err e) ∨
  ∃ cs, csExternalAuth = Ok cs ∧ externalAuthUpdateDispatchConfigFromCS cs = None.

Lemma authChecks_error json cs hostedCluster ea :
  Exists (λ check, isError check.2) (externalAuthUpdateChecks json cs hostedCluster ea) ↔
  externalAuthUpdateDispatchConfigFromCS cs = None ∨ ∃ e, hostedCluster = Err e.
Proof.
  unfold externalAuthUpdateChecks, isError, clusterServiceExternalAuthSpecOperationState, clusterServiceExternalAuthSpecMatchesDesired,
    hypershiftHostedClusterExternalAuthOperationState.
  rewrite !Exists_cons, Exists_nil. cbn [snd].
  destruct (externalAuthUpdateDispatchConfigFromCS cs), hostedCluster as [[?|]|?]; naive_solver.
Qed.

(** (C21) The update of an external auth that owns its resource ends the right way.  When
    Cluster Service or the hosted cluster cannot be read, or Cluster Service has a value
    that is not known, and only then, nothing is written and an error is returned.
    Otherwise the operation becomes [Succeeded] exactly when Cluster Service has the
    configuration asked for and the hosted cluster's first provider of the name shows what
    is mirrored of it: issuer URL and audiences, clients with component and scopes,
    username and groups mappings, rules (the type of a client and the issuer's certificates
    are not looked at there).  It never becomes [Failed]. *)
Theorem external_auth_update_verdict {S} `{OperationDB S AuthSpec} json now operation (ea : AuthDoc) csExternalAuth hostedCluster post (s : S) :
  follows OperationRequestUpdate ExternalAuthResourceType externalAuthUpdate_shouldReconcile operation ea →
  let r := externalAuthUpdate_SynchronizeOperation json now (Ok operation) (Ok ea) csExternalAuth hostedCluster post s in
  (authUnreadable csExternalAuth hostedCluster ∧ ∃ es, es ≠ [] ∧ r = (s, [], Some (StateFailed es))) ∨
  ¬ authUnreadable csExternalAuth hostedCluster ∧
  ∃ cs newStatus, csExternalAuth = Ok cs ∧ r = tolerateConflict (UpdateOperationStatus now (Some operation) newStatus None post s) ∧
    (newStatus = ProvisioningStateSucceeded ↔
      externalAuthUpdateDispatchConfigFromCS cs = Some (externalAuthUpdateDispatchConfigFromRP (as_Properties (res_rest ea))) ∧
      ∃ observed, hostedCluster = Ok (Some observed) ∧ hostedClusterShows (res_rest ea) observed) ∧
    newStatus ≠ ProvisioningStateFailed.
Proof.
  intros Hf. cbv zeta. unfold externalAuthUpdate_SynchronizeOperation, authUnreadable. destruct csExternalAuth as [cs|e].
  2: { left. split; [eauto|]. exists [CheckFailed e]. split; [done|]. unfold followOperation, AuthDoc in *. by rewrite (operationToFollow_follows _ _ _ _ _ Hf). }
  pose proof (authChecks_error json cs hostedCluster ea) as Hun.
  destruct (followOperation_verdict OperationRequestUpdate ExternalAuthResourceType externalAuthUpdate_shouldReconcile
    (λ _ ea, externalAuthUpdateChecks json cs hostedCluster ea) false (λ _, None) EmptyString now operation ea post s Hf)
    as [(es & e & Hr & He & Hex)|(Hok & newStatus & newError & Hr & Hs & Hfl & He)]; [done|..].
  - repeat apply Forall_cons_2; unfold plainCheck; simpl; [| |constructor].
    + intros state Hst. by destruct (authSpec_state _ _ _ _ Hst) as [[? _] _].
    + intros state Hst. by destruct (authMirror_state _ _ _ Hst) as [[? _] _].
  - left. apply Exists_error, Hun in Hex. split; [naive_solver|]. exists es. split; [|exact Hr]. intros ->. by apply not_elem_of_nil in He.
  - right. apply Forall_no_error in Hok as Hno. rewrite Hun in Hno. split; [naive_solver|].
    unfold externalAuthUpdateChecks in Hok, Hs, Hfl. rewrite !Forall_cons in Hok.
    destruct Hok as ([x1 H1] & [x2 H2] & _). simpl in H1, H2.
    destruct (authSpec_state _ _ _ _ H1) as [[_ Hn1] Hc1]. destruct (authMirror_state _ _ _ H2) as [[_ Hn2] Hc2].
    rewrite H1, H2 in Hs, Hfl. rewrite !Forall_cons, !checkSays_Ok, Hc1, Hc2, Forall_nil in Hs.
    rewrite !Exists_cons, Exists_nil, !checkSays_Ok in Hfl. simpl in Hfl.
    assert (Hnf : newStatus ≠ ProvisioningStateFailed) by naive_solver.
    exists cs, newStatus. split; [done|]. split; [|split; [rewrite Hs; tauto|exact Hnf]].
    destruct newError; [destruct Hnf; apply He; eauto|exact Hr].
Qed.
End spec.

(** ** An update of an external auth *)

Module AuthUpdateExample.
Import MemoryDB AuthDispatchExample.

#[export] Instance openshiftNames : OpenshiftNames := {
  configv1_Prefix := "Prefix"; configv1_NoPrefix := "NoPrefix"; configv1_NoOpinion := EmptyString; configv1_RequiredClaim := "RequiredClaim" }.

Definition update : OperationDoc := withOperationEtag 5 (NewOperation "u1" 10 OperationRequestUpdate (OperationStore.res_ID wanted) EmptyString).
Definition cs : CSExternalAuth := match sent with Some patch => MergeExternalAuth patch empty | None => empty end.
Definition provider (name : string) (prefix : option string) : OIDCProvider := {|
  prov_Name := name; prov_IssuerURL := "https://issuer.example.com"; prov_Audiences := ["audience1"; "audience2"];
  prov_Clients := [{| occ_ClientID := "audience1"; occ_ComponentName := "test-component"; occ_ComponentNamespace := "test-namespace";
                      occ_ExtraScopes := [] |}];
  prov_UsernameClaim := "sub"; prov_UsernamePrefixPolicy := EmptyString; prov_UsernamePrefix := prefix;
  prov_Groups := {| gc_Claim := "groups"; gc_Prefix := EmptyString |};
  prov_ValidationRules := [{| or_Type := "RequiredClaim";
    or_RequiredClaim := Some {| rc_Claim := "iss"; rc_RequiredValue := "https://issuer.example.com" |} |}] |}.
Definition mirror (name : string) (prefix : option string) : HostedClusterAuth := {| hca_Configuration := Some (Some [provider name prefix]) |}.
Definition database : dbView AuthSpec := {| v_operations := {["u1" := update]}; v_resources := {["/c/auth" := wanted]} |}.
Definition updatePass (c : CSExternalAuth) (name : string) (prefix : option string) :=
  externalAuthUpdate_SynchronizeOperation (λ _, EmptyString) 50 (Ok update) (Ok wanted) (Ok c) (Ok (Some (mirror name prefix))) None database.
Definition statusAfter (c : CSExternalAuth) (name : string) (prefix : option string) : option string :=
  op_Status <$> v_operations (updatePass c name prefix).1.1 !! "u1".

Lemma followed : follows OperationRequestUpdate ExternalAuthResourceType externalAuthUpdate_shouldReconcile update wanted.
Proof. split_and!; by vm_compute. Qed.

Lemma external_auth_update_verdict_witness :
  updatePass cs "AUTH" None = tolerateConflict (UpdateOperationStatus 50 (Some update) ProvisioningStateSucceeded None None database).
Proof.
  destruct (external_auth_update_verdict (λ _, EmptyString) 50 update wanted (Ok cs) (Ok (Some (mirror "AUTH" None))) None database followed)
    as [(_ & es & _ & Hr)|(_ & c & newStatus & Hc & Hr & Hs & _)].
  - exfalso. assert (Hok : (updatePass cs "AUTH" None).2 = None) by (vm_compute; reflexivity).
    unfold updatePass in Hok. rewrite Hr in Hok. discriminate Hok.
  - injection Hc as <-. assert (newStatus = ProvisioningStateSucceeded) as <-; [|exact Hr]. apply Hs. split; [vm_compute; reflexivity|].
    exists (mirror "AUTH" None). split; [reflexivity|]. apply hostedCluster_checks. vm_compute. reflexivity.
Defined.

(** The hosted cluster still has a prefix, has no provider of the name; Cluster Service
    has nothing yet. *)
Example external_auth_update_passes :
  statusAfter cs "auth" None = Some "Succeeded" ∧ statusAfter cs "auth" (Some "x:") = Some "Updating" ∧
  statusAfter cs "other" None = Some "Updating" ∧ statusAfter empty "auth" None = Some "Updating".
Proof. split_and!; vm_compute; reflexivity. Qed.
End AuthUpdateExample.
