(* ===== verification/ClusterUpdates.v ===== *)
(** * Updates of clusters

    [backend/pkg/controllers/cluster/operations/operation_cluster_update.go] and
    [operation_cluster_update_state_calculation.go]: the controller that follows the
    update of a cluster to its end.  Six checks decide: the validations, the version, what
    Cluster Service says and has, the mirrored [HostedCluster] and its autoscaler. *)
From Stdlib Require Import SpecFloat.
From S2P Require Import Prelude GoStrings GoDuration GoFloat RolloutTypes VersionRules RolloutStatus StatusConditions StatusAggregators ExternalAuthStatus.
From S2P Require Import OperationState OperationStore OperationUpdate ServiceStatus OperationControllers OperationSafety NodePoolOperations NodePoolUpdates.
From S2P Require Import ClusterOperations VersionValidation ClusterAdmission ClusterChecks ClusterValidation ClusterValidated.
From S2P Require Import Dispatch ClusterDispatch ExternalAuthUpdates.

Local Open Scope string_scope.
Local Open Scope Z_scope.
Local Open Scope go_scope.

(** ** Documents *)

(** The stored cluster with its deadline. *)
Record UpdatedCluster (V : Type) := { upc_Cluster : ClusterResource V; upc_UpdateOperationCompletionDeadline : option Z }.
Arguments upc_Cluster {V}.
Arguments upc_UpdateOperationCompletionDeadline {V}.
Definition UpdatedClusterDoc (V : Type) : Type := ResourceDoc (UpdatedCluster V).

(** The service provider's document: what the validations need, and the versions and the
    size. *)
Record UpdatedServiceProvider (V : Type) := {
  usp_Validated : ClusterOperations.ServiceProviderCluster;
  usp_PinnedExactVersion : option V;
  usp_DesiredVersion : option V;
  usp_ActiveVersions : list (ActiveVersion V);
  usp_DesiredHostedClusterControlPlaneSize : option string;
}.
Arguments usp_Validated {V}.
Arguments usp_PinnedExactVersion {V}.
Arguments usp_DesiredVersion {V}.
Arguments usp_ActiveVersions {V}.
Arguments usp_DesiredHostedClusterControlPlaneSize {V}.

(** What is used of a [HostedCluster].  Its secret encryption has a type and, for the key
    management service, perhaps the version of the key in Azure; without Azure there is no
    identity for the registry. *)
Record UpdatedHostedCluster := {
  uhc_AllowedCIDRBlocks : list string;
  uhc_ControllerAvailabilityPolicy : string;
  uhc_InfrastructureAvailabilityPolicy : string;
  uhc_Annotations : gmap string string;
  uhc_MaxNodesTotal : option Z;
  uhc_MaxPodGracePeriod : option Z;
  uhc_MaxNodeProvisionTime : string;
  uhc_PodPriorityThreshold : option Z;
  uhc_ImageContentSources : list (string * list string);
  uhc_SecretEncryption : option (string * option (option string));
  uhc_PullManagedIdentity : string;
}.

Class HostedClusterNames := {
  v1beta1_HighlyAvailable : string;
  v1beta1_SingleReplica : string;
  v1beta1_KMS : string;
  ClusterSizeOverrideAnnotation : string;
  ControlPlaneOperatorImageAnnotation : string;
  ControlPlaneComponentAvailable : string;
  ControlPlaneComponentRolloutComplete : string;
}.

(** ** What Cluster Service has *)

Definition formatClusterServiceCIDRBlockAllowAccess (mode : string) (values : list string) : string :=
  if String.eqb mode CSCIDRBlockAllowAccessModeAllowAll then CSCIDRBlockAllowAccessModeAllowAll
  else if String.eqb mode CSCIDRBlockAllowAccessModeAllowList then CSCIDRBlockAllowAccessModeAllowList +:+ " " +:+ printStrings values
  else if String.eqb mode EmptyString then "unset"
  else Quote mode +:+ " with " +:+ printStrings values.

Definition csAllowMode (csCluster : CSCluster) : string := default EmptyString (csc_AllowedCIDRs csCluster ≫= fst).

Definition clusterServiceClusterAuthorizedCIDRsSpecMatchesDesired (desired : option (list string)) (csCluster : CSCluster) : option string :=
  let observed := default [] (ClusterUpdateDispatchConfigAuthorizedCIDRsFromCS csCluster) in
  let mode := csAllowMode csCluster in
  let text := "Cluster Service k8sAPIServerAuthorizedCIDRs is " +:+ formatClusterServiceCIDRBlockAllowAccess mode observed +:+ ", want " in
  match desired with
  | None =>
      if negb (String.eqb mode CSCIDRBlockAllowAccessModeAllowAll) then Some (text +:+ CSCIDRBlockAllowAccessModeAllowAll)
      else if (0 <? length observed)%nat then Some (text +:+ CSCIDRBlockAllowAccessModeAllowAll)
      else None
  | Some desired =>
      if negb (String.eqb mode CSCIDRBlockAllowAccessModeAllowList) then Some (text +:+ CSCIDRBlockAllowAccessModeAllowList)
      else listMismatch "Cluster Service k8sAPIServerAuthorizedCIDRs allow_list" observed desired
  end.

Definition clusterServiceClusterNodeDrainTimeoutSpecMatchesDesired (desired : Z) (csCluster : CSCluster) : option string :=
  let got := ClusterUpdateDispatchConfigNodeDrainTimeoutFromCS csCluster in
  if got =? desired then None
  else Some ("Cluster Service nodeDrainGracePeriod is " +:+ Itoa got +:+ " minutes, want " +:+ Itoa desired).

Definition clusterServiceClusterContainerRegistryPullMISpecMatchesDesired (desired : option ResourceID) (csCluster : CSCluster) : option string :=
  let desiredStr := rid_String <$> desired in
  let got := ClusterUpdateDispatchConfigContainerRegistryPullMIFromCS (csc_Azure csCluster) in
  if match desiredStr, got with
     | None, None => true
     | Some d, Some g => EqualFold d g
     | _, _ => false
     end then None
  else Some ("Cluster Service containerRegistryPullManagedIdentity is " +:+ Quote (default EmptyString got)
             +:+ ", want " +:+ Quote (default EmptyString desiredStr)).

Definition clusterServiceClusterSpecMatchesDesired (properties : ClusterCustomerProperties) (csCluster : CSCluster) : option string :=
  firstMismatch [
    clusterServiceClusterAuthorizedCIDRsSpecMatchesDesired (api_AuthorizedCIDRs (ccp_API properties)) csCluster;
    clusterServiceClusterNodeDrainTimeoutSpecMatchesDesired (ccp_NodeDrainTimeoutMinutes properties) csCluster;
    clusterServiceClusterContainerRegistryPullMISpecMatchesDesired (cpf_PullManagedIdentity (ccp_Platform properties)) csCluster].

Definition clusterServiceClusterSpecOperationState (properties : ClusterCustomerProperties) (csCluster : CSCluster) : OperationState :=
  updatingUnless (clusterServiceClusterSpecMatchesDesired properties csCluster).

Definition clusterServiceClusterStatusOperationState (operation : OperationDoc) (status : ClusterStatus)
    (checks : result string (list InflightCheck)) : result stateError OperationState :=
  match ConvertClusterStatus checks operation status with
  | (_, _, Some e) => Err (ConversionFailed e)
  | (newOperationStatus, opError, None) =>
      let state := NewOperationState newOperationStatus (ClusterServiceOperationMessage (Some status) opError) in
      Ok match opError with
         | Some e => WithCloudErrorCode (ceb_Code e) (withStateMessage (ceb_Message e) state)
         | None => state
         end
  end.

(** ** What the management cluster has *)

Section spec.
Context `{HostedClusterNames}.

(** Cluster Service adds blocks of its own, so that more than what is desired is fine. *)
Definition hypershiftHostedClusterAllowedCIDRBlocksSpecMatchesDesired (desired : option (list string)) (observedCIDRs : list string) : option string :=
  let blocks := "hypershift HostedCluster apiServer allowedCIDRBlocks is " in
  match desired with
  | None =>
      if (0 <? length observedCIDRs)%nat then Some (blocks +:+ printStrings observedCIDRs +:+ ", want unset (allow all)") else None
  | Some desired =>
      if (length observedCIDRs =? 0)%nat then Some (blocks +:+ "unset, want " +:+ printStrings desired)
      else match List.find (λ want, negb (bool_decide (want ∈ observedCIDRs))) desired with
      | Some want => Some (blocks +:+ "missing " +:+ Quote want +:+ ", want " +:+ printStrings desired)
      | None => None
      end
  end.

Definition hypershiftHostedClusterAvailabilityPoliciesSpecMatchesDesired (desired : string) (observed : UpdatedHostedCluster) : option string :=
  let expectedAvailability := if String.eqb desired SingleReplicaControlPlane then v1beta1_SingleReplica else v1beta1_HighlyAvailable in
  firstMismatch [
    textMismatch "hypershift HostedCluster controllerAvailabilityPolicy" (uhc_ControllerAvailabilityPolicy observed) expectedAvailability;
    textMismatch "hypershift HostedCluster infrastructureAvailabilityPolicy" (uhc_InfrastructureAvailabilityPolicy observed) expectedAvailability].

(** An annotation that has to have a value, or to be absent. *)
Definition annotationMismatch (key : string) (expected : option string) (observedAnnotations : gmap string string) : option string :=
  let annotation := "hypershift HostedCluster annotation " +:+ Quote key +:+ " is " in
  match expected, observedAnnotations !! key with
  | Some expected, None => Some (annotation +:+ "unset, want " +:+ Quote expected)
  | Some expected, Some observed =>
      if String.eqb observed expected then None else Some (annotation +:+ Quote observed +:+ ", want " +:+ Quote expected)
  | None, Some observed => Some (annotation +:+ Quote observed +:+ ", want unset")
  | None, None => None
  end.

Definition hypershiftHostedClusterSizeOverrideAnnotationMatchesDesired (sizing : string) (size : option string)
    (observedAnnotations : gmap string string) : option string :=
  if negb (bool_decide (is_Some size)) && negb (String.eqb sizing EmptyString) && negb (String.eqb sizing MinimalControlPlanePodSizing) then
    Some ("unrecognized cluster-level control plane pod sizing: " +:+ Quote sizing)
  else annotationMismatch ClusterSizeOverrideAnnotation (ConvertHostedClusterSizeOverrideToCS sizing size) observedAnnotations.

Definition hypershiftHostedClusterControlPlaneOperatorImageAnnotationMatchesDesired (desired : string)
    (observedAnnotations : gmap string string) : option string :=
  annotationMismatch ControlPlaneOperatorImageAnnotation (if String.eqb desired EmptyString then None else Some desired) observedAnnotations.

(** A number that has to be set. *)
Definition numberMismatch (what : string) (observed : option Z) (desired : Z) : option string :=
  if bool_decide (observed = Some desired) then None
  else Some ("hypershift HostedCluster autoscaling " +:+ what +:+ " is " +:+ from_option Itoa "unset" observed +:+ ", want " +:+ Itoa desired).

Definition provisionTimeMismatch (observed : string) (desiredSeconds : Z) : option string :=
  let wantDuration := desiredSeconds *! 1000000000 in
  let wantDisplay := FormatFloat (Minutes wantDuration) +:+ "m" in
  let time := "hypershift HostedCluster autoscaling maxNodeProvisionTime " in
  if String.eqb observed EmptyString then Some (time +:+ "is unset, want " +:+ Quote wantDisplay)
  else match ParseDuration observed with
  | None => Some (time +:+ "has an invalid duration: " +:+ Quote observed +:+ ", want " +:+ Quote wantDisplay)
  | Some observedDuration =>
      if observedDuration =? wantDuration then None
      else Some (time +:+ "is " +:+ Quote observed +:+ ", want " +:+ Quote wantDisplay)
  end.

Definition hypershiftHostedClusterAutoscalingSpecMatchesDesired (desired : ClusterAutoscalingProfile) (observed : UpdatedHostedCluster) : option string :=
  firstMismatch [
    numberMismatch "maxNodesTotal" (uhc_MaxNodesTotal observed) (as_MaxNodesTotal desired);
    numberMismatch "maxPodGracePeriod" (uhc_MaxPodGracePeriod observed) (as_MaxPodGracePeriodSeconds desired);
    provisionTimeMismatch (uhc_MaxNodeProvisionTime observed) (as_MaxNodeProvisionTimeSeconds desired);
    numberMismatch "podPriorityThreshold" (uhc_PodPriorityThreshold observed) (as_PodPriorityThreshold desired)].

(** The mirrors by source: of several with one source the last one counts. *)
Definition bySource (sources : list (string * list string)) : gmap string (list string) := list_to_map (rev sources).

Definition missingSource (observedBySource : gmap string (list string)) (want : string * list string) : option string :=
  match observedBySource !! want.1 with
  | None => Some ("hypershift HostedCluster imageContentSources is missing source " +:+ Quote want.1)
  | Some got =>
      if bool_decide (want.2 = got) then None
      else Some ("hypershift HostedCluster imageContentSources for source " +:+ Quote want.1 +:+ " mirrors do not match")
  end.

Definition unexpectedSource (desiredBySource : gmap string (list string)) (source : string) : option string :=
  if bool_decide (is_Some (desiredBySource !! source)) || IsPlatformImageContentSource source then None
  else Some ("hypershift HostedCluster has unexpected imageContentSource " +:+ Quote source).

(** The maps are ranged over in any order; which of several messages is given depends on
    it, whether there is one does not. *)
Definition hypershiftHostedClusterImageContentSourcesSpecMatchesDesired (desired : list ImageDigestMirror) (observed : list (string * list string)) : option string :=
  let desiredBySource := bySource (clusterUpdateDispatchConfigImageDigestMirrorsFromRP desired) in
  let observedBySource := bySource observed in
  firstMismatch ((missingSource observedBySource <$> map_to_list desiredBySource)
                 ++ (unexpectedSource desiredBySource <$> (map_to_list observedBySource).*1)).

(** A customer managed profile that is missing, or has no key, is dereferenced. *)
Definition hypershiftHostedClusterCustomerManagedSecretEncryptionSpecMatchesDesired (desired : EtcdDataEncryptionProfile)
    (observed : string * option (option string)) : result version_panic (option string) :=
  if negb (String.eqb (de_KeyManagementMode desired) EtcdDataEncryptionKeyManagementModeTypeCustomerManaged) then
    Ok (Some ("support for desired key management mode " +:+ Quote (de_KeyManagementMode desired) +:+ " for updates is not implemented"))
  else match de_CustomerManaged desired with
  | None => Err NilDereference
  | Some customerManaged =>
      if negb (String.eqb (cm_EncryptionType customerManaged) CustomerManagedEncryptionTypeKMS) then
        Ok (Some ("support for desired customer managed key encryption type " +:+ cm_EncryptionType customerManaged
                  +:+ " for updates is not implemented"))
      else if negb (String.eqb observed.1 v1beta1_KMS) then
        Ok (Some ("hypershift HostedCluster secret encryption is: " +:+ Quote observed.1 +:+ ", want :"
                  +:+ Quote (cm_EncryptionType customerManaged)))
      else match observed.2 with
      | None => Ok (Some "unexpected hypershift HostedCluster kms secret encryption configuration unset")
      | Some None => Ok (Some "unexpected hypershift HostedCluster kms secret encryption azure configuration unset")
      | Some (Some version) =>
          match cm_Kms customerManaged with
          | None => Err NilDereference
          | Some kms =>
              let want := key_Version (kms_ActiveKey kms) in
              Ok (if String.eqb version want then None
                  else Some ("hypershift HostedCluster kms secret encryption active key version is: " +:+ Quote version
                             +:+ ", want: " +:+ Quote want))
          end
      end
  end.

Definition hypershiftHostedClusterEtcdSecretEncryptionSpecMatchesDesired (desired : EtcdDataEncryptionProfile)
    (observed : option (string * option (option string))) : result version_panic (option string) :=
  match observed with
  | None => Ok (Some "unexpected hypershift HostedCluster secret encryption is not set")
  | Some observed => hypershiftHostedClusterCustomerManagedSecretEncryptionSpecMatchesDesired desired observed
  end.

Definition hypershiftHostedClusterContainerRegistrySpecMatchesDesired (desired : option ResourceID) (observedResourceID : string) : option string :=
  let desiredStr := from_option rid_String EmptyString desired in
  if EqualFold desiredStr observedResourceID then None
  else Some ("HostedCluster containerRegistry managed identity is " +:+ Quote observedResourceID +:+ ", want " +:+ Quote desiredStr).

Section checks.
Context {V : Type} `{Semver V} `{ConditionOps}.

(** The checks up to that of the encryption, which may panic, and the one after it. *)
Definition hypershiftHostedClusterSpecMatchesDesired (cluster : ClusterResource V) (spc : UpdatedServiceProvider V)
    (hostedCluster : UpdatedHostedCluster) : result version_panic (option string) :=
  let properties := cr_CustomerProperties cluster in
  let features := csp_ExperimentalFeatures (cr_ServiceProviderProperties cluster) in
  match firstMismatch [
    hypershiftHostedClusterAllowedCIDRBlocksSpecMatchesDesired (api_AuthorizedCIDRs (ccp_API properties)) (uhc_AllowedCIDRBlocks hostedCluster);
    hypershiftHostedClusterAvailabilityPoliciesSpecMatchesDesired (ef_ControlPlaneAvailability features) hostedCluster;
    hypershiftHostedClusterSizeOverrideAnnotationMatchesDesired (ef_ControlPlanePodSizing features)
      (usp_DesiredHostedClusterControlPlaneSize spc) (uhc_Annotations hostedCluster);
    hypershiftHostedClusterControlPlaneOperatorImageAnnotationMatchesDesired (ef_ControlPlaneOperatorImage features) (uhc_Annotations hostedCluster);
    hypershiftHostedClusterAutoscalingSpecMatchesDesired (ccp_Autoscaling properties) hostedCluster;
    hypershiftHostedClusterImageContentSourcesSpecMatchesDesired (default [] (ccp_ImageDigestMirrors properties)) (uhc_ImageContentSources hostedCluster)]
  with
  | Some message => Ok (Some message)
  | None =>
      let* encryption := hypershiftHostedClusterEtcdSecretEncryptionSpecMatchesDesired (ccp_Etcd properties) (uhc_SecretEncryption hostedCluster) in
      Ok (firstMismatch [encryption;
            hypershiftHostedClusterContainerRegistrySpecMatchesDesired (cpf_PullManagedIdentity (ccp_Platform properties))
              (uhc_PullManagedIdentity hostedCluster)])
  end.

Definition hypershiftHostedClusterOperationState (cached : result string (option UpdatedHostedCluster)) (cluster : ClusterResource V)
    (spc : UpdatedServiceProvider V) : result version_panic (result stateError OperationState) :=
  match cached with
  | Err e => Ok (Err (CheckFailed e))
  | Ok None => Ok (Ok (NewOperationState ProvisioningStateUpdating "Hypershift HostedCluster has not been observed yet"))
  | Ok (Some hostedCluster) =>
      let* mismatch := hypershiftHostedClusterSpecMatchesDesired cluster spc hostedCluster in
      Ok (Ok (updatingUnless mismatch))
  end.

(** ** The autoscaler *)

Definition isControlPlaneClusterAutoscalerReady (conditions : list StatusCondition) : bool :=
  IsStatusConditionTrue conditions ControlPlaneComponentAvailable && IsStatusConditionTrue conditions ControlPlaneComponentRolloutComplete.

Definition clusterAutoscalerNotAvailableMsg : string := "cluster autoscaler not available".
Definition clusterAutoscalerRolloutNotCompleteMsg : string := "cluster autoscaler rollout not complete".
Definition clusterAutoscalerNotReadyMsg : string := "cluster autoscaler not ready".

(** What a condition that is not true says. *)
Definition notTrueMessage (message : string) (condition : option StatusCondition) : option string :=
  match condition with
  | None => Some message
  | Some c =>
      if String.eqb (sc_Status c) ConditionTrue then None
      else if String.eqb (sc_Message c) EmptyString then Some message
      else Some (message +:+ ": " +:+ sc_Reason c +:+ ": " +:+ sc_Message c)
  end.

Definition controlPlaneClusterAutoscalerNotReadyMessage (conditions : list StatusCondition) : string :=
  default clusterAutoscalerNotReadyMsg (firstMismatch [
    notTrueMessage clusterAutoscalerNotAvailableMsg (FindStatusCondition conditions ControlPlaneComponentAvailable);
    notTrueMessage clusterAutoscalerRolloutNotCompleteMsg (FindStatusCondition conditions ControlPlaneComponentRolloutComplete)]).

(** From 4.20 on the autoscaler has a component; [component] is its conditions, if it is
    mirrored. *)
Definition hypershiftControlPlaneClusterAutoscalerState (component : result string (option (list StatusCondition)))
    (spc : UpdatedServiceProvider V) : result version_panic (result stateError OperationState) :=
  let* (lowest, _) := FindLowestAndHighestClusterVersion (usp_ActiveVersions spc) in
  Ok match lowest with
     | None => Ok (NewOperationState ProvisioningStateUpdating "control plane active versions not yet reported")
     | Some lowest =>
         if negb ((4 <? Major lowest) || ((Major lowest =? 4) && (20 <=? Minor lowest))) then
           Ok (NewOperationState ProvisioningStateSucceeded ("lowest active control plane version " +:+ Quote (semver_String lowest)
             +:+ " does not support ControlPlaneComponent cluster-autoscaler (requires 4.20+)"))
         else match component with
         | Err e => Err (CheckFailed e)
         | Ok None => Ok (NewOperationState ProvisioningStateUpdating "cluster autoscaler state not cached yet")
         | Ok (Some conditions) =>
             if isControlPlaneClusterAutoscalerReady conditions then Ok (NewOperationState ProvisioningStateSucceeded EmptyString)
             else Ok (NewOperationState ProvisioningStateUpdating (controlPlaneClusterAutoscalerNotReadyMessage conditions))
         end
     end.

(** ** The version *)

Section update.
Context {C S : Type} `{LRU C} `{OperationDB S (UpdatedCluster V)}.

(** The version that is forced: the pin of the service provider before the experimental
    one. *)
Definition forcedVersion (cluster : ClusterResource V) (spc : UpdatedServiceProvider V) : option V :=
  match usp_PinnedExactVersion spc with
  | Some pin => Some pin
  | None => ef_ControlPlaneExactVersion (csp_ExperimentalFeatures (cr_ServiceProviderProperties cluster))
  end.

Definition sameLine (v w : V) : bool := (Major v =? Major w) && (Minor v =? Minor w).

(** What the resolved version has to be. *)
Definition versionMatched (customer : V) (forced resulting : option V) : bool :=
  match resulting with
  | None => false
  | Some resulting => match forced with Some f => EQ resulting f | None => sameLine customer resulting end
  end.

Definition clusterDesiredVersionResolutionOperationState (now : Z) (operationID : string) (cluster : ClusterResource V)
    (spc : UpdatedServiceProvider V) (cache : C) : result stateError OperationState * C :=
  let id := vp_ID (ccp_Version (cr_CustomerProperties cluster)) in
  match ParseTolerant id with
  | None => (Err (CheckFailed "invalid version"), cache)
  | Some customer =>
      let forced := forcedVersion cluster spc in
      if match forced with Some f => negb (sameLine customer f) | None => false end then
        (Ok (NewFailedOperationState CloudErrorCodeInvalidRequestContent
               ("requested cluster version " +:+ id +:+ " conflicts with forced control plane version "
                +:+ from_option semver_String EmptyString forced) None), lru_Remove cache operationID)
      else if versionMatched customer forced (usp_DesiredVersion spc) then
        (Ok (NewOperationState ProvisioningStateSucceeded EmptyString), lru_Remove cache operationID)
      else
        let mismatchDetail := match forced with
                              | Some f => "pinned exact version " +:+ semver_String f
                              | None => "'" +:+ id +:+ "' cluster version"
                              end in
        let pending := NewOperationState ProvisioningStateAccepted ("resolved desired version does not match " +:+ mismatchDetail) in
        match lru_Get cache operationID with
        | (None, cache) => (Ok pending, lru_Add cache operationID now)
        | (Some firstSeen, cache) =>
            if now - firstSeen <=? versionMismatchTimeout then (Ok pending, cache)
            else (Ok (NewFailedOperationState CloudErrorCodeInternalServerError
                        ("timed out after 129s waiting for resolution of desired version from " +:+ mismatchDetail) None),
                  lru_Remove cache operationID)
        end
  end.

(** ** The controller *)

(** What the controller reads besides the operation and the cluster; [clr_operationID] is the
    operation's resource ID. *)
Record clusterUpdateReads := {
  clr_operationID : string;
  clr_csCluster : result string (CSCluster * ClusterStatus);
  clr_inflight : result string (list InflightCheck);
  clr_serviceProvider : result getError (UpdatedServiceProvider V);
  clr_hostedCluster : result string (option UpdatedHostedCluster);
  clr_autoscaler : result string (option (list StatusCondition));
}.

Definition clusterUpdateChecks (now : Z) (reads : clusterUpdateReads) (spc : UpdatedServiceProvider V) (csCluster : CSCluster)
    (status : ClusterStatus) (operation : OperationDoc) (cluster : ClusterResource V)
    (version hosted autoscaler : result stateError OperationState) : list (string * result stateError OperationState) :=
  [("clusterValidation", Ok (clusterValidationOperationState (usp_Validated spc) (op_StartTime operation) now));
   ("controlPlaneDesiredVersionResolution", version);
   ("clusterServiceClusterStatus", clusterServiceClusterStatusOperationState operation status (clr_inflight reads));
   ("clusterServiceClusterSpec", Ok (clusterServiceClusterSpecOperationState (cr_CustomerProperties cluster) csCluster));
   ("hypershiftHostedCluster", hosted);
   ("hypershiftControlPlaneClusterAutoscaler", autoscaler)].

Definition clusterUpdate_determineOperationState (now : Z) (reads : clusterUpdateReads) (operation : OperationDoc)
    (cluster : ClusterResource V) (cache : C) : result version_panic (result (list stateError) OperationState * C) :=
  match clr_csCluster reads with
  | Err e => Ok (Err [CheckFailed e], cache)
  | Ok (csCluster, status) =>
      match clr_serviceProvider reads with
      | Err e => Ok (Err [errorOfGet e], cache)
      | Ok spc =>
          let '(version, cache) := clusterDesiredVersionResolutionOperationState now (clr_operationID reads) cluster spc cache in
          let* hosted := hypershiftHostedClusterOperationState (clr_hostedCluster reads) cluster spc in
          let* autoscaler := hypershiftControlPlaneClusterAutoscalerState (clr_autoscaler reads) spc in
          Ok (pickState (clusterUpdateChecks now reads spc csCluster status operation cluster version hosted autoscaler), cache)
      end
  end.

Definition clusterUpdate_shouldReconcile (cluster : UpdatedClusterDoc V) : bool :=
  negb (bool_decide (is_Some (res_DeletionTimestamp cluster)))
  && bool_decide (is_Some (csp_ClusterServiceID (cr_ServiceProviderProperties (upc_Cluster (res_rest cluster))))).

Definition clusterUpdateDeadlineSentence : string := "cluster update did not complete before the deadline".

Definition clusterUpdate_SynchronizeOperation (now : Z) (operation : result getError OperationDoc)
    (cluster : result getError (UpdatedClusterDoc V)) (reads : clusterUpdateReads) (post : option (OperationDoc → bool)) (s : S) (cache : C) :
    result version_panic (S * list OperationDoc * option syncOpError * C) :=
  match operationToFollow OperationRequestUpdate ClusterResourceType clusterUpdate_shouldReconcile operation cluster with
  | Err e => Ok (s, [], Some e, cache)
  | Ok None => Ok (s, [], None, cache)
  | Ok (Some (operation, cluster)) =>
      let* (determined, cache) := clusterUpdate_determineOperationState now reads operation (upc_Cluster (res_rest cluster)) cache in
      Ok (conclude now operation
            (completionOutcome false now (upc_UpdateOperationCompletionDeadline (res_rest cluster)) clusterUpdateDeadlineSentence)
            determined post s, cache)
  end.
End update.
End checks.

(** ** What the checks of the hosted cluster compare *)

Lemma annotationMismatch_None key expected annotations : annotationMismatch key expected annotations = None ↔ annotations !! key = expected.
Proof.
  unfold annotationMismatch. destruct expected as [e|], (annotations !! key) as [o|]; [|naive_solver..].
  destruct (String.eqb_spec o e); naive_solver.
Qed.

Lemma numberMismatch_None what observed desired : numberMismatch what observed desired = None ↔ observed = Some desired.
Proof. unfold numberMismatch. case_bool_decide; naive_solver. Qed.

Lemma provisionTimeMismatch_None observed seconds :
  provisionTimeMismatch observed seconds = None ↔ ParseDuration observed = Some (seconds *! 1000000000).
Proof.
  unfold provisionTimeMismatch. cbv zeta. destruct (String.eqb_spec observed EmptyString) as [->|_].
  { assert (ParseDuration EmptyString = None) as -> by (vm_compute; reflexivity). by split. }
  destruct (ParseDuration observed) as [d|]; [|done]. destruct (Z.eqb_spec d (seconds *! 1000000000)); naive_solver.
Qed.

(** The hosted cluster lets in what is desired, or everybody. *)
Definition blocksShown (desired : option (list string)) (observed : list string) : Prop :=
  match desired with
  | None => observed = []
  | Some desired => observed ≠ [] ∧ ∀ cidr, cidr ∈ desired → cidr ∈ observed
  end.

Lemma allowedCIDRs_None desired observed :
  hypershiftHostedClusterAllowedCIDRBlocksSpecMatchesDesired desired observed = None ↔ blocksShown desired observed.
Proof.
  unfold hypershiftHostedClusterAllowedCIDRBlocksSpecMatchesDesired, blocksShown.
  destruct desired as [desired|]; [|by destruct observed].
  destruct observed as [|o observed]; simpl; [naive_solver|].
  destruct (List.find _ desired) as [want|] eqn:Ef.
  - apply List.find_some in Ef as [Hin%list_elem_of_In Hn]. split; [done|]. intros [_ Hall].
    rewrite bool_decide_eq_true_2 in Hn by auto. done.
  - split; [|done]. intros _. split; [done|]. intros cidr Hin%list_elem_of_In.
    pose proof (List.find_none _ _ Ef _ Hin) as Hn. simpl in Hn. by apply negb_false_iff, bool_decide_eq_true in Hn.
Qed.

(** Every desired source has its mirrors, and only sources of the platform are there
    besides. *)
Definition sourcesShown (desired observed : gmap string (list string)) : Prop :=
  desired ⊆ observed ∧ ∀ source, is_Some (observed !! source) → is_Some (desired !! source) ∨ source ∈ platformImageContentSources.

Lemma imageSources_None desired observed :
  hypershiftHostedClusterImageContentSourcesSpecMatchesDesired desired observed = None ↔
  sourcesShown (bySource (clusterUpdateDispatchConfigImageDigestMirrorsFromRP desired)) (bySource observed).
Proof.
  unfold hypershiftHostedClusterImageContentSourcesSpecMatchesDesired, sourcesShown. cbv zeta.
  set (d := bySource (clusterUpdateDispatchConfigImageDigestMirrorsFromRP desired)). set (o := bySource observed).
  rewrite firstMismatch_None, Forall_app, !Forall_fmap, map_subseteq_spec, !Forall_forall. unfold compose. split; intros [Hd Ho]; split.
  - intros source mirrors Hs%elem_of_map_to_list. specialize (Hd _ Hs). unfold missingSource in Hd. simpl in Hd.
    destruct (o !! source) as [got|]; [|done]. case_bool_decide; [by subst|done].
  - intros source [mirrors Hs]. specialize (Ho (source, mirrors)). simpl in Ho. unfold unexpectedSource, IsPlatformImageContentSource in Ho.
    destruct (bool_decide_reflect (is_Some (d !! source))); [by left|].
    destruct (bool_decide_reflect (source ∈ platformImageContentSources)); [by right|]. simpl in Ho.
    discriminate Ho. by apply elem_of_map_to_list.
  - intros [source mirrors] Hs%elem_of_map_to_list. unfold missingSource. simpl. rewrite (Hd _ _ Hs). by rewrite bool_decide_eq_true_2.
  - intros [k mirrors] Hs%elem_of_map_to_list. simpl. unfold unexpectedSource, IsPlatformImageContentSource.
    destruct (Ho k) as [Hk|Hk]; [by exists mirrors| |]; rewrite (bool_decide_eq_true_2 _ Hk); [done|by rewrite orb_true_r].
Qed.

(** The hosted cluster encrypts with the version of the key that is desired. *)
Definition keyShown (desired : EtcdDataEncryptionProfile) (observed : option (string * option (option string))) : Prop :=
  de_KeyManagementMode desired = EtcdDataEncryptionKeyManagementModeTypeCustomerManaged ∧
  ∃ customerManaged kms, de_CustomerManaged desired = Some customerManaged ∧ cm_Kms customerManaged = Some kms ∧
    cm_EncryptionType customerManaged = CustomerManagedEncryptionTypeKMS ∧
    observed = Some (v1beta1_KMS, Some (Some (key_Version (kms_ActiveKey kms)))).

(** A profile that is not dereferenced where it is nil. *)
Definition keyProfileComplete (desired : EtcdDataEncryptionProfile) : Prop :=
  de_KeyManagementMode desired = EtcdDataEncryptionKeyManagementModeTypeCustomerManaged →
  ∃ customerManaged, de_CustomerManaged desired = Some customerManaged ∧
    (cm_EncryptionType customerManaged = CustomerManagedEncryptionTypeKMS → is_Some (cm_Kms customerManaged)).

Lemma encryption_None desired observed : keyProfileComplete desired →
  ∃ mismatch, hypershiftHostedClusterEtcdSecretEncryptionSpecMatchesDesired desired observed = Ok mismatch ∧
    (mismatch = None ↔ keyShown desired observed).
Proof.
  intros Hc. unfold hypershiftHostedClusterEtcdSecretEncryptionSpecMatchesDesired, keyShown,
    hypershiftHostedClusterCustomerManagedSecretEncryptionSpecMatchesDesired.
  destruct observed as [[type key]|]; [|eexists; split; [done|naive_solver]]. simpl.
  destruct (String.eqb_spec (de_KeyManagementMode desired) EtcdDataEncryptionKeyManagementModeTypeCustomerManaged) as [Hm|Hm];
    [|eexists; split; [done|naive_solver]].
  destruct (Hc Hm) as (cm & Hcm & Hkms). rewrite Hcm. simpl.
  destruct (String.eqb_spec (cm_EncryptionType cm) CustomerManagedEncryptionTypeKMS) as [Ht|Ht]; [|eexists; split; [done|naive_solver]].
  destruct (Hkms Ht) as [kms Hk]. rewrite Hk. simpl.
  destruct (String.eqb_spec type v1beta1_KMS) as [->|Hty]; [|eexists; split; [done|naive_solver]]. simpl.
  destruct key as [[version|]|]; [|eexists; split; [done|naive_solver]..].
  destruct (String.eqb_spec version (key_Version (kms_ActiveKey kms))) as [->|Hv]; (eexists; split; [done|naive_solver]).
Qed.

Section facts.
Context {V C S : Type} `{Semver V} `{LRU C} `{ConditionOps} `{OperationDB S (UpdatedCluster V)}.

(** What the mirrored hosted cluster has to show. *)
Record hostedClusterUpdated (cluster : ClusterResource V) (size : option string) (observed : UpdatedHostedCluster) : Prop := {
  hcu_blocks : blocksShown (api_AuthorizedCIDRs (ccp_API (cr_CustomerProperties cluster))) (uhc_AllowedCIDRBlocks observed);
  hcu_availability :
    let expected := if String.eqb (ef_ControlPlaneAvailability (csp_ExperimentalFeatures (cr_ServiceProviderProperties cluster))) SingleReplicaControlPlane
                    then v1beta1_SingleReplica else v1beta1_HighlyAvailable in
    uhc_ControllerAvailabilityPolicy observed = expected ∧ uhc_InfrastructureAvailabilityPolicy observed = expected;
  hcu_size :
    let sizing := ef_ControlPlanePodSizing (csp_ExperimentalFeatures (cr_ServiceProviderProperties cluster)) in
    (is_Some size ∨ sizing = EmptyString ∨ sizing = MinimalControlPlanePodSizing) ∧
    uhc_Annotations observed !! ClusterSizeOverrideAnnotation = ConvertHostedClusterSizeOverrideToCS sizing size;
  hcu_image :
    let image := ef_ControlPlaneOperatorImage (csp_ExperimentalFeatures (cr_ServiceProviderProperties cluster)) in
    uhc_Annotations observed !! ControlPlaneOperatorImageAnnotation = if String.eqb image EmptyString then None else Some image;
  hcu_autoscaling :
    let desired := ccp_Autoscaling (cr_CustomerProperties cluster) in
    uhc_MaxNodesTotal observed = Some (as_MaxNodesTotal desired) ∧
    uhc_MaxPodGracePeriod observed = Some (as_MaxPodGracePeriodSeconds desired) ∧
    ParseDuration (uhc_MaxNodeProvisionTime observed) = Some (as_MaxNodeProvisionTimeSeconds desired *! 1000000000) ∧
    uhc_PodPriorityThreshold observed = Some (as_PodPriorityThreshold desired);
  hcu_sources :
    sourcesShown (bySource (clusterUpdateDispatchConfigImageDigestMirrorsFromRP (default [] (ccp_ImageDigestMirrors (cr_CustomerProperties cluster)))))
      (bySource (uhc_ImageContentSources observed));
  hcu_key : keyShown (ccp_Etcd (cr_CustomerProperties cluster)) (uhc_SecretEncryption observed);
  hcu_identity : ToLower (uhc_PullManagedIdentity observed)
    = ToLower (from_option rid_String EmptyString (cpf_PullManagedIdentity (ccp_Platform (cr_CustomerProperties cluster))));
}.

Lemma sizeOverride_None sizing size annotations :
  hypershiftHostedClusterSizeOverrideAnnotationMatchesDesired sizing size annotations = None ↔
  (is_Some size ∨ sizing = EmptyString ∨ sizing = MinimalControlPlanePodSizing) ∧
  annotations !! ClusterSizeOverrideAnnotation = ConvertHostedClusterSizeOverrideToCS sizing size.
Proof.
  unfold hypershiftHostedClusterSizeOverrideAnnotationMatchesDesired.
  destruct (bool_decide_reflect (is_Some size)) as [Hs|Hs]; simpl; [rewrite annotationMismatch_None; tauto|].
  destruct (String.eqb_spec sizing EmptyString); simpl; [rewrite annotationMismatch_None; tauto|].
  destruct (String.eqb_spec sizing MinimalControlPlanePodSizing); simpl; [rewrite annotationMismatch_None; tauto|]. naive_solver.
Qed.

Lemma hostedCluster_updated cluster spc observed : keyProfileComplete (ccp_Etcd (cr_CustomerProperties cluster)) →
  ∃ mismatch, hypershiftHostedClusterSpecMatchesDesired cluster spc observed = Ok mismatch ∧
    (mismatch = None ↔ hostedClusterUpdated cluster (usp_DesiredHostedClusterControlPlaneSize spc) observed).
Proof.
  intros Hc. unfold hypershiftHostedClusterSpecMatchesDesired. cbv zeta.
  match goal with |- context [firstMismatch ?l] => destruct (firstMismatch l) as [m|] eqn:Ef end.
  - exists (Some m). split; [done|]. split; [done|]. intros [Hb Ha Hsz Him Has Hso _ _]. rewrite <- Ef. cbv zeta in Ha, Hsz, Him, Has.
    unfold hypershiftHostedClusterAvailabilityPoliciesSpecMatchesDesired, hypershiftHostedClusterControlPlaneOperatorImageAnnotationMatchesDesired,
      hypershiftHostedClusterAutoscalingSpecMatchesDesired.
    rewrite !firstMismatch_None, !Forall_cons, !Forall_nil, allowedCIDRs_None, sizeOverride_None, imageSources_None, annotationMismatch_None.
    cbv zeta. rewrite !firstMismatch_None, !Forall_cons, !Forall_nil, !textMismatch_None, !numberMismatch_None, provisionTimeMismatch_None. tauto.
  - destruct (encryption_None (ccp_Etcd (cr_CustomerProperties cluster)) (uhc_SecretEncryption observed) Hc) as (e & -> & He). simpl.
    eexists. split; [done|].
    unfold hypershiftHostedClusterAvailabilityPoliciesSpecMatchesDesired, hypershiftHostedClusterControlPlaneOperatorImageAnnotationMatchesDesired,
      hypershiftHostedClusterAutoscalingSpecMatchesDesired in Ef.
    rewrite !firstMismatch_None, !Forall_cons, !Forall_nil, allowedCIDRs_None, sizeOverride_None, imageSources_None, annotationMismatch_None in Ef.
    cbv zeta in Ef. rewrite !firstMismatch_None, !Forall_cons, !Forall_nil, !textMismatch_None, !numberMismatch_None, provisionTimeMismatch_None in Ef.
    rewrite firstMismatch_None, !Forall_cons, Forall_nil, He.
    unfold hypershiftHostedClusterContainerRegistrySpecMatchesDesired, EqualFold. cbv zeta.
    match goal with |- context [String.eqb ?a ?b] => destruct (String.eqb_spec a b) as [Hi|Hi] end.
    + split; [intros (Hk & _)|intros []; tauto]. constructor; cbv zeta; tauto || (symmetry; exact Hi).
    + split; [by intros (_ & [=] & _)|]. intros [_ _ _ _ _ _ _ Hid]. by rewrite Hid in Hi.
Qed.

Lemma hostedCluster_state cached cluster spc : keyProfileComplete (ccp_Etcd (cr_CustomerProperties cluster)) →
  ∃ r, hypershiftHostedClusterOperationState cached cluster spc = Ok r ∧
    ∀ state, r = Ok state → waitingState (os_ProvisioningState state) ∧
      (os_ProvisioningState state = ProvisioningStateSucceeded ↔
        ∃ observed, cached = Ok (Some observed) ∧
          hostedClusterUpdated cluster (usp_DesiredHostedClusterControlPlaneSize spc) observed).
Proof.
  intros Hc. unfold hypershiftHostedClusterOperationState. destruct cached as [[observed|]|e].
  - destruct (hostedCluster_updated cluster spc observed Hc) as (mismatch & -> & Hm). simpl. eexists. split; [done|].
    intros state [= <-]. destruct (updatingUnless_state mismatch) as [Hw Hs]. split; [exact Hw|]. rewrite Hs, Hm. naive_solver.
  - eexists. split; [done|]. intros state [= <-]. split; [split; [plain_state|done]|naive_solver].
  - eexists. split; [done|]. by intros state [=].
Qed.

(** What Cluster Service has to have: exactly the blocks, or everybody let in, the drain
    timeout and the identity, whatever the case of its letters. *)
Definition csUpdated (properties : ClusterCustomerProperties) (csCluster : CSCluster) : Prop :=
  match api_AuthorizedCIDRs (ccp_API properties) with
  | None => csAllowMode csCluster = CSCIDRBlockAllowAccessModeAllowAll
  | Some cidrs => csc_AllowedCIDRs csCluster = Some (Some CSCIDRBlockAllowAccessModeAllowList, cidrs)
  end ∧
  ClusterUpdateDispatchConfigNodeDrainTimeoutFromCS csCluster = ccp_NodeDrainTimeoutMinutes properties ∧
  ToLower <$> ClusterUpdateDispatchConfigContainerRegistryPullMIFromCS (csc_Azure csCluster)
    = ToLower ∘ rid_String <$> cpf_PullManagedIdentity (ccp_Platform properties).

Lemma authorizedCIDRs_None desired csCluster :
  clusterServiceClusterAuthorizedCIDRsSpecMatchesDesired desired csCluster = None ↔
  match desired with
  | None => csAllowMode csCluster = CSCIDRBlockAllowAccessModeAllowAll
  | Some cidrs => csc_AllowedCIDRs csCluster = Some (Some CSCIDRBlockAllowAccessModeAllowList, cidrs)
  end.
Proof.
  unfold clusterServiceClusterAuthorizedCIDRsSpecMatchesDesired, csAllowMode, ClusterUpdateDispatchConfigAuthorizedCIDRsFromCS. cbv zeta.
  destruct (csc_AllowedCIDRs csCluster) as [[[mode|] values]|]; simpl; [|destruct desired; naive_solver..].
  destruct desired as [cidrs|].
  - destruct (String.eqb_spec mode CSCIDRBlockAllowAccessModeAllowList) as [->|Hm]; simpl; [|naive_solver].
    rewrite listMismatch_None. naive_solver.
  - destruct (String.eqb_spec mode CSCIDRBlockAllowAccessModeAllowAll) as [->|Hm]; [done|naive_solver].
Qed.

Lemma csSpec_updated properties csCluster : clusterServiceClusterSpecMatchesDesired properties csCluster = None ↔ csUpdated properties csCluster.
Proof.
  unfold clusterServiceClusterSpecMatchesDesired, csUpdated.
  rewrite firstMismatch_None, !Forall_cons, Forall_nil, authorizedCIDRs_None.
  assert (Hd : clusterServiceClusterNodeDrainTimeoutSpecMatchesDesired (ccp_NodeDrainTimeoutMinutes properties) csCluster = None ↔
    ClusterUpdateDispatchConfigNodeDrainTimeoutFromCS csCluster = ccp_NodeDrainTimeoutMinutes properties).
  { unfold clusterServiceClusterNodeDrainTimeoutSpecMatchesDesired. cbv zeta. case Z.eqb_spec; naive_solver. }
  assert (Hi : clusterServiceClusterContainerRegistryPullMISpecMatchesDesired (cpf_PullManagedIdentity (ccp_Platform properties)) csCluster = None ↔
    ToLower <$> ClusterUpdateDispatchConfigContainerRegistryPullMIFromCS (csc_Azure csCluster)
    = ToLower ∘ rid_String <$> cpf_PullManagedIdentity (ccp_Platform properties)).
  { unfold clusterServiceClusterContainerRegistryPullMISpecMatchesDesired, EqualFold. cbv zeta.
    destruct (cpf_PullManagedIdentity _) as [d|], (ClusterUpdateDispatchConfigContainerRegistryPullMIFromCS _) as [g|]; simpl; [|naive_solver..].
    case String.eqb_spec; naive_solver congruence. }
  tauto.
Qed.

Lemma clusterStatus_state operation status checks state : op_Request operation ≠ OperationRequestDelete →
  clusterServiceClusterStatusOperationState operation status checks = Ok state →
  plainState (os_ProvisioningState state) ∧
  (os_ProvisioningState state = ProvisioningStateSucceeded ↔ cs_State status = ClusterStateReady) ∧
  (os_ProvisioningState state = ProvisioningStateFailed ↔ cs_State status = ClusterStateError).
Proof.
  intros Hreq. unfold clusterServiceClusterStatusOperationState.
  destruct (ConvertClusterStatus checks operation status) as [[newStatus opError] [e|]] eqn:Ec; [done|]. intros [= <-].
  assert (os_ProvisioningState match opError with
    | Some e => WithCloudErrorCode (ceb_Code e) (withStateMessage (ceb_Message e)
        (NewOperationState newStatus (ClusterServiceOperationMessage (Some status) opError)))
    | None => NewOperationState newStatus (ClusterServiceOperationMessage (Some status) opError) end = newStatus) as ->
    by (destruct opError; [by rewrite WithCloudErrorCode_state|done]).
  destruct (ConvertClusterStatus_spec checks operation status newStatus opError Hreq Ec) as (? & ? & ? & ?). done.
Qed.

(** The autoscaler is ready, or the version is too old to tell. *)
Definition autoscalerUpdated (component : result string (option (list StatusCondition))) (spc : UpdatedServiceProvider V) : Prop :=
  ∃ lowest highest, FindLowestAndHighestClusterVersion (usp_ActiveVersions spc) = Ok (Some lowest, highest) ∧
    (Major lowest < 4 ∨ Major lowest = 4 ∧ Minor lowest < 20 ∨
     ∃ conditions, component = Ok (Some conditions) ∧ isControlPlaneClusterAutoscalerReady conditions = true).

Lemma autoscaler_state component spc bounds : FindLowestAndHighestClusterVersion (usp_ActiveVersions spc) = Ok bounds →
  ∃ r, hypershiftControlPlaneClusterAutoscalerState component spc = Ok r ∧
    ∀ state, r = Ok state → waitingState (os_ProvisioningState state) ∧
      (os_ProvisioningState state = ProvisioningStateSucceeded ↔ autoscalerUpdated component spc).
Proof.
  intros Hb. unfold hypershiftControlPlaneClusterAutoscalerState, autoscalerUpdated. rewrite Hb. destruct bounds as [lowest highest]. simpl.
  eexists. split; [done|]. intros state.
  assert (Hwait : ∀ message, waitingState (os_ProvisioningState (NewOperationState ProvisioningStateUpdating message)) ∧
    waitingState (os_ProvisioningState (NewOperationState ProvisioningStateSucceeded message)))
    by (split; split; [plain_state|done|plain_state|done]).
  destruct lowest as [lowest|]; [|intros [= <-]; split; [apply Hwait|naive_solver]].
  destruct (Z.ltb_spec 4 (Major lowest)), (Z.eqb_spec (Major lowest) 4), (Z.leb_spec 20 (Minor lowest)); simpl.
  all: try (intros [= <-]; split; [apply Hwait|]; split; [intros _; exists lowest, highest; split; [done|lia]|done]; fail).
  all: destruct component as [[conditions|]|err]; [|intros [= <-]; split; [apply Hwait|]|done].
  all: try (split; [done|]; intros (? & ? & [= <- <-] & [?|[?|(? & [=] & _)]]); lia).
  all: destruct (isControlPlaneClusterAutoscalerReady conditions) eqn:Er; intros [= <-]; (split; [apply Hwait|]); split; try done.
  all: try (intros _; exists lowest, highest; split; [done|]; right; right; by exists conditions).
  all: intros (? & ? & [= <- <-] & [?|[?|(? & [= <-] & ?)]]); [lia|lia|congruence].
Qed.

(** The version that is resolved is the forced one, or of the line that was asked for. *)
Definition versionUpdated (customer : V) (cluster : ClusterResource V) (spc : UpdatedServiceProvider V) : Prop :=
  ∃ resulting, usp_DesiredVersion spc = Some resulting ∧
  match forcedVersion cluster spc with
  | Some forced => EQ resulting forced = true ∧ sameLine customer forced = true
  | None => sameLine customer resulting = true
  end.

(** The forced version is of another line, or nothing was resolved for too long since this
    process first looked. *)
Definition versionGivenUp (now : Z) (operationID : string) (customer : V) (cluster : ClusterResource V) (spc : UpdatedServiceProvider V) (cache : C) : Prop :=
  (∃ forced, forcedVersion cluster spc = Some forced ∧ sameLine customer forced = false) ∨
  ¬ versionUpdated customer cluster spc ∧ ∃ firstSeen, (lru_Get cache operationID).1 = Some firstSeen ∧ versionMismatchTimeout < now - firstSeen.

Lemma clusterVersion_state now operationID cluster spc (cache : C) customer :
  ParseTolerant (vp_ID (ccp_Version (cr_CustomerProperties cluster))) = Some customer →
  ∃ state cache', clusterDesiredVersionResolutionOperationState now operationID cluster spc cache = (Ok state, cache') ∧
    plainState (os_ProvisioningState state) ∧
    (os_ProvisioningState state = ProvisioningStateSucceeded ↔ versionUpdated customer cluster spc) ∧
    (os_ProvisioningState state = ProvisioningStateFailed ↔ versionGivenUp now operationID customer cluster spc cache).
Proof.
  intros Hparse. unfold clusterDesiredVersionResolutionOperationState, versionGivenUp. rewrite Hparse. cbv zeta.
  assert (Hup : versionUpdated customer cluster spc ↔
    match forcedVersion cluster spc with Some f => sameLine customer f = true | None => True end ∧
    versionMatched customer (forcedVersion cluster spc) (usp_DesiredVersion spc) = true).
  { unfold versionUpdated, versionMatched. destruct (usp_DesiredVersion spc), (forcedVersion cluster spc); naive_solver. }
  setoid_rewrite Hup. clear Hup. destruct (forcedVersion cluster spc) as [f|] eqn:Ef; [destruct (sameLine customer f) eqn:El|]; simpl negb; cbv iota.
  2: { eexists _, _. split; [done|]. split_and!; [plain_state|naive_solver..]. }
  all: destruct (versionMatched customer _ (usp_DesiredVersion spc)) eqn:Em.
  1,3: eexists _, _; split; [done|]; split; [plain_state|]; split; [done|]; split; [done|];
    intros [(f' & E & ?)|[[] _]]; [by simplify_eq; congruence|done].
  all: destruct (lru_Get cache operationID) as [[firstSeen|] cache']; simpl;
    [destruct (Z.leb_spec (now - firstSeen) versionMismatchTimeout)|].
  all: eexists _, _; split; [done|]; split; [plain_state|]; split; [by split; [|intros [_ [=]]]|]; split; [try done|].
  all: try (intros [(f' & E & ?)|(_ & t & E & ?)]; simplify_eq; congruence || lia).
  all: intros _; try done; right; (split; [by intros [_ [=]]|]); exists firstSeen; (split; [done|lia]).
Qed.

(** What an update waits for. *)
Definition clusterUpdated (customer : V) (cluster : ClusterResource V) (spc : UpdatedServiceProvider V) (csCluster : CSCluster)
    (status : ClusterStatus) (reads : clusterUpdateReads (V := V)) : Prop :=
  Forall (λ v, sc_Status v = ConditionTrue) (spc_Validations (usp_Validated spc)) ∧
  versionUpdated customer cluster spc ∧ cs_State status = ClusterStateReady ∧ csUpdated (cr_CustomerProperties cluster) csCluster ∧
  (∃ observed, clr_hostedCluster reads = Ok (Some observed) ∧
     hostedClusterUpdated cluster (usp_DesiredHostedClusterControlPlaneSize spc) observed) ∧
  autoscalerUpdated (clr_autoscaler reads) spc.

(** What keeps a pass from a decision: one of the documents cannot be read, Cluster Service
    answers what cannot be told, or the hosted cluster or, from 4.20 on, the autoscaler
    cannot be read. *)
Definition clusterUpdateUnreadable (reads : clusterUpdateReads (V := V)) (operation : OperationDoc) : Prop :=
  (∃ e, clr_csCluster reads = Err e) ∨
  (∃ csCluster status, clr_csCluster reads = Ok (csCluster, status) ∧
     ((∃ e, clr_serviceProvider reads = Err e) ∨
      ∃ spc, clr_serviceProvider reads = Ok spc ∧
        (clusterUnconvertible (clr_inflight reads) operation status ∨
         (∃ e, clr_hostedCluster reads = Err e) ∨
         (∃ e, clr_autoscaler reads = Err e) ∧
         ∃ lowest highest, FindLowestAndHighestClusterVersion (usp_ActiveVersions spc) = Ok (Some lowest, highest) ∧
           (4 < Major lowest ∨ Major lowest = 4 ∧ 20 <= Minor lowest)))).

Lemma clusterStatus_error operation status checks :
  isError (clusterServiceClusterStatusOperationState operation status checks) ↔ clusterUnconvertible checks operation status.
Proof.
  rewrite <- ConvertClusterStatus_error. unfold isError, clusterServiceClusterStatusOperationState.
  destruct (ConvertClusterStatus checks operation status) as [[newStatus opError] [e|]]; simpl; [split; eauto|].
  split; by intros [? [=]].
Qed.

Lemma updatedHostedCluster_error cached (cluster : ClusterResource V) (spc : UpdatedServiceProvider V) r : hypershiftHostedClusterOperationState cached cluster spc = Ok r →
  isError r ↔ ∃ e, cached = Err e.
Proof.
  unfold isError, hypershiftHostedClusterOperationState. destruct cached as [[observed|]|e]; [|intros [= <-]; naive_solver..].
  destruct (hypershiftHostedClusterSpecMatchesDesired cluster spc observed); simpl; [intros [= <-]; naive_solver|done].
Qed.

Lemma autoscaler_error component (spc : UpdatedServiceProvider V) r : hypershiftControlPlaneClusterAutoscalerState component spc = Ok r →
  isError r ↔ (∃ e, component = Err e) ∧
    ∃ lowest highest, FindLowestAndHighestClusterVersion (usp_ActiveVersions spc) = Ok (Some lowest, highest) ∧
      (4 < Major lowest ∨ Major lowest = 4 ∧ 20 <= Minor lowest).
Proof.
  unfold isError, hypershiftControlPlaneClusterAutoscalerState.
  destruct (FindLowestAndHighestClusterVersion (usp_ActiveVersions spc)) as [[[lowest|] highest]|]; simpl; [| |done]; intros [= <-];
    [|naive_solver].
  assert (Hv : (∃ l h, Ok (E := version_panic) (Some lowest, highest) = Ok (Some l, h) ∧ (4 < Major l ∨ Major l = 4 ∧ 20 <= Minor l))
    ↔ (4 < Major lowest ∨ Major lowest = 4 ∧ 20 <= Minor lowest)) by naive_solver.
  rewrite Hv. destruct (Z.ltb_spec 4 (Major lowest)), (Z.eqb_spec (Major lowest) 4), (Z.leb_spec 20 (Minor lowest)); simpl.
  all: try (split; [by intros [? [=]]|intros [_ [?|[? ?]]]; lia]).
  all: destruct component as [[conditions|]|msg]; [destruct (isControlPlaneClusterAutoscalerReady conditions)|..];
    split; try (by intros [? [=]]); try (by intros [[? [=]] _]); intros _; eauto.
Qed.

(** (C16) A cluster's update ends the right way, for a version that parses, an encryption profile
    that is complete and active versions that are known.  When something cannot be read, and
    only then, nothing is written and an error is returned.  Otherwise the operation becomes
    [Succeeded] exactly when the validations hold, the resolved version is the one that is
    forced or asked for, Cluster Service calls the cluster ready and has its allowed
    blocks, drain timeout and identity, the hosted cluster shows everything that can be
    updated, and its autoscaler is ready.  It becomes [Failed], and with an error, exactly
    when a validation has failed for long enough, Cluster Service reports an error, the
    version was given up, or the deadline has passed without success. *)
Theorem cluster_update_verdict now operation (cluster : UpdatedClusterDoc V) (reads : clusterUpdateReads) post (s : S) (cache : C) customer :
  let resource := upc_Cluster (res_rest cluster) in
  follows OperationRequestUpdate ClusterResourceType clusterUpdate_shouldReconcile operation cluster →
  ParseTolerant (vp_ID (ccp_Version (cr_CustomerProperties resource))) = Some customer →
  keyProfileComplete (ccp_Etcd (cr_CustomerProperties resource)) →
  (∀ spc, clr_serviceProvider reads = Ok spc → ∃ bounds, FindLowestAndHighestClusterVersion (usp_ActiveVersions spc) = Ok bounds) →
  ∃ r cache', clusterUpdate_SynchronizeOperation now (Ok operation) (Ok cluster) reads post s cache = Ok (r, cache') ∧
  (clusterUpdateUnreadable reads operation ∧ (∃ es, es ≠ [] ∧ r = (s, [], Some (StateFailed es))) ∨
   ¬ clusterUpdateUnreadable reads operation ∧
   ∃ csCluster status spc newStatus newError,
    clr_csCluster reads = Ok (csCluster, status) ∧ clr_serviceProvider reads = Ok spc ∧
    r = tolerateConflict (UpdateOperationStatus now (Some operation) newStatus newError post s) ∧
    let success := clusterUpdated customer resource spc csCluster status reads in
    (newStatus = ProvisioningStateSucceeded ↔ success) ∧
    (newStatus = ProvisioningStateFailed ↔
      Exists (validationFails (usp_Validated spc) (op_StartTime operation) now) (spc_Validations (usp_Validated spc)) ∨
      cs_State status = ClusterStateError ∨
      versionGivenUp now (clr_operationID reads) customer resource spc cache ∨
      ¬ success ∧ pastDeadline now (upc_UpdateOperationCompletionDeadline (res_rest cluster)) = true) ∧
    (newStatus = ProvisioningStateFailed ↔ is_Some newError)).
Proof.
  cbv zeta. intros Hf Hparse Hkey Hversions. destruct (ShouldProcess_request _ _ _ (proj1 Hf)) as [Hreq _].
  assert (Hnd : op_Request operation ≠ OperationRequestDelete) by by rewrite Hreq.
  unfold clusterUpdate_SynchronizeOperation. pose proof (operationToFollow_follows _ _ _ _ _ Hf) as Hfollow.
  unfold UpdatedClusterDoc in *. rewrite Hfollow. unfold clusterUpdate_determineOperationState.
  unfold clusterUpdateUnreadable.
  destruct (clr_csCluster reads) as [[csCluster status]|e]; [|eexists _, _; split; [done|]; left; split; [eauto|by eexists [_]]].
  destruct (clr_serviceProvider reads) as [spc|e]; [|eexists _, _; split; [done|]; left; split; [naive_solver|by eexists [_]]].
  set (resource := upc_Cluster (res_rest cluster)) in *.
  destruct (clusterVersion_state now (clr_operationID reads) resource spc cache customer Hparse) as (version & cache' & -> & Hvp & Hvs & Hvf).
  destruct (hostedCluster_state (clr_hostedCluster reads) resource spc Hkey) as (hosted & Eh & Hh). rewrite Eh.
  destruct (Hversions spc eq_refl) as [bounds Hb].
  destruct (autoscaler_state (clr_autoscaler reads) spc bounds Hb) as (autoscaler & Ea & Ha). rewrite Ea. simpl.
  eexists _, cache'. split; [done|].
  set (checks := clusterUpdateChecks now reads spc csCluster status operation resource (Ok version) hosted autoscaler).
  destruct (clusterValidation_state (usp_Validated spc) (op_StartTime operation) now) as (Hwp & Hws & Hwf).
  destruct (updatingUnless_state (clusterServiceClusterSpecMatchesDesired (cr_CustomerProperties resource) csCluster)) as [[Hup Hun] Hus].
  rewrite csSpec_updated in Hus.
  assert (Hunread : Exists (λ check, isError check.2) checks ↔
    clusterUnconvertible (clr_inflight reads) operation status ∨ (∃ e, clr_hostedCluster reads = Err e) ∨
    (∃ e, clr_autoscaler reads = Err e) ∧ ∃ lowest highest,
      FindLowestAndHighestClusterVersion (usp_ActiveVersions spc) = Ok (Some lowest, highest) ∧
      (4 < Major lowest ∨ Major lowest = 4 ∧ 20 <= Minor lowest)).
  { unfold checks, clusterUpdateChecks. rewrite !Exists_cons, Exists_nil. cbn [snd].
    rewrite clusterStatus_error, (updatedHostedCluster_error _ _ _ _ Eh), (autoscaler_error _ _ _ Ea), !isError_Ok. clear. tauto. }
  destruct (conclude_verdict checks false (upc_UpdateOperationCompletionDeadline (res_rest cluster)) clusterUpdateDeadlineSentence
    now operation post s) as [(es & e & Hr & He & Hex)|(Hok & newStatus & newError & Hr & Hs & Hfl & He)].
  - done.
  - repeat apply Forall_cons_2; unfold plainCheck; simpl; [| | | | | |constructor].
    + by intros state [= <-].
    + by intros state [= <-].
    + intros state Hst. by destruct (clusterStatus_state _ _ _ _ Hnd Hst).
    + by intros state [= <-].
    + intros state Hst. by destruct (Hh _ Hst) as [[? _] _].
    + intros state Hst. by destruct (Ha _ Hst) as [[? _] _].
  - left. apply Exists_error, Hunread in Hex. split; [right; exists csCluster, status; eauto|].
    exists es. split; [|exact Hr]. intros ->. by apply not_elem_of_nil in He.
  - right. pose proof (Forall_no_error _ Hok) as Hno. rewrite Hunread in Hno.
    split; [intros [[? [=]]|(? & ? & [= <- <-] & [[? [=]]|(? & [= <-] & Hx)])]; by apply Hno|]. clear Hno Hunread.
    unfold checks, clusterUpdateChecks in Hok, Hs, Hfl. rewrite !Forall_cons in Hok.
    destruct Hok as (_ & _ & [x3 H3'] & _ & [x5 H5'] & [x6 H6'] & _). simpl in H3', H5', H6'.
    destruct (clusterStatus_state _ _ _ _ Hnd H3') as (_ & Hss & Hsf).
    destruct (Hh _ H5') as [[_ Hhn] Hhs]. destruct (Ha _ H6') as [[_ Han] Has].
    rewrite H3', H5', H6' in Hs, Hfl. rewrite !Forall_cons, !checkSays_Ok, Hws, Hvs, Hss, Hus, Hhs, Has, Forall_nil in Hs.
    rewrite !Exists_cons, !Forall_cons, !checkSays_Ok, Hws, Hvs, Hss, Hus, Hhs, Has, Hwf, Hvf, Hsf, Forall_nil, Exists_nil in Hfl.
    exists csCluster, status, spc, newStatus, newError. cbv zeta. unfold clusterUpdated.
    split; [done|]. split; [done|]. split; [exact Hr|]. split; [|split; [|exact He]].
    + rewrite Hs. clear. tauto.
    + rewrite Hfl. clear -Hun Hhn Han. tauto.
Qed.
End facts.
End spec.

(** ** An update of a cluster *)

Module ClusterUpdateExample.
Import MemoryDB StatusInstances DispatchedClusters.
#[local] Existing Instance Release.semver.

#[export] Instance hostedClusterNames : HostedClusterNames := {
  v1beta1_HighlyAvailable := "HighlyAvailable"; v1beta1_SingleReplica := "SingleReplica"; v1beta1_KMS := "kms";
  ClusterSizeOverrideAnnotation := "hypershift.openshift.io/cluster-size-override";
  ControlPlaneOperatorImageAnnotation := "hypershift.openshift.io/control-plane-operator-image";
  ControlPlaneComponentAvailable := "Available"; ControlPlaneComponentRolloutComplete := "RolloutComplete" }.

Definition resource : ClusterResource Release.t := dcl_Cluster (changed 900).
Definition version (minor patch : Z) : option Release.t := Release.make 4 minor patch.
Definition document (deadline : option Z) : UpdatedClusterDoc Release.t := {|
  OperationStore.res_ID := {| rid_String := "/c"; rid_SubscriptionID := "sub"; rid_ResourceGroupName := "rg"; rid_Name := "c";
    rid_ResourceType := "Microsoft.RedHatOpenShift/hcpOpenShiftClusters"; rid_Parent := None |};
  res_Etag := 1; res_ProvisioningState := "Updating"; res_ActiveOperationID := "u1"; res_DeletionTimestamp := None;
  res_DeleteOperationCompletionTimeout := None; res_DeleteOperationCompletionDeadline := None;
  res_rest := {| upc_Cluster := resource; upc_UpdateOperationCompletionDeadline := deadline |} |}.
Definition update : OperationDoc := withOperationEtag 5 (NewOperation "u1" 10 OperationRequestUpdate (OperationStore.res_ID (document None)) EmptyString).

Definition provider (desired : option Release.t) : UpdatedServiceProvider Release.t := {|
  usp_Validated := {| spc_Validations := []; spc_ValidationProbeTimes := ∅; spc_ManagementClusterResourceID := None;
    spc_PlacementConditions := None; spc_ServingCABundle := EmptyString; spc_RoleAssignments := []; spc_PendingRoleAssignments := [];
    spc_KubeAPIServerCertificate := None; spc_IngressCertificate := None |};
  usp_PinnedExactVersion := None; usp_DesiredVersion := desired;
  usp_ActiveVersions := [{| av_Version := version 22 3; av_State := "Completed"; av_LastTransitionTime := 0 |}];
  usp_DesiredHostedClusterControlPlaneSize := None |}.

Definition keyVersion : string :=
  match de_CustomerManaged (ccp_Etcd (cr_CustomerProperties resource)) ≫= cm_Kms with
  | Some kms => key_Version (kms_ActiveKey kms) | None => EmptyString end.
Definition identity : string :=
  from_option rid_String EmptyString (cpf_PullManagedIdentity (ccp_Platform (cr_CustomerProperties resource))).
Definition hosted (time : string) : UpdatedHostedCluster := {|
  uhc_AllowedCIDRBlocks := "10.9.0.0/16" :: default [] (api_AuthorizedCIDRs (ccp_API (cr_CustomerProperties resource)));
  uhc_ControllerAvailabilityPolicy := "SingleReplica"; uhc_InfrastructureAvailabilityPolicy := "SingleReplica"; uhc_Annotations := ∅;
  uhc_MaxNodesTotal := Some 0; uhc_MaxPodGracePeriod := Some 600; uhc_MaxNodeProvisionTime := time; uhc_PodPriorityThreshold := Some (-10);
  uhc_ImageContentSources := ("quay.io/openshift-release-dev/ocp-release", ["arohcp.azurecr.io/ocp-release"])
    :: clusterUpdateDispatchConfigImageDigestMirrorsFromRP (default [] (ccp_ImageDigestMirrors (cr_CustomerProperties resource)));
  uhc_SecretEncryption := Some ("kms", Some (Some keyVersion)); uhc_PullManagedIdentity := identity |}.

Definition ready (state : string) : ClusterStatus := {|
  cs_State := state; cs_ProvisionErrorCode := EmptyString; cs_ProvisionErrorMessage := EmptyString; cs_Description := EmptyString |}.
Definition condition (type : string) : StatusCondition := {|
  sc_Type := type; sc_Status := "True"; sc_Reason := "AsExpected"; sc_Message := EmptyString; sc_LastTransitionTime := 0 |}.
Definition readsOf (desired : option Release.t) (time state : string) : clusterUpdateReads := {|
  clr_operationID := "/operations/u1"; clr_csCluster := Ok (MergeCluster (patchOf 900 None) known, ready state); clr_inflight := Ok [];
  clr_serviceProvider := Ok (provider desired); clr_hostedCluster := Ok (Some (hosted time));
  clr_autoscaler := Ok (Some [condition "Available"; condition "RolloutComplete"]) |}.
Definition database : dbView (UpdatedCluster Release.t) := {|
  v_operations := {["u1" := update]}; v_resources := {["/c" := document (Some 1000)]} |}.
Definition updatePass (now : Z) (desired : option Release.t) (time state : string) (cache : gmap string Z) :=
  clusterUpdate_SynchronizeOperation now (Ok update) (Ok (document (Some 1000))) (readsOf desired time state) None database cache.
Definition statusAfter (now : Z) (desired : option Release.t) (time state : string) (cache : gmap string Z) : option string :=
  match updatePass now desired time state cache with Ok (r, _) => op_Status <$> v_operations r.1.1 !! "u1" | Err _ => None end.

Definition customer : Release.t := default (exist _ (0, 0, 0) eq_refl) (version 22 0).

Lemma followed_cluster_update : follows OperationRequestUpdate ClusterResourceType clusterUpdate_shouldReconcile update (document (Some 1000)).
Proof. split_and!; by vm_compute. Qed.

Lemma parsed_cluster_version : ParseTolerant (vp_ID (ccp_Version (cr_CustomerProperties resource))) = Some customer.
Proof. apply (bool_decide_unpack _). vm_compute. exact I. Qed.

Lemma keyComplete : keyProfileComplete (ccp_Etcd (cr_CustomerProperties resource)).
Proof. vm_compute. intros _. repeat eexists. Qed.

(** The reads of a cluster that has everything the update asks for. *)
Lemma cluster_all_updated : clusterUpdated customer resource (provider (version 22 5)) (MergeCluster (patchOf 900 None) known) (ready ClusterStateReady)
  (readsOf (version 22 5) "15m" ClusterStateReady).
Proof.
  refine (conj _ (conj _ (conj _ (conj _ (conj _ _))))).
  - vm_compute; constructor.
  - exists (default customer (version 22 5)). split; [apply (bool_decide_unpack _); vm_compute; exact I|vm_compute; reflexivity].
  - reflexivity.
  - apply csSpec_updated; vm_compute; reflexivity.
  - exists (hosted "15m"). split; [reflexivity|].
    destruct (hostedCluster_updated resource (provider (version 22 5)) (hosted "15m") keyComplete) as (mismatch & Hm & Hu). apply Hu.
    assert (E : Ok mismatch = Ok None :> result version_panic (option string)) by (etransitivity; [symmetry; exact Hm|vm_compute; reflexivity]).
    injection E as ->. reflexivity.
  - assert (Hv : version 22 3 = Some (default customer (version 22 3))) by (apply (bool_decide_unpack _); vm_compute; exact I).
    exists (default customer (version 22 3)), (version 22 3). split; [exact (f_equal (λ v, Ok (v, version 22 3)) Hv)|].
    right; right. eexists. split; [reflexivity|vm_compute; reflexivity].
Qed.

Lemma cluster_update_verdict_witness :
  ∃ newError cache', updatePass 50 (version 22 5) "15m" ClusterStateReady ∅
    = Ok (tolerateConflict (UpdateOperationStatus 50 (Some update) ProvisioningStateSucceeded newError None database), cache').
Proof.
  destruct (cluster_update_verdict 50 update (document (Some 1000)) (readsOf (version 22 5) "15m" ClusterStateReady) None database
    (∅ : gmap string Z) customer followed_cluster_update parsed_cluster_version keyComplete) as (r & cache' & Hp & [(_ & es & _ & ->)|(_ & cs & status & spc & newStatus & newError & Hcs & Hspc & -> & Hs & _)]).
  - intros spc [= <-]. exists (version 22 3, version 22 3). reflexivity.
  - exfalso. assert (Hfail : match updatePass 50 (version 22 5) "15m" ClusterStateReady ∅ with Ok (_, _, Some _, _) => true | _ => false end = false)
      by (vm_compute; reflexivity).
    change (updatePass 50 (version 22 5) "15m" ClusterStateReady ∅ = Ok (database, [], Some (StateFailed es), cache')) in Hp.
    rewrite Hp in Hfail. discriminate.
  - exists newError, cache'. injection Hcs as <- <-. injection Hspc as <-.
    assert (newStatus = ProvisioningStateSucceeded) as <-; [|exact Hp]. apply Hs. exact cluster_all_updated.
Defined.

(** The same update in other circumstances: the hosted cluster waits for nodes for another
    time, the version is of another line or not resolved, for more than 129 seconds, the
    deadline has passed, Cluster Service reports an error. *)
Example cluster_update_passes :
  statusAfter 50 (version 22 5) "15m" ClusterStateReady ∅ = Some "Succeeded" ∧
  statusAfter 50 (version 22 5) "900s" ClusterStateReady ∅ = Some "Succeeded" ∧
  statusAfter 50 (version 22 5) "14m" ClusterStateReady ∅ = Some "Updating" ∧
  statusAfter 50 (version 21 5) "15m" ClusterStateReady ∅ = Some "Accepted" ∧
  statusAfter 50 None "15m" ClusterStateReady ∅ = Some "Accepted" ∧
  statusAfter (130 * 1000000000) None "15m" ClusterStateReady {["/operations/u1" := 999999999]} = Some "Failed" ∧
  statusAfter 1001 (version 22 5) "14m" ClusterStateReady ∅ = Some "Failed" ∧
  statusAfter 1001 (version 22 5) "15m" ClusterStateReady ∅ = Some "Succeeded" ∧
  statusAfter 50 (version 22 5) "15m" ClusterStateError ∅ = Some "Failed".
Proof. split_and!; vm_compute; reflexivity. Qed.
End ClusterUpdateExample.
