(* ===== verification/Scheduling.v ===== *)
(** * What is known of a management cluster's capacity

    [internal/api/fleetapi/types_management_cluster_scheduling.go] and
    [fleet/pkg/controllers/capacityreporting]: the document that the placement of clusters
    reads, and the two controllers that fill it, one with what the cluster reports, one with
    what its node pools can grow to. *)
From Stdlib Require Import SpecFloat.
From S2P Require Import Prelude GoStrings GoDuration GoFloat RolloutTypes RolloutStatus StatusConditions ExternalAuthStatus ClusterOperations.
From S2P Require Import ComputeTypes AgentPools.

Local Open Scope string_scope.
Local Open Scope Z_scope.
Local Open Scope go_scope.

(** ** Quantities *)

Definition BinarySI : string := "BinarySI".
Definition DecimalSI : string := "DecimalSI".

(** [resource.Quantity] of Kubernetes; [q_Float] is [AsApproximateFloat64]. *)
Class QuantityOps (Q : Type) := {
  q_zero : Q;
  q_NewQuantity : Z → string → Q;
  q_NewMilliQuantity : Z → string → Q;
  q_Format : Q → string;
  q_Value : Q → Z;
  q_MilliValue : Q → Z;
  q_Sign : Q → Z;
  q_Cmp : Q → Q → Z;
  q_Add : Q → Q → Q;
  q_Sub : Q → Q → Q;
  q_Float : Q → spec_float;
}.

(** Whole quantities are counts: their value is exact, and so is their difference, as long
    as it is far from the bounds of 64 bits. *)
Class QuantityLaws (Q : Type) `{QuantityOps Q} := {
  q_whole : Q → Prop;
  q_whole_zero : q_whole q_zero;
  q_Value_zero : q_Value q_zero = 0;
  q_Cmp_refl : ∀ q, q_Cmp q q = 0;
  q_whole_Sub : ∀ q n f, q_whole q → q_whole (q_Sub q (q_NewQuantity n f));
  q_Value_Sub : ∀ q n f, q_whole q → - 2 ^ 62 <= q_Value q < 2 ^ 62 → 0 <= n < 2 ^ 62 →
    q_Value (q_Sub q (q_NewQuantity n f)) = q_Value q - n;
}.

(** [corev1.ResourceList]; a nil list is an empty one. *)
Notation ResourceList Q := (gmap string Q) (only parsing).

Definition ResourceCPU : string := "cpu".
Definition ResourceMemory : string := "memory".
Definition SwiftNICResourceName : string := "aro.openshift.io/swift-nic".
Definition schedulingResources : list string := [ResourceCPU; ResourceMemory; SwiftNICResourceName].

(** ** The document *)

Record ObservedResources (Q : Type) := {
  or_LastReportedAt : option Z;
  or_Capacity : ResourceList Q;
  or_Usage : ResourceList Q;
  or_Requests : ResourceList Q;
}.
Arguments or_LastReportedAt {Q}.
Arguments or_Capacity {Q}.
Arguments or_Usage {Q}.
Arguments or_Requests {Q}.

Record ScaleCeiling (Q : Type) := { ceil_LastReportedAt : option Z; ceil_Capacity : ResourceList Q }.
Arguments ceil_LastReportedAt {Q}.
Arguments ceil_Capacity {Q}.

Record ManagementClusterScheduling (Q : Type) := {
  mcs_Etag : Z;
  mcs_Conditions : list StatusCondition;
  mcs_Observed : ObservedResources Q;
  mcs_ReadyResourceIDs : list (option ResourceID);
  mcs_NotReadyResourceIDs : list (option ResourceID);
  mcs_ScaleCeiling : ScaleCeiling Q;
  mcs_PendingAssignedClusters : list (option ResourceID);
}.
Arguments mcs_Etag {Q}.
Arguments mcs_Conditions {Q}.
Arguments mcs_Observed {Q}.
Arguments mcs_ReadyResourceIDs {Q}.
Arguments mcs_NotReadyResourceIDs {Q}.
Arguments mcs_ScaleCeiling {Q}.
Arguments mcs_PendingAssignedClusters {Q}.

Definition withPending {Q} (pending : list (option ResourceID)) (d : ManagementClusterScheduling Q) : ManagementClusterScheduling Q := {|
  mcs_Etag := mcs_Etag d; mcs_Conditions := mcs_Conditions d; mcs_Observed := mcs_Observed d;
  mcs_ReadyResourceIDs := mcs_ReadyResourceIDs d; mcs_NotReadyResourceIDs := mcs_NotReadyResourceIDs d;
  mcs_ScaleCeiling := mcs_ScaleCeiling d; mcs_PendingAssignedClusters := pending |}.
Definition withSchedulingEtag {Q} (etag : Z) (d : ManagementClusterScheduling Q) : ManagementClusterScheduling Q := {|
  mcs_Etag := etag; mcs_Conditions := mcs_Conditions d; mcs_Observed := mcs_Observed d;
  mcs_ReadyResourceIDs := mcs_ReadyResourceIDs d; mcs_NotReadyResourceIDs := mcs_NotReadyResourceIDs d;
  mcs_ScaleCeiling := mcs_ScaleCeiling d; mcs_PendingAssignedClusters := mcs_PendingAssignedClusters d |}.

Definition ConditionTypeCapacityDataCurrent : string := "CapacityDataCurrent".
Definition ConditionTypeScalingDataCurrent : string := "ScalingDataCurrent".

(** ** Has a document changed *)

(** [ResourceIDsEqual]: the letters of an ID have no case. *)
Definition ResourceIDsEqual (a b : option ResourceID) : bool :=
  match a, b with
  | None, None => true
  | Some a, Some b => EqualFold (rid_String a) (rid_String b)
  | _, _ => false
  end.

Definition sameList {A} (same : A → A → bool) (l k : list A) : bool :=
  (length l =? length k)%nat && forallb (λ '(a, b), same a b) (zip l k).

Section documents.
Context {Q : Type} `{QuantityOps Q}.

Definition sameResources (a b : ResourceList Q) : bool :=
  bool_decide (dom a = dom b) && forallb (λ '(name, q), match b !! name with Some q' => q_Cmp q q' =? 0 | None => false end) (map_to_list a).

(** [NeedsUpdate] of [needs_update.go] for this document: the etag does not matter. *)
Definition schedulingNeedsUpdate (existing desired : ManagementClusterScheduling Q) : bool :=
  negb (bool_decide (mcs_Conditions existing = mcs_Conditions desired)
        && bool_decide (or_LastReportedAt (mcs_Observed existing) = or_LastReportedAt (mcs_Observed desired))
        && sameResources (or_Capacity (mcs_Observed existing)) (or_Capacity (mcs_Observed desired))
        && sameResources (or_Usage (mcs_Observed existing)) (or_Usage (mcs_Observed desired))
        && sameResources (or_Requests (mcs_Observed existing)) (or_Requests (mcs_Observed desired))
        && sameList ResourceIDsEqual (mcs_ReadyResourceIDs existing) (mcs_ReadyResourceIDs desired)
        && sameList ResourceIDsEqual (mcs_NotReadyResourceIDs existing) (mcs_NotReadyResourceIDs desired)
        && bool_decide (ceil_LastReportedAt (mcs_ScaleCeiling existing) = ceil_LastReportedAt (mcs_ScaleCeiling desired))
        && sameResources (ceil_Capacity (mcs_ScaleCeiling existing)) (ceil_Capacity (mcs_ScaleCeiling desired))
        && sameList ResourceIDsEqual (mcs_PendingAssignedClusters existing) (mcs_PendingAssignedClusters desired)).

(** Reading the document, or creating it; [initial] is created, [again] is the second read. *)
Definition GetOrCreateManagementClusterScheduling (get : result getError (ManagementClusterScheduling Q))
    (create : result dbError (ManagementClusterScheduling Q)) (again : result getError (ManagementClusterScheduling Q)) :
    result string (ManagementClusterScheduling Q) :=
  match get with
  | Ok existing => Ok existing
  | Err (GetFailed e) => Err e
  | Err GetNotFound =>
      match create with
      | Ok existing => Ok existing
      | Err ConflictError =>
          match again with
          | Ok existing => Ok existing
          | Err GetNotFound => Err "not found"
          | Err (GetFailed e) => Err e
          end
      | Err _ => Err "create failed"
      end
  end.

(** ** What the management cluster reports *)

Record NodeSKUCapacity := { nsc_SKU : string; nsc_Ready : Z; nsc_Allocatable : ResourceList Q }.

Record CapacityReport := {
  rep_Conditions : list StatusCondition;
  rep_LastReportedAt : option Z;
  rep_Nodes : list NodeSKUCapacity;
  rep_Usage : ResourceList Q;
  rep_Requested : ResourceList Q;
  rep_ReadyResourceIDs : list string;
  rep_NotReadyResourceIDs : list string;
}.

Definition ConditionTypeReportCurrent : string := "ReportCurrent".

Definition filterSchedulingResources (source : ResourceList Q) : ResourceList Q :=
  fold_left (λ filtered name, match source !! name with Some quantity => <[name := quantity]> filtered | None => filtered end)
    schedulingResources ∅.

Definition addQuantity (list : ResourceList Q) (name : string) (quantity : Q) : ResourceList Q :=
  <[name := q_Add (default q_zero (list !! name)) quantity]> list.

Definition addNode (capacity : ResourceList Q) (node : NodeSKUCapacity) : ResourceList Q :=
  fold_left (λ capacity name, match nsc_Allocatable node !! name with Some quantity => addQuantity capacity name quantity | None => capacity end)
    schedulingResources capacity.

Definition ComputeObservedResources (report : CapacityReport) : ObservedResources Q := {|
  or_LastReportedAt := rep_LastReportedAt report;
  or_Capacity := fold_left addNode (rep_Nodes report) ∅;
  or_Usage := filterSchedulingResources (rep_Usage report);
  or_Requests := filterSchedulingResources (rep_Requested report);
|}.

(** [dropObservedPendingAssignments]: the reservations of clusters that are reported are
    no longer needed. *)
Definition dropObservedPendingAssignments (pending : list (option ResourceID)) (readyResourceIDs notReadyResourceIDs : list string) :
    list (option ResourceID) :=
  let observed := ToLower <$> (readyResourceIDs ++ notReadyResourceIDs)%list in
  List.filter (λ entry, match entry with
                        | None => false
                        | Some entry => negb (bool_decide (ToLower (rid_String entry) ∈ observed))
                        end) pending.

(** [ParseResourceID] is the parser of the Azure SDK. *)
Definition parseOne (ParseResourceID : string → option ResourceID) (state : list ResourceID * gset string) (id : string) :
    list ResourceID * gset string :=
  let '(parsed, seen) := state in
  if String.eqb id EmptyString then state
  else
    let canonical := ToLower id in
    if bool_decide (canonical ∈ seen) then state
    else match ParseResourceID canonical with
    | None => state
    | Some resourceID => ((parsed ++ [resourceID])%list, {[canonical]} ∪ seen)
    end.

Definition parseResourceIDs (ParseResourceID : string → option ResourceID) (ids : list string) : list (option ResourceID) :=
  Some <$> sort_by (λ a b, string_less (rid_String a) (rid_String b)) (fold_left (parseOne ParseResourceID) ids ([], ∅)).1.

Section persist.
Context `{ConditionOps}.

Definition evaluateCapacityCondition (report : CapacityReport) : StatusCondition :=
  if negb (IsStatusConditionTrue (rep_Conditions report) ConditionTypeReportCurrent) then
    {| sc_Type := ConditionTypeCapacityDataCurrent; sc_Status := ConditionFalse; sc_Reason := "ReportNotCurrent";
       sc_Message := "CapacityReport CR's ReportCurrent condition is not True"; sc_LastTransitionTime := 0 |}
  else
    {| sc_Type := ConditionTypeCapacityDataCurrent; sc_Status := ConditionTrue; sc_Reason := "DataCollected";
       sc_Message := EmptyString; sc_LastTransitionTime := 0 |}.

(** The document that a report asks for. *)
Definition observedDocument (ParseResourceID : string → option ResourceID) (clock : Z) (report : CapacityReport)
    (existing : ManagementClusterScheduling Q) : ManagementClusterScheduling Q := {|
  mcs_Etag := mcs_Etag existing;
  mcs_Conditions := SetStatusCondition clock (mcs_Conditions existing) (evaluateCapacityCondition report);
  mcs_Observed := ComputeObservedResources report;
  mcs_ReadyResourceIDs := parseResourceIDs ParseResourceID (rep_ReadyResourceIDs report);
  mcs_NotReadyResourceIDs := parseResourceIDs ParseResourceID (rep_NotReadyResourceIDs report);
  mcs_ScaleCeiling := mcs_ScaleCeiling existing;
  mcs_PendingAssignedClusters := dropObservedPendingAssignments (mcs_PendingAssignedClusters existing)
                                   (rep_ReadyResourceIDs report) (rep_NotReadyResourceIDs report);
|}.

(** The write that is attempted, and the error. *)
Definition replaceIfChanged (existing updated : ManagementClusterScheduling Q)
    (replace : ManagementClusterScheduling Q → option dbError) : option (ManagementClusterScheduling Q) * option string :=
  if negb (schedulingNeedsUpdate existing updated) then (None, None)
  else (Some updated, match replace updated with Some _ => Some "replace failed" | None => None end).

(** [report] is what the mirror has: nothing yet, or a report. *)
Definition capacityReporting_SyncOnce (ParseResourceID : string → option ResourceID) (clock : Z)
    (report : result getError (option CapacityReport)) (existing : result string (ManagementClusterScheduling Q))
    (replace : ManagementClusterScheduling Q → option dbError) : option (ManagementClusterScheduling Q) * option string :=
  match report with
  | Err GetNotFound | Ok None => (None, None)
  | Err (GetFailed e) => (None, Some e)
  | Ok (Some report) =>
      match existing with
      | Err e => (None, Some e)
      | Ok existing => replaceIfChanged existing (observedDocument ParseResourceID clock report existing) replace
      end
  end.

(** ** What the node pools can grow to *)

(** Go divides towards zero. *)
Definition divideQuantity (q : Q) (n : Z) : Q :=
  if n <=? 0 then q_NewQuantity 0 (q_Format q)
  else if String.eqb (q_Format q) BinarySI then
    let raw := Z.quot (q_Value q) n in
    let raw := Z.quot raw 1024 *! 1024 in
    q_NewQuantity raw BinarySI
  else q_NewMilliQuantity (Z.quot (q_MilliValue q) n) (q_Format q).

Definition addScaled (list : ResourceList Q) (name : string) (perNode : Q) (count : Z) : ResourceList Q :=
  addQuantity list name (if String.eqb (q_Format perNode) BinarySI
                   then q_NewQuantity (q_Value perNode *! count) (q_Format perNode)
                   else q_NewMilliQuantity (q_MilliValue perNode *! count) (q_Format perNode)).

(** [SKUMetadata.ResourceList]. *)
Definition skuResourceList (meta : SKUMetadata) : ResourceList Q :=
  let rl := if 0 <? sku_VCPUs meta then <[ResourceCPU := q_NewQuantity (sku_VCPUs meta) DecimalSI]> ∅ else ∅ in
  let rl := if 0 <? sku_MemoryBytes meta then <[ResourceMemory := q_NewQuantity (sku_MemoryBytes meta) BinarySI]> rl else rl in
  if 0 <? sku_SecondaryNICs meta then <[SwiftNICResourceName := q_NewQuantity (sku_SecondaryNICs meta) DecimalSI]> rl else rl.

(** What a node of a size offers: what ready nodes have, else what the size has, with the
    network interfaces the pool's tag asks for. *)
Definition perNodeAllocatable (vmSize : string) (nodesBySKU : gmap string NodeSKUCapacity) (skuMetadata : gmap string SKUMetadata)
    (tags : gmap string (option string)) : ResourceList Q :=
  let live := match nodesBySKU !! vmSize with
              | Some node =>
                  if 0 <? nsc_Ready node then
                    fold_left (λ rl name, match nsc_Allocatable node !! name with
                                          | Some quantity => <[name := divideQuantity quantity (nsc_Ready node)]> rl
                                          | None => rl
                                          end) schedulingResources ∅
                  else ∅
              | None => ∅
              end in
  if (0 <? size live)%nat then live
  else
    let result := match skuMetadata !! vmSize with
                  | Some meta =>
                      fold_left (λ rl name, if String.eqb name SwiftNICResourceName then rl
                                            else match skuResourceList meta !! name with
                                                 | Some quantity => <[name := quantity]> rl
                                                 | None => rl
                                                 end) schedulingResources ∅
                  | None => ∅
                  end in
    match SecondaryNICCount tags with
    | Some (Ok nics) => <[SwiftNICResourceName := q_NewQuantity nics DecimalSI]> result
    | _ => result
    end.

(** The body of the loop over the pools. *)
Definition addPool (nodesBySKU : gmap string NodeSKUCapacity) (skuMetadata : gmap string SKUMetadata) (max : ResourceList Q)
    (pool : AgentPool) : ResourceList Q :=
  match agentpool_Properties pool with
  | Some properties =>
      match ap_VMSize properties, ap_Count properties with
      | Some vmSize, Some _ =>
          if negb (IsWorkerPool pool) then max
          else fold_left (λ max '(name, quantity), addScaled max name quantity (PoolMaxCount pool))
                 (map_to_list (perNodeAllocatable vmSize nodesBySKU skuMetadata (ap_Tags properties))) max
      | _, _ => max
      end
  | None => max
  end.

Definition computeMaxCapacity (report : option CapacityReport) (pools : list AgentPool) (skuMetadata : gmap string SKUMetadata) : ResourceList Q :=
  let nodesBySKU := match report with
                    | Some report => fold_left (λ nodes node, <[nsc_SKU node := node]> nodes) (rep_Nodes report) ∅
                    | None => ∅
                    end in
  fold_left (addPool nodesBySKU skuMetadata) pools ∅.

Definition ceilingDocument (capacity : ResourceList Q) (now : Z) (at' : option Z) (existing : ManagementClusterScheduling Q) :
    ManagementClusterScheduling Q := {|
  mcs_Etag := mcs_Etag existing;
  mcs_Conditions := SetStatusCondition now (mcs_Conditions existing)
    {| sc_Type := ConditionTypeScalingDataCurrent; sc_Status := ConditionTrue; sc_Reason := "DataCollected"; sc_Message := EmptyString;
       sc_LastTransitionTime := now |};
  mcs_Observed := mcs_Observed existing;
  mcs_ReadyResourceIDs := mcs_ReadyResourceIDs existing;
  mcs_NotReadyResourceIDs := mcs_NotReadyResourceIDs existing;
  mcs_ScaleCeiling := {| ceil_LastReportedAt := at'; ceil_Capacity := capacity |};
  mcs_PendingAssignedClusters := mcs_PendingAssignedClusters existing;
|}.

(** The time of the last publication changes only with what is published. *)
Definition persistMaxCapacity (capacity : ResourceList Q) (now : Z) (existing : ManagementClusterScheduling Q)
    (replace : ManagementClusterScheduling Q → option dbError) : option (ManagementClusterScheduling Q) * option string :=
  let reportedAt := ceil_LastReportedAt (mcs_ScaleCeiling existing) in
  if bool_decide (is_Some reportedAt) && negb (schedulingNeedsUpdate existing (ceilingDocument capacity now reportedAt existing))
  then (None, None)
  else
    let updated := ceilingDocument capacity now (Some now) existing in
    (Some updated, match replace updated with Some _ => Some "replace failed" | None => None end).

(** [aks] is the ID of the managed cluster, if the management cluster has one yet. *)
Definition scaleCeiling_SyncOnce (now : Z) (aks : result string (option ResourceID)) (report : result getError (option CapacityReport))
    (pools : result string (list AgentPool)) (skuMetadata : result string (gmap string SKUMetadata))
    (existing : result string (ManagementClusterScheduling Q)) (replace : ManagementClusterScheduling Q → option dbError) :
    option (ManagementClusterScheduling Q) * option string :=
  match aks with
  | Err e => (None, Some e)
  | Ok None => (None, None)
  | Ok (Some _) =>
      match report with
      | Err GetNotFound => (None, None)
      | Err (GetFailed e) => (None, Some e)
      | Ok report =>
          match pools, skuMetadata with
          | Err e, _ => (None, Some e)
          | Ok _, Err e => (None, Some e)
          | Ok pools, Ok skuMetadata =>
              match existing with
              | Err e => (None, Some e)
              | Ok existing => persistMaxCapacity (computeMaxCapacity report pools skuMetadata) now existing replace
              end
          end
      end
  end.
End persist.
End documents.
Arguments NodeSKUCapacity Q : clear implicits.
Arguments CapacityReport Q : clear implicits.
