(* ===== verification/Placement.v ===== *)
(** * Placement of clusters

    [backend/pkg/controllers/cluster/placement]: the controller that chooses the management
    cluster for a new cluster and reserves its network interfaces there, the one that
    removes reservations nobody needs any more, and the one that records where Cluster
    Service put a cluster. *)
From Stdlib Require Import SpecFloat.
From S2P Require Import Prelude GoStrings GoDuration GoFloat RolloutTypes RolloutStatus StatusConditions ExternalAuthStatus ClusterOperations.
From S2P Require Import OperationState OperationStore OperationUpdate ClusterAdmission Scheduling.

Local Open Scope string_scope.
Local Open Scope Z_scope.
Local Open Scope go_scope.

(** ** Documents *)

(** What is used of a cluster. *)
Record PlacedCluster := {
  pcl_VnetIntegrationSubnetID : option ResourceID;
  pcl_ControlPlaneAvailability : string;
  pcl_DeletionTimestamp : option Z;
  pcl_ProvisioningState : string;
  pcl_ClusterServiceID : option string;
}.

(** The service provider's document: where the cluster should be, where it is, and what is
    known of the capacity; the rest stays as it is. *)
Record PlacedServiceProvider (R : Type) := {
  psp_SpecManagementClusterResourceID : option ResourceID;
  psp_StatusManagementClusterResourceID : option ResourceID;
  psp_PlacementConditions : option (list StatusCondition);
  psp_rest : R;
}.
Arguments psp_SpecManagementClusterResourceID {R}.
Arguments psp_StatusManagementClusterResourceID {R}.
Arguments psp_PlacementConditions {R}.
Arguments psp_rest {R}.

Record ManagementCluster := {
  mc_ResourceID : option ResourceID;
  mc_SchedulingPolicy : string;
  mc_Conditions : list StatusCondition;
}.

Definition ManagementClusterSchedulingPolicySchedulable : string := "Schedulable".
Definition ManagementClusterSchedulingPolicyUnschedulable : string := "Unschedulable".
Definition ManagementClusterConditionReady : string := "Ready".
Definition CapacityReasonAvailable : string := "Available".
Definition CapacityReasonInsufficientCapacity : string := "InsufficientCapacity".
Definition CapacityReasonNoEligibleManagementCluster : string := "NoEligibleManagementCluster".
Definition CapacityReasonEvaluationIncomplete : string := "EvaluationIncomplete".

(** ** Network interfaces of a cluster *)

Definition swiftNICsPerHCP : Z := 3.
Definition singleReplicaSwiftNICsPerHCP : Z := 1.
Definition placementRetryInterval : Z := 29 * 1000000000.

Definition swiftNICsForCluster (cluster : option PlacedCluster) : Z :=
  match cluster with
  | None => swiftNICsPerHCP
  | Some cluster =>
      if negb (bool_decide (is_Some (pcl_VnetIntegrationSubnetID cluster))) then 0
      else if String.eqb (pcl_ControlPlaneAvailability cluster) SingleReplicaControlPlane then singleReplicaSwiftNICsPerHCP
      else swiftNICsPerHCP
  end.

(** [clusters] is what the cache of clusters answers for an ID; an error is no answer. *)
Definition swiftNICsForResourceID (clusters : ResourceID → option PlacedCluster) (clusterResourceID : option ResourceID) : Z :=
  match clusterResourceID with
  | None => swiftNICsPerHCP
  | Some id => match clusters id with Some cluster => swiftNICsForCluster (Some cluster) | None => swiftNICsPerHCP end
  end.

Definition swiftNICReservation (clusters : ResourceID → option PlacedCluster) (resourceIDs : list (option ResourceID)) : Z :=
  sum64 ((λ id, swiftNICsForResourceID clusters (Some id)) <$> omap id resourceIDs).

Definition stampIdentifierFromResourceID (resourceID : option ResourceID) : string :=
  match resourceID ≫= rid_Parent with Some parent => parent_Name parent | None => EmptyString end.

(** [GetStampIdentifier] of a management cluster. *)
Definition mcStampIdentifier (managementCluster : ManagementCluster) : string :=
  stampIdentifierFromResourceID (mc_ResourceID managementCluster).

Definition IsStatusConditionFalse `{ConditionOps} (conditions : list StatusCondition) (t : string) : bool :=
  hasStatus (FindStatusCondition conditions t) ConditionFalse.

(** ** Capacity *)

Section capacity.
Context {Q : Type} `{QuantityOps Q}.

(** The higher of usage and requests. *)
Definition consumedOf (usage requested : option Q) : option Q :=
  match usage, requested with
  | None, None => None
  | _, _ =>
      let consumed := default q_zero usage in
      let requested := default q_zero requested in
      Some (if 0 <? q_Cmp requested consumed then requested else consumed)
  end.

(** Every resource is reduced on its own, in any order. *)
Definition withoutConsumption (capacity usage requests : ResourceList Q) : ResourceList Q :=
  merge (M := gmap string) (λ quantity consumed, match consumed with
                              | None => quantity
                              | Some consumed => Some (q_Sub (default q_zero quantity) consumed)
                              end)
    capacity (merge (M := gmap string) consumedOf usage requests).

Definition availableResources (clusters : ResourceID → option PlacedCluster) (scheduling : option (ManagementClusterScheduling Q)) : ResourceList Q :=
  match scheduling with
  | None => ∅
  | Some scheduling =>
      let available := withoutConsumption (ceil_Capacity (mcs_ScaleCeiling scheduling)) (or_Usage (mcs_Observed scheduling))
                         (or_Requests (mcs_Observed scheduling)) in
      let reservation := swiftNICReservation clusters (mcs_NotReadyResourceIDs scheduling)
                         +! swiftNICReservation clusters (mcs_PendingAssignedClusters scheduling) in
      if negb (reservation =? 0) then
        <[SwiftNICResourceName := q_Sub (default q_zero (available !! SwiftNICResourceName)) (q_NewQuantity reservation DecimalSI)]> available
      else available
  end.

Definition swiftNICCount (resources : ResourceList Q) : Z :=
  match resources !! SwiftNICResourceName with Some quantity => q_Value quantity | None => 0 end.

(** ** Contention *)

Definition isNaN (f : spec_float) : bool := match f with S754_nan => true | _ => false end.
Definition isInf (f : spec_float) : bool := match f with S754_infinity _ => true | _ => false end.

(** [math.Max] for numbers that are neither. *)
Definition fmax (x y : spec_float) : spec_float :=
  if SFeqb x (S754_zero false) && SFeqb x y then match x with S754_zero true => y | _ => x end
  else if SFltb y x then x else y.

(** [Time.IsZero]: the first of January of the year one, in nanoseconds of Unix time. *)
Definition zeroTime : Z := -62135596800 * 1000000000.

(** One resource of the estimate; [None] is an unknown estimate. *)
Definition contentionOf (observed : ObservedResources Q) (score : spec_float) (name : string) : option spec_float :=
  match or_Capacity observed !! name, or_Requests observed !! name, or_Usage observed !! name with
  | Some capacity, Some requests, Some usage =>
      if (q_Sign capacity <=? 0) || (q_Sign requests <? 0) || (q_Sign usage <? 0) then None
      else
        let c := q_Float capacity in let r := q_Float requests in let u := q_Float usage in
        if existsb (λ value, isNaN value || isInf value) [c; r; u] then None
        else if SFleb c (S754_zero false) then None
        else
          let ratio := fdiv (fmax r u) c in
          if isNaN ratio || isInf ratio then None else Some (fmax score ratio)
  | _, _, _ => None
  end.

Definition resourceContention (scheduling : option (ManagementClusterScheduling Q)) (now : Z) : option spec_float :=
  observed ← mcs_Observed <$> scheduling;
  reportedAt ← or_LastReportedAt observed;
  if (reportedAt =? zeroTime) || (now <? reportedAt) || (5 * Minute <? now - reportedAt) then None
  else
    score ← contentionOf observed (S754_zero false) ResourceCPU;
    contentionOf observed score ResourceMemory.

(** ** Evaluation *)

Inductive eligibility : Type := eligible | ineligible | unknownEligibility.

#[export] Instance eligibility_eq_dec : EqDecision eligibility.
Proof. solve_decision. Defined.

Record managementClusterEvaluation := {
  ev_resourceID : ResourceID;
  ev_eligibility : eligibility;
  ev_reason : string;
  ev_availableResources : ResourceList Q;
  ev_contention : option spec_float;
  ev_pendingAssignments : Z;
  ev_scheduling : option (ManagementClusterScheduling Q);
}.

Context `{ConditionOps}.

(** Policy and readiness count before the observations. *)
Definition eligibilityOf (managementCluster : ManagementCluster) (scheduling : option (ManagementClusterScheduling Q)) : eligibility * string :=
  let policy := mc_SchedulingPolicy managementCluster in
  if String.eqb policy ManagementClusterSchedulingPolicyUnschedulable then (ineligible, "management cluster is not schedulable")
  else if negb (String.eqb policy ManagementClusterSchedulingPolicySchedulable) then
    (unknownEligibility, "unknown scheduling policy " +:+ Quote policy)
  else if IsStatusConditionFalse (mc_Conditions managementCluster) ManagementClusterConditionReady then
    (ineligible, "management cluster is not Ready")
  else if negb (IsStatusConditionTrue (mc_Conditions managementCluster) ManagementClusterConditionReady) then
    (unknownEligibility, "management cluster readiness is unknown")
  else match scheduling with
  | None => (unknownEligibility, "no scheduling/capacity data available")
  | Some scheduling =>
      if negb (IsStatusConditionTrue (mcs_Conditions scheduling) ConditionTypeCapacityDataCurrent)
         || negb (IsStatusConditionTrue (mcs_Conditions scheduling) ConditionTypeScalingDataCurrent)
      then (unknownEligibility, "scheduling/capacity data is not current")
      else (eligible, EmptyString)
  end.

(** How many different clusters are pending. *)
Definition pendingAssignments (scheduling : ManagementClusterScheduling Q) : Z :=
  Z.of_nat (size (list_to_set ((λ id, ToLower (rid_String id)) <$> omap id (mcs_PendingAssignedClusters scheduling)) : gset string)).

Definition evaluateManagementCluster (clusters : ResourceID → option PlacedCluster) (now : Z) (resourceID : ResourceID)
    (managementCluster : ManagementCluster) (scheduling : option (ManagementClusterScheduling Q)) : managementClusterEvaluation :=
  let '(eligibility, reason) := eligibilityOf managementCluster scheduling in {|
    ev_resourceID := resourceID; ev_eligibility := eligibility; ev_reason := reason;
    ev_availableResources := availableResources clusters scheduling;
    ev_contention := resourceContention scheduling now;
    ev_pendingAssignments := from_option pendingAssignments 0 scheduling;
    ev_scheduling := scheduling |}.

(** [schedulings] is what the cache answers for a stamp. *)
Fixpoint evaluateManagementClusters (clusters : ResourceID → option PlacedCluster) (now : Z)
    (schedulings : string → result getError (ManagementClusterScheduling Q)) (managementClusters : list (option ManagementCluster)) :
    result string (list managementClusterEvaluation) :=
  match managementClusters with
  | [] => Ok []
  | managementCluster :: rest =>
      match managementCluster, managementCluster ≫= mc_ResourceID with
      | Some managementCluster, Some resourceID =>
          let stampIdentifier := mcStampIdentifier managementCluster in
          let* scheduling :=
            (if negb (String.eqb stampIdentifier EmptyString) then
               match schedulings stampIdentifier with
               | Err GetNotFound => Ok None
               | Err (GetFailed e) => Err e
               | Ok scheduling => Ok (Some scheduling)
               end
             else Ok None) in
          let* evaluations := evaluateManagementClusters clusters now schedulings rest in
          Ok (evaluateManagementCluster clusters now resourceID managementCluster scheduling :: evaluations)
      | _, _ => evaluateManagementClusters clusters now schedulings rest
      end
  end.
End capacity.
Arguments managementClusterEvaluation Q : clear implicits.

(** ** Selection *)

Section selection.
Context {Q : Type} `{QuantityOps Q}.

Definition idOf (evaluation : managementClusterEvaluation Q) : string := rid_String (ev_resourceID evaluation).
Definition availableNICs (evaluation : managementClusterEvaluation Q) : Z := swiftNICCount (ev_availableResources evaluation).

(** The preference by contention, where it is known of one of the two. *)
Definition betterByContention (evaluation chosen : managementClusterEvaluation Q) : bool :=
  match ev_contention evaluation, ev_contention chosen with
  | None, _ => false
  | Some _, None => true
  | Some c, Some c' =>
      if negb (SFeqb c c') then SFltb c c'
      else if negb (ev_pendingAssignments evaluation =? ev_pendingAssignments chosen)
           then ev_pendingAssignments evaluation <? ev_pendingAssignments chosen
           else string_less (idOf evaluation) (idOf chosen)
  end.

Definition better (requiredSwiftNICs : Z) (evaluation chosen : managementClusterEvaluation Q) : bool :=
  if (requiredSwiftNICs =? 0) && bool_decide (is_Some (ev_contention evaluation) ∨ is_Some (ev_contention chosen))
  then betterByContention evaluation chosen
  else (availableNICs chosen <? availableNICs evaluation)
       || ((availableNICs evaluation =? availableNICs chosen) && string_less (idOf evaluation) (idOf chosen)).

(** The body of the loop. *)
Definition selectStep (requiredSwiftNICs : Z) (chosen : option (managementClusterEvaluation Q))
    (evaluation : managementClusterEvaluation Q) : option (managementClusterEvaluation Q) :=
  if negb (bool_decide (ev_eligibility evaluation = eligible)) then chosen
  else if availableNICs evaluation <? requiredSwiftNICs then chosen
  else match chosen with
  | None => Some evaluation
  | Some c => if better requiredSwiftNICs evaluation c then Some evaluation else chosen
  end.

(** Why an evaluation was no fit. *)
Definition eliminationOf (requiredSwiftNICs : Z) (evaluation : managementClusterEvaluation Q) : string :=
  match ev_eligibility evaluation with
  | eligible => idOf evaluation +:+ ": insufficient swift-NIC capacity (available " +:+ Itoa (availableNICs evaluation)
                +:+ ", need " +:+ Itoa requiredSwiftNICs +:+ ")"
  | _ => idOf evaluation +:+ ": " +:+ ev_reason evaluation
  end.

Definition noPlacementCondition (evaluations : list (managementClusterEvaluation Q)) (requiredSwiftNICs : Z) : StatusCondition :=
  let count e := length (List.filter (λ evaluation, bool_decide (ev_eligibility evaluation = e)) evaluations) in
  let '(status, reason, message) :=
    if (0 <? count unknownEligibility)%nat then
      (ConditionUnknown, CapacityReasonEvaluationIncomplete, "capacity availability could not be established")
    else if (0 <? count eligible)%nat then
      (ConditionFalse, CapacityReasonInsufficientCapacity,
       "no eligible management cluster with at least " +:+ Itoa requiredSwiftNICs +:+ " available swift NICs among "
       +:+ Itoa (Z.of_nat (length evaluations)) +:+ " management cluster(s)")
    else (ConditionFalse, CapacityReasonNoEligibleManagementCluster, "no management cluster is currently eligible") in
  let eliminated := eliminationOf requiredSwiftNICs <$> evaluations in
  {| sc_Type := CapacityAvailableConditionType; sc_Status := status; sc_Reason := reason;
     sc_Message := if (0 <? length eliminated)%nat then message +:+ ": " +:+ Join " ; " eliminated else message;
     sc_LastTransitionTime := 0 |}.

Definition selectByCapacity (evaluations : list (managementClusterEvaluation Q)) (requiredSwiftNICs : Z) :
    option ResourceID * option (ManagementClusterScheduling Q) * StatusCondition :=
  match fold_left (selectStep requiredSwiftNICs) evaluations None with
  | None => (None, None, noPlacementCondition evaluations requiredSwiftNICs)
  | Some chosen =>
      (Some (ev_resourceID chosen), ev_scheduling chosen,
       {| sc_Type := CapacityAvailableConditionType; sc_Status := ConditionTrue; sc_Reason := CapacityReasonAvailable;
          sc_Message := "placed on " +:+ rid_Name (ev_resourceID chosen); sc_LastTransitionTime := 0 |})
  end.
End selection.

(** ** The controller *)

Section placement.
Context {Q R : Type} `{QuantityOps Q} `{ConditionOps}.

(** Both documents are there. *)
Definition placement_needsWork (serviceProvider : PlacedServiceProvider R) (cluster : PlacedCluster) : bool :=
  if bool_decide (is_Some (psp_SpecManagementClusterResourceID serviceProvider)) then false
  else negb (bool_decide (is_Some (pcl_DeletionTimestamp cluster))) && negb (IsTerminal (pcl_ProvisioningState cluster)).

Inductive placementError : Type :=
  | PlacementCacheFailed (e : string)
  | ReservationFailed (e : dbError)
  | PlacementWriteFailed (e : dbError)
  | NoSchedulingDocument.

(** What a pass attempts to write: the scheduling document of a stamp, then the service
    provider's document; whether it asks to be called again, and its error. *)
Record placementOutcome := {
  po_reserved : option (string * ManagementClusterScheduling Q);
  po_recorded : option (PlacedServiceProvider R);
  po_retry : bool;
  po_error : option placementError;
}.

Definition placementFailed (e : placementError) : placementOutcome :=
  {| po_reserved := None; po_recorded := None; po_retry := false; po_error := Some e |}.
Definition placementNothing : placementOutcome :=
  {| po_reserved := None; po_recorded := None; po_retry := false; po_error := None |}.

(** The reservation, if it is not there yet. *)
Definition reservation (scheduling : ManagementClusterScheduling Q) (managementClusterResourceID clusterResourceID : ResourceID) :
    option (string * ManagementClusterScheduling Q) :=
  if existsb (λ pending, ResourceIDsEqual pending (Some clusterResourceID)) (mcs_PendingAssignedClusters scheduling) then None
  else Some (stampIdentifierFromResourceID (Some managementClusterResourceID),
             withPending (mcs_PendingAssignedClusters scheduling ++ [Some clusterResourceID])%list scheduling).

Definition withPlacement (clock : Z) (chosen : option ResourceID) (condition : StatusCondition) (serviceProvider : PlacedServiceProvider R) :
    PlacedServiceProvider R := {|
  psp_SpecManagementClusterResourceID :=
    match chosen with Some id => Some id | None => psp_SpecManagementClusterResourceID serviceProvider end;
  psp_StatusManagementClusterResourceID := psp_StatusManagementClusterResourceID serviceProvider;
  psp_PlacementConditions := Some (SetStatusCondition clock (default [] (psp_PlacementConditions serviceProvider)) condition);
  psp_rest := psp_rest serviceProvider |}.

Definition placementNeedsUpdate (existing desired : PlacedServiceProvider R) : bool :=
  negb (ResourceIDsEqual (psp_SpecManagementClusterResourceID existing) (psp_SpecManagementClusterResourceID desired)
        && bool_decide (psp_PlacementConditions existing = psp_PlacementConditions desired)).

(** The write of a decision and its error. *)
Definition recordPlacementDecision (clock : Z) (serviceProvider : PlacedServiceProvider R) (chosen : option ResourceID)
    (condition : StatusCondition) (replace : PlacedServiceProvider R → option dbError) :
    option (PlacedServiceProvider R) * option placementError :=
  let updated := withPlacement clock chosen condition serviceProvider in
  if negb (placementNeedsUpdate serviceProvider updated) then (None, None)
  else (Some updated, PlacementWriteFailed <$> replace updated).

(** The answers of the caches, and of the database to the two writes. *)
Record placementReads := {
  plr_serviceProvider : result getError (PlacedServiceProvider R);
  plr_clusters : ResourceID → option PlacedCluster;
  plr_cluster : result getError PlacedCluster;
  plr_managementClusters : result string (list (option ManagementCluster));
  plr_schedulings : string → result getError (ManagementClusterScheduling Q);
  plr_reserve : string → ManagementClusterScheduling Q → option dbError;
  plr_record : PlacedServiceProvider R → option dbError;
}.

(** The part after the guard: [clusterResourceID] is the ID of the key. *)
Definition placeCluster (now : Z) (clusterResourceID : ResourceID) (serviceProvider : PlacedServiceProvider R) (cluster : PlacedCluster)
    (reads : placementReads) : placementOutcome :=
  match (let* managementClusters := plr_managementClusters reads in
         evaluateManagementClusters (plr_clusters reads) now (plr_schedulings reads) managementClusters) with
  | Err e => placementFailed (PlacementCacheFailed e)
  | Ok evaluations =>
      match selectByCapacity evaluations (swiftNICsForCluster (Some cluster)) with
      | (None, _, condition) =>
          let '(recorded, failure) := recordPlacementDecision now serviceProvider None condition (plr_record reads) in
          {| po_reserved := None; po_recorded := recorded; po_retry := negb (bool_decide (is_Some failure)); po_error := failure |}
      | (Some _, None, _) => placementFailed NoSchedulingDocument
      | (Some chosen, Some scheduling, condition) =>
          let reserved := reservation scheduling chosen clusterResourceID in
          match reserved ≫= uncurry (plr_reserve reads) with
          | Some e => {| po_reserved := reserved; po_recorded := None; po_retry := false; po_error := Some (ReservationFailed e) |}
          | None =>
              let '(recorded, failure) := recordPlacementDecision now serviceProvider (Some chosen) condition (plr_record reads) in
              {| po_reserved := reserved; po_recorded := recorded; po_retry := false; po_error := failure |}
          end
      end
  end.

Definition placement_SyncOnce (now : Z) (clusterResourceID : ResourceID) (reads : placementReads) : placementOutcome :=
  match plr_serviceProvider reads with
  | Err GetNotFound => placementNothing
  | Err (GetFailed e) => placementFailed (PlacementCacheFailed e)
  | Ok serviceProvider =>
      match plr_cluster reads with
      | Err GetNotFound => placementNothing
      | Err (GetFailed e) => placementFailed (PlacementCacheFailed e)
      | Ok cluster =>
          if negb (placement_needsWork serviceProvider cluster) then placementNothing
          else placeCluster now clusterResourceID serviceProvider cluster reads
      end
  end.

(** ** Stale reservations *)

Section cleanup.
(** What the caches answer about the cluster of a reservation. *)
Context (serviceProviders : ResourceID → result getError (PlacedServiceProvider R)) (clusters : ResourceID → result getError PlacedCluster).

Definition effectivePlacement (serviceProvider : PlacedServiceProvider R) : option ResourceID :=
  match psp_StatusManagementClusterResourceID serviceProvider with
  | Some id => Some id
  | None => psp_SpecManagementClusterResourceID serviceProvider
  end.

Definition shouldKeepPending (pending : option ResourceID) (managementClusterResourceID : ResourceID) : result string bool :=
  match pending with
  | None => Ok false
  | Some pending =>
      match serviceProviders pending with
      | Err GetNotFound => Ok false
      | Err (GetFailed e) => Err e
      | Ok serviceProvider =>
          match effectivePlacement serviceProvider with
          | None =>
              match clusters pending with
              | Err GetNotFound => Ok true
              | Err (GetFailed e) => Err e
              | Ok cluster => Ok (negb (bool_decide (is_Some (pcl_DeletionTimestamp cluster))) && negb (IsTerminal (pcl_ProvisioningState cluster)))
              end
          | Some placement => Ok (ResourceIDsEqual (Some placement) (Some managementClusterResourceID))
          end
      end
  end.

Fixpoint keptPending (pending : list (option ResourceID)) (managementClusterResourceID : ResourceID) : result string (list (option ResourceID)) :=
  match pending with
  | [] => Ok []
  | entry :: rest =>
      let* keep := shouldKeepPending entry managementClusterResourceID in
      let* kept := keptPending rest managementClusterResourceID in
      Ok (if keep then entry :: kept else kept)
  end.

(** The document that is written, if any, and the error. *)
Definition pendingCleanup_SyncOnce (managementClusterResourceID : ResourceID) (existing : result getError (ManagementClusterScheduling Q))
    (replace : ManagementClusterScheduling Q → option dbError) : option (ManagementClusterScheduling Q) * option string :=
  match existing with
  | Err GetNotFound => (None, None)
  | Err (GetFailed e) => (None, Some e)
  | Ok existing =>
      if negb (0 <? length (mcs_PendingAssignedClusters existing))%nat then (None, None)
      else match keptPending (mcs_PendingAssignedClusters existing) managementClusterResourceID with
      | Err e => (None, Some e)
      | Ok kept => replaceIfChanged existing (withPending kept existing) replace
      end
  end.
End cleanup.

(** ** Where Cluster Service put a cluster *)

Inductive placementSyncError : Type :=
  | SyncCacheFailed (e : string)
  | SyncReadFailed (e : string)
  | ProvisionShardFailed (e : string)
  | InvalidProvisionShard (href : string)
  | UnknownProvisionShard (e : string)
  | SyncReplaceFailed (e : dbError).

(** [shard] is the path of the provision shard, [NewInternalID] and [managementClusterOf]
    find the management cluster of one. *)
Definition managementClusterPlacement_SyncOnce (cached : result getError (PlacedServiceProvider R)) (cluster : result getError PlacedCluster)
    (existing : result getError (PlacedServiceProvider R)) (shard : result string string) (NewInternalID : string → option string)
    (managementClusterOf : string → result string ManagementCluster) (replace : PlacedServiceProvider R → option dbError) :
    option (PlacedServiceProvider R) * option placementSyncError :=
  let needsWork (spc : PlacedServiceProvider R) := negb (bool_decide (is_Some (psp_StatusManagementClusterResourceID spc))) in
  match cached with
  | Err GetNotFound => (None, None)
  | Err (GetFailed e) => (None, Some (SyncCacheFailed e))
  | Ok cached =>
      if negb (needsWork cached) then (None, None)
      else match cluster with
      | Err GetNotFound => (None, None)
      | Err (GetFailed e) => (None, Some (SyncCacheFailed e))
      | Ok cluster =>
          if String.eqb (default EmptyString (pcl_ClusterServiceID cluster)) EmptyString then (None, None)
          else match existing with
          | Err GetNotFound => (None, None)
          | Err (GetFailed e) => (None, Some (SyncReadFailed e))
          | Ok existing =>
              if negb (needsWork existing) then (None, None)
              else match shard with
              | Err e => (None, Some (ProvisionShardFailed e))
              | Ok href =>
                  if String.eqb href EmptyString then (None, None)
                  else match NewInternalID href with
                  | None => (None, Some (InvalidProvisionShard href))
                  | Some id =>
                      match managementClusterOf id with
                      | Err e => (None, Some (UnknownProvisionShard e))
                      | Ok managementCluster =>
                          let replacement := {|
                            psp_SpecManagementClusterResourceID := psp_SpecManagementClusterResourceID existing;
                            psp_StatusManagementClusterResourceID := mc_ResourceID managementCluster;
                            psp_PlacementConditions := psp_PlacementConditions existing; psp_rest := psp_rest existing |} in
                          (Some replacement, SyncReplaceFailed <$> replace replacement)
                      end
                  end
              end
          end
      end
  end.
End placement.
Arguments placementOutcome Q R : clear implicits.
Arguments placementReads Q R : clear implicits.
