(* ===== verification/PlacementSafety.v ===== *)
(** * Placement: what it guarantees

    The choice is the best one, whatever the order in which the management clusters are
    listed; reservations are neither lost nor more than there is room for; the cleanup
    keeps those that are needed; and what an interrupted placement leads to. *)
From Stdlib Require Import SpecFloat.
From S2P Require Import Prelude GoStrings GoDuration GoFloat RolloutTypes RolloutStatus StatusConditions ExternalAuthStatus ClusterOperations StatusAggregators.
From S2P Require Import OperationState OperationStore OperationUpdate ClusterAdmission Scheduling Placement.

Local Open Scope string_scope.
Local Open Scope Z_scope.
Local Open Scope go_scope.

#[local] Arguments swiftNICsForCluster : simpl never.

(** ** Lexicographic preferences *)

(** Less, or equal and [P]. *)
Definition zlex (x y : Z) (P : Prop) : Prop := x < y ∨ x = y ∧ P.

Lemma zlex_trans x y z P P' P'' : (P → P' → P'') → zlex x y P → zlex y z P' → zlex x z P''.
Proof. unfold zlex. intros. intuition lia. Qed.

Lemma zlex_total x y P P' : P ∨ P' → zlex x y P ∨ zlex y x P'.
Proof. unfold zlex. intros. destruct (Z.lt_trichotomy x y) as [?|[?|?]]; [tauto| |lia]. subst. tauto. Qed.

Lemma zlex_asym x y P P' : (P → P' → False) → zlex x y P → zlex y x P' → False.
Proof. unfold zlex. intros. intuition lia. Qed.

(** Where a number that is one stands among the others. *)
Definition frank (f : spec_float) : Z * Z * Z :=
  match f with
  | S754_zero _ | S754_nan => (0, 0, 0)
  | S754_infinity s => (if s then -2 else 2, 0, 0)
  | S754_finite true m e => (-1, - e, Z.neg m)
  | S754_finite false m e => (1, e, Z.pos m)
  end.

Definition flex (f g : spec_float) (P : Prop) : Prop :=
  zlex (frank f).1.1 (frank g).1.1 (zlex (frank f).1.2 (frank g).1.2 (zlex (frank f).2 (frank g).2 P)).

Lemma SFcompare_rank f g : isNaN f = false → isNaN g = false →
  (SFltb f g = true ↔ flex f g False) ∧ (SFeqb f g = true ↔ frank f = frank g).
Proof.
  unfold SFltb, SFeqb, flex, zlex. intros Hf Hg.
  destruct f as [s|s| |s m e], g as [t|t| |t n k]; try discriminate; simpl; destruct s; try destruct t; simpl.
  all: try (split; split; intros; simplify_eq; try done; intuition lia).
  all: destruct (Z.compare_spec e k) as [ ->|?|?]; simpl; try (split; split; intros; simplify_eq; try done; intuition lia).
  all: change (Pcompare m n Eq) with (Pos.compare m n); destruct (Pos.compare_spec m n) as [ ->|?|?]; simpl.
  all: split; split; intros; simplify_eq; try done; intuition lia.
Qed.

Lemma SF_lex f g P : isNaN f = false → isNaN g = false →
  (SFltb f g = true ∨ SFeqb f g = true ∧ P) ↔ flex f g P.
Proof.
  intros Hf Hg. destruct (SFcompare_rank f g Hf Hg) as [-> ->]. unfold flex, zlex.
  destruct (frank f) as [[a b] c], (frank g) as [[a' b'] c']. simpl. split.
  - intros [H|[[= -> -> ->] HP]]; [intuition lia|tauto].
  - intros [?|[-> [?|[-> [?|[-> ?]]]]]]; [left; lia..|]; tauto || (left; tauto).
Qed.

(** ** The choice *)

Section choice.
Context {Q : Type} `{QuantityOps Q}.

Definition fits (requiredSwiftNICs : Z) (evaluation : managementClusterEvaluation Q) : Prop :=
  ev_eligibility evaluation = eligible ∧ requiredSwiftNICs <= availableNICs evaluation.

(** What the comment of [selectByCapacity] promises: for a cluster without interfaces and
    where an estimate is known, known before unknown, then the lower contention, the fewer
    pending assignments, the lower ID; otherwise the more interfaces, then the lower ID. *)
Definition preferredTo (requiredSwiftNICs : Z) (a b : managementClusterEvaluation Q) : Prop :=
  let lowerID := string_less (idOf a) (idOf b) = true in
  let byNICs := zlex (availableNICs b) (availableNICs a) lowerID in
  if requiredSwiftNICs =? 0 then
    match ev_contention a, ev_contention b with
    | None, None => byNICs
    | None, Some _ => False
    | Some _, None => True
    | Some c, Some c' => flex c c' (zlex (ev_pendingAssignments a) (ev_pendingAssignments b) lowerID)
    end
  else byNICs.

(** An estimate is a number. *)
Definition estimated (evaluation : managementClusterEvaluation Q) : Prop :=
  ∀ c, ev_contention evaluation = Some c → isNaN c = false.

Lemma byNICs_spec (a b : managementClusterEvaluation Q) :
  (availableNICs b <? availableNICs a) || ((availableNICs a =? availableNICs b) && string_less (idOf a) (idOf b)) = true
  ↔ zlex (availableNICs b) (availableNICs a) (string_less (idOf a) (idOf b) = true).
Proof. unfold zlex. rewrite orb_true_iff, andb_true_iff, Z.ltb_lt, Z.eqb_eq. intuition lia. Qed.

Lemma better_spec required a b : estimated a → estimated b → better required a b = true ↔ preferredTo required a b.
Proof.
  intros Ha Hb. unfold better, preferredTo, betterByContention. cbv zeta.
  destruct (required =? 0); simpl; [|apply byNICs_spec].
  destruct (ev_contention a) as [c|] eqn:Ec, (ev_contention b) as [c'|] eqn:Ec'; simpl.
  2-4: done || apply byNICs_spec.
  rewrite <- SF_lex by eauto. destruct (SFcompare_rank c c') as [Hlt Heq]; [by eauto..|].
  assert (SFltb c c' = true → SFeqb c c' = false).
  { intros E%Hlt. apply not_true_iff_false. intros E'%Heq. unfold flex, zlex in E. rewrite E' in E. lia. }
  destruct (SFeqb c c') eqn:Ee; simpl; [|naive_solver].
  unfold zlex. destruct (Z.eqb_spec (ev_pendingAssignments a) (ev_pendingAssignments b)); simpl; [|rewrite Z.ltb_lt]; split.
  all: destruct (SFltb c c') eqn:El; [naive_solver|]; intuition (congruence || lia).
Qed.

Lemma preferredTo_trans required a b c : preferredTo required a b → preferredTo required b c → preferredTo required a c.
Proof.
  unfold preferredTo. cbv zeta.
  assert (Hid := string_less_trans (idOf a) (idOf b) (idOf c)).
  assert (Hnic : ∀ P P' P'' : Prop, (P → P' → P'') → zlex (availableNICs b) (availableNICs a) P → zlex (availableNICs c) (availableNICs b) P' →
    zlex (availableNICs c) (availableNICs a) P'') by (unfold zlex; intros; intuition lia).
  destruct (required =? 0); [|by apply Hnic].
  destruct (ev_contention a), (ev_contention b), (ev_contention c); [|done|by intros ? []|done|by intros []|by intros []|by intros ? []|by apply Hnic].
  unfold flex. repeat apply zlex_trans. exact Hid.
Qed.

Lemma preferredTo_total required a b : idOf a ≠ idOf b → preferredTo required a b ∨ preferredTo required b a.
Proof.
  intros Hne. unfold preferredTo. cbv zeta. pose proof (string_less_total _ _ Hne) as Hid.
  assert (Hnic : zlex (availableNICs b) (availableNICs a) (string_less (idOf a) (idOf b) = true) ∨
    zlex (availableNICs a) (availableNICs b) (string_less (idOf b) (idOf a) = true)).
  { destruct (zlex_total (availableNICs b) (availableNICs a) _ _ Hid); tauto. }
  destruct (required =? 0); [|exact Hnic].
  destruct (ev_contention a), (ev_contention b); [|by left|by right|exact Hnic]. unfold flex. by repeat apply zlex_total.
Qed.

Lemma preferredTo_asym required a b : preferredTo required a b → preferredTo required b a → False.
Proof.
  unfold preferredTo. cbv zeta.
  assert (Hid : string_less (idOf a) (idOf b) = true → string_less (idOf b) (idOf a) = true → False)
    by (intros E%string_less_asym; congruence).
  destruct (required =? 0); [|by apply zlex_asym; auto].
  destruct (ev_contention a), (ev_contention b); [|by intros _ []|by intros []|by apply zlex_asym; auto].
  unfold flex. repeat apply zlex_asym. exact Hid.
Qed.

Lemma NoDup_fmap_inj {A B} (f : A → B) l x y : NoDup (f <$> l) → x ∈ l → y ∈ l → f x = f y → x = y.
Proof.
  induction l as [|z l IH]; [by intros _ ?%not_elem_of_nil|]. intros [Hz Hnd]%NoDup_cons [ ->|Hx]%elem_of_cons [ ->|Hy]%elem_of_cons E; auto.
  - destruct Hz. rewrite E. by apply list_elem_of_fmap_2.
  - destruct Hz. rewrite <- E. by apply list_elem_of_fmap_2.
Qed.

(** What the scan chooses is one that fits. *)
Lemma selected_fits required evaluations chosen :
  fold_left (selectStep required) evaluations None = Some chosen → chosen ∈ evaluations ∧ fits required chosen.
Proof.
  revert chosen. induction evaluations as [|e l IH] using rev_ind; [done|]. intros chosen. rewrite fold_left_app. simpl. unfold selectStep at 1.
  assert (Hl : ∀ c, fold_left (selectStep required) l None = Some c → c ∈ (l ++ [e])%list ∧ fits required c)
    by (intros c Hc; destruct (IH c Hc); split; [set_solver|done]).
  case_bool_decide as Hel; simpl; [|apply Hl]. destruct (Z.ltb_spec (availableNICs e) required); [apply Hl|].
  assert (He : e ∈ (l ++ [e])%list ∧ fits required e) by (split; [set_solver|done]).
  destruct (fold_left _ l None) as [c|]; [destruct (better required e c)|]; intros [= <-]; auto.
Qed.

(** The scan keeps the best so far. *)
Lemma select_best required evaluations : Forall estimated evaluations → NoDup (idOf <$> evaluations) →
  match fold_left (selectStep required) evaluations None with
  | None => ∀ e, e ∈ evaluations → ¬ fits required e
  | Some chosen => chosen ∈ evaluations ∧ fits required chosen ∧
      ∀ e, e ∈ evaluations → fits required e → e ≠ chosen → preferredTo required chosen e
  end.
Proof.
  induction evaluations as [|e l IH] using rev_ind; [intros _ _ e He; by apply not_elem_of_nil in He|].
  rewrite Forall_app, fmap_app, NoDup_app, fold_left_app. simpl.
  intros [Hl [He _]%Forall_cons] (Hnd & Hnew & _). specialize (IH Hl Hnd).
  assert (Hids : ∀ x, x ∈ l → idOf x ≠ idOf e).
  { intros x Hx E. apply (Hnew (idOf x)); [by apply list_elem_of_fmap_2|]. rewrite E. by apply list_elem_of_singleton. }
  unfold selectStep at 1. rewrite Forall_forall in Hl.
  case_bool_decide as Hel; simpl; [destruct (Z.ltb_spec (availableNICs e) required) as [Hlow|Hlow]|].
  1,3: assert (Hno : ¬ fits required e) by (unfold fits; intuition lia);
    destruct (fold_left _ l None) as [chosen|]; [destruct IH as (? & ? & IH); split_and!; [set_solver|done|]|];
    intros x [Hx| ->%list_elem_of_singleton]%elem_of_app; naive_solver.
  assert (Hfit : fits required e) by done.
  destruct (fold_left _ l None) as [chosen|].
  - destruct IH as (Hin & Hf & IH). pose proof (better_spec required e chosen He (Hl _ Hin)) as Hb.
    destruct (better required e chosen).
    + split_and!; [set_solver|done|]. intros x [Hx| ->%list_elem_of_singleton]%elem_of_app Hfx Hne; [|done].
      destruct (decide (idOf x = idOf chosen)) as [E|E].
      * rewrite (NoDup_fmap_inj idOf l x chosen Hnd Hx Hin E). by apply Hb.
      * eapply preferredTo_trans; [by apply Hb|]. apply IH; [done..|]. by intros ->.
    + split_and!; [set_solver|done|]. intros x [Hx| ->%list_elem_of_singleton]%elem_of_app Hfx Hne; [by apply IH|].
      destruct (preferredTo_total required chosen e) as [?|Hp]; [by apply Hids|done|]. apply Hb in Hp. done.
  - split_and!; [set_solver|done|]. intros x [Hx| ->%list_elem_of_singleton]%elem_of_app Hfx Hne; [|done]. by destruct (IH x Hx).
Qed.

Lemma fmax_number x y : isNaN x = false → isNaN y = false → isNaN (fmax x y) = false.
Proof. unfold fmax. intros Hx Hy. destruct (_ && _); [by destruct x as [[]| | |]|]. by destruct (SFltb y x). Qed.

Lemma contentionOf_number observed score name c : isNaN score = false → contentionOf (Q := Q) observed score name = Some c → isNaN c = false.
Proof.
  intros Hs. unfold contentionOf.
  destruct (or_Capacity observed !! name), (or_Requests observed !! name), (or_Usage observed !! name); try done.
  destruct (_ || _ || _); [done|]. cbv zeta. destruct (existsb _ _); [done|]. destruct (SFleb _ _); [done|].
  destruct (isNaN (fdiv _ _)) eqn:En; [done|]. simpl. destruct (isInf _); [done|]. intros [= <-]. by apply fmax_number.
Qed.

Lemma resourceContention_number scheduling now c : resourceContention (Q := Q) scheduling now = Some c → isNaN c = false.
Proof.
  unfold resourceContention. destruct scheduling as [d|]; simpl; [|done].
  destruct (or_LastReportedAt (mcs_Observed d)); simpl; [|done]. destruct (_ || _ || _); [done|].
  destruct (contentionOf (mcs_Observed d) (S754_zero false) ResourceCPU) as [score|] eqn:Ec; simpl; [|done].
  apply contentionOf_number. by apply (contentionOf_number (mcs_Observed d) (S754_zero false) ResourceCPU score).
Qed.

Context `{ConditionOps}.

(** An evaluation is about a management cluster of the list, and the document of its stamp. *)
Lemma evaluate_elem clusters now schedulings managementClusters evaluations e :
  evaluateManagementClusters (Q := Q) clusters now schedulings managementClusters = Ok evaluations → e ∈ evaluations →
  ∃ managementCluster scheduling id, Some managementCluster ∈ managementClusters ∧ mc_ResourceID managementCluster = Some id ∧
    (∀ d, scheduling = Some d → schedulings (stampIdentifierFromResourceID (Some id)) = Ok d) ∧
    e = evaluateManagementCluster clusters now id managementCluster scheduling.
Proof.
  revert evaluations. induction managementClusters as [|x l IH]; simpl; intros evaluations; [by intros [= <-] He%not_elem_of_nil|].
  assert (Hlater : ∀ rest, evaluateManagementClusters clusters now schedulings l = Ok rest → e ∈ rest →
    ∃ mc scheduling id, Some mc ∈ x :: l ∧ mc_ResourceID mc = Some id ∧
      (∀ d, scheduling = Some d → schedulings (stampIdentifierFromResourceID (Some id)) = Ok d) ∧
      e = evaluateManagementCluster clusters now id mc scheduling).
  { intros rest Hev Hin. destruct (IH rest Hev Hin) as (mc & scheduling & id & ? & ?). exists mc, scheduling, id. split; [by right|done]. }
  destruct x as [mc|]; [|apply Hlater]. simpl. destruct (mc_ResourceID mc) as [id|] eqn:Eid; [|apply Hlater].
  assert (Hst : mcStampIdentifier mc = stampIdentifierFromResourceID (Some id)) by (unfold mcStampIdentifier; by rewrite Eid).
  destruct (if negb _ then _ else _) as [scheduling|] eqn:Es; simpl; [|done].
  destruct (evaluateManagementClusters clusters now schedulings l) as [rest|]; simpl; [|done].
  intros [= <-] [ ->|Hin]%elem_of_cons; [|by apply (Hlater rest)].
  exists mc, scheduling, id. split_and!; [by left|done| |done]. intros d ->. rewrite Hst in Es.
  destruct (negb _); [|done]. destruct (schedulings _) as [?|[]]; [by simplify_eq|done..].
Qed.

Lemma evaluate_facts clusters now id managementCluster scheduling :
  let e := evaluateManagementCluster (Q := Q) clusters now id managementCluster scheduling in
  ev_resourceID e = id ∧ ev_scheduling e = scheduling ∧ ev_availableResources e = availableResources clusters scheduling ∧
  estimated e ∧ (ev_eligibility e = eligible → is_Some scheduling).
Proof.
  unfold evaluateManagementCluster. destruct (eligibilityOf managementCluster scheduling) as [el reason] eqn:Ee. simpl.
  split_and!; try done.
  - intros c. simpl. apply resourceContention_number.
  - intros ->. revert Ee. unfold eligibilityOf. cbv zeta.
    destruct (String.eqb _ _); [done|]. destruct (negb (String.eqb _ _)); [done|]. destruct (IsStatusConditionFalse _ _); [done|].
    destruct (negb (IsStatusConditionTrue _ ManagementClusterConditionReady)); [done|]. by destruct scheduling.
Qed.

(** The answer when nothing fits. *)
Definition capacityUnknown (evaluations : list (managementClusterEvaluation Q)) : Prop :=
  ∃ e, e ∈ evaluations ∧ ev_eligibility e = unknownEligibility.

Lemma count_pos (f : managementClusterEvaluation Q → bool) l : (0 <? length (List.filter f l))%nat = true ↔ ∃ e, e ∈ l ∧ f e = true.
Proof.
  rewrite Nat.ltb_lt. split.
  - destruct (List.filter f l) as [|e k] eqn:E; simpl; [lia|]. intros _. exists e. rewrite list_elem_of_In, <- filter_In, E. by left.
  - intros (e & He%list_elem_of_In & Hf). assert (Hin : In e (List.filter f l)) by (by apply filter_In).
    destruct (List.filter f l); [done|simpl; lia].
Qed.

Lemma noPlacementCondition_spec evaluations required :
  let condition := noPlacementCondition (Q := Q) evaluations required in
  sc_Type condition = CapacityAvailableConditionType ∧
  (sc_Status condition = ConditionUnknown ↔ capacityUnknown evaluations) ∧
  (sc_Status condition = ConditionFalse ↔ ¬ capacityUnknown evaluations).
Proof.
  cbv zeta. unfold noPlacementCondition, capacityUnknown. cbv zeta.
  assert (Hu := count_pos (λ e, bool_decide (ev_eligibility e = unknownEligibility)) evaluations).
  setoid_rewrite bool_decide_eq_true in Hu.
  destruct (0 <? length (List.filter (λ e, bool_decide (ev_eligibility e = unknownEligibility)) evaluations))%nat;
    [|destruct (0 <? length (List.filter (λ e, bool_decide (ev_eligibility e = eligible)) evaluations))%nat]; simpl.
  all: split; [done|]; rewrite <- Hu; by split.
Qed.

(** (C9) The placement chooses the best of the management clusters that fit, where one does, and
    the snapshot it evaluated; it tells unknown capacity from missing capacity; and the
    order in which the management clusters are listed does not matter. *)
Theorem placement_choice clusters now schedulings managementClusters evaluations required :
  evaluateManagementClusters clusters now schedulings managementClusters = Ok evaluations →
  NoDup (idOf <$> evaluations) →
  match selectByCapacity evaluations required with
  | (Some id, Some d, condition) =>
      sc_Status condition = ConditionTrue ∧ schedulings (stampIdentifierFromResourceID (Some id)) = Ok d ∧
      ∃ chosen, chosen ∈ evaluations ∧ ev_resourceID chosen = id ∧ fits required chosen ∧
        availableNICs chosen = swiftNICCount (availableResources clusters (Some d)) ∧
        ∀ e, e ∈ evaluations → fits required e → e ≠ chosen → preferredTo required chosen e
  | (None, None, condition) =>
      (∀ e, e ∈ evaluations → ¬ fits required e) ∧
      (sc_Status condition = ConditionUnknown ↔ capacityUnknown evaluations) ∧
      (sc_Status condition = ConditionFalse ↔ ¬ capacityUnknown evaluations)
  | _ => False
  end ∧
  ∀ listed, listed ≡ₚ evaluations → (selectByCapacity listed required).1 = (selectByCapacity evaluations required).1.
Proof.
  intros Hev Hnd.
  assert (Hest : Forall estimated evaluations).
  { apply Forall_forall. intros e He. destruct (evaluate_elem _ _ _ _ _ _ Hev He) as (? & ? & ? & _ & _ & _ & ->). apply evaluate_facts. }
  split.
  - pose proof (select_best required evaluations Hest Hnd) as Hb. unfold selectByCapacity.
    destruct (fold_left _ evaluations None) as [chosen|]; [|split; [done|]; apply noPlacementCondition_spec].
    destruct Hb as (Hin & Hfit & Hbest). destruct (evaluate_elem _ _ _ _ _ _ Hev Hin) as (mc & scheduling & id & _ & _ & Hs & E).
    destruct (evaluate_facts clusters now id mc scheduling) as (Hid & Hsch & Hav & _ & Hel). rewrite <- E in Hid, Hsch, Hav, Hel.
    destruct Hel as [d ->]; [apply Hfit|]. rewrite Hsch. split_and!; [done|rewrite Hid; auto|].
    exists chosen. split_and!; try done. unfold availableNICs. by rewrite Hav.
  - intros listed Hp. unfold selectByCapacity.
    assert (Hb := select_best required evaluations Hest Hnd).
    assert (Hb' : NoDup (idOf <$> listed)) by (by rewrite Hp). apply (select_best required) in Hb'; [|by rewrite Hp].
    assert (Hsame : ∀ e, e ∈ listed ↔ e ∈ evaluations) by (intros; by rewrite Hp).
    destruct (fold_left _ listed None) as [c|], (fold_left _ evaluations None) as [c'|]; simpl.
    + destruct Hb as (Hin & Hf & Hb), Hb' as (Hin' & Hf' & Hb'). rewrite Hsame in Hin'.
      destruct (decide (idOf c = idOf c')) as [E|E]; [by rewrite (NoDup_fmap_inj idOf evaluations c c' Hnd Hin' Hin E)|].
      exfalso. apply (preferredTo_asym required c c'); [apply Hb'; [by apply Hsame|done|]|apply Hb; [done..|]]; by intros ->.
    + destruct Hb' as (Hin%Hsame & Hf & _). by destruct (Hb c).
    + destruct Hb as (Hin & Hf & _). apply Hsame in Hin. by destruct (Hb' c').
    + done.
Qed.
End choice.

(** ** Reservations *)

Section reservations.
Context {Q R : Type} `{QuantityLaws Q} `{ConditionOps}.
Context (clusters : ResourceID → option PlacedCluster).

Definition nicsOf (id : ResourceID) : Z := swiftNICsForResourceID clusters (Some id).

(** The interfaces that are there and not in use, before any reservation, and those that
    are reserved. *)
Definition nicBase (d : ManagementClusterScheduling Q) : Q :=
  default q_zero (withoutConsumption (ceil_Capacity (mcs_ScaleCeiling d)) (or_Usage (mcs_Observed d)) (or_Requests (mcs_Observed d))
                  !! SwiftNICResourceName).
Definition nicSupply (d : ManagementClusterScheduling Q) : Z := q_Value (nicBase d).
Definition nicReserved (d : ManagementClusterScheduling Q) : Z :=
  Zsum (nicsOf <$> omap id (mcs_NotReadyResourceIDs d)) + Zsum (nicsOf <$> omap id (mcs_PendingAssignedClusters d)).

(** Interfaces are counted, there are not too many of them, and enough. *)
Record sound (d : ManagementClusterScheduling Q) : Prop := {
  sound_whole : q_whole (nicBase d);
  sound_bound : nicSupply d < 2 ^ 62;
  sound_booked : nicReserved d <= nicSupply d;
}.

Lemma nicsOf_bounds id : 0 <= nicsOf id <= 3.
Proof.
  unfold nicsOf, swiftNICsForResourceID, swiftNICsForCluster. destruct (clusters id) as [c|]; [|by vm_compute].
  destruct (negb _); [by vm_compute|]. by destruct (String.eqb _ _); vm_compute.
Qed.

Lemma nics_nonneg ids : 0 <= Zsum (nicsOf <$> ids).
Proof. apply Zsum_map_nonneg. intros x _. apply nicsOf_bounds. Qed.

Lemma availableNICs_exact d : q_whole (nicBase d) → - 2 ^ 62 <= nicSupply d < 2 ^ 62 → nicReserved d < 2 ^ 62 →
  swiftNICCount (availableResources clusters (Some d)) = nicSupply d - nicReserved d.
Proof.
  intros Hw Hs Hr. unfold availableResources, swiftNICCount, swiftNICReservation. cbv zeta.
  fold nicsOf. unfold nicReserved in *.
  pose proof (nics_nonneg (omap id (mcs_NotReadyResourceIDs d))) as Hn. pose proof (nics_nonneg (omap id (mcs_PendingAssignedClusters d))) as Hp.
  rewrite !sum64_exact by (unfold in64; lia). rewrite wrap64_id by (unfold in64; lia).
  unfold nicSupply, nicBase in *. destruct (Z.eqb_spec (Zsum (nicsOf <$> omap id (mcs_NotReadyResourceIDs d)) + Zsum (nicsOf <$> omap id (mcs_PendingAssignedClusters d))) 0) as [E|E]; simpl.
  - destruct (withoutConsumption _ _ _ !! SwiftNICResourceName); simpl in *; [lia|]. rewrite q_Value_zero in *. lia.
  - rewrite lookup_insert_eq. apply q_Value_Sub; [done|lia|lia].
Qed.

Lemma sound_supply d : sound d → 0 <= nicReserved d ∧ 0 <= nicSupply d.
Proof.
  intros [_ _ Hb]. unfold nicReserved in *.
  pose proof (nics_nonneg (omap id (mcs_NotReadyResourceIDs d))). pose proof (nics_nonneg (omap id (mcs_PendingAssignedClusters d))). lia.
Qed.

Lemma sound_available d : sound d → swiftNICCount (availableResources clusters (Some d)) = nicSupply d - nicReserved d.
Proof. intros Hd. pose proof (sound_supply d Hd). destruct Hd. apply availableNICs_exact; [done|lia|lia]. Qed.

(** Interfaces are counted, and there are not too many of them to count; what is reserved
    may be more than there are. *)
Record countable (d : ManagementClusterScheduling Q) : Prop := {
  countable_whole : q_whole (nicBase d);
  countable_supply : - 2 ^ 62 <= nicSupply d < 2 ^ 62;
  countable_reserved : nicReserved d < 2 ^ 62;
}.

(** There are interfaces for all reservations. *)
Definition room (d : ManagementClusterScheduling Q) : Prop := nicReserved d <= nicSupply d.

Lemma countable_available d : countable d → swiftNICCount (availableResources clusters (Some d)) = nicSupply d - nicReserved d.
Proof. intros []. by apply availableNICs_exact. Qed.

Lemma nicReserved_add d cluster :
  nicReserved (withPending (mcs_PendingAssignedClusters d ++ [Some cluster]) d) = nicReserved d + nicsOf cluster.
Proof.
  unfold nicReserved. simpl. rewrite omap_app, fmap_app, Zsum_app.
  assert (Zsum (nicsOf <$> omap id [Some cluster]) = nicsOf cluster) as -> by (unfold Zsum; simpl; lia). lia.
Qed.

Lemma reserve_room d cluster : countable d → nicsOf cluster <= swiftNICCount (availableResources clusters (Some d)) →
  let d' := withPending (mcs_PendingAssignedClusters d ++ [Some cluster]) d in countable d' ∧ room d'.
Proof.
  intros Hd. rewrite (countable_available d Hd). destruct Hd as [Hw Hb Hr]. intros Hn. cbv zeta.
  assert (Hroom : room (withPending (mcs_PendingAssignedClusters d ++ [Some cluster]) d)).
  { unfold room. rewrite nicReserved_add. change (nicSupply (withPending _ d)) with (nicSupply d). lia. }
  split; [|exact Hroom]. unfold room in Hroom. split; [done|done|].
  change (nicSupply (withPending _ d)) with (nicSupply d) in Hroom. lia.
Qed.

Lemma reserve_sound d cluster : sound d → nicsOf cluster <= swiftNICCount (availableResources clusters (Some d)) →
  sound (withPending (mcs_PendingAssignedClusters d ++ [Some cluster]) d).
Proof.
  intros Hd. rewrite (sound_available d Hd). destruct Hd as [Hw Hb Hs]. intros Hn.
  split; [done|done|]. unfold nicReserved, nicSupply, nicBase in *. simpl in *. rewrite omap_app, fmap_app, Zsum_app.
  assert (Zsum (nicsOf <$> omap id [Some cluster]) = nicsOf cluster) as -> by (unfold Zsum; simpl; lia). lia.
Qed.

Lemma reserved_filter keep l : Zsum (nicsOf <$> omap id (List.filter keep l)) <= Zsum (nicsOf <$> omap id l).
Proof.
  unfold Zsum, fmap, omap. induction l as [|x l IH]; simpl; [lia|].
  destruct (keep x), x as [i|]; simpl; try lia; pose proof (nicsOf_bounds i); lia.
Qed.

Lemma release_reserved keep d :
  nicReserved (withPending (List.filter keep (mcs_PendingAssignedClusters d)) d) <= nicReserved d.
Proof. unfold nicReserved. simpl. pose proof (reserved_filter keep (mcs_PendingAssignedClusters d)). lia. Qed.

Lemma release_room keep d : countable d →
  let d' := withPending (List.filter keep (mcs_PendingAssignedClusters d)) d in countable d' ∧ (room d → room d').
Proof.
  intros [Hw Hb Hr]. pose proof (release_reserved keep d). cbv zeta. split; [split; [done|done|lia]|].
  unfold room. change (nicSupply (withPending _ d)) with (nicSupply d). lia.
Qed.

(** *** The documents and those who write them *)

(** All versions of the document of each stamp, the latest first. *)
Local Notation schedulingWorld := (gmap string (list (ManagementClusterScheduling Q))) (only parsing).
Definition versions (w : schedulingWorld) (stamp : string) : list (ManagementClusterScheduling Q) := default [] (w !! stamp).
Definition current (w : schedulingWorld) (stamp : string) : option (ManagementClusterScheduling Q) := head (versions w stamp).

(** The database accepts a document whose etag is still the one it has. *)
Definition etagCheck (w : schedulingWorld) (stamp : string) (d : ManagementClusterScheduling Q) : option dbError :=
  match current w stamp with
  | None => Some NotFoundError
  | Some stored => if mcs_Etag stored =? mcs_Etag d then None else Some PreconditionFailed
  end.

Definition commit (w : schedulingWorld) (stamp : string) (d : ManagementClusterScheduling Q) (etag : Z) : schedulingWorld :=
  <[stamp := withSchedulingEtag etag d :: versions w stamp]> w.

Inductive reservationEvent : Type :=
  | Accepted (stamp : string) (cluster : ResourceID)
  | Removed (stamp : string) (keep : option ResourceID → bool)
  | Reported (stamp : string) (keep : option ResourceID → bool) (d : ManagementClusterScheduling Q).

(** What an event does to the reservations of a stamp. *)
Definition replay (stamp : string) (pending : list (option ResourceID)) (event : reservationEvent) : list (option ResourceID) :=
  match event with
  | Accepted s cluster => if String.eqb s stamp then (pending ++ [Some cluster])%list else pending
  | Removed s keep | Reported s keep _ => if String.eqb s stamp then List.filter keep pending else pending
  end.

(** Whether there is room at a stamp after an event: an accepted reservation leaves room by
    itself, a removal takes none, and a report may show less than is reserved. *)
Definition leftRoom (stamp : string) (before : Prop) (event : reservationEvent) : Prop :=
  match event with
  | Accepted s _ => if String.eqb s stamp then True else before
  | Removed _ _ => before
  | Reported s _ d => if String.eqb s stamp then room d else before
  end.

Definition keeps (serviceProviders : ResourceID → result getError (PlacedServiceProvider R)) (cached : ResourceID → result getError PlacedCluster)
    (managementCluster : ResourceID) (pending : option ResourceID) : bool :=
  match shouldKeepPending serviceProviders cached pending managementCluster with Ok keep => keep | Err _ => false end.

Definition unobserved (report : CapacityReport Q) (pending : option ResourceID) : bool :=
  match pending with
  | None => false
  | Some id => negb (bool_decide (ToLower (rid_String id) ∈ (ToLower <$> (rep_ReadyResourceIDs report ++ rep_NotReadyResourceIDs report)%list)))
  end.

(** An accepted write.  Everybody reads from a cache, which may be any version behind; the
    placement and its reservations read one cache of clusters.  What the controllers of the
    capacity report can be counted, and may be less than is reserved. *)
Inductive reservationStep (w : schedulingWorld) : reservationEvent → schedulingWorld → Prop :=
  | step_placed now cluster (reads : placementReads Q R) stamp d etag :
      plr_clusters reads = clusters → (∀ c, plr_cluster reads = Ok c → clusters cluster = Some c) →
      (∀ s doc, plr_schedulings reads s = Ok doc → doc ∈ versions w s) → plr_reserve reads = etagCheck w →
      po_reserved (placement_SyncOnce now cluster reads) = Some (stamp, d) → etagCheck w stamp d = None →
      etag ∉ mcs_Etag <$> versions w stamp →
      reservationStep w (Accepted stamp cluster) (commit w stamp d etag)
  | step_cleaned serviceProviders cached managementCluster existing stamp d etag :
      existing ∈ versions w stamp →
      (pendingCleanup_SyncOnce serviceProviders cached managementCluster (Ok existing) (etagCheck w stamp)).1 = Some d →
      etagCheck w stamp d = None → etag ∉ mcs_Etag <$> versions w stamp →
      reservationStep w (Removed stamp (keeps serviceProviders cached managementCluster)) (commit w stamp d etag)
  | step_observed ParseResourceID clock report existing stamp d etag :
      existing ∈ versions w stamp →
      (capacityReporting_SyncOnce ParseResourceID clock (Ok (Some report)) (Ok existing) (etagCheck w stamp)).1 = Some d →
      etagCheck w stamp d = None → etag ∉ mcs_Etag <$> versions w stamp → countable d →
      reservationStep w (Reported stamp (unobserved report) d) (commit w stamp d etag)
  | step_ceiling capacity now existing stamp d etag :
      existing ∈ versions w stamp →
      (persistMaxCapacity capacity now existing (etagCheck w stamp)).1 = Some d →
      etagCheck w stamp d = None → etag ∉ mcs_Etag <$> versions w stamp → countable d →
      reservationStep w (Reported stamp (λ _, true) d) (commit w stamp d etag).

Inductive reservationRun (w : schedulingWorld) : list reservationEvent → schedulingWorld → Prop :=
  | run_start : reservationRun w [] w
  | run_step events w' event w'' : reservationRun w events w' → reservationStep w' event w'' → reservationRun w (events ++ [event]) w''.

(** The interfaces of every version can be counted, and it has an etag of its own. *)
Definition reservationInv (w : schedulingWorld) : Prop :=
  ∀ stamp, Forall countable (versions w stamp) ∧ NoDup (mcs_Etag <$> versions w stamp).

Lemma etagCheck_current w stamp existing d : reservationInv w → existing ∈ versions w stamp → mcs_Etag d = mcs_Etag existing →
  etagCheck w stamp d = None → current w stamp = Some existing.
Proof.
  intros Hinv Hin He. unfold etagCheck, current. destruct (Hinv stamp) as [_ Hnd].
  destruct (versions w stamp) as [|stored l] eqn:Ev; [done|]. simpl. destruct (Z.eqb_spec (mcs_Etag stored) (mcs_Etag d)) as [E|]; [|done].
  intros _. f_equal. apply (NoDup_fmap_inj mcs_Etag (stored :: l)); [done|by left|done|congruence].
Qed.

Lemma versions_commit w stamp d etag s :
  versions (commit w stamp d etag) s = if String.eqb stamp s then withSchedulingEtag etag d :: versions w s else versions w s.
Proof.
  unfold versions, commit. destruct (String.eqb_spec stamp s) as [ ->|Hne]; [by rewrite lookup_insert_eq|by rewrite lookup_insert_ne].
Qed.

Lemma sound_etag etag d : sound d → sound (withSchedulingEtag etag d).
Proof. intros []. by split. Qed.

Lemma countable_etag etag d : countable d → countable (withSchedulingEtag etag d).
Proof. intros []. by split. Qed.

Lemma commit_inv w stamp d etag : reservationInv w → countable d → etag ∉ mcs_Etag <$> versions w stamp → reservationInv (commit w stamp d etag).
Proof.
  intros Hinv Hd He s. rewrite versions_commit. destruct (Hinv s) as [Hs Hnd].
  destruct (String.eqb_spec stamp s) as [ ->|]; [|done]. split; [constructor; [by apply countable_etag|done]|]. simpl. by constructor.
Qed.

Lemma keptPending_filter serviceProviders cached managementCluster pending kept :
  keptPending (R := R) serviceProviders cached pending managementCluster = Ok kept →
  kept = List.filter (keeps serviceProviders cached managementCluster) pending.
Proof.
  revert kept. induction pending as [|x l IH]; simpl; intros kept; [by intros [= <-]|]. unfold keeps at 1.
  destruct (shouldKeepPending _ _ x _) as [b|]; simpl; [|done].
  destruct (keptPending _ _ l _) as [k|]; simpl; [|done]. intros [= <-]. rewrite (IH k eq_refl). by destruct b.
Qed.

Lemma replaceIfChanged_written existing updated replace d :
  (replaceIfChanged (Q := Q) existing updated replace).1 = Some d → d = updated ∧ schedulingNeedsUpdate existing updated = true.
Proof. unfold replaceIfChanged. destruct (schedulingNeedsUpdate _ _); simpl; [by intros [= ->]|done]. Qed.

Lemma filter_true {A} (l : list A) : List.filter (λ _, true) l = l.
Proof. induction l; simpl; congruence. Qed.

(** What a pass of the placement reserves. *)
Lemma placement_reserves now cluster (reads : placementReads Q R) stamp d :
  po_reserved (placement_SyncOnce now cluster reads) = Some (stamp, d) →
  ∃ c existing managementClusters managementCluster, plr_cluster reads = Ok c ∧ plr_schedulings reads stamp = Ok existing ∧
    plr_managementClusters reads = Ok managementClusters ∧ Some managementCluster ∈ managementClusters ∧
    stamp = mcStampIdentifier managementCluster ∧ is_Some (mc_ResourceID managementCluster) ∧
    swiftNICsForCluster (Some c) <= swiftNICCount (availableResources (plr_clusters reads) (Some existing)) ∧
    d = withPending (mcs_PendingAssignedClusters existing ++ [Some cluster]) existing.
Proof.
  unfold placement_SyncOnce. destruct (plr_serviceProvider reads) as [serviceProvider|[]]; [|done..].
  destruct (plr_cluster reads) as [c|[]]; [|done..]. destruct (placement_needsWork serviceProvider c); [|done]. simpl.
  unfold placeCluster. destruct (plr_managementClusters reads) as [managementClusters|]; simpl; [|done].
  destruct (evaluateManagementClusters _ _ _ _) as [evaluations|] eqn:Ee; [|done].
  unfold selectByCapacity. destruct (fold_left (selectStep _) evaluations None) as [chosen|] eqn:Ef.
  2: { by destruct (recordPlacementDecision _ _ _ _ _). }
  apply selected_fits in Ef as [Hin Hfit]. destruct (evaluate_elem _ _ _ _ _ _ Ee Hin) as (mc & scheduling & id & Hmc & Hmcid & Hs & E).
  destruct (evaluate_facts (plr_clusters reads) now id mc scheduling) as (Hid & Hsch & Hav & _). rewrite <- E in Hid, Hsch, Hav.
  rewrite Hsch. destruct scheduling as [existing|]; [|done]. rewrite Hid. unfold reservation.
  destruct (existsb _ _); simpl.
  - by destruct (recordPlacementDecision _ _ _ _ _).
  - assert (Hgoal : swiftNICsForCluster (Some c) <= swiftNICCount (availableResources (plr_clusters reads) (Some existing))).
    { destruct Hfit as [_ Hfit]. unfold availableNICs in Hfit. by rewrite Hav in Hfit. }
    assert (Hok : plr_schedulings reads (stampIdentifierFromResourceID (Some id)) = Ok existing) by auto.
    destruct (plr_reserve reads _ _); [|destruct (recordPlacementDecision _ _ _ _ _)]; intros [= <- <-]; exists c, existing, managementClusters, mc; unfold mcStampIdentifier; rewrite Hmcid; by split_and!.
Qed.

Lemma step_current w event w' : reservationStep w event w' → ∀ stamp, current w stamp ≠ None → current w' stamp ≠ None.
Proof.
  intros Hstep stamp Hc. unfold current in *. destruct Hstep; rewrite versions_commit; by destruct (String.eqb _ _).
Qed.

Lemma leftRoom_mono stamp (P P' : Prop) event : (P → P') → leftRoom stamp P event → leftRoom stamp P' event.
Proof. intros HP. destruct event; simpl; try destruct (String.eqb _ _); auto. Qed.

Lemma step_inv w event w' : reservationInv w → reservationStep w event w' →
  reservationInv w' ∧ ∀ stamp d d', current w stamp = Some d → current w' stamp = Some d' →
    mcs_PendingAssignedClusters d' = replay stamp (mcs_PendingAssignedClusters d) event ∧
    (leftRoom stamp (room d) event → room d').
Proof.
  intros Hinv Hstep.
  assert (Hkey : ∃ stamp d etag existing, w' = commit w stamp d etag ∧
    current w stamp = Some existing ∧ countable d ∧ etag ∉ mcs_Etag <$> versions w stamp ∧
    mcs_PendingAssignedClusters d = replay stamp (mcs_PendingAssignedClusters existing) event ∧
    (leftRoom stamp (room existing) event → room d) ∧
    ∀ s, String.eqb stamp s = false → (∀ pending, replay s pending event = pending) ∧ ∀ P, leftRoom s P event = P).
  { destruct Hstep as [now cluster reads stamp d etag Hcl Hc Hsch Hres Hpo Hcheck Hfresh|serviceProviders cached mc existing stamp d etag Hin Hw Hcheck Hfresh
      |parse clock report existing stamp d etag Hin Hw Hcheck Hfresh Hs|capacity now existing stamp d etag Hin Hw Hcheck Hfresh Hs].
    - destruct (placement_reserves _ _ _ _ _ Hpo) as (c & existing & _ & _ & Hclus & Hex & _ & _ & _ & _ & Hfit & ->).
      apply Hsch in Hex. pose proof (etagCheck_current _ _ existing _ Hinv Hex eq_refl Hcheck) as Hcur.
      destruct (reserve_room existing cluster) as [Hcount Hroom].
      { destruct (Hinv stamp) as [Hs _]. rewrite Forall_forall in Hs. auto. }
      { rewrite Hcl in Hfit. unfold nicsOf, swiftNICsForResourceID. rewrite (Hc _ Hclus). exact Hfit. }
      eexists stamp, _, etag, existing. simpl. rewrite String.eqb_refl. split_and!; try done. by intros s ->.
    - exists stamp, d, etag, existing.
      simpl in Hw. destruct (negb _); [done|]. destruct (keptPending _ _ _ _) as [kept|] eqn:Ek; [|done].
      apply replaceIfChanged_written in Hw as [-> _]. apply keptPending_filter in Ek as ->.
      pose proof (etagCheck_current _ _ existing _ Hinv Hin eq_refl Hcheck) as Hcur.
      destruct (release_room (keeps serviceProviders cached mc) existing) as [Hcount Hroom].
      { destruct (Hinv stamp) as [Hs _]. rewrite Forall_forall in Hs. auto. }
      simpl. rewrite String.eqb_refl. split_and!; try done. by intros s ->.
    - exists stamp, d, etag, existing.
      simpl in Hw. apply replaceIfChanged_written in Hw as [-> _].
      pose proof (etagCheck_current _ _ existing _ Hinv Hin eq_refl Hcheck) as Hcur.
      simpl. rewrite String.eqb_refl. split_and!; try done. by intros s ->.
    - exists stamp, d, etag, existing.
      assert (Hd : mcs_Etag d = mcs_Etag existing ∧ mcs_PendingAssignedClusters d = mcs_PendingAssignedClusters existing).
      { revert Hw. unfold persistMaxCapacity. cbv zeta. destruct (_ && _); [done|]. by intros [= <-]. }
      pose proof (etagCheck_current _ _ existing _ Hinv Hin (proj1 Hd) Hcheck) as Hcur.
      simpl. rewrite String.eqb_refl, filter_true. destruct Hd. split_and!; try done. by intros s ->. }
  destruct Hkey as (stamp & d & etag & existing & -> & Hcur & Hs & Hfresh & Hp & Hroom & Hother). split; [by apply commit_inv|].
  intros s d0 d'. unfold current. rewrite versions_commit. destruct (String.eqb stamp s) eqn:Es; simpl.
  - apply String.eqb_eq in Es as <-. intros E [= <-]. unfold current in Hcur. simplify_eq. by split.
  - intros E E'. simplify_eq. destruct (Hother s Es) as [-> ->]. done.
Qed.

(** (C8) Whatever the placement, the cleanup and the capacity reports do (as long as the
    numbers of interfaces in a report can be counted in 62 bits), in any order and from
    caches that are behind: what is pending on a management cluster are exactly the
    reservations that were accepted and not removed since, none is lost.  An accepted
    reservation leaves room: all reservations together are covered by the interfaces that
    are there, from then on until a report shows fewer interfaces than are reserved; the
    availability that the placement computes is the difference, without overflow. *)
Theorem reservations_never_overbook w events w' : reservationInv w → reservationRun w events w' →
  ∀ stamp d d', current w stamp = Some d → current w' stamp = Some d' →
    mcs_PendingAssignedClusters d' = fold_left (replay stamp) events (mcs_PendingAssignedClusters d) ∧
    (fold_left (leftRoom stamp) events (room d) → nicReserved d' <= nicSupply d') ∧
    swiftNICCount (availableResources clusters (Some d')) = nicSupply d' - nicReserved d'.
Proof.
  intros Hinv Hrun.
  assert (Hall : reservationInv w' ∧ ∀ stamp d, current w stamp = Some d → ∃ d', current w' stamp = Some d' ∧
    mcs_PendingAssignedClusters d' = fold_left (replay stamp) events (mcs_PendingAssignedClusters d) ∧
    (fold_left (leftRoom stamp) events (room d) → room d')).
  { induction Hrun as [|events w' event w'' Hrun [IH1 IH2] Hstep]; [by eauto|].
    destruct (step_inv _ _ _ IH1 Hstep) as [Hinv'' Hpending]. split; [done|]. intros stamp d Hd.
    destruct (IH2 stamp d Hd) as (d' & Hd' & Ep & Hr). destruct (current w'' stamp) as [d''|] eqn:Ed''.
    - exists d''. split; [done|]. rewrite !fold_left_app. simpl. destruct (Hpending stamp d' d'' Hd' Ed'') as [-> Hr'].
      split; [by rewrite Ep|]. intros Hleft. apply Hr'. revert Hleft. by apply leftRoom_mono.
    - exfalso. by apply (step_current _ _ _ Hstep stamp) in Ed''; [|rewrite Hd']. }
  destruct Hall as [Hinv' Hpending]. intros stamp d d' Hd Hd'. destruct (Hpending stamp d Hd) as (d'' & E & Hp & Hr). simplify_eq.
  assert (Hs : countable d').
  { destruct (Hinv' stamp) as [Hs _]. unfold current in Hd'. rewrite Forall_forall in Hs. apply Hs. destruct (versions w' stamp); [done|].
    injection Hd' as ->. by left. }
  split_and!; [done|exact Hr|by apply countable_available].
Qed.

(** *** The cleanup *)

Lemma ResourceIDsEqual_refl a : ResourceIDsEqual a a = true.
Proof. destruct a; [|done]. by apply EqualFold_spec. Qed.

Lemma sameList_refl {A} (same : A → A → bool) l : (∀ a, same a a = true) → sameList same l l = true.
Proof.
  intros Hs. unfold sameList. rewrite Nat.eqb_refl. simpl. induction l as [|a l IH]; simpl; [done|]. by rewrite Hs.
Qed.

Lemma sameResources_refl (m : gmap string Q) : sameResources m m = true.
Proof.
  unfold sameResources. rewrite bool_decide_eq_true_2 by done. simpl. apply forallb_forall. intros [name q] Hin%list_elem_of_In%elem_of_map_to_list.
  rewrite Hin. by rewrite q_Cmp_refl.
Qed.

Lemma unchanged_pending d kept : schedulingNeedsUpdate d (withPending kept d) = negb (sameList ResourceIDsEqual (mcs_PendingAssignedClusters d) kept).
Proof.
  unfold schedulingNeedsUpdate. simpl. rewrite !bool_decide_eq_true_2 by done. rewrite !sameResources_refl.
  by rewrite !(sameList_refl _ _ ResourceIDsEqual_refl).
Qed.

Lemma filter_all {A} (f : A → bool) l : length l = length (List.filter f l) → ∀ x, x ∈ l → f x = true.
Proof.
  induction l as [|a l IH]; simpl; [by intros _ x ?%not_elem_of_nil|]. destruct (f a) eqn:E; simpl.
  - intros [= Hl] x [ ->|Hx]%elem_of_cons; auto.
  - pose proof (List.filter_length_le f l). lia.
Qed.

Lemma filter_keeps_all {A} (f : A → bool) l : (∀ x, x ∈ l → f x = true) → List.filter f l = l.
Proof.
  induction l as [|a l IH]; intros Hf; simpl; [done|]. rewrite (Hf a) by by left. f_equal. apply IH. intros x Hx. apply Hf. by right.
Qed.

Lemma keptPending_idem serviceProviders cached managementCluster pending kept :
  keptPending (R := R) serviceProviders cached pending managementCluster = Ok kept →
  keptPending serviceProviders cached kept managementCluster = Ok kept.
Proof.
  revert kept. induction pending as [|x l IH]; simpl; intros kept; [by intros [= <-]|].
  destruct (shouldKeepPending _ _ x _) as [b|] eqn:Eb; simpl; [|done]. destruct (keptPending _ _ l _) as [k|]; simpl; [|done].
  intros [= <-]. destruct b; [|by apply IH]. simpl. rewrite Eb. simpl. by rewrite (IH k).
Qed.

(** Whose reservation is still needed: that of a cluster that is placed here, or not placed
    yet and not known to be on its way out. *)
Definition needed (serviceProviders : ResourceID → result getError (PlacedServiceProvider R)) (cached : ResourceID → result getError PlacedCluster)
    (managementCluster : ResourceID) (pending : option ResourceID) : Prop :=
  ∃ cluster serviceProvider, pending = Some cluster ∧ serviceProviders cluster = Ok serviceProvider ∧
  match effectivePlacement serviceProvider with
  | Some placement => ToLower (rid_String placement) = ToLower (rid_String managementCluster)
  | None => cached cluster = Err GetNotFound ∨
            ∃ c, cached cluster = Ok c ∧ pcl_DeletionTimestamp c = None ∧ IsTerminal (pcl_ProvisioningState c) = false
  end.

Lemma keeps_needed serviceProviders cached managementCluster pending :
  keeps serviceProviders cached managementCluster pending = true ↔ needed serviceProviders cached managementCluster pending.
Proof.
  unfold keeps, needed, shouldKeepPending. destruct pending as [cluster|]; [|naive_solver].
  destruct (serviceProviders cluster) as [serviceProvider|[]] eqn:Es.
  2,3: split; [done|]; intros (x & y & Ex & Ey & _); injection Ex as <-; congruence.
  transitivity (match effectivePlacement serviceProvider with
    | Some placement => ToLower (rid_String placement) = ToLower (rid_String managementCluster)
    | None => cached cluster = Err GetNotFound ∨
              ∃ c, cached cluster = Ok c ∧ pcl_DeletionTimestamp c = None ∧ IsTerminal (pcl_ProvisioningState c) = false end).
  - destruct (effectivePlacement serviceProvider) as [placement|]; [simpl; apply EqualFold_spec|].
    destruct (cached cluster) as [c|[]]; [|naive_solver..].
    rewrite andb_true_iff, !negb_true_iff, bool_decide_eq_false, <- eq_None_not_Some. naive_solver.
  - split; [intros ?; by exists cluster, serviceProvider|]. intros (x & y & Ex & Ey & Hm). injection Ex as <-. rewrite Es in Ey. injection Ey as <-. exact Hm.
Qed.

(** (C11) A pass of the cleanup that ends well leaves exactly the reservations that are needed,
    changes nothing else, and the next pass with the same answers has nothing to do. *)
Theorem cleanup_leaves_needed serviceProviders cached managementCluster existing replace :
  let pass d := pendingCleanup_SyncOnce serviceProviders cached managementCluster (Ok d) replace in
  match pass existing with
  | (Some d, _) =>
      d = withPending (mcs_PendingAssignedClusters d) existing ∧
      (∀ pending, pending ∈ mcs_PendingAssignedClusters d ↔
        pending ∈ mcs_PendingAssignedClusters existing ∧ needed serviceProviders cached managementCluster pending) ∧
      (length (mcs_PendingAssignedClusters d) < length (mcs_PendingAssignedClusters existing))%nat ∧ pass d = (None, None)
  | (None, None) => Forall (needed serviceProviders cached managementCluster) (mcs_PendingAssignedClusters existing)
  | (None, Some e) => True
  end.
Proof.
  cbv zeta. unfold pendingCleanup_SyncOnce. destruct (Nat.ltb_spec 0 (length (mcs_PendingAssignedClusters existing))) as [Hlen|Hlen]; simpl.
  2: { by destruct (mcs_PendingAssignedClusters existing); simpl in *; [|lia]. }
  destruct (keptPending _ _ _ _) as [kept|] eqn:Ek; [|done]. pose proof (keptPending_filter _ _ _ _ _ Ek) as Hkept.
  unfold replaceIfChanged. rewrite unchanged_pending, negb_involutive.
  destruct (sameList ResourceIDsEqual (mcs_PendingAssignedClusters existing) kept) eqn:Es; simpl.
  - apply Forall_forall. intros x Hx. apply keeps_needed. revert x Hx. apply filter_all. rewrite <- Hkept.
    unfold sameList in Es. apply andb_true_iff in Es as [Es%Nat.eqb_eq _]. done.
  - split; [done|]. split.
    { intros pending. rewrite Hkept, !list_elem_of_In, filter_In, <- !list_elem_of_In, keeps_needed. done. }
    split.
    { rewrite Hkept. destruct (Nat.eq_dec (length (mcs_PendingAssignedClusters existing)) (length kept)) as [E|E].
      - exfalso. rewrite Hkept in E. rewrite (filter_keeps_all _ _ (filter_all _ _ E)) in Hkept. subst kept.
        by rewrite (sameList_refl _ _ ResourceIDsEqual_refl) in Es.
      - rewrite Hkept in E. pose proof (List.filter_length_le (keeps serviceProviders cached managementCluster) (mcs_PendingAssignedClusters existing)). lia. }
    destruct (0 <? length kept)%nat; simpl; [|done].
    rewrite (keptPending_idem _ _ _ _ _ Ek). by rewrite unchanged_pending, (sameList_refl _ _ ResourceIDsEqual_refl).
Qed.

(** *** A placement that is interrupted *)

(** The reads of the pass that follows a reservation. *)
Definition afterReservation (stamp : string) (d : ManagementClusterScheduling Q) (reads : placementReads Q R) : placementReads Q R := {|
  plr_serviceProvider := plr_serviceProvider reads; plr_clusters := plr_clusters reads; plr_cluster := plr_cluster reads;
  plr_managementClusters := plr_managementClusters reads;
  plr_schedulings := λ s, if String.eqb s stamp then Ok d else plr_schedulings reads s;
  plr_reserve := plr_reserve reads; plr_record := plr_record reads |}.

(** (C10) The code does not do what its comment says: after a pass that reserved but could not
    record the placement, the cluster's own reservation counts as taken.  Where the only
    management cluster has room for one but not for two, the next pass finds no capacity,
    reserves and places nothing, and the cleanup keeps the reservation; so it goes on. *)
Theorem interrupted_placement_starves now now' cluster (reads : placementReads Q R) stamp d etag managementCluster serviceProvider c existing :
  plr_clusters reads = clusters → clusters cluster = Some c → plr_cluster reads = Ok c → plr_serviceProvider reads = Ok serviceProvider →
  plr_managementClusters reads = Ok [Some managementCluster] → plr_schedulings reads stamp = Ok existing → sound existing →
  po_reserved (placement_SyncOnce now cluster reads) = Some (stamp, d) →
  swiftNICCount (availableResources clusters (Some existing)) < 2 * swiftNICsForCluster (Some c) →
  let again := placement_SyncOnce now' cluster (afterReservation stamp (withSchedulingEtag etag d) reads) in
  po_reserved again = None ∧ (∀ p, po_recorded again = Some p → psp_SpecManagementClusterResourceID p = None) ∧
  (po_retry again = true ∨ is_Some (po_error again)) ∧
  (psp_StatusManagementClusterResourceID serviceProvider = None →
   ∀ serviceProviders cached m, serviceProviders cluster = Ok serviceProvider → cached cluster = Ok c →
     keeps serviceProviders cached m (Some cluster) = true).
Proof.
  intros Hcl Hc Hclus Hsp Hmc Hex Hsound Hpo Hfew. cbv zeta.
  destruct (placement_reserves _ _ _ _ _ Hpo) as (c' & existing' & mcs & mc & Hclus' & Hex' & Hmcs & Hin & Hstamp & [m Hm] & Hfit & Hd).
  rewrite Hclus in Hclus'. rewrite Hex in Hex'. rewrite Hmc in Hmcs. injection Hclus' as <-. injection Hex' as <-. injection Hmcs as <-.
  apply list_elem_of_singleton in Hin. injection Hin as ->. rewrite Hcl in Hfit.
  assert (Hneeds : placement_needsWork serviceProvider c = true).
  { unfold placement_SyncOnce in Hpo. rewrite Hsp, Hclus in Hpo. by destruct (placement_needsWork serviceProvider c). }
  assert (Hspec : psp_SpecManagementClusterResourceID serviceProvider = None).
  { unfold placement_needsWork in Hneeds. case_bool_decide as E; [done|]. by destruct (psp_SpecManagementClusterResourceID serviceProvider); [destruct E|]. }
  assert (Hnics : nicsOf cluster = swiftNICsForCluster (Some c)) by (unfold nicsOf, swiftNICsForResourceID; by rewrite Hc).
  assert (Hnext : sound (withSchedulingEtag etag d)) by (subst d; apply sound_etag, reserve_sound; [done|by rewrite Hnics]).
  assert (Hav : swiftNICCount (availableResources clusters (Some (withSchedulingEtag etag d))) < swiftNICsForCluster (Some c)).
  { rewrite (sound_available _ Hnext). rewrite (sound_available _ Hsound) in Hfew. revert Hfew. subst d. rewrite <- Hnics.
    unfold nicReserved, nicSupply, nicBase. simpl. rewrite omap_app, fmap_app, Zsum_app.
    assert (Zsum (nicsOf <$> omap id [Some cluster]) = nicsOf cluster) as -> by (unfold Zsum; simpl; lia). lia. }
  assert (Hagain : ∃ condition,
    let '(recorded, failure) := recordPlacementDecision now' serviceProvider None condition (plr_record reads) in
    placement_SyncOnce now' cluster (afterReservation stamp (withSchedulingEtag etag d) reads)
    = {| po_reserved := None; po_recorded := recorded; po_retry := negb (bool_decide (is_Some failure)); po_error := failure |}).
  { unfold placement_SyncOnce, placeCluster. simpl. rewrite Hsp, Hclus, Hneeds, Hmc, Hcl. simpl. rewrite Hm, <- Hstamp, String.eqb_refl.
    set (scheduling := if negb (String.eqb stamp EmptyString) then _ else _).
    assert (Hsch : ∃ sch, scheduling = Ok sch ∧ (sch = None ∨ sch = Some (withSchedulingEtag etag d))) by (subst scheduling; destruct (negb _); eauto).
    destruct Hsch as (sch & -> & Hsch). simpl. unfold selectByCapacity.
    destruct (fold_left (selectStep (swiftNICsForCluster (Some c))) [evaluateManagementCluster clusters now' m managementCluster sch] None) as [chosen|] eqn:Ef.
    - exfalso. apply selected_fits in Ef as [ ->%list_elem_of_singleton [Hel Hf]]. unfold availableNICs in Hf.
      destruct (evaluate_facts clusters now' m managementCluster sch) as (_ & _ & Ha & _ & Hsome). rewrite Ha in Hf.
      destruct Hsch as [ -> | ->]; [destruct (Hsome Hel) as [? [=]]|exact (Zlt_not_le _ _ Hav Hf)].
    - exists (noPlacementCondition [evaluateManagementCluster clusters now' m managementCluster sch] (swiftNICsForCluster (Some c))).
      cbv iota. by destruct (recordPlacementDecision _ serviceProvider None _ _). }
  destruct Hagain as [condition Hagain]. unfold recordPlacementDecision in Hagain.
  assert (Hcase : ∃ recorded failure, placement_SyncOnce now' cluster (afterReservation stamp (withSchedulingEtag etag d) reads)
      = {| po_reserved := None; po_recorded := recorded; po_retry := negb (bool_decide (is_Some failure)); po_error := failure |} ∧
    ∀ p, recorded = Some p → p = withPlacement now' None condition serviceProvider).
  { destruct (negb (placementNeedsUpdate _ _)); eexists _, _; (split; [exact Hagain|]); [done|by intros p [= <-]]. }
  destruct Hcase as (recorded & failure & -> & Hrec). simpl. split_and!; [done| | |].
  - intros p ->%Hrec. exact Hspec.
  - case_bool_decide; [by right|by left].
  - intros Hstatus sps cached m' Hs Hcc. unfold keeps, shouldKeepPending, effectivePlacement. rewrite Hs, Hstatus, Hspec, Hcc.
    unfold placement_needsWork in Hneeds. rewrite Hspec in Hneeds. exact Hneeds.
Qed.
End reservations.

(** ** Reports *)

Section reports.
Context {Q : Type} `{QuantityLaws Q} `{ConditionLaws}.

Lemma set_twice now now' conditions c :
  SetStatusCondition now' (SetStatusCondition now conditions c) c = SetStatusCondition now conditions c.
Proof. destruct (SetStatusCondition_same now conditions c) as (c' & Hf & Hs). by eapply SetStatusCondition_unchanged. Qed.

(** Only the time of transition differs, which does not count for a condition that is there. *)
Lemma set_again now now' conditions c c2 : saysSame c c2 → sc_Type c = sc_Type c2 →
  SetStatusCondition now' (SetStatusCondition now conditions c) c2 = SetStatusCondition now conditions c.
Proof.
  intros Hs Ht. destruct (SetStatusCondition_same now conditions c) as (c' & Hf & Hc). rewrite Ht in Hf.
  apply (SetStatusCondition_unchanged _ _ _ c'); [done|]. unfold saysSame in *. intuition congruence.
Qed.

Lemma dropObserved_idem pending ready notReady :
  dropObservedPendingAssignments (dropObservedPendingAssignments pending ready notReady) ready notReady
  = dropObservedPendingAssignments pending ready notReady.
Proof.
  unfold dropObservedPendingAssignments. apply filter_keeps_all. intros x Hx. rewrite list_elem_of_In, filter_In in Hx. apply Hx.
Qed.

Lemma same_needs_no_update (a b : ManagementClusterScheduling Q) : withSchedulingEtag 0 a = withSchedulingEtag 0 b → schedulingNeedsUpdate a b = false.
Proof.
  destruct a, b. unfold withSchedulingEtag. simpl. intros [= <- <- <- <- <- <-]. unfold schedulingNeedsUpdate. simpl.
  rewrite !bool_decide_eq_true_2 by done. by rewrite !sameResources_refl, !(sameList_refl _ _ ResourceIDsEqual_refl).
Qed.

(** A report is written once: as long as a management cluster reports the same, and its node
    pools can grow to the same, neither controller writes the document again, however late
    it looks. *)
Theorem reports_settle :
  (∀ ParseResourceID clock clock' report existing replace d etag,
    (capacityReporting_SyncOnce ParseResourceID clock (Ok (Some report)) (Ok existing) replace).1 = Some d →
    capacityReporting_SyncOnce ParseResourceID clock' (Ok (Some report)) (Ok (withSchedulingEtag etag d)) replace = (None, None)) ∧
  (∀ capacity now now' existing replace d etag,
    (persistMaxCapacity (Q := Q) capacity now existing replace).1 = Some d →
    persistMaxCapacity capacity now' (withSchedulingEtag etag d) replace = (None, None)).
Proof.
  split.
  - intros parse clock clock' report existing replace d etag Hw. apply replaceIfChanged_written in Hw as [-> _].
    simpl. unfold replaceIfChanged. rewrite same_needs_no_update; [done|]. unfold observedDocument, withSchedulingEtag. simpl.
    by rewrite set_twice, dropObserved_idem.
  - intros capacity now now' existing replace d etag Hw.
    assert (Hd : d = ceilingDocument capacity now (Some now) existing).
    { revert Hw. unfold persistMaxCapacity. cbv zeta. destruct (_ && _); [done|]. by intros [= <-]. }
    subst d. unfold persistMaxCapacity. simpl. rewrite same_needs_no_update; [done|].
    unfold ceilingDocument, withSchedulingEtag. simpl. f_equal. symmetry. by apply set_again.
Qed.
End reports.

(** ** Placements *)

Module PlacementExample.
Import StatusInstances.

(** Quantities that are counts. *)
#[export] Instance countOps : QuantityOps Z := {
  q_zero := 0; q_NewQuantity n _ := n; q_NewMilliQuantity n _ := Z.quot n 1000; q_Format _ := DecimalSI; q_Value q := q;
  q_MilliValue q := 1000 * q; q_Sign := Z.sgn; q_Cmp a b := Z.sgn (a - b); q_Add := Z.add; q_Sub := Z.sub; q_Float := float64 }.

#[export] Instance countLaws : QuantityLaws Z.
Proof.
  refine {| q_whole := λ _, True |}; simpl; try done. intros q. by rewrite Z.sub_diag.
Defined.

Definition rid (name stamp : string) : ResourceID := {|
  rid_SubscriptionID := "sub"; rid_ResourceGroupName := "rg"; rid_Name := name; rid_ResourceType := "type"; rid_String := "/" +:+ stamp +:+ "/" +:+ name;
  rid_Parent := Some {| parent_Name := stamp; parent_String := "/" +:+ stamp |} |}.
Definition hcp (name : string) : ResourceID := rid name "rg".
Definition isTrue (t : string) : StatusCondition :=
  {| sc_Type := t; sc_Status := ConditionTrue; sc_Reason := "Ok"; sc_Message := EmptyString; sc_LastTransitionTime := 0 |}.
Definition mc (stamp : string) : ManagementCluster := {|
  mc_ResourceID := Some (rid "mc" stamp); mc_SchedulingPolicy := ManagementClusterSchedulingPolicySchedulable;
  mc_Conditions := [isTrue ManagementClusterConditionReady] |}.

(** A document with so many interfaces and the load of its processors. *)
Definition doc (etag nics load : Z) (pending : list (option ResourceID)) : ManagementClusterScheduling Z := {|
  mcs_Etag := etag; mcs_Conditions := [isTrue ConditionTypeCapacityDataCurrent; isTrue ConditionTypeScalingDataCurrent];
  mcs_Observed := {| or_LastReportedAt := Some 0; or_Capacity := {[ResourceCPU := 8; ResourceMemory := 64]};
                     or_Usage := {[ResourceCPU := load; ResourceMemory := 16]}; or_Requests := {[ResourceCPU := 1; ResourceMemory := 8]} |};
  mcs_ReadyResourceIDs := []; mcs_NotReadyResourceIDs := [];
  mcs_ScaleCeiling := {| ceil_LastReportedAt := Some 0; ceil_Capacity := {[SwiftNICResourceName := nics]} |};
  mcs_PendingAssignedClusters := pending |}.

Definition pcluster (subnet : option ResourceID) (availability : string) : PlacedCluster := {|
  pcl_VnetIntegrationSubnetID := subnet; pcl_ControlPlaneAvailability := availability; pcl_DeletionTimestamp := None;
  pcl_ProvisioningState := "Accepted"; pcl_ClusterServiceID := None |}.
Definition large : PlacedCluster := pcluster (Some (hcp "subnet")) "HighlyAvailable".
Definition small : PlacedCluster := pcluster (Some (hcp "subnet")) SingleReplicaControlPlane.
Definition clusterCache (id : ResourceID) : option PlacedCluster :=
  if String.eqb (rid_Name id) "large" then Some large else if String.eqb (rid_Name id) "small" then Some small else None.
Definition unplaced : PlacedServiceProvider unit := {|
  psp_SpecManagementClusterResourceID := None; psp_StatusManagementClusterResourceID := None; psp_PlacementConditions := None; psp_rest := tt |}.

Definition schedulings (docs : list (string * ManagementClusterScheduling Z)) (stamp : string) : result getError (ManagementClusterScheduling Z) :=
  match (list_to_map docs : gmap string (ManagementClusterScheduling Z)) !! stamp with Some d => Ok d | None => Err GetNotFound end.

(** Two management clusters: one with more interfaces, one with less load. *)
Definition two : list (string * ManagementClusterScheduling Z) := [("busy", doc 1 9 6 []); ("calm", doc 1 5 2 [])].
Definition evaluated : list (managementClusterEvaluation Z) :=
  match evaluateManagementClusters clusterCache 1 (schedulings two) [Some (mc "busy"); None; Some (mc "calm")] with
  | Ok evaluations => evaluations | Err _ => [] end.

Lemma placement_choice_witness :
  (selectByCapacity evaluated 3).1 = (Some (rid "mc" "busy"), Some (doc 1 9 6 [])) ∧
  (selectByCapacity evaluated 0).1 = (Some (rid "mc" "calm"), Some (doc 1 5 2 [])) ∧
  ∀ listed, listed ≡ₚ evaluated → (selectByCapacity listed 0).1 = (selectByCapacity evaluated 0).1.
Proof.
  split; [vm_compute; reflexivity|]. split; [vm_compute; reflexivity|].
  apply (placement_choice clusterCache 1 (schedulings two) [Some (mc "busy"); None; Some (mc "calm")] evaluated 0).
  - vm_compute. reflexivity.
  - apply (bool_decide_unpack _). vm_compute. exact I.
Defined.

(** *** Two placements one after the other *)

Definition start : gmap string (list (ManagementClusterScheduling Z)) := {["calm" := [doc 1 5 2 []]]}.
Definition readsOf (w : gmap string (list (ManagementClusterScheduling Z))) (stale : ManagementClusterScheduling Z) (c : PlacedCluster) : placementReads Z unit := {|
  plr_serviceProvider := Ok unplaced; plr_clusters := clusterCache; plr_cluster := Ok c; plr_managementClusters := Ok [Some (mc "calm")];
  plr_schedulings := schedulings [("calm", stale)]; plr_reserve := etagCheck w; plr_record := λ _, Some PreconditionFailed |}.
Definition reservedDoc : ManagementClusterScheduling Z := doc 1 5 2 [Some (hcp "large")].
Definition middle : gmap string (list (ManagementClusterScheduling Z)) := commit start "calm" reservedDoc 2.
Definition bothDoc : ManagementClusterScheduling Z := doc 2 5 2 [Some (hcp "large"); Some (hcp "small")].
Definition final : gmap string (list (ManagementClusterScheduling Z)) := commit middle "calm" bothDoc 3.

Lemma placement_start_inv : reservationInv clusterCache start.
Proof.
  intros stamp. unfold versions, start. destruct (decide (stamp = "calm")) as [ ->|Hne].
  - rewrite lookup_singleton_eq. simpl. split; [repeat constructor; vm_compute; congruence|apply NoDup_singleton].
  - rewrite lookup_singleton_ne by done. simpl. split; constructor.
Qed.

Lemma only_calm (w : gmap string (list (ManagementClusterScheduling Z))) stale s d :
  stale ∈ versions w "calm" → schedulings [("calm", stale)] s = Ok d → d ∈ versions w s.
Proof.
  intros Hin. unfold schedulings. simpl. destruct (decide (s = "calm")) as [ ->|Hne].
  - rewrite lookup_insert_eq. by intros [= <-].
  - rewrite lookup_insert_ne by done. by rewrite lookup_empty.
Qed.

Lemma two_placements : reservationRun (R := unit) clusterCache start ([Accepted "calm" (hcp "large")] ++ [Accepted "calm" (hcp "small")]) final.
Proof.
  eapply (run_step _ _ _ middle); [apply (run_step _ _ [] start); [apply run_start|]|].
  - apply (step_placed _ start 1 (hcp "large") (readsOf start (doc 1 5 2 []) large) "calm" reservedDoc 2); try done.
    + by intros c [= <-].
    + intros s d Hd. apply (only_calm start (doc 1 5 2 [])); [|exact Hd]. unfold versions, start. rewrite lookup_singleton_eq. by left.
    + apply (bool_decide_unpack _). vm_compute. exact I.
  - apply (step_placed _ middle 1 (hcp "small") (readsOf middle (withSchedulingEtag 2 reservedDoc) small) "calm" bothDoc 3); try done.
    + by intros c [= <-].
    + intros s d Hd. apply (only_calm middle (withSchedulingEtag 2 reservedDoc)); [|exact Hd]. by left.
    + apply (bool_decide_unpack _). vm_compute. exact I.
Qed.

Lemma reservations_never_overbook_witness :
  mcs_PendingAssignedClusters (withSchedulingEtag 3 bothDoc) = [Some (hcp "large"); Some (hcp "small")] ∧
  nicReserved clusterCache (withSchedulingEtag 3 bothDoc) <= nicSupply (withSchedulingEtag 3 bothDoc) ∧
  swiftNICCount (availableResources clusterCache (Some (withSchedulingEtag 3 bothDoc))) = 1.
Proof.
  destruct (reservations_never_overbook (R := unit) clusterCache start _ final placement_start_inv two_placements "calm" (doc 1 5 2 []) (withSchedulingEtag 3 bothDoc))
    as (Hp & Hb & Ha); [vm_compute; reflexivity..|].
  split_and!; [rewrite Hp; vm_compute; reflexivity|exact (Hb I)|rewrite Ha; vm_compute; reflexivity].
Defined.

(** Five interfaces and a cluster that needs three: the reservation was accepted, the
    placement could not be recorded, and from then on the cluster waits for itself. *)
Lemma interrupted_placement_starves_witness :
  let again := placement_SyncOnce 2 (hcp "large") (afterReservation "calm" (withSchedulingEtag 2 reservedDoc) (readsOf start (doc 1 5 2 []) large)) in
  po_reserved again = None ∧ (∀ p, po_recorded again = Some p → psp_SpecManagementClusterResourceID p = None) ∧
  (po_retry again = true ∨ is_Some (po_error again)) ∧
  (psp_StatusManagementClusterResourceID unplaced = None →
   ∀ serviceProviders cached m, serviceProviders (hcp "large") = Ok unplaced → cached (hcp "large") = Ok large →
     keeps serviceProviders cached m (Some (hcp "large")) = true).
Proof.
  apply (interrupted_placement_starves clusterCache 1 2 (hcp "large") (readsOf start (doc 1 5 2 []) large) "calm" reservedDoc 2 (mc "calm") unplaced large (doc 1 5 2 []));
    [reflexivity..| | |].
  - split; [exact I|vm_compute; reflexivity|vm_compute; congruence].
  - vm_compute. reflexivity.
  - vm_compute. reflexivity.
Defined.

(** What the second pass records is that there is no capacity. *)
Example starving_condition :
  let again := placement_SyncOnce 2 (hcp "large") (afterReservation "calm" (withSchedulingEtag 2 reservedDoc) (readsOf start (doc 1 5 2 []) large)) in
  (list_fmap _ _ sc_Reason ∘ default [] ∘ psp_PlacementConditions <$> po_recorded again) = Some [CapacityReasonInsufficientCapacity].
Proof. vm_compute. reflexivity. Qed.

(** The estimates of the repository's tests. *)
Example contentions :
  resourceContention (Some (doc 1 5 2 [])) 1 = Some (fdiv (float64 1) (float64 4)) ∧
  resourceContention (Some (doc 1 5 6 [])) 1 = Some (fdiv (float64 3) (float64 4)) ∧
  resourceContention (Some (doc 1 5 6 [])) (5 * Minute + 1) = None.
Proof. split_and!; vm_compute; reflexivity. Qed.
End PlacementExample.
